(* ===== verification/_CoqProject ===== *)
-Q . S2P
Prelude.v
Text.v
Utf8.v
Model.v
Guacamole.v
Handshake.v
Ip.v
Network.v
Inventory.v
Requests.v
Access.v
Agent.v
Session.v
AccessRequests.v
Vault.v
Keyring.v
Connectors.v
Store.v
Folders.v
Devices.v
Profiles.v
Catalog.v
Sid.v
Totp.v
Grants.v
People.v
Webauthn.v
Factors.v
BreakGlass.v
Limiter.v
Proxy.v
SignIn.v
Escrow.v
Personal.v
Recovery.v
Fields.v
Entries.v
History.v
Site.v
Extension.v
Reports.v
CustomerRequests.v
Connect.v
Display.v
Terminal.v
ConnectorText.v
ConnectorUsers.v
ConnectorPages.v
ConnectorUi.v
AuditLog.v
Setup.v
Ldap.v
DirectorySettings.v
Tree.v
Config.v
Certificate.v
Mail.v
