(* ===== verification/Prelude.v ===== *)
(** * remotehub: a verification library

    remotehub keeps devices, their logins and passwords, and lets people
    connect to them from a browser; a connector on a customer's network opens
    the connections there, under the customer's own switch. This library
    models the parts of the server, its crates and the connector that decide
    something: who may do what, what opens and closes, what is sealed and
    shown, who is signed in. The sources are under src/crates/.

    ** How the files follow the code

    - [Prelude], [Text], [Utf8]: results and early returns ([let?]), handlers
      that change a world step by step ([stM]), Rust's strings, characters and
      their UTF-8; lemmas and tactics the others share.
    - [Model] (model/src/lib.rs): the catalog of grants, paths to the root,
      effective roles, [authorize], what is visible. Every handler asks it.
    - [Sid] (directory/src/sid.rs), [Session] (server/src/session.rs,
      api/confirm.rs): sessions, their lock and what keeps them alive.
    - [AccessRequests] (api/requests.rs, catalog.rs) and [Grants]
      (api/catalog.rs, principal.rs): asking for access, approving it, adding
      and removing grants; both change the table [Model] is loaded from.
    - [Store], [Folders], [Devices], [Profiles], [Catalog] (api/catalog.rs,
      api/profiles.rs): the tables of folders, devices and login profiles,
      their handlers, and what holds of all of them together.
    - [Vault], [Keyring] (vault/src/lib.rs, keyring.rs): sealing of secrets
      and the file of master keys.
    - [Fields], [Entries], [History] (api/fields.rs, api/catalog.rs,
      api/collections.rs, api/attachments.rs, api/reveal.rs): vault entries
      with their versions, recycle bin and files. [History] states what the
      vault promises, histories of entries as an abstract machine, and shows
      that the tables implement it.
    - [People] (api/users.rs, groups.rs, roles.rs, journal.rs): users, groups,
      roles and rules, with the calls to Kratos in between.
    - [Totp] (totp/src/lib.rs), [Webauthn] (server/src/webauthn.rs), [Factors]
      (second_factor.rs, api/second_factor.rs, api/confirm.rs): one-time
      codes, security keys and their use. [BreakGlass] (break_glass.rs):
      accounts that work without the directory.
    - [Limiter] (auth.rs), [Proxy] (proxy.rs), [SignIn] (api/session.rs,
      api/accounts.rs): the limit on wrong passwords, who the client is behind
      proxies, and the ways to a session, on top of [Factors], [BreakGlass]
      and [Session].
    - [Escrow] (vault/src/escrow.rs, server/src/escrow.rs): the master keys
      sealed for the recovery key. [Personal] (api/personal.rs): vaults whose
      contents only their owners read. [Recovery] (api/recovery.rs): the
      organisation's keys and the recoveries two people take part in; its
      step relation runs the handlers of both files.
    - [Site] (site.rs), [Extension] (api/extension.rs): which pages a login
      belongs to, connecting a browser extension and what it is handed.
    - [Reports] (api/reports.rs, access.rs): the reports on who reaches what.
    - [CustomerRequests] (api/connector_requests.rs, connectors.rs): asking a
      customer for access, and the reports of connectors; its theorems join
      the server's side with [Requests] and [Agent] on the connector's.
    - [Connect] (api/connect.rs, refresh.rs, directory/src/laps.rs), [Display]
      (api/display.rs), [Terminal] (api/terminal.rs, gateway/src/ssh.rs): from
      the request for a connection to its end: rights, purpose, credentials,
      the way to the device, certificates and host keys, and the relays. They
      read the tables of [Store] and [SignIn] and the registry of
      [Connectors], and drive [Handshake] and the scanner of [Guacamole].
    - [ConnectorUsers] (connector/src/users.rs), [ConnectorText]
      (i18n/src/lib.rs), [ConnectorPages] and [ConnectorUi] (connector/src/ui.rs):
      the web interface the customer's people use: its users, the language it
      answers in, the HTML it writes and its requests, on top of [Access],
      [Requests] and [Totp].
    - [AuditLog] (audit.rs, api/audit.rs): the chain of hashes, its check and
      its pages. [Setup] (setup.rs, api/setup.rs): the wizard of the first
      start and what is served before it is done.
    - [Ldap] (directory/src/ldap.rs): what is asked of a directory, as
      programs that get any answers; [DirectorySettings] (check.rs,
      directory.rs, api/directory.rs): checking, saving and removing its
      settings.
    - [Tree] (api/catalog.rs, `tree`): what the page of folders and devices
      sends a user, from the tables of [Store].
    - [Config] (config.rs, downloads.rs, api/origin.rs, connector/src/settings.rs):
      the settings both programs start with, the files offered for download,
      and which requests count as coming from the own pages.
    - [Certificate] (certificate.rs, caddy.rs, api/certificate.rs, the start in
      main.rs): a certificate of one's own, from its upload to the files of
      Caddy, with accesses that fail and answers Caddy may give.
    - [Mail] (mail.rs, api/mail.rs, api/courier.rs): the mail server, the mails
      sent through it and those Kratos hands over.
    - [Guacamole], [Handshake] (gateway/src/guacamole.rs): the protocol of
      displays, reassembled from the pieces a socket delivers.
    - [Ip], [Network], [Inventory], [Requests], [Access], [Agent]
      (connector/src/): address ranges, the customer's list, requests of
      remotehub, the access the customer opens, and what the agent connects
      to; [Connectors] (server/src/connectors.rs): the server's side of it.

    A handler is a function of the tables it reads and writes that returns the
    new tables or the problem it answers, in the order of the code's checks.
    Where the code reads before its transaction, the handler takes what it saw
    ([seen]) apart from the tables at its commit ([db]), so that others may
    have written in between; where a later step trusts an earlier read, the
    race is an Example. A map that the database orders is a [gmap], a table
    with rows of its own order a list. Integers keep their width where the
    code's arithmetic can reach it. What the operating system or the database
    draws (keys, tokens, random bytes, the time) is an argument.

    ** What the theorems show

    - Rights: [authorize] gives exactly what grants give ([Model]); an
      approval, a grant or a change of members gives exactly what it says and
      reaches nothing else ([AccessRequests], [Grants], [People]); an
      administrator remains as long as no account or group is deleted.
    - The catalog: under any sequence of requests the tables stay consistent,
      logins go to another target only with someone who may use them, and
      pins are forgotten when a target changes ([Catalog]).
    - Secrets: sealed values open in their own place only ([Vault]); the
      vault's tables refine the histories of entries, a change seals exactly
      what it was given, revealing shows the version asked for, purging leaves
      nothing ([History]).
    - Signing in: a session begins only with all its way asks for
      ([SignIn]), codes and challenges count once ([Factors]), guesses are
      bounded ([Limiter]), a blocked user stays out ([People]), a locked
      session stays locked ([Session]).
    - The connector: no connection without access, access open exactly as
      long as the customer said, files that fail half-way keep the stored
      access consistent ([Access], [Agent]); only the connector asked answers
      ([Connectors]).
    - Protocols and formats: parsing what was printed gives it back, pieces of
      a stream are reassembled whatever their cuts, and the handshake
      completes ([Guacamole], [Handshake], [Ip], [Network], [Inventory], [Sid],
      [Totp], [Webauthn]).
    - Personal vaults: nobody but the owner changes one, a recovery takes an
      administrator and a security officer, and a covered vault can be
      recovered as long as browsers name its key as they were told ([Recovery]); the key file comes back ([Escrow]).
    - Beyond the browser: an extension's session comes from one code, its
      secrets leave for their own site ([Extension]); the reports say what
      [authorize] answers ([Reports]); what waits for a customer reaches them
      and only they answer, and which reports are refused ([CustomerRequests]).
    - Connections: one opens only with everything that is asked for and to
      the device that was pinned, its login goes nowhere else, and the relay
      passes exactly what a browser may send ([Display], [Terminal]); the
      directory's answer reaches running sessions ([Connect]).
    - The customer's side: whatever the web interface changes is changed by
      someone who signed in with all they need, wrong sign-ins are few, a form and an approval
      change exactly what they say ([ConnectorUi]), what users are shown signs
      in ([ConnectorUsers]), and the pages hold no markup but their own
      ([ConnectorPages]).
    - The log and the start: whatever transactions do the log verifies, and a
      noted hash pins it ([AuditLog]); setup never opens again and one code
      makes one administrator ([Setup]).
    - The directory: a typed password goes only to the entry of the typed
      name, which stays a name ([Ldap]); settings are checked before they are
      used, and another directory ends its users' sessions
      ([DirectorySettings]).
    - What is shown and served: the tree holds nothing a user may not see and
      hangs together ([Tree]); settings that are read are sound and changes
      come from the own pages ([Config]); Caddy serves what is stored,
      until something fails on the way ([Certificate]); mail passwords go over TLS only, and mails hold no
      markup but their own ([Mail]).

    ** Bounds and fuel

    The walk to the root ([Model.path]) and the recursive queries take as many
    steps as there are folders, and [path_terminates] shows a walk without a
    loop never needs more. Decimal numbers are printed with one digit's fuel
    per bit. Readers of bytes (UTF-8, COSE keys, the Guacamole scanner) recurse
    on what is left to read. Queues of the connector registry are lists; their
    limits are the code's constants.

    ** What is not modelled

    Third-party code is a parameter, as a class with its documented laws where
    a proof needs them: ciphers, hashes, HMAC, argon2, P-256, base32 and
    base64, UUID text, RFC 3339, JSON, Unicode case tables, SSH key parsing,
    Kratos and the directory's answers. PostgreSQL's failures other than
    violated constraints are left out. Sockets, TLS, processes, the file
    system beyond failing reads and writes, the texts of
    the catalogs, and the code in
    TypeScript are not modelled. The
    browser service, RDP's and TLS' probes, the verifier of the directory's
    certificate, the picks of the search and the settings of the password
    generator are left out: they mostly hand bytes or rows on.
    Journal entries whose file write fails, which only the file lacks, and
    connections of one id are as the comments of [Access] and [Agent] say; the
    tree is without the times of changes.
    Sorting by the database is left out where nothing depends on the order. *)

From stdpp Require Export base tactics decidable countable gmap strings list relations sets.
From stdpp Require Export fin_maps fin_sets.
From Stdlib Require Export ZArith Lia.

#[export] Set Warnings "-clear-no-such-hyp".
#[global] Open Scope Z_scope.

(** ** Results *)

(** Rust's [Result<A, E>]: fallible code returns one of the two, errors included. *)
Inductive result (A E : Type) : Type :=
| Ok (a : A)
| Err (e : E).
Arguments Ok {A E} a.
Arguments Err {A E} e.

Declare Scope rust_scope.
Delimit Scope rust_scope with rust.
#[global] Open Scope rust_scope.

(** [let? x := c in k]: Rust's [?], returning early with the error of [c]. *)
Notation "'let?' x := c 'in' k" :=
  (match c with Ok x => k | Err e => Err e end)
  (at level 10, x pattern, c at level 200, k at level 200) : rust_scope.

(** [ok_or o e]: Rust's [Option::ok_or]. *)
Definition ok_or {A E : Type} (o : option A) (e : E) : result A E :=
  match o with Some a => Ok a | None => Err e end.

(** [Result::ok]. *)
Definition ok {A E : Type} (r : result A E) : option A :=
  match r with Ok a => Some a | Err _ => None end.

Definition is_ok {A E : Type} (r : result A E) : bool :=
  match r with Ok _ => true | Err _ => false end.

#[export] Instance result_eq_dec {A E} `{EqDecision A, EqDecision E} :
  EqDecision (result A E).
Proof. solve_decision. Defined.

(** ** Effects

    Code that changes a state of the world [W] step by step: an early return
    keeps what was done before it. *)
Definition stM (W E A : Type) : Type := W -> result A E * W.

Definition ret {W E A : Type} (a : A) : stM W E A := fun w => (Ok a, w).
Definition fail {W E A : Type} (e : E) : stM W E A := fun w => (Err e, w).
Definition bindM {W E A B : Type} (m : stM W E A) (k : A -> stM W E B) : stM W E B :=
  fun w => match m w with
           | (Ok a, w') => k a w'
           | (Err e, w') => (Err e, w')
           end.

Notation "x <-- m ; k" := (bindM m (fun x => k))
  (at level 100, m at next level, k at level 200, right associativity) : rust_scope.
Notation "m ;; k" := (bindM m (fun _ => k))
  (at level 100, k at level 200, right associativity) : rust_scope.

(** [Option::is_some_and]. *)
Definition is_some_and {A : Type} (f : A -> bool) (o : option A) : bool :=
  match o with Some a => f a | None => false end.

Definition is_some {A : Type} (o : option A) : bool :=
  match o with Some _ => true | None => false end.

Lemma is_some_and_true {A} (f : A -> bool) (o : option A) :
  is_some_and f o = true <-> exists a, o = Some a /\ f a = true.
Proof. destruct o as [a|]; simpl; split; [eauto|by intros (?&[= ->]&?)|done|by intros (?&?&?)]. Qed.

Lemma is_some_true {A} (o : option A) : is_some o = true <-> is_Some o.
Proof. destruct o; simpl; split; [by eexists|done|done|by intros [? ?]]. Qed.

Lemma is_some_false {A} (o : option A) : is_some o = false <-> o = None.
Proof. by destruct o. Qed.

(** ** Strings

    A Rust [str] is a sequence of Unicode scalar values; a [char] is one of
    them. The UTF-8 bytes of a string, where the code counts or indexes
    bytes, are in [Text]. *)
Abbreviation str := (list Z) (only parsing).

(** An ASCII literal as the sequence of its code points. *)
Definition lit (s : string) : list Z :=
  (fun a => Z.of_N (Ascii.N_of_ascii a)) <$> String.list_ascii_of_string s.

(** A [Uuid] is a 128-bit number; its text form belongs to the crate [uuid]. *)
Abbreviation Uuid := Z (only parsing).

(** [Uuid::to_string] (crate [uuid]). *)
Class UuidText := uuid_text : Uuid -> list Z.

(** [Uuid::from_str] (crate [uuid]), which gives 128 bits and reads what
    [Uuid::to_string] writes. *)
Class UuidParse := uuid_parse : list Z -> option Uuid.
Class UuidOk `{UuidText, UuidParse} : Prop := {
  uuid_range : forall s i, uuid_parse s = Some i -> 0 <= i < 2 ^ 128;
  uuid_reads_back : forall i, 0 <= i < 2 ^ 128 -> uuid_parse (uuid_text i) = Some i
}.

(** ** Maps collected from a sequence

    [into_iter().collect::<HashMap<_, _>>()]: a later pair replaces an
    earlier one of the same key. *)
Definition collect {K V : Type} `{Countable K} (l : list (K * V)) : gmap K V :=
  foldl (fun m kv => <[kv.1 := kv.2]> m) ∅ l.

Lemma collect_snoc {K V} `{Countable K} (l : list (K * V)) k v :
  collect (l ++ [(k, v)]) = <[k := v]> (collect l).
Proof. unfold collect. by rewrite foldl_app. Qed.

Lemma collect_lookup_is_Some {K V} `{Countable K} (l : list (K * V)) k :
  is_Some (collect l !! k) <-> k ∈ l.*1.
Proof.
  induction l as [|[k' v'] l IH] using rev_ind.
  - unfold collect; simpl. rewrite lookup_empty. split; [by intros [? ?]|set_solver].
  - rewrite collect_snoc, fmap_app, lookup_insert.
    case_decide; subst; simpl.
    + split; [set_solver|eauto].
    + rewrite IH. set_solver.
Qed.

Lemma collect_lookup_elem {K V} `{Countable K} (l : list (K * V)) k v :
  collect l !! k = Some v -> (k, v) ∈ l.
Proof.
  induction l as [|[k' v'] l IH] using rev_ind.
  - unfold collect; simpl. by rewrite lookup_empty.
  - rewrite collect_snoc, lookup_insert. case_decide; simplify_eq.
    + set_solver.
    + intros Hl. set_solver.
Qed.

(** With distinct keys the collected map holds exactly the pairs of the list. *)
Lemma collect_lookup_nodup {K V} `{Countable K} (l : list (K * V)) k v :
  NoDup l.*1 -> (k, v) ∈ l -> collect l !! k = Some v.
Proof.
  induction l as [|[k' v'] l IH] using rev_ind; [set_solver|].
  rewrite fmap_app. intros Hnd Hin.
  apply NoDup_app in Hnd as (Hnd & Hdis & _).
  rewrite collect_snoc, lookup_insert.
  apply elem_of_app in Hin as [Hin|Hin].
  - case_decide as Heq; [|by apply IH]. subst.
    exfalso. apply (Hdis k); [|set_solver].
    apply list_elem_of_fmap. by exists (k, v).
  - apply list_elem_of_singleton in Hin. simplify_eq. by rewrite decide_True.
Qed.

(** [HashMap::keys], in some order. *)
Definition keys {K V : Type} `{Countable K} (m : gmap K V) : list K := (map_to_list m).*1.

Lemma elem_of_keys {K V} `{Countable K} (m : gmap K V) k : k ∈ keys m <-> is_Some (m !! k).
Proof.
  unfold keys. rewrite list_elem_of_fmap. split.
  - intros ([k' v] & -> & Hv%elem_of_map_to_list). by exists v.
  - intros [v Hv]. exists (k, v). by rewrite elem_of_map_to_list.
Qed.

Lemma length_keys {K V} `{Countable K} (m : gmap K V) : length (keys m) = size m.
Proof. unfold keys. by rewrite length_fmap, length_map_to_list. Qed.

Lemma NoDup_keys {K V} `{Countable K} (m : gmap K V) : NoDup (keys m).
Proof. apply NoDup_fst_map_to_list. Qed.

Lemma size_list_to_set_le {A} `{Countable A} (l : list A) :
  (size (list_to_set l : gset A) <= length l)%nat.
Proof.
  induction l as [|x l IH]; [by rewrite list_to_set_nil, size_empty|].
  rewrite list_to_set_cons. simpl length.
  rewrite size_union_alt, size_singleton.
  assert (size ((list_to_set l : gset A) ∖ {[x]}) <= size (list_to_set l : gset A))%nat
    by (apply subseteq_size; set_solver).
  lia.
Qed.

(** A set closed under a relation holds everything reachable from it. *)
Lemma rtc_closed {A} (R : relation A) (P : A -> Prop) x y :
  (forall x y, P x -> R x y -> P y) -> rtc R x y -> P x -> P y.
Proof. intros Hc. induction 1; eauto. Qed.

Lemma exists_snoc {A} (l : list A) (x : A) (P : A -> Prop) :
  (exists y, y ∈ l ++ [x] /\ P y) <-> (exists y, y ∈ l /\ P y) \/ P x.
Proof.
  setoid_rewrite elem_of_app. setoid_rewrite list_elem_of_singleton. naive_solver.
Qed.

Lemma forallb_Forall {A} (f : A -> bool) (l : list A) :
  forallb f l = true <-> Forall (fun x => f x = true) l.
Proof.
  induction l as [|x l IH]; simpl; [done|]. by rewrite andb_true_iff, IH, Forall_cons.
Qed.

Lemma existsb_Forall {A} (f : A -> bool) (l : list A) :
  existsb f l = false <-> Forall (fun x => f x = false) l.
Proof.
  induction l as [|x l IH]; simpl; [done|]. by rewrite orb_false_iff, IH, Forall_cons.
Qed.

Lemma existsb_false {A} (f : A -> bool) (l : list A) x : existsb f l = false -> x ∈ l -> f x = false.
Proof. rewrite existsb_Forall, Forall_forall. auto. Qed.

(** A cut of [a ++ x :: b] lies before or behind [x]. *)
Lemma app_cons_eq_inv {A} (a b g h : list A) (x : A) :
  a ++ x :: b = g ++ h ->
  (exists k, a = g ++ k /\ h = k ++ x :: b) \/ (exists k, g = a ++ x :: k /\ b = k ++ h).
Proof.
  intros [(k & -> & Hk)|(k & -> & Hk)]%app_eq_inv; [by left; exists k|].
  destruct k as [|y k]; simplify_list_eq.
  - left. exists []. by rewrite app_nil_r.
  - right. by exists k.
Qed.

(** Elements with the same value of a key that no two share are the same. *)
Lemma NoDup_fmap_eq {A B} (f : A -> B) (l : list A) x y :
  NoDup (f <$> l) -> x ∈ l -> y ∈ l -> f x = f y -> x = y.
Proof.
  induction l as [|z l IH]; [set_solver|]. rewrite fmap_cons, NoDup_cons, list_elem_of_fmap.
  intros [Hz Hnd] [->|Hx]%elem_of_cons [->|Hy]%elem_of_cons Heq; [done| | |by apply IH];
    exfalso; apply Hz; eauto.
Qed.

Lemma NoDup_fmap_filter {A B} (f : A -> B) (P : A -> Prop) `{!forall x, Decision (P x)} (l : list A) :
  NoDup (f <$> l) -> NoDup (f <$> filter P l).
Proof.
  induction l as [|x l IH]; [done|]. rewrite fmap_cons, NoDup_cons. intros [Hx Hl].
  rewrite filter_cons. destruct (decide (P x)); [|auto].
  rewrite fmap_cons, NoDup_cons. split; [|auto].
  intros (y & Hy & [_ Hin]%list_elem_of_filter)%list_elem_of_fmap. apply Hx, list_elem_of_fmap. eauto.
Qed.

Lemma elem_of_option_list {A} (o : option A) (x : A) : x ∈ option_list o <-> o = Some x.
Proof. destruct o as [a|]; simpl; [rewrite list_elem_of_singleton|rewrite elem_of_nil]; naive_solver. Qed.

Lemma NoDup_fmap_snoc {A B} (f : A -> B) (l : list A) x :
  NoDup (f <$> l) -> (forall y, y ∈ l -> f x <> f y) -> NoDup (f <$> (l ++ [x])).
Proof.
  intros Hl Hx. rewrite fmap_app. apply NoDup_app. split; [done|]. split; [|apply NoDup_singleton].
  intros y (z & -> & Hz)%list_elem_of_fmap Heq%list_elem_of_singleton. by apply (Hx z).
Qed.

(** ** The common cases *)

Create HintDb rust.
#[export] Hint Resolve is_some_true is_some_false : rust.

(** Splits conjunctions and boolean tests in the context. *)
Ltac bools :=
  repeat match goal with
  | H : _ && _ = true |- _ => apply andb_true_iff in H as [? ?]
  | H : _ || _ = false |- _ => apply orb_false_iff in H as [? ?]
  | H : negb _ = true |- _ => apply negb_true_iff in H
  | H : negb _ = false |- _ => apply negb_false_iff in H
  | H : bool_decide _ = true |- _ => apply bool_decide_eq_true in H
  | H : bool_decide _ = false |- _ => apply bool_decide_eq_false in H
  | H : (_ =? _) = true |- _ => apply Z.eqb_eq in H
  | H : (_ =? _) = false |- _ => apply Z.eqb_neq in H
  | H : (_ <=? _) = true |- _ => apply Z.leb_le in H
  | H : (_ <=? _) = false |- _ => apply Z.leb_gt in H
  | H : (_ <? _) = true |- _ => apply Z.ltb_lt in H
  | H : (_ <? _) = false |- _ => apply Z.ltb_ge in H
  end.

(** Case analysis on the scrutinee of a [match] or [if] of the goal, or of a
    hypothesis. *)
Ltac split_match :=
  match goal with
  | |- context [match ?x with _ => _ end] => destruct x eqn:?
  end.

Ltac split_match_in H :=
  match type of H with
  | context [match ?x with _ => _ end] => destruct x eqn:?
  end.

(** Inverts a chain of [let?] and early returns that ended well. *)
Ltac inv_ok H :=
  cbv beta zeta in H;
  repeat match type of H with
  | match ?c with Ok _ => _ | Err _ => _ end = Ok _ =>
      let E := fresh "E" in destruct c as [?|?] eqn:E; [|discriminate H]
  | (if ?b then Err _ else _) = Ok _ =>
      let E := fresh "E" in destruct b eqn:E; [discriminate H|]
  end;
  try (injection H as H);
  repeat match goal with u : unit |- _ => destruct u end.
