(* ===== verification/Text.v ===== *)
(** * Strings and integers of Rust's standard library

    What the code uses of [core::str], [core::char] and the integer parsers,
    on strings as sequences of code points: classification of characters,
    splitting and trimming, decimal numbers as [to_string] writes and
    [parse] reads them, and UTF-8 as [String] stores and [from_utf8] checks
    it. The round trips here carry those of the protocols built on them. *)

From stdpp Require Import sorting.
From S2P Require Import Prelude.

(** ** Characters *)

Definition is_ascii_digit (c : Z) : bool := (48 <=? c) && (c <=? 57).
Definition is_ascii_upper (c : Z) : bool := (65 <=? c) && (c <=? 90).
Definition is_ascii_lower (c : Z) : bool := (97 <=? c) && (c <=? 122).
Definition is_ascii_alphanumeric (c : Z) : bool :=
  is_ascii_digit c || is_ascii_upper c || is_ascii_lower c.

Definition to_ascii_lowercase (c : Z) : Z := if is_ascii_upper c then c + 32 else c.
Definition to_ascii_uppercase (c : Z) : Z := if is_ascii_lower c then c - 32 else c.

(** Unicode's [White_Space]. *)
Definition is_whitespace (c : Z) : bool :=
  ((9 <=? c) && (c <=? 13)) || (c =? 32) || (c =? 0x85) || (c =? 0xA0) || (c =? 0x1680)
  || ((0x2000 <=? c) && (c <=? 0x200A)) || (c =? 0x2028) || (c =? 0x2029)
  || (c =? 0x202F) || (c =? 0x205F) || (c =? 0x3000).

(** Unicode's category [Cc]. *)
Definition is_control (c : Z) : bool :=
  ((0 <=? c) && (c <=? 0x1F)) || ((0x7F <=? c) && (c <=? 0x9F)).

(** The values a [char] can have. *)
Definition scalar (c : Z) : bool :=
  ((0 <=? c) && (c <? 0xD800)) || ((0xE000 <=? c) && (c <? 0x110000)).

(** [str::to_lowercase], whose table is Unicode's. *)
Class Lowercase := to_lowercase : list Z -> list Z.

Definition eq_ignore_ascii_case (a b : str) : bool :=
  bool_decide (to_ascii_lowercase <$> a = to_ascii_lowercase <$> b).

(** ** Splitting and trimming *)

(** [str::split] with a predicate on characters: never empty. *)
Fixpoint split_by (sep : Z -> bool) (s : str) : list (list Z) :=
  match s with
  | [] => [[]]
  | c :: s =>
      if sep c then [] :: split_by sep s
      else match split_by sep s with
           | [] => [[c]]
           | part :: parts => (c :: part) :: parts
           end
  end.

Definition split (sep : Z) (s : str) : list (list Z) := split_by (Z.eqb sep) s.

Fixpoint split_once (sep : Z) (s : str) : option (list Z * list Z) :=
  match s with
  | [] => None
  | c :: s =>
      if c =? sep then Some ([], s)
      else (fun '(a, b) => (c :: a, b)) <$> split_once sep s
  end.

Definition rsplit_once (sep : Z) (s : str) : option (list Z * list Z) :=
  (fun '(a, b) => (reverse b, reverse a)) <$> split_once sep (reverse s).

Fixpoint trim_start_by (f : Z -> bool) (s : str) : list Z :=
  match s with
  | [] => []
  | c :: s' => if f c then trim_start_by f s' else s
  end.

Definition trim_end_by (f : Z -> bool) (s : str) : list Z :=
  reverse (trim_start_by f (reverse s)).

Definition trim (s : str) : list Z := trim_end_by is_whitespace (trim_start_by is_whitespace s).
Definition trim_end_matches (c : Z) (s : str) : list Z := trim_end_by (Z.eqb c) s.

Fixpoint strip_prefix (p s : str) : option (list Z) :=
  match p, s with
  | [], _ => Some s
  | a :: p, b :: s => if a =? b then strip_prefix p s else None
  | _, [] => None
  end.

Definition starts_with (p s : str) : bool := is_some (strip_prefix p s).
Definition ends_with (p s : str) : bool := starts_with (reverse p) (reverse s).

(** [slice.join(sep)]. *)
Fixpoint join (sep : str) (parts : list (list Z)) : list Z :=
  match parts with
  | [] => []
  | [p] => p
  | p :: parts => p ++ sep ++ join sep parts
  end.

(** [str::lines]: split at line feeds, a final empty line left out, a carriage
    return at the end of a line dropped. *)
Definition drop_cr (l : str) : list Z :=
  match reverse l with 13 :: r => reverse r | _ => l end.

Definition lines (content : str) : list (list Z) :=
  let parts := split 10 content in
  drop_cr <$> match reverse parts with
              | [] :: r => reverse r
              | _ => parts
              end.

(** ** Order

    [<=] of slices and vectors, by what is [<] of their elements; strings compare
    by their code points, as their UTF-8 does by its bytes. *)
Fixpoint lex_le {A : Type} (lt : A -> A -> bool) (a b : list A) : bool :=
  match a, b with
  | [], _ => true
  | _ :: _, [] => false
  | x :: a, y :: b => if lt x y then true else if lt y x then false else lex_le lt a b
  end.

Definition str_le : list Z -> list Z -> bool := lex_le Z.ltb.
Definition str_lt (a b : str) : bool := negb (str_le b a).

(** [slice::sort_by], which keeps the order of equal elements. *)
Definition sort_by {A : Type} (le : A -> A -> bool) (l : list A) : list A :=
  @merge_sort A (fun a b => le a b = true) (fun a b => decide (le a b = true)) l.

Lemma sort_by_Permutation {A} (le : A -> A -> bool) l : sort_by le l ≡ₚ l.
Proof. apply merge_sort_Permutation. Qed.

Lemma elem_of_sort_by {A} (le : A -> A -> bool) l x : x ∈ sort_by le l <-> x ∈ l.
Proof. by rewrite sort_by_Permutation. Qed.

(** ** Decimal numbers *)

Fixpoint decimal_go (fuel : nat) (n : Z) (acc : str) : list Z :=
  match fuel with
  | O => acc
  | S fuel => if n <? 10 then (48 + n) :: acc
              else decimal_go fuel (n / 10) ((48 + n mod 10) :: acc)
  end.

(** [to_string] of an unsigned integer; one digit takes more than three bits. *)
Definition decimal (n : Z) : list Z := decimal_go (S (Z.to_nat (Z.log2 n))) n [].

(** [to_string] of a signed integer. *)
Definition decimal_signed (n : Z) : list Z :=
  if n <? 0 then 45 :: decimal (- n) else decimal n.

(** The digit loop of the integer parsers: [checked_mul] and [checked_add]
    fail beyond [max]. *)
Fixpoint parse_digits (max acc : Z) (s : str) : option Z :=
  match s with
  | [] => Some acc
  | c :: s =>
      if is_ascii_digit c && (acc * 10 + (c - 48) <=? max)
      then parse_digits max (acc * 10 + (c - 48)) s
      else None
  end.

(** [parse] of an unsigned integer of maximum [max]: at least one digit,
    after an optional plus sign. *)
Definition parse_unsigned (max : Z) (s : str) : option Z :=
  match s with
  | [] | [43] => None
  | 43 :: s' => parse_digits max 0 s'
  | _ => parse_digits max 0 s
  end.

(** [parse] of a signed integer between [-max - 1] and [max]. *)
Definition parse_signed (max : Z) (s : str) : option Z :=
  match s with
  | [] | [43] | [45] => None
  | 43 :: s' => parse_digits max 0 s'
  | 45 :: s' => Z.opp <$> parse_digits (max + 1) 0 s'
  | _ => parse_digits max 0 s
  end.

Definition u8_max : Z := 255.
Definition u16_max : Z := 65535.
Definition u32_max : Z := 4294967295.
Definition u64_max : Z := 18446744073709551615.
Definition i32_max : Z := 2147483647.

Lemma parse_digits_step max acc d s :
  0 <= d <= 9 -> acc * 10 + d <= max ->
  parse_digits max acc ((48 + d) :: s) = parse_digits max (acc * 10 + d) s.
Proof.
  intros Hd Hmax. simpl. replace (48 + d - 48) with d by lia.
  assert (is_ascii_digit (48 + d) && (acc * 10 + d <=? max) = true) as ->; [|done].
  unfold is_ascii_digit. rewrite !andb_true_iff, !Z.leb_le. lia.
Qed.

Lemma parse_digits_decimal_go max fuel n acc :
  0 <= n <= max -> n < 2 ^ Z.of_nat fuel ->
  fuel <> 0%nat ->
  parse_digits max 0 (decimal_go fuel n acc) = parse_digits max n acc.
Proof.
  revert n acc. induction fuel as [|fuel IH]; intros n acc Hn Hf Hz; [done|].
  simpl. destruct (n <? 10) eqn:E; bools.
  - by rewrite parse_digits_step by lia.
  - assert (n / 10 < 2 ^ Z.of_nat fuel /\ fuel <> 0%nat) as [? ?].
    { destruct fuel as [|fuel]; [simpl in Hf; lia|]. split; [|done].
      rewrite Nat2Z.inj_succ, Z.pow_succ_r in Hf by lia.
      apply Z.div_lt_upper_bound; lia. }
    pose proof (Z.div_mod n 10 ltac:(lia)) as Hdm.
    pose proof (Z.mod_pos_bound n 10 ltac:(lia)).
    assert (0 <= n / 10) by (apply Z.div_pos; lia).
    rewrite IH by (done || lia).
    rewrite parse_digits_step by lia. f_equal. lia.
Qed.

Lemma decimal_fuel n : 0 <= n -> n < 2 ^ Z.of_nat (S (Z.to_nat (Z.log2 n))).
Proof.
  intros Hn. rewrite Nat2Z.inj_succ, Z2Nat.id by apply Z.log2_nonneg.
  destruct (decide (n = 0)) as [->|]; [done|]. apply Z.log2_spec. lia.
Qed.

(** The digits written are digits, and there is at least one. *)
Lemma decimal_go_digits fuel n acc :
  0 <= n -> Forall (fun c => is_ascii_digit c = true) acc ->
  n < 2 ^ Z.of_nat fuel ->
  Forall (fun c => is_ascii_digit c = true) (decimal_go fuel n acc).
Proof.
  revert n acc. induction fuel as [|fuel IH]; intros n acc Hn Hacc Hf; [done|].
  simpl. destruct (n <? 10) eqn:E; bools.
  - constructor; [|done]. unfold is_ascii_digit. apply andb_true_iff. rewrite !Z.leb_le. lia.
  - pose proof (Z.mod_pos_bound n 10 ltac:(lia)).
    apply IH; [apply Z.div_pos; lia| |].
    + constructor; [|done]. unfold is_ascii_digit. apply andb_true_iff. rewrite !Z.leb_le. lia.
    + destruct fuel as [|fuel]; [simpl in Hf; lia|].
      rewrite Nat2Z.inj_succ, Z.pow_succ_r in Hf by lia.
      apply Z.div_lt_upper_bound; lia.
Qed.

Lemma decimal_digits n : 0 <= n -> Forall (fun c => is_ascii_digit c = true) (decimal n).
Proof. intros Hn. apply decimal_go_digits; [done|constructor|by apply decimal_fuel]. Qed.

Lemma decimal_go_not_nil fuel n acc : fuel <> 0%nat \/ acc <> [] -> decimal_go fuel n acc <> [].
Proof.
  revert n acc. induction fuel as [|fuel IH]; intros n acc [H|H]; try done; simpl.
  - destruct (n <? 10); [done|]. apply IH. by right.
  - destruct (n <? 10); [done|]. apply IH. by right.
Qed.

Lemma decimal_not_nil n : decimal n <> [].
Proof. apply decimal_go_not_nil. by left. Qed.

Lemma decimal_go_length fuel n acc (k : nat) :
  0 <= n < 10 ^ Z.of_nat k -> (1 <= k)%nat ->
  (length (decimal_go fuel n acc) <= k + length acc)%nat.
Proof.
  revert n acc k. induction fuel as [|fuel IH]; intros n acc k Hn Hk; simpl; [lia|].
  destruct (n <? 10) eqn:E; bools; simpl; [lia|].
  destruct k as [|k]; [lia|]. rewrite Nat2Z.inj_succ, Z.pow_succ_r in Hn by lia.
  destruct k as [|k]; [simpl in Hn; lia|].
  assert (0 <= n / 10 < 10 ^ Z.of_nat (S k)).
  { split; [apply Z.div_pos; lia|apply Z.div_lt_upper_bound; lia]. }
  etrans; [apply (IH _ _ (S k)); [done|lia]|]. simpl. lia.
Qed.

Lemma decimal_length n (k : nat) :
  (1 <= k)%nat -> 0 <= n < 10 ^ Z.of_nat k -> (length (decimal n) <= k)%nat.
Proof. intros Hk Hn. etrans; [by apply (decimal_go_length _ _ _ k)|simpl; lia]. Qed.

(** Without a sign in front, [parse_unsigned] reads the digits. *)
Lemma parse_unsigned_digits max s :
  s <> [] -> Forall (fun c => is_ascii_digit c = true) s ->
  parse_unsigned max s = parse_digits max 0 s.
Proof.
  destruct s as [|c s]; [done|]. intros _ [Hc _]%Forall_cons.
  unfold parse_unsigned, is_ascii_digit in *. bools.
  destruct (decide (c = 43)) as [->|]; [lia|].
  destruct c as [|p|p]; try lia. repeat (destruct p as [p|p|]; try done; try lia).
Qed.

Lemma parse_unsigned_decimal max n :
  0 <= n <= max -> parse_unsigned max (decimal n) = Some n.
Proof.
  intros Hn. rewrite parse_unsigned_digits by (apply decimal_not_nil || (apply decimal_digits; lia)).
  unfold decimal. rewrite parse_digits_decimal_go; try done. apply decimal_fuel. lia.
Qed.

Lemma parse_digits_bound max acc s n :
  0 <= acc -> parse_digits max acc s = Some n -> acc <= n /\ (n <= max \/ n = acc).
Proof.
  revert acc. induction s as [|c s IH]; intros acc Hacc; simpl.
  - intros [= <-]. lia.
  - unfold is_ascii_digit. destruct (_ && _) eqn:E; [|done]. bools.
    intros Hp. apply IH in Hp; lia.
Qed.

Lemma parse_unsigned_bound max s n :
  0 <= max -> parse_unsigned max s = Some n -> 0 <= n <= max.
Proof.
  intros Hmax. unfold parse_unsigned.
  repeat (split_match; try done);
    intros Hp; apply parse_digits_bound in Hp; lia.
Qed.

Lemma parse_signed_digits max s :
  s <> [] -> Forall (fun c => is_ascii_digit c = true) s ->
  parse_signed max s = parse_digits max 0 s.
Proof.
  destruct s as [|c s]; [done|]. intros _ [Hc _]%Forall_cons.
  unfold parse_signed, is_ascii_digit in *. bools.
  destruct (decide (c = 43)) as [->|]; [lia|]. destruct (decide (c = 45)) as [->|]; [lia|].
  destruct c as [|p|p]; try lia. repeat (destruct p as [p|p|]; try done; try lia).
Qed.

Lemma parse_signed_decimal max n :
  0 <= n <= max -> parse_signed max (decimal n) = Some n.
Proof.
  intros Hn. rewrite parse_signed_digits by (apply decimal_not_nil || (apply decimal_digits; lia)).
  unfold decimal. rewrite parse_digits_decimal_go; try done. apply decimal_fuel. lia.
Qed.

Lemma parse_signed_bound max s n :
  0 <= max -> parse_signed max s = Some n -> - max - 1 <= n <= max.
Proof.
  intros Hmax. unfold parse_signed.
  repeat (split_match; try done); intros Hp;
    try (apply parse_digits_bound in Hp; lia).
  all: apply fmap_Some in Hp as (m & Hp & ->); apply parse_digits_bound in Hp; lia.
Qed.

Lemma decimal_inj a b : 0 <= a -> 0 <= b -> decimal a = decimal b -> a = b.
Proof.
  intros Ha Hb Heq.
  pose proof (parse_unsigned_decimal (Z.max a b) a ltac:(lia)) as H.
  rewrite Heq, parse_unsigned_decimal in H by lia. congruence.
Qed.

(** A character that is no digit is in no number. *)
Lemma decimal_not_elem n c : 0 <= n -> is_ascii_digit c = false -> c ∉ decimal n.
Proof.
  intros Hn Hc Hin. pose proof (decimal_digits n Hn) as Hd.
  rewrite Forall_forall in Hd. specialize (Hd c Hin). congruence.
Qed.

(** ** Lemmas on splitting *)

Lemma split_by_none sep s : Forall (fun c => sep c = false) s -> split_by sep s = [s].
Proof. induction 1 as [|c s Hc _ IH]; [done|]. simpl. by rewrite Hc, IH. Qed.

Lemma split_by_app sep s c rest :
  Forall (fun c => sep c = false) s -> sep c = true ->
  split_by sep (s ++ c :: rest) = s :: split_by sep rest.
Proof.
  intros Hs Hc. induction Hs as [|d s Hd _ IH]; simpl; [by rewrite Hc|].
  by rewrite Hd, IH.
Qed.

Lemma split_not_in sep s : sep ∉ s -> split sep s = [s].
Proof.
  intros Hs. apply split_by_none. apply Forall_forall. intros c Hc.
  apply Z.eqb_neq. naive_solver.
Qed.

Lemma split_app sep s rest : sep ∉ s -> split sep (s ++ sep :: rest) = s :: split sep rest.
Proof.
  intros Hs. apply split_by_app; [|apply Z.eqb_refl]. apply Forall_forall. intros c Hc.
  apply Z.eqb_neq. naive_solver.
Qed.

(** Joining parts that do not hold the separator and splitting gives them back. *)
Lemma split_join sep parts :
  parts <> [] -> Forall (fun p : list Z => sep ∉ p) parts ->
  split sep (join [sep] parts) = parts.
Proof.
  intros Hne Hall. induction Hall as [|p parts Hp Hall IH]; [done|].
  destruct parts as [|q parts]; simpl; [by apply split_not_in|].
  rewrite split_app by done. f_equal. by apply IH.
Qed.

Lemma join_cons sep p ps :
  join sep (p :: ps) = match ps with [] => p | _ => p ++ sep ++ join sep ps end.
Proof. by destruct ps. Qed.

Lemma split_once_app sep a b : sep ∉ a -> split_once sep (a ++ sep :: b) = Some (a, b).
Proof.
  induction a as [|c a IH]; intros Ha; simpl; [by rewrite Z.eqb_refl|].
  apply not_elem_of_cons in Ha as [Hc Ha].
  rewrite (proj2 (Z.eqb_neq c sep)) by congruence. by rewrite IH.
Qed.

Lemma split_once_Some sep s a b :
  split_once sep s = Some (a, b) <-> s = a ++ sep :: b /\ sep ∉ a.
Proof.
  split; [|by intros [-> ?]; apply split_once_app].
  revert a. induction s as [|c s IH]; intros a; simpl; [done|].
  destruct (c =? sep) eqn:E; bools.
  - intros [= <- <-]. subst. split; [done|set_solver].
  - intros ([a' b'] & Hs & [= -> ->])%fmap_Some.
    apply IH in Hs as [-> ?]. split; [done|]. set_solver.
Qed.

Lemma split_once_None sep s : split_once sep s = None <-> sep ∉ s.
Proof.
  split.
  - intros Hn Hin. apply list_elem_of_split in Hin as (a & b & ->).
    revert Hn. induction a as [|c a IH]; simpl; [by rewrite Z.eqb_refl|].
    destruct (c =? sep); [done|]. by intros ?%fmap_None.
  - induction s as [|c s IH]; intros Hs; [done|]. simpl.
    apply not_elem_of_cons in Hs as [Hc Hs].
    rewrite (proj2 (Z.eqb_neq c sep)) by congruence. by rewrite IH.
Qed.

Lemma strip_prefix_Some p s r : strip_prefix p s = Some r <-> s = p ++ r.
Proof.
  revert s. induction p as [|a p IH]; intros [|b s]; simpl; [naive_solver..|].
  destruct (a =? b) eqn:E; bools; subst; rewrite ?IH; naive_solver.
Qed.

Lemma trim_start_by_id f s :
  (forall c r, s = c :: r -> f c = false) -> trim_start_by f s = s.
Proof. destruct s as [|c s]; intros H; simpl; [done|]. by rewrite (H c s). Qed.

Lemma trim_start_by_sublist f s : exists p, s = p ++ trim_start_by f s.
Proof.
  induction s as [|c s [p IH]]; simpl; [by exists []|].
  destruct (f c); [|by exists []]. exists (c :: p). simpl. by f_equal.
Qed.

(** Text without the characters to trim stays as it is. *)
Lemma trim_by_none f s :
  Forall (fun c => f c = false) s -> trim_start_by f s = s /\ trim_end_by f s = s.
Proof.
  intros Hs. split.
  - apply trim_start_by_id. intros c r ->. by apply Forall_cons in Hs as [? _].
  - unfold trim_end_by. rewrite trim_start_by_id; [by rewrite reverse_involutive|].
    intros c r Hr. rewrite Forall_forall in Hs. apply Hs.
    apply elem_of_reverse. rewrite Hr. set_solver.
Qed.

Lemma trim_none s : Forall (fun c => is_whitespace c = false) s -> trim s = s.
Proof. intros Hs. unfold trim. destruct (trim_by_none _ s Hs) as [-> ->]. done. Qed.

Lemma digit_not_whitespace c : is_ascii_digit c = true -> is_whitespace c = false.
Proof.
  unfold is_ascii_digit, is_whitespace. intros ?. bools.
  repeat (apply orb_false_iff; split); try (apply Z.eqb_neq; lia);
    apply andb_false_iff; rewrite !Z.leb_gt; lia.
Qed.

Lemma not_whitespace c : 33 <= c < 127 -> is_whitespace c = false.
Proof. unfold is_whitespace. lia. Qed.

Lemma starts_with_true p s : starts_with p s = true <-> exists r, s = p ++ r.
Proof.
  unfold starts_with. rewrite is_some_true. split.
  - intros [r Hr]. exists r. by apply strip_prefix_Some.
  - intros [r ->]. exists r. by apply strip_prefix_Some.
Qed.

Lemma ends_with_true p s : ends_with p s = true <-> exists a, s = a ++ p.
Proof.
  unfold ends_with. rewrite starts_with_true. split.
  - intros [r Hr]. exists (reverse r). apply (f_equal reverse) in Hr.
    by rewrite reverse_involutive, reverse_app, reverse_involutive in Hr.
  - intros [a ->]. exists (reverse a). by rewrite reverse_app.
Qed.

Lemma rsplit_once_app sep a b : sep ∉ b -> rsplit_once sep (a ++ sep :: b) = Some (a, b).
Proof.
  intros Hb. unfold rsplit_once. rewrite reverse_app, reverse_cons, <- app_assoc.
  simpl app. rewrite split_once_app by (by rewrite elem_of_reverse). simpl.
  by rewrite !reverse_involutive.
Qed.

Lemma rsplit_once_Some sep s a b :
  rsplit_once sep s = Some (a, b) -> s = a ++ sep :: b /\ sep ∉ b.
Proof.
  unfold rsplit_once. intros ([x y] & H & [= -> ->])%fmap_Some.
  apply split_once_Some in H as [H Hx]. split; [|by rewrite elem_of_reverse].
  apply (f_equal reverse) in H. rewrite reverse_involutive in H. rewrite H.
  by rewrite reverse_app, reverse_cons, <- app_assoc.
Qed.

(** The tail behind the last separator is determined. *)
Lemma last_sep_inj (sep : Z) a b c d :
  sep ∉ b -> sep ∉ d -> a ++ sep :: b = c ++ sep :: d -> a = c /\ b = d.
Proof.
  intros Hb Hd H. pose proof (rsplit_once_app sep a b Hb) as H1.
  rewrite H, rsplit_once_app in H1 by done. by simplify_eq.
Qed.

(** ** Mapping characters *)

Lemma split_by_fmap (sep : Z -> bool) (g : Z -> Z) (s : list Z) :
  (forall c, sep (g c) = sep c) -> split_by sep (g <$> s) = (fun p : list Z => g <$> p) <$> split_by sep s.
Proof.
  intros Hg. induction s as [|c s IH]; [done|]. rewrite fmap_cons. cbn [split_by].
  rewrite Hg, IH. destruct (sep c); [done|]. by destruct (split_by sep s).
Qed.

Lemma trim_start_by_fmap (f : Z -> bool) (g : Z -> Z) (s : list Z) :
  (forall c, f (g c) = f c) -> trim_start_by f (g <$> s) = g <$> trim_start_by f s.
Proof.
  intros Hg. induction s as [|c s IH]; [done|]. rewrite fmap_cons. cbn [trim_start_by].
  rewrite Hg. by destruct (f c).
Qed.

Lemma trim_end_by_fmap (f : Z -> bool) (g : Z -> Z) (s : list Z) :
  (forall c, f (g c) = f c) -> trim_end_by f (g <$> s) = g <$> trim_end_by f s.
Proof.
  intros Hg. unfold trim_end_by. by rewrite <- fmap_reverse, trim_start_by_fmap, fmap_reverse.
Qed.

Lemma trim_start_by_idem f s : trim_start_by f (trim_start_by f s) = trim_start_by f s.
Proof.
  induction s as [|c s IH]; [done|]. cbn [trim_start_by]. destruct (f c) eqn:E; [done|].
  cbn [trim_start_by]. by rewrite E.
Qed.

Lemma trim_end_by_idem f s : trim_end_by f (trim_end_by f s) = trim_end_by f s.
Proof. unfold trim_end_by. by rewrite reverse_involutive, trim_start_by_idem. Qed.

(** Every character is a separator or in one of the parts. *)
Lemma elem_of_split_by sep s c :
  c ∈ s -> sep c = true \/ exists p, p ∈ split_by sep s /\ c ∈ p.
Proof.
  induction s as [|d s IH]; intros Hc; [set_solver|]. cbn [split_by].
  apply elem_of_cons in Hc as [->|Hc].
  - destruct (sep d); [by left|right]. destruct (split_by sep s) as [|p ps];
      [exists [d]|exists (d :: p)]; set_solver.
  - destruct (IH Hc) as [?|(p & Hp & Hcp)]; [by left|right].
    destruct (sep d); [exists p; set_solver|]. destruct (split_by sep s) as [|q qs]; [set_solver|].
    apply elem_of_cons in Hp as [->|Hp]; [exists (d :: q)|exists p]; set_solver.
Qed.

Lemma to_ascii_lowercase_facts c :
  is_ascii_upper (to_ascii_lowercase c) = false
  /\ (to_ascii_lowercase c = c \/ is_ascii_upper c = true /\ is_ascii_lower (to_ascii_lowercase c) = true).
Proof.
  unfold to_ascii_lowercase, is_ascii_upper, is_ascii_lower.
  destruct ((65 <=? c) && (c <=? 90)) eqn:E; [|auto]. bools.
  split; [apply andb_false_iff; right; apply Z.leb_gt; lia|].
  right. split; [done|]. apply andb_true_iff. rewrite !Z.leb_le. lia.
Qed.

Lemma to_ascii_lowercase_idem c : to_ascii_lowercase (to_ascii_lowercase c) = to_ascii_lowercase c.
Proof.
  destruct (to_ascii_lowercase_facts c) as [H _]. unfold to_ascii_lowercase at 1. by rewrite H.
Qed.

(** Lowering touches letters alone. *)
Lemma to_ascii_lowercase_other c d :
  is_ascii_lower d = false -> is_ascii_upper d = false -> to_ascii_lowercase c = d <-> c = d.
Proof.
  intros Hl Hu. destruct (to_ascii_lowercase_facts c) as [_ [Hc|[Hc1 Hc2]]]; [by rewrite Hc|].
  split; intros Heq; subst; congruence.
Qed.

Lemma split_by_not_nil sep s : split_by sep s <> [].
Proof.
  destruct s as [|c s]; [done|]. cbn [split_by]. destruct (sep c); [done|].
  by destruct (split_by sep s).
Qed.

Lemma split_by_snoc sep s c : sep c = true -> split_by sep (s ++ [c]) = split_by sep s ++ [[]].
Proof.
  intros Hc. induction s as [|d s IH]; cbn [app split_by]; [by rewrite Hc|]. rewrite IH.
  destruct (sep d); [done|]. pose proof (split_by_not_nil sep s).
  by destruct (split_by sep s).
Qed.

(** Trimming only takes characters away. *)
Lemma Forall_trim_start P f s : Forall P s -> Forall P (trim_start_by f s).
Proof. induction 1 as [|c s Hc Hs IH]; simpl; [done|]. destruct (f c); [done|by constructor]. Qed.

Lemma Forall_trim P s : Forall P s -> Forall P (trim s).
Proof.
  intros Hs. unfold trim, trim_end_by.
  by apply Forall_reverse, Forall_trim_start, Forall_reverse, Forall_trim_start.
Qed.
