(* ===== verification/Utf8.v ===== *)
(** * UTF-8 of Rust's standard library

    [String] stores the UTF-8 encoding of its characters; [String::from_utf8]
    takes exactly the byte sequences that are such an encoding. *)

From S2P Require Import Prelude Text.

(** ** Encoding *)

(** [char::len_utf8]. *)
Definition char_len (c : Z) : Z :=
  if c <? 0x80 then 1 else if c <? 0x800 then 2 else if c <? 0x10000 then 3 else 4.

Definition enc_char (c : Z) : list Z :=
  if c <? 0x80 then [c]
  else if c <? 0x800 then [0xC0 + c / 64; 0x80 + c mod 64]
  else if c <? 0x10000 then [0xE0 + c / 4096; 0x80 + (c / 64) mod 64; 0x80 + c mod 64]
  else [0xF0 + c / 262144; 0x80 + (c / 4096) mod 64; 0x80 + (c / 64) mod 64; 0x80 + c mod 64].

(** [str::as_bytes]. *)
Definition utf8 (s : str) : list Z := s ≫= enc_char.

(** [str::len]: bytes, not characters. *)
Definition str_len (s : str) : Z := Z.of_nat (length (utf8 s)).

(** ** Decoding *)

(** A continuation byte. *)
Definition cont (b : Z) : bool := (0x80 <=? b) && (b <=? 0xBF).

Definition between (lo hi b : Z) : bool := (lo <=? b) && (b <=? hi).

(** The second byte of three: no overlong forms, no surrogates. *)
Definition second_of_three (b0 b1 : Z) : bool :=
  ((b0 =? 0xE0) && between 0xA0 0xBF b1)
  || (between 0xE1 0xEC b0 && cont b1)
  || ((b0 =? 0xED) && between 0x80 0x9F b1)
  || (between 0xEE 0xEF b0 && cont b1).

(** The second byte of four: no overlong forms, nothing above U+10FFFF. *)
Definition second_of_four (b0 b1 : Z) : bool :=
  ((b0 =? 0xF0) && between 0x90 0xBF b1)
  || (between 0xF1 0xF3 b0 && cont b1)
  || ((b0 =? 0xF4) && between 0x80 0x8F b1).

(** [String::from_utf8]. *)
Fixpoint from_utf8 (bs : list Z) : option (list Z) :=
  match bs with
  | [] => Some []
  | b0 :: r0 =>
      if between 0 0x7F b0 then cons b0 <$> from_utf8 r0
      else match r0 with
      | [] => None
      | b1 :: r1 =>
          if between 0xC2 0xDF b0 then
            if cont b1 then cons ((b0 - 0xC0) * 64 + (b1 - 0x80)) <$> from_utf8 r1 else None
          else match r1 with
          | [] => None
          | b2 :: r2 =>
              if between 0xE0 0xEF b0 then
                if second_of_three b0 b1 && cont b2
                then cons ((b0 - 0xE0) * 4096 + (b1 - 0x80) * 64 + (b2 - 0x80)) <$> from_utf8 r2
                else None
              else match r2 with
              | [] => None
              | b3 :: r3 =>
                  if second_of_four b0 b1 && cont b2 && cont b3
                  then cons ((b0 - 0xF0) * 262144 + (b1 - 0x80) * 4096
                             + (b2 - 0x80) * 64 + (b3 - 0x80)) <$> from_utf8 r3
                  else None
              end
          end
      end
  end.

(** ** Round trips *)

(** Turns the range tests of the decoder into inequalities. *)
Ltac utf8_ranges :=
  unfold scalar, second_of_three, second_of_four, cont, between in *;
  repeat match goal with
  | H : _ || _ = true |- _ => apply orb_true_iff in H as [H|H]
  end; bools.

Lemma between_true lo hi b : lo <= b <= hi -> between lo hi b = true.
Proof. intros. unfold between. rewrite andb_true_iff, !Z.leb_le. lia. Qed.

Lemma between_false lo hi b : b < lo \/ hi < b -> between lo hi b = false.
Proof. intros. unfold between. rewrite andb_false_iff, !Z.leb_gt. lia. Qed.

Lemma cont_true b : 0x80 <= b <= 0xBF -> cont b = true.
Proof. apply between_true. Qed.

Lemma second_of_three_true b0 b1 :
  0xE0 <= b0 <= 0xEF -> 0x80 <= b1 <= 0xBF ->
  (b0 = 0xE0 -> 0xA0 <= b1) -> (b0 = 0xED -> b1 <= 0x9F) ->
  second_of_three b0 b1 = true.
Proof.
  intros. unfold second_of_three.
  rewrite !orb_true_iff, !andb_true_iff, Z.eqb_eq, Z.eqb_eq.
  unfold cont, between. rewrite !andb_true_iff, !Z.leb_le. lia.
Qed.

Lemma second_of_four_true b0 b1 :
  0xF0 <= b0 <= 0xF4 -> 0x80 <= b1 <= 0xBF ->
  (b0 = 0xF0 -> 0x90 <= b1) -> (b0 = 0xF4 -> b1 <= 0x8F) ->
  second_of_four b0 b1 = true.
Proof.
  intros. unfold second_of_four.
  rewrite !orb_true_iff, !andb_true_iff, Z.eqb_eq, Z.eqb_eq.
  unfold cont, between. rewrite !andb_true_iff, !Z.leb_le. lia.
Qed.

(** The six-bit groups of a code point. *)
Lemma six_bits c :
  c = c / 64 * 64 + c mod 64 /\ 0 <= c mod 64 < 64
  /\ c / 64 = c / 4096 * 64 + (c / 64) mod 64 /\ 0 <= (c / 64) mod 64 < 64
  /\ c / 4096 = c / 262144 * 64 + (c / 4096) mod 64 /\ 0 <= (c / 4096) mod 64 < 64.
Proof.
  assert (forall x, x = x / 64 * 64 + x mod 64 /\ 0 <= x mod 64 < 64) as Hd.
  { intros x. pose proof (Z.div_mod x 64 ltac:(lia)).
    pose proof (Z.mod_pos_bound x 64 ltac:(lia)). lia. }
  pose proof (Hd c). pose proof (Hd (c / 64)) as H1. pose proof (Hd (c / 4096)) as H2.
  rewrite Z.div_div in H1 by lia. rewrite Z.div_div in H2 by lia.
  change (64 * 64) with 4096 in *. change (4096 * 64) with 262144 in *. lia.
Qed.

Lemma from_utf8_char c rest :
  scalar c = true -> from_utf8 (enc_char c ++ rest) = cons c <$> from_utf8 rest.
Proof.
  intros Hc. unfold enc_char. pose proof (six_bits c) as Hs. unfold scalar in Hc.
  apply orb_true_iff in Hc. rewrite !andb_true_iff, !Z.leb_le, !Z.ltb_lt in Hc.
  destruct (c <? 0x80) eqn:E1; [|destruct (c <? 0x800) eqn:E2;
    [|destruct (c <? 0x10000) eqn:E3]]; bools;
    cbn [app from_utf8].
  - by rewrite between_true by lia.
  - rewrite between_false, between_true, cont_true by lia. do 2 f_equal. lia.
  - rewrite between_false, between_false, between_true by lia.
    rewrite second_of_three_true, cont_true by lia. cbn [andb]. do 2 f_equal. lia.
  - rewrite !between_false by lia.
    rewrite second_of_four_true, !cont_true by lia. cbn [andb]. do 2 f_equal. lia.
Qed.

(** Every string reads back from its bytes. *)
Lemma from_utf8_utf8 s : Forall (fun c => scalar c = true) s -> from_utf8 (utf8 s) = Some s.
Proof.
  induction 1 as [|c s Hc _ IH]; [done|].
  unfold utf8 in *. by rewrite bind_cons, from_utf8_char, IH.
Qed.

Lemma scalar_true c : 0 <= c < 0xD800 \/ 0xE000 <= c < 0x110000 -> scalar c = true.
Proof.
  intros. unfold scalar. rewrite orb_true_iff, !andb_true_iff, !Z.leb_le, !Z.ltb_lt. lia.
Qed.

(** [char_of c bs]: [c] is a character and [bs] its encoding. *)
Definition char_of (c : Z) (bs : list Z) : Prop := enc_char c = bs /\ scalar c = true.

Lemma char_of_1 b : between 0 0x7F b = true -> char_of b [b].
Proof.
  intros. utf8_ranges. unfold char_of, enc_char. rewrite (proj2 (Z.ltb_lt _ _)) by lia.
  split; [done|]. apply scalar_true. lia.
Qed.

(** A code point from its six-bit groups. *)
Lemma join_six h l : 0 <= l < 64 -> (h * 64 + l) / 64 = h /\ (h * 64 + l) mod 64 = l.
Proof.
  intros. split.
  - symmetry. apply (Z.div_unique _ _ _ l); lia.
  - symmetry. apply (Z.mod_unique _ _ h); lia.
Qed.

Lemma char_of_2 b0 b1 :
  between 0xC2 0xDF b0 = true -> cont b1 = true ->
  char_of ((b0 - 0xC0) * 64 + (b1 - 0x80)) [b0; b1].
Proof.
  intros. utf8_ranges. unfold char_of, enc_char.
  destruct (join_six (b0 - 0xC0) (b1 - 0x80)) as [-> ->]; [lia|].
  rewrite (proj2 (Z.ltb_ge _ _)), (proj2 (Z.ltb_lt _ _)) by lia.
  split; [f_equal; [lia|f_equal; lia]|]. apply scalar_true. lia.
Qed.

Lemma char_of_3 b0 b1 b2 :
  second_of_three b0 b1 = true -> cont b2 = true ->
  char_of ((b0 - 0xE0) * 4096 + (b1 - 0x80) * 64 + (b2 - 0x80)) [b0; b1; b2].
Proof.
  intros H1 H2.
  assert (0xE0 <= b0 <= 0xEF /\ 0x80 <= b1 <= 0xBF /\ 0x80 <= b2 <= 0xBF
          /\ (b0 = 0xE0 -> 0xA0 <= b1) /\ (b0 = 0xED -> b1 <= 0x9F)) as Hr
    by (utf8_ranges; lia).
  clear H1 H2. unfold char_of, enc_char.
  replace ((b0 - 0xE0) * 4096 + (b1 - 0x80) * 64 + (b2 - 0x80))
    with (((b0 - 0xE0) * 64 + (b1 - 0x80)) * 64 + (b2 - 0x80)) by lia.
  rewrite (proj2 (Z.ltb_ge _ _)), (proj2 (Z.ltb_ge _ _)), (proj2 (Z.ltb_lt _ _)) by lia.
  change 4096 with (64 * 64). rewrite <- Z.div_div by lia.
  destruct (join_six ((b0 - 0xE0) * 64 + (b1 - 0x80)) (b2 - 0x80)) as [-> ->]; [lia|].
  destruct (join_six (b0 - 0xE0) (b1 - 0x80)) as [-> ->]; [lia|].
  split; [repeat (f_equal; [lia|]); f_equal; lia|]. apply scalar_true. lia.
Qed.

Lemma char_of_4 b0 b1 b2 b3 :
  second_of_four b0 b1 = true -> cont b2 = true -> cont b3 = true ->
  char_of ((b0 - 0xF0) * 262144 + (b1 - 0x80) * 4096 + (b2 - 0x80) * 64 + (b3 - 0x80))
    [b0; b1; b2; b3].
Proof.
  intros H1 H2 H3.
  assert (0xF0 <= b0 <= 0xF4 /\ 0x80 <= b1 <= 0xBF /\ 0x80 <= b2 <= 0xBF /\ 0x80 <= b3 <= 0xBF
          /\ (b0 = 0xF0 -> 0x90 <= b1) /\ (b0 = 0xF4 -> b1 <= 0x8F)) as Hr
    by (utf8_ranges; lia).
  clear H1 H2 H3. unfold char_of, enc_char.
  replace ((b0 - 0xF0) * 262144 + (b1 - 0x80) * 4096 + (b2 - 0x80) * 64 + (b3 - 0x80))
    with ((((b0 - 0xF0) * 64 + (b1 - 0x80)) * 64 + (b2 - 0x80)) * 64 + (b3 - 0x80)) by lia.
  rewrite !(proj2 (Z.ltb_ge _ _)) by lia.
  change 262144 with (64 * (64 * 64)). change 4096 with (64 * 64).
  rewrite <- !Z.div_div by lia.
  destruct (join_six (((b0 - 0xF0) * 64 + (b1 - 0x80)) * 64 + (b2 - 0x80)) (b3 - 0x80))
    as [-> ->]; [lia|].
  destruct (join_six ((b0 - 0xF0) * 64 + (b1 - 0x80)) (b2 - 0x80)) as [-> ->]; [lia|].
  destruct (join_six (b0 - 0xF0) (b1 - 0x80)) as [-> ->]; [lia|].
  split; [repeat (f_equal; [lia|]); f_equal; lia|]. apply scalar_true. lia.
Qed.

(** What [from_utf8] takes is the encoding of what it returns. *)
Lemma utf8_from_utf8 bs s :
  from_utf8 bs = Some s -> utf8 s = bs /\ Forall (fun c => scalar c = true) s.
Proof.
  assert (forall n bs s, (length bs <= n)%nat -> from_utf8 bs = Some s ->
            utf8 s = bs /\ Forall (fun c => scalar c = true) s) as Hall; [|by eapply Hall].
  clear bs s. induction n as [|n IH]; intros bs s Hlen Hs.
  { destruct bs; [|simpl in Hlen; lia]. by injection Hs as <-. }
  assert (forall c pre rest s, char_of c pre -> (length rest <= n)%nat ->
            cons c <$> from_utf8 rest = Some s ->
            utf8 s = pre ++ rest /\ Forall (fun c => scalar c = true) s) as Hstep.
  { intros c pre rest s0 [<- Hc] Hl (s1 & H1 & ->)%fmap_Some.
    apply IH in H1 as [<- ?]; [|done]. unfold utf8. rewrite bind_cons.
    split; [done|]. by constructor. }
  destruct bs as [|b0 r0]; [by injection Hs as <-|]. cbn [from_utf8 length] in *.
  destruct (between 0 0x7F b0) eqn:E0.
  { eapply (Hstep _ [b0]); [by apply char_of_1|lia|done]. }
  destruct r0 as [|b1 r1]; [done|]. cbn [length] in *.
  destruct (between 0xC2 0xDF b0) eqn:E1.
  { destruct (cont b1) eqn:E; [|done]. eapply (Hstep _ [b0; b1]); [by apply char_of_2|lia|done]. }
  destruct r1 as [|b2 r2]; [done|]. cbn [length] in *.
  destruct (between 0xE0 0xEF b0).
  { destruct (second_of_three b0 b1 && cont b2) eqn:E; [|done]. bools.
    eapply (Hstep _ [b0; b1; b2]); [by apply char_of_3|lia|done]. }
  destruct r2 as [|b3 r3]; [done|]. cbn [length] in *.
  destruct (second_of_four b0 b1 && cont b2 && cont b3) eqn:E; [|done]. bools.
  eapply (Hstep _ [b0; b1; b2; b3]); [by apply char_of_4|lia|done].
Qed.

Lemma length_enc_char c : Z.of_nat (length (enc_char c)) = char_len c.
Proof. unfold enc_char, char_len. by repeat split_match. Qed.

Lemma utf8_app a b : utf8 (a ++ b) = utf8 a ++ utf8 b.
Proof. apply bind_app. Qed.

Lemma utf8_ascii s : Forall (fun c => c < 0x80) s -> utf8 s = s.
Proof.
  induction 1 as [|c s Hc _ IH]; [done|]. unfold utf8 in *. rewrite bind_cons, IH.
  unfold enc_char. by rewrite (proj2 (Z.ltb_lt _ _)).
Qed.

(** A character of one byte is its first byte, and no other character has it. *)
Lemma enc_char_head c : exists b r, enc_char c = b :: r.
Proof. unfold enc_char. repeat split_match; eauto. Qed.

Lemma utf8_inj a b :
  Forall (fun c => scalar c = true) a -> Forall (fun c => scalar c = true) b ->
  utf8 a = utf8 b -> a = b.
Proof.
  intros Ha Hb Heq. apply from_utf8_utf8 in Ha, Hb. rewrite Heq in Ha. congruence.
Qed.
