(* ===== verification/Model.v ===== *)
(** * The permission model (crates/model/src/lib.rs)

    Objects live in two trees, folders with devices and login profiles, and
    collections with credentials. A grant gives a principal a role on one
    object and everything below it. [Catalog.authorize] is the only place
    that decides permissions.

    The file holds the data as the crate has it, one definition per method
    of [Catalog], and the theorems that say what the methods decide: the path
    of an object is exactly what lies above it, [authorize] holds exactly
    with an unexpired grant along that path, grants only ever allow, and
    [visible] shows exactly what a role or a descendant's role shows. *)

From S2P Require Import Prelude.

(** ** Data *)

Inductive Role :=
| Role_List
| Role_Connect
| Role_Reveal
| Role_Edit
| Role_Manage.

#[export] Instance Role_eq_dec : EqDecision Role.
Proof. solve_decision. Defined.

(** [derive(PartialOrd, Ord)]: a variant is below the ones declared after it. *)
Definition role_rank (r : Role) : Z :=
  match r with
  | Role_List => 0
  | Role_Connect => 1
  | Role_Reveal => 2
  | Role_Edit => 3
  | Role_Manage => 4
  end.

Definition role_leb (a b : Role) : bool := role_rank a <=? role_rank b.
Definition role_ltb (a b : Role) : bool := role_rank a <? role_rank b.

Definition role_all : list Role :=
  [Role_List; Role_Connect; Role_Reveal; Role_Edit; Role_Manage].

Definition role_as_str (r : Role) : str :=
  match r with
  | Role_List => lit "list"
  | Role_Connect => lit "connect"
  | Role_Reveal => lit "reveal"
  | Role_Edit => lit "edit"
  | Role_Manage => lit "manage"
  end.

Definition role_parse (value : str) : option Role :=
  find (fun r => bool_decide (role_as_str r = value)) role_all.

Inductive ObjectId :=
| Folder (id : Uuid)
| Device (id : Uuid)
| Credential (id : Uuid)
| Collection (id : Uuid)
| Profile (id : Uuid).

#[export] Instance ObjectId_eq_dec : EqDecision ObjectId.
Proof. solve_decision. Defined.

Definition object_code (o : ObjectId) : Z * Uuid :=
  match o with
  | Folder id => (0, id)
  | Device id => (1, id)
  | Credential id => (2, id)
  | Collection id => (3, id)
  | Profile id => (4, id)
  end.

Definition object_uncode (p : Z * Uuid) : option ObjectId :=
  match p.1 with
  | 0 => Some (Folder p.2)
  | 1 => Some (Device p.2)
  | 2 => Some (Credential p.2)
  | 3 => Some (Collection p.2)
  | 4 => Some (Profile p.2)
  | _ => None
  end.

#[export] Instance ObjectId_countable : Countable ObjectId.
Proof. refine (inj_countable object_code object_uncode _). by intros []. Defined.

Record Subject := { sids : gset (list Z); admin : bool }.

Record Grant := {
  object : ObjectId;
  principal : str;
  role : Role;
  until : option Z;
}.

Record Catalog := {
  folder_parent : gmap Uuid (option Uuid);
  collection_parent : gmap Uuid (option Uuid);
  device_folder : gmap Uuid Uuid;
  credential_collection : gmap Uuid Uuid;
  profile_folder : gmap Uuid (option Uuid);
  grants : gmap ObjectId (list (list Z * Role));
}.

Record Objects := {
  folders : list (Uuid * option Uuid);
  collections : list (Uuid * option Uuid);
  devices : list (Uuid * Uuid);
  credentials : list (Uuid * Uuid);
  profiles : list (Uuid * option Uuid);
}.

(** ** Operations *)

(** [grant.until.is_some_and(|until| until <= now)]. *)
Definition ran_out (now : Z) (g : Grant) : bool :=
  is_some_and (fun u => u <=? now) (until g).

(** [by_object.entry(grant.object).or_default().push(...)]. *)
Definition push_grant (by_object : gmap ObjectId (list (list Z * Role))) (g : Grant)
  : gmap ObjectId (list (list Z * Role)) :=
  <[object g := default [] (by_object !! object g) ++ [(principal g, role g)]]> by_object.

(** The loop of [Catalog::new] over the grants. *)
Definition index_grants (now : Z) (gs : list Grant) : gmap ObjectId (list (list Z * Role)) :=
  foldl (fun m g => if ran_out now g then m else push_grant m g) ∅ gs.

Definition catalog_new (objects : Objects) (gs : list Grant) (now : Z) : Catalog := {|
  folder_parent := collect (folders objects);
  collection_parent := collect (collections objects);
  device_folder := collect (devices objects);
  credential_collection := collect (credentials objects);
  profile_folder := collect (profiles objects);
  grants := index_grants now gs;
|}.

Section Methods.
Context (self : Catalog).

Definition contains (o : ObjectId) : bool :=
  match o with
  | Folder id => is_some (folder_parent self !! id)
  | Collection id => is_some (collection_parent self !! id)
  | Device id => is_some (device_folder self !! id)
  | Credential id => is_some (credential_collection self !! id)
  | Profile id => is_some (profile_folder self !! id)
  end.

Definition container (o : ObjectId) : option ObjectId :=
  match o with
  | Folder id => Folder <$> mjoin (folder_parent self !! id)
  | Collection id => Collection <$> mjoin (collection_parent self !! id)
  | Device id => Folder <$> device_folder self !! id
  | Credential id => Collection <$> credential_collection self !! id
  | Profile id => Folder <$> mjoin (profile_folder self !! id)
  end.

Definition object_uuid (o : ObjectId) : Uuid :=
  match o with
  | Folder id | Device id | Credential id | Collection id | Profile id => id
  end.

Definition parent (o : ObjectId) : option Uuid := object_uuid <$> container o.

(** The [while] loop of [path], with [seen] and [next] as the code keeps
    them; a container seen before ends it. [fuel] bounds the iterations. *)
Fixpoint path_loop (fuel : nat) (seen : gset ObjectId) (next : option ObjectId)
  : list ObjectId :=
  match fuel, next with
  | S fuel, Some c =>
      if bool_decide (c ∈ seen) then []
      else c :: path_loop fuel ({[c]} ∪ seen) (container c)
  | _, _ => []
  end.

(** Only the last container of a walk can be unknown to the catalog, so a
    walk without repetition is at most one longer than the two trees. *)
Definition path_fuel : nat :=
  S (size (folder_parent self) + size (collection_parent self)).

Definition path (o : ObjectId) : list ObjectId :=
  o :: path_loop path_fuel ∅ (container o).

Definition is_within (folder ancestor : Uuid) : bool :=
  bool_decide (Folder ancestor ∈ path (Folder folder)).

Definition is_within_collection (collection ancestor : Uuid) : bool :=
  bool_decide (Collection ancestor ∈ path (Collection collection)).

(** [Iterator::max] over roles. *)
Definition role_max (rs : list Role) : option Role :=
  foldr (fun r acc => Some match acc with
                           | None => r
                           | Some m => if role_leb m r then r else m
                           end) None rs.

(** [grants.get(o)], flattened: the grants on one object. *)
Definition grants_on (o : ObjectId) : list (list Z * Role) := default [] (grants self !! o).

Definition effective_role (subject : Subject) (o : ObjectId) : option Role :=
  if negb (contains o) then None
  else if admin subject then Some Role_Manage
  else role_max (snd <$> filter (fun g => g.1 ∈ sids subject)
                          (path o ≫= grants_on)).

Definition grants_along (o : ObjectId) : list (ObjectId * list Z * Role) :=
  path o ≫= fun on => (fun g => (on, g.1, g.2)) <$> grants_on on.

Definition reasons (subject : Subject) (o : ObjectId) : list (ObjectId * list Z * Role) :=
  filter (fun r => r.1.2 ∈ sids subject) (grants_along o).

Definition authorize (subject : Subject) (needed : Role) (o : ObjectId) : bool :=
  is_some_and (fun r => role_leb needed r) (effective_role subject o).

Definition may_request (subject : Subject) (r : Role) (o : ObjectId) : bool :=
  (match r with Role_Connect | Role_Reveal => true | _ => false end)
  && is_some_and (fun held => role_ltb held r) (effective_role subject o).

Definition may_approve (subject : Subject) (o : ObjectId) : bool :=
  authorize subject Role_Manage o.

Definition may_create_top_level (subject : Subject) : bool := admin subject.

(** The keys of the five maps, in the order [visible] chains them. *)
Definition all_objects : list ObjectId :=
  (Folder <$> keys (folder_parent self))
  ++ (Collection <$> keys (collection_parent self))
  ++ (Device <$> keys (device_folder self))
  ++ (Credential <$> keys (credential_collection self))
  ++ (Profile <$> keys (profile_folder self)).

Record Visibility := {
  roles : gmap ObjectId Role;
  path_only : gset Uuid;
  collections_path_only : gset Uuid;
}.

(** [objects.filter_map(|o| Some((o, self.effective_role(subject, o)?)))]. *)
Definition visible_roles (subject : Subject) : gmap ObjectId Role :=
  collect (omap (fun o => (fun r => (o, r)) <$> effective_role subject o) all_objects).

(** The ancestors of a visible object that have no role themselves. *)
Definition hidden_ancestors (rs : gmap ObjectId Role) : list ObjectId :=
  keys rs ≫= fun o =>
    filter (fun a => rs !! a = None) (drop 1 (path o)).

Definition visible (subject : Subject) : Visibility :=
  let rs := visible_roles subject in
  let hidden := hidden_ancestors rs in
  {| roles := rs;
     path_only :=
       list_to_set (omap (fun a => match a with Folder id => Some id | _ => None end) hidden);
     collections_path_only :=
       list_to_set (omap (fun a => match a with Collection id => Some id | _ => None end) hidden) |}.

End Methods.

(** ** The path of an object *)

(** [above c o a]: [a] is the folder or collection that contains [o]. *)
Definition above (c : Catalog) (o a : ObjectId) : Prop := container c o = Some a.

(** The runs of the [while] loop of [path], without a bound. *)
Inductive path_while (c : Catalog) : gset ObjectId -> option ObjectId -> list ObjectId -> Prop :=
| path_while_top seen : path_while c seen None []
| path_while_seen seen x : x ∈ seen -> path_while c seen (Some x) []
| path_while_step seen x rest :
    x ∉ seen ->
    path_while c ({[x]} ∪ seen) (container c x) rest ->
    path_while c seen (Some x) (x :: rest).

Section Path.
Context (c : Catalog).

(** The nodes of the two trees. *)
Definition tree_nodes : gset ObjectId :=
  list_to_set ((Folder <$> keys (folder_parent c))
               ++ (Collection <$> keys (collection_parent c))).

Lemma size_tree_nodes :
  (size tree_nodes < path_fuel c)%nat.
Proof.
  unfold tree_nodes, path_fuel.
  pose proof (size_list_to_set_le ((Folder <$> keys (folder_parent c))
               ++ (Collection <$> keys (collection_parent c)))) as H.
  rewrite length_app, !length_fmap, !length_keys in H. lia.
Qed.

Lemma elem_of_tree_nodes o :
  o ∈ tree_nodes <->
  match o with
  | Folder i => is_Some (folder_parent c !! i)
  | Collection i => is_Some (collection_parent c !! i)
  | _ => False
  end.
Proof.
  unfold tree_nodes. rewrite elem_of_list_to_set, elem_of_app, !list_elem_of_fmap.
  setoid_rewrite elem_of_keys.
  destruct o; naive_solver.
Qed.

Definition is_tree_node (o : ObjectId) : Prop :=
  match o with Folder _ | Collection _ => True | _ => False end.

Lemma container_tree_node o a : container c o = Some a -> is_tree_node a.
Proof. destruct o; simpl; by intros (?&_&->)%fmap_Some. Qed.

Lemma container_known o a :
  is_tree_node o -> container c o = Some a -> o ∈ tree_nodes.
Proof.
  rewrite elem_of_tree_nodes.
  destruct o as [i|i|i|i|i]; simpl; try done; intros _ (?&Hj&_)%fmap_Some;
    match type of Hj with mjoin ?l = _ => destruct l; [eauto|done] end.
Qed.

(** Every bounded run with enough fuel is a run of the loop. *)
Lemma path_loop_runs fuel seen next :
  (size (tree_nodes ∖ seen) < fuel)%nat ->
  (forall x, next = Some x -> is_tree_node x) ->
  path_while c seen next (path_loop c fuel seen next).
Proof.
  revert seen next. induction fuel as [|fuel IH]; intros seen next Hfuel Hnode; [lia|].
  simpl. destruct next as [x|]; [|constructor].
  case_bool_decide; [by constructor|].
  constructor; [done|].
  destruct (container c x) as [y|] eqn:Hy.
  - apply IH.
    + assert (x ∈ tree_nodes) by (eapply container_known; eauto).
      assert (size (tree_nodes ∖ ({[x]} ∪ seen)) < size (tree_nodes ∖ seen))%nat; [|lia].
      apply subset_size. set_solver.
    + intros ? [= <-]. by eapply container_tree_node.
  - destruct fuel; constructor.
Qed.

Lemma path_while_path o :
  path_while c ∅ (container c o) (path_loop c (path_fuel c) ∅ (container c o)).
Proof.
  apply path_loop_runs.
  - pose proof size_tree_nodes.
    assert (tree_nodes ∖ ∅ = tree_nodes) as -> by set_solver. done.
  - intros x. apply container_tree_node.
Qed.

(** What a run collects is not in [seen] and repeats nothing. *)
Lemma path_while_fresh seen next out :
  path_while c seen next out -> NoDup out /\ forall x, x ∈ out -> x ∉ seen.
Proof.
  induction 1 as [|? ? ?|seen x rest Hx _ [IHn IHd]]; [split; [constructor|set_solver]..|].
  split.
  - constructor; [|done]. intros Hin. apply (IHd x Hin). set_solver.
  - set_solver.
Qed.

(** What a run collects is reachable. *)
Lemma path_while_sound seen next out :
  path_while c seen next out ->
  forall a, a ∈ out -> exists x, next = Some x /\ rtc (above c) x a.
Proof.
  induction 1 as [|? ? ?|seen x rest Hx _ IH]; intros a Ha; [set_solver..|].
  exists x. split; [done|].
  apply elem_of_cons in Ha as [->|Ha]; [constructor|].
  apply IH in Ha as (y & Hy & Hya). by econstructor.
Qed.

(** A run misses nothing: what it collects, with [seen], is closed. *)
Lemma path_while_closed seen next out :
  path_while c seen next out ->
  (forall x, next = Some x -> x ∈ seen \/ x ∈ out)
  /\ (forall x y, x ∈ out -> above c x y -> y ∈ seen \/ y ∈ out).
Proof.
  induction 1 as [|? ? ?|seen x rest Hx _ [IHn IHc]].
  - split; [done|set_solver].
  - split; [naive_solver|set_solver].
  - split; [intros ? [= <-]; set_solver|].
    intros z y Hz Hzy. apply elem_of_cons in Hz as [->|Hz].
    + destruct (IHn y Hzy); set_solver.
    + destruct (IHc z y Hz Hzy); set_solver.
Qed.

(** The ancestors proper, as [visible] takes them with [skip(1)]. *)
Lemma elem_of_path_tail o a : a ∈ drop 1 (path c o) <-> tc (above c) o a.
Proof.
  change (drop 1 (path c o)) with (path_loop c (path_fuel c) ∅ (container c o)).
  pose proof (path_while_path o) as Hrun. split.
  - intros Ha. destruct (path_while_sound _ _ _ Hrun a Ha) as (x & Hx & Hxa).
    by eapply tc_rtc_r; [apply tc_once|].
  - destruct (path_while_closed _ _ _ Hrun) as [Hn Hc].
    set (out := path_loop _ _ _ _) in *. clearbody out.
    assert (forall x, above c o x -> x ∈ out) as Hn'
      by (intros x Hx; destruct (Hn x Hx); set_solver).
    assert (forall x y, x ∈ out -> above c x y -> y ∈ out) as Hc'
      by (intros x y Hx Hxy; destruct (Hc x y Hx Hxy); set_solver).
    inversion 1 as [? ? Hoa|? x ? Hox Hxa]; subst; [by apply Hn'|].
    eapply (rtc_closed (above c) (fun x => x ∈ out)); eauto using tc_rtc.
Qed.

Lemma elem_of_path o a : a ∈ path c o <-> rtc (above c) o a.
Proof.
  rewrite rtc_tc, <- elem_of_path_tail.
  assert (path c o = o :: drop 1 (path c o)) as -> by done.
  rewrite elem_of_cons. simpl drop. naive_solver.
Qed.

End Path.

(** ** Roles and grants *)

Lemma role_leb_le a b : role_leb a b = true <-> role_rank a <= role_rank b.
Proof. unfold role_leb. by rewrite Z.leb_le. Qed.

Lemma role_rank_inj a b : role_rank a = role_rank b -> a = b.
Proof. destruct a, b; simpl; (done || lia). Qed.

Lemma role_max_spec rs m :
  role_max rs = Some m <-> m ∈ rs /\ forall r, r ∈ rs -> role_rank r <= role_rank m.
Proof.
  revert m. induction rs as [|r rs IH]; intros m; simpl.
  - split; [done|]. intros [Hm _]. set_solver.
  - destruct (role_max rs) as [n|] eqn:En.
    + destruct (proj1 (IH n) eq_refl) as [Hn Hmax].
      unfold role_leb. split.
      * intros [= <-]. setoid_rewrite elem_of_cons.
        case_match; bools; (split; [by auto|]); intros r' [->|Hr]; try specialize (Hmax _ Hr); lia.
      * intros [Hm Hall]. f_equal.
        pose proof (Hall r ltac:(set_solver)). pose proof (Hall n ltac:(set_solver)).
        apply elem_of_cons in Hm as [->|Hm]; case_match; bools; try done.
        -- apply role_rank_inj; lia.
        -- specialize (Hmax _ Hm). apply role_rank_inj; lia.
        -- specialize (Hmax _ Hm). apply role_rank_inj; lia.
    + assert (rs = []) as ->.
      { destruct rs as [|r' rs]; [done|]. simpl in En. done. }
      split; [intros [= <-]; set_solver|]. intros [Hm _]. f_equal. set_solver.
Qed.

Lemma role_max_None rs : role_max rs = None <-> rs = [].
Proof. destruct rs; simpl; split; done. Qed.

(** Holding at least [needed] is having some role that includes it. *)
Lemma role_max_at_least rs needed :
  is_some_and (role_leb needed) (role_max rs) = true
  <-> exists r, r ∈ rs /\ role_rank needed <= role_rank r.
Proof.
  rewrite is_some_and_true. split.
  - intros (m & Hm & Hle). apply role_max_spec in Hm as [? _].
    exists m. by rewrite <- role_leb_le.
  - intros (r & Hr & Hle). destruct (role_max rs) as [m|] eqn:Em.
    + exists m. split; [done|]. apply role_max_spec in Em as [_ Hall].
      apply role_leb_le. specialize (Hall r Hr). lia.
    + apply role_max_None in Em as ->. set_solver.
Qed.

(** [g] still counts at [now], and gives [p] the role [r] on [o]. *)
Definition gives (now : Z) (o : ObjectId) (p : list Z) (r : Role) (g : Grant) : Prop :=
  ran_out now g = false /\ object g = o /\ principal g = p /\ role g = r.

(** The index of [Catalog::new] holds exactly the grants that still count. *)
Lemma elem_of_index_grants now gs o p r :
  (p, r) ∈ default [] (index_grants now gs !! o) <-> exists g, g ∈ gs /\ gives now o p r g.
Proof.
  unfold index_grants. induction gs as [|g gs IH] using rev_ind.
  - simpl. rewrite lookup_empty. simpl. split; [by intros ?%elem_of_nil|].
    by intros (? & ?%elem_of_nil & ?).
  - rewrite foldl_app, exists_snoc, <- IH. simpl. unfold gives.
    destruct (ran_out now g); [naive_solver|].
    unfold push_grant. rewrite lookup_insert. case_decide as Ho; simpl; [|naive_solver].
    rewrite Ho, elem_of_app, list_elem_of_singleton. naive_solver.
Qed.

Lemma elem_of_grants_along c o on p r :
  (on, p, r) ∈ grants_along c o <-> rtc (above c) o on /\ (p, r) ∈ grants_on c on.
Proof.
  unfold grants_along. rewrite list_elem_of_bind. setoid_rewrite list_elem_of_fmap.
  setoid_rewrite elem_of_path. split.
  - intros (? & ([p' r'] & [= -> -> ->] & ?) & ?). done.
  - intros [? ?]. exists on. split; [|done]. by exists (p, r).
Qed.

(** The grants [effective_role] looks at are those [reasons] lists. *)
Lemma reasons_roles c s o :
  snd <$> filter (fun g : list Z * Role => g.1 ∈ sids s) (path c o ≫= grants_on c)
  = snd <$> reasons c s o.
Proof.
  unfold reasons, grants_along. induction (path c o) as [|x l IH]; [done|].
  rewrite !bind_cons, !filter_app, !fmap_app, IH. f_equal.
  induction (grants_on c x) as [|g gs IHg]; [done|].
  rewrite fmap_cons. destruct (decide (g.1 ∈ sids s)).
  - rewrite !filter_cons_True by done. by rewrite !fmap_cons, IHg.
  - by rewrite !filter_cons_False, IHg by done.
Qed.

(** Holding at least [needed]: an administrator everywhere, anyone else by a
    grant along the path. *)
Lemma authorize_true c s needed o :
  authorize c s needed o = true <->
  contains c o = true /\
  (admin s = true \/
   exists on p r, rtc (above c) o on /\ (p, r) ∈ grants_on c on
                  /\ p ∈ sids s /\ role_rank needed <= role_rank r).
Proof.
  unfold authorize, effective_role.
  destruct (contains c o); cbn [negb]; [|naive_solver].
  destruct (admin s).
  { split; [auto|]. intros _. unfold role_leb. by destruct needed. }
  rewrite reasons_roles, role_max_at_least. split.
  - intros (r & ([[on p] r'] & -> & Hin)%list_elem_of_fmap & Hle). split; [done|right].
    unfold reasons in Hin. apply list_elem_of_filter in Hin as [Hp Hin].
    apply elem_of_grants_along in Hin as [? ?]. eauto 8.
  - intros (_ & [?|(on & p & r & Hon & Hg & Hp & Hle)]); [done|].
    exists r. split; [|done]. apply list_elem_of_fmap. exists (on, p, r). split; [done|].
    apply list_elem_of_filter. split; [done|]. by apply elem_of_grants_along.
Qed.

Lemma grants_on_new objects gs now o p r :
  (p, r) ∈ grants_on (catalog_new objects gs now) o
  <-> exists g, g ∈ gs /\ gives now o p r g.
Proof. apply elem_of_index_grants. Qed.

(** The trees of a catalog depend on neither grants nor the time. *)
Lemma above_new objects gs gs' now now' o a :
  above (catalog_new objects gs now) o a <-> above (catalog_new objects gs' now') o a.
Proof. by destruct o. Qed.

Lemma rtc_above_new objects gs gs' now now' o a :
  rtc (above (catalog_new objects gs now)) o a
  -> rtc (above (catalog_new objects gs' now')) o a.
Proof. induction 1 as [|x y z Hxy _ IH]; [done|]. econstructor; [|done]. by eapply above_new. Qed.

Lemma elem_of_all_objects c o : o ∈ all_objects c <-> contains c o = true.
Proof.
  unfold all_objects. rewrite !elem_of_app, !list_elem_of_fmap. setoid_rewrite elem_of_keys.
  destruct o; simpl; rewrite is_some_true; naive_solver.
Qed.

Lemma effective_role_contained c s o r :
  effective_role c s o = Some r -> contains c o = true.
Proof. unfold effective_role. by destruct (contains c o). Qed.

Lemma NoDup_all_objects c : NoDup (all_objects c).
Proof.
  unfold all_objects.
  repeat (apply NoDup_app; split; [|split]).
  all: try (apply NoDup_fmap; [by intros ?? [=]|apply NoDup_keys]).
  all: intros x; rewrite ?elem_of_app, !list_elem_of_fmap; naive_solver.
Qed.

(** The roles [visible] lists are the effective roles. *)
Lemma lookup_visible_roles c s o : visible_roles c s !! o = effective_role c s o.
Proof.
  unfold visible_roles.
  set (pick := fun o => (fun r => (o, r)) <$> effective_role c s o).
  assert (NoDup (omap pick (all_objects c)).*1) as Hnd.
  { assert (forall l, (omap pick l).*1 `sublist_of` l) as Hsub.
    { induction l as [|x l IH]; [constructor|]. simpl. unfold pick at 1.
      destruct (effective_role c s x); simpl; by constructor. }
    eapply sublist_NoDup; [apply NoDup_all_objects|done]. }
  destruct (effective_role c s o) as [r|] eqn:Hr.
  - apply collect_lookup_nodup; [done|]. apply list_elem_of_omap. exists o. split.
    + apply elem_of_all_objects. by eapply effective_role_contained.
    + unfold pick. by rewrite Hr.
  - destruct (collect _ !! o) as [r|] eqn:Hl; [|done].
    apply collect_lookup_elem, list_elem_of_omap in Hl as (o' & _ & Hp).
    unfold pick in Hp. apply fmap_Some in Hp as (r' & Hr' & [= <- <-]). congruence.
Qed.

Lemma elem_of_hidden_ancestors c s a :
  a ∈ hidden_ancestors c (visible_roles c s) <->
  effective_role c s a = None /\
  exists o r, effective_role c s o = Some r /\ tc (above c) o a.
Proof.
  unfold hidden_ancestors. rewrite list_elem_of_bind.
  setoid_rewrite list_elem_of_filter. setoid_rewrite elem_of_keys.
  setoid_rewrite elem_of_path_tail. setoid_rewrite lookup_visible_roles.
  unfold is_Some. naive_solver.
Qed.

(** ** What the catalog decides *)

Lemma ran_out_false now g : ran_out now g = false <-> forall u, until g = Some u -> now < u.
Proof.
  unfold ran_out. destruct (until g) as [u|]; simpl; [|naive_solver].
  rewrite Z.leb_gt. split; [by intros ? ? [= <-]|eauto].
Qed.

(** [g] has not run out, names one of the subject's SIDs, gives at least
    [needed], and lies on [o] or above it. *)
Definition counts (c : Catalog) (now : Z) (s : Subject) (needed : Role) (o : ObjectId) (g : Grant) :
    Prop :=
  (forall u, until g = Some u -> now < u)
  /\ principal g ∈ sids s /\ role_rank needed <= role_rank (role g)
  /\ rtc (above c) o (object g).

Lemma authorize_new objects gs now s needed o :
  authorize (catalog_new objects gs now) s needed o = true <->
  contains (catalog_new objects gs now) o = true
  /\ (admin s = true
      \/ exists g, g ∈ gs /\ counts (catalog_new objects gs now) now s needed o g).
Proof.
  rewrite authorize_true. setoid_rewrite grants_on_new. unfold counts, gives.
  setoid_rewrite ran_out_false. split; intros [Hc [Ha|H]]; (split; [done|]); [by left|right|by left|right].
  - destruct H as (on & p & r & Hon & (g & Hg & Hu & <- & <- & <-) & Hp & Hr). by exists g.
  - destruct H as (g & Hg & Hu & Hp & Hr & Hon).
    exists (object g), (principal g), (role g). split; [done|]. split; [by exists g|done].
Qed.

(** C1: [authorize] decides by grants alone: it holds exactly for an object
    the catalog contains, for an administrator, or with a grant that has not
    run out, names one of the subject's SIDs, gives at least the needed role
    and lies on the object or on a folder or collection above it. *)
Theorem authorize_iff (objects : Objects) (gs : list Grant) (now : Z)
    (s : Subject) (needed : Role) (o : ObjectId) :
  let c := catalog_new objects gs now in
  authorize c s needed o = true <->
  contains c o = true /\
  (admin s = true \/
   exists g, g ∈ gs
             /\ (forall u, until g = Some u -> now < u)
             /\ principal g ∈ sids s
             /\ role_rank needed <= role_rank (role g)
             /\ rtc (above c) o (object g)).
Proof. apply authorize_new. Qed.

(** C39: The [while] loop of [path] ends by itself for every catalog, loops in
    the trees included, and collects each folder or collection once. *)
Theorem path_terminates (c : Catalog) (o : ObjectId) :
  exists rest, path c o = o :: rest
               /\ path_while c ∅ (container c o) rest
               /\ NoDup rest.
Proof.
  exists (path_loop c (path_fuel c) ∅ (container c o)).
  pose proof (path_while_path c o) as Hrun. repeat split; [done|].
  by eapply path_while_fresh.
Qed.

(** [visible] gives every object its effective role, and shows a folder
    or collection as path only exactly when the subject has no role on it but
    one on something below it. *)
Theorem visible_iff (c : Catalog) (s : Subject) :
  (forall o, roles (visible c s) !! o = effective_role c s o)
  /\ (forall f, f ∈ path_only (visible c s) <->
        effective_role c s (Folder f) = None /\
        exists o r, effective_role c s o = Some r /\ tc (above c) o (Folder f))
  /\ (forall k, k ∈ collections_path_only (visible c s) <->
        effective_role c s (Collection k) = None /\
        exists o r, effective_role c s o = Some r /\ tc (above c) o (Collection k)).
Proof.
  split; [apply lookup_visible_roles|].
  split; intros i; simpl; rewrite elem_of_list_to_set, list_elem_of_omap;
    rewrite <- elem_of_hidden_ancestors; split.
  - intros ([]&?&?); by simplify_eq.
  - intros ?. by exists (Folder i).
  - intros ([]&?&?); by simplify_eq.
  - intros ?. by exists (Collection i).
Qed.

(** Grants only ever allow, and time only ever takes away: what is
    authorized with some grants at some time is authorized with more grants
    at any earlier time. *)
Theorem authorize_monotone (objects : Objects) (gs gs' : list Grant) (now now' : Z)
    (s : Subject) (needed : Role) (o : ObjectId) :
  gs ⊆ gs' -> now' <= now ->
  authorize (catalog_new objects gs now) s needed o = true ->
  authorize (catalog_new objects gs' now') s needed o = true.
Proof.
  intros Hgs Hnow. rewrite !authorize_true. intros [Hc Hor].
  split; [by destruct o|]. destruct Hor as [|(on & p & r & Hon & Hg & Hp & Hr)]; [by left|right].
  exists on, p, r. split; [by eapply rtc_above_new|]. split; [|done].
  apply grants_on_new. apply grants_on_new in Hg as (g & Hg & Hout & ?). exists g.
  split; [by apply Hgs|]. split; [|done]. revert Hout. unfold ran_out.
  destruct (until g); simpl; [|done]. rewrite !Z.leb_gt. lia.
Qed.

(** A catalog with a folder, a device in it and a grant on the folder. *)
Definition sample_objects : Objects := {|
  folders := [(1, None)];
  collections := [];
  devices := [(2, 1)];
  credentials := [];
  profiles := [];
|}.

Definition sample_grant : Grant := {|
  object := Folder 1;
  principal := lit "S-1-5-21-7";
  role := Role_Reveal;
  until := Some 100;
|}.

Definition sample_subject : Subject := {| sids := {[ lit "S-1-5-21-7" ]}; admin := false |}.

Lemma authorize_monotone_witness :
  authorize (catalog_new sample_objects [sample_grant] 99) sample_subject Role_Connect (Device 2)
  = true
  /\ authorize (catalog_new sample_objects [sample_grant; sample_grant] 50)
       sample_subject Role_Connect (Device 2) = true.
Proof.
  split; [reflexivity|].
  apply (authorize_monotone sample_objects [sample_grant] [sample_grant; sample_grant] 99 50).
  - intros x Hx. by apply elem_of_cons; right.
  - discriminate.
  - reflexivity.
Defined.

(** The grant runs out at its end, and reaches the device through its folder
    only. *)
Example sample_runs_out :
  authorize (catalog_new sample_objects [sample_grant] 100) sample_subject Role_Connect (Device 2)
  = false.
Proof. reflexivity. Qed.

Example role_names_read_back : Forall (fun r => role_parse (role_as_str r) = Some r) role_all.
Proof. repeat constructor. Qed.
