(* ===== verification/Guacamole.v ===== *)
(** * The Guacamole protocol (crates/gateway/src/guacamole.rs)

    Instructions are lists of elements [LENGTH.VALUE], separated by commas
    and ended by a semicolon; [LENGTH] counts characters, the stream carries
    bytes. The file models the encoder, the incremental [Parser] with its
    [scan] over byte positions as the code has it, the handshake with guacd,
    and the filter on what a browser may send. The theorems: every
    instruction reads back from its encoding whatever follows it, a strict
    prefix of one is incomplete and not an error, the parser keeps at most
    [MAX_INSTRUCTION_BYTES] and never loses or reorders a byte, however the
    stream is cut into pieces. *)

From S2P Require Import Prelude Text Utf8.

(** ** Data *)

Definition PROTOCOL_VERSION : str := lit "VERSION_1_5_0".
Definition MAX_INSTRUCTION_BYTES : Z := 32 * 1024.
Definition MAX_ELEMENTS : nat := 128.

(** The errors; what the operating system says of [Unreachable] and [Io] is
    not part of the model. *)
Inductive GuacError :=
| Unreachable
| Timeout
| Refused (message : str) (status : Z)
| Malformed (what : string)
| Io.

#[export] Instance GuacError_eq_dec : EqDecision GuacError.
Proof. solve_decision. Defined.

Record Instruction := { opcode : str; args : list (list Z) }.

#[export] Instance Instruction_eq_dec : EqDecision Instruction.
Proof. solve_decision. Defined.

(** ** Encoding *)

Definition push_element (out value : str) : list Z :=
  out ++ decimal (Z.of_nat (length value)) ++ [46] ++ value.

(** The loop of [encode_into] over the arguments. *)
Definition push_args (out : str) (args : list (list Z)) : list Z :=
  foldl (fun out arg => push_element (out ++ [44]) arg) out args.

Definition encode_into (out opcode : str) (args : list (list Z)) : list Z :=
  push_args (push_element out opcode) args ++ [59].

Definition encode (i : Instruction) : list Z := encode_into [] (opcode i) (args i).

(** ** Scanning *)

(** A complete instruction: its length in bytes and the byte ranges of its
    elements. *)
Abbreviation Scanned := (nat * list (nat * nat))%type.

Definition incomplete {T : Type} (buffer : list Z) : result (option T) GuacError :=
  if MAX_INSTRUCTION_BYTES <? Z.of_nat (length buffer)
  then Err (Malformed "instruction too long")
  else Ok None.

(** [iter().take_while(is_ascii_digit).count()]. *)
Fixpoint count_digits (bs : list Z) : nat :=
  match bs with
  | b :: bs => if is_ascii_digit b then S (count_digits bs) else 0
  | [] => 0
  end.

(** The width of a character by its first byte. *)
Definition lead_width (lead : Z) : option nat :=
  if between 0x00 0x7f lead then Some 1%nat
  else if between 0xc0 0xdf lead then Some 2%nat
  else if between 0xe0 0xef lead then Some 3%nat
  else if between 0xf0 0xf7 lead then Some 4%nat
  else None.

(** The loop over [length] characters from position [at]: where it ends, or
    [None] where the buffer does. *)
Fixpoint scan_value (buffer : list Z) (pos length : nat) : result (option nat) GuacError :=
  match length with
  | O => Ok (Some pos)
  | S length =>
      match buffer !! pos with
      | None => Ok None
      | Some lead =>
          match lead_width lead with
          | Some w => scan_value buffer (pos + w) length
          | None => Err (Malformed "invalid UTF-8")
          end
      end
  end.

(** One round of the outer loop: the element at [pos], as the position after
    its separator, its byte range and the separator. *)
Definition scan_element (buffer : list Z) (pos : nat)
  : result (option (nat * (nat * nat) * Z)) GuacError :=
  let digits := count_digits (drop pos buffer) in
  if bool_decide (5 < digits)%nat then Err (Malformed "element too long")
  else if bool_decide (length buffer <= pos + digits)%nat then incomplete buffer
  else if bool_decide (digits = 0%nat \/ buffer !! (pos + digits)%nat <> Some 46)
  then Err (Malformed "element without length")
  else
    match parse_unsigned u64_max (take digits (drop pos buffer)) with
    | None => Err (Malformed "element without length")
    | Some len =>
        let start := (pos + digits + 1)%nat in
        let? stop := scan_value buffer start (Z.to_nat len) in
        match stop with
        | None => incomplete buffer
        | Some stop =>
            match buffer !! stop with
            | None => incomplete buffer
            | Some separator => Ok (Some (S stop, (start, stop), separator))
            end
        end
    end.

(** The outer loop. Each round adds an element and a round beyond
    [MAX_ELEMENTS] fails, so [S MAX_ELEMENTS] rounds are enough. *)
Fixpoint scan_loop (fuel : nat) (buffer : list Z) (pos : nat) (elements : list (nat * nat))
  : result (option Scanned) GuacError :=
  match fuel with
  | O => Err (Malformed "too many elements")
  | S fuel =>
      let? element := scan_element buffer pos in
      match element with
      | None => Ok None
      | Some (next, range, separator) =>
          let elements := elements ++ [range] in
          if bool_decide (MAX_ELEMENTS < length elements)%nat
          then Err (Malformed "too many elements")
          else if separator =? 59 then Ok (Some (next, elements))
          else if separator =? 44 then scan_loop fuel buffer next elements
          else Err (Malformed "element without separator")
      end
  end.

Definition scan (buffer : list Z) : result (option Scanned) GuacError :=
  scan_loop (S MAX_ELEMENTS) buffer 0 [].

(** ** The parser

    Its state is the buffer. *)

Definition push (buffer bytes : list Z) : list Z := buffer ++ bytes.

Definition slice (buffer : list Z) (range : nat * nat) : list Z :=
  take (range.2 - range.1) (drop range.1 buffer).

(** [String::from_utf8] on each element, the first failure first. *)
Fixpoint element_texts (buffer : list Z) (ranges : list (nat * nat))
  : result (list (list Z)) GuacError :=
  match ranges with
  | [] => Ok []
  | r :: ranges =>
      match from_utf8 (slice buffer r) with
      | None => Err (Malformed "invalid UTF-8")
      | Some text => let? texts := element_texts buffer ranges in Ok (text :: texts)
      end
  end.

(** The next instruction and the buffer after it. *)
Definition next_instruction (buffer : list Z) : result (option Instruction * list Z) GuacError :=
  let? scanned := scan buffer in
  match scanned with
  | None => Ok (None, buffer)
  | Some (stop, elements) =>
      let? texts := element_texts buffer elements in
      match texts with
      | [] => Err (Malformed "empty instruction")
      | opcode :: args =>
          Ok (Some {| opcode := opcode; args := args |}, drop stop buffer)
      end
  end.

(** The [while] loop of [take_complete]: the end of the last complete
    instruction. Each one has at least three bytes, so the length of the
    buffer bounds the rounds. *)
Fixpoint complete_end (fuel : nat) (buffer : list Z) (stop : nat) : result nat GuacError :=
  match fuel with
  | O => Ok stop
  | S fuel =>
      let? scanned := scan (drop stop buffer) in
      match scanned with
      | None => Ok stop
      | Some (len, _) => complete_end fuel buffer (stop + len)
      end
  end.

Definition take_complete (buffer : list Z) : result (option (list Z) * list Z) GuacError :=
  let? stop := complete_end (S (length buffer)) buffer 0 in
  if bool_decide (stop = 0%nat) then Ok (None, buffer)
  else match from_utf8 (take stop buffer) with
       | None => Err (Malformed "invalid UTF-8")
       | Some text => Ok (Some text, drop stop buffer)
       end.

(** ** What the browser may send *)

Definition allowed_from_browser (opcode : str) : bool :=
  bool_decide (opcode ∈ [lit "ack"; lit "blob"; lit "clipboard"; lit "disconnect"; lit "end";
                         lit "key"; lit "mouse"; lit "nop"; lit "size"; lit "sync"; lit "touch"]).

Definition is_input (opcode : str) : bool :=
  bool_decide (opcode ∈ [lit "blob"; lit "clipboard"; lit "end"; lit "key"; lit "mouse";
                         lit "touch"]).

(** ** Positions in a buffer *)

Lemma lookup_pre (pre suf : list Z) (k : nat) :
  (pre ++ suf) !! (length pre + k)%nat = suf !! k.
Proof. rewrite lookup_app_r by lia. f_equal. lia. Qed.

Lemma slice_pre (pre x suf : list Z) :
  slice (pre ++ x ++ suf) (length pre, (length pre + length x)%nat) = x.
Proof.
  unfold slice. simpl. rewrite drop_app_length.
  replace (length pre + length x - length pre)%nat with (length x) by lia.
  apply take_app_length.
Qed.

Lemma count_digits_app ds x rest :
  Forall (fun c => is_ascii_digit c = true) ds -> is_ascii_digit x = false ->
  count_digits (ds ++ x :: rest) = length ds.
Proof.
  intros Hds Hx. induction Hds as [|d ds Hd _ IH]; simpl; [by rewrite Hx|]. by rewrite Hd, IH.
Qed.

Lemma decimal_length_5 n : 0 <= n <= 99999 -> (length (decimal n) <= 5)%nat.
Proof.
  intros Hn. apply decimal_length; [lia|]. change (10 ^ Z.of_nat 5) with 100000. lia.
Qed.

Lemma lead_width_enc c rest :
  scalar c = true ->
  exists lead tail, enc_char c ++ rest = lead :: tail
                    /\ lead_width lead = Some (length (enc_char c)).
Proof.
  intros Hc. unfold scalar in Hc.
  apply orb_true_iff in Hc. rewrite !andb_true_iff, !Z.leb_le, !Z.ltb_lt in Hc.
  pose proof (six_bits c) as Hs. unfold enc_char, lead_width.
  destruct (c <? 0x80) eqn:E1; [|destruct (c <? 0x800) eqn:E2;
    [|destruct (c <? 0x10000) eqn:E3]]; bools; eexists _, _; split; try done.
  - by rewrite between_true by lia.
  - by rewrite between_false, between_true by lia.
  - by rewrite !between_false, between_true by lia.
  - by rewrite !between_false, between_true by lia.
Qed.

(** The loop over the characters of a value stops at its end. *)
Lemma scan_value_text pre s rest :
  Forall (fun c => scalar c = true) s ->
  scan_value (pre ++ utf8 s ++ rest) (length pre) (length s)
  = Ok (Some (length pre + length (utf8 s))%nat).
Proof.
  intros Hs. revert pre. induction Hs as [|c s Hc _ IH]; intros pre.
  - simpl. by rewrite Nat.add_0_r.
  - change (utf8 (c :: s)) with (enc_char c ++ utf8 s). cbn [length scan_value].
    destruct (lead_width_enc c (utf8 s ++ rest) Hc) as (lead & tail & Heq & Hw).
    rewrite <- app_assoc.
    replace ((pre ++ enc_char c ++ utf8 s ++ rest) !! length pre) with (Some lead).
    + rewrite Hw. rewrite app_assoc, <- length_app, IH. do 2 f_equal. rewrite !length_app. lia.
    + rewrite <- (Nat.add_0_r (length pre)), lookup_pre, Heq. done.
Qed.

(** ** One instruction *)

(** An element as it is sent. *)
Definition element (value : str) : list Z :=
  decimal (Z.of_nat (length value)) ++ 46 :: utf8 value.

(** Elements separated by commas and ended by a semicolon. *)
Fixpoint elements_bytes (e : str) (es : list (list Z)) : list Z :=
  match es with
  | [] => element e ++ [59]
  | e' :: es => element e ++ 44 :: elements_bytes e' es
  end.

Lemma utf8_decimal n : 0 <= n -> utf8 (decimal n) = decimal n.
Proof.
  intros Hn. apply utf8_ascii. eapply Forall_impl; [by apply decimal_digits|].
  intros c. unfold is_ascii_digit. intros ?. bools. lia.
Qed.

Lemma utf8_push_element out v : utf8 (push_element out v) = utf8 out ++ element v.
Proof.
  unfold push_element, element. rewrite !utf8_app, utf8_decimal by lia. done.
Qed.

Lemma utf8_push_args out es :
  utf8 (push_args out es ++ [59])
  = match es with [] => utf8 out ++ [59] | e :: es => utf8 out ++ 44 :: elements_bytes e es end.
Proof.
  unfold push_args. revert out. induction es as [|e es IH]; intros out; simpl.
  - by rewrite utf8_app.
  - rewrite IH, utf8_push_element, utf8_app. change (utf8 [44]) with [44].
    destruct es; simpl; by rewrite <- !app_assoc.
Qed.

Lemma utf8_encode i : utf8 (encode i) = elements_bytes (opcode i) (args i).
Proof.
  unfold encode, encode_into. rewrite utf8_push_args, utf8_push_element.
  change (utf8 []) with (@nil Z). by destruct (args i).
Qed.

(** An element the protocol can carry. *)
Definition element_ok (value : str) : Prop :=
  Forall (fun c => scalar c = true) value /\ Z.of_nat (length value) <= 99999.

Definition instruction_ok (i : Instruction) : Prop :=
  element_ok (opcode i) /\ Forall element_ok (args i) /\ (S (length (args i)) <= MAX_ELEMENTS)%nat.

Lemma scan_element_text pre v sep rest :
  element_ok v ->
  exists start stop,
    scan_element (pre ++ element v ++ sep :: rest) (length pre)
    = Ok (Some ((length pre + length (element v) + 1)%nat, (start, stop), sep))
    /\ slice (pre ++ element v ++ sep :: rest) (start, stop) = utf8 v.
Proof.
  intros [Hsc Hlen]. set (n := Z.of_nat (length v)) in *.
  set (ds := decimal n).
  assert (Forall (fun c => is_ascii_digit c = true) ds) as Hds by (apply decimal_digits; lia).
  assert (ds <> []) as Hne by apply decimal_not_nil.
  assert (length ds <= 5)%nat as H5 by (apply decimal_length_5; lia).
  assert (element v ++ sep :: rest = ds ++ 46 :: utf8 v ++ sep :: rest) as Hel.
  { unfold element. fold n ds. by rewrite <- app_assoc. }
  assert (length (element v) = length ds + 1 + length (utf8 v))%nat as Hl.
  { unfold element. fold n ds. rewrite length_app. simpl. lia. }
  rewrite Hel. exists (length pre + length ds + 1)%nat,
    (length pre + length ds + 1 + length (utf8 v))%nat.
  assert (pre ++ ds ++ 46 :: utf8 v ++ sep :: rest
          = (pre ++ ds ++ [46]) ++ utf8 v ++ sep :: rest) as Hb.
  { rewrite <- !app_assoc. done. }
  assert (length (pre ++ ds ++ [46%Z]) = length pre + length ds + 1)%nat as Hlp.
  { rewrite !length_app. simpl. lia. }
  split; [|rewrite Hb, <- Hlp; apply slice_pre].
  unfold scan_element. rewrite drop_app_length, count_digits_app by done.
  rewrite bool_decide_false by lia.
  rewrite bool_decide_false by (rewrite !length_app; simpl; rewrite length_app; simpl; lia).
  rewrite bool_decide_false.
  2:{ intros [Hz|Hsep]; [by destruct ds|]. apply Hsep. rewrite lookup_pre.
      rewrite <- (Nat.add_0_r (length ds)). by rewrite lookup_pre. }
  rewrite take_app_length. unfold ds at 1. rewrite parse_unsigned_decimal by (unfold u64_max; lia).
  unfold n. rewrite Nat2Z.id. rewrite Hb, <- Hlp, scan_value_text by done.
  rewrite lookup_pre, <- (Nat.add_0_r (length (utf8 v))), lookup_pre. simpl.
  do 4 f_equal. rewrite Hl, Hlp. lia.
Qed.

Lemma element_texts_app b r1 r2 t1 :
  element_texts b r1 = Ok t1 ->
  element_texts b (r1 ++ r2)
  = match element_texts b r2 with Ok t2 => Ok (t1 ++ t2) | Err e => Err e end.
Proof.
  revert t1. induction r1 as [|r r1 IH]; intros t1; simpl.
  - intros [= <-]. by destruct (element_texts b r2).
  - destruct (from_utf8 (slice b r)); [|done].
    destruct (element_texts b r1) as [t|]; [|done]. intros [= <-]. rewrite (IH t) by done.
    by destruct (element_texts b r2).
Qed.

(** The outer loop reads the elements of an instruction, whatever follows. *)
Lemma scan_loop_elements fuel pre e es rest els ts :
  Forall element_ok (e :: es) ->
  (length es < fuel)%nat -> (length els + length (e :: es) <= MAX_ELEMENTS)%nat ->
  let b := pre ++ elements_bytes e es ++ rest in
  element_texts b els = Ok ts ->
  exists ranges,
    scan_loop fuel b (length pre) els
    = Ok (Some ((length pre + length (elements_bytes e es))%nat, ranges))
    /\ element_texts b ranges = Ok (ts ++ e :: es).
Proof.
  revert pre e els ts fuel.
  induction es as [|e' es IH]; intros pre e els ts fuel [He Hes]%Forall_cons Hfuel Hmax b Hts;
    (destruct fuel as [|fuel]; [simpl in Hfuel; lia|]); cbn [elements_bytes] in b;
    assert (from_utf8 (utf8 e) = Some e) as Hdec by (apply from_utf8_utf8, He);
    cbn [length] in Hmax.
  - destruct (scan_element_text pre e 59 rest He) as (start & stop & Hscan & Hsl).
    assert (b = pre ++ element e ++ 59 :: rest) as Hb by (unfold b; by rewrite <- app_assoc).
    rewrite Hb in *. exists (els ++ [(start, stop)]). cbn [scan_loop]. rewrite Hscan.
    rewrite bool_decide_false by (rewrite length_app; simpl; lia).
    cbn [Z.eqb Pos.eqb]. split.
    + do 3 f_equal. cbn [elements_bytes]. rewrite length_app. simpl. lia.
    + rewrite (element_texts_app _ _ _ _ Hts). cbn [element_texts]. by rewrite Hsl, Hdec.
  - set (rest' := elements_bytes e' es ++ rest).
    destruct (scan_element_text pre e 44 rest' He) as (start & stop & Hscan & Hsl).
    assert (b = pre ++ element e ++ 44 :: rest') as Hb.
    { unfold b, rest'. rewrite <- !app_assoc. done. }
    assert (pre ++ element e ++ 44 :: rest' = (pre ++ element e ++ [44]) ++ rest') as Hb'.
    { rewrite <- !app_assoc. done. }
    rewrite Hb in *. cbn [scan_loop]. rewrite Hscan.
    rewrite bool_decide_false by (rewrite length_app; simpl; lia).
    cbn [Z.eqb Pos.eqb].
    assert (element_texts (pre ++ element e ++ 44 :: rest') (els ++ [(start, stop)])
            = Ok (ts ++ [e])) as Hts'.
    { rewrite (element_texts_app _ _ _ _ Hts). cbn [element_texts]. by rewrite Hsl, Hdec. }
    rewrite Hb' in *. unfold rest' in *.
    edestruct (IH (pre ++ element e ++ [44]) e' (els ++ [(start, stop)]) (ts ++ [e]) fuel)
      as (ranges & Hloop & Htexts); try done.
    { simpl in Hfuel. lia. }
    { rewrite length_app. simpl in *. lia. }
    exists ranges. rewrite <- (app_assoc ts) in Htexts. split; [|done].
    rewrite !length_app in Hloop. cbn [length] in Hloop.
    replace (length pre + length (element e) + 1)%nat
      with (length pre + (length (element e) + 1))%nat by lia.
    rewrite Hloop. do 3 f_equal. cbn [elements_bytes]. rewrite length_app. simpl. lia.
Qed.

Lemma scan_encoded i rest :
  instruction_ok i ->
  exists ranges,
    scan (utf8 (encode i) ++ rest) = Ok (Some (length (utf8 (encode i)), ranges))
    /\ element_texts (utf8 (encode i) ++ rest) ranges = Ok (opcode i :: args i).
Proof.
  intros (Hop & Hargs & Hmax). rewrite utf8_encode.
  destruct (scan_loop_elements (S MAX_ELEMENTS) [] (opcode i) (args i) rest [] [])
    as (ranges & Hs & Ht); try done.
  - by constructor.
  - simpl in *. lia.
  - exists ranges. done.
Qed.

(** ** Growing buffers *)

Lemma count_digits_extend bs x :
  (count_digits bs < length bs)%nat -> count_digits (bs ++ x) = count_digits bs.
Proof.
  induction bs as [|b bs IH]; simpl; [lia|]. destruct (is_ascii_digit b); [|done].
  intros. rewrite IH; lia.
Qed.

Lemma count_digits_le bs x : (count_digits bs <= count_digits (bs ++ x))%nat.
Proof. induction bs as [|b bs IH]; simpl; [lia|]. destruct (is_ascii_digit b); lia. Qed.

Lemma count_digits_length bs : (count_digits bs <= length bs)%nat.
Proof. induction bs as [|b bs IH]; simpl; [lia|]. destruct (is_ascii_digit b); lia. Qed.

(** A loop over characters that ends or fails does so in a longer buffer too. *)
Lemma scan_value_extend b x pos n r :
  scan_value b pos n = r -> r <> Ok None -> scan_value (b ++ x) pos n = r.
Proof.
  revert pos. induction n as [|n IH]; intros pos; simpl; [done|].
  destruct (b !! pos) as [lead|] eqn:E; [|by intros <-].
  rewrite (lookup_app_l_Some _ _ _ _ E). destruct (lead_width lead); [|done]. apply IH.
Qed.

(** A result that is final, one a longer buffer does not change. *)
Definition final {T} (b : list Z) (r : result (option T) GuacError) : Prop :=
  match r with
  | Ok None => False
  | Ok (Some _) => True
  | Err _ => Z.of_nat (length b) <= MAX_INSTRUCTION_BYTES
  end.

Lemma incomplete_not_final {T} (b : list Z) : ~ final b (incomplete (T := T) b).
Proof. unfold incomplete. destruct (_ <? _) eqn:E; simpl; [bools; lia|tauto]. Qed.

Lemma scan_element_extend b x pos r :
  (pos <= length b)%nat ->
  scan_element b pos = r -> final b r -> scan_element (b ++ x) pos = r.
Proof.
  intros Hpos. unfold scan_element. rewrite drop_app_le by done.
  set (bs := drop pos b). assert (length bs = length b - pos)%nat as Hbs by apply length_drop.
  pose proof (count_digits_le bs x).
  destruct (bool_decide (5 < count_digits bs)%nat) eqn:E5; bools.
  { intros <- _. by rewrite bool_decide_true by lia. }
  destruct (bool_decide (length b <= pos + count_digits bs)%nat) eqn:El; bools.
  { intros <- []%incomplete_not_final. }
  rewrite count_digits_extend by lia.
  rewrite (bool_decide_false (5 < count_digits bs)%nat) by lia.
  rewrite (bool_decide_false (length (b ++ x) <= _)%nat) by (rewrite length_app; lia).
  rewrite lookup_app_l by lia. case_bool_decide; [done|].
  rewrite take_app_le by lia.
  destruct (parse_unsigned _ _) as [len|]; [|done].
  destruct (scan_value b _ _) as [[stop|]|e] eqn:Ev.
  - rewrite (scan_value_extend _ _ _ _ _ Ev) by done.
    destruct (b !! stop) as [sep|] eqn:Es.
    + by rewrite (lookup_app_l_Some _ _ _ _ Es).
    + intros <- []%incomplete_not_final.
  - intros <- []%incomplete_not_final.
  - by rewrite (scan_value_extend _ _ _ _ _ Ev).
Qed.

(** A value reaches no further back than where it starts. *)
Lemma scan_value_mono b pos n stop : scan_value b pos n = Ok (Some stop) -> (pos <= stop)%nat.
Proof.
  revert pos. induction n as [|n IH]; intros pos; simpl; [intros [= <-]; lia|].
  destruct (b !! pos); [|done]. destruct (lead_width _) as [w|]; [|done].
  intros H%IH. lia.
Qed.

Lemma scan_element_bound b pos next range sep :
  scan_element b pos = Ok (Some (next, range, sep)) -> (pos + 2 < next <= length b)%nat.
Proof.
  unfold scan_element, incomplete.
  set (d := count_digits (drop pos b)).
  destruct (bool_decide _); [done|]. destruct (bool_decide _); [by case_match|].
  destruct (bool_decide (d = 0%nat \/ _)) eqn:Ed; [done|]. bools.
  destruct (parse_unsigned _ _); [|done].
  destruct (scan_value _ _ _) as [[stop|]|] eqn:Ev; [|by case_match|done].
  destruct (b !! stop) eqn:Es; [|by case_match]. intros [= <- _ _].
  apply scan_value_mono in Ev. apply lookup_lt_Some in Es. lia.
Qed.

Lemma scan_loop_extend fuel b x pos els r :
  (pos <= length b)%nat ->
  scan_loop fuel b pos els = r -> final b r -> scan_loop fuel (b ++ x) pos els = r.
Proof.
  revert pos els. induction fuel as [|fuel IH]; intros pos els Hpos; simpl; [done|].
  destruct (scan_element b pos) as [[[[next range] sep]|]|e] eqn:E.
  - rewrite (scan_element_extend _ _ _ _ Hpos E) by done.
    apply scan_element_bound in E.
    case_bool_decide; [done|]. destruct (sep =? 59); [done|]. destruct (sep =? 44); [|done].
    apply IH. lia.
  - by intros <-.
  - intros <- Hf. by rewrite (scan_element_extend _ _ _ _ Hpos E).
Qed.

(** What [scan] finds or refuses in a buffer, it finds or refuses in every
    longer one. *)
Lemma scan_extend b x r : scan b = r -> final b r -> scan (b ++ x) = r.
Proof. apply scan_loop_extend. lia. Qed.

Lemma scan_loop_bound fuel b pos els n rs :
  scan_loop fuel b pos els = Ok (Some (n, rs)) -> (pos + 2 < n <= length b)%nat.
Proof.
  revert pos els. induction fuel as [|fuel IH]; intros pos els; simpl; [done|].
  destruct (scan_element b pos) as [[[[next range] sep]|]|e] eqn:E; [|done..].
  apply scan_element_bound in E. case_bool_decide; [done|].
  destruct (sep =? 59); [by intros [= <- _]|]. destruct (sep =? 44); [|done].
  intros ?%IH. lia.
Qed.

Lemma scan_bound b n rs : scan b = Ok (Some (n, rs)) -> (2 < n <= length b)%nat.
Proof. apply scan_loop_bound. Qed.

Lemma scan_None_bound b : scan b = Ok None -> Z.of_nat (length b) <= MAX_INSTRUCTION_BYTES.
Proof.
  unfold scan. generalize (S MAX_ELEMENTS), 0%nat, (@nil (nat * nat)).
  intros fuel. induction fuel as [|fuel IH]; intros pos els; simpl; [done|].
  destruct (scan_element b pos) as [[[[next range] sep]|]|e] eqn:E; [| |done].
  - case_bool_decide; [done|]. destruct (sep =? 59); [done|].
    destruct (sep =? 44); [|done]. apply IH.
  - intros _. revert E. unfold scan_element, incomplete.
    destruct (MAX_INSTRUCTION_BYTES <? _) eqn:El; bools; [|done].
    repeat (case_match; try done).
Qed.

(** A strict prefix of an instruction is incomplete, never an error. *)
Lemma scan_strict_prefix i p x :
  instruction_ok i -> Z.of_nat (length (utf8 (encode i))) <= MAX_INSTRUCTION_BYTES ->
  utf8 (encode i) = p ++ x -> x <> [] -> scan p = Ok None.
Proof.
  intros Hi Hlen Hpx Hx.
  destruct (scan_encoded i [] Hi) as (rs & Hs & _). rewrite app_nil_r, Hpx in Hs.
  rewrite Hpx, length_app in *.
  destruct (scan p) as [[[n rs']|]|e] eqn:Ep; [|done|].
  - rewrite (scan_extend p x _ Ep) in Hs by done. injection Hs as -> ->.
    apply scan_bound in Ep. destruct x; [done|]. simpl in *. lia.
  - rewrite (scan_extend p x _ Ep) in Hs; [done|]. simpl. lia.
Qed.

(** ** Streams of instructions *)

(** The bytes and the text of a sequence of instructions. *)
Definition stream_bytes (ins : list Instruction) : list Z := ins ≫= fun i => utf8 (encode i).
Definition stream_text (ins : list Instruction) : list Z := ins ≫= encode.

(** An instruction guacd sends: well-formed and within its own limit. *)
Definition sendable (i : Instruction) : Prop :=
  instruction_ok i /\ Z.of_nat (length (utf8 (encode i))) <= MAX_INSTRUCTION_BYTES.

Lemma utf8_stream_text ins : utf8 (stream_text ins) = stream_bytes ins.
Proof.
  unfold stream_text, stream_bytes. induction ins as [|i ins IH]; [done|].
  by rewrite !bind_cons, utf8_app, IH.
Qed.

Lemma scalar_decimal n : 0 <= n -> Forall (fun c => scalar c = true) (decimal n).
Proof.
  intros Hn. eapply Forall_impl; [by apply decimal_digits|].
  intros c. unfold is_ascii_digit. intros ?. bools. apply scalar_true. lia.
Qed.

Lemma scalar_push_element out v :
  Forall (fun c => scalar c = true) out -> Forall (fun c => scalar c = true) v ->
  Forall (fun c => scalar c = true) (push_element out v).
Proof.
  intros. unfold push_element. repeat (apply Forall_app; split); try done.
  - apply scalar_decimal. lia.
  - by repeat constructor.
Qed.

Lemma scalar_encode i : instruction_ok i -> Forall (fun c => scalar c = true) (encode i).
Proof.
  intros ([Hop _] & Hargs & _). unfold encode, encode_into, push_args.
  apply Forall_app. split; [|by repeat constructor].
  assert (Forall (fun c => scalar c = true) (push_element [] (opcode i))) as Ho
    by (apply scalar_push_element; [constructor|done]).
  revert Ho. generalize (push_element [] (opcode i)).
  induction Hargs as [|a l [Ha _] _ IH]; intros out Ho; simpl; [done|].
  apply IH, scalar_push_element; [|done]. apply Forall_app. split; [done|by repeat constructor].
Qed.

Lemma scalar_stream_text ins :
  Forall instruction_ok ins -> Forall (fun c => scalar c = true) (stream_text ins).
Proof.
  unfold stream_text. induction 1 as [|i ins Hi _ IH]; [constructor|].
  rewrite bind_cons. apply Forall_app. split; [by apply scalar_encode|done].
Qed.

Lemma length_encoded i : (1 <= length (utf8 (encode i)))%nat.
Proof. rewrite utf8_encode. destruct (args i); simpl; rewrite length_app; simpl; lia. Qed.

Lemma length_stream_bytes ins : (length ins <= length (stream_bytes ins))%nat.
Proof.
  unfold stream_bytes. induction ins as [|i ins IH]; [done|].
  rewrite bind_cons, length_app. pose proof (length_encoded i). simpl. lia.
Qed.

(** [take_complete]'s loop passes whole instructions and stops before an
    incomplete one. *)
Lemma complete_end_stream fuel pre ins p :
  Forall instruction_ok ins -> scan p = Ok None -> (length ins < fuel)%nat ->
  complete_end fuel (pre ++ stream_bytes ins ++ p) (length pre)
  = Ok (length pre + length (stream_bytes ins))%nat.
Proof.
  intros His Hp. revert pre fuel.
  induction His as [|i ins Hi _ IH]; intros pre fuel Hfuel;
    (destruct fuel as [|fuel]; [simpl in *; lia|]); cbn [complete_end]; rewrite drop_app_length.
  - simpl. rewrite Hp. f_equal. lia.
  - unfold stream_bytes. rewrite bind_cons. fold (stream_bytes ins).
    rewrite <- app_assoc. destruct (scan_encoded i (stream_bytes ins ++ p) Hi) as (rs & -> & _).
    rewrite app_assoc, <- length_app, IH by (simpl in *; lia).
    f_equal. rewrite !length_app. lia.
Qed.

Lemma take_complete_stream ins p :
  Forall instruction_ok ins -> scan p = Ok None ->
  take_complete (stream_bytes ins ++ p)
  = Ok (match ins with [] => None | _ => Some (stream_text ins) end, p).
Proof.
  intros His Hp. unfold take_complete.
  rewrite (complete_end_stream _ [] ins p) by
    (try done; rewrite length_app; pose proof (length_stream_bytes ins); lia).
  simpl. destruct ins as [|i ins]; [done|].
  assert (length (stream_bytes (i :: ins)) <> 0)%nat.
  { pose proof (length_stream_bytes (i :: ins)). simpl in *. lia. }
  rewrite bool_decide_false by done.
  rewrite take_app_length, drop_app_length, <- utf8_stream_text, from_utf8_utf8; [done|].
  by apply scalar_stream_text.
Qed.

(** [p] is what the parser keeps before the rest [ins] of a stream: nothing,
    or a strict prefix of the next instruction. *)
Definition pending (p : list Z) (ins : list Instruction) : Prop :=
  match ins with
  | [] => p = []
  | i :: _ => exists x, x <> [] /\ utf8 (encode i) = p ++ x
  end.

Lemma scan_nil : scan [] = Ok None.
Proof. reflexivity. Qed.

Lemma pending_scan p ins : Forall sendable ins -> pending p ins -> scan p = Ok None.
Proof.
  intros His. destruct His as [|i ins [Hi Hl] _]; simpl; [by intros ->|].
  intros (x & Hx & Heq). by eapply scan_strict_prefix.
Qed.

(** What is pending is not the whole of the rest. *)
Lemma pending_not_all p ins : pending p ins -> p = stream_bytes ins -> ins = [].
Proof.
  destruct ins as [|i ins]; [done|]. intros (x & Hx & Heq) Hp.
  unfold stream_bytes in Hp. rewrite bind_cons, Heq in Hp.
  rewrite <- (app_nil_r p) in Hp at 1. rewrite <- app_assoc in Hp.
  apply app_inv_head in Hp. by destruct x.
Qed.

(** Any prefix of a stream is whole instructions and a pending part. *)
Lemma stream_prefix ins b r :
  b ++ r = stream_bytes ins ->
  exists g ins' p, ins = g ++ ins' /\ b = stream_bytes g ++ p /\ pending p ins'.
Proof.
  unfold stream_bytes. revert b. induction ins as [|i ins IH]; intros b Hb.
  { exists [], [], b. apply app_eq_nil in Hb as [-> _]. done. }
  rewrite bind_cons in Hb. apply app_eq_inv in Hb as [(k & -> & Hk)|(k & Hk & Hr)].
  - destruct (IH k) as (g & ins' & p & -> & -> & Hp); [done|].
    exists (i :: g), ins', p. split; [done|]. split; [|done].
    by rewrite bind_cons, app_assoc.
  - destruct k as [|x k].
    + rewrite app_nil_r in Hk. destruct (IH []) as (g & ins' & p & -> & Hg & Hp); [done|].
      exists (i :: g), ins', p. split; [done|]. split; [|done].
      by rewrite bind_cons, <- app_assoc, <- Hg, app_nil_r, Hk.
    + exists [], (i :: ins), b. split; [done|]. split; [done|]. by exists (x :: k).
Qed.

(** [Connection::receive] on the pieces the socket will read: the text of the
    next whole instructions, the buffer after them and the pieces not read
    yet. A read of nothing is the end of the connection. *)
Fixpoint receive (buffer : list Z) (chunks : list (list Z))
  : result (option (list Z) * list Z * list (list Z)) GuacError :=
  let? (text, buffer) := take_complete buffer in
  match text with
  | Some text => Ok (Some text, buffer, chunks)
  | None =>
      match chunks with
      | [] | [] :: _ => Ok (None, buffer, [])
      | chunk :: chunks => receive (push buffer chunk) chunks
      end
  end.

(** Receiving until guacd has closed the connection, at most [fuel] times. *)
Fixpoint receive_all (fuel : nat) (buffer : list Z) (chunks : list (list Z))
  : result (list (list Z)) GuacError :=
  match fuel with
  | O => Ok []
  | S fuel =>
      let? (text, buffer, chunks) := receive buffer chunks in
      match text with
      | None => Ok []
      | Some text => let? texts := receive_all fuel buffer chunks in Ok (text :: texts)
      end
  end.

Lemma receive_stream chunks b ins :
  Forall sendable ins -> Forall (fun c => c <> []) chunks ->
  b ++ mjoin chunks = stream_bytes ins ->
  (ins = [] /\ receive b chunks = Ok (None, [], [])) \/
  exists g ins' p chunks',
    g <> [] /\ ins = g ++ ins' /\ receive b chunks = Ok (Some (stream_text g), p, chunks')
    /\ p ++ mjoin chunks' = stream_bytes ins' /\ Forall (fun c => c <> []) chunks'.
Proof.
  intros His Hne. revert b. induction Hne as [|c cs Hc Hcs IH]; intros b Hb;
    destruct (stream_prefix _ _ _ Hb) as (g & ins' & p & -> & -> & Hp);
    apply Forall_app in His as His2; destruct His2 as [Hg His'];
    assert (Forall instruction_ok g) as Hgok by (eapply Forall_impl; [done|by intros ? [? _]]);
    pose proof (pending_scan _ _ His' Hp) as Hscan; cbn [receive];
    rewrite (take_complete_stream g p Hgok Hscan);
    unfold stream_bytes in Hb; rewrite bind_app in Hb; fold (stream_bytes g) in Hb;
    rewrite <- app_assoc in Hb; apply app_inv_head in Hb.
  - destruct g as [|i g].
    + left. simpl in Hb. rewrite app_nil_r in Hb.
      apply (pending_not_all _ _ Hp) in Hb as ->. by rewrite Hp.
    + right. by exists (i :: g), ins', p, [].
  - destruct g as [|i g].
    + destruct c as [|z c]; [done|]. apply (IH (push p (z :: c))).
      unfold push. rewrite <- app_assoc. done.
    + right. exists (i :: g), ins', p, (c :: cs). repeat split; try done. by constructor.
Qed.

(** ** What the parser hands out is well-formed *)

Lemma scan_value_split b pos n m :
  scan_value b pos (n + m)
  = let? p := scan_value b pos n in
    match p with Some p => scan_value b p m | None => Ok None end.
Proof.
  revert pos. induction n as [|n IH]; intros pos; simpl; [done|].
  destruct (b !! pos); [|done]. destruct (lead_width _); [apply IH|done].
Qed.

Lemma lead_width_pos lead w : lead_width lead = Some w -> (1 <= w)%nat.
Proof. unfold lead_width. repeat (split_match; [intros [= <-]; lia|]). done. Qed.

Lemma scan_value_strict b pos n stop :
  scan_value b pos n = Ok (Some stop) -> (pos + n <= stop)%nat.
Proof.
  revert pos. induction n as [|n IH]; intros pos; simpl; [intros [= <-]; lia|].
  destruct (b !! pos); [|done]. destruct (lead_width _) as [w|] eqn:E; [|done].
  apply lead_width_pos in E. intros ?%IH. lia.
Qed.

(** A value that is valid UTF-8 has as many characters as its length says. *)
Lemma scan_value_length pre t rest n :
  Forall (fun c => scalar c = true) t ->
  scan_value (pre ++ utf8 t ++ rest) (length pre) n
  = Ok (Some (length pre + length (utf8 t))%nat) ->
  length t = n.
Proof.
  intros Ht Hn. pose proof (scan_value_text pre t rest Ht) as Hc.
  destruct (Nat.lt_total n (length t)) as [Hlt|[->|Hlt]]; [|done|].
  - replace (length t) with (n + (length t - n))%nat in Hc by lia.
    rewrite scan_value_split, Hn in Hc. apply scan_value_strict in Hc. lia.
  - replace n with (length t + (n - length t))%nat in Hn by lia.
    rewrite scan_value_split, Hc in Hn. apply scan_value_strict in Hn. lia.
Qed.

Lemma parse_digits_pow max acc s n :
  0 <= acc -> parse_digits max acc s = Some n ->
  n < (acc + 1) * 10 ^ Z.of_nat (length s).
Proof.
  revert acc. induction s as [|c s IH]; intros acc Hacc; cbn [parse_digits length].
  - intros [= <-]. simpl. lia.
  - unfold is_ascii_digit. destruct (_ && _) eqn:E; [|done]. bools. intros Hp%IH; [|lia].
    eapply Z.lt_le_trans; [done|].
    rewrite Nat2Z.inj_succ, Z.pow_succ_r by lia.
    rewrite Z.mul_assoc. apply Z.mul_le_mono_nonneg_r; [|lia].
    apply Z.pow_nonneg. lia.
Qed.

Lemma count_digits_take bs : Forall (fun c => is_ascii_digit c = true) (take (count_digits bs) bs).
Proof.
  induction bs as [|b bs IH]; simpl; [constructor|].
  destruct (is_ascii_digit b) eqn:E; simpl; by constructor.
Qed.

Lemma slice_app b start stop :
  (start <= stop <= length b)%nat ->
  b = take start b ++ slice b (start, stop) ++ drop stop b
  /\ length (slice b (start, stop)) = (stop - start)%nat.
Proof.
  intros H. unfold slice. simpl. split.
  - rewrite <- (take_drop start b) at 1. f_equal.
    rewrite <- (take_drop (stop - start) (drop start b)) at 1. f_equal.
    rewrite drop_drop. f_equal. lia.
  - rewrite length_take, length_drop. lia.
Qed.

Lemma scan_element_ok b pos next start stop sep t :
  scan_element b pos = Ok (Some (next, (start, stop), sep)) ->
  from_utf8 (slice b (start, stop)) = Some t -> element_ok t.
Proof.
  intros Hs Ht. apply utf8_from_utf8 in Ht as [Hu Hsc]. split; [done|].
  revert Hs. unfold scan_element, incomplete.
  set (d := count_digits (drop pos b)).
  destruct (bool_decide (5 < d)%nat) eqn:E5; [done|]. bools.
  destruct (bool_decide _) eqn:El; [by case_match|]. bools.
  destruct (bool_decide (d = 0%nat \/ _)) eqn:Ed; [done|]. bools.
  destruct (parse_unsigned _ _) as [len|] eqn:Ep; [|done].
  destruct (scan_value _ _ _) as [[stop'|]|] eqn:Ev; [|by case_match|done].
  destruct (b !! stop') eqn:Es; [|by case_match]. intros [= <- <- -> <-].
  apply lookup_lt_Some in Es. pose proof (scan_value_mono _ _ _ _ Ev) as Hm.
  set (start := (pos + d + 1)%nat) in *.
  destruct (slice_app b start stop) as [Hb Hl]; [lia|].
  assert (length (take start b) = start) as Hst by (rewrite length_take; lia).
  rewrite <- Hu in Hb, Hl. rewrite Hb in Ev.
  rewrite <- Hst in Ev at 2. rewrite <- Hst in Hl.
  replace stop with (length (take start b) + length (utf8 t))%nat in Ev by lia.
  apply scan_value_length in Ev; [|done].
  rewrite parse_unsigned_digits in Ep.
  2:{ intros Hn. apply (f_equal length) in Hn. rewrite length_take, length_drop in Hn.
      simpl in Hn. lia. }
  2:{ apply count_digits_take. }
  pose proof (parse_digits_bound _ 0 _ _ ltac:(lia) Ep) as Hpos.
  apply parse_digits_pow in Ep; [|lia].
  assert (length (take d (drop pos b)) <= 5)%nat by (rewrite length_take; lia).
  assert (10 ^ Z.of_nat (length (take d (drop pos b))) <= 10 ^ 5)
    by (apply Z.pow_le_mono_r; lia).
  lia.
Qed.

Lemma element_texts_length b rs ts : element_texts b rs = Ok ts -> length ts = length rs.
Proof.
  revert ts. induction rs as [|r rs IH]; intros ts; simpl; [by intros [= <-]|].
  destruct (from_utf8 _); [|done]. destruct (element_texts b rs); [|done].
  intros [= <-]. simpl. f_equal. by apply IH.
Qed.

Lemma element_texts_app_inv b r1 r2 ts :
  element_texts b (r1 ++ r2) = Ok ts ->
  exists t1 t2, element_texts b r1 = Ok t1 /\ element_texts b r2 = Ok t2 /\ ts = t1 ++ t2.
Proof.
  revert ts. induction r1 as [|r r1 IH]; intros ts; simpl.
  - intros ->. by exists [], ts.
  - destruct (from_utf8 _) as [t|]; [|done].
    destruct (element_texts b (r1 ++ r2)) as [ts'|]; [|done]. intros [= <-].
    destruct (IH ts') as (t1 & t2 & -> & -> & ->); [done|]. by exists (t :: t1), t2.
Qed.

Lemma scan_loop_ok fuel b pos els n rs ts :
  scan_loop fuel b pos els = Ok (Some (n, rs)) ->
  (forall ts, element_texts b els = Ok ts -> Forall element_ok ts) ->
  element_texts b rs = Ok ts -> Forall element_ok ts /\ (length rs <= MAX_ELEMENTS)%nat.
Proof.
  revert pos els ts. induction fuel as [|fuel IH]; intros pos els ts; cbn [scan_loop]; [done|].
  destruct (scan_element b pos) as [[[[next [start stop]] sep]|]|e] eqn:E; [|done..].
  case_bool_decide as Hmax; [done|].
  intros Hs Hels Hts.
  assert (forall ts, element_texts b (els ++ [(start, stop)]) = Ok ts ->
                     Forall element_ok ts) as Hels'.
  { intros ts' (t1 & t2 & H1 & H2 & ->)%element_texts_app_inv. cbn [element_texts] in H2.
    destruct (from_utf8 _) as [t|] eqn:Et; [|done]. injection H2 as <-.
    apply Forall_app. split; [by apply Hels|]. constructor; [|constructor].
    by eapply scan_element_ok. }
  destruct (sep =? 59); [|destruct (sep =? 44); [by eapply IH|done]].
  injection Hs as <- <-. split; [by apply Hels'|]. lia.
Qed.

(** Whatever the bytes, an instruction the parser returns is one it can
    encode. *)
Lemma next_instruction_ok b i b' :
  next_instruction b = Ok (Some i, b') -> instruction_ok i.
Proof.
  unfold next_instruction. destruct (scan b) as [[[n rs]|]|] eqn:Es; [|done..].
  destruct (element_texts b rs) as [[|op ar]|] eqn:Et; [done| |done]. intros [= <- <-].
  destruct (scan_loop_ok _ _ _ _ _ _ _ Es (ltac:(by intros ? [= <-])) Et) as [Hall Hlen].
  apply element_texts_length in Et. apply Forall_cons in Hall as [Hop Har].
  split; [done|]. split; [done|]. simpl in *. lia.
Qed.

(** [complete_end] runs until nothing complete is left. *)
Lemma complete_end_spec fuel b stop r :
  (stop <= length b)%nat -> (length b - stop < fuel)%nat ->
  complete_end fuel b stop = Ok r -> (stop <= r <= length b)%nat /\ scan (drop r b) = Ok None.
Proof.
  revert stop. induction fuel as [|fuel IH]; intros stop Hs Hf; [lia|]. simpl.
  destruct (scan (drop stop b)) as [[[n rs]|]|] eqn:E; [| |done].
  - apply scan_bound in E as Hn. rewrite length_drop in Hn.
    intros Hr. apply IH in Hr; [|lia..]. split; [lia|]. apply Hr.
  - intros [= <-]. split; [lia|done].
Qed.

(** More rounds than [S MAX_ELEMENTS] change nothing: the loop of [scan]
    has ended by then. *)
Lemma scan_loop_fuel extra b pos els fuel :
  (length els <= MAX_ELEMENTS)%nat -> (MAX_ELEMENTS < fuel + length els)%nat ->
  scan_loop (fuel + extra) b pos els = scan_loop fuel b pos els.
Proof.
  revert pos els. induction fuel as [|fuel IH]; intros pos els Hels Hf; [lia|]. simpl.
  destruct (scan_element b pos) as [[[[next range] sep]|]|e]; try done.
  case_bool_decide as Hmax; [done|]. rewrite length_app in Hmax. simpl in Hmax.
  destruct (sep =? 59); [done|]. destruct (sep =? 44); [|done].
  apply IH; rewrite length_app; simpl; lia.
Qed.

(** ** What the codec guarantees *)

(** An instruction reads back from its encoding, whatever bytes follow,
    and the bytes that follow are left in the buffer. *)
Theorem instruction_reads_back (i : Instruction) (rest : list Z) :
  instruction_ok i ->
  next_instruction (utf8 (encode i) ++ rest) = Ok (Some i, rest).
Proof.
  intros Hi. unfold next_instruction.
  destruct (scan_encoded i rest Hi) as (rs & -> & ->).
  rewrite drop_app_length. by destruct i.
Qed.

Definition sample_instruction : Instruction :=
  {| opcode := lit "clipboard"; args := [[71; 114; 252; 223; 101]; [128512]] |}.

Lemma sample_instruction_ok : sendable sample_instruction.
Proof.
  split; [|done]. split; [|split].
  - split; [by repeat constructor|done].
  - by repeat (constructor; [split; [by repeat constructor|done]|]).
  - simpl. unfold MAX_ELEMENTS. lia.
Defined.

Lemma instruction_reads_back_witness :
  instruction_ok sample_instruction
  /\ next_instruction (utf8 (encode sample_instruction) ++ lit "3.nop")
     = Ok (Some sample_instruction, lit "3.nop").
Proof.
  split; [exact (proj1 sample_instruction_ok)|].
  apply (instruction_reads_back sample_instruction (lit "3.nop")).
  exact (proj1 sample_instruction_ok).
Defined.

(** However the socket cuts a stream of instructions into pieces, in the
    middle of a character included, [receive] hands out whole instructions
    only, all of them and in order, and ends with the connection. *)
Theorem stream_reassembled (ins : list Instruction) (chunks : list (list Z)) (fuel : nat) :
  Forall sendable ins -> Forall (fun c => c <> []) chunks ->
  mjoin chunks = stream_bytes ins -> (length ins < fuel)%nat ->
  exists groups,
    receive_all fuel [] chunks = Ok (stream_text <$> groups)
    /\ mjoin groups = ins /\ Forall (fun g => g <> []) groups.
Proof.
  intros Hins Hne Hbytes. change (mjoin chunks) with ([] ++ mjoin chunks) in Hbytes.
  revert Hbytes. generalize (@nil Z) as b.
  revert ins chunks Hins Hne.
  induction fuel as [|fuel IH]; intros ins chunks Hins Hne b Hbytes Hf; [lia|]. simpl.
  destruct (receive_stream chunks b ins Hins Hne Hbytes)
    as [[-> ->]|(g & ins' & p & chunks' & Hg & -> & -> & Hb' & Hne')].
  - by exists [].
  - apply Forall_app in Hins as [_ Hins'].
    destruct (IH ins' chunks' Hins' Hne' p Hb') as (groups & -> & <- & Hgs).
    { rewrite length_app in Hf. destruct g; [done|]. simpl in *. lia. }
    exists (g :: groups). split; [done|]. split; [done|by constructor].
Qed.

Lemma stream_reassembled_witness :
  exists groups,
    receive_all 3 [] [take 14 (utf8 (encode sample_instruction));
                      drop 14 (utf8 (encode sample_instruction)) ++ lit "3.";
                      lit "nop;"]
    = Ok (stream_text <$> groups)
    /\ mjoin groups = [sample_instruction; {| opcode := lit "nop"; args := [] |}]
    /\ Forall (fun g => g <> []) groups.
Proof.
  apply (stream_reassembled [sample_instruction; {| opcode := lit "nop"; args := [] |}]).
  - constructor; [exact sample_instruction_ok|]. constructor; [|constructor].
    split; [|done]. split; [split; [by repeat constructor|done]|].
    split; [constructor|]. simpl. unfold MAX_ELEMENTS. lia.
  - by repeat constructor.
  - reflexivity.
  - simpl. lia.
Defined.

(** [take_complete] loses no byte and keeps little: its text and the
    buffer it leaves are the buffer it had, what it leaves holds no complete
    instruction and is at most [MAX_INSTRUCTION_BYTES] long. *)
Theorem take_complete_keeps (b b' : list Z) (text : option (list Z)) :
  take_complete b = Ok (text, b') ->
  utf8 (default [] text) ++ b' = b
  /\ scan b' = Ok None
  /\ Z.of_nat (length b') <= MAX_INSTRUCTION_BYTES.
Proof.
  unfold take_complete.
  destruct (complete_end _ _ _) as [stop|] eqn:E; [|done].
  apply complete_end_spec in E as [Hstop Hscan]; [|lia..].
  case_bool_decide as Hz.
  - intros [= <- <-]. subst stop. simpl in *. rewrite drop_0 in Hscan.
    by repeat split; [|apply scan_None_bound].
  - destruct (from_utf8 _) as [t|] eqn:Et; [|done]. intros [= <- <-].
    apply utf8_from_utf8 in Et as [Hu _]. simpl. rewrite Hu, take_drop.
    by repeat split; [|apply scan_None_bound].
Qed.

Lemma take_complete_keeps_witness :
  take_complete (lit "3.nop;4.sy") = Ok (Some (lit "3.nop;"), lit "4.sy")
  /\ (utf8 (default [] (Some (lit "3.nop;"))) ++ lit "4.sy" = lit "3.nop;4.sy"
      /\ scan (lit "4.sy") = Ok None
      /\ Z.of_nat (length (lit "4.sy")) <= MAX_INSTRUCTION_BYTES).
Proof. split; [reflexivity|]. apply take_complete_keeps. reflexivity. Defined.
