(* ===== verification/Handshake.v ===== *)
(** * Opening a connection through guacd (crates/gateway/src/guacamole.rs)

    [select] names the protocol, guacd answers with the names of the
    parameters it takes ([args]), remotehub sends the display and the values
    in [connect], and guacd confirms with [ready]. The socket is the list of
    the pieces it will read; what is sent is collected in order. The
    theorems: the handshake succeeds on every cut of guacd's answers, sends
    each value guacd asked for in its place and no other, and ends with
    guacd's own reason when it refuses. *)

From S2P Require Import Prelude Text Utf8 Guacamole.

(** ** Reading *)

(** guacd's [error] as an error. *)
Definition refused (error : Instruction) : GuacError :=
  Refused (default [] (args error !! 0%nat))
          (default 0 (args error !! 1%nat ≫= parse_unsigned u16_max)).

(** The inner loop of [expect]: the instructions in the buffer. Each takes
    at least three bytes, so the length of the buffer bounds the rounds. *)
Fixpoint expect_buffered (fuel : nat) (op : str) (buffer : list Z)
  : result (option Instruction * list Z) GuacError :=
  match fuel with
  | O => Ok (None, buffer)
  | S fuel =>
      let? (next, buffer) := next_instruction buffer in
      match next with
      | None => Ok (None, buffer)
      | Some i =>
          if bool_decide (opcode i = op) then Ok (Some i, buffer)
          else if bool_decide (opcode i = lit "error") then Err (refused i)
          else expect_buffered fuel op buffer
      end
  end.

(** [Connection::expect], with [fill] reading the next piece; reading
    nothing is an unexpected end. *)
Fixpoint expect (op : str) (buffer : list Z) (chunks : list (list Z))
  : result (Instruction * list Z * list (list Z)) GuacError :=
  let? (found, buffer) := expect_buffered (S (length buffer)) op buffer in
  match found with
  | Some i => Ok (i, buffer, chunks)
  | None =>
      match chunks with
      | [] | [] :: _ => Err Io
      | chunk :: chunks => expect op (push buffer chunk) chunks
      end
  end.

(** ** Opening *)

Record Handshake := {
  protocol : str;
  parameters : list (list Z * list Z);
  width : Z;
  height : Z;
  dpi : Z;
  timezone : option (list Z);
}.

(** A connection after [ready]: what is buffered, what the socket still
    holds, and guacd's name for it. *)
Record Connection := { buffered : list Z; unread : list (list Z); id : str }.

(** [parameters.iter().find(|(key, _)| key == name)], or nothing. *)
Definition parameter_value (ps : list (list Z * list Z)) (name : str) : list Z :=
  match find (fun kv => bool_decide (kv.1 = name)) ps with
  | Some (_, value) => value
  | None => []
  end.

(** The value for one of the names guacd asked for. *)
Definition connect_value (h : Handshake) (name : str) : list Z :=
  if starts_with (lit "VERSION_") name then PROTOCOL_VERSION
  else parameter_value (parameters h) name.

(** [size], [audio], [video], [image] and [timezone], as one text. *)
Definition setup_text (h : Handshake) : list Z :=
  let setup := encode_into [] (lit "size") [decimal (width h); decimal (height h); decimal (dpi h)] in
  let setup := encode_into setup (lit "audio") [] in
  let setup := encode_into setup (lit "video") [] in
  let setup := encode_into setup (lit "image") [lit "image/png"; lit "image/jpeg"; lit "image/webp"] in
  match timezone h with
  | Some zone => encode_into setup (lit "timezone") [zone]
  | None => setup
  end.

Definition select_text (h : Handshake) : list Z :=
  encode {| opcode := lit "select"; args := [protocol h] |}.

Definition connect_text (h : Handshake) (names : list (list Z)) : list Z :=
  encode_into [] (lit "connect") (connect_value h <$> names).

(** [open_now] from the accepted TCP connection on: what is sent, and the
    connection or the error. *)
Definition open_now (h : Handshake) (chunks : list (list Z))
  : list (list Z) * result Connection GuacError :=
  match expect (lit "args") [] chunks with
  | Err e => ([select_text h], Err e)
  | Ok (names, buffer, chunks) =>
      let sent := [select_text h; setup_text h; connect_text h (args names)] in
      match expect (lit "ready") buffer chunks with
      | Err e => (sent, Err e)
      | Ok (ready, buffer, chunks) =>
          (sent, Ok {| buffered := buffer; unread := chunks;
                       id := default [] (args ready !! 0%nat) |})
      end
  end.

(** ** Waiting for an instruction *)

(** Instructions [expect op] passes over. *)
Definition skipped (op : str) (i : Instruction) : Prop :=
  sendable i /\ opcode i <> op /\ opcode i <> lit "error".

Lemma next_instruction_stream i rest :
  sendable i -> next_instruction (utf8 (encode i) ++ rest) = Ok (Some i, rest).
Proof.
  intros [Hi _]. unfold next_instruction.
  destruct (scan_encoded i rest Hi) as (rs & -> & ->).
  rewrite drop_app_length. by destruct i.
Qed.

Lemma expect_buffered_skip op fuel skip rest :
  Forall (skipped op) skip ->
  expect_buffered (length skip + fuel) op (stream_bytes skip ++ rest)
  = expect_buffered fuel op rest.
Proof.
  intros Hs. unfold stream_bytes. induction Hs as [|i skip (Hi & Hop & He) _ IH]; [done|].
  rewrite bind_cons, <- app_assoc. cbn [length Nat.add expect_buffered].
  rewrite next_instruction_stream by done. by rewrite !bool_decide_false.
Qed.

Lemma expect_buffered_none op fuel p : scan p = Ok None -> expect_buffered fuel op p = Ok (None, p).
Proof. intros Hp. destruct fuel; [done|]. simpl. unfold next_instruction. by rewrite Hp. Qed.

Lemma stream_bytes_app a b : stream_bytes (a ++ b) = stream_bytes a ++ stream_bytes b.
Proof. apply bind_app. Qed.

Lemma stream_bytes_cons i ins : stream_bytes (i :: ins) = utf8 (encode i) ++ stream_bytes ins.
Proof. done. Qed.

(** What [expect] does with the instruction it stops at. *)
Definition expect_stop (op : str) (i : Instruction) (b : list Z) (chunks : list (list Z))
  : result (Instruction * list Z * list (list Z)) GuacError :=
  if bool_decide (opcode i = op) then Ok (i, b, chunks) else Err (refused i).

(** One look into a buffer of whole instructions and a pending part. *)
Lemma expect_buffered_stop op skip i k p :
  Forall (skipped op) skip -> sendable i -> opcode i = op \/ opcode i = lit "error" ->
  let b := stream_bytes (skip ++ i :: k) ++ p in
  expect_buffered (S (length b)) op b
  = if bool_decide (opcode i = op) then Ok (Some i, stream_bytes k ++ p) else Err (refused i).
Proof.
  intros Hskip Hi Hstop b. pose proof (length_stream_bytes (skip ++ i :: k)) as Hl.
  rewrite length_app in Hl. simpl in Hl.
  assert (length skip < length b)%nat by (unfold b; rewrite length_app; lia).
  replace (S (length b)) with (length skip + S (length b - length skip))%nat by lia.
  unfold b at 2. rewrite stream_bytes_app, <- app_assoc, expect_buffered_skip by done.
  rewrite stream_bytes_cons, <- app_assoc. cbn [expect_buffered].
  rewrite next_instruction_stream by done.
  case_bool_decide as Hop; [done|]. by rewrite bool_decide_true by (by destruct Hstop).
Qed.

Lemma expect_buffered_pass op skip p :
  Forall (skipped op) skip -> scan p = Ok None ->
  let b := stream_bytes skip ++ p in
  expect_buffered (S (length b)) op b = Ok (None, p).
Proof.
  intros Hskip Hp b. pose proof (length_stream_bytes skip) as Hl.
  assert (length skip <= length b)%nat by (unfold b; rewrite length_app; lia).
  replace (S (length b)) with (length skip + S (length b - length skip))%nat by lia.
  unfold b at 2. rewrite expect_buffered_skip by done. by apply expect_buffered_none.
Qed.

(** [expect] passes over what it does not wait for, however the stream is
    cut, and stops at the first instruction of its opcode or at an error. *)
Lemma expect_stream op chunks b skip i rest :
  Forall (skipped op) skip -> Forall sendable (i :: rest) ->
  opcode i = op \/ opcode i = lit "error" ->
  Forall (fun c => c <> []) chunks ->
  b ++ mjoin chunks = stream_bytes (skip ++ i :: rest) ->
  exists b' chunks',
    expect op b chunks = expect_stop op i b' chunks'
    /\ b' ++ mjoin chunks' = stream_bytes rest /\ Forall (fun c => c <> []) chunks'.
Proof.
  intros Hskip Hir Hstop Hne. revert b skip Hskip.
  induction Hne as [|c cs Hc Hcs IH]; intros b skip Hskip Hb;
    (assert (Forall sendable (skip ++ i :: rest)) as Hall
      by (apply Forall_app; split; [eapply Forall_impl; [done|by intros ? [? _]]|done]));
    destruct (stream_prefix _ _ _ Hb) as (g & ins' & p & Hg & -> & Hp);
    rewrite Hg in Hall, Hb; apply Forall_app in Hall as [Hgs His'];
    pose proof (pending_scan _ _ His' Hp) as Hscan; rewrite stream_bytes_app in Hb;
    rewrite <- app_assoc in Hb; apply app_inv_head in Hb;
    apply app_cons_eq_inv in Hg as [(k & -> & Hk)|(k & -> & ->)].
  1, 3: apply Forall_app in Hskip as [Hsg Hsk]; cbn [expect];
    rewrite (expect_buffered_pass op g p Hsg Hscan).
  3, 4: apply Forall_cons in Hir as [Hi _]; cbn [expect];
    rewrite (expect_buffered_stop op skip i k p Hskip Hi Hstop);
    unfold expect_stop.
  - exfalso. rewrite app_nil_r in Hb. apply (pending_not_all _ _ Hp) in Hb.
    subst. by destruct k.
  - destruct c as [|z c]; [done|]. apply (IH (push p (z :: c)) k Hsk).
    unfold push. rewrite <- app_assoc. subst ins'. done.
  - exists (stream_bytes k ++ p), []. case_bool_decide;
      by rewrite stream_bytes_app, <- app_assoc, Hb.
  - exists (stream_bytes k ++ p), (c :: cs). case_bool_decide;
      rewrite stream_bytes_app, <- app_assoc, Hb; (repeat split; [done..|by constructor]).
Qed.

(** ** What the handshake guarantees *)

Lemma expect_stop_ok op i b chunks :
  opcode i = op -> expect_stop op i b chunks = Ok (i, b, chunks).
Proof. intros <-. unfold expect_stop. by rewrite bool_decide_true. Qed.

(** When guacd names its parameters and then confirms, with anything but
    an error in between and its answers cut anywhere, the handshake
    succeeds: it sends [select], the display and one [connect] whose values
    are, in guacd's order, the protocol version or the value of the
    parameter guacd named, empty if there is none; the connection's name is
    guacd's and the bytes after [ready] are kept for the tunnel. *)
Theorem handshake_completes (h : Handshake) (chunks : list (list Z))
    (skip1 skip2 rest : list Instruction) (names ready : Instruction) :
  opcode names = lit "args" -> opcode ready = lit "ready" ->
  Forall (skipped (lit "args")) skip1 -> Forall (skipped (lit "ready")) skip2 ->
  Forall sendable (names :: ready :: rest) ->
  Forall (fun c => c <> []) chunks ->
  mjoin chunks = stream_bytes (skip1 ++ names :: skip2 ++ ready :: rest) ->
  exists buffer unread,
    open_now h chunks
    = ([select_text h; setup_text h;
        encode {| opcode := lit "connect"; args := connect_value h <$> args names |}],
       Ok {| buffered := buffer; unread := unread; id := default [] (args ready !! 0%nat) |})
    /\ buffer ++ mjoin unread = stream_bytes rest.
Proof.
  intros Hn Hr H1 H2 Hs Hne Hb.
  apply Forall_cons in Hs as [Hsn Hs].
  destruct (expect_stream (lit "args") chunks [] skip1 names (skip2 ++ ready :: rest))
    as (b1 & c1 & E1 & Hb1 & Hne1); auto.
  { constructor; [done|]. apply Forall_app. split; [|done].
    eapply Forall_impl; [done|by intros ? [? _]]. }
  destruct (expect_stream (lit "ready") c1 b1 skip2 ready rest)
    as (b2 & c2 & E2 & Hb2 & _); auto.
  unfold open_now. rewrite E1, expect_stop_ok by done.
  rewrite E2, expect_stop_ok by done. by exists b2, c2.
Qed.

(** An [error] from guacd where it should name its parameters ends the
    handshake with guacd's own message and status, and nothing but [select]
    was sent: no credentials reach a guacd that refuses. *)
Theorem handshake_refused (h : Handshake) (chunks : list (list Z))
    (skip rest : list Instruction) (error : Instruction) :
  opcode error = lit "error" ->
  Forall (skipped (lit "args")) skip -> Forall sendable (error :: rest) ->
  Forall (fun c => c <> []) chunks ->
  mjoin chunks = stream_bytes (skip ++ error :: rest) ->
  open_now h chunks = ([select_text h], Err (refused error)).
Proof.
  intros He Hskip Hs Hne Hb.
  destruct (expect_stream (lit "args") chunks [] skip error rest)
    as (b1 & c1 & E1 & _ & _); auto.
  unfold open_now. rewrite E1. unfold expect_stop. by rewrite bool_decide_false by (by rewrite He).
Qed.

Definition sample_handshake : Handshake := {|
  protocol := lit "rdp";
  parameters := [(lit "hostname", lit "srv"); (lit "password", lit "a;b,c")];
  width := 1024; height := 768; dpi := 96; timezone := Some (lit "Europe/Berlin");
|}.

Definition sample_names : Instruction :=
  {| opcode := lit "args"; args := [lit "VERSION_1_5_0"; lit "password"; lit "domain"] |}.
Definition sample_ready : Instruction := {| opcode := lit "ready"; args := [lit "$0b8f"] |}.
Definition sample_error : Instruction :=
  {| opcode := lit "error"; args := [lit "Aborted."; lit "776"] |}.

Lemma handshake_completes_witness :
  exists buffer unread,
    open_now sample_handshake [lit "4.args,13.VERSION_1_5_0,8.pass";
                               lit "word,6.domain;5.rea"; lit "dy,5.$0b8f;"]
    = ([select_text sample_handshake; setup_text sample_handshake;
        encode {| opcode := lit "connect";
                  args := [lit "VERSION_1_5_0"; lit "a;b,c"; []] |}],
       Ok {| buffered := buffer; unread := unread; id := lit "$0b8f" |})
    /\ buffer ++ mjoin unread = [].
Proof.
  apply (handshake_completes sample_handshake _ [] [] [] sample_names sample_ready);
    try reflexivity; by repeat constructor.
Defined.

Lemma handshake_refused_witness :
  open_now sample_handshake [lit "5.error,8.Abor"; lit "ted.,3.776;"]
  = ([select_text sample_handshake], Err (Refused (lit "Aborted.") 776)).
Proof.
  apply (handshake_refused sample_handshake _ [] [] sample_error);
    try reflexivity; by repeat constructor.
Defined.
