(* ===== verification/Ip.v ===== *)
(** * Addresses: Rust's [std::net::IpAddr]

    The parts of the standard library's address types the connector's and the
    server's checks rest on: the parser behind [str::parse::<IpAddr>], the
    [Display] of both families, and [to_canonical]. An [Ipv4Addr] is its
    32-bit number, an [Ipv6Addr] its 128-bit number, as [u32::from] and
    [u128::from] give them. The end of the file proves that what [Display]
    writes is read back as the same address. *)
From S2P Require Import Prelude Text.

Inductive IpAddr :=
| IpAddr_V4 (a : Z)
| IpAddr_V6 (a : Z).

#[export] Instance ipaddr_eq_dec : EqDecision IpAddr.
Proof. solve_decision. Defined.

Definition is_ipv4 (ip : IpAddr) : bool :=
  match ip with IpAddr_V4 _ => true | IpAddr_V6 _ => false end.

(** An address of the width its family has. *)
Definition ip_wf (ip : IpAddr) : Prop :=
  match ip with
  | IpAddr_V4 a => 0 <= a < 2 ^ 32
  | IpAddr_V6 a => 0 <= a < 2 ^ 128
  end.

(** [IpAddr::to_canonical]: an IPv4-mapped IPv6 address becomes the IPv4
    address it stands for. *)
Definition to_canonical (ip : IpAddr) : IpAddr :=
  match ip with
  | IpAddr_V4 a => IpAddr_V4 a
  | IpAddr_V6 a => if a / 2 ^ 32 =? 65535 then IpAddr_V4 (a mod 2 ^ 32) else IpAddr_V6 a
  end.

(** ** The parser *)

(** [char::to_digit]. *)
Definition to_digit (radix c : Z) : option Z :=
  let d := if is_ascii_digit c then c - 48
           else if is_ascii_lower c then c - 87
           else if is_ascii_upper c then c - 55 else radix in
  if d <? radix then Some d else None.

(** The digits [s] starts with: their value, their number and the rest; none
    if there are more than [max_digits]. *)
Fixpoint read_digits (radix : Z) (max_digits : nat) (acc : Z) (s : str) {struct s} :
    option (Z * list Z) :=
  match s with
  | [] => Some (acc, [])
  | c :: rest =>
      match to_digit radix c with
      | None => Some (acc, s)
      | Some d =>
          match max_digits with
          | O => None
          | S m => read_digits radix m (acc * radix + d) rest
          end
      end
  end.

Definition read_number (radix : Z) (max_digits : nat) (allow_zero_prefix : bool) (max : Z)
    (s : str) : option (Z * list Z) :=
  match s with
  | [] => None
  | c :: after =>
      if negb (is_some (to_digit radix c)) then None
      else match read_digits radix max_digits 0 s with
           | None => None
           | Some (v, rest) =>
               if max <? v then None
               else if negb allow_zero_prefix && (c =? 48)
                       && is_some_and (fun c' => is_some (to_digit radix c')) (head after)
               then None
               else Some (v, rest)
           end
  end.

Definition read_given_char (c : Z) (s : str) : option (list Z) :=
  match s with
  | c' :: rest => if c' =? c then Some rest else None
  | [] => None
  end.

(** [Parser::read_separator]: from the second element on, the separator comes
    first. *)
Definition read_separator {A : Type} (sep : Z) (index : nat)
    (inner : str -> option (A * list Z)) (s : str) : option (A * list Z) :=
  match index with
  | O => inner s
  | S _ => match read_given_char sep s with Some rest => inner rest | None => None end
  end.

Definition read_octet : str -> option (Z * list Z) := read_number 10 3 false 255.
Definition read_group : str -> option (Z * list Z) := read_number 16 4 true 65535.

Definition read_ipv4_addr (s : str) : option (Z * list Z) :=
  match read_octet s with
  | None => None
  | Some (a, s) =>
      match read_separator 46 1 read_octet s with
      | None => None
      | Some (b, s) =>
          match read_separator 46 2 read_octet s with
          | None => None
          | Some (c, s) =>
              match read_separator 46 3 read_octet s with
              | None => None
              | Some (d, s) => Some (((a * 256 + b) * 256 + c) * 256 + d, s)
              end
          end
      end
  end.

(** Reads up to [left] groups of an IPv6 address, the last two of which may be
    written as an IPv4 address; says whether they were. *)
Fixpoint read_groups (left i : nat) (s : str) : list Z * bool * list Z :=
  match left with
  | O => ([], false, s)
  | S left' =>
      let ipv4 := match left' with
                  | O => None
                  | S _ => read_separator 58 i read_ipv4_addr s
                  end in
      match ipv4 with
      | Some (a, rest) => ([a / 65536; a mod 65536], true, rest)
      | None =>
          match read_separator 58 i read_group s with
          | Some (g, rest) =>
              let '(gs, v4, rest') := read_groups left' (S i) rest in (g :: gs, v4, rest')
          | None => ([], false, s)
          end
      end
  end.

Definition from_segments (gs : list Z) : Z := foldl (fun acc g => acc * 65536 + g) 0 gs.

Definition read_ipv6_addr (s : str) : option (Z * list Z) :=
  let '(head, head_ipv4, s1) := read_groups 8 0 s in
  if bool_decide (length head = 8%nat) then Some (from_segments head, s1)
  else if head_ipv4 then None
  else
    match read_given_char 58 s1 with
    | None => None
    | Some s2 =>
        match read_given_char 58 s2 with
        | None => None
        | Some s3 =>
            let '(tail, _, s4) := read_groups (8 - (length head + 1)) 0 s3 in
            Some (from_segments
                    (head ++ repeat 0 (8 - length head - length tail) ++ tail), s4)
        end
    end.

(** [str::parse::<IpAddr>]. *)
Definition parse_ip (s : str) : option IpAddr :=
  match read_ipv4_addr s with
  | Some (a, rest) => match rest with [] => Some (IpAddr_V4 a) | _ => None end
  | None =>
      match read_ipv6_addr s with
      | Some (a, []) => Some (IpAddr_V6 a)
      | _ => None
      end
  end.

(** ** The text *)

Definition ipv4_text (a : Z) : list Z :=
  join [46] (decimal <$> [a / 2 ^ 24; a / 2 ^ 16 mod 256; a / 2 ^ 8 mod 256; a mod 256]).

Definition segments (a : Z) : list Z :=
  [a / 65536 ^ 7; a / 65536 ^ 6 mod 65536; a / 65536 ^ 5 mod 65536; a / 65536 ^ 4 mod 65536;
   a / 65536 ^ 3 mod 65536; a / 65536 ^ 2 mod 65536; a / 65536 mod 65536; a mod 65536].

Definition hex_digit (d : Z) : Z := if d <? 10 then 48 + d else 87 + d.

(** [{:x}] of a [u16]. *)
Definition hex16 (g : Z) : list Z :=
  hex_digit <$>
    (if g <? 16 then [g]
     else if g <? 256 then [g / 16; g mod 16]
     else if g <? 4096 then [g / 256; g / 16 mod 16; g mod 16]
     else [g / 4096; g / 256 mod 16; g / 16 mod 16; g mod 16]).

(** The longest run of zero groups, the first of several. *)
Fixpoint zeroes_loop (i : nat) (gs : list Z) (longest current : nat * nat) : nat * nat :=
  match gs with
  | [] => longest
  | g :: gs =>
      if g =? 0 then
        let current := ((if bool_decide (current.2 = O) then i else current.1), S current.2) in
        zeroes_loop (S i) gs (if bool_decide (longest.2 < current.2)%nat then current else longest)
          current
      else zeroes_loop (S i) gs longest (O, O)
  end.

Definition zeroes (gs : list Z) : nat * nat := zeroes_loop 0 gs (O, O) (O, O).

Definition fmt_subslice (gs : list Z) : list Z := join [58] (hex16 <$> gs).

Definition ipv6_text (a : Z) : list Z :=
  if a / 2 ^ 32 =? 65535 then lit "::ffff:" ++ ipv4_text (a mod 2 ^ 32)
  else
    let gs := segments a in
    let '(start, len) := zeroes gs in
    if bool_decide (1 < len)%nat
    then fmt_subslice (take start gs) ++ lit "::" ++ fmt_subslice (drop (start + len) gs)
    else fmt_subslice gs.

Definition ip_text (ip : IpAddr) : list Z :=
  match ip with IpAddr_V4 a => ipv4_text a | IpAddr_V6 a => ipv6_text a end.

Example parse_ip_examples :
  (parse_ip (lit "10.1.255.3"), parse_ip (lit "10.01.0.0"), parse_ip (lit "256.0.0.1"),
   parse_ip (lit "::ffff:10.1.0.1"), parse_ip (lit "fd00::"), parse_ip (lit "1::2::3"))
  = (Some (IpAddr_V4 (10 * 2 ^ 24 + 2 ^ 16 + 255 * 256 + 3)), None, None,
     Some (IpAddr_V6 (65535 * 2 ^ 32 + 10 * 2 ^ 24 + 2 ^ 16 + 1)),
     Some (IpAddr_V6 (253 * 2 ^ 120)), None).
Proof. vm_compute. reflexivity. Qed.

Example ip_text_examples :
  (ip_text (IpAddr_V6 (0x20010db8 * 2 ^ 96 + 1)), ip_text (IpAddr_V6 0),
   ip_text (IpAddr_V6 (65535 * 2 ^ 32 + 5)))
  = (lit "2001:db8::1", lit "::", lit "::ffff:0.0.0.5").
Proof. vm_compute. reflexivity. Qed.

(** ** What is written is read back *)

Definition is_digit_of (radix c : Z) : bool := is_some (to_digit radix c).

(** The next character, if any, is no digit. *)
Definition stops (radix : Z) (rest : str) : Prop :=
  is_some_and (is_digit_of radix) (head rest) = false.

Lemma read_digits_stop radix m acc rest :
  stops radix rest -> read_digits radix m acc rest = Some (acc, rest).
Proof.
  unfold stops, is_digit_of. destruct rest as [|c rest]; [done|].
  simpl. by destruct (to_digit radix c).
Qed.

Lemma read_digits_app radix m acc s v rest :
  read_digits radix m acc s = Some (v, []) -> stops radix rest ->
  read_digits radix m acc (s ++ rest) = Some (v, rest).
Proof.
  revert m acc. induction s as [|c s IH]; intros m acc Hs Hrest; simpl in *.
  - simplify_eq. by apply read_digits_stop.
  - destruct (to_digit radix c); [|simplify_eq]. destruct m; [done|]. eauto.
Qed.

Lemma read_number_app radix m z max s v rest :
  read_number radix m z max s = Some (v, []) -> stops radix rest ->
  read_number radix m z max (s ++ rest) = Some (v, rest).
Proof.
  intros Hs Hrest. destruct s as [|c s]; [done|]. unfold read_number in *. simpl app.
  destruct (negb (is_some (to_digit radix c))) eqn:Hc; [done|].
  destruct (read_digits radix m 0 (c :: s)) as [[v' r']|] eqn:Hd; [|done].
  destruct (max <? v') eqn:Hv; [done|].
  case_match eqn:Hz; [done|]. simplify_eq.
  change (c :: s ++ rest) with ((c :: s) ++ rest).
  rewrite (read_digits_app _ _ _ _ _ _ Hd Hrest), Hv.
  destruct s as [|c' s]; simpl in *.
  - unfold stops, is_digit_of in Hrest. by rewrite Hc, Hrest, andb_false_r.
  - by rewrite Hc, Hz.
Qed.

(** A test of every number below [n]. *)
Lemma below_forallb (f : Z -> bool) (n : nat) :
  forallb f (Z.of_nat <$> seq 0 n) = true -> forall x, 0 <= x < Z.of_nat n -> f x = true.
Proof.
  rewrite forallb_forall. intros Hf x Hx. apply Hf, list_elem_of_In, list_elem_of_fmap.
  exists (Z.to_nat x). split; [lia|]. apply elem_of_seq. lia.
Qed.

Lemma read_octet_decimal n rest :
  0 <= n < 256 -> stops 10 rest -> read_octet (decimal n ++ rest) = Some (n, rest).
Proof.
  intros Hn Hrest. apply read_number_app; [|done].
  pose proof (below_forallb
    (fun n => bool_decide (read_octet (decimal n) = Some (n, []))) 256) as H.
  apply (bool_decide_eq_true_1 _), H; [vm_compute; reflexivity|lia].
Qed.

Lemma to_digit_hex d : 0 <= d < 16 -> to_digit 16 (hex_digit d) = Some d.
Proof.
  intros Hd. pose proof (below_forallb
    (fun d => bool_decide (to_digit 16 (hex_digit d) = Some d)) 16) as H.
  apply (bool_decide_eq_true_1 _), H; [vm_compute; reflexivity|lia].
Qed.

Lemma hex16_digits g :
  0 <= g < 65536 ->
  exists ds, hex16 g = hex_digit <$> ds /\ Forall (fun d => 0 <= d < 16) ds
    /\ (0 < length ds <= 4)%nat /\ foldl (fun acc d => acc * 16 + d) 0 ds = g.
Proof.
  intros Hg. unfold hex16. eexists. split; [reflexivity|].
  repeat case_match; bools; split_and!; simpl; try lia;
    repeat constructor; Z.to_euclidean_division_equations; lia.
Qed.

Lemma read_digits_hex ds m acc :
  Forall (fun d => 0 <= d < 16) ds -> (length ds <= m)%nat ->
  read_digits 16 m acc (hex_digit <$> ds) = Some (foldl (fun acc d => acc * 16 + d) acc ds, []).
Proof.
  intros Hds. revert m acc. induction Hds as [|d ds Hd _ IH]; intros m acc Hm; [done|].
  simpl in *. rewrite to_digit_hex by done. destruct m; [lia|]. apply IH. lia.
Qed.

Lemma hex16_facts n :
  0 <= n < 65536 ->
  read_group (hex16 n) = Some (n, []) /\ Forall (fun c => is_digit_of 16 c = true) (hex16 n).
Proof.
  intros Hn. destruct (hex16_digits n Hn) as (ds & -> & Hds & Hlen & Hv). split.
  - destruct ds as [|d ds]; [simpl in Hlen; lia|]. unfold read_group, read_number.
    rewrite read_digits_hex by (done || lia). rewrite fmap_cons.
    rewrite to_digit_hex by (by inversion Hds). cbn [is_some negb andb].
    rewrite Hv. destruct (65535 <? n) eqn:E; [bools; lia|done].
  - apply Forall_fmap. eapply Forall_impl; [exact Hds|]. intros d Hd. simpl.
    unfold is_digit_of. by rewrite to_digit_hex.
Qed.

Lemma read_group_hex n rest :
  0 <= n < 65536 -> stops 16 rest -> read_group (hex16 n ++ rest) = Some (n, rest).
Proof. intros Hn Hrest. by apply read_number_app; [apply hex16_facts|]. Qed.

Lemma stops_cons radix c rest : is_digit_of radix c = false -> stops radix (c :: rest).
Proof. done. Qed.
#[export] Hint Resolve stops_cons : rust.

Lemma octets_of a :
  0 <= a < 2 ^ 32 ->
  ((a / 2 ^ 24 * 256 + a / 2 ^ 16 mod 256) * 256 + a / 2 ^ 8 mod 256) * 256 + a mod 256 = a
  /\ 0 <= a / 2 ^ 24 < 256.
Proof. intros Ha. change (2 ^ 24) with 16777216. change (2 ^ 16) with 65536.
  change (2 ^ 8) with 256. change (2 ^ 32) with 4294967296 in Ha.
  split; [Z.to_euclidean_division_equations; lia|].
  split; [by apply Z.div_pos; lia|apply Z.div_lt_upper_bound; lia].
Qed.

Lemma read_ipv4_text a rest :
  0 <= a < 2 ^ 32 -> stops 10 rest -> read_ipv4_addr (ipv4_text a ++ rest) = Some (a, rest).
Proof.
  intros Ha Hrest. destruct (octets_of a Ha) as [Hval H0].
  unfold read_ipv4_addr, ipv4_text. rewrite !fmap_cons, fmap_nil, !join_cons.
  rewrite <- !app_assoc. simpl app.
  rewrite read_octet_decimal by (done || auto with rust). cbn [read_separator read_given_char].
  do 3 (rewrite Z.eqb_refl, read_octet_decimal by (apply Z.mod_pos_bound || auto with rust; lia);
    cbn [read_separator read_given_char]).
  by rewrite Hval.
Qed.

(** A text without a dot holds no IPv4 address. *)
Lemma read_digits_suffix radix m acc s v rest :
  read_digits radix m acc s = Some (v, rest) -> rest `suffix_of` s.
Proof.
  revert m acc. induction s as [|c s IH]; intros m acc H; simpl in H; [by simplify_eq|].
  destruct (to_digit radix c); [|by simplify_eq]. destruct m; [done|].
  by apply suffix_cons_r, (IH m (acc * radix + z)).
Qed.

Lemma read_number_suffix radix m z max s v rest :
  read_number radix m z max s = Some (v, rest) -> rest `suffix_of` s.
Proof.
  destruct s as [|c s]; [done|]. unfold read_number. intros H.
  repeat (case_match; try done). simplify_eq. by eapply read_digits_suffix.
Qed.

Lemma read_ipv4_no_dot s : 46 ∉ s -> read_ipv4_addr s = None.
Proof.
  intros Hs. unfold read_ipv4_addr. destruct (read_octet s) as [[a rest]|] eqn:Ho; [|done].
  apply read_number_suffix in Ho as [p ->]. simpl.
  destruct rest as [|c rest]; [done|]. simpl. destruct (c =? 46) eqn:Hc; [|done].
  bools. subst. set_solver.
Qed.

Lemma hex_not c n : 0 <= n < 65536 -> is_digit_of 16 c = false -> c ∉ hex16 n.
Proof.
  intros Hn Hc Hin. destruct (hex16_facts n Hn) as [_ Hall].
  rewrite Forall_forall in Hall. specialize (Hall c Hin). congruence.
Qed.

Definition group_ok (g : Z) : Prop := 0 <= g < 65536.

Lemma fmt_subslice_not c gs :
  is_digit_of 16 c = false -> c <> 58 -> Forall group_ok gs -> c ∉ fmt_subslice gs.
Proof.
  intros Hc H58. unfold fmt_subslice. induction 1 as [|g gs Hg Hgs IH]; [set_solver|].
  rewrite fmap_cons, join_cons. pose proof (hex_not c g Hg Hc).
  destruct gs; set_solver.
Qed.

Lemma fmt_subslice_no_dot gs : Forall group_ok gs -> 46 ∉ fmt_subslice gs.
Proof. by apply fmt_subslice_not. Qed.

Lemma read_separator_no_dot i s : 46 ∉ s -> read_separator 58 i read_ipv4_addr s = None.
Proof.
  intros Hs. destruct i; simpl; [by apply read_ipv4_no_dot|].
  destruct s as [|c s]; [done|]. cbn [read_separator read_given_char].
  destruct (c =? 58); [|done]. apply read_ipv4_no_dot. set_solver.
Qed.

(** What may follow the groups of one side: nothing, or the [::]. *)
Definition side_end (rest : str) : Prop := rest = [] \/ exists t, rest = 58 :: 58 :: t.

Lemma side_end_stops rest : side_end rest -> stops 16 rest.
Proof. by intros [->|(t & ->)]. Qed.

Lemma read_groups_end left i rest :
  46 ∉ rest -> side_end rest -> read_groups left i rest = ([], false, rest).
Proof.
  intros Hdot Hend. destruct left as [|left]; simpl; [done|].
  assert ((match left with O => None | S _ => read_separator 58 i read_ipv4_addr rest end) = None)
    as -> by (destruct left; [done|by apply read_separator_no_dot]).
  destruct Hend as [->|(t & ->)]; destruct i; done.
Qed.

(** The text of the groups behind the [i]th: a separator before each but the first. *)
Definition groups_text (i : nat) (gs : list Z) : list Z :=
  match i, gs with
  | S _, _ :: _ => 58 :: fmt_subslice gs
  | _, _ => fmt_subslice gs
  end.

Lemma groups_text_cons i g gs :
  groups_text i (g :: gs)
  = (match i with O => [] | S _ => [58] end) ++ hex16 g ++ groups_text (S i) gs.
Proof.
  unfold groups_text, fmt_subslice. rewrite fmap_cons, join_cons.
  destruct i, gs; simpl; by rewrite ?app_nil_r.
Qed.

Lemma read_groups_text gs : forall left i rest,
  Forall group_ok gs -> (length gs <= left)%nat -> 46 ∉ rest -> side_end rest ->
  read_groups left i (groups_text i gs ++ rest) = (gs, false, rest).
Proof.
  induction gs as [|g gs IH]; intros left i rest Hgs Hlen Hdot Hend.
  - assert (groups_text i [] = []) as -> by by destruct i. by apply read_groups_end.
  - apply Forall_cons in Hgs as [Hg Hgs]. simpl in Hlen. destruct left as [|left]; [lia|].
    assert (Hno : 46 ∉ groups_text i (g :: gs) ++ rest).
    { assert (46 ∉ fmt_subslice (g :: gs)) by by apply fmt_subslice_no_dot; constructor.
      unfold groups_text. destruct i; set_solver. }
    cbn [read_groups].
    assert ((match left with O => None
             | S _ => read_separator 58 i read_ipv4_addr (groups_text i (g :: gs) ++ rest) end)
            = None) as -> by (destruct left; [done|by apply read_separator_no_dot]).
    rewrite groups_text_cons, <- !app_assoc.
    assert (Hst : stops 16 (groups_text (S i) gs ++ rest))
      by (destruct gs; [by apply side_end_stops|done]).
    assert (read_separator 58 i read_group
              ((match i with O => [] | S _ => [58] end)
               ++ hex16 g ++ groups_text (S i) gs ++ rest)
            = Some (g, groups_text (S i) gs ++ rest)) as ->
      by (destruct i; simpl; by apply read_group_hex).
    by rewrite IH by (done || lia).
Qed.

(** *** The run of zeroes that is left out *)

(** [(start, len)] is a run of zeroes of [gs] behind the first [i] groups. *)
Definition zero_run (gs : list Z) (span : nat * nat) : Prop :=
  span.2 = O \/
  ((span.1 + span.2 <= length gs)%nat
   /\ take span.2 (drop span.1 gs) = repeat 0 span.2).

Lemma take_snoc_drop (done0 rest : list Z) g st len :
  (st + len = length done0)%nat -> take len (drop st (done0 ++ g :: rest)) = repeat 0 len ->
  g = 0 -> take (S len) (drop st (done0 ++ g :: rest)) = repeat 0 (S len).
Proof.
  intros Hl Ht ->. rewrite drop_app_le in * by lia.
  rewrite take_app_le in Ht by (rewrite length_drop; lia).
  rewrite take_ge in Ht by (rewrite length_drop; lia).
  rewrite Ht, take_app_ge by (rewrite repeat_length; lia).
  rewrite repeat_length. replace (S len - len)%nat with 1%nat by lia.
  simpl take. rewrite <- (Nat.add_1_r len). symmetry. apply repeat_app.
Qed.

Lemma zeroes_loop_run gs : forall done0 longest current,
  zero_run (done0 ++ gs) longest ->
  (current.2 = O \/ ((current.1 + current.2 = length done0)%nat
     /\ take current.2 (drop current.1 (done0 ++ gs)) = repeat 0 current.2)) ->
  zero_run (done0 ++ gs) (zeroes_loop (length done0) gs longest current).
Proof.
  induction gs as [|g gs IH]; intros done0 longest current Hl Hc; [done|].
  cbn [zeroes_loop]. specialize (IH (done0 ++ [g])).
  rewrite length_app, Nat.add_1_r, <- app_assoc in IH. simpl app in IH.
  destruct (g =? 0) eqn:Hg; [|apply IH; [done|by left]]. bools.
  set (cur := (_, S current.2)).
  assert (Hcur : (cur.1 + cur.2 = S (length done0))%nat
     /\ take cur.2 (drop cur.1 (done0 ++ g :: gs)) = repeat 0 cur.2).
  { subst cur. simpl. case_bool_decide as E.
    - rewrite E. split; [lia|]. rewrite drop_app_length. simpl. by subst g.
    - destruct Hc as [|[Hc1 Hc2]]; [done|]. split; [lia|]. by apply take_snoc_drop. }
  clearbody cur. apply IH; [|by right]. case_bool_decide; [|done]. right.
  rewrite length_app. simpl. destruct Hcur. split; [lia|done].
Qed.

Lemma zeroes_run gs : zero_run gs (zeroes gs).
Proof. apply (zeroes_loop_run gs [] (O, O) (O, O)); by left. Qed.

Lemma zeroes_split gs start len :
  zeroes gs = (start, len) -> (1 < len)%nat ->
  gs = take start gs ++ repeat 0 len ++ drop (start + len) gs
  /\ (length (take start gs) = start)%nat
  /\ (length (drop (start + len) gs) = length gs - (start + len))%nat
  /\ (start + len <= length gs)%nat.
Proof.
  intros Hz Hlen. pose proof (zeroes_run gs) as [H|[H1 H2]]; rewrite Hz in *; simpl in *; [lia|].
  split_and!; [|rewrite length_take; lia|by rewrite length_drop|done].
  rewrite <- (take_drop start gs) at 1. f_equal.
  rewrite <- (take_drop len (drop start gs)) at 1. rewrite H2. f_equal.
  by rewrite drop_drop.
Qed.

Lemma segments_facts a :
  0 <= a < 2 ^ 128 -> from_segments (segments a) = a /\ Forall group_ok (segments a).
Proof.
  intros Ha. unfold from_segments, segments, group_ok. split.
  - simpl foldl.
    assert (Hd : forall k, 0 <= k ->
      a / 65536 ^ k = a / 65536 ^ Z.succ k * 65536 + a / 65536 ^ k mod 65536).
    { intros k Hk. rewrite Z.pow_succ_r, (Z.mul_comm 65536), <- Z.div_div by lia.
      pose proof (Z.div_mod (a / 65536 ^ k) 65536). lia. }
    pose proof (Hd 0 ltac:(done)) as H0. pose proof (Hd 1 ltac:(done)) as H1.
    pose proof (Hd 2 ltac:(done)) as H2. pose proof (Hd 3 ltac:(done)) as H3.
    pose proof (Hd 4 ltac:(done)) as H4. pose proof (Hd 5 ltac:(done)) as H5.
    pose proof (Hd 6 ltac:(done)) as H6. clear Hd. 
    change (Z.succ 0) with 1 in *. change (Z.succ 1) with 2 in *. change (Z.succ 2) with 3 in *.
    change (Z.succ 3) with 4 in *. change (Z.succ 4) with 5 in *. change (Z.succ 5) with 6 in *.
    change (Z.succ 6) with 7 in *.
    rewrite Z.pow_0_r, Z.div_1_r, Z.pow_1_r in H0. rewrite Z.pow_1_r in H1.
    generalize dependent (a mod 65536). generalize dependent (a / 65536).
    generalize dependent (a / 65536 ^ 2). generalize dependent (a / 65536 ^ 3).
    generalize dependent (a / 65536 ^ 4). generalize dependent (a / 65536 ^ 5).
    generalize dependent (a / 65536 ^ 6). generalize dependent (a / 65536 ^ 7).
    intros. lia.
  - repeat constructor; try (apply Z.mod_pos_bound; lia); [by apply Z.div_pos; lia|].
    apply Z.div_lt_upper_bound; [lia|]. change (65536 ^ 7 * 65536) with (2 ^ 128). lia.
Qed.

Lemma read_ipv6_text a :
  0 <= a < 2 ^ 128 -> a / 2 ^ 32 <> 65535 ->
  read_ipv6_addr (ipv6_text a) = Some (a, []) /\ read_ipv4_addr (ipv6_text a) = None.
Proof.
  intros Ha Hm. destruct (segments_facts a Ha) as [Hval Hgs].
  unfold ipv6_text. rewrite (proj2 (Z.eqb_neq _ _) Hm). set (gs := segments a) in *.
  assert (Hlen8 : length gs = 8%nat) by done.
  destruct (zeroes gs) as [start len] eqn:Hz. case_bool_decide as Hlen.
  - destruct (zeroes_split _ _ _ Hz Hlen) as (Hsplit & Hl1 & Hl2 & Hle).
    assert (Ht : Forall group_ok (take start gs)) by by apply Forall_take.
    assert (Hd : Forall group_ok (drop (start + len) gs)) by by apply Forall_drop.
    pose proof (fmt_subslice_no_dot _ Ht) as N1. pose proof (fmt_subslice_no_dot _ Hd) as N2.
    split; [|apply read_ipv4_no_dot; simpl; set_solver].
    unfold read_ipv6_addr.
    pose proof (read_groups_text (take start gs) 8 0
      (lit "::" ++ fmt_subslice (drop (start + len) gs))) as R. simpl groups_text in R.
    rewrite R; [|done|lia|simpl; set_solver|right; by eexists].
    rewrite bool_decide_false by lia. cbn [lit]. simpl read_given_char.
    pose proof (read_groups_text (drop (start + len) gs) (8 - (start + 1)) 0 []) as R2.
    simpl groups_text in R2. rewrite app_nil_r in R2. simpl.
    rewrite Hl1, R2; [|done|lia|set_solver|by left].
    replace (8 - start - length (drop (start + len) gs))%nat with len by lia.
    by rewrite <- Hsplit, Hval.
  - split; [|by apply read_ipv4_no_dot, fmt_subslice_no_dot].
    unfold read_ipv6_addr. pose proof (read_groups_text gs 8 0 []) as R.
    simpl groups_text in R. rewrite app_nil_r in R.
    rewrite R; [|done|lia|set_solver|by left]. by rewrite Hlen8, Hval.
Qed.

(** A canonical address is read back as it was written. *)
Lemma parse_ip_text ip :
  ip_wf ip -> to_canonical ip = ip -> parse_ip (ip_text ip) = Some ip.
Proof.
  unfold parse_ip. destruct ip as [a|a]; simpl; intros Hwf Hc.
  - pose proof (read_ipv4_text a [] Hwf eq_refl) as H. rewrite app_nil_r in H. by rewrite H.
  - destruct (a / 2 ^ 32 =? 65535) eqn:E; [done|]. bools.
    destruct (read_ipv6_text a Hwf E) as [H6 H4]. by rewrite H4, H6.
Qed.

(** ** What is read is an address of its width *)

Lemma to_digit_pos radix c d : to_digit radix c = Some d -> 0 <= d.
Proof.
  unfold to_digit, is_ascii_digit, is_ascii_lower, is_ascii_upper.
  repeat case_match; intros; simplify_eq; bools; lia.
Qed.

Lemma read_digits_pos radix m acc s v rest :
  0 <= radix -> 0 <= acc -> read_digits radix m acc s = Some (v, rest) -> 0 <= v.
Proof.
  intros Hr. revert m acc. induction s as [|c s IH]; intros m acc Ha H; simpl in H; [by simplify_eq|].
  destruct (to_digit radix c) as [d|] eqn:Hd; [|by simplify_eq]. destruct m; [done|].
  apply to_digit_pos in Hd. apply IH in H; nia.
Qed.

Lemma read_number_bound radix m z max s v rest :
  0 <= radix -> read_number radix m z max s = Some (v, rest) -> 0 <= v <= max.
Proof.
  intros Hr. destruct s as [|c s]; [done|]. unfold read_number. intros H.
  destruct (negb _); [done|]. destruct (read_digits radix m 0 (c :: s)) as [[v' r']|] eqn:Hd; [|done].
  destruct (max <? v') eqn:Hm; [done|]. case_match; [done|]. simplify_eq. bools.
  apply read_digits_pos in Hd; lia.
Qed.

Lemma read_separator_inner {A} sep i (inner : str -> option (A * list Z)) s v rest :
  read_separator sep i inner s = Some (v, rest) -> exists s', inner s' = Some (v, rest).
Proof. destruct i; simpl; [eauto|]. case_match; [eauto|done]. Qed.

Lemma read_ipv4_bound s a rest : read_ipv4_addr s = Some (a, rest) -> 0 <= a < 2 ^ 32.
Proof.
  unfold read_ipv4_addr. intros H.
  destruct (read_octet s) as [[b1 s1]|] eqn:H1; [|done].
  destruct (read_separator 46 1 read_octet s1) as [[b2 s2]|] eqn:H2; [|done].
  destruct (read_separator 46 2 read_octet s2) as [[b3 s3]|] eqn:H3; [|done].
  destruct (read_separator 46 3 read_octet s3) as [[b4 s4]|] eqn:H4; [|done]. simplify_eq.
  apply read_separator_inner in H2 as [? H2], H3 as [? H3], H4 as [? H4].
  apply read_number_bound in H1, H2, H3, H4; lia.
Qed.

Lemma read_groups_bound left i s gs v rest :
  read_groups left i s = (gs, v, rest) -> Forall group_ok gs /\ (length gs <= left)%nat.
Proof.
  revert i s gs v rest. induction left as [|left IH]; intros i s gs v rest H; cbn [read_groups] in H.
  { simplify_eq. by split; [constructor|]. }
  destruct (match left with O => None | S _ => read_separator 58 i read_ipv4_addr s end)
    as [[a r]|] eqn:H4.
  - simplify_eq. destruct left; [done|].
    apply read_separator_inner in H4 as [s' H4]. apply read_ipv4_bound in H4.
    split; [|simpl; lia]. unfold group_ok. repeat constructor;
      Z.to_euclidean_division_equations; lia.
  - destruct (read_separator 58 i read_group s) as [[g r]|] eqn:Hg;
      [|simplify_eq; split; [constructor|simpl; lia]].
    destruct (read_groups left (S i) r) as [[gs' v'] r'] eqn:Hr. simplify_eq.
    apply IH in Hr as [Hr Hl]. apply read_separator_inner in Hg as [s' Hg].
    apply read_number_bound in Hg; [|lia]. split; [|simpl; lia].
    constructor; [unfold group_ok; lia|done].
Qed.

Lemma from_segments_bound gs :
  Forall group_ok gs -> 0 <= from_segments gs < 65536 ^ Z.of_nat (length gs).
Proof.
  unfold from_segments. induction gs as [|g gs IH] using rev_ind; intros Hg; [simpl; lia|].
  apply Forall_app in Hg as [Hgs Hg]. apply (Forall_singleton group_ok g) in Hg. specialize (IH Hgs).
  rewrite foldl_app, length_app, Nat.add_1_r, Nat2Z.inj_succ, Z.pow_succ_r by lia.
  cbn [foldl]. unfold group_ok in Hg. revert IH. generalize (foldl (fun acc g => acc * 65536 + g) 0 gs).
  generalize (65536 ^ Z.of_nat (length gs)). lia.
Qed.

Lemma read_ipv6_bound s a rest : read_ipv6_addr s = Some (a, rest) -> 0 <= a < 2 ^ 128.
Proof.
  unfold read_ipv6_addr. intros H. destruct (read_groups 8 0 s) as [[gs v] r] eqn:Hh.
  apply read_groups_bound in Hh as [Hgs Hl]. case_bool_decide as E.
  { simplify_eq. apply from_segments_bound in Hgs. by rewrite E in Hgs. }
  destruct v; [done|]. destruct (read_given_char 58 r) as [s2|]; [|done].
  destruct (read_given_char 58 s2) as [s3|]; [|done].
  destruct (read_groups (8 - (length gs + 1)) 0 s3) as [[ts v'] r'] eqn:Ht.
  apply read_groups_bound in Ht as [Hts Hlt].
  set (all := gs ++ repeat 0 (8 - length gs - length ts) ++ ts) in *. simplify_eq.
  assert (Hlen : length all = 8%nat) by (subst all; rewrite !length_app, repeat_length; lia).
  assert (Hall : Forall group_ok all).
  { subst all. apply Forall_app; split; [done|]. apply Forall_app; split; [|done].
    apply Forall_forall. intros x Hx%list_elem_of_In%repeat_spec. unfold group_ok. lia. }
  apply from_segments_bound in Hall. by rewrite Hlen in Hall.
Qed.

Lemma parse_ip_wf s ip : parse_ip s = Some ip -> ip_wf ip.
Proof.
  unfold parse_ip. intros H. destruct (read_ipv4_addr s) as [[a [|c r]]|] eqn:H4.
  - simplify_eq. simpl. by eapply read_ipv4_bound.
  - done.
  - destruct (read_ipv6_addr s) as [[a [|c r]]|] eqn:H6; try done. simplify_eq.
    simpl. by eapply read_ipv6_bound.
Qed.

Lemma to_canonical_wf ip : ip_wf ip -> ip_wf (to_canonical ip).
Proof. destruct ip; simpl; [done|]. case_match; simpl; [|done]. intros. apply Z.mod_pos_bound. lia. Qed.

Lemma to_canonical_idem ip : to_canonical (to_canonical ip) = to_canonical ip.
Proof. destruct ip; simpl; [done|]. case_match eqn:E; [done|]. simpl. by rewrite E. Qed.

(** ** The characters of an address *)

Definition ip_char (c : Z) : bool := is_digit_of 16 c || (c =? 46) || (c =? 58).

(** [rest] is what is left of [s] behind characters of an address. *)
Definition consumes (s rest : list Z) : Prop :=
  exists p, s = p ++ rest /\ Forall (fun c => ip_char c = true) p.

#[export] Instance consumes_preorder : PreOrder consumes.
Proof.
  split.
  - intros s. by exists [].
  - intros s1 s2 s3 (p & -> & Hp) (q & -> & Hq). exists (p ++ q).
    rewrite <- app_assoc. split; [done|]. by apply Forall_app.
Qed.

Lemma consumes_cons c s : ip_char c = true -> consumes (c :: s) s.
Proof. intros Hc. exists [c]. split; [done|]. by constructor. Qed.

Lemma to_digit_mono radix c d : radix <= 16 -> to_digit radix c = Some d -> is_digit_of 16 c = true.
Proof.
  intros Hr. unfold is_digit_of, to_digit. set (x := if is_ascii_digit c then _ else _).
  destruct (x <? radix) eqn:E; [|done]. intros _. bools.
  set (y := if is_ascii_digit c then _ else _). destruct (y <? 16) eqn:E2; [done|]. bools.
  subst x y. repeat case_match; lia.
Qed.

Lemma read_digits_consumes radix m acc s v rest :
  radix <= 16 -> read_digits radix m acc s = Some (v, rest) -> consumes s rest.
Proof.
  intros Hr. revert m acc. induction s as [|c s IH]; intros m acc H; simpl in H.
  { by simplify_eq. }
  destruct (to_digit radix c) as [d|] eqn:Hd; [|by simplify_eq]. destruct m; [done|].
  etransitivity; [|by eapply IH]. apply consumes_cons. unfold ip_char.
  by rewrite (to_digit_mono _ _ _ Hr Hd).
Qed.

Lemma read_number_consumes radix m z max s v rest :
  radix <= 16 -> read_number radix m z max s = Some (v, rest) -> consumes s rest.
Proof.
  intros Hr. destruct s as [|c s]; [done|]. unfold read_number. intros H.
  repeat (case_match; try done). simplify_eq. by eapply read_digits_consumes.
Qed.

Lemma read_given_char_consumes c s rest :
  ip_char c = true -> read_given_char c s = Some rest -> consumes s rest.
Proof.
  intros Hc. destruct s as [|d s]; [done|]. cbn [read_given_char]. destruct (d =? c) eqn:E; [|done].
  intros [= <-]. bools. subst. by apply consumes_cons.
Qed.

Lemma read_separator_consumes {A} sep i (inner : str -> option (A * list Z)) s v rest :
  ip_char sep = true -> (forall s' v rest, inner s' = Some (v, rest) -> consumes s' rest) ->
  read_separator sep i inner s = Some (v, rest) -> consumes s rest.
Proof.
  intros Hsep Hin. destruct i; cbn [read_separator]; [by apply Hin|].
  destruct (read_given_char sep s) as [r|] eqn:Hr; [|done]. intros H%Hin.
  etransitivity; [|exact H]. by eapply read_given_char_consumes.
Qed.

Lemma read_octet_consumes s v rest : read_octet s = Some (v, rest) -> consumes s rest.
Proof. by apply read_number_consumes. Qed.

Lemma read_group_consumes s v rest : read_group s = Some (v, rest) -> consumes s rest.
Proof. by apply read_number_consumes. Qed.

Lemma read_ipv4_consumes s a rest : read_ipv4_addr s = Some (a, rest) -> consumes s rest.
Proof.
  unfold read_ipv4_addr. intros H.
  destruct (read_octet s) as [[b1 s1]|] eqn:H1; [|done].
  destruct (read_separator 46 1 read_octet s1) as [[b2 s2]|] eqn:H2; [|done].
  destruct (read_separator 46 2 read_octet s2) as [[b3 s3]|] eqn:H3; [|done].
  destruct (read_separator 46 3 read_octet s3) as [[b4 s4]|] eqn:H4; [|done]. simplify_eq.
  apply read_octet_consumes in H1.
  apply read_separator_consumes in H2, H3, H4; try done; try exact read_octet_consumes.
  by rewrite H1, H2, H3.
Qed.

Lemma read_groups_consumes left i s gs v rest :
  read_groups left i s = (gs, v, rest) -> consumes s rest.
Proof.
  revert i s gs v rest. induction left as [|left IH]; intros i s gs v rest H; cbn [read_groups] in H.
  { by simplify_eq. }
  destruct (match left with O => None | S _ => read_separator 58 i read_ipv4_addr s end)
    as [[a r]|] eqn:H4.
  - simplify_eq. destruct left; [done|].
    by apply read_separator_consumes in H4; [|done|exact read_ipv4_consumes].
  - destruct (read_separator 58 i read_group s) as [[g r]|] eqn:Hg; [|by simplify_eq].
    destruct (read_groups left (S i) r) as [[gs' v'] r'] eqn:Hr. simplify_eq.
    apply IH in Hr. apply read_separator_consumes in Hg; [|done|exact read_group_consumes].
    by rewrite Hg.
Qed.

Lemma read_ipv6_consumes s a rest : read_ipv6_addr s = Some (a, rest) -> consumes s rest.
Proof.
  unfold read_ipv6_addr. intros H. destruct (read_groups 8 0 s) as [[gs v] r] eqn:Hh.
  apply read_groups_consumes in Hh. case_bool_decide; [by simplify_eq|].
  destruct v; [done|]. destruct (read_given_char 58 r) as [s2|] eqn:H2; [|done].
  destruct (read_given_char 58 s2) as [s3|] eqn:H3; [|done].
  destruct (read_groups (8 - (length gs + 1)) 0 s3) as [[ts v'] r'] eqn:Ht.
  simplify_eq. apply read_groups_consumes in Ht.
  apply read_given_char_consumes in H2, H3; [|done..]. by rewrite Hh, H2, H3.
Qed.

Lemma parse_ip_chars s ip : parse_ip s = Some ip -> Forall (fun c => ip_char c = true) s.
Proof.
  assert (Hall : consumes s [] -> Forall (fun c => ip_char c = true) s)
    by (intros (p & -> & Hp); by rewrite app_nil_r).
  unfold parse_ip. intros H. destruct (read_ipv4_addr s) as [[a [|c r]]|] eqn:H4.
  - apply Hall. by eapply read_ipv4_consumes.
  - done.
  - destruct (read_ipv6_addr s) as [[a [|c r]]|] eqn:H6; try done.
    apply Hall. by eapply read_ipv6_consumes.
Qed.
