(* ===== verification/Network.v ===== *)
(** * Address ranges (crates/connector/src/network.rs)

    [Network] with its parser, its text and [contains], the test every
    allow-list and every device of the customer's list is decided by. *)
From S2P Require Import Prelude Text Ip.

Record Network := { address : IpAddr; prefix : Z }.

#[export] Instance network_eq_dec : EqDecision Network.
Proof. solve_decision. Defined.

(** [checked_shl] of a [bits]-wide integer: none for a shift of the width or
    more; what is shifted out is lost. *)
Definition checked_shl (bits v s : Z) : option Z :=
  if s <? bits then Some (Z.land (Z.shiftl v s) (Z.ones bits)) else None.

(** The mask of a [prefix]-bit network: [MAX.checked_shl(bits - prefix).unwrap_or(0)]. *)
Definition mask (bits prefix : Z) : Z := default 0 (checked_shl bits (Z.ones bits) (bits - prefix)).

Definition contains (net : Network) (ip : IpAddr) : bool :=
  match address net, to_canonical ip with
  | IpAddr_V4 n, IpAddr_V4 ip =>
      Z.land n (mask 32 (prefix net)) =? Z.land ip (mask 32 (prefix net))
  | IpAddr_V6 n, IpAddr_V6 ip =>
      Z.land n (mask 128 (prefix net)) =? Z.land ip (mask 128 (prefix net))
  | _, _ => false
  end.

Definition bits_of (ip : IpAddr) : Z := if is_ipv4 ip then 32 else 128.

Definition network_from_str (text : str) : result Network unit :=
  let '(address, prefix) :=
    match split_once 47 text with
    | Some (address, prefix) => (address, Some prefix)
    | None => (text, None)
    end in
  let? address := ok_or (parse_ip address) tt in
  let address := to_canonical address in
  let bits := bits_of address in
  let? prefix := match prefix with
                 | None => Ok bits
                 | Some prefix => ok_or (parse_unsigned u8_max prefix) tt
                 end in
  if bits <? prefix then Err tt else Ok {| address := address; prefix := prefix |}.

Definition network_text (net : Network) : list Z :=
  ip_text (address net) ++ [47] ++ decimal (prefix net).

(** What [network_from_str] gives out: a canonical address and a prefix it has. *)
Definition network_wf (net : Network) : Prop :=
  ip_wf (address net) /\ to_canonical (address net) = address net
  /\ 0 <= prefix net <= bits_of (address net).

Lemma network_from_str_wf text net : network_from_str text = Ok net -> network_wf net.
Proof.
  unfold network_from_str. intros H.
  destruct (split_once 47 text) as [[a p]|].
  - destruct (parse_ip a) as [ip|] eqn:Hip; [|done]. simpl in H.
    destruct (parse_unsigned u8_max p) as [n|] eqn:Hn; [|done]. simpl in H.
    destruct (bits_of (to_canonical ip) <? n) eqn:Hb; [done|]. simplify_eq. bools.
    apply parse_ip_wf in Hip. apply parse_unsigned_bound in Hn; [|unfold u8_max; lia].
    split_and!; simpl; [by apply to_canonical_wf|by apply to_canonical_idem|lia|lia].
  - destruct (parse_ip text) as [ip|] eqn:Hip; [|done]. simpl in H.
    rewrite Z.ltb_irrefl in H. simplify_eq. apply parse_ip_wf in Hip.
    split_and!; simpl; [by apply to_canonical_wf|by apply to_canonical_idem| |lia].
    unfold bits_of. case_match; lia.
Qed.

(** Masking keeps the leading bits. *)
Lemma land_mask bits p x :
  0 <= p <= bits -> 0 <= x < 2 ^ bits ->
  Z.land x (mask bits p) = Z.shiftl (Z.shiftr x (bits - p)) (bits - p).
Proof.
  intros Hp Hx. unfold mask, checked_shl. destruct (bits - p <? bits) eqn:E; bools; simpl.
  - apply Z.bits_inj'. intros i Hi.
    rewrite !Z.land_spec, !Z.shiftl_spec, Z.testbit_ones by lia.
    rewrite Z.testbit_ones by lia.
    destruct (decide (i < bits)) as [Hib|Hib].
    + destruct (decide (bits - p <= i)).
      * rewrite Z.shiftr_spec by lia. replace (i - (bits - p) + (bits - p)) with i by lia.
        destruct (0 <=? i - (bits - p)) eqn:?, (i - (bits - p) <? bits) eqn:?,
          (0 <=? i) eqn:?, (i <? bits) eqn:?; bools; try lia. by rewrite andb_true_r.
      * rewrite (Z.testbit_neg_r _ (i - _)) by lia.
        destruct (0 <=? i - (bits - p)) eqn:?; bools; [lia|]. by rewrite andb_false_r.
    + assert (Z.testbit x i = false) as ->.
      { destruct (decide (x = 0)) as [->|]; [apply Z.bits_0|].
        apply Z.bits_above_log2; [lia|]. apply Z.log2_lt_pow2; [lia|].
        pose proof (Z.pow_le_mono_r 2 bits i). lia. }
      destruct (decide (0 <= i - (bits - p))); [|by rewrite Z.testbit_neg_r by lia].
      rewrite Z.shiftr_spec by lia. replace (i - (bits - p) + (bits - p)) with i by lia.
      destruct (decide (x = 0)) as [->|]; [by rewrite Z.bits_0|].
      rewrite Z.bits_above_log2; [done|lia|]. apply Z.log2_lt_pow2; [lia|].
      pose proof (Z.pow_le_mono_r 2 bits i). lia.
  - assert (p = 0) as -> by lia. rewrite Z.sub_0_r, Z.land_0_r, Z.shiftr_div_pow2 by lia.
    by rewrite Z.div_small, Z.shiftl_0_l by done.
Qed.

Lemma land_mask_eq bits p x y :
  0 <= p <= bits -> 0 <= x < 2 ^ bits -> 0 <= y < 2 ^ bits ->
  (Z.land x (mask bits p) =? Z.land y (mask bits p)) = true <->
  x / 2 ^ (bits - p) = y / 2 ^ (bits - p).
Proof.
  intros Hp Hx Hy. rewrite !land_mask, Z.eqb_eq by done.
  rewrite !Z.shiftl_mul_pow2, !Z.shiftr_div_pow2 by lia.
  split; [|by intros ->]. apply Z.mul_cancel_r. apply Z.pow_nonzero; lia.
Qed.

(** The number of an address and the width of its family. *)
Definition ip_number (ip : IpAddr) : Z :=
  match ip with IpAddr_V4 a => a | IpAddr_V6 a => a end.

(** A network holds exactly the addresses of its family, IPv4-mapped
    addresses counted as IPv4, that share the network's leading [prefix]
    bits. *)
Theorem network_contains_iff (text : str) (net : Network) (ip : IpAddr) :
  network_from_str text = Ok net -> ip_wf ip ->
  contains net ip = true <->
  is_ipv4 (address net) = is_ipv4 (to_canonical ip)
  /\ ip_number (address net) / 2 ^ (bits_of (address net) - prefix net)
     = ip_number (to_canonical ip) / 2 ^ (bits_of (address net) - prefix net).
Proof.
  intros (Hwf & _ & Hp)%network_from_str_wf Hip%to_canonical_wf. unfold contains.
  destruct net as [[n|n] p], (to_canonical ip) as [x|x]; simpl in *;
    try (by split; [done|intros []]).
  all: rewrite land_mask_eq by done; naive_solver.
Qed.

Lemma network_contains_iff_witness :
  contains {| address := IpAddr_V4 (10 * 2 ^ 24 + 2 ^ 16); prefix := 16 |}
    (IpAddr_V6 (65535 * 2 ^ 32 + 10 * 2 ^ 24 + 2 ^ 16 + 1)) = true.
Proof.
  apply (network_contains_iff (lit "10.1.0.0/16")); [vm_compute; reflexivity|simpl; lia|].
  split; vm_compute; reflexivity.
Defined.

Lemma ip_text_no_slash ip : ip_wf ip -> to_canonical ip = ip -> 47 ∉ ip_text ip.
Proof.
  destruct ip as [a|a]; simpl; intros Hwf Hc.
  - unfold ipv4_text. rewrite !fmap_cons, fmap_nil, !join_cons.
    assert (Hd : forall n, 0 <= n -> 47 ∉ decimal n) by (intros; by apply decimal_not_elem).
    assert (47 ∉ decimal (a / 2 ^ 24)) by (apply Hd, Z.div_pos; lia).
    assert (Hm : forall x, 47 ∉ decimal (x mod 256)) by (intros; apply Hd, Z.mod_pos_bound; lia).
    pose proof (Hm (a / 2 ^ 16)). pose proof (Hm (a / 2 ^ 8)). pose proof (Hm a).
    set_solver.
  - destruct (a / 2 ^ 32 =? 65535) eqn:E; [done|]. unfold ipv6_text. rewrite E.
    destruct (segments_facts a Hwf) as [_ Hgs].
    destruct (zeroes _) as [start len]. case_bool_decide.
    + assert (47 ∉ fmt_subslice (take start (segments a)))
        by by apply fmt_subslice_not, Forall_take.
      assert (47 ∉ fmt_subslice (drop (start + len) (segments a)))
        by by apply fmt_subslice_not, Forall_drop.
      simpl. set_solver.
    + by apply fmt_subslice_not.
Qed.

Lemma network_text_parses net : network_wf net -> network_from_str (network_text net) = Ok net.
Proof.
  intros (Hwf & Hc & Hp). unfold network_from_str, network_text. simpl app.
  rewrite split_once_app by (by apply ip_text_no_slash).
  rewrite parse_ip_text by done. simpl. rewrite Hc.
  assert (bits_of (address net) <= 128) by (unfold bits_of; case_match; lia).
  rewrite parse_unsigned_decimal by (unfold u8_max; lia). simpl.
  destruct (_ <? _) eqn:E; [bools; lia|]. by destruct net.
Qed.

(** Every network the connector accepts is written so that reading it
    again gives the same network, for both address families. *)
Theorem network_reads_back (text : str) (net : Network) :
  network_from_str text = Ok net -> network_from_str (network_text net) = Ok net.
Proof. intros H%network_from_str_wf. by apply network_text_parses. Qed.

Lemma network_reads_back_witness :
  network_from_str (network_text {| address := IpAddr_V6 (253 * 2 ^ 120); prefix := 8 |})
  = Ok {| address := IpAddr_V6 (253 * 2 ^ 120); prefix := 8 |}.
Proof. apply (network_reads_back (lit "fd00::/8")). vm_compute. reflexivity. Defined.
