(* ===== verification/Inventory.v ===== *)
(** * The customer's list of devices and groups (crates/connector/src/inventory.rs)

    Addresses, ports, names, and the list itself with its four changes. The
    list is ordered by [str::to_lowercase], whose table is Unicode's: it is a
    parameter here, and no theorem depends on what it does. *)
From Stdlib Require Import Sorted.
From S2P Require Import Prelude Text Utf8 Ip Network.

Inductive Address :=
| Address_Range (network : Network)
| Address_Host (name : list Z).

Record Ports := { first : Z; last : Z }.

Record Device := {
  name : list Z;
  d_address : Address;
  ports : list Ports;
  d_groups : list (list Z)
}.

Record Inventory := { devices : list Device; groups : list (list Z) }.

Definition inventory_default : Inventory := {| devices := []; groups := [] |}.

Inductive InventoryError :=
| InvalidName
| InvalidAddress (text : list Z)
| InvalidPorts (text : list Z)
| NoPorts
| Exists (text : list Z)
| Unknown (text : list Z).

#[export] Instance address_eq_dec : EqDecision Address.
Proof. solve_decision. Defined.
#[export] Instance ports_eq_dec : EqDecision Ports.
Proof. solve_decision. Defined.
#[export] Instance device_eq_dec : EqDecision Device.
Proof. solve_decision. Defined.
#[export] Instance inventory_eq_dec : EqDecision Inventory.
Proof. solve_decision. Defined.
#[export] Instance inventory_error_eq_dec : EqDecision InventoryError.
Proof. solve_decision. Defined.

(** ** Addresses *)

Definition covers (a : Address) (host : str) (ip : IpAddr) (resolved : list IpAddr) : bool :=
  match a with
  | Address_Range network => contains network ip
  | Address_Host name => eq_ignore_ascii_case name host || bool_decide (ip ∈ resolved)
  end.

(** A label of a host name: 1 to 63 bytes of the given characters, with no
    hyphen at either end. *)
Definition valid_label (ok : Z -> bool) (label : str) : bool :=
  (1 <=? str_len label) && (str_len label <=? 63) && forallb ok label
  && negb (starts_with [45] label) && negb (ends_with [45] label).

Definition address_char (c : Z) : bool := is_ascii_alphanumeric c || (c =? 45) || (c =? 95).

Definition valid_host (ok : Z -> bool) (host : str) : bool :=
  (1 <=? str_len host) && (str_len host <=? 253) && forallb (valid_label ok) (split 46 host).

Definition address_from_str (text : str) : result Address InventoryError :=
  let text := trim text in
  match network_from_str text with
  | Ok network => Ok (Address_Range network)
  | Err _ =>
      let host := trim_end_matches 46 text in
      if valid_host address_char host
      then Ok (Address_Host (to_ascii_lowercase <$> host))
      else Err (InvalidAddress text)
  end.

Definition address_text (a : Address) : list Z :=
  match a with
  | Address_Range network =>
      let text := network_text network in
      let single := (ends_with (lit "/32") text && negb (bool_decide (58 ∈ text)))
                    || ends_with (lit "/128") text in
      if single
      then match rsplit_once 47 text with Some (a, _) => a | None => text end
      else text
  | Address_Host name => name
  end.

(** ** Ports *)

Definition ports_contains (p : Ports) (port : Z) : bool := (first p <=? port) && (port <=? last p).

Definition port_of (text part : str) : result Z InventoryError :=
  match parse_unsigned u16_max (trim part) with
  | Some p => if 0 <? p then Ok p else Err (InvalidPorts text)
  | None => Err (InvalidPorts text)
  end.

Definition ports_from_str (text : str) : result Ports InventoryError :=
  let? (first, last) :=
    match split_once 45 text with
    | Some (first, last) =>
        let? first := port_of text first in let? last := port_of text last in Ok (first, last)
    | None => let? first := port_of text text in let? last := port_of text text in Ok (first, last)
    end in
  if last <? first then Err (InvalidPorts text) else Ok {| first := first; last := last |}.

Fixpoint collect_results {A E : Type} (l : list (result A E)) : result (list A) E :=
  match l with
  | [] => Ok []
  | r :: l => let? a := r in let? rest := collect_results l in Ok (a :: rest)
  end.

Definition parse_list (text : str) : result (list Ports) InventoryError :=
  let parts := filter (fun part => part <> []) (split_by (fun c => (c =? 44) || (c =? 32)) text) in
  let? ports := collect_results (ports_from_str <$> parts) in
  match ports with [] => Err NoPorts | _ => Ok ports end.

Definition port_text (p : Ports) : list Z :=
  if first p =? last p then decimal (first p) else decimal (first p) ++ [45] ++ decimal (last p).

Definition ports_text (l : list Ports) : list Z := join (lit ", ") (port_text <$> l).

(** ** Names *)

Definition valid_name (text : str) : result (list Z) InventoryError :=
  let text := trim text in
  if (1 <=? Z.of_nat (length text)) && (Z.of_nat (length text) <=? 64)
     && negb (existsb is_control text)
  then Ok text else Err InvalidName.

(** ** The list *)

Definition device (inv : Inventory) (n : str) : option Device :=
  snd <$> list_find (fun d => name d = n) (devices inv).

Definition has_group (inv : Inventory) (n : str) : bool := bool_decide (n ∈ groups inv).

(** [Ord] of strings: byte-wise, which is by code points. *)
Fixpoint str_leb (a b : str) : bool :=
  match a, b with
  | [], _ => true
  | _ :: _, [] => false
  | x :: a, y :: b => (x <? y) || ((x =? y) && str_leb a b)
  end.

(** [slice::sort_by_key]: stable. *)
Fixpoint insert_by {A : Type} (key : A -> list Z) (x : A) (l : list A) : list A :=
  match l with
  | [] => [x]
  | y :: l' => if str_leb (key x) (key y) then x :: l else y :: insert_by key x l'
  end.

Definition sort_by_key {A : Type} (key : A -> list Z) (l : list A) : list A :=
  foldr (insert_by key) [] l.

Definition add_device `{Lowercase} (inv : Inventory) (d : Device) :
    result Inventory InventoryError :=
  if is_some (device inv (name d)) then Err (Exists (name d))
  else if bool_decide (ports d = []) then Err NoPorts
  else match list_find (fun g => has_group inv g = false) (d_groups d) with
       | Some (_, group) => Err (Unknown group)
       | None =>
           Ok {| devices := sort_by_key (fun d => to_lowercase (name d)) (devices inv ++ [d]);
                 groups := groups inv |}
       end.

Definition remove_device (inv : Inventory) (n : str) : result (Device * Inventory) InventoryError :=
  match list_find (fun d => name d = n) (devices inv) with
  | None => Err (Unknown n)
  | Some (index, d) => Ok (d, {| devices := delete index (devices inv); groups := groups inv |})
  end.

Definition add_group `{Lowercase} (inv : Inventory) (n : str) : result Inventory InventoryError :=
  if has_group inv n then Err (Exists n)
  else Ok {| devices := devices inv; groups := sort_by_key to_lowercase (groups inv ++ [n]) |}.

(** [groups.retain(|g| g != name)] of a device. *)
Definition leave_group (n : str) (d : Device) : Device :=
  {| name := name d; d_address := d_address d; ports := ports d;
     d_groups := filter (fun g => g <> n) (d_groups d) |}.

Definition remove_group (inv : Inventory) (n : str) : result Inventory InventoryError :=
  if has_group inv n
  then Ok {| devices := leave_group n <$> devices inv;
             groups := filter (fun g => g <> n) (groups inv) |}
  else Err (Unknown n).

Definition members (inv : Inventory) (group : str) : list Device :=
  filter (fun d => group ∈ d_groups d) (devices inv).

(** ** The order of the list *)

Definition ordered {A : Type} (key : A -> list Z) : list A -> Prop :=
  StronglySorted (fun a b => str_leb (key a) (key b) = true).

Lemma str_leb_total a b : str_leb a b = true \/ str_leb b a = true.
Proof.
  revert b. induction a as [|x a IH]; intros [|y b]; simpl; [by left..|by right|].
  destruct (x <? y) eqn:?, (y <? x) eqn:?; simpl; [by left..|by right|]. bools.
  assert (x = y) as -> by lia. rewrite Z.eqb_refl. simpl. apply IH.
Qed.

Lemma str_leb_trans a b c : str_leb a b = true -> str_leb b c = true -> str_leb a c = true.
Proof.
  revert b c. induction a as [|x a IH]; intros [|y b] [|z c]; simpl; try done.
  rewrite !orb_true_iff, !andb_true_iff, !Z.ltb_lt, !Z.eqb_eq.
  intros [?|[-> ?]] [?|[-> ?]]; [left; lia|left; lia|left; lia|right; split; [done|eauto]].
Qed.

Lemma insert_by_perm {A} (key : A -> list Z) x l : insert_by key x l ≡ₚ x :: l.
Proof.
  induction l as [|y l IH]; simpl; [done|]. case_match; [done|]. rewrite IH. apply perm_swap.
Qed.

Lemma sort_by_key_perm {A} (key : A -> list Z) l : sort_by_key key l ≡ₚ l.
Proof. induction l as [|x l IH]; simpl; [done|]. by rewrite insert_by_perm, IH. Qed.

Lemma insert_by_ordered {A} (key : A -> list Z) x l :
  ordered key l -> ordered key (insert_by key x l).
Proof.
  induction 1 as [|y l Hl IH Hy]; simpl; [by repeat constructor|].
  destruct (str_leb (key x) (key y)) eqn:E.
  - constructor; [by constructor|]. constructor; [done|].
    eapply Forall_impl; [exact Hy|]. simpl. eauto using str_leb_trans.
  - constructor; [done|]. rewrite insert_by_perm. constructor; [|done].
    destruct (str_leb_total (key x) (key y)); congruence.
Qed.

Lemma sort_by_key_ordered {A} (key : A -> list Z) l : ordered key (sort_by_key key l).
Proof. induction l; simpl; [constructor|by apply insert_by_ordered]. Qed.

Lemma ordered_sublist {A} (key : A -> list Z) l l' :
  sublist l' l -> ordered key l -> ordered key l'.
Proof.
  induction 1 as [|x l1 l2 Hs IH|x l1 l2 Hs IH]; intros Ho; [constructor|..];
    apply StronglySorted_inv in Ho as [Ho Hx]; [|by apply IH].
  constructor; [by apply IH|]. rewrite Forall_forall in *. intros y Hy.
  apply Hx. by eapply sublist_subseteq.
Qed.

Lemma ordered_fmap {A B} (f : A -> B) (key : B -> list Z) l :
  ordered (fun a => key (f a)) l -> ordered key (f <$> l).
Proof. induction 1; simpl; constructor; [done|]. by apply Forall_fmap. Qed.

(** ** The invariant *)

Section inventory_invariant.
Context `{Lowercase}.

(** Names are unique, every device has a port and is only in groups that
    exist, and both lists are in order. *)
Record inventory_ok (inv : Inventory) : Prop := {
  ok_names : NoDup (name <$> devices inv);
  ok_groups : NoDup (groups inv);
  ok_devices : Forall (fun d => ports d <> [] /\ d_groups d ⊆ groups inv) (devices inv);
  ok_order : ordered (fun d => to_lowercase (name d)) (devices inv);
  ok_group_order : ordered to_lowercase (groups inv)
}.

Lemma device_None inv n : device inv n = None <-> n ∉ name <$> devices inv.
Proof.
  unfold device. rewrite fmap_None, list_find_None, list_elem_of_fmap, Forall_forall.
  split; [intros Hn (d & -> & Hd); by apply (Hn d)|intros Hn d Hd <-; apply Hn; eauto].
Qed.

Lemma add_device_ok inv d inv' :
  inventory_ok inv -> add_device inv d = Ok inv' -> inventory_ok inv'.
Proof.
  intros [Hn Hg Hd Ho Hgo]. unfold add_device.
  destruct (is_some (device inv (name d))) eqn:Hs; [done|]. apply is_some_false, device_None in Hs.
  case_bool_decide as Hp; [done|]. destruct (list_find _ _) as [[i g]|] eqn:Hf; [done|].
  apply list_find_None in Hf. intros [= <-]. split; simpl.
  - rewrite sort_by_key_perm, fmap_app. apply NoDup_app. split_and!; [done|set_solver|].
    apply NoDup_singleton.
  - done.
  - rewrite sort_by_key_perm. apply Forall_app. split; [done|]. constructor; [|done].
    split; [done|]. intros g Hin. rewrite Forall_forall in Hf. specialize (Hf g Hin).
    apply not_false_is_true in Hf. by unfold has_group in Hf; bools.
  - apply sort_by_key_ordered.
  - done.
Qed.

Lemma remove_device_ok inv n d inv' :
  inventory_ok inv -> remove_device inv n = Ok (d, inv') -> inventory_ok inv'.
Proof.
  intros [Hn Hg Hd Ho Hgo]. unfold remove_device.
  destruct (list_find _ _) as [[i d']|] eqn:Hf; [|done]. intros [= <- <-].
  pose proof (sublist_delete (devices inv) i) as Hsub.
  split; simpl; [|done| |by eapply ordered_sublist|done].
  - eapply sublist_NoDup; [exact Hn|]. by apply fmap_sublist.
  - rewrite Forall_forall in *. intros x Hx. by apply Hd, (sublist_subseteq _ _ Hsub).
Qed.

Lemma add_group_ok inv n inv' :
  inventory_ok inv -> add_group inv n = Ok inv' -> inventory_ok inv'.
Proof.
  intros [Hn Hg Hd Ho Hgo]. unfold add_group, has_group. case_bool_decide as Hin; [done|].
  intros [= <-]. split; simpl; [done| | |done|apply sort_by_key_ordered].
  - rewrite sort_by_key_perm. apply NoDup_app. split_and!; [done|set_solver|apply NoDup_singleton].
  - eapply Forall_impl; [exact Hd|]. intros d [? Hsub]. split; [done|].
    intros g Hgin. rewrite sort_by_key_perm. set_solver.
Qed.

Lemma remove_group_ok inv n inv' :
  inventory_ok inv -> remove_group inv n = Ok inv' -> inventory_ok inv'.
Proof.
  intros [Hn Hg Hd Ho Hgo]. unfold remove_group. destruct (has_group inv n); [|done].
  intros [= <-]. split; simpl.
  - rewrite <- list_fmap_compose. exact Hn.
  - by apply NoDup_filter.
  - apply Forall_fmap. eapply Forall_impl; [exact Hd|]. intros d [? Hsub]. simpl.
    split; [done|]. intros g. rewrite !list_elem_of_filter. set_solver.
  - by apply ordered_fmap.
  - eapply ordered_sublist; [|exact Hgo]. apply sublist_filter.
Qed.

(** One change of the list, as the web interface and the command line make it. *)
Inductive inventory_step : Inventory -> Inventory -> Prop :=
| step_add_device inv d inv' : add_device inv d = Ok inv' -> inventory_step inv inv'
| step_remove_device inv n d inv' : remove_device inv n = Ok (d, inv') -> inventory_step inv inv'
| step_add_group inv n inv' : add_group inv n = Ok inv' -> inventory_step inv inv'
| step_remove_group inv n inv' : remove_group inv n = Ok inv' -> inventory_step inv inv'.

Lemma inventory_step_ok inv inv' : inventory_ok inv -> inventory_step inv inv' -> inventory_ok inv'.
Proof.
  intros Hok Hs. inversion Hs; subst;
    eauto using add_device_ok, remove_device_ok, add_group_ok, remove_group_ok.
Qed.

(** Whatever changes are made to the customer's list, names of devices
    and of groups stay unique, every device keeps at least one port and is
    only in groups of the list, and both lists stay in order. *)
Theorem inventory_invariant (inv : Inventory) :
  rtc inventory_step inventory_default inv -> inventory_ok inv.
Proof.
  intros Hr. eapply (rtc_closed inventory_step inventory_ok); [exact inventory_step_ok|exact Hr|].
  split; simpl; repeat constructor.
Qed.

End inventory_invariant.

Lemma inventory_invariant_witness :
  let _ : Lowercase := fun s => to_ascii_lowercase <$> s in
  let d := {| name := lit "sql"; d_address := Address_Host (lit "sql"); ports := [{| first := 22; last := 22 |}];
              d_groups := [lit "ERP"] |} in
  inventory_ok {| devices := [d]; groups := [lit "ERP"] |}.
Proof.
  intros ? d. apply inventory_invariant.
  eapply rtc_l; [apply (step_add_group _ (lit "ERP")); vm_compute; reflexivity|].
  eapply rtc_l; [apply (step_add_device _ d); vm_compute; reflexivity|]. apply rtc_refl.
Defined.

(** ** Ports are read back *)

(** A range of ports the parser gives out. *)
Definition ports_wf (p : Ports) : Prop := 1 <= first p <= last p /\ last p <= u16_max.

Lemma decimal_trim n : 0 <= n -> trim (decimal n) = decimal n.
Proof.
  intros Hn. apply trim_none. eapply Forall_impl; [by apply decimal_digits|].
  apply digit_not_whitespace.
Qed.

Lemma port_of_decimal text n : 1 <= n <= u16_max -> port_of text (decimal n) = Ok n.
Proof.
  intros Hn. unfold port_of. rewrite decimal_trim, parse_unsigned_decimal by lia.
  by rewrite (proj2 (Z.ltb_lt 0 n)) by lia.
Qed.

Lemma ports_from_text p : ports_wf p -> ports_from_str (port_text p) = Ok p.
Proof.
  destruct p as [f l]. unfold ports_wf, ports_from_str, port_text. simpl. intros Hp.
  destruct (f =? l) eqn:E; bools.
  - subst. assert (split_once 45 (decimal l) = None) as ->
      by (apply split_once_None, decimal_not_elem; [lia|done]).
    rewrite !port_of_decimal by lia. by rewrite Z.ltb_irrefl.
  - rewrite split_once_app by (apply decimal_not_elem; [lia|done]).
    rewrite !port_of_decimal by lia. destruct (l <? f) eqn:E2; [bools; lia|done].
Qed.

Lemma ports_from_str_wf text p : ports_from_str text = Ok p -> ports_wf p.
Proof.
  assert (Hport : forall part n, port_of text part = Ok n -> 1 <= n <= u16_max).
  { intros part n. unfold port_of. destruct (parse_unsigned _ _) as [m|] eqn:Hm; [|done].
    destruct (0 <? m) eqn:E; [|done]. intros [= <-]. bools.
    apply parse_unsigned_bound in Hm; [lia|unfold u16_max; lia]. }
  unfold ports_from_str, ports_wf. intros Hp. destruct (split_once 45 text) as [[a b]|].
  all: repeat (case_match; simplify_eq; try done); bools; simpl;
    repeat match goal with H : port_of _ _ = Ok _ |- _ => apply Hport in H end; lia.
Qed.

Definition separator (c : Z) : bool := (c =? 44) || (c =? 32).

Lemma port_text_facts p :
  ports_wf p -> Forall (fun c => separator c = false) (port_text p) /\ port_text p <> [].
Proof.
  intros [Hf Hl].
  assert (Hd : forall n, 0 <= n -> Forall (fun c => separator c = false) (decimal n)).
  { intros n Hn. eapply Forall_impl; [by apply decimal_digits|]. unfold separator, is_ascii_digit.
    intros c Hc. simpl in Hc. bools. by destruct (c =? 44) eqn:?, (c =? 32) eqn:?; bools; try lia. }
  unfold port_text. case_match; split.
  - apply Hd. lia.
  - apply decimal_not_nil.
  - apply Forall_app; split; [apply Hd; lia|]. constructor; [done|]. apply Hd. lia.
  - intros [? _]%app_nil. by apply (decimal_not_nil (first p)).
Qed.

Lemma split_ports_text l :
  Forall ports_wf l ->
  filter (fun part => part <> []) (split_by separator (ports_text l)) = port_text <$> l.
Proof.
  unfold ports_text. induction 1 as [|p l Hp Hl IH]; [done|].
  destruct (port_text_facts p Hp) as [Hs Hne].
  rewrite fmap_cons, join_cons. destruct l as [|q l].
  - rewrite split_by_none by done. simpl. by rewrite filter_cons_True.
  - simpl fmap in *. set (more := join _ _) in *. change (lit ", ") with [44; 32]. simpl app.
    cbn match. rewrite split_by_app by done. rewrite filter_cons_True by done. f_equal.
    change (32 :: more) with ([] ++ 32 :: more). rewrite split_by_app by (done || constructor).
    by rewrite filter_cons_False by (intros Hx; by apply Hx).
Qed.

Lemma collect_results_ok {A B E} (f : A -> result B E) (g : B -> A) (l : list B) :
  Forall (fun b => f (g b) = Ok b) l -> collect_results (f <$> (g <$> l)) = Ok l.
Proof. induction 1 as [|b l Hb _ IH]; [done|]. rewrite !fmap_cons. cbn [collect_results]. by rewrite Hb, IH. Qed.

(** The ports of a device, written the way the customer's list stores and
    shows them, are read back unchanged. *)
Theorem ports_read_back (l : list Ports) :
  l <> [] -> Forall ports_wf l -> parse_list (ports_text l) = Ok l.
Proof.
  intros Hne Hl. unfold parse_list. fold separator. rewrite split_ports_text by done.
  rewrite collect_results_ok; [by destruct l|].
  eapply Forall_impl; [exact Hl|]. apply ports_from_text.
Qed.

Lemma ports_read_back_witness :
  parse_list (ports_text [{| first := 22; last := 22 |}; {| first := 8000; last := 8100 |}])
  = Ok [{| first := 22; last := 22 |}; {| first := 8000; last := 8100 |}].
Proof.
  apply ports_read_back; [done|]. unfold ports_wf, u16_max. repeat constructor; simpl; lia.
Defined.

(** ** Addresses are read back *)

Lemma ends_with_prefix t p n :
  0 <= p -> 0 <= n ->
  ends_with (47 :: decimal n) (t ++ [47] ++ decimal p) = true <-> p = n.
Proof.
  intros Hp Hn. rewrite ends_with_true. split; [|intros ->; by exists t].
  intros [a Ha]. simpl in Ha. apply last_sep_inj in Ha as [_ Hd];
    [by apply decimal_inj|by apply decimal_not_elem..].
Qed.

Lemma ipv4_text_chars a c :
  0 <= a < 2 ^ 32 -> c ∈ ipv4_text a -> is_ascii_digit c = true \/ c = 46.
Proof.
  intros Ha. unfold ipv4_text. rewrite !fmap_cons, fmap_nil, !join_cons.
  assert (Hd : forall n, 0 <= n -> c ∈ decimal n -> is_ascii_digit c = true).
  { intros n Hn Hin. pose proof (decimal_digits n Hn) as Hall.
    rewrite Forall_forall in Hall. by apply Hall. }
  assert (Hm : forall x, c ∈ decimal (x mod 256) -> is_ascii_digit c = true)
    by (intros x; apply Hd, Z.mod_pos_bound; lia).
  assert (Hq : c ∈ decimal (a / 2 ^ 24) -> is_ascii_digit c = true) by (apply Hd, Z.div_pos; lia).
  rewrite !elem_of_app, !list_elem_of_singleton. naive_solver.
Qed.

Lemma fmt_subslice_chars gs c :
  Forall group_ok gs -> c ∈ fmt_subslice gs -> is_digit_of 16 c = true \/ c = 58.
Proof.
  intros Hgs Hc. destruct (is_digit_of 16 c) eqn:Hd; [by left|right].
  destruct (decide (c = 58)); [done|]. by destruct (fmt_subslice_not c gs Hd n Hgs).
Qed.

Lemma ipv6_text_chars a c :
  0 <= a < 2 ^ 128 -> a / 2 ^ 32 <> 65535 -> c ∈ ipv6_text a ->
  is_digit_of 16 c = true \/ c = 58.
Proof.
  intros Ha Hm. unfold ipv6_text. rewrite (proj2 (Z.eqb_neq _ _) Hm).
  destruct (segments_facts a Ha) as [_ Hgs]. destruct (zeroes _) as [start len].
  case_bool_decide; [|by apply fmt_subslice_chars]. change (lit "::") with [58; 58].
  rewrite !elem_of_app. intros [Hc|[Hc|Hc]]; [|set_solver|];
    (eapply fmt_subslice_chars; [|exact Hc]); auto using Forall_take, Forall_drop.
Qed.

Lemma ipv6_text_colon a : a / 2 ^ 32 <> 65535 -> 58 ∈ ipv6_text a.
Proof.
  intros Hm. unfold ipv6_text. rewrite (proj2 (Z.eqb_neq _ _) Hm).
  destruct (zeroes _) as [start len]. case_bool_decide.
  - change (lit "::") with [58; 58]. set_solver.
  - unfold fmt_subslice, segments. rewrite !fmap_cons, !join_cons. set_solver.
Qed.

Lemma hex_digit_not_whitespace c : is_digit_of 16 c = true -> is_whitespace c = false.
Proof.
  unfold is_digit_of, to_digit, is_whitespace, is_ascii_digit, is_ascii_lower, is_ascii_upper.
  intros H. assert (48 <= c <= 122).
  { repeat case_match; simplify_eq; bools; lia. }
  repeat (apply orb_false_iff; split); try (apply Z.eqb_neq; lia);
    apply andb_false_iff; rewrite !Z.leb_gt; lia.
Qed.

Lemma ip_text_not_whitespace ip :
  ip_wf ip -> to_canonical ip = ip -> Forall (fun c => is_whitespace c = false) (ip_text ip).
Proof.
  intros Hwf Hc. apply Forall_forall. intros c Hin. destruct ip as [a|a]; simpl in *.
  - apply ipv4_text_chars in Hin as [?| ->]; [by apply digit_not_whitespace|done|done].
  - destruct (a / 2 ^ 32 =? 65535) eqn:E; [done|]. bools.
    apply ipv6_text_chars in Hin as [?| ->]; [by apply hex_digit_not_whitespace|done..].
Qed.

Lemma network_single ip :
  ip_wf ip -> to_canonical ip = ip ->
  network_from_str (ip_text ip) = Ok {| address := ip; prefix := bits_of ip |}.
Proof.
  intros Hwf Hc. unfold network_from_str.
  rewrite (proj2 (split_once_None 47 _)) by (by apply ip_text_no_slash).
  rewrite parse_ip_text by done. simpl. rewrite Hc. by rewrite Z.ltb_irrefl.
Qed.

(** The text of a range: the address alone for a single one. *)
Lemma address_text_range net :
  network_wf net ->
  address_text (Address_Range net)
  = if prefix net =? bits_of (address net) then ip_text (address net) else network_text net.
Proof.
  intros (Hwf & Hc & Hp). unfold address_text, network_text.
  set (t := ip_text (address net)). set (p := prefix net) in *.
  change (lit "/32") with (47 :: decimal 32). change (lit "/128") with (47 :: decimal 128).
  assert (Hr : rsplit_once 47 (t ++ [47] ++ decimal p) = Some (t, decimal p))
    by (apply rsplit_once_app, decimal_not_elem; [lia|done]).
  rewrite Hr. pose proof (ends_with_prefix t p 32 ltac:(lia) ltac:(lia)) as H32.
  pose proof (ends_with_prefix t p 128 ltac:(lia) ltac:(lia)) as H128.
  assert (Hcolon : bool_decide (58 ∈ t ++ [47] ++ decimal p) = negb (is_ipv4 (address net))).
  { assert (58 ∉ decimal p) by (apply decimal_not_elem; [lia|done]).
    subst t. destruct (address net) as [a|a]; simpl in *.
    - apply bool_decide_eq_false. rewrite elem_of_app, elem_of_cons.
      intros [Hin|[?|?]]; [|lia|done]. by apply ipv4_text_chars in Hin as [?|?].
    - destruct (a / 2 ^ 32 =? 65535) eqn:E; [done|]. bools.
      apply bool_decide_eq_true. pose proof (ipv6_text_colon a E). set_solver. }
  rewrite Hcolon, negb_involutive. unfold bits_of in *.
  destruct (ends_with (47 :: decimal 32) _), (ends_with (47 :: decimal 128) _),
    (is_ipv4 (address net)), (p =? _) eqn:E; bools; try done; simpl; intuition (try lia).
Qed.

Lemma network_text_not_whitespace net :
  network_wf net -> Forall (fun c => is_whitespace c = false) (network_text net).
Proof.
  intros (Hwf & Hc & Hp). unfold network_text. apply Forall_app. split; [by apply ip_text_not_whitespace|].
  constructor; [done|]. eapply Forall_impl; [apply decimal_digits; lia|]. apply digit_not_whitespace.
Qed.

Lemma range_reads_back net :
  network_wf net -> address_from_str (address_text (Address_Range net)) = Ok (Address_Range net).
Proof.
  intros Hwf. rewrite address_text_range by done. unfold address_from_str.
  pose proof Hwf as (Hip & Hc & _). destruct (_ =? _) eqn:E.
  - rewrite trim_none, network_single by (done || by apply ip_text_not_whitespace).
    bools. rewrite <- E. by destruct net.
  - by rewrite trim_none, network_text_parses by (done || by apply network_text_not_whitespace).
Qed.

Lemma address_char_ascii c : address_char c = true -> 0 <= c < 0x80 /\ is_whitespace c = false.
Proof.
  unfold address_char, is_ascii_alphanumeric, is_ascii_digit, is_ascii_upper, is_ascii_lower.
  intros H. assert (45 <= c <= 122).
  { repeat (apply orb_true_iff in H as [H|H]); bools; lia. }
  split; [lia|]. unfold is_whitespace.
  repeat (apply orb_false_iff; split); try (apply Z.eqb_neq; lia);
    apply andb_false_iff; rewrite !Z.leb_gt; lia.
Qed.

Lemma address_char_lower c : address_char c = true -> address_char (to_ascii_lowercase c) = true.
Proof.
  intros Hc. destruct (to_ascii_lowercase_facts c) as [_ [->|[_ Hl]]]; [done|].
  unfold address_char, is_ascii_alphanumeric. rewrite Hl. by rewrite !orb_true_r.
Qed.

Lemma str_len_ascii s : Forall (fun c => c < 0x80) s -> str_len s = Z.of_nat (length s).
Proof. intros Hs. unfold str_len. by rewrite utf8_ascii. Qed.

Lemma lower_ascii (s : list Z) :
  Forall (fun c => c < 0x80) s -> Forall (fun c => c < 0x80) (to_ascii_lowercase <$> s).
Proof.
  intros Hs. apply Forall_fmap. eapply Forall_impl; [exact Hs|]. intros c Hc. simpl in *.
  unfold to_ascii_lowercase, is_ascii_upper. destruct (_ && _) eqn:E; bools; lia.
Qed.

Lemma str_len_lower (s : list Z) :
  Forall (fun c => c < 0x80) s -> str_len (to_ascii_lowercase <$> s) = str_len s.
Proof.
  intros Hs. by rewrite !str_len_ascii, length_fmap by (done || by apply lower_ascii).
Qed.

Lemma valid_label_chars label :
  valid_label address_char label = true -> Forall (fun c => address_char c = true) label.
Proof.
  unfold valid_label. intros H. bools. by apply forallb_Forall.
Qed.

Lemma lower_hyphen (s : list Z) :
  starts_with [45] (to_ascii_lowercase <$> s) = starts_with [45] s.
Proof.
  apply eq_true_iff_eq. rewrite !starts_with_true. destruct s as [|c s]; [done|].
  rewrite fmap_cons. split; intros [r Hr]; simpl in Hr; simplify_eq.
  - assert (c = 45) as -> by (by apply to_ascii_lowercase_other). by exists s.
  - by eexists.
Qed.

Lemma valid_label_lower (label : list Z) :
  valid_label address_char label = true ->
  valid_label address_char (to_ascii_lowercase <$> label) = true.
Proof.
  intros H. pose proof (valid_label_chars _ H) as Hc.
  assert (Hascii : Forall (fun c => c < 0x80) label).
  { eapply Forall_impl; [exact Hc|]. intros c []%address_char_ascii. lia. }
  revert H. unfold valid_label, ends_with. rewrite <- fmap_reverse, !lower_hyphen, str_len_lower by done.
  intros H. bools. repeat (apply andb_true_iff; split); try (apply negb_true_iff; done);
    try (apply Z.leb_le; done).
  apply forallb_forall. intros c Hin%list_elem_of_In%list_elem_of_fmap.
  destruct Hin as (d & -> & Hd). rewrite Forall_forall in Hc. apply address_char_lower, Hc, Hd.
Qed.

Lemma valid_host_chars host :
  valid_host address_char host = true -> Forall (fun c => address_char c = true \/ c = 46) host.
Proof.
  unfold valid_host. intros H. bools. apply Forall_forall. intros c Hc.
  destruct (elem_of_split_by (Z.eqb 46) host c Hc) as [?|(p & Hp & Hcp)]; [bools; by right|left].
  rewrite forallb_forall in H0. apply list_elem_of_In, H0, valid_label_chars in Hp.
  rewrite Forall_forall in Hp. by apply Hp.
Qed.

Lemma host_char_facts c : address_char c = true \/ c = 46 -> c < 0x80 /\ is_whitespace c = false.
Proof. intros [[]%address_char_ascii| ->]; [split; [lia|done]|done]. Qed.

Lemma valid_host_lower (host : list Z) :
  valid_host address_char host = true ->
  valid_host address_char (to_ascii_lowercase <$> host) = true.
Proof.
  intros H. pose proof (valid_host_chars _ H) as Hc. revert H. unfold valid_host, split.
  rewrite str_len_lower by (eapply Forall_impl; [exact Hc|intros c Hx; by apply host_char_facts]).
  rewrite split_by_fmap by (intros c; apply eq_true_iff_eq; rewrite !Z.eqb_eq;
    split; intros ->%eq_sym%to_ascii_lowercase_other || intros <-; done).
  intros H. bools. repeat (apply andb_true_iff; split); try (apply Z.leb_le; done).
  rewrite forallb_forall in *. intros p Hp%list_elem_of_In%list_elem_of_fmap.
  destruct Hp as (q & -> & Hq). by apply valid_label_lower, H0, list_elem_of_In.
Qed.

Lemma host_reads_back host :
  valid_host address_char (trim_end_matches 46 host) = true ->
  let name := to_ascii_lowercase <$> trim_end_matches 46 host in
  is_ok (network_from_str name) = false ->
  address_from_str name = Ok (Address_Host name).
Proof.
  intros Hv name Hn. pose proof (valid_host_lower _ Hv) as Hl. fold name in Hl.
  assert (Hdot : forall c, (46 =? to_ascii_lowercase c) = (46 =? c)).
  { intros c. apply eq_true_iff_eq. rewrite !Z.eqb_eq. split; intros Hx; symmetry;
      [by apply to_ascii_lowercase_other|by apply to_ascii_lowercase_other]. }
  unfold address_from_str. rewrite trim_none.
  2: { eapply Forall_impl; [by apply valid_host_chars|]. intros c Hx. by apply host_char_facts. }
  destruct (network_from_str name); [done|].
  assert (trim_end_matches 46 name = name) as Ht.
  { unfold trim_end_matches, name in *. rewrite trim_end_by_fmap by done.
    unfold trim_end_matches. by rewrite trim_end_by_idem. }
  rewrite Ht, Hl. do 2 f_equal. unfold name. rewrite <- list_fmap_compose.
  apply list_fmap_ext. intros i c _. apply to_ascii_lowercase_idem.
Qed.

(** An address of the customer's list is read back from its text as the
    same address, except a host name that spells an IPv4 address, which comes
    back as that address. *)
Theorem address_reads_back (text : str) (a : Address) :
  address_from_str text = Ok a ->
  address_from_str (address_text a) = Ok a
  \/ exists name net, a = Address_Host name /\ network_from_str name = Ok net
       /\ address_from_str (address_text a) = Ok (Address_Range net).
Proof.
  unfold address_from_str at 1. destruct (network_from_str (trim text)) as [net|] eqn:Hn.
  - intros [= <-]. left. apply range_reads_back. by eapply network_from_str_wf.
  - destruct (valid_host _ _) eqn:Hv; [|done]. intros [= <-].
    destruct (network_from_str (to_ascii_lowercase <$> trim_end_matches 46 (trim text)))
      as [net|] eqn:Hname.
    + right. eexists _, net. split_and!; [done|done|]. simpl. unfold address_from_str.
      rewrite trim_none; [by rewrite Hname|].
      eapply Forall_impl; [by apply valid_host_chars, valid_host_lower|].
      intros c Hx. by apply host_char_facts.
    + left. simpl. apply host_reads_back; [done|by rewrite Hname].
Qed.

Lemma address_reads_back_witness :
  address_from_str (address_text (Address_Host (lit "sql01.corp.local")))
  = Ok (Address_Host (lit "sql01.corp.local")).
Proof.
  destruct (address_reads_back (lit "SQL01.corp.local.") (Address_Host (lit "sql01.corp.local")))
    as [H|(name & net & [= <-] & Hnet & _)]; [vm_compute; reflexivity|exact H|].
  vm_compute in Hnet. discriminate.
Defined.

(** A host name spelling an address does change when the list is read again. *)
Example address_trailing_dot :
  address_from_str (lit "10.0.0.1.") = Ok (Address_Host (lit "10.0.0.1"))
  /\ address_from_str (lit "10.0.0.1")
     = Ok (Address_Range {| address := IpAddr_V4 (10 * 2 ^ 24 + 1); prefix := 32 |}).
Proof. split; vm_compute; reflexivity. Qed.
