(* ===== verification/Requests.v ===== *)
(** * Requests for access (crates/connector/src/requests.rs, protocol.rs)

    remotehub answers a connector's report with the requests waiting for the
    customer. [parse] takes the answer whole or not at all; [Requests] keeps
    what was listed last and the customer's answers. [serde_json] is a
    parameter: any reader from bytes to [Pending]. *)
From S2P Require Import Prelude Text Utf8 Ip Network Inventory.

(** ** The messages (protocol.rs) *)

Definition MAX_PENDING_BYTES : Z := 64 * 1024.
Definition MAX_REQUESTS : Z := 20.
Definition MAX_TARGETS : Z := 20.
Definition MAX_REASON : Z := 500.
Definition MAX_NAME : Z := 200.

(** [MINUTES.contains]. *)
Definition minutes_ok (m : Z) : bool := (15 <=? m) && (m <=? 1440).

Record RequestTarget := { t_name : list Z; host : list Z; port : Z }.

Record CustomerRequest := {
  id : Uuid;
  requester : list Z;
  reason : list Z;
  minutes : Z;
  targets : list RequestTarget
}.

Record Pending := { requests : list CustomerRequest }.

Record Answer := { a_id : Uuid; approved : bool; by_user : list Z; until : option (list Z) }.

#[export] Instance request_target_eq_dec : EqDecision RequestTarget.
Proof. solve_decision. Defined.
#[export] Instance customer_request_eq_dec : EqDecision CustomerRequest.
Proof. solve_decision. Defined.
#[export] Instance answer_eq_dec : EqDecision Answer.
Proof. solve_decision. Defined.

(** ** Readable text *)

(** Characters that change the direction of text or take no space. *)
Definition hidden (c : Z) : bool :=
  (c =? 0x61C)
  || ((0x200B <=? c) && (c <=? 0x200F))
  || ((0x202A <=? c) && (c <=? 0x202E))
  || ((0x2060 <=? c) && (c <=? 0x2069))
  || (c =? 0xFEFF).

Definition odd (c : Z) : bool := is_control c || hidden c.

Definition plain (text : str) (longest : Z) : bool :=
  let count := Z.of_nat (length text) in
  (1 <=? count) && (count <=? longest) && negb (existsb odd text).

Definition readable (text : str) (longest : Z) : list Z :=
  let text := take (Z.to_nat longest) ((fun c => if odd c then 0xFFFD else c) <$> trim text) in
  match text with [] => [0xFFFD] | _ => text end.

(** An IP address, or a host name of letters, digits and hyphens. *)
Definition host_char (c : Z) : bool := is_ascii_alphanumeric c || (c =? 45).

Definition request_host (text : str) : bool :=
  if is_some (parse_ip text) then true else valid_host host_char text.

(** ** Reading an answer *)

Inductive RequestsError :=
| TooLong
| Malformed (text : list Z)
| TooMany
| Twice (id : Uuid)
| Invalid (id : Uuid) (what : string).

Fixpoint check_targets (rid : Uuid) (ts : list RequestTarget) : result unit RequestsError :=
  match ts with
  | [] => Ok tt
  | t :: ts =>
      if negb (plain (t_name t) MAX_NAME) then Err (Invalid rid "target name")
      else if negb (request_host (host t)) then Err (Invalid rid "target host")
      else if port t =? 0 then Err (Invalid rid "target port")
      else check_targets rid ts
  end.

Definition check_request (r : CustomerRequest) : result unit RequestsError :=
  if negb (plain (requester r) MAX_NAME) then Err (Invalid (id r) "requester")
  else if negb (plain (reason r) MAX_REASON) then Err (Invalid (id r) "reason")
  else if negb (minutes_ok (minutes r)) then Err (Invalid (id r) "minutes")
  else if bool_decide (targets r = []) || (MAX_TARGETS <? Z.of_nat (length (targets r)))
  then Err (Invalid (id r) "targets")
  else check_targets (id r) (targets r).

Fixpoint check_requests (seen : gset Uuid) (rs : list CustomerRequest) :
    result unit RequestsError :=
  match rs with
  | [] => Ok tt
  | r :: rs =>
      if bool_decide (id r ∈ seen) then Err (Twice (id r))
      else let? _ := check_request r in check_requests ({[id r]} ∪ seen) rs
  end.

(** [serde_json::from_slice::<Pending>]: the answer, or what is wrong with it. *)
Class FromSlice := from_slice : list Z -> result Pending (list Z).

Definition parse `{FromSlice} (bytes : list Z) : result (list CustomerRequest) RequestsError :=
  if MAX_PENDING_BYTES <? Z.of_nat (length bytes) then Err TooLong
  else match from_slice bytes with
       | Err e => Err (Malformed e)
       | Ok pending =>
           if MAX_REQUESTS <? Z.of_nat (length (requests pending)) then Err TooMany
           else let? _ := check_requests ∅ (requests pending) in Ok (requests pending)
       end.

(** ** What was listed, and the answers *)

Record State := { listed_requests : list CustomerRequest; answers : list Answer }.

Definition state_default : State := {| listed_requests := []; answers := [] |}.

Definition listed (st : State) (rs : list CustomerRequest) : list CustomerRequest * State :=
  let known := id <$> listed_requests st in
  let new := filter (fun r => id r ∉ known) rs in
  let ids := id <$> rs in
  (new, {| listed_requests := rs; answers := filter (fun a => a_id a ∈ ids) (answers st) |}).

Definition waiting (st : State) : list CustomerRequest :=
  filter (fun r => Forall (fun a => a_id a <> id r) (answers st)) (listed_requests st).

Definition get (st : State) (i : Uuid) : option CustomerRequest :=
  snd <$> list_find (fun r => id r = i) (waiting st).

Definition answer (st : State) (a : Answer) : State :=
  {| listed_requests := listed_requests st; answers := answers st ++ [a] |}.

(** ** Theorems *)

(** What a request the connector shows looks like. *)
Definition target_ok (t : RequestTarget) : Prop :=
  plain (t_name t) MAX_NAME = true /\ request_host (host t) = true /\ port t <> 0.

Definition request_ok (r : CustomerRequest) : Prop :=
  plain (requester r) MAX_NAME = true /\ plain (reason r) MAX_REASON = true
  /\ 15 <= minutes r <= 1440
  /\ 1 <= Z.of_nat (length (targets r)) <= MAX_TARGETS
  /\ Forall target_ok (targets r).

Lemma check_targets_ok i ts : check_targets i ts = Ok tt <-> Forall target_ok ts.
Proof.
  induction ts as [|t ts IH]; cbn [check_targets]; [done|]. rewrite Forall_cons, <- IH.
  unfold target_ok. destruct (plain (t_name t) MAX_NAME), (request_host (host t)),
    (port t =? 0) eqn:E; simpl; bools; naive_solver.
Qed.

Lemma check_request_ok r : check_request r = Ok tt <-> request_ok r.
Proof.
  unfold check_request, request_ok, minutes_ok. rewrite <- (check_targets_ok (id r)).
  destruct (plain (requester r) MAX_NAME), (plain (reason r) MAX_REASON); simpl; [|naive_solver..].
  destruct (15 <=? minutes r) eqn:E1, (minutes r <=? 1440) eqn:E2; simpl; bools;
    try (split; [done|]; intros; exfalso; lia).
  case_bool_decide as Hnil; simpl.
  - rewrite Hnil. simpl. split; [done|]. intros (? & ? & ? & ? & ?). lia.
  - destruct (_ <? _) eqn:E3; bools; [split; [done|]; intros; exfalso; lia|].
    assert (length (targets r) <> 0%nat) by (by rewrite length_zero_iff_nil).
    split; [intros ?|intros; naive_solver]. split_and!; try done; lia.
Qed.

Lemma check_requests_ok seen rs :
  check_requests seen rs = Ok tt <->
  Forall request_ok rs /\ NoDup (id <$> rs) /\ (forall r, r ∈ rs -> id r ∉ seen).
Proof.
  revert seen. induction rs as [|r rs IH]; intros seen; cbn [check_requests].
  { split; [|done]. intros _. split_and!; [constructor|constructor|set_solver]. }
  rewrite fmap_cons, NoDup_cons, Forall_cons, <- check_request_ok.
  case_bool_decide as Hin.
  { split; [done|]. intros (_ & _ & Hs). by destruct (Hs r); [set_solver|]. }
  destruct (check_request r) as [[]|]; [|naive_solver]. rewrite IH. split.
  - intros (Hok & Hnd & Hs). split_and!; try done.
    + intros (r' & Heq & Hr')%list_elem_of_fmap. specialize (Hs r' Hr'). set_solver.
    + intros r' [->|Hr']%elem_of_cons; [done|]. specialize (Hs r' Hr'). set_solver.
  - intros ((_ & Hok) & (Hni & Hnd) & Hs). split_and!; try done.
    intros r' Hr'. specialize (Hs r' ltac:(set_solver)).
    intros [Heq%elem_of_singleton|?]%elem_of_union; [|done].
    apply Hni. rewrite <- Heq. by apply list_elem_of_fmap_2.
Qed.

(** The connector takes remotehub's answer to a report exactly when it is
    short enough, reads as the expected message, lists at most twenty
    requests with distinct ids, and every text, number and address in it is
    within its bounds and readable; otherwise it takes none of it. *)
Theorem parse_iff `{FromSlice} (bytes : list Z) (rs : list CustomerRequest) :
  parse bytes = Ok rs <->
  Z.of_nat (length bytes) <= MAX_PENDING_BYTES
  /\ from_slice bytes = Ok {| requests := rs |}
  /\ Z.of_nat (length rs) <= MAX_REQUESTS
  /\ NoDup (id <$> rs) /\ Forall request_ok rs.
Proof.
  unfold parse. destruct (MAX_PENDING_BYTES <? _) eqn:E1; bools.
  { split; [done|]. intros [? _]. lia. }
  destruct (from_slice bytes) as [[rs']|e]; [|naive_solver]. simpl.
  destruct (MAX_REQUESTS <? _) eqn:E2; bools.
  { split; [done|]. intros (_ & [= <-] & ? & _). lia. }
  pose proof (check_requests_ok ∅ rs') as Hc.
  destruct (check_requests ∅ rs') as [[]|e]; split.
  - intros [= <-]. naive_solver.
  - by intros (_ & [= <-] & _).
  - done.
  - intros (_ & [= <-] & _ & Hnd & Hok).
    assert (Err e = Ok tt :> result unit RequestsError) by (apply Hc; set_solver). done.
Qed.

Lemma plain_iff text longest :
  plain text longest = true <->
  1 <= Z.of_nat (length text) <= longest /\ Forall (fun c => odd c = false) text.
Proof.
  unfold plain. rewrite <- existsb_Forall, !andb_true_iff, negb_true_iff, !Z.leb_le. tauto.
Qed.

(** Whatever a device is called, the name remotehub writes for it passes
    the connector's check; a name that passes already and has no outer white
    space is written as it is. *)
Theorem readable_plain (text : str) (longest : Z) :
  1 <= longest ->
  plain (readable text longest) longest = true
  /\ (plain text longest = true -> trim text = text -> readable text longest = text).
Proof.
  intros Hl. unfold readable. set (f := fun c => if odd c then 0xFFFD else c). split.
  - apply plain_iff. destruct (take _ _) as [|c s] eqn:Ht; simpl; [by split; [lia|constructor]|].
    rewrite <- Ht. assert (length (c :: s) <= Z.to_nat longest)%nat
      by (rewrite <- Ht, length_take; lia). simpl in *.
    rewrite Ht. split; [simpl; lia|]. rewrite <- Ht. apply Forall_take, Forall_fmap, Forall_true.
    intros d. subst f. simpl. by destruct (odd d) eqn:?.
  - rewrite plain_iff. intros [Hlen Hodd] ->.
    assert (f <$> text = text) as ->.
    { rewrite <- (list_fmap_id text) at 2. apply Forall_fmap_ext_1.
      eapply Forall_impl; [exact Hodd|]. intros c Hc. subst f. simpl. by rewrite Hc. }
    rewrite take_ge by lia. destruct text; [simpl in Hlen; lia|done].
Qed.

Lemma readable_plain_witness :
  plain (readable [0x202E; 97; 10] 200) 200 = true
  /\ readable [0x202E; 97; 10; 98] 200 = [0xFFFD; 97; 0xFFFD; 98].
Proof. split; [by apply readable_plain|vm_compute; reflexivity]. Defined.

(** *** Every target of a request has an address *)

Lemma ip_char_facts c : ip_char c = true -> c <> 47 /\ is_whitespace c = false.
Proof.
  unfold ip_char. intros [[H|H]%orb_true_iff|H]%orb_true_iff; bools; [|by subst..].
  split; [|by apply hex_digit_not_whitespace]. intros ->. done.
Qed.

Lemma host_char_address c : host_char c = true -> address_char c = true.
Proof. unfold host_char, address_char. by intros ->. Qed.

Lemma valid_host_mono (f g : Z -> bool) text :
  (forall c, f c = true -> g c = true) -> valid_host f text = true -> valid_host g text = true.
Proof.
  intros Hfg. unfold valid_host. intros H. bools. apply andb_true_iff. split.
  - apply andb_true_iff. by rewrite !Z.leb_le.
  - rewrite forallb_forall in *. intros l Hl. specialize (H0 l Hl). unfold valid_label in *. bools.
    repeat (apply andb_true_iff; split); try (apply Z.leb_le; done); try (by apply negb_true_iff).
    rewrite forallb_forall in *. auto.
Qed.

(** A valid host name does not end in a dot. *)
Lemma valid_host_no_dot f text : valid_host f text = true -> trim_end_matches 46 text = text.
Proof.
  intros H. unfold trim_end_matches, trim_end_by.
  rewrite trim_start_by_id; [apply reverse_involutive|]. intros c r Hr.
  apply (f_equal reverse) in Hr. rewrite reverse_involutive, reverse_cons in Hr. subst text.
  destruct (46 =? c) eqn:E; [|done]. bools. subst c. unfold valid_host in H. bools.
  rewrite forallb_forall in H0.
  assert (Hnil : [] ∈ split 46 (reverse r ++ [46])).
  { unfold split. rewrite split_by_snoc by done. set_solver. }
  apply list_elem_of_In, H0 in Hnil. done.
Qed.

(** A request that passed the connector's checks names only targets with
    an address the access can be opened for, so approving it opens all of
    them. *)
Theorem request_targets_have_addresses (t : RequestTarget) :
  target_ok t -> exists a, address_from_str (host t) = Ok a.
Proof.
  intros (_ & Hh & _). unfold request_host in Hh. unfold address_from_str.
  destruct (parse_ip (host t)) as [ip|] eqn:Hip.
  - pose proof (parse_ip_chars _ _ Hip) as Hc.
    rewrite trim_none by (eapply Forall_impl; [exact Hc|]; intros c Hx; by apply ip_char_facts).
    assert (47 ∉ host t).
    { intros Hin. rewrite Forall_forall in Hc. apply Hc, ip_char_facts in Hin. naive_solver. }
    unfold network_from_str. rewrite (proj2 (split_once_None 47 _)), Hip by done. simpl.
    rewrite Z.ltb_irrefl. by eexists.
  - cbn [is_some] in Hh. pose proof (valid_host_mono _ _ _ host_char_address Hh) as Hv.
    rewrite trim_none by (eapply Forall_impl; [by apply valid_host_chars|];
      intros c Hx; by apply host_char_facts).
    destruct (network_from_str (host t)); [by eexists|].
    rewrite (valid_host_no_dot _ _ Hv), Hv. by eexists.
Qed.

Lemma request_targets_have_addresses_witness :
  exists a, address_from_str (lit "sql01.corp") = Ok a.
Proof.
  apply (request_targets_have_addresses {| t_name := lit "SQL"; host := lit "sql01.corp"; port := 1433 |}).
  split_and!; [vm_compute; reflexivity|vm_compute; reflexivity|done].
Defined.

(** *** Answers *)

(** What happens to the kept state: remotehub's next list, or an answer. *)
Inductive Event :=
| Listed (rs : list CustomerRequest)
| Answered (a : Answer).

Definition apply_event (st : State) (e : Event) : State :=
  match e with
  | Listed rs => (listed st rs).2
  | Answered a => answer st a
  end.

Definition run (st : State) (es : list Event) : State := foldl apply_event st es.

(** remotehub still lists request [i]. *)
Definition still_listed (i : Uuid) (e : Event) : Prop :=
  match e with Listed rs => i ∈ id <$> rs | Answered _ => True end.

Lemma answers_kept a es st :
  Forall (still_listed (a_id a)) es -> a ∈ answers st -> a ∈ answers (run st es).
Proof.
  intros Hes. revert st. induction Hes as [|e es He _ IH]; intros st Ha; [done|].
  apply IH. destruct e as [rs|a']; simpl in *; [|set_solver].
  apply list_elem_of_filter. by split.
Qed.

Lemma elem_of_waiting st r :
  r ∈ waiting st <-> r ∈ listed_requests st /\ forall a, a ∈ answers st -> a_id a <> id r.
Proof. unfold waiting. rewrite list_elem_of_filter, Forall_forall. tauto. Qed.

(** An answer is sent with every report for as long as remotehub lists the
    request, and the request never waits for a second answer meanwhile. *)
Theorem answers_until_taken (st : State) (a : Answer) (es : list Event) :
  Forall (still_listed (a_id a)) es ->
  a ∈ answers (run (answer st a) es)
  /\ get (run (answer st a) es) (a_id a) = None.
Proof.
  intros Hes. assert (Ha : a ∈ answers (run (answer st a) es)).
  { apply answers_kept; [done|]. simpl. set_solver. }
  split; [done|]. unfold get. apply fmap_None, list_find_None, Forall_forall.
  intros r [_ Hr]%elem_of_waiting Heq. by apply (Hr a).
Qed.

Lemma answers_until_taken_witness :
  let r := {| id := 7; requester := lit "alice"; reason := lit "x"; minutes := 60; targets := [] |} in
  let a := {| a_id := 7; approved := true; by_user := lit "bob"; until := None |} in
  get (listed state_default [r]).2 7 = Some r
  /\ get (run (answer (listed state_default [r]).2 a) [Listed [r]]) 7 = None.
Proof.
  intros r a. split; [vm_compute; reflexivity|].
  apply (answers_until_taken _ a [Listed [r]]). repeat constructor.
Defined.
