(* ===== verification/Access.v ===== *)
(** * The customer's access (crates/connector/src/access.rs, journal.rs)

    Whether the customer lets remotehub into the network: the whole network,
    single devices and groups, and approved requests, each closed, open until
    a point in time, or open without end. The two files of the data directory
    and the journal are explicit state; a file may be missing, unreadable or
    not writable. A point in time is a number of nanoseconds. *)
From S2P Require Import Prelude Text Utf8 Ip Network Inventory Requests.

(** ** Access *)

Inductive Access :=
| Access_Closed
| Access_Open (until : option Z).

#[export] Instance access_eq_dec : EqDecision Access.
Proof. solve_decision. Defined.

Definition is_open (a : Access) (now : Z) : bool :=
  match a with
  | Access_Closed => false
  | Access_Open None => true
  | Access_Open (Some until) => now <? until
  end.

Definition closes_at (a : Access) : option Z :=
  match a with
  | Access_Open until => until
  | Access_Closed => None
  end.

Inductive Changer :=
| Changer_Web (user : list Z)
| Changer_CommandLine
| Changer_Expiry.

#[export] Instance changer_eq_dec : EqDecision Changer.
Proof. solve_decision. Defined.

Inductive Scope :=
| Scope_Network
| Scope_Device (name : list Z)
| Scope_Group (name : list Z)
| Scope_Request (id : Uuid).

#[export] Instance scope_eq_dec : EqDecision Scope.
Proof. solve_decision. Defined.

Record Stored := { access : Access; changed_by : option Changer; changed_at : option Z }.

Definition stored_default : Stored :=
  {| access := Access_Closed; changed_by := None; changed_at := None |}.

#[export] Instance stored_eq_dec : EqDecision Stored.
Proof. solve_decision. Defined.

Record Grant := {
  g_requester : list Z;
  g_reason : list Z;
  g_targets : list RequestTarget;
  stored : Stored
}.

#[export] Instance grant_eq_dec : EqDecision Grant.
Proof. solve_decision. Defined.

(** [Grant::devices]: its targets as devices of the list. *)
Definition grant_device (t : RequestTarget) : option Device :=
  match address_from_str (host t) with
  | Ok a => Some {| name := t_name t; d_address := a;
                    ports := [{| first := port t; last := port t |}]; d_groups := [] |}
  | Err _ => None
  end.

Definition grant_devices (g : Grant) : list Device := omap grant_device (g_targets g).

(** ** access.json *)

Record AccessFile := {
  network : Stored;
  f_devices : gmap (list Z) Stored;
  f_groups : gmap (list Z) Stored;
  f_requests : gmap Uuid Grant
}.

Definition access_default : AccessFile :=
  {| network := stored_default; f_devices := ∅; f_groups := ∅; f_requests := ∅ |}.

#[export] Instance access_file_eq_dec : EqDecision AccessFile.
Proof. solve_decision. Defined.

Definition file_lookup (f : AccessFile) (scope : Scope) : option Stored :=
  match scope with
  | Scope_Network => Some (network f)
  | Scope_Device name => f_devices f !! name
  | Scope_Group name => f_groups f !! name
  | Scope_Request i => stored <$> (f_requests f !! i)
  end.

Definition file_get (f : AccessFile) (scope : Scope) : Stored :=
  default stored_default (file_lookup f scope).

Definition set_stored (s : Stored) (g : Grant) : Grant :=
  {| g_requester := g_requester g; g_reason := g_reason g; g_targets := g_targets g; stored := s |}.

Definition file_set (f : AccessFile) (scope : Scope) (s : Stored) : AccessFile :=
  match scope with
  | Scope_Network =>
      {| network := s; f_devices := f_devices f; f_groups := f_groups f; f_requests := f_requests f |}
  | Scope_Device name =>
      {| network := network f; f_devices := <[name := s]> (f_devices f); f_groups := f_groups f;
         f_requests := f_requests f |}
  | Scope_Group name =>
      {| network := network f; f_devices := f_devices f; f_groups := <[name := s]> (f_groups f);
         f_requests := f_requests f |}
  | Scope_Request i =>
      {| network := network f; f_devices := f_devices f; f_groups := f_groups f;
         f_requests := if bool_decide (access s = Access_Closed) then delete i (f_requests f)
                       else alter (set_stored s) i (f_requests f) |}
  end.

(** The entries of a [BTreeMap], in the order of its keys. *)
Definition btree {V : Type} (m : gmap (list Z) V) : list (list Z * V) :=
  sort_by_key fst (map_to_list m).

Definition btree_uuid {V : Type} (m : gmap Uuid V) : list (Uuid * V) :=
  sort_by_key (fun kv => [kv.1]) (map_to_list m).

(** [AccessFile::all]: every scope with its access. *)
Definition file_all (f : AccessFile) : list (Scope * Stored) :=
  (Scope_Network, network f)
  :: ((fun '(n, s) => (Scope_Device n, s)) <$> btree (f_devices f))
  ++ ((fun '(n, s) => (Scope_Group n, s)) <$> btree (f_groups f))
  ++ ((fun '(i, g) => (Scope_Request i, stored g)) <$> btree_uuid (f_requests f)).

(** ** What the connector decides by *)

Record Snapshot := { s_access : AccessFile; s_inventory : Inventory }.

#[export] Instance snapshot_eq_dec : EqDecision Snapshot.
Proof. solve_decision. Defined.

(** The later of two ends of access: [None] is closed and loses, [Some None]
    is without end and wins. *)
Definition later (a b : option (option Z)) : option (option Z) :=
  match a, b with
  | None, other | other, None => other
  | Some None, _ | _, Some None => Some None
  | Some (Some a), Some (Some b) => Some (Some (Z.max a b))
  end.

Definition network_open (s : Snapshot) (now : Z) : bool := is_open (access (network (s_access s))) now.

(** [access.is_open(now).then(|| access.closes_at())]. *)
Definition until_of (a : Access) (now : Z) : option (option Z) :=
  if is_open a now then Some (closes_at a) else None.

Definition network_until (s : Snapshot) (now : Z) : option (option Z) :=
  until_of (access (network (s_access s))) now.

Definition device_scopes (d : Device) : list Scope :=
  Scope_Device (name d) :: (Scope_Group <$> d_groups d).

Definition device_until (s : Snapshot) (d : Device) (now : Z) : option (option Z) :=
  foldl later None
    ((fun a => Some (closes_at a))
       <$> filter (fun a => is_open a now = true)
             ((fun scope => access (file_get (s_access s) scope)) <$> device_scopes d)).

Definition open_devices (s : Snapshot) (now : Z) : list Device :=
  filter (fun d => is_some (device_until s d now) = true) (devices (s_inventory s)).

Definition open_groups (s : Snapshot) (now : Z) : list (list Z * option Z) :=
  omap (fun n => match f_groups (s_access s) !! n with
                 | None => None
                 | Some st => if is_open (access st) now then Some (n, closes_at (access st)) else None
                 end)
    (groups (s_inventory s)).

Definition open_requests (s : Snapshot) (now : Z) : list (Uuid * Grant) :=
  filter (fun ig => is_open (access (stored ig.2)) now = true) (btree_uuid (f_requests (s_access s))).

Definition any_open (s : Snapshot) (now : Z) : bool :=
  network_open s now || negb (bool_decide (open_devices s now = []))
  || negb (bool_decide (open_requests s now = [])).

(** [Iterator::min]. *)
Definition min_of (l : list Z) : option Z :=
  foldl (fun m x => Some match m with None => x | Some y => Z.min y x end) None l.

Definition next_end (s : Snapshot) (now : Z) : option Z :=
  min_of (omap (fun ss => if is_open (access ss.2) now then closes_at (access ss.2) else None)
            (file_all (s_access s))).

Definition ran_out (s : Snapshot) (now : Z) : list Scope :=
  fst <$> filter (fun ss => is_some (closes_at (access ss.2)) = true
                            /\ is_open (access ss.2) now = false) (file_all (s_access s)).

(** ** The files and the journal *)

(** A file of the data directory as a reader finds it, and whether it can be
    replaced. *)
Inductive Content (A : Type) :=
| Missing
| Unreadable
| Holds (a : A).
Arguments Missing {A}.
Arguments Unreadable {A}.
Arguments Holds {A} a.

(** journal.rs: what is recorded. *)
Inductive JournalEvent :=
| Opened (by_ : Changer) (until : option Z) (scope : Scope)
| Closed (by_ : Changer) (scope : Scope)
| Expired (scope : Scope)
| DeviceAdded (by_ : Changer) (name address ports : list Z) (groups : list (list Z))
| DeviceRemoved (by_ : Changer) (name : list Z)
| GroupAdded (by_ : Changer) (name : list Z)
| GroupRemoved (by_ : Changer) (name : list Z)
| RequestReceived (id : Uuid) (requester reason : list Z) (minutes : Z) (targets : list (list Z))
| RequestApproved (by_ : Changer) (id : Uuid) (requester reason : list Z)
    (targets : list (list Z)) (until : Z)
| RequestRefused (by_ : Changer) (id : Uuid) (requester reason : list Z) (targets : list (list Z))
| ConnectionStarted (id : Uuid) (target : list Z) (device user : option (list Z))
| ConnectionEnded (id : Uuid) (target : list Z) (device user : option (list Z))
    (seconds sent received : Z)
| ConnectionRefused (target : list Z) (device user : option (list Z)) (reason : list Z)
| UserSignedIn (user address : list Z)
| UserSignInFailed (user address : list Z)
| UserLocked (user : list Z).

Record World := {
  access_json : Content AccessFile;
  inventory_json : Content Inventory;
  access_writable : bool;
  inventory_writable : bool;
  journal : list JournalEvent
}.

Inductive ChangeError :=
| ChangeError_Inventory (e : InventoryError)
| ChangeError_Io.

(** Code that reads and changes the files: an early return keeps what was
    done before it. *)
Definition M (A : Type) : Type := stM World ChangeError A.

Definition lift {A : Type} (r : result A InventoryError) : M A :=
  match r with Ok a => ret a | Err e => fail (ChangeError_Inventory e) end.

Definition read_content {A : Type} (d : A) (c : Content A) : option A :=
  match c with Missing => Some d | Unreadable => None | Holds a => Some a end.

Definition load_access : M AccessFile := fun w =>
  match read_content access_default (access_json w) with
  | Some f => (Ok f, w)
  | None => (Err ChangeError_Io, w)
  end.

Definition load_inventory : M Inventory := fun w =>
  match read_content inventory_default (inventory_json w) with
  | Some i => (Ok i, w)
  | None => (Err ChangeError_Io, w)
  end.

Definition put_access (f : AccessFile) (w : World) : World :=
  {| access_json := Holds f; inventory_json := inventory_json w;
     access_writable := access_writable w; inventory_writable := inventory_writable w;
     journal := journal w |}.

Definition put_inventory (i : Inventory) (w : World) : World :=
  {| access_json := access_json w; inventory_json := Holds i;
     access_writable := access_writable w; inventory_writable := inventory_writable w;
     journal := journal w |}.

Definition log (e : JournalEvent) (w : World) : World :=
  {| access_json := access_json w; inventory_json := inventory_json w;
     access_writable := access_writable w; inventory_writable := inventory_writable w;
     journal := journal w ++ [e] |}.

Definition save_access (f : AccessFile) : M unit := fun w =>
  if access_writable w then (Ok tt, put_access f w) else (Err ChangeError_Io, w).

Definition save_inventory (i : Inventory) : M unit := fun w =>
  if inventory_writable w then (Ok tt, put_inventory i w) else (Err ChangeError_Io, w).

(** [Journal::append]. [journal] is what the log output gets, which is every
    entry; the file lacks those it could not be written for, without the caller
    noticing. *)
Definition append (e : JournalEvent) : M unit := fun w => (Ok tt, log e w).

Definition load : M Snapshot :=
  a <-- load_access; i <-- load_inventory; ret {| s_access := a; s_inventory := i |}.

(** Whole seconds. *)
Definition seconds (at_ : Z) : Z := at_ - at_ mod 1000000000.

(** ** Changes *)

Definition known (list_ : Inventory) (f : AccessFile) (scope : Scope) : bool :=
  match scope with
  | Scope_Network => true
  | Scope_Device n => is_some (device list_ n)
  | Scope_Group n => has_group list_ n
  | Scope_Request i => is_some (f_requests f !! i)
  end.

Definition scope_name `{UuidText} (scope : Scope) : list Z :=
  match scope with
  | Scope_Device n | Scope_Group n => n
  | Scope_Request i => uuid_text i
  | Scope_Network => []
  end.

(** The access as it is stored: whole seconds. *)
Definition rounded (a : Access) : Access :=
  match a with
  | Access_Open until => Access_Open (seconds <$> until)
  | Access_Closed => Access_Closed
  end.

Definition change_event (scope : Scope) (a : Access) (by_ : Changer) : JournalEvent :=
  match a with
  | Access_Closed => if bool_decide (by_ = Changer_Expiry) then Expired scope else Closed by_ scope
  | Access_Open until => Opened by_ until scope
  end.

Definition change `{UuidText} (now : Z) (scope : Scope) (a : Access) (by_ : Changer) : M unit :=
  list_ <-- load_inventory;
  f <-- load_access;
  if negb (known list_ f scope) then fail (ChangeError_Inventory (Unknown (scope_name scope)))
  else
    let a := rounded a in
    save_access (file_set f scope
      {| access := a; changed_by := Some by_; changed_at := Some (seconds now) |});;
    append (change_event scope a by_).

(** [name (host:port)] of each target. *)
Definition targets_text (ts : list RequestTarget) : list (list Z) :=
  (fun t => t_name t ++ lit " (" ++ host t ++ lit ":" ++ decimal (port t) ++ lit ")") <$> ts.

Definition approve (now : Z) (r : CustomerRequest) (until : Z) (by_ : Changer) : M unit :=
  let until := seconds until in
  f <-- load_access;
  save_access
    {| network := network f; f_devices := f_devices f; f_groups := f_groups f;
       f_requests :=
         <[id r := {| g_requester := requester r; g_reason := reason r; g_targets := targets r;
                      stored := {| access := Access_Open (Some until); changed_by := Some by_;
                                   changed_at := Some (seconds now) |} |}]> (f_requests f) |};;
  append (RequestApproved by_ (id r) (requester r) (reason r) (targets_text (targets r)) until).

Definition refuse (r : CustomerRequest) (by_ : Changer) : M unit :=
  append (RequestRefused by_ (id r) (requester r) (reason r) (targets_text (targets r))).

Definition received (r : CustomerRequest) : M unit :=
  append (RequestReceived (id r) (requester r) (reason r) (minutes r) (targets_text (targets r))).

Definition access_add_device `{Lowercase} (d : Device) (by_ : Changer) : M unit :=
  list_ <-- load_inventory;
  let event := DeviceAdded by_ (name d) (address_text (d_address d)) (ports_text (ports d))
                 (d_groups d) in
  list_ <-- lift (add_device list_ d);
  save_inventory list_;;
  append event.

Definition access_remove_device (n : str) (by_ : Changer) : M unit :=
  list_ <-- load_inventory;
  removed <-- lift (remove_device list_ n);
  f <-- load_access;
  save_access {| network := network f; f_devices := delete n (f_devices f);
                 f_groups := f_groups f; f_requests := f_requests f |};;
  save_inventory removed.2;;
  append (DeviceRemoved by_ n).

Definition access_add_group `{Lowercase} (n : str) (by_ : Changer) : M unit :=
  n <-- lift (valid_name n);
  list_ <-- load_inventory;
  list_ <-- lift (add_group list_ n);
  save_inventory list_;;
  append (GroupAdded by_ n).

Definition access_remove_group (n : str) (by_ : Changer) : M unit :=
  list_ <-- load_inventory;
  list_ <-- lift (remove_group list_ n);
  f <-- load_access;
  save_access {| network := network f; f_devices := f_devices f;
                 f_groups := delete n (f_groups f); f_requests := f_requests f |};;
  save_inventory list_;;
  append (GroupRemoved by_ n).

(** ** The gate: what the running connector sees *)

Record Gate := { world : World; state : Snapshot }.

(** [Gate::reload]: the files again; what cannot be read changes nothing. *)
Definition reload (g : Gate) : Gate :=
  match load (world g) with
  | (Ok s, w) => {| world := w; state := s |}
  | (Err _, w) => {| world := w; state := state g |}
  end.

Definition gate_new (w : World) : result Gate ChangeError :=
  match load w with
  | (Ok s, w) => Ok {| world := w; state := s |}
  | (Err e, _) => Err e
  end.

Definition gate_set `{UuidText} (now : Z) (scope : Scope) (a : Access) (by_ : Changer) (g : Gate) :
    result unit ChangeError * Gate :=
  match change now scope a by_ (world g) with
  | (Ok tt, w) => (Ok tt, reload {| world := w; state := state g |})
  | (Err e, w) => (Err e, {| world := w; state := state g |})
  end.

(** One round of [Gate::follow]: takes over the files, then closes what ran
    out; a change that fails is logged and the next one tried. *)
Definition follow `{UuidText} (now : Z) (g : Gate) : Gate :=
  let g := reload g in
  foldl (fun g scope => (gate_set now scope Access_Closed Changer_Expiry g).2) g
    (ran_out (state g) now).

(** ** Ends of access *)

(** Whether an end of access lets through at [t]. *)
Definition open_at (t : Z) (e : option (option Z)) : bool :=
  match e with
  | None => false
  | Some None => true
  | Some (Some e) => t <? e
  end.

Lemma open_at_later t a b : open_at t (later a b) = open_at t a || open_at t b.
Proof.
  destruct a as [[a|]|], b as [[b|]|]; simpl; rewrite ?orb_false_r, ?orb_true_r; try done.
  apply eq_true_iff_eq. rewrite orb_true_iff, !Z.ltb_lt. lia.
Qed.

Lemma open_at_foldl t l e :
  open_at t (foldl later e l) = open_at t e || existsb (open_at t) l.
Proof.
  revert e. induction l as [|x l IH]; intros e; simpl; [by rewrite orb_false_r|].
  by rewrite IH, open_at_later, orb_assoc.
Qed.

Lemma is_open_mono a now t : now <= t -> is_open a t = true -> is_open a now = true.
Proof. destruct a as [|[u|]]; simpl; [done| |done]. rewrite !Z.ltb_lt. lia. Qed.

Lemma open_at_closes a now t :
  now <= t -> open_at t (until_of a now) = is_open a t.
Proof.
  intros Ht. unfold until_of. destruct (is_open a now) eqn:E.
  - by destruct a as [|[u|]].
  - simpl. destruct (is_open a t) eqn:E2; [|done]. by rewrite (is_open_mono a now t) in E.
Qed.

Lemma open_at_now a now : open_at now (until_of a now) = is_open a now.
Proof. by apply open_at_closes. Qed.

Lemma is_some_open_at e now : (forall u, e = Some (Some u) -> now < u) -> is_some e = open_at now e.
Proof. destruct e as [[u|]|]; intros H; simpl; [|done..]. symmetry. apply Z.ltb_lt. by apply H. Qed.

(** The ends of those open at [now]. *)
Lemma open_at_ends t now l :
  now <= t ->
  existsb (open_at t) ((fun a => Some (closes_at a)) <$> filter (fun a => is_open a now = true) l)
  = existsb (fun a => is_open a t) l.
Proof.
  intros Ht. induction l as [|a l IH]; [done|]. rewrite filter_cons. case_decide as Ho.
  - rewrite fmap_cons. cbn [existsb]. rewrite IH. f_equal.
    rewrite <- (open_at_closes a now t Ht). unfold until_of. by rewrite Ho.
  - cbn [existsb]. rewrite IH. destruct (is_open a t) eqn:E; [|done].
    by rewrite (is_open_mono a now t) in Ho.
Qed.

Lemma existsb_fmap {A B} (f : A -> B) (p : B -> bool) l :
  existsb p (f <$> l) = existsb (fun a => p (f a)) l.
Proof. induction l as [|x l IH]; [done|]. rewrite fmap_cons. cbn [existsb]. by rewrite IH. Qed.

(** A device is let through at [t] by itself or one of its groups. *)
Definition device_open (s : Snapshot) (d : Device) (t : Z) : bool :=
  existsb (fun scope => is_open (access (file_get (s_access s) scope)) t) (device_scopes d).

Lemma device_until_open s d now t :
  now <= t -> open_at t (device_until s d now) = device_open s d t.
Proof.
  intros Ht. unfold device_until. rewrite open_at_foldl. cbn [open_at orb].
  rewrite open_at_ends by done. by rewrite existsb_fmap.
Qed.

(** Folding ends that lie ahead gives an end that lies ahead. *)
Lemma foldl_later_ahead now l e :
  (forall u, e = Some (Some u) -> now < u) ->
  Forall (fun x => forall u, x = Some (Some u) -> now < u) l ->
  forall u, foldl later e l = Some (Some u) -> now < u.
Proof.
  intros He Hl. revert e He. induction Hl as [|x l Hx _ IH]; intros e He; [done|].
  apply IH. intros u Hu. destruct e as [[a|]|], x as [[b|]|]; simpl in Hu; simplify_eq; auto.
  specialize (He a eq_refl). lia.
Qed.

Lemma device_until_ahead s d now u : device_until s d now = Some (Some u) -> now < u.
Proof.
  apply foldl_later_ahead; [done|]. apply Forall_fmap, Forall_forall.
  intros a [Ho _]%list_elem_of_filter. simpl. intros u' [= Hc].
  destruct a as [|[v|]]; simpl in *; simplify_eq. by apply Z.ltb_lt.
Qed.

Lemma device_until_is_some s d now : is_some (device_until s d now) = device_open s d now.
Proof.
  rewrite (is_some_open_at _ now); [by apply device_until_open|]. intros u. apply device_until_ahead.
Qed.

(** The end the connector reports for a device is exact: as long as
    nobody changes the access, the device is let through at a later time,
    by itself or one of its groups, precisely until that end. *)
Theorem device_until_exact (s : Snapshot) (d : Device) (now t : Z) :
  now <= t ->
  (exists scope, scope ∈ device_scopes d /\ is_open (access (file_get (s_access s) scope)) t = true)
  <-> open_at t (device_until s d now) = true.
Proof.
  intros Ht. rewrite device_until_open by done. unfold device_open.
  rewrite existsb_exists. setoid_rewrite list_elem_of_In. done.
Qed.

Lemma device_until_exact_witness :
  let s := {| s_access := {| network := stored_default; f_devices := ∅;
                f_groups := {[lit "ERP" := {| access := Access_Open (Some 50); changed_by := None;
                                              changed_at := None |}]};
                f_requests := ∅ |};
              s_inventory := inventory_default |} in
  let d := {| name := lit "sql"; d_address := Address_Host (lit "sql"); ports := [];
              d_groups := [lit "ERP"] |} in
  device_until s d 10 = Some (Some 50) /\ open_at 49 (device_until s d 10) = true
  /\ ~ exists scope, scope ∈ device_scopes d
       /\ is_open (access (file_get (s_access s) scope)) 50 = true.
Proof.
  intros s d. split_and!; [vm_compute; reflexivity|vm_compute; reflexivity|].
  rewrite (device_until_exact s d 10 50) by lia. vm_compute. discriminate.
Defined.

(** ** What is stored stays consistent with the list *)

Definition read_access (w : World) : option AccessFile :=
  read_content access_default (access_json w).
Definition read_inventory (w : World) : option Inventory :=
  read_content inventory_default (inventory_json w).

(** Access is stored only for what is on the list, and a stored request is open. *)
Record consistent (f : AccessFile) (i : Inventory) : Prop := {
  con_devices : forall n, is_Some (f_devices f !! n) -> n ∈ name <$> devices i;
  con_groups : forall n, is_Some (f_groups f !! n) -> n ∈ groups i;
  con_requests : forall j g, f_requests f !! j = Some g -> access (stored g) <> Access_Closed
}.

Section world_invariant.
Context `{Lowercase, UuidText}.

Definition world_ok (w : World) : Prop :=
  (forall i, read_inventory w = Some i -> inventory_ok i)
  /\ (forall f i, read_access w = Some f -> read_inventory w = Some i -> consistent f i).

Lemma device_is_Some i n : is_some (device i n) = true <-> n ∈ name <$> devices i.
Proof.
  destruct (device i n) eqn:Hd; simpl.
  - split; [|done]. intros _. apply dec_stable. intros Hn. apply device_None in Hn. congruence.
  - apply device_None in Hd. naive_solver.
Qed.

Lemma file_set_consistent f i scope s :
  consistent f i -> known i f scope = true -> consistent (file_set f scope s) i.
Proof.
  intros [Hd Hg Hr] Hk. destruct scope as [|n|n|j]; split; simpl in *; try done.
  - intros m. rewrite lookup_insert. case_decide; subst; [|by apply Hd].
    intros _. by apply device_is_Some.
  - intros m. rewrite lookup_insert. case_decide; subst; [|by apply Hg].
    intros _. unfold has_group in Hk. by bools.
  - intros k g. case_bool_decide as Hc.
    + rewrite lookup_delete. case_decide; [done|]. by apply Hr.
    + rewrite lookup_alter. case_decide; [|by apply Hr]. subst.
      intros (g' & Hg' & ->)%fmap_Some. done.
Qed.

Lemma consistent_weaken f i i' :
  consistent f i -> (forall n, n ∈ name <$> devices i -> n ∈ name <$> devices i') ->
  groups i ⊆ groups i' -> consistent f i'.
Proof. intros [Hd Hg Hr] Hn Hgs. split; [auto|set_solver|done]. Qed.

(** What [load_access] and [load_inventory] find, on every branch. *)
Lemma load_access_run w :
  load_access w = match read_access w with Some f => (Ok f, w) | None => (Err ChangeError_Io, w) end.
Proof. done. Qed.

Lemma load_inventory_run w :
  load_inventory w
  = match read_inventory w with Some i => (Ok i, w) | None => (Err ChangeError_Io, w) end.
Proof. done. Qed.

Lemma change_run now scope a by_ w :
  change now scope a by_ w
  = match read_inventory w, read_access w with
    | Some i, Some f =>
        if known i f scope then
          if access_writable w then
            (Ok tt, log (change_event scope (rounded a) by_)
               (put_access (file_set f scope
                  {| access := rounded a; changed_by := Some by_;
                     changed_at := Some (seconds now) |}) w))
          else (Err ChangeError_Io, w)
        else (Err (ChangeError_Inventory (Unknown (scope_name scope))), w)
    | _, _ => (Err ChangeError_Io, w)
    end.
Proof.
  unfold change, bindM. rewrite load_inventory_run. destruct (read_inventory w) as [i|]; [|done].
  rewrite load_access_run. destruct (read_access w) as [f|]; [|done].
  destruct (known i f scope); simpl; [|done]. unfold save_access, bindM.
  by destruct (access_writable w).
Qed.

Lemma approve_run now r until by_ w :
  approve now r until by_ w
  = match read_access w with
    | Some f =>
        if access_writable w then
          (Ok tt, log (RequestApproved by_ (id r) (requester r) (reason r)
                         (targets_text (targets r)) (seconds until))
             (put_access
               {| network := network f; f_devices := f_devices f; f_groups := f_groups f;
                  f_requests :=
                    <[id r := {| g_requester := requester r; g_reason := reason r;
                                 g_targets := targets r;
                                 stored := {| access := Access_Open (Some (seconds until));
                                              changed_by := Some by_;
                                              changed_at := Some (seconds now) |} |}]>
                      (f_requests f) |} w))
        else (Err ChangeError_Io, w)
    | None => (Err ChangeError_Io, w)
    end.
Proof.
  unfold approve, bindM. rewrite load_access_run. destruct (read_access w) as [f|]; [|done].
  unfold save_access. by destruct (access_writable w).
Qed.

Lemma world_ok_log e w : world_ok w -> world_ok (log e w).
Proof. done. Qed.

Lemma world_ok_put_access f w :
  world_ok w -> (forall i, read_inventory w = Some i -> consistent f i) -> world_ok (put_access f w).
Proof. intros [Hi _] Hf. split; [done|]. intros f' i [= <-]. apply Hf. Qed.

Lemma world_ok_put_inventory i w :
  inventory_ok i -> (forall f, read_access w = Some f -> consistent f i) ->
  world_ok (put_inventory i w).
Proof. intros Hi Hf. split; [by intros ? [= <-]|]. intros f i' Hr [= <-]. by apply Hf. Qed.

Lemma change_ok now scope a by_ w : world_ok w -> world_ok (change now scope a by_ w).2.
Proof.
  intros Hw. rewrite change_run. destruct (read_inventory w) as [i|] eqn:Hi; [|done].
  destruct (read_access w) as [f|] eqn:Hf; [|done]. destruct (known i f scope) eqn:Hk; [|done].
  destruct (access_writable w); [|done]. simpl.
  apply world_ok_log, world_ok_put_access; [done|]. intros i' Hi'.
  rewrite Hi in Hi'. simplify_eq. apply file_set_consistent; [|done]. by apply Hw.
Qed.

Lemma approve_ok now r until by_ w : world_ok w -> world_ok (approve now r until by_ w).2.
Proof.
  intros Hw. rewrite approve_run. destruct (read_access w) as [f|] eqn:Hf; [|done].
  destruct (access_writable w); [|done]. simpl.
  apply world_ok_log, world_ok_put_access; [done|]. intros i Hi.
  destruct (proj2 Hw f i Hf Hi) as [Hd Hg Hr]. split; simpl; [done|done|].
  intros j g. rewrite lookup_insert. case_decide; [by intros [= <-]|apply Hr].
Qed.

Lemma fmap_name_leave_group n (l : list Device) : name <$> (leave_group n <$> l) = name <$> l.
Proof. by rewrite <- list_fmap_compose. Qed.

Lemma add_device_names i d i' :
  add_device i d = Ok i' -> groups i' = groups i /\ name <$> devices i' ≡ₚ (name <$> devices i) ++ [name d].
Proof.
  unfold add_device. repeat (case_match; try done). intros [= <-]. simpl. split; [done|].
  by rewrite sort_by_key_perm, fmap_app.
Qed.

Lemma access_add_device_run d by_ w :
  access_add_device d by_ w
  = match read_inventory w with
    | None => (Err ChangeError_Io, w)
    | Some i =>
        match add_device i d with
        | Err e => (Err (ChangeError_Inventory e), w)
        | Ok i' =>
            if inventory_writable w then
              (Ok tt, log (DeviceAdded by_ (name d) (address_text (d_address d))
                             (ports_text (ports d)) (d_groups d)) (put_inventory i' w))
            else (Err ChangeError_Io, w)
        end
    end.
Proof.
  unfold access_add_device, bindM. rewrite load_inventory_run.
  destruct (read_inventory w) as [i|]; [|done].
  destruct (add_device i d); simpl; [|done]. unfold save_inventory. by destruct (inventory_writable w).
Qed.

Lemma access_add_device_ok d by_ w : world_ok w -> world_ok (access_add_device d by_ w).2.
Proof.
  intros Hw. pose proof Hw as [Hi Hc]. rewrite access_add_device_run.
  destruct (read_inventory w) as [i|] eqn:Hr; [|done].
  destruct (add_device i d) as [i'|] eqn:Ha; [|done]. destruct (inventory_writable w); [|done].
  simpl. apply world_ok_log, world_ok_put_inventory; [by eapply add_device_ok; [apply Hi|]|].
  intros f Hf. destruct (add_device_names _ _ _ Ha) as [Hg Hn].
  eapply consistent_weaken; [by apply Hc| |by rewrite Hg].
  intros n. rewrite Hn. set_solver.
Qed.

Lemma remove_device_facts i n d i' :
  NoDup (name <$> devices i) -> remove_device i n = Ok (d, i') ->
  groups i' = groups i /\ forall m, m ∈ name <$> devices i' <-> m ∈ name <$> devices i /\ m <> n.
Proof.
  intros Hnd. unfold remove_device. destruct (list_find _ _) as [[k d']|] eqn:Hf; [|done].
  intros [= <- <-]. simpl. split; [done|]. apply list_find_Some in Hf as (Hk & <- & _).
  apply delete_Permutation in Hk. set (rest := delete k (devices i)) in *. clearbody rest.
  rewrite Hk, fmap_cons in Hnd. apply NoDup_cons in Hnd as [Hni _].
  intros m. rewrite Hk, fmap_cons, elem_of_cons. split; [intros Hm|naive_solver].
  split; [by right|]. by intros ->.
Qed.

Lemma access_remove_device_ok n by_ w : world_ok w -> world_ok (access_remove_device n by_ w).2.
Proof.
  intros Hw. pose proof Hw as [Hi Hc]. unfold access_remove_device, bindM. rewrite load_inventory_run.
  destruct (read_inventory w) as [i|] eqn:Hr; [|done].
  destruct (remove_device i n) as [[d i']|] eqn:Hd; simpl; [|done].
  rewrite load_access_run. destruct (read_access w) as [f|] eqn:Hf; [|done].
  unfold save_access. destruct (access_writable w); [|done].
  destruct (Hc f i eq_refl eq_refl) as [Hcd Hcg Hcr].
  set (f' := {| network := _ |}).
  assert (Hc' : consistent f' i).
  { split; simpl; [|done|done]. intros m. rewrite lookup_delete. case_decide; [by intros []|].
    apply Hcd. }
  assert (Hok : world_ok (put_access f' w))
    by (apply world_ok_put_access; [done|]; intros ? ?; congruence).
  unfold save_inventory. simpl. destruct (inventory_writable w); [|done]. simpl.
  destruct (remove_device_facts i n d i' (ok_names _ (Hi i eq_refl)) Hd) as [Hg Hn].
  apply world_ok_log, world_ok_put_inventory; [by eapply remove_device_ok; [apply Hi|]|].
  intros f'' [= <-]. split; simpl; [|by rewrite Hg|done].
  intros m. rewrite lookup_delete. case_decide; [by intros []|]. intros Hm.
  apply Hn. split; [by apply Hcd|done].
Qed.

Lemma add_group_facts i n i' :
  add_group i n = Ok i' -> devices i' = devices i /\ groups i' ≡ₚ groups i ++ [n].
Proof.
  unfold add_group. destruct (has_group i n); [done|]. intros [= <-]. simpl.
  split; [done|]. apply sort_by_key_perm.
Qed.

Lemma access_add_group_ok n by_ w : world_ok w -> world_ok (access_add_group n by_ w).2.
Proof.
  intros Hw. pose proof Hw as [Hi Hc]. unfold access_add_group, bindM.
  destruct (valid_name n) as [m|]; simpl; [|done]. rewrite load_inventory_run.
  destruct (read_inventory w) as [i|] eqn:Hr; [|done].
  destruct (add_group i m) as [i'|] eqn:Ha; simpl; [|done].
  unfold save_inventory. destruct (inventory_writable w); [|done]. simpl.
  apply world_ok_log, world_ok_put_inventory; [by eapply add_group_ok; [apply Hi|]|].
  intros f Hf. destruct (add_group_facts _ _ _ Ha) as [Hd Hg].
  eapply consistent_weaken; [by apply Hc|by rewrite Hd|]. intros g. rewrite Hg. set_solver.
Qed.

Lemma access_remove_group_ok n by_ w : world_ok w -> world_ok (access_remove_group n by_ w).2.
Proof.
  intros Hw. pose proof Hw as [Hi Hc]. unfold access_remove_group, bindM. rewrite load_inventory_run.
  destruct (read_inventory w) as [i|] eqn:Hr; [|done].
  destruct (remove_group i n) as [i'|] eqn:Hd; simpl; [|done].
  rewrite load_access_run. destruct (read_access w) as [f|] eqn:Hf; [|done].
  unfold save_access. destruct (access_writable w); [|done].
  destruct (Hc f i eq_refl eq_refl) as [Hcd Hcg Hcr]. set (f' := {| network := _ |}).
  assert (Hc' : consistent f' i).
  { split; simpl; [done| |done]. intros m. rewrite lookup_delete. case_decide; [by intros []|].
    apply Hcg. }
  assert (Hok : world_ok (put_access f' w))
    by (apply world_ok_put_access; [done|]; intros ? ?; congruence).
  unfold save_inventory. simpl. destruct (inventory_writable w); [|done]. simpl.
  apply world_ok_log, world_ok_put_inventory; [by eapply remove_group_ok; [apply Hi|]|].
  intros f'' [= <-]. unfold remove_group in Hd. destruct (has_group i n); [|done]. simplify_eq.
  split; simpl; [|intros m|done].
  - by rewrite fmap_name_leave_group.
  - rewrite lookup_delete. case_decide; [by intros []|]. intros Hm. apply list_elem_of_filter.
    split; [done|]. by apply Hcg.
Qed.

(** Everything that changes the files, and the disk letting writes through or
    not. *)
Inductive world_step : World -> World -> Prop :=
| step_change now scope a by_ w : world_step w (change now scope a by_ w).2
| step_approve now r until by_ w : world_step w (approve now r until by_ w).2
| step_refuse r by_ w : world_step w (refuse r by_ w).2
| step_received r w : world_step w (received r w).2
| step_access_add_device d by_ w : world_step w (access_add_device d by_ w).2
| step_access_remove_device n by_ w : world_step w (access_remove_device n by_ w).2
| step_access_add_group n by_ w : world_step w (access_add_group n by_ w).2
| step_access_remove_group n by_ w : world_step w (access_remove_group n by_ w).2
| step_disk aw iw w :
    world_step w {| access_json := access_json w; inventory_json := inventory_json w;
                    access_writable := aw; inventory_writable := iw; journal := journal w |}
| step_log e w : world_step w (log e w).

Definition empty_world : World :=
  {| access_json := Missing; inventory_json := Missing; access_writable := true;
     inventory_writable := true; journal := [] |}.

Lemma world_step_ok w w' : world_ok w -> world_step w w' -> world_ok w'.
Proof.
  intros Hw Hs. inversion Hs; subst; eauto using change_ok, approve_ok, access_add_device_ok,
    access_remove_device_ok, access_add_group_ok, access_remove_group_ok, world_ok_log.
Qed.

Lemma world_reachable_ok w : rtc world_step empty_world w -> world_ok w.
Proof.
  intros Hr. eapply (rtc_closed world_step world_ok); [exact world_step_ok|exact Hr|].
  split; simpl.
  - intros i [= <-]. split; simpl; repeat constructor.
  - intros f i [= <-] [= <-]. split; simpl; intros n; [by intros []..|].
    intros g. by rewrite lookup_empty.
Qed.

(** Whatever is changed, approved, added or removed, in whatever order and
    however often the disk refuses to write, access is stored only for
    devices and groups on the list and for requests that are open, and the
    list itself stays well-formed. *)
Theorem stored_access_consistent (w : World) (f : AccessFile) (i : Inventory) :
  rtc world_step empty_world w -> read_access w = Some f -> read_inventory w = Some i ->
  inventory_ok i /\ consistent f i.
Proof. intros [Hi Hc]%world_reachable_ok Hf Hr. split; [by apply Hi|by apply Hc]. Qed.

(** A device that is added to the list is closed, also when one of the
    same name was open and removed before; so is a group. *)
Theorem added_is_closed (w w' : World) (f : AccessFile) (by_ : Changer) :
  rtc world_step empty_world w -> read_access w = Some f ->
  (forall d, access_add_device d by_ w = (Ok tt, w') ->
     read_access w' = Some f /\ file_get f (Scope_Device (name d)) = stored_default)
  /\ (forall n m, valid_name n = Ok m -> access_add_group n by_ w = (Ok tt, w') ->
     read_access w' = Some f /\ file_get f (Scope_Group m) = stored_default).
Proof.
  intros [Hi Hc]%world_reachable_ok Hf. split.
  - intros d. rewrite access_add_device_run. destruct (read_inventory w) as [i|] eqn:Hr; [|done].
    destruct (add_device i d) as [i'|] eqn:Ha; [|done]. destruct (inventory_writable w); [|done].
    intros [= <-]. split; [done|]. unfold file_get. simpl.
    destruct (f_devices f !! name d) as [st|] eqn:Hl; [|done]. exfalso.
    assert (Hin : name d ∈ name <$> devices i) by (apply (con_devices f i); [by apply Hc|by eexists]).
    apply device_is_Some in Hin. unfold add_device in Ha. by rewrite Hin in Ha.
  - intros n m Hm. unfold access_add_group, bindM. rewrite Hm. simpl. rewrite load_inventory_run.
    destruct (read_inventory w) as [i|] eqn:Hr; [|done].
    destruct (add_group i m) as [i'|] eqn:Ha; simpl; [|done].
    unfold save_inventory. destruct (inventory_writable w); [|done].
    intros [= <-]. split; [done|]. unfold file_get. simpl.
    destruct (f_groups f !! m) as [st|] eqn:Hl; [|done]. exfalso.
    assert (Hin : m ∈ groups i) by (apply (con_groups f i); [by apply Hc|by eexists]).
    unfold add_group, has_group in Ha. by rewrite bool_decide_true in Ha.
Qed.

Lemma known_lookup f i scope :
  consistent f i -> is_Some (file_lookup f scope) -> known i f scope = true.
Proof.
  intros [Hd Hg _] Hs. destruct scope as [|n|n|j]; simpl in *.
  - done.
  - by apply device_is_Some, Hd.
  - unfold has_group. apply bool_decide_eq_true. by apply Hg.
  - apply is_some_true. by apply fmap_is_Some in Hs.
Qed.

Lemma file_lookup_set f i scope s other :
  known i f scope = true ->
  file_lookup (file_set f scope s) other
  = if decide (other = scope)
    then match scope with
         | Scope_Request _ => if bool_decide (access s = Access_Closed) then None else Some s
         | _ => Some s
         end
    else file_lookup f other.
Proof.
  intros Hk. destruct scope as [|n|n|j], other as [|m|m|k]; simpl; try done;
    rewrite ?lookup_insert; try (repeat case_decide; congruence).
  simpl in Hk. apply is_some_true in Hk as [g Hg]. case_bool_decide.
  - rewrite lookup_delete. repeat case_decide; simplify_eq; try done. 
  - rewrite lookup_alter. repeat case_decide; simplify_eq; try done. by rewrite Hg.
Qed.

(** A change of the access either stores exactly the new access of its
    scope, in whole seconds, leaving every other scope and the list alone and
    recording it once in the journal, or fails and changes nothing; it fails
    for a device, group or request that does not exist. *)
Theorem change_exact (now : Z) (scope : Scope) (a : Access) (by_ : Changer) (w : World) :
  match change now scope a by_ w with
  | (Ok tt, w') =>
      exists f f' i,
        read_access w = Some f /\ read_access w' = Some f'
        /\ read_inventory w = Some i /\ read_inventory w' = Some i
        /\ known i f scope = true
        /\ access (file_get f' scope) = rounded a
        /\ (forall other, other <> scope -> file_lookup f' other = file_lookup f other)
        /\ journal w' = journal w ++ [change_event scope (rounded a) by_]
  | (Err e, w') =>
      w' = w /\ (e = ChangeError_Io
                 \/ exists f i, read_access w = Some f /\ read_inventory w = Some i
                    /\ known i f scope = false)
  end.
Proof.
  rewrite change_run. destruct (read_inventory w) as [i|] eqn:Hi; [|auto].
  destruct (read_access w) as [f|] eqn:Hf; [|auto].
  destruct (known i f scope) eqn:Hk; [|eauto 10]. destruct (access_writable w); [|auto].
  eexists f, _, i. split_and!; [done|reflexivity|done|done|done|..].
  - unfold file_get. erewrite file_lookup_set by exact Hk. rewrite decide_True by done.
    destruct scope; simpl; try done. by case_bool_decide.
  - intros other Hne. erewrite file_lookup_set by exact Hk. by rewrite decide_False.
  - done.
Qed.

(** *** Following the files *)

Lemma elem_of_btree {V} (m : gmap (list Z) V) k v : (k, v) ∈ btree m <-> m !! k = Some v.
Proof. unfold btree. by rewrite sort_by_key_perm, elem_of_map_to_list. Qed.

Lemma elem_of_btree_uuid {V} (m : gmap Uuid V) k v : (k, v) ∈ btree_uuid m <-> m !! k = Some v.
Proof. unfold btree_uuid. by rewrite sort_by_key_perm, elem_of_map_to_list. Qed.

Lemma elem_of_file_all f scope s : (scope, s) ∈ file_all f <-> file_lookup f scope = Some s.
Proof.
  unfold file_all. rewrite elem_of_cons, !elem_of_app, !list_elem_of_fmap. split.
  - intros [[= -> ->]|[([n st] & [= -> ->] & Hin)|[([n st] & [= -> ->] & Hin)|([j g] & [= -> ->] & Hin)]]];
      simpl; [done|by apply elem_of_btree..|].
    apply elem_of_btree_uuid in Hin. by rewrite Hin.
  - destruct scope as [|n|n|i]; simpl; intros Hl.
    + left. congruence.
    + right; left. exists (n, s). by rewrite elem_of_btree.
    + right; right; left. exists (n, s). by rewrite elem_of_btree.
    + right; right; right. apply fmap_Some in Hl as (g & Hg & ->). exists (i, g).
      by rewrite elem_of_btree_uuid.
Qed.

Lemma NoDup_file_all f : NoDup (fst <$> file_all f).
Proof.
  assert (Hs : forall V (m : gmap (list Z) V), NoDup (fst <$> btree m)).
  { intros. unfold btree. rewrite sort_by_key_perm. apply NoDup_fst_map_to_list. }
  assert (Hu : forall V (m : gmap Uuid V), NoDup (fst <$> btree_uuid m)).
  { intros. unfold btree_uuid. rewrite sort_by_key_perm. apply NoDup_fst_map_to_list. }
  unfold file_all. rewrite fmap_cons, !fmap_app, <- !list_fmap_compose.
  assert (Hd : fst ∘ (fun '(n, s) => (Scope_Device n, s)) <$> btree (f_devices f)
               = Scope_Device <$> (fst <$> btree (f_devices f))).
  { rewrite <- list_fmap_compose. apply list_fmap_ext. by intros ? []. }
  assert (Hg : fst ∘ (fun '(n, s) => (Scope_Group n, s)) <$> btree (f_groups f)
               = Scope_Group <$> (fst <$> btree (f_groups f))).
  { rewrite <- list_fmap_compose. apply list_fmap_ext. by intros ? []. }
  assert (Hr : fst ∘ (fun '(i, g) => (Scope_Request i, stored g)) <$> btree_uuid (f_requests f)
               = Scope_Request <$> (fst <$> btree_uuid (f_requests f))).
  { rewrite <- list_fmap_compose. apply list_fmap_ext. by intros ? []. }
  rewrite Hd, Hg, Hr. apply NoDup_cons. split; [set_solver|].
  apply NoDup_app. split_and!; [apply NoDup_fmap_2; [by intros ? ? [=]|done]|set_solver|].
  apply NoDup_app. split_and!; [apply NoDup_fmap_2; [by intros ? ? [=]|done]|set_solver|].
  apply NoDup_fmap_2; [by intros ? ? [=]|done].
Qed.

Lemma elem_of_ran_out s now scope :
  scope ∈ ran_out s now <->
  exists st, file_lookup (s_access s) scope = Some st
    /\ is_some (closes_at (access st)) = true /\ is_open (access st) now = false.
Proof.
  unfold ran_out. rewrite list_elem_of_fmap. split.
  - intros ([sc st] & -> & [[Hc Ho] Hin]%list_elem_of_filter). apply elem_of_file_all in Hin. eauto.
  - intros (st & Hl & Hc & Ho). exists (scope, st). split; [done|]. apply list_elem_of_filter.
    split; [done|]. by apply elem_of_file_all.
Qed.

Lemma NoDup_ran_out s now : NoDup (ran_out s now).
Proof.
  eapply sublist_NoDup; [apply (NoDup_file_all (s_access s))|].
  apply fmap_sublist, sublist_filter.
Qed.

(** The gate has taken over the files. *)
Definition in_sync (g : Gate) (f : AccessFile) (i : Inventory) : Prop :=
  read_access (world g) = Some f /\ read_inventory (world g) = Some i
  /\ state g = {| s_access := f; s_inventory := i |}.

Lemma reload_sync g f i :
  read_access (world g) = Some f -> read_inventory (world g) = Some i ->
  in_sync (reload g) f i /\ world (reload g) = world g.
Proof.
  intros Hf Hi. unfold reload, load, bindM. rewrite load_access_run, Hf, load_inventory_run, Hi.
  by split.
Qed.

Definition closed_stored (now : Z) : Stored :=
  {| access := Access_Closed; changed_by := Some Changer_Expiry; changed_at := Some (seconds now) |}.

Lemma gate_set_expired now scope g f i :
  in_sync g f i -> known i f scope = true -> access_writable (world g) = true ->
  let g' := (gate_set now scope Access_Closed Changer_Expiry g).2 in
  in_sync g' (file_set f scope (closed_stored now)) i
  /\ access_writable (world g') = true
  /\ journal (world g') = journal (world g) ++ [Expired scope].
Proof.
  intros (Hf & Hi & _) Hk Hw. unfold gate_set. rewrite change_run, Hi, Hf, Hk, Hw. simpl.
  set (w' := log _ _).
  destruct (reload_sync {| world := w'; state := state g |}
    (file_set f scope (closed_stored now)) i) as [Hs Hw']; [done|done|].
  rewrite Hw'. done.
Qed.

(** Closing a list of scopes, one after the other. *)
Lemma close_all now l g f i :
  in_sync g f i -> consistent f i -> access_writable (world g) = true -> NoDup l ->
  Forall (fun scope => is_Some (file_lookup f scope)) l ->
  let g' := foldl (fun g scope => (gate_set now scope Access_Closed Changer_Expiry g).2) g l in
  exists f', in_sync g' f' i /\ journal (world g') = journal (world g) ++ (Expired <$> l)
    /\ forall scope, if decide (scope ∈ l) then access (file_get f' scope) = Access_Closed
                     else file_lookup f' scope = file_lookup f scope.
Proof.
  revert g f. induction l as [|scope l IH]; intros g f Hs Hc Hw Hnd Hl; cbn [foldl].
  { exists f. rewrite fmap_nil, app_nil_r. split_and!; [done|done|]. intros scope.
    by rewrite decide_False by set_solver. }
  apply NoDup_cons in Hnd as [Hni Hnd]. apply Forall_cons in Hl as [Hsc Hl].
  pose proof (known_lookup f i scope Hc Hsc) as Hk.
  destruct (gate_set_expired now scope g f i Hs Hk Hw) as (Hs' & Hw' & Hj).
  destruct (IH _ _ Hs' (file_set_consistent _ _ _ _ Hc Hk) Hw' Hnd) as (f' & Hsync & Hj' & Hget).
  { rewrite Forall_forall in *. intros x Hx. specialize (Hl x Hx).
    erewrite file_lookup_set by exact Hk. rewrite decide_False; [done|]. by intros ->. }
  exists f'. split_and!; [done|by rewrite Hj', Hj, <- app_assoc|].
  intros sc. specialize (Hget sc). destruct (decide (sc ∈ l)).
  { by rewrite decide_True by set_solver. }
  erewrite file_lookup_set in Hget by exact Hk. destruct (decide (sc = scope)) as [->|Hne].
  - rewrite decide_True by set_solver. unfold file_get. rewrite Hget. by destruct scope.
  - by rewrite decide_False by set_solver.
Qed.

(** Once a second the running connector takes over the files and closes
    what ran out: afterwards it decides by what the files hold, nothing whose
    time ran out is left, everything still open is untouched now and later,
    and the journal has one entry for each scope that closed. *)
Theorem follow_closes_what_ran_out (now : Z) (g : Gate) (f : AccessFile) (i : Inventory) :
  rtc world_step empty_world (world g) -> access_writable (world g) = true ->
  read_access (world g) = Some f -> read_inventory (world g) = Some i ->
  let g' := follow now g in
  exists f', in_sync g' f' i
    /\ ran_out (state g') now = []
    /\ (forall scope t, now <= t ->
          is_open (access (file_get f' scope)) t = is_open (access (file_get f scope)) t)
    /\ journal (world g') = journal (world g)
         ++ (Expired <$> ran_out {| s_access := f; s_inventory := i |} now).
Proof.
  intros [_ Hc]%world_reachable_ok Hw Hf Hi. specialize (Hc f i Hf Hi).
  destruct (reload_sync g f i Hf Hi) as [Hs Hworld]. pose proof Hs as (_ & _ & Hst).
  unfold follow. set (l := ran_out (state (reload g)) now).
  destruct (close_all now l (reload g) f i Hs Hc) as (f' & Hsync & Hj & Hget).
  { by rewrite Hworld. }
  { apply NoDup_ran_out. }
  { apply Forall_forall. intros sc Hsc. apply elem_of_ran_out in Hsc as (st & Hl & _).
    rewrite Hst in Hl. by exists st. }
  exists f'. split_and!; [done| | |by rewrite Hj, Hworld; subst l; rewrite Hst].
  - destruct Hsync as (_ & _ & ->). apply elem_of_nil_inv. intros sc Hsc.
    pose proof Hsc as (st & Hl & Hcl & Ho)%elem_of_ran_out. simpl in Hl. specialize (Hget sc).
    destruct (decide (sc ∈ l)) as [|Hni].
    + unfold file_get in Hget. rewrite Hl in Hget. simpl in Hget. by rewrite Hget in Hcl.
    + apply Hni, elem_of_ran_out. rewrite Hst. exists st. rewrite Hget in Hl. done.
  - intros sc t Ht. specialize (Hget sc). destruct (decide (sc ∈ l)) as [Hin|].
    + rewrite Hget. apply elem_of_ran_out in Hin as (st & Hl & _ & Ho). rewrite Hst in Hl.
      simpl in Hl. unfold file_get. rewrite Hl. simpl. destruct (is_open (access st) t) eqn:E; [|done].
      by rewrite (is_open_mono _ now t) in Ho.
    + unfold file_get. by rewrite Hget.
Qed.

End world_invariant.

(** *** Witnesses *)

Module AccessExamples.

#[local] Instance ascii_lowercase : Lowercase := fun s => to_ascii_lowercase <$> s.
#[local] Instance short_uuid : UuidText := decimal.

Definition sql : Device :=
  {| name := lit "sql"; d_address := Address_Host (lit "sql");
     ports := [{| first := 1433; last := 1433 |}]; d_groups := [] |}.

Definition with_sql : World := (access_add_device sql Changer_CommandLine empty_world).2.

(** The device is on the list and open until second 60. *)
Definition sql_open : World :=
  (change 0 (Scope_Device (lit "sql")) (Access_Open (Some 60000000000)) (Changer_Web (lit "bob"))
     with_sql).2.

Definition sql_file : AccessFile :=
  {| network := stored_default;
     f_devices := {[lit "sql" := {| access := Access_Open (Some 60000000000);
                                    changed_by := Some (Changer_Web (lit "bob"));
                                    changed_at := Some 0 |}]};
     f_groups := ∅; f_requests := ∅ |}.

Definition sql_list : Inventory := {| devices := [sql]; groups := [] |}.

Lemma sql_open_reachable : rtc world_step empty_world sql_open.
Proof.
  eapply rtc_l; [apply (step_access_add_device sql Changer_CommandLine)|].
  eapply rtc_l; [apply (step_change 0 (Scope_Device (lit "sql")) (Access_Open (Some 60000000000))
    (Changer_Web (lit "bob")))|]. apply rtc_refl.
Qed.

Lemma stored_access_consistent_witness : inventory_ok sql_list /\ consistent sql_file sql_list.
Proof.
  apply (stored_access_consistent sql_open); [exact sql_open_reachable|vm_compute; reflexivity..].
Defined.

(** Removed and added again, the device is closed. *)
Lemma added_is_closed_witness :
  let w := (access_remove_device (lit "sql") Changer_CommandLine sql_open).2 in
  file_get access_default (Scope_Device (name sql)) = stored_default.
Proof.
  intros w.
  destruct (added_is_closed w (access_add_device sql Changer_CommandLine w).2 access_default
    Changer_CommandLine) as [H _].
  - eapply rtc_r; [exact sql_open_reachable|].
    apply (step_access_remove_device (lit "sql") Changer_CommandLine).
  - vm_compute. reflexivity.
  - apply (H sql). vm_compute. reflexivity.
Defined.

Lemma follow_closes_what_ran_out_witness :
  let g := {| world := sql_open; state := {| s_access := access_default;
                                             s_inventory := inventory_default |} |} in
  exists f', in_sync (follow 60000000000 g) f' sql_list
    /\ ran_out (state (follow 60000000000 g)) 60000000000 = []
    /\ journal (world (follow 60000000000 g))
       = journal sql_open ++ [Expired (Scope_Device (lit "sql"))].
Proof.
  intros g.
  destruct (follow_closes_what_ran_out 60000000000 g sql_file sql_list) as (f' & Hs & Hr & _ & Hj);
    [exact sql_open_reachable|vm_compute; reflexivity..|].
  exists f'. split_and!; [exact Hs|exact Hr|]. rewrite Hj. vm_compute. reflexivity.
Defined.

End AccessExamples.
