(* ===== verification/Agent.v ===== *)
(** * The connector's agent (crates/connector/src/agent.rs)

    What the connector does with remotehub's requests for a connection: it
    resolves the target, keeps to the allowed address ranges and to what the
    customer has open, and ends connections when their target closes. Name
    resolution and TCP belong to the operating system: they are parameters. *)
From S2P Require Import Prelude Text Utf8 Ip Network Inventory Requests Access.

Record SocketAddr := { sa_ip : IpAddr; sa_port : Z }.

#[export] Instance socket_addr_eq_dec : EqDecision SocketAddr.
Proof. solve_decision. Defined.

(** The customer's network: [resolve] gives the addresses of a host name (none
    if the lookup fails or times out), [lookup_host] those of [host:port], and
    [tcp_connect] the first of the addresses that answers. *)
Class Net := {
  resolve : list Z -> list IpAddr;
  lookup_host : list Z -> result (list SocketAddr) (list Z);
  tcp_connect : list SocketAddr -> result SocketAddr (list Z)
}.

(** [Rfc3339] of the crate [time]; a year beyond 9999 has no text. *)
Class Rfc3339 := rfc3339 : Z -> option (list Z).

(** ** What is let through *)

Section open_until.
Context `{Net}.

Definition resolved_of (a : Address) : list IpAddr :=
  match a with
  | Address_Host name => resolve name
  | Address_Range _ => []
  end.

Definition open_until (s : Snapshot) (now : Z) (host : str) (ip : IpAddr) (port : Z) :
    option (option Z) :=
  let until := network_until s now in
  let until :=
    foldl (fun until d =>
      if negb (existsb (fun p => ports_contains p port) (ports d)) then until
      else if covers (d_address d) host ip (resolved_of (d_address d))
      then later until (device_until s d now)
      else until) until (open_devices s now) in
  foldl (fun until ig =>
    foldl (fun until d =>
      if covers (d_address d) host ip (resolved_of (d_address d))
      then later until (Some (closes_at (access (stored ig.2))))
      else until) until
      (filter (fun d => is_some_and (fun p => ports_contains p port) (head (ports d)) = true)
         (grant_devices ig.2)))
    until (open_requests s now).

Definition permitted (s : Snapshot) (now : Z) (host : str) (ip : IpAddr) (port : Z) : bool :=
  is_some (open_until s now host ip port).

End open_until.

(** ** Targets *)

Record Refusal := { r_reason : list Z; not_open : bool }.

Record Resolved := {
  v_host : list Z;
  v_port : Z;
  addresses : list SocketAddr;
  v_until : option Z
}.

Definition plain_refusal (reason : list Z) : Refusal := {| r_reason := reason; not_open := false |}.

(** [trim_matches(['[', ']'])]. *)
Definition trim_brackets (s : str) : list Z :=
  let f c := (c =? 91) || (c =? 93) in trim_end_by f (trim_start_by f s).

Definition host_and_port (target : str) : option (list Z * Z) :=
  match rsplit_once 58 target with
  | None => None
  | Some (host, port) =>
      match parse_unsigned u16_max port with
      | None => None
      | Some port => Some (trim_brackets host, port)
      end
  end.

Section targets.
Context `{Net}.

Definition allowed_by (allow : list Network) (ip : IpAddr) : bool :=
  bool_decide (allow = []) || existsb (fun n => contains n ip) allow.

(** The loop over the allowed addresses: those that are open, and the latest
    end among them. *)
Fixpoint open_addresses (s : Snapshot) (now : Z) (host : str) (port : Z) (l : list SocketAddr)
    (open : list SocketAddr) (until : option (option Z)) :
    list SocketAddr * option (option Z) :=
  match l with
  | [] => (open, until)
  | a :: l =>
      match open_until s now host (sa_ip a) port with
      | Some e => open_addresses s now host port l (open ++ [a]) (later until (Some e))
      | None => open_addresses s now host port l open until
      end
  end.

Definition resolve_target (allow : list Network) (s : Snapshot) (now : Z) (target : str) :
    result Resolved Refusal :=
  let? (host, port) :=
    ok_or (host_and_port target) (plain_refusal (lit "not host:port: " ++ target)) in
  let? addresses :=
    match lookup_host target with
    | Ok l => Ok l
    | Err e => Err (plain_refusal e)
    end in
  let allowed := filter (fun a => allowed_by allow (sa_ip a) = true) addresses in
  if bool_decide (allowed = []) then Err (plain_refusal (lit "not allowed"))
  else
    match open_addresses s now host port allowed [] None with
    | (open, Some until) =>
        Ok {| v_host := host; v_port := port; addresses := open; v_until := until |}
    | (_, None) => Err {| r_reason := lit "not opened"; not_open := true |}
    end.

Record Reached := { rc_host : list Z; rc_ip : IpAddr; rc_port : Z }.

Definition reach (allow : list Network) (s : Snapshot) (now : Z) (target : str) :
    result Reached Refusal :=
  let? r := resolve_target allow s now target in
  match tcp_connect (addresses r) with
  | Err e => Err (plain_refusal e)
  | Ok peer => Ok {| rc_host := v_host r; rc_ip := sa_ip peer; rc_port := v_port r |}
  end.

(** The answer to [Control::Check]: [Report::Checked]. *)
Definition checked `{Rfc3339} (allow : list Network) (s : Snapshot) (now : Z) (target : str) :
    bool * option (list Z) :=
  match resolve_target allow s now target with
  | Ok r => (true, v_until r ≫= rfc3339)
  | Err _ => (false, None)
  end.

End targets.

(** [REMOTEHUB_CONNECTOR_ALLOW]: address ranges separated by commas or spaces. *)
Definition parse_allow (list_ : str) : result (list Network) (list Z) :=
  collect_results
    ((fun entry => match network_from_str entry with Ok n => Ok n | Err _ => Err entry end)
       <$> filter (fun entry => entry <> [])
             (split_by (fun c => (c =? 44) || (c =? 32)) list_)).

(** ** What the connector reports *)

Definition MAX_LISTED : nat := 1000.

Record OpenGroup := { og_name : list Z; og_until : option (list Z) }.
Record OpenDevice := {
  od_name : list Z; od_address : list Z; od_ports : list Z; od_until : option (list Z)
}.

Record ReportedState := {
  st_open : bool;
  st_until : option (list Z);
  partly : bool;
  st_groups : list OpenGroup;
  st_devices : list OpenDevice;
  st_answers : list Answer
}.

Definition report_state `{Rfc3339} (s : Snapshot) (now : Z) : ReportedState :=
  let text (at_ : option Z) := at_ ≫= rfc3339 in
  let open := network_open s now in
  let approved :=
    open_requests s now ≫= fun ig =>
      (fun t => {| od_name := t_name t; od_address := host t; od_ports := decimal (port t);
                   od_until := text (closes_at (access (stored ig.2))) |}) <$> g_targets ig.2 in
  {| st_open := open;
     st_until := network_until s now ≫= text;
     partly := negb open && any_open s now;
     st_groups := (fun nu => {| og_name := nu.1; og_until := text nu.2 |})
                    <$> take MAX_LISTED (open_groups s now);
     st_devices :=
       take MAX_LISTED
         (((fun d => {| od_name := name d; od_address := address_text (d_address d);
                        od_ports := ports_text (ports d);
                        od_until := text (mjoin (device_until s d now)) |})
             <$> open_devices s now) ++ approved);
     st_answers := [] |}.

(** ** The connections *)

Record Running := {
  r_target : list Z;
  r_user : option (list Z);
  r_device : option (list Z);
  since : Z;
  reached : Reached;
  cancelled : bool
}.

Definition cancel (r : Running) : Running :=
  {| r_target := r_target r; r_user := r_user r; r_device := r_device r; since := since r;
     reached := reached r; cancelled := true |}.

(** One round of [while_open]: nothing open ends every connection (the token
    they all descend from is dropped), otherwise those no longer let through
    end. *)
Definition while_open_round `{Net} (s : Snapshot) (now : Z) (rs : gmap Uuid Running) :
    gmap Uuid Running :=
  if any_open s now
  then (fun r => let c := reached r in
                 if permitted s now (rc_host c) (rc_ip c) (rc_port c) then r else cancel r) <$> rs
  else cancel <$> rs.

(** ** Theorems *)

Section let_through.
Context `{Net}.

(** A device (or a target of an approved request) is where the connection goes. *)
Definition goes_to (host : str) (ip : IpAddr) (port : Z) (d : Device) : bool :=
  existsb (fun p => ports_contains p port) (ports d)
  && covers (d_address d) host ip (resolved_of (d_address d)).

(** The specification: at [t] the network is open, or a device of the list the
    connection goes to, or an approved request with such a target. *)
Definition let_through (s : Snapshot) (t : Z) (host : str) (ip : IpAddr) (port : Z) : Prop :=
  is_open (access (network (s_access s))) t = true
  \/ (exists d, d ∈ devices (s_inventory s) /\ goes_to host ip port d = true
        /\ device_open s d t = true)
  \/ (exists i g d, f_requests (s_access s) !! i = Some g
        /\ is_open (access (stored g)) t = true
        /\ d ∈ grant_devices g /\ goes_to host ip port d = true).

Lemma foldl_later_if {A} (c : A -> bool) (e : A -> option (option Z)) t l u :
  open_at t (foldl (fun u x => if c x then later u (e x) else u) u l) = true <->
  open_at t u = true \/ exists x, x ∈ l /\ c x = true /\ open_at t (e x) = true.
Proof.
  revert u. induction l as [|x l IH]; intros u; simpl.
  - split; [by left|]. intros [?|(x & ?%not_elem_of_nil & _)]; done.
  - rewrite IH. destruct (c x) eqn:Hc.
    + rewrite open_at_later, orb_true_iff. split.
      * intros [[Hu|Hx]|(y & Hy & Hyc)]; [by left|right; exists x; set_solver|].
        right. exists y. split; [set_solver|done].
      * intros [Hu|(y & [->|Hy]%elem_of_cons & Hyc & Ho)]; [by left; left|by left; right|].
        right. by exists y.
    + split.
      * intros [Hu|(y & Hy & Hyc)]; [by left|right; exists y; split; [set_solver|done]].
      * intros [Hu|(y & [->|Hy]%elem_of_cons & Hyc & Ho)]; [by left|congruence|].
        right. by exists y.
Qed.

Lemma foldl_ext' {A B} (f g : A -> B -> A) a l :
  (forall a b, b ∈ l -> f a b = g a b) -> foldl f a l = foldl g a l.
Proof.
  revert a. induction l as [|b l IH]; intros a Hfg; simpl; [done|].
  rewrite Hfg by set_solver. apply IH. set_solver.
Qed.

Lemma device_open_mono s d now t : now <= t -> device_open s d t = true -> device_open s d now = true.
Proof.
  intros Ht. unfold device_open. rewrite !existsb_exists. intros (sc & Hsc & Ho).
  exists sc. split; [done|]. by eapply is_open_mono.
Qed.

Lemma grant_devices_ports g d :
  d ∈ grant_devices g -> exists p, ports d = [p].
Proof.
  unfold grant_devices. intros (t & _ & Ht)%list_elem_of_omap. unfold grant_device in Ht.
  case_match; simplify_eq. by eexists.
Qed.

Lemma goes_to_grant g d host ip port :
  d ∈ grant_devices g ->
  goes_to host ip port d
  = is_some_and (fun p => ports_contains p port) (head (ports d))
    && covers (d_address d) host ip (resolved_of (d_address d)).
Proof.
  intros [p Hp]%grant_devices_ports. unfold goes_to. rewrite Hp. simpl. by rewrite orb_false_r.
Qed.

Lemma grants_foldl t host ip port l u :
  open_at t (foldl (fun until (ig : Uuid * Grant) =>
    foldl (fun until d =>
      if covers (d_address d) host ip (resolved_of (d_address d))
      then later until (Some (closes_at (access (stored ig.2))))
      else until) until
      (filter (fun d => is_some_and (fun p => ports_contains p port) (head (ports d)) = true)
         (grant_devices ig.2))) u l) = true
  <-> open_at t u = true
      \/ exists ig d, ig ∈ l /\ d ∈ grant_devices ig.2 /\ goes_to host ip port d = true
           /\ open_at t (Some (closes_at (access (stored ig.2)))) = true.
Proof.
  revert u. induction l as [|ig l IH]; intros u; cbn [foldl].
  - split; [by left|]. intros [?|(x & d & ?%not_elem_of_nil & _)]; done.
  - rewrite IH.
    rewrite (foldl_later_if (fun d => covers (d_address d) host ip (resolved_of (d_address d)))
      (fun _ => Some (closes_at (access (stored ig.2))))).
    setoid_rewrite list_elem_of_filter. setoid_rewrite elem_of_cons. split.
    + intros [[?|(d & (Hp & Hd) & Hc & Ho)]|(ig' & d & Hig & Hrest)]; [by left|right..].
      * exists ig, d. split_and!; [by left|done| |done].
        erewrite goes_to_grant by done. by rewrite Hp, Hc.
      * exists ig', d. split; [by right|done].
    + intros [?|(ig' & d & [->|?] & Hd & Hg & Ho)]; [by left; left| |].
      * left. right. erewrite goes_to_grant in Hg by done. bools. by exists d.
      * right. by exists ig', d.
Qed.

Lemma open_until_open s now t host ip port :
  now <= t -> open_at t (open_until s now host ip port) = true <-> let_through s t host ip port.
Proof.
  intros Ht. unfold open_until, let_through. rewrite grants_foldl.
  set (u := foldl _ (network_until s now) _).
  assert (Hu : open_at t u = true <->
    is_open (access (network (s_access s))) t = true
    \/ (exists d, d ∈ devices (s_inventory s) /\ goes_to host ip port d = true
        /\ device_open s d t = true)).
  { subst u. rewrite (foldl_ext' _ (fun u d => if goes_to host ip port d
      then later u (device_until s d now) else u)).
    2: { intros a d _. unfold goes_to. destruct (existsb _ (ports d)); simpl; done. }
    rewrite foldl_later_if. unfold network_until. rewrite open_at_closes by done.
    apply or_iff_compat_l. split.
    - intros (d & [_ Hd]%list_elem_of_filter & Hg & Ho). exists d. split_and!; [done..|].
      by rewrite <- (device_until_open s d now).
    - intros (d & Hd & Hg & Ho). exists d. split_and!; [|done|by rewrite device_until_open].
      apply list_elem_of_filter. split; [|done]. rewrite device_until_is_some.
      by eapply device_open_mono. }
  rewrite Hu. clear Hu.
  match goal with |- _ \/ ?A <-> _ \/ _ \/ ?B => assert (A <-> B) as ->; [|tauto] end.
  unfold open_requests. split.
  - intros ([i g] & d & [Hon Hin]%list_elem_of_filter & Hd & Hg & Ho). simpl in *.
    apply elem_of_btree_uuid in Hin. exists i, g, d. split_and!; try done.
    rewrite <- (open_at_closes _ now t Ht). unfold until_of. by rewrite Hon.
  - intros (i & g & d & Hin & Ho & Hd & Hg). exists (i, g), d.
    pose proof (is_open_mono _ now t Ht Ho) as Hon. split_and!; [|done|done|].
    + apply list_elem_of_filter. split; [done|]. by apply elem_of_btree_uuid.
    + rewrite <- (open_at_closes _ now t Ht) in Ho. unfold until_of in Ho. by rewrite Hon in Ho.
Qed.

(** An end that lies behind [now]. *)
Definition ahead (now : Z) (e : option (option Z)) : Prop := forall u, e = Some (Some u) -> now < u.

Lemma later_ahead now a b : ahead now a -> ahead now b -> ahead now (later a b).
Proof.
  intros Ha Hb u. destruct a as [[a|]|], b as [[b|]|]; simpl; intros Hu; simplify_eq;
    [|by apply Ha|by apply Hb]. specialize (Ha a eq_refl). lia.
Qed.

Lemma until_ahead now a : is_open a now = true -> ahead now (Some (closes_at a)).
Proof. intros Ho u [= Hu]. destruct a as [|[v|]]; simpl in *; simplify_eq. by apply Z.ltb_lt. Qed.

Lemma foldl_preserves {A B} (P : A -> Prop) (f : A -> B -> A) a l :
  (forall a b, b ∈ l -> P a -> P (f a b)) -> P a -> P (foldl f a l).
Proof.
  revert a. induction l as [|b l IH]; intros a Hf Ha; simpl; [done|].
  apply IH; [set_solver|]. apply Hf; [set_solver|done].
Qed.

Lemma open_until_ahead s now host ip port : ahead now (open_until s now host ip port).
Proof.
  unfold open_until. apply foldl_preserves.
  - intros u [i g] [Ho _]%list_elem_of_filter Hu. apply foldl_preserves; [|done].
    intros u' d _ Hu'. case_match; [|done]. apply later_ahead; [done|]. by apply until_ahead.
  - apply foldl_preserves.
    + intros u d _ Hu. repeat case_match; try done. apply later_ahead; [done|].
      intros v. apply device_until_ahead.
    + unfold network_until, until_of. case_match eqn:E; [|done]. by apply until_ahead.
Qed.

Lemma permitted_iff s now host ip port :
  permitted s now host ip port = true <-> let_through s now host ip port.
Proof.
  unfold permitted. rewrite (is_some_open_at _ now) by apply open_until_ahead.
  by apply open_until_open.
Qed.

(** A connection is let through exactly if the whole network is open, or
    a device of the customer's list it goes to, by itself or through a group,
    or an approved request with such a target; and the end that is reported
    with it is exact: without a change it would be let through at any later
    time precisely until then. *)
Theorem open_until_exact (s : Snapshot) (now t : Z) (host : str) (ip : IpAddr) (port : Z) :
  now <= t ->
  (permitted s now host ip port = true <-> let_through s now host ip port)
  /\ (open_at t (open_until s now host ip port) = true <-> let_through s t host ip port).
Proof. intros Ht. split; [apply permitted_iff|by apply open_until_open]. Qed.

(** The access of a device depends on the devices and groups alone. *)
Lemma device_open_ext f f' inv inv' d t :
  f_devices f = f_devices f' -> f_groups f = f_groups f' ->
  device_open {| s_access := f; s_inventory := inv |} d t
  = device_open {| s_access := f'; s_inventory := inv' |} d t.
Proof.
  intros Hd Hg. unfold device_open, device_scopes. cbn [existsb s_access].
  rewrite !existsb_fmap. unfold file_get, file_lookup. by rewrite Hd, Hg.
Qed.

(** Approving a request opens exactly its targets, each on its one port
    and until the end of the approval, and nothing else: whatever was let
    through before still is, and anything else that is let through goes to a
    target of the request. *)
Theorem approval_opens_exactly_its_targets (w w' : World) (f f' : AccessFile) (inv : Inventory)
    (r : CustomerRequest) (now until t : Z) (by_ : Changer) (host : str) (ip : IpAddr) (port : Z) :
  read_access w = Some f -> f_requests f !! id r = None ->
  approve now r until by_ w = (Ok tt, w') -> read_access w' = Some f' ->
  let_through {| s_access := f'; s_inventory := inv |} t host ip port <->
  let_through {| s_access := f; s_inventory := inv |} t host ip port
  \/ (t < seconds until
      /\ exists target a, target ∈ targets r /\ address_from_str (Requests.host target) = Ok a
           /\ Requests.port target = port /\ covers a host ip (resolved_of a) = true).
Proof.
  intros Hf Hnew. rewrite approve_run, Hf. destruct (access_writable w); [|done].
  intros [= <-] [= <-].
  set (g := {| g_requester := requester r; g_reason := reason r; g_targets := targets r;
               stored := {| access := Access_Open (Some (seconds until)); changed_by := Some by_;
                            changed_at := Some (seconds now) |} |}) in *.
  assert (Hg : (exists d, d ∈ grant_devices g /\ goes_to host ip port d = true) <->
    exists target a, target ∈ targets r /\ address_from_str (Requests.host target) = Ok a
      /\ Requests.port target = port /\ covers a host ip (resolved_of a) = true).
  { unfold grant_devices, goes_to. setoid_rewrite list_elem_of_omap. simpl. split.
    - intros (d & (x & Hx & Hd) & Hgo). unfold grant_device in Hd.
      destruct (address_from_str (Requests.host x)) as [a|] eqn:Ha; [|done]. simplify_eq.
      simpl in Hgo. rewrite orb_false_r in Hgo. unfold ports_contains in Hgo. simpl in Hgo. bools.
      exists x, a. split_and!; [done|done|lia|done].
    - intros (x & a & Hx & Ha & Hp & Hc). eexists. split.
      + exists x. split; [done|]. unfold grant_device. by rewrite Ha.
      + simpl. rewrite Hc, orb_false_r, andb_true_r. unfold ports_contains. simpl.
        apply andb_true_iff. rewrite !Z.leb_le. lia. }
  rewrite <- Hg. unfold let_through. cbn [s_access s_inventory network f_requests].
  setoid_rewrite lookup_insert.
  match goal with |- context [device_open {| s_access := ?x; s_inventory := _ |} _ _] =>
    setoid_rewrite (fun d => device_open_ext x f inv inv d t eq_refl eq_refl) end. split.
  - intros [Hn|[Hd|(i & g' & d & Hl & Ho & Hd & Hgo)]]; [by left; left|by left; right; left|].
    case_decide; simplify_eq.
    + right. split; [by apply Z.ltb_lt|]. by exists d.
    + left. right. right. by exists i, g', d.
  - intros [[Hn|[Hd|(i & g' & d & Hl & Ho & Hd & Hgo)]]|[Ht (d & Hd & Hgo)]];
      [by left|by right; left|right; right..].
    + exists i, g', d. rewrite decide_False by congruence. done.
    + exists (id r), g, d. rewrite decide_True by done. split_and!; [done| |done|done].
      by apply Z.ltb_lt.
Qed.

Lemma open_addresses_spec s now host port l open until :
  open_addresses s now host port l open until
  = (open ++ filter (fun a => permitted s now host (sa_ip a) port = true) l,
     foldl (fun u a => if permitted s now host (sa_ip a) port
                       then later u (open_until s now host (sa_ip a) port) else u) until l).
Proof.
  revert open until. induction l as [|a l IH]; intros open until; cbn [open_addresses foldl].
  { by rewrite app_nil_r. }
  assert (Hp : permitted s now host (sa_ip a) port
               = is_some (open_until s now host (sa_ip a) port)) by done.
  destruct (open_until s now host (sa_ip a) port) as [e|] eqn:He; rewrite IH; simpl in Hp.
  - by rewrite filter_cons_True, <- app_assoc, Hp by done.
  - by rewrite filter_cons_False, Hp by congruence.
Qed.

Lemma resolve_target_addresses allow s now target r a :
  resolve_target allow s now target = Ok r -> a ∈ addresses r ->
  allowed_by allow (sa_ip a) = true /\ let_through s now (v_host r) (sa_ip a) (v_port r).
Proof.
  unfold resolve_target. destruct (host_and_port target) as [[host port]|]; [|done].
  cbn [ok_or]. destruct (lookup_host target) as [l|]; [|done]. case_bool_decide; [done|].
  rewrite open_addresses_spec. case_match; [|done]. intros [= <-]. simpl.
  rewrite !list_elem_of_filter, permitted_iff. tauto.
Qed.

(** The connector connects only to addresses the target resolves to, that
    the allowed ranges cover and that the customer has open at that moment;
    it refuses with [not_open] exactly when allowed addresses exist and none
    of them is open. The end it reports is the latest of theirs. *)
Theorem resolve_target_sound (allow : list Network) (s : Snapshot) (now : Z) (target : str) :
  match resolve_target allow s now target with
  | Ok r =>
      addresses r <> [] /\ host_and_port target = Some (v_host r, v_port r)
      /\ (forall a, a ∈ addresses r <->
            (exists l, lookup_host target = Ok l /\ a ∈ l) /\ allowed_by allow (sa_ip a) = true
            /\ let_through s now (v_host r) (sa_ip a) (v_port r))
      /\ (forall t, now <= t -> open_at t (Some (v_until r)) = true <->
            exists a, a ∈ addresses r /\ let_through s t (v_host r) (sa_ip a) (v_port r))
  | Err e =>
      not_open e = true ->
      exists host port l, host_and_port target = Some (host, port) /\ lookup_host target = Ok l
        /\ (exists a, a ∈ l /\ allowed_by allow (sa_ip a) = true)
        /\ forall a, a ∈ l -> allowed_by allow (sa_ip a) = true ->
              ~ let_through s now host (sa_ip a) port
  end.
Proof.
  unfold resolve_target. destruct (host_and_port target) as [[host port]|] eqn:Hhp; [|done].
  cbn [ok_or]. destruct (lookup_host target) as [l|e] eqn:Hl; [|done].
  set (allowed := filter _ l). case_bool_decide as Hne; [done|].
  rewrite open_addresses_spec. simpl app.
  set (open := filter _ allowed). set (until := foldl _ None allowed).
  assert (Hopen : forall a, a ∈ open <->
    (exists l', (Ok l : result _ (list Z)) = Ok l' /\ a ∈ l') /\ allowed_by allow (sa_ip a) = true
    /\ let_through s now host (sa_ip a) port).
  { intros a. subst open allowed. rewrite !list_elem_of_filter, permitted_iff. naive_solver. }
  assert (Huntil : forall t, now <= t -> open_at t until = true <->
    exists a, a ∈ open /\ let_through s t host (sa_ip a) port).
  { intros t Ht. subst until open.
    rewrite (foldl_later_if (fun a => permitted s now host (sa_ip a) port)
      (fun a => open_until s now host (sa_ip a) port)).
    setoid_rewrite (open_until_open s now t _ _ _ Ht). setoid_rewrite list_elem_of_filter.
    split; [intros [?|(a & ? & ? & ?)]; [done|by exists a]|].
    intros (a & [? ?] & ?). right. by exists a. }
  assert (Hnow : ahead now until).
  { subst until. apply foldl_preserves; [|done]. intros u a _ Hu. case_match; [|done].
    apply later_ahead; [done|]. apply open_until_ahead. }
  pose proof (is_some_open_at until now Hnow) as Hsome. clearbody until.
  destruct until as [u|].
  - simpl. split_and!; [|done|done|done]. intros ->. symmetry in Hsome.
    apply (Huntil now) in Hsome as (a & ?%not_elem_of_nil & _); done || lia.
  - simpl. intros _. exists host, port, l. split_and!; [done|done| |].
    + destruct allowed as [|a rest] eqn:Ha; [done|].
      assert (a ∈ allowed) as [? ?]%list_elem_of_filter by (rewrite Ha; set_solver). by exists a.
    + intros a Ha Hal Hlet. assert (a ∈ open) by (apply Hopen; eauto).
      assert (open_at now None = true) by (apply Huntil; [lia|eauto]). done.
Qed.

Lemma let_through_any_open s now host ip port :
  let_through s now host ip port -> any_open s now = true.
Proof.
  unfold any_open. intros [Hn|[(d & Hd & _ & Ho)|(i & g & d & Hl & Ho & _)]].
  - unfold network_open. by rewrite Hn.
  - assert (d ∈ open_devices s now) as Hin.
    { apply list_elem_of_filter. by rewrite device_until_is_some. }
    apply orb_true_iff. left. apply orb_true_iff. right. apply negb_true_iff, bool_decide_eq_false.
    intros Hnil. rewrite Hnil in Hin. set_solver.
  - assert ((i, g) ∈ open_requests s now) as Hin.
    { apply list_elem_of_filter. split; [done|]. by apply elem_of_btree_uuid. }
    apply orb_true_iff. right. apply negb_true_iff, bool_decide_eq_false.
    intros Hnil. rewrite Hnil in Hin. set_solver.
Qed.

(** The customer lets a connection that was made through at [t]. *)
Definition still_open (s : Snapshot) (t : Z) (c : Reached) : Prop :=
  let_through s t (rc_host c) (rc_ip c) (rc_port c).

(** When the access changes or an end passes, exactly those of the listed
    connections end that the customer no longer lets through; the others go
    on. *)
Theorem round_ends_what_closed (s : Snapshot) (now : Z) (rs : gmap Uuid Running) (i : Uuid)
    (r : Running) :
  while_open_round s now rs !! i = Some r ->
  exists r0, rs !! i = Some r0 /\ reached r = reached r0
    /\ (cancelled r = false <-> cancelled r0 = false /\ still_open s now (reached r0)).
Proof.
  unfold while_open_round, still_open. destruct (any_open s now) eqn:Hany.
  - rewrite lookup_fmap. intros (r0 & Hr0 & ->)%fmap_Some. exists r0.
    rewrite <- permitted_iff. destruct (permitted _ _ _ _ _) eqn:Hp; simpl; [|naive_solver].
    split_and!; [done|done|tauto].
  - rewrite lookup_fmap. intros (r0 & Hr0 & ->)%fmap_Some. exists r0. simpl.
    split_and!; [done|done|]. split; [done|]. intros [_ Hl].
    apply let_through_any_open in Hl. congruence.
Qed.

(** *** Connections come and go *)

(** What remotehub asks for in an [open]. *)
Record StreamRequest := {
  q_target : list Z;
  q_user : option (list Z);
  q_device : option (list Z)
}.

(** A stream that has reached its target and is not listed yet. *)
Record Opening := { o_request : StreamRequest; o_reached : Reached; o_cancelled : bool }.

(** The agent while it is connected: what it decides by, its streams and its
    journal. *)
Record Agent := {
  snap : Snapshot;
  clock : Z;
  opening : gmap Uuid Opening;
  running : gmap Uuid Running;
  a_journal : list JournalEvent
}.

Definition started (now : Z) (o : Opening) : Running :=
  {| r_target := q_target (o_request o); r_user := q_user (o_request o);
     r_device := q_device (o_request o); since := now; reached := o_reached o;
     cancelled := o_cancelled o |}.

Definition cancel_opening (o : Opening) : Opening :=
  {| o_request := o_request o; o_reached := o_reached o; o_cancelled := true |}.

(** [stream], split where it waits: for the target, for the socket to
    remotehub, and for the connection to end; and the rounds of [while_open].
    Connections are listed by the id remotehub draws for each, as in the map of
    [Connections]; of two with one id the later would be listed. What names
    resolve to does not change during a run. *)
Inductive agent_step (allow : list Network) : Agent -> Agent -> Prop :=
| step_refused a q e :
    reach allow (snap a) (clock a) (q_target q) = Err e ->
    agent_step allow a
      {| snap := snap a; clock := clock a; opening := opening a; running := running a;
         a_journal := a_journal a
           ++ [ConnectionRefused (q_target q) (q_device q) (q_user q) (r_reason e)] |}
| step_reach a i q c :
    reach allow (snap a) (clock a) (q_target q) = Ok c ->
    agent_step allow a
      {| snap := snap a; clock := clock a;
         opening := <[i := {| o_request := q; o_reached := c; o_cancelled := false |}]> (opening a);
         running := running a; a_journal := a_journal a |}
| step_no_socket a i :
    agent_step allow a
      {| snap := snap a; clock := clock a; opening := delete i (opening a);
         running := running a; a_journal := a_journal a |}
| step_start a i o :
    opening a !! i = Some o ->
    agent_step allow a
      {| snap := snap a; clock := clock a; opening := delete i (opening a);
         running := <[i := started (clock a) o]> (running a);
         a_journal := a_journal a
           ++ [ConnectionStarted i (q_target (o_request o)) (q_device (o_request o))
                 (q_user (o_request o))] |}
| step_round a s t :
    clock a <= t ->
    agent_step allow a
      {| snap := s; clock := t;
         opening := if any_open s t then opening a else cancel_opening <$> opening a;
         running := while_open_round s t (running a); a_journal := a_journal a |}
| step_end a i r sent received :
    running a !! i = Some r ->
    agent_step allow a
      {| snap := snap a; clock := clock a; opening := opening a;
         running := delete i (running a);
         a_journal := a_journal a
           ++ [ConnectionEnded i (r_target r) (r_device r) (r_user r)
                 (Z.abs (clock a - since r) / 1000000000) sent received] |}.

Definition agent_start (s : Snapshot) (t : Z) : Agent :=
  {| snap := s; clock := t; opening := ∅; running := ∅; a_journal := [] |}.

(** Every connection of [a], opening or listed, satisfies [P]. *)
Definition every_connection (P : Reached -> Prop) (a : Agent) : Prop :=
  (forall i o, opening a !! i = Some o -> P (o_reached o))
  /\ (forall i r, running a !! i = Some r -> P (reached r)).

Hypothesis tcp_connect_peer : forall l a, tcp_connect l = Ok a -> a ∈ l.

Lemma reach_open allow s t target c :
  reach allow s t target = Ok c -> still_open s t c /\ allowed_by allow (rc_ip c) = true.
Proof.
  unfold reach. destruct (resolve_target allow s t target) as [r|] eqn:Hr; [|done].
  destruct (tcp_connect (addresses r)) as [p|] eqn:Hp; [|done]. intros [= <-].
  apply tcp_connect_peer in Hp. by destruct (resolve_target_addresses _ _ _ _ _ _ Hr Hp).
Qed.

Lemma while_open_round_reached s t rs i r :
  while_open_round s t rs !! i = Some r -> exists r0, rs !! i = Some r0 /\ reached r = reached r0.
Proof.
  unfold while_open_round. case_match; rewrite lookup_fmap; intros (r0 & Hr0 & ->)%fmap_Some;
    exists r0; split; try done. by case_match.
Qed.

(** A step makes no connection but by reaching a target. *)
Lemma every_connection_step allow (P : Reached -> Prop) a a' :
  (forall target c, reach allow (snap a) (clock a) target = Ok c -> P c) ->
  every_connection P a -> agent_step allow a a' -> every_connection P a'.
Proof.
  intros Hreach [Ho Hr] Hs. destruct Hs; split; simpl; try done.
  - intros j o. rewrite lookup_insert. case_decide; [intros [= <-]; eauto|apply Ho].
  - intros j o. rewrite lookup_delete. case_decide; [done|apply Ho].
  - intros j o'. rewrite lookup_delete. case_decide; [done|apply Ho].
  - intros j r. rewrite lookup_insert. case_decide; [intros [= <-]; by eapply Ho|apply Hr].
  - intros j o. destruct (any_open s t); [apply Ho|].
    rewrite lookup_fmap. intros (o' & Hl & ->)%fmap_Some. exact (Ho j _ Hl).
  - intros j r (r0 & Hl & ->)%while_open_round_reached. by eapply Hr.
  - intros j r'. rewrite lookup_delete. case_decide; [done|apply Hr].
Qed.

(** Every listed connection is in the journal. *)
Definition journalled (a : Agent) : Prop :=
  forall i r, running a !! i = Some r ->
    ConnectionStarted i (r_target r) (r_device r) (r_user r) ∈ a_journal a.

Lemma while_open_round_fields s t rs i r :
  while_open_round s t rs !! i = Some r ->
  exists r0, rs !! i = Some r0 /\ r_target r = r_target r0 /\ r_device r = r_device r0
    /\ r_user r = r_user r0.
Proof.
  unfold while_open_round. case_match; rewrite lookup_fmap; intros (r0 & Hr0 & ->)%fmap_Some;
    exists r0; split_and!; try done; by case_match.
Qed.

Lemma journalled_step allow a a' : journalled a -> agent_step allow a a' -> journalled a'.
Proof.
  intros Hj Hs. destruct Hs; intros j r'; simpl; rewrite ?elem_of_app.
  - intros Hl. left. by apply Hj.
  - apply Hj.
  - apply Hj.
  - rewrite lookup_insert. case_decide; [intros [= <-]; subst; right; simpl; set_solver|].
    intros Hl. left. by apply Hj.
  - intros (r0 & Hl & -> & -> & ->)%while_open_round_fields. by apply Hj.
  - rewrite lookup_delete. case_decide; [done|]. intros Hl. left. by apply Hj.
Qed.

(** C2: Remotehub gets no connection the customer did not let through: every
    connection the connector carries or opens goes to an allowed address, and
    was let through by the access at a moment since the agent started; and
    every one it carries is in the customer's journal. *)
Theorem no_connection_without_access (allow : list Network) (s : Snapshot) (t : Z) (a : Agent) :
  rtc (agent_step allow) (agent_start s t) a ->
  every_connection (fun c => allowed_by allow (rc_ip c) = true
    /\ exists a0, rtc (agent_step allow) (agent_start s t) a0 /\ rtc (agent_step allow) a0 a
         /\ still_open (snap a0) (clock a0) c) a
  /\ journalled a.
Proof.
  revert a. apply rtc_ind_r.
  { split; [split|]; intros i x; simpl; by rewrite lookup_empty. }
  intros a a' Hra Hstep [[IHo IHr] IHj]. split; [|by eapply journalled_step].
  eapply every_connection_step; [|split|exact Hstep].
  - intros target c [Hc Hal]%reach_open. split; [done|]. exists a. split_and!; [done| |done].
    by apply rtc_once.
  - intros i o Hl. destruct (IHo i o Hl) as (Hal & a0 & ? & ? & ?).
    split; [done|]. exists a0. split_and!; [done| |done]. by eapply rtc_r.
  - intros i r Hl. destruct (IHr i r Hl) as (Hal & a0 & ? & ? & ?).
    split; [done|]. exists a0. split_and!; [done| |done]. by eapply rtc_r.
Qed.

End let_through.

(** *** Reports *)

(** A report says the network is open exactly if it is, names no more
    groups and devices than remotehub takes, and every device it names is
    open: on the customer's list, or a target of an approved request. *)
Theorem report_state_sound `{Rfc3339} (s : Snapshot) (now : Z) :
  let r := report_state s now in
  st_open r = is_open (access (network (s_access s))) now
  /\ (partly r = true <-> st_open r = false /\ any_open s now = true)
  /\ (length (st_groups r) <= MAX_LISTED)%nat /\ (length (st_devices r) <= MAX_LISTED)%nat
  /\ (forall o, o ∈ st_devices r ->
        (exists d, d ∈ devices (s_inventory s) /\ device_open s d now = true
           /\ od_name o = name d /\ od_address o = address_text (d_address d)
           /\ od_ports o = ports_text (ports d))
        \/ (exists i g t, f_requests (s_access s) !! i = Some g
           /\ is_open (access (stored g)) now = true /\ t ∈ g_targets g
           /\ od_name o = t_name t /\ od_address o = host t /\ od_ports o = decimal (port t))).
Proof.
  cbn zeta. unfold report_state. cbn [st_open partly st_groups st_devices]. split_and!.
  - done.
  - by rewrite andb_true_iff, negb_true_iff.
  - rewrite length_fmap, length_take. lia.
  - rewrite length_take. lia.
  - intros o Ho. apply elem_of_take in Ho as (k & Ho & _). apply list_elem_of_lookup_2 in Ho.
    apply elem_of_app in Ho as [(d & -> & Hd)%list_elem_of_fmap|Ho].
    + left. apply list_elem_of_filter in Hd as [Hs Hd]. rewrite device_until_is_some in Hs.
      by exists d.
    + right. apply list_elem_of_bind in Ho as ([i g] & (t & -> & Ht)%list_elem_of_fmap & Hig).
      apply list_elem_of_filter in Hig as [Hs Hig]. apply elem_of_btree_uuid in Hig.
      by exists i, g, t.
Qed.

(** ** Examples *)

Module AgentExamples.

(** A network with two hosts. *)
#[local] Instance example_net : Net := {|
  resolve := fun name => if bool_decide (name = lit "sql") then [IpAddr_V4 1] else [IpAddr_V4 2];
  lookup_host := fun target =>
    if bool_decide (target = lit "sql:1433") then Ok [{| sa_ip := IpAddr_V4 1; sa_port := 1433 |}]
    else Err (lit "name lookup");
  tcp_connect := fun l => match l with a :: _ => Ok a | [] => Err (lit "no address") end
|}.

Lemma example_peer : forall l a, tcp_connect l = Ok a -> a ∈ l.
Proof. intros [|b l] a Hc; [done|]. simpl in Hc. simplify_eq. set_solver. Qed.

Definition example_device (n : string) (p : Z) : Device :=
  {| name := lit n; d_address := Address_Host (lit n); ports := [{| first := p; last := p |}];
     d_groups := [] |}.

Definition example_list : Inventory :=
  {| devices := [example_device "sql" 1433; example_device "web" 443]; groups := [] |}.

Definition opened (n : string) (a : Access) (f : AccessFile) : AccessFile :=
  file_set f (Scope_Device (lit n)) {| access := a; changed_by := None; changed_at := None |}.

(** Both devices are open; then the customer closes the first. *)
Definition both_open : Snapshot :=
  {| s_access := opened "sql" (Access_Open None) (opened "web" (Access_Open None) access_default);
     s_inventory := example_list |}.
Definition sql_closed : Snapshot :=
  {| s_access := opened "sql" Access_Closed (s_access both_open); s_inventory := example_list |}.

Definition sql_reached : Reached :=
  {| rc_host := lit "sql"; rc_ip := IpAddr_V4 1; rc_port := 1433 |}.
Definition sql_request : StreamRequest :=
  {| q_target := lit "sql:1433"; q_user := None; q_device := None |}.

Lemma open_until_exact_witness :
  permitted both_open 0 (lit "sql") (IpAddr_V4 1) 1433 = true
  /\ let_through both_open 100 (lit "sql") (IpAddr_V4 1) 1433
  /\ ~ let_through both_open 100 (lit "sql") (IpAddr_V4 1) 22.
Proof.
  split_and!; [vm_compute; reflexivity|..].
  - apply (open_until_exact both_open 0 100 (lit "sql") (IpAddr_V4 1) 1433); [lia|].
    vm_compute. reflexivity.
  - intros Hl.
    apply (open_until_exact both_open 0 100 (lit "sql") (IpAddr_V4 1) 22) in Hl; [|lia].
    vm_compute in Hl. discriminate.
Defined.

Lemma approval_opens_exactly_its_targets_witness :
  let r := {| id := 1; requester := lit "alice"; reason := lit "update"; minutes := 15;
              targets := [{| t_name := lit "SQL"; host := lit "sql"; port := 1433 |}] |} in
  exists f', let_through {| s_access := f'; s_inventory := inventory_default |} 5
               (lit "sql") (IpAddr_V4 1) 1433.
Proof.
  intros r. set (w' := (approve 0 r 60000000000 (Changer_Web (lit "bob")) empty_world).2).
  exists (default access_default (read_access w')).
  apply (approval_opens_exactly_its_targets empty_world w' access_default
    (default access_default (read_access w')) inventory_default r 0 60000000000 5
    (Changer_Web (lit "bob")) (lit "sql") (IpAddr_V4 1) 1433); [reflexivity..|].
  right. split; [vm_compute; reflexivity|].
  exists {| t_name := lit "SQL"; host := lit "sql"; port := 1433 |}, (Address_Host (lit "sql")).
  split_and!; [set_solver|vm_compute; reflexivity..].
Defined.

Lemma round_ends_what_closed_witness :
  let r := started 0 {| o_request := sql_request; o_reached := sql_reached; o_cancelled := false |} in
  exists r0, ({[7 := r]} : gmap Uuid Running) !! 7 = Some r0 /\ reached (cancel r) = reached r0
    /\ (cancelled (cancel r) = false <->
         cancelled r0 = false /\ still_open sql_closed 5 (reached r0)).
Proof.
  intros r. apply (round_ends_what_closed sql_closed 5 {[7 := r]} 7 (cancel r)).
  vm_compute. reflexivity.
Defined.

(** A stream reaches its target while the device is open. *)
Definition reached_agent : Agent :=
  {| snap := both_open; clock := 0;
     opening := {[7 := {| o_request := sql_request; o_reached := sql_reached;
                          o_cancelled := false |}]};
     running := ∅; a_journal := [] |}.

Lemma example_reach : rtc (agent_step []) (agent_start both_open 0) reached_agent.
Proof. apply rtc_once, (step_reach [] (agent_start both_open 0) 7 sql_request). vm_compute. reflexivity. Qed.

Lemma no_connection_without_access_witness :
  exists a0, still_open (snap a0) (clock a0) sql_reached.
Proof.
  destruct (no_connection_without_access example_peer [] both_open 0 reached_agent example_reach)
    as [[Ho _] _].
  destruct (Ho 7 {| o_request := sql_request; o_reached := sql_reached; o_cancelled := false |})
    as [_ (a0 & _ & _ & H)]; [vm_compute; reflexivity|]. exists a0. exact H.
Defined.

(** A stream that has reached its target before the customer closes the device
    and is listed only after the round that follows is not ended by it: it
    goes on although the device is closed, until the next change. *)
Theorem late_stream_outlives_close :
  exists a r, rtc (agent_step []) (agent_start both_open 0) a
    /\ snap a = sql_closed /\ running a !! 7 = Some r /\ cancelled r = false
    /\ ~ still_open (snap a) (clock a) (reached r).
Proof.
  eexists _, _. split_and!.
  - etransitivity; [apply example_reach|].
    eapply rtc_l; [apply (step_round [] _ sql_closed 1); simpl; lia|].
    apply rtc_once, (step_start [] _ 7
      {| o_request := sql_request; o_reached := sql_reached; o_cancelled := false |}).
    vm_compute. reflexivity.
  - reflexivity.
  - apply lookup_insert_eq.
  - reflexivity.
  - unfold still_open. rewrite <- permitted_iff. vm_compute. discriminate.
Qed.

End AgentExamples.
