(* ===== verification/Session.v ===== *)
(** * Sessions (crates/server/src/session.rs, api/confirm.rs)

    The sessions of browsers and of the browser extension: who is signed in,
    when a session locks, what keeps it alive and what unlocks it. The tables
    the queries read are explicit state; a time is a number of microseconds,
    PostgreSQL's resolution, and one clock serves the database and the server.
    SHA-256 and the text of a UUID are parameters. *)
From S2P Require Import Prelude Text Model.

Definition second : Z := 1000000.
Definition minute : Z := 60 * second.

(** ** Tables *)

Record SessionRow := {
  s_id : Uuid;
  s_user_id : Uuid;
  s_groups : list (list Z);
  s_client : list Z;
  last_seen_at : Z;
  expires_at : Z;
  confirmed_at : option Z;
  confirm_failures : Z
}.

Record UserRow := {
  u_username : list Z;
  u_display_name : list Z;
  u_kind : list Z;
  u_sid : option (list Z);
  u_upn : option (list Z);
  u_identity_id : option Uuid;
  blocked_at : option Z
}.

Record Db := {
  sessions : gmap (list Z) SessionRow;
  users : gmap Uuid UserRow;
  role_assignments : list (list Z * list Z);
  group_members : list (Uuid * list Z)
}.

Definition set_sessions (f : gmap (list Z) SessionRow -> gmap (list Z) SessionRow) (db : Db) : Db :=
  {| sessions := f (sessions db); users := users db; role_assignments := role_assignments db;
     group_members := group_members db |}.

Definition seen (now : Z) (r : SessionRow) : SessionRow :=
  {| s_id := s_id r; s_user_id := s_user_id r; s_groups := s_groups r; s_client := s_client r;
     last_seen_at := now; expires_at := expires_at r; confirmed_at := confirmed_at r;
     confirm_failures := confirm_failures r |}.

(** ** The signed-in user *)

Record Session := {
  token_hash : list Z;
  session_id : Uuid;
  client : list Z;
  user_id : Uuid;
  username : list Z;
  display_name : list Z;
  kind : list Z;
  sid : option (list Z);
  upn : option (list Z);
  s_group_sids : list (list Z);
  identity_id : option Uuid;
  memberships : list (list Z);
  roles : list (list Z);
  locked : bool;
  confirmed : bool
}.

Definition CONFIRMED_FOR : Z := 60 * second.

(** The roles for remotehub itself. *)
Inductive OwnRole := Administrator | Auditor | SecurityOfficer.

#[export] Instance own_role_eq_dec : EqDecision OwnRole.
Proof. solve_decision. Defined.

Definition own_role_all : list OwnRole := [Administrator; Auditor; SecurityOfficer].

Definition own_role_as_str (r : OwnRole) : list Z :=
  match r with
  | Administrator => lit "administrator"
  | Auditor => lit "auditor"
  | SecurityOfficer => lit "security_officer"
  end.

Definition own_role_parse (n : str) : option OwnRole :=
  snd <$> list_find (fun r => own_role_as_str r = n) own_role_all.

Definition has_role (s : Session) (r : OwnRole) : bool := bool_decide (own_role_as_str r ∈ roles s).

Definition is_admin (s : Session) : bool :=
  bool_decide (kind s = lit "break_glass") || has_role s Administrator.

Definition is_auditor (s : Session) : bool := has_role s Auditor || is_admin s.

Definition role_names (s : Session) : list (list Z) :=
  own_role_as_str <$>
    filter (fun r => match r with Administrator => is_admin s | other => has_role s other end = true)
      own_role_all.

Inductive Problem :=
| Unauthenticated
| SessionLocked
| ConfirmationRequired
| SecondFactorInvalid.

#[export] Instance problem_eq_dec : EqDecision Problem.
Proof. solve_decision. Defined.

Definition require_confirmation (s : Session) : result unit Problem :=
  if confirmed s then Ok tt else Err ConfirmationRequired.

(** ** Cookies *)

Definition COOKIE_NAME : list Z := lit "__Host-remotehub-session".
Definition LOGIN_KEY_COOKIE : list Z := lit "__Host-remotehub-login-key".

(** [cookie]: the first non-empty value of the name; [headers] are the values of
    the cookie headers that are text. *)
Definition cookie (headers : list (list Z)) (n : str) : option (list Z) :=
  let pairs := omap (fun pair => split_once 61 (trim pair)) (headers ≫= split 59) in
  match list_find (fun p => p.1 = n) pairs with
  | Some (_, (_, value)) => if bool_decide (value = []) then None else Some value
  | None => None
  end.

Definition token (headers : list (list Z)) : option (list Z) := cookie headers COOKIE_NAME.

(** [Sha256::digest] of a token's bytes. *)
Class Sha256 := sha256 : list Z -> list Z.

Section sessions.
Context `{UuidText, Sha256}.

Definition local_principal (i : Uuid) : list Z := lit "local:" ++ uuid_text i.

Definition principal (s : Session) : option (list Z) :=
  match sid s with
  | Some s => Some s
  | None => local_principal <$> identity_id s
  end.

Definition session_sids (s : Session) : list (list Z) :=
  s_group_sids s ++ memberships s ++ option_list (principal s).

Definition subject (s : Session) : Subject :=
  {| sids := list_to_set (session_sids s); admin := is_admin s |}.

(** [p = ANY (l) OR p = u.sid OR p = 'local:' || u.identity_id]; a column that
    is NULL matches nothing. *)
Definition names_user (l : list (list Z)) (u : UserRow) (p : list Z) : bool :=
  bool_decide (p ∈ l) || bool_decide (u_sid u = Some p)
  || bool_decide (local_principal <$> u_identity_id u = Some p).

Definition memberships_of (db : Db) (r : SessionRow) (u : UserRow) : list (list Z) :=
  remove_dups ((fun m => lit "group:" ++ uuid_text m.1)
                 <$> filter (fun m => names_user (s_groups r) u m.2 = true) (group_members db)).

Definition roles_of (db : Db) (r : SessionRow) (u : UserRow) : list (list Z) :=
  remove_dups (snd <$> filter
    (fun a => names_user (s_groups r ++ memberships_of db r u) u a.1 = true) (role_assignments db)).

Definition by_hash (db : Db) (now : Z) (h : list Z) (idle : Z) : option Session :=
  match sessions db !! h with
  | None => None
  | Some r =>
      match users db !! s_user_id r with
      | None => None
      | Some u =>
          if negb (is_some (blocked_at u)) && (now <? expires_at r)
             && (bool_decide (s_client r = lit "web") || (now - idle <? last_seen_at r))
          then Some {| token_hash := h; session_id := s_id r; client := s_client r;
                       user_id := s_user_id r; username := u_username u;
                       display_name := u_display_name u; kind := u_kind u; sid := u_sid u;
                       upn := u_upn u; s_group_sids := s_groups r;
                       identity_id := u_identity_id u; memberships := memberships_of db r u;
                       roles := roles_of db r u;
                       locked := last_seen_at r <=? now - idle;
                       confirmed := is_some_and (fun c => now - CONFIRMED_FOR <? c)
                                      (confirmed_at r) |}
          else None
      end
  end.

(** ** Keeping a session alive *)

Definition touch (db : Db) (now : Z) (h : list Z) (idle : Z) : Db :=
  set_sessions (alter (fun r =>
    if (last_seen_at r <? now - minute) && (now - idle <? last_seen_at r) then seen now r else r) h) db.

(** [find] with its token already hashed; [lookup] is [find] with [keep_alive]. *)
Definition find (db : Db) (now : Z) (h : list Z) (idle : Z) (keep_alive : bool) :
    option Session * Db :=
  match by_hash db now h idle with
  | None => (None, db)
  | Some s => (Some s, if keep_alive && negb (locked s) then touch db now h idle else db)
  end.

Definition delete_session (db : Db) (h : list Z) : Db := set_sessions (delete h) db.

Definition purge (db : Db) (now idle : Z) : Db :=
  set_sessions (filter (fun hr : list Z * SessionRow =>
    (expires_at hr.2 <=? now) = false
    /\ (bool_decide (s_client hr.2 <> lit "web") && (last_seen_at hr.2 <=? now - idle)) = false)) db.

Definition create (db : Db) (now : Z) (h : list Z) (i user : Uuid) (groups : list (list Z))
    (max : Z) (client_ : list Z) : Db :=
  set_sessions (insert h
    {| s_id := i; s_user_id := user; s_groups := groups; s_client := client_;
       last_seen_at := now; expires_at := now + max; confirmed_at := None;
       confirm_failures := 0 |}) db.

(** ** Input into an open connection *)

Record Activity := { a_hash : list Z; a_idle : Z; a_checked : option Z; a_open : bool }.

Definition activity_of (s : Session) (idle : Z) : Activity :=
  {| a_hash := token_hash s; a_idle := idle; a_checked := None; a_open := negb (locked s) |}.

(** The update of [Activity::input]: the number of rows it changed. *)
Definition input_update (db : Db) (now : Z) (h : list Z) (idle : Z) : Z * Db :=
  match sessions db !! h with
  | Some r =>
      if (now <? expires_at r) && (now - idle <? last_seen_at r)
      then (1, set_sessions (insert h (if last_seen_at r <? now - minute then seen now r else r)) db)
      else (0, db)
  | None => (0, db)
  end.

(** [reachable] says whether the database answers. *)
Definition input (a : Activity) (db : Db) (now : Z) (reachable : bool) : bool * Activity * Db :=
  let every := if a_open a then 60 * second else 2 * second in
  if is_some_and (fun at_ => now - at_ <? every) (a_checked a) then (a_open a, a, db)
  else
    let checked_ := Some now in
    if reachable then
      let '(rows, db') := input_update db now (a_hash a) (a_idle a) in
      let open := rows =? 1 in
      (open, {| a_hash := a_hash a; a_idle := a_idle a; a_checked := checked_; a_open := open |}, db')
    else
      (a_open a, {| a_hash := a_hash a; a_idle := a_idle a; a_checked := checked_;
                    a_open := a_open a |}, db).

(** ** Requests *)

(** [AnySession]: a browser's session, locked or not. *)
Definition any_session (db : Db) (now : Z) (headers : list (list Z)) (background : bool)
    (idle : Z) : result Session Problem * Db :=
  match token headers with
  | None => (Err Unauthenticated, db)
  | Some t =>
      let '(found, db') := find db now (sha256 t) idle (negb background) in
      match found with
      | Some s => if bool_decide (client s = lit "web") then (Ok s, db') else (Err Unauthenticated, db')
      | None => (Err Unauthenticated, db')
      end
  end.

(** [Session] as a handler takes it. *)
Definition from_request_parts (db : Db) (now : Z) (headers : list (list Z)) (background : bool)
    (idle : Z) : result Session Problem * Db :=
  match any_session db now headers background idle with
  | (Ok s, db') => if locked s then (Err SessionLocked, db') else (Ok s, db')
  | (Err e, db') => (Err e, db')
  end.

(** ** Confirming with the second factor (api/confirm.rs) *)

Definition MAX_FAILURES : Z := 5.

(** The session's row once its second factor was checked: [passed] or not. *)
Definition confirm_row (now : Z) (passed : bool) (r : SessionRow) : option SessionRow :=
  let row last confirmed_ failures :=
    {| s_id := s_id r; s_user_id := s_user_id r; s_groups := s_groups r; s_client := s_client r;
       last_seen_at := last; expires_at := expires_at r; confirmed_at := confirmed_;
       confirm_failures := failures |} in
  if passed then Some (row now (Some now) 0)
  else
    let failures := confirm_failures r + 1 in
    if MAX_FAILURES <=? failures then None
    else Some (row (last_seen_at r) (confirmed_at r) failures).

Definition confirm (db : Db) (now : Z) (headers : list (list Z)) (background passed : bool)
    (idle : Z) : result unit Problem * Db :=
  match any_session db now headers background idle with
  | (Err e, db') => (Err e, db')
  | (Ok s, db') =>
      match sessions db' !! token_hash s with
      | None => (Err Unauthenticated, db')
      | Some r =>
          match confirm_row now passed r with
          | Some r' => (if passed then Ok tt else Err SecondFactorInvalid,
                        set_sessions (insert (token_hash s) r') db')
          | None => (Err Unauthenticated, delete_session db' (token_hash s))
          end
      end
  end.

(** ** Theorems *)

Lemma by_hash_Some db now h idle s :
  by_hash db now h idle = Some s ->
  exists r u, sessions db !! h = Some r /\ users db !! s_user_id r = Some u
    /\ blocked_at u = None /\ now < expires_at r
    /\ (s_client r = lit "web" \/ now - idle < last_seen_at r)
    /\ token_hash s = h /\ client s = s_client r
    /\ locked s = (last_seen_at r <=? now - idle).
Proof.
  unfold by_hash. destruct (sessions db !! h) as [r|] eqn:Hr; [|done].
  destruct (users db !! s_user_id r) as [u|] eqn:Hu; [|done].
  destruct (negb _ && _ && _) eqn:E; [|done]. intros [= <-]. bools.
  apply orb_true_iff in H2. apply is_some_false in H1.
  exists r, u. split_and!; try done. destruct H2; bools; auto.
Qed.

(** A page's handler runs exactly for a request whose cookie names a
    browser's session that has neither expired nor locked, of a user who is
    not blocked; the extension's token opens none of them, not even as the
    cookie. *)
Theorem request_accepted_iff (db : Db) (now : Z) (headers : list (list Z)) (background : bool)
    (idle : Z) :
  is_ok (from_request_parts db now headers background idle).1 = true <->
  exists t r u, token headers = Some t /\ sessions db !! sha256 t = Some r
    /\ users db !! s_user_id r = Some u /\ blocked_at u = None
    /\ s_client r = lit "web" /\ now < expires_at r /\ now - idle < last_seen_at r.
Proof.
  unfold from_request_parts, any_session, find. destruct (token headers) as [t|].
  2: { split; [done|]. by intros (? & ? & ? & ? & _). }
  split.
  - destruct (by_hash db now (sha256 t) idle) as [s|] eqn:Hs; [|done].
    apply by_hash_Some in Hs as (r & u & Hr & Hu & Hb & He & _ & _ & Hc & Hl).
    case_bool_decide as Hweb; [|done]. destruct (locked s) eqn:Hlk; [done|]. intros _.
    rewrite Hc in Hweb. symmetry in Hl. bools. exists t, r, u. split_and!; done || lia.
  - intros (t' & r & u & [= <-] & Hr & Hu & Hb & Hw & He & Hseen).
    unfold by_hash. rewrite Hr, Hu, Hb, Hw. simpl.
    rewrite (proj2 (Z.ltb_lt _ _) He). simpl.
    destruct (last_seen_at r <=? now - idle) eqn:E; [bools; lia|]. done.
Qed.

(** *** What happens to the sessions *)

(** One event at a time [now]; [h] is the hash a request carries. *)
Inductive SessionEvent :=
| Ev_request (headers : list (list Z)) (background : bool)
| Ev_confirm (headers : list (list Z)) (background passed : bool)
| Ev_touch (h : list Z)
| Ev_input (a : Activity)
| Ev_sign_out (h : list Z)
| Ev_purge.

Definition handle (idle : Z) (e : SessionEvent) (now : Z) (db : Db) : Db :=
  match e with
  | Ev_request headers background => (from_request_parts db now headers background idle).2
  | Ev_confirm headers background passed => (confirm db now headers background passed idle).2
  | Ev_touch h => touch db now h idle
  | Ev_input a => (input_update db now (a_hash a) idle).2
  | Ev_sign_out h => delete_session db h
  | Ev_purge => purge db now idle
  end.

(** Events in the order of their times. *)
Fixpoint handle_all (idle : Z) (es : list (Z * SessionEvent)) (db : Db) : Db :=
  match es with
  | [] => db
  | (now, e) :: es => handle_all idle es (handle idle e now db)
  end.

Fixpoint in_order (from : Z) (es : list (Z * SessionEvent)) : Prop :=
  match es with
  | [] => True
  | (now, _) :: es => from <= now /\ in_order now es
  end.

(** How an event may change the row of a session that it does not confirm. *)
Definition kept (idle now : Z) (old new : option SessionRow) : Prop :=
  forall r', new = Some r' -> exists r, old = Some r /\ expires_at r' = expires_at r
    /\ (last_seen_at r' = last_seen_at r
        \/ (last_seen_at r' = now /\ now - idle < last_seen_at r)).

Lemma kept_refl idle now o : kept idle now o o.
Proof. intros r Hr. eauto. Qed.

Lemma kept_none idle now o : kept idle now o None.
Proof. by intros r. Qed.

Lemma touch_kept db now k idle h :
  kept idle now (sessions db !! h) (sessions (touch db now k idle) !! h).
Proof.
  unfold touch, kept. simpl. intros r'. rewrite lookup_alter. case_decide; [|eauto].
  intros (r & Hr & ->)%fmap_Some. subst. exists r. destruct (_ && _) eqn:E; [|auto].
  bools. simpl. auto.
Qed.

Lemma find_kept db now k idle ka h :
  kept idle now (sessions db !! h) (sessions (find db now k idle ka).2 !! h).
Proof.
  unfold find. destruct (by_hash db now k idle); [|apply kept_refl]. simpl.
  case_match; [apply touch_kept|apply kept_refl].
Qed.

Lemma any_session_db db now headers background idle :
  (any_session db now headers background idle).2
  = match token headers with
    | None => db
    | Some t => (find db now (sha256 t) idle (negb background)).2
    end.
Proof.
  unfold any_session. destruct (token headers); [|done].
  destruct (find _ _ _ _ _) as [[s|] db']; [|done]. by case_bool_decide.
Qed.

Lemma any_session_kept db now headers background idle h :
  kept idle now (sessions db !! h) (sessions (any_session db now headers background idle).2 !! h).
Proof. rewrite any_session_db. destruct (token headers); [apply find_kept|apply kept_refl]. Qed.

Lemma from_request_parts_db db now headers background idle :
  (from_request_parts db now headers background idle).2
  = (any_session db now headers background idle).2.
Proof.
  unfold from_request_parts. destruct (any_session _ _ _ _ _) as [[s|] db']; [|done].
  by destruct (locked s).
Qed.

Lemma input_kept db now k idle h :
  kept idle now (sessions db !! h) (sessions (input_update db now k idle).2 !! h).
Proof.
  unfold input_update. destruct (sessions db !! k) as [r|] eqn:Hr; [|apply kept_refl].
  destruct (_ && _) eqn:E; [|apply kept_refl]. bools. simpl.
  intros r'. rewrite lookup_insert. case_decide; [|eauto]. intros [= <-]. subst.
  exists r. split; [done|]. case_match; simpl; auto.
Qed.

Lemma purge_kept db now idle h :
  kept idle now (sessions db !! h) (sessions (purge db now idle) !! h).
Proof.
  unfold purge. simpl. intros r' [Hl _]%map_lookup_filter_Some. eauto.
Qed.

Lemma delete_kept db now k idle h :
  kept idle now (sessions db !! h) (sessions (delete_session db k) !! h).
Proof. simpl. intros r'. rewrite lookup_delete. case_decide; [done|eauto]. Qed.

(** A wrong answer moves nothing but the count of wrong answers. *)
Lemma confirm_wrong_kept db now headers background idle h :
  kept idle now (sessions db !! h)
    (sessions (confirm db now headers background false idle).2 !! h).
Proof.
  unfold confirm. pose proof (any_session_kept db now headers background idle h) as Hk.
  destruct (any_session db now headers background idle) as [[s|] db'] eqn:Ha; [|done].
  simpl in Hk. destruct (sessions db' !! token_hash s) as [r|] eqn:Hr; [|done].
  unfold confirm_row. destruct (MAX_FAILURES <=? _); simpl.
  - intros r'. rewrite lookup_delete. case_decide; [done|]. apply Hk.
  - intros r'. rewrite lookup_insert. case_decide as E; [|apply Hk]. intros [= <-]. subst h.
    destruct (Hk r Hr) as (r0 & Hr0 & ? & ?). exists r0. done.
Qed.

(** An event that does not unlock: anything but a right answer. *)
Definition no_confirmation (e : SessionEvent) : Prop :=
  match e with Ev_confirm _ _ passed => passed = false | _ => True end.

Lemma handle_kept idle e now db h :
  no_confirmation e -> kept idle now (sessions db !! h) (sessions (handle idle e now db) !! h).
Proof.
  intros He. destruct e as [headers b|headers b passed|k|a|k|]; simpl.
  - rewrite from_request_parts_db. apply any_session_kept.
  - simpl in He. subst. apply confirm_wrong_kept.
  - apply touch_kept.
  - apply input_kept.
  - apply delete_kept.
  - apply purge_kept.
Qed.

Lemma handle_all_locked idle t h es : forall t' db,
  t <= t' -> in_order t' es -> Forall (fun te => no_confirmation te.2) es ->
  (forall r, sessions db !! h = Some r -> last_seen_at r <= t - idle) ->
  forall r, sessions (handle_all idle es db) !! h = Some r -> last_seen_at r <= t - idle.
Proof.
  induction es as [|[now e] es IH]; intros t' db Ht Ho Hes Hall; simpl in *; [done|].
  destruct Ho as [Hn Ho]. apply Forall_cons in Hes as [He Hes].
  apply (IH now); [lia|done|done|]. intros r Hr.
  destruct (handle_kept idle e now db h He r Hr) as (r1 & Hr1 & _ & [->|[-> Hs]]); [by apply Hall|].
  specialize (Hall r1 Hr1). lia.
Qed.

(** C5: A locked session stays locked. Whatever requests, inputs into
    connections, wrong answers and clean-ups follow, in the order of their
    times, it is never marked as used again: it is gone, or locked still. Only
    the right second factor unlocks it. *)
Theorem locked_stays_locked (idle t : Z) (h : list Z) (es : list (Z * SessionEvent)) (db : Db)
    (r r' : SessionRow) :
  sessions db !! h = Some r -> last_seen_at r <= t - idle ->
  in_order t es -> Forall (fun te => no_confirmation te.2) es ->
  sessions (handle_all idle es db) !! h = Some r' -> last_seen_at r' <= t - idle.
Proof.
  intros Hr Hl Ho Hes. apply (handle_all_locked idle t h es t); [lia|done|done|].
  intros r0 Hr0. congruence.
Qed.

(** *** Input into connections *)

(** Every event leaves the time a session was last used, or sets it to now. *)
Definition moves_on (now : Z) (old new : option SessionRow) : Prop :=
  forall r', new = Some r' ->
    last_seen_at r' = now \/ exists r, old = Some r /\ last_seen_at r' = last_seen_at r.

Lemma kept_moves_on idle now o n : kept idle now o n -> moves_on now o n.
Proof. intros Hk r' Hr'. destruct (Hk r' Hr') as (r & Hr & _ & [->|[-> _]]); eauto. Qed.

Lemma handle_moves_on idle e now db h :
  moves_on now (sessions db !! h) (sessions (handle idle e now db) !! h).
Proof.
  destruct e as [headers b|headers b []|k|a|k|];
    try (by apply (kept_moves_on idle), handle_kept).
  simpl. unfold confirm. pose proof (any_session_kept db now headers b idle h) as Hk%kept_moves_on.
  destruct (any_session db now headers b idle) as [[s|] db']; [|done].
  simpl in Hk. destruct (sessions db' !! token_hash s) as [r|]; [|done]. simpl.
  intros r'. rewrite lookup_insert. case_decide; [intros [= <-]; by left|apply Hk].
Qed.

(** A connection's activity among the events of its session, at a time. *)
Inductive activity_run (idle : Z) : Z -> Activity -> Db -> Prop :=
| run_start db t h s :
    by_hash db t h idle = Some s -> activity_run idle t (activity_of s idle) db
| run_event t t' a db e :
    activity_run idle t a db -> t <= t' -> activity_run idle t' a (handle idle e t' db)
| run_input t t' a db o a' db' :
    activity_run idle t a db -> t <= t' -> input a db t' true = (o, a', db') ->
    activity_run idle t' a' db'.

(** While it lets input through, the session was used at most a minute before
    the last check. *)
Definition fresh (t : Z) (a : Activity) (db : Db) : Prop :=
  forall c, a_checked a = Some c -> a_open a = true ->
    c <= t /\ forall r, sessions db !! a_hash a = Some r -> c - minute <= last_seen_at r.

Lemma input_update_fresh db now h idle r :
  (input_update db now h idle).1 = 1 -> sessions (input_update db now h idle).2 !! h = Some r ->
  now - minute <= last_seen_at r.
Proof.
  unfold input_update. destruct (sessions db !! h) as [r0|]; [|done].
  destruct (_ && _); [|done]. simpl. intros _. rewrite lookup_insert_eq. intros [= <-].
  destruct (last_seen_at r0 <? now - minute) eqn:E; bools; simpl; unfold minute, second in *; lia.
Qed.

Lemma input_fresh t t' a db o a' db' :
  fresh t a db -> t <= t' -> input a db t' true = (o, a', db') -> fresh t' a' db'.
Proof.
  intros Hf Ht. unfold input. destruct (is_some_and _ (a_checked a)) eqn:Hc.
  - intros [= <- <- <-] c Hch Ho. destruct (Hf c Hch Ho). split; [lia|done].
  - destruct (input_update db t' (a_hash a) (a_idle a)) as [rows db1] eqn:Hu.
    intros [= <- <- <-] c [= <-] Ho. simpl in *. bools. split; [lia|].
    intros r Hr. apply (input_update_fresh db t' (a_hash a) (a_idle a)); by rewrite Hu.
Qed.

Lemma activity_run_fresh idle t a db :
  activity_run idle t a db -> fresh t a db /\ a_idle a = idle.
Proof.
  induction 1 as [db t h s Hs|t t' a db e _ [IH Hi] Ht|t t' a db o a' db' _ [IH Hi] Ht Hin].
  - split; [by intros c|done].
  - split; [|done]. intros c Hc Ho. destruct (IH c Hc Ho) as [Hct Hr]. split; [lia|].
    intros r' Hr'. destruct (handle_moves_on idle e t' db (a_hash a) r' Hr') as [->|(r & Hr0 & ->)];
      [unfold minute, second; lia|by apply Hr].
  - split; [by eapply input_fresh|]. unfold input in Hin.
    destruct (is_some_and _ _); [by simplify_eq|].
    destruct (input_update _ _ _ _). by simplify_eq.
Qed.

(** With an idle time of two minutes or more, no input into a connection
    reaches the device while the session is locked, although the session is
    looked up at most once a minute. *)
Theorem no_input_while_locked (idle t t' : Z) (a a' : Activity) (db db' : Db) (r : SessionRow) :
  2 * minute <= idle ->
  activity_run idle t a db -> t <= t' -> input a db t' true = (true, a', db') ->
  sessions db !! a_hash a = Some r -> t' - idle < last_seen_at r.
Proof.
  intros Hidle Hrun Ht Hin Hr. apply activity_run_fresh in Hrun as [Hf Hi].
  unfold input in Hin. destruct (is_some_and _ (a_checked a)) eqn:Hc.
  - simplify_eq. apply is_some_and_true in Hc as (c & Hc & Hev). bools.
    destruct (Hf c Hc ltac:(congruence)) as [_ Hs]. specialize (Hs r Hr).
    destruct (a_open a'); [|done]. unfold minute, second in *. lia.
  - destruct (input_update db t' (a_hash a) (a_idle a)) as [rows db1] eqn:Hu.
    injection Hin as Hrows _ _. bools. subst rows. unfold input_update in Hu. rewrite Hr in Hu.
    destruct (_ && _) eqn:E; [|done]. bools. rewrite Hi in *. lia.
Qed.

(** Five wrong answers end the session: the count of wrong answers of a
    session never reaches five, and the wrong answer that would make it five
    removes the session. *)
Theorem five_wrong_answers_end (idle now : Z) (headers : list (list Z)) (background : bool)
    (db : Db) (t : list Z) (r : SessionRow) :
  token headers = Some t -> sessions db !! sha256 t = Some r ->
  is_ok (any_session db now headers background idle).1 = true ->
  let db' := (confirm db now headers background false idle).2 in
  match sessions db' !! sha256 t with
  | Some r' => confirm_failures r' = confirm_failures r + 1 /\ confirm_failures r' < MAX_FAILURES
  | None => MAX_FAILURES <= confirm_failures r + 1
  end.
Proof.
  intros Ht Hr Hok. unfold confirm.
  assert (Hdb : forall s db1, any_session db now headers background idle = (Ok s, db1) ->
    token_hash s = sha256 t /\ exists r1, sessions db1 !! sha256 t = Some r1
      /\ confirm_failures r1 = confirm_failures r).
  { intros s db1. unfold any_session. rewrite Ht. unfold find.
    destruct (by_hash db now (sha256 t) idle) as [s0|] eqn:Hs; [|done].
    apply by_hash_Some in Hs as (r0 & u & Hr0 & _ & _ & _ & _ & Hh & _).
    case_bool_decide; [|done]. intros [= <- <-]. split; [done|].
    case_match; [|eauto]. unfold touch. simpl. rewrite lookup_alter_eq, Hr. simpl.
    eexists. split; [done|]. by case_match. }
  destruct (any_session db now headers background idle) as [[s|] db1]; [|done].
  destruct (Hdb s db1 eq_refl) as (-> & r1 & -> & Hf). unfold confirm_row. rewrite Hf.
  destruct (MAX_FAILURES <=? confirm_failures r + 1) eqn:E; bools; simpl.
  - by rewrite lookup_delete_eq.
  - rewrite lookup_insert_eq. simpl. split; [done|lia].
Qed.

(** The clean-up of sessions removes only what no request can use any
    more: now or later, every token finds what it would have found. *)
Theorem purge_removes_only_unusable (db : Db) (now t idle : Z) (h : list Z) :
  now <= t -> by_hash (purge db now idle) t h idle = by_hash db t h idle.
Proof.
  intros Ht. unfold by_hash, purge. simpl.
  destruct (sessions db !! h) as [r|] eqn:Hr.
  - destruct (decide ((expires_at r <=? now) = false
      /\ bool_decide (s_client r <> lit "web") && (last_seen_at r <=? now - idle) = false)) as [Hk|Hk].
    + by rewrite (map_lookup_filter_Some_2 _ _ _ _ Hr Hk).
    + rewrite (proj2 (map_lookup_filter_None _ _ _)) by (right; intros r0 Hr0; simplify_eq; by apply Hk).
      destruct (users db !! s_user_id r) as [u|]; [|done]. symmetry.
      match goal with |- (if ?c then _ else _) = None => destruct c eqn:E end; [|done].
      exfalso. apply Hk. bools. split; [apply Z.leb_gt; lia|].
      apply orb_true_iff in H2 as [?|?]; bools.
      * by rewrite bool_decide_false by (intros Hx; by apply Hx).
      * apply andb_false_iff. right. apply Z.leb_gt. lia.
  - by rewrite (proj2 (map_lookup_filter_None _ _ _)) by (by left).
Qed.

End sessions.


(** ** Examples *)

Module SessionExamples.

#[local] Instance decimal_uuid : UuidText := decimal.
#[local] Instance no_hash : Sha256 := fun s => s.

Definition cookie_header : list Z := lit "theme=dark; __Host-remotehub-session=abc123; c=d".

Example token_among_others :
  token [lit "theme=dark"; cookie_header] = Some (lit "abc123") /\ token [lit "theme=dark"] = None.
Proof. split; vm_compute; reflexivity. Qed.

Definition alice : UserRow :=
  {| u_username := lit "alice"; u_display_name := lit "Alice"; u_kind := lit "local"; u_sid := None;
     u_upn := None; u_identity_id := Some 7; blocked_at := None |}.

(** Alice's session, last used at [t]. *)
Definition row (t failures : Z) : SessionRow :=
  {| s_id := 1; s_user_id := 2; s_groups := []; s_client := lit "web"; last_seen_at := t;
     expires_at := 720 * minute; confirmed_at := None; confirm_failures := failures |}.

Definition db_of (t failures : Z) : Db :=
  {| sessions := {[lit "abc123" := row t failures]}; users := {[2 := alice]};
     role_assignments := [(lit "local:7", lit "administrator")]; group_members := [] |}.

Lemma locked_stays_locked_witness :
  last_seen_at (row 0 0) <= 30 * minute - 30 * minute.
Proof.
  apply (locked_stays_locked (30 * minute) (30 * minute) (lit "abc123")
    [(30 * minute, Ev_request [cookie_header] false); (31 * minute, Ev_purge)]
    (db_of 0 0) (row 0 0)); [vm_compute; reflexivity|vm_compute; discriminate| | |].
  - unfold minute, second. simpl. lia.
  - repeat constructor.
  - vm_compute. reflexivity.
Defined.

Definition alice_session : Session :=
  {| token_hash := lit "abc123"; session_id := 1; client := lit "web"; user_id := 2;
     username := lit "alice"; display_name := lit "Alice"; kind := lit "local"; sid := None;
     upn := None; s_group_sids := []; identity_id := Some 7; memberships := [];
     roles := [lit "administrator"]; locked := false; confirmed := false |}.

Lemma no_input_while_locked_witness : 10 * minute - 30 * minute < last_seen_at (row 0 0).
Proof.
  refine (no_input_while_locked (30 * minute) 0 (10 * minute)
    (activity_of alice_session (30 * minute))
    {| a_hash := lit "abc123"; a_idle := 30 * minute; a_checked := Some (10 * minute);
       a_open := true |} (db_of 0 0) (db_of (10 * minute) 0) (row 0 0) _ _ _ _ _).
  - vm_compute. discriminate.
  - apply (run_start (30 * minute) (db_of 0 0) 0 (lit "abc123")). vm_compute. reflexivity.
  - vm_compute. discriminate.
  - vm_compute. reflexivity.
  - vm_compute. reflexivity.
Defined.

Lemma five_wrong_answers_end_witness :
  let db' := (confirm (db_of 0 4) minute [cookie_header] false false (30 * minute)).2 in
  match sessions db' !! sha256 (lit "abc123") with
  | Some r' => confirm_failures r' = confirm_failures (row 0 4) + 1
               /\ confirm_failures r' < MAX_FAILURES
  | None => MAX_FAILURES <= confirm_failures (row 0 4) + 1
  end.
Proof.
  exact (five_wrong_answers_end (30 * minute) minute [cookie_header] false (db_of 0 4)
    (lit "abc123") (row 0 4) ltac:(vm_compute; reflexivity) ltac:(vm_compute; reflexivity)
    ltac:(vm_compute; reflexivity)).
Defined.

Example fifth_wrong_answer :
  sessions (confirm (db_of 0 4) minute [cookie_header] false false (30 * minute)).2
    !! lit "abc123" = None.
Proof. vm_compute. reflexivity. Qed.

Lemma purge_removes_only_unusable_witness :
  by_hash (purge (db_of 0 0) (60 * minute) (30 * minute)) (61 * minute) (lit "abc123") (30 * minute)
  = by_hash (db_of 0 0) (61 * minute) (lit "abc123") (30 * minute).
Proof. apply purge_removes_only_unusable. vm_compute. discriminate. Defined.

(** With an idle time of one minute, which the settings allow, input reaches the
    device for most of a minute after the session has locked: the check at
    59 seconds finds it in use and holds for a minute. *)
Theorem input_while_locked_with_one_minute :
  let a := {| a_hash := lit "abc123"; a_idle := minute; a_checked := None; a_open := true |} in
  exists a1 db1 a2 db2,
    input a (db_of 0 0) (59 * second) true = (true, a1, db1)
    /\ input a1 db1 (118 * second) true = (true, a2, db2)
    /\ option_map locked (by_hash db1 (118 * second) (lit "abc123") minute) = Some true.
Proof.
  intros a. set (a1 := {| a_hash := lit "abc123"; a_idle := minute;
    a_checked := Some (59 * second); a_open := true |}).
  exists a1, (db_of 0 0), a1, (db_of 0 0). split_and!; vm_compute; reflexivity.
Qed.

End SessionExamples.
