(* ===== verification/AccessRequests.v ===== *)
(** * Just-in-time access (crates/server/src/api/requests.rs, catalog.rs)

    A user asks for [connect] or [reveal] on an object for a while; someone
    who manages the object and is not the requester approves or denies; an
    approval becomes a grant that runs out by itself. The tables are explicit
    state, and a time is a number of microseconds. What decides is the model's
    catalog, loaded from these tables for every request. *)
From S2P Require Import Prelude Text Model Session.

(** ** The catalog as it is loaded (catalog.rs) *)

Record GrantRow := {
  gr_folder : option Uuid;
  gr_device : option Uuid;
  gr_credential : option Uuid;
  gr_collection : option Uuid;
  gr_principal_sid : list Z;
  gr_role : list Z;
  gr_expires_at : option Z;
  gr_request_id : option Uuid
}.

Definition grant_object (folder device credential collection : option Uuid) : option ObjectId :=
  match folder, device, credential, collection with
  | Some id, None, None, None => Some (Folder id)
  | None, Some id, None, None => Some (Device id)
  | None, None, Some id, None => Some (Credential id)
  | None, None, None, Some id => Some (Collection id)
  | _, _, _, _ => None
  end.

Definition object_id (folder device credential : option Uuid) : option ObjectId :=
  grant_object folder device credential None.

Definition grant_columns (o : ObjectId) : option (list (option Uuid)) :=
  match o with
  | Folder id => Some [Some id; None; None; None]
  | Device id => Some [None; Some id; None; None]
  | Credential id => Some [None; None; Some id; None]
  | Collection id => Some [None; None; None; Some id]
  | Profile _ => None
  end.

(** [extract(epoch FROM t)::bigint]: whole seconds, rounded to the nearest. *)
Definition epoch (t : Z) : Z := (t + second / 2) / second.

Definition grant_of_row (g : GrantRow) : option Grant :=
  match grant_object (gr_folder g) (gr_device g) (gr_credential g) (gr_collection g) with
  | None => None
  | Some o =>
      match role_parse (gr_role g) with
      | None => None
      | Some r => Some {| Model.object := o; Model.principal := gr_principal_sid g; Model.role := r;
                          Model.until := epoch <$> gr_expires_at g |}
      end
  end.

Definition load (objects : Objects) (gs : list GrantRow) (now : Z) : Catalog :=
  catalog_new objects (omap grant_of_row gs) (epoch now).

(** ** The tables *)

Inductive Status := Status_Pending | Status_Approved | Status_Denied | Status_Cancelled.

#[export] Instance status_eq_dec : EqDecision Status.
Proof. solve_decision. Defined.

Record RequestRow := {
  folder_id : option Uuid;
  device_id : option Uuid;
  credential_id : option Uuid;
  requester_id : Uuid;
  requester_sid : list Z;
  requester_name : list Z;
  rq_role : list Z;
  rq_minutes : Z;
  rq_reason : list Z;
  status : Status;
  decided_by : option Uuid;
  decided_at : option Z;
  rq_expires_at : option Z
}.

Inductive Action := AccessRequested | AccessApproved | AccessDenied | AccessCancelled.

Record Audit := { au_actor : Uuid; au_action : Action; au_object : ObjectId; au_request : Uuid }.

Record Tables := {
  t_objects : Objects;
  t_grants : list GrantRow;
  access_requests : gmap Uuid RequestRow;
  audit_log : list Audit
}.

Inductive RequestProblem :=
| RP_Invalid (field : string)
| RP_Forbidden
| RP_NotFound
| RP_RequestPending
| RP_OwnRequest
| RP_RequestDecided.

#[export] Instance request_problem_eq_dec : EqDecision RequestProblem.
Proof. solve_decision. Defined.

(** ** Asking *)

Definition object_of (kind : str) (id : Uuid) : result ObjectId RequestProblem :=
  if bool_decide (kind = lit "folder") then Ok (Folder id)
  else if bool_decide (kind = lit "device") then Ok (Device id)
  else if bool_decide (kind = lit "credential") then Ok (Credential id)
  else if bool_decide (kind = lit "collection") then Ok (Collection id)
  else Err (RP_Invalid "kind").

Definition columns (o : ObjectId) : option Uuid * option Uuid * option Uuid :=
  match o with
  | Folder id => (Some id, None, None)
  | Device id => (None, Some id, None)
  | Credential id => (None, None, Some id)
  | Collection _ | Profile _ => (None, None, None)
  end.

(** [matches!(target, ObjectId::Collection(_))]. *)
Definition is_collection (o : ObjectId) : bool :=
  match o with Collection _ => true | _ => false end.

Record NewRequest := { n_kind : list Z; n_id : Uuid; n_role : list Z; n_minutes : Z; n_reason : list Z }.

Definition minutes_contains (m : Z) : bool := (15 <=? m) && (m <=? 1440).

(** The row an equal request of the same user already waits in. *)
Definition same_pending (user : Uuid) (r : Role) (cols : option Uuid * option Uuid * option Uuid)
    (row : RequestRow) : bool :=
  bool_decide (requester_id row = user) && bool_decide (status row = Status_Pending)
  && bool_decide (rq_role row = role_as_str r)
  && bool_decide (folder_id row = cols.1.1) && bool_decide (device_id row = cols.1.2)
  && bool_decide (credential_id row = cols.2).

Definition add_audit (a : Audit) (t : Tables) : Tables :=
  {| t_objects := t_objects t; t_grants := t_grants t; access_requests := access_requests t;
     audit_log := audit_log t ++ [a] |}.

Definition put_request (i : Uuid) (r : RequestRow) (t : Tables) : Tables :=
  {| t_objects := t_objects t; t_grants := t_grants t;
     access_requests := <[i := r]> (access_requests t); audit_log := audit_log t |}.

Definition push_grant_row (g : GrantRow) (t : Tables) : Tables :=
  {| t_objects := t_objects t; t_grants := t_grants t ++ [g];
     access_requests := access_requests t; audit_log := audit_log t |}.

Section requests.
Context `{UuidText}.

(** [new_id] is the primary key the database generates for the row. *)
Definition create_request (s : Session) (now : Z) (new_id : Uuid) (input : NewRequest) (t : Tables) :
    result Uuid RequestProblem * Tables :=
  match object_of (n_kind input) (n_id input) with
  | Err e => (Err e, t)
  | Ok target =>
      if is_collection target then (Err (RP_Invalid "kind"), t)
      else match principal s with
      | None => (Err RP_Forbidden, t)
      | Some sid =>
          let catalog := load (t_objects t) (t_grants t) now in
          if negb (is_some (effective_role catalog (subject s) target)) then (Err RP_NotFound, t)
          else
            match role_parse (n_role input) with
            | None => (Err (RP_Invalid "role"), t)
            | Some r =>
                let reason := trim (n_reason input) in
                let cols := columns target in
                if negb (may_request catalog (subject s) r target) then (Err (RP_Invalid "role"), t)
                else if negb (minutes_contains (n_minutes input)) then (Err (RP_Invalid "minutes"), t)
                else if bool_decide (reason = []) || (500 <? Z.of_nat (length reason))
                then (Err (RP_Invalid "reason"), t)
                else if existsb (fun ir => same_pending (user_id s) r cols ir.2)
                          (map_to_list (access_requests t))
                then (Err RP_RequestPending, t)
                else
                  (Ok new_id,
                   add_audit {| au_actor := user_id s; au_action := AccessRequested;
                                au_object := target; au_request := new_id |}
                     (put_request new_id
                        {| folder_id := cols.1.1; device_id := cols.1.2; credential_id := cols.2;
                           requester_id := user_id s; requester_sid := sid;
                           requester_name := username s; rq_role := role_as_str r;
                           rq_minutes := n_minutes input; rq_reason := reason;
                           status := Status_Pending; decided_by := None; decided_at := None;
                           rq_expires_at := None |} t))
            end
      end
  end.

(** ** Deciding *)

Inductive Decision_ := Approve | Deny.

Definition decided (s : Session) (now : Z) (d : Decision_) (r : RequestRow) : RequestRow :=
  {| folder_id := folder_id r; device_id := device_id r; credential_id := credential_id r;
     requester_id := requester_id r; requester_sid := requester_sid r;
     requester_name := requester_name r; rq_role := rq_role r; rq_minutes := rq_minutes r;
     rq_reason := rq_reason r;
     status := match d with Approve => Status_Approved | Deny => Status_Denied end;
     decided_by := Some (user_id s); decided_at := Some now;
     rq_expires_at := match d with
                      | Approve => Some (now + rq_minutes r * minute)
                      | Deny => None
                      end |}.

(** The grant of an approval: for the requester, until the request's end. *)
Definition approval_grant (i : Uuid) (target : ObjectId) (r : RequestRow) : GrantRow :=
  let cols := columns target in
  {| gr_folder := cols.1.1; gr_device := cols.1.2; gr_credential := cols.2; gr_collection := None;
     gr_principal_sid := requester_sid r; gr_role := rq_role r; gr_expires_at := rq_expires_at r;
     gr_request_id := Some i |}.

Definition decide_request (s : Session) (now : Z) (i : Uuid) (d : Decision_) (t : Tables) :
    result unit RequestProblem * Tables :=
  let catalog := load (t_objects t) (t_grants t) now in
  match access_requests t !! i with
  | None => (Err RP_NotFound, t)
  | Some request =>
      match object_id (folder_id request) (device_id request) (credential_id request) with
      | None => (Err RP_NotFound, t)
      | Some target =>
          if negb (may_approve catalog (subject s) target)
          then (Err (match effective_role catalog (subject s) target with
                     | Some _ => RP_Forbidden
                     | None => RP_NotFound
                     end), t)
          else if bool_decide (requester_id request = user_id s) then (Err RP_OwnRequest, t)
          else if bool_decide (status request <> Status_Pending) then (Err RP_RequestDecided, t)
          else
            let request' := decided s now d request in
            let t := put_request i request' t in
            let t := match d with
                     | Approve => push_grant_row (approval_grant i target request') t
                     | Deny => t
                     end in
            (Ok tt, add_audit {| au_actor := user_id s;
                                 au_action := match d with Approve => AccessApproved
                                                         | Deny => AccessDenied end;
                                 au_object := target; au_request := i |} t)
      end
  end.

(** ** Taking back *)

Definition cancelled (now : Z) (r : RequestRow) : RequestRow :=
  {| folder_id := folder_id r; device_id := device_id r; credential_id := credential_id r;
     requester_id := requester_id r; requester_sid := requester_sid r;
     requester_name := requester_name r; rq_role := rq_role r; rq_minutes := rq_minutes r;
     rq_reason := rq_reason r; status := Status_Cancelled; decided_by := decided_by r;
     decided_at := Some now; rq_expires_at := rq_expires_at r |}.

Definition cancel_request (s : Session) (now : Z) (i : Uuid) (t : Tables) :
    result unit RequestProblem * Tables :=
  match access_requests t !! i with
  | None => (Err RP_NotFound, t)
  | Some request =>
      if bool_decide (requester_id request <> user_id s) then (Err RP_NotFound, t)
      else if bool_decide (status request <> Status_Pending) then (Err RP_RequestDecided, t)
      else
        match object_id (folder_id request) (device_id request) (credential_id request) with
        | None => (Err RP_NotFound, t)
        | Some target =>
            (Ok tt, add_audit {| au_actor := user_id s; au_action := AccessCancelled;
                                 au_object := target; au_request := i |}
                      (put_request i (cancelled now request) t))
        end
  end.

(** ** Listing *)

Definition to_decide (s : Session) (now : Z) (t : Tables) : list (Uuid * RequestRow) :=
  let catalog := load (t_objects t) (t_grants t) now in
  filter (fun ir =>
    status ir.2 = Status_Pending /\ requester_id ir.2 <> user_id s
    /\ is_some_and (may_approve catalog (subject s))
         (object_id (folder_id ir.2) (device_id ir.2) (credential_id ir.2)) = true)
    (map_to_list (access_requests t)).

End requests.

(** ** What an approval gives *)

(** The columns of a request name its object again. *)
Lemma columns_object f d c target :
  object_id f d c = Some target ->
  grant_object (columns target).1.1 (columns target).1.2 (columns target).2 None = Some target.
Proof. unfold object_id. destruct f, d, c; simpl; intros [= <-]; done. Qed.

Lemma contains_new objects gs gs' now now' o :
  contains (catalog_new objects gs now) o = contains (catalog_new objects gs' now') o.
Proof. by destruct o. Qed.

(** One more row of grants. *)
Lemma authorize_load_snoc objects gs g now sub needed o :
  authorize (load objects (gs ++ [g]) now) sub needed o = true <->
  authorize (load objects gs now) sub needed o = true
  \/ (contains (load objects gs now) o = true
      /\ exists gr, grant_of_row g = Some gr /\ Model.ran_out (epoch now) gr = false
           /\ Model.principal gr ∈ sids sub /\ role_rank needed <= role_rank (Model.role gr)
           /\ rtc (above (load objects gs now)) o (Model.object gr)).
Proof.
  unfold load. rewrite omap_app. cbn [omap list_omap].
  set (gs1 := omap grant_of_row gs). set (extra := match grant_of_row g with Some y => [y] | None => [] end).
  rewrite !authorize_true. rewrite (contains_new objects (gs1 ++ extra) gs1 _ (epoch now)).
  setoid_rewrite grants_on_new. split.
  - intros (Hc & [Ha|(on & p & r & Hon & (gr & [Hg|Hg]%elem_of_app & Hgives) & Hp & Hr)]).
    + left. split; [done|by left].
    + left. split; [done|right]. exists on, p, r. split; [by eapply rtc_above_new|]. eauto.
    + right. split; [done|]. subst extra. destruct (grant_of_row g) as [g'|]; [|set_solver].
      apply list_elem_of_singleton in Hg as ->. destruct Hgives as (Hro & <- & <- & <-).
      exists g'. split_and!; done || by eapply rtc_above_new.
  - intros [[Hc [Ha|(on & p & r & Hon & (gr & Hg & Hgives) & Hp & Hr)]]
           |[Hc (gr & Hgr & Hro & Hp & Hr & Hon)]]; (split; [done|]).
    + by left.
    + right. exists on, p, r. split; [by eapply rtc_above_new|]. split; [|done].
      exists gr. split; [set_solver|done].
    + right. exists (Model.object gr), (Model.principal gr), (Model.role gr).
      split; [by eapply rtc_above_new|]. split; [|done]. exists gr.
      split; [|done]. subst extra. rewrite Hgr. set_solver.
Qed.

Section request_theorems.
Context `{UuidText}.

(** When a decision goes through: on every branch. *)
Lemma decide_ok s now i d t t' :
  decide_request s now i d t = (Ok tt, t') ->
  exists request target,
    access_requests t !! i = Some request
    /\ object_id (folder_id request) (device_id request) (credential_id request) = Some target
    /\ may_approve (load (t_objects t) (t_grants t) now) (subject s) target = true
    /\ requester_id request <> user_id s /\ status request = Status_Pending
    /\ t_objects t' = t_objects t
    /\ access_requests t' = <[i := decided s now d request]> (access_requests t)
    /\ t_grants t' = t_grants t ++ match d with
                                   | Approve => [approval_grant i target (decided s now d request)]
                                   | Deny => []
                                   end.
Proof.
  unfold decide_request. destruct (access_requests t !! i) as [request|] eqn:Hr; [|done].
  destruct (object_id _ _ _) as [target|] eqn:Ho; [|done].
  destruct (may_approve _ _ _) eqn:Ha; simpl; [|done].
  case_bool_decide; [done|]. case_bool_decide as Hst; [done|]. intros [= <-].
  exists request, target.
  destruct d; simpl; rewrite ?app_nil_r; split_and!; done.
Qed.

(** C4: Approving a request gives exactly what was asked for: afterwards, at
    any time, someone holds a role on an object if they held it without the
    approval, or if they are the requester, the time the request asked for has
    not passed, and the object is the request's or lies within it. *)
Theorem approval_gives_exactly (s : Session) (now x : Z) (i : Uuid) (t t' : Tables)
    (sub : Subject) (needed : Role) (o : ObjectId) :
  decide_request s now i Approve t = (Ok tt, t') ->
  let catalog := load (t_objects t) (t_grants t) x in
  authorize (load (t_objects t') (t_grants t') x) sub needed o = true <->
  authorize catalog sub needed o = true
  \/ (contains catalog o = true
      /\ exists request target r, access_requests t !! i = Some request
           /\ object_id (folder_id request) (device_id request) (credential_id request) = Some target
           /\ role_parse (rq_role request) = Some r
           /\ epoch x < epoch (now + rq_minutes request * minute)
           /\ requester_sid request ∈ sids sub /\ role_rank needed <= role_rank r
           /\ rtc (above catalog) o target).
Proof.
  intros (request & target & Hr & Ho & _ & _ & _ & -> & _ & ->)%decide_ok catalog.
  rewrite authorize_load_snoc. fold catalog.
  unfold grant_of_row, approval_grant, decided.
  cbn [gr_folder gr_device gr_credential gr_collection gr_role gr_principal_sid gr_expires_at
       rq_role requester_sid rq_expires_at].
  rewrite (columns_object _ _ _ _ Ho).
  apply or_iff_compat_l, and_iff_compat_l. split.
  - intros (gr & Hg & Hro & Hp & Hn & Hon).
    destruct (role_parse (rq_role request)) as [r|] eqn:Hrole; [|done]. simplify_eq.
    unfold Model.ran_out in Hro. simpl in Hro, Hp, Hn, Hon. bools. by exists request, target, r.
  - intros (request' & target' & r & Hr' & Ho' & Hrole & Hx & Hp & Hn & Hon).
    rewrite Hr in Hr'. simplify_eq. rewrite Hrole.
    eexists. split; [done|]. split_and!; try done. unfold Model.ran_out. simpl. by apply Z.leb_gt.
Qed.

(** A decision goes through exactly when the request exists, is pending,
    is not the decider's own, and the decider manages its object at that
    moment; administrators are no exception to the four eyes. Otherwise
    nothing changes. *)
Theorem decide_iff (s : Session) (now : Z) (i : Uuid) (d : Decision_) (t : Tables) :
  let '(res, t') := decide_request s now i d t in
  (res = Ok tt <->
   exists request target, access_requests t !! i = Some request
     /\ object_id (folder_id request) (device_id request) (credential_id request) = Some target
     /\ authorize (load (t_objects t) (t_grants t) now) (subject s) Role_Manage target = true
     /\ requester_id request <> user_id s /\ status request = Status_Pending)
  /\ (res <> Ok tt -> t' = t).
Proof.
  destruct (decide_request s now i d t) as [res t'] eqn:Hd. split; [split|].
  - intros ->. apply decide_ok in Hd as (request & target & ? & ? & ? & ? & ? & _). eauto 10.
  - intros (request & target & Hr & Ho & Ha & Hne & Hst). unfold decide_request in Hd.
    rewrite Hr, Ho in Hd. unfold may_approve in Hd. rewrite Ha in Hd. simpl in Hd.
    rewrite bool_decide_false in Hd by done. rewrite bool_decide_false in Hd by (intros Hx; by apply Hx).
    by simplify_eq.
  - intros Hne. unfold decide_request in Hd.
    repeat (case_match; simplify_eq; try done).
Qed.

(** ** The life of a request *)

(** What changes the tables: the three handlers, and whatever else happens to
    objects and grants, which takes approved grants away but never makes one. *)
Inductive tables_step : Tables -> Tables -> Prop :=
| ts_create s now i input t :
    access_requests t !! i = None -> tables_step t (create_request s now i input t).2
| ts_decide s now i d t : tables_step t (decide_request s now i d t).2
| ts_cancel s now i t : tables_step t (cancel_request s now i t).2
| ts_other t objects kept extra log :
    sublist kept (t_grants t) -> Forall (fun g => gr_request_id g = None) extra ->
    tables_step t {| t_objects := objects; t_grants := kept ++ extra;
                     access_requests := access_requests t; audit_log := log |}.

Lemma create_ok s now i input t :
  (create_request s now i input t).2 = t
  \/ exists row, access_requests (create_request s now i input t).2 = <[i := row]> (access_requests t)
       /\ t_grants (create_request s now i input t).2 = t_grants t
       /\ status row = Status_Pending /\ 15 <= rq_minutes row <= 1440
       /\ (rq_role row = role_as_str Role_Connect \/ rq_role row = role_as_str Role_Reveal).
Proof.
  unfold create_request. destruct (object_of _ _) as [target|]; [|by left].
  destruct (is_collection target); [by left|]. destruct (principal s) as [p|]; [|by left].
  destruct (negb (is_some _)); [by left|].
  destruct (role_parse (n_role input)) as [r|]; [|by left].
  destruct (may_request _ _ r target) eqn:Hm; simpl; [|by left].
  destruct (minutes_contains _) eqn:Hmin; simpl; [|by left].
  destruct (bool_decide _ || _); [by left|]. destruct (existsb _ _); [by left|].
  right. eexists. split; [reflexivity|]. simpl. unfold minutes_contains in Hmin. bools.
  unfold may_request in Hm. bools. split_and!; try done.
  destruct r; try done; auto.
Qed.

Lemma cancel_ok s now i t :
  (cancel_request s now i t).2 = t
  \/ exists r, access_requests t !! i = Some r /\ status r = Status_Pending
       /\ access_requests (cancel_request s now i t).2 = <[i := cancelled now r]> (access_requests t)
       /\ t_grants (cancel_request s now i t).2 = t_grants t.
Proof.
  unfold cancel_request. destruct (access_requests t !! i) as [r|]; [|by left].
  case_bool_decide; [by left|]. case_bool_decide; [by left|].
  destruct (object_id _ _ _); [|by left]. right. eauto.
Qed.

Lemma decide_cases s now i d t :
  (decide_request s now i d t).2 = t
  \/ exists t', decide_request s now i d t = (Ok tt, t').
Proof.
  unfold decide_request. repeat (case_match; eauto).
Qed.

(** What every request, and every grant that came of one, looks like. *)
Definition row_ok (r : RequestRow) : Prop :=
  15 <= rq_minutes r <= 1440
  /\ (rq_role r = role_as_str Role_Connect \/ rq_role r = role_as_str Role_Reveal)
  /\ (status r = Status_Approved -> exists by_ at_,
        decided_by r = Some by_ /\ by_ <> requester_id r /\ decided_at r = Some at_
        /\ rq_expires_at r = Some (at_ + rq_minutes r * minute)).

Definition tables_ok (t : Tables) : Prop :=
  (forall i r, access_requests t !! i = Some r -> row_ok r)
  /\ NoDup (omap gr_request_id (t_grants t))
  /\ (forall g i, g ∈ t_grants t -> gr_request_id g = Some i ->
        exists r, access_requests t !! i = Some r /\ status r = Status_Approved
          /\ gr_principal_sid g = requester_sid r /\ gr_role g = rq_role r
          /\ gr_expires_at g = rq_expires_at r).

Lemma put_pending_ok t t' i row :
  tables_ok t -> access_requests t' = <[i := row]> (access_requests t) -> t_grants t' = t_grants t ->
  row_ok row ->
  (forall r, access_requests t !! i = Some r -> status r <> Status_Approved) -> tables_ok t'.
Proof.
  intros (Hrows & Hnd & Hg) Hreq Hgr Hrow Hnot. split_and!; [|by rewrite Hgr|].
  - intros j r. rewrite Hreq, lookup_insert. case_decide; [by intros [= <-]|apply Hrows].
  - intros g j Hin Hj. rewrite Hgr in Hin. destruct (Hg g j Hin Hj) as (r & Hr & Hst & Hrest).
    exists r. rewrite Hreq, lookup_insert_ne; [done|]. intros ->. by apply (Hnot r).
Qed.

Lemma omap_request_none (l : list GrantRow) :
  Forall (fun g => gr_request_id g = None) l -> omap gr_request_id l = [].
Proof. induction 1 as [|g l Hg _ IH]; simpl; [done|]. by rewrite Hg. Qed.

Lemma omap_sublist {A B} (f : A -> option B) l l' : sublist l l' -> sublist (omap f l) (omap f l').
Proof.
  induction 1 as [|x l1 l2 _ IH|x l1 l2 _ IH]; simpl; [constructor|..];
    destruct (f x); simpl; by try constructor.
Qed.

Lemma tables_step_ok t t' : tables_ok t -> tables_step t t' -> tables_ok t'.
Proof.
  intros Ht Hs. destruct Hs as [s now i input t Hnew|s now i d t|s now i t
    |t objects kept extra log Hsub Hextra].
  - destruct (create_ok s now i input t) as [->|(row & Hreq & Hgr & Hst & Hmin & Hrole)]; [done|].
    eapply put_pending_ok; [exact Ht|exact Hreq|exact Hgr| |intros r Hr; congruence].
    split_and!; [lia|lia|done|]. rewrite Hst. done.
  - destruct (decide_cases s now i d t) as [->|[t' Hd]]; [done|]. rewrite Hd. simpl.
    apply decide_ok in Hd as (r & target & Hr & Ho & _ & Hne & Hst & _ & Hreq & Hgr).
    pose proof Ht as (Hrows & Hnd & Hg). pose proof (Hrows i r Hr) as (Hmin & Hrole & _).
    assert (Hrow : row_ok (decided s now d r)).
    { unfold row_ok. simpl. split_and!; [lia|lia|done|]. destruct d; simpl; [|done]. intros _. eexists _, _.
      split_and!; done || congruence. }
    destruct d; [|rewrite app_nil_r in Hgr;
      eapply put_pending_ok; [exact Ht|exact Hreq|exact Hgr|done|congruence]].
    assert (Hfresh : i ∉ omap gr_request_id (t_grants t)).
    { intros (g & Hin & Hgi)%list_elem_of_omap. destruct (Hg g i Hin Hgi) as (r' & ? & ? & _).
      congruence. }
    split_and!.
    + intros j r'. rewrite Hreq, lookup_insert. case_decide; [by intros [= <-]|apply Hrows].
    + rewrite Hgr, omap_app. simpl. apply NoDup_app. split_and!; [done| |apply NoDup_singleton].
      intros j Hj ->%list_elem_of_singleton. done.
    + intros g j Hin Hj. rewrite Hreq. rewrite Hgr in Hin.
      apply elem_of_app in Hin as [Hin| ->%list_elem_of_singleton].
      * rewrite lookup_insert_ne; [by apply Hg|]. intros ->. apply Hfresh.
        apply list_elem_of_omap. eauto.
      * simpl in Hj. simplify_eq. rewrite lookup_insert_eq. eexists. split; [done|]. done.
  - destruct (cancel_ok s now i t) as [->|(r & Hr & Hst & Hreq & Hgr)]; [done|].
    destruct Ht as (Hrows & Hrest). pose proof (Hrows i r Hr) as (Hmin & Hrole & _).
    eapply put_pending_ok; [split; done|exact Hreq|exact Hgr| |congruence].
    split_and!; [simpl; lia|simpl; lia|done|done].
  - destruct Ht as (Hrows & Hnd & Hg). split_and!; simpl; [done| |].
    + rewrite omap_app, (omap_request_none extra), app_nil_r by done.
      eapply sublist_NoDup; [exact Hnd|]. by apply omap_sublist.
    + intros g j [Hin|Hin]%elem_of_app Hj; [apply Hg; [|done]; by eapply sublist_subseteq|].
      rewrite Forall_forall in Hextra. specialize (Hextra g Hin). congruence.
Qed.

(** No requests yet, and no grant that came of one. *)
Definition no_requests (t : Tables) : Prop :=
  access_requests t = ∅ /\ Forall (fun g => gr_request_id g = None) (t_grants t).

(** Whatever happens, every grant that came of a request belongs to an
    approved one, at most one to each; someone other than the requester
    decided it; it names the requester, gives [connect] or [reveal], and ends
    between a quarter of an hour and a day after the decision. *)
Theorem timed_grants_were_approved (t0 t : Tables) (g : GrantRow) (i : Uuid) :
  no_requests t0 -> rtc tables_step t0 t -> g ∈ t_grants t -> gr_request_id g = Some i ->
  NoDup (omap gr_request_id (t_grants t))
  /\ exists r by_ at_, access_requests t !! i = Some r /\ status r = Status_Approved
       /\ decided_by r = Some by_ /\ by_ <> requester_id r
       /\ gr_principal_sid g = requester_sid r
       /\ (gr_role g = role_as_str Role_Connect \/ gr_role g = role_as_str Role_Reveal)
       /\ gr_expires_at g = Some (at_ + rq_minutes r * minute) /\ 15 <= rq_minutes r <= 1440.
Proof.
  intros [He Hnone] Hrtc Hin Hi.
  assert (Hok : tables_ok t).
  { eapply (rtc_closed tables_step tables_ok); [exact tables_step_ok|exact Hrtc|].
    split_and!; [by rewrite He|by rewrite omap_request_none; [constructor|]|].
    intros g' j Hin' Hj. rewrite Forall_forall in Hnone. specialize (Hnone g' Hin'). congruence. }
  destruct Hok as (Hrows & Hnd & Hg). split; [done|].
  destruct (Hg g i Hin Hi) as (r & Hr & Hst & Hp & Hrole & Hexp).
  destruct (Hrows i r Hr) as (Hmin & Hroles & Happ).
  destruct (Happ Hst) as (by_ & at_ & Hby & Hne & _ & Hend). exists r, by_, at_.
  rewrite Hrole, Hexp. done.
Qed.

(** A request is decided once: when it has been approved, denied or taken
    back, nothing that happens later changes it. *)
Theorem decided_once (t t' : Tables) (i : Uuid) (r : RequestRow) :
  rtc tables_step t t' -> access_requests t !! i = Some r -> status r <> Status_Pending ->
  access_requests t' !! i = Some r.
Proof.
  intros Hrtc Hr Hst. revert Hr.
  apply (rtc_closed tables_step (fun t => access_requests t !! i = Some r)); [|exact Hrtc].
  clear t t' Hrtc. intros t t' Hr Hs.
  destruct Hs as [s now j input t Hnew|s now j d t|s now j t|]; [| | |done].
  - destruct (create_ok s now j input t) as [->|(row & -> & _)]; [done|].
    rewrite lookup_insert_ne; [done|]. congruence.
  - destruct (decide_cases s now j d t) as [->|[t' Hd]]; [done|]. rewrite Hd. simpl.
    apply decide_ok in Hd as (r' & target & Hr' & _ & _ & _ & Hst' & _ & -> & _).
    rewrite lookup_insert_ne; [done|]. congruence.
  - destruct (cancel_ok s now j t) as [->|(r' & Hr' & Hst' & -> & _)]; [done|].
    rewrite lookup_insert_ne; [done|]. congruence.
Qed.

End request_theorems.

(** ** Examples *)

Module RequestExamples.

#[local] Instance decimal_uuid : UuidText := decimal.

Definition user (i : Uuid) (n : string) (admin_ : bool) : Session :=
  {| token_hash := []; session_id := 0; client := lit "web"; user_id := i; username := lit n;
     display_name := lit n; kind := lit "local"; sid := None; upn := None; s_group_sids := [];
     identity_id := Some i; memberships := [];
     roles := if admin_ then [lit "administrator"] else []; locked := false; confirmed := false |}.

Definition alice : Session := user 1 "alice" false.
Definition boss : Session := user 2 "boss" true.

(** A folder with a device, and Alice may list what is in the folder. *)
Definition tables0 : Tables :=
  {| t_objects := {| folders := [(10, None)]; collections := []; devices := [(20, 10)];
                     credentials := []; profiles := [] |};
     t_grants := [{| gr_folder := Some 10; gr_device := None; gr_credential := None;
                     gr_collection := None; gr_principal_sid := lit "local:1";
                     gr_role := lit "list"; gr_expires_at := None; gr_request_id := None |}];
     access_requests := ∅; audit_log := [] |}.

Definition ask : NewRequest :=
  {| n_kind := lit "device"; n_id := 20; n_role := lit "connect"; n_minutes := 60;
     n_reason := lit " update " |}.

Definition asked : Tables := (create_request alice 0 30 ask tables0).2.
Definition approved : Tables := (decide_request boss second 30 Approve asked).2.

Definition alice_may (t : Tables) (now : Z) : bool :=
  authorize (load (t_objects t) (t_grants t) now) (subject alice) Role_Connect (Device 20).

Example request_story :
  (create_request alice 0 30 ask tables0).1 = Ok 30
  /\ (decide_request alice second 30 Approve asked).1 = Err RP_Forbidden
  /\ (decide_request boss second 30 Approve asked).1 = Ok tt
  /\ (decide_request boss second 30 Deny approved).1 = Err RP_RequestDecided
  /\ alice_may asked second = false /\ alice_may approved second = true
  /\ alice_may approved (61 * minute) = false.
Proof. split_and!; vm_compute; reflexivity. Qed.

Lemma approval_gives_exactly_witness : alice_may approved (30 * minute) = true.
Proof.
  apply (approval_gives_exactly boss second (30 * minute) 30 asked approved (subject alice)
    Role_Connect (Device 20)); [vm_compute; reflexivity|].
  right. split; [vm_compute; reflexivity|].
  eexists _, (Device 20), Role_Connect.
  split; [vm_compute; reflexivity|]. split; [reflexivity|]. split; [vm_compute; reflexivity|].
  split; [vm_compute; reflexivity|]. split; [|split; [simpl; lia|apply rtc_refl]].
  apply elem_of_list_to_set. vm_compute. left.
Defined.

Definition story : rtc tables_step tables0 approved.
Proof.
  eapply rtc_l; [apply (ts_create alice 0 30 ask); reflexivity|].
  eapply rtc_l; [apply (ts_decide boss second 30 Approve)|]. apply rtc_refl.
Qed.

Definition alice_grant : GrantRow :=
  {| gr_folder := None; gr_device := Some 20; gr_credential := None; gr_collection := None;
     gr_principal_sid := lit "local:1"; gr_role := lit "connect";
     gr_expires_at := Some (second + 60 * minute); gr_request_id := Some 30 |}.

Lemma timed_grants_were_approved_witness :
  exists r, access_requests approved !! 30 = Some r /\ status r = Status_Approved.
Proof.
  destruct (timed_grants_were_approved tables0 approved alice_grant 30)
    as [_ (r & by_ & at_ & Hr & Hst & _)];
    [split; [reflexivity|repeat constructor]|exact story| |reflexivity|exists r; split; [exact Hr|exact Hst]].
  vm_compute. right. left.
Defined.

Definition approved_row : RequestRow :=
  {| folder_id := None; device_id := Some 20; credential_id := None; requester_id := 1;
     requester_sid := lit "local:1"; requester_name := lit "alice"; rq_role := lit "connect";
     rq_minutes := 60; rq_reason := lit "update"; status := Status_Approved;
     decided_by := Some 2; decided_at := Some second; rq_expires_at := Some (second + 60 * minute) |}.

Lemma decided_once_witness :
  access_requests (decide_request boss (5 * second) 30 Deny approved).2 !! 30 = Some approved_row.
Proof.
  apply (decided_once approved); [apply rtc_once, ts_decide|vm_compute; reflexivity|discriminate].
Defined.

End RequestExamples.
