(* ===== verification/Vault.v ===== *)
(** * The vault (crates/vault/src/lib.rs)

    Sealing and opening of stored secrets over whichever provider of master
    keys is configured. XChaCha20-Poly1305 is a parameter with the two
    properties its documentation gives: what was encrypted decrypts with the
    same key, nonce and associated data, and with no other associated data.
    Random keys and nonces are arguments. *)
From S2P Require Import Prelude Text Utf8.

Definition SCHEME : list Z := lit "xchacha20poly1305-v1".
Definition KEY_LEN : nat := 32.
Definition NONCE_LEN : nat := 24.

Abbreviation bytes := (list Z) (only parsing).
Abbreviation Key := (list Z) (only parsing).

Inductive VaultError :=
| VaultError_Open
| UnknownScheme (scheme : list Z)
| UnknownKey (id : list Z) (version : Z)
| KeyFile (reason : list Z)
| InvalidPublicKey.

#[export] Instance vault_error_eq_dec : EqDecision VaultError.
Proof. solve_decision. Defined.

(** ** Providers of master keys *)

(** The trait [KeyProvider]. *)
Class KeyProvider (K : Type) := {
  current : K -> list Z * Z;
  master_key : K -> list Z -> Z -> result (list Z) VaultError;
  all_keys : K -> list (list Z * Z)
}.

(** What a vault relies on: the current key is there and is one of those
    listed. *)
Class KeyProviderOk {K : Type} `{KeyProvider K} (k : K) : Prop := {
  current_available : is_ok (master_key k (current k).1 (current k).2) = true;
  current_listed : current k ∈ all_keys k
}.

(** The crate [chacha20poly1305]. *)
Class Aead := {
  cipher_encrypt : list Z -> list Z -> list Z -> list Z -> list Z;
  cipher_decrypt : list Z -> list Z -> list Z -> list Z -> option (list Z)
}.

Class AeadOk `{Aead} : Prop := {
  decrypt_encrypt key nonce aad msg :
    cipher_decrypt key nonce aad (cipher_encrypt key nonce aad msg) = Some msg;
  decrypt_aad key nonce aad aad' msg msg' :
    cipher_decrypt key nonce aad' (cipher_encrypt key nonce aad msg) = Some msg' -> aad' = aad
}.

Section cipher.
Context `{Aead}.

Definition encrypt (key : Key) (nonce aad plaintext : bytes) : list Z :=
  nonce ++ cipher_encrypt key nonce aad plaintext.

Definition decrypt (key : Key) (aad sealed : bytes) : result (list Z) VaultError :=
  if bool_decide (length sealed < NONCE_LEN)%nat then Err VaultError_Open
  else ok_or (cipher_decrypt key (take NONCE_LEN sealed) aad (drop NONCE_LEN sealed))
         VaultError_Open.

(** ** Detached secrets *)

Definition detached_aad (context : bytes) : list Z := utf8 (lit "remotehub|detached|") ++ context.

Definition detached_seal (key : Key) (nonce context plaintext : bytes) : list Z :=
  encrypt key nonce (detached_aad context) plaintext.

Definition detached_open (key : Key) (context sealed : bytes) : result (list Z) VaultError :=
  decrypt key (detached_aad context) sealed.

End cipher.

(** ** Sealed values *)

Record Context_ := { owner : Uuid; version : Z; field : list Z }.

Record Sealed := {
  scheme : list Z;
  kek_id : list Z;
  kek_version : Z;
  wrapped_key : list Z;
  ciphertext : list Z
}.

Section vault.
Context {K : Type} `{KeyProvider K, Aead, UuidText}.

Definition associated_data (c : Context_) (kek_id : str) (kek_version : Z) : list Z :=
  utf8 (lit "remotehub|" ++ SCHEME ++ lit "|" ++ uuid_text (owner c) ++ lit "|"
        ++ decimal_signed (version c) ++ lit "|" ++ field c ++ lit "|" ++ kek_id ++ lit "|"
        ++ decimal_signed kek_version).

(** [seal]; the data key and the two nonces are the random numbers it draws. *)
Definition seal (k : K) (data_key nonce1 nonce2 : bytes) (c : Context_) (plaintext : bytes) :
    result Sealed VaultError :=
  let '(kek_id, kek_version) := current k in
  let? master := master_key k kek_id kek_version in
  let aad := associated_data c kek_id kek_version in
  Ok {| scheme := SCHEME; kek_id := kek_id; kek_version := kek_version;
        wrapped_key := encrypt master nonce1 aad data_key;
        ciphertext := encrypt data_key nonce2 aad plaintext |}.

Definition open (k : K) (c : Context_) (s : Sealed) : result (list Z) VaultError :=
  if bool_decide (scheme s <> SCHEME) then Err (UnknownScheme (scheme s))
  else
    let? master := master_key k (kek_id s) (kek_version s) in
    let aad := associated_data c (kek_id s) (kek_version s) in
    let? data_key := decrypt master aad (wrapped_key s) in
    if bool_decide (length data_key <> KEY_LEN) then Err VaultError_Open
    else decrypt data_key aad (ciphertext s).

Definition rewrap (k : K) (data_key nonce1 nonce2 : bytes) (c : Context_) (s : Sealed) :
    result (option Sealed) VaultError :=
  let '(id, v) := current k in
  if bool_decide (kek_id s = id) && (kek_version s =? v) then Ok None
  else
    let? plaintext := open k c s in
    let? sealed := seal k data_key nonce1 nonce2 c plaintext in
    Ok (Some sealed).

End vault.

(** ** Theorems *)

(** A UUID's text has hexadecimal digits and hyphens only, and names one UUID. *)
Class UuidTextOk `{UuidText} : Prop := {
  uuid_text_inj i j : uuid_text i = uuid_text j -> i = j;
  uuid_text_bar i : 124 ∉ uuid_text i;
  uuid_text_scalar i : Forall (fun c => scalar c = true) (uuid_text i)
}.

Lemma decimal_signed_not c n : is_ascii_digit c = false -> c <> 45 -> c ∉ decimal_signed n.
Proof.
  intros Hc H45. unfold decimal_signed.
  destruct (n <? 0) eqn:E; bools.
  - rewrite not_elem_of_cons. split; [done|]. apply decimal_not_elem; [lia|done].
  - apply decimal_not_elem; [lia|done].
Qed.

Lemma decimal_signed_inj a b : decimal_signed a = decimal_signed b -> a = b.
Proof.
  unfold decimal_signed. destruct (a <? 0) eqn:Ea, (b <? 0) eqn:Eb; bools; intros Hd.
  - injection Hd as Hd. apply decimal_inj in Hd; lia.
  - assert (45 ∉ decimal b) by (apply decimal_not_elem; [lia|done]). rewrite <- Hd in *. set_solver.
  - assert (45 ∉ decimal a) by (apply decimal_not_elem; [lia|done]). rewrite Hd in *. set_solver.
  - apply decimal_inj in Hd; lia.
Qed.

Lemma decimal_signed_scalar n : Forall (fun c => scalar c = true) (decimal_signed n).
Proof.
  assert (Hd : forall m, 0 <= m -> Forall (fun c => scalar c = true) (decimal m)).
  { intros m Hm. eapply Forall_impl; [by apply decimal_digits|]. unfold is_ascii_digit.
    intros c Hc. simpl in Hc. bools. apply scalar_true. lia. }
  unfold decimal_signed. destruct (n <? 0) eqn:E; bools; [constructor; [done|]|]; apply Hd; lia.
Qed.

(** The part in front of the first separator is determined. *)
Lemma first_sep_inj (sep : Z) (a b c d : list Z) :
  sep ∉ a -> sep ∉ c -> a ++ sep :: b = c ++ sep :: d -> a = c /\ b = d.
Proof.
  intros Ha Hc Heq. pose proof (split_once_app sep a b Ha) as H1.
  rewrite Heq, split_once_app in H1 by done. by simplify_eq.
Qed.

Section vault_theorems.
Context {K : Type} `{KeyProvider K} (k : K) `{!KeyProviderOk k} `{AeadOk, UuidTextOk}.

Definition text_ok (s : list Z) : Prop := Forall (fun c => scalar c = true) s.

Lemma associated_data_scalar c id v :
  text_ok (field c) -> text_ok id ->
  text_ok (lit "remotehub|" ++ SCHEME ++ lit "|" ++ uuid_text (owner c) ++ lit "|"
        ++ decimal_signed (version c) ++ lit "|" ++ field c ++ lit "|" ++ id ++ lit "|"
        ++ decimal_signed v).
Proof.
  unfold text_ok. intros Hf Hid. rewrite !Forall_app.
  split_and!; try done; try apply decimal_signed_scalar; try apply uuid_text_scalar;
    by repeat constructor.
Qed.

(** The associated data of one master key names one place. *)
Lemma associated_data_inj c c' id v :
  text_ok (field c) -> text_ok (field c') -> text_ok id ->
  associated_data c id v = associated_data c' id v -> c = c'.
Proof.
  intros Hf Hf' Hid Heq. apply utf8_inj in Heq; [|by apply associated_data_scalar..].
  apply app_inv_head, app_inv_head, app_inv_head in Heq.
  apply first_sep_inj in Heq as [Ho%uuid_text_inj Heq]; [|apply uuid_text_bar..].
  apply first_sep_inj in Heq as [Hv%decimal_signed_inj Heq]; [|by apply decimal_signed_not..].
  apply app_inv_tail in Heq. destruct c, c'; simpl in *. congruence.
Qed.

Lemma decrypt_encrypt_same key nonce aad msg :
  length nonce = NONCE_LEN -> decrypt key aad (encrypt key nonce aad msg) = Ok msg.
Proof.
  intros Hn. unfold decrypt, encrypt. rewrite bool_decide_false by (rewrite length_app; lia).
  rewrite take_app_length', drop_app_length' by done. by rewrite decrypt_encrypt.
Qed.

Lemma decrypt_other_aad key nonce aad aad' msg :
  length nonce = NONCE_LEN -> aad' <> aad ->
  decrypt key aad' (encrypt key nonce aad msg) = Err VaultError_Open.
Proof.
  intros Hn Hne. unfold decrypt, encrypt. rewrite bool_decide_false by (rewrite length_app; lia).
  rewrite take_app_length', drop_app_length' by done.
  destruct (cipher_decrypt _ _ _ _) eqn:Hd; [|done]. by apply decrypt_aad in Hd.
Qed.

(** A vault always seals: the current key is there. *)
Lemma seal_ok data_key n1 n2 c plaintext :
  exists master, master_key k (current k).1 (current k).2 = Ok master
    /\ seal k data_key n1 n2 c plaintext
       = Ok {| scheme := SCHEME; kek_id := (current k).1; kek_version := (current k).2;
               wrapped_key := encrypt master n1
                 (associated_data c (current k).1 (current k).2) data_key;
               ciphertext := encrypt data_key n2
                 (associated_data c (current k).1 (current k).2) plaintext |}.
Proof.
  pose proof (current_available (k := k)) as Ha. unfold seal. destruct (current k) as [id v]. simpl in *.
  destruct (master_key k id v) as [master|]; [|done]. by exists master.
Qed.

Lemma open_same data_key n1 n2 c plaintext s :
  length data_key = KEY_LEN -> length n1 = NONCE_LEN -> length n2 = NONCE_LEN ->
  seal k data_key n1 n2 c plaintext = Ok s -> open k c s = Ok plaintext.
Proof.
  intros Hk Hn1 Hn2 Hs.
  destruct (seal_ok data_key n1 n2 c plaintext) as (master & Hm & Hs'). rewrite Hs in Hs'.
  injection Hs' as ->. unfold open. cbn [scheme kek_id kek_version wrapped_key ciphertext].
  rewrite bool_decide_false by (intros Hx; by apply Hx). rewrite Hm, decrypt_encrypt_same by done.
  rewrite bool_decide_false by (intros Hx; by apply Hx). by apply decrypt_encrypt_same.
Qed.

(** C32: A sealed secret opens to what was sealed, in the place it was sealed
    for; in any other place, a different owner, version or field, it does not
    open. *)
Theorem sealed_opens_only_in_its_place (data_key n1 n2 : bytes) (c c' : Context_)
    (plaintext : bytes) (s : Sealed) :
  length data_key = KEY_LEN -> length n1 = NONCE_LEN -> length n2 = NONCE_LEN ->
  text_ok (field c) -> text_ok (field c') -> text_ok (current k).1 ->
  seal k data_key n1 n2 c plaintext = Ok s ->
  (c' = c -> open k c' s = Ok plaintext) /\ (c' <> c -> open k c' s = Err VaultError_Open).
Proof.
  intros Hk Hn1 Hn2 Hf Hf' Hid Hs. split; [intros ->; exact (open_same data_key n1 n2 _ plaintext s Hk Hn1 Hn2 Hs)|]. intros Hne.
  destruct (seal_ok data_key n1 n2 c plaintext) as (master & Hm & Hs'). rewrite Hs in Hs'.
  injection Hs' as ->. unfold open. cbn [scheme kek_id kek_version wrapped_key ciphertext].
  rewrite bool_decide_false by (intros Hx; by apply Hx). rewrite Hm, decrypt_other_aad; [done|done|].
  intros Heq. by apply Hne, (associated_data_inj _ _ (current k).1 (current k).2).
Qed.

(** Rotating a secret to the current master key keeps it: if it opened
    before, then it is already under the current key, or its new form is,
    and opens in the same place to the same plaintext. *)
Theorem rewrap_keeps (data_key n1 n2 : bytes) (c : Context_) (s : Sealed)
    (plaintext : bytes) :
  length data_key = KEY_LEN -> length n1 = NONCE_LEN -> length n2 = NONCE_LEN ->
  open k c s = Ok plaintext ->
  match rewrap k data_key n1 n2 c s with
  | Ok None => (kek_id s, kek_version s) = current k
  | Ok (Some s') => (kek_id s', kek_version s') = current k /\ open k c s' = Ok plaintext
  | Err _ => False
  end.
Proof.
  intros Hk Hn1 Hn2 Ho. unfold rewrap. destruct (current k) as [id v] eqn:Hc.
  destruct (bool_decide _ && _) eqn:E; bools; [by f_equal|].
  rewrite Ho. destruct (seal_ok data_key n1 n2 c plaintext) as (master & Hm & Hs). rewrite Hs.
  split; [by rewrite Hc|]. exact (open_same data_key n1 n2 c plaintext _ Hk Hn1 Hn2 Hs).
Qed.

End vault_theorems.
