(* ===== verification/Keyring.v ===== *)
(** * Master keys from a file (crates/vault/src/keyring.rs)

    The parser of the key file, and the keyring as the provider of master keys
    a vault takes. Base64 is a parameter. *)
From S2P Require Import Prelude Text Utf8 Vault.

Definition FILE_KEYRING_ID : list Z := lit "file".

Record FileKeyring := { keys : gmap Z (list Z); kr_current : Z }.

(** The crate [base64], standard alphabet. *)
Class Base64 := {
  b64_encode : list Z -> list Z;
  b64_decode : list Z -> option (list Z)
}.

Section keyring.
Context `{Base64}.

Definition invalid (number : nat) : VaultError :=
  KeyFile (lit "line " ++ decimal (Z.of_nat number + 1) ++ lit " is not <version>:<base64 key>").

(** A line's version and key; none for an empty line or a comment. *)
Definition parse_line (number : nat) (line : str) : result (option (Z * list Z)) VaultError :=
  let line := trim line in
  if bool_decide (line = []) || starts_with [35] line then Ok None
  else
    let? (version, encoded) := ok_or (split_once 58 line) (invalid number) in
    let? version := ok_or (parse_signed i32_max (trim version)) (invalid number) in
    if version <? 1 then Err (invalid number)
    else
      let? bytes := ok_or (b64_decode (trim encoded)) (invalid number) in
      if bool_decide (length bytes <> KEY_LEN)
      then Err (KeyFile (lit "line " ++ decimal (Z.of_nat number + 1) ++ lit ": a key has "
                         ++ decimal (Z.of_nat KEY_LEN) ++ lit " bytes"))
      else Ok (Some (version, bytes)).

Fixpoint parse_lines (number : nat) (ls : list (list Z)) (ks : gmap Z (list Z)) :
    result (gmap Z (list Z)) VaultError :=
  match ls with
  | [] => Ok ks
  | l :: ls =>
      let? entry := parse_line number l in
      match entry with
      | None => parse_lines (S number) ls ks
      | Some (v, key) =>
          if is_some (ks !! v)
          then Err (KeyFile (lit "version " ++ decimal_signed v ++ lit " appears twice"))
          else parse_lines (S number) ls (<[v := key]> ks)
      end
  end.

(** [keys.keys().next_back()]: the highest version. *)
Definition highest (ks : gmap Z (list Z)) : option Z :=
  foldr (fun v acc => Some match acc with None => v | Some m => Z.max m v end) None
    (Prelude.keys ks).

Definition parse (content : str) : result FileKeyring VaultError :=
  let? ks := parse_lines 0 (lines content) ∅ in
  let? current := ok_or (highest ks) (KeyFile (lit "no key found")) in
  Ok {| keys := ks; kr_current := current |}.

(** A new line of the file, with a key of random bytes. *)
Definition generate_key_line (version : Z) (key : bytes) : list Z :=
  decimal_signed version ++ lit ":" ++ b64_encode key.

#[export] Instance file_keyring : KeyProvider FileKeyring := {
  current k := (FILE_KEYRING_ID, kr_current k);
  master_key k id v :=
    match keys k !! v with
    | Some key => if bool_decide (id = FILE_KEYRING_ID) then Ok key else Err (UnknownKey id v)
    | None => Err (UnknownKey id v)
    end;
  all_keys k := (fun v => (FILE_KEYRING_ID, v)) <$> Prelude.keys (keys k)
}.

End keyring.

(** ** Theorems *)

Lemma split_by_app_sep sep a c b :
  sep c = true -> split_by sep (a ++ c :: b) = split_by sep a ++ split_by sep b.
Proof.
  intros Hc. induction a as [|d a IH]; cbn [app split_by]; [by rewrite Hc|]. rewrite IH.
  destruct (sep d); [done|]. pose proof (split_by_not_nil sep a).
  by destruct (split_by sep a).
Qed.

Lemma lines_snoc content line :
  10 ∉ line -> line <> [] ->
  lines (content ++ [10]) = drop_cr <$> split 10 content
  /\ lines ((content ++ [10]) ++ line) = (drop_cr <$> split 10 content) ++ [drop_cr line].
Proof.
  intros Hn Hne. pose proof (split_not_in 10 line Hn) as Hline. unfold lines, split in *.
  rewrite <- app_assoc. simpl app. rewrite !split_by_app_sep by done. rewrite Hline.
  rewrite !reverse_app. simpl. split; [by rewrite reverse_involutive|].
  change (reverse [line]) with [line]. cbn [app].
  destruct line; [done|]. by rewrite fmap_app.
Qed.

Lemma drop_cr_none l : 13 ∉ l -> drop_cr l = l.
Proof.
  intros Hl. unfold drop_cr. destruct (reverse l) as [|c r] eqn:Hr; [done|].
  destruct (decide (c = 13)) as [->|Hne].
  - exfalso. apply Hl, elem_of_reverse. rewrite Hr. set_solver.
  - clear -Hne. destruct c as [|p|p]; try done. repeat (destruct p as [p|p|]; try done).
Qed.


Lemma highest_spec ks m :
  highest ks = Some m <-> is_Some (ks !! m) /\ forall v, is_Some (ks !! v) -> v <= m.
Proof.
  unfold highest. setoid_rewrite <- elem_of_keys. generalize (Prelude.keys ks). intros l.
  revert m. induction l as [|x l IH]; intros m; simpl; [split; [done|set_solver]|].
  destruct (foldr _ None l) as [n|] eqn:Hf.
  - destruct (proj1 (IH n) eq_refl) as [Hn Hmax]. setoid_rewrite elem_of_cons. split.
    + intros [= <-]. split; [destruct (Z.max_spec n x) as [[_ ->]|[_ ->]]; auto|].
      intros v [->|Hv]; [lia|]. specialize (Hmax v Hv). lia.
    + intros [Hm Hall]. f_equal. pose proof (Hall x (or_introl eq_refl)).
      pose proof (Hall n (or_intror Hn)). destruct Hm as [->|Hm]; [lia|].
      specialize (Hmax m Hm). lia.
  - assert (l = []) as -> by (by destruct l). split.
    + intros [= <-]. set_solver.
    + intros [Hm _]. f_equal. set_solver.
Qed.

Section keyring_theorems.
Context `{Base64}.

Lemma parse_lines_app n l1 l2 ks :
  parse_lines n (l1 ++ l2) ks
  = let? ks' := parse_lines n l1 ks in parse_lines (n + length l1) l2 ks'.
Proof.
  revert n ks. induction l1 as [|l l1 IH]; intros n ks; simpl; [by rewrite Nat.add_0_r|].
  destruct (parse_line n l) as [[[v key]|]|]; [| |done].
  - destruct (is_some (ks !! v)); [done|]. rewrite IH. by rewrite <- Nat.add_succ_comm.
  - rewrite IH. by rewrite <- Nat.add_succ_comm.
Qed.

Definition keys_ok (ks : gmap Z (list Z)) : Prop :=
  map_Forall (fun v key => 1 <= v <= i32_max /\ length key = KEY_LEN) ks.

Lemma parse_line_ok n l v key :
  parse_line n l = Ok (Some (v, key)) -> 1 <= v <= i32_max /\ length key = KEY_LEN.
Proof.
  unfold parse_line. destruct (_ || _); [done|].
  destruct (split_once 58 (trim l)) as [[a b]|]; [|done]. simpl.
  destruct (parse_signed i32_max (trim a)) as [w|] eqn:Hw; [|done]. simpl.
  destruct (w <? 1) eqn:E; [done|]. destruct (b64_decode (trim b)) as [bs|]; [|done]. simpl.
  case_bool_decide as Hl; [done|]. intros [= <- <-]. bools.
  apply parse_signed_bound in Hw; [|unfold i32_max; lia]. split; [lia|done].
Qed.

Lemma parse_lines_ok n ls ks ks' :
  keys_ok ks -> parse_lines n ls ks = Ok ks' -> keys_ok ks'.
Proof.
  revert n ks. induction ls as [|l ls IH]; intros n ks Hks; simpl; [by intros [= <-]|].
  destruct (parse_line n l) as [[[v key]|]|] eqn:Hl; [| |done].
  - destruct (is_some (ks !! v)); [done|]. apply IH, map_Forall_insert_2; [|done].
    by eapply parse_line_ok.
  - by apply IH.
Qed.

Lemma parse_spec content kr :
  parse content = Ok kr ->
  parse_lines 0 (lines content) ∅ = Ok (keys kr) /\ highest (keys kr) = Some (kr_current kr).
Proof.
  unfold parse. destruct (parse_lines 0 (lines content) ∅) as [ks|]; [|done].
  destruct (highest ks) as [m|] eqn:Hm; simpl; [|done]. by intros [= <-].
Qed.

(** A keyring that was read is a provider a vault can rely on. *)
Lemma parsed_keyring_ok content kr : parse content = Ok kr -> KeyProviderOk kr.
Proof.
  intros [_ Hh]%parse_spec. apply highest_spec in Hh as [Hs _]. split; simpl.
  - destruct Hs as [key Hkey]. by rewrite Hkey.
  - apply list_elem_of_fmap. exists (kr_current kr). split; [done|]. by apply elem_of_keys.
Qed.

(** What the crate [base64] documents: decoding inverts encoding, and the text
    holds letters, digits, [+], [/] and [=] only. *)
Hypothesis b64_inverse : forall key,
  Forall (fun b => 0 <= b < 256) key -> b64_decode (b64_encode key) = Some key.
Hypothesis b64_text : forall key, Forall (fun b => 0 <= b < 256) key ->
  Forall (fun c => is_ascii_alphanumeric c = true \/ c = 43 \/ c = 47 \/ c = 61) (b64_encode key).

Lemma b64_char_facts c :
  is_ascii_alphanumeric c = true \/ c = 43 \/ c = 47 \/ c = 61 ->
  43 <= c <= 122 /\ is_whitespace c = false.
Proof.
  intros Hc. assert (43 <= c <= 122).
  { unfold is_ascii_alphanumeric, is_ascii_digit, is_ascii_upper, is_ascii_lower in Hc.
    destruct Hc as [Hc|Hc]; [|lia]. repeat (apply orb_true_iff in Hc as [Hc|Hc]); bools; lia. }
  split; [done|]. unfold is_whitespace.
  repeat (apply orb_false_iff; split); try (apply Z.eqb_neq; lia);
    apply andb_false_iff; rewrite !Z.leb_gt; lia.
Qed.

Lemma decimal_not_ws n : 0 <= n -> Forall (fun c => is_whitespace c = false) (decimal n).
Proof. intros Hn. eapply Forall_impl; [by apply decimal_digits|]. apply digit_not_whitespace. Qed.

Lemma key_line_facts v key :
  1 <= v -> Forall (fun b => 0 <= b < 256) key -> let line := generate_key_line v key in
  Forall (fun c => is_whitespace c = false) line /\ (10 ∉ line) /\ (13 ∉ line)
  /\ exists d rest, line = d :: rest /\ is_ascii_digit d = true.
Proof.
  intros Hv Hb line. assert (Hdec : decimal_signed v = decimal v).
  { unfold decimal_signed. destruct (v <? 0) eqn:E; [bools; lia|done]. }
  assert (Hws : Forall (fun c => is_whitespace c = false) line).
  { subst line. unfold generate_key_line. rewrite Hdec. apply Forall_app. split; [apply decimal_not_ws; lia|].
    constructor; [done|]. eapply Forall_impl; [by apply b64_text|]. intros c Hc. by apply b64_char_facts. }
  rewrite Forall_forall in Hws. split_and!.
  - by apply Forall_forall.
  - intros Hin%Hws. done.
  - intros Hin%Hws. done.
  - subst line. unfold generate_key_line. rewrite Hdec.
    pose proof (decimal_digits v ltac:(lia)) as Hd. pose proof (decimal_not_nil v).
    destruct (decimal v) as [|d ds]; [done|]. apply Forall_cons in Hd as [Hd _].
    eexists d, _. by split.
Qed.

Lemma parse_key_line n v key :
  1 <= v <= i32_max -> length key = KEY_LEN -> Forall (fun b => 0 <= b < 256) key ->
  parse_line n (generate_key_line v key) = Ok (Some (v, key)).
Proof.
  intros Hv Hk Hb. destruct (key_line_facts v key ltac:(lia) Hb) as (Hws & _ & _ & d & rest & Hl & Hd).
  unfold parse_line. rewrite (trim_none _ Hws), Hl.
  assert (starts_with [35] (d :: rest) = false) as Hst.
  { destruct (starts_with [35] (d :: rest)) eqn:E; [|done].
    apply starts_with_true in E as [r Hr]. simpl in Hr. by simplify_eq. }
  rewrite bool_decide_false, Hst by done. rewrite <- Hl. unfold generate_key_line. simpl orb. cbn match.
  assert (Hdec : decimal_signed v = decimal v).
  { unfold decimal_signed. destruct (v <? 0) eqn:E; [bools; lia|done]. }
  rewrite Hdec. change (lit ":" ++ b64_encode key) with (58 :: b64_encode key).
  rewrite split_once_app by (apply decimal_not_elem; [lia|done]). cbn [ok_or].
  rewrite (trim_none (decimal v)) by (apply decimal_not_ws; lia).
  rewrite parse_signed_decimal by lia. cbn [ok_or].
  destruct (v <? 1) eqn:E; [bools; lia|].
  rewrite (trim_none (b64_encode key)) by
    (eapply Forall_impl; [by apply b64_text|]; intros c Hc; by apply b64_char_facts).
  rewrite b64_inverse by done. cbn [ok_or]. rewrite bool_decide_false by (intros Hx; by apply Hx). done.
Qed.

(** Rotating the master key by appending a line of a higher version works:
    the file is read, the new key is current, and every older key is kept. *)
Theorem rotation_appends (content : str) (kr : FileKeyring) (v : Z) (key : bytes) :
  parse (content ++ [10]) = Ok kr -> kr_current kr < v <= i32_max ->
  length key = KEY_LEN -> Forall (fun b => 0 <= b < 256) key ->
  parse ((content ++ [10]) ++ generate_key_line v key)
  = Ok {| keys := <[v := key]> (keys kr); kr_current := v |}.
Proof.
  intros [Hl Hh]%parse_spec Hv Hk Hb.
  assert (Hok : keys_ok (keys kr)) by (eapply parse_lines_ok; [|exact Hl]; by apply map_Forall_empty).
  apply highest_spec in Hh as [[ck Hc] Hmax]. pose proof (Hok _ _ Hc) as [Hcv _].
  destruct (key_line_facts v key ltac:(lia) Hb) as (_ & H10 & H13 & d & rest & Hline & _).
  destruct (lines_snoc content (generate_key_line v key) H10 ltac:(by rewrite Hline)) as [L1 L2].
  unfold parse. rewrite L2, <- L1, parse_lines_app, Hl, (drop_cr_none _ H13). simpl.
  rewrite parse_key_line by (done || lia).
  destruct (keys kr !! v) as [old|] eqn:Hold.
  { specialize (Hmax v ltac:(by eexists)). lia. }
  simpl. assert (highest (<[v := key]> (keys kr)) = Some v) as ->; [|done].
  apply highest_spec. split; [rewrite lookup_insert_eq; by eexists|].
  intros w. rewrite lookup_insert. case_decide; [lia|]. intros Hw%Hmax. lia.
Qed.

(** Adding a key of a new version closes nothing that opened before. *)
Lemma open_with_more_keys `{Aead, UuidText} kr v key c s p :
  keys kr !! v = None -> open kr c s = Ok p ->
  open {| keys := <[v := key]> (keys kr); kr_current := v |} c s = Ok p.
Proof.
  intros Hv. unfold open. case_bool_decide; [done|]. simpl.
  rewrite lookup_insert. case_decide; [|done]. subst. by rewrite Hv.
Qed.

End keyring_theorems.

(** ** Examples *)

Module VaultExamples.

(** A cipher that keeps the associated data in front: enough to see that the
    properties asked of one can hold. *)
#[local] Instance plain_aead : Aead := {
  cipher_encrypt _ _ aad msg := Z.of_nat (length aad) :: aad ++ msg;
  cipher_decrypt _ _ aad ct := strip_prefix (Z.of_nat (length aad) :: aad) ct
}.

#[local] Instance plain_aead_ok : AeadOk.
Proof.
  split; simpl.
  - intros _ _ aad msg. rewrite Z.eqb_refl. by apply strip_prefix_Some.
  - intros _ _ aad aad' msg msg'. destruct (_ =? _) eqn:E; [|done]. bools.
    intros Hs%strip_prefix_Some. apply app_inj_1 in Hs as [-> _]; [done|lia].
Qed.

#[local] Instance signed_uuid : UuidText := decimal_signed.
#[local] Instance signed_uuid_ok : UuidTextOk.
Proof.
  split; [apply decimal_signed_inj|intros; by apply decimal_signed_not|apply decimal_signed_scalar].
Qed.

(** The numbers of the bytes, with a plus sign between them. *)
#[local] Instance plain_base64 : Base64 := {
  b64_encode key := join [43] (decimal <$> key);
  b64_decode s := match s with [] => Some [] | _ => mapM (parse_unsigned u8_max) (split 43 s) end
}.

Lemma plain_inverse key : Forall (fun b => 0 <= b < 256) key -> b64_decode (b64_encode key) = Some key.
Proof.
  intros Hk. simpl. destruct key as [|b key]; [done|].
  assert (Hs : split 43 (join [43] (decimal <$> b :: key)) = decimal <$> b :: key).
  { apply split_join; [done|]. apply Forall_fmap. eapply Forall_impl; [exact Hk|].
    intros c Hc. simpl in *. apply decimal_not_elem; [lia|done]. }
  destruct (join [43] (decimal <$> b :: key)) as [|c s] eqn:Hj.
  { rewrite fmap_cons, join_cons in Hj. pose proof (decimal_not_nil b).
    destruct (decimal <$> key), (decimal b); done. }
  rewrite Hs. apply mapM_fmap_Forall_Some. eapply Forall_impl; [exact Hk|].
  intros d Hd. apply parse_unsigned_decimal. simpl in Hd. unfold u8_max. lia.
Qed.

Lemma plain_text key :
  Forall (fun b => 0 <= b < 256) key ->
  Forall (fun c => is_ascii_alphanumeric c = true \/ c = 43 \/ c = 47 \/ c = 61) (b64_encode key).
Proof.
  intros Hk. simpl. induction Hk as [|b key Hb Hk IH]; [constructor|].
  assert (Hd : Forall (fun c => is_ascii_alphanumeric c = true \/ c = 43 \/ c = 47 \/ c = 61) (decimal b)).
  { eapply Forall_impl; [apply decimal_digits; lia|]. intros c Hc. left.
    unfold is_ascii_alphanumeric. simpl in Hc. by rewrite Hc, ?orb_true_r. }
  rewrite fmap_cons, join_cons. destruct (decimal <$> key) eqn:E; [done|]. rewrite <- E in *.
  apply Forall_app. split; [done|]. constructor; [auto|done].
Qed.

Definition key1 : list Z := repeat 1 32.
Definition key2 : list Z := repeat 2 32.
Definition file1 : list Z := lit "# keys" ++ [10] ++ generate_key_line 1 key1.

Definition ring1 : FileKeyring := {| keys := {[1 := key1]}; kr_current := 1 |}.

Lemma ring1_parsed : parse (file1 ++ [10]) = Ok ring1.
Proof. vm_compute. reflexivity. Qed.

#[local] Instance ring1_ok : KeyProviderOk ring1 := parsed_keyring_ok _ _ ring1_parsed.

Lemma rotation_appends_witness :
  parse ((file1 ++ [10]) ++ generate_key_line 2 key2)
  = Ok {| keys := <[2 := key2]> (keys ring1); kr_current := 2 |}.
Proof.
  apply (rotation_appends plain_inverse plain_text file1 ring1 2 key2);
    [exact ring1_parsed|vm_compute; split; [reflexivity|discriminate]|reflexivity|].
  unfold key2. repeat constructor; lia.
Defined.

Definition place (f : string) : Context_ := {| owner := 42; version := 1; field := lit f |}.

Definition password : list Z := lit "Passw0rd!".

Definition sealed_password : result Sealed VaultError :=
  seal ring1 key2 (repeat 3 24) (repeat 4 24) (place "password") password.

Lemma sealed_opens_only_in_its_place_witness :
  exists s, sealed_password = Ok s /\ open ring1 (place "note") s = Err VaultError_Open.
Proof.
  destruct (seal_ok ring1 key2 (repeat 3 24) (repeat 4 24) (place "password") password)
    as (master & _ & Hs).
  eexists. split; [exact Hs|].
  apply (sealed_opens_only_in_its_place ring1 key2 (repeat 3 24) (repeat 4 24) (place "password")
    (place "note") password _); try reflexivity; try (repeat constructor); try exact Hs.
  vm_compute. discriminate.
Defined.

(** The keyring after a rotation, and the password moved to its new key. *)
Definition ring2 : FileKeyring := {| keys := {[1 := key1; 2 := key2]}; kr_current := 2 |}.

Lemma ring2_parsed : parse ((file1 ++ [10]) ++ generate_key_line 2 key2) = Ok ring2.
Proof. vm_compute. reflexivity. Qed.

#[local] Instance ring2_ok : KeyProviderOk ring2 := parsed_keyring_ok _ _ ring2_parsed.

Definition old_sealed : Sealed :=
  {| scheme := SCHEME; kek_id := FILE_KEYRING_ID; kek_version := 1;
     wrapped_key := encrypt key1 (repeat 3 24)
       (associated_data (place "password") FILE_KEYRING_ID 1) key2;
     ciphertext := encrypt key2 (repeat 4 24)
       (associated_data (place "password") FILE_KEYRING_ID 1) password |}.

Lemma rewrap_keeps_witness :
  match rewrap ring2 key1 (repeat 5 24) (repeat 6 24) (place "password") old_sealed with
  | Ok None => (kek_id old_sealed, kek_version old_sealed) = current ring2
  | Ok (Some s') => (kek_id s', kek_version s') = current ring2
                    /\ open ring2 (place "password") s' = Ok password
  | Err _ => False
  end.
Proof.
  exact (rewrap_keeps ring2 key1 (repeat 5 24) (repeat 6 24) (place "password") old_sealed password
    ltac:(reflexivity) ltac:(reflexivity) ltac:(reflexivity) ltac:(vm_compute; reflexivity)).
Defined.

End VaultExamples.
