(* ===== verification/Connectors.v ===== *)
(** * Site connectors on remotehub's side (crates/server/src/connectors.rs)

    Which connectors are online, the streams and checks asked of them and who
    waits for the answers, how many connections each carries, and what each
    last reported. Every access to a table is under its lock and is one step;
    an operation that takes several is split where they can interleave. What
    an operation sends to a control socket or to whoever waits is part of the
    state. *)
From S2P Require Import Prelude Text.

Inductive ConnectorError :=
| Offline
| Timeout
| Refused (reason : list Z)
| NotOpen.

#[export] Instance connector_error_eq_dec : EqDecision ConnectorError.
Proof. solve_decision. Defined.

(** Messages to a connector (connector/src/protocol.rs). *)
Inductive Control :=
| Control_Open (id : Uuid) (target : list Z) (user device : option (list Z))
| Control_Check (id : Uuid) (target : list Z).

Record Requester := { rq_user : list Z; rq_device : list Z }.

(** A connector's answer whether a target is open. *)
Record Checked := { open : bool; until : option (list Z) }.

(** What waits for a stream: its socket or an error. A socket is named by a
    number. *)
Abbreviation Reply := (result Z ConnectorError) (only parsing).

Section connectors.
(** [protocol::State], as the connector reports it. *)
Context {State : Type}.

Record Connectors := {
  online : gmap Uuid Z;
  pending : gmap Uuid Uuid;
  generation : Z;
  carrying : gmap Uuid Z;
  carried : gmap Uuid Z;
  access : gmap Uuid (State * Z);
  checks : gmap Uuid Uuid;
  (** Messages to the control socket of a generation, in their order. *)
  outbox : list (Z * Control);
  (** The answers that reached a waiting stream or check. *)
  replies : gmap Uuid (result Z ConnectorError);
  check_replies : gmap Uuid Checked
}.

Definition connectors_default : Connectors :=
  {| online := ∅; pending := ∅; generation := 0; carrying := ∅; carried := ∅; access := ∅;
     checks := ∅; outbox := []; replies := ∅; check_replies := ∅ |}.

(** ** Online *)

Definition set_online (o : gmap Uuid Z) (g : Z) (s : Connectors) : Connectors :=
  {| online := o; pending := pending s; generation := g; carrying := carrying s;
     carried := carried s; access := access s; checks := checks s; outbox := outbox s;
     replies := replies s; check_replies := check_replies s |}.

(** [register] draws the generation of the new control socket outside the
    lock of the table, and then enters the socket: two registrations may enter
    in another order than they drew. *)
Definition register_draw (s : Connectors) : Z * Connectors :=
  (generation s, set_online (online s) (generation s + 1) s).

Definition register_enter (c : Uuid) (g : Z) (s : Connectors) : Connectors :=
  set_online (<[c := g]> (online s)) (generation s) s.

Definition register (c : Uuid) (s : Connectors) : Z * Connectors :=
  let (g, s) := register_draw s in (g, register_enter c g s).

(** [Drop for Registration]. *)
Definition unregister (c : Uuid) (g : Z) (s : Connectors) : Connectors :=
  if is_some_and (Z.eqb g) (online s !! c)
  then set_online (delete c (online s)) (generation s) s
  else s.

Definition is_online (s : Connectors) (c : Uuid) : bool := is_some (online s !! c).

(** ** Counting *)

Definition streams (s : Connectors) (c : Uuid) : Z := default 0 (carrying s !! c).
Definition streams_carried (s : Connectors) (c : Uuid) : Z := default 0 (carried s !! c).

Definition set_counts (now ever : gmap Uuid Z) (s : Connectors) : Connectors :=
  {| online := online s; pending := pending s; generation := generation s; carrying := now;
     carried := ever; access := access s; checks := checks s; outbox := outbox s;
     replies := replies s; check_replies := check_replies s |}.

Definition count (c : Uuid) (s : Connectors) : Connectors :=
  set_counts (<[c := streams s c + 1]> (carrying s))
    (<[c := streams_carried s c + 1]> (carried s)) s.

(** [Drop for Carrying]. *)
Definition uncount (c : Uuid) (s : Connectors) : Connectors :=
  match carrying s !! c with
  | None => s
  | Some n =>
      let n := n - 1 in
      set_counts (if n =? 0 then delete c (carrying s) else <[c := n]> (carrying s)) (carried s) s
  end.

(** ** Reports *)

Definition REPORT_STALE : Z := 180.

(** [report]; [now] and the stored times are seconds. *)
Definition report (c : Uuid) (st : State) (now : Z) (s : Connectors) : option State * Connectors :=
  (match access s !! c with
   | Some (old, at_) => if now - at_ <? REPORT_STALE then Some old else None
   | None => None
   end,
   {| online := online s; pending := pending s; generation := generation s;
      carrying := carrying s; carried := carried s; access := <[c := (st, now)]> (access s);
      checks := checks s; outbox := outbox s; replies := replies s;
      check_replies := check_replies s |}).

Definition reported (c : Uuid) (now : Z) (s : Connectors) : option State :=
  match access s !! c with
  | Some (st, at_) => if now - at_ <? REPORT_STALE then Some st else None
  | None => None
  end.

(** ** Streams *)

Definition set_streams (p : gmap Uuid Uuid) (o : list (Z * Control))
    (r : gmap Uuid (result Z ConnectorError)) (s : Connectors) : Connectors :=
  {| online := online s; pending := p; generation := generation s; carrying := carrying s;
     carried := carried s; access := access s; checks := checks s; outbox := o; replies := r;
     check_replies := check_replies s |}.

(** The first half of [stream], up to where it waits: [id] is drawn at random;
    [sent] says whether the control socket still takes messages. *)
Definition stream_ask (c id : Uuid) (target : list Z) (whom : option Requester) (sent : bool)
    (s : Connectors) : result unit ConnectorError * Connectors :=
  match online s !! c with
  | None => (Err Offline, s)
  | Some g =>
      if sent then
        (Ok tt, set_streams (<[id := c]> (pending s))
                  (outbox s ++ [(g, Control_Open id target (rq_user <$> whom) (rq_device <$> whom))])
                  (replies s) s)
      else (Err Offline, set_streams (delete id (pending s)) (outbox s) (replies s) s)
  end.

(** The second half: the answer, or [Timeout] when none came in time. *)
Definition stream_end (id : Uuid) (s : Connectors) : result Z ConnectorError * Connectors :=
  (default (Err Timeout) (replies s !! id),
   set_streams (delete id (pending s)) (outbox s) (replies s) s).

(** [claim]: whether [c] was asked for stream [id] and it still waits. *)
Definition claim (c id : Uuid) (s : Connectors) : bool * Connectors :=
  match pending s !! id with
  | Some c' => if c' =? c then (true, set_streams (delete id (pending s)) (outbox s) (replies s) s)
               else (false, s)
  | None => (false, s)
  end.

(** The handler of a connector's stream socket (api/connectors.rs, [stream]):
    the socket it opened for stream [id] reaches whoever waits; if the upgrade
    of the request fails, [socket] is none, and whoever waits sees its sender
    dropped. *)
Definition deliver (c id : Uuid) (socket : option Z) (s : Connectors) : bool * Connectors :=
  match claim c id s with
  | (true, s') =>
      (true, set_streams (pending s') (outbox s') (<[id := ok_or socket Offline]> (replies s')) s')
  | (false, s') => (false, s')
  end.

Definition fail (c id : Uuid) (reason : list Z) (not_open : bool) (s : Connectors) : Connectors :=
  match claim c id s with
  | (true, s') =>
      set_streams (pending s') (outbox s')
        (<[id := Err (if not_open then NotOpen else Refused reason)]> (replies s')) s'
  | (false, s') => s'
  end.

(** ** Checks *)

Definition set_checks (k : gmap Uuid Uuid) (o : list (Z * Control)) (r : gmap Uuid Checked)
    (s : Connectors) : Connectors :=
  {| online := online s; pending := pending s; generation := generation s; carrying := carrying s;
     carried := carried s; access := access s; checks := k; outbox := o; replies := replies s;
     check_replies := r |}.

Definition check_ask (c id : Uuid) (target : list Z) (sent : bool) (s : Connectors) :
    result unit ConnectorError * Connectors :=
  match online s !! c with
  | None => (Err Offline, s)
  | Some g =>
      if sent then
        (Ok tt, set_checks (<[id := c]> (checks s)) (outbox s ++ [(g, Control_Check id target)])
                  (check_replies s) s)
      else (Err Offline, set_checks (delete id (checks s)) (outbox s) (check_replies s) s)
  end.

Definition check_end (id : Uuid) (s : Connectors) : result Checked ConnectorError * Connectors :=
  (ok_or (check_replies s !! id) Timeout,
   set_checks (delete id (checks s)) (outbox s) (check_replies s) s).

Definition checked (c id : Uuid) (a : Checked) (s : Connectors) : Connectors :=
  if is_some_and (Z.eqb c) (checks s !! id)
  then set_checks (delete id (checks s)) (outbox s) (<[id := a]> (check_replies s)) s
  else s.

End connectors.
Arguments Connectors : clear implicits.

(** ** Theorems *)

Section registry.
Context {State : Type}.

(** The registry with what exists around it: the generations drawn and not yet
    entered, the control sockets and guards that are held, the generation that
    entered last of each connector, the connector each stream was asked of, and
    who answered which stream. *)
Record System := {
  reg : Connectors State;
  drawn : list Z;
  live : list (Uuid * Z);
  newest : gmap Uuid Z;
  guards : list Uuid;
  asked : gmap Uuid Uuid;
  answered : list (Uuid * Uuid)
}.

Definition with_reg (r : Connectors State) (y : System) : System :=
  {| reg := r; drawn := drawn y; live := live y; newest := newest y; guards := guards y;
     asked := asked y; answered := answered y |}.

Definition with_sockets (r : Connectors State) (d : list Z) (l : list (Uuid * Z))
    (n : gmap Uuid Z) (y : System) : System :=
  {| reg := r; drawn := d; live := l; newest := n; guards := guards y; asked := asked y;
     answered := answered y |}.

Definition with_guards (r : Connectors State) (g : list Uuid) (y : System) : System :=
  {| reg := r; drawn := drawn y; live := live y; newest := newest y; guards := g;
     asked := asked y; answered := answered y |}.

Definition with_asked (r : Connectors State) (a : gmap Uuid Uuid) (l : list (Uuid * Uuid))
    (y : System) : System :=
  {| reg := r; drawn := drawn y; live := live y; newest := newest y; guards := guards y;
     asked := a; answered := l |}.

Definition answered_by (c id : Uuid) (took : bool) (y : System) : list (Uuid * Uuid) :=
  if took then (c, id) :: answered y else answered y.

Inductive system_step : System -> System -> Prop :=
| sys_draw y :
    system_step y (with_sockets (register_draw (reg y)).2 ((register_draw (reg y)).1 :: drawn y)
                     (live y) (newest y) y)
| sys_enter c g rest y :
    drawn y ≡ₚ g :: rest ->
    system_step y (with_sockets (register_enter c g (reg y)) rest ((c, g) :: live y)
                     (<[c := g]> (newest y)) y)
| sys_unregister c g rest y :
    live y ≡ₚ (c, g) :: rest ->
    system_step y (with_sockets (unregister c g (reg y)) (drawn y) rest (newest y) y)
| sys_count c y : system_step y (with_guards (count c (reg y)) (c :: guards y) y)
| sys_uncount c rest y :
    guards y ≡ₚ c :: rest -> system_step y (with_guards (uncount c (reg y)) rest y)
| sys_ask c id target whom sent y :
    asked y !! id = None ->
    system_step y (with_asked (stream_ask c id target whom sent (reg y)).2
                     (<[id := c]> (asked y)) (answered y) y)
| sys_end id y : system_step y (with_reg (stream_end id (reg y)).2 y)
| sys_deliver c id socket y :
    system_step y (with_asked (deliver c id socket (reg y)).2 (asked y)
                     (answered_by c id (deliver c id socket (reg y)).1 y) y)
| sys_fail c id reason not_open y :
    system_step y (with_asked (fail c id reason not_open (reg y)) (asked y)
                     (answered_by c id (claim c id (reg y)).1 y) y)
| sys_report c st now y : system_step y (with_reg (report c st now (reg y)).2 y)
| sys_check_ask c id target sent y :
    system_step y (with_reg (check_ask c id target sent (reg y)).2 y)
| sys_checked c id a y : system_step y (with_reg (checked c id a (reg y)) y)
| sys_check_end id y : system_step y (with_reg (check_end id (reg y)).2 y).

Definition system_start : System :=
  {| reg := connectors_default; drawn := []; live := []; newest := ∅; guards := []; asked := ∅;
     answered := [] |}.

(** How often [c] is in [l]. *)
Fixpoint times (c : Uuid) (l : list Uuid) : Z :=
  match l with
  | [] => 0
  | x :: l => (if bool_decide (x = c) then 1 else 0) + times c l
  end.

Lemma times_perm c l l' : l ≡ₚ l' -> times c l = times c l'.
Proof. induction 1; simpl; lia. Qed.

Lemma times_nonneg c l : 0 <= times c l.
Proof. induction l; simpl; [lia|]. case_bool_decide; lia. Qed.

(** A connector is online while the socket that entered last is held; no two
    sockets share a generation. *)
Definition online_ok (y : System) : Prop :=
  NoDup (drawn y ++ (live y).*2)
  /\ (forall g, g ∈ drawn y ++ (live y).*2 -> g < generation (reg y))
  /\ (forall c g, online (reg y) !! c = Some g <-> newest y !! c = Some g /\ (c, g) ∈ live y).

(** The count of carried connections is that of the guards held. *)
Definition counts_ok (y : System) : Prop :=
  forall c, carrying (reg y) !! c
    = if times c (guards y) =? 0 then None else Some (times c (guards y)).

(** Whoever waits waits for the connector it asked, and nobody answered. *)
Definition streams_ok (y : System) : Prop :=
  (forall id c, pending (reg y) !! id = Some c -> asked y !! id = Some c /\ id ∉ (answered y).*2)
  /\ (forall c id, (c, id) ∈ answered y -> asked y !! id = Some c)
  /\ NoDup (answered y).*2
  /\ (forall id, is_Some (replies (reg y) !! id) -> id ∈ (answered y).*2).

(** Steps that leave a part alone. *)
Lemma online_frame y y' :
  online (reg y') = online (reg y) -> generation (reg y') = generation (reg y) ->
  newest y' = newest y -> live y' = live y -> drawn y' = drawn y -> online_ok y -> online_ok y'.
Proof. unfold online_ok. by intros -> -> -> -> ->. Qed.

Lemma counts_frame y y' :
  carrying (reg y') = carrying (reg y) -> guards y' = guards y -> counts_ok y -> counts_ok y'.
Proof. unfold counts_ok. by intros -> ->. Qed.

Lemma streams_frame y y' :
  pending (reg y') = pending (reg y) -> replies (reg y') = replies (reg y) ->
  asked y' = asked y -> answered y' = answered y -> streams_ok y -> streams_ok y'.
Proof. unfold streams_ok. by intros -> -> -> ->. Qed.

Lemma count_counts c y :
  counts_ok y ->
  counts_ok (with_guards (count c (reg y)) (c :: guards y) y).
Proof.
  intros Hok d. simpl. rewrite lookup_insert. pose proof (times_nonneg d (guards y)).
  unfold streams. rewrite (Hok c). case_decide.
  - subst. rewrite bool_decide_true by done. destruct (times d (guards y) =? 0) eqn:E; bools;
      simpl; destruct (1 + times d (guards y) =? 0) eqn:E2; bools; try lia; f_equal; lia.
  - rewrite bool_decide_false, Z.add_0_l by done. apply Hok.
Qed.

Lemma uncount_counts c rest y :
  counts_ok y -> guards y ≡ₚ c :: rest ->
  counts_ok (with_guards (uncount c (reg y)) (rest) y).
Proof.
  intros Hok Hp d. pose proof (times_perm d _ _ Hp) as Ht. pose proof (times_perm c _ _ Hp) as Hc.
  simpl in Ht, Hc. rewrite bool_decide_true in Hc by done. pose proof (times_nonneg c rest).
  unfold uncount. cbn [reg guards with_guards]. rewrite (Hok c).
  destruct (times c (guards y) =? 0) eqn:E; bools; [lia|]. simpl.
  replace (times c (guards y) - 1) with (times c rest) by lia.
  destruct (times c rest =? 0) eqn:E2; bools.
  - rewrite lookup_delete. case_decide; [subst; by rewrite E2|].
    rewrite bool_decide_false in Ht by done. by rewrite (Hok d), Ht.
  - rewrite lookup_insert. case_decide.
    + subst. destruct (times d rest =? 0) eqn:E3; bools; [lia|done].
    + rewrite bool_decide_false in Ht by done. by rewrite (Hok d), Ht.
Qed.

Lemma draw_online y :
  online_ok y ->
  online_ok (with_sockets (register_draw (reg y)).2 ((register_draw (reg y)).1 :: drawn y)
               (live y) (newest y) y).
Proof.
  intros (Hnd & Hgen & Hon). split_and!; simpl; [|intros g [->|Hg%Hgen]%elem_of_cons; lia|done].
  apply NoDup_cons. split; [|done]. intros H%Hgen. lia.
Qed.

Lemma enter_online c g rest y :
  online_ok y -> drawn y ≡ₚ g :: rest ->
  online_ok (with_sockets (register_enter c g (reg y)) rest ((c, g) :: live y)
               (<[c := g]> (newest y)) y).
Proof.
  intros (Hnd & Hgen & Hon) Hp.
  assert (Hperm : drawn y ++ (live y).*2 ≡ₚ rest ++ g :: (live y).*2)
    by (rewrite Hp; simpl; by rewrite Permutation_middle).
  split_and!; simpl.
  - by rewrite <- Hperm.
  - intros h. rewrite <- Hperm. apply Hgen.
  - intros d h. rewrite !lookup_insert. case_decide.
    + subst. split; [intros [= <-]; set_solver|]. by intros [[= <-] _].
    + rewrite Hon. set_solver.
Qed.

Lemma unregister_online c g rest y :
  online_ok y -> live y ≡ₚ (c, g) :: rest ->
  online_ok (with_sockets (unregister c g (reg y)) (drawn y) rest (newest y) y).
Proof.
  intros (Hnd & Hgen & Hon) Hp.
  assert (Hperm : drawn y ++ (live y).*2 ≡ₚ g :: drawn y ++ rest.*2)
    by (rewrite Hp; simpl; by rewrite Permutation_middle).
  rewrite Hperm in Hnd. apply NoDup_cons in Hnd as [Hnew Hnd].
  assert (Hrest : (c, g) ∉ rest) by (intros H%(list_elem_of_fmap_2 snd); set_solver).
  assert (Hg : forall h, h ∈ drawn y ++ rest.*2 -> h < generation (reg y))
    by (intros h H; apply Hgen; rewrite Hperm; by right).
  unfold unregister. destruct (is_some_and (Z.eqb g) (online (reg y) !! c)) eqn:E.
  - apply is_some_and_true in E as (g' & Hc & Heq). bools. subst g'.
    split_and!; simpl; [done|done|]. intros d h. rewrite lookup_delete. case_decide.
    + subst. apply Hon in Hc as [Hc _]. rewrite Hc. split; [done|]. by intros [[= <-] ?].
    + rewrite Hon, Hp. set_solver.
  - split_and!; simpl; [done|done|]. intros d h. rewrite Hon, Hp. split; [|set_solver].
    intros [Hn [[= -> ->]|Hd]%elem_of_cons]; [|done].
    assert (online (reg y) !! c = Some g) as Hc by (rewrite Hon, Hp; set_solver).
    rewrite Hc in E. simpl in E. by rewrite Z.eqb_refl in E.
Qed.

Lemma ask_streams c id target whom sent y :
  streams_ok y -> asked y !! id = None ->
  streams_ok (with_asked (stream_ask c id target whom sent (reg y)).2
                (<[id := c]> (asked y)) (answered y) y).
Proof.
  intros (Hp & Ha & Hnd & Hr) Hfresh.
  assert (Hnew : id ∉ (answered y).*2).
  { intros ([d i] & -> & Hin)%list_elem_of_fmap. apply Ha in Hin. simpl in *. congruence. }
  assert (Ha' : forall d i, (d, i) ∈ answered y -> <[id := c]> (asked y) !! i = Some d).
  { intros d i Hin. apply Ha in Hin. rewrite lookup_insert_ne; [done|congruence]. }
  assert (Hp' : forall i d, pending (reg y) !! i = Some d ->
                  <[id := c]> (asked y) !! i = Some d /\ i ∉ (answered y).*2).
  { intros i d [Hi Hn]%Hp. rewrite lookup_insert_ne; [done|congruence]. }
  unfold stream_ask. destruct (online (reg y) !! c); [|split_and!; done].
  destruct sent; split_and!; try done; simpl.
  - intros i d. rewrite lookup_insert. case_decide; [|apply Hp'].
    intros [= <-]. subst. by rewrite lookup_insert_eq.
  - intros i d [_ Hi]%lookup_delete_Some. by apply Hp'.
Qed.

Lemma end_streams id y : streams_ok y -> streams_ok (with_reg (stream_end id (reg y)).2 y).
Proof.
  intros (Hp & Ha & Hnd & Hr). split_and!; simpl; try done.
  intros i d [_ Hi]%lookup_delete_Some. by apply Hp.
Qed.

(** Taking what waits for a stream and answering it. *)
Lemma claimed_streams c id a y :
  streams_ok y ->
  streams_ok (with_asked (match claim c id (reg y) with
                          | (true, s) => set_streams (pending s) (outbox s) (<[id := a]> (replies s)) s
                          | (false, s) => s
                          end)
                (asked y) (answered_by c id (claim c id (reg y)).1 y) y).
Proof.
  intros (Hp & Ha & Hnd & Hr). unfold claim.
  destruct (pending (reg y) !! id) as [c'|] eqn:E; [|done].
  destruct (c' =? c) eqn:Ec; [|done]. bools. subst c'. apply Hp in E as [Hask Hnew].
  split_and!; simpl.
  - intros i d [Hne Hi]%lookup_delete_Some. apply Hp in Hi. set_solver.
  - intros d i [[= -> ->]|Hin]%elem_of_cons; [done|]. by apply Ha.
  - by apply NoDup_cons.
  - intros i. rewrite lookup_insert. case_decide; [set_solver|]. intros ?%Hr. set_solver.
Qed.

Lemma deliver_streams c id socket y :
  streams_ok y ->
  streams_ok (with_asked (deliver c id socket (reg y)).2 (asked y)
                (answered_by c id (deliver c id socket (reg y)).1 y) y).
Proof.
  intros H. pose proof (claimed_streams c id (ok_or socket Offline) y H) as H'.
  unfold deliver. destruct (claim c id (reg y)) as [[] s] eqn:E; exact H'.
Qed.

(** The whole invariant of the registry. *)
Definition registry_ok (y : System) : Prop := online_ok y /\ counts_ok y /\ streams_ok y.

Lemma claim_frame c id (s : Connectors State) b s' :
  claim c id s = (b, s') ->
  online s' = online s /\ generation s' = generation s /\ carrying s' = carrying s.
Proof.
  unfold claim. destruct (pending s !! id) as [c'|]; [destruct (c' =? c)|]; by intros [= <- <-].
Qed.

Lemma system_step_ok y y' : registry_ok y -> system_step y y' -> registry_ok y'.
Proof.
  intros (Ho & Hc & Hs) Hstep. destruct Hstep; (split; [|split]);
    first
      [ by apply draw_online | by apply enter_online | by eapply unregister_online
      | by apply count_counts | by eapply uncount_counts
      | by apply ask_streams | by apply end_streams | by apply deliver_streams
      | by apply claimed_streams
      | eapply online_frame; [..|exact Ho] | eapply counts_frame; [..|exact Hc]
      | eapply streams_frame; [..|exact Hs] ];
    unfold unregister, count, uncount, stream_ask, stream_end, deliver, fail, check_ask, checked;
    repeat split_match; try done;
    (match goal with H : claim _ _ _ = _ |- _ => apply claim_frame in H as (? & ? & ?) end; done).
Qed.

Lemma reachable_ok y : rtc system_step system_start y -> registry_ok y.
Proof.
  intros Hr. eapply (rtc_closed system_step registry_ok); [exact system_step_ok|exact Hr|].
  unfold registry_ok, online_ok, streams_ok; split_and!; simpl;
    try apply NoDup_nil_2; try done; intros;
    rewrite ?lookup_empty in *; set_solver.
Qed.

(** After any sequence of operations of concurrent handlers, a connector is
    online exactly while the control socket that entered last is held (an old
    socket that goes takes nothing away), and the number of connections it
    carries is the number of guards held for it: it never counts below zero and
    goes back to none. *)
Theorem newest_socket_counts y c :
  rtc system_step system_start y ->
  (is_online (reg y) c = true
   <-> exists g, newest y !! c = Some g /\ (c, g) ∈ live y)
  /\ streams (reg y) c = times c (guards y).
Proof.
  intros ((_ & _ & Hon) & Hc & _)%reachable_ok. split.
  - unfold is_online. rewrite is_some_true. split; intros [g Hg]; exists g; by apply Hon.
  - unfold streams. rewrite Hc. destruct (_ =? 0) eqn:E; bools; simpl; lia.
Qed.

(** After any sequence of operations, each stream got at most one answer,
    from the connector it was asked of, and whoever still waits has none. *)
Theorem only_the_asked_connector_answers y :
  rtc system_step system_start y ->
  NoDup (answered y).*2
  /\ (forall c id, (c, id) ∈ answered y -> asked y !! id = Some c)
  /\ (forall c id socket, (deliver c id socket (reg y)).1 = true ->
       asked y !! id = Some c /\ replies (reg y) !! id = None).
Proof.
  intros (_ & _ & Hp & Ha & Hnd & Hr)%reachable_ok. split_and!; [done|done|].
  intros c id socket H. assert (pending (reg y) !! id = Some c) as Hc.
  { revert H. unfold deliver, claim. destruct (pending (reg y) !! id) as [c'|]; [|done].
    destruct (c' =? c) eqn:E; [|done]. bools. by subst. }
  apply Hp in Hc as [? Hn]. split; [done|]. destruct (replies (reg y) !! id) eqn:E; [|done].
  exfalso. apply Hn, Hr. by rewrite E.
Qed.

End registry.
Arguments System : clear implicits.

Module ConnectorExamples.

(** Connector 1 reconnects: its second socket draws and enters before the first
    one goes; then stream 9 is asked of it, and it opens socket 5 for it. *)
Definition registered (g : Z) (y : System unit) : System unit :=
  with_sockets (register 1 (reg y)).2 [] ((1, g) :: live y) (<[1 := g]> (newest y)) y.

Lemma register_steps (y : System unit) :
  drawn y = [] -> rtc system_step y (registered (generation (reg y)) y).
Proof.
  intros Hd. eapply rtc_l; [apply sys_draw|].
  eapply rtc_l; [apply (sys_enter 1 (generation (reg y)) [])|]; [simpl; by rewrite Hd|].
  apply rtc_refl.
Qed.

Definition reconnected : System unit :=
  let y := registered 1 (registered 0 system_start) in
  with_sockets (unregister 1 0 (reg y)) [] [(1, 1)] (newest y) y.

Definition asked_for (y : System unit) : System unit :=
  with_asked (stream_ask 1 9 (lit "ssh:22") None true (reg y)).2 (<[9 := 1]> (asked y)) (answered y) y.

Definition delivered (y : System unit) : System unit :=
  with_asked (deliver 1 9 (Some 5) (reg y)).2 (asked y)
    (answered_by 1 9 (deliver 1 9 (Some 5) (reg y)).1 y) y.

Lemma reconnected_reachable : rtc system_step system_start reconnected.
Proof.
  etrans; [apply register_steps; reflexivity|].
  etrans; [apply register_steps; reflexivity|].
  apply rtc_once, (sys_unregister 1 0 [(1, 1)]). simpl. constructor.
Qed.

Lemma delivered_reachable : rtc system_step system_start (delivered (asked_for reconnected)).
Proof.
  etrans; [exact reconnected_reachable|].
  eapply rtc_l; [apply (sys_ask 1 9 (lit "ssh:22") None true); reflexivity|].
  apply rtc_once, (sys_deliver 1 9 (Some 5)).
Qed.

Lemma newest_socket_counts_witness :
  is_online (reg reconnected) 1 = true /\ live reconnected = [(1, 1)]
  /\ streams (reg reconnected) 1 = times 1 (guards reconnected).
Proof.
  split; [|split; [reflexivity|]].
  - apply (newest_socket_counts reconnected 1 reconnected_reachable). exists 1.
    split; [reflexivity|]. apply list_elem_of_singleton. reflexivity.
  - exact (proj2 (newest_socket_counts reconnected 1 reconnected_reachable)).
Defined.

Lemma only_the_asked_connector_answers_witness :
  (deliver 2 9 (Some 6) (reg (asked_for reconnected))).1 = false
  /\ answered (delivered (asked_for reconnected)) = [(1, 9)]
  /\ asked (delivered (asked_for reconnected)) !! 9 = Some 1.
Proof.
  split; [reflexivity|]. split; [vm_compute; reflexivity|].
  apply (only_the_asked_connector_answers _ delivered_reachable).
  replace (answered (delivered (asked_for reconnected))) with [(1, 9)]
    by (vm_compute; reflexivity).
  apply list_elem_of_singleton. reflexivity.
Defined.

End ConnectorExamples.
