(* ===== verification/Store.v ===== *)
(** * The tables of folders, devices and login profiles

    What the handlers of crates/server/src/api/catalog.rs and profiles.rs read
    and write: the rows, the functions the migrations define on them
    (migrations/20260926000039_folder_connectors.sql and
    20260927000043_login_profiles.sql) and the catalog that
    crates/server/src/catalog.rs loads from them. Columns that hold one of a
    few words are inductive types, a sealed field is what opening it gives
    (see [Vault]), and the times a row was changed at are left out. *)
From S2P Require Import Prelude Text Model Session AccessRequests.

(** ** Rows *)

Inductive Protocol := Ssh | Rdp | Vnc | Https.
Inductive AuthMode :=
| Auth_Profile | Auth_Ask | Auth_Own | Auth_Certificate | Auth_Laps | Auth_Device.
Inductive ConnectorMode := Inherit | Direct | OwnConnector.
Inductive SecretKind := Kind_Password | Kind_SshKey.

#[export] Instance protocol_eq_dec : EqDecision Protocol.
Proof. solve_decision. Defined.
#[export] Instance auth_mode_eq_dec : EqDecision AuthMode.
Proof. solve_decision. Defined.
#[export] Instance connector_mode_eq_dec : EqDecision ConnectorMode.
Proof. solve_decision. Defined.
#[export] Instance secret_kind_eq_dec : EqDecision SecretKind.
Proof. solve_decision. Defined.

Record FolderRow := {
  f_parent : option Uuid;
  f_name : list Z;
  f_connector : option Uuid
}.

(** What the handlers take from the user and store as it is. *)
Record Settings := {
  d_folder : Uuid;
  d_name : list Z;
  d_protocol : Protocol;
  d_host : list Z;
  d_port : Z;
  d_auth_mode : AuthMode;
  d_profile : option Uuid;
  d_description : list Z;
  d_layout : option (list Z);
  d_mode : ConnectorMode;
  d_connector : option Uuid;
  d_confirmation : bool;
  d_username : list Z;
  d_domain : list Z;
  d_secret_kind : SecretKind
}.

(** What identifies a key, stored in plain text to show it. *)
Record KeyInfo := {
  key_algorithm : option (list Z);
  key_fingerprint : option (list Z);
  has_certificate : bool
}.

Definition no_key : KeyInfo :=
  {| key_algorithm := None; key_fingerprint := None; has_certificate := false |}.

(** What a first connection pinned. *)
Record Pins := { host_key : option (list Z); certificate_fingerprint : option (list Z) }.

Definition no_pins : Pins := {| host_key := None; certificate_fingerprint := None |}.

Record DeviceRow := {
  d_settings : Settings;
  d_secret_version : Z;
  d_key : KeyInfo;
  d_pins : Pins;
  d_keywords : list Z;
  d_keywords_by : option (list Z)
}.

Record ProfileRow := {
  p_folder : option Uuid;
  p_name : list Z;
  p_username : list Z;
  p_domain : list Z;
  p_secret_kind : SecretKind;
  p_secret_version : Z;
  p_key : KeyInfo
}.

Inductive CatalogAction :=
| FolderCreated
| FolderUpdated (retargeted : list Uuid)
| FolderDeleted
| DeviceCreated
| DeviceUpdated (secret_changed secret_kept : bool)
| DeviceMoved (from : option Uuid) (folder : Uuid) (reached : option Uuid) (secret_kept : bool)
| DeviceDeleted
| HostKeyReset
| CertificateReset
| DeviceKeywordsChanged (keywords : list Z)
| ProfileCreated
| ProfileUpdated (secret_changed : bool)
| ProfileDeleted.

Record LogEntry := { l_actor : Uuid; l_action : CatalogAction; l_object : ObjectId }.

Record Store := {
  s_folders : gmap Uuid FolderRow;
  s_collections : list (Uuid * option Uuid);
  s_credentials : list (Uuid * Uuid);
  s_devices : gmap Uuid DeviceRow;
  s_profiles : gmap Uuid ProfileRow;
  s_connectors : gset Uuid;
  s_grants : list GrantRow;
  (** [secret_fields], by owner and version. *)
  s_secrets : gmap (Uuid * Z) (list (string * list Z));
  s_log : list LogEntry
}.

(** ** The catalog of the tables *)

Definition objects_of (db : Store) : Objects := {|
  folders := (fun kv => (kv.1, f_parent kv.2)) <$> map_to_list (s_folders db);
  collections := s_collections db;
  devices := (fun kv => (kv.1, d_folder (d_settings kv.2))) <$> map_to_list (s_devices db);
  credentials := s_credentials db;
  profiles := (fun kv => (kv.1, p_folder kv.2)) <$> map_to_list (s_profiles db)
|}.

Definition catalog_of (db : Store) (now : Z) : Catalog := load (objects_of db) (s_grants db) now.

Lemma collect_map_to_list {V W} (f : V -> W) (m : gmap Uuid V) :
  collect ((fun kv => (kv.1, f kv.2)) <$> map_to_list m) = f <$> m.
Proof.
  apply map_eq. intros k. rewrite lookup_fmap.
  assert (Hnd : NoDup ((fun kv : Uuid * V => (kv.1, f kv.2)) <$> map_to_list m).*1).
  { rewrite <- list_fmap_compose. apply NoDup_fst_map_to_list. }
  destruct (m !! k) as [v|] eqn:E; simpl.
  - apply collect_lookup_nodup; [done|]. apply list_elem_of_fmap. exists (k, v). split; [done|].
    by apply elem_of_map_to_list.
  - apply eq_None_not_Some. rewrite collect_lookup_is_Some.
    intros (? & -> & ([k' v] & -> & Hin%elem_of_map_to_list)%list_elem_of_fmap)%list_elem_of_fmap.
    simpl in E. congruence.
Qed.

Lemma catalog_folders db now : folder_parent (catalog_of db now) = f_parent <$> s_folders db.
Proof. apply (collect_map_to_list f_parent). Qed.

Lemma catalog_devices db now :
  device_folder (catalog_of db now) = (d_folder ∘ d_settings) <$> s_devices db.
Proof. apply (collect_map_to_list (d_folder ∘ d_settings)). Qed.

Lemma catalog_profiles db now : profile_folder (catalog_of db now) = p_folder <$> s_profiles db.
Proof. apply (collect_map_to_list p_folder). Qed.

(** ** Functions of the database *)

(** The recursion both functions share: a folder and those above it, from the
    bottom. On a loop of folders without a connector the query of
    [folder_connector] does not end; here it gives none. *)
Fixpoint chain (fuel : nat) (fs : gmap Uuid FolderRow) (f : Uuid) : list (Uuid * FolderRow) :=
  match fuel, fs !! f with
  | S fuel, Some r =>
      (f, r) :: match f_parent r with Some p => chain fuel fs p | None => [] end
  | _, _ => []
  end.

Definition ancestors (fs : gmap Uuid FolderRow) (f : Uuid) : list (Uuid * FolderRow) :=
  chain (S (size fs)) fs f.

Definition folder_connector (fs : gmap Uuid FolderRow) (f : Uuid) : option Uuid :=
  head (omap (fun kr => f_connector kr.2) (ancestors fs f)).

Definition device_connector (fs : gmap Uuid FolderRow) (mode : ConnectorMode) (own : option Uuid)
    (folder : Uuid) : option Uuid :=
  match mode with
  | OwnConnector => own
  | Direct => None
  | Inherit => folder_connector fs folder
  end.

Definition folder_within (fs : gmap Uuid FolderRow) (f ancestor : Uuid) : bool :=
  bool_decide (ancestor ∈ (ancestors fs f).*1).

(** The connector a device is reached through. *)
Definition reached_through (fs : gmap Uuid FolderRow) (d : Settings) : option Uuid :=
  device_connector fs (d_mode d) (d_connector d) (d_folder d).

(** ** Folders above a folder *)

Definition up (fs : gmap Uuid FolderRow) (f p : Uuid) : Prop :=
  exists r, fs !! f = Some r /\ f_parent r = Some p.

(** No folder lies above itself. *)
Definition acyclic (fs : gmap Uuid FolderRow) : Prop := forall f, ~ tc (up fs) f f.

(** The parent of a folder is a folder. *)
Definition parents_known (fs : gmap Uuid FolderRow) : Prop :=
  forall f p, up fs f p -> is_Some (fs !! p).

Lemma above_folder db now f o :
  above (catalog_of db now) (Folder f) o <-> exists p, o = Folder p /\ up (s_folders db) f p.
Proof.
  unfold above, up, container. rewrite catalog_folders, lookup_fmap.
  destruct (s_folders db !! f) as [r|]; simpl; [|naive_solver].
  destruct (f_parent r) as [q|] eqn:E; simpl; naive_solver.
Qed.

Lemma rtc_above_folder db now f o :
  rtc (above (catalog_of db now)) (Folder f) o <-> exists p, o = Folder p /\ rtc (up (s_folders db)) f p.
Proof.
  split.
  - intros H. remember (Folder f) as x eqn:Hx. revert f Hx.
    induction H as [x|x y z Hxy _ IH]; intros f ->; [by exists f|].
    apply above_folder in Hxy as (p & -> & Hp). destruct (IH p eq_refl) as (q & -> & Hq).
    exists q. split; [done|]. by eapply rtc_l.
  - intros (p & -> & H). induction H as [|x y z Hxy _ IH]; [done|].
    eapply rtc_l; [|exact IH]. apply above_folder. eauto.
Qed.

Lemma is_within_iff db now f a :
  is_within (catalog_of db now) f a = true <-> rtc (up (s_folders db)) f a.
Proof.
  unfold is_within. rewrite bool_decide_eq_true, elem_of_path, rtc_above_folder. naive_solver.
Qed.

Section chain.
Context (fs : gmap Uuid FolderRow).

Lemma elem_of_chain fuel f k r :
  (k, r) ∈ chain fuel fs f -> rtc (up fs) f k /\ fs !! k = Some r.
Proof.
  revert f. induction fuel as [|fuel IH]; intros f; simpl; [by intros ?%elem_of_nil|].
  destruct (fs !! f) as [r'|] eqn:E; [|by intros ?%elem_of_nil].
  intros [[= -> ->]|Hin]%elem_of_cons; [done|].
  destruct (f_parent r') as [p|] eqn:Ep; [|by apply elem_of_nil in Hin].
  apply IH in Hin as [Hp ?]. split; [|done]. eapply rtc_l; [|exact Hp]. by exists r'.
Qed.

Lemma chain_keys fuel f k : k ∈ (chain fuel fs f).*1 -> rtc (up fs) f k /\ is_Some (fs !! k).
Proof. intros ([k' r] & -> & [? ?]%elem_of_chain)%list_elem_of_fmap. eauto. Qed.

Lemma chain_nodup fuel f : acyclic fs -> NoDup (chain fuel fs f).*1.
Proof.
  intros Hac. revert f. induction fuel as [|fuel IH]; intros f; simpl; [constructor|].
  destruct (fs !! f) as [r|] eqn:E; [|constructor]. simpl. apply NoDup_cons.
  destruct (f_parent r) as [p|] eqn:Ep; [|split; [by intros ?%elem_of_nil|constructor]].
  split; [|done]. intros [Hp _]%chain_keys. apply (Hac f). eapply tc_rtc_r; [|exact Hp].
  apply tc_once. by exists r.
Qed.

Lemma chain_length fuel f : acyclic fs -> (length (chain fuel fs f) <= size fs)%nat.
Proof.
  intros Hac. rewrite <- (length_fmap fst), <- length_keys.
  apply submseteq_length, NoDup_submseteq; [by apply chain_nodup|].
  intros k [_ Hk]%chain_keys. by apply elem_of_keys.
Qed.

Lemma chain_stable fuel f :
  (length (chain fuel fs f) < fuel)%nat -> chain (S fuel) fs f = chain fuel fs f.
Proof.
  revert f. induction fuel as [|fuel IH]; intros f Hlen; [lia|]. simpl in *.
  destruct (fs !! f) as [r|]; [|done]. destruct (f_parent r) as [p|]; [|done].
  simpl in Hlen. f_equal. apply IH. lia.
Qed.

(** The chain of a folder continues with that of its parent. *)
Lemma ancestors_up f r :
  acyclic fs -> fs !! f = Some r ->
  ancestors fs f = (f, r) :: match f_parent r with Some p => ancestors fs p | None => [] end.
Proof.
  intros Hac Hf. unfold ancestors. simpl chain at 1. rewrite Hf.
  destruct (f_parent r) as [p|] eqn:Ep; [|done]. f_equal.
  symmetry. apply chain_stable.
  pose proof (chain_length (S (size fs)) f Hac) as Hlen. simpl in Hlen. rewrite Hf, Ep in Hlen.
  simpl in Hlen. lia.
Qed.

Lemma folder_within_iff f a :
  acyclic fs -> folder_within fs f a = true <-> rtc (up fs) f a /\ is_Some (fs !! a).
Proof.
  intros Hac. unfold folder_within. rewrite bool_decide_eq_true. split; [by apply chain_keys|].
  intros [H Ha]. induction H as [x|x y z (r & Hr & Hy) _ IH].
  - destruct Ha as [r Hr]. rewrite (ancestors_up x r) by done. simpl. apply elem_of_cons. by left.
  - rewrite (ancestors_up x r), Hy by done. simpl. apply elem_of_cons. right. by apply IH.
Qed.

End chain.

(** More fuel than there are folders changes nothing. *)
Lemma chain_enough fs n f :
  acyclic fs -> (size fs < n)%nat -> chain n fs f = ancestors fs f.
Proof.
  intros Hac Hn. unfold ancestors. induction Hn as [|n Hn IH]; [done|].
  rewrite <- IH. apply chain_stable. pose proof (chain_length fs n f Hac). lia.
Qed.

(** The chain of a folder depends only on the folders above it. *)
Lemma ancestors_agree fs fs' f :
  acyclic fs -> acyclic fs' -> (forall k, rtc (up fs) f k -> fs' !! k = fs !! k) ->
  ancestors fs' f = ancestors fs f.
Proof.
  intros Hac Hac' Hk.
  assert (Hn : forall n, chain n fs' f = chain n fs f).
  { intros n. revert f Hk. induction n as [|n IH]; intros f Hk; [done|]. simpl.
    rewrite (Hk f) by done. destruct (fs !! f) as [r|] eqn:E; [|done].
    destruct (f_parent r) as [p|] eqn:Ep; [|done]. f_equal. apply IH.
    intros k Hr. apply Hk. eapply rtc_l; [|exact Hr]. by exists r. }
  rewrite <- (chain_enough fs (S (size fs `max` size fs'))) by (done || lia).
  rewrite <- (chain_enough fs' (S (size fs `max` size fs'))) by (done || lia). apply Hn.
Qed.

Lemma up_insert fs id r f p :
  up (<[id := r]> fs) f p <-> (f = id /\ f_parent r = Some p) \/ (f <> id /\ up fs f p).
Proof.
  unfold up. rewrite lookup_insert. case_decide; subst; naive_solver.
Qed.

(** A walk up after one folder got a new parent: as before, or through it. *)
Lemma rtc_up_insert fs id r x y :
  (forall p, f_parent r = Some p -> ~ rtc (up fs) p id) ->
  rtc (up (<[id := r]> fs)) x y ->
  rtc (up fs) x y \/ (rtc (up fs) x id /\ exists p, f_parent r = Some p /\ rtc (up fs) p y).
Proof.
  intros Hout. induction 1 as [x|x z y Hxz _ IH]; [by left|].
  apply up_insert in Hxz as [[-> Hp]|[Hne Hxz]].
  - right. split; [done|]. exists z. split; [done|]. destruct IH as [IH|[Hz _]]; [done|].
    by destruct (Hout z).
  - destruct IH as [IH|[Hz IH]]; [left|right; split; [|done]]; by eapply rtc_l.
Qed.

Lemma tc_step {A} (R : relation A) x y : tc R x y -> exists z, R x z /\ rtc R z y.
Proof. destruct 1 as [x y H|x y z H Hyz]; [by exists y|]. exists y. split; [done|]. by apply tc_rtc. Qed.

(** Moving a folder under one that does not lie below it makes no loop. *)
Lemma acyclic_insert fs id r :
  acyclic fs -> (forall p, f_parent r = Some p -> ~ rtc (up fs) p id) ->
  acyclic (<[id := r]> fs).
Proof.
  intros Hac Hout f (z & Hfz & Hzf)%tc_step. apply up_insert in Hfz as [[-> Hp]|[Hne Hfz]].
  - apply (Hout z Hp). by apply rtc_up_insert in Hzf as [?|[? _]].
  - apply rtc_up_insert in Hzf as [Hzf|(Hz & p & Hp & Hpf)]; [| |done].
    + apply (Hac f). eapply tc_rtc_r; [by apply tc_once|done].
    + apply (Hout p Hp). etrans; [exact Hpf|]. by eapply rtc_l.
Qed.

Lemma up_delete fs id f p : up (delete id fs) f p -> up fs f p.
Proof. intros (r & [_ ?]%lookup_delete_Some & ?). by exists r. Qed.

Lemma acyclic_delete fs id : acyclic fs -> acyclic (delete id fs).
Proof.
  intros Hac f H. apply (Hac f). revert H. apply (tc_congruence (fun x => x)).
  intros x y. apply up_delete.
Qed.
