(* ===== verification/Folders.v ===== *)
(** * Folders (crates/server/src/api/catalog.rs)

    The handlers that create, change, move and delete folders. A handler reads
    the tables first ([seen]: the catalog it decides by and what else it asks
    for before its transaction) and then changes them in a transaction ([db]);
    between the two other requests may run. An error takes the transaction
    back, so a handler gives the changed tables or an error. *)
From S2P Require Import Prelude Text Model Session AccessRequests Store.

Inductive ApiProblem :=
| AP_Invalid (field : string)
| AP_Forbidden
| AP_NotFound
| AP_NameTaken
| AP_FolderNotEmpty
| AP_RetargetForbidden (devices : list (list Z))
| AP_ProfileOutOfReach (devices : list (list Z))
| AP_ProfileInUse (devices : list (list Z))
| AP_ConfirmationRequired
| AP_LastAdministrator
| AP_AccountsUnavailable
| AP_SecondFactorInvalid
| AP_Internal.

#[export] Instance api_problem_eq_dec : EqDecision ApiProblem.
Proof. solve_decision. Defined.

(** ** Helpers *)

(** [not_found] for what the subject cannot see, [forbidden] for the rest. *)
Definition require (c : Catalog) (s : Subject) (needed : Role) (o : ObjectId) :
    result unit ApiProblem :=
  match effective_role c s o with
  | Some r => if role_leb needed r then Ok tt else Err AP_Forbidden
  | None => Err AP_NotFound
  end.

Definition check_name (value : str) (field : string) : result (list Z) ApiProblem :=
  let value := trim value in
  if bool_decide (value = []) || (200 <? Z.of_nat (length value)) || existsb is_control value
  then Err (AP_Invalid field) else Ok value.

Definition require_connector (db : Store) (connector : option Uuid) : result unit ApiProblem :=
  match connector with
  | None => Ok tt
  | Some c => if bool_decide (c ∈ s_connectors db) then Ok tt else Err (AP_Invalid "connector_id")
  end.

Definition with_folders (f : gmap Uuid FolderRow -> gmap Uuid FolderRow) (db : Store) : Store :=
  {| s_folders := f (s_folders db); s_collections := s_collections db;
     s_credentials := s_credentials db; s_devices := s_devices db; s_profiles := s_profiles db;
     s_connectors := s_connectors db; s_grants := s_grants db; s_secrets := s_secrets db;
     s_log := s_log db |}.

Definition with_devices (f : gmap Uuid DeviceRow -> gmap Uuid DeviceRow) (db : Store) : Store :=
  {| s_folders := s_folders db; s_collections := s_collections db;
     s_credentials := s_credentials db; s_devices := f (s_devices db); s_profiles := s_profiles db;
     s_connectors := s_connectors db; s_grants := s_grants db; s_secrets := s_secrets db;
     s_log := s_log db |}.

Definition with_grants (f : list GrantRow -> list GrantRow) (db : Store) : Store :=
  {| s_folders := s_folders db; s_collections := s_collections db;
     s_credentials := s_credentials db; s_devices := s_devices db; s_profiles := s_profiles db;
     s_connectors := s_connectors db; s_grants := f (s_grants db); s_secrets := s_secrets db;
     s_log := s_log db |}.

(** [audit::record], with the entry of the function [entry]. *)
Definition record (s : Session) (a : CatalogAction) (o : ObjectId) (db : Store) : Store :=
  {| s_folders := s_folders db; s_collections := s_collections db;
     s_credentials := s_credentials db; s_devices := s_devices db; s_profiles := s_profiles db;
     s_connectors := s_connectors db; s_grants := s_grants db; s_secrets := s_secrets db;
     s_log := s_log db ++ [{| l_actor := user_id s; l_action := a; l_object := o |}] |}.

(** Whether a key that a row refers to is there; a NULL refers to nothing. *)
Definition refers {V} (m : gmap Uuid V) (k : option Uuid) : bool :=
  match k with Some k => is_some (m !! k) | None => true end.

Definition connector_known (db : Store) (c : option Uuid) : bool :=
  match c with Some c => bool_decide (c ∈ s_connectors db) | None => true end.

(** Writing the row of a folder, with the constraints of the table in the order
    PostgreSQL checks them, as the problems [database] makes of them: no folder
    in itself, names unique in a folder, references to rows that exist. *)
Definition write_folder (id : Uuid) (r : FolderRow) (db : Store) : result Store ApiProblem :=
  if bool_decide (f_parent r = Some id) then Err AP_Internal
  else if existsb (fun kr => negb (kr.1 =? id) && bool_decide (f_parent kr.2 = f_parent r)
                             && bool_decide (f_name kr.2 = f_name r))
            (map_to_list (s_folders db))
  then Err AP_NameTaken
  else if negb (refers (s_folders db) (f_parent r))
          || negb (connector_known db (f_connector r))
  then Err AP_FolderNotEmpty
  else Ok (with_folders (insert id r) db).

Section handlers.
Context `{UuidText}.

(** ** Creating *)

Record NewFolder := {
  nf_parent : option Uuid;
  nf_name : list Z;
  nf_connector : option Uuid
}.

(** [new_id] is the primary key the database generates for the row. *)
Definition create_folder (s : Session) (now : Z) (new_id : Uuid) (input : NewFolder)
    (seen db : Store) : result Store ApiProblem :=
  let? n := check_name (nf_name input) "name" in
  let c := catalog_of seen now in
  let? _ := match nf_parent input with
            | None => if may_create_top_level (subject s) then Ok tt else Err AP_Forbidden
            | Some p => require c (subject s) Role_Manage (Folder p)
            end in
  let? _ := require_connector seen (nf_connector input) in
  let? db := write_folder new_id
               {| f_parent := nf_parent input; f_name := n; f_connector := nf_connector input |} db in
  Ok (record s FolderCreated (Folder new_id) db).

(** ** Changing and moving *)

(** A field that is absent stays; [Some None] is JSON's [null]. *)
Record FolderChange := {
  fc_name : option (list Z);
  fc_parent : option (option Uuid);
  fc_connector : option (option Uuid)
}.

(** A device in a folder's subtree, and the connector it is reached through. *)
Record ReachedDevice := {
  re_id : Uuid;
  re_name : list Z;
  re_profile : option Uuid;
  re_through : option Uuid
}.

Definition reached_device (fs : gmap Uuid FolderRow) (id : Uuid) (d : DeviceRow) : ReachedDevice :=
  {| re_id := id; re_name := d_name (d_settings d); re_profile := d_profile (d_settings d);
     re_through := reached_through fs (d_settings d) |}.

Definition devices_below (db : Store) (folder : Uuid) : list ReachedDevice :=
  (fun kd => reached_device (s_folders db) kd.1 kd.2)
    <$> filter (fun kd => folder_within (s_folders db) (d_folder (d_settings kd.2)) folder = true)
          (map_to_list (s_devices db)).

(** A device whose profile lies neither in its folder nor in one above it. *)
Definition stranded (db : Store) (d : DeviceRow) : bool :=
  match d_profile (d_settings d) ≫= fun p => s_profiles db !! p with
  | Some p => is_some_and (fun home =>
                negb (folder_within (s_folders db) (d_folder (d_settings d)) home)) (p_folder p)
  | None => false
  end.

(** The names come in no particular order; the query sorts them. *)
Definition out_of_reach (db : Store) : list (list Z) :=
  (fun kd => d_name (d_settings kd.2))
    <$> filter (fun kd => stranded db kd.2 = true) (map_to_list (s_devices db)).

Definition set_pins (p : Pins) (d : DeviceRow) : DeviceRow :=
  {| d_settings := d_settings d; d_secret_version := d_secret_version d; d_key := d_key d;
     d_pins := p; d_keywords := d_keywords d; d_keywords_by := d_keywords_by d |}.

(** [FORGET_PINS]. *)
Definition forget_pins (ids : list Uuid) (db : Store) : Store :=
  with_devices (map_imap (fun id d => Some (if bool_decide (id ∈ ids) then set_pins no_pins d else d)))
    db.

(** The devices below that another connector reaches now. *)
Definition retargeted_devices (before after : list ReachedDevice) : list ReachedDevice :=
  filter (fun d => existsb (fun was => (re_id was =? re_id d)
                              && bool_decide (re_through was <> re_through d)) before = true) after.

Definition refused_devices (c : Catalog) (s : Subject) (ds : list ReachedDevice) : list (list Z) :=
  re_name <$> filter (fun d => is_some_and (fun p =>
                negb (is_ok (require c s Role_Connect (Profile p)))) (re_profile d) = true) ds.

(** [UPDATE folders]: without the row it changes nothing. *)
Definition change_folder (id : Uuid) (n : option (list Z)) (input : FolderChange) (db : Store) :
    result Store ApiProblem :=
  match s_folders db !! id with
  | None => Ok db
  | Some r =>
      write_folder id {| f_parent := default (f_parent r) (fc_parent input);
                         f_name := default (f_name r) n;
                         f_connector := default (f_connector r) (fc_connector input) |} db
  end.

Definition update_folder (s : Session) (now : Z) (id : Uuid) (input : FolderChange)
    (seen db : Store) : result Store ApiProblem :=
  let c := catalog_of seen now in
  let? _ := require c (subject s) Role_Manage (Folder id) in
  let? n := match fc_name input with
            | Some n => let? n := check_name n "name" in Ok (Some n)
            | None => Ok None
            end in
  let? _ := match fc_parent input with
            | None => Ok tt
            | Some None => if may_create_top_level (subject s) then Ok tt else Err AP_Forbidden
            | Some (Some p) =>
                let? _ := require c (subject s) Role_Manage (Folder p) in
                if is_within c p id then Err (AP_Invalid "parent_id") else Ok tt
            end in
  let? _ := match fc_connector input with
            | Some (Some k) => require_connector seen (Some k)
            | _ => Ok tt
            end in
  let before := devices_below db id in
  let? db := change_folder id n input db in
  let retargeted := retargeted_devices before (devices_below db id) in
  let refused := refused_devices c (subject s) retargeted in
  if negb (bool_decide (refused = [])) then Err (AP_RetargetForbidden refused)
  else if negb (bool_decide (out_of_reach db = [])) then Err (AP_ProfileOutOfReach (out_of_reach db))
  else Ok (record s (FolderUpdated (re_id <$> retargeted)) (Folder id)
             (forget_pins (re_id <$> retargeted) db)).

(** ** Deleting *)

(** [DELETE FROM folders]: what is in a folder keeps it, its grants go. *)
Definition drop_folder (id : Uuid) (db : Store) : result Store ApiProblem :=
  if existsb (fun kr => bool_decide (f_parent kr.2 = Some id)) (map_to_list (s_folders db))
     || existsb (fun kd => d_folder (d_settings kd.2) =? id) (map_to_list (s_devices db))
     || existsb (fun kp => bool_decide (p_folder kp.2 = Some id)) (map_to_list (s_profiles db))
  then Err AP_FolderNotEmpty
  else Ok (with_grants (filter (fun g => gr_folder g <> Some id)) (with_folders (delete id) db)).

Definition delete_folder (s : Session) (now : Z) (id : Uuid) (seen db : Store) :
    result Store ApiProblem :=
  let? _ := require (catalog_of seen now) (subject s) Role_Manage (Folder id) in
  let? db := drop_folder id db in
  Ok (record s FolderDeleted (Folder id) db).

End handlers.

(** ** The right a handler asks for *)

Lemma require_ok c s needed o : require c s needed o = Ok tt <-> authorize c s needed o = true.
Proof.
  unfold require, authorize. destruct (effective_role c s o) as [r|]; simpl; [|done].
  by destruct (role_leb needed r).
Qed.
