(* ===== verification/Devices.v ===== *)
(** * Devices (crates/server/src/api/catalog.rs)

    What a user may enter for a device, and the handlers that create, change,
    move and delete devices, reset what was pinned and set search words. As in
    [Folders], a handler reads [seen] before its transaction and changes [db]
    in it. SSH keys are read by the crate [russh]: a parameter. *)
From S2P Require Import Prelude Text Utf8 Model Session AccessRequests Store Folders.

(** ** Keys (crates/gateway/src/ssh.rs) *)

Inductive KeyError :=
| InvalidKey
| PassphraseRequired
| WrongPassphrase
| InvalidCertificate
| CertificateMismatch.

(** A private key as far as remotehub looks at it. *)
Record PrivateKey := { pk_algorithm : list Z; pk_fingerprint : list Z; pk_public : list Z }.

(** A certificate: whether it is a user's, and the key it belongs to. *)
Record Certificate := { ce_user : bool; ce_public : list Z }.

(** [decode_secret_key] and [Certificate::from_openssh] (crate [russh]). *)
Class SshKeys := {
  decode_secret_key : list Z -> option (list Z) -> option PrivateKey;
  from_openssh : list Z -> option Certificate
}.

(** [str::contains]. *)
Fixpoint contains_text (needle text : str) : bool :=
  starts_with needle text
  || match text with [] => false | _ :: text => contains_text needle text end.

Definition looks_like_private_key (text : str) : bool :=
  let text := trim text in
  starts_with (lit "-----BEGIN") text && contains_text (lit "PRIVATE KEY-----") text.

(** [Option::filter]. *)
Definition filter_option {A} (f : A -> bool) (o : option A) : option A :=
  o ≫= fun a => if f a then Some a else None.

Definition not_empty (s : str) : bool := negb (bool_decide (s = [])).

Section input.
Context `{SshKeys}.

Definition ssh_key_parse (private_key : str) (passphrase certificate : option (list Z)) :
    result PrivateKey KeyError :=
  let passphrase := filter_option not_empty passphrase in
  let? key := match decode_secret_key (trim private_key) None with
              | Some key => Ok key
              | None =>
                  if negb (looks_like_private_key private_key) then Err InvalidKey
                  else match passphrase with
                       | None => Err PassphraseRequired
                       | Some p => ok_or (decode_secret_key (trim private_key) (Some p)) WrongPassphrase
                       end
              end in
  match filter_option not_empty (trim <$> certificate) with
  | None => Ok key
  | Some c =>
      let? c := ok_or (from_openssh c) InvalidCertificate in
      if negb (ce_user c) then Err InvalidCertificate
      else if negb (bool_decide (ce_public c = pk_public key)) then Err CertificateMismatch
      else Ok key
  end.

(** ** Secrets a user enters *)

Record SecretInput := {
  si_password : option (list Z);
  si_private_key : option (list Z);
  si_passphrase : option (list Z);
  si_certificate : option (list Z)
}.

(** Empty fields are ones left empty to keep what is stored. *)
Definition given (i : SecretInput) : SecretInput :=
  {| si_password := filter_option not_empty (si_password i);
     si_private_key := filter_option (fun k => not_empty (trim k)) (si_private_key i);
     si_passphrase := si_passphrase i; si_certificate := si_certificate i |}.

Inductive Secrets :=
| Secrets_Password (password : list Z)
| Secrets_Key (private_key : list Z) (passphrase certificate : option (list Z))
    (algorithm fingerprint : list Z).

Definition PASSWORD_FIELD : string := "password".
Definition PRIVATE_KEY_FIELD : string := "private_key".
Definition PASSPHRASE_FIELD : string := "passphrase".
Definition CERTIFICATE_FIELD : string := "certificate".

Definition secret_fields (s : Secrets) : list (string * list Z) :=
  match s with
  | Secrets_Password p => [(PASSWORD_FIELD, p)]
  | Secrets_Key k p c _ _ =>
      (PRIVATE_KEY_FIELD, k)
        :: option_list ((fun p => (PASSPHRASE_FIELD, p)) <$> p)
        ++ option_list ((fun c => (CERTIFICATE_FIELD, c)) <$> c)
  end.

Definition key_info (s : Secrets) : KeyInfo :=
  match s with
  | Secrets_Password _ => no_key
  | Secrets_Key _ _ c a f =>
      {| key_algorithm := Some a; key_fingerprint := Some f; has_certificate := is_some c |}
  end.

Definition key_error_field (e : KeyError) : string :=
  match e with
  | InvalidKey => "private_key"
  | PassphraseRequired | WrongPassphrase => "passphrase"
  | InvalidCertificate | CertificateMismatch => "certificate"
  end.

Definition new_secrets (kind : SecretKind) (i : SecretInput) : result (option Secrets) ApiProblem :=
  match kind with
  | Kind_Password => Ok (Secrets_Password <$> si_password i)
  | Kind_SshKey =>
      match si_private_key i with
      | None => Ok None
      | Some k =>
          let p := filter_option not_empty (si_passphrase i) in
          let c := filter_option not_empty (trim <$> si_certificate i) in
          match ssh_key_parse k p c with
          | Err e => Err (AP_Invalid (key_error_field e))
          | Ok key => Ok (Some (Secrets_Key k p c (pk_algorithm key) (pk_fingerprint key)))
          end
      end
  end.

Definition plain_text (value : str) (field : string) : result (list Z) ApiProblem :=
  let value := trim value in
  if (256 <? Z.of_nat (length value)) || existsb is_control value
  then Err (AP_Invalid field) else Ok value.

(** The field that is missing where a secret is needed. *)
Definition missing_secret (kind : SecretKind) : ApiProblem :=
  AP_Invalid (match kind with Kind_SshKey => "private_key" | Kind_Password => "password" end).

(** ** What a user enters for a device *)

Record DeviceInput := {
  i_folder : Uuid;
  i_name : list Z;
  i_protocol : list Z;
  i_host : list Z;
  i_port : Z;
  i_auth_mode : list Z;
  i_profile : option Uuid;
  i_description : list Z;
  i_layout : option (list Z);
  i_mode : option (list Z);
  i_connector : option Uuid;
  i_confirmation : bool;
  i_username : list Z;
  i_domain : list Z;
  i_secret_kind : option (list Z);
  i_secrets : SecretInput
}.

Record ValidDevice := { v_settings : Settings; v_secrets : option Secrets }.

Definition connector_mode (mode : option (list Z)) (connector : option Uuid) :
    result ConnectorMode ApiProblem :=
  match mode, connector with
  | None, None => Ok Inherit
  | Some m, None =>
      if bool_decide (m = lit "inherit") then Ok Inherit
      else if bool_decide (m = lit "direct") then Ok Direct
      else Err (AP_Invalid "connector_id")
  | Some m, Some _ =>
      if bool_decide (m = lit "connector") then Ok OwnConnector else Err (AP_Invalid "connector_id")
  | None, Some _ => Err (AP_Invalid "connector_id")
  end.

Definition protocol_of (p : str) : result Protocol ApiProblem :=
  if bool_decide (p = lit "ssh") then Ok Ssh
  else if bool_decide (p = lit "rdp") then Ok Rdp
  else if bool_decide (p = lit "vnc") then Ok Vnc
  else if bool_decide (p = lit "https") then Ok Https
  else Err (AP_Invalid "protocol").

Definition auth_mode_of (p : Protocol) (m : str) : result AuthMode ApiProblem :=
  if bool_decide (m = lit "profile") then Ok Auth_Profile
  else if bool_decide (m = lit "ask") then Ok Auth_Ask
  else if bool_decide (m = lit "own") then Ok Auth_Own
  else if bool_decide (m = lit "certificate") && bool_decide (p = Ssh) then Ok Auth_Certificate
  else if bool_decide (m = lit "laps") && (bool_decide (p = Ssh) || bool_decide (p = Rdp))
  then Ok Auth_Laps
  else if bool_decide (m = lit "device") then Ok Auth_Device
  else Err (AP_Invalid "auth_mode").

Definition device_secret_kind (p : Protocol) (own : bool) (k : option (list Z)) :
    result SecretKind ApiProblem :=
  match filter_option (fun _ => own) k with
  | None => Ok Kind_Password
  | Some k =>
      if bool_decide (k = lit "password") then Ok Kind_Password
      else if bool_decide (k = lit "ssh_key") && bool_decide (p = Ssh) then Ok Kind_SshKey
      else Err (AP_Invalid "secret_kind")
  end.

(** A character no host has: white space, control characters and [/\@?#]. *)
Definition not_in_host (c : Z) : bool :=
  is_whitespace c || is_control c || bool_decide (c ∈ lit "/\@?#").

Definition check_host (h : str) : result (list Z) ApiProblem :=
  let h := trim h in
  if bool_decide (h = []) || (253 <? str_len h) || existsb not_in_host h
  then Err (AP_Invalid "host") else Ok h.

(** [KEYBOARD_LAYOUTS] (crates/gateway/src/guacamole.rs). *)
Definition KEYBOARD_LAYOUTS : list (list Z) :=
  lit <$> ["cs-cz-qwertz"; "da-dk-qwerty"; "de-ch-qwertz"; "de-de-qwertz"; "en-gb-qwerty";
           "en-us-qwerty"; "es-es-qwerty"; "es-latam-qwerty"; "fr-be-azerty"; "fr-ca-qwerty";
           "fr-ch-qwertz"; "fr-fr-azerty"; "hu-hu-qwertz"; "it-it-qwerty"; "ja-jp-qwerty";
           "no-no-qwerty"; "pl-pl-qwerty"; "pt-br-qwerty"; "pt-pt-qwerty"; "ro-ro-qwerty";
           "sv-se-qwerty"; "tr-tr-qwerty"; "failsafe"]%string.

Definition layout_of (p : Protocol) (l : option (list Z)) : result (option (list Z)) ApiProblem :=
  match filter_option not_empty l with
  | Some l =>
      if bool_decide (p = Rdp)
      then if bool_decide (l ∈ KEYBOARD_LAYOUTS) then Ok (Some l)
           else Err (AP_Invalid "keyboard_layout")
      else Ok None
  | None => Ok None
  end.

Definition validate (i : DeviceInput) : result ValidDevice ApiProblem :=
  let? mode := connector_mode (i_mode i) (i_connector i) in
  let? protocol := protocol_of (i_protocol i) in
  let? auth_mode := auth_mode_of protocol (i_auth_mode i) in
  let own := bool_decide (auth_mode = Auth_Device) in
  let? kind := device_secret_kind protocol own (i_secret_kind i) in
  let? secrets := if own then new_secrets kind (given (i_secrets i)) else Ok None in
  if negb (Bool.eqb (bool_decide (auth_mode = Auth_Profile)) (is_some (i_profile i)))
  then Err (AP_Invalid "profile_id") else
  let? host := check_host (i_host i) in
  if i_port i =? 0 then Err (AP_Invalid "port") else
  if 2000 <? Z.of_nat (length (i_description i)) then Err (AP_Invalid "description") else
  let? layout := layout_of protocol (i_layout i) in
  let? name := check_name (i_name i) "name" in
  let? username := if own then plain_text (i_username i) "username" else Ok [] in
  let? domain := if own then plain_text (i_domain i) "domain" else Ok [] in
  Ok {| v_settings :=
          {| d_folder := i_folder i; d_name := name; d_protocol := protocol; d_host := host;
             d_port := i_port i; d_auth_mode := auth_mode; d_profile := i_profile i;
             d_description := trim (i_description i); d_layout := layout; d_mode := mode;
             d_connector := i_connector i; d_confirmation := i_confirmation i;
             d_username := username; d_domain := domain; d_secret_kind := kind |};
        v_secrets := secrets |}.

End input.

(** ** Storing *)

Definition with_secrets
    (f : gmap (Uuid * Z) (list (string * list Z)) -> gmap (Uuid * Z) (list (string * list Z)))
    (db : Store) : Store :=
  {| s_folders := s_folders db; s_collections := s_collections db;
     s_credentials := s_credentials db; s_devices := s_devices db; s_profiles := s_profiles db;
     s_connectors := s_connectors db; s_grants := s_grants db; s_secrets := f (s_secrets db);
     s_log := s_log db |}.

(** [seal_version]: one row for each field; a row of the same owner, version
    and field is a conflict. *)
Definition seal_version (id : Uuid) (version : Z) (s : Secrets) (db : Store) :
    result Store ApiProblem :=
  let old := default [] (s_secrets db !! (id, version)) in
  if existsb (fun f => bool_decide (f.1 ∈ old.*1)) (secret_fields s) then Err AP_Internal
  else Ok (with_secrets (insert (id, version) (old ++ secret_fields s)) db).

Definition seal_given (id : Uuid) (version : Z) (s : option Secrets) (db : Store) :
    result Store ApiProblem :=
  match s with Some s => seal_version id version s db | None => Ok db end.

(** [DELETE FROM secret_fields WHERE owner_id = $1 AND version <> $2]. *)
Definition keep_version (id : Uuid) (version : Z) (db : Store) : Store :=
  with_secrets (filter (fun kv => ~ (kv.1.1 = id /\ kv.1.2 <> version))) db.

(** [DELETE FROM secret_fields WHERE owner_id = $1]. *)
Definition drop_secrets (id : Uuid) (db : Store) : Store :=
  with_secrets (filter (fun kv => kv.1.1 <> id)) db.

(** Writing the row of a device: names are unique in a folder, references are
    to rows that exist. *)
Definition write_device (id : Uuid) (d : DeviceRow) (db : Store) : result Store ApiProblem :=
  if existsb (fun kd => negb (kd.1 =? id)
                        && (d_folder (d_settings kd.2) =? d_folder (d_settings d))
                        && bool_decide (d_name (d_settings kd.2) = d_name (d_settings d)))
       (map_to_list (s_devices db))
  then Err AP_NameTaken
  else if negb (refers (s_folders db) (Some (d_folder (d_settings d))))
          || negb (refers (s_profiles db) (d_profile (d_settings d)))
          || negb (connector_known db (d_connector (d_settings d)))
  then Err AP_FolderNotEmpty
  else Ok (with_devices (insert id d) db).

(** [UPDATE devices]: without the row it changes nothing. *)
Definition change_device (id : Uuid) (f : DeviceRow -> DeviceRow) (db : Store) :
    result Store ApiProblem :=
  match s_devices db !! id with
  | None => Ok db
  | Some d => write_device id (f d) db
  end.

(** A device may use a profile of its folder, of one above or of the top level. *)
Definition in_reach (c : Catalog) (profile folder : Uuid) : result unit ApiProblem :=
  match parent c (Profile profile) with
  | Some home => if negb (is_within c folder home) then Err (AP_ProfileOutOfReach []) else Ok tt
  | None => Ok tt
  end.

(** Keys are SSH's. *)
Definition profile_fits (db : Store) (profile : Uuid) (p : Protocol) : result unit ApiProblem :=
  if bool_decide (p_secret_kind <$> s_profiles db !! profile = Some Kind_SshKey)
     && negb (bool_decide (p = Ssh))
  then Err (AP_Invalid "profile_id") else Ok tt.

Section handlers.
Context `{UuidText, SshKeys}.

(** ** Creating *)

(** The checks of the profile a device is to use; [asks] says whether the user
    needs the right to use it. *)
Definition check_profile (c : Catalog) (seen : Store) (s : Subject) (d : Settings) (asks : bool) :
    result unit ApiProblem :=
  match d_profile d with
  | None => Ok tt
  | Some p =>
      let? _ := if asks then require c s Role_Connect (Profile p) else Ok tt in
      let? _ := in_reach c p (d_folder d) in
      profile_fits seen p (d_protocol d)
  end.

Definition create_device (s : Session) (now : Z) (new_id : Uuid) (input : DeviceInput)
    (seen db : Store) : result Store ApiProblem :=
  let? v := validate input in
  let d := v_settings v in
  let c := catalog_of seen now in
  let? _ := require c (subject s) Role_Edit (Folder (d_folder d)) in
  let? _ := check_profile c seen (subject s) d true in
  let? _ := require_connector seen (d_connector d) in
  if bool_decide (d_auth_mode d = Auth_Device) && negb (is_some (v_secrets v))
  then Err (missing_secret (d_secret_kind d)) else
  let version := if is_some (v_secrets v) then 1 else 0 in
  let? db := write_device new_id
               {| d_settings := d; d_secret_version := version;
                  d_key := from_option key_info no_key (v_secrets v); d_pins := no_pins;
                  d_keywords := []; d_keywords_by := None |} db in
  let? db := seal_given new_id version (v_secrets v) db in
  Ok (record s DeviceCreated (Device new_id) db).

(** ** Changing *)

Definition target_changed (fs : gmap Uuid FolderRow) (before after : Settings) : bool :=
  negb (bool_decide (d_protocol before = d_protocol after))
  || negb (bool_decide (d_host before = d_host after))
  || negb (d_port before =? d_port after)
  || negb (bool_decide (reached_through fs before = reached_through fs after)).

Definition keep_pins (changed : bool) (p : Pins) : Pins := if changed then no_pins else p.

(** The version of the device's own secret after a change. *)
Definition next_version (before : DeviceRow) (v : ValidDevice) (keeps : bool) :
    result Z ApiProblem :=
  match v_secrets v with
  | Some _ => Ok (d_secret_version before + 1)
  | None =>
      if bool_decide (d_auth_mode (v_settings v) = Auth_Device)
      then if keeps then Ok (d_secret_version before)
           else Err (missing_secret (d_secret_kind (v_settings v)))
      else Ok 0
  end.

Definition update_device (s : Session) (now : Z) (id : Uuid) (input : DeviceInput)
    (seen db : Store) : result Store ApiProblem :=
  let? v := validate input in
  let d := v_settings v in
  let c := catalog_of seen now in
  let? _ := require c (subject s) Role_Edit (Device id) in
  let? _ := if negb (bool_decide (parent c (Device id) = Some (d_folder d)))
            then require c (subject s) Role_Edit (Folder (d_folder d)) else Ok tt in
  let? before := ok_or (s_devices seen !! id) AP_Internal in
  let? _ := require_connector seen (d_connector d) in
  let changed := target_changed (s_folders seen) (d_settings before) d in
  let? _ := check_profile c seen (subject s) d
              (negb (bool_decide (d_profile (d_settings before) = d_profile d)) || changed) in
  let may_carry := negb changed || is_ok (require c (subject s) Role_Reveal (Device id)) in
  let keeps := bool_decide (d_auth_mode (d_settings before) = Auth_Device)
               && (0 <? d_secret_version before)
               && bool_decide (d_secret_kind (d_settings before) = d_secret_kind d) && may_carry in
  let secret_kept := keeps && changed && negb (is_some (v_secrets v)) in
  let? version := next_version before v keeps in
  (* a release build wraps around, which the column's check refuses *)
  if i32_max <? version then Err AP_Internal else
  let key := match v_secrets v with
             | Some secrets => key_info secrets
             | None => if 0 <? version then d_key before else no_key
             end in
  let? db := seal_given id version (v_secrets v) db in
  let db := keep_version id version db in
  let? db := change_device id (fun row =>
               {| d_settings := d; d_secret_version := version; d_key := key;
                  d_pins := keep_pins changed (d_pins row); d_keywords := d_keywords row;
                  d_keywords_by := d_keywords_by row |}) db in
  Ok (record s (DeviceUpdated (is_some (v_secrets v)) secret_kept) (Device id) db).

(** ** Moving *)

Definition with_folder (f : Uuid) (d : Settings) : Settings :=
  {| d_folder := f; d_name := d_name d; d_protocol := d_protocol d; d_host := d_host d;
     d_port := d_port d; d_auth_mode := d_auth_mode d; d_profile := d_profile d;
     d_description := d_description d; d_layout := d_layout d; d_mode := d_mode d;
     d_connector := d_connector d; d_confirmation := d_confirmation d;
     d_username := d_username d; d_domain := d_domain d; d_secret_kind := d_secret_kind d |}.

Definition move_device (s : Session) (now : Z) (id folder : Uuid) (seen db : Store) :
    result Store ApiProblem :=
  let c := catalog_of seen now in
  let? _ := require c (subject s) Role_Edit (Device id) in
  let? _ := require c (subject s) Role_Edit (Folder folder) in
  let from := parent c (Device id) in
  if bool_decide (from = Some folder) then Ok db else
  let? before := ok_or (s_devices seen !! id) AP_Internal in
  let moved := with_folder folder (d_settings before) in
  let changed := negb (bool_decide (reached_through (s_folders seen) (d_settings before)
                                    = reached_through (s_folders seen) moved)) in
  let? _ := match d_profile (d_settings before) with
            | None => Ok tt
            | Some p =>
                let? _ := in_reach c p folder in
                if changed then require c (subject s) Role_Connect (Profile p) else Ok tt
            end in
  let own_secret := bool_decide (d_auth_mode (d_settings before) = Auth_Device)
                    && (0 <? d_secret_version before) in
  let? _ := if changed && own_secret then require c (subject s) Role_Reveal (Device id) else Ok tt in
  let? db := change_device id (fun row =>
               {| d_settings := with_folder folder (d_settings row);
                  d_secret_version := d_secret_version row; d_key := d_key row;
                  d_pins := keep_pins changed (d_pins row); d_keywords := d_keywords row;
                  d_keywords_by := d_keywords_by row |}) db in
  Ok (record s (DeviceMoved from folder (reached_through (s_folders seen) moved)
                  (changed && own_secret)) (Device id) db).

(** ** Deleting, and smaller changes *)

Definition delete_device (s : Session) (now : Z) (id : Uuid) (seen db : Store) :
    result Store ApiProblem :=
  let? _ := require (catalog_of seen now) (subject s) Role_Edit (Device id) in
  let db := drop_secrets id db in
  let db := with_grants (filter (fun g => gr_device g <> Some id)) (with_devices (delete id) db) in
  Ok (record s DeviceDeleted (Device id) db).

Definition reset_host_key (s : Session) (now : Z) (id : Uuid) (seen db : Store) :
    result Store ApiProblem :=
  let? _ := require (catalog_of seen now) (subject s) Role_Edit (Device id) in
  let? d := ok_or (s_devices db !! id) AP_Internal in
  let action := if bool_decide (d_protocol (d_settings d) = Rdp) then CertificateReset
                else HostKeyReset in
  Ok (record s action (Device id) (with_devices (insert id (set_pins no_pins d)) db)).

Definition MAX_KEYWORDS : Z := 500.

Definition set_words (words : str) (by_ : str) (d : DeviceRow) : DeviceRow :=
  {| d_settings := d_settings d; d_secret_version := d_secret_version d; d_key := d_key d;
     d_pins := d_pins d; d_keywords := words; d_keywords_by := Some by_ |}.

Definition set_keywords (s : Session) (now : Z) (id : Uuid) (keywords : str) (seen db : Store) :
    result Store ApiProblem :=
  let keywords := trim keywords in
  if (MAX_KEYWORDS <? Z.of_nat (length keywords)) || existsb is_control keywords
  then Err (AP_Invalid "keywords") else
  let? _ := require (catalog_of seen now) (subject s) Role_List (Device id) in
  Ok (record s (DeviceKeywordsChanged keywords) (Device id)
        (with_devices (alter (set_words keywords (display_name s)) id) db)).

End handlers.
