(* ===== verification/Profiles.v ===== *)
(** * Login profiles (crates/server/src/api/profiles.rs)

    A login many devices share: the handlers that create, change, move and
    delete one. As in [Folders], a handler reads [seen] before its transaction
    and changes [db] in it. *)
From S2P Require Import Prelude Text Model Session AccessRequests Store Folders Devices.

Record ProfileInput := {
  pi_folder : option Uuid;
  pi_name : list Z;
  pi_username : list Z;
  pi_domain : list Z;
  pi_secret_kind : option (list Z);
  pi_secrets : SecretInput
}.

(** Where a profile may be put: a folder one may edit, or the top level for
    administrators. *)
Definition require_place (c : Catalog) (s : Subject) (folder : option Uuid) :
    result unit ApiProblem :=
  match folder with
  | Some f => require c s Role_Edit (Folder f)
  | None => if may_create_top_level s then Ok tt else Err AP_Forbidden
  end.

Definition profile_secret_kind (k : option (list Z)) : result SecretKind ApiProblem :=
  match k with
  | None => Ok Kind_Password
  | Some k =>
      if bool_decide (k = lit "password") then Ok Kind_Password
      else if bool_decide (k = lit "ssh_key") then Ok Kind_SshKey
      else Err (AP_Invalid "secret_kind")
  end.

Definition with_profiles (f : gmap Uuid ProfileRow -> gmap Uuid ProfileRow) (db : Store) : Store :=
  {| s_folders := s_folders db; s_collections := s_collections db;
     s_credentials := s_credentials db; s_devices := s_devices db; s_profiles := f (s_profiles db);
     s_connectors := s_connectors db; s_grants := s_grants db; s_secrets := s_secrets db;
     s_log := s_log db |}.

(** Writing the row of a profile: names are unique in a folder, the folder
    exists. *)
Definition write_profile (id : Uuid) (p : ProfileRow) (db : Store) : result Store ApiProblem :=
  if existsb (fun kp => negb (kp.1 =? id) && bool_decide (p_folder kp.2 = p_folder p)
                        && bool_decide (p_name kp.2 = p_name p))
       (map_to_list (s_profiles db))
  then Err AP_NameTaken
  else if negb (refers (s_folders db) (p_folder p)) then Err AP_FolderNotEmpty
  else Ok (with_profiles (insert id p) db).

(** [UPDATE login_profiles]: without the row it changes nothing. *)
Definition change_profile (id : Uuid) (p : ProfileRow) (db : Store) : result Store ApiProblem :=
  match s_profiles db !! id with
  | None => Ok db
  | Some _ => write_profile id p db
  end.

(** The devices that sign in with a profile, as far as [P] holds of them. *)
Definition devices_with (id : Uuid) (P : Settings -> bool) (db : Store) : list (list Z) :=
  (fun kd => d_name (d_settings kd.2))
    <$> filter (fun kd => d_profile (d_settings kd.2) = Some id /\ P (d_settings kd.2) = true)
          (map_to_list (s_devices db)).

Section handlers.
Context `{UuidText, SshKeys}.

Definition create_profile (s : Session) (now : Z) (new_id : Uuid) (input : ProfileInput)
    (seen db : Store) : result Store ApiProblem :=
  let? name := check_name (pi_name input) "name" in
  let? username := plain_text (pi_username input) "username" in
  let? domain := plain_text (pi_domain input) "domain" in
  let? kind := profile_secret_kind (pi_secret_kind input) in
  let? secrets := new_secrets kind (given (pi_secrets input)) in
  let? secrets := ok_or secrets (missing_secret kind) in
  let c := catalog_of seen now in
  let? _ := require_place c (subject s) (pi_folder input) in
  let? db := write_profile new_id
               {| p_folder := pi_folder input; p_name := name; p_username := username;
                  p_domain := domain; p_secret_kind := kind; p_secret_version := 1;
                  p_key := key_info secrets |} db in
  let? db := seal_version new_id 1 secrets db in
  Ok (record s ProfileCreated (Profile new_id) db).

Definition update_profile (s : Session) (now : Z) (id : Uuid) (input : ProfileInput)
    (seen db : Store) : result Store ApiProblem :=
  let? name := check_name (pi_name input) "name" in
  let? username := plain_text (pi_username input) "username" in
  let? domain := plain_text (pi_domain input) "domain" in
  let? kind := profile_secret_kind (pi_secret_kind input) in
  let? secrets := new_secrets kind (given (pi_secrets input)) in
  let c := catalog_of seen now in
  let? _ := require c (subject s) Role_Edit (Profile id) in
  let? _ := if negb (bool_decide (parent c (Profile id) = pi_folder input))
            then require_place c (subject s) (pi_folder input) else Ok tt in
  let? before := ok_or (s_profiles seen !! id) AP_Internal in
  if negb (is_some secrets) && negb (bool_decide (kind = p_secret_kind before))
  then Err (missing_secret kind) else
  let version := p_secret_version before + (if is_some secrets then 1 else 0) in
  (* a release build wraps around, which the column's check refuses *)
  if i32_max <? version then Err AP_Internal else
  let? db := change_profile id
               {| p_folder := pi_folder input; p_name := name; p_username := username;
                  p_domain := domain; p_secret_kind := kind; p_secret_version := version;
                  p_key := match secrets with Some s => key_info s | None => p_key before end |} db in
  let? db := match secrets with
             | Some secrets =>
                 let? db := seal_version id version secrets db in Ok (keep_version id version db)
             | None => Ok db
             end in
  let misfits := devices_with id (fun d => negb (bool_decide (d_protocol d = Ssh))) db in
  if bool_decide (kind = Kind_SshKey) && negb (bool_decide (misfits = []))
  then Err (AP_Invalid "secret_kind") else
  if negb (bool_decide (out_of_reach db = [])) then Err (AP_ProfileOutOfReach (out_of_reach db)) else
  Ok (record s (ProfileUpdated (is_some secrets)) (Profile id) db).

Definition delete_profile (s : Session) (now : Z) (id : Uuid) (seen db : Store) :
    result Store ApiProblem :=
  let? _ := require (catalog_of seen now) (subject s) Role_Edit (Profile id) in
  let users := devices_with id (fun _ => true) db in
  if negb (bool_decide (users = [])) then Err (AP_ProfileInUse users) else
  Ok (record s ProfileDeleted (Profile id) (with_profiles (delete id) (drop_secrets id db))).

End handlers.
