(* ===== verification/Catalog.v ===== *)
(** * Requests on the tree of folders, devices and login profiles

    The handlers of [Folders], [Devices] and [Profiles] as one kind of request,
    what stays true of the tables under any sequence of them, and what the
    rules about targets and secrets achieve. *)
From S2P Require Import Prelude Text Model Session AccessRequests Store Folders Devices Profiles.

Inductive Request :=
| Rq_CreateFolder (new_id : Uuid) (input : NewFolder)
| Rq_UpdateFolder (id : Uuid) (input : FolderChange)
| Rq_DeleteFolder (id : Uuid)
| Rq_CreateDevice (new_id : Uuid) (input : DeviceInput)
| Rq_UpdateDevice (id : Uuid) (input : DeviceInput)
| Rq_MoveDevice (id folder : Uuid)
| Rq_DeleteDevice (id : Uuid)
| Rq_ResetHostKey (id : Uuid)
| Rq_SetKeywords (id : Uuid) (keywords : list Z)
| Rq_CreateProfile (new_id : Uuid) (input : ProfileInput)
| Rq_UpdateProfile (id : Uuid) (input : ProfileInput)
| Rq_DeleteProfile (id : Uuid).

(** The primary key the database draws for a new row is in no table yet. *)
Definition fresh_id (id : Uuid) (db : Store) : Prop :=
  s_folders db !! id = None /\ s_devices db !! id = None /\ s_profiles db !! id = None
  /\ forall v, s_secrets db !! (id, v) = None.

Definition draws_fresh (rq : Request) (db : Store) : Prop :=
  match rq with
  | Rq_CreateFolder id _ | Rq_CreateDevice id _ | Rq_CreateProfile id _ => fresh_id id db
  | _ => True
  end.

Section requests.
Context `{UuidText, SshKeys}.

Definition handle (s : Session) (now : Z) (rq : Request) (seen db : Store) :
    result Store ApiProblem :=
  match rq with
  | Rq_CreateFolder id i => create_folder s now id i seen db
  | Rq_UpdateFolder id i => update_folder s now id i seen db
  | Rq_DeleteFolder id => delete_folder s now id seen db
  | Rq_CreateDevice id i => create_device s now id i seen db
  | Rq_UpdateDevice id i => update_device s now id i seen db
  | Rq_MoveDevice id f => move_device s now id f seen db
  | Rq_DeleteDevice id => delete_device s now id seen db
  | Rq_ResetHostKey id => reset_host_key s now id seen db
  | Rq_SetKeywords id k => set_keywords s now id k seen db
  | Rq_CreateProfile id i => create_profile s now id i seen db
  | Rq_UpdateProfile id i => update_profile s now id i seen db
  | Rq_DeleteProfile id => delete_profile s now id seen db
  end.

End requests.

(** ** What holds of the tables *)

Definition tree_ok (fs : gmap Uuid FolderRow) : Prop := acyclic fs /\ parents_known fs.

(** A device lies in a folder, and its login profile exists, lies in its folder
    or one above, and is no key unless the device speaks SSH. *)
Definition placed (fs : gmap Uuid FolderRow) (ps : gmap Uuid ProfileRow) (d : Settings) : Prop :=
  is_Some (fs !! d_folder d)
  /\ forall p, d_profile d = Some p -> exists r, ps !! p = Some r
       /\ (forall home, p_folder r = Some home -> rtc (up fs) (d_folder d) home)
       /\ (p_secret_kind r = Kind_SshKey -> d_protocol d = Ssh).

(** The secrets sealed for an owner are those of its current version. *)
Definition sealed_at {A} (secrets : gmap (Uuid * Z) A) (i : Uuid) (v : Z) : Prop :=
  forall v', is_Some (secrets !! (i, v')) <-> v' = v /\ 0 < v.

(** Own credentials, and only they, have a secret. *)
Definition device_ok (db : Store) (i : Uuid) (d : DeviceRow) : Prop :=
  placed (s_folders db) (s_profiles db) (d_settings d)
  /\ (0 < d_secret_version d <-> d_auth_mode (d_settings d) = Auth_Device)
  /\ 0 <= d_secret_version d
  /\ sealed_at (s_secrets db) i (d_secret_version d).

Definition profile_ok (db : Store) (i : Uuid) (p : ProfileRow) : Prop :=
  (forall home, p_folder p = Some home -> is_Some (s_folders db !! home))
  /\ 0 < p_secret_version p /\ sealed_at (s_secrets db) i (p_secret_version p).

Definition store_ok (db : Store) : Prop :=
  tree_ok (s_folders db)
  /\ (forall i d, s_devices db !! i = Some d -> device_ok db i d)
  /\ (forall i p, s_profiles db !! i = Some p -> profile_ok db i p)
  /\ (forall i, is_Some (s_devices db !! i) -> s_profiles db !! i = None).

(** ** What the helpers do *)

Lemma require_known db now s needed o :
  require (catalog_of db now) s needed o = Ok tt -> contains (catalog_of db now) o = true.
Proof. rewrite require_ok, authorize_true. by intros [? _]. Qed.

Lemma contains_folder db now i :
  contains (catalog_of db now) (Folder i) = true -> is_Some (s_folders db !! i).
Proof.
  unfold contains. rewrite catalog_folders, lookup_fmap, is_some_true. apply fmap_is_Some.
Qed.

Lemma contains_device db now i :
  contains (catalog_of db now) (Device i) = true -> is_Some (s_devices db !! i).
Proof.
  unfold contains. rewrite catalog_devices, lookup_fmap, is_some_true. apply fmap_is_Some.
Qed.

Lemma contains_profile db now i :
  contains (catalog_of db now) (Profile i) = true -> is_Some (s_profiles db !! i).
Proof.
  unfold contains. rewrite catalog_profiles, lookup_fmap, is_some_true. apply fmap_is_Some.
Qed.

Lemma refers_true {V} (m : gmap Uuid V) k :
  refers m k = true <-> forall i, k = Some i -> is_Some (m !! i).
Proof.
  destruct k as [k|]; simpl; [|naive_solver]. rewrite is_some_true. naive_solver.
Qed.

Lemma write_folder_ok id r db db' :
  write_folder id r db = Ok db' ->
  db' = with_folders (insert id r) db
  /\ forall p, f_parent r = Some p -> is_Some (s_folders db !! p) /\ p <> id.
Proof.
  unfold write_folder. case_bool_decide as Hself; [done|].
  destruct (existsb _ _); [done|].
  destruct (refers (s_folders db) (f_parent r)) eqn:E; simpl; [|done].
  destruct (connector_known _ _); simpl; [|done]. intros [= <-]. split; [done|].
  intros p Hp. rewrite refers_true in E. split; [by apply E|congruence].
Qed.

Lemma write_device_ok id d db db' :
  write_device id d db = Ok db' ->
  db' = with_devices (insert id d) db
  /\ is_Some (s_folders db !! d_folder (d_settings d))
  /\ forall p, d_profile (d_settings d) = Some p -> is_Some (s_profiles db !! p).
Proof.
  unfold write_device. destruct (existsb _ _); [done|].
  destruct (refers (s_folders db) _) eqn:Ef; simpl; [|done].
  destruct (refers (s_profiles db) _) eqn:Ep; simpl; [|done].
  destruct (connector_known _ _); simpl; [|done]. intros [= <-].
  rewrite refers_true in Ef. rewrite refers_true in Ep. split_and!; [done|by apply Ef|done].
Qed.

Lemma write_profile_ok id p db db' :
  write_profile id p db = Ok db' ->
  db' = with_profiles (insert id p) db
  /\ forall home, p_folder p = Some home -> is_Some (s_folders db !! home).
Proof.
  unfold write_profile. destruct (existsb _ _); [done|].
  destruct (refers (s_folders db) _) eqn:Ef; simpl; [|done]. intros [= <-].
  by rewrite refers_true in Ef.
Qed.

Lemma in_reach_ok db now p f :
  in_reach (catalog_of db now) p f = Ok tt ->
  forall r home, s_profiles db !! p = Some r -> p_folder r = Some home ->
    rtc (up (s_folders db)) f home.
Proof.
  unfold in_reach, parent, container. rewrite catalog_profiles, lookup_fmap.
  intros Hin r home Hr Hh. rewrite Hr in Hin. simpl in Hin. rewrite Hh in Hin. simpl in Hin.
  destruct (is_within _ f home) eqn:E; simpl in Hin; [|done]. by apply is_within_iff in E.
Qed.

Lemma profile_fits_ok db p pr :
  profile_fits db p pr = Ok tt ->
  forall r, s_profiles db !! p = Some r -> p_secret_kind r = Kind_SshKey -> pr = Ssh.
Proof.
  unfold profile_fits. intros Hf r Hr Hk. rewrite Hr in Hf. simpl in Hf.
  rewrite bool_decide_true in Hf by congruence. by case_bool_decide.
Qed.

(** A store in which nothing is stranded keeps profiles in reach. *)
Lemma out_of_reach_nil db :
  acyclic (s_folders db) -> out_of_reach db = [] ->
  forall i d p r home, s_devices db !! i = Some d -> d_profile (d_settings d) = Some p ->
    s_profiles db !! p = Some r -> p_folder r = Some home ->
    rtc (up (s_folders db)) (d_folder (d_settings d)) home.
Proof.
  intros Hac Hnil i d p r home Hd Hp Hr Hh.
  destruct (stranded db d) eqn:Es.
  - exfalso. apply fmap_nil_inv in Hnil. apply (filter_nil_not_elem_of _ _ (i, d)) in Hnil; [|done].
    by apply Hnil, elem_of_map_to_list.
  - unfold stranded in Es. rewrite Hp in Es. simpl in Es. rewrite Hr in Es. simpl in Es.
    rewrite Hh in Es. simpl in Es. apply negb_false_iff, folder_within_iff in Es as [? _]; done.
Qed.

Lemma devices_with_nil id P db i d :
  devices_with id P db = [] -> s_devices db !! i = Some d ->
  d_profile (d_settings d) = Some id -> P (d_settings d) = false.
Proof.
  intros Hnil Hd Hp. apply fmap_nil_inv in Hnil. destruct (P (d_settings d)) eqn:E; [|done].
  apply (filter_nil_not_elem_of _ _ (i, d)) in Hnil; [|done].
  destruct Hnil. by apply elem_of_map_to_list.
Qed.

(** ** The invariant *)

(** Rows of devices may change where the invariant does not look. *)
Lemma store_ok_frame db db' :
  s_folders db' = s_folders db -> s_profiles db' = s_profiles db -> s_secrets db' = s_secrets db ->
  (forall i d', s_devices db' !! i = Some d' -> exists d, s_devices db !! i = Some d
     /\ d_settings d' = d_settings d /\ d_secret_version d' = d_secret_version d) ->
  store_ok db -> store_ok db'.
Proof.
  intros Hf Hp Hs Hd (Ht & Hdev & Hprof & Hdis). split_and!.
  - by rewrite Hf.
  - intros i d' Hi. destruct (Hd i d' Hi) as (d & Hd' & Hset & Hv).
    unfold device_ok. rewrite Hf, Hp, Hs, Hset, Hv. by apply Hdev.
  - intros i p Hi. unfold profile_ok. rewrite Hf, Hs. apply Hprof. by rewrite <- Hp.
  - intros i [d' Hi]. rewrite Hp. destruct (Hd i d' Hi) as (d & Hd' & _). apply Hdis. by rewrite Hd'.
Qed.

Lemma record_ok s a o db : store_ok db -> store_ok (record s a o db).
Proof. apply store_ok_frame; try done. simpl. eauto. Qed.

(** A device is written, with its secrets. *)
Lemma store_ok_device db db' i d :
  store_ok db ->
  s_folders db' = s_folders db -> s_profiles db' = s_profiles db ->
  s_devices db' = <[i := d]> (s_devices db) ->
  (forall j v, j <> i -> s_secrets db' !! (j, v) = s_secrets db !! (j, v)) ->
  s_profiles db !! i = None -> device_ok db' i d -> store_ok db'.
Proof.
  intros (Ht & Hdev & Hprof & Hdis) Hf Hp Hd Hs Hi Hok. split_and!.
  - by rewrite Hf.
  - intros j e. rewrite Hd, lookup_insert. case_decide; [by intros [= <-]; subst|].
    intros He%Hdev. unfold device_ok, sealed_at in *. rewrite Hf, Hp. setoid_rewrite Hs; [|done..].
    done.
  - intros j p. rewrite Hp. intros Hj. assert (j <> i) by congruence. apply Hprof in Hj.
    unfold profile_ok, sealed_at in *. rewrite Hf. setoid_rewrite Hs; [|done..]. done.
  - intros j. rewrite Hp, Hd, lookup_insert. case_decide; [by subst|]. apply Hdis.
Qed.

(** A profile is written, with its secrets; devices stay placed. *)
Lemma store_ok_profile db db' i p :
  store_ok db ->
  s_folders db' = s_folders db -> s_devices db' = s_devices db ->
  s_profiles db' = <[i := p]> (s_profiles db) ->
  (forall j v, j <> i -> s_secrets db' !! (j, v) = s_secrets db !! (j, v)) ->
  s_devices db !! i = None -> profile_ok db' i p ->
  (forall j d, s_devices db !! j = Some d -> placed (s_folders db') (s_profiles db') (d_settings d)) ->
  store_ok db'.
Proof.
  intros (Ht & Hdev & Hprof & Hdis) Hf Hd Hp Hs Hi Hok Hpl. split_and!.
  - by rewrite Hf.
  - intros j e. rewrite Hd. intros He. assert (j <> i) by congruence. split; [by apply (Hpl j)|].
    apply Hdev in He as (_ & ? & ? & He). unfold sealed_at in *. setoid_rewrite Hs; [|done..]. done.
  - intros j q. rewrite Hp, lookup_insert. case_decide; [by intros [= <-]; subst|].
    intros Hj%Hprof. unfold profile_ok, sealed_at in *. rewrite Hf. setoid_rewrite Hs; [|done..].
    done.
  - intros j. rewrite Hp, Hd, lookup_insert. case_decide; [|apply Hdis].
    subst. intros Hj. rewrite Hi in Hj. by destruct Hj.
Qed.

(** The folders change; what is in them still finds its place. *)
Lemma store_ok_folders db fs :
  store_ok db -> tree_ok fs ->
  (forall k, (exists i d, s_devices db !! i = Some d /\ d_folder (d_settings d) = k)
             \/ (exists i p, s_profiles db !! i = Some p /\ p_folder p = Some k) -> is_Some (fs !! k)) ->
  (forall i d p r home, s_devices db !! i = Some d -> d_profile (d_settings d) = Some p ->
     s_profiles db !! p = Some r -> p_folder r = Some home ->
     rtc (up fs) (d_folder (d_settings d)) home) ->
  store_ok (with_folders (fun _ => fs) db).
Proof.
  intros (Ht & Hdev & Hprof & Hdis) Ht' Hk Hreach. split_and!; simpl.
  - done.
  - intros i d Hi. pose proof (Hdev i d Hi) as ((_ & Hpl) & ? & ? & ?). split; [|done]. split.
    + apply Hk. left. eauto.
    + intros p Hp. destruct (Hpl p Hp) as (r & Hr & _ & Hfit). exists r. split; [done|].
      split; [|done]. intros home. by apply (Hreach i d p r home).
  - intros i p Hi. pose proof (Hprof i p Hi) as (_ & ?). split; [|done].
    intros home Hh. apply Hk. right. eauto.
  - done.
Qed.

(** *** Folders *)

Lemma rtc_up_subset fs fs' x y :
  (forall a b, up fs a b -> up fs' a b) -> rtc (up fs) x y -> rtc (up fs') x y.
Proof. intros Hs. apply (rtc_congruence (fun x => x)). exact Hs. Qed.

Lemma unknown_has_no_parent fs f p : fs !! f = None -> ~ up fs f p.
Proof. intros Hf (r & Hr & _). congruence. Qed.

(** A folder that is no other one's parent is above none but itself. *)
Lemma rtc_up_to_leaf fs f id : (forall k, ~ up fs k id) -> rtc (up fs) f id -> f = id.
Proof.
  intros Hleaf Hr. apply rtc_inv_r in Hr as [?|(z & _ & Hz)]; [done|]. by destruct (Hleaf z).
Qed.

Lemma parents_known_insert fs id r :
  parents_known fs -> (forall p, f_parent r = Some p -> is_Some (fs !! p)) ->
  parents_known (<[id := r]> fs).
Proof.
  intros Hk Hr f p Hup. assert (is_Some (fs !! p)) as [q Hq].
  { apply up_insert in Hup as [[-> Hp]|[_ Hp]]; [by apply Hr|by eapply Hk]. }
  rewrite lookup_insert. case_decide; [done|]. by eexists.
Qed.

(** The table after the row of one folder was written keeps what it had. *)
Lemma insert_keeps (fs : gmap Uuid FolderRow) id r k :
  is_Some (fs !! k) -> is_Some (<[id := r]> fs !! k).
Proof. intros [q Hq]. rewrite lookup_insert. case_decide; [done|]. by exists q. Qed.

Lemma homes_known db :
  store_ok db -> forall k,
  (exists i d, s_devices db !! i = Some d /\ d_folder (d_settings d) = k)
  \/ (exists i p, s_profiles db !! i = Some p /\ p_folder p = Some k) -> is_Some (s_folders db !! k).
Proof.
  intros (_ & Hdev & Hprof & _) k [(i & d & Hd & <-)|(i & p & Hp & Hk)].
  - by destruct (Hdev i d Hd) as ((? & _) & _).
  - destruct (Hprof i p Hp) as (Hh & _). by apply Hh.
Qed.

(** A row is written under a parent that does not lie below it. *)
Lemma write_folder_store id r db db' :
  store_ok db -> write_folder id r db = Ok db' ->
  (forall p, f_parent r = Some p -> p <> id -> ~ rtc (up (s_folders db)) p id) ->
  tree_ok (s_folders db') /\ s_folders db' = <[id := r]> (s_folders db)
  /\ db' = with_folders (fun _ => s_folders db') db.
Proof.
  intros ((Hac & Hk) & _) [-> Hp]%write_folder_ok Hout. simpl. split_and!; [|done|done].
  split.
  - apply acyclic_insert; [done|]. intros p Hr. apply Hout; [done|]. by apply Hp.
  - apply parents_known_insert; [done|]. intros p Hr. by apply Hp.
Qed.

(** *** Secrets *)

(** [db'] is [db] with other secrets of [id] only. *)
Definition reseals (id : Uuid) (db db' : Store) : Prop :=
  s_folders db' = s_folders db /\ s_devices db' = s_devices db /\ s_profiles db' = s_profiles db
  /\ s_grants db' = s_grants db
  /\ forall j v, j <> id -> s_secrets db' !! (j, v) = s_secrets db !! (j, v).

Lemma seal_version_ok id v s db db' :
  seal_version id v s db = Ok db' ->
  reseals id db db'
  /\ forall w, is_Some (s_secrets db' !! (id, w)) <-> is_Some (s_secrets db !! (id, w)) \/ w = v.
Proof.
  unfold seal_version. intros Hs. inv_ok Hs. subst db'. split; [split_and!; try done|]; simpl.
  - intros j w Hne. rewrite lookup_insert_ne; [done|congruence].
  - intros w. rewrite lookup_insert. case_decide as Heq.
    + injection Heq as ->. split; [by right|by eexists].
    + split; [by left|]. intros [?| ->]; [done|]. congruence.
Qed.

Lemma seal_given_ok id v s db db' :
  seal_given id v s db = Ok db' ->
  reseals id db db'
  /\ forall w, is_Some (s_secrets db' !! (id, w))
       <-> is_Some (s_secrets db !! (id, w)) \/ (is_Some s /\ w = v).
Proof.
  destruct s as [s|]; simpl.
  - intros [Hr Hw]%seal_version_ok. split; [done|]. intros w. rewrite Hw. split; [|tauto].
    intros [?| ->]; [by left|right]. by split.
  - intros [= <-]. split; [by split_and! |]. intros w. split; [by left|]. intros [?|[[? ?] _]]; done.
Qed.

Lemma keep_version_ok id v db :
  reseals id db (keep_version id v db)
  /\ forall w, is_Some (s_secrets (keep_version id v db) !! (id, w))
       <-> is_Some (s_secrets db !! (id, w)) /\ w = v.
Proof.
  split; [split_and!; try done|]; simpl.
  - intros j w Hne. apply option_eq. intros x. rewrite map_lookup_filter_Some. naive_solver.
  - intros w. unfold is_Some. setoid_rewrite map_lookup_filter_Some. simpl.
    destruct (decide (w = v)); naive_solver.
Qed.

Lemma drop_secrets_ok id db :
  reseals id db (drop_secrets id db).
Proof.
  split_and!; try done. intros j w Hne. simpl. apply option_eq. intros x.
  rewrite map_lookup_filter_Some. naive_solver.
Qed.

Lemma reseals_trans id db1 db2 db3 : reseals id db1 db2 -> reseals id db2 db3 -> reseals id db1 db3.
Proof.
  intros (? & ? & ? & ? & H12) (? & ? & ? & ? & H23). split_and!; try congruence.
  intros j v Hne. by rewrite H23, H12.
Qed.

Section invariant.
Context `{UuidText, SshKeys}.

Lemma create_folder_ok s now id i seen db db' :
  store_ok db -> fresh_id id db -> create_folder s now id i seen db = Ok db' -> store_ok db'.
Proof.
  intros Hok (Hnew & _) Hh. pose proof Hok as ((Hac & Hk) & Hdev & _).
  unfold create_folder in Hh. inv_ok Hh. subst db'. apply record_ok.
  assert (Hleaf : forall k, ~ up (s_folders db) k id).
  { intros k Hup%Hk. rewrite Hnew in Hup. by destruct Hup. }
  match goal with Hw : write_folder _ _ _ = _ |- _ =>
    apply (write_folder_store _ _ _ _ Hok) in Hw as (Ht & Hfs & ->) end;
    [|intros p Hp Hne Hr; by apply Hne, (rtc_up_to_leaf (s_folders db))].
  simpl in *. apply store_ok_folders; [done|done|..]; rewrite Hfs.
  - intros k Hh. by apply insert_keeps, (homes_known db).
  - intros j d p r home Hd Hp Hr Hhome. destruct (Hdev j d Hd) as ((_ & Hpl) & _).
    destruct (Hpl p Hp) as (r' & Hr' & Hreach & _). simplify_eq.
    eapply rtc_up_subset; [|by apply Hreach]. intros x y Hxy. apply up_insert. right.
    split; [|done]. intros ->. by apply (unknown_has_no_parent _ _ y Hnew).
Qed.

Lemma forget_pins_ok ids db : store_ok db -> store_ok (forget_pins ids db).
Proof.
  apply store_ok_frame; try done. intros i d'. simpl. rewrite map_lookup_imap.
  destruct (s_devices db !! i) as [d|]; simpl; [|done]. intros [= <-]. exists d.
  by case_bool_decide.
Qed.

(** A folder is changed: the tree stays one, and nothing is stranded. *)
Lemma change_folder_ok id n i db db' :
  store_ok db -> change_folder id n i db = Ok db' ->
  (forall p, fc_parent i = Some (Some p) -> ~ rtc (up (s_folders db)) p id) ->
  out_of_reach db' = [] -> store_ok db'.
Proof.
  intros Hok Hw Hout Hnil. unfold change_folder in Hw.
  destruct (s_folders db !! id) as [r|] eqn:Hr; [|congruence].
  apply (write_folder_store _ _ _ _ Hok) in Hw as (Ht & Hfs & Hdb).
  - rewrite Hdb in Hnil |- *. apply store_ok_folders; [done|done|..].
    + intros k Hk. rewrite Hfs. by apply insert_keeps, (homes_known db).
    + intros j d p q home. destruct Ht as [Hac _].
      apply (out_of_reach_nil (with_folders (fun _ => s_folders db') db) Hac Hnil j).
  - simpl. intros p Hp Hne. destruct (fc_parent i) as [[q|]|] eqn:Ei; simplify_eq/=;
      [by apply Hout|].
    intros Hrt. destruct Hok as ((Hac & _) & _). apply (Hac id).
    eapply tc_rtc_r; [|exact Hrt]. apply tc_once. by exists r.
Qed.

Lemma update_folder_ok s now id i db db' :
  store_ok db -> update_folder s now id i db db = Ok db' -> store_ok db'.
Proof.
  intros Hok Hh. unfold update_folder in Hh. inv_ok Hh. subst db'.
  apply record_ok, forget_pins_ok.
  match goal with Hc : change_folder _ _ _ _ = _ |- _ =>
    apply (change_folder_ok _ _ _ _ _ Hok) in Hc; [done|..] end; [|by bools].
  intros p Hp. rewrite Hp in *.
  match goal with E : context [is_within] |- _ => inv_ok E end.
  intros Hr%(is_within_iff db now). congruence.
Qed.

Lemma drop_folder_inv id db db' :
  drop_folder id db = Ok db' ->
  (forall k, ~ up (s_folders db) k id)
  /\ (forall i d, s_devices db !! i = Some d -> d_folder (d_settings d) <> id)
  /\ (forall i p, s_profiles db !! i = Some p -> p_folder p <> Some id)
  /\ db' = with_grants (filter (fun g => gr_folder g <> Some id)) (with_folders (delete id) db).
Proof.
  unfold drop_folder. intros Hd. destruct (_ || _) eqn:E; [done|]. injection Hd as <-.
  apply orb_false_iff in E as [[Hf Hd]%orb_false_iff Hp]. split_and!; [| | |done].
  - intros k (r & Hr & Hk). eapply existsb_false in Hf; [|by apply elem_of_map_to_list].
    simpl in Hf. by bools.
  - intros i d Hi Hk. eapply existsb_false in Hd; [|by apply elem_of_map_to_list]. simpl in Hd.
    by bools.
  - intros i p Hi Hk. eapply existsb_false in Hp; [|by apply elem_of_map_to_list]. simpl in Hp.
    by bools.
Qed.

Lemma delete_folder_ok s now id seen db db' :
  store_ok db -> delete_folder s now id seen db = Ok db' -> store_ok db'.
Proof.
  intros Hok Hh. pose proof Hok as ((Hac & Hk) & Hdev & Hprof & _).
  unfold delete_folder in Hh. inv_ok Hh. subst db'. apply record_ok.
  match goal with Hd : drop_folder _ _ = _ |- _ =>
    apply drop_folder_inv in Hd as (Hleaf & Hnd & Hnp & ->) end.
  assert (Hup : forall x y, x <> id -> up (s_folders db) x y -> up (delete id (s_folders db)) x y).
  { intros x y Hne (r & Hr & Hy). exists r. by rewrite lookup_delete_ne. }
  assert (Hrt : forall x y, x <> id -> rtc (up (s_folders db)) x y -> rtc (up (delete id (s_folders db))) x y).
  { intros x y Hne Hr. induction Hr as [|x y z Hxy _ IH]; [done|].
    eapply rtc_l; [by apply Hup|]. apply IH. intros ->. by apply (Hleaf x). }
  apply (store_ok_frame (with_folders (fun _ => delete id (s_folders db)) db)); try done;
    [simpl; eauto|].
  apply store_ok_folders; [done|split|..].
  - by apply acyclic_delete.
  - intros x y Hxy. assert (y <> id) by (intros ->; by eapply Hleaf, up_delete).
    rewrite lookup_delete_ne by done. by eapply Hk, up_delete.
  - intros k Hh. rewrite lookup_delete_ne; [by apply (homes_known db)|].
    destruct Hh as [(i & d & Hd & <-)|(i & q & Hq & Hqk)]; [intros Heq; by destruct (Hnd i d Hd)|].
    intros Heq. destruct (Hnp i q Hq). congruence.
  - intros i d p r home Hd Hp Hr Hh. apply Hrt; [by apply (Hnd i)|].
    destruct (Hdev i d Hd) as ((_ & Hpl) & _). destruct (Hpl p Hp) as (r' & Hr' & Hreach & _).
    simplify_eq. by apply Hreach.
Qed.

(** *** Devices *)

Lemma validate_ok i v :
  validate i = Ok v ->
  (is_Some (v_secrets v) -> d_auth_mode (v_settings v) = Auth_Device)
  /\ (is_Some (d_profile (v_settings v)) <-> d_auth_mode (v_settings v) = Auth_Profile).
Proof.
  intros Hv. unfold validate in Hv. inv_ok Hv. subst v. simpl.
  match goal with E : negb (Bool.eqb _ _) = false |- _ =>
    apply negb_false_iff, eqb_prop in E; rename E into Hprof end.
  split.
  - case_bool_decide; [done|]. match goal with E : Ok None = Ok _ |- _ => injection E as <- end.
    by intros [? ?].
  - rewrite <- is_some_true, <- Hprof. by rewrite bool_decide_eq_true.
Qed.

Lemma check_profile_ok db now s d asks :
  check_profile (catalog_of db now) db s d asks = Ok tt ->
  forall p, d_profile d = Some p ->
  (asks = true -> authorize (catalog_of db now) s Role_Connect (Profile p) = true)
  /\ forall r, s_profiles db !! p = Some r ->
       (forall home, p_folder r = Some home -> rtc (up (s_folders db)) (d_folder d) home)
       /\ (p_secret_kind r = Kind_SshKey -> d_protocol d = Ssh).
Proof.
  unfold check_profile. intros Hc p Hp. rewrite Hp in Hc.
  destruct (if asks then _ else _) as [[]|] eqn:Ea; [|done]. inv_ok Hc. split.
  - intros ->. by apply require_ok.
  - intros r Hr. split; [intros home; by eapply in_reach_ok|by eapply profile_fits_ok].
Qed.

Lemma create_device_ok s now id i db db' :
  store_ok db -> fresh_id id db -> create_device s now id i db db = Ok db' -> store_ok db'.
Proof.
  intros Hok (_ & Hnd & Hnp & Hns) Hh. unfold create_device in Hh. inv_ok Hh. subst db'.
  apply record_ok.
  match goal with Hv : validate _ = Ok ?v, Hw : write_device _ _ _ = Ok ?db1,
                  Hs : seal_given _ _ _ _ = _ |- _ =>
    apply validate_ok in Hv as [Hsec _]; apply write_device_ok in Hw as (-> & Hf & Hp);
    apply seal_given_ok in Hs as [(Hf' & Hd' & Hp' & _ & Hj) Hseal] end.
  simpl in *. match goal with H : check_profile _ _ _ _ _ = _ |- _ =>
    pose proof (check_profile_ok _ _ _ _ _ H) as Hreach end.
  eapply (store_ok_device db _ id); try done.
  unfold device_ok, placed, sealed_at. simpl. rewrite Hf', Hp'. split_and!; [done|..].
  - intros p Hpr. destruct (Hp p Hpr) as [r Hr]. exists r. split; [done|].
    by apply (Hreach p Hpr).
  - destruct (v_secrets _) as [x|] eqn:E4; simpl; [split; [by intros _; apply Hsec|lia]|].
    split; [lia|]. intros Hauth. rewrite Hauth in *. done.
  - destruct (v_secrets _); simpl; lia.
  - intros w. rewrite Hseal, Hns. destruct (v_secrets _); simpl.
    + split; [intros [[? ?]|[_ ->]]; [done|lia]|]. intros [-> _]. right. by split.
    + split; [by intros [[? ?]|[[? ?] _]]|lia].
Qed.

Lemma change_device_ok id f db db' d :
  s_devices db !! id = Some d -> change_device id f db = Ok db' ->
  db' = with_devices (insert id (f d)) db
  /\ is_Some (s_folders db !! d_folder (d_settings (f d)))
  /\ forall p, d_profile (d_settings (f d)) = Some p -> is_Some (s_profiles db !! p).
Proof. unfold change_device. intros ->. apply write_device_ok. Qed.

Lemma next_version_ok before v keeps n :
  next_version before v keeps = Ok n ->
  (is_Some (v_secrets v) -> d_auth_mode (v_settings v) = Auth_Device) ->
  (keeps = true -> 0 < d_secret_version before) -> 0 <= d_secret_version before ->
  (0 < n <-> d_auth_mode (v_settings v) = Auth_Device) /\ 0 <= n
  /\ (v_secrets v = None -> 0 < n -> n = d_secret_version before).
Proof.
  unfold next_version. intros Hn Hsec Hk Hb. destruct (v_secrets v) as [x|].
  - injection Hn as <-. split_and!; [|lia|done]. split; [by intros _; apply Hsec|lia].
  - case_bool_decide as Ha; [|injection Hn as <-; split_and!; [|lia|lia]; split; [lia|done]].
    destruct keeps; [|done]. injection Hn as <-. specialize (Hk eq_refl). split_and!; [|lia|done].
    by split.
Qed.

(** The versions sealed after new secrets were added and old ones dropped. *)
Lemma sealed_after {A} (secrets : option A) (w n old : Z) :
  (secrets = None -> 0 < n -> n = old) -> (is_Some secrets -> 0 < n) ->
  ((w = old /\ 0 < old) \/ (is_Some secrets /\ w = n)) /\ w = n <-> w = n /\ 0 < n.
Proof.
  intros Hnone Hsome. destruct secrets as [x|]; simpl.
  - split; [intros [_ ->]; eauto|]. intros [-> Hn]. split; [|done]. right. by split.
  - split.
    + intros [[[-> Ho]|[[? ?] _]] Hw]; [subst; by split|done].
    + intros [-> Hn]. split; [|done]. left. specialize (Hnone eq_refl Hn). lia.
Qed.

Lemma update_device_ok s now id i db db' :
  store_ok db -> update_device s now id i db db = Ok db' -> store_ok db'.
Proof.
  intros Hok Hh. pose proof Hok as (_ & Hdev & _ & Hdis).
  unfold update_device in Hh. inv_ok Hh. subst db'. apply record_ok.
  match goal with Hb : ok_or _ _ = Ok ?d |- _ =>
    destruct (s_devices db !! id) as [before|] eqn:Hrow; simpl in Hb; [|done]; injection Hb as <- end.
  destruct (Hdev id before Hrow) as (_ & _ & Hb0 & Hsealed).
  match goal with Hv : validate _ = Ok ?v, Hs : seal_given _ _ _ _ = _, Hn : next_version _ _ _ = _,
                  Hc : check_profile _ _ _ _ _ = _ |- _ =>
    apply validate_ok in Hv as [Hsec _]; apply seal_given_ok in Hs as [Hr1 Hs1];
    pose proof (check_profile_ok _ _ _ _ _ Hc) as Hreach;
    apply next_version_ok in Hn as (Hver & Hver0 & Hsame);
      [|done|intros Hk; by bools|done] end.
  match goal with Hc : change_device _ _ (keep_version _ ?v ?db1) = _ |- _ =>
    destruct (keep_version_ok id v db1) as [Hr2 Hs2];
    pose proof (reseals_trans _ _ _ _ Hr1 Hr2) as (Hf' & Hd' & Hp' & _ & Hj);
    eapply change_device_ok in Hc as (-> & Hf & Hp); [|by rewrite Hd', Hrow] end.
  simpl in *. eapply (store_ok_device db _ id); try done.
  - simpl. by rewrite Hd'.
  - apply Hdis. by rewrite Hrow.
  - unfold device_ok, placed, sealed_at. simpl. rewrite Hf', Hp' in *. split_and!; try done; [|].
    + intros p Hpr. destruct (Hp p Hpr) as [r Hr]. exists r. split; [done|]. by apply (Hreach p Hpr).
    + intros w. rewrite Hs2, Hs1, (Hsealed w). apply sealed_after; [done|].
      intros Hx. by apply Hver, Hsec.
Qed.

Lemma move_device_ok s now id f db db' :
  store_ok db -> move_device s now id f db db = Ok db' -> store_ok db'.
Proof.
  intros Hok Hh. pose proof Hok as (_ & Hdev & _ & Hdis).
  unfold move_device in Hh. cbv beta zeta in Hh.
  destruct (require _ _ _ (Device id)) as [[]|]; [|done].
  destruct (require _ _ _ (Folder f)) as [[]|]; [|done].
  case_bool_decide; [by injection Hh as <-|]. inv_ok Hh. subst db'. apply record_ok.
  match goal with Hb : ok_or _ _ = Ok ?d |- _ =>
    destruct (s_devices db !! id) as [before|] eqn:Hrow; simpl in Hb; [|done]; injection Hb as <- end.
  destruct (Hdev id before Hrow) as ((_ & Hpl) & Hauth & Hb0 & Hsealed).
  match goal with Hc : change_device _ _ _ = _ |- _ =>
    eapply change_device_ok in Hc as (-> & Hf & Hp); [|done] end.
  simpl in *. eapply (store_ok_device db _ id); try done.
  - apply Hdis. by rewrite Hrow.
  - split_and!; try done. split; [done|]. simpl. intros p Hpr.
    destruct (Hpl p Hpr) as (r & Hr & _ & Hfit). exists r. split; [done|]. split; [|done].
    rewrite Hpr in *. match goal with Hin : context [in_reach] |- _ => inv_ok Hin end.
    intros home Hh. by eapply in_reach_ok.
Qed.

(** What is dropped with its secrets leaves the rest as it was. *)
Lemma dropped_ok db db1 db' id :
  store_ok db -> reseals id db db1 -> s_folders db' = s_folders db1 -> s_secrets db' = s_secrets db1 ->
  (forall i d, s_devices db' !! i = Some d -> i <> id /\ s_devices db1 !! i = Some d) ->
  (forall i p, s_profiles db' !! i = Some p -> i <> id /\ s_profiles db1 !! i = Some p) ->
  (forall i d p, s_devices db' !! i = Some d -> d_profile (d_settings d) = Some p ->
     s_profiles db' !! p = s_profiles db1 !! p) ->
  store_ok db'.
Proof.
  intros (Ht & Hdev & Hprof & Hdis) (Hf1 & Hd1 & Hp1 & _ & Hs1) Hf Hs Hd Hp Hpd. split_and!.
  - by rewrite Hf, Hf1.
  - intros i d Hi. destruct (Hd i d Hi) as [Hne Hi1]. rewrite Hd1 in Hi1.
    destruct (Hdev i d Hi1) as ((Hin & Hpl) & ? & ? & Hsl). split_and!; try done.
    + split; [by rewrite Hf, Hf1|]. intros p Hpr. rewrite (Hpd i d p Hi Hpr), Hp1, Hf, Hf1. by apply Hpl.
    + intros w. by rewrite Hs, Hs1.
  - intros i p Hi. destruct (Hp i p Hi) as [Hne Hi1]. rewrite Hp1 in Hi1.
    destruct (Hprof i p Hi1) as (? & ? & Hsl). split_and!; [by rewrite Hf, Hf1|done|].
    intros w. by rewrite Hs, Hs1.
  - intros i [d Hi]. apply eq_None_not_Some. intros [p Hip].
    apply Hd in Hi as [_ Hi]. apply Hp in Hip as [_ Hip]. rewrite Hd1 in Hi. rewrite Hp1 in Hip.
    rewrite (Hdis i) in Hip; [done|]. by eexists.
Qed.

Lemma delete_device_ok s now id db db' :
  store_ok db -> delete_device s now id db db = Ok db' -> store_ok db'.
Proof.
  intros Hok Hh. pose proof Hok as (_ & _ & _ & Hdis).
  unfold delete_device in Hh. inv_ok Hh. subst db'. apply record_ok.
  match goal with Hr : require _ _ _ _ = _ |- _ => apply require_known, contains_device in Hr; rename Hr into Hid end.
  apply (dropped_ok db (drop_secrets id db) _ id); try done; [apply drop_secrets_ok|..]; simpl.
  - by intros i d [? ?]%lookup_delete_Some.
  - intros i p Hp. split; [|done]. intros ->. rewrite (Hdis id Hid) in Hp. done.
Qed.

Lemma reset_host_key_ok s now id seen db db' :
  store_ok db -> reset_host_key s now id seen db = Ok db' -> store_ok db'.
Proof.
  intros Hok Hh. unfold reset_host_key in Hh. inv_ok Hh. subst db'. apply record_ok.
  destruct (s_devices db !! id) as [d|] eqn:Hd; simpl in *; [|done]. simplify_eq.
  revert Hok. apply store_ok_frame; try done. simpl. intros i d'. rewrite lookup_insert.
  case_decide; [intros [= <-]; subst|]; eauto.
Qed.

Lemma set_keywords_ok s now id k seen db db' :
  store_ok db -> set_keywords s now id k seen db = Ok db' -> store_ok db'.
Proof.
  intros Hok Hh. unfold set_keywords in Hh. inv_ok Hh. subst db'. apply record_ok.
  revert Hok. apply store_ok_frame; try done. simpl. intros i d'. rewrite lookup_alter.
  case_decide; [|eauto]. subst. destruct (s_devices db !! i) as [d|]; simpl; [|done].
  intros [= <-]. eauto.
Qed.

(** *** Profiles *)

Lemma create_profile_ok s now id i seen db db' :
  store_ok db -> fresh_id id db -> create_profile s now id i seen db = Ok db' -> store_ok db'.
Proof.
  intros Hok (_ & Hnd & Hnp & Hns) Hh. pose proof Hok as (_ & Hdev & _).
  unfold create_profile in Hh. inv_ok Hh. subst db'. apply record_ok.
  match goal with Hw : write_profile _ _ _ = _, Hs : seal_version _ _ _ _ = _ |- _ =>
    apply write_profile_ok in Hw as [-> Hf];
    apply seal_version_ok in Hs as [(Hf' & Hd' & Hp' & _ & Hj) Hseal] end.
  simpl in *. eapply (store_ok_profile db _ id); try done.
  - unfold profile_ok, sealed_at. simpl. rewrite Hf'. split_and!; [done|lia|].
    intros w. rewrite Hseal, Hns. split; [intros [[? ?]| ->]; [done|lia]|]. intros [-> _]. by right.
  - intros j d Hd. rewrite Hf', Hp'. destruct (Hdev j d Hd) as ((? & Hpl) & _). split; [done|].
    intros p Hp. destruct (Hpl p Hp) as (r & Hr & ?). exists r. split; [|done].
    rewrite lookup_insert_ne; [done|congruence].
Qed.

Lemma delete_profile_ok s now id db db' :
  store_ok db -> delete_profile s now id db db = Ok db' -> store_ok db'.
Proof.
  intros Hok Hh. pose proof Hok as (_ & Hdev & _ & Hdis).
  unfold delete_profile in Hh. inv_ok Hh. subst db'. apply record_ok.
  match goal with Hr : require _ _ _ _ = _ |- _ => apply require_known, contains_profile in Hr; rename Hr into Hid end.
  bools. assert (Hunused : forall i d, s_devices db !! i = Some d -> d_profile (d_settings d) <> Some id).
  { intros i d Hd Hp. by apply (devices_with_nil id (fun _ => true) db i d) in Hp. }
  apply (dropped_ok db (drop_secrets id db) _ id); try done; [apply drop_secrets_ok|..]; simpl.
  - intros i d Hd. split; [|done]. intros ->. destruct Hid as [q Hq]. rewrite (Hdis id) in Hq; [done|].
    by eexists.
  - by intros i p [? ?]%lookup_delete_Some.
  - intros i d p Hd Hp. rewrite lookup_delete_ne; [done|]. intros <-. by apply (Hunused i d).
Qed.

(** New secrets of a profile replace the old ones. *)
Lemma reseal_profile_ok id version (secrets : option Secrets) db db' :
  match secrets with
  | Some s => let? db := seal_version id version s db in Ok (keep_version id version db)
  | None => Ok db
  end = Ok db' ->
  reseals id db db'
  /\ forall w, is_Some (s_secrets db' !! (id, w)) <->
       if is_some secrets
       then (is_Some (s_secrets db !! (id, w)) \/ w = version) /\ w = version
       else is_Some (s_secrets db !! (id, w)).
Proof.
  destruct secrets as [s|]; simpl; [|by intros [= <-]].
  intros Hs. inv_ok Hs. subst db'.
  match goal with Hs : seal_version _ _ _ _ = Ok ?db1 |- _ =>
    apply seal_version_ok in Hs as [Hr1 Hw1]; destruct (keep_version_ok id version db1) as [Hr2 Hw2] end.
  split; [by eapply reseals_trans|]. intros w. by rewrite Hw2, Hw1.
Qed.

Lemma update_profile_ok s now id i db db' :
  store_ok db -> update_profile s now id i db db = Ok db' -> store_ok db'.
Proof.
  intros Hok Hh. pose proof Hok as ((Hac & _) & Hdev & Hprof & Hdis).
  unfold update_profile in Hh. inv_ok Hh. subst db'. apply record_ok.
  match goal with Hb : ok_or _ _ = Ok ?d |- _ =>
    destruct (s_profiles db !! id) as [before|] eqn:Hrow; simpl in Hb; [|done]; injection Hb as <- end.
  unfold change_profile in *. rewrite Hrow in *.
  destruct (Hprof id before Hrow) as (_ & Hpos & Hsealed).
  match goal with Hw : write_profile _ _ _ = _ |- _ => apply write_profile_ok in Hw as [-> Hf] end.
  match goal with Hs : match _ with Some _ => _ | None => _ end = Ok ?db2 |- _ =>
    apply reseal_profile_ok in Hs as [(Hf' & Hd' & Hp' & _ & Hj) Hseal] end.
  simpl in *. eapply (store_ok_profile db _ id); try done.
  - apply eq_None_not_Some. intros Hd%Hdis. congruence.
  - unfold profile_ok, sealed_at. simpl. rewrite Hf'. split_and!; [done|case_match; lia|].
    intros w. rewrite Hseal. case_match; [|by rewrite Z.add_0_r].
    split; [lia|]. intros [-> ?]. tauto.
  - intros j d Hd. rewrite Hf', Hp'. destruct (Hdev j d Hd) as ((? & Hpl) & _). split; [done|].
    intros p Hp. destruct (decide (p = id)) as [->|Hne].
    + eexists. rewrite lookup_insert_eq. split; [done|]. simpl. split.
      * intros home Hh. bools. rewrite <- Hf'.
        eapply (out_of_reach_nil _); rewrite ?Hf', ?Hd', ?Hp'; try done; [by rewrite lookup_insert_eq|done].
      * intros ->. match goal with E : _ && _ = false |- _ =>
          rewrite bool_decide_true in E by done; simpl in E end. bools.
        match goal with E : devices_with _ _ _ = [] |- _ =>
          eapply devices_with_nil in E; [|by rewrite Hd'|done] end. simpl in *. by bools.
    + destruct (Hpl p Hp) as (r & Hr & ?). exists r. by rewrite lookup_insert_ne.
Qed.

End invariant.

(** ** Targets

    Where a device's login goes: the protocol and address, and the connector
    it is reached through. *)
Definition target (fs : gmap Uuid FolderRow) (d : DeviceRow) :
    Protocol * list Z * Z * option Uuid :=
  let d := d_settings d in (d_protocol d, d_host d, d_port d, reached_through fs d).

Lemma target_agree fs fs' d :
  acyclic fs -> acyclic fs' ->
  (forall k, rtc (up fs) (d_folder (d_settings d)) k -> fs' !! k = fs !! k) ->
  target fs' d = target fs d.
Proof.
  intros Hac Hac' Hk. unfold target, reached_through, device_connector, folder_connector.
  by rewrite (ancestors_agree fs fs').
Qed.

Lemma target_changed_false fs d d' :
  target_changed fs (d_settings d) (d_settings d') = false -> target fs d = target fs d'.
Proof.
  unfold target_changed, target. intros Hc. bools. congruence.
Qed.

Section effects.
Context `{UuidText, SshKeys}.
Variables (s : Session) (now : Z) (db : Store).

(** What a request may do to device [i], which is [d'] in [db'] after it. *)
Definition effect_ok (db' : Store) (i : Uuid) (d' : DeviceRow) : Prop :=
  (forall p, d_profile (d_settings d') = Some p ->
     (exists d, s_devices db !! i = Some d /\ d_profile (d_settings d) = Some p
        /\ target (s_folders db) d = target (s_folders db') d')
     \/ authorize (catalog_of db now) (subject s) Role_Connect (Profile p) = true)
  /\ (forall d, s_devices db !! i = Some d ->
       (target (s_folders db) d = target (s_folders db') d'
        /\ (d_pins d' = d_pins d \/ d_pins d' = no_pins))
       \/ (d_pins d' = no_pins
           /\ (0 < d_secret_version d -> d_secret_version d' = d_secret_version d ->
               authorize (catalog_of db now) (subject s) Role_Reveal (Device i) = true))).

(** A device that keeps its target and its profile. *)
Lemma effect_same db' i d d' :
  s_devices db !! i = Some d -> d_profile (d_settings d') = d_profile (d_settings d) ->
  target (s_folders db) d = target (s_folders db') d' ->
  d_pins d' = d_pins d \/ d_pins d' = no_pins -> effect_ok db' i d'.
Proof.
  intros Hd Hp Ht Hpins. split.
  - intros p Hp'. left. exists d. split_and!; [done|congruence|done].
  - intros e He. rewrite Hd in He. injection He as <-. left. by split.
Qed.

(** Folders change, but none above a device. *)
Lemma effect_elsewhere db' i d' :
  store_ok db -> acyclic (s_folders db') -> s_devices db !! i = Some d' ->
  (forall k, rtc (up (s_folders db)) (d_folder (d_settings d')) k ->
     s_folders db' !! k = s_folders db !! k) ->
  effect_ok db' i d'.
Proof.
  intros ((Hac & _) & _) Hac' Hd Hk. apply (effect_same db' i d'); [done|done| |by left].
  symmetry. by apply target_agree.
Qed.

Lemma chain_known x k :
  store_ok db -> is_Some (s_folders db !! x) -> rtc (up (s_folders db)) x k ->
  is_Some (s_folders db !! k).
Proof.
  intros ((_ & Hk) & _) Hx Hr. apply rtc_inv_r in Hr as [<-|(z & _ & Hz)]; [done|]. by eapply Hk.
Qed.

Lemma folder_of_device i d : store_ok db -> s_devices db !! i = Some d ->
  is_Some (s_folders db !! d_folder (d_settings d)).
Proof. intros (_ & Hdev & _) Hd. by destruct (Hdev i d Hd) as ((? & _) & _). Qed.

Lemma create_folder_effect id input db' i d' :
  store_ok db -> fresh_id id db -> create_folder s now id input db db = Ok db' ->
  s_devices db' !! i = Some d' -> effect_ok db' i d'.
Proof.
  intros Hok Hf Hh Hd. pose proof (create_folder_ok _ _ _ _ _ _ _ Hok Hf Hh) as ((Hac' & _) & _).
  unfold create_folder in Hh. inv_ok Hh. subst db'.
  match goal with Hw : write_folder _ _ _ = _ |- _ => apply write_folder_ok in Hw as [-> _] end.
  simpl in *. apply effect_elsewhere; [done|done|done|]. simpl. intros k Hk.
  apply chain_known in Hk; [|done|by eapply folder_of_device].
  destruct Hf as (Hnew & _). rewrite lookup_insert_ne; [done|]. intros <-. rewrite Hnew in Hk.
  by destruct Hk.
Qed.

Lemma delete_folder_effect id db' i d' :
  store_ok db -> delete_folder s now id db db = Ok db' -> s_devices db' !! i = Some d' ->
  effect_ok db' i d'.
Proof.
  intros Hok Hh Hd. pose proof (delete_folder_ok _ _ _ _ _ _ Hok Hh) as ((Hac' & _) & _).
  unfold delete_folder in Hh. inv_ok Hh. subst db'.
  match goal with Hw : drop_folder _ _ = _ |- _ => apply drop_folder_inv in Hw as (Hleaf & Hnd & _ & ->) end.
  simpl in *. apply effect_elsewhere; [done|done|done|]. simpl. intros k Hk.
  rewrite lookup_delete_ne; [done|]. intros <-. apply rtc_up_to_leaf in Hk; [|done].
  by apply (Hnd i d').
Qed.

Lemma elem_of_devices_below st id x :
  x ∈ devices_below st id <-> exists i d, s_devices st !! i = Some d
    /\ folder_within (s_folders st) (d_folder (d_settings d)) id = true
    /\ x = reached_device (s_folders st) i d.
Proof.
  unfold devices_below. rewrite list_elem_of_fmap. split.
  - intros ([i d] & -> & [Hw Hd]%list_elem_of_filter). apply elem_of_map_to_list in Hd. eauto.
  - intros (i & d & Hd & Hw & ->). exists (i, d). split; [done|]. apply list_elem_of_filter.
    split; [done|]. by apply elem_of_map_to_list.
Qed.

(** The devices that [retargeted_devices] finds: below the folder before and
    after, and reached through another connector. *)
Lemma elem_of_retargeted db1 id i :
  s_devices db1 = s_devices db ->
  i ∈ re_id <$> retargeted_devices (devices_below db id) (devices_below db1 id) <->
  exists d, s_devices db !! i = Some d
    /\ folder_within (s_folders db) (d_folder (d_settings d)) id = true
    /\ folder_within (s_folders db1) (d_folder (d_settings d)) id = true
    /\ reached_through (s_folders db) (d_settings d) <> reached_through (s_folders db1) (d_settings d).
Proof.
  intros Hdev. unfold retargeted_devices. rewrite list_elem_of_fmap. split.
  - intros (x & -> & [Hex Hx]%list_elem_of_filter).
    apply elem_of_devices_below in Hx as (i & d & Hd & Hw1 & ->). rewrite Hdev in Hd.
    apply existsb_exists in Hex as (y & Hy%list_elem_of_In & Hne). bools.
    apply elem_of_devices_below in Hy as (j & e & He & Hw & ->). simpl in *. subst j.
    assert (e = d) as -> by congruence. by exists d.
  - intros (d & Hd & Hw & Hw1 & Hne). exists (reached_device (s_folders db1) i d). split; [done|].
    apply list_elem_of_filter. split.
    + apply existsb_exists. exists (reached_device (s_folders db) i d). split.
      * apply list_elem_of_In, elem_of_devices_below. eauto.
      * simpl. rewrite Z.eqb_refl. by rewrite bool_decide_true.
    + apply elem_of_devices_below. exists i, d. by rewrite Hdev.
Qed.

(** Whoever manages a folder may read what is below it. *)
Lemma manage_reveals_below id i d :
  authorize (catalog_of db now) (subject s) Role_Manage (Folder id) = true ->
  s_devices db !! i = Some d -> rtc (up (s_folders db)) (d_folder (d_settings d)) id ->
  authorize (catalog_of db now) (subject s) Role_Reveal (Device i) = true.
Proof.
  rewrite !authorize_true. intros [_ Hm] Hd Hr.
  assert (Hdev : device_folder (catalog_of db now) !! i = Some (d_folder (d_settings d))).
  { rewrite catalog_devices, lookup_fmap, Hd. done. }
  split; [unfold contains; by rewrite Hdev|].
  destruct Hm as [Hadm|(on & p & r & Hon & Hg & Hp & Hle)]; [by left|right].
  exists on, p, r. split_and!; [|done|done|]; [|simpl in Hle; simpl; lia].
  eapply rtc_l; [unfold above, container; by rewrite Hdev|]. simpl.
  etrans; [|exact Hon]. apply rtc_above_folder. eauto.
Qed.

(** Walking up to a folder does not depend on where that folder lies. *)
Lemma rtc_up_to fs id r x : rtc (up fs) x id -> rtc (up (<[id := r]> fs)) x id.
Proof.
  induction 1 as [x|x y z Hxy _ IH]; [done|]. destruct (decide (x = z)) as [->|Hne]; [done|].
  eapply rtc_l; [|exact IH]. apply up_insert. by right.
Qed.

Lemma refused_nil c sub ds x p :
  refused_devices c sub ds = [] -> x ∈ ds -> re_profile x = Some p ->
  authorize c sub Role_Connect (Profile p) = true.
Proof.
  intros Hnil Hx Hp. apply fmap_nil_inv in Hnil. rewrite <- require_ok.
  destruct (require c sub Role_Connect (Profile p)) as [[]|e] eqn:E; [done|].
  exfalso. eapply filter_nil_not_elem_of; [exact Hnil| |exact Hx].
  cbv beta. rewrite Hp. simpl. by rewrite E.
Qed.

Lemma change_folder_rows id n input db1 :
  is_Some (s_folders db !! id) -> change_folder id n input db = Ok db1 ->
  exists r, s_folders db1 = <[id := r]> (s_folders db) /\ s_devices db1 = s_devices db.
Proof.
  unfold change_folder. intros [r0 ->] [-> _]%write_folder_ok. by eexists.
Qed.

Lemma forgotten ids st i d' :
  s_devices (forget_pins ids st) !! i = Some d' ->
  exists d, s_devices st !! i = Some d /\ d' = if bool_decide (i ∈ ids) then set_pins no_pins d else d.
Proof.
  simpl. rewrite map_lookup_imap. destruct (s_devices st !! i) as [d|]; simpl; [|done].
  intros [= <-]. by exists d.
Qed.

Lemma update_folder_effect id input db' i d' :
  store_ok db -> update_folder s now id input db db = Ok db' -> s_devices db' !! i = Some d' ->
  effect_ok db' i d'.
Proof.
  intros Hok Hh Hd'. pose proof (update_folder_ok _ _ _ _ _ _ Hok Hh) as ((Hac' & _) & _).
  pose proof Hok as ((Hac & _) & _).
  unfold update_folder in Hh. inv_ok Hh. subst db'.
  match goal with Hr : require _ _ Role_Manage (Folder id) = _ |- _ =>
    pose proof (contains_folder _ _ _ (require_known _ _ _ _ _ Hr)) as Hid;
    apply require_ok in Hr; rename Hr into Hman end.
  match goal with Hc : change_folder _ _ _ _ = Ok ?x |- _ => rename x into db1;
    apply change_folder_rows in Hc as (r & Hfs & Hdev); [|done] end.
  change (s_devices (record s _ _ ?x)) with (s_devices x) in Hd'.
  apply forgotten in Hd' as (d & Hd & ->). rewrite Hdev in Hd.
  change (s_folders (record s _ _ (forget_pins _ db1))) with (s_folders db1) in Hac'.
  bools. case_bool_decide as Hin.
  - pose proof Hin as Hin'. apply elem_of_retargeted in Hin as (e & He & Hw & _); [|done].
    assert (e = d) as -> by congruence. apply list_elem_of_fmap in Hin' as (x & -> & Hx). split; simpl.
    + intros p Hp. right. eapply refused_nil; [done|done|].
      unfold retargeted_devices in Hx. apply list_elem_of_filter in Hx as [_ Hx].
      apply elem_of_devices_below in Hx as (j & e & He' & _ & ->). simpl in *. congruence.
    + intros e He'. right. split; [done|]. intros _ _. eapply manage_reveals_below; [done|done|].
      assert (e = d) as -> by congruence. by apply folder_within_iff in Hw as [? _].
  - destruct (folder_within (s_folders db) (d_folder (d_settings d)) id) eqn:Hw.
    + apply (effect_same _ i d); [done|done| |by left]. simpl.
      unfold target. f_equal. destruct (decide (reached_through (s_folders db) (d_settings d)
        = reached_through (s_folders db1) (d_settings d))) as [?|Hne]; [done|].
      destruct Hin. apply elem_of_retargeted; [done|]. exists d. split_and!; try done.
      apply folder_within_iff; [done|]. apply folder_within_iff in Hw as [Hw _]; [|done].
      rewrite Hfs. split; [by apply rtc_up_to|]. by rewrite lookup_insert_eq.
    + apply effect_elsewhere; [done|done|done|]. simpl. intros k Hk. rewrite Hfs.
      rewrite lookup_insert_ne; [done|]. intros <-.
      by rewrite (proj2 (folder_within_iff _ _ _ Hac) (conj Hk Hid)) in Hw.
Qed.

(** A row that no request touched. *)
Lemma effect_row db' i d' :
  s_folders db' = s_folders db -> s_devices db !! i = Some d' -> effect_ok db' i d'.
Proof. intros Hf Hd. apply (effect_same db' i d'); [done|done|by rewrite Hf|by left]. Qed.

Lemma change_profile_rows id p st st' :
  change_profile id p st = Ok st' -> s_folders st' = s_folders st /\ s_devices st' = s_devices st.
Proof.
  unfold change_profile. destruct (s_profiles st !! id); [|by intros [= <-]].
  by intros [-> _]%write_profile_ok.
Qed.

Lemma create_device_effect id input db' i d' :
  fresh_id id db -> create_device s now id input db db = Ok db' -> s_devices db' !! i = Some d' ->
  effect_ok db' i d'.
Proof.
  intros (_ & Hnew & _) Hh Hd. unfold create_device in Hh. inv_ok Hh. subst db'.
  match goal with Hw : write_device _ _ _ = _, Hs : seal_given _ _ _ _ = _,
                  Hc : check_profile _ _ _ _ _ = _ |- _ =>
    apply write_device_ok in Hw as (-> & _); apply seal_given_ok in Hs as [(Hf & Hdev & _) _];
    pose proof (check_profile_ok _ _ _ _ _ Hc) as Hp end.
  simpl in *. rewrite Hdev, lookup_insert in Hd. case_decide; [|by apply effect_row].
  subst i. injection Hd as <-. split; simpl.
  - intros p Hpr. right. by apply Hp.
  - intros d. congruence.
Qed.

Lemma update_device_effect id input db' i d' :
  store_ok db -> update_device s now id input db db = Ok db' -> s_devices db' !! i = Some d' ->
  effect_ok db' i d'.
Proof.
  intros Hok Hh Hd. unfold update_device in Hh. inv_ok Hh. subst db'.
  match goal with Hb : ok_or _ _ = Ok ?d |- _ =>
    destruct (s_devices db !! id) as [before|] eqn:Hrow; simpl in Hb; [|done]; injection Hb as <- end.
  match goal with Hs : seal_given _ _ _ _ = Ok ?db1, Hn : next_version _ _ ?k = Ok ?v,
                  Hc : check_profile _ _ _ ?d ?asks = _ |- _ =>
    rename v into version; remember k as keeps eqn:Hkeeps;
    apply seal_given_ok in Hs as [Hr1 _]; destruct (keep_version_ok id version db1) as [Hr2 _];
    pose proof (check_profile_ok _ _ _ _ _ Hc) as Hreach;
    pose proof (reseals_trans _ _ _ _ Hr1 Hr2) as (Hf' & Hd' & _); rename Hn into Hnext end.
  match goal with Hc : change_device _ _ _ = _ |- _ =>
    apply (change_device_ok _ _ _ _ before) in Hc as (-> & _); [|by rewrite Hd', Hrow] end.
  simpl in Hd, Hd', Hf'. rewrite Hd', lookup_insert in Hd.
  case_decide as Hi; [|by apply effect_row]. subst i. injection Hd as <-.
  destruct (target_changed (s_folders db) (d_settings before) (v_settings a)) eqn:Hc; simpl in *.
  - split; simpl.
    + intros p Hp. right. apply (Hreach p Hp). apply orb_true_r.
    + intros d Hd. assert (d = before) as -> by congruence. right. split; [done|].
      intros Hpos Hsame. unfold next_version in Hnext.
      destruct (v_secrets a); [injection Hnext; lia|].
      destruct (bool_decide (d_auth_mode (v_settings a) = _)); [|injection Hnext; lia].
      destruct keeps; [|done]. symmetry in Hkeeps. bools. rewrite <- require_ok.
      by destruct (require _ _ Role_Reveal (Device id)) as [[]|].
  - pose proof (target_changed_false (s_folders db) before
      {| d_settings := v_settings a; d_secret_version := version; d_key := no_key;
         d_pins := no_pins; d_keywords := []; d_keywords_by := None |} Hc) as Ht. split; simpl.
    + intros p Hp. destruct (decide (d_profile (d_settings before) = Some p)) as [Hb|Hb].
      * left. exists before. rewrite Hf'. by split_and!.
      * right. apply (Hreach p Hp). rewrite bool_decide_false; [done|congruence].
    + intros d Hd. assert (d = before) as -> by congruence. left. rewrite Hf'. by split; [|left].
Qed.

Lemma move_device_effect id f db' i d' :
  store_ok db -> move_device s now id f db db = Ok db' -> s_devices db' !! i = Some d' ->
  effect_ok db' i d'.
Proof.
  intros (_ & Hdev & _) Hh Hd. unfold move_device in Hh. cbv beta zeta in Hh.
  destruct (require _ _ _ (Device id)) as [[]|]; [|done].
  destruct (require _ _ _ (Folder f)) as [[]|]; [|done].
  case_bool_decide; [injection Hh as <-; by apply effect_row|]. inv_ok Hh. subst db'.
  match goal with Hb : ok_or _ _ = Ok ?d |- _ =>
    destruct (s_devices db !! id) as [before|] eqn:Hrow; simpl in Hb; [|done]; injection Hb as <- end.
  match goal with Hc : change_device _ _ _ = _ |- _ =>
    apply (change_device_ok _ _ _ _ before) in Hc as (-> & _); [|done] end.
  cbn [record with_devices s_devices] in Hd. rewrite lookup_insert in Hd.
  case_decide as Hi; [|by apply effect_row]. subst i. injection Hd as <-.
  destruct (bool_decide (reached_through _ _ = _)) eqn:Hc; simpl in *; bools.
  - apply (effect_same _ id before); [done|done| |by left]. unfold target. simpl. by rewrite Hc.
  - split; simpl.
    + intros p Hp. right. rewrite Hp in *.
      match goal with Hin : context [in_reach] |- _ => inv_ok Hin end. by apply require_ok.
    + intros d Hd. assert (d = before) as -> by congruence. right. split; [done|]. intros Hpos _.
      destruct (Hdev id before Hrow) as (_ & Hauth & _). rewrite bool_decide_true in * by (by apply Hauth).
      assert ((0 <? d_secret_version before) = true) as Hlt by (by apply Z.ltb_lt).
      rewrite Hlt in *. simpl in *. by apply require_ok.
Qed.

(** Every request leaves every device with a login it may send where it goes. *)
Lemma handle_effect rq db' i d' :
  store_ok db -> draws_fresh rq db -> handle s now rq db db = Ok db' ->
  s_devices db' !! i = Some d' -> effect_ok db' i d'.
Proof.
  intros Hok Hfr Hh Hd. destruct rq; simpl in Hh, Hfr.
  - by eapply create_folder_effect.
  - by eapply update_folder_effect.
  - by eapply delete_folder_effect.
  - by eapply create_device_effect.
  - by eapply update_device_effect.
  - by eapply move_device_effect.
  - unfold delete_device in Hh. inv_ok Hh. subst db'. simpl in Hd.
    apply lookup_delete_Some in Hd as [_ Hd]. by apply effect_row.
  - unfold reset_host_key in Hh. inv_ok Hh. subst db'. simpl in Hd.
    destruct (s_devices db !! id) as [d|] eqn:Hrow; simpl in *; [|done]. simplify_eq.
    rewrite lookup_insert in Hd. case_decide; [|by apply effect_row]. subst i. injection Hd as <-.
    eapply (effect_same _ id); [done|done|done|by right].
  - unfold set_keywords in Hh. inv_ok Hh. subst db'. simpl in Hd. rewrite lookup_alter in Hd.
    case_decide; [|by apply effect_row]. subst i.
    destruct (s_devices db !! id) as [d|] eqn:Hrow; simpl in Hd; [|done]. injection Hd as <-.
    eapply (effect_same _ id); [done|done|done|by left].
  - unfold create_profile in Hh. inv_ok Hh. subst db'.
    match goal with Hw : write_profile _ _ _ = _, Hs : seal_version _ _ _ _ = _ |- _ =>
      apply write_profile_ok in Hw as [-> _]; apply seal_version_ok in Hs as [(Hf & Hdev & _) _] end.
    simpl in *. rewrite Hdev in Hd. by apply effect_row.
  - unfold update_profile in Hh. inv_ok Hh. subst db'.
    match goal with Hs : match _ with Some _ => _ | None => _ end = Ok ?db2,
                    Hw : change_profile _ _ _ = Ok ?db1 |- _ =>
      apply reseal_profile_ok in Hs as [(Hf & Hdev & _) _];
      apply change_profile_rows in Hw as [Hf1 Hdev1] end.
    simpl in *. rewrite Hdev, Hdev1 in Hd. apply effect_row; [simpl; congruence|done].
  - unfold delete_profile in Hh. inv_ok Hh. subst db'. by apply effect_row.
Qed.

End effects.

(** ** Theorems *)

Section theorems.
Context `{UuidText, SshKeys}.

(** What happens to the tables while requests run one after the other: a
    request, a connection that pins what its target presented, and everything
    that leaves folders, devices, profiles and their secrets alone. *)
Inductive store_step : Store -> Store -> Prop :=
| step_request s now rq db db' :
    draws_fresh rq db -> handle s now rq db db = Ok db' -> store_step db db'
| step_pin i d p db :
    s_devices db !! i = Some d -> store_step db (with_devices (insert i (set_pins p d)) db)
| step_other db db' :
    s_folders db' = s_folders db -> s_devices db' = s_devices db ->
    s_profiles db' = s_profiles db ->
    (forall i v, is_Some (s_devices db !! i) \/ is_Some (s_profiles db !! i) ->
       s_secrets db' !! (i, v) = s_secrets db !! (i, v)) ->
    store_step db db'.

Definition empty_store : Store :=
  {| s_folders := ∅; s_collections := []; s_credentials := []; s_devices := ∅; s_profiles := ∅;
     s_connectors := ∅; s_grants := []; s_secrets := ∅; s_log := [] |}.

Lemma handle_ok s now rq db db' :
  store_ok db -> draws_fresh rq db -> handle s now rq db db = Ok db' -> store_ok db'.
Proof.
  intros Hok Hf Hh. destruct rq; simpl in Hf, Hh;
    [ eapply create_folder_ok | eapply update_folder_ok | eapply delete_folder_ok
    | eapply create_device_ok | eapply update_device_ok | eapply move_device_ok
    | eapply delete_device_ok | eapply reset_host_key_ok | eapply set_keywords_ok
    | eapply create_profile_ok | eapply update_profile_ok | eapply delete_profile_ok ];
    eassumption.
Qed.

Lemma store_step_ok db db' : store_ok db -> store_step db db' -> store_ok db'.
Proof.
  intros Hok Hstep. destruct Hstep as [s now rq x y Hf Hh|i d p x Hd|x y Hf Hd Hp Hs];
    [by eapply handle_ok|..].
  - revert Hok. apply store_ok_frame; try done. simpl. intros j e. rewrite lookup_insert.
    case_decide; [intros [= <-]; subst|]; eauto.
  - destruct Hok as (Ht & Hdev & Hprof & Hdis). split_and!.
    + by rewrite Hf.
    + intros i d. rewrite Hd. intros Hi. destruct (Hdev i d Hi) as (? & ? & ? & Hsl).
      unfold device_ok. rewrite Hf, Hp. split_and!; try done. intros v. rewrite Hs; [apply Hsl|].
      left. eauto.
    + intros i p. rewrite Hp. intros Hi. destruct (Hprof i p Hi) as (? & ? & Hsl).
      unfold profile_ok. rewrite Hf. split_and!; [done|done|]. intros v. rewrite Hs; [apply Hsl|].
      right. eauto.
    + intros i. rewrite Hd, Hp. apply Hdis.
Qed.

Lemma empty_store_ok : store_ok empty_store.
Proof.
  split_and!; simpl; try done.
  split; [intros f (z & (r & Hr & _) & _)%tc_step|intros f p (r & Hr & _)];
    by rewrite lookup_empty in Hr.
Qed.

Lemma reachable_store_ok db : rtc store_step empty_store db -> store_ok db.
Proof.
  intros Hr. eapply (rtc_closed store_step store_ok); [exact store_step_ok|exact Hr|].
  exact empty_store_ok.
Qed.

(** C8: However folders, devices and login profiles are created, changed, moved
    and deleted, one request after the other, no folder ever lies in itself,
    every device lies in a folder and may use its login profile, which lies
    there or above and is no key unless the device speaks SSH, and the secrets
    that are sealed are exactly the current ones of the devices with own
    credentials and of the profiles. *)
Theorem tables_stay_consistent (db : Store) :
  rtc store_step empty_store db -> store_ok db.
Proof. exact (reachable_store_ok db). Qed.

(** A pin belongs to a target. No request changes what is pinned for a
    device but to forget it, and it is forgotten whenever the device's target
    changes: its protocol or address, or the connector it is reached through,
    by a change of the device, of its folder or of one above. *)
Theorem pins_follow_targets (s : Session) (now : Z) (rq : Request) (db db' : Store) (i : Uuid)
    (d d' : DeviceRow) :
  rtc store_step empty_store db -> draws_fresh rq db -> handle s now rq db db = Ok db' ->
  s_devices db !! i = Some d -> s_devices db' !! i = Some d' ->
  d_pins d' = no_pins
  \/ (d_pins d' = d_pins d /\ target (s_folders db') d' = target (s_folders db) d).
Proof.
  intros Hr Hf Hh Hd Hd'. apply reachable_store_ok in Hr.
  destruct (handle_effect _ _ _ _ _ _ _ Hr Hf Hh Hd') as [_ Heff].
  destruct (Heff d Hd) as [[Ht [Hp|Hp]]|[Hp _]]; [right; by split|by left|by left].
Qed.

(** C7: A login goes to a new target only with someone who may use it. When a
    request gives a device a login profile, or lets the one it has go to
    another target, its sender may connect with that profile; and the device's
    own password or key goes along to another target only with someone who may
    read it. *)
Theorem logins_go_along_with_rights (s : Session) (now : Z) (rq : Request) (db db' : Store)
    (i : Uuid) (d' : DeviceRow) :
  rtc store_step empty_store db -> draws_fresh rq db -> handle s now rq db db = Ok db' ->
  s_devices db' !! i = Some d' ->
  (forall p, d_profile (d_settings d') = Some p ->
     authorize (catalog_of db now) (subject s) Role_Connect (Profile p) = true
     \/ exists d, s_devices db !! i = Some d /\ d_profile (d_settings d) = Some p
          /\ target (s_folders db') d' = target (s_folders db) d)
  /\ (forall d, s_devices db !! i = Some d -> 0 < d_secret_version d ->
       d_secret_version d' = d_secret_version d ->
       authorize (catalog_of db now) (subject s) Role_Reveal (Device i) = true
       \/ target (s_folders db') d' = target (s_folders db) d).
Proof.
  intros Hr Hf Hh Hd'. apply reachable_store_ok in Hr.
  destruct (handle_effect _ _ _ _ _ _ _ Hr Hf Hh Hd') as [Hprof Heff]. split.
  - intros p Hp. destruct (Hprof p Hp) as [(d & ? & ? & ?)|?]; [right|by left]. by exists d.
  - intros d Hd Hpos Hv. destruct (Heff d Hd) as [[Ht _]|[_ Hrev]]; [by right|left]. by apply Hrev.
Qed.

End theorems.

(** ** Examples *)

Module CatalogExamples.

#[local] Instance decimal_uuid : UuidText := decimal.
#[local] Instance no_keys : SshKeys :=
  {| decode_secret_key := fun _ _ => None; from_openssh := fun _ => None |}.

Definition freshb (id : Uuid) (db : Store) : bool :=
  bool_decide (s_folders db !! id = None) && bool_decide (s_devices db !! id = None)
  && bool_decide (s_profiles db !! id = None)
  && negb (existsb (fun kv => kv.1.1 =? id) (map_to_list (s_secrets db))).

Lemma freshb_ok id db : freshb id db = true -> fresh_id id db.
Proof.
  unfold freshb. intros H. bools. split_and!; try done. intros v.
  destruct (s_secrets db !! (id, v)) as [l|] eqn:E; [|done].
  match goal with H : existsb _ _ = false |- _ =>
    eapply existsb_false in H; [|by apply elem_of_map_to_list] end.
  simpl in *. by bools.
Qed.

Definition draws_freshb (rq : Request) (db : Store) : bool :=
  match rq with
  | Rq_CreateFolder id _ | Rq_CreateDevice id _ | Rq_CreateProfile id _ => freshb id db
  | _ => true
  end.

Lemma draws_freshb_ok rq db : draws_freshb rq db = true -> draws_fresh rq db.
Proof. destruct rq; simpl; try done; apply freshb_ok. Qed.

Fixpoint run (s : Session) (rqs : list Request) (db : Store) : result Store ApiProblem :=
  match rqs with
  | [] => Ok db
  | rq :: rqs =>
      if draws_freshb rq db then let? db := handle s 0 rq db db in run s rqs db
      else Err AP_Internal
  end.

Lemma run_reachable s rqs db db' :
  run s rqs db = Ok db' -> rtc store_step db db'.
Proof.
  revert db. induction rqs as [|rq rqs IH]; intros db; simpl; [by intros [= ->]|].
  destruct (draws_freshb rq db) eqn:Ef; [|done].
  destruct (handle s 0 rq db db) as [db1|] eqn:Eh; [|done]. intros Hr.
  eapply rtc_l; [eapply step_request; [by apply draws_freshb_ok|exact Eh]|by apply IH].
Qed.

Definition folder (p : option Uuid) (n : string) : NewFolder :=
  {| nf_parent := p; nf_name := lit n; nf_connector := None |}.

Definition no_secrets : SecretInput :=
  {| si_password := None; si_private_key := None; si_passphrase := None; si_certificate := None |}.

Definition profile : ProfileInput :=
  {| pi_folder := Some 1; pi_name := lit "admin"; pi_username := lit "root"; pi_domain := [];
     pi_secret_kind := None;
     pi_secrets := {| si_password := Some (lit "geheim"); si_private_key := None;
                      si_passphrase := None; si_certificate := None |} |}.

Definition device : DeviceInput :=
  {| i_folder := 2; i_name := lit "router"; i_protocol := lit "ssh"; i_host := lit " 10.0.0.1 ";
     i_port := 22; i_auth_mode := lit "profile"; i_profile := Some 5; i_description := [];
     i_layout := None; i_mode := None; i_connector := None; i_confirmation := false;
     i_username := []; i_domain := []; i_secret_kind := None; i_secrets := no_secrets |}.

(** A customer's folder with a login profile, a folder in it, and a device there
    that signs in with the profile. *)
Definition requests : list Request :=
  [Rq_CreateFolder 1 (folder None "customer"); Rq_CreateFolder 2 (folder (Some 1) "branch");
   Rq_CreateProfile 5 profile; Rq_CreateDevice 7 device].

Definition with_connector : Store :=
  {| s_folders := ∅; s_collections := []; s_credentials := []; s_devices := ∅; s_profiles := ∅;
     s_connectors := {[9]}; s_grants := []; s_secrets := ∅; s_log := [] |}.

Definition after (s : Session) (rqs : list Request) (db : Store) : Store :=
  match run s rqs db with Ok db => db | Err _ => db end.

Definition built : Store := after RequestExamples.boss requests with_connector.

Lemma built_run : run RequestExamples.boss requests with_connector = Ok built.
Proof. vm_compute. reflexivity. Qed.

Lemma built_reachable : rtc store_step empty_store built.
Proof.
  eapply rtc_l; [|exact (run_reachable _ _ _ _ built_run)].
  by apply step_other.
Qed.

Lemma tables_stay_consistent_witness : store_ok built /\ s_devices built !! 7 <> None.
Proof. split; [exact (tables_stay_consistent built built_reachable)|vm_compute; discriminate]. Defined.

(** Device 7 of a store. *)
Definition router (db : Store) : DeviceRow :=
  default {| d_settings := {| d_folder := 0; d_name := []; d_protocol := Ssh; d_host := []; d_port := 0;
               d_auth_mode := Auth_Ask; d_profile := None; d_description := []; d_layout := None;
               d_mode := Inherit; d_connector := None; d_confirmation := false; d_username := [];
               d_domain := []; d_secret_kind := Kind_Password |};
             d_secret_version := 0; d_key := no_key; d_pins := no_pins; d_keywords := [];
             d_keywords_by := None |} (s_devices db !! 7).

(** A connection pinned the router's host key. *)
Definition pinned : Store :=
  with_devices (insert 7 (set_pins {| host_key := Some (lit "ssh-ed25519 AAAA");
                                      certificate_fingerprint := None |} (router built))) built.

Lemma pinned_reachable : rtc store_step empty_store pinned.
Proof.
  eapply rtc_r; [exact built_reachable|]. apply step_pin. vm_compute. reflexivity.
Qed.

(** The customer's folder gets a connector; the router's folder takes it over. *)
Definition reconnect : Request :=
  Rq_UpdateFolder 1 {| fc_name := None; fc_parent := None; fc_connector := Some (Some 9) |}.

Definition reconnected : Store := after RequestExamples.boss [reconnect] pinned.

Lemma reconnected_run : handle RequestExamples.boss 0 reconnect pinned pinned = Ok reconnected.
Proof. vm_compute. reflexivity. Qed.

Lemma pins_follow_targets_witness :
  target (s_folders reconnected) (router reconnected) <> target (s_folders pinned) (router pinned)
  /\ (d_pins (router reconnected) = no_pins
      \/ (d_pins (router reconnected) = d_pins (router pinned)
          /\ target (s_folders reconnected) (router reconnected)
             = target (s_folders pinned) (router pinned))).
Proof.
  split; [vm_compute; discriminate|].
  exact (pins_follow_targets RequestExamples.boss 0 reconnect pinned reconnected 7 (router pinned)
    (router reconnected) pinned_reachable I reconnected_run
    ltac:(vm_compute; reflexivity) ltac:(vm_compute; reflexivity)).
Defined.

Lemma logins_go_along_with_rights_witness :
  authorize (catalog_of pinned 0) (subject RequestExamples.boss) Role_Connect (Profile 5) = true
  \/ exists d, s_devices pinned !! 7 = Some d /\ d_profile (d_settings d) = Some 5
       /\ target (s_folders reconnected) (router reconnected) = target (s_folders pinned) d.
Proof.
  exact (proj1 (logins_go_along_with_rights RequestExamples.boss 0 reconnect pinned reconnected 7
    (router reconnected) pinned_reachable I reconnected_run ltac:(vm_compute; reflexivity))
    5 ltac:(vm_compute; reflexivity)).
Defined.

(** Alice manages the router's folder, but the profile lies above it and is not
    hers to use: she cannot send it through another connector. *)
Definition alice_manages : Store :=
  with_grants (fun _ =>
    [{| gr_folder := Some 2; gr_device := None; gr_credential := None; gr_collection := None;
        gr_principal_sid := lit "local:1"; gr_role := lit "manage"; gr_expires_at := None;
        gr_request_id := None |}]) pinned.

Example no_retarget_without_the_profile :
  handle RequestExamples.alice 0
    (Rq_UpdateFolder 2 {| fc_name := None; fc_parent := None; fc_connector := Some (Some 9) |})
    alice_manages alice_manages = Err (AP_RetargetForbidden [lit "router"]).
Proof. vm_compute. reflexivity. Qed.

(** *** Two moves at once *)

Definition two_folders : Store :=
  after RequestExamples.boss
    [Rq_CreateFolder 1 (folder None "a"); Rq_CreateFolder 2 (folder None "b")] with_connector.

Definition move_into (p : Uuid) : FolderChange :=
  {| fc_name := None; fc_parent := Some (Some p); fc_connector := None |}.

Definition first_moved : Store :=
  after RequestExamples.boss [Rq_UpdateFolder 1 (move_into 2)] two_folders.

Definition both_moved : Store :=
  match handle RequestExamples.boss 0 (Rq_UpdateFolder 2 (move_into 1)) two_folders first_moved with
  | Ok db => db
  | Err _ => first_moved
  end.

(** Walking up from a folder that lies in itself never ends. *)
Lemma loop_chain (fs : gmap Uuid FolderRow) a b n :
  up fs a b -> up fs b a -> length (chain n fs a) = n /\ length (chain n fs b) = n.
Proof.
  intros (r1 & H1 & P1) (r2 & H2 & P2). induction n as [|n [IH1 IH2]]; [done|].
  simpl. rewrite H1, P1, H2, P2. simpl. by rewrite IH1, IH2.
Qed.

Lemma up_1_2 : up (s_folders both_moved) 1 2.
Proof. eexists. split; vm_compute; reflexivity. Qed.

Lemma up_2_1 : up (s_folders both_moved) 2 1.
Proof. eexists. split; vm_compute; reflexivity. Qed.

(** Two moves at the same time can put two folders into each other: each
    request checks the tree it loaded before its transaction, and the second
    one's was loaded before the first one moved its folder. From then on the
    query for a folder's connector finds ever more folders above. *)
Theorem concurrent_moves_make_a_loop :
  exists db1 db2,
    handle RequestExamples.boss 0 (Rq_UpdateFolder 1 (move_into 2)) two_folders two_folders = Ok db1
    /\ handle RequestExamples.boss 0 (Rq_UpdateFolder 2 (move_into 1)) two_folders db1 = Ok db2
    /\ tc (up (s_folders db2)) 1 1
    /\ forall n, length (chain n (s_folders db2) 1) = n.
Proof.
  exists first_moved, both_moved. split_and!; [vm_compute; reflexivity..| |].
  - exact (tc_l _ 1 2 1 up_1_2 (tc_once _ _ _ up_2_1)).
  - intros n. exact (proj1 (loop_chain _ 1 2 n up_1_2 up_2_1)).
Qed.

End CatalogExamples.
