(* ===== verification/Sid.v ===== *)
(** * Security identifiers (crates/directory/src/sid.rs)

    The SIDs by which directory users and groups are stored: their text form
    [S-1-5-21-...] and the binary form of [objectSid]. *)
From S2P Require Import Prelude Text.

(** ** Bytes *)

(** [u32::from_le_bytes] and [to_le_bytes], for any width. *)
Fixpoint from_le_bytes (bs : list Z) : Z :=
  match bs with
  | [] => 0
  | b :: bs => b + 256 * from_le_bytes bs
  end.

Fixpoint to_le_bytes (n : nat) (v : Z) : list Z :=
  match n with
  | O => []
  | S n => v mod 256 :: to_le_bytes n (v / 256)
  end.

Definition to_be_bytes (n : nat) (v : Z) : list Z := reverse (to_le_bytes n v).

Definition byte (b : Z) : Prop := 0 <= b < 256.

(** ** SIDs *)

(** [iter().fold(0u64, |acc, &b| (acc << 8) | u64::from(b))], at 64 bits. *)
Definition authority_of (bs : list Z) : Z :=
  foldl (fun acc b => Z.lor (Z.shiftl acc 8 mod 2 ^ 64) b) 0 bs.

(** [as_chunks::<4>().0]: the whole chunks. *)
Fixpoint chunks4 (bs : list Z) : list (list Z) :=
  match bs with
  | a :: b :: c :: d :: bs => [a; b; c; d] :: chunks4 bs
  | _ => []
  end.

(** [format!("-{sub}")]. *)
Definition sub_text (n : Z) : list Z := lit "-" ++ decimal n.

Definition sid_from_bytes (bytes : list Z) : option (list Z) :=
  match bytes with
  | revision :: count :: rest =>
      if negb (revision =? 1) || negb (Z.of_nat (length rest) =? 6 + 4 * count) then None
      else
        Some (lit "S-" ++ decimal revision ++ lit "-" ++ decimal (authority_of (take 6 rest))
              ++ ((from_le_bytes <$> chunks4 (drop 6 rest)) ≫= sub_text))
  | _ => None
  end.

Definition sid_to_bytes (sid : str) : list Z :=
  let parts := drop 2 (split 45 sid) in
  let authority := default 0 (head parts ≫= parse_unsigned u64_max) in
  let subs := omap (parse_unsigned u32_max) (tail parts) in
  [1; Z.of_nat (length subs) mod 256] ++ drop 2 (to_be_bytes 8 authority)
    ++ (subs ≫= to_le_bytes 4).

Definition rid (sid : str) : option Z := last (split 45 sid) ≫= parse_unsigned u32_max.

Definition sid_from_str (s : str) : option (list Z) :=
  match split 45 s with
  | a :: b :: numbers =>
      if negb (bool_decide (a = lit "S")) || negb (bool_decide (b = lit "1")) then None
      else
        match numbers with
        | [] => None
        | authority :: subs =>
            if (Z.of_nat (length numbers) <=? 16)
               && is_some_and (fun a => a <? 2 ^ 48) (parse_unsigned u64_max authority)
               && forallb (fun n => is_some (parse_unsigned u32_max n)) subs
            then Some s else None
        end
  | _ => None
  end.

(** ** Theorems *)

Lemma from_le_bytes_bound bs :
  Forall byte bs -> 0 <= from_le_bytes bs < 256 ^ Z.of_nat (length bs).
Proof.
  induction 1 as [|b bs Hb _ IH]; [done|]. cbn [from_le_bytes length].
  rewrite Nat2Z.inj_succ, Z.pow_succ_r by lia. unfold byte in Hb. lia.
Qed.

Lemma to_from_le_bytes bs : Forall byte bs -> to_le_bytes (length bs) (from_le_bytes bs) = bs.
Proof.
  induction 1 as [|b bs Hb Hbs IH]; [done|]. cbn [from_le_bytes length to_le_bytes].
  pose proof (from_le_bytes_bound bs Hbs). unfold byte in Hb.
  rewrite (Z.mul_comm 256), Z.mod_add, Z.mod_small, Z.div_add, Z.div_small by lia.
  by rewrite Z.add_0_l, IH.
Qed.

(** A byte appended to a shifted number. *)
Lemma lor_byte a b : 0 <= a -> byte b -> Z.lor (Z.shiftl a 8) b = 256 * a + b.
Proof.
  intros Ha Hb. unfold byte in Hb. rewrite <- Z.lxor_lor, <- Z.add_nocarry_lxor;
    [rewrite Z.shiftl_mul_pow2 by lia; lia|..]; apply Z.bits_inj'; intros n Hn;
    rewrite Z.land_spec, Z.bits_0; apply andb_false_iff;
    (destruct (decide (n < 8)); [left; by apply Z.shiftl_spec_low|right]);
    rewrite <- (Z.mod_small b (2 ^ 8)) by lia; apply Z.mod_pow2_bits_high; lia.
Qed.

Lemma from_le_bytes_app l l' :
  from_le_bytes (l ++ l') = from_le_bytes l + 256 ^ Z.of_nat (length l) * from_le_bytes l'.
Proof.
  induction l as [|b l IH]; [simpl; lia|]. cbn [app from_le_bytes length]. rewrite IH.
  rewrite Nat2Z.inj_succ, Z.pow_succ_r by lia. lia.
Qed.

Lemma authority_le bs :
  Forall byte bs -> (length bs <= 8)%nat -> authority_of bs = from_le_bytes (reverse bs).
Proof.
  induction bs as [|b bs IH] using rev_ind; [done|]. intros [Hbs Hb]%Forall_app Hlen.
  apply Forall_cons in Hb as [Hb _]. rewrite length_app in Hlen. simpl in Hlen.
  unfold authority_of in *. rewrite foldl_app. cbn [foldl]. rewrite IH by (done || lia).
  rewrite reverse_snoc. cbn [from_le_bytes].
  assert (Forall byte (reverse bs)) as Hr by (by apply Forall_reverse).
  pose proof (from_le_bytes_bound _ Hr) as Hbd. rewrite length_reverse in Hbd.
  assert (256 ^ Z.of_nat (length bs) <= 256 ^ 7) by (apply Z.pow_le_mono_r; lia).
  change (256 ^ 7) with 72057594037927936 in *. change (2 ^ 64) with 18446744073709551616.
  rewrite Z.mod_small by (rewrite Z.shiftl_mul_pow2 by lia; change (2 ^ 8) with 256; lia).
  rewrite lor_byte by (done || lia). lia.
Qed.

Lemma authority_bytes bs :
  Forall byte bs -> length bs = 6%nat ->
  drop 2 (to_be_bytes 8 (authority_of bs)) = bs /\ 0 <= authority_of bs < 2 ^ 48.
Proof.
  intros Hb Hlen. rewrite authority_le by (done || lia).
  assert (Forall byte (reverse bs)) as Hr by (by apply Forall_reverse).
  pose proof (from_le_bytes_bound _ Hr) as Hbd. rewrite length_reverse, Hlen in Hbd.
  split; [|done].
  assert (Forall byte (reverse bs ++ [0; 0])) as Hz.
  { apply Forall_app. split; [done|]. repeat constructor; lia. }
  pose proof (to_from_le_bytes _ Hz) as Hto. rewrite length_app, length_reverse, Hlen in Hto.
  assert (from_le_bytes (reverse bs ++ [0; 0]) = from_le_bytes (reverse bs)) as Hsame
    by (rewrite from_le_bytes_app; cbn [from_le_bytes]; lia).
  rewrite Hsame in Hto. unfold to_be_bytes. simpl Nat.add in Hto.
  rewrite Hto, reverse_app, reverse_involutive. done.
Qed.

Lemma chunks4_bytes n bs :
  length bs = (4 * n)%nat -> Forall byte bs ->
  ((from_le_bytes <$> chunks4 bs) ≫= to_le_bytes 4) = bs
  /\ length (chunks4 bs) = n
  /\ Forall (fun v => 0 <= v <= u32_max) (from_le_bytes <$> chunks4 bs).
Proof.
  revert bs. induction n as [|n IH]; intros bs Hlen Hb; [by destruct bs|].
  destruct bs as [|a [|b [|c [|d bs]]]]; simpl in Hlen; try lia.
  assert (Forall byte [a; b; c; d] /\ Forall byte bs) as [Hc Hbs]
    by (apply Forall_app; exact Hb).
  destruct (IH bs) as (IH1 & IH2 & IH3); [lia|done|]. cbn [chunks4 fmap list_fmap length].
  split_and!.
  - change ((from_le_bytes [a; b; c; d] :: (from_le_bytes <$> chunks4 bs)) ≫= to_le_bytes 4)
      with (to_le_bytes 4 (from_le_bytes [a; b; c; d]) ++ ((from_le_bytes <$> chunks4 bs) ≫= to_le_bytes 4)).
    rewrite IH1. by rewrite (to_from_le_bytes [a; b; c; d] Hc : to_le_bytes 4 _ = _).
  - by rewrite IH2.
  - constructor; [|done]. pose proof (from_le_bytes_bound _ Hc) as Hbd.
    change (256 ^ Z.of_nat (length [a; b; c; d])) with 4294967296 in Hbd. unfold u32_max. lia.
Qed.

(** The parts of a SID's text. *)
Lemma split_sid a ns :
  0 <= a -> Forall (fun v => 0 <= v <= u32_max) ns ->
  split 45 (lit "S-" ++ decimal 1 ++ lit "-" ++ decimal a ++ (ns ≫= sub_text))
  = lit "S" :: lit "1" :: decimal a :: (decimal <$> ns).
Proof.
  intros Ha Hns.
  assert (Hd : forall v, 0 <= v -> 45 ∉ decimal v) by (intros v Hv; by apply decimal_not_elem).
  change (lit "S-" ++ decimal 1 ++ lit "-" ++ decimal a ++ (ns ≫= sub_text))
    with (lit "S" ++ 45 :: lit "1" ++ 45 :: decimal a ++ (ns ≫= sub_text)).
  rewrite split_app by (apply (bool_decide_eq_false_1 (45 ∈ _)); vm_compute; reflexivity).
  rewrite split_app by (apply (bool_decide_eq_false_1 (45 ∈ _)); vm_compute; reflexivity).
  do 2 f_equal. revert a Ha. induction Hns as [|n ns Hn _ IH]; intros a Ha.
  - rewrite app_nil_r. by apply split_not_in, Hd.
  - change ((n :: ns) ≫= sub_text) with (45 :: decimal n ++ (ns ≫= sub_text)).
    rewrite split_app by (by apply Hd). f_equal. apply IH. lia.
Qed.

(** A SID read from its bytes is written back to the same bytes. *)
Theorem sid_bytes_read_back (bytes sid : list Z) :
  Forall byte bytes -> sid_from_bytes bytes = Some sid -> sid_to_bytes sid = bytes.
Proof.
  intros Hb. destruct bytes as [|r [|n rest]]; try done. unfold sid_from_bytes.
  destruct (r =? 1) eqn:Er; [|done]. destruct (_ =? 6 + 4 * n) eqn:El; [|done]. bools.
  subst r. cbn [negb orb]. intros <-%(inj Some). apply Forall_cons in Hb as [_ [Hn Hrest]%Forall_cons].
  unfold byte in Hn. rewrite <- (take_drop 6 rest) in Hrest. apply Forall_app in Hrest as [Ha Hs].
  destruct (authority_bytes (take 6 rest)) as [Hauth Hbd]; [done|rewrite length_take; lia|].
  destruct (chunks4_bytes (Z.to_nat n) (drop 6 rest)) as (Hch & Hlen & Hu); [rewrite length_drop; lia|done|].
  unfold sid_to_bytes. rewrite split_sid by (done || lia). cbn [drop head tail option_bind].
  unfold mbind at 1. cbn [option_bind].
  rewrite parse_unsigned_decimal by (unfold u64_max; lia). cbn [default from_option].
  assert (omap (parse_unsigned u32_max) (decimal <$> (from_le_bytes <$> chunks4 (drop 6 rest)))
          = (from_le_bytes <$> chunks4 (drop 6 rest))) as ->.
  { clear -Hu. induction Hu as [|v l Hv _ IH]; [done|]. csimpl.
    rewrite parse_unsigned_decimal by done. by rewrite IH. }
  rewrite length_fmap, Hlen, Z2Nat.id, Z.mod_small by lia. unfold id.
  rewrite Hauth, Hch. cbn [app]. by rewrite take_drop.
Qed.

Lemma sid_bytes_read_back_witness :
  sid_to_bytes (lit "S-1-5-32-544") = [1; 2; 0; 0; 0; 0; 0; 5; 32; 0; 0; 0; 32; 2; 0; 0].
Proof.
  apply sid_bytes_read_back; [|vm_compute; reflexivity].
  repeat constructor; vm_compute; discriminate.
Defined.

(** The bytes of a SID may hold more sub-authorities than its text may have. *)
Example long_sid_is_not_read_back :
  exists sid, sid_from_bytes ([1; 16; 0; 0; 0; 0; 0; 5] ++ replicate 64 0) = Some sid
    /\ sid_from_str sid = None.
Proof.
  exists (default [] (sid_from_bytes ([1; 16; 0; 0; 0; 0; 0; 5] ++ replicate 64 0))).
  split; vm_compute; reflexivity.
Qed.
