(* ===== verification/Totp.v ===== *)
(** * One-time passwords (crates/totp/src/lib.rs)

    The codes of RFC 6238: those remotehub checks, six digits of HMAC-SHA1 for
    steps of thirty seconds, and those of any service's [otpauth://] link.
    HMAC and base32 belong to other crates: parameters. An index out of range,
    which is a panic, is [None]. *)
From S2P Require Import Prelude Text Utf8 Sid.

Inductive Algorithm := Sha1 | Sha256 | Sha512.

(** [Hmac<_>] over a key and a message (crates [hmac], [sha1], [sha2]). *)
Class Hmac := hmac_of : Algorithm -> list Z -> list Z -> list Z.

Definition digest_len (a : Algorithm) : nat :=
  match a with Sha1 => 20 | Sha256 => 32 | Sha512 => 64 end.

(** A digest has its length, in bytes. *)
Class HmacOk `{Hmac} : Prop :=
  hmac_len : forall a key message, length (hmac_of a key message) = digest_len a
    /\ Forall byte (hmac_of a key message).

(** [BASE32_NOPAD] (crate [data-encoding]). *)
Class Base32 := {
  b32_encode : list Z -> list Z;
  b32_decode : list Z -> option (list Z)
}.

(** argon2id (crate [argon2]): the hash of a password with a fresh salt, as its
    text, and whether a password is the one of a hash; a text that is no hash
    has none. *)
Class Argon2 := {
  argon2_hash : list Z -> list Z -> option (list Z);
  argon2_matches : list Z -> list Z -> bool
}.

(** What was hashed matches its hash. *)
Class Argon2Ok `{Argon2} : Prop :=
  argon2_ok salt password h : argon2_hash salt password = Some h -> argon2_matches password h = true.

(** [BASE32_NOPAD] reads what it wrote, in letters and digits of one case. *)
Class Base32Ok `{Base32} : Prop := {
  b32_reads_back : forall s, Forall byte s -> b32_decode (b32_encode s) = Some s;
  b32_chars : forall s, Forall (fun c => is_ascii_upper c || is_ascii_digit c = true) (b32_encode s)
}.

Definition PERIOD : Z := 30.
Definition DIGITS : Z := 6.
Definition SECRET_BYTES : Z := 20.

(** ** Codes *)

(** [format!("{value:0width$}")]. *)
Definition zero_padded (width : Z) (n : Z) : list Z :=
  let text := decimal n in replicate (Z.to_nat width - length text) 48 ++ text.

(** The digits of a digest: four bytes from the offset its last byte gives,
    without the first bit. *)
Definition digits_of (digest : list Z) (digits : Z) : option (list Z) :=
  match last digest with
  | None => None
  | Some b =>
      let offset := Z.to_nat (Z.land b 0x0f) in
      match digest !! offset, digest !! (offset + 1)%nat, digest !! (offset + 2)%nat,
            digest !! (offset + 3)%nat with
      | Some b0, Some b1, Some b2, Some b3 =>
          let value := from_le_bytes [b3; b2; b1; Z.land b0 0x7f] mod 10 ^ digits in
          Some (zero_padded digits value)
      | _, _, _, _ => None
      end
  end.

Section totp.
Context `{Hmac, Base32}.

Definition code (secret : list Z) (step : Z) : option (list Z) :=
  digits_of (hmac_of Sha1 secret (to_be_bytes 8 step)) DIGITS.

(** The comparison of [step]: every byte is looked at. *)
Definition same_code (expected code : list Z) : bool :=
  bool_decide (length expected = length code)
  && (foldl (fun acc ab => Z.lor acc (Z.lxor ab.1 ab.2)) 0 (zip expected code) =? 0).

(** [find] over the steps that may be meant, [None] outside for a panic. *)
Fixpoint find_step (secret : list Z) (entered : str) (steps : list Z) : option (option Z) :=
  match steps with
  | [] => Some None
  | s :: steps =>
      match code secret s with
      | None => None
      | Some expected =>
          if same_code (utf8 expected) (utf8 entered) then Some (Some s)
          else find_step secret entered steps
      end
  end.

Definition step (secret : list Z) (entered : str) (unix_seconds : Z) : option (option Z) :=
  let now := unix_seconds / PERIOD in
  find_step secret entered [now; Z.max 0 (now - 1); now + 1].

(** ** Secrets *)

Definition encode (secret : list Z) : list Z := b32_encode secret.

Definition decode (secret : str) : option (list Z) :=
  match b32_decode (utf8 (trim secret)) with
  | Some bytes => if Z.of_nat (length bytes) =? SECRET_BYTES then Some bytes else None
  | None => None
  end.

Definition uri (issuer account secret_base32 : str) : list Z :=
  lit "otpauth://totp/" ++ issuer ++ [58] ++ account ++ lit "?secret=" ++ secret_base32 ++ lit "&issuer="
  ++ issuer ++ lit "&algorithm=SHA1&digits=" ++ decimal DIGITS ++ lit "&period=" ++ decimal PERIOD.

Definition MIN_SECRET_BYTES : Z := 10.

Definition lenient_base32 (text : str) : option (list Z) :=
  let clean := to_ascii_uppercase
                 <$> filter (fun c => is_whitespace c = false /\ c <> 45 /\ c <> 61) text in
  match b32_decode (utf8 clean) with
  | Some bytes => if MIN_SECRET_BYTES <=? Z.of_nat (length bytes) then Some bytes else None
  | None => None
  end.

(** ** Services' codes *)

Record Params := {
  secret : list Z;
  algorithm : Algorithm;
  digits : Z;
  period : Z
}.

(** The prefix is ASCII, so what equals it in any case has as many bytes as
    characters. *)
Definition strip_prefix_ignore_case (text prefix : str) : option (list Z) :=
  if eq_ignore_ascii_case (take (length prefix) text) prefix
  then Some (drop (length prefix) text) else None.

Definition parse_algorithm (value : str) : option Algorithm :=
  let v := to_ascii_uppercase <$> value in
  if bool_decide (v = lit "SHA1") then Some Sha1
  else if bool_decide (v = lit "SHA256") then Some Sha256
  else if bool_decide (v = lit "SHA512") then Some Sha512
  else None.

Definition parse_between (max lo hi : Z) (value : str) : option Z :=
  match parse_unsigned max value with
  | Some n => if (lo <=? n) && (n <=? hi) then Some n else None
  | None => None
  end.

(** One pair of the link's query. *)
Definition parse_pair (p : Params) (kv : str) : option Params :=
  let (key, value) := default (kv, []) (split_once 61 kv) in
  let key := to_ascii_lowercase <$> key in
  if bool_decide (key = lit "secret") then
    s ← lenient_base32 value;
    Some {| secret := s; algorithm := algorithm p; digits := digits p; period := period p |}
  else if bool_decide (key = lit "algorithm") then
    a ← parse_algorithm value;
    Some {| secret := secret p; algorithm := a; digits := digits p; period := period p |}
  else if bool_decide (key = lit "digits") then
    d ← parse_between u32_max 6 8 value;
    Some {| secret := secret p; algorithm := algorithm p; digits := d; period := period p |}
  else if bool_decide (key = lit "period") then
    d ← parse_between u64_max 1 300 value;
    Some {| secret := secret p; algorithm := algorithm p; digits := digits p; period := d |}
  else Some p.

Fixpoint parse_pairs (p : Params) (pairs : list (list Z)) : option Params :=
  match pairs with
  | [] => Some p
  | kv :: pairs => p ← parse_pair p kv; parse_pairs p pairs
  end.

Definition default_params (s : list Z) : Params :=
  {| secret := s; algorithm := Sha1; digits := DIGITS; period := PERIOD |}.

Definition params_parse (text : str) : option Params :=
  let text := trim text in
  match strip_prefix_ignore_case text (lit "otpauth://totp/") with
  | None => s ← lenient_base32 text; Some (default_params s)
  | Some rest =>
      q ← split_once 63 rest;
      p ← parse_pairs (default_params []) (split 38 q.2);
      if bool_decide (secret p = []) then None else Some p
  end.

Definition code_at (p : Params) (unix_seconds : Z) : option (list Z * Z) :=
  let step := unix_seconds / period p in
  let digest := hmac_of (algorithm p) (secret p) (to_be_bytes 8 step) in
  c ← digits_of digest (digits p);
  Some (c, period p - unix_seconds mod period p).

End totp.

(** ** Theorems *)

Lemma zero_padded_ok (w : nat) n :
  (1 <= w)%nat -> 0 <= n < 10 ^ Z.of_nat w ->
  length (zero_padded (Z.of_nat w) n) = w
  /\ Forall (fun c => is_ascii_digit c = true) (zero_padded (Z.of_nat w) n).
Proof.
  intros Hw Hn. unfold zero_padded. rewrite Nat2Z.id.
  pose proof (decimal_length n w Hw Hn). split.
  - rewrite length_app, length_replicate. lia.
  - apply Forall_app. split; [by apply Forall_replicate|]. apply decimal_digits. lia.
Qed.

Lemma land_ones_bound a k : 0 <= a -> 0 <= k -> 0 <= Z.land a (Z.ones k) < 2 ^ k.
Proof. intros. rewrite Z.land_ones by done. apply Z.mod_pos_bound. lia. Qed.

(** No digest makes [digits_of] panic, and it has as many digits as asked. *)
Lemma digits_of_ok digest (w : nat) :
  (20 <= length digest)%nat -> Forall byte digest -> (1 <= w)%nat ->
  exists c, digits_of digest (Z.of_nat w) = Some c /\ length c = w
    /\ Forall (fun c => is_ascii_digit c = true) c.
Proof.
  intros Hlen Hb Hw. unfold digits_of.
  destruct (last digest) as [b|] eqn:Hl; [|apply last_None in Hl; subst; simpl in Hlen; lia].
  assert (byte b) as Hbb.
  { rewrite Forall_forall in Hb. apply Hb. apply last_Some in Hl as [l ->].
    apply elem_of_app. right. by left. }
  unfold byte in Hbb. pose proof (land_ones_bound b 4) as Hoff. change (Z.ones 4) with 0x0f in Hoff.
  assert (Hat : forall i, (i < 20)%nat -> is_Some (digest !! i)) by (intros; apply lookup_lt_is_Some; lia).
  set (o := Z.to_nat (Z.land b 15)) in *.
  assert (o <= 15)%nat by (unfold o; lia).
  destruct (Hat o) as [b0 ->]; [lia|]. destruct (Hat (o + 1)%nat) as [b1 ->]; [lia|].
  destruct (Hat (o + 2)%nat) as [b2 ->]; [lia|]. destruct (Hat (o + 3)%nat) as [b3 ->]; [lia|].
  eexists. split; [done|]. apply zero_padded_ok; [done|]. apply Z.mod_pos_bound.
  apply Z.pow_pos_nonneg; lia.
Qed.

(** The comparison that looks at every byte is equality. *)
Lemma same_code_iff a b : same_code a b = true <-> a = b.
Proof.
  assert (Hfold : forall l acc, foldl (fun acc ab => Z.lor acc (Z.lxor ab.1 ab.2)) acc l = 0
            <-> acc = 0 /\ Forall (fun ab : Z * Z => ab.1 = ab.2) l).
  { induction l as [|[x y] l IH]; intros acc; simpl; [naive_solver|].
    rewrite IH, Z.lor_eq_0_iff, Z.lxor_eq_0_iff, Forall_cons. simpl. tauto. }
  unfold same_code. rewrite andb_true_iff, bool_decide_eq_true, Z.eqb_eq, Hfold. split.
  - intros (Hlen & _ & Hall). revert b Hlen Hall. induction a as [|x a IH]; intros [|y b] Hlen Hall;
      try done. simpl in *. apply Forall_cons in Hall as [Hxy Hall]. simpl in Hxy. subst.
    f_equal. apply IH; [lia|done].
  - intros ->. split_and!; [done|done|]. induction b; simpl; by constructor.
Qed.

(** A code that is found is the code of one of the steps. *)
Lemma find_step_found `{Hmac} key entered steps s :
  find_step key entered steps = Some (Some s) -> s ∈ steps /\ exists c, code key s = Some c /\ utf8 c = utf8 entered.
Proof.
  induction steps as [|x steps IH]; [done|]. cbn [find_step]. destruct (code key x) as [c|] eqn:Hc; [|done].
  destruct (same_code (utf8 c) (utf8 entered)) eqn:E.
  - intros [= <-]. apply same_code_iff in E. split; [by left|by exists c].
  - intros [Hin Hs]%IH. split; [by right|done].
Qed.

Section theorems.
Context `{HmacOk, Base32}.

Lemma code_ok key s :
  exists c, code key s = Some c /\ length c = 6%nat /\ Forall (fun c => is_ascii_digit c = true) c.
Proof.
  unfold code. destruct (hmac_len Sha1 key (to_be_bytes 8 s)) as [Hlen Hb].
  apply (digits_of_ok _ 6); [rewrite Hlen; simpl; lia|done|lia].
Qed.

(** A right code of the current time step is found first. *)
Lemma step_now key unix c :
  code key (unix / PERIOD) = Some c -> step key c unix = Some (Some (unix / PERIOD)).
Proof. intros Hc. unfold step. simpl. rewrite Hc. by rewrite (proj2 (same_code_iff _ _) eq_refl). Qed.

Lemma trim_code key s c : code key s = Some c -> trim c = c.
Proof.
  intros Hc. destruct (code_ok key s) as (c' & Hc' & _ & Hd). rewrite Hc in Hc'. injection Hc' as <-.
  apply trim_none. eapply Forall_impl; [exact Hd|]. simpl. intros x Hx. unfold is_ascii_digit in Hx. bools.
  by apply not_whitespace; lia.
Qed.

Lemma digits_scalar c : Forall (fun c => is_ascii_digit c = true) c -> Forall (fun c => scalar c = true) c.
Proof.
  intros Hc. eapply Forall_impl; [exact Hc|]. simpl. intros x Hx. unfold is_ascii_digit in Hx. bools.
  unfold scalar.
  apply orb_true_iff. left. apply andb_true_iff. lia.
Qed.

Lemma find_step_ok key entered steps :
  Forall (fun c => scalar c = true) entered ->
  exists answer, find_step key entered steps = Some answer
    /\ (forall s, answer = Some s -> s ∈ steps /\ code key s = Some entered)
    /\ (answer = None -> forall s, s ∈ steps -> code key s <> Some entered).
Proof.
  intros Hent. induction steps as [|s steps (answer & Hf & Hsome & Hnone)]; cbn [find_step].
  - exists None. split_and!; [done|done|]. by intros _ s ?%elem_of_nil.
  - destruct (code_ok key s) as (c & Hc & _ & Hd%digits_scalar). rewrite Hc.
    destruct (same_code (utf8 c) (utf8 entered)) eqn:E.
    + apply same_code_iff, utf8_inj in E; [|done|done]. subst c. exists (Some s). split_and!; [done| |done].
      intros s' [= <-]. split; [by left|done].
    + exists answer. split_and!; [done| |].
      * intros s' Hs'. destruct (Hsome s' Hs') as [? ?]. split; [by right|done].
      * intros Hn s' [->|Hin]%elem_of_cons; [|by apply Hnone]. rewrite Hc. intros [= ->].
        by rewrite (proj2 (same_code_iff _ _)) in E.
Qed.

(** A code is accepted exactly if it is that of the current step or of one
    beside it; the check always gives an answer, and the step it gives is one
    with that code. *)
Theorem code_accepted_iff (key entered : list Z) (t : Z) :
  0 <= t -> Forall (fun c => scalar c = true) entered ->
  exists answer, step key entered t = Some answer
    /\ (is_Some answer <->
        exists s, 0 <= s /\ t / PERIOD - 1 <= s <= t / PERIOD + 1 /\ code key s = Some entered)
    /\ (forall s, answer = Some s ->
        0 <= s /\ t / PERIOD - 1 <= s <= t / PERIOD + 1 /\ code key s = Some entered).
Proof.
  intros Ht Hent. set (n := t / PERIOD).
  assert (0 <= n) by (apply Z.div_pos; [done|by unfold PERIOD]).
  assert (Hin : forall s, s ∈ [n; Z.max 0 (n - 1); n + 1] <-> 0 <= s /\ n - 1 <= s <= n + 1).
  { intros s. rewrite !elem_of_cons, elem_of_nil. lia. }
  destruct (find_step_ok key entered [n; Z.max 0 (n - 1); n + 1] Hent) as (answer & Hf & Hsome & Hnone).
  exists answer. split; [exact Hf|].
  assert (Hs : forall s, answer = Some s -> 0 <= s /\ n - 1 <= s <= n + 1 /\ code key s = Some entered).
  { intros s [Hs Hc]%Hsome. apply Hin in Hs. by split_and!; try lia. }
  split; [|done]. split.
  - intros [s Ha]. exists s. by apply Hs.
  - intros (s & Hs0 & Hs1 & Hc). destruct answer as [s'|]; [by eexists|].
    exfalso. apply (Hnone eq_refl s); [by apply Hin|done].
Qed.

(** What [Params::parse] accepts is within its bounds. *)
Definition params_ok (p : Params) : Prop :=
  6 <= digits p <= 8 /\ 1 <= period p <= 300.

Lemma parse_between_ok max lo hi v n : parse_between max lo hi v = Some n -> lo <= n <= hi.
Proof.
  unfold parse_between. destruct (parse_unsigned max v) as [m|]; [|done].
  destruct (_ && _) eqn:E; [|done]. intros [= ->]. by bools.
Qed.

Lemma lenient_base32_ok v s : lenient_base32 v = Some s -> MIN_SECRET_BYTES <= Z.of_nat (length s).
Proof.
  unfold lenient_base32. destruct (b32_decode _) as [x|]; [|done].
  destruct (_ <=? _) eqn:E; [|done]. intros [= ->]. by bools.
Qed.

Lemma parse_pair_ok p kv q :
  params_ok p /\ (secret p <> [] -> MIN_SECRET_BYTES <= Z.of_nat (length (secret p))) ->
  parse_pair p kv = Some q ->
  params_ok q /\ (secret q <> [] -> MIN_SECRET_BYTES <= Z.of_nat (length (secret q))).
Proof.
  intros [[Hd Hp] Hs]. unfold parse_pair, params_ok. destruct (default _ _) as [k v].
  repeat case_bool_decide; try (intros (x & Hx & [= <-])%bind_Some); simpl.
  - split; [done|]. intros _. by eapply lenient_base32_ok.
  - done.
  - apply parse_between_ok in Hx. done.
  - apply parse_between_ok in Hx. done.
  - by intros [= <-].
Qed.

Lemma parse_pairs_ok pairs p q :
  params_ok p /\ (secret p <> [] -> MIN_SECRET_BYTES <= Z.of_nat (length (secret p))) ->
  parse_pairs p pairs = Some q ->
  params_ok q /\ (secret q <> [] -> MIN_SECRET_BYTES <= Z.of_nat (length (secret q))).
Proof.
  revert p. induction pairs as [|kv pairs IH]; intros p Hp; cbn [parse_pairs].
  - by intros [= <-].
  - intros (p' & Hp' & Hq)%bind_Some. eapply IH; [|exact Hq]. by eapply parse_pair_ok.
Qed.

Lemma params_parse_ok text p :
  params_parse text = Some p -> params_ok p /\ MIN_SECRET_BYTES <= Z.of_nat (length (secret p)).
Proof.
  unfold params_parse. destruct (strip_prefix_ignore_case _ _) as [rest|].
  - intros (q & _ & (p' & Hp' & Hlast)%bind_Some)%bind_Some. case_bool_decide as Hne; [done|].
    injection Hlast as ->. apply parse_pairs_ok in Hp' as [Hp Hs]; [by auto|].
    split; [unfold params_ok; simpl; unfold DIGITS, PERIOD; lia|done].
  - intros (s & Hs%lenient_base32_ok & [= <-])%bind_Some. simpl.
    split; [unfold params_ok; simpl; unfold DIGITS, PERIOD; lia|done].
Qed.

Lemma period_step t u n : 0 < n -> t <= u < t + (n - t mod n) -> u / n = t / n.
Proof.
  intros Hn Hu. pose proof (Z.div_mod t n ltac:(lia)). pose proof (Z.mod_pos_bound t n Hn).
  symmetry. apply (Z.div_unique _ _ _ (u - n * (t / n))); lia.
Qed.

(** Whatever link or secret is accepted, its codes can be made at any time:
    they have the asked number of digits, and the seconds given with a code are
    how long it still holds, at least one and at most its period. *)
Theorem codes_hold_as_said (text : list Z) (p : Params) (t : Z) :
  params_parse text = Some p ->
  exists c left, code_at p t = Some (c, left)
    /\ Z.of_nat (length c) = digits p /\ Forall (fun c => is_ascii_digit c = true) c
    /\ 1 <= left <= period p
    /\ forall u, t <= u < t + left -> exists l, code_at p u = Some (c, l).
Proof.
  intros [[Hd Hp] _]%params_parse_ok.
  assert (Hc : forall u, exists c, digits_of (hmac_of (algorithm p) (secret p) (to_be_bytes 8 (u / period p))) (digits p)
              = Some c /\ Z.of_nat (length c) = digits p /\ Forall (fun c => is_ascii_digit c = true) c).
  { intros u. destruct (hmac_len (algorithm p) (secret p) (to_be_bytes 8 (u / period p))) as [Hlen Hb].
    destruct (digits_of_ok (hmac_of (algorithm p) (secret p) (to_be_bytes 8 (u / period p))) (Z.to_nat (digits p)))
      as (c & Hc & Hl & Hf); [rewrite Hlen; destruct (algorithm p); simpl; lia|done|lia|].
    rewrite Z2Nat.id in Hc by lia. exists c. split_and!; [done|lia|done]. }
  destruct (Hc t) as (c & Hct & Hl & Hf).
  exists c, (period p - t mod period p). pose proof (Z.mod_pos_bound t (period p)).
  split_and!; [|done|done|lia|lia|].
  - unfold code_at. by rewrite Hct.
  - intros u Hu. eexists. unfold code_at. rewrite (period_step t u) by lia. by rewrite Hct.
Qed.

(** ** What an issued link says *)

Lemma lenient_base32_encoded `{!Base32Ok} (s : list Z) :
  Forall byte s -> MIN_SECRET_BYTES <= Z.of_nat (length s) -> lenient_base32 (b32_encode s) = Some s.
Proof.
  intros Hb Hl. unfold lenient_base32. pose proof (b32_chars s) as Hc.
  assert (Hup : to_ascii_uppercase <$> filter (fun c => is_whitespace c = false /\ c <> 45 /\ c <> 61) (b32_encode s)
                = b32_encode s).
  { induction Hc as [|c l Hc _ IH]; [done|].
    assert (Hr : (65 <= c <= 90) \/ (48 <= c <= 57)).
    { apply orb_prop in Hc as [Hc|Hc]; unfold is_ascii_upper, is_ascii_digit in Hc; bools; lia. }
    rewrite filter_cons, decide_True.
    - rewrite fmap_cons, IH. f_equal. unfold to_ascii_uppercase, is_ascii_lower.
      rewrite (proj2 (andb_false_iff _ _)); [done|]. left. apply Z.leb_gt. lia.
    - split_and!; [|lia..]. apply not_whitespace. lia. }
  rewrite Hup. rewrite utf8_ascii.
  - rewrite (b32_reads_back s Hb), (proj2 (Z.leb_le _ _) Hl). done.
  - eapply Forall_impl; [exact Hc|]. intros c Hx. apply orb_prop in Hx as [Hx|Hx];
      unfold is_ascii_upper, is_ascii_digit in Hx; bools; lia.
Qed.

(** A name as it may stand in a link: nothing that ends a part of it. *)
Definition link_name (s : list Z) : Prop :=
  Forall (fun c => is_ascii_alphanumeric c = true \/ c = 45 \/ c = 46 \/ c = 95) s.

Lemma link_name_not_in c s :
  link_name s -> is_ascii_alphanumeric c = false -> c <> 45 -> c <> 46 -> c <> 95 -> c ∉ s.
Proof. intros Hs Hc Hd Hp Hu Hin. unfold link_name in Hs. rewrite Forall_forall in Hs. destruct (Hs c Hin) as [?|?]; [congruence|naive_solver]. Qed.

Lemma trim_ends (a b : Z) (s : list Z) :
  is_whitespace a = false -> is_whitespace b = false -> trim (a :: s ++ [b]) = a :: s ++ [b].
Proof.
  intros Ha Hb. unfold trim, trim_end_by. rewrite (trim_start_by_id _ (a :: _)) by (by intros c r [= <- _]).
  rewrite trim_start_by_id; [apply reverse_involutive|].
  intros c r Hr. rewrite app_comm_cons, reverse_app in Hr. by injection Hr as <- _.
Qed.

Local Ltac not_in :=
  match goal with |- ?c ∉ ?l => apply (bool_decide_eq_false_1 (c ∈ l)); vm_compute; reflexivity
  | |- ?c ∈ ?l -> False => apply (bool_decide_eq_false_1 (c ∈ l)); vm_compute; reflexivity end.

Lemma parse_pair_secret p v :
  parse_pair p (lit "secret=" ++ v)
  = (s ← lenient_base32 v; Some {| secret := s; algorithm := algorithm p; digits := digits p; period := period p |}).
Proof.
  unfold parse_pair. change (lit "secret=" ++ v) with (lit "secret" ++ 61 :: v).
  by rewrite split_once_app by not_in.
Qed.

Lemma parse_pair_issuer p v : parse_pair p (lit "issuer=" ++ v) = Some p.
Proof.
  unfold parse_pair. change (lit "issuer=" ++ v) with (lit "issuer" ++ 61 :: v).
  by rewrite split_once_app by not_in.
Qed.

(** Whoever scans the link an account is given makes the codes remotehub
    checks: read as the link of a service, it says the secret that is stored,
    HMAC-SHA1, six digits and thirty seconds, so that the code shown at any time
    is the one of that time's step. *)
Theorem uri_reads_back `{!Base32Ok} (issuer account s : list Z) :
  link_name issuer -> link_name account -> Forall byte s -> MIN_SECRET_BYTES <= Z.of_nat (length s) ->
  params_parse (uri issuer account (encode s)) = Some (default_params s)
  /\ forall t, fst <$> code_at (default_params s) t = code s (t / PERIOD).
Proof.
  intros Hi Ha Hb Hl. split.
  2: { intros t. unfold code_at, code. simpl. by destruct (digits_of _ _). }
  unfold params_parse.
  assert (Ht : trim (uri issuer account (encode s)) = uri issuer account (encode s)).
  { unfold uri. change (lit "otpauth://totp/") with (111 :: lit "tpauth://totp/").
    change (decimal PERIOD) with ([51] ++ [48]). rewrite <- app_comm_cons, !app_assoc. by apply trim_ends. }
  rewrite Ht. unfold uri. unfold strip_prefix_ignore_case.
  rewrite take_app_length, drop_app_length. unfold eq_ignore_ascii_case. rewrite bool_decide_true by done.
  rewrite app_assoc, app_assoc. change (lit "?secret=") with (63 :: lit "secret="). rewrite <- app_comm_cons.
  rewrite split_once_app.
  2: { rewrite !elem_of_app, list_elem_of_singleton. intros [[Hx|Hx]|Hx]; [|discriminate|];
         revert Hx; by apply link_name_not_in. }
  cbn [mbind option_bind snd].
  assert (Hup : forall c, c ∈ encode s -> 48 <= c <= 90).
  { intros c Hc. pose proof (b32_chars s) as Hf. rewrite Forall_forall in Hf. specialize (Hf c Hc).
    apply orb_prop in Hf as [Hf|Hf]; unfold is_ascii_upper, is_ascii_digit in Hf; bools; lia. }
  rewrite app_assoc. change (lit "&issuer=") with (38 :: lit "issuer="). rewrite <- app_comm_cons.
  rewrite split_app.
  2: { rewrite elem_of_app. intros [Hx|Hx]; [revert Hx; not_in|]. apply Hup in Hx. lia. }
  rewrite app_assoc. change (lit "&algorithm=SHA1&digits=" ++ decimal DIGITS ++ lit "&period=" ++ decimal PERIOD)
    with (38 :: lit "algorithm=SHA1&digits=6&period=30").
  rewrite split_app.
  2: { rewrite elem_of_app. intros [Hx|Hx]; [revert Hx; not_in|].
       revert Hx; by apply link_name_not_in. }
  change (split 38 (lit "algorithm=SHA1&digits=6&period=30")) with [lit "algorithm=SHA1"; lit "digits=6"; lit "period=30"].
  cbn [parse_pairs]. rewrite parse_pair_secret.
  unfold encode. rewrite (lenient_base32_encoded s Hb Hl). cbn [mbind option_bind]. rewrite parse_pair_issuer. cbn [mbind option_bind].
  change (parse_pair _ (lit "algorithm=SHA1")) with (Some (default_params s)). cbn [mbind option_bind].
  change (parse_pair _ (lit "digits=6")) with (Some (default_params s)). cbn [mbind option_bind].
  change (parse_pair _ (lit "period=30")) with (Some (default_params s)). cbn [mbind option_bind].
  rewrite bool_decide_false; [done|]. simpl. intros ->. unfold MIN_SECRET_BYTES in Hl. simpl in Hl. lia.
Qed.

End theorems.

(** ** Examples *)

Module TotpExamples.

(** A digest of the right length whatever is hashed, and hexadecimal-like base32
    that takes every byte as it is. *)
#[local] Instance counting : Hmac := fun a key message => (fun i => Z.of_nat i mod 256) <$> seq 0 (digest_len a).
#[local] Instance counting_ok : HmacOk.
Proof.
  intros a key message. split; [unfold hmac_of, counting; by rewrite length_fmap, length_seq|].
  apply Forall_fmap, Forall_forall. intros x _. apply Z.mod_pos_bound. lia.
Qed.
#[local] Instance plain_base32 : Base32 := {| b32_encode := fun l => l; b32_decode := fun l => Some l |}.

Lemma code_accepted_iff_witness :
  exists answer, step [] (lit "103314") 59 = Some answer
    /\ (is_Some answer <->
        exists s, 0 <= s /\ 59 / PERIOD - 1 <= s <= 59 / PERIOD + 1 /\ code [] s = Some (lit "103314"))
    /\ (forall s, answer = Some s ->
        0 <= s /\ 59 / PERIOD - 1 <= s <= 59 / PERIOD + 1 /\ code [] s = Some (lit "103314")).
Proof.
  apply (code_accepted_iff [] (lit "103314") 59); [discriminate|].
  repeat (constructor; [reflexivity|]). constructor.
Defined.

Definition link : list Z := lit "otpauth://totp/x?secret=abcdefghij&digits=8&period=60".

Definition linked : Params :=
  {| secret := lit "ABCDEFGHIJ"; algorithm := Sha1; digits := 8; period := 60 |}.

Lemma link_parsed : params_parse link = Some linked.
Proof. vm_compute. reflexivity. Qed.

Lemma codes_hold_as_said_witness :
  exists c left, code_at linked 95 = Some (c, left)
    /\ Z.of_nat (length c) = digits linked /\ Forall (fun c => is_ascii_digit c = true) c
    /\ 1 <= left <= period linked
    /\ forall u, 95 <= u < 95 + left -> exists l, code_at linked u = Some (c, l).
Proof. exact (codes_hold_as_said link linked 95 link_parsed). Defined.

(** Two letters a byte. *)
Fixpoint letters_decode (l : list Z) : option (list Z) :=
  match l with
  | [] => Some []
  | a :: b :: l => cons ((a - 65) * 16 + (b - 65)) <$> letters_decode l
  | _ => None
  end.

Definition letters : Base32 :=
  {| b32_encode := fun l => l ≫= fun b => [65 + b / 16 mod 16; 65 + b mod 16]; b32_decode := letters_decode |}.

Lemma letters_ok : @Base32Ok letters.
Proof.
  split.
  - intros s Hs. induction Hs as [|b l Hb _ IH]; [done|]. change (cons ((65 + b / 16 mod 16 - 65) * 16 + (65 + b mod 16 - 65)) <$> letters_decode (@b32_encode letters l) = Some (b :: l)).
    change (letters_decode (@b32_encode letters l) = Some l) in IH. rewrite IH. simpl. do 2 f_equal.
    unfold byte in Hb. rewrite (Z.mod_small (b / 16)) by (split; [apply Z.div_pos; lia|apply Z.div_lt_upper_bound; lia]).
    pose proof (Z.div_mod b 16). lia.
  - intros s. induction s as [|b l IH]; [constructor|]. simpl. pose proof (Z.mod_pos_bound b 16).
    pose proof (Z.mod_pos_bound (b / 16) 16). unfold is_ascii_upper.
    repeat constructor; try exact IH; apply orb_true_iff; left; apply andb_true_iff; rewrite !Z.leb_le; lia.
Qed.

Lemma uri_reads_back_witness :
  @params_parse letters (uri (lit "remotehub") (lit "alice") (@encode letters (repeat 7 20))) = Some (default_params (repeat 7 20)).
Proof.
  apply (@uri_reads_back counting letters letters_ok (lit "remotehub") (lit "alice") (repeat 7 20)).
  - unfold link_name. repeat (constructor; [left; reflexivity|]). constructor.
  - unfold link_name. repeat (constructor; [left; reflexivity|]). constructor.
  - apply Forall_forall. intros x Hx. apply list_elem_of_In, repeat_spec in Hx. subst. split; lia.
  - vm_compute. discriminate.
Defined.

End TotpExamples.
