(* ===== verification/Grants.v ===== *)
(** * Grants (crates/server/src/principal.rs, crates/server/src/api/catalog.rs)

    Whom a grant names, and the handlers that list, add and remove grants.
    The table keeps an entry per grant: the columns the catalog is loaded
    from ([AccessRequests.GrantRow]) and those shown with it. As in
    [Folders], a handler decides by the tables as it read them ([seen]) and
    changes them in a transaction ([db]). *)
From S2P Require Import Prelude Text Sid Model Session AccessRequests Store Folders.

(** ** Principals *)

Inductive PrincipalId :=
| Directory (sid : list Z)
| Local (id : Uuid)
| Group (id : Uuid).

#[export] Instance principal_id_eq_dec : EqDecision PrincipalId.
Proof. solve_decision. Defined.

(** RFC 3339 as the crate [time] reads and writes it, in nanoseconds, and
    what the database makes of the text, in microseconds. *)
Class Rfc3339 := {
  rfc3339_parse : list Z -> option Z;
  rfc3339_format : Z -> option (list Z);
  timestamptz : list Z -> option Z
}.

Section principals.
Context `{UuidText} `{UuidParse}.

Definition principal_from_str (s : str) : option PrincipalId :=
  match strip_prefix (lit "local:") s with
  | Some id => Local <$> uuid_parse id
  | None =>
      match strip_prefix (lit "group:") s with
      | Some id => Group <$> uuid_parse id
      | None => Directory <$> sid_from_str s
      end
  end.

Definition principal_text (p : PrincipalId) : list Z :=
  match p with
  | Directory sid => sid
  | Local id => lit "local:" ++ uuid_text id
  | Group id => lit "group:" ++ uuid_text id
  end.

End principals.

(** ** The tables *)

Record GrantEntry := {
  g_id : Uuid;
  g_row : GrantRow;
  g_kind : list Z;
  g_name : list Z;
  g_created_by : option Uuid
}.

Inductive GrantAction := GrantAdded | GrantRemoved.

Record GrantLog := { gl_actor : Uuid; gl_action : GrantAction; gl_object : ObjectId }.

Record GrantTables := {
  gt_objects : Objects;
  gt_grants : list GrantEntry;
  (** the identities of local accounts, and the groups *)
  gt_locals : gset Uuid;
  gt_groups : gset Uuid;
  gt_log : list GrantLog
}.

Definition grant_catalog (t : GrantTables) (now : Z) : Catalog :=
  load (gt_objects t) (g_row <$> gt_grants t) now.

Definition with_entries (f : list GrantEntry -> list GrantEntry) (t : GrantTables) : GrantTables :=
  {| gt_objects := gt_objects t; gt_grants := f (gt_grants t); gt_locals := gt_locals t;
     gt_groups := gt_groups t; gt_log := gt_log t |}.

Definition log_grant (s : Session) (a : GrantAction) (o : ObjectId) (t : GrantTables) : GrantTables :=
  {| gt_objects := gt_objects t; gt_grants := gt_grants t; gt_locals := gt_locals t;
     gt_groups := gt_groups t;
     gt_log := gt_log t ++ [{| gl_actor := user_id s; gl_action := a; gl_object := o |}] |}.

(** Whether the kind fits and, for a principal of remotehub's own, whether it
    exists. *)
Definition principal_check (locals groups : gset Uuid) (kind : str) (p : PrincipalId) : bool :=
  match p with
  | Directory _ => bool_decide (kind = lit "user") || bool_decide (kind = lit "group")
  | Local id => bool_decide (kind = lit "user") && bool_decide (id ∈ locals)
  | Group id => bool_decide (kind = lit "group") && bool_decide (id ∈ groups)
  end.

Definition object (kind : str) (id : Uuid) : result ObjectId ApiProblem :=
  if bool_decide (kind = lit "folder") then Ok (Folder id)
  else if bool_decide (kind = lit "device") then Ok (Device id)
  else if bool_decide (kind = lit "credential") then Ok (Credential id)
  else if bool_decide (kind = lit "collection") then Ok (Collection id)
  else Err (AP_Invalid "kind").

Definition row_object (r : GrantRow) : option ObjectId :=
  grant_object (gr_folder r) (gr_device r) (gr_credential r) (gr_collection r).

(** ** Listing *)

(** The [while] loop of [list_grants]; [fuel] bounds the iterations as in
    [Model.path]. *)
Fixpoint above_loop (c : Catalog) (fuel : nat) (found : list ObjectId) (next : option ObjectId) :
    list ObjectId :=
  match fuel, next with
  | S fuel, Some x =>
      if bool_decide (x ∈ found) then found
      else above_loop c fuel (found ++ [x]) (container c x)
  | _, _ => found
  end.

Definition containers_above (c : Catalog) (target : ObjectId) : list ObjectId :=
  above_loop c (path_fuel c) [] (container c target).

(** The [WHERE] clause of [list_grants], with [$1] and [$2]. *)
Definition in_net (ids : list Uuid) (id : Uuid) (now : Z) (r : GrantRow) : bool :=
  (is_some_and (fun f => bool_decide (f ∈ ids)) (gr_folder r)
   || is_some_and (fun f => bool_decide (f ∈ ids)) (gr_collection r)
   || bool_decide (gr_folder r = Some id) || bool_decide (gr_device r = Some id)
   || bool_decide (gr_credential r = Some id) || bool_decide (gr_collection r = Some id))
  && match gr_expires_at r with None => true | Some e => now <? e end.

(** The rows come in the order of the table; the query sorts them by name. *)
Definition list_grants (s : Session) (now : Z) (kind : str) (id : Uuid) (t : GrantTables)
    `{UuidText} : result (list GrantEntry * list GrantEntry) ApiProblem :=
  let? target := object kind id in
  let c := grant_catalog t now in
  let? _ := require c (subject s) Role_Manage target in
  let above := containers_above c target in
  let rows := filter (fun e => in_net (object_uuid <$> above) id now (g_row e) = true) (gt_grants t) in
  let sorted := omap (fun e => match row_object (g_row e) with
                               | Some on => if bool_decide (on = target) || bool_decide (on ∈ above)
                                            then Some (bool_decide (on = target), e) else None
                               | None => None
                               end) rows in
  Ok (snd <$> filter (fun p => p.1 = true) sorted, snd <$> filter (fun p => p.1 = false) sorted).

(** ** Adding *)

Record NewGrant := {
  ng_object_kind : list Z;
  ng_object_id : Uuid;
  ng_principal_kind : list Z;
  ng_principal_sid : list Z;
  ng_principal_name : list Z;
  ng_role : list Z;
  ng_expires_at : option (list Z)
}.

(** The end as the database stores it. [clock] is the server's time, in
    nanoseconds. *)
Definition check_end `{Rfc3339} (clock : Z) (text : option (list Z)) :
    result (option (list Z)) ApiProblem :=
  match text with
  | None => Ok None
  | Some text =>
      match rfc3339_parse text with
      | Some at_ => if clock <? at_
                    then match rfc3339_format at_ with
                         | Some text => Ok (Some text)
                         | None => Err (AP_Invalid "expires_at")
                         end
                    else Err (AP_Invalid "expires_at")
      | None => Err (AP_Invalid "expires_at")
      end
  end.

(** The key of the unique index [grants_permanent]. *)
Definition same_grant (r r' : GrantRow) : bool :=
  bool_decide (gr_folder r = gr_folder r') && bool_decide (gr_device r = gr_device r')
  && bool_decide (gr_credential r = gr_credential r') && bool_decide (gr_collection r = gr_collection r')
  && bool_decide (gr_principal_sid r = gr_principal_sid r').

(** Two grants that cannot both be: without an end, on the same object, for
    the same principal. *)
Definition conflicts (r r' : GrantRow) : bool :=
  bool_decide (gr_expires_at r = None) && bool_decide (gr_expires_at r' = None) && same_grant r r'.

(** [DO UPDATE SET role, principal_name]. *)
Definition replace_role (new e : GrantEntry) : GrantEntry :=
  {| g_id := g_id e;
     g_row := {| gr_folder := gr_folder (g_row e); gr_device := gr_device (g_row e);
                 gr_credential := gr_credential (g_row e); gr_collection := gr_collection (g_row e);
                 gr_principal_sid := gr_principal_sid (g_row e); gr_role := gr_role (g_row new);
                 gr_expires_at := gr_expires_at (g_row e); gr_request_id := gr_request_id (g_row e) |};
     g_kind := g_kind e; g_name := g_name new; g_created_by := g_created_by e |}.

(** Whether the object a grant points to has a row, as its reference requires. *)
Definition object_known (t : GrantTables) (o : ObjectId) : bool :=
  contains (catalog_new (gt_objects t) [] 0) o.

Definition insert_grant (new : GrantEntry) (target : ObjectId) (t : GrantTables) :
    result GrantTables ApiProblem :=
  if existsb (fun e => conflicts (g_row new) (g_row e)) (gt_grants t)
  then Ok (with_entries (fmap (fun e => if conflicts (g_row new) (g_row e)
                                        then replace_role new e else e)) t)
  else if object_known t target then Ok (with_entries (fun es => es ++ [new]) t)
  else Err AP_Internal.

Section handlers.
Context `{UuidText} `{UuidParse} `{Rfc3339}.

(** The entry [add_grant] inserts. *)
Definition new_entry (s : Session) (new_id : Uuid) (target : ObjectId) (kind sid name : list Z)
    (r : Role) (expires : option Z) : option GrantEntry :=
  match grant_columns target with
  | Some [folder; device; credential; collection] =>
      Some {| g_id := new_id;
              g_row := {| gr_folder := folder; gr_device := device; gr_credential := credential;
                          gr_collection := collection; gr_principal_sid := sid;
                          gr_role := role_as_str r; gr_expires_at := expires;
                          gr_request_id := None |};
              g_kind := kind; g_name := name; g_created_by := Some (user_id s) |}
  | _ => None
  end.

Definition add_grant (s : Session) (now clock : Z) (new_id : Uuid) (input : NewGrant)
    (seen db : GrantTables) : result GrantTables ApiProblem :=
  let? target := object (ng_object_kind input) (ng_object_id input) in
  let? r := ok_or (role_parse (ng_role input)) (AP_Invalid "role") in
  let? _ := if bool_decide (ng_principal_kind input = lit "user")
               || bool_decide (ng_principal_kind input = lit "group")
            then Ok tt else Err (AP_Invalid "principal_kind") in
  let? sid := ok_or (principal_from_str (ng_principal_sid input)) (AP_Invalid "principal_sid") in
  let? name := check_name (ng_principal_name input) "principal_name" in
  let? expires := check_end clock (ng_expires_at input) in
  let? _ := require (grant_catalog seen now) (subject s) Role_Manage target in
  let? _ := if principal_check (gt_locals seen) (gt_groups seen) (ng_principal_kind input) sid
            then Ok tt else Err (AP_Invalid "principal_sid") in
  (* $9::timestamptz *)
  let? expires := match expires with
                  | None => Ok None
                  | Some text => ok_or (Some <$> timestamptz text) AP_Internal
                  end in
  let? new := ok_or (new_entry s new_id target (ng_principal_kind input) (principal_text sid) name r
                       expires) (AP_Invalid "kind") in
  let? db := insert_grant new target db in
  Ok (log_grant s GrantAdded target db).

(** ** Removing *)

Definition remove_grant (s : Session) (now : Z) (id : Uuid) (seen db : GrantTables) :
    result GrantTables ApiProblem :=
  let? row := ok_or (List.find (fun e => g_id e =? id) (gt_grants seen)) AP_NotFound in
  let? target := ok_or (row_object (g_row row)) AP_Internal in
  let? _ := require (grant_catalog seen now) (subject s) Role_Manage target in
  let db := with_entries (filter (fun e => g_id e <> id)) db in
  Ok (log_grant s GrantRemoved target db).

(** ** Searching *)

(** Who may look for principals: anyone who may manage something. *)
Definition manages_something (s : Session) (now : Z) (t : GrantTables) : bool :=
  let c := grant_catalog t now in
  admin (subject s)
  || existsb (fun or_ => bool_decide (or_.2 = Role_Manage))
       (map_to_list (Model.roles (visible c (subject s)))).

End handlers.

(** ** Rows and rights *)

(** [r] gives [sub] at least [needed] on [o], at the time [now]. *)
Definition row_counts (c : Catalog) (now : Z) (sub : Subject) (needed : Role) (o : ObjectId)
    (r : GrantRow) : Prop :=
  exists g, grant_of_row r = Some g /\ counts c (epoch now) sub needed o g.

Lemma authorize_rows objects rows now sub needed o :
  authorize (load objects rows now) sub needed o = true <->
  contains (load objects rows now) o = true
  /\ (admin sub = true
      \/ exists r, r ∈ rows /\ row_counts (load objects rows now) now sub needed o r).
Proof.
  unfold load at 1. rewrite authorize_new. unfold row_counts.
  setoid_rewrite list_elem_of_omap. unfold load. naive_solver.
Qed.

(** The trees of a catalog do not depend on the grants. *)
Lemma contains_load objects rows rows' now now' o :
  contains (load objects rows now) o = contains (load objects rows' now') o.
Proof. apply contains_new. Qed.

Lemma counts_rows objects rows rows' now now' x sub needed o g :
  counts (load objects rows now) x sub needed o g <-> counts (load objects rows' now') x sub needed o g.
Proof.
  unfold counts, load. split; intros (? & ? & ? & ?); split_and!; try done; by eapply rtc_above_new.
Qed.

(** Rows that give the same grants decide the same. *)
Lemma authorize_same_grants objects rows rows' now sub needed o :
  (forall g, (exists r, r ∈ rows /\ grant_of_row r = Some g) <->
             (exists r, r ∈ rows' /\ grant_of_row r = Some g)) ->
  authorize (load objects rows now) sub needed o = true <->
  authorize (load objects rows' now) sub needed o = true.
Proof.
  intros Hg. rewrite !authorize_rows. unfold row_counts.
  rewrite (contains_load objects rows rows' now now).
  setoid_rewrite (counts_rows objects rows rows' now now). 
  split; intros [Hc [Ha|(r & Hr & g & Hgr & Hct)]]; (split; [done|]); [by left| |by left|]; right;
    (destruct (Hg g) as [H1 H2]; [..]); [destruct H1 as (r' & ? & ?)|destruct H2 as (r' & ? & ?)]; eauto.
Qed.

(** Rows that do not lie above an object do not matter for it. *)
Lemma authorize_elsewhere objects rows rows' now sub needed o :
  (forall r, r ∈ rows -> r ∈ rows' \/
     forall on, row_object r = Some on -> ~ rtc (above (load objects rows' now)) o on) ->
  authorize (load objects rows now) sub needed o = true ->
  authorize (load objects rows' now) sub needed o = true.
Proof.
  intros Hout. rewrite !authorize_rows.
  rewrite (contains_load objects rows rows' now now).
  intros [Hc [Ha|(r & Hr & g & Hgr & Hct)]]; (split; [done|]); [by left|right].
  rewrite (counts_rows objects rows rows' now now) in Hct.
  destruct (Hout r Hr) as [Hin|Hno]; [by exists r; split; [|exists g]|]. exfalso.
  unfold grant_of_row in Hgr. fold (row_object r) in Hgr.
  destruct (row_object r) as [on|]; [|done]. destruct (role_parse _) as [k|]; [|done].
  simplify_eq. destruct Hct as (_ & _ & _ & Hon). by apply (Hno on).
Qed.

(** A row with the columns of an object names it, and no other row does. *)
Lemma row_object_columns r o f d c k :
  grant_columns o = Some [f; d; c; k] ->
  row_object r = Some o <->
  gr_folder r = f /\ gr_device r = d /\ gr_credential r = c /\ gr_collection r = k.
Proof.
  unfold row_object. destruct o; intros [= <- <- <- <-] || discriminate;
    destruct (gr_folder r), (gr_device r), (gr_credential r), (gr_collection r); simpl; naive_solver.
Qed.

Lemma object_columns kind id o :
  object kind id = Ok o -> exists f d c k, grant_columns o = Some [f; d; c; k].
Proof. unfold object. repeat case_bool_decide; intros [= <-]; simpl; eauto. Qed.

Lemma conflicts_iff r r' :
  conflicts r r' = true <->
  gr_expires_at r = None /\ gr_expires_at r' = None
  /\ gr_folder r = gr_folder r' /\ gr_device r = gr_device r'
  /\ gr_credential r = gr_credential r' /\ gr_collection r = gr_collection r'
  /\ gr_principal_sid r = gr_principal_sid r'.
Proof.
  unfold conflicts, same_grant. rewrite !andb_true_iff, !bool_decide_eq_true. naive_solver.
Qed.

(** A replaced entry gives what the new one would. *)
Lemma replace_role_grant new e :
  conflicts (g_row new) (g_row e) = true ->
  grant_of_row (g_row (replace_role new e)) = grant_of_row (g_row new).
Proof.
  intros (E1 & E2 & E3 & E4 & E5 & E6 & E7)%conflicts_iff. unfold grant_of_row. simpl.
  by rewrite E1, E2, E3, E4, E5, E6, E7.
Qed.

(** What inserting an entry leaves: the grants it does not replace, and it. *)
Lemma insert_grant_rows new target t t' g :
  insert_grant new target t = Ok t' ->
  (exists r, r ∈ g_row <$> gt_grants t' /\ grant_of_row r = Some g) <->
  (exists r, r ∈ filter (fun r => conflicts (g_row new) r = false) (g_row <$> gt_grants t)
                 ++ [g_row new] /\ grant_of_row r = Some g).
Proof.
  unfold insert_grant. intros Hi.
  setoid_rewrite elem_of_app. setoid_rewrite list_elem_of_singleton.
  setoid_rewrite list_elem_of_filter. setoid_rewrite list_elem_of_fmap.
  destruct (existsb _ _) eqn:Hc.
  - simplify_eq. simpl. setoid_rewrite list_elem_of_fmap. split.
    + intros (r & (e' & -> & e & -> & He) & Hg). destruct (conflicts (g_row new) (g_row e)) eqn:Hce.
      * rewrite replace_role_grant in Hg by done. eauto.
      * eexists. split; [left; eauto|done].
    + apply existsb_exists in Hc as (e0 & He0%list_elem_of_In & Hce0).
      intros (r & [(Hno & e & -> & He)| ->] & Hg).
      * exists (g_row e). split; [|done]. exists e. split; [done|]. exists e. by rewrite Hno.
      * exists (g_row (replace_role new e0)). rewrite replace_role_grant by done. split; [|done].
        exists (replace_role new e0). split; [done|]. exists e0. by rewrite Hce0.
  - destruct (object_known t target); [|done]. simplify_eq. simpl.
    setoid_rewrite elem_of_app. setoid_rewrite list_elem_of_singleton. split.
    + intros (r & (e & -> & [He| ->]) & Hg); [|eauto].
      exists (g_row e). split; [left; split; [|eauto]|done].
      exact (existsb_false _ _ e Hc He).
    + intros (r & [(_ & e & -> & He)| ->] & Hg); eauto 10.
Qed.

Lemma insert_grant_objects new target t t' :
  insert_grant new target t = Ok t' -> gt_objects t' = gt_objects t.
Proof. unfold insert_grant. repeat case_match; intros; by simplify_eq. Qed.

(** ** Who changes grants, and what it changes *)

Section theorems.
Context `{UuidText} `{UuidParse} `{Rfc3339}.

Lemma new_entry_row s new_id target kind sid name r expires new :
  new_entry s new_id target kind sid name r expires = Some new ->
  row_object (g_row new) = Some target
  /\ grant_of_row (g_row new) = Some {| Model.object := target; Model.principal := sid;
                                        Model.role := r; Model.until := epoch <$> expires |}
  /\ gr_expires_at (g_row new) = expires /\ gr_principal_sid (g_row new) = sid
  /\ gr_request_id (g_row new) = None /\ g_kind new = kind /\ g_id new = new_id.
Proof.
  unfold new_entry, grant_of_row. destruct target; simpl; intros [= <-]; simpl;
    by destruct r.
Qed.

(** The end a grant was asked for, in the server's future, as the database
    reads it. *)
Definition end_of (clock : Z) (text : option (list Z)) (expires : option Z) : Prop :=
  match text with
  | None => expires = None
  | Some text =>
      exists at_ text' e, rfc3339_parse text = Some at_ /\ clock < at_
        /\ rfc3339_format at_ = Some text' /\ timestamptz text' = Some e /\ expires = Some e
  end.

(** The entry of a grant that went through. *)
Lemma add_grant_ok s now clock new_id input seen db db' :
  add_grant s now clock new_id input seen db = Ok db' ->
  exists target r p expires new t,
    object (ng_object_kind input) (ng_object_id input) = Ok target
    /\ role_parse (ng_role input) = Some r
    /\ principal_from_str (ng_principal_sid input) = Some p
    /\ authorize (grant_catalog seen now) (subject s) Role_Manage target = true
    /\ principal_check (gt_locals seen) (gt_groups seen) (ng_principal_kind input) p = true
    /\ end_of clock (ng_expires_at input) expires
    /\ (ng_principal_kind input = lit "user" \/ ng_principal_kind input = lit "group")
    /\ (exists name, new_entry s new_id target (ng_principal_kind input) (principal_text p) name r expires
                     = Some new)
    /\ insert_grant new target db = Ok t /\ db' = log_grant s GrantAdded target t.
Proof.
  unfold add_grant. intros Hadd. inv_ok Hadd. subst db'.
  repeat match goal with
  | E : ok_or ?o _ = Ok _ |- _ => destruct o eqn:?; simpl in E; [injection E as ->|discriminate E]
  | E : require _ _ _ _ = Ok _ |- _ => apply require_ok in E
  end.
  do 6 eexists. split_and!; try done.
  - by destruct (principal_check _ _ _ _).
  - unfold check_end, end_of in *. repeat (case_match; simplify_eq; try done). bools.
    destruct (timestamptz _) eqn:?; simplify_eq/=; eauto 10.
  - match goal with E : (if _ then Ok tt else Err (AP_Invalid "principal_kind")) = _ |- _ =>
      destruct (bool_decide _ || _) eqn:Hk in E; [|done];
      apply orb_true_iff in Hk; rewrite !bool_decide_eq_true in Hk; exact Hk end.
  - eauto.
Qed.

(** The grants that stay beside a new one: all but the one without an end for
    the same principal on the same object, when the new one has no end either. *)
Definition kept_beside (target : ObjectId) (sid : list Z) (expires : option Z) (t : GrantTables) :
    list GrantRow :=
  filter (fun r => ~ (expires = None /\ gr_expires_at r = None /\ row_object r = Some target
                      /\ gr_principal_sid r = sid))
    (g_row <$> gt_grants t).

Lemma kept_beside_conflicts s new_id target kind sid name r expires new t :
  new_entry s new_id target kind sid name r expires = Some new ->
  filter (fun r => conflicts (g_row new) r = false) (g_row <$> gt_grants t)
  = kept_beside target sid expires t.
Proof.
  intros Hnew. unfold kept_beside. apply list_filter_iff. intros row.
  rewrite <- not_true_iff_false, conflicts_iff. apply not_iff_compat.
  apply new_entry_row in Hnew as (Ho & _ & -> & -> & _).
  assert (row_object row = Some target <->
          gr_folder (g_row new) = gr_folder row /\ gr_device (g_row new) = gr_device row
          /\ gr_credential (g_row new) = gr_credential row
          /\ gr_collection (g_row new) = gr_collection row) as ->; [|naive_solver].
  unfold row_object, grant_object in *. split.
  - intros Hr. repeat (case_match; simplify_eq); done.
  - intros (<- & <- & <- & <-). done.
Qed.

(** C10: Adding a grant gives exactly what was asked for. It goes through only
    for someone who manages the object, for a principal that exists, until an
    end in the future; and afterwards, at any time, someone holds a role on an
    object if the grants kept beside the new one give it, or if the new grant
    names them, has not ended, gives at least that role, and the object is the
    grant's or lies within it. *)
Theorem added_grant_gives_exactly (s : Session) (now clock : Z) (new_id : Uuid) (input : NewGrant)
    (seen db db' : GrantTables) :
  add_grant s now clock new_id input seen db = Ok db' ->
  exists target r p expires,
    object (ng_object_kind input) (ng_object_id input) = Ok target
    /\ role_parse (ng_role input) = Some r
    /\ principal_from_str (ng_principal_sid input) = Some p
    /\ end_of clock (ng_expires_at input) expires
    /\ authorize (grant_catalog seen now) (subject s) Role_Manage target = true
    /\ principal_check (gt_locals seen) (gt_groups seen) (ng_principal_kind input) p = true
    /\ forall x sub needed o,
         let kept := load (gt_objects db) (kept_beside target (principal_text p) expires db) x in
         authorize (grant_catalog db' x) sub needed o = true <->
         authorize kept sub needed o = true
         \/ (contains kept o = true
             /\ (forall e, expires = Some e -> epoch x < epoch e)
             /\ principal_text p ∈ sids sub /\ role_rank needed <= role_rank r
             /\ rtc (above kept) o target).
Proof.
  intros (target & r & p & expires & new & t & Ho & Hr & Hp & Hm & Hc & He & _ & [name Hnew] & Hi & ->)
    %add_grant_ok.
  exists target, r, p, expires. split_and!; try done. intros x sub needed o kept.
  unfold grant_catalog. simpl. rewrite (insert_grant_objects _ _ _ _ Hi).
  rewrite (authorize_same_grants _ _ _ x sub needed o (fun g => insert_grant_rows _ _ _ _ g Hi)).
  rewrite authorize_load_snoc, (kept_beside_conflicts _ _ _ _ _ _ _ _ _ db Hnew). fold kept.
  apply or_iff_compat_l, and_iff_compat_l.
  destruct (new_entry_row _ _ _ _ _ _ _ _ _ Hnew) as (_ & -> & _). split.
  - intros (g & [= <-] & Hro & Hsid & Hn & Hon). simpl in *. split_and!; try done.
    intros e ->. by apply (proj1 (ran_out_false _ _) Hro).
  - intros (Hend & Hsid & Hn & Hon). eexists. split; [done|]. split_and!; try done.
    apply ran_out_false. simpl. intros u (e & -> & ->)%fmap_Some. by apply Hend.
Qed.

Lemma remove_grant_ok s now id seen db db' :
  remove_grant s now id seen db = Ok db' ->
  exists e target, e ∈ gt_grants seen /\ g_id e = id /\ row_object (g_row e) = Some target
    /\ authorize (grant_catalog seen now) (subject s) Role_Manage target = true
    /\ gt_grants db' = filter (fun e => g_id e <> id) (gt_grants db)
    /\ gt_objects db' = gt_objects db.
Proof.
  unfold remove_grant. intros Hrm. inv_ok Hrm. subst db'.
  repeat match goal with
  | E : ok_or ?o _ = Ok _ |- _ => destruct o eqn:?; simpl in E; [injection E as ->|discriminate E]
  | E : require _ _ _ _ = Ok _ |- _ => apply require_ok in E
  end.
  match goal with Hf : List.find _ _ = Some _ |- _ => apply find_some in Hf as [Hin Hid] end.
  bools. apply list_elem_of_In in Hin. eauto 10.
Qed.

(** The same grant is on the same object whenever it is read. *)
Definition objects_stay (seen db : GrantTables) : Prop :=
  forall e e', e ∈ gt_grants seen -> e' ∈ gt_grants db -> g_id e = g_id e' ->
  row_object (g_row e) = row_object (g_row e').

Lemma objects_stay_refl t : NoDup (g_id <$> gt_grants t) -> objects_stay t t.
Proof. intros Hnd e e' He He' Hid. by rewrite (NoDup_fmap_eq g_id _ e e' Hnd He He' Hid). Qed.

(** Adding or removing a grant takes the right to manage its object, and
    changes nobody's rights outside that object: what lies elsewhere is
    authorized as before, for everyone and at any time. *)
Theorem grants_reach_only_below (s : Session) (now clock : Z) (id : Uuid) (input : NewGrant)
    (seen db db' : GrantTables) :
  add_grant s now clock id input seen db = Ok db'
  \/ (objects_stay seen db /\ remove_grant s now id seen db = Ok db') ->
  exists target,
    authorize (grant_catalog seen now) (subject s) Role_Manage target = true
    /\ forall x sub needed o,
         ~ rtc (above (grant_catalog db x)) o target ->
         authorize (grant_catalog db' x) sub needed o = authorize (grant_catalog db x) sub needed o.
Proof.
  intros [Hadd|[Hstay Hrm]].
  - apply add_grant_ok in Hadd
      as (target & r & p & expires & new & t & _ & _ & _ & Hm & _ & _ & _ & [name Hnew] & Hi & ->).
    exists target. split; [done|]. intros x sub needed o Hout. apply eq_true_iff_eq.
    unfold grant_catalog in *. simpl. rewrite (insert_grant_objects _ _ _ _ Hi).
    rewrite (authorize_same_grants _ _ _ x sub needed o (fun g => insert_grant_rows _ _ _ _ g Hi)).
    rewrite (kept_beside_conflicts _ _ _ _ _ _ _ _ _ db Hnew).
    destruct (new_entry_row _ _ _ _ _ _ _ _ _ Hnew) as (Hon & _).
    split; apply authorize_elsewhere; intros row.
    + intros [Hrow| ->%list_elem_of_singleton]%elem_of_app.
      * left. by apply list_elem_of_filter in Hrow as [_ ?].
      * right. intros on. rewrite Hon. by intros [= <-].
    + intros Hrow. destruct (decide (row_object row = Some target)) as [Hro|Hne].
      * right. intros on. rewrite Hro. intros [= <-] Hab. apply Hout. by eapply rtc_above_new.
      * left. apply elem_of_app. left. apply list_elem_of_filter. split; [|done]. naive_solver.
  - apply remove_grant_ok in Hrm as (e & target & He & Hid & Hon & Hm & Hg & Ho).
    exists target. split; [done|]. intros x sub needed o Hout. apply eq_true_iff_eq.
    unfold grant_catalog in *. rewrite Ho, Hg. split; apply authorize_elsewhere; intros row.
    + intros (e' & -> & [_ He']%list_elem_of_filter)%list_elem_of_fmap. left.
      apply list_elem_of_fmap. eauto.
    + intros (e' & -> & He')%list_elem_of_fmap. destruct (decide (g_id e' = id)) as [Hi|Hi].
      * right. intros on. rewrite <- (Hstay e e') by congruence. rewrite Hon. intros [= <-] Hab.
        apply Hout. by eapply rtc_above_new.
      * left. apply list_elem_of_fmap. exists e'. split; [done|]. by apply list_elem_of_filter.
Qed.

(** ** The table stays in order *)

Definition entry_ok (t : GrantTables) (e : GrantEntry) : Prop :=
  (exists o, row_object (g_row e) = Some o /\ object_known t o = true)
  /\ is_Some (role_parse (gr_role (g_row e)))
  /\ (g_kind e = lit "user" \/ g_kind e = lit "group").

(** Every entry names one object, which exists, and a role; ids are unique,
    and there is one grant without an end for a principal on an object. *)
Definition entries_ok (t : GrantTables) : Prop :=
  (forall e, e ∈ gt_grants t -> entry_ok t e)
  /\ NoDup (g_id <$> gt_grants t)
  /\ (forall e e', e ∈ gt_grants t -> e' ∈ gt_grants t ->
        conflicts (g_row e) (g_row e') = true -> g_id e = g_id e').

(** What happens to the table: the two handlers, the grants of approvals
    (which end, see [AccessRequests]), and whatever deletes grants or objects,
    which deletes the grants on an object with it. *)
Inductive grant_step : GrantTables -> GrantTables -> Prop :=
| gs_add s now clock id input seen t t' :
    id ∉ g_id <$> gt_grants t -> add_grant s now clock id input seen t = Ok t' -> grant_step t t'
| gs_remove s now id seen t t' :
    remove_grant s now id seen t = Ok t' -> grant_step t t'
| gs_approve e o t :
    g_id e ∉ g_id <$> gt_grants t -> is_Some (gr_expires_at (g_row e)) ->
    row_object (g_row e) = Some o -> object_known t o = true ->
    is_Some (role_parse (gr_role (g_row e))) -> g_kind e = lit "user" ->
    grant_step t (with_entries (fun es => es ++ [e]) t)
| gs_other t t' :
    sublist (gt_grants t') (gt_grants t) ->
    (forall e o, e ∈ gt_grants t' -> row_object (g_row e) = Some o -> object_known t' o = true) ->
    grant_step t t'.

Lemma entries_ok_sublist t t' :
  entries_ok t -> sublist (gt_grants t') (gt_grants t) ->
  (forall e o, e ∈ gt_grants t' -> row_object (g_row e) = Some o -> object_known t' o = true) ->
  entries_ok t'.
Proof.
  intros (He & Hnd & Hc) Hsub Hk. assert (Hin := sublist_subseteq _ _ Hsub). split_and!.
  - intros e Hin'. destruct (He e (Hin e Hin')) as ((o & Ho & _) & ? & ?). split_and!; eauto.
  - eapply sublist_NoDup; [exact Hnd|by apply fmap_sublist].
  - intros e e' ? ?. apply Hc; by apply Hin.
Qed.

Lemma conflicts_sym r r' : conflicts r r' = conflicts r' r.
Proof. apply eq_true_iff_eq. rewrite !conflicts_iff. naive_solver. Qed.

Lemma entries_ok_push t e :
  entries_ok t -> g_id e ∉ g_id <$> gt_grants t -> entry_ok t e ->
  (forall e', e' ∈ gt_grants t -> conflicts (g_row e) (g_row e') = false) ->
  entries_ok (with_entries (fun es => es ++ [e]) t).
Proof.
  intros (He & Hnd & Hc) Hid Hok Hno. split_and!; simpl.
  - intros e' [Hin| ->%list_elem_of_singleton]%elem_of_app; [by apply He|done].
  - rewrite fmap_app. apply NoDup_app. split_and!; [done| |apply NoDup_singleton].
    intros j Hj ->%list_elem_of_singleton. done.
  - intros e1 e2 [Hi1| ->%list_elem_of_singleton]%elem_of_app [Hi2| ->%list_elem_of_singleton]%elem_of_app Hcf;
      [by apply Hc| | |done]; [rewrite conflicts_sym in Hcf|]; rewrite Hno in Hcf; done.
Qed.

Lemma conflicts_replace new e r :
  conflicts (g_row (replace_role new e)) r = conflicts (g_row e) r.
Proof. done. Qed.

Lemma entries_ok_replace t new :
  entries_ok t -> is_Some (role_parse (gr_role (g_row new))) ->
  entries_ok (with_entries (fmap (fun e => if conflicts (g_row new) (g_row e)
                                           then replace_role new e else e)) t).
Proof.
  intros (He & Hnd & Hc) Hrole. set (f := fun e => _).
  assert (Hid : forall e, g_id (f e) = g_id e) by (intros e; unfold f; by case_match).
  assert (Hcf : forall e r, conflicts (g_row (f e)) r = conflicts (g_row e) r)
    by (intros e r; unfold f; by case_match).
  split_and!; simpl.
  - intros ? (e & -> & Hin)%list_elem_of_fmap. destruct (He e Hin) as (Ho & Hr & Hk).
    unfold f, entry_ok. case_match; simpl; split_and!; done.
  - rewrite <- list_fmap_compose. erewrite list_fmap_ext; [exact Hnd|]. intros. apply Hid.
  - intros ? ? (e & -> & Hin)%list_elem_of_fmap (e' & -> & Hin')%list_elem_of_fmap.
    rewrite !Hid, Hcf, conflicts_sym, Hcf, conflicts_sym. by apply Hc.
Qed.

Lemma entries_ok_log s a o t : entries_ok t -> entries_ok (log_grant s a o t).
Proof. done. Qed.

Lemma grant_step_ok t t' : entries_ok t -> grant_step t t' -> entries_ok t'.
Proof.
  intros Hok Hs. destruct Hs as [s now clock id input seen t t' Hid Hadd|s now id seen t t' Hrm
    |e o t Hid Hend Ho Hk Hrole Hkind|t t' Hsub Hk].
  - apply add_grant_ok in Hadd as (target & r & p & expires & new & t1 & _ & _ & _ & _ & _ & _ & Hkind
      & [name Hnew] & Hi & ->).
    apply entries_ok_log. unfold insert_grant in Hi.
    pose proof (new_entry_row _ _ _ _ _ _ _ _ _ Hnew) as (Ho & Hg & _ & _ & _ & Hk & Hnid).
    assert (is_Some (role_parse (gr_role (g_row new)))) as Hrole.
    { unfold grant_of_row in Hg. destruct (grant_object _ _ _ _); [|done].
      destruct (role_parse _); [eauto|done]. }
    destruct (existsb _ _) eqn:Hc; [simplify_eq; by apply entries_ok_replace|].
    destruct (object_known t target) eqn:Hkn; [|done]. simplify_eq.
    apply entries_ok_push; [done|done| |].
    + split_and!; [eauto|done|by rewrite Hk].
    + intros e' Hin. exact (existsb_false _ _ e' Hc Hin).
  - apply remove_grant_ok in Hrm as (_ & _ & _ & _ & _ & _ & Hg & Hob).
    apply (entries_ok_sublist t); [done|rewrite Hg; apply sublist_filter|].
    intros e o Hin Ho. unfold object_known. rewrite Hob. rewrite Hg in Hin.
    apply list_elem_of_filter in Hin as [_ Hin]. destruct Hok as (He & _).
    destruct (He e Hin) as ((o' & Ho' & Hk') & _). rewrite Ho in Ho'. simplify_eq. exact Hk'.
  - apply entries_ok_push; [done|done|split_and!; eauto|].
    intros e' _. apply not_true_iff_false. rewrite conflicts_iff.
    intros (Hn & _). rewrite Hn in Hend. by destruct Hend.
  - by eapply entries_ok_sublist.
Qed.

(** Whatever handlers run, every grant of the table names exactly one
    object that exists and a role the model knows, so none is ever left out of
    the catalog; no id occurs twice; and a principal has at most one grant
    without an end on an object. *)
Theorem grants_stay_in_order (t t' : GrantTables) :
  entries_ok t -> rtc grant_step t t' ->
  Forall (fun e => is_Some (grant_of_row (g_row e))) (gt_grants t')
  /\ NoDup (g_id <$> gt_grants t')
  /\ (forall e e', e ∈ gt_grants t' -> e' ∈ gt_grants t' ->
        gr_expires_at (g_row e) = None -> gr_expires_at (g_row e') = None ->
        row_object (g_row e) = row_object (g_row e') ->
        gr_principal_sid (g_row e) = gr_principal_sid (g_row e') -> e = e').
Proof.
  intros Hok Hrtc.
  destruct (rtc_closed grant_step entries_ok t t' grant_step_ok Hrtc Hok) as (He & Hnd & Hc).
  split_and!; [|done|].
  - apply Forall_forall. intros e Hin. destruct (He e Hin) as ((o & Ho & _) & [r Hr] & _).
    unfold grant_of_row, row_object in *. rewrite Ho, Hr. eauto.
  - intros e e' Hin Hin' Hx Hx' Ho Hsid.
    assert (conflicts (g_row e) (g_row e') = true) as Hcf.
    { apply conflicts_iff. destruct (He e Hin) as ((o & Hro & _) & _).
      rewrite Hro in Ho. unfold row_object, grant_object in *.
      repeat (case_match; simplify_eq); done. }
    eapply (NoDup_fmap_eq g_id); [exact Hnd|done|done|by apply Hc].
Qed.

(** ** What the list shows *)

Lemma above_loop_path c fuel found seen next :
  (forall x, x ∈ found <-> x ∈ seen) ->
  above_loop c fuel found next = found ++ path_loop c fuel seen next.
Proof.
  revert found seen next. induction fuel as [|fuel IH]; intros found seen next Hs; simpl;
    [by rewrite app_nil_r|].
  destruct next as [x|]; [|by rewrite app_nil_r].
  rewrite (bool_decide_ext _ _ (Hs x)). case_bool_decide; [by rewrite app_nil_r|].
  rewrite (IH _ ({[x]} ∪ seen)); [by rewrite <- app_assoc|].
  intros y. rewrite elem_of_app, list_elem_of_singleton, Hs. set_solver.
Qed.

Lemma elem_of_containers_above c target a : a ∈ containers_above c target <-> tc (above c) target a.
Proof.
  rewrite <- elem_of_path_tail. unfold containers_above.
  rewrite (above_loop_path c _ [] ∅); [done|]. intros x. set_solver.
Qed.

(** A grant that has not ended by the clock of the database. *)
Definition unended (now : Z) (r : GrantRow) : Prop := forall e, gr_expires_at r = Some e -> now < e.

Lemma in_net_true ids id now r on :
  row_object r = Some on -> object_uuid on = id \/ object_uuid on ∈ ids ->
  match on with Folder _ | Collection _ => True | _ => object_uuid on = id end ->
  unended now r -> in_net ids id now r = true.
Proof.
  unfold row_object, grant_object, in_net, unended. intros Ho Hid Hkind Hu.
  apply andb_true_iff. split; [|destruct (gr_expires_at r); [apply Z.ltb_lt; auto|done]].
  repeat (case_match; simplify_eq); simpl in *; rewrite ?orb_true_iff, ?bool_decide_eq_true;
    naive_solver.
Qed.

Lemma in_net_unended ids id now r : in_net ids id now r = true -> unended now r.
Proof.
  unfold in_net, unended. intros [_ Hu]%andb_true_iff e He. rewrite He in Hu. by apply Z.ltb_lt.
Qed.

Lemma tc_above_tree c o a : tc (above c) o a -> is_tree_node a.
Proof. induction 1 as [x y Hxy|]; [by eapply container_tree_node|done]. Qed.

Lemma list_grants_ok s now kind id t direct inherited :
  list_grants s now kind id t = Ok (direct, inherited) ->
  exists target, object kind id = Ok target
    /\ authorize (grant_catalog t now) (subject s) Role_Manage target = true
    /\ (forall e, e ∈ direct <->
          e ∈ gt_grants t /\ unended now (g_row e) /\ row_object (g_row e) = Some target)
    /\ (forall e, e ∈ inherited <->
          e ∈ gt_grants t /\ unended now (g_row e)
          /\ exists on, row_object (g_row e) = Some on /\ on <> target
               /\ tc (above (grant_catalog t now)) target on).
Proof.
  unfold list_grants. intros Hl. destruct (object kind id) as [target|] eqn:Ho; [|done].
  destruct (require _ _ _ _) as [[]|] eqn:Hr; [|done]. simplify_eq. apply require_ok in Hr.
  set (c := grant_catalog t now) in *. exists target.
  assert (Hid : object_uuid target = id)
    by (unfold object in Ho; repeat (case_bool_decide; simplify_eq; try done)).
  split_and!; [done|done|..]; intros e; rewrite list_elem_of_fmap;
    setoid_rewrite list_elem_of_filter; setoid_rewrite list_elem_of_omap;
    setoid_rewrite list_elem_of_filter.
  - split.
    + intros ([b x] & -> & Hb & y & [Hnet Hin] & Hm). simpl in *.
      destruct (row_object (g_row y)) as [on|] eqn:Hon; [|done].
      destruct (_ || _) in Hm; simplify_eq. bools. subst. apply in_net_unended in Hnet. done.
    + intros (Hin & Hu & Hon). exists (true, e). split_and!; [done|done|].
      exists e. split; [split; [|done]|].
      * eapply in_net_true; [exact Hon|by left|by destruct target|done].
      * by rewrite Hon, bool_decide_true.
  - split.
    + intros ([b x] & -> & Hb & y & [Hnet Hin] & Hm). simpl in *.
      destruct (row_object (g_row y)) as [on|] eqn:Hon; [|done].
      destruct (bool_decide (on = target)) eqn:Hne; simpl in Hm; [by simplify_eq|].
      destruct (bool_decide (on ∈ _)) eqn:Hab in Hm; simplify_eq. bools.
      apply elem_of_containers_above in Hab. apply in_net_unended in Hnet. eauto 10.
    + intros (Hin & Hu & on & Hon & Hne & Hab). exists (false, e). split_and!; [done|done|].
      exists e. pose proof (proj2 (elem_of_containers_above c target on) Hab) as Hmem.
      split; [split; [|done]|].
      * eapply in_net_true; [exact Hon|right; apply list_elem_of_fmap; eauto| |done].
        apply tc_above_tree in Hab. by destruct on.
      * rewrite Hon, (bool_decide_false (on = target)), bool_decide_true by done. done.
Qed.

Lemma epoch_mono a b : a <= b -> epoch a <= epoch b.
Proof. unfold epoch, second. intros. apply Z.div_le_mono; lia. Qed.

Lemma epoch_second a : epoch (a + second) = epoch a + 1.
Proof.
  unfold epoch, second. replace (a + 1000000 + 1000000 / 2) with (a + 1000000 / 2 + 1 * 1000000) by lia.
  by rewrite Z.div_add.
Qed.

(** The list of grants explains the rights it is shown for: someone who is
    no administrator holds a role on an object only by a grant the list shows,
    on the object itself or inherited; and every grant it shows gives its
    role, apart from the second in which it ends. *)
Theorem list_grants_explains (s : Session) (now : Z) (kind : list Z) (id : Uuid) (t : GrantTables)
    (direct inherited : list GrantEntry) (sub : Subject) (needed : Role) :
  list_grants s now kind id t = Ok (direct, inherited) -> admin sub = false ->
  exists target, object kind id = Ok target
    /\ (authorize (grant_catalog t now) sub needed target = true ->
        exists e r, e ∈ direct ++ inherited /\ role_parse (gr_role (g_row e)) = Some r
          /\ gr_principal_sid (g_row e) ∈ sids sub /\ role_rank needed <= role_rank r)
    /\ (forall e r, e ∈ direct ++ inherited -> role_parse (gr_role (g_row e)) = Some r ->
          (forall x, gr_expires_at (g_row e) = Some x -> now + second <= x) ->
          gr_principal_sid (g_row e) ∈ sids sub -> role_rank needed <= role_rank r ->
          authorize (grant_catalog t now) sub needed target = true).
Proof.
  intros (target & Ho & Hm & Hd & Hi)%list_grants_ok Hadm. exists target.
  assert (Hc : contains (grant_catalog t now) target = true) by (by apply authorize_true in Hm as [? _]).
  unfold grant_catalog in *. split_and!; [done|..].
  - rewrite authorize_rows. intros [_ [?|(row & (e & -> & Hin)%list_elem_of_fmap & g & Hg & Hct)]];
      [congruence|].
    destruct Hct as (Hu & Hsid & Hn & Hon). pose proof Hg as Hg0. unfold grant_of_row in Hg.
    fold (row_object (g_row e)) in Hg.
    destruct (row_object (g_row e)) as [on|] eqn:Hro; [|done].
    destruct (role_parse _) as [r|] eqn:Hr; [|done]. simplify_eq. simpl in *.
    exists e, r. split_and!; try done. rewrite elem_of_app, Hd, Hi.
    assert (unended now (g_row e)) as Hun.
    { intros x Hx. rewrite Hx in Hu. specialize (Hu _ eq_refl). simpl in Hu.
      destruct (decide (now < x)) as [|Hge]; [done|]. pose proof (epoch_mono x now). lia. }
    destruct (decide (on = target)) as [->|Hne]; [by left|right]. split_and!; try done.
    exists on. split_and!; try done. by apply rtc_tc in Hon as [?|?].
  - intros e r Hin Hr Hend Hsid Hn. apply authorize_rows. split; [done|right].
    assert (exists on, e ∈ gt_grants t /\ row_object (g_row e) = Some on
              /\ rtc (above (load (gt_objects t) (g_row <$> gt_grants t) now)) target on)
      as (on & Hg & Hon & Hab).
    { apply elem_of_app in Hin as [(? & _ & ?)%Hd|(? & _ & on & ? & _ & ?%tc_rtc)%Hi];
        [by exists target|by exists on]. }
    exists (g_row e). split; [apply list_elem_of_fmap; eauto|].
    unfold row_counts, grant_of_row. fold (row_object (g_row e)). rewrite Hon, Hr.
    eexists. split; [done|]. split_and!; try done. simpl. intros u (x & Hx & ->)%fmap_Some.
    pose proof (epoch_mono _ _ (Hend x Hx)). pose proof (epoch_second now). lia.
Qed.

(** A principal reads back as it was written: what [to_string] gives of a
    principal that was read from any text is read as the same principal, so
    the text in the table stands for it. *)
Theorem principal_reads_back `{!UuidOk} (text : list Z) (p : PrincipalId) :
  principal_from_str text = Some p -> principal_from_str (principal_text p) = Some p.
Proof.
  unfold principal_from_str. intros Hp.
  destruct (strip_prefix (lit "local:") text) as [i|] eqn:Hl.
  { apply fmap_Some in Hp as (u & Hu%uuid_range & ->). cbn [principal_text].
    rewrite (proj2 (strip_prefix_Some (lit "local:") (lit "local:" ++ uuid_text u) (uuid_text u)) eq_refl).
    by rewrite uuid_reads_back. }
  destruct (strip_prefix (lit "group:") text) as [i|] eqn:Hg.
  { apply fmap_Some in Hp as (u & Hu%uuid_range & ->). cbn [principal_text].
    rewrite (proj2 (strip_prefix_Some (lit "group:") (lit "group:" ++ uuid_text u) (uuid_text u)) eq_refl).
    replace (strip_prefix (lit "local:") (lit "group:" ++ uuid_text u)) with (@None (list Z)) by done.
    by rewrite uuid_reads_back. }
  apply fmap_Some in Hp as (sid & Hs & ->). cbn [principal_text].
  assert (sid = text) as -> by (unfold sid_from_str in Hs; repeat (case_match; simplify_eq; try done)).
  by rewrite Hl, Hg, Hs.
Qed.

End theorems.

(** ** Examples *)

Module GrantExamples.
Import RequestExamples.

#[local] Instance decimal_uuid : UuidText := decimal.
#[local] Instance uuid_decimal : UuidParse := parse_unsigned (2 ^ 128 - 1).
#[local] Instance uuid_decimal_ok : UuidOk.
Proof.
  split.
  - intros s i Hi%parse_unsigned_bound; lia.
  - intros i Hi. apply parse_unsigned_decimal. lia.
Qed.

(** Times as decimal microseconds. *)
#[local] Instance plain_times : Rfc3339 := {
  rfc3339_parse s := (fun n => n * 1000) <$> parse_unsigned u64_max s;
  rfc3339_format n := Some (decimal (n / 1000));
  timestamptz s := parse_unsigned u64_max s
}.

(** A folder with a device; Alice may list the folder. *)
Definition table0 : GrantTables :=
  {| gt_objects := t_objects tables0;
     gt_grants := [{| g_id := 50;
                      g_row := {| gr_folder := Some 10; gr_device := None; gr_credential := None;
                                  gr_collection := None; gr_principal_sid := lit "local:1";
                                  gr_role := lit "list"; gr_expires_at := None;
                                  gr_request_id := None |};
                      g_kind := lit "user"; g_name := lit "alice"; g_created_by := None |}];
     gt_locals := {[1; 2]}; gt_groups := ∅; gt_log := [] |}.

Definition ask_role (role : string) (expires : option (list Z)) : NewGrant :=
  {| ng_object_kind := lit "folder"; ng_object_id := 10; ng_principal_kind := lit "user";
     ng_principal_sid := lit "local:1"; ng_principal_name := lit "Alice"; ng_role := lit role;
     ng_expires_at := expires |}.

Definition after (r : result GrantTables ApiProblem) : GrantTables :=
  match r with Ok t => t | Err _ => table0 end.

Definition table1 : GrantTables :=
  after (add_grant boss 0 0 51 (ask_role "connect" None) table0 table0).
Definition table2 : GrantTables :=
  after (add_grant boss 0 0 52 (ask_role "manage" (Some (lit "5000000"))) table1 table1).

Definition may (t : GrantTables) (x : Z) (r : Role) : bool :=
  authorize (grant_catalog t x) (subject alice) r (Device 20).

Example grant_story :
  (g_id <$> gt_grants table1) = [50] /\ (g_id <$> gt_grants table2) = [50; 52]
  /\ may table0 0 Role_Connect = false /\ may table1 0 Role_Connect = true
  /\ may table2 0 Role_Manage = true /\ may table2 (6 * second) Role_Manage = false
  /\ may table2 (6 * second) Role_Connect = true
  /\ is_ok (add_grant alice 0 0 53 (ask_role "manage" None) table1 table1) = false.
Proof. split_and!; vm_compute; reflexivity. Qed.

Lemma table1_added : add_grant boss 0 0 51 (ask_role "connect" None) table0 table0 = Ok table1.
Proof. vm_compute. reflexivity. Qed.

Lemma added_grant_gives_exactly_witness :
  exists r, role_parse (lit "connect") = Some r
    /\ authorize (grant_catalog table0 0) (subject boss) Role_Manage (Folder 10) = true.
Proof.
  destruct (added_grant_gives_exactly _ _ _ _ _ _ _ _ table1_added)
    as (target & r & p & e & Ho & Hr & _ & _ & Hm & _).
  injection Ho as <-. exists r. split; [exact Hr|exact Hm].
Defined.

Lemma table1_ids : NoDup (g_id <$> gt_grants table1).
Proof. vm_compute. repeat constructor. by intros ?%elem_of_nil. Qed.

Lemma grants_reach_only_below_witness :
  exists target, authorize (grant_catalog table1 0) (subject boss) Role_Manage target = true.
Proof.
  destruct (grants_reach_only_below boss 0 0 50 (ask_role "connect" None) table1 table1
    (after (remove_grant boss 0 50 table1 table1))) as (target & Hm & _).
  - right. split; [apply objects_stay_refl, table1_ids|vm_compute; reflexivity].
  - exists target. exact Hm.
Defined.

Lemma table0_ok : entries_ok table0.
Proof.
  split_and!.
  - intros e ->%list_elem_of_singleton. split_and!; [by exists (Folder 10)|by eexists|by left].
  - apply NoDup_singleton.
  - by intros e e' ->%list_elem_of_singleton ->%list_elem_of_singleton.
Qed.

Lemma grants_stay_in_order_witness : NoDup (g_id <$> gt_grants table1).
Proof.
  destruct (grants_stay_in_order table0 table1 table0_ok) as (_ & Hnd & _); [|exact Hnd].
  apply rtc_once. eapply (gs_add boss 0 0 51 (ask_role "connect" None) table0); [|apply table1_added].
  vm_compute. intros Hin%list_elem_of_singleton. discriminate Hin.
Defined.

Definition listed : list GrantEntry * list GrantEntry :=
  match list_grants boss 0 (lit "device") 20 table1 with Ok l => l | Err _ => ([], []) end.

Lemma list_grants_explains_witness :
  listed.1 = [] /\ g_id <$> listed.2 = [50]
  /\ authorize (grant_catalog table1 0) (subject alice) Role_Connect (Device 20) = true.
Proof.
  split_and!; [vm_compute; reflexivity..|].
  destruct (list_grants_explains boss 0 (lit "device") 20 table1 listed.1 listed.2 (subject alice)
    Role_Connect) as (target & Ho & _ & Hgive); [vm_compute; reflexivity|reflexivity|].
  injection Ho as <-.
  assert (Hl : listed.1 ++ listed.2 = gt_grants table1) by (vm_compute; reflexivity).
  rewrite Hl in Hgive. destruct (gt_grants table1) as [|e l] eqn:He; [vm_compute in He; discriminate He|].
  vm_compute in He. injection He as He _. subst e.
  eapply (Hgive _ Role_Connect); [left|vm_compute; reflexivity|discriminate| |simpl; lia].
  apply elem_of_list_to_set. vm_compute. left.
Defined.

Lemma principal_reads_back_witness :
  principal_from_str (principal_text (Local 7)) = Some (Local 7).
Proof. apply (principal_reads_back (lit "local:007")). vm_compute. reflexivity. Defined.

End GrantExamples.
