(* ===== verification/People.v ===== *)
(** * Users, groups and roles (crates/server/src/api/users.rs, groups.rs, roles.rs, journal.rs, second_factor.rs)

    Who is known to remotehub, remotehub's own groups and their members, the
    roles for remotehub itself, and the two lists of those who must state a
    purpose or have a second factor. [session_db] is what [Session] reads of
    these tables. The server's client of Kratos, which keeps the local
    accounts, is a parameter: each of its calls may fail, and what it changed
    stays. Statements outside a transaction change the tables one by one. *)
From S2P Require Import Prelude Text Utf8 Sid Model Session AccessRequests Store Folders Grants.
From S2P Require Import Vault.

(** ** Tables *)

Record GroupRow := { gp_name : list Z; gp_description : list Z }.

Record MemberRow := { gm_group : Uuid; gm_sid : list Z; gm_kind : list Z; gm_name : list Z }.

Record RoleRow := { rr_role : list Z; rr_sid : list Z; rr_kind : list Z; rr_name : list Z }.

(** A row of [purpose_principals] or of [second_factor_principals]. *)
Record PrincipalRow := { pr_sid : list Z; pr_kind : list Z; pr_name : list Z }.

Inductive PeopleAction :=
| AccountInvited | UserBlocked | UserUnblocked | UserSessionsEnded | AccountRecoveryIssued
| AccountDeleted | GroupCreated | GroupUpdated | GroupDeleted | GroupMemberAdded
| GroupMemberRemoved | RoleAssigned | RoleRevoked | SecondFactorRequired | SecondFactorWaived
| PurposeRequired | PurposeWaived.

Record PeopleLog := { pl_actor : Uuid; pl_action : PeopleAction; pl_object : option Uuid }.

Record People := {
  pe_users : gmap Uuid UserRow;
  pe_sessions : gmap (list Z) SessionRow;
  pe_groups : gmap Uuid GroupRow;
  pe_members : list MemberRow;
  pe_roles : list RoleRow;
  pe_purpose : list PrincipalRow;
  pe_rules : list PrincipalRow;
  pe_grants : list GrantRow;
  pe_log : list PeopleLog
}.

Definition session_db (p : People) : Db := {|
  sessions := pe_sessions p;
  users := pe_users p;
  role_assignments := (fun r => (rr_sid r, rr_role r)) <$> pe_roles p;
  group_members := (fun m => (gm_group m, gm_sid m)) <$> pe_members p
|}.

Definition on_users (f : gmap Uuid UserRow -> gmap Uuid UserRow) (p : People) : People :=
  {| pe_users := f (pe_users p); pe_sessions := pe_sessions p; pe_groups := pe_groups p;
     pe_members := pe_members p; pe_roles := pe_roles p; pe_purpose := pe_purpose p;
     pe_rules := pe_rules p; pe_grants := pe_grants p; pe_log := pe_log p |}.

Definition on_sessions (f : gmap (list Z) SessionRow -> gmap (list Z) SessionRow) (p : People) : People :=
  {| pe_users := pe_users p; pe_sessions := f (pe_sessions p); pe_groups := pe_groups p;
     pe_members := pe_members p; pe_roles := pe_roles p; pe_purpose := pe_purpose p;
     pe_rules := pe_rules p; pe_grants := pe_grants p; pe_log := pe_log p |}.

Definition on_groups (f : gmap Uuid GroupRow -> gmap Uuid GroupRow) (p : People) : People :=
  {| pe_users := pe_users p; pe_sessions := pe_sessions p; pe_groups := f (pe_groups p);
     pe_members := pe_members p; pe_roles := pe_roles p; pe_purpose := pe_purpose p;
     pe_rules := pe_rules p; pe_grants := pe_grants p; pe_log := pe_log p |}.

Definition on_members (f : list MemberRow -> list MemberRow) (p : People) : People :=
  {| pe_users := pe_users p; pe_sessions := pe_sessions p; pe_groups := pe_groups p;
     pe_members := f (pe_members p); pe_roles := pe_roles p; pe_purpose := pe_purpose p;
     pe_rules := pe_rules p; pe_grants := pe_grants p; pe_log := pe_log p |}.

Definition on_roles (f : list RoleRow -> list RoleRow) (p : People) : People :=
  {| pe_users := pe_users p; pe_sessions := pe_sessions p; pe_groups := pe_groups p;
     pe_members := pe_members p; pe_roles := f (pe_roles p); pe_purpose := pe_purpose p;
     pe_rules := pe_rules p; pe_grants := pe_grants p; pe_log := pe_log p |}.

Definition on_purpose (f : list PrincipalRow -> list PrincipalRow) (p : People) : People :=
  {| pe_users := pe_users p; pe_sessions := pe_sessions p; pe_groups := pe_groups p;
     pe_members := pe_members p; pe_roles := pe_roles p; pe_purpose := f (pe_purpose p);
     pe_rules := pe_rules p; pe_grants := pe_grants p; pe_log := pe_log p |}.

Definition on_rules (f : list PrincipalRow -> list PrincipalRow) (p : People) : People :=
  {| pe_users := pe_users p; pe_sessions := pe_sessions p; pe_groups := pe_groups p;
     pe_members := pe_members p; pe_roles := pe_roles p; pe_purpose := pe_purpose p;
     pe_rules := f (pe_rules p); pe_grants := pe_grants p; pe_log := pe_log p |}.

Definition on_people_grants (f : list GrantRow -> list GrantRow) (p : People) : People :=
  {| pe_users := pe_users p; pe_sessions := pe_sessions p; pe_groups := pe_groups p;
     pe_members := pe_members p; pe_roles := pe_roles p; pe_purpose := pe_purpose p;
     pe_rules := pe_rules p; pe_grants := f (pe_grants p); pe_log := pe_log p |}.

Definition log_people (s : Session) (a : PeopleAction) (o : option Uuid) (p : People) : People :=
  {| pe_users := pe_users p; pe_sessions := pe_sessions p; pe_groups := pe_groups p;
     pe_members := pe_members p; pe_roles := pe_roles p; pe_purpose := pe_purpose p;
     pe_rules := pe_rules p; pe_grants := pe_grants p;
     pe_log := pe_log p ++ [{| pl_actor := user_id s; pl_action := a; pl_object := o |}] |}.

(** ** Kratos *)

Inductive KratosError := Unreachable | Timeout | Unexpected (status : Z).

(** The one-time code of an invitation or a recovery; its link, code and end
    are shown as they came. *)
Record Invitation := { i_identity : Uuid; i_code : list Z }.

(** The calls of [Kratos] (kratos.rs) to its administration. *)
Class Kratos := {
  KratosState : Type;
  kratos_invite : list Z -> list Z -> stM KratosState KratosError Invitation;
  kratos_set_active : Uuid -> bool -> stM KratosState KratosError unit;
  kratos_revoke_all : Uuid -> stM KratosState KratosError unit;
  kratos_remove_second_factors : Uuid -> stM KratosState KratosError unit;
  kratos_recovery_code : Uuid -> stM KratosState KratosError Invitation;
  kratos_delete : Uuid -> stM KratosState KratosError unit
}.

(** PostgreSQL's [lower], whose table is the database's. *)
Class SqlLower := sql_lower : list Z -> list Z.

(** ** What the handlers share *)

Definition require_admin (s : Session) : result unit ApiProblem :=
  if is_admin s then Ok tt else Err AP_Forbidden.

(** The identities of local accounts: what [PrincipalId::check] looks for. *)
Definition locals_of (p : People) : gset Uuid :=
  list_to_set (omap (fun kv => if bool_decide (u_kind kv.2 = lit "local") then u_identity_id kv.2 else None)
                 (map_to_list (pe_users p))).

Definition people_check (p : People) (kind : str) (who : PrincipalId) : bool :=
  principal_check (locals_of p) (dom (pe_groups p)) kind who.

Definition end_sessions (user : Uuid) (p : People) : People :=
  on_sessions (filter (fun hr : list Z * SessionRow => s_user_id hr.2 <> user)) p.

Definition set_blocked (f : option Z -> option Z) (u : UserRow) : UserRow :=
  {| u_username := u_username u; u_display_name := u_display_name u; u_kind := u_kind u;
     u_sid := u_sid u; u_upn := u_upn u; u_identity_id := u_identity_id u;
     blocked_at := f (blocked_at u) |}.

Definition as_deleted (u : UserRow) : UserRow :=
  {| u_username := u_username u; u_display_name := u_display_name u; u_kind := lit "deleted";
     u_sid := u_sid u; u_upn := u_upn u; u_identity_id := None; blocked_at := blocked_at u |}.

(** ** The world of a handler *)

Section handlers.
Context `{UuidText} `{UuidParse} `{Lowercase} `{SqlLower} `{Kratos}.

(** [kratos_set] says whether the settings name a Kratos. *)
Record PeopleWorld := { w_kratos : KratosState; w_kratos_set : bool; w_people : People }.

Definition M (A : Type) : Type := stM PeopleWorld ApiProblem A.

Definition lift {A} (r : result A ApiProblem) : M A :=
  match r with Ok a => ret a | Err e => fail e end.

(** One statement, or a transaction that cannot fail. *)
Definition change (f : People -> People) : M unit := fun w =>
  (Ok tt, {| w_kratos := w_kratos w; w_kratos_set := w_kratos_set w; w_people := f (w_people w) |}).

(** A transaction: an error takes it back. *)
Definition transaction {A} (f : People -> result (A * People) ApiProblem) : M A := fun w =>
  match f (w_people w) with
  | Ok (a, p) => (Ok a, {| w_kratos := w_kratos w; w_kratos_set := w_kratos_set w; w_people := p |})
  | Err e => (Err e, w)
  end.

Definition read : M People := fun w => (Ok (w_people w), w).

(** [kratos(&state)?] *)
Definition kratos : M unit := fun w =>
  (if w_kratos_set w then Ok tt else Err AP_AccountsUnavailable, w).

Definition call {A} (c : stM KratosState KratosError A) (err : KratosError -> ApiProblem) : M A := fun w =>
  let '(r, k) := c (w_kratos w) in
  (match r with Ok a => Ok a | Err e => Err (err e) end,
   {| w_kratos := k; w_kratos_set := w_kratos_set w; w_people := w_people w |}).

Definition unavailable (e : KratosError) : ApiProblem := AP_AccountsUnavailable.

Definition invite_failed (e : KratosError) : ApiProblem :=
  match e with
  | Unexpected status => if status =? 409 then AP_NameTaken else unavailable e
  | other => unavailable other
  end.

(** ** Users (users.rs) *)

Record NewAccount := { na_email : list Z; na_name : list Z }.

Definition new_account (input : NewAccount) : result (list Z * list Z) ApiProblem :=
  let email := to_lowercase (trim (na_email input)) in
  if (320 <? str_len email) || negb (bool_decide (64 ∈ email)) || existsb is_whitespace email
  then Err (AP_Invalid "email")
  else
    let name := trim (na_name input) in
    if (200 <? Z.of_nat (length name)) || existsb is_control name
    then Err (AP_Invalid "name") else Ok (email, name).

Definition target (id : Uuid) : M UserRow :=
  p <-- read;
  match pe_users p !! id with
  | Some u => if bool_decide (u_kind u = lit "deleted") then fail AP_NotFound else ret u
  | None => fail AP_NotFound
  end.

Definition target_identity (u : UserRow) : result Uuid ApiProblem :=
  ok_or (u_identity_id u) (AP_Invalid "kind").

(** [kratos::add_invited]: the account's row, an older one of the same
    identity as it is. *)
Definition add_invited (new_id : Uuid) (i : Invitation) (email name : list Z) (p : People) : Uuid * People :=
  match List.find (fun kv => bool_decide (u_identity_id kv.2 = Some (i_identity i)))
          (map_to_list (pe_users p)) with
  | Some (id, _) => (id, p)
  | None => (new_id, on_users (insert new_id
      {| u_username := email; u_display_name := if bool_decide (name = []) then email else name;
         u_kind := lit "local"; u_sid := None; u_upn := None; u_identity_id := Some (i_identity i);
         blocked_at := None |}) p)
  end.

Definition invite (s : Session) (new_id : Uuid) (input : NewAccount) : M Invitation :=
  lift (require_admin s);;
  en <-- lift (new_account input);
  kratos;;
  i <-- call (kratos_invite en.1 en.2) invite_failed;
  change (fun p => let '(user, p) := add_invited new_id i en.1 en.2 p in
                   log_people s AccountInvited (Some user) p);;
  ret i.

Definition block (s : Session) (now : Z) (id : Uuid) : M unit :=
  lift (require_admin s);;
  user <-- target id;
  (if id =? user_id s then fail AP_Forbidden else ret tt);;
  match target_identity user with
  | Ok identity =>
      kratos;;
      call (kratos_set_active identity false) unavailable;;
      call (kratos_revoke_all identity) unavailable
  | Err _ => ret tt
  end;;
  change (on_users (alter (set_blocked (fun b => Some (default now b))) id));;
  change (end_sessions id);;
  change (log_people s UserBlocked (Some id)).

Definition unblock (s : Session) (id : Uuid) : M unit :=
  lift (require_admin s);;
  user <-- target id;
  match target_identity user with
  | Ok identity => kratos;; call (kratos_set_active identity true) unavailable
  | Err _ => ret tt
  end;;
  change (on_users (alter (set_blocked (fun _ => None)) id));;
  change (log_people s UserUnblocked (Some id)).

(** [end] *)
Definition end_ (s : Session) (id : Uuid) : M unit :=
  lift (require_admin s);;
  user <-- target id;
  match target_identity user with
  | Ok identity => kratos;; call (kratos_revoke_all identity) unavailable
  | Err _ => ret tt
  end;;
  change (end_sessions id);;
  change (log_people s UserSessionsEnded (Some id)).

Definition recovery (s : Session) (id : Uuid) : M Invitation :=
  lift (require_admin s);;
  user <-- target id;
  identity <-- lift (target_identity user);
  kratos;;
  call (kratos_remove_second_factors identity) unavailable;;
  call (kratos_revoke_all identity) unavailable;;
  code <-- call (kratos_recovery_code identity) unavailable;
  change (end_sessions id);;
  change (log_people s AccountRecoveryIssued (Some id));;
  ret code.

(** The statements of [users::delete] that take a principal out of the tables. *)
Definition forget_principal (sid : str) (p : People) : People :=
  on_people_grants (filter (fun g => gr_principal_sid g <> sid))
    (on_purpose (filter (fun r => pr_sid r <> sid))
      (on_members (filter (fun m => gm_sid m <> sid))
        (on_roles (filter (fun r => rr_sid r <> sid))
          (on_rules (filter (fun r => pr_sid r <> sid)) p)))).

Definition delete_user (s : Session) (id : Uuid) : M unit :=
  lift (require_admin s);;
  user <-- target id;
  identity <-- lift (target_identity user);
  (if id =? user_id s then fail AP_Forbidden else ret tt);;
  kratos;;
  call (kratos_delete identity) unavailable;;
  change (fun p => on_users (alter as_deleted id) (forget_principal (principal_text (Local identity)) p));;
  change (end_sessions id);;
  change (log_people s AccountDeleted (Some id)).

(** ** Groups (groups.rs) *)

Record GroupInput := { gi_name : list Z; gi_description : list Z }.

Definition description (value : str) : result (list Z) ApiProblem :=
  let value := trim value in
  if (500 <? Z.of_nat (length value)) || existsb is_control value
  then Err (AP_Invalid "description") else Ok value.

(** Writing a group's row under the unique index [groups_name], with [taken]. *)
Definition write_group (id : Uuid) (g : GroupRow) (p : People) : result People ApiProblem :=
  if existsb (fun kv => negb (kv.1 =? id)
                        && bool_decide (sql_lower (gp_name kv.2) = sql_lower (gp_name g)))
       (map_to_list (pe_groups p))
  then Err AP_NameTaken else Ok (on_groups (insert id g) p).

Definition group_name (id : Uuid) (p : People) : result (list Z) ApiProblem :=
  ok_or (gp_name <$> pe_groups p !! id) AP_NotFound.

Definition create_group (s : Session) (new_id : Uuid) (input : GroupInput) : M unit :=
  lift (require_admin s);;
  n <-- lift (check_name (gi_name input) "name");
  d <-- lift (description (gi_description input));
  transaction (fun p =>
    let? p := write_group new_id {| gp_name := n; gp_description := d |} p in
    Ok (tt, log_people s GroupCreated (Some new_id) p)).

Definition update_group (s : Session) (id : Uuid) (input : GroupInput) : M unit :=
  lift (require_admin s);;
  n <-- lift (check_name (gi_name input) "name");
  d <-- lift (description (gi_description input));
  transaction (fun p =>
    let? _ := group_name id p in
    let? p := write_group id {| gp_name := n; gp_description := d |} p in
    Ok (tt, log_people s GroupUpdated (Some id) p)).

(** The row goes with its members ([ON DELETE CASCADE]). *)
Definition drop_group (id : Uuid) (p : People) : People :=
  on_groups (delete id) (on_members (filter (fun m => gm_group m <> id)) p).

Definition delete_group (s : Session) (id : Uuid) : M unit :=
  lift (require_admin s);;
  transaction (fun p =>
    let? _ := group_name id p in
    let principal := principal_text (Group id) in
    let p := on_people_grants (filter (fun g => gr_principal_sid g <> principal)) p in
    let p := on_purpose (filter (fun r => pr_sid r <> principal)) p in
    let p := on_roles (filter (fun r => rr_sid r <> principal)) p in
    let p := on_rules (filter (fun r => pr_sid r <> principal)) p in
    Ok (tt, log_people s GroupDeleted (Some id) (drop_group id p))).

Record MemberInput := { mi_kind : list Z; mi_name : list Z }.

Definition is_group (w : PrincipalId) : bool := match w with Group _ => true | _ => false end.

Definition same_member (a b : MemberRow) : bool :=
  bool_decide (gm_group a = gm_group b) && bool_decide (gm_sid a = gm_sid b).

(** [INSERT ... ON CONFLICT DO NOTHING], logged if it inserted. *)
Definition insert_member (s : Session) (m : MemberRow) (p : People) : People :=
  if existsb (same_member m) (pe_members p) then p
  else log_people s GroupMemberAdded (Some (gm_group m)) (on_members (fun l => l ++ [m]) p).

Definition add_member (s : Session) (id : Uuid) (sid : str) (input : MemberInput) : M unit :=
  lift (require_admin s);;
  who <-- lift (ok_or (principal_from_str sid) (AP_Invalid "principal_sid"));
  p <-- read;
  (if is_group who || negb (people_check p (mi_kind input) who)
   then fail (AP_Invalid "principal_sid") else ret tt);;
  n <-- lift (check_name (mi_name input) "principal_name");
  transaction (fun p =>
    let? _ := group_name id p in
    Ok (tt, insert_member s {| gm_group := id; gm_sid := principal_text who; gm_kind := mi_kind input;
                               gm_name := n |} p)).

Definition remove_member (s : Session) (id : Uuid) (sid : str) : M unit :=
  lift (require_admin s);;
  transaction (fun p =>
    let? _ := group_name id p in
    if existsb (fun m => bool_decide (gm_group m = id) && bool_decide (gm_sid m = sid)) (pe_members p)
    then Ok (tt, log_people s GroupMemberRemoved (Some id)
                   (on_members (filter (fun m => ~ (gm_group m = id /\ gm_sid m = sid))) p))
    else Err AP_NotFound).

(** The closures of [groups::list] and [roles::list], which drain what belongs to
    each key from the rows left; rows come in the order of the table. *)
Fixpoint drain {K R : Type} (belongs : K -> R -> bool) (ks : list K) (rows : list R) : list (K * list R) :=
  match ks with
  | [] => []
  | k :: ks =>
      let mine := filter (fun r => belongs k r = true) rows in
      let rest := filter (fun r => belongs k r = false) rows in
      (k, mine) :: drain belongs ks rest
  end.

Definition list_groups (s : Session) (p : People) :
    result (list (Uuid * GroupRow * list MemberRow)) ApiProblem :=
  let? _ := require_admin s in
  Ok (drain (fun g m => bool_decide (gm_group m = g.1)) (map_to_list (pe_groups p)) (pe_members p)).

(** ** Roles (roles.rs) *)

Definition role_named (n : str) : result OwnRole ApiProblem := ok_or (own_role_parse n) AP_NotFound.

Definition same_role (a b : RoleRow) : bool :=
  bool_decide (rr_role a = rr_role b) && bool_decide (rr_sid a = rr_sid b).

Definition insert_role (s : Session) (r : RoleRow) (p : People) : People :=
  if existsb (same_role r) (pe_roles p) then p
  else log_people s RoleAssigned None (on_roles (fun l => l ++ [r]) p).

Definition assign (s : Session) (role_name sid : str) (input : MemberInput) : M unit :=
  lift (require_admin s);;
  r <-- lift (role_named role_name);
  who <-- lift (ok_or (principal_from_str sid) (AP_Invalid "principal_sid"));
  p <-- read;
  (if people_check p (mi_kind input) who then ret tt else fail (AP_Invalid "principal_sid"));;
  n <-- lift (check_name (mi_name input) "principal_name");
  change (insert_role s {| rr_role := own_role_as_str r; rr_sid := principal_text who;
                           rr_kind := mi_kind input; rr_name := n |}).

Definition revoke (s : Session) (role_name sid : str) : M unit :=
  lift (require_admin s);;
  r <-- lift (role_named role_name);
  transaction (fun p =>
    if existsb (fun a => bool_decide (rr_role a = own_role_as_str r) && bool_decide (rr_sid a = sid))
         (pe_roles p)
    then
      let p := on_roles (filter (fun a => ~ (rr_role a = own_role_as_str r /\ rr_sid a = sid))) p in
      if bool_decide (r = Administrator)
         && negb (existsb (fun a => bool_decide (rr_role a = own_role_as_str r)) (pe_roles p))
      then Err AP_LastAdministrator
      else Ok (tt, log_people s RoleRevoked None p)
    else Err AP_NotFound).

Definition list_roles (s : Session) (p : People) : result (list (OwnRole * list RoleRow)) ApiProblem :=
  if negb (is_auditor s) then Err AP_Forbidden else 
  Ok (drain (fun r a => bool_decide (rr_role a = own_role_as_str r)) own_role_all (pe_roles p)).

(** ** Rules (journal.rs, second_factor.rs) *)

Definition insert_rule (s : Session) (a : PeopleAction)
    (on : (list PrincipalRow -> list PrincipalRow) -> People -> People) (rows : list PrincipalRow)
    (r : PrincipalRow) (p : People) : People :=
  if existsb (fun r' => bool_decide (pr_sid r' = pr_sid r)) rows then p
  else log_people s a None (on (fun l => l ++ [r]) p).

Definition require_purpose (s : Session) (sid : str) (input : MemberInput) : M unit :=
  lift (require_admin s);;
  who <-- lift (ok_or (principal_from_str sid) (AP_Invalid "principal_sid"));
  (if bool_decide (mi_kind input = lit "user") || bool_decide (mi_kind input = lit "group")
   then ret tt else fail (AP_Invalid "principal_kind"));;
  p <-- read;
  (if people_check p (mi_kind input) who then ret tt else fail (AP_Invalid "principal_sid"));;
  n <-- lift (check_name (mi_name input) "principal_name");
  change (fun p => insert_rule s PurposeRequired on_purpose (pe_purpose p)
    {| pr_sid := principal_text who; pr_kind := mi_kind input; pr_name := n |} p).

Definition waive_purpose (s : Session) (sid : str) : M unit :=
  lift (require_admin s);;
  transaction (fun p =>
    if existsb (fun r => bool_decide (pr_sid r = sid)) (pe_purpose p)
    then Ok (tt, log_people s PurposeWaived None (on_purpose (filter (fun r => pr_sid r <> sid)) p))
    else Err AP_NotFound).

(** [second_factor::require] *)
Definition require_factor (s : Session) (sid : str) (input : MemberInput) : M unit :=
  lift (require_admin s);;
  who <-- lift (ok_or (principal_from_str sid) (AP_Invalid "principal_sid"));
  p <-- read;
  (if people_check p (mi_kind input) who then ret tt else fail (AP_Invalid "principal_sid"));;
  n <-- lift (check_name (mi_name input) "principal_name");
  change (fun p => insert_rule s SecondFactorRequired on_rules (pe_rules p)
    {| pr_sid := principal_text who; pr_kind := mi_kind input; pr_name := n |} p).

(** [second_factor::waive] *)
Definition waive_factor (s : Session) (sid : str) : M unit :=
  lift (require_admin s);;
  transaction (fun p =>
    if existsb (fun r => bool_decide (pr_sid r = sid)) (pe_rules p)
    then Ok (tt, log_people s SecondFactorWaived None (on_rules (filter (fun r => pr_sid r <> sid)) p))
    else Err AP_NotFound).

(** ** The calls *)

Inductive PeopleCall :=
| C_invite (new_id : Uuid) (input : NewAccount)
| C_block (now : Z) (id : Uuid) | C_unblock (id : Uuid) | C_end (id : Uuid) | C_recovery (id : Uuid)
| C_delete_user (id : Uuid)
| C_create_group (new_id : Uuid) (input : GroupInput) | C_update_group (id : Uuid) (input : GroupInput)
| C_delete_group (id : Uuid)
| C_add_member (id : Uuid) (sid : list Z) (input : MemberInput) | C_remove_member (id : Uuid) (sid : list Z)
| C_assign (role sid : list Z) (input : MemberInput) | C_revoke (role sid : list Z)
| C_require_purpose (sid : list Z) (input : MemberInput) | C_waive_purpose (sid : list Z)
| C_require_factor (sid : list Z) (input : MemberInput) | C_waive_factor (sid : list Z).

Definition run_call (s : Session) (c : PeopleCall) : M unit :=
  match c with
  | C_invite new_id input => _ <-- invite s new_id input; ret tt
  | C_block now id => block s now id
  | C_unblock id => unblock s id
  | C_end id => end_ s id
  | C_recovery id => _ <-- recovery s id; ret tt
  | C_delete_user id => delete_user s id
  | C_create_group new_id input => create_group s new_id input
  | C_update_group id input => update_group s id input
  | C_delete_group id => delete_group s id
  | C_add_member id sid input => add_member s id sid input
  | C_remove_member id sid => remove_member s id sid
  | C_assign r sid input => assign s r sid input
  | C_revoke r sid => revoke s r sid
  | C_require_purpose sid input => require_purpose s sid input
  | C_waive_purpose sid => waive_purpose s sid
  | C_require_factor sid input => require_factor s sid input
  | C_waive_factor sid => waive_factor s sid
  end.

End handlers.

(** ** What a handler leaves alone *)

Section programs.
Context `{Kratos}.

(** Leaves the tables as they are. *)
Definition quiet {A} (m : M A) : Prop := forall w, w_people (m w).2 = w_people w.

(** Never fails. *)
Definition sure {A} (m : M A) : Prop := forall w, exists a w', m w = (Ok a, w').

(** Leaves the tables as they are when it fails. *)
Definition safe {A} (m : M A) : Prop := forall w e w', m w = (Err e, w') -> w_people w' = w_people w.

(** Keeps a property of the tables, whether it fails or not. *)
Definition keeps (P : People -> Prop) {A} (m : M A) : Prop :=
  forall w, P (w_people w) -> P (w_people (m w).2).

Lemma quiet_ret {A} (a : A) : quiet (ret a).
Proof. done. Qed.
Lemma quiet_fail {A} e : quiet (fail e : M A).
Proof. done. Qed.
Lemma quiet_lift {A} (r : result A ApiProblem) : quiet (lift r).
Proof. by destruct r. Qed.
Lemma quiet_read : quiet read.
Proof. done. Qed.
Lemma quiet_kratos : quiet kratos.
Proof. done. Qed.
Lemma quiet_call {A} (c : stM KratosState KratosError A) err : quiet (call c err).
Proof. intros w. unfold call. by destruct (c _). Qed.

Lemma quiet_bind {A B} (m : M A) (k : A -> M B) : quiet m -> (forall a, quiet (k a)) -> quiet (bindM m k).
Proof.
  intros Hm Hk w. unfold bindM. specialize (Hm w). destruct (m w) as [[a|e] w1]; simpl in *; [|done].
  by rewrite Hk.
Qed.

Lemma quiet_target id : quiet (target id).
Proof. unfold target. apply quiet_bind; [apply quiet_read|]. intros p. by repeat case_match. Qed.

Lemma sure_change f : sure (change f).
Proof. by eexists _, _. Qed.
Lemma sure_ret {A} (a : A) : sure (ret a).
Proof. by eexists _, _. Qed.
Lemma sure_bind {A B} (m : M A) (k : A -> M B) : sure m -> (forall a, sure (k a)) -> sure (bindM m k).
Proof.
  intros Hm Hk w. unfold bindM. destruct (Hm w) as (a & w1 & ->). apply Hk.
Qed.

Lemma safe_quiet {A} (m : M A) : quiet m -> safe m.
Proof. intros Hm w e w' E. specialize (Hm w). by rewrite E in Hm. Qed.
Lemma safe_sure {A} (m : M A) : sure m -> safe m.
Proof. intros Hm w e w' E. destruct (Hm w) as (a & w1 & E'). by rewrite E in E'. Qed.
Lemma safe_transaction {A} (f : People -> result (A * People) ApiProblem) : safe (transaction f).
Proof. intros w e w'. unfold transaction. destruct (f _) as [[a p]|]; by intros; simplify_eq. Qed.
Lemma safe_bind {A B} (m : M A) (k : A -> M B) : quiet m -> (forall a, safe (k a)) -> safe (bindM m k).
Proof.
  intros Hm Hk w e w'. unfold bindM. specialize (Hm w). destruct (m w) as [[a|e'] w1]; simpl in *.
  - intros E%Hk. congruence.
  - intros. by simplify_eq.
Qed.

Lemma safe_then {A B} (m : M A) (k : A -> M B) : safe m -> (forall a, sure (k a)) -> safe (bindM m k).
Proof.
  intros Hm Hk w e w'. unfold bindM. destruct (m w) as [[a|e'] w1] eqn:E.
  - destruct (Hk a w1) as (b & w2 & ->). done.
  - intros. simplify_eq. by eapply Hm.
Qed.

Lemma keeps_quiet P {A} (m : M A) : quiet m -> keeps P m.
Proof. intros Hm w. by rewrite Hm. Qed.
Lemma keeps_bind P {A B} (m : M A) (k : A -> M B) :
  keeps P m -> (forall a, keeps P (k a)) -> keeps P (bindM m k).
Proof.
  intros Hm Hk w Hw. unfold bindM. specialize (Hm w Hw). destruct (m w) as [[a|e] w1]; simpl in *; [|done].
  by apply Hk.
Qed.
Lemma keeps_lift P {A B} (r : result A ApiProblem) (k : A -> M B) :
  (forall a, r = Ok a -> keeps P (k a)) -> keeps P (bindM (lift r) k).
Proof. intros Hk w Hw. destruct r; [|done]. by apply Hk. Qed.
Lemma keeps_read (P : People -> Prop) {B} (k : People -> M B) :
  (forall p, P p -> keeps P (k p)) -> keeps P (bindM read k).
Proof. intros Hk w Hw. by apply Hk. Qed.
Lemma keeps_guard P {B} (b : bool) e (k : unit -> M B) :
  (b = true -> keeps P (k tt)) -> keeps P (bindM (if b then ret tt else fail e) k).
Proof. intros Hk w Hw. destruct b; [|done]. by apply Hk. Qed.
Lemma keeps_guard_not P {B} (b : bool) e (k : unit -> M B) :
  (b = false -> keeps P (k tt)) -> keeps P (bindM (if b then fail e else ret tt) k).
Proof. intros Hk w Hw. destruct b; [done|]. by apply Hk. Qed.
Lemma keeps_change (P : People -> Prop) f : (forall p, P p -> P (f p)) -> keeps P (change f).
Proof. intros Hf w Hw. by apply Hf. Qed.
Lemma keeps_transaction (P : People -> Prop) {A} (f : People -> result (A * People) ApiProblem) :
  (forall p a p', P p -> f p = Ok (a, p') -> P p') -> keeps P (transaction f).
Proof. intros Hf w Hw. unfold transaction. destruct (f _) as [[a p]|] eqn:E; [|done]. by eapply Hf. Qed.

End programs.

(** Walks through a program: what comes before the changes is quiet, the changes
    at the end do not fail. *)
Ltac quietly :=
  repeat first
    [ apply quiet_target | apply quiet_lift | apply quiet_read | apply quiet_kratos | apply quiet_call
    | apply quiet_ret | apply quiet_fail | (apply quiet_bind; [|intros ?])
    | match goal with |- quiet (match ?x with _ => _ end) => destruct x end ].
Ltac surely := repeat first [ apply sure_change | apply sure_ret | (apply sure_bind; [|intros ?]) ].
Ltac safely :=
  repeat first
    [ apply safe_transaction | solve [apply safe_sure; surely]
    | (apply safe_bind; [solve [quietly]|intros ?]) ].

(** Walks through a program that is to keep a property, with what its guards say. *)
Ltac keeping :=
  repeat first
    [ apply keeps_quiet; solve [quietly]
    | apply keeps_lift; intros ? ?
    | apply keeps_read; intros ? ?
    | apply keeps_guard; intros ?
    | apply keeps_guard_not; intros ?
    | apply keeps_change; intros ? ?
    | apply keeps_transaction; intros ? [] ? ? ?
    | apply keeps_bind; [|intros ?] ].

(** What a program did that ended well. *)
Lemma bindM_ok `{Kratos} {A B} (m : M A) (k : A -> M B) w b w' :
  bindM m k w = (Ok b, w') -> exists a w1, m w = (Ok a, w1) /\ k a w1 = (Ok b, w').
Proof. unfold bindM. destruct (m w) as [[a|e] w1]; [eauto|done]. Qed.

Lemma lift_ok `{Kratos} {A} (r : result A ApiProblem) w a w' : lift r w = (Ok a, w') -> r = Ok a /\ w' = w.
Proof. by destruct r; intros [= -> ->]. Qed.

Lemma guard_ok `{Kratos} (b : bool) e w u w' :
  (if b then fail e else ret tt : M unit) w = (Ok u, w') -> b = false /\ w' = w.
Proof. by destruct b; intros [= _ ->]. Qed.

Lemma guard_ok' `{Kratos} (b : bool) e w u w' :
  (if b then ret tt else fail e : M unit) w = (Ok u, w') -> b = true /\ w' = w.
Proof. by destruct b; intros [= _ ->]. Qed.

Lemma change_went `{Kratos} f w u w' : change f w = (Ok u, w') -> w_people w' = f (w_people w).
Proof. by intros [= _ <-]. Qed.

Lemma transaction_ok `{Kratos} {A} (f : People -> result (A * People) ApiProblem) w a w' :
  transaction f w = (Ok a, w') -> f (w_people w) = Ok (a, w_people w').
Proof. unfold transaction. destruct (f _) as [[a' p]|]; [|done]. by intros [= -> <-]. Qed.

Lemma quiet_ok `{Kratos} {A} (m : M A) w a w' : quiet m -> m w = (Ok a, w') -> w_people w' = w_people w.
Proof. intros Hm E. specialize (Hm w). by rewrite E in Hm. Qed.

Lemma target_ok `{Kratos} id w u w' :
  target id w = (Ok u, w') -> pe_users (w_people w) !! id = Some u /\ u_kind u <> lit "deleted" /\ w' = w.
Proof.
  unfold target, bindM, read. destruct (_ !! id) as [u'|]; [|done].
  case_bool_decide; [done|]. by intros [= -> ->].
Qed.

Ltac inv_m H :=
  repeat match type of H with
  | bindM _ _ _ = (Ok _, _) =>
      let a := fresh "a" in let w := fresh "w" in let E := fresh "E" in
      apply bindM_ok in H as (a & w & E & H);
      first [ apply lift_ok in E as [E ->] | apply guard_ok in E as [E ->] | apply guard_ok' in E as [E ->]
            | apply target_ok in E as (E & ? & ->) | apply change_went in E
            | apply quiet_ok in E; [|solve [quietly]] | idtac ]
  end;
  first [apply change_went in H | apply transaction_ok in H | idtac].

(** Takes apart what a handler did to the tables. *)
Ltac unfold_rows :=
  unfold insert_rule, insert_role, insert_member, add_invited, write_group, group_name, drop_group in *.
Ltac tables :=
  repeat match goal with
  | H : match _ with Ok _ => _ | Err _ => _ end = Ok _ |- _ => inv_ok H
  | H : (if ?b then _ else _) = Ok _ |- _ => destruct b eqn:?; try discriminate H
  | H : ok_or ?o _ = Ok _ |- _ => destruct o eqn:?; [|discriminate H]; simpl in H
  end; simplify_eq;
  repeat match goal with
  | |- context [match ?o with _ => _ end] =>
      lazymatch o with context [match _ with _ => _ end] => fail | bool_decide _ => fail | _ => destruct o eqn:? end
  end.

Section theorems.
Context `{UuidText} `{UuidParse} `{Lowercase} `{SqlLower} `{Kratos}.

(** A request about users, groups, roles or rules that is refused, by
    remotehub or because Kratos fails, changes none of remotehub's tables. *)
Theorem refused_changes_nothing (s : Session) (c : PeopleCall) (w w' : PeopleWorld) (e : ApiProblem) :
  run_call s c w = (Err e, w') -> w_people w' = w_people w.
Proof.
  revert w e w'. change (safe (run_call s c)).
  destruct c; simpl; [apply safe_then| | | |apply safe_then|..]; try solve [intros; surely]; safely.
Qed.


(** *** The tables stay in order *)

Record people_ok (p : People) : Prop := {
  ok_group_names : forall i j g h, pe_groups p !! i = Some g -> pe_groups p !! j = Some h ->
    sql_lower (gp_name g) = sql_lower (gp_name h) -> i = j;
  ok_members : forall m, m ∈ pe_members p -> is_Some (pe_groups p !! gm_group m)
    /\ exists who, gm_sid m = principal_text who /\ is_group who = false;
  ok_member_keys : NoDup ((fun m => (gm_group m, gm_sid m)) <$> pe_members p);
  ok_role_names : forall r, r ∈ pe_roles p -> exists o, rr_role r = own_role_as_str o;
  ok_role_keys : NoDup ((fun r => (rr_role r, rr_sid r)) <$> pe_roles p);
  ok_purpose_keys : NoDup (pr_sid <$> pe_purpose p);
  ok_rule_keys : NoDup (pr_sid <$> pe_rules p);
  ok_identities : forall i j u v k, pe_users p !! i = Some u -> pe_users p !! j = Some v ->
    u_identity_id u = Some k -> u_identity_id v = Some k -> i = j;
  ok_deleted : forall i u, pe_users p !! i = Some u -> u_kind u = lit "deleted" -> u_identity_id u = None
}.

Lemma ok_log s a o p : people_ok p -> people_ok (log_people s a o p).
Proof. by intros []. Qed.
Lemma ok_on_sessions f p : people_ok p -> people_ok (on_sessions f p).
Proof. by intros []. Qed.
Lemma ok_on_grants f p : people_ok p -> people_ok (on_people_grants f p).
Proof. by intros []. Qed.
Lemma ok_filter_members (P : MemberRow -> Prop) `{!forall m, Decision (P m)} p :
  people_ok p -> people_ok (on_members (filter P) p).
Proof.
  intros []. split; simpl; try done; [|by apply NoDup_fmap_filter].
  intros m [_ Hm]%list_elem_of_filter. auto.
Qed.
Lemma ok_filter_roles (P : RoleRow -> Prop) `{!forall m, Decision (P m)} p :
  people_ok p -> people_ok (on_roles (filter P) p).
Proof.
  intros []. split; simpl; try done; [|by apply NoDup_fmap_filter].
  intros m [_ Hm]%list_elem_of_filter. auto.
Qed.
Lemma ok_filter_purpose (P : PrincipalRow -> Prop) `{!forall m, Decision (P m)} p :
  people_ok p -> people_ok (on_purpose (filter P) p).
Proof. intros []. split; simpl; try done. by apply NoDup_fmap_filter. Qed.
Lemma ok_filter_rules (P : PrincipalRow -> Prop) `{!forall m, Decision (P m)} p :
  people_ok p -> people_ok (on_rules (filter P) p).
Proof. intros []. split; simpl; try done. by apply NoDup_fmap_filter. Qed.

Lemma ok_insert_member s m p :
  is_Some (pe_groups p !! gm_group m) -> (exists who, gm_sid m = principal_text who /\ is_group who = false) ->
  people_ok p -> people_ok (insert_member s m p).
Proof.
  intros Hg Hw Hok. unfold insert_member. destruct (existsb _ _) eqn:Hno; [done|]. apply ok_log.
  destruct Hok. split; simpl; try done.
  - intros x [Hx| ->%list_elem_of_singleton]%elem_of_app; auto.
  - apply NoDup_fmap_snoc; [done|]. intros x Hx [= E1 E2].
    pose proof (existsb_false _ _ _ Hno Hx) as Hs. unfold same_member in Hs.
    by rewrite E1, E2, !bool_decide_eq_true_2 in Hs.
Qed.

Lemma ok_insert_role s r p :
  (exists o, rr_role r = own_role_as_str o) -> people_ok p -> people_ok (insert_role s r p).
Proof.
  intros Hr Hok. unfold insert_role. destruct (existsb _ _) eqn:Hno; [done|]. apply ok_log.
  destruct Hok. split; simpl; try done.
  - intros x [Hx| ->%list_elem_of_singleton]%elem_of_app; auto.
  - apply NoDup_fmap_snoc; [done|]. intros x Hx [= E1 E2].
    pose proof (existsb_false _ _ _ Hno Hx) as Hs. unfold same_role in Hs.
    by rewrite E1, E2, !bool_decide_eq_true_2 in Hs.
Qed.

Lemma rule_keys rows r :
  existsb (fun r' => bool_decide (pr_sid r' = pr_sid r)) rows = false -> NoDup (pr_sid <$> rows) ->
  NoDup (pr_sid <$> (rows ++ [r])).
Proof.
  intros Hno Hnd. apply NoDup_fmap_snoc; [done|]. intros x Hx E.
  pose proof (existsb_false _ _ _ Hno Hx) as Hs. simpl in Hs. by rewrite E, bool_decide_eq_true_2 in Hs.
Qed.

Lemma ok_insert_purpose s a r p : people_ok p -> people_ok (insert_rule s a on_purpose (pe_purpose p) r p).
Proof.
  intros Hok. unfold insert_rule. destruct (existsb _ _) eqn:Hno; [done|]. apply ok_log.
  destruct Hok. split; simpl; try done. by apply rule_keys.
Qed.

Lemma ok_insert_factor s a r p : people_ok p -> people_ok (insert_rule s a on_rules (pe_rules p) r p).
Proof.
  intros Hok. unfold insert_rule. destruct (existsb _ _) eqn:Hno; [done|]. apply ok_log.
  destruct Hok. split; simpl; try done. by apply rule_keys.
Qed.

Lemma ok_write_group id g p p' : write_group id g p = Ok p' -> people_ok p -> people_ok p'.
Proof.
  unfold write_group. destruct (existsb _ _) eqn:Hno; intros [= <-] []. 
  assert (Hnew : forall i h, pe_groups p !! i = Some h -> sql_lower (gp_name h) = sql_lower (gp_name g) -> i = id).
  { intros i h Hi%elem_of_map_to_list E. pose proof (existsb_false _ _ _ Hno Hi) as Hs. simpl in Hs.
    rewrite E in Hs. rewrite (bool_decide_eq_true_2 _ eq_refl), andb_true_r in Hs. bools. done. }
  split; simpl; try done.
  - intros i j g' h'. rewrite !lookup_insert_Some. intros [[<- <-]|[Hi Hg]] [[<- <-]|[Hj Hh]] E; eauto.
    symmetry. eauto.
  - intros m Hm. destruct (ok_members0 m Hm) as [Hg Hw]. split; [|done].
    apply lookup_insert_is_Some. destruct (decide (id = gm_group m)); auto.
Qed.

Lemma ok_drop_group id p : people_ok p -> people_ok (drop_group id p).
Proof.
  intros Hok. destruct (ok_filter_members (fun m => gm_group m <> id) p Hok). unfold drop_group.
  split; simpl in *; try done.
  - intros i j g h. rewrite !lookup_delete_Some. intros [_ ?] [_ ?]. eauto.
  - intros m Hm. destruct (ok_members0 m Hm) as [Hg Hw]. split; [|done].
    rewrite lookup_delete_ne; [done|]. apply list_elem_of_filter in Hm as [Hne _]. congruence.
Qed.

Lemma alter_rows {V} (f : V -> V) (m : gmap Uuid V) i j v :
  alter f i m !! j = Some v -> exists v0, m !! j = Some v0 /\ (v = v0 \/ v = f v0).
Proof. rewrite lookup_alter_Some. intros [(-> & v0 & -> & ->)|[_ ->]]; eauto. Qed.

Lemma ok_alter_user f id p :
  (forall u k, u_identity_id (f u) = Some k -> u_identity_id u = Some k) ->
  (forall u, (u_kind u = lit "deleted" -> u_identity_id u = None) ->
     u_kind (f u) = lit "deleted" -> u_identity_id (f u) = None) ->
  people_ok p -> people_ok (on_users (alter f id) p).
Proof.
  intros Hf Hd []. split; simpl; try done.
  - intros i j u v k (u0 & Hu & Eu)%alter_rows (v0 & Hv & Ev)%alter_rows Hku Hkv.
    apply (ok_identities0 i j u0 v0 k Hu Hv); [destruct Eu as [->| ->]|destruct Ev as [->| ->]]; auto.
  - intros i u (u0 & Hu & [->| ->])%alter_rows; eauto.
Qed.

Lemma ok_add_invited new_id inv email name p :
  people_ok p -> people_ok (add_invited new_id inv email name p).2.
Proof.
  intros Hok. unfold add_invited. destruct (List.find _ _) as [[i u]|] eqn:Hf; [done|].
  destruct Hok. split; simpl; try done.
  - assert (Hno : forall i u, pe_users p !! i = Some u -> u_identity_id u <> Some (i_identity inv)).
    { intros i u Hu%elem_of_map_to_list%list_elem_of_In E.
      pose proof (List.find_none _ _ Hf _ Hu) as Hn. simpl in Hn. by rewrite E, bool_decide_eq_true_2 in Hn. }
    intros i j u v k. rewrite !lookup_insert_Some. intros [[<- <-]|[Hi Hu]] [[<- <-]|[Hj Hv]] E1 E2; eauto;
      simpl in *; simplify_eq; exfalso; by eapply Hno.
  - intros i u. rewrite lookup_insert_Some. intros [[<- <-]|[_ Hu]]; [done|]. eauto.
Qed.

(** C33: Whatever requests come, the tables of people stay in order: groups have
    distinct names whatever their case, members belong to a group that exists,
    once, and are no groups of remotehub's own, roles are known ones, each
    principal stands once for a role, a purpose and a second factor, and no
    two accounts have the same identity, nor a deleted one any. *)
Theorem people_stay_in_order (s : Session) (c : PeopleCall) (w : PeopleWorld) :
  people_ok (w_people w) -> people_ok (w_people (run_call s c w).2).
Proof.
  revert w. change (keeps people_ok (run_call s c)).
  destruct c; simpl; unfold invite, block, unblock, end_, recovery, delete_user, create_group,
    update_group, delete_group, add_member, remove_member, assign, revoke, require_purpose, waive_purpose,
    require_factor, waive_factor, forget_principal; keeping; try done; unfold group_name in *; tables;
    eauto 10 using ok_log, ok_on_sessions, ok_on_grants, ok_filter_members, ok_filter_roles,
      ok_filter_purpose, ok_filter_rules, ok_insert_role, ok_insert_purpose, ok_insert_factor,
      ok_write_group, ok_drop_group.
  - (* invite *) match goal with E : add_invited ?n ?i ?e ?m ?p0 = _ |- _ =>
      pose proof (ok_add_invited n i e m p0) as Hi; rewrite E in Hi end. by apply ok_log, Hi.
  - (* block *) by apply ok_alter_user.
  - (* unblock *) by apply ok_alter_user.
  - (* delete *) apply ok_alter_user; [done|done|].
    auto 10 using ok_on_grants, ok_filter_members, ok_filter_roles, ok_filter_purpose, ok_filter_rules.
  - (* add_member *) rename select (_ || _ = false) into Hg. apply orb_false_iff in Hg as [Hg _]. apply ok_insert_member; [|eauto|done].
    by apply (fmap_is_Some gp_name).
Qed.
(** *** An administrator remains *)

Definition has_administrator (p : People) : Prop :=
  exists a, a ∈ pe_roles p /\ rr_role a = own_role_as_str Administrator.

(** The calls that take the role from a principal because it goes. *)
Definition deletes (c : PeopleCall) : bool :=
  match c with C_delete_user _ | C_delete_group _ => true | _ => false end.

(** C11: Taking a role away never takes the last administrator: as long as
    nobody deletes an account or a group, requests leave some user or group
    with the role once there is one. *)
Theorem an_administrator_remains (s : Session) (c : PeopleCall) (w : PeopleWorld) :
  deletes c = false -> has_administrator (w_people w) -> has_administrator (w_people (run_call s c w).2).
Proof.
  intros Hc. revert w. change (keeps has_administrator (run_call s c)).
  destruct c; simpl in Hc; try done; simpl; unfold invite, block, unblock, end_, recovery, create_group,
    update_group, add_member, remove_member, assign, revoke, require_purpose, waive_purpose,
    require_factor, waive_factor; keeping; try done; unfold_rows; tables; try done.
  - (* assign *) match goal with H : has_administrator _ |- _ => destruct H as (a' & Ha & Hr) end.
    exists a'. split; [|done]. simpl. set_solver.
  - (* revoke *) rename select (_ && _ = false) into Hl.
    match goal with H : has_administrator _ |- _ => destruct H as (a' & Ha & Hr) end.
    destruct (decide (a0 = Administrator)) as [->|Hne].
    + rewrite bool_decide_eq_true_2 in Hl by done. apply negb_false_iff, existsb_exists in Hl.
      destruct Hl as (x & Hx%list_elem_of_In & Hr'). bools. by exists x.
    + exists a'. split; [|done]. simpl. apply list_elem_of_filter. split; [|done].
      intros [Heq _]. rewrite Hr in Heq. by destruct a0.
Qed.

(** *** Blocked users *)

Definition is_blocked (id : Uuid) (p : People) : Prop :=
  exists u, pe_users p !! id = Some u /\ is_Some (blocked_at u).

(** What may happen after a user was blocked: requests that do not unblock
    them, with fresh keys, and anything that happens to sessions. *)
Inductive later (id : Uuid) : PeopleWorld -> PeopleWorld -> Prop :=
| later_call (s : Session) (c : PeopleCall) (w : PeopleWorld) :
    c <> C_unblock id -> (forall input, c <> C_invite id input) -> later id w (run_call s c w).2
| later_sessions (f : gmap (list Z) SessionRow -> gmap (list Z) SessionRow) (w : PeopleWorld) :
    later id w {| w_kratos := w_kratos w; w_kratos_set := w_kratos_set w;
                  w_people := on_sessions f (w_people w) |}.

Lemma blocked_alter id id' f p :
  (id = id' -> forall u, is_Some (blocked_at u) -> is_Some (blocked_at (f u))) ->
  is_blocked id p -> is_blocked id (on_users (alter f id') p).
Proof.
  intros Hf (u & Hu & Hb). unfold is_blocked. simpl. destruct (decide (id' = id)) as [->|Hne].
  - rewrite lookup_alter_eq, Hu. eexists. split; [done|]. by apply Hf.
  - rewrite lookup_alter_ne by done. eauto.
Qed.

Lemma later_blocked id w w' : later id w w' -> is_blocked id (w_people w) -> is_blocked id (w_people w').
Proof.
  intros [s c w0 Hu Hi|f w0]; [|done]. revert w0. change (keeps (is_blocked id) (run_call s c)).
  destruct c; simpl; unfold invite, block, unblock, end_, recovery, delete_user, create_group,
    update_group, delete_group, add_member, remove_member, assign, revoke, require_purpose, waive_purpose,
    require_factor, waive_factor, forget_principal; keeping; try done; unfold_rows; tables; try done;
    try (apply blocked_alter; [|done]; intros -> u Hb; done || (by destruct (blocked_at u)));
    try done.
  rename select (is_blocked id p) into Hbl. destruct Hbl as (u & Hu' & Hb). exists u. split; [|done]. simpl.
  rewrite lookup_insert_ne; [done|]. intros ->. by apply (Hi input).
Qed.

Lemma block_ok s now id w w' :
  block s now id w = (Ok tt, w') ->
  exists u, pe_users (w_people w) !! id = Some u
  /\ pe_users (w_people w') = alter (set_blocked (fun b => Some (default now b))) id (pe_users (w_people w))
  /\ pe_sessions (w_people w') = filter (fun hr => s_user_id hr.2 <> id) (pe_sessions (w_people w)).
Proof.
  unfold block. intros Hb. inv_m Hb. exists a0. split; [done|].
  by rewrite Hb, E4, E3, E2.
Qed.

(** A user who was blocked is out: their sessions are gone, those of others
    stay, and until someone unblocks them no session of theirs opens anything,
    whatever requests come and whatever sessions begin. *)
Theorem blocked_stays_out (s : Session) (now : Z) (id : Uuid) (w w1 w2 : PeopleWorld) :
  block s now id w = (Ok tt, w1) -> rtc (later id) w1 w2 ->
  (forall h r, pe_sessions (w_people w1) !! h = Some r <->
     pe_sessions (w_people w) !! h = Some r /\ s_user_id r <> id)
  /\ (forall h t idle x, by_hash (session_db (w_people w2)) t h idle = Some x -> user_id x <> id).
Proof.
  intros (u & Hu & Hus & Hss)%block_ok Hl. split.
  { intros h r. by rewrite Hss, map_lookup_filter_Some. }
  assert (Hb : is_blocked id (w_people w2)).
  { apply (rtc_closed (later id) (fun w => is_blocked id (w_people w)) w1 w2); [|done|].
    - intros x y Hx Hxy. by eapply later_blocked.
    - exists (set_blocked (fun b => Some (default now b)) u). rewrite Hus, lookup_alter_eq, Hu. split; [done|].
      by destruct (blocked_at u). }
  destruct Hb as (v & Hv & Hbl). intros h t idle x. unfold by_hash. simpl.
  destruct (pe_sessions _ !! h) as [r|]; [|done]. destruct (pe_users _ !! s_user_id r) as [v'|] eqn:Hv'; [|done].
  destruct (negb (is_some (blocked_at v')) && _ && _) eqn:Hc; intros [= <-]; simpl.
  intros Heq. rewrite Heq, Hv in Hv'. simplify_eq. bools.
  rename select (is_some _ = false) into Hn. apply is_some_false in Hn. rewrite Hn in Hbl. by destruct Hbl.
Qed.

(** *** Groups, members and roles *)

Lemma elem_of_memberships p r u g :
  g ∈ memberships_of (session_db p) r u <->
  exists m, m ∈ pe_members p /\ g = principal_text (Group (gm_group m))
    /\ names_user (s_groups r) u (gm_sid m) = true.
Proof.
  unfold memberships_of. rewrite elem_of_remove_dups, list_elem_of_fmap. simpl.
  setoid_rewrite list_elem_of_filter. setoid_rewrite list_elem_of_fmap. split.
  - intros ([i t] & -> & Hn & m & [= -> ->] & Hm). eauto.
  - intros (m & Hm & -> & Hn). exists (gm_group m, gm_sid m). eauto.
Qed.

Lemma elem_of_roles p r u k :
  k ∈ roles_of (session_db p) r u <->
  exists a, a ∈ pe_roles p /\ k = rr_role a
    /\ names_user (s_groups r ++ memberships_of (session_db p) r u) u (rr_sid a) = true.
Proof.
  unfold roles_of. rewrite elem_of_remove_dups, list_elem_of_fmap. simpl.
  setoid_rewrite list_elem_of_filter. setoid_rewrite list_elem_of_fmap. split.
  - intros ([i t] & -> & Hn & a & [= -> ->] & Ha). eauto.
  - intros (a & Ha & -> & Hn). exists (rr_sid a, rr_role a). eauto.
Qed.

Lemma names_user_iff l u x :
  names_user l u x = true <-> x ∈ l \/ u_sid u = Some x \/ local_principal <$> u_identity_id u = Some x.
Proof. unfold names_user. rewrite !orb_true_iff, !bool_decide_eq_true. tauto. Qed.

(** The tables of a user without a group. *)
Definition only_loses (g : list Z) (p p' : People) : Prop :=
  forall r u,
    (forall x, x ∈ memberships_of (session_db p') r u <-> x ∈ memberships_of (session_db p) r u /\ x <> g)
    /\ (forall k, k ∈ roles_of (session_db p') r u <->
         exists a, a ∈ pe_roles p /\ k = rr_role a /\ rr_sid a <> g
           /\ names_user (s_groups r ++ memberships_of (session_db p) r u) u (rr_sid a) = true).

Lemma insert_member_rows s m0 p (Q : Uuid -> list Z -> Prop) :
  (exists m, m ∈ pe_members (insert_member s m0 p) /\ Q (gm_group m) (gm_sid m)) <->
  (exists m, m ∈ pe_members p /\ Q (gm_group m) (gm_sid m)) \/ Q (gm_group m0) (gm_sid m0).
Proof.
  unfold insert_member. destruct (existsb _ _) eqn:Hs; [|by apply (exists_snoc _ _ (fun m => Q (gm_group m) (gm_sid m)))].
  split; [by left|]. intros [?|Hq]; [done|].
  apply existsb_exists in Hs as (m & Hm%list_elem_of_In & Hs). unfold same_member in Hs. bools.
  exists m. split; [done|]. by rewrite <- H4, <- H5.
Qed.

Lemma insert_role_rows s r0 p (Q : list Z -> list Z -> Prop) :
  (exists a, a ∈ pe_roles (insert_role s r0 p) /\ Q (rr_role a) (rr_sid a)) <->
  (exists a, a ∈ pe_roles p /\ Q (rr_role a) (rr_sid a)) \/ Q (rr_role r0) (rr_sid r0).
Proof.
  unfold insert_role. destruct (existsb _ _) eqn:Hs; [|by apply (exists_snoc _ _ (fun m => Q (rr_role m) (rr_sid m)))].
  split; [by left|]. intros [?|Hq]; [done|].
  apply existsb_exists in Hs as (m & Hm%list_elem_of_In & Hs). unfold same_role in Hs. bools.
  exists m. split; [done|]. by rewrite <- H4, <- H5.
Qed.

Lemma role_named_ok n r : role_named n = Ok r -> own_role_as_str r = n.
Proof.
  unfold role_named, own_role_parse. destruct (list_find _ _) as [[i x]|] eqn:Hf; simpl; [|done].
  intros [= ->]. by apply list_find_Some in Hf as (_ & ? & _).
Qed.

Context (Hinj : Inj (=) (=) (uuid_text : Uuid -> list Z)).

(** Deleting a group takes from every user exactly the membership in it and
    the roles they had by it alone, with every grant and rule that names it. *)
Theorem deleted_group_gives_nothing (s : Session) (id : Uuid) (w w' : PeopleWorld) :
  let g := principal_text (Group id) in
  delete_group s id w = (Ok tt, w') ->
  only_loses g (w_people w) (w_people w')
  /\ (forall x, x ∈ pe_grants (w_people w') <-> x ∈ pe_grants (w_people w) /\ gr_principal_sid x <> g)
  /\ (forall x, x ∈ pe_purpose (w_people w') <-> x ∈ pe_purpose (w_people w) /\ pr_sid x <> g)
  /\ (forall x, x ∈ pe_rules (w_people w') <-> x ∈ pe_rules (w_people w) /\ pr_sid x <> g)
  /\ pe_groups (w_people w') = delete id (pe_groups (w_people w)).
Proof.
  intros g Hd. unfold delete_group in Hd. inv_m Hd. fold g in Hd. tables. rename select (log_people _ _ _ _ = _) into Hp.
  set (p := w_people w) in *. set (p' := w_people w') in *.
  assert (Hm : forall r u x, x ∈ memberships_of (session_db p') r u <->
                 x ∈ memberships_of (session_db p) r u /\ x <> g).
  { intros r u x. rewrite !elem_of_memberships, <- Hp. simpl. setoid_rewrite list_elem_of_filter. split.
    - intros (m & [Hne Hin] & -> & Hn). split; [eauto|]. unfold g. simpl.
      intros [= Heq]. by apply Hne, Hinj.
    - intros [(m & Hin & -> & Hn) Hne]. exists m. split_and!; try done. intros Heq. apply Hne. unfold g. by rewrite Heq. }
  split; [|rewrite <- Hp; simpl; split_and!; try done; intros x; rewrite list_elem_of_filter; tauto].
  intros r u. split; [by apply Hm|]. intros k. rewrite elem_of_roles.
  replace (pe_roles p') with (filter (fun a => rr_sid a <> g) (pe_roles p)) by (by rewrite <- Hp).
  setoid_rewrite list_elem_of_filter. split.
  - intros (a & [Hne Hin] & -> & Hn). exists a. split_and!; try done.
    apply names_user_iff in Hn. apply names_user_iff. rewrite elem_of_app, Hm in Hn. set_solver.
  - intros (a & Hin & -> & Hne & Hn). exists a. split_and!; try done.
    apply names_user_iff in Hn. apply names_user_iff. rewrite elem_of_app, Hm. set_solver.
Qed.

(** Adding or removing a member changes the memberships of exactly the users
    the member's principal names, and giving or taking a role changes the
    roles of exactly the users its principal names, by themselves, by a
    directory group or by a group of remotehub's own. *)
Theorem members_and_roles_change_exactly (s : Session) (c : PeopleCall) (w w' : PeopleWorld)
    (r : SessionRow) (u : UserRow) :
  run_call s c w = (Ok tt, w') ->
  let old := session_db (w_people w) in let new := session_db (w_people w') in
  match c with
  | C_add_member id sid _ => forall who, principal_from_str sid = Some who -> forall x,
      x ∈ memberships_of new r u <->
      x ∈ memberships_of old r u
      \/ (x = principal_text (Group id) /\ names_user (s_groups r) u (principal_text who) = true)
  | C_remove_member id sid => forall x,
      x ∈ memberships_of new r u <->
      exists m, m ∈ pe_members (w_people w) /\ ~ (gm_group m = id /\ gm_sid m = sid)
        /\ x = principal_text (Group (gm_group m)) /\ names_user (s_groups r) u (gm_sid m) = true
  | C_assign role sid _ => forall who, principal_from_str sid = Some who -> forall k,
      k ∈ roles_of new r u <->
      k ∈ roles_of old r u
      \/ (k = role /\ names_user (s_groups r ++ memberships_of old r u) u (principal_text who) = true)
  | C_revoke role sid => forall k,
      k ∈ roles_of new r u <->
      exists a, a ∈ pe_roles (w_people w) /\ ~ (rr_role a = role /\ rr_sid a = sid) /\ k = rr_role a
        /\ names_user (s_groups r ++ memberships_of old r u) u (rr_sid a) = true
  | _ => True
  end.
Proof.
  intros Hr old new. destruct c; try done; simpl in Hr.
  - intros who Hwho x. unfold add_member in Hr. inv_m Hr. simplify_eq. tables. unfold old, new.
    rename select (insert_member _ _ _ = _) into Hp. rewrite !elem_of_memberships, <- Hp, E1.
    by apply (insert_member_rows s {| gm_group := id; gm_sid := _; gm_kind := _; gm_name := _ |} _
      (fun g y => x = principal_text (Group g) /\ names_user (s_groups r) u y = true)).
  - intros x. unfold remove_member in Hr. inv_m Hr. tables. unfold new.
    rename select (log_people _ _ _ _ = _) into Hp. rewrite elem_of_memberships, <- Hp. simpl.
    setoid_rewrite list_elem_of_filter. naive_solver.
  - intros who Hwho k. unfold assign in Hr. inv_m Hr. simplify_eq. tables. unfold old, new.
    apply role_named_ok in E0 as <-.
    assert (Hm : memberships_of (session_db (w_people w')) r u = memberships_of (session_db (w_people w)) r u).
    { rewrite Hr, E2. unfold insert_role. by destruct (existsb _ _). }
    rewrite !elem_of_roles, Hm, Hr, E2.
    apply (insert_role_rows s {| rr_role := own_role_as_str a0; rr_sid := _; rr_kind := _; rr_name := _ |} _
      (fun k' y => k = k' /\ names_user (s_groups r ++ memberships_of (session_db (w_people w)) r u) u y = true)).
  - intros k. unfold revoke in Hr. inv_m Hr. tables. unfold old, new. apply role_named_ok in E0 as <-.
    rename select (log_people _ _ _ _ = _) into Hp.
    assert (Hm : memberships_of (session_db (w_people w')) r u = memberships_of (session_db (w_people w)) r u)
      by (by rewrite <- Hp).
    rewrite elem_of_roles, Hm, <- Hp. simpl. setoid_rewrite list_elem_of_filter. naive_solver.
Qed.

(** *** Deleted accounts *)

(** No row names a local account, and no user has its identity. *)
Record unnamed (k : Uuid) (p : People) : Prop := {
  un_members : forall m, m ∈ pe_members p -> gm_sid m <> local_principal k;
  un_roles : forall r, r ∈ pe_roles p -> rr_sid r <> local_principal k;
  un_purpose : forall r, r ∈ pe_purpose p -> pr_sid r <> local_principal k;
  un_rules : forall r, r ∈ pe_rules p -> pr_sid r <> local_principal k;
  un_grants : forall g, g ∈ pe_grants p -> gr_principal_sid g <> local_principal k;
  un_users : forall i u, pe_users p !! i = Some u -> u_identity_id u <> Some k
}.

Lemma principal_text_local s who k :
  principal_from_str s = Some who -> principal_text who = local_principal k -> who = Local k.
Proof.
  unfold principal_from_str. intros Hs Ht. destruct who as [x|i|i]; cbn [principal_text] in Ht.
  - exfalso. destruct (strip_prefix (lit "local:") s) as [y|] eqn:Hl.
    { by apply fmap_Some in Hs as (? & _ & ?). }
    destruct (strip_prefix (lit "group:") s) as [y|].
    { by apply fmap_Some in Hs as (? & _ & ?). }
    apply fmap_Some in Hs as (y & Hy & [= <-]).
    assert (x = s) as -> by (unfold sid_from_str in Hy; repeat (case_match; simplify_eq; try done)).
    rewrite Ht in Hl. unfold local_principal in Hl.
    by rewrite (proj2 (strip_prefix_Some (lit "local:") _ (uuid_text k)) eq_refl) in Hl.
  - unfold local_principal in Ht. apply app_inv_head in Ht. by apply Hinj in Ht as ->.
  - exfalso. unfold local_principal in Ht. discriminate Ht.
Qed.

Lemma unnamed_check k p kind who :
  unnamed k p -> people_check p kind who = true -> who <> Local k.
Proof.
  intros Hu Hc ->. unfold people_check, principal_check in Hc. bools.
  rename select (k ∈ locals_of p) into Hk. unfold locals_of in Hk.
  apply elem_of_list_to_set, list_elem_of_omap in Hk as ([i u] & Hi%elem_of_map_to_list & Hk).
  simpl in Hk. case_bool_decide; [|done]. by apply (un_users k p Hu i u).
Qed.

Lemma unnamed_text k p sid kind who :
  unnamed k p -> principal_from_str sid = Some who -> people_check p kind who = true ->
  principal_text who <> local_principal k.
Proof. intros Hu Hw Hc Ht. by apply (unnamed_check k p kind who), (principal_text_local sid). Qed.

Lemma unnamed_alter k f id p :
  (forall u, u_identity_id (f u) = Some k -> u_identity_id u = Some k) ->
  unnamed k p -> unnamed k (on_users (alter f id) p).
Proof.
  intros Hf []. split; try done. intros i u (u0 & Hu & [->| ->])%alter_rows; [eauto|].
  intros ?%Hf. by eapply un_users0.
Qed.

(** Calls that invite nobody: Kratos gives each account it makes an identity of
    its own. *)
Definition invites (c : PeopleCall) : bool := match c with C_invite _ _ => true | _ => false end.

Lemma unnamed_kept k s c : invites c = false -> keeps (unnamed k) (run_call s c).
Proof.
  intros Hc. destruct c; simpl in Hc; try done; simpl; unfold block, unblock, end_, recovery, delete_user,
    create_group, update_group, delete_group, add_member, remove_member, assign, revoke, require_purpose,
    waive_purpose, require_factor, waive_factor, forget_principal; keeping; try done; unfold_rows; tables;
    try done.
  all: try (apply unnamed_alter; [done|]).
  all: split; simpl; try by eauto using un_members, un_roles, un_purpose, un_rules, un_grants, un_users.
  all: intros ?; rewrite ?elem_of_app, ?list_elem_of_filter, ?list_elem_of_singleton;
    first [intros [? ?]|intros [?| ->]];
    try by eauto using un_members, un_roles, un_purpose, un_rules, un_grants, un_users.
  all: simpl; try rename select (_ || _ = false) into Hg; bools;
    match goal with Hc : people_check ?p _ _ = true |- _ => by eapply (unnamed_text k p) end.
Qed.

(** A local account that was deleted is gone for good: its sessions ended,
    its row names no identity, and whatever requests come later, no group,
    role, purpose, rule or grant names it. *)
Theorem deleted_account_stays_gone (s : Session) (id : Uuid) (w w1 w2 : PeopleWorld) :
  people_ok (w_people w) -> delete_user s id w = (Ok tt, w1) ->
  rtc (fun w w' => exists s c, invites c = false /\ w' = (run_call s c w).2) w1 w2 ->
  (forall h r, pe_sessions (w_people w1) !! h = Some r ->
     pe_sessions (w_people w) !! h = Some r /\ s_user_id r <> id)
  /\ exists u k, pe_users (w_people w) !! id = Some u /\ u_identity_id u = Some k /\ unnamed k (w_people w2).
Proof.
  intros Hok Hd Hl. unfold delete_user in Hd. inv_m Hd. tables.
  rewrite E6, E5, E4, E3 in Hd. unfold target_identity in E1. destruct (u_identity_id a0) as [k|] eqn:Hk; [|done].
  injection E1 as <-. split.
  { intros h r. rewrite Hd. simpl. by rewrite map_lookup_filter_Some. }
  exists a0, k. split; [done|]. split; [done|].
  apply (rtc_closed (fun w w' => exists s c, invites c = false /\ w' = (run_call s c w).2)
    (fun w => unnamed k (w_people w)) w1 w2); [|done|].
  { intros x y Hx (s' & c & Hc & ->). by apply unnamed_kept. }
  rewrite Hd. split; simpl; try (by intros ? [Hne _]%list_elem_of_filter; exact Hne).
  intros i u. rewrite lookup_alter_Some. intros [(-> & u0 & Hu & ->)|[Hne Hu]]; [done|].
  intros Hi. by apply Hne, (ok_identities _ Hok id i a0 u k).
Qed.

(** *** Listing *)

Lemma drain_all {K R} (belongs : K -> R -> bool) (ks : list K) (rows : list R) :
  NoDup ks -> (forall k k' r, k ∈ ks -> k' ∈ ks -> belongs k r = true -> belongs k' r = true -> k = k') ->
  drain belongs ks rows = (fun k => (k, filter (fun r => belongs k r = true) rows)) <$> ks.
Proof.
  revert rows. induction ks as [|k ks IH]; intros rows Hnd Hd; [done|].
  apply NoDup_cons in Hnd as [Hk Hnd]. simpl. f_equal.
  rewrite IH; [|done|intros; eapply Hd; set_solver].
  apply list_fmap_ext. intros i k' Hk'%list_elem_of_lookup_2. f_equal.
  rewrite list_filter_filter. apply list_filter_iff. intros r. split; [tauto|].
  intros Hr. split; [done|]. destruct (belongs k r) eqn:Hb; [|done]. exfalso. apply Hk.
  by rewrite (Hd k k' r) by set_solver.
Qed.

(** What the lists show is what a query for each group and each role would:
    every group with exactly its members, and each role with exactly the
    principals that have it. *)
Theorem lists_show_the_rows (s : Session) (p : People) :
  list_groups s p = (if is_admin s
    then Ok ((fun g => (g, filter (fun m => gm_group m = g.1) (pe_members p))) <$> map_to_list (pe_groups p))
    else Err AP_Forbidden)
  /\ list_roles s p = (if is_auditor s
    then Ok ((fun r => (r, filter (fun a => rr_role a = own_role_as_str r) (pe_roles p))) <$> own_role_all)
    else Err AP_Forbidden).
Proof.
  unfold list_groups, list_roles, require_admin. split.
  - destruct (is_admin s); [|done]. rewrite drain_all.
    + f_equal. apply list_fmap_ext. intros i g _. f_equal. apply list_filter_iff. intros m.
      by rewrite bool_decide_eq_true.
    + apply NoDup_map_to_list.
    + intros [i g] [j h] m Hi%elem_of_map_to_list Hj%elem_of_map_to_list. simpl.
      rewrite !bool_decide_eq_true. intros -> ->. by simplify_eq.
  - destruct (is_auditor s); [|done]. simpl negb. cbv iota. rewrite drain_all.
    + f_equal. apply list_fmap_ext. intros i g _. f_equal. apply list_filter_iff. intros m.
      by rewrite bool_decide_eq_true.
    + unfold own_role_all. repeat (apply NoDup_cons; split; [set_solver|]). apply NoDup_nil_2.
    + intros r r' a _ _. rewrite !bool_decide_eq_true. intros -> E. by destruct r, r'.
Qed.

End theorems.

(** ** Examples *)

Module PeopleExamples.
Import RequestExamples.

#[local] Instance signed_uuid : UuidText := decimal_signed.
#[local] Instance signed_uuid_inj : Inj (=) (=) (uuid_text : Uuid -> list Z).
Proof. intros i j. apply decimal_signed_inj. Qed.
#[local] Instance uuid_decimal : UuidParse := parse_unsigned (2 ^ 128 - 1).
#[local] Instance same_case : Lowercase := fun s => s.
#[local] Instance same_case_sql : SqlLower := fun s => s.

(** A Kratos that counts its calls and answers all of them. *)
#[local] Instance willing : Kratos := {
  KratosState := Z;
  kratos_invite email name n := (Ok {| i_identity := 100 + n; i_code := decimal n |}, n + 1);
  kratos_set_active i b n := (Ok tt, n + 1);
  kratos_revoke_all i n := (Ok tt, n + 1);
  kratos_remove_second_factors i n := (Ok tt, n + 1);
  kratos_recovery_code i n := (Ok {| i_identity := i; i_code := decimal n |}, n + 1);
  kratos_delete i n := (Ok tt, n + 1)
}.

Definition row (n : string) (i : Uuid) : UserRow :=
  {| u_username := lit n; u_display_name := lit n; u_kind := lit "local"; u_sid := None; u_upn := None;
     u_identity_id := Some i; blocked_at := None |}.

Definition session_of (user : Uuid) : SessionRow :=
  {| s_id := user; s_user_id := user; s_groups := []; s_client := lit "web"; last_seen_at := 0;
     expires_at := 1000 * minute; confirmed_at := None; confirm_failures := 0 |}.

(** Alice and the boss, both signed in; the group 5 has the only role of an
    administrator, and Alice is in it. *)
Definition people0 : People :=
  {| pe_users := {[1 := row "alice" 1; 2 := row "boss" 2]};
     pe_sessions := {[[1] := session_of 1; [2] := session_of 2]};
     pe_groups := {[5 := {| gp_name := lit "Ops"; gp_description := [] |}]};
     pe_members := [{| gm_group := 5; gm_sid := lit "local:1"; gm_kind := lit "user"; gm_name := lit "alice" |}];
     pe_roles := [{| rr_role := lit "administrator"; rr_sid := lit "group:5"; rr_kind := lit "group";
                     rr_name := lit "Ops" |}];
     pe_purpose := []; pe_rules := []; pe_grants := []; pe_log := [] |}.

Definition w0 : PeopleWorld := {| w_kratos := 0; w_kratos_set := true; w_people := people0 |}.

Definition after (c : PeopleCall) : PeopleWorld := (run_call boss c w0).2.

Definition roles_now (w : PeopleWorld) : option (list (list Z)) :=
  roles <$> by_hash (session_db (w_people w)) 0 [1] (10 * minute).

Example people_story :
  roles_now w0 = Some [lit "administrator"]
  /\ (run_call boss (C_revoke (lit "administrator") (lit "group:5")) w0).1 = Err AP_LastAdministrator
  /\ (run_call alice (C_block 0 2) w0).1 = Err AP_Forbidden
  /\ (run_call boss (C_block 0 2) w0).1 = Err AP_Forbidden
  /\ (run_call boss (C_create_group 6 {| gi_name := lit " Ops "; gi_description := [] |}) w0).1 = Err AP_NameTaken
  /\ w_kratos (after (C_block 0 1)) = 2
  /\ roles_now (after (C_block 0 1)) = None.
Proof. split_and!; vm_compute; reflexivity. Qed.

Lemma refused_changes_nothing_witness :
  w_people (after (C_revoke (lit "administrator") (lit "group:5"))) = people0.
Proof.
  apply (refused_changes_nothing boss (C_revoke (lit "administrator") (lit "group:5")) w0
    (after (C_revoke (lit "administrator") (lit "group:5"))) AP_LastAdministrator).
  vm_compute. reflexivity.
Defined.

Lemma people0_ok : people_ok people0.
Proof.
  split; simpl; try apply NoDup_singleton; try apply NoDup_nil_2.
  - intros i j g h. rewrite !lookup_singleton_Some. by intros [<- <-] [<- <-].
  - intros m ->%list_elem_of_singleton. split; [by eexists|]. by exists (Local 1).
  - intros r ->%list_elem_of_singleton. by exists Administrator.
  - intros i j u v k. rewrite !lookup_insert_Some, !lookup_singleton_Some.
    intros [[<- <-]|(_ & <- & <-)] [[<- <-]|(_ & <- & <-)]; simpl; congruence.
  - intros i u. rewrite !lookup_insert_Some, !lookup_singleton_Some.
    by intros [[<- <-]|(_ & <- & <-)].
Qed.

Lemma people_stay_in_order_witness : people_ok (w_people (after (C_delete_user 1))).
Proof. apply (people_stay_in_order boss (C_delete_user 1) w0 people0_ok). Defined.

(** Somebody else has the role too. *)
Definition w_auditors : PeopleWorld :=
  (run_call boss (C_assign (lit "administrator") (lit "local:2")
     {| mi_kind := lit "user"; mi_name := lit "boss" |}) w0).2.

Lemma an_administrator_remains_witness :
  has_administrator (w_people (run_call boss (C_revoke (lit "administrator") (lit "group:5")) w_auditors).2).
Proof.
  apply (an_administrator_remains boss (C_revoke (lit "administrator") (lit "group:5")) w_auditors eq_refl).
  eexists. split; [left|reflexivity].
Defined.

Definition ended (h : Z) (w : PeopleWorld) : bool := negb (is_some (pe_sessions (w_people w) !! [h])).

Lemma block_done : block boss 7 1 w0 = (Ok tt, after (C_block 7 1)).
Proof. vm_compute. reflexivity. Qed.

(** Alice is blocked, and a session begins for her all the same. *)
Definition w_late : PeopleWorld :=
  {| w_kratos := w_kratos (after (C_block 7 1)); w_kratos_set := true;
     w_people := on_sessions (insert [9] (session_of 1)) (w_people (after (C_block 7 1))) |}.

Lemma blocked_stays_out_witness :
  by_hash (session_db (w_people w_late)) 8 [9] (10 * minute) = None /\ ended 1 (after (C_block 7 1)) = true.
Proof.
  destruct (blocked_stays_out boss 7 1 w0 (after (C_block 7 1)) w_late block_done) as [Hs Hb].
  { apply rtc_once. apply (later_sessions 1 (insert [9] (session_of 1)) (after (C_block 7 1))). }
  split.
  - destruct (by_hash _ _ _ _) as [x|] eqn:Hx; [|reflexivity]. exfalso.
    apply (Hb _ _ _ _ Hx). vm_compute in Hx. discriminate Hx.
  - unfold ended. destruct (pe_sessions _ !! [1]) as [r|] eqn:Hr; [|reflexivity]. exfalso.
    destruct (proj1 (Hs [1] r) Hr) as [H1 H2]. vm_compute in H1. injection H1 as <-. by apply H2.
Defined.

Lemma group_deleted : delete_group boss 5 w0 = (Ok tt, after (C_delete_group 5)).
Proof. vm_compute. reflexivity. Qed.

Lemma deleted_group_gives_nothing_witness :
  ~ lit "administrator" ∈ roles_of (session_db (w_people (after (C_delete_group 5)))) (session_of 1) (row "alice" 1).
Proof.
  destruct (deleted_group_gives_nothing signed_uuid_inj boss 5 w0 (after (C_delete_group 5)) group_deleted)
    as [Hl _].
  destruct (Hl (session_of 1) (row "alice" 1)) as [_ Hr]. rewrite Hr.
  intros (a & Ha & _ & Hne & _). apply list_elem_of_singleton in Ha as ->. by apply Hne.
Defined.

Definition auditing : PeopleCall :=
  C_assign (lit "auditor") (lit "local:1") {| mi_kind := lit "user"; mi_name := lit "alice" |}.

Lemma auditing_done : run_call boss auditing w0 = (Ok tt, after auditing).
Proof. vm_compute. reflexivity. Qed.

Lemma members_and_roles_change_exactly_witness :
  lit "auditor" ∈ roles_of (session_db (w_people (after auditing))) (session_of 1) (row "alice" 1).
Proof.
  apply (members_and_roles_change_exactly boss auditing w0 (after auditing) (session_of 1) (row "alice" 1)
    auditing_done (Local 1)); [vm_compute; reflexivity|].
  right. split; [reflexivity|vm_compute; reflexivity].
Defined.

Lemma account_deleted : delete_user boss 1 w0 = (Ok tt, after (C_delete_user 1)).
Proof. vm_compute. reflexivity. Qed.

Lemma deleted_account_stays_gone_witness : unnamed 1 (w_people (after (C_delete_user 1))).
Proof.
  destruct (deleted_account_stays_gone signed_uuid_inj boss 1 w0 (after (C_delete_user 1))
    (after (C_delete_user 1)) people0_ok account_deleted) as (_ & u & k & Hu & Hk & Hn); [apply rtc_refl|].
  vm_compute in Hu. injection Hu as <-. injection Hk as <-. exact Hn.
Defined.

(** Alice, an administrator by her group alone, deletes the group: nobody is
    left with the role, though taking the role from the group is refused. *)
Example deleting_a_group_leaves_no_administrator :
  (run_call (user 1 "alice" true) (C_revoke (lit "administrator") (lit "group:5")) w0).1
    = Err AP_LastAdministrator
  /\ (run_call (user 1 "alice" true) (C_delete_group 5) w0).1 = Ok tt
  /\ pe_roles (w_people (run_call (user 1 "alice" true) (C_delete_group 5) w0).2) = [].
Proof. split_and!; vm_compute; reflexivity. Qed.

End PeopleExamples.
