(* ===== verification/Webauthn.v ===== *)
(** * Security keys (crates/server/src/webauthn.rs)

    The checks of a registration and of an assertion, and the reader of the
    keys Kratos keeps (CBOR). Base64, JSON, SHA-256 and P-256 belong to other
    crates: parameters. The reader's position is what is left to read. *)
From S2P Require Import Prelude Text Utf8 Sid Session.

Definition ES256 : Z := -7.

Record RelyingParty := { rp_id : list Z; rp_origin : list Z }.

Inductive WebauthnError :=
| Malformed (what : string) | Mismatch | NotPresent | AlgorithmError | SignatureError | CounterError.

#[export] Instance webauthn_error_eq_dec : EqDecision WebauthnError.
Proof. solve_decision. Defined.

Record ClientData := { cd_kind : list Z; cd_challenge : list Z; cd_origin : list Z }.

(** [URL_SAFE_NO_PAD] (crate [base64]). *)
Class Base64Url := {
  b64url_encode : list Z -> list Z;
  b64url_decode : list Z -> option (list Z)
}.

(** [serde_json::from_slice]. *)
Class ClientDataJson := client_data_from_slice : list Z -> option ClientData.

(** ECDSA on P-256 with SHA-256 (crate [p256]). *)
Class P256 := {
  VerifyingKey : Type;
  Signature : Type;
  from_sec1_bytes : list Z -> option VerifyingKey;
  from_public_key_der : list Z -> option VerifyingKey;
  to_sec1_point : VerifyingKey -> list Z;
  signature_from_der : list Z -> option Signature;
  key_verify : VerifyingKey -> list Z -> Signature -> bool
}.

(** [str::split_once] with a string. *)
Fixpoint split_once_str (sep s : str) : option (list Z * list Z) :=
  match strip_prefix sep s with
  | Some rest => Some ([], rest)
  | None => match s with
            | [] => None
            | c :: s => (fun ab => (c :: ab.1, ab.2)) <$> split_once_str sep s
            end
  end.

(** [RelyingParty::of] *)
Definition rp_of (origin : str) : RelyingParty :=
  let rest := match split_once_str (lit "://") origin with Some (_, rest) => rest | None => origin end in
  {| rp_id := default [] (head (split_by (fun c => (c =? 47) || (c =? 58)) rest));
     rp_origin := trim_end_matches 47 origin |}.

Definition from_be_bytes (bs : list Z) : Z := from_le_bytes (reverse bs).

Record Registration := {
  rg_raw_id : list Z;
  rg_client_data : list Z;
  rg_authenticator_data : list Z;
  rg_public_key : list Z;
  rg_algorithm : Z
}.

Record Assertion := {
  as_raw_id : list Z;
  as_client_data : list Z;
  as_authenticator_data : list Z;
  as_signature : list Z
}.

(** A registered key: its credential ID, public key and counter. *)
Record NewKey := { nk_credential_id : list Z; nk_public_key : list Z; nk_counter : Z }.

Section webauthn.
Context `{Base64Url} `{ClientDataJson} `{P256} `{Sha256}.

Definition decode (text : str) (what : string) : result (list Z) WebauthnError :=
  ok_or (b64url_decode (utf8 (trim_end_matches 61 text))) (Malformed what).

Definition check_client_data (rp : RelyingParty) (kind : str) (challenge client_data : list Z) :
    result unit WebauthnError :=
  let? data := ok_or (client_data_from_slice client_data) (Malformed "clientDataJSON") in
  let? sent := decode (cd_challenge data) "challenge" in
  if negb (bool_decide (cd_kind data = kind)) || negb (bool_decide (sent = challenge))
     || negb (bool_decide (cd_origin data = rp_origin rp))
  then Err Mismatch else Ok tt.

(** The byte of [data] at an index below its length. *)
Definition byte_at (data : list Z) (i : nat) : Z := nth i data 0.

Definition check_authenticator_data (rp : RelyingParty) (data : list Z) : result Z WebauthnError :=
  if Z.of_nat (length data) <? 37 then Err (Malformed "authenticatorData")
  else if negb (bool_decide (take 32 data = sha256 (utf8 (rp_id rp)))) then Err Mismatch
  else if Z.land (byte_at data 32) 0x01 =? 0 then Err NotPresent
  else Ok (from_be_bytes [byte_at data 33; byte_at data 34; byte_at data 35; byte_at data 36]).

Definition register (rp : RelyingParty) (challenge : list Z) (answer : Registration) :
    result NewKey WebauthnError :=
  if negb (rg_algorithm answer =? ES256) then Err AlgorithmError
  else
    let? client_data := decode (rg_client_data answer) "clientDataJSON" in
    let? _ := check_client_data rp (lit "webauthn.create") challenge client_data in
    let? data := decode (rg_authenticator_data answer) "authenticatorData" in
    let? counter := check_authenticator_data rp data in
    if (Z.land (byte_at data 32) 0x40 =? 0) || (Z.of_nat (length data) <? 55)
    then Err (Malformed "authenticatorData")
    else
      let len := Z.to_nat (from_be_bytes [byte_at data 53; byte_at data 54]) in
      let? credential_id := if bool_decide (55 + len <= length data)%nat
                            then Ok (take len (drop 55 data)) else Err (Malformed "authenticatorData") in
      let? raw_id := decode (rg_raw_id answer) "rawId" in
      if negb (bool_decide (credential_id = raw_id)) then Err Mismatch
      else
        let? der := decode (rg_public_key answer) "publicKey" in
        let? key := ok_or (from_public_key_der der) AlgorithmError in
        Ok {| nk_credential_id := credential_id; nk_public_key := to_sec1_point key;
              nk_counter := counter |}.

Definition credential_id (answer : Assertion) : result (list Z) WebauthnError :=
  decode (as_raw_id answer) "rawId".

Definition verify (rp : RelyingParty) (challenge public_key : list Z) (stored_counter : Z)
    (answer : Assertion) : result Z WebauthnError :=
  let? client_data := decode (as_client_data answer) "clientDataJSON" in
  let? _ := check_client_data rp (lit "webauthn.get") challenge client_data in
  let? data := decode (as_authenticator_data answer) "authenticatorData" in
  let? counter := check_authenticator_data rp data in
  let? key := ok_or (from_sec1_bytes public_key) (Malformed "stored key") in
  let? der := decode (as_signature answer) "signature" in
  let? signature := ok_or (signature_from_der der) (Malformed "signature") in
  let? _ := if key_verify key (data ++ sha256 client_data) signature then Ok tt else Err SignatureError in
  if (negb (counter =? 0) || negb (stored_counter =? 0)) && (counter <=? stored_counter)
  then Err CounterError else Ok counter.

Definition user_verified (answer : Assertion) : result bool WebauthnError :=
  let? data := decode (as_authenticator_data answer) "authenticatorData" in
  ok_or ((fun flags => negb (Z.land flags 0x04 =? 0)) <$> data !! 32%nat) (Malformed "authenticatorData").

(** ** CBOR *)

Definition cbor_byte (data : list Z) : option (Z * list Z) :=
  match data with b :: rest => Some (b, rest) | [] => None end.

(** The head of the next item: its major type and argument. *)
Definition cbor_next (data : list Z) : option (Z * Z * list Z) :=
  '(first, rest) ← cbor_byte data;
  let info := Z.land first 0x1f in
  if info <=? 23 then Some (Z.shiftr first 5, info, rest)
  else if info =? 24 then
    '(b, rest) ← cbor_byte rest; Some (Z.shiftr first 5, b, rest)
  else if info =? 25 then
    '(a, rest) ← cbor_byte rest;
    '(b, rest) ← cbor_byte rest;
    Some (Z.shiftr first 5, from_be_bytes [a; b], rest)
  else None.

Definition cbor_head (major : Z) (data : list Z) : option (Z * list Z) :=
  '(found, argument, rest) ← cbor_next data;
  if found =? major then Some (argument, rest) else None.

Definition cbor_int (data : list Z) : option (Z * list Z) :=
  '(major, n, rest) ← cbor_next data;
  if major =? 0 then Some (n, rest) else if major =? 1 then Some (-1 - n, rest) else None.

Definition cbor_take (len : Z) (data : list Z) : option (list Z * list Z) :=
  if len <=? Z.of_nat (length data)
  then Some (take (Z.to_nat len) data, drop (Z.to_nat len) data) else None.

Definition cbor_bytes (data : list Z) : option (list Z * list Z) :=
  '(len, rest) ← cbor_head 2 data; cbor_take len rest.

(** Skips an integer, a byte string or a text string. *)
Definition cbor_skip (data : list Z) : option (list Z) :=
  '(major, n, rest) ← cbor_next data;
  if (major =? 0) || (major =? 1) then Some rest
  else if (major =? 2) || (major =? 3) then snd <$> cbor_take n rest
  else None.

Record CoseKey := {
  c_kty : option Z; c_alg : option Z; c_crv : option Z; c_x : option (list Z); c_y : option (list Z)
}.

Definition no_cose : CoseKey := {| c_kty := None; c_alg := None; c_crv := None; c_x := None; c_y := None |}.

(** One round of the loop of [cose_es256]. *)
Definition cose_entry (k : CoseKey) (data : list Z) : option (CoseKey * list Z) :=
  '(label, rest) ← cbor_int data;
  if label =? 1 then
    '(v, rest) ← cbor_int rest;
    Some ({| c_kty := Some v; c_alg := c_alg k; c_crv := c_crv k; c_x := c_x k; c_y := c_y k |}, rest)
  else if label =? 3 then
    '(v, rest) ← cbor_int rest;
    Some ({| c_kty := c_kty k; c_alg := Some v; c_crv := c_crv k; c_x := c_x k; c_y := c_y k |}, rest)
  else if label =? -1 then
    '(v, rest) ← cbor_int rest;
    Some ({| c_kty := c_kty k; c_alg := c_alg k; c_crv := Some v; c_x := c_x k; c_y := c_y k |}, rest)
  else if label =? -2 then
    '(v, rest) ← cbor_bytes rest;
    Some ({| c_kty := c_kty k; c_alg := c_alg k; c_crv := c_crv k; c_x := Some v; c_y := c_y k |}, rest)
  else if label =? -3 then
    '(v, rest) ← cbor_bytes rest;
    Some ({| c_kty := c_kty k; c_alg := c_alg k; c_crv := c_crv k; c_x := c_x k; c_y := Some v |}, rest)
  else rest ← cbor_skip rest; Some (k, rest).

Fixpoint cose_entries (n : nat) (k : CoseKey) (data : list Z) : option (CoseKey * list Z) :=
  match n with
  | O => Some (k, data)
  | S n => '(k, rest) ← cose_entry k data; cose_entries n k rest
  end.

Definition cose_es256 (cose : list Z) : option (list Z) :=
  '(entries, rest) ← cbor_head 5 cose;
  '(k, _) ← cose_entries (Z.to_nat entries) no_cose rest;
  if bool_decide (c_kty k = Some 2) && bool_decide (c_alg k = Some ES256) && bool_decide (c_crv k = Some 1)
  then
    x ← c_x k;
    y ← c_y k;
    if negb (Z.of_nat (length x) =? 32) || negb (Z.of_nat (length y) =? 32) then None
    else if is_some (from_sec1_bytes (4 :: x ++ y)) then Some (4 :: x ++ y) else None
  else None.

End webauthn.

(** ** Keys in COSE form *)

(** The values of a COSE key's map, and how RFC 8949 writes them. *)
Inductive CborValue :=
| CInt (i : Z)
| CBytes (bs : list Z)
| CText (bs : list Z).

Definition write_head (major n : Z) : list Z :=
  if n <? 24 then [32 * major + n]
  else if n <? 256 then [32 * major + 24; n]
  else [32 * major + 25; n / 256; n mod 256].

Definition write_value (v : CborValue) : list Z :=
  match v with
  | CInt i => if 0 <=? i then write_head 0 i else write_head 1 (-1 - i)
  | CBytes bs => write_head 2 (Z.of_nat (length bs)) ++ bs
  | CText bs => write_head 3 (Z.of_nat (length bs)) ++ bs
  end.

Definition value_ok (v : CborValue) : Prop :=
  match v with
  | CInt i => -65536 <= i < 65536
  | CBytes bs | CText bs => Z.of_nat (length bs) < 65536
  end.

Definition write_entry (e : Z * CborValue) : list Z := write_value (CInt e.1) ++ write_value e.2.

Definition write_map (es : list (Z * CborValue)) : list Z :=
  write_head 5 (Z.of_nat (length es)) ++ (es ≫= write_entry).

Definition as_int (v : CborValue) : option Z := match v with CInt i => Some i | _ => None end.
Definition as_bytes (v : CborValue) : option (list Z) := match v with CBytes b => Some b | _ => None end.

(** What an entry sets; [None] where the reader gives up. *)
Definition set_entry (k : CoseKey) (e : Z * CborValue) : option CoseKey :=
  if e.1 =? 1 then
    i ← as_int e.2; Some {| c_kty := Some i; c_alg := c_alg k; c_crv := c_crv k; c_x := c_x k; c_y := c_y k |}
  else if e.1 =? 3 then
    i ← as_int e.2; Some {| c_kty := c_kty k; c_alg := Some i; c_crv := c_crv k; c_x := c_x k; c_y := c_y k |}
  else if e.1 =? -1 then
    i ← as_int e.2; Some {| c_kty := c_kty k; c_alg := c_alg k; c_crv := Some i; c_x := c_x k; c_y := c_y k |}
  else if e.1 =? -2 then
    b ← as_bytes e.2; Some {| c_kty := c_kty k; c_alg := c_alg k; c_crv := c_crv k; c_x := Some b; c_y := c_y k |}
  else if e.1 =? -3 then
    b ← as_bytes e.2; Some {| c_kty := c_kty k; c_alg := c_alg k; c_crv := c_crv k; c_x := c_x k; c_y := Some b |}
  else Some k.

Fixpoint set_entries (k : CoseKey) (es : list (Z * CborValue)) : option CoseKey :=
  match es with [] => Some k | e :: es => k ← set_entry k e; set_entries k es end.

Lemma next_head major n rest :
  0 <= major < 8 -> 0 <= n < 65536 -> cbor_next (write_head major n ++ rest) = Some (major, n, rest).
Proof.
  intros Hm Hn.
  assert (Hl : forall i, 0 <= i < 32 -> Z.land (32 * major + i) 0x1f = i).
  { intros i Hi. change 0x1f with (Z.ones 5). rewrite Z.land_ones by lia. 
    change (2 ^ 5) with 32. rewrite Z.add_comm, Z.mul_comm, Z_mod_plus_full. apply Z.mod_small. lia. }
  assert (Hs : forall i, 0 <= i < 32 -> Z.shiftr (32 * major + i) 5 = major).
  { intros i Hi. rewrite Z.shiftr_div_pow2 by lia. change (2 ^ 5) with 32.
    rewrite Z.add_comm, Z.mul_comm, Z_div_plus_full by lia. rewrite Z.div_small; lia. }
  unfold write_head, cbor_next. destruct (n <? 24) eqn:H1; [|destruct (n <? 256) eqn:H2]; bools; simpl;
    rewrite Hl, Hs by lia.
  - replace (n <=? 23) with true by lia. done.
  - done.
  - cbn. rewrite Z.add_0_r. do 3 f_equal. pose proof (Z_div_mod_eq_full n 256). lia.
Qed.

Lemma int_value i rest : -65536 <= i < 65536 -> cbor_int (write_value (CInt i) ++ rest) = Some (i, rest).
Proof.
  intros Hi. unfold cbor_int, write_value. destruct (0 <=? i) eqn:Hz; bools; rewrite next_head by lia; cbn.
  - done.
  - do 2 f_equal. lia.
Qed.

Lemma take_value (bs rest : list Z) : cbor_take (Z.of_nat (length bs)) (bs ++ rest) = Some (bs, rest).
Proof.
  unfold cbor_take. rewrite length_app.
  destruct (Z.leb_spec (Z.of_nat (length bs)) (Z.of_nat (length bs + length rest))); [|lia].
  rewrite Nat2Z.id, take_app_length, drop_app_length. done.
Qed.

Lemma int_not_bytes i rest : -65536 <= i < 65536 -> cbor_bytes (write_value (CInt i) ++ rest) = None.
Proof.
  intros Hi. unfold cbor_bytes, cbor_head, write_value. destruct (0 <=? i) eqn:Hz; bools; by rewrite next_head by lia.
Qed.

Lemma entry_read k e rest :
  -65536 <= e.1 < 65536 -> value_ok e.2 ->
  cose_entry k (write_entry e ++ rest) = (fun k => (k, rest)) <$> set_entry k e.
Proof.
  destruct e as [l v]. simpl. intros Hl Hv. unfold cose_entry, write_entry. simpl fst. simpl snd.
  rewrite <- app_assoc, int_value by done. cbn [mbind option_bind].
  assert (Hint : cbor_int (write_value v ++ rest) = (fun i => (i, rest)) <$> as_int v).
  { destruct v as [i|bs|bs]; simpl in Hv; [by apply int_value|..]; unfold cbor_int, write_value;
      rewrite <- app_assoc, next_head by lia; done. }
  assert (Hbytes : cbor_bytes (write_value v ++ rest) = (fun b => (b, rest)) <$> as_bytes v).
  { destruct v as [i|bs|bs]; simpl in Hv; [by apply int_not_bytes|..]; unfold cbor_bytes, cbor_head, write_value;
      rewrite <- app_assoc, next_head by lia; cbn; [apply take_value|done]. }
  assert (Hskip : cbor_skip (write_value v ++ rest) = Some rest).
  { unfold cbor_skip, write_value. destruct v as [i|bs|bs]; simpl in Hv.
    - destruct (0 <=? i) eqn:Hz; bools; by rewrite next_head by lia.
    - rewrite <- app_assoc, next_head by lia. cbn. by rewrite take_value.
    - rewrite <- app_assoc, next_head by lia. cbn. by rewrite take_value. }
  rewrite Hint, Hbytes, Hskip. unfold set_entry. simpl fst. simpl snd.
  repeat (case_match; [first [by destruct (as_int v)|by destruct (as_bytes v)]|]). done.
Qed.

Lemma entries_read es k rest :
  Forall (fun e => -65536 <= e.1 < 65536 /\ value_ok e.2) es ->
  cose_entries (length es) k ((es ≫= write_entry) ++ rest) = (fun k => (k, rest)) <$> set_entries k es.
Proof.
  intros Hes. revert k. induction Hes as [|e es [Hl Hv] _ IH]; intros k; [done|].
  simpl. rewrite <- app_assoc, entry_read by done. destruct (set_entry k e) as [k'|]; [|done]. cbn. apply IH.
Qed.

(** The field of a label ends as the entry with it says. *)
Lemma entries_field {A} (proj : CoseKey -> option A) (n : Z) (as_ : CborValue -> option A) es k k' :
  (forall k e k', set_entry k e = Some k' ->
     proj k' = (if e.1 =? n then as_ e.2 else proj k) /\ (e.1 = n -> is_Some (as_ e.2))) ->
  NoDup es.*1 -> set_entries k es = Some k' ->
  forall v, proj k' = Some v <->
    (exists w, (n, w) ∈ es /\ as_ w = Some v) \/ ((n ∉ es.*1) /\ proj k = Some v).
Proof.
  intros Hp. revert k. induction es as [|[l w] es IH]; intros k Hnd Hs v.
  { injection Hs as <-. set_solver. }
  rewrite fmap_cons, NoDup_cons in Hnd. destruct Hnd as [Hl Hnd]. simpl in Hs.
  destruct (set_entry k (l, w)) as [k1|] eqn:Hk; [|done]. cbn in Hs.
  rewrite (IH k1 Hnd Hs), fmap_cons, not_elem_of_cons. setoid_rewrite elem_of_cons.
  destruct (Hp _ _ _ Hk) as [-> _]. simpl.
  assert (Hin : forall x, (n, x) ∈ es -> n ∈ es.*1) by (intros x Hx; apply list_elem_of_fmap; by exists (n, x)).
  destruct (l =? n) eqn:E; bools.
  - subst l. split.
    + intros [(x & Hx%Hin & _)|[_ Hv]]; [done|]. left. exists w. auto.
    + intros [(x & [[= ->]|Hx%Hin] & Hv)|[[? _] _]]; [|done|done]. by right.
  - split.
    + intros [(x & Hx & Hv)|[Hn Hv]]; [left; eauto|right]. split_and!; [congruence|done..].
    + intros [(x & [[= -> ->]|Hx] & Hv)|[[_ Hn] Hv]]; [done|left; eauto|by right].
Qed.

Ltac set_field :=
  intros k e k'; unfold set_entry; repeat (case_match; bools);
  (destruct (as_int e.2) eqn:?, (as_bytes e.2) eqn:?); cbn; intros; simplify_eq; simpl; split; done || eauto || lia.

Lemma set_kty k e k' : set_entry k e = Some k' ->
  c_kty k' = (if e.1 =? 1 then as_int e.2 else c_kty k) /\ (e.1 = 1 -> is_Some (as_int e.2)).
Proof. revert k e k'. set_field. Qed.
Lemma set_alg k e k' : set_entry k e = Some k' ->
  c_alg k' = (if e.1 =? 3 then as_int e.2 else c_alg k) /\ (e.1 = 3 -> is_Some (as_int e.2)).
Proof. revert k e k'. set_field. Qed.
Lemma set_crv k e k' : set_entry k e = Some k' ->
  c_crv k' = (if e.1 =? -1 then as_int e.2 else c_crv k) /\ (e.1 = -1 -> is_Some (as_int e.2)).
Proof. revert k e k'. set_field. Qed.
Lemma set_x k e k' : set_entry k e = Some k' ->
  c_x k' = (if e.1 =? -2 then as_bytes e.2 else c_x k) /\ (e.1 = -2 -> is_Some (as_bytes e.2)).
Proof. revert k e k'. set_field. Qed.
Lemma set_y k e k' : set_entry k e = Some k' ->
  c_y k' = (if e.1 =? -3 then as_bytes e.2 else c_y k) /\ (e.1 = -3 -> is_Some (as_bytes e.2)).
Proof. revert k e k'. set_field. Qed.

Lemma as_int_in (es : list (Z * CborValue)) n v : (exists w, (n, w) ∈ es /\ as_int w = Some v) <-> (n, CInt v) ∈ es.
Proof. split; [|by exists (CInt v)]. intros (w & Hw & Hv). destruct w; naive_solver. Qed.
Lemma as_bytes_in (es : list (Z * CborValue)) n v : (exists w, (n, w) ∈ es /\ as_bytes w = Some v) <-> (n, CBytes v) ∈ es.
Proof. split; [|by exists (CBytes v)]. intros (w & Hw & Hv). destruct w; naive_solver. Qed.

(** A type error stops the reader, and nothing else does. *)
Definition entry_typed (e : Z * CborValue) : Prop :=
  (e.1 = 1 \/ e.1 = 3 \/ e.1 = -1 -> is_Some (as_int e.2)) /\ (e.1 = -2 \/ e.1 = -3 -> is_Some (as_bytes e.2)).

Lemma entries_set k es : Forall entry_typed es -> is_Some (set_entries k es).
Proof.
  intros Hes. revert k. induction Hes as [|e es [Hi Hb] _ IH]; intros k; [by eexists|]. simpl. unfold set_entry.
  repeat (case_match; bools; [first [destruct Hi as [? ->]; [by auto|]|destruct Hb as [? ->]; [by auto|]]; apply IH|]).
  apply IH.
Qed.

(** ** Theorems *)

Section theorems.
Context `{Base64Url} `{ClientDataJson} `{P256} `{Sha256}.

Lemma cose_key_from_fields k p :
  (if bool_decide (c_kty k = Some 2) && bool_decide (c_alg k = Some ES256) && bool_decide (c_crv k = Some 1)
   then
     x ← c_x k;
     y ← c_y k;
     if negb (Z.of_nat (length x) =? 32) || negb (Z.of_nat (length y) =? 32) then None
     else if is_some (from_sec1_bytes (4 :: x ++ y)) then Some (4 :: x ++ y) else None
   else None) = Some p <->
  exists x y, c_kty k = Some 2 /\ c_alg k = Some ES256 /\ c_crv k = Some 1 /\ c_x k = Some x /\ c_y k = Some y
    /\ length x = 32%nat /\ length y = 32%nat /\ is_Some (from_sec1_bytes (4 :: x ++ y)) /\ p = 4 :: x ++ y.
Proof.
  split.
  - destruct (_ && _) eqn:Hf; [|done]. bools.
    destruct (c_x k) as [x|] eqn:Hx; [|done]. destruct (c_y k) as [y|] eqn:Hy; [|done]. cbn.
    destruct (negb _ || negb _) eqn:Hl; [done|]. destruct (from_sec1_bytes _) eqn:Hk; [|done]. intros [= <-].
    bools. exists x, y. split_and!; done || lia || eauto.
  - intros (x & y & -> & -> & -> & -> & -> & Hx & Hy & [key Hk] & ->).
    rewrite !bool_decide_eq_true_2 by done. cbn. by rewrite Hx, Hy, Hk.
Qed.

(** A key in COSE form reads back: whatever the order of its entries, and
    whatever other entries and bytes come with them, the reader gives exactly
    the point of an ES256 key on P-256, and nothing for any other key. *)
Theorem cose_key_reads_back (es : list (Z * CborValue)) (rest p : list Z) :
  NoDup es.*1 -> Z.of_nat (length es) < 65536 ->
  Forall (fun e => -65536 <= e.1 < 65536 /\ value_ok e.2) es ->
  cose_es256 (write_map es ++ rest) = Some p <->
  exists x y, (1, CInt 2) ∈ es /\ (3, CInt ES256) ∈ es /\ (-1, CInt 1) ∈ es /\ (-2, CBytes x) ∈ es
    /\ (-3, CBytes y) ∈ es /\ length x = 32%nat /\ length y = 32%nat
    /\ is_Some (from_sec1_bytes (4 :: x ++ y)) /\ p = 4 :: x ++ y.
Proof.
  intros Hnd Hlen Hes. unfold cose_es256, write_map, cbor_head.
  rewrite <- app_assoc, next_head by lia. cbn [mbind option_bind]. rewrite Z.eqb_refl. cbn [mbind option_bind].
  rewrite Nat2Z.id, entries_read by done.
  assert (Hf : forall A (proj : CoseKey -> option A) n as_ k' v,
    (forall k e k', set_entry k e = Some k' ->
       proj k' = (if e.1 =? n then as_ e.2 else proj k) /\ (e.1 = n -> is_Some (as_ e.2))) ->
    proj no_cose = None -> set_entries no_cose es = Some k' ->
    proj k' = Some v <-> exists w, (n, w) ∈ es /\ as_ w = Some v).
  { intros A proj n as_ k' v Hp Hn Hs. rewrite (entries_field proj n as_ es no_cose k' Hp Hnd Hs), Hn. naive_solver. }
  destruct (set_entries no_cose es) as [k|] eqn:Hk.
  - cbn [fmap option_fmap option_map mbind option_bind]. rewrite cose_key_from_fields.
    setoid_rewrite (Hf _ c_kty 1 as_int k); [|exact set_kty|done|done].
    setoid_rewrite (Hf _ c_alg 3 as_int k); [|exact set_alg|done|done].
    setoid_rewrite (Hf _ c_crv (-1) as_int k); [|exact set_crv|done|done].
    setoid_rewrite (Hf _ c_x (-2) as_bytes k); [|exact set_x|done|done].
    setoid_rewrite (Hf _ c_y (-3) as_bytes k); [|exact set_y|done|done].
    setoid_rewrite as_int_in. setoid_rewrite as_bytes_in. done.
  - split; [done|]. intros (x & y & H1' & H3 & Hm1 & Hm2 & Hm3 & _). exfalso.
    destruct (entries_set no_cose es) as [k Hk']; [|congruence].
    assert (Hone : forall n v w, (n, v) ∈ es -> (n, w) ∈ es -> v = w).
    { intros n v w Hv Hw. assert (Heq : (n, v) = (n, w)) by (by apply (NoDup_fmap_eq fst es)). congruence. }
    apply Forall_forall. intros [n v] Hin. split; simpl.
    + intros [->|[->| ->]]; [rewrite (Hone _ _ _ Hin H1')|rewrite (Hone _ _ _ Hin H3)|rewrite (Hone _ _ _ Hin Hm1)];
        by eexists.
    + intros [->| ->]; [rewrite (Hone _ _ _ Hin Hm2)|rewrite (Hone _ _ _ Hin Hm3)]; by eexists.
Qed.

(** A key's answer counts for one challenge at one origin, and once: it is
    refused for any other challenge or origin, and as soon as its counter is
    stored, unless the key has no counter. *)
Theorem answer_counts_once (rp : RelyingParty) (challenge key : list Z) (stored counter : Z) (answer : Assertion) :
  verify rp challenge key stored answer = Ok counter ->
  (counter <> 0 \/ stored <> 0 -> stored < counter)
  /\ (forall rp' challenge' key' stored', challenge' <> challenge \/ rp_origin rp' <> rp_origin rp ->
       verify rp' challenge' key' stored' answer = Err Mismatch)
  /\ (forall stored', counter <= stored' -> stored' <> 0 ->
       verify rp challenge key stored' answer = Err CounterError).
Proof.
  intros Hv. unfold verify in *. inv_ok Hv.
  subst a2. split; [|split].
  - intros Hne. apply andb_false_iff in E7 as [Hc|Hc]; bools; lia.
  - intros rp' challenge' key' stored' Hd.
    replace (check_client_data rp' (lit "webauthn.get") challenge' a) with (Err Mismatch : result unit WebauthnError); [done|].
    unfold check_client_data in *. inv_ok E0. bools.
    destruct Hd as [Hd|Hd].
    + rewrite (bool_decide_eq_false_2 (_ = challenge')) by congruence. by rewrite orb_true_r.
    + rewrite (bool_decide_eq_false_2 (_ = rp_origin rp')) by congruence. by rewrite orb_true_r.
  - intros stored' Hle Hne. rewrite (proj2 (Z.leb_le _ _) Hle), (proj2 (Z.eqb_neq _ _) Hne). by rewrite orb_true_r.
Qed.

End theorems.

(** ** Examples *)

Module WebauthnExamples.

#[local] Instance plain_base64 : Base64Url := { b64url_encode s := s; b64url_decode s := Some s }.
#[local] Instance plain_sha : Sha256 := fun s => take 32 (s ++ replicate 32 0).
(** Client data that are the challenge alone, of an assertion at one origin. *)
#[local] Instance plain_client_data : ClientDataJson := fun data =>
  Some {| cd_kind := lit "webauthn.get"; cd_challenge := data; cd_origin := lit "https://r.example:8443" |}.
(** Keys that sign with themselves. *)
#[local] Instance plain_keys : P256 := {
  VerifyingKey := list Z;
  Signature := list Z;
  from_sec1_bytes bs := if bool_decide (length bs = 65%nat) then Some bs else None;
  from_public_key_der bs := Some bs;
  to_sec1_point key := key;
  signature_from_der bs := Some bs;
  key_verify key message signature := bool_decide (signature = key)
}.

Definition rp : RelyingParty := rp_of (lit "https://r.example:8443/").
Definition point : list Z := 4 :: replicate 32 1 ++ replicate 32 2.
Definition signed : Assertion :=
  {| as_raw_id := lit "key"; as_client_data := lit "challenge";
     as_authenticator_data := sha256 (utf8 (lit "r.example")) ++ [1; 0; 0; 0; 7]; as_signature := point |}.

Example rp_of_origin : rp = {| rp_id := lit "r.example"; rp_origin := lit "https://r.example:8443" |}.
Proof. vm_compute. reflexivity. Qed.

Lemma answer_counts_once_witness :
  verify rp (lit "another") point 0 signed = Err Mismatch /\ verify rp (lit "challenge") point 7 signed = Err CounterError.
Proof.
  destruct (answer_counts_once rp (lit "challenge") point 6 7 signed) as (_ & H1 & H2).
  { vm_compute. reflexivity. }
  split; [apply H1; left; vm_compute; discriminate|apply H2; lia].
Defined.

Definition cose : list (Z * CborValue) :=
  [(3, CInt (-7)); (2, CText (lit "kid")); (1, CInt 2); (-1, CInt 1); (-3, CBytes (replicate 32 2));
   (-2, CBytes (replicate 32 1))].

Lemma cose_key_reads_back_witness : cose_es256 (write_map cose ++ [0]) = Some point.
Proof.
  apply (cose_key_reads_back cose [0] point).
  - unfold cose. simpl. repeat (apply NoDup_cons; split; [set_solver|]). apply NoDup_nil_2.
  - vm_compute. reflexivity.
  - unfold cose. repeat constructor; simpl; lia.
  - exists (replicate 32 1), (replicate 32 2). unfold cose.
    split_and!; [set_solver..|reflexivity|reflexivity|by eexists|reflexivity].
Defined.

End WebauthnExamples.
