(* ===== verification/Factors.v ===== *)
(** * Second factors (crates/server/src/second_factor.rs, api/second_factor.rs, api/confirm.rs)

    Authenticator apps and security keys of directory users, and what a
    confirmation checks for every kind of user: also the codes of break-glass
    accounts and the factors Kratos keeps. Sealed secrets are what opening
    them gives (see [Vault]). A panic of [Totp.step] is an internal error. A
    time is in microseconds; [unix] is the same clock in seconds. *)
From S2P Require Import Prelude Text Utf8 Sid Totp Model Session AccessRequests Store Folders Grants.
From S2P Require Import People Webauthn.

(** ** Tables *)

Record AppRow := { a_version : Z; a_last_step : Z }.

Record KeyRow := {
  k_id : Uuid;
  k_user : Uuid;
  k_credential : list Z;
  k_public : list Z;
  k_count : Z;
  k_name : list Z
}.

Record ChallengeRow := { ch_user : Uuid; ch_purpose : list Z; ch_bytes : list Z; ch_expires : Z }.

(** A row of [local_accounts]: a break-glass account. *)
Record AccountRow := { ac_hash : list Z; ac_version : Z; ac_last_step : Z }.

Inductive FactorAction := SecondFactorEnrolled (key : option Uuid) | SecondFactorRemoved (key : option Uuid)
| SecondFactorReset.

Record FactorLog := { fl_actor : Uuid; fl_action : FactorAction; fl_user : Uuid }.

Record Factors := {
  fa_people : People;
  fa_secrets : gmap (Uuid * Z * list Z) (list Z);
  fa_apps : gmap Uuid AppRow;
  fa_keys : list KeyRow;
  fa_challenges : gmap Uuid ChallengeRow;
  fa_accounts : gmap Uuid AccountRow;
  fa_codes : gmap Uuid Z;
  fa_own_keys : gmap (list Z) (Uuid * Z);
  fa_log : list FactorLog
}.

Definition on_people (f : People -> People) (db : Factors) : Factors :=
  {| fa_people := f (fa_people db); fa_secrets := fa_secrets db; fa_apps := fa_apps db;
     fa_keys := fa_keys db; fa_challenges := fa_challenges db; fa_accounts := fa_accounts db;
     fa_codes := fa_codes db; fa_own_keys := fa_own_keys db; fa_log := fa_log db |}.

Definition on_factor_secrets (f : gmap (Uuid * Z * list Z) (list Z) -> gmap (Uuid * Z * list Z) (list Z))
    (db : Factors) : Factors :=
  {| fa_people := fa_people db; fa_secrets := f (fa_secrets db); fa_apps := fa_apps db;
     fa_keys := fa_keys db; fa_challenges := fa_challenges db; fa_accounts := fa_accounts db;
     fa_codes := fa_codes db; fa_own_keys := fa_own_keys db; fa_log := fa_log db |}.

Definition on_apps (f : gmap Uuid AppRow -> gmap Uuid AppRow) (db : Factors) : Factors :=
  {| fa_people := fa_people db; fa_secrets := fa_secrets db; fa_apps := f (fa_apps db);
     fa_keys := fa_keys db; fa_challenges := fa_challenges db; fa_accounts := fa_accounts db;
     fa_codes := fa_codes db; fa_own_keys := fa_own_keys db; fa_log := fa_log db |}.

Definition on_keys (f : list KeyRow -> list KeyRow) (db : Factors) : Factors :=
  {| fa_people := fa_people db; fa_secrets := fa_secrets db; fa_apps := fa_apps db;
     fa_keys := f (fa_keys db); fa_challenges := fa_challenges db; fa_accounts := fa_accounts db;
     fa_codes := fa_codes db; fa_own_keys := fa_own_keys db; fa_log := fa_log db |}.

Definition on_challenges (f : gmap Uuid ChallengeRow -> gmap Uuid ChallengeRow) (db : Factors) : Factors :=
  {| fa_people := fa_people db; fa_secrets := fa_secrets db; fa_apps := fa_apps db;
     fa_keys := fa_keys db; fa_challenges := f (fa_challenges db); fa_accounts := fa_accounts db;
     fa_codes := fa_codes db; fa_own_keys := fa_own_keys db; fa_log := fa_log db |}.

Definition on_accounts (f : gmap Uuid AccountRow -> gmap Uuid AccountRow) (db : Factors) : Factors :=
  {| fa_people := fa_people db; fa_secrets := fa_secrets db; fa_apps := fa_apps db;
     fa_keys := fa_keys db; fa_challenges := fa_challenges db; fa_accounts := f (fa_accounts db);
     fa_codes := fa_codes db; fa_own_keys := fa_own_keys db; fa_log := fa_log db |}.

Definition on_codes (f : gmap Uuid Z -> gmap Uuid Z) (db : Factors) : Factors :=
  {| fa_people := fa_people db; fa_secrets := fa_secrets db; fa_apps := fa_apps db;
     fa_keys := fa_keys db; fa_challenges := fa_challenges db; fa_accounts := fa_accounts db;
     fa_codes := f (fa_codes db); fa_own_keys := fa_own_keys db; fa_log := fa_log db |}.

Definition on_own_keys (f : gmap (list Z) (Uuid * Z) -> gmap (list Z) (Uuid * Z)) (db : Factors) : Factors :=
  {| fa_people := fa_people db; fa_secrets := fa_secrets db; fa_apps := fa_apps db;
     fa_keys := fa_keys db; fa_challenges := fa_challenges db; fa_accounts := fa_accounts db;
     fa_codes := fa_codes db; fa_own_keys := f (fa_own_keys db); fa_log := fa_log db |}.

Definition log_factor (s : Session) (a : FactorAction) (user : Uuid) (db : Factors) : Factors :=
  {| fa_people := fa_people db; fa_secrets := fa_secrets db; fa_apps := fa_apps db;
     fa_keys := fa_keys db; fa_challenges := fa_challenges db; fa_accounts := fa_accounts db;
     fa_codes := fa_codes db; fa_own_keys := fa_own_keys db;
     fa_log := fa_log db ++ [{| fl_actor := user_id s; fl_action := a; fl_user := user |}] |}.

Definition FIELD : list Z := lit "totp".

(** [secrets::store] and [secrets::load]. *)
Definition store_factor (owner : Uuid) (version : Z) (value : list Z) (db : Factors) :
    result Factors ApiProblem :=
  if is_some (fa_secrets db !! (owner, version, FIELD)) then Err AP_Internal
  else Ok (on_factor_secrets (insert (owner, version, FIELD) value) db).

Definition load_factor (owner : Uuid) (version : Z) (db : Factors) : option (list Z) :=
  fa_secrets db !! (owner, version, FIELD).

(** [coalesce(max(version), 0) + 1] over the field's rows of an owner. *)
Definition next_factor_version (owner : Uuid) (db : Factors) : Z :=
  1 + foldr (fun kv acc => if bool_decide (kv.1.1.1 = owner) && bool_decide (kv.1.2 = FIELD)
                           then Z.max kv.1.1.2 acc else acc) 0 (map_to_list (fa_secrets db)).

(** [i64::try_from(step).unwrap_or(i64::MAX)] *)
Definition i64_max : Z := 9223372036854775807.
Definition to_i64 (n : Z) : Z := if n <=? i64_max then n else i64_max.

(** ** Codes, each once

    Three tables keep the time step of the last code used; each takes a newer
    one only, in one statement that says whether it did. *)

Definition use_app_step (user : Uuid) (step : Z) (db : Factors) : option Factors :=
  match fa_apps db !! user with
  | Some a => if a_last_step a <? step
              then Some (on_apps (insert user {| a_version := a_version a; a_last_step := step |}) db)
              else None
  | None => None
  end.

Definition use_account_step (user : Uuid) (step : Z) (db : Factors) : option Factors :=
  match fa_accounts db !! user with
  | Some a => if ac_last_step a <? step
              then Some (on_accounts (insert user {| ac_hash := ac_hash a; ac_version := ac_version a;
                                                     ac_last_step := step |}) db)
              else None
  | None => None
  end.

Definition use_code_step (user : Uuid) (step : Z) (db : Factors) : option Factors :=
  match fa_codes db !! user with
  | Some last => if last <? step then Some (on_codes (insert user step) db) else None
  | None => Some (on_codes (insert user step) db)
  end.

(** A statement's answer, as [rows_affected() == 1]. *)
Definition affected (db : Factors) (o : option Factors) : bool * Factors :=
  match o with Some db' => (true, db') | None => (false, db) end.

Section factors.
Context `{UuidText} `{Hmac} `{Base32} `{Base64Url} `{ClientDataJson} `{P256} `{Session.Sha256}.

(** The step of a code that is right at a time, if it is one. *)
Definition code_step (secret : list Z) (code : str) (unix : Z) : result (option Z) ApiProblem :=
  ok_or (Totp.step secret (trim code) unix) AP_Internal.

(** ** Apps (second_factor.rs) *)

Definition has_app (user : Uuid) (db : Factors) : bool := is_some (fa_apps db !! user).

Definition has_key (user : Uuid) (db : Factors) : bool :=
  existsb (fun k => k_user k =? user) (fa_keys db).

Definition enrolled (user : Uuid) (db : Factors) : bool := has_app user db || has_key user db.

Definition required (sids : list (list Z)) (p : People) : bool :=
  existsb (fun r => bool_decide (pr_sid r ∈ sids)
                    || existsb (fun m => bool_decide (gm_sid m ∈ sids)
                                         && bool_decide (pr_sid r = lit "group:" ++ uuid_text (gm_group m)))
                         (pe_members p))
    (pe_rules p).

Definition verify_code (user : Uuid) (code : str) (unix : Z) (db : Factors) :
    result (bool * Factors) ApiProblem :=
  match fa_apps db !! user with
  | None => Ok (false, db)
  | Some app =>
      let? secret := ok_or (load_factor user (a_version app) db) AP_Internal in
      let? step := code_step secret code unix in
      match step with
      | None => Ok (false, db)
      | Some step => Ok (affected db (use_app_step user (to_i64 step) db))
      end
  end.

Definition enroll (user : Uuid) (secret code : str) (unix : Z) (db : Factors) :
    result (bool * Factors) ApiProblem :=
  let? secret := ok_or (Totp.decode secret) (AP_Invalid "totp_secret") in
  let? step := code_step secret code unix in
  match step with
  | None => Ok (false, db)
  | Some step =>
      let version := next_factor_version user db in
      let? db := store_factor user version secret db in
      Ok (true, on_apps (insert user {| a_version := version; a_last_step := to_i64 step |}) db)
  end.

Definition remove_app (user : Uuid) (db : Factors) : bool * Factors :=
  (has_app user db, on_apps (delete user) db).

Definition remove_all (user : Uuid) (db : Factors) : bool * Factors :=
  let '(app, db') := remove_app user db in
  (app || has_key user db', on_keys (filter (fun k => k_user k <> user)) db').

(** ** Keys *)

Definition CHALLENGE_TIME : Z := 300 * second.

(** [id] and [bytes] are what the database and the system generate. *)
Definition challenge (user : Uuid) (purpose : str) (id : Uuid) (bytes : list Z) (now : Z) (db : Factors) :
    Factors :=
  on_challenges (fun m =>
    <[id := {| ch_user := user; ch_purpose := purpose; ch_bytes := bytes; ch_expires := now + CHALLENGE_TIME |}]>
      (filter (fun kv : Uuid * ChallengeRow => now <= ch_expires kv.2) m)) db.

Definition take_challenge (user : Uuid) (purpose : str) (id : Uuid) (now : Z) (db : Factors) :
    option (list Z * Factors) :=
  match fa_challenges db !! id with
  | Some c => if bool_decide (ch_user c = user) && bool_decide (ch_purpose c = purpose) && (now <? ch_expires c)
              then Some (ch_bytes c, on_challenges (delete id) db) else None
  | None => None
  end.

Definition key_ids (user : Uuid) (db : Factors) : list (list Z) :=
  (fun k => b64url_encode (k_credential k)) <$> filter (fun k => k_user k = user) (fa_keys db).

Inductive KeyUse := SignIn | Confirm.

Definition purpose_of (u : KeyUse) : list Z :=
  match u with SignIn => lit "sign_in" | Confirm => lit "confirm" end.

Definition accepts (u : KeyUse) (answer : Assertion) : bool :=
  match u with SignIn => true | Confirm => bool_decide (user_verified answer = Ok true) end.

Record KeyAnswer := { ka_challenge : Uuid; ka_credential : Assertion }.

Definition set_count (id : Uuid) (counter : Z) (k : KeyRow) : KeyRow :=
  if k_id k =? id then
    {| k_id := k_id k; k_user := k_user k; k_credential := k_credential k; k_public := k_public k;
       k_count := counter; k_name := k_name k |}
  else k.

(** [u32::try_from(count).unwrap_or(u32::MAX)] *)
Definition to_u32 (n : Z) : Z := if (0 <=? n) && (n <=? u32_max) then n else u32_max.

Definition verify_key (rp : RelyingParty) (user : Uuid) (answer : KeyAnswer) (usage : KeyUse) (now : Z)
    (db : Factors) : bool * Factors :=
  match take_challenge user (purpose_of usage) (ka_challenge answer) now db with
  | None => (false, db)
  | Some (bytes, db) =>
      match credential_id (ka_credential answer) with
      | Err _ => (false, db)
      | Ok credential =>
          if negb (accepts usage (ka_credential answer)) then (false, db)
          else
            match List.find (fun k => (k_user k =? user) && bool_decide (k_credential k = credential))
                    (fa_keys db) with
            | None => (false, db)
            | Some k =>
                match Webauthn.verify rp bytes (k_public k) (to_u32 (k_count k)) (ka_credential answer) with
                | Ok counter => (true, on_keys (fmap (set_count (k_id k) counter)) db)
                | Err _ => (false, db)
                end
            end
      end
  end.

(** ** The second step of a sign-in *)

Record SecondStep := {
  ss_code : option (list Z);
  ss_new_secret : option (list Z);
  ss_key : option KeyAnswer
}.

Inductive StepProblem :=
| SP_Invalid
| SP_Required (app : bool) (key_challenge : option Uuid)
| SP_SetupRequired (secret : list Z).

Inductive Outcome :=
| Passed (used enrolled_now : bool)
| Refused (problem : StepProblem) (failed : bool).

(** What the database and the system generate for a sign-in. *)
Record Fresh := { fr_id : Uuid; fr_bytes : list Z; fr_secret : list Z }.

Definition right_or_wrong (r : bool * Factors) (enrolled_now : bool) (pool : Factors) :
    Outcome * Factors * Factors :=
  (if r.1 then Passed true enrolled_now else Refused SP_Invalid true, pool, r.2).

(** Changes the sign-in's transaction [tx]; the challenge of a key is written
    outside of it, to [pool]. *)
Definition at_sign_in (rp : RelyingParty) (user : Uuid) (sids : list (list Z)) (step : SecondStep)
    (fresh : Fresh) (now unix : Z) (pool tx : Factors) :
    result (Outcome * Factors * Factors) ApiProblem :=
  if enrolled user tx then
    match ss_code step, ss_key step with
    | Some code, _ => let? r := verify_code user code unix tx in Ok (right_or_wrong r false pool)
    | None, Some key => Ok (right_or_wrong (verify_key rp user key SignIn now tx) false pool)
    | None, None =>
        if bool_decide (key_ids user tx = [])
        then Ok (Refused (SP_Required (has_app user tx) None) false, pool, tx)
        else Ok (Refused (SP_Required (has_app user tx) (Some (fr_id fresh))) false,
                 challenge user (purpose_of SignIn) (fr_id fresh) (fr_bytes fresh) now pool, tx)
    end
  else
    match ss_new_secret step, ss_code step with
    | Some secret, Some code => let? r := enroll user secret code unix tx in Ok (right_or_wrong r true pool)
    | _, _ =>
        if required sids (fa_people tx)
        then Ok (Refused (SP_SetupRequired (Totp.encode (fr_secret fresh))) false, pool, tx)
        else Ok (Passed false false, pool, tx)
    end.

(** ** Handlers (api/second_factor.rs) *)

Definition directory_user (s : Session) : result unit ApiProblem :=
  if bool_decide (Session.kind s = lit "directory") then Ok tt else Err (AP_Invalid "kind").

Definition check_key_name (name : str) : result (list Z) ApiProblem :=
  let name := trim name in
  if bool_decide (name = []) || (100 <? Z.of_nat (length name)) || existsb is_control name
  then Err (AP_Invalid "name") else Ok name.

(** [offer_key]: the challenge to register a key with. *)
Definition offer_key (s : Session) (fresh : Fresh) (now : Z) (db : Factors) : result (Uuid * Factors) ApiProblem :=
  let? _ := directory_user s in
  Ok (fr_id fresh, challenge (user_id s) (lit "register") (fr_id fresh) (fr_bytes fresh) now db).

(** The constraints of [security_keys]. *)
Definition insert_key (k : KeyRow) (db : Factors) : result Factors ApiProblem :=
  if negb ((1 <=? Z.of_nat (length (k_credential k))) && (Z.of_nat (length (k_credential k)) <=? 1023))
     || negb (Z.of_nat (length (k_public k)) =? 65)
  then Err AP_Internal
  else if existsb (fun k' => bool_decide (k_credential k' = k_credential k)) (fa_keys db)
  then Err (AP_Invalid "credential") else Ok (on_keys (fun l => l ++ [k]) db).

Definition add_key (rp : RelyingParty) (s : Session) (new_id challenge_id : Uuid) (name : str)
    (credential : Registration) (now : Z) (db : Factors) : result Factors ApiProblem :=
  let? _ := directory_user s in
  let? name := check_key_name name in
  let? taken := ok_or (take_challenge (user_id s) (lit "register") challenge_id now db) AP_SecondFactorInvalid in
  let? key := match register rp taken.1 credential with Ok key => Ok key | Err _ => Err AP_SecondFactorInvalid end in
  let? db := insert_key {| k_id := new_id; k_user := user_id s; k_credential := nk_credential_id key;
                           k_public := nk_public_key key; k_count := nk_counter key; k_name := name |} taken.2 in
  Ok (log_factor s (SecondFactorEnrolled (Some new_id)) (user_id s) db).

Definition remove_key (s : Session) (id : Uuid) (db : Factors) : result Factors ApiProblem :=
  let? _ := directory_user s in
  let mine := fun k => bool_decide (k_id k = id) && bool_decide (k_user k = user_id s) in
  if existsb mine (fa_keys db) then
    let db := on_keys (filter (fun k => mine k = false)) db in
    if negb (enrolled (user_id s) db) && required (session_sids s) (fa_people db)
    then Err AP_Forbidden
    else Ok (log_factor s (SecondFactorRemoved (Some id)) (user_id s) db)
  else Err AP_NotFound.

Definition enroll_app (s : Session) (secret code : str) (unix : Z) (db : Factors) : result Factors ApiProblem :=
  let? _ := directory_user s in
  let? r := enroll (user_id s) secret code unix db in
  if r.1 then Ok (log_factor s (SecondFactorEnrolled None) (user_id s) r.2) else Err AP_SecondFactorInvalid.

(** [remove]: the rule and the keys are read before the transaction. *)
Definition remove_factor (s : Session) (code : str) (unix : Z) (seen db : Factors) : result Factors ApiProblem :=
  let? _ := directory_user s in
  if required (session_sids s) (fa_people seen) && bool_decide (key_ids (user_id s) seen = [])
  then Err AP_Forbidden
  else
    let? r := verify_code (user_id s) code unix db in
    if r.1 then Ok (log_factor s (SecondFactorRemoved None) (user_id s) (remove_app (user_id s) r.2).2)
    else Err AP_SecondFactorInvalid.

Definition reset (s : Session) (id : Uuid) (db : Factors) : result Factors ApiProblem :=
  let? _ := require_admin s in
  match pe_users (fa_people db) !! id with
  | Some u =>
      if bool_decide (u_kind u = lit "directory") then
        let '(any, db) := remove_all id db in
        if any then Ok (log_factor s SecondFactorReset id db) else Err AP_NotFound
      else Err AP_NotFound
  | None => Err AP_NotFound
  end.

(** ** Confirmations (api/confirm.rs) *)

(** The factors of a local account as Kratos keeps them. *)
Record KratosKey := { kk_credential : list Z; kk_public : list Z; kk_counter : Z }.
Record SecondFactors := { sf_app : option Params; sf_keys : list KratosKey }.

(** [break_glass::verify_code] *)
Definition account_code (user : Uuid) (version : Z) (code : str) (unix : Z) (db : Factors) :
    result (bool * Factors) ApiProblem :=
  let? secret := ok_or (load_factor user version db) AP_Internal in
  let? step := code_step secret code unix in
  match step with
  | None => Ok (false, db)
  | Some step => Ok (affected db (use_account_step user (to_i64 step) db))
  end.

Definition verify_account_code (user : Uuid) (code : str) (unix : Z) (db : Factors) :
    result (bool * Factors) ApiProblem :=
  match fa_accounts db !! user with
  | Some a => account_code user (ac_version a) code unix db
  | None => Ok (false, db)
  end.

Definition local_code (user : Uuid) (factors : SecondFactors) (code : str) (unix : Z) (db : Factors) :
    result (bool * Factors) ApiProblem :=
  match sf_app factors with
  | None => Ok (false, db)
  | Some app =>
      match algorithm app with
      | Sha1 =>
          if negb (digits app =? DIGITS) || negb (period app =? PERIOD) then Ok (false, db)
          else
            let? step := code_step (secret app) code unix in
            match step with
            | None => Ok (false, db)
            | Some step => Ok (affected db (use_code_step user (to_i64 step) db))
            end
      | _ => Ok (false, db)
      end
  end.

(** [ON CONFLICT (credential_id) DO UPDATE ... WHERE user_id = EXCLUDED.user_id] *)
Definition keep_counter (credential : list Z) (user : Uuid) (counter : Z) (db : Factors) : Factors :=
  match fa_own_keys db !! credential with
  | Some (owner, _) => if owner =? user then on_own_keys (insert credential (user, counter)) db else db
  | None => on_own_keys (insert credential (user, counter)) db
  end.

Definition local_key (rp : RelyingParty) (user : Uuid) (factors : SecondFactors) (answer : KeyAnswer) (now : Z)
    (db : Factors) : bool * Factors :=
  match take_challenge user (purpose_of Confirm) (ka_challenge answer) now db with
  | None => (false, db)
  | Some (bytes, db) =>
      match credential_id (ka_credential answer) with
      | Err _ => (false, db)
      | Ok credential =>
          match List.find (fun k => bool_decide (kk_credential k = credential)) (sf_keys factors) with
          | None => (false, db)
          | Some key =>
              if negb (accepts Confirm (ka_credential answer)) then (false, db)
              else
                let ours := match fa_own_keys db !! credential with
                            | Some (owner, count) => if owner =? user then to_u32 count else 0
                            | None => 0
                            end in
                match Webauthn.verify rp bytes (kk_public key) (Z.max (kk_counter key) ours) (ka_credential answer) with
                | Ok counter => (true, keep_counter credential user counter db)
                | Err _ => (false, db)
                end
          end
      end
  end.

Inductive ConfirmWith := WithCode (code : list Z) | WithKey (key : KeyAnswer).

(** The factors of a user's kind; [local] is what Kratos answers. *)
Definition check_confirmation (rp : RelyingParty) (s : Session) (local : SecondFactors) (w : ConfirmWith)
    (now unix : Z) (db : Factors) : result (bool * Factors) ApiProblem :=
  let user := user_id s in
  if bool_decide (Session.kind s = lit "directory") then
    match w with
    | WithCode code => verify_code user code unix db
    | WithKey key => Ok (verify_key rp user key Confirm now db)
    end
  else if bool_decide (Session.kind s = lit "break_glass") then
    match w with
    | WithCode code => verify_account_code user code unix db
    | WithKey _ => Ok (false, db)
    end
  else if bool_decide (Session.kind s = lit "local") && is_some (identity_id s) then
    match w with
    | WithCode code => local_code user local code unix db
    | WithKey key => Ok (local_key rp user local key now db)
    end
  else Err AP_Forbidden.

(** The answer of a confirmation, with its effect on the session's row
    ([Session.confirm_row]). *)
Definition confirm_with (rp : RelyingParty) (s : Session) (local : SecondFactors) (w : ConfirmWith)
    (now unix : Z) (db : Factors) : result bool ApiProblem * Factors :=
  match check_confirmation rp s local w now unix db with
  | Err e => (Err e, db)
  | Ok (passed, db) =>
      (Ok passed, on_people (on_sessions (fun m =>
         match m !! token_hash s with
         | Some r => match confirm_row now passed r with
                     | Some r' => <[token_hash s := r']> m
                     | None => delete (token_hash s) m
                     end
         | None => m
         end)) db)
  end.

End factors.

(** ** Steps are used once

    What the three tables promise: a step is taken if it is newer than the last
    one, which it then is. *)
Class StepTable (last : Uuid -> Factors -> option Z) (use : Uuid -> Z -> Factors -> option Factors) : Prop :=
  use_newer user step db db' : use user step db = Some db' ->
    (forall l, last user db = Some l -> l < step) /\ last user db' = Some step.

Definition app_step (user : Uuid) (db : Factors) : option Z := a_last_step <$> fa_apps db !! user.
Definition account_step (user : Uuid) (db : Factors) : option Z := ac_last_step <$> fa_accounts db !! user.
Definition code_step_of (user : Uuid) (db : Factors) : option Z := fa_codes db !! user.

#[export] Instance apps_once : StepTable app_step use_app_step.
Proof.
  intros user step db db'. unfold use_app_step, app_step. destruct (fa_apps db !! user) as [a|]; [|done].
  destruct (_ <? _) eqn:E; [|done]. intros [= <-]. bools. simpl. rewrite lookup_insert_eq. naive_solver.
Qed.

#[export] Instance accounts_once : StepTable account_step use_account_step.
Proof.
  intros user step db db'. unfold use_account_step, account_step.
  destruct (fa_accounts db !! user) as [a|]; [|done].
  destruct (_ <? _) eqn:E; [|done]. intros [= <-]. bools. simpl. rewrite lookup_insert_eq. naive_solver.
Qed.

#[export] Instance codes_once : StepTable code_step_of use_code_step.
Proof.
  intros user step db db'. unfold use_code_step, code_step_of. destruct (fa_codes db !! user) as [l|]; [|].
  - destruct (_ <? _) eqn:E; [|done]. intros [= <-]. bools. simpl. rewrite lookup_insert_eq. naive_solver.
  - intros [= <-]. simpl. by rewrite lookup_insert_eq.
Qed.

Section theorems.
Context `{UuidText} `{Hmac} `{Base32} `{Base64Url} `{ClientDataJson} `{P256} `{Session.Sha256}.

Inductive CodeKind := OfApp | OfAccount | OfKratos (factors : SecondFactors).

Definition same_kind (k k' : CodeKind) : Prop :=
  match k, k' with OfApp, OfApp | OfAccount, OfAccount | OfKratos _, OfKratos _ => True | _, _ => False end.

Definition check_code (k : CodeKind) (user : Uuid) (code : list Z) (unix : Z) (db : Factors) :
    result (bool * Factors) ApiProblem :=
  match k with
  | OfApp => verify_code user code unix db
  | OfAccount => verify_account_code user code unix db
  | OfKratos factors => local_code user factors code unix db
  end.

Definition last_of (k : CodeKind) : Uuid -> Factors -> option Z :=
  match k with OfApp => app_step | OfAccount => account_step | OfKratos _ => code_step_of end.

(** The secret a code is checked with. *)
Definition secret_of (k : CodeKind) (user : Uuid) (db : Factors) : option (list Z) :=
  match k with
  | OfApp => a ← fa_apps db !! user; load_factor user (a_version a) db
  | OfAccount => a ← fa_accounts db !! user; load_factor user (ac_version a) db
  | OfKratos factors => secret <$> sf_app factors
  end.

Lemma affected_true {last use} `{!StepTable last use} user step db db' :
  affected db (use user step db) = (true, db') ->
  (forall l, last user db = Some l -> l < step) /\ last user db' = Some step.
Proof. unfold affected. destruct (use user step db) eqn:E; [|done]. intros [= <-]. by eapply use_newer. Qed.

Lemma check_code_true k user code unix db db' :
  check_code k user code unix db = Ok (true, db') ->
  exists key step, secret_of k user db = Some key /\ Totp.step key (trim code) unix = Some (Some step)
    /\ (forall l, last_of k user db = Some l -> l < to_i64 step) /\ last_of k user db' = Some (to_i64 step).
Proof.
  assert (Hstep : forall key st, code_step key code unix = Ok (Some st) -> Totp.step key (trim code) unix = Some (Some st)).
  { unfold code_step. intros key st. destruct (Totp.step _ _ _); [|done]. by intros [= ->]. }
  destruct k as [| |factors]; simpl; unfold verify_code, verify_account_code, account_code, local_code.
  - destruct (fa_apps db !! user) as [a|] eqn:Ha; [|done]. simpl.
    destruct (load_factor _ _ _) as [key|] eqn:Hk; [|done]. simpl.
    destruct (code_step key code unix) as [[st|]|] eqn:Hs; [|done..].
    intros [= Hu]. exists key, st. destruct (affected_true (last := app_step) _ _ _ _ Hu). auto.
  - destruct (fa_accounts db !! user) as [a|] eqn:Ha; [|done]. simpl.
    destruct (load_factor _ _ _) as [key|] eqn:Hk; [|done]. simpl.
    destruct (code_step key code unix) as [[st|]|] eqn:Hs; [|done..].
    intros [= Hu]. exists key, st. destruct (affected_true (last := account_step) _ _ _ _ Hu). auto.
  - destruct (sf_app factors) as [app|] eqn:Ha; [|done]. simpl.
    destruct (algorithm app); [|done..]. destruct (_ || _); [done|].
    destruct (code_step _ code unix) as [[st|]|] eqn:Hs; [|done..].
    intros [= Hu]. exists (secret app), st. destruct (affected_true (last := code_step_of) _ _ _ _ Hu). auto.
Qed.

Lemma find_step_in key entered steps s : find_step key entered steps = Some (Some s) -> s ∈ steps.
Proof.
  induction steps as [|x steps IH]; [done|]. simpl. destruct (Totp.code key x); [|done].
  destruct (same_code _ _); [intros [= ->]; by left|]. right. auto.
Qed.

Lemma step_bound key entered unix s :
  0 <= unix <= u64_max -> Totp.step key entered unix = Some (Some s) -> s <= unix / PERIOD + 1.
Proof.
  intros Hu Hs%find_step_in. assert (0 <= unix / PERIOD) by (apply Z.div_pos; unfold PERIOD; lia).
  rewrite !elem_of_cons, elem_of_nil in Hs. lia.
Qed.

Lemma to_i64_small n : n <= i64_max -> to_i64 n = n.
Proof. unfold to_i64. by intros ->%Z.leb_le. Qed.

(** ** What may happen *)

Inductive FactorStep :=
| F_sign_in (rp : RelyingParty) (user : Uuid) (sids : list (list Z)) (step : SecondStep) (fresh : Fresh) (now unix : Z)
| F_offer_key (s : Session) (fresh : Fresh) (now : Z)
| F_add_key (rp : RelyingParty) (s : Session) (new_id challenge_id : Uuid) (name : list Z) (credential : Registration) (now : Z)
| F_remove_key (s : Session) (id : Uuid)
| F_enroll (s : Session) (secret code : list Z) (unix : Z)
| F_remove (s : Session) (code : list Z) (unix : Z) (seen : Factors)
| F_reset (s : Session) (id : Uuid)
| F_confirm (rp : RelyingParty) (s : Session) (local : SecondFactors) (w : ConfirmWith) (now unix : Z)
| F_people (f : People -> People).

(** A failed request leaves the tables as they are; a refused sign-in takes its
    transaction back. *)
Definition committed {E} (db : Factors) (r : result Factors E) : Factors :=
  match r with Ok db' => db' | Err _ => db end.

Definition factor_run (st : FactorStep) (db : Factors) : Factors :=
  match st with
  | F_sign_in rp user sids step fresh now unix =>
      match at_sign_in rp user sids step fresh now unix db db with
      | Ok (Passed _ _, _, tx) => tx
      | Ok (Refused _ _, pool, _) => pool
      | Err _ => db
      end
  | F_offer_key s fresh now => match offer_key s fresh now db with Ok (_, db') => db' | Err _ => db end
  | F_add_key rp s new_id challenge_id name credential now =>
      committed db (add_key rp s new_id challenge_id name credential now db)
  | F_remove_key s id => committed db (remove_key s id db)
  | F_enroll s secret code unix => committed db (enroll_app s secret code unix db)
  | F_remove s code unix seen => committed db (remove_factor s code unix seen db)
  | F_reset s id => committed db (reset s id db)
  | F_confirm rp s local w now unix => (confirm_with rp s local w now unix db).2
  | F_people f => on_people f db
  end.

(** Steps that set a user's app up anew or take it away. *)
Definition sets_up (user : Uuid) (st : FactorStep) : bool :=
  match st with
  | F_enroll s _ _ _ | F_remove s _ _ _ => user_id s =? user
  | F_reset _ id => id =? user
  | _ => false
  end.

(** The last steps only grow. *)
Definition grows (o o' : option Z) : Prop := forall l, o = Some l -> exists l', o' = Some l' /\ l <= l'.

Lemma grows_refl o : grows o o.
Proof. intros l ->. by exists l. Qed.
Lemma grows_trans o1 o2 o3 : grows o1 o2 -> grows o2 o3 -> grows o1 o3.
Proof. intros H12 H23 l (l' & (l'' & ? & ?)%H23 & ?)%H12. exists l''. split; [done|lia]. Qed.

Definition grown (u : Uuid) (db db' : Factors) : Prop :=
  grows (app_step u db) (app_step u db') /\ grows (account_step u db) (account_step u db')
  /\ grows (code_step_of u db) (code_step_of u db').

Lemma grown_trans u db1 db2 db3 : grown u db1 db2 -> grown u db2 db3 -> grown u db1 db3.
Proof. intros (? & ? & ?) (? & ? & ?). split_and!; by eapply grows_trans. Qed.

Lemma grown_frame u db db' :
  fa_apps db' = fa_apps db -> fa_accounts db' = fa_accounts db -> fa_codes db' = fa_codes db -> grown u db db'.
Proof.
  intros Ha Hc Hk. unfold grown, app_step, account_step, code_step_of. rewrite Ha, Hc, Hk.
  split_and!; apply grows_refl.
Qed.

Lemma grown_refl u db : grown u db db.
Proof. by apply grown_frame. Qed.

Lemma grown_insert {V} (last : V -> Z) (m : gmap Uuid V) user v u :
  (forall v0, m !! user = Some v0 -> last v0 <= last v) ->
  grows (last <$> m !! u) (last <$> <[user := v]> m !! u).
Proof.
  intros Hle l. destruct (decide (user = u)) as [->|Hne].
  - rewrite lookup_insert_eq. intros (v0 & Hv0 & ->)%fmap_Some. eexists. split; [done|]. by apply Hle.
  - rewrite lookup_insert_ne by done. intros ->. by exists l.
Qed.

Lemma grown_use_app u user step db : grown u db (affected db (use_app_step user step db)).2.
Proof.
  unfold use_app_step. destruct (fa_apps db !! user) as [a|] eqn:Ha; [|apply grown_refl].
  destruct (_ <? _) eqn:E; [|apply grown_refl]. bools. split_and!; try apply grows_refl.
  unfold app_step. simpl. apply grown_insert. intros v0 Hv0. simplify_eq. simpl. lia.
Qed.

Lemma grown_use_account u user step db : grown u db (affected db (use_account_step user step db)).2.
Proof.
  unfold use_account_step. destruct (fa_accounts db !! user) as [a|] eqn:Ha; [|apply grown_refl].
  destruct (_ <? _) eqn:E; [|apply grown_refl]. bools. split_and!; try apply grows_refl.
  unfold account_step. simpl. apply grown_insert. intros v0 Hv0. simplify_eq. simpl. lia.
Qed.

Lemma grown_use_code u user step db : grown u db (affected db (use_code_step user step db)).2.
Proof.
  unfold use_code_step. destruct (fa_codes db !! user) as [l|] eqn:Ha;
    [destruct (_ <? _) eqn:E; [|apply grown_refl]; bools|]; (split_and!; try apply grows_refl);
    unfold code_step_of; simpl.
  - pose proof (grown_insert (fun z => z) (fa_codes db) user step u) as Hg. rewrite !option_fmap_id in Hg.
    apply Hg. intros v0 Hv0. simplify_eq. lia.
  - pose proof (grown_insert (fun z => z) (fa_codes db) user step u) as Hg. rewrite !option_fmap_id in Hg.
    apply Hg. intros v0 Hv0. simplify_eq.
Qed.

Lemma grown_check_code k u user code unix db b db' :
  check_code k user code unix db = Ok (b, db') -> grown u db db'.
Proof.
  destruct k as [| |factors]; simpl; unfold verify_code, verify_account_code, account_code, local_code;
    intros Hc; repeat (case_match; try done); simplify_eq; try apply grown_refl;
    match goal with E : affected ?db ?o = (_, ?db') |- _ => replace db' with (affected db o).2 by (by rewrite E) end;
    first [apply grown_use_app|apply grown_use_account|apply grown_use_code].
Qed.

Lemma verify_key_frame rp user answer usage now db :
  let db' := (verify_key rp user answer usage now db).2 in
  fa_apps db' = fa_apps db /\ fa_accounts db' = fa_accounts db /\ fa_codes db' = fa_codes db.
Proof.
  unfold verify_key, take_challenge. by repeat case_match; simplify_eq.
Qed.

Lemma local_key_frame rp user factors answer now db :
  let db' := (local_key rp user factors answer now db).2 in
  fa_apps db' = fa_apps db /\ fa_accounts db' = fa_accounts db /\ fa_codes db' = fa_codes db.
Proof.
  unfold local_key, take_challenge, keep_counter. by repeat case_match; simplify_eq.
Qed.

Lemma grown_enroll u user secret code unix db b db' :
  user <> u \/ fa_apps db !! user = None -> enroll user secret code unix db = Ok (b, db') -> grown u db db'.
Proof.
  intros Hu He. unfold enroll, store_factor in He. inv_ok He.
  destruct a0 as [st|]; [|simplify_eq; apply grown_refl]. inv_ok He. inv_ok E1. simplify_eq.
  split_and!; try apply grows_refl. unfold app_step. simpl.
  destruct Hu as [Hu|Hn]; [|apply grown_insert; by intros v0; rewrite Hn].
  rewrite lookup_insert_ne by done. apply grows_refl.
Qed.

Lemma grown_verify_key u rp user answer usage now db b db' :
  verify_key rp user answer usage now db = (b, db') -> grown u db db'.
Proof.
  intros E. destruct (verify_key_frame rp user answer usage now db) as (? & ? & ?).
  rewrite E in *. by apply grown_frame.
Qed.

Lemma grown_local_key u rp user factors answer now db b db' :
  local_key rp user factors answer now db = (b, db') -> grown u db db'.
Proof.
  intros E. destruct (local_key_frame rp user factors answer now db) as (? & ? & ?).
  rewrite E in *. by apply grown_frame.
Qed.

Lemma grown_confirmation u rp s local w now unix db b db' :
  check_confirmation rp s local w now unix db = Ok (b, db') -> grown u db db'.
Proof.
  unfold check_confirmation. repeat case_match; intros Hc; try done.
  - exact (grown_check_code OfApp u _ _ _ _ _ _ Hc).
  - injection Hc as Hc. by eapply grown_verify_key.
  - exact (grown_check_code OfAccount u _ _ _ _ _ _ Hc).
  - simplify_eq. apply grown_refl.
  - exact (grown_check_code (OfKratos local) u _ _ _ _ _ _ Hc).
  - injection Hc as Hc. by eapply grown_local_key.
Qed.

(** What a sign-in leaves behind. *)
Lemma sign_in_cases rp user sids step fresh now unix db :
  let db' := factor_run (F_sign_in rp user sids step fresh now unix) db in
  db' = db \/ (exists code, verify_code user code unix db = Ok (true, db'))
  \/ (exists key, verify_key rp user key SignIn now db = (true, db'))
  \/ db' = challenge user (purpose_of SignIn) (fr_id fresh) (fr_bytes fresh) now db
  \/ (exists secret code, enrolled user db = false /\ enroll user secret code unix db = Ok (true, db')).
Proof.
  simpl. unfold at_sign_in. destruct (enrolled user db) eqn:He.
  - destruct (ss_code step) as [code|].
    + destruct (verify_code _ _ _ _) as [[[] db']|] eqn:E; simpl; eauto.
    + destruct (ss_key step) as [key|].
      * destruct (verify_key rp user key SignIn now db) as [[] db'] eqn:E; simpl; eauto.
      * case_bool_decide; auto.
  - destruct (ss_new_secret step) as [secret|], (ss_code step) as [code|];
      try (destruct (required sids _); by left).
    destruct (enroll _ _ _ _ _) as [[[] db']|] eqn:E; simpl; eauto 10.
Qed.

Lemma not_enrolled user db : enrolled user db = false -> fa_apps db !! user = None.
Proof. unfold enrolled, has_app. intros He. bools. by apply is_some_false. Qed.

Lemma grown_sign_in u rp user sids step fresh now unix db :
  grown u db (factor_run (F_sign_in rp user sids step fresh now unix) db).
Proof.
  destruct (sign_in_cases rp user sids step fresh now unix db)
    as [->|[(code & E)|[(key & E)|[->|(secret & code & He & E)]]]].
  - apply grown_refl.
  - exact (grown_check_code OfApp u _ _ _ _ _ _ E).
  - by eapply grown_verify_key.
  - by apply grown_frame.
  - eapply grown_enroll; [right; by apply not_enrolled|exact E].
Qed.

Lemma grown_run u st db : sets_up u st = false -> grown u db (factor_run st db).
Proof.
  intros Hs. destruct st as [rp user sids step fresh now unix|s fresh now|rp s new_id cid name cred now
    |s id|s sec code unix|s code unix seen|s id|rp s local w now unix|f]; simpl in Hs; bools.
  - apply grown_sign_in.
  - simpl. unfold offer_key, directory_user. case_bool_decide; simpl; [by apply grown_frame|apply grown_refl].
  - simpl. unfold committed. destruct (add_key _ _ _ _ _ _ _ _) as [db'|] eqn:E; [|apply grown_refl].
    unfold add_key in E. inv_ok E. unfold insert_key in *. inv_ok E4. simplify_eq.
    destruct (take_challenge _ _ _ _ _) as [[bytes db1]|] eqn:Ht in E2; [|done]. injection E2 as <-.
    unfold take_challenge in Ht. destruct (fa_challenges db !! cid); [|done]. destruct (_ && _); [|done].
    simplify_eq. by apply grown_frame.
  - simpl. unfold committed. destruct (remove_key _ _ _) as [db'|] eqn:E; [|apply grown_refl].
    unfold remove_key in E. inv_ok E. destruct (existsb _ _); [|done]. destruct (_ && _); [done|]. simplify_eq.
    by apply grown_frame.
  - simpl. unfold committed. destruct (enroll_app _ _ _ _ _) as [db'|] eqn:E; [|apply grown_refl].
    unfold enroll_app in E. inv_ok E. destruct a0 as [[] db1]; [|done]. injection E as <-.
    apply (grown_trans u db db1); [|by apply grown_frame]. eapply grown_enroll; [by left|exact E1].
  - simpl. unfold committed. destruct (remove_factor _ _ _ _ _) as [db'|] eqn:E; [|apply grown_refl].
    unfold remove_factor in E. inv_ok E. destruct a0 as [[] db1]; [|done]. injection E as <-.
    apply (grown_trans u db db1); [exact (grown_check_code OfApp u _ _ _ _ _ _ E2)|].
    split_and!; try apply grows_refl. unfold app_step. simpl. rewrite lookup_delete_ne by done. apply grows_refl.
  - simpl. unfold committed. destruct (reset _ _ _) as [db'|] eqn:E; [|apply grown_refl].
    unfold reset, remove_all, remove_app in E. repeat (case_match; simplify_eq; try done);
    (split_and!; try apply grows_refl); unfold app_step; simpl; rewrite lookup_delete_ne by done; apply grows_refl.
  - simpl. unfold confirm_with. destruct (check_confirmation _ _ _ _ _ _ _) as [[b db']|] eqn:E; [|apply grown_refl].
    apply (grown_confirmation u) in E. apply (grown_trans u db db'); [exact E|]. by apply grown_frame.
  - by apply grown_frame.
Qed.

(** What may go on between two codes of a user: requests that neither set the
    user's app up anew nor take it away, codes checked elsewhere, as at the
    sign-in of break-glass accounts, and what the command line does to other
    break-glass accounts. *)
Inductive meanwhile (user : Uuid) : Factors -> Factors -> Prop :=
| mw_request st db : sets_up user st = false -> meanwhile user db (factor_run st db)
| mw_code k other code unix db b db' : check_code k other code unix db = Ok (b, db') -> meanwhile user db db'
| mw_account id row secrets db : id <> user ->
    meanwhile user db (on_factor_secrets secrets (on_accounts (partial_alter row id) db)).

Lemma grown_meanwhile u db db' : meanwhile u db db' -> grown u db db'.
Proof.
  intros [st x Hst|k other code unix x b x' Hc|id row secrets x Hid].
  - by apply grown_run.
  - exact (grown_check_code k u _ _ _ _ _ _ Hc).
  - split_and!; try apply grows_refl. unfold account_step. simpl. rewrite lookup_partial_alter_ne by done. apply grows_refl.
Qed.

(** C13: Each code works once, as long as the user's app or account is not set up
    anew or taken away in between: after a code was taken, by a sign-in, a
    removal or a confirmation, a later one of the same user is only taken for a
    later time step; for directory users, break-glass accounts and local
    accounts alike. *)
Theorem code_works_once (k k' : CodeKind) (user : Uuid) (code code' : list Z) (unix unix' : Z)
    (db0 db1 db2 db3 : Factors) :
  same_kind k k' -> 0 <= unix <= u64_max -> 0 <= unix' <= u64_max ->
  check_code k user code unix db0 = Ok (true, db1) ->
  rtc (meanwhile user) db1 db2 ->
  check_code k' user code' unix' db2 = Ok (true, db3) ->
  exists key key' step step',
    secret_of k user db0 = Some key /\ Totp.step key (trim code) unix = Some (Some step)
    /\ secret_of k' user db2 = Some key' /\ Totp.step key' (trim code') unix' = Some (Some step')
    /\ step < step'.
Proof.
  intros Hk Hu Hu' Hc1 Hrun Hc2.
  apply check_code_true in Hc1 as (key & step & Hkey & Hs & _ & Hl).
  apply check_code_true in Hc2 as (key' & step' & Hkey' & Hs' & Hlt & _).
  exists key, key', step, step'. split_and!; try done.
  assert (Hg : grown user db1 db2).
  { clear -Hrun. induction Hrun as [db|db db' db2 Hst _ IH]; [apply grown_refl|].
    eapply grown_trans; [by apply grown_meanwhile|exact IH]. }
  assert (Hlast : exists l, last_of k' user db2 = Some l /\ to_i64 step <= l).
  { destruct Hg as (G1 & G2 & G3). destruct k, k'; simpl in *; try done; eauto. }
  destruct Hlast as (l & Hl2 & Hle). apply Hlt in Hl2.
  apply step_bound in Hs, Hs'; [|done..]. unfold PERIOD, u64_max in *.
  assert (Hdiv : forall n, 0 <= n <= 18446744073709551615 -> n / 30 < 700000000000000000)
    by (intros; apply Z.div_lt_upper_bound; lia).
  pose proof (Hdiv unix Hu). pose proof (Hdiv unix' Hu').
  rewrite to_i64_small in Hle by (unfold i64_max; lia).
  rewrite to_i64_small in Hl2 by (unfold i64_max; lia). lia.
Qed.

(** *** Challenges *)

Definition issues (id : Uuid) (st : FactorStep) : bool :=
  match st with
  | F_sign_in _ _ _ _ fresh _ _ | F_offer_key _ fresh _ => fr_id fresh =? id
  | _ => false
  end.

Definition gone (id : Uuid) (db : Factors) : Prop := fa_challenges db !! id = None.

Lemma check_code_challenges k user code unix db b db' :
  check_code k user code unix db = Ok (b, db') -> fa_challenges db' = fa_challenges db.
Proof.
  destruct k; simpl; unfold verify_code, verify_account_code, account_code, local_code, affected,
    use_app_step, use_account_step, use_code_step; intros Hc; repeat (case_match; try done); by simplify_eq.
Qed.

Lemma enroll_challenges user secret code unix db b db' :
  enroll user secret code unix db = Ok (b, db') -> fa_challenges db' = fa_challenges db.
Proof.
  unfold enroll, store_factor. intros He. inv_ok He. destruct a0; [|by simplify_eq].
  inv_ok He. inv_ok E1. by simplify_eq.
Qed.

Lemma take_challenge_gone user purpose i now db bytes db' :
  take_challenge user purpose i now db = Some (bytes, db') ->
  gone i db' /\ forall id, gone id db -> gone id db'.
Proof.
  unfold take_challenge, gone. destruct (fa_challenges db !! i); [|done]. destruct (_ && _); [|done].
  intros [= _ <-]. simpl. split; [by rewrite lookup_delete_eq|]. intros id Hid. rewrite lookup_delete_None. auto.
Qed.

Lemma verify_key_gone rp user answer usage now db b db' :
  verify_key rp user answer usage now db = (b, db') ->
  (b = true -> gone (ka_challenge answer) db') /\ (forall id, gone id db -> gone id db').
Proof.
  unfold verify_key. destruct (take_challenge _ _ _ _ _) as [[bytes db1]|] eqn:Ht; [|by intros [= <- <-]].
  apply take_challenge_gone in Ht as [Hg Hk]. intros Hv. repeat case_match; by simplify_eq.
Qed.

Lemma local_key_gone rp user factors answer now db b db' :
  local_key rp user factors answer now db = (b, db') ->
  (b = true -> gone (ka_challenge answer) db') /\ (forall id, gone id db -> gone id db').
Proof.
  unfold local_key. destruct (take_challenge _ _ _ _ _) as [[bytes db1]|] eqn:Ht; [|by intros [= <- <-]].
  apply take_challenge_gone in Ht as [Hg Hk]. unfold keep_counter. intros Hv. by repeat case_match; simplify_eq.
Qed.

Lemma confirmation_gone rp s local w now unix db b db' :
  check_confirmation rp s local w now unix db = Ok (b, db') -> forall id, gone id db -> gone id db'.
Proof.
  unfold check_confirmation, gone. repeat case_match; intros Hc id Hid; try done.
  - by rewrite (check_code_challenges OfApp _ _ _ _ _ _ Hc).
  - injection Hc as Hc. by eapply verify_key_gone.
  - by rewrite (check_code_challenges OfAccount _ _ _ _ _ _ Hc).
  - by simplify_eq.
  - by rewrite (check_code_challenges (OfKratos local) _ _ _ _ _ _ Hc).
  - injection Hc as Hc. by eapply local_key_gone.
Qed.

Lemma challenge_gone user purpose i bytes now db id :
  i <> id -> gone id db -> gone id (challenge user purpose i bytes now db).
Proof.
  unfold gone, challenge. simpl. intros Hne Hid. rewrite lookup_insert_ne by done.
  apply map_lookup_filter_None. by left.
Qed.

Lemma gone_run id st db : issues id st = false -> gone id db -> gone id (factor_run st db).
Proof.
  intros Hi Hg. destruct st as [rp user sids step fresh now unix|s fresh now|rp s new_id cid name cred now
    |s k|s sec code unix|s code unix seen|s u|rp s local w now unix|f]; simpl in Hi; bools; simpl; unfold committed.
  - destruct (sign_in_cases rp user sids step fresh now unix db)
      as [E|[(code & E)|[(key & E)|[E|(secret & code & He & E)]]]]; cbn in E |- *.
    + by rewrite E.
    + unfold gone. by rewrite (check_code_challenges OfApp _ _ _ _ _ _ E).
    + by eapply verify_key_gone.
    + rewrite E. by apply challenge_gone.
    + unfold gone. by rewrite (enroll_challenges _ _ _ _ _ _ _ E).
  - unfold offer_key, directory_user. case_bool_decide; [by apply challenge_gone|done].
  - destruct (add_key _ _ _ _ _ _ _ _) as [db'|] eqn:E; [|done].
    unfold add_key in E. inv_ok E. unfold insert_key in *. inv_ok E4. simplify_eq.
    destruct (take_challenge _ _ _ _ _) as [[bytes db1]|] eqn:Ht in E2; [|done]. injection E2 as <-.
    by apply take_challenge_gone in Ht as [_ Hk]; apply Hk.
  - destruct (remove_key _ _ _) as [db'|] eqn:E; [|done].
    unfold remove_key in E. inv_ok E. destruct (existsb _ _); [|done]. destruct (_ && _); [done|]. by simplify_eq.
  - destruct (enroll_app _ _ _ _ _) as [db'|] eqn:E; [|done].
    unfold enroll_app in E. inv_ok E. destruct a0 as [[] db1]; [|done]. injection E as <-.
    unfold gone. simpl. by rewrite (enroll_challenges _ _ _ _ _ _ _ E1).
  - destruct (remove_factor _ _ _ _ _) as [db'|] eqn:E; [|done].
    unfold remove_factor in E. inv_ok E. destruct a0 as [[] db1]; [|done]. injection E as <-.
    unfold gone. simpl. by rewrite (check_code_challenges OfApp _ _ _ _ _ _ E2).
  - destruct (reset _ _ _) as [db'|] eqn:E; [|done].
    unfold reset, remove_all, remove_app in E. by repeat (case_match; simplify_eq; try done).
  - unfold confirm_with. destruct (check_confirmation _ _ _ _ _ _ _) as [[b db']|] eqn:E; [|done].
    by eapply confirmation_gone in E.
  - done.
Qed.

(** A challenge is answered once: after a key's answer to it was right, at
    a sign-in or a confirmation, no answer to it is taken again, for any user,
    key or use, unless a new challenge has its ID. *)
Theorem challenge_answered_once (rp rp' : RelyingParty) (user user' : Uuid) (answer answer' : KeyAnswer)
    (usage usage' : KeyUse) (factors : SecondFactors) (now now' : Z) (db0 db1 db2 : Factors) :
  verify_key rp user answer usage now db0 = (true, db1)
  \/ local_key rp user factors answer now db0 = (true, db1) ->
  rtc (fun db db' => exists st, issues (ka_challenge answer) st = false /\ db' = factor_run st db) db1 db2 ->
  ka_challenge answer' = ka_challenge answer ->
  verify_key rp' user' answer' usage' now' db2 = (false, db2)
  /\ local_key rp' user' factors answer' now' db2 = (false, db2).
Proof.
  intros Hv Hrun Hid.
  assert (Hg : gone (ka_challenge answer) db2).
  { apply (rtc_closed (fun db db' => exists st, issues (ka_challenge answer) st = false /\ db' = factor_run st db)
      (gone (ka_challenge answer)) db1 db2); [|done|].
    - intros x y Hx (st & Hst & ->). by apply gone_run.
    - destruct Hv as [Hv|Hv]; [by apply verify_key_gone in Hv as [Hv _]; apply Hv|by apply local_key_gone in Hv as [Hv _]; apply Hv]. }
  unfold verify_key, local_key, take_challenge. by rewrite Hid, Hg.
Qed.

(** *** Who must have a factor *)

(** C12: Whoever has a second factor, or must have one, signs in with one only: a
    code of their app that is right now, a right answer of one of their keys,
    or the app they set up in that step. *)
Theorem sign_in_takes_the_factor (rp : RelyingParty) (user : Uuid) (sids : list (list Z)) (step : SecondStep)
    (fresh : Fresh) (now unix : Z) (pool tx pool' tx' : Factors) (used set_up : bool) :
  at_sign_in rp user sids step fresh now unix pool tx = Ok (Passed used set_up, pool', tx') ->
  (enrolled user tx || required sids (fa_people tx) = true ->
     used = true
     /\ ((exists code, enrolled user tx = true /\ verify_code user code unix tx = Ok (true, tx'))
         \/ (exists key, enrolled user tx = true /\ verify_key rp user key SignIn now tx = (true, tx'))
         \/ (exists secret code, enrolled user tx = false /\ set_up = true
             /\ enroll user secret code unix tx = Ok (true, tx') /\ has_app user tx' = true)))
  /\ (used = false -> tx' = tx /\ enrolled user tx = false /\ required sids (fa_people tx) = false)
  /\ pool' = pool.
Proof.
  unfold at_sign_in. destruct (enrolled user tx) eqn:He; simpl.
  - destruct (ss_code step) as [code|].
    + destruct (verify_code _ _ _ _) as [[[] db']|] eqn:E; [|done..]. cbn. intros [= <- <- <- <-].
      split_and!; [|done|done]. intros _. split; [done|]. left. eauto.
    + destruct (ss_key step) as [key|]; [|by case_bool_decide].
      destruct (verify_key _ _ _ _ _ _) as [[] db'] eqn:E; [|done]. cbn. intros [= <- <- <- <-].
      split_and!; [|done|done]. intros _. split; [done|]. right. left. eauto.
  - assert (Hnone : (if required sids (fa_people tx)
      then Ok (Refused (SP_SetupRequired (Totp.encode (fr_secret fresh))) false, pool, tx)
      else Ok (Passed false false, pool, tx)) = Ok (Passed used set_up, pool', tx') :> result _ ApiProblem ->
      used = false /\ required sids (fa_people tx) = false /\ tx' = tx /\ pool' = pool)
      by (by destruct (required sids _); intros [= <- <- <- <-]).
    destruct (ss_new_secret step) as [secret|], (ss_code step) as [code|];
      try (intros (-> & Hr & -> & ->)%Hnone; rewrite Hr; by split_and!).
    destruct (enroll _ _ _ _ _) as [[[] db']|] eqn:E; [|done..]. cbn. intros [= <- <- <- <-].
    split_and!; [|done|done]. intros _. split; [done|]. right. right. exists secret, code. split_and!; try done.
    unfold enroll, store_factor in E. inv_ok E. destruct a0 as [st|]; [|done]. inv_ok E. inv_ok E2. simplify_eq.
    unfold has_app. simpl. by rewrite lookup_insert_eq.
Qed.

(** *** The last factor *)

(** While a rule names a directory user, their own requests do not take their
    last factor: not by removing the app, and not by removing a key, as long
    as no other request runs in between. *)
Theorem last_factor_stays (s : Session) (db db' : Factors) :
  required (session_sids s) (fa_people db) = true ->
  (exists code unix, remove_factor s code unix db db = Ok db') \/ (exists id, remove_key s id db = Ok db') ->
  enrolled (user_id s) db' = true.
Proof.
  intros Hreq [(code & unix & E)|(id & E)].
  - unfold remove_factor in E. inv_ok E. rewrite Hreq in E1. simpl in E1.
    destruct a0 as [[] db1]; [|done]. injection E as <-.
    assert (Hk : has_key (user_id s) db = true).
    { unfold has_key. destruct (existsb _ _) eqn:Hn; [done|]. exfalso. bools. apply E1. unfold key_ids.
      destruct (filter _ (fa_keys db)) as [|k l] eqn:Hf; [done|]. exfalso.
      assert (Hin : k ∈ k :: l) by left. rewrite <- Hf in Hin. apply list_elem_of_filter in Hin as [Hu Hin].
      pose proof (existsb_false _ _ _ Hn Hin) as Hk. simpl in Hk. bools. done. }
    unfold enrolled. apply orb_true_iff. right. unfold has_key in *. simpl.
    replace (fa_keys db1) with (fa_keys db); [done|]. symmetry.
    unfold verify_code, affected, use_app_step in E2. by repeat (case_match; simplify_eq).
  - unfold remove_key in E. inv_ok E. destruct (existsb _ _); [|done].
    destruct (_ && _) eqn:Hr; [done|]. injection E as <-. simpl in Hr. rewrite Hreq, andb_true_r in Hr.
    bools. exact Hr.
Qed.

(** *** The tables stay in order *)

Record factors_ok (db : Factors) : Prop := {
  fo_sealed : forall u a, fa_apps db !! u = Some a -> is_Some (load_factor u (a_version a) db);
  fo_accounts : forall u a, fa_accounts db !! u = Some a -> is_Some (load_factor u (ac_version a) db);
  fo_credentials : NoDup (k_credential <$> fa_keys db);
  fo_keys : forall k, k ∈ fa_keys db -> length (k_public k) = 65%nat
}.

Lemma ok_frame db db' :
  (forall x, is_Some (fa_secrets db !! x) -> is_Some (fa_secrets db' !! x)) ->
  (forall u a, fa_apps db' !! u = Some a ->
     (exists a0, fa_apps db !! u = Some a0 /\ a_version a0 = a_version a) \/ is_Some (load_factor u (a_version a) db')) ->
  (forall u a, fa_accounts db' !! u = Some a -> exists a0, fa_accounts db !! u = Some a0 /\ ac_version a0 = ac_version a) ->
  NoDup (k_credential <$> fa_keys db') -> (forall k, k ∈ fa_keys db' -> length (k_public k) = 65%nat) ->
  factors_ok db -> factors_ok db'.
Proof.
  intros Hs Ha Hc Hn Hk []. split; try done.
  - intros u a [(a0 & Hu & <-)|?]%Ha; [|done]. by apply Hs, fo_sealed0.
  - intros u a (a0 & Hu & <-)%Hc. by apply Hs, fo_accounts0.
Qed.

(** Tables that differ in the challenges, the codes and counters used, the
    people and the log. *)
Lemma ok_same db db' :
  fa_secrets db' = fa_secrets db -> fa_apps db' = fa_apps db -> fa_accounts db' = fa_accounts db ->
  fa_keys db' = fa_keys db -> factors_ok db -> factors_ok db'.
Proof.
  intros E1 E2 E3 E4 Hok. apply (ok_frame db); try done; rewrite ?E1, ?E2, ?E3, ?E4; try by destruct Hok.
  - intros u a ->. eauto.
  - intros u a ->. eauto.
Qed.

Lemma ok_use_app user step db : factors_ok db -> factors_ok (affected db (use_app_step user step db)).2.
Proof.
  intros Hok. unfold use_app_step. destruct (fa_apps db !! user) as [a|] eqn:Ha; [|done].
  destruct (_ <? _); [|done]. apply (ok_frame db); simpl; try done; try by destruct Hok.
  - intros u b. rewrite lookup_insert_Some. intros [[<- <-]|[_ ?]]; eauto.
  - intros u b ->. eauto.
Qed.

Lemma ok_use_account user step db : factors_ok db -> factors_ok (affected db (use_account_step user step db)).2.
Proof.
  intros Hok. unfold use_account_step. destruct (fa_accounts db !! user) as [a|] eqn:Ha; [|done].
  destruct (_ <? _); [|done]. apply (ok_frame db); simpl; try done; try by destruct Hok.
  - intros u b ->. eauto.
  - intros u b. rewrite lookup_insert_Some. intros [[<- <-]|[_ ?]]; eauto.
Qed.

Lemma ok_use_code user step db : factors_ok db -> factors_ok (affected db (use_code_step user step db)).2.
Proof. intros Hok. unfold use_code_step. repeat case_match; by apply (ok_same db). Qed.

Lemma ok_check_code k user code unix db b db' :
  check_code k user code unix db = Ok (b, db') -> factors_ok db -> factors_ok db'.
Proof.
  intros Hc Hok. revert Hc.
  destruct k as [| |factors]; simpl; unfold verify_code, verify_account_code, account_code, local_code;
    intros Hc; repeat (case_match; try done); simplify_eq; try done;
    match goal with E : affected ?db ?o = (_, ?db') |- _ => replace db' with (affected db o).2 by (by rewrite E) end;
    first [by apply ok_use_app|by apply ok_use_account|by apply ok_use_code].
Qed.

Lemma ok_enroll user secret code unix db b db' :
  enroll user secret code unix db = Ok (b, db') -> factors_ok db -> factors_ok db'.
Proof.
  unfold enroll, store_factor. intros He Hok. inv_ok He. destruct a0; [|by simplify_eq].
  inv_ok He. inv_ok E1. simplify_eq. apply (ok_frame db); simpl; try by destruct Hok.
  - intros x Hx. apply lookup_insert_is_Some. destruct (decide ((user, next_factor_version user db, FIELD) = x)); auto.
  - intros u c. rewrite lookup_insert_Some. intros [[<- <-]|[_ ?]]; [right|left; eauto].
    unfold load_factor. simpl. rewrite lookup_insert_eq. by eexists.
  - intros u c ->. eauto.
Qed.

Lemma set_count_same id c (l : list KeyRow) :
  k_credential <$> (set_count id c <$> l) = k_credential <$> l /\ k_public <$> (set_count id c <$> l) = k_public <$> l.
Proof.
  rewrite <- !list_fmap_compose. split; apply list_fmap_ext; intros i k _; simpl; unfold set_count; by destruct (_ =? _).
Qed.

Lemma ok_keys f db :
  NoDup (k_credential <$> f (fa_keys db)) -> (forall k, k ∈ f (fa_keys db) -> length (k_public k) = 65%nat) ->
  factors_ok db -> factors_ok (on_keys f db).
Proof. intros Hn Hk Hok. apply (ok_frame db); simpl; try done; [intros u a ->; eauto..]. Qed.

Lemma ok_set_count id c db : factors_ok db -> factors_ok (on_keys (fmap (set_count id c)) db).
Proof.
  intros Hok. destruct (set_count_same id c (fa_keys db)) as [E1 E2]. apply ok_keys; [|..|done].
  - rewrite E1. by destruct Hok.
  - intros k Hk. assert (Hin : k_public k ∈ k_public <$> (set_count id c <$> fa_keys db)) by (apply list_elem_of_fmap; eauto).
    rewrite E2 in Hin. apply list_elem_of_fmap in Hin as (k0 & -> & Hk0). by apply (fo_keys _ Hok).
Qed.

Lemma ok_filter_keys (P : KeyRow -> Prop) `{!forall k, Decision (P k)} db :
  factors_ok db -> factors_ok (on_keys (filter P) db).
Proof.
  intros Hok. apply ok_keys; [|..|done].
  - by apply NoDup_fmap_filter, fo_credentials.
  - intros k [_ Hk]%list_elem_of_filter. by apply (fo_keys _ Hok).
Qed.

Lemma ok_take user purpose i now db bytes db' :
  take_challenge user purpose i now db = Some (bytes, db') -> factors_ok db -> factors_ok db'.
Proof.
  unfold take_challenge. destruct (_ !! i); [|done]. destruct (_ && _); [|done]. intros [= _ <-] Hok. by apply (ok_same db).
Qed.

Lemma ok_verify_key rp user answer usage now db b db' :
  verify_key rp user answer usage now db = (b, db') -> factors_ok db -> factors_ok db'.
Proof.
  unfold verify_key. destruct (take_challenge _ _ _ _ _) as [[bytes db1]|] eqn:Ht; [|by intros [= <- <-]].
  intros Hv Hok. apply (ok_take _ _ _ _ _ _ _ Ht) in Hok. repeat case_match; simplify_eq; try done.
  by apply ok_set_count.
Qed.

Lemma ok_confirmation rp s local w now unix db b db' :
  check_confirmation rp s local w now unix db = Ok (b, db') -> factors_ok db -> factors_ok db'.
Proof.
  unfold check_confirmation. repeat case_match; intros Hc Hok; try done.
  - by eapply (ok_check_code OfApp).
  - injection Hc as Hc. by eapply ok_verify_key.
  - by eapply (ok_check_code OfAccount).
  - by simplify_eq.
  - by eapply (ok_check_code (OfKratos local)).
  - injection Hc as Hc. revert Hc. unfold local_key.
    destruct (take_challenge _ _ _ _ _) as [[bytes db1]|] eqn:Ht; [|by intros [= <- <-]].
    intros Hv. apply (ok_take _ _ _ _ _ _ _ Ht) in Hok. unfold keep_counter in Hv.
    repeat case_match; simplify_eq; try done; by apply (ok_same db1).
Qed.

(** Whatever happens, the tables of second factors stay in order: every app
    and every break-glass account has the secret of its version sealed, no
    two keys have the same credential, and every key is a point of P-256. *)
Theorem factors_stay_in_order (st : FactorStep) (db : Factors) :
  factors_ok db -> factors_ok (factor_run st db).
Proof.
  intros Hok. destruct st as [rp user sids step fresh now unix|s fresh now|rp s new_id cid name cred now
    |s k|s sec code unix|s code unix seen|s u|rp s local w now unix|f]; simpl; unfold committed.
  - destruct (sign_in_cases rp user sids step fresh now unix db)
      as [E|[(code & E)|[(key & E)|[E|(secret & code & He & E)]]]]; cbn in E |- *.
    + by rewrite E.
    + by eapply (ok_check_code OfApp).
    + by eapply ok_verify_key.
    + rewrite E. by apply (ok_same db).
    + by eapply ok_enroll.
  - unfold offer_key, directory_user. case_bool_decide; [by apply (ok_same db)|done].
  - destruct (add_key _ _ _ _ _ _ _ _) as [db'|] eqn:E; [|done].
    unfold add_key in E. inv_ok E. unfold insert_key in *. inv_ok E4. simplify_eq.
    destruct (take_challenge _ _ _ _ _) as [[bytes db1]|] eqn:Ht in E2; [|done]. injection E2 as <-.
    apply (ok_take _ _ _ _ _ _ _ Ht) in Hok. simpl in *.
    match goal with |- factors_ok (log_factor _ _ _ ?d) => apply (ok_same d); [done..|] end.
    apply ok_keys; [|..|done].
    + apply NoDup_fmap_snoc; [by apply fo_credentials|]. intros k Hk Heq.
      pose proof (existsb_false _ _ _ E6 Hk) as Hx. simpl in Hx. bools. done.
    + intros k [Hk| ->%list_elem_of_singleton]%elem_of_app; [by apply (fo_keys _ Hok)|]. simpl. bools. lia.
  - destruct (remove_key _ _ _) as [db'|] eqn:E; [|done].
    unfold remove_key in E. inv_ok E. destruct (existsb _ _); [|done]. destruct (_ && _); [done|]. simplify_eq.
    match goal with |- factors_ok (log_factor _ _ _ ?d) => apply (ok_same d); [done..|] end. by apply ok_filter_keys.
  - destruct (enroll_app _ _ _ _ _) as [db'|] eqn:E; [|done].
    unfold enroll_app in E. inv_ok E. destruct a0 as [[] db1]; [|done]. injection E as <-.
    apply (ok_same db1); [done..|]. by eapply ok_enroll.
  - destruct (remove_factor _ _ _ _ _) as [db'|] eqn:E; [|done].
    unfold remove_factor in E. inv_ok E. destruct a0 as [[] db1]; [|done]. injection E as <-.
    apply (ok_check_code OfApp) in E2; [|done]. apply (ok_frame db1); simpl; try done; try by destruct E2.
    + intros u a [_ Hu]%lookup_delete_Some. eauto.
    + intros u a ->. eauto.
  - destruct (reset _ _ _) as [db'|] eqn:E; [|done].
    unfold reset, remove_all, remove_app in E. inv_ok E. destruct (pe_users _ !! u); [|done].
    case_bool_decide; [|done]. destruct (has_app u db || _); [|done]. injection E as <-.
    match goal with |- factors_ok (log_factor _ _ _ ?d) => apply (ok_same d); [done..|] end.
    apply ok_filter_keys, (ok_frame db); try done; try by destruct Hok.
    + simpl. intros v a [_ Hu]%lookup_delete_Some. eauto.
    + simpl. intros v a ->. eauto.
  - unfold confirm_with. destruct (check_confirmation _ _ _ _ _ _ _) as [[b db']|] eqn:E; [|done].
    apply (ok_same db'); [done..|]. by eapply ok_confirmation.
  - by apply (ok_same db).
Qed.

(** *** Codes are checked *)

Definition kind_checked (k : CodeKind) : Prop :=
  match k with
  | OfKratos factors => forall app, sf_app factors = Some app ->
      algorithm app = Sha1 /\ digits app = DIGITS /\ period app = PERIOD
  | _ => True
  end.

Lemma secret_present k user db :
  factors_ok db -> secret_of k user db = None ->
  match k with
  | OfApp => fa_apps db !! user = None
  | OfAccount => fa_accounts db !! user = None
  | OfKratos factors => sf_app factors = None
  end.
Proof.
  intros [] Hs. destruct k as [| |factors]; simpl in Hs.
  - destruct (fa_apps db !! user) as [a|] eqn:Ha; [|done]. cbn in Hs.
    destruct (fo_sealed0 user a Ha) as [x Hx]. by rewrite Hx in Hs.
  - destruct (fa_accounts db !! user) as [a|] eqn:Ha; [|done]. cbn in Hs.
    destruct (fo_accounts0 user a Ha) as [x Hx]. by rewrite Hx in Hs.
  - by destruct (sf_app factors).
Qed.

Context `{!HmacOk}.

(** In tables in order a code's check always has an answer, and takes a code
    exactly if it is the app's for a time step within one of now that is newer
    than the last one used. *)
Theorem code_checked_iff (k : CodeKind) (user : Uuid) (code : list Z) (unix : Z) (db : Factors) :
  factors_ok db -> kind_checked k -> 0 <= unix <= u64_max -> Forall (fun c => scalar c = true) (trim code) ->
  exists b db', check_code k user code unix db = Ok (b, db')
  /\ (b = true <-> exists key step, secret_of k user db = Some key
       /\ Totp.step key (trim code) unix = Some (Some step) /\ Totp.code key step = Some (trim code)
       /\ unix / PERIOD - 1 <= step <= unix / PERIOD + 1
       /\ forall l, last_of k user db = Some l -> l < step).
Proof.
  intros Hok Hk Hu Hc. destruct (secret_of k user db) as [key|] eqn:Hs.
  2:{ exists false, db. pose proof (secret_present k user db Hok Hs) as Hn. split; [|by split; [|intros (? & ? & ? & _)]].
      destruct k; simpl in *; unfold verify_code, verify_account_code, local_code; by rewrite Hn. }
  destruct (code_accepted_iff key (trim code) unix) as (answer & Ha & _ & Hin); [lia|done|].
  assert (Hst : code_step key code unix = Ok answer) by (unfold code_step; by rewrite Ha).
  assert (Hex : check_code k user code unix db =
    match answer with
    | None => Ok (false, db)
    | Some st => Ok (affected db match k with
        | OfApp => use_app_step user (to_i64 st) db
        | OfAccount => use_account_step user (to_i64 st) db
        | OfKratos _ => use_code_step user (to_i64 st) db end)
    end).
  { destruct k as [| |factors]; simpl in *; unfold verify_code, verify_account_code, account_code, local_code.
    - destruct (fa_apps db !! user); [|done]. cbn in Hs. by rewrite Hs; cbn; rewrite Hst.
    - destruct (fa_accounts db !! user); [|done]. cbn in Hs. by rewrite Hs; cbn; rewrite Hst.
    - destruct (sf_app factors) as [app|]; [|done]. injection Hs as <-.
      destruct (Hk app eq_refl) as (-> & -> & ->). by rewrite Hst. }
  destruct answer as [st|].
  2:{ exists false, db. split; [done|]. split; [done|]. intros (? & ? & [= <-] & Hx & _). by rewrite Ha in Hx. }
  destruct (Hin st eq_refl) as (Hst0 & Hst1 & Hcode).
  assert (Hdiv : unix / PERIOD < 700000000000000000) by (unfold PERIOD, u64_max in *; apply Z.div_lt_upper_bound; lia).
  rewrite to_i64_small in Hex by (unfold i64_max; lia).
  destruct (affected _ _) as [b db'] eqn:Haff in Hex. exists b, db'. split; [done|].
  transitivity (forall l, last_of k user db = Some l -> l < st).
  { unfold affected in Haff. destruct k as [| |factors]; simpl in *;
      unfold use_app_step, use_account_step, use_code_step, app_step, account_step, code_step_of in *.
    - destruct (fa_apps db !! user) as [a|]; [|done]. destruct (_ <? _) eqn:E; simplify_eq; bools; simpl; naive_solver lia.
    - destruct (fa_accounts db !! user) as [a|]; [|done]. destruct (_ <? _) eqn:E; simplify_eq; bools; simpl; naive_solver lia.
    - destruct (fa_codes db !! user) as [a|]; [destruct (_ <? _) eqn:E|]; simplify_eq; bools; simpl; naive_solver lia. }
  split.
  - intros Hl. exists key, st. by split_and!; try lia.
  - intros (? & st' & [= <-] & Hs' & _ & _ & Hl). rewrite Ha in Hs'. injection Hs' as <-. done.
Qed.
End theorems.

(** ** Examples *)

Module FactorExamples.
Import WebauthnExamples.

#[local] Existing Instance plain_base64.
#[local] Existing Instance plain_sha.
#[local] Existing Instance plain_client_data.
#[local] Existing Instance plain_keys.
#[local] Instance decimal_uuid : UuidText := decimal.
#[local] Existing Instance TotpExamples.plain_base32.
(** A digest that is the message, read backwards. *)
#[local] Instance backwards : Hmac := fun a key message =>
  (fun b => b mod 256) <$> take (digest_len a) (reverse message ++ replicate (digest_len a) 0).
#[local] Instance backwards_ok : HmacOk.
Proof.
  intros a key message. unfold hmac_of, backwards. split.
  - rewrite length_fmap, length_take, length_app, length_replicate. lia.
  - apply Forall_fmap, Forall_forall. intros x _. apply Z.mod_pos_bound. lia.
Qed.

Definition alice : Session :=
  {| token_hash := [1]; session_id := 1; client := lit "web"; user_id := 1; username := lit "alice";
     display_name := lit "Alice"; Session.kind := lit "directory"; sid := Some (lit "S-1-5-7"); upn := None;
     s_group_sids := []; identity_id := None; memberships := []; roles := []; locked := false;
     confirmed := false |}.

(** Alice must have a factor, and has an app and a key. *)
Definition db0 : Factors :=
  {| fa_people :=
       {| pe_users := ∅; pe_sessions := ∅; pe_groups := ∅; pe_members := []; pe_roles := []; pe_purpose := [];
          pe_rules := [{| pr_sid := lit "S-1-5-7"; pr_kind := lit "user"; pr_name := lit "Alice" |}];
          pe_grants := []; pe_log := [] |};
     fa_secrets := {[(1, 1, FIELD) := replicate 20 7]};
     fa_apps := {[1 := {| a_version := 1; a_last_step := 0 |}]};
     fa_keys := [{| k_id := 9; k_user := 1; k_credential := lit "key"; k_public := point; k_count := 6;
                    k_name := lit "key" |}];
     fa_challenges := {[5 := {| ch_user := 1; ch_purpose := lit "sign_in"; ch_bytes := lit "challenge";
                                ch_expires := 300 * second |}]};
     fa_accounts := ∅; fa_codes := ∅; fa_own_keys := ∅; fa_log := [] |}.

Definition code_of (step : Z) : list Z := default [] (Totp.code (replicate 20 7) step).

Lemma db0_ok : factors_ok db0.
Proof.
  split; simpl.
  - intros u a. rewrite lookup_singleton_Some. intros [<- <-]. by eexists.
  - intros u a. by rewrite lookup_empty.
  - apply NoDup_singleton.
  - by intros k ->%list_elem_of_singleton.
Qed.

Definition db1 : Factors := default db0 (snd <$> ok (verify_code 1 (code_of 2) 60 db0)).
Definition db2 : Factors := default db0 (snd <$> ok (verify_code 1 (code_of 3) 90 db1)).

Lemma first_code : verify_code 1 (code_of 2) 60 db0 = Ok (true, db1).
Proof. vm_compute. reflexivity. Qed.
Lemma second_code : verify_code 1 (code_of 3) 90 db1 = Ok (true, db2).
Proof. vm_compute. reflexivity. Qed.

Example same_code_again : verify_code 1 (code_of 2) 60 db1 = Ok (false, db1).
Proof. vm_compute. reflexivity. Qed.

Lemma code_works_once_witness :
  exists key key' step step',
    secret_of OfApp 1 db0 = Some key /\ Totp.step key (trim (code_of 2)) 60 = Some (Some step)
    /\ secret_of OfApp 1 db1 = Some key' /\ Totp.step key' (trim (code_of 3)) 90 = Some (Some step')
    /\ step < step'.
Proof.
  apply (code_works_once OfApp OfApp 1 (code_of 2) (code_of 3) 60 90 db0 db1 db1 db2 I);
    [unfold u64_max; lia|unfold u64_max; lia|exact first_code|apply rtc_refl|exact second_code].
Defined.

Lemma code_checked_iff_witness :
  exists b db', check_code OfApp 1 (code_of 2) 60 db0 = Ok (b, db') /\ b = true.
Proof.
  destruct (code_checked_iff OfApp 1 (code_of 2) 60 db0 db0_ok I) as (b & db' & Hc & Hb).
  - unfold u64_max. lia.
  - apply forallb_Forall. vm_compute. reflexivity.
  - exists b, db'. split; [exact Hc|]. apply Hb. exists (replicate 20 7), 2.
    split_and!; [vm_compute; reflexivity..|discriminate|discriminate|].
    intros l Hl. vm_compute in Hl. injection Hl as <-. reflexivity.
Defined.

Definition answer : KeyAnswer := {| ka_challenge := 5; ka_credential := signed |}.
Definition db_key : Factors := (verify_key rp 1 answer SignIn 0 db0).2.

Lemma key_taken : verify_key rp 1 answer SignIn 0 db0 = (true, db_key).
Proof. vm_compute. reflexivity. Qed.

Lemma challenge_answered_once_witness : verify_key rp 1 answer SignIn 0 db_key = (false, db_key).
Proof.
  apply (challenge_answered_once rp rp 1 1 answer answer SignIn SignIn {| sf_app := None; sf_keys := [] |}
    0 0 db0 db_key db_key); [left; exact key_taken|apply rtc_refl|reflexivity].
Defined.

Definition with_code : SecondStep := {| ss_code := Some (code_of 2); ss_new_secret := None; ss_key := None |}.
Definition fresh0 : Fresh := {| fr_id := 6; fr_bytes := []; fr_secret := [] |}.

Lemma signed_in : at_sign_in rp 1 [] with_code fresh0 0 60 db0 db0 = Ok (Passed true false, db0, db1).
Proof. vm_compute. reflexivity. Qed.

Lemma sign_in_takes_the_factor_witness :
  true = true
  /\ ((exists code, enrolled 1 db0 = true /\ verify_code 1 code 60 db0 = Ok (true, db1))
      \/ (exists key, enrolled 1 db0 = true /\ verify_key rp 1 key SignIn 0 db0 = (true, db1))
      \/ (exists secret code, enrolled 1 db0 = false /\ false = true
          /\ enroll 1 secret code 60 db0 = Ok (true, db1) /\ has_app 1 db1 = true)).
Proof.
  refine (proj1 (sign_in_takes_the_factor rp 1 [] with_code fresh0 0 60 db0 db0 db0 db1 true false signed_in) _).
  vm_compute. reflexivity.
Defined.

Definition db_app_only : Factors := default db0 (ok (remove_key alice 9 db0)).
Definition db_key_only : Factors :=
  default db0 (ok (remove_factor alice (code_of 2) 60 db0 db0)).

Lemma last_factor_stays_witness : enrolled 1 db_app_only = true.
Proof.
  apply (last_factor_stays alice db0 db_app_only); [vm_compute; reflexivity|].
  right. exists 9. vm_compute. reflexivity.
Defined.

Lemma factors_stay_in_order_witness : factors_ok (factor_run (F_remove_key alice 9) db0).
Proof. exact (factors_stay_in_order (F_remove_key alice 9) db0 db0_ok). Defined.

(** Alice, who must have a factor, removes her app and her key at the same
    time: the first request saw the key, which the second removed while the
    app was there. No factor is left, though each request alone refuses to
    take the last one. *)
Example concurrent_removals_leave_no_factor :
  required (session_sids alice) (fa_people db0) = true
  /\ remove_key alice 9 db0 = Ok db_app_only
  /\ enrolled 1 <$> ok (remove_factor alice (code_of 2) 60 db0 db_app_only) = Some false
  /\ remove_factor alice (code_of 2) 60 db_app_only db_app_only = Err AP_Forbidden
  /\ remove_key alice 9 db_key_only = Err AP_Forbidden.
Proof.
  split_and!; vm_compute; reflexivity.
Qed.

End FactorExamples.
