(* ===== verification/BreakGlass.v ===== *)
(** * Break-glass accounts (crates/server/src/break_glass.rs)

    The accounts that work without the directory: created, reset and deleted
    by the command line, and their sign-in with a password and a code. Argon2
    and the random bytes are parameters; [version] is the transaction's new
    version of the sealed secret. The URI of an issued secret and the display
    names shown in lists are left out. *)
From S2P Require Import Prelude Text Utf8 Sid Totp Model Session AccessRequests Store Folders Grants.
From S2P Require Import People Webauthn Factors.

Definition PASSWORD_ALPHABET : list Z :=
  lit "abcdefghijkmnopqrstuvwxyzABCDEFGHJKLMNPQRSTUVWXYZ23456789-_.!".
Definition PASSWORD_LENGTH : Z := 24.

Inductive BreakGlassError :=
| BG_Exists (name : list Z) | BG_Unknown (name : list Z) | BG_InvalidName | BG_Secret | BG_Hash.

#[export] Instance break_glass_error_eq_dec : EqDecision BreakGlassError.
Proof. solve_decision. Defined.

Record Issued := { is_username : list Z; is_password : list Z; is_secret : list Z }.

Record Account := { acc_user : Uuid; acc_username : list Z }.

Definition valid_name (name : str) : bool :=
  (1 <=? str_len name) && (str_len name <=? 64)
  && forallb (fun c => is_ascii_alphanumeric c || (c =? 46) || (c =? 45) || (c =? 95)) name.

(** [bytes] come of the operating system, [PASSWORD_LENGTH] of them. *)
Definition random_password (bytes : list Z) : list Z :=
  (fun b => nth (Z.to_nat (b mod Z.of_nat (length PASSWORD_ALPHABET))) PASSWORD_ALPHABET 0) <$> bytes.

(** What the system draws for an account: the password's bytes, the salt and the
    secret. *)
Record Drawn := { dr_bytes : list Z; dr_salt : list Z; dr_secret : list Z }.

Section break_glass.
Context `{UuidText} `{SqlLower} `{Argon2} `{Hmac} `{Base32}.

Definition hash_password (salt : list Z) (password : str) : result (list Z) BreakGlassError :=
  ok_or (argon2_hash salt (utf8 password)) BG_Hash.

Definition password_matches (password : str) (h : str) : bool := argon2_matches (utf8 password) h.

Definition issue (username password secret : list Z) : Issued :=
  {| is_username := username; is_password := password; is_secret := Totp.encode secret |}.

Definition break_glass_user (username : list Z) : UserRow :=
  {| u_username := username; u_display_name := username; u_kind := lit "break_glass"; u_sid := None;
     u_upn := None; u_identity_id := None; blocked_at := None |}.

(** A row of the unique index on the names of break-glass accounts. *)
Definition same_account (name : str) (u : UserRow) : bool :=
  bool_decide (u_kind u = lit "break_glass") && bool_decide (sql_lower (u_username u) = sql_lower name).

Definition create (new_id : Uuid) (drawn : Drawn) (username : str) (db : Factors) :
    result (Issued * Factors) BreakGlassError :=
  if negb (valid_name username) then Err BG_InvalidName
  else
    let password := random_password (dr_bytes drawn) in
    let? h := hash_password (dr_salt drawn) password in
    if existsb (fun kv => same_account username kv.2) (map_to_list (pe_users (fa_people db)))
    then Err (BG_Exists username)
    else
      let db := on_people (on_users (insert new_id (break_glass_user username))) db in
      let db := on_accounts (insert new_id {| ac_hash := h; ac_version := 1; ac_last_step := 0 |}) db in
      match store_factor new_id 1 (dr_secret drawn) db with
      | Ok db => Ok (issue username password (dr_secret drawn), db)
      | Err _ => Err BG_Secret
      end.

(** A user joined with its account. *)
Definition account_named (username : str) (db : Factors) : option (Uuid * UserRow * AccountRow) :=
  head (omap (fun kv => a ← fa_accounts db !! kv.1;
                        if same_account (trim username) kv.2 then Some (kv.1, kv.2, a) else None)
          (map_to_list (pe_users (fa_people db)))).

Definition find (username : str) (db : Factors) : option Account :=
  (fun ua => {| acc_user := ua.1.1; acc_username := u_username ua.1.2 |}) <$> account_named username db.

Definition reset (drawn : Drawn) (username : str) (db : Factors) : result (Issued * Factors) BreakGlassError :=
  let? account := ok_or (find username db) (BG_Unknown username) in
  let user := acc_user account in
  let password := random_password (dr_bytes drawn) in
  let? h := hash_password (dr_salt drawn) password in
  match fa_accounts db !! user with
  | None => Err BG_Secret
  | Some a =>
      let version := ac_version a + 1 in
      let db := on_accounts (insert user {| ac_hash := h; ac_version := version; ac_last_step := 0 |}) db in
      match store_factor user version (dr_secret drawn) db with
      | Ok db => Ok (issue (acc_username account) password (dr_secret drawn),
                     on_people (end_sessions user) db)
      | Err _ => Err BG_Secret
      end
  end.

Definition delete (username : str) (db : Factors) : result (Account * Factors) BreakGlassError :=
  let? account := ok_or (find username db) (BG_Unknown username) in
  let user := acc_user account in
  let db := on_factor_secrets (filter (fun kv : Uuid * Z * list Z * list Z =>
                                 ~ (kv.1.1.1 = user /\ kv.1.2 = FIELD))) db in
  let db := on_accounts (base.delete user) db in
  let db := on_people (end_sessions user) db in
  let as_gone := fun u => {| u_username := u_username u; u_display_name := u_display_name u;
                             u_kind := lit "deleted"; u_sid := u_sid u; u_upn := u_upn u;
                             u_identity_id := u_identity_id u; blocked_at := blocked_at u |} in
  Ok (account, on_people (on_users (alter as_gone user)) db).

(** *** Signing in

    The row is read first, and the code checked after the password, which
    takes its time: other requests and the command line may run between. *)
Definition auth_read (username : str) (db : Factors) : option (Uuid * UserRow * AccountRow) :=
  account_named username db.

(** [None] for any mismatch. *)
Definition auth_finish (row : option (Uuid * UserRow * AccountRow)) (password code : str) (unix : Z)
    (db : Factors) : result (option Account * Factors) ApiProblem :=
  match row with
  | None => Ok (None, db)
  | Some (user, u, a) =>
      if negb (password_matches password (ac_hash a)) then Ok (None, db)
      else
        let? r := account_code user (ac_version a) code unix db in
        Ok (if r.1 then Some {| acc_user := user; acc_username := u_username u |} else None, r.2)
  end.

Definition authenticate_at (username password code : str) (unix : Z) (db : Factors) :
    result (option Account * Factors) ApiProblem :=
  auth_finish (auth_read username db) password code unix db.

End break_glass.

(** ** Theorems *)

Lemma random_password_ok (bytes : list Z) :
  length (random_password bytes) = length bytes /\ forall c, c ∈ random_password bytes -> c ∈ PASSWORD_ALPHABET.
Proof.
  unfold random_password. split; [by rewrite length_fmap|].
  intros c (b & -> & _)%list_elem_of_fmap. apply list_elem_of_In, nth_In.
  assert (0 < Z.of_nat (length PASSWORD_ALPHABET)) by (vm_compute; reflexivity).
  pose proof (Z.mod_pos_bound b (Z.of_nat (length PASSWORD_ALPHABET))). lia.
Qed.

Section theorems.
Context `{UuidText} `{SqlLower} `{Argon2} `{Hmac} `{Base32}.

(** The accounts in order: names are valid, and unique among break-glass users,
    every account has its user, its secret sealed and none of a later version. *)
Record accounts_ok (db : Factors) : Prop := {
  ao_valid : forall i u, pe_users (fa_people db) !! i = Some u -> u_kind u = lit "break_glass" ->
    valid_name (u_username u) = true;
  ao_names : forall i j u v, pe_users (fa_people db) !! i = Some u -> pe_users (fa_people db) !! j = Some v ->
    u_kind u = lit "break_glass" -> u_kind v = lit "break_glass" ->
    sql_lower (u_username u) = sql_lower (u_username v) -> i = j;
  ao_users : forall i, is_Some (fa_accounts db !! i) ->
    exists u, pe_users (fa_people db) !! i = Some u /\ u_kind u = lit "break_glass";
  ao_sealed : forall i a, fa_accounts db !! i = Some a -> is_Some (load_factor i (ac_version a) db);
  ao_later : forall i a v, fa_accounts db !! i = Some a -> ac_version a < v -> load_factor i v db = None
}.

Lemma head_only {A} (l : list A) x : x ∈ l -> (forall y, y ∈ l -> y = x) -> head l = Some x.
Proof. destruct l as [|y l]; [set_solver|]. intros _ Hy. simpl. f_equal. apply Hy. by left. Qed.

Lemma account_named_elem username db i u a :
  (i, u, a) ∈ omap (fun kv => a ← fa_accounts db !! kv.1;
                     if same_account (trim username) kv.2 then Some (kv.1, kv.2, a) else None)
                (map_to_list (pe_users (fa_people db))) <->
  fa_accounts db !! i = Some a /\ pe_users (fa_people db) !! i = Some u
  /\ u_kind u = lit "break_glass" /\ sql_lower (u_username u) = sql_lower (trim username).
Proof.
  rewrite list_elem_of_omap. unfold same_account. split.
  - intros ([j v] & Hj%elem_of_map_to_list & Hf). simpl in Hf.
    destruct (fa_accounts db !! j) as [b|] eqn:Hb; [|done]. cbn in Hf.
    destruct (_ && _) eqn:Hs; [|done]. simplify_eq. bools. done.
  - intros (Ha & Hu & Hk & Hn). exists (i, u). rewrite elem_of_map_to_list. split; [done|]. simpl. rewrite Ha. cbn.
    by rewrite !bool_decide_eq_true_2.
Qed.

Lemma account_named_iff username db i u a :
  accounts_ok db ->
  account_named username db = Some (i, u, a) <->
  fa_accounts db !! i = Some a /\ pe_users (fa_people db) !! i = Some u
  /\ u_kind u = lit "break_glass" /\ sql_lower (u_username u) = sql_lower (trim username).
Proof.
  intros Hok. rewrite <- account_named_elem. unfold account_named. split.
  - intros Hh. apply list_elem_of_In. by destruct (omap _ _); [|left; injection Hh].
  - intros Hin. apply head_only; [done|]. intros [[j v] b] Hj.
    apply account_named_elem in Hin as (Ha & Hu & Hk & Hn), Hj as (Hb & Hv & Hk' & Hn').
    assert (j = i) as -> by (eapply (ao_names _ Hok); eauto; congruence). by simplify_eq.
Qed.

(** A break-glass account signs in exactly with its name, whatever its case,
    its password and a code of its app that is right now and newer than the
    last one used; every other attempt is answered alike. *)
Theorem break_glass_signs_in_iff (username password code : list Z) (unix : Z) (db db' : Factors) (account : Account) :
  accounts_ok db ->
  authenticate_at username password code unix db = Ok (Some account, db') <->
  exists u a, fa_accounts db !! acc_user account = Some a
    /\ pe_users (fa_people db) !! acc_user account = Some u
    /\ u_kind u = lit "break_glass" /\ sql_lower (u_username u) = sql_lower (trim username)
    /\ acc_username account = u_username u
    /\ argon2_matches (utf8 password) (ac_hash a) = true
    /\ verify_account_code (acc_user account) code unix db = Ok (true, db').
Proof.
  intros Hok. unfold authenticate_at, auth_read, auth_finish, password_matches, verify_account_code. split.
  - destruct (account_named username db) as [[[i u] a]|] eqn:Hn; [|done].
    apply account_named_iff in Hn as (Ha & Hu & Hk & Hl); [|done].
    destruct (argon2_matches _ _) eqn:Hm; [|done]. simpl.
    destruct (account_code _ _ _ _ _) as [[[] db1]|] eqn:Hc; [|done..]. intros [= <- <-]. simpl.
    exists u, a. by rewrite Ha.
  - intros (u & a & Ha & Hu & Hk & Hl & Hname & Hm & Hc). rewrite Ha in Hc.
    assert (account_named username db = Some (acc_user account, u, a)) as -> by (by apply account_named_iff).
    rewrite Hm. simpl. rewrite Hc. simpl. rewrite <- Hname. by destruct account.
Qed.

Lemma load_factor_on_people f i v db : load_factor i v (on_people f db) = load_factor i v db.
Proof. done. Qed.

(** A key nothing uses yet, as the database generates it. *)
Definition unused (id : Uuid) (db : Factors) : Prop :=
  pe_users (fa_people db) !! id = None /\ forall v, load_factor id v db = None.

Lemma create_made new_id drawn username db issued db' :
  create new_id drawn username db = Ok (issued, db') ->
  valid_name username = true
  /\ exists h, argon2_hash (dr_salt drawn) (utf8 (is_password issued)) = Some h
  /\ is_username issued = username
  /\ (forall i u, pe_users (fa_people db) !! i = Some u -> u_kind u = lit "break_glass" ->
       sql_lower (u_username u) <> sql_lower username)
  /\ pe_users (fa_people db') = <[new_id := break_glass_user username]> (pe_users (fa_people db))
  /\ pe_sessions (fa_people db') = pe_sessions (fa_people db)
  /\ fa_accounts db' = <[new_id := {| ac_hash := h; ac_version := 1; ac_last_step := 0 |}]> (fa_accounts db)
  /\ fa_secrets db' = <[(new_id, 1, FIELD) := dr_secret drawn]> (fa_secrets db).
Proof.
  unfold create, hash_password, store_factor. destruct (valid_name username); [|done]. simpl.
  destruct (argon2_hash _ _) as [h|] eqn:Hh; [|done]. simpl. destruct (existsb _ _) eqn:Hno; [done|].
  destruct (is_some _); [done|]. intros [= <- <-]. split; [done|]. exists h. split_and!; try done.
  intros i u Hi%elem_of_map_to_list Hk Hn. pose proof (existsb_false _ _ _ Hno Hi) as Hs. simpl in Hs.
  unfold same_account in Hs. by rewrite Hk, Hn, !bool_decide_eq_true_2 in Hs.
Qed.

Lemma reset_ok drawn username db issued db' :
  accounts_ok db -> reset drawn username db = Ok (issued, db') ->
  exists i u a h, account_named username db = Some (i, u, a)
  /\ argon2_hash (dr_salt drawn) (utf8 (is_password issued)) = Some h
  /\ is_username issued = u_username u
  /\ pe_users (fa_people db') = pe_users (fa_people db)
  /\ pe_sessions (fa_people db') = filter (fun hr => s_user_id hr.2 <> i) (pe_sessions (fa_people db))
  /\ fa_accounts db' = <[i := {| ac_hash := h; ac_version := ac_version a + 1; ac_last_step := 0 |}]> (fa_accounts db)
  /\ fa_secrets db' = <[(i, ac_version a + 1, FIELD) := dr_secret drawn]> (fa_secrets db).
Proof.
  intros Hok. unfold reset, find, hash_password, store_factor.
  destruct (account_named username db) as [[[i u] a]|] eqn:Hn; [|done]. simpl.
  destruct (argon2_hash _ _) as [h|] eqn:Hh; [|done]. simpl.
  pose proof Hn as Hn'. apply account_named_iff in Hn' as (Ha & _); [|done]. rewrite Ha. simpl.
  destruct (is_some _); [done|]. intros [= <- <-]. by exists i, u, a, h.
Qed.

Inductive account_step : Factors -> Factors -> Prop :=
| as_create (new_id : Uuid) (drawn : Drawn) (username : list Z) (db db' : Factors) (issued : Issued) :
    unused new_id db -> create new_id drawn username db = Ok (issued, db') -> account_step db db'
| as_reset (drawn : Drawn) (username : list Z) (db db' : Factors) (issued : Issued) :
    reset drawn username db = Ok (issued, db') -> account_step db db'
| as_delete (username : list Z) (db db' : Factors) (account : Account) :
    delete username db = Ok (account, db') -> account_step db db'
| as_finish (row : option (Uuid * UserRow * AccountRow)) (password code : list Z) (unix : Z) (db db' : Factors)
    (r : option Account) :
    auth_finish row password code unix db = Ok (r, db') -> account_step db db'.

Lemma accounts_ok_create new_id drawn username db issued db' :
  unused new_id db -> create new_id drawn username db = Ok (issued, db') -> accounts_ok db -> accounts_ok db'.
Proof.
  intros [Hfree Hsec] (Hv & h & _ & _ & Hno & Hu & _ & Ha & Hs)%create_made [].
  assert (Hnew : forall i v, i <> new_id -> load_factor i v db' = load_factor i v db).
  { intros i v Hne. unfold load_factor. rewrite Hs, lookup_insert_ne; [done|congruence]. }
  split.
  - intros i u. rewrite Hu, lookup_insert_Some. intros [[<- <-]|[_ Hi]]; [done|eauto].
  - intros i j u v. rewrite Hu, !lookup_insert_Some.
    intros [[<- <-]|[Hi Hui]] [[<- <-]|[Hj Hvj]] Hk Hk' Hn; eauto; exfalso; by eapply Hno.
  - intros i. rewrite Ha, Hu, lookup_insert_is_Some. setoid_rewrite lookup_insert_Some.
    intros [<-|[Hne Hi]]; [eexists; split; [by left|done]|].
    destruct (ao_users0 i Hi) as (u & Hui & Hk). exists u. split; [right; done|done].
  - intros i a. rewrite Ha, lookup_insert_Some. intros [[<- <-]|[Hne Hi]]; [|rewrite Hnew by done; eauto].
    unfold load_factor. rewrite Hs. simpl. by rewrite lookup_insert_eq.
  - intros i a v. rewrite Ha, lookup_insert_Some. intros [[<- <-]|[Hne Hi]]; [|rewrite Hnew by done; eauto].
    simpl. intros Hlt. unfold load_factor. rewrite Hs, lookup_insert_ne; [apply Hsec|intros [=]; lia].
Qed.

Lemma accounts_ok_reset drawn username db issued db' :
  reset drawn username db = Ok (issued, db') -> accounts_ok db -> accounts_ok db'.
Proof.
  intros Hr Hok. apply reset_ok in Hr as (k & u0 & a0 & h & Hn & _ & _ & Hu & _ & Ha & Hs); [|done].
  apply account_named_iff in Hn as (Hak & Huk & Hkk & _); [|done]. destruct Hok.
  assert (Hnew : forall i v, i <> k -> load_factor i v db' = load_factor i v db).
  { intros i v Hne. unfold load_factor. rewrite Hs, lookup_insert_ne; [done|congruence]. }
  split; rewrite ?Hu; try done.
  - intros i. rewrite Ha, lookup_insert_is_Some. intros [<-|[_ Hi]]; [eauto|by apply ao_users0].
  - intros i a. rewrite Ha, lookup_insert_Some. intros [[<- <-]|[Hne Hi]]; [|rewrite Hnew by done; eauto].
    unfold load_factor. rewrite Hs. simpl. by rewrite lookup_insert_eq.
  - intros i a v. rewrite Ha, lookup_insert_Some. intros [[<- <-]|[Hne Hi]]; [|rewrite Hnew by done; eauto].
    simpl. intros Hlt. unfold load_factor. rewrite Hs, lookup_insert_ne by (intros [=]; lia).
    apply (ao_later0 k a0 v Hak). lia.
Qed.

Lemma accounts_ok_delete username db account db' :
  delete username db = Ok (account, db') -> accounts_ok db -> accounts_ok db'.
Proof.
  unfold delete. intros Hd []. inv_ok Hd. simplify_eq. set (k := acc_user account) in *.
  assert (Hgone : forall i u, alter (fun u => {| u_username := u_username u; u_display_name := u_display_name u;
                             u_kind := lit "deleted"; u_sid := u_sid u; u_upn := u_upn u;
                             u_identity_id := u_identity_id u; blocked_at := blocked_at u |}) k
                    (pe_users (fa_people db)) !! i = Some u -> u_kind u = lit "break_glass" ->
                    i <> k /\ pe_users (fa_people db) !! i = Some u).
  { intros i u. rewrite lookup_alter_Some. intros [(-> & u0 & _ & ->)|[Hne Hu]]; [done|auto]. }
  assert (Hload : forall i v, i <> k -> fa_secrets db !! (i, v, FIELD)
    = filter (fun kv : Uuid * Z * list Z * list Z => ~ (kv.1.1.1 = k /\ kv.1.2 = FIELD)) (fa_secrets db) !! (i, v, FIELD)).
  { intros i v Hne. symmetry. destruct (fa_secrets db !! (i, v, FIELD)) as [x|] eqn:Hx.
    - apply map_lookup_filter_Some. split; [done|]. simpl. tauto.
    - apply map_lookup_filter_None. by left. }
  split; simpl.
  - intros i u Hu Hk. apply Hgone in Hu as [_ Hu]; [|done]. eauto.
  - intros i j u v Hu Hv Hk Hk' Hn. apply Hgone in Hu as [_ Hu], Hv as [_ Hv]; [|done..]. eauto.
  - intros i [a [Hne Hi]%lookup_delete_Some].
    destruct (ao_users0 i) as (u & Hu & Hk); [by eexists|]. exists u. split; [|done].
    rewrite lookup_alter_ne; [done|congruence].
  - intros i a [Hne Hi]%lookup_delete_Some. unfold load_factor. simpl. rewrite <- Hload by congruence. by apply ao_sealed0.
  - intros i a v [Hne Hi]%lookup_delete_Some Hlt. unfold load_factor. simpl. rewrite <- Hload by congruence.
    by apply (ao_later0 i a v).
Qed.

Lemma accounts_ok_finish row password code unix db r db' :
  auth_finish row password code unix db = Ok (r, db') -> accounts_ok db -> accounts_ok db'.
Proof.
  unfold auth_finish. destruct row as [[[k u] a]|]; [|by intros [= _ <-]].
  destruct (negb _); [by intros [= _ <-]|]. unfold account_code. intros Hf Hok. inv_ok Hf. simplify_eq.
  destruct (load_factor k (ac_version a) db) as [key|]; [|done]. simpl in E.
  destruct (code_step _ _ _) as [[st|]|]; [|by simplify_eq|done]. injection E as <-.
  unfold affected, use_account_step. destruct (fa_accounts db !! k) as [b|] eqn:Hb; [|done].
  destruct (_ <? _); [|done]. simpl. destruct Hok. split; simpl; try done.
  - intros i. rewrite lookup_insert_is_Some. intros [<-|[_ Hi]]; apply ao_users0; [by eexists|done].
  - intros i c. rewrite lookup_insert_Some. intros [[<- <-]|[_ Hi]]; simpl; [by apply (ao_sealed0 k b)|by apply (ao_sealed0 i c)].
  - intros i c v. rewrite lookup_insert_Some. intros [[<- <-]|[_ Hi]]; simpl; [by apply (ao_later0 k b)|by apply (ao_later0 i c)].
Qed.

(** Whatever the command line and the sign-ins do, in any order, the
    break-glass accounts stay in order. *)
Theorem accounts_stay_in_order (db db' : Factors) :
  accounts_ok db -> rtc account_step db db' -> accounts_ok db'.
Proof.
  intros Hok Hrun. apply (rtc_closed account_step accounts_ok db db'); [|done..].
  intros x y Hx Hs. destruct Hs; eauto using accounts_ok_create, accounts_ok_reset, accounts_ok_delete, accounts_ok_finish.
Qed.

Context `{!HmacOk} `{!Argon2Ok}.

Lemma trim_valid name : valid_name name = true -> trim name = name.
Proof.
  unfold valid_name. intros Hv. bools. apply trim_none, Forall_forall. intros c Hc.
  rename select (forallb _ _ = true) into Hf. rewrite forallb_Forall, Forall_forall in Hf. specialize (Hf c Hc).
  unfold is_ascii_alphanumeric, is_ascii_digit, is_ascii_upper, is_ascii_lower in Hf.
  apply not_whitespace; lia.
Qed.

(** What the command line shows after it made or reset an account signs in:
    the name, the password and the code the app shows for the secret, from the
    first minute of the clock on. *)
Theorem issued_signs_in (db db' : Factors) (issued : Issued) (drawn : Drawn) (unix : Z) (code : list Z) :
  accounts_ok db -> 60 <= unix <= u64_max ->
  (exists new_id username, unused new_id db /\ create new_id drawn username db = Ok (issued, db'))
  \/ (exists username, reset drawn username db = Ok (issued, db')) ->
  Totp.code (dr_secret drawn) (unix / PERIOD) = Some code ->
  exists account db'', authenticate_at (is_username issued) (is_password issued) code unix db'
    = Ok (Some account, db'') /\ acc_username account = is_username issued.
Proof.
  intros Hok Hunix Hmade Hcode.
  assert (Hok' : accounts_ok db').
  { destruct Hmade as [(n & u & Hn & Hc)|(u & Hr)]; [by eapply accounts_ok_create|by eapply accounts_ok_reset]. }
  assert (Hrow : exists i u h v, pe_users (fa_people db') !! i = Some u /\ u_kind u = lit "break_glass"
    /\ u_username u = is_username issued /\ fa_accounts db' !! i = Some {| ac_hash := h; ac_version := v; ac_last_step := 0 |}
    /\ argon2_hash (dr_salt drawn) (utf8 (is_password issued)) = Some h /\ load_factor i v db' = Some (dr_secret drawn)).
  { destruct Hmade as [(n & u & Hn & Hc)|(u & Hr)].
    - apply create_made in Hc as (_ & h & Hh & Hname & _ & Hu & _ & Ha & Hs).
      exists n, (break_glass_user u), h, 1. rewrite Hu, Ha, !lookup_insert_eq. unfold load_factor.
      by rewrite Hs, lookup_insert_eq.
    - apply reset_ok in Hr as (i & v & a & h & Hn & Hh & Hname & Hu & _ & Ha & Hs); [|done].
      apply account_named_iff in Hn as (Hai & Hui & Hk & _); [|done].
      exists i, v, h, (ac_version a + 1). rewrite Hu, Ha, lookup_insert_eq. unfold load_factor.
      by rewrite Hs, lookup_insert_eq. }
  destruct Hrow as (i & u & h & v & Hu & Hk & Hname & Ha & Hh & Hload).
  assert (Hst : code_step (dr_secret drawn) code unix = Ok (Some (unix / PERIOD))).
  { unfold code_step. by rewrite (trim_code _ _ _ Hcode), step_now. }
  assert (Hpos : 0 < unix / PERIOD < 700000000000000000).
  { unfold PERIOD, u64_max in *. split; [apply Z.div_str_pos; lia|apply Z.div_lt_upper_bound; lia]. }
  assert (Hc : exists db'', verify_account_code i code unix db' = Ok (true, db'')).
  { unfold verify_account_code, account_code. rewrite Ha. simpl. rewrite Hload. simpl. rewrite Hst.
    rewrite to_i64_small by (unfold i64_max; lia). unfold affected, use_account_step. rewrite Ha. simpl.
    destruct (Z.ltb_spec 0 (unix / PERIOD)); [eauto|lia]. }
  destruct Hc as (db'' & Hc). exists {| acc_user := i; acc_username := u_username u |}, db''. split; [|done].
  apply break_glass_signs_in_iff; [done|]. exists u. eexists. split_and!; try done; simpl.
  - rewrite Hname, trim_valid; [done|]. rewrite <- Hname. by eapply ao_valid.
  - by eapply argon2_ok.
Qed.

End theorems.

(** ** Examples *)

Module BreakGlassExamples.

#[local] Instance decimal_uuid : UuidText := decimal.
#[local] Instance same_case_sql : SqlLower := fun s => s.
#[local] Existing Instance TotpExamples.plain_base32.
#[local] Existing Instance FactorExamples.backwards.
#[local] Existing Instance FactorExamples.backwards_ok.
(** A hash that tells the password behind its salt. *)
#[local] Instance plain_argon2 : Argon2 := {
  argon2_hash salt password := if bool_decide (36 ∈ salt) then None else Some (salt ++ [36] ++ password);
  argon2_matches password h := match split_once 36 h with Some (_, p) => bool_decide (p = password) | None => false end
}.

#[local] Instance plain_argon2_ok : Argon2Ok.
Proof.
  intros salt password h. simpl. case_bool_decide as Hin; [done|]. intros [= <-].
  rewrite split_once_app by done. by rewrite bool_decide_eq_true_2.
Qed.

Definition empty_db : Factors :=
  {| fa_people := {| pe_users := ∅; pe_sessions := ∅; pe_groups := ∅; pe_members := []; pe_roles := [];
                     pe_purpose := []; pe_rules := []; pe_grants := []; pe_log := [] |};
     fa_secrets := ∅; fa_apps := ∅; fa_keys := []; fa_challenges := ∅; fa_accounts := ∅; fa_codes := ∅;
     fa_own_keys := ∅; fa_log := [] |}.

Definition drawn : Drawn :=
  {| dr_bytes := Z.of_nat <$> seq 0 24; dr_salt := lit "salt"; dr_secret := replicate 20 7 |}.
Definition again : Drawn :=
  {| dr_bytes := Z.of_nat <$> seq 9 24; dr_salt := lit "more"; dr_secret := replicate 20 8 |}.

Definition nothing : Issued := {| is_username := []; is_password := []; is_secret := [] |}.
Definition made : Issued * Factors := default (nothing, empty_db) (ok (create 4 drawn (lit "rescue") empty_db)).
Definition renewed : Issued * Factors := default (nothing, empty_db) (ok (reset again (lit "rescue") made.2)).
Definition code_at (step : Z) : list Z := default [] (Totp.code (dr_secret drawn) step).

Lemma empty_in_order : accounts_ok empty_db.
Proof.
  split; simpl.
  - intros i u. by rewrite lookup_empty.
  - intros i j u v. by rewrite lookup_empty.
  - intros i. rewrite lookup_empty. by intros [? [=]].
  - intros i a. by rewrite lookup_empty.
  - intros i a v. by rewrite lookup_empty.
Qed.

Lemma made_ok : create 4 drawn (lit "rescue") empty_db = Ok (made.1, made.2).
Proof. vm_compute. reflexivity. Qed.

Lemma made_in_order : accounts_ok made.2.
Proof. apply (accounts_ok_create 4 drawn (lit "rescue") empty_db made.1 made.2); [done|exact made_ok|exact empty_in_order]. Qed.

Example signs_in_with_all_three :
  authenticate_at (lit "rescue ") (is_password made.1) (code_at 3) 90 made.2
    = Ok (Some {| acc_user := 4; acc_username := lit "rescue" |},
          default empty_db (snd <$> ok (authenticate_at (lit "rescue") (is_password made.1) (code_at 3) 90 made.2)))
  /\ authenticate_at (lit "rescue") (lit "no") (code_at 3) 90 made.2 = Ok (None, made.2).
Proof. split; vm_compute; reflexivity. Qed.

Lemma break_glass_signs_in_iff_witness :
  exists u a, fa_accounts made.2 !! 4 = Some a
    /\ pe_users (fa_people made.2) !! 4 = Some u
    /\ u_kind u = lit "break_glass" /\ lit "rescue" = u_username u
    /\ argon2_matches (utf8 (is_password made.1)) (ac_hash a) = true.
Proof.
  pose (account := {| acc_user := 4; acc_username := lit "rescue" |}).
  pose (after := default empty_db (snd <$> ok (authenticate_at (lit "rescue") (is_password made.1) (code_at 3) 90 made.2))).
  assert (Hs : authenticate_at (lit "rescue") (is_password made.1) (code_at 3) 90 made.2 = Ok (Some account, after))
    by (vm_compute; reflexivity).
  destruct (proj1 (break_glass_signs_in_iff (lit "rescue") (is_password made.1) (code_at 3) 90 made.2 after account
    made_in_order) Hs) as (u & a & Ha & Hu & Hk & _ & Hn & Hm & _).
  exists u, a. auto.
Defined.

Lemma accounts_stay_in_order_witness : accounts_ok renewed.2.
Proof.
  apply (accounts_stay_in_order empty_db renewed.2); [exact empty_in_order|].
  apply rtc_l with made.2.
  - apply (as_create 4 drawn (lit "rescue") empty_db made.2 made.1); [done|exact made_ok].
  - apply rtc_once, (as_reset again (lit "rescue") made.2 renewed.2 renewed.1). vm_compute. reflexivity.
Defined.

Lemma issued_signs_in_witness :
  exists account db'', authenticate_at (is_username made.1) (is_password made.1) (code_at 3) 90 made.2
    = Ok (Some account, db'') /\ acc_username account = is_username made.1.
Proof.
  apply (issued_signs_in empty_db made.2 made.1 drawn 90 (code_at 3)); [exact empty_in_order|unfold u64_max; lia| |].
  - left. exists 4, (lit "rescue"). split; [done|exact made_ok].
  - vm_compute. reflexivity.
Defined.

(** A sign-in reads the account before its password is checked, and does not
    read it again: when the command line resets the account in between, the
    old password and a code of the old secret still sign in, and the session
    the reset ended comes back. *)
Example reset_does_not_stop_a_sign_in :
  auth_finish (auth_read (lit "rescue") made.2) (is_password made.1) (code_at 3) 90 renewed.2
    = Ok (Some {| acc_user := 4; acc_username := lit "rescue" |},
          on_accounts (alter (fun a => {| ac_hash := ac_hash a; ac_version := ac_version a; ac_last_step := 3 |}) 4)
            renewed.2)
  /\ authenticate_at (lit "rescue") (is_password made.1) (code_at 3) 90 renewed.2 = Ok (None, renewed.2).
Proof. split; vm_compute; reflexivity. Qed.

End BreakGlassExamples.
