(* ===== verification/Limiter.v ===== *)
(** * The limit on failed sign-ins (crates/server/src/auth.rs)

    [SignInLimiter]: failures counted per user name and per address. A time is
    a number of microseconds of the monotonic clock. *)
From S2P Require Import Prelude Text Session.

Record Window := { failures : Z; since : Z }.

#[export] Instance window_eq_dec : EqDecision Window.
Proof. solve_decision. Defined.

Record Limit := { key_kind : list Z; max_failures : Z }.

Definition PER_USER : Limit := {| key_kind := lit "user"; max_failures := 5 |}.
Definition PER_ADDRESS : Limit := {| key_kind := lit "address"; max_failures := 30 |}.

(** [AppState::new] in lib.rs. *)
Definition WINDOW : Z := 5 * minute.

Abbreviation Windows := (gmap (list Z) Window).

Section limiter.
Context `{Lowercase}.

Definition limit_key (limit : Limit) (value : str) : list Z :=
  key_kind limit ++ [58] ++ to_lowercase (trim value).

Definition max_of (l : list Z) : option Z :=
  match l with [] => None | x :: l => Some (foldr Z.max x l) end.

Definition check (window now : Z) (keys : list (Limit * list Z)) (windows : Windows) : result unit Z :=
  let wait := max_of (omap (fun lv =>
    w ← windows !! limit_key lv.1 lv.2;
    let elapsed := now - since w in
    if (elapsed <? window) && (max_failures lv.1 <=? failures w) then Some (window - elapsed) else None) keys) in
  match wait with
  | Some wait => Err (Z.max wait second)
  | None => Ok tt
  end.

(** [failures] is a [u32]. *)
Definition fail_one (window now : Z) (windows : Windows) (lv : Limit * list Z) : Windows :=
  let key := limit_key lv.1 lv.2 in
  let w := default {| failures := 0; since := now |} (windows !! key) in
  let w := if window <=? now - since w then {| failures := 0; since := now |} else w in
  <[key := {| failures := (failures w + 1) mod 2 ^ 32; since := since w |}]> windows.

Definition failed (window now : Z) (keys : list (Limit * list Z)) (windows : Windows) : Windows :=
  let windows := if 10000 <? Z.of_nat (size windows)
                 then filter (fun kw : list Z * Window => now - since kw.2 < window) windows else windows in
  foldl (fail_one window now) windows keys.

Definition succeeded (user : str) (windows : Windows) : Windows := delete (limit_key PER_USER user) windows.

(** *** Guessing

    One try at a time: it is let through, or not, and fails. *)
Inductive Try :=
| Wrong (user address : list Z)
| Right_ (user : list Z).

Definition keys_of (user address : list Z) : list (Limit * list Z) := [(PER_USER, user); (PER_ADDRESS, address)].

Definition try (window now : Z) (t : Try) (windows : Windows) : bool * Windows :=
  match t with
  | Wrong user address =>
      match check window now (keys_of user address) windows with
      | Ok _ => (true, failed window now (keys_of user address) windows)
      | Err _ => (false, windows)
      end
  | Right_ user => (false, succeeded user windows)
  end.

(** The guesses that got through, newest first. *)
Fixpoint guesses (window : Z) (ts : list (Z * Try)) (windows : Windows) : list (Z * (list Z * list Z)) :=
  match ts with
  | [] => []
  | (now, t) :: ts =>
      let '(through, windows') := try window now t windows in
      guesses window ts windows'
      ++ match t with Wrong user address => if through then [(now, (user, address))] else [] | Right_ _ => [] end
  end.

End limiter.

(** ** Theorems *)

Section bounds.
Context `{Lowercase} (window : Z).

Lemma limit_keys_differ u a : limit_key PER_USER u <> limit_key PER_ADDRESS a.
Proof. by intros [=]. Qed.

(** What a failure makes of a key's window. *)
Definition bump (now : Z) (o : option Window) : Window :=
  match o with
  | Some w => if window <=? now - since w then {| failures := 1; since := now |}
              else {| failures := (failures w + 1) mod 2 ^ 32; since := since w |}
  | None => {| failures := 1; since := now |}
  end.

Lemma fail_one_lookup (now : Z) (windows : Windows) lv k :
  0 < window ->
  fail_one window now windows lv !! k
    = if decide (limit_key lv.1 lv.2 = k) then Some (bump now (windows !! k)) else windows !! k.
Proof.
  intros Hw. unfold fail_one, bump. case_decide as Hk.
  - subst k. rewrite lookup_insert_eq. f_equal. destruct (windows !! _) as [w|]; simpl.
    + by destruct (window <=? now - since w).
    + by destruct (window <=? now - now).
  - by rewrite lookup_insert_ne.
Qed.

(** A window that is over counts as none. *)
Lemma failed_lookup (now : Z) (user address : list Z) (windows : Windows) (k : list Z) :
  0 < window ->
  let windows' := failed window now (keys_of user address) windows in
  if decide (limit_key PER_USER user = k \/ limit_key PER_ADDRESS address = k)
  then windows' !! k = Some (bump now (windows !! k))
  else windows' !! k = windows !! k
       \/ windows' !! k = None /\ exists w, windows !! k = Some w /\ window <= now - since w.
Proof.
  intros Hw. unfold failed, keys_of. simpl. rewrite !fail_one_lookup by done. simpl.
  set (kept := if 10000 <? Z.of_nat (size windows) then filter _ windows else windows).
  assert (Hkept : kept !! k = windows !! k
    \/ kept !! k = None /\ exists w, windows !! k = Some w /\ window <= now - since w).
  { subst kept. destruct (_ <? _); [|by left].
    destruct (windows !! k) as [w|] eqn:Hk; [|left; apply map_lookup_filter_None; by left].
    destruct (decide (now - since w < window)).
    - left. by apply map_lookup_filter_Some.
    - right. split; [|exists w; split; [done|lia]]. apply map_lookup_filter_None. right. intros w' Hw'. simplify_eq. simpl. lia. }
  assert (Hb : bump now (kept !! k) = bump now (windows !! k)).
  { destruct Hkept as [->|(-> & w & -> & Hover)]; [done|]. simpl. by rewrite (proj2 (Z.leb_le _ _) Hover). }
  pose proof (limit_keys_differ user address).
  destruct (decide (limit_key PER_ADDRESS address = k)), (decide (limit_key PER_USER user = k));
    [congruence|rewrite decide_True by auto; by rewrite Hb..|].
  rewrite decide_False by tauto. done.
Qed.

(** The guesses at a key fall into groups, one a window: the window's first
    guess and the later ones, newest first. *)
Fixpoint spaced (max : Z) (groups : list (Z * list Z)) : Prop :=
  match groups with
  | [] => True
  | (s, rest) :: gs =>
      Z.of_nat (length rest) < max /\ Forall (fun x => s <= x < s + window) rest
      /\ match gs with [] => True | (s', _) :: _ => s' + window <= s end /\ spaced max gs
  end.

Definition flatten (groups : list (Z * list Z)) : list Z := groups ≫= fun g => g.2 ++ [g.1].

Definition within (t : Z) (l : list Z) : Z := Z.of_nat (length (filter (fun x => t <= x < t + window) l)).

Lemma within_app t l k : within t (l ++ k) = within t l + within t k.
Proof. unfold within. rewrite filter_app, length_app. lia. Qed.

Lemma within_le t l : within t l <= Z.of_nat (length l).
Proof. unfold within. pose proof (length_filter (fun x => t <= x < t + window) l). lia. Qed.

Lemma within_none t l : Forall (fun x => x < t \/ t + window <= x) l -> within t l = 0.
Proof.
  intros Hl. unfold within. induction Hl as [|x l Hx _ IH]; [done|]. rewrite filter_cons, decide_False by lia. done.
Qed.

Lemma spaced_before max gs s rest :
  0 < window -> spaced max ((s, rest) :: gs) -> Forall (fun x => x < s) (flatten gs).
Proof.
  intros Hw. revert s rest. induction gs as [|[s' rest'] gs IH]; intros s rest; [constructor|].
  intros (_ & _ & Hs & Hgs). change (flatten ((s', rest') :: gs)) with ((rest' ++ [s']) ++ flatten gs).
  pose proof Hgs as (_ & Hr & _). rewrite !Forall_app. split_and!.
  - eapply Forall_impl; [exact Hr|]. simpl. lia.
  - constructor; [lia|constructor].
  - eapply Forall_impl; [exact (IH _ _ Hgs)|]. simpl. lia.
Qed.

Lemma spaced_within max groups t :
  0 < window -> 1 <= max -> spaced max groups -> within t (flatten groups) <= 2 * max - 1.
Proof.
  intros Hw Hm. induction groups as [|[s rest] gs IH]; [unfold within; simpl; lia|].
  intros Hsp. pose proof (spaced_before _ _ _ _ Hw Hsp) as Hbefore. destruct Hsp as (Hlen & Hr & Hs & Hgs).
  change (flatten ((s, rest) :: gs)) with ((rest ++ [s]) ++ flatten gs). rewrite within_app.
  pose proof (within_le t (rest ++ [s])) as Hown. rewrite length_app in Hown. simpl length in Hown.
  destruct (decide (s < t)) as [Hst|Hst].
  { rewrite (within_none t (flatten gs)) by (eapply Forall_impl; [exact Hbefore|simpl; lia]). lia. }
  destruct (decide (t + window <= s)) as [Hfar|Hnear].
  { rewrite (within_none t (rest ++ [s])); [specialize (IH Hgs); lia|].
    apply Forall_app. split; [eapply Forall_impl; [exact Hr|simpl; lia]|constructor; [lia|constructor]]. }
  destruct gs as [|[s' rest'] gs]; [unfold within at 2; simpl; lia|].
  pose proof (spaced_before _ _ _ _ Hw Hgs) as Holder. destruct Hgs as (Hlen' & Hr' & _).
  change (flatten ((s', rest') :: gs)) with ((rest' ++ [s']) ++ flatten gs). rewrite !within_app.
  rewrite (within_none t [s']) by (constructor; [lia|constructor]).
  rewrite (within_none t (flatten gs)) by (eapply Forall_impl; [exact Holder|simpl; lia]).
  pose proof (within_le t rest'). rewrite within_app in Hown. lia.
Qed.

(** A key's window is its newest group. *)
Definition grouped (max k_from : Z) (k : list Z) (windows : Windows) (groups : list (Z * list Z)) : Prop :=
  spaced max groups
  /\ match groups with
     | [] => windows !! k = None
     | (s, rest) :: _ =>
         s <= k_from
         /\ (windows !! k = Some {| failures := 1 + Z.of_nat (length rest); since := s |}
             \/ windows !! k = None /\ s + window <= k_from)
     end.

Lemma check_passed (now : Z) (keys : list (Limit * list Z)) (windows : Windows) lv w :
  check window now keys windows = Ok tt -> lv ∈ keys -> windows !! limit_key lv.1 lv.2 = Some w ->
  now - since w < window -> failures w < max_failures lv.1.
Proof.
  intros Hc Hin Hw Hlt. destruct (decide (failures w < max_failures lv.1)) as [|Hn]; [done|]. exfalso.
  unfold check in Hc. destruct (max_of _) as [m|] eqn:Hm; [done|].
  assert (Hel : window - (now - since w) ∈ omap (fun lv => w ← windows !! limit_key lv.1 lv.2;
    let elapsed := now - since w in
    if (elapsed <? window) && (max_failures lv.1 <=? failures w) then Some (window - elapsed) else None) keys).
  { apply list_elem_of_omap. exists lv. split; [done|]. rewrite Hw. simpl.
    rewrite (proj2 (Z.ltb_lt _ _) Hlt), (proj2 (Z.leb_le _ _)) by lia. done. }
  destruct (omap _ keys); [set_solver|done].
Qed.

Definition aims (k : list Z) (g : list Z * list Z) : bool :=
  existsb (fun lv => bool_decide (limit_key lv.1 lv.2 = k)) (keys_of g.1 g.2).

Lemma aims_iff k user address :
  aims k (user, address) = true <-> limit_key PER_USER user = k \/ limit_key PER_ADDRESS address = k.
Proof. unfold aims. simpl. rewrite orb_false_r, orb_true_iff, !bool_decide_eq_true. done. Qed.

(** The times of the guesses at a key. *)
Definition times (k : list Z) (gs : list (Z * (list Z * list Z))) : list Z := (filter (fun g => aims k g.2 = true) gs).*1.

Fixpoint in_time (from : Z) (ts : list (Z * Try)) : Prop :=
  match ts with [] => True | (now, _) :: ts => from <= now /\ in_time now ts end.

(** No sign-in clears the key. *)
Definition not_cleared (k : list Z) (ts : list (Z * Try)) : Prop :=
  Forall (fun t => match t.2 with Right_ user => limit_key PER_USER user <> k | Wrong _ _ => True end) ts.

Lemma grouped_later (max from from' : Z) (k : list Z) (windows : Windows) (groups : list (Z * list Z)) :
  from <= from' -> grouped max from k windows groups -> grouped max from' k windows groups.
Proof.
  intros Hle [Hsp Hg]. split; [done|]. destruct groups as [|[s rest] gs]; [done|].
  destruct Hg as [Hs Hg]. split; [lia|]. destruct Hg as [Hg|[Hg Hover]]; [by left|right; split; [done|lia]].
Qed.

Lemma grouped_try (limit : Limit) (value : list Z) (max now : Z) (windows : Windows) (groups : list (Z * list Z))
    (user address : list Z) :
  0 < window -> limit = PER_USER \/ limit = PER_ADDRESS -> max = max_failures limit ->
  let k := limit_key limit value in
  grouped max now k windows groups -> check window now (keys_of user address) windows = Ok tt ->
  exists groups', grouped max now k (failed window now (keys_of user address) windows) groups'
    /\ flatten groups' = (if aims k (user, address) then [now] else []) ++ flatten groups.
Proof.
  intros Hw Hl -> k [Hsp Hg] Hc. pose proof (failed_lookup now user address windows k Hw) as Hf. simpl in Hf.
  assert (Hmax : 1 <= max_failures limit <= 30) by (destruct Hl as [->| ->]; vm_compute; split; discriminate).
  destruct (aims k (user, address)) eqn:Ha.
  - apply aims_iff in Ha. rewrite decide_True in Hf by done.
    assert (Hpass : forall w, windows !! k = Some w -> now - since w < window -> failures w < max_failures limit).
    { intros w Hwk Hlt. destruct Hl as [-> | ->], Ha as [Ha|Ha];
        try (by subst k; apply limit_keys_differ in Ha); try (by symmetry in Ha; subst k; apply limit_keys_differ in Ha).
      - apply (check_passed now (keys_of user address) windows (PER_USER, user) w Hc); [by left|simpl; by rewrite Ha|done].
      - apply (check_passed now (keys_of user address) windows (PER_ADDRESS, address) w Hc); [by right; left|simpl; by rewrite Ha|done]. }
    assert (Hfresh : match groups with [] => True | (s, _) :: _ => s + window <= now end ->
      bump now (windows !! k) = {| failures := 1; since := now |} ->
      exists groups', grouped (max_failures limit) now k (failed window now (keys_of user address) windows) groups'
        /\ flatten groups' = [now] ++ flatten groups).
    { intros Hlast Hb. exists ((now, []) :: groups). split; [|done]. split.
      - simpl. split_and!; [lia|constructor|done|done].
      - split; [lia|]. left. by rewrite Hf, Hb. }
    destruct groups as [|[s rest] gs]; [apply Hfresh; [done|by rewrite Hg]|].
    destruct Hg as [Hs [Hg|[Hg Hover]]]; [|apply Hfresh; [done|by rewrite Hg]].
    destruct (decide (window <= now - s)) as [Hover|Hin].
    + apply Hfresh; [lia|]. rewrite Hg. simpl. by rewrite (proj2 (Z.leb_le _ _) Hover).
    + specialize (Hpass _ Hg). simpl in Hpass. specialize (Hpass ltac:(lia)).
      exists ((s, now :: rest) :: gs). split; [|done]. destruct Hsp as (Hlen & Hr & Hsp). split.
      * change (length (now :: rest)) with (S (length rest)). simpl. split_and!; [lia| |tauto..].
        constructor; [lia|done].
      * split; [done|]. left. rewrite Hf, Hg. unfold bump. simpl since. rewrite (proj2 (Z.leb_gt _ _)) by lia.
        f_equal. f_equal. simpl length. simpl failures. rewrite Z.mod_small by lia. lia.
  - rewrite decide_False in Hf by (rewrite <- aims_iff, Ha; done).
    exists groups. split; [|done]. split; [done|]. destruct groups as [|[s rest] gs].
    + destruct Hf as [->|[-> _]]; done.
    + destruct Hg as [Hs Hg]. split; [done|].
      destruct Hf as [->|[-> (w & Hwk & Hover)]]; [done|]. right. split; [done|].
      destruct Hg as [Hg|[Hg _]]; [|congruence]. rewrite Hg in Hwk. injection Hwk as <-. simpl in Hover. lia.
Qed.

Lemma grouped_guesses (limit : Limit) (value : list Z) (from : Z) (ts : list (Z * Try)) (windows : Windows)
    (groups : list (Z * list Z)) :
  0 < window -> limit = PER_USER \/ limit = PER_ADDRESS ->
  let k := limit_key limit value in
  in_time from ts -> not_cleared k ts -> grouped (max_failures limit) from k windows groups ->
  exists groups', spaced (max_failures limit) groups'
    /\ flatten groups' = times k (guesses window ts windows) ++ flatten groups.
Proof.
  intros Hw Hl k. revert from windows groups.
  induction ts as [|[now t] ts IH]; intros from windows groups Ht Hn Hg; [exists groups; by destruct Hg|].
  destruct Ht as [Hnow Ht]. apply Forall_cons in Hn as [Hn1 Hn]. apply (grouped_later _ _ _ _ _ _ Hnow) in Hg.
  unfold times. simpl. destruct t as [user address|user]; simpl.
  - destruct (check _ _ _ _) as [[]|] eqn:Hc; simpl.
    + destruct (grouped_try limit value (max_failures limit) now windows groups user address Hw Hl eq_refl Hg Hc)
        as (g' & Hg' & Hflat).
      destruct (IH now _ g' Ht Hn Hg') as (groups' & Hsp & Hall). exists groups'. split; [done|].
      rewrite Hall, Hflat, filter_app, fmap_app, <- app_assoc. f_equal. f_equal.
      rewrite filter_cons, filter_nil. simpl. subst k. destruct (aims _ _); [by rewrite decide_True|by rewrite decide_False].
    + destruct (IH now windows groups Ht Hn Hg) as (groups' & Hsp & Hall). exists groups'.
      split; [done|]. by rewrite app_nil_r.
  - simpl in Hn1. rewrite app_nil_r. apply (IH now _ groups Ht Hn).
    destruct Hg as [Hsp Hg]. split; [done|]. unfold succeeded.
    rewrite lookup_delete_ne by done. done.
Qed.

(** C30: If tries come one after the other, then however they are spread over
    names and addresses, within any time of a window's length at most nine wrong
    passwords of one user name, and at most fifty-nine of one address, are looked
    at, as long as no right password of the name clears the count in between. *)
Theorem guesses_bounded (limit : Limit) (value : list Z) (from t : Z) (ts : list (Z * Try)) :
  0 < window -> limit = PER_USER \/ limit = PER_ADDRESS ->
  in_time from ts -> not_cleared (limit_key limit value) ts ->
  within t (times (limit_key limit value) (guesses window ts ∅)) <= 2 * max_failures limit - 1.
Proof.
  intros Hw Hl Ht Hn.
  destruct (grouped_guesses limit value from ts ∅ [] Hw Hl Ht Hn) as (groups & Hsp & Hall); [done|].
  change (flatten []) with (@nil Z) in Hall. rewrite app_nil_r in Hall. rewrite <- Hall.
  apply spaced_within; [done| |done]. destruct Hl as [->| ->]; vm_compute; discriminate.
Qed.

End bounds.

Module LimiterExamples.

#[local] Instance ascii_lower : Lowercase := fun s => to_ascii_lowercase <$> s.

Definition wrong (at_ : Z) : Z * Try := (at_, Wrong (lit "Alice") (lit "192.0.2.1")).

(** One guess, four more just before its window ends, and as many as pass just
    after. *)
Definition tries : list (Z * Try) :=
  wrong 0 :: replicate 4 (wrong (WINDOW - 1)) ++ replicate 9 (wrong WINDOW).

Lemma tries_in_time : in_time 0 tries.
Proof. repeat (split; [vm_compute; discriminate|]). exact I. Qed.

Lemma guesses_bounded_witness :
  within WINDOW (WINDOW - 1) (times (limit_key PER_USER (lit " ALICE")) (guesses WINDOW tries ∅)) <= 9.
Proof.
  refine (guesses_bounded WINDOW PER_USER (lit " ALICE") 0 (WINDOW - 1) tries _ _ tries_in_time _).
  - reflexivity.
  - by left.
  - unfold tries, not_cleared. rewrite Forall_cons, Forall_app. split; [exact I|].
    split; apply Forall_replicate; exact I.
Defined.

(** The window does not slide: nine guesses get through in a microsecond, where
    a sliding window of five minutes would have let five. *)
Example the_window_does_not_slide :
  within WINDOW (WINDOW - 1) (times (limit_key PER_USER (lit "alice")) (guesses WINDOW tries ∅)) = 9
  /\ (fun g => g.1) <$> guesses WINDOW tries ∅ = replicate 5 WINDOW ++ replicate 4 (WINDOW - 1) ++ [0].
Proof. split; vm_compute; reflexivity. Qed.

(** A guess is counted only when its password has been checked: guesses on
    their way at the same time all pass. *)
Definition parallel (n : nat) : Windows :=
  Nat.iter n (failed WINDOW 1 (keys_of (lit "alice") (lit "192.0.2.1"))) ∅.

Example guesses_at_once_all_pass :
  check WINDOW 0 (keys_of (lit "alice") (lit "192.0.2.1")) ∅ = Ok tt
  /\ failures <$> parallel 100 !! limit_key PER_USER (lit "alice") = Some 100.
Proof. split; vm_compute; reflexivity. Qed.

End LimiterExamples.
