(* ===== verification/Proxy.v ===== *)
(** * The client's address behind reverse proxies (crates/server/src/proxy.rs)

    What [X-Forwarded-For] says counts only as far as the chain of trusted
    proxies reaches. The parser of an address with a port is Rust's
    [SocketAddr]. *)
From S2P Require Import Prelude Text Ip Network.

(** ** [SocketAddr] of the standard library *)

(** [read_number(radix, None, true)]: as many digits as there are. *)
Definition read_port (s : str) : option (Z * list Z) :=
  match read_given_char 58 s with
  | Some rest => read_number 10 (length rest) true 65535 rest
  | None => None
  end.

Definition read_scope_id (s : str) : option (Z * list Z) :=
  match read_given_char 37 s with
  | Some rest => read_number 10 (length rest) true 4294967295 rest
  | None => None
  end.

Definition read_socket_addr_v4 (s : str) : option (IpAddr * list Z) :=
  match read_ipv4_addr s with
  | Some (a, rest) =>
      match read_port rest with
      | Some (_, rest) => Some (IpAddr_V4 a, rest)
      | None => None
      end
  | None => None
  end.

Definition read_socket_addr_v6 (s : str) : option (IpAddr * list Z) :=
  match read_given_char 91 s with
  | None => None
  | Some s =>
      match read_ipv6_addr s with
      | None => None
      | Some (a, s) =>
          let s := match read_scope_id s with Some (_, rest) => rest | None => s end in
          match read_given_char 93 s with
          | None => None
          | Some s =>
              match read_port s with
              | Some (_, rest) => Some (IpAddr_V6 a, rest)
              | None => None
              end
          end
      end
  end.

(** The address of [str::parse::<SocketAddr>]. *)
Definition parse_socket_ip (s : str) : option IpAddr :=
  let read := match read_socket_addr_v4 s with Some r => Some r | None => read_socket_addr_v6 s end in
  match read with
  | Some (ip, []) => Some ip
  | _ => None
  end.

(** ** The client *)

Definition parse (entry : str) : option IpAddr :=
  to_canonical <$> match parse_ip entry with Some ip => Some ip | None => parse_socket_ip entry end.

Definition is_trusted (trusted : list Network) (ip : IpAddr) : bool := existsb (fun n => contains n ip) trusted.

(** The loop over the entries from the right. *)
Fixpoint follow_chain (trusted : list Network) (client : IpAddr) (entries : list (list Z)) : IpAddr :=
  match entries with
  | [] => client
  | entry :: entries =>
      match parse (trim entry) with
      | None => client
      | Some ip => if is_trusted trusted ip then follow_chain trusted ip entries else ip
      end
  end.

(** [forwarded] are the header's values in the order received. *)
Definition client_address (peer : IpAddr) (forwarded : list (list Z)) (trusted : list Network) : IpAddr :=
  let client := to_canonical peer in
  if negb (is_trusted trusted client) then client
  else follow_chain trusted client (reverse forwarded ≫= fun value => reverse (split 44 value)).

(** ** Theorems *)

Lemma follow_chain_or trusted client entries :
  is_trusted trusted client = true ->
  let ip := follow_chain trusted client entries in
  ip = client \/ exists entry, entry ∈ entries /\ parse (trim entry) = Some ip.
Proof.
  revert client. induction entries as [|e es IH]; intros client Hc; simpl; [by left|].
  destruct (parse (trim e)) as [ip|] eqn:He; [|by left].
  destruct (is_trusted trusted ip) eqn:Hip.
  - destruct (IH ip Hip) as [Heq|(e' & Hin & Hp)].
    + rewrite Heq. right. exists e. split; [by left|done].
    + right. exists e'. split; [by right|done].
  - right. exists e. split; [by left|done].
Qed.

Lemma follow_chain_app trusted client before entry after ip :
  is_trusted trusted client = true ->
  Forall (fun e => exists i, parse (trim e) = Some i /\ is_trusted trusted i = true) before ->
  parse (trim entry) = Some ip -> is_trusted trusted ip = false ->
  follow_chain trusted client (before ++ entry :: after) = ip.
Proof.
  intros Hc Hb He Hip. revert client Hc. induction Hb as [|e es (i & Hi & Ht) _ IH]; intros client Hc; simpl.
  - by rewrite He, Hip.
  - rewrite Hi, Ht. by apply IH.
Qed.

(** A client behind trusted proxies is the right-most address that is not
    one of them: whatever it writes into the header itself, left of what the
    proxies add, changes nothing; and who comes from elsewhere is taken for
    who they are, whatever their header says. *)
Theorem client_is_who_the_proxies_saw (peer ip : IpAddr) (own : list Z) (seen : list Z)
    (hops : list (list Z)) (earlier : list (list Z)) (trusted : list Network) :
  44 ∉ seen -> Forall (fun h => 44 ∉ h) hops ->
  is_trusted trusted (to_canonical peer) = true ->
  parse (trim seen) = Some ip -> is_trusted trusted ip = false ->
  Forall (fun h => exists i, parse (trim h) = Some i /\ is_trusted trusted i = true) hops ->
  client_address peer (earlier ++ [join [44] (own :: seen :: hops)]) trusted = ip
  /\ forall other, is_trusted trusted (to_canonical other) = false ->
       client_address other (earlier ++ [join [44] (own :: seen :: hops)]) trusted = to_canonical other.
Proof.
  intros Hseen Hhops Hpeer Hip Hnot Htrust. unfold client_address. split; [|by intros other ->].
  rewrite Hpeer, reverse_snoc. cbn [negb mbind list_bind].
  assert (Hs : exists left, split 44 (join [44] (own :: seen :: hops)) = left ++ seen :: hops).
  { clear -Hseen Hhops. assert (Hj : split 44 (join [44] (seen :: hops)) = seen :: hops).
    { apply split_join; [done|]. by constructor. }
    change (exists left, split 44 (own ++ 44 :: join [44] (seen :: hops)) = left ++ seen :: hops).
    set (j := join [44] (seen :: hops)) in *. clearbody j.
    remember (length own) as n eqn:Hn. revert own Hn. induction n as [n IH] using lt_wf_ind. intros own ->.
    destruct (split_once 44 own) as [[a b]|] eqn:Ho.
    - apply split_once_Some in Ho as [-> Ha]. rewrite <- app_assoc. simpl. rewrite split_app by done.
      destruct (IH (length b)) with b as [l Hl]; [rewrite length_app; simpl; lia|done|].
      rewrite Hl. by exists (a :: l).
    - apply split_once_None in Ho. simpl. rewrite split_app, Hj by done. by exists [own]. }
  destruct Hs as [left Hs]. rewrite Hs, reverse_app, reverse_cons, <- !app_assoc.
  apply follow_chain_app; [done| |done|done]. by apply Forall_reverse.
Qed.

(** A client behind two proxies, which writes an address of its own. *)
Module ProxyExamples.

Definition proxies : list Network :=
  omap (fun t => ok (network_from_str t)) [lit "172.30.0.1"; lit "10.0.0.0/8"].
Definition peer : IpAddr := default (IpAddr_V4 0) (parse_ip (lit "::ffff:172.30.0.1")).
Definition client : IpAddr := default (IpAddr_V4 0) (parse_ip (lit "203.0.113.7")).

Lemma client_is_who_the_proxies_saw_witness :
  client_address peer ([lit "192.0.2.1"] ++ [join [44] [lit "192.0.2.66, x"; lit " 203.0.113.7:4711"; lit "10.0.0.5 "]])
    proxies = client.
Proof.
  refine (proj1 (client_is_who_the_proxies_saw peer client (lit "192.0.2.66, x") (lit " 203.0.113.7:4711")
    [lit "10.0.0.5 "] [lit "192.0.2.1"] proxies _ _ _ _ _ _)).
  - refine (bool_decide_eq_true_1 _ _); vm_compute; reflexivity.
  - constructor; [|constructor]. refine (bool_decide_eq_true_1 _ _); vm_compute; reflexivity.
  - vm_compute. reflexivity.
  - vm_compute. reflexivity.
  - vm_compute. reflexivity.
  - constructor; [|constructor]. exists (default client (parse (lit "10.0.0.5"))). split; vm_compute; reflexivity.
Defined.

Example no_address_ends_the_chain :
  client_address peer [lit "203.0.113.7, unknown"] proxies = to_canonical peer
  /\ client_address peer [lit "[2001:db8::7%4]:80"] proxies = default peer (parse_ip (lit "2001:db8::7"))
  /\ client_address peer [lit "10.0.0.9, 10.0.0.5"] proxies = default peer (parse_ip (lit "10.0.0.9")).
Proof. split_and!; vm_compute; reflexivity. Qed.

End ProxyExamples.
