(* ===== verification/SignIn.v ===== *)
(** * Signing in and out (crates/server/src/api/session.rs, api/accounts.rs, session.rs)

    The three ways to a session: the directory's password with a second
    factor, a break-glass account's password with a code, and a local account
    Kratos has signed in; signing out; what of Kratos' API browsers reach; and
    the sign-in password kept for the user's own connections. The directory
    and Kratos are what they answer. A request runs at one time: [now] on the
    database's clock and the server's, [mono] on the monotonic one. The
    database's rows carry no mail addresses and no times of sign-ins here, and
    its failures are left out. *)
From S2P Require Import Prelude Text Utf8 Totp Model Session AccessRequests Vault Keyring Store.
From S2P Require Import Folders Grants People Webauthn Factors BreakGlass Limiter.

(** ** The directory's and Kratos' answers *)

Record Identity := {
  i_sid : list Z;
  i_guid : Uuid;
  i_username : list Z;
  i_upn : option (list Z);
  i_display_name : list Z;
  i_groups : list (list Z)
}.

Inductive AuthError :=
| AE_InvalidCredentials | AE_AccountDisabled | AE_AccountLocked | AE_AccountExpired
| AE_PasswordExpired | AE_PasswordMustChange | AE_Unavailable | AE_Directory.

Record KratosSession := {
  ks_id : Uuid;
  ks_active : bool;
  ks_level : list Z;
  ks_identity : Uuid;
  ks_state : list Z;
  ks_email : list Z;
  ks_name : list Z
}.

Inductive Whoami := W_None | W_SecondFactorPending | W_Session (s : KratosSession).

(** ** State *)

Inductive SignInProblem :=
| SI_TooManyAttempts (retry_after : Z)
| SI_DirectoryUnavailable | SI_InvalidCredentials | SI_AccountDisabled | SI_AccountLocked
| SI_AccountExpired | SI_PasswordChangeRequired
| SI_SecondFactor (p : StepProblem)
| SI_SecondFactorRequired | SI_SecondFactorSetupRequired | SI_AccountsUnavailable
| SI_Unauthenticated | SI_NotFound | SI_Internal.

Inductive SignInAction :=
| A_SignIn (kind : list Z) (second_factor : bool)
| A_SignInFailed (reason : SignInProblem) (break_glass blocked : bool)
| A_SecondFactorEnrolled
| A_SignOut.

Record SignInLog := { sl_actor : option Uuid; sl_name : list Z; sl_action : SignInAction; sl_address : list Z }.

(** [sw_guids]: the directory's identifiers of users; [sw_secrets]: the sealed
    sign-in passwords of sessions, by their token's hash. *)
Record World := {
  sw_limits : Windows;
  sw_db : Factors;
  sw_guids : gmap Uuid Uuid;
  sw_secrets : gmap (list Z) (list Z);
  sw_log : list SignInLog
}.

Definition on_limits (f : Windows -> Windows) (w : World) : World :=
  {| sw_limits := f (sw_limits w); sw_db := sw_db w; sw_guids := sw_guids w; sw_secrets := sw_secrets w;
     sw_log := sw_log w |}.

Definition on_db (f : Factors -> Factors) (w : World) : World :=
  {| sw_limits := sw_limits w; sw_db := f (sw_db w); sw_guids := sw_guids w; sw_secrets := sw_secrets w;
     sw_log := sw_log w |}.

Definition on_secrets (f : gmap (list Z) (list Z) -> gmap (list Z) (list Z)) (w : World) : World :=
  {| sw_limits := sw_limits w; sw_db := sw_db w; sw_guids := sw_guids w; sw_secrets := f (sw_secrets w);
     sw_log := sw_log w |}.

Definition note (l : SignInLog) (w : World) : World :=
  {| sw_limits := sw_limits w; sw_db := sw_db w; sw_guids := sw_guids w; sw_secrets := sw_secrets w;
     sw_log := sw_log w ++ [l] |}.

(** The settings a sign-in reads. *)
Record Settings := {
  st_max : Z;
  st_idle : Z;
  st_origin : list Z;
  st_own_account : bool
}.

(** What the system and the database draw for a sign-in: a session's token and
    key, the key and the nonce of a kept password, a user's key. *)
Record Draws := {
  dw_token : list Z;
  dw_session : Uuid;
  dw_user : Uuid;
  dw_fresh : Fresh;
  dw_key : list Z;
  dw_nonce : list Z
}.

(** The signed-in user as the page sees them. *)
Record Me := {
  me_username : list Z;
  me_display_name : list Z;
  me_kind : list Z;
  me_admin : bool;
  me_roles : list (list Z);
  me_locked : bool
}.

Definition me_of (s : Session) : Me :=
  {| me_username := username s; me_display_name := display_name s; me_kind := Session.kind s;
     me_admin := is_admin s; me_roles := role_names s; me_locked := locked s |}.

(** The cookies set and the answer's body. *)
Record SignedIn := { si_token : list Z; si_login_key : option (list Z); si_me : Me }.

Record SignInForm := {
  sf_username : list Z;
  sf_password : list Z;
  sf_code : option (list Z);
  sf_totp_secret : option (list Z);
  sf_security_key : option KeyAnswer
}.

Record Clock := { now : Z; mono : Z }.

Definition unix (c : Clock) : Z := now c / second.

Definition problem_for (e : AuthError) : SignInProblem :=
  match e with
  | AE_InvalidCredentials => SI_InvalidCredentials
  | AE_AccountDisabled => SI_AccountDisabled
  | AE_AccountLocked => SI_AccountLocked
  | AE_AccountExpired => SI_AccountExpired
  | AE_PasswordExpired | AE_PasswordMustChange => SI_PasswordChangeRequired
  | AE_Unavailable | AE_Directory => SI_DirectoryUnavailable
  end.

Definition is_away (e : AuthError) : bool := match e with AE_Unavailable | AE_Directory => true | _ => false end.

Definition typed_name (username : str) : list Z := take 128 (trim username).

Section signin.
Context `{UuidText} `{SqlLower} `{Argon2} `{Hmac} `{Base32} `{Base64Url} `{ClientDataJson} `{P256}
  `{Session.Sha256} `{Lowercase} `{Aead}.

(** ** Users and sessions *)

Definition user_of_sid (sid : str) (p : People) : option Uuid :=
  fst <$> head (filter (fun kv : Uuid * UserRow => u_sid kv.2 = Some sid) (map_to_list (pe_users p))).

Definition user_of_identity (i : Uuid) (p : People) : option Uuid :=
  fst <$> head (filter (fun kv : Uuid * UserRow => u_identity_id kv.2 = Some i) (map_to_list (pe_users p))).

(** The row an upsert leaves; a GUID belongs to one user. *)
Definition upsert_directory_user (new_id : Uuid) (i : Identity) (db : Factors) (guids : gmap Uuid Uuid) :
    result (Uuid * Factors * gmap Uuid Uuid) SignInProblem :=
  let user := default new_id (user_of_sid (i_sid i) (fa_people db)) in
  if existsb (fun kv => bool_decide (kv.2 = i_guid i) && negb (bool_decide (kv.1 = user))) (map_to_list guids)
  then Err SI_Internal
  else
    let row := fun old : option UserRow => Some
      {| u_username := i_username i; u_display_name := i_display_name i;
         u_kind := match old with Some u => u_kind u | None => lit "directory" end;
         u_sid := Some (i_sid i); u_upn := i_upn i; u_identity_id := u ← old; u_identity_id u;
         blocked_at := u ← old; blocked_at u |} in
    Ok (user, on_people (on_users (partial_alter row user)) db, <[user := i_guid i]> guids).

Definition upsert_local_user (new_id identity : Uuid) (email name : str) (db : Factors) : Uuid * Factors :=
  let user := default new_id (user_of_identity identity (fa_people db)) in
  let row := fun old : option UserRow => Some
    {| u_username := email; u_display_name := name;
       u_kind := match old with Some u => u_kind u | None => lit "local" end;
       u_sid := u ← old; u_sid u; u_upn := u ← old; u_upn u; u_identity_id := Some identity;
       blocked_at := u ← old; blocked_at u |} in
  (user, on_people (on_users (partial_alter row user)) db).

Definition blocked (user : Uuid) (db : Factors) : bool :=
  is_some_and (fun u => is_some (blocked_at u)) (pe_users (fa_people db) !! user).

(** [session::create] *)
Definition start_session (c : Clock) (st : Settings) (d : Draws) (user : Uuid) (groups : list (list Z))
    (db : Factors) : Factors :=
  on_people (fun p => on_sessions (fun _ => sessions (Session.create (session_db p) (now c)
    (sha256 (dw_token d)) (dw_session d) user groups (st_max st) (lit "web"))) p) db.

(** [session::lookup], as [Me::started] and [sign_out] read a session. *)
Definition lookup (c : Clock) (st : Settings) (token : str) (db : Factors) : option Session * Factors :=
  let '(found, sdb) := Session.find (session_db (fa_people db)) (now c) (sha256 token) (st_idle st) true in
  (found, on_people (on_sessions (fun _ => sessions sdb)) db).

Definition started (c : Clock) (st : Settings) (d : Draws) (key : option (list Z)) (w : World) :
    result SignedIn SignInProblem * World :=
  let '(found, db) := lookup c st (dw_token d) (sw_db w) in
  let w := on_db (fun _ => db) w in
  match found with
  | Some s => (Ok {| si_token := dw_token d; si_login_key := key; si_me := me_of s |}, w)
  | None => (Err SI_Internal, w)
  end.

Definition refuse_blocked (user : Uuid) (name address : str) (w : World) : SignInProblem * World :=
  (SI_AccountDisabled,
   note {| sl_actor := Some user; sl_name := name; sl_action := A_SignInFailed SI_AccountDisabled false true;
           sl_address := address |} w).

(** [keep_sign_in_password]: the sealed password and the key for the cookie. *)
Definition keep_sign_in_password (d : Draws) (password : str) (w : World) : list Z * World :=
  (b64url_encode (dw_key d),
   on_secrets (insert (sha256 (dw_token d))
     (detached_seal (dw_key d) (dw_nonce d) (sha256 (dw_token d)) (utf8 password))) w).

(** [sign_in_password]: what was kept, for a request with its key's cookie. *)
Definition sign_in_password (headers : list (list Z)) (w : World) : option (list Z) :=
  match token headers, cookie headers LOGIN_KEY_COOKIE with
  | Some t, Some key =>
      let key := default [] (b64url_decode key) in
      if negb (bool_decide (length key = 32%nat)) then None
      else sealed ← sw_secrets w !! sha256 t; ok (detached_open key (sha256 t) sealed)
  | _, _ => None
  end.

(** ** Handlers *)

Definition limited (c : Clock) (keys : list (Limit * list Z)) (w : World) : result unit SignInProblem :=
  match check WINDOW (mono c) keys (sw_limits w) with
  | Ok _ => Ok tt
  | Err wait => Err (SI_TooManyAttempts (wait / second))
  end.

Definition count_failure (c : Clock) (keys : list (Limit * list Z)) : World -> World :=
  on_limits (failed WINDOW (mono c) keys).

(** Up to the second factor the sign-in works in a transaction of its own; the
    challenge of a security key is committed at once. *)
Definition sign_in (c : Clock) (st : Settings) (d : Draws)
    (directory : option (list Z -> list Z -> result Identity AuthError)) (address : str) (f : SignInForm)
    (w : World) : result SignedIn SignInProblem * World :=
  let keys := keys_of (sf_username f) address in
  match limited c keys w with
  | Err e => (Err e, w)
  | Ok _ =>
  match directory with
  | None => (Err SI_DirectoryUnavailable, w)
  | Some authenticate =>
  match authenticate (sf_username f) (sf_password f) with
  | Err e =>
      let w := if is_away e then w else count_failure c keys w in
      (Err (problem_for e),
       note {| sl_actor := None; sl_name := typed_name (sf_username f);
               sl_action := A_SignInFailed (problem_for e) false false; sl_address := address |} w)
  | Ok who =>
  match upsert_directory_user (dw_user d) who (sw_db w) (sw_guids w) with
  | Err e => (Err e, w)
  | Ok (user, tx, guids) =>
  if blocked user tx
  then let '(e, w) := refuse_blocked user (i_username who) address w in (Err e, w)
  else
    let sids := i_groups who ++ [i_sid who] in
    let step := {| ss_code := sf_code f; ss_new_secret := sf_totp_secret f; ss_key := sf_security_key f |} in
    match at_sign_in (rp_of (st_origin st)) user sids step (dw_fresh d) (now c) (unix c) (sw_db w) tx with
    | Err _ => (Err SI_Internal, w)
    | Ok (Refused p fails, pool, _) =>
        let w := on_db (fun _ => pool) w in
        let w := if fails then
                   note {| sl_actor := None; sl_name := i_username who;
                           sl_action := A_SignInFailed (SI_SecondFactor p) false false; sl_address := address |}
                     (count_failure c keys w)
                 else w in
        (Err (SI_SecondFactor p), w)
    | Ok (Passed used enrolled, _, tx) =>
        let w := on_limits (succeeded (sf_username f)) w in
        let log a := {| sl_actor := Some user; sl_name := i_username who; sl_action := a; sl_address := address |} in
        let w := if enrolled then note (log A_SecondFactorEnrolled) w else w in
        let w := {| sw_limits := sw_limits w; sw_db := start_session c st d user (i_groups who) tx;
                    sw_guids := guids; sw_secrets := sw_secrets w; sw_log := sw_log w |} in
        let '(key, w) := if st_own_account st
                         then let '(k, w) := keep_sign_in_password d (sf_password f) w in (Some k, w)
                         else (None, w) in
        started c st d key (note (log (A_SignIn (lit "directory") used)) w)
    end
  end
  end
  end
  end.

Definition sign_in_break_glass (c : Clock) (st : Settings) (d : Draws) (address username password code : str)
    (w : World) : result SignedIn SignInProblem * World :=
  let keys := keys_of username address in
  match limited c keys w with
  | Err e => (Err e, w)
  | Ok _ =>
  match authenticate_at username password code (unix c) (sw_db w) with
  | Err _ => (Err SI_Internal, w)
  | Ok (None, db) =>
      (Err SI_InvalidCredentials,
       note {| sl_actor := None; sl_name := typed_name username;
               sl_action := A_SignInFailed SI_InvalidCredentials true false; sl_address := address |}
         (count_failure c keys (on_db (fun _ => db) w)))
  | Ok (Some account, db) =>
      let w := on_limits (succeeded username) (on_db (fun _ => db) w) in
      if blocked (acc_user account) (sw_db w)
      then let '(e, w) := refuse_blocked (acc_user account) (acc_username account) address w in (Err e, w)
      else
        let w := on_db (start_session c st d (acc_user account) []) w in
        started c st d None
          (note {| sl_actor := Some (acc_user account); sl_name := acc_username account;
                   sl_action := A_SignIn (lit "break_glass") true; sl_address := address |} w)
  end
  end.

(** [kratos]: whether an instance has local accounts, and what Kratos says about
    the browser's session. *)
Definition sign_in_local (c : Clock) (st : Settings) (d : Draws)
    (kratos : option (result Whoami KratosError)) (address : str) (w : World) :
    result SignedIn SignInProblem * World :=
  match kratos with
  | None => (Err SI_NotFound, w)
  | Some (Err _) => (Err SI_AccountsUnavailable, w)
  | Some (Ok W_None) => (Err SI_Unauthenticated, w)
  | Some (Ok W_SecondFactorPending) => (Err SI_SecondFactorRequired, w)
  | Some (Ok (W_Session found)) =>
      if negb (ks_active found) || negb (bool_decide (ks_state found = lit "active"))
      then (Err SI_AccountDisabled, w)
      else if negb (bool_decide (ks_level found = lit "aal2"))
      then (Err SI_SecondFactorSetupRequired, w)
      else
        let email := to_lowercase (trim (ks_email found)) in
        let name := if bool_decide (trim (ks_name found) = []) then email else trim (ks_name found) in
        let '(user, tx) := upsert_local_user (dw_user d) (ks_identity found) email name (sw_db w) in
        if blocked user tx
        then let '(e, w) := refuse_blocked user email address w in (Err e, w)
        else
          let w := on_db (fun _ => start_session c st d user [] tx) w in
          started c st d None
            (note {| sl_actor := Some user; sl_name := email; sl_action := A_SignIn (lit "local") true;
                     sl_address := address |} w)
  end.

(** Signing out; a local account's session at Kratos, if it answers, ends too:
    the session to revoke. *)
Definition sign_out (c : Clock) (st : Settings) (kratos : option (result Whoami KratosError))
    (headers : list (list Z)) (address : str) (w : World) : option Uuid * World :=
  match token headers with
  | None => (None, w)
  | Some t =>
      let '(found, db) := lookup c st t (sw_db w) in
      let w := on_db (fun _ => db) w in
      match found with
      | None => (None, w)
      | Some ended =>
          let revoked := match kratos with
                         | Some (Ok (W_Session s)) =>
                             if bool_decide (Session.kind ended = lit "local") then Some (ks_id s) else None
                         | _ => None
                         end in
          (revoked,
           note {| sl_actor := Some (user_id ended); sl_name := username ended; sl_action := A_SignOut;
                   sl_address := address |}
             (on_secrets (base.delete (sha256 t)) (on_db (on_people (on_sessions (base.delete (sha256 t)))) w)))
      end
  end.

(** *** Kratos' API for browsers *)

Definition PUBLIC_PATHS : list (list Z) := [lit "self-service/"; lit "sessions/whoami"].
Definition CLOSED_PATHS : list (list Z) := [lit "self-service/registration"].

Definition path_allowed (path : str) : bool :=
  let segments := filter (fun s : list Z => s <> []) (split 47 path) in
  let closed := existsb (fun closed => bool_decide (split 47 closed `prefix_of` segments)) CLOSED_PATHS in
  existsb (fun allowed => starts_with allowed path) PUBLIC_PATHS && negb closed.

(** [kratos]: the status Kratos answers a path with. *)
Definition forward (c : Clock) (kratos : option (list Z -> result Z KratosError)) (address : str) (post : bool)
    (path query : str) (w : World) : result Z SignInProblem * World :=
  match kratos with
  | None => (Err SI_NotFound, w)
  | Some kratos =>
      if negb (path_allowed path) then (Err SI_NotFound, w)
      else
        let signing_in := post && starts_with (lit "self-service/login") path in
        let keys := [(PER_ADDRESS, address)] in
        match (if signing_in then limited c keys w else Ok tt) with
        | Err e => (Err e, w)
        | Ok _ =>
            match kratos (lit "/" ++ path ++ query) with
            | Err _ => (Err SI_AccountsUnavailable, w)
            | Ok status =>
                (Ok status, if signing_in && (status =? 400) then count_failure c keys w else w)
            end
        end
  end.

End signin.

(** ** Theorems *)

Section theorems.
Context `{UuidText} `{SqlLower} `{Argon2} `{Hmac} `{Base32} `{Base64Url} `{ClientDataJson} `{P256}
  `{Session.Sha256} `{Lowercase} `{Aead}.

(** *** Factors and people

    The second factors touch neither the people nor their sessions. *)

Ltac through :=
  repeat (match goal with
          | E : context [match ?x with _ => _ end] |- _ => destruct x eqn:?
          | |- context [match ?x with _ => _ end] => destruct x eqn:?
          end; simplify_eq; simpl in *; try done).

Lemma verify_code_people user code u db b db' :
  verify_code user code u db = Ok (b, db') -> fa_people db' = fa_people db.
Proof.
  unfold verify_code, affected, use_app_step. intros Hv. through.
Qed.

Lemma verify_key_people rp user answer usage t db b db' :
  verify_key rp user answer usage t db = (b, db') -> fa_people db' = fa_people db.
Proof.
  unfold verify_key, take_challenge. intros Hv.
  through.
Qed.

Lemma enroll_people user secret code u db b db' :
  enroll user secret code u db = Ok (b, db') -> fa_people db' = fa_people db.
Proof.
  unfold enroll, store_factor. intros Hv.
  through.
Qed.

Lemma at_sign_in_people rp user sids step fresh t u pool tx o pool' tx' :
  at_sign_in rp user sids step fresh t u pool tx = Ok (o, pool', tx') ->
  fa_people pool' = fa_people pool /\ fa_people tx' = fa_people tx.
Proof.
  unfold at_sign_in, right_or_wrong. intros Ha.
  repeat (split_match_in Ha; simplify_eq; simpl in *; try done).
  all: split; [done|]; destruct_and?;
    match goal with
    | E : verify_code _ _ _ _ = Ok ?r |- _ => destruct r; by eapply verify_code_people
    | E : enroll _ _ _ _ _ = Ok ?r |- _ => destruct r; by eapply enroll_people
    | |- fa_people (verify_key ?a ?b ?c ?d ?e ?f).2 = _ =>
        destruct (verify_key a b c d e f) eqn:E; by eapply verify_key_people
    end.
Qed.

Lemma authenticate_people name password code u db r db' :
  authenticate_at name password code u db = Ok (r, db') -> fa_people db' = fa_people db.
Proof.
  unfold authenticate_at, auth_finish, account_code, affected, use_account_step. intros Ha.
  through.
Qed.

(** *** Sessions *)

Abbreviation rows w := (pe_sessions (fa_people (sw_db w))).
Abbreviation people w := (pe_users (fa_people (sw_db w))).

(** Reading a session right after it began changes nothing: it is not yet a
    minute old. *)
Lemma lookup_new c st d user groups db :
  lookup c st (dw_token d) (start_session c st d user groups db)
    = ((lookup c st (dw_token d) (start_session c st d user groups db)).1, start_session c st d user groups db).
Proof.
  unfold lookup, Session.find. destruct (by_hash _ _ _ _) as [s|]; simpl; [|done].
  destruct (locked s); simpl; [done|]. unfold on_people, start_session, touch. simpl. do 2 f_equal.
  unfold on_people, on_sessions. simpl. do 2 f_equal.
  apply map_eq. intros h. rewrite lookup_alter. case_decide as Hh; [|done]. subst h.
  rewrite lookup_insert_eq. simpl. by rewrite (proj2 (Z.ltb_ge _ _)) by (unfold minute, second; lia).
Qed.

(** Who a request's session belongs to, and what was shown for it: everything
    a way to sign in asks for. *)
Inductive Request :=
| R_sign_in (d : Draws) (directory : option (list Z -> list Z -> result Identity AuthError)) (address : list Z)
    (f : SignInForm)
| R_break_glass (d : Draws) (address username password code : list Z)
| R_local (d : Draws) (kratos : option (result Whoami KratosError)) (address : list Z)
| R_sign_out (kratos : option (result Whoami KratosError)) (headers : list (list Z)) (address : list Z)
| R_forward (kratos : option (list Z -> result Z KratosError)) (address : list Z) (post : bool) (path query : list Z).

Definition serve (c : Clock) (st : Settings) (r : Request) (w : World) : result unit SignInProblem * World :=
  let to_unit {A} (o : result A SignInProblem) : result unit SignInProblem :=
    match o with Ok _ => Ok tt | Err e => Err e end in
  match r with
  | R_sign_in d directory address f => let '(o, w) := sign_in c st d directory address f w in (to_unit o, w)
  | R_break_glass d address name password code =>
      let '(o, w) := sign_in_break_glass c st d address name password code w in (to_unit o, w)
  | R_local d kratos address => let '(o, w) := sign_in_local c st d kratos address w in (to_unit o, w)
  | R_sign_out kratos headers address => (Ok tt, (sign_out c st kratos headers address w).2)
  | R_forward kratos address post path query =>
      let '(o, w) := forward c kratos address post path query w in (to_unit o, w)
  end.

Definition proved (c : Clock) (st : Settings) (r : Request) (w : World) (user : Uuid) (groups : list (list Z))
    (hash : list Z) : Prop :=
  match r with
  | R_sign_in d directory address f =>
      hash = sha256 (dw_token d) /\
      exists authenticate who tx guids used set_up pool tx',
        limited c (keys_of (sf_username f) address) w = Ok tt
        /\ directory = Some authenticate /\ authenticate (sf_username f) (sf_password f) = Ok who
        /\ groups = i_groups who
        /\ upsert_directory_user (dw_user d) who (sw_db w) (sw_guids w) = Ok (user, tx, guids)
        /\ blocked user (sw_db w) = false
        /\ at_sign_in (rp_of (st_origin st)) user (i_groups who ++ [i_sid who])
             {| ss_code := sf_code f; ss_new_secret := sf_totp_secret f; ss_key := sf_security_key f |}
             (dw_fresh d) (now c) (unix c) (sw_db w) tx = Ok (Passed used set_up, pool, tx')
  | R_break_glass d address name password code =>
      hash = sha256 (dw_token d) /\ groups = [] /\
      exists account db, limited c (keys_of name address) w = Ok tt
        /\ authenticate_at name password code (unix c) (sw_db w) = Ok (Some account, db)
        /\ user = acc_user account /\ blocked user (sw_db w) = false
  | R_local d kratos _ =>
      hash = sha256 (dw_token d) /\ groups = [] /\
      exists found, kratos = Some (Ok (W_Session found))
        /\ ks_active found = true /\ ks_state found = lit "active" /\ ks_level found = lit "aal2"
        /\ user = default (dw_user d) (user_of_identity (ks_identity found) (fa_people (sw_db w)))
        /\ blocked user (sw_db w) = false
  | R_sign_out _ _ _ | R_forward _ _ _ _ _ => False
  end.

(** How a request may change the sessions: not at all, one ends, or a new one
    begins with what was proved. *)
Definition begins (c : Clock) (st : Settings) (r : Request) (w : World) (old new : gmap (list Z) SessionRow) : Prop :=
  forall h row, new !! h = Some row ->
    old !! h = Some row
    \/ (proved c st r w (s_user_id row) (s_groups row) h /\ s_client row = lit "web"
        /\ last_seen_at row = now c /\ expires_at row = now c + st_max st /\ confirmed_at row = None).

Lemma begins_same c st r w old new : new = old -> begins c st r w old new.
Proof. intros -> h row Hh. by left. Qed.

Lemma begins_started c st r w d user groups db key w' :
  (forall hash, hash = sha256 (dw_token d) -> proved c st r w user groups hash) ->
  sw_db w' = start_session c st d user groups db ->
  pe_sessions (fa_people db) = rows w ->
  begins c st r w (rows w) (rows (started c st d key w').2).
Proof.
  intros Hp Hdb Hold h row. unfold started. rewrite Hdb, lookup_new. simpl.
  assert (Hl : pe_sessions (fa_people (start_session c st d user groups db)) !! h = Some row ->
    rows w !! h = Some row \/ (proved c st r w (s_user_id row) (s_groups row) h /\ s_client row = lit "web"
      /\ last_seen_at row = now c /\ expires_at row = now c + st_max st /\ confirmed_at row = None)).
  { unfold start_session. simpl. rewrite lookup_insert_Some, Hold. intros [[<- <-]|[_ Hh]]; [right|by left].
    simpl. split; [by apply Hp|done]. }
  destruct (lookup _ _ _ _).1; exact Hl.
Qed.

Lemma upsert_sessions new_id who db guids user db' guids' :
  upsert_directory_user new_id who db guids = Ok (user, db', guids') ->
  pe_sessions (fa_people db') = pe_sessions (fa_people db) /\ blocked user db' = blocked user db.
Proof.
  unfold upsert_directory_user. destruct (existsb _ _); [done|]. intros [= <- <- _]. split; [done|].
  unfold blocked. simpl. rewrite lookup_partial_alter_eq. simpl. by destruct (_ !! _).
Qed.

Lemma count_failure_db c keys w : sw_db (count_failure c keys w) = sw_db w.
Proof. done. Qed.

Lemma limited_Ok c keys w u : limited c keys w = Ok u -> limited c keys w = Ok tt.
Proof. by destruct u. Qed.

Lemma begins_sign_in c st d directory address f w :
  begins c st (R_sign_in d directory address f) w (rows w) (rows (sign_in c st d directory address f w).2).
Proof.
  unfold sign_in. destruct (limited _ _ _) as [[]|] eqn:Hl; [|by apply begins_same].
  destruct directory as [authenticate|]; [|by apply begins_same].
  destruct (authenticate _ _) as [who|e] eqn:Ha; [|apply begins_same; simpl; by destruct (is_away e)].
  destruct (upsert_directory_user _ _ _ _) as [[[user tx] guids]|] eqn:Hu; [|by apply begins_same].
  pose proof (upsert_sessions _ _ _ _ _ _ _ Hu) as [Hs Hb].
  destruct (blocked user tx) eqn:Hbl; [by apply begins_same|].
  destruct (at_sign_in _ _ _ _ _ _ _ _ _) as [[[[used set_up|p fails] pool] tx']|] eqn:Hf; [| |by apply begins_same].
  - pose proof (at_sign_in_people _ _ _ _ _ _ _ _ _ _ _ _ Hf) as [_ Hp].
    assert (Hproved : forall hash, hash = sha256 (dw_token d) ->
      proved c st (R_sign_in d (Some authenticate) address f) w user (i_groups who) hash).
    { intros hash ->. split; [done|]. exists authenticate, who, tx, guids, used, set_up, pool, tx'.
      by rewrite <- Hb. }
    destruct (st_own_account st); eapply begins_started; try exact Hproved; try done; by rewrite Hp, Hs.
  - pose proof (at_sign_in_people _ _ _ _ _ _ _ _ _ _ _ _ Hf) as [Hp _].
    apply begins_same. destruct fails; simpl; by rewrite Hp.
Qed.

Lemma begins_break_glass c st d address name password code w :
  begins c st (R_break_glass d address name password code) w (rows w)
    (rows (sign_in_break_glass c st d address name password code w).2).
Proof.
  unfold sign_in_break_glass. destruct (limited _ _ _) as [[]|] eqn:Hl; [|by apply begins_same].
  destruct (authenticate_at _ _ _ _ _) as [[[account|] db]|] eqn:Ha; [| |by apply begins_same];
    pose proof (authenticate_people _ _ _ _ _ _ _ Ha) as Hp; [|apply begins_same; simpl; by rewrite Hp].
  simpl. destruct (blocked _ _) eqn:Hb; [apply begins_same; simpl; by rewrite Hp|].
  eapply begins_started; [|done|simpl; by rewrite Hp]. intros hash ->. split; [done|]. split; [done|].
  exists account, db. split_and!; try done. unfold blocked in Hb |- *. by rewrite <- Hp.
Qed.

Lemma begins_local c st d kratos address w :
  begins c st (R_local d kratos address) w (rows w) (rows (sign_in_local c st d kratos address w).2).
Proof.
  unfold sign_in_local. destruct kratos as [[[| |found]|]|]; try by apply begins_same.
  destruct (_ || _) eqn:Hactive; [by apply begins_same|]. bools.
  destruct (negb _) eqn:Hlevel; [by apply begins_same|]. bools.
  destruct (upsert_local_user _ _ _ _ _) as [user tx] eqn:Hu. injection Hu as <- <-.
  destruct (blocked _ _) eqn:Hb; [by apply begins_same|].
  eapply begins_started; [|done|done]. intros hash ->. split; [done|]. split; [done|].
  exists found. split_and!; try done. unfold blocked in Hb |- *. simpl in Hb.
  rewrite lookup_partial_alter_eq in Hb. simpl in Hb. by destruct (_ !! _).
Qed.

Lemma begins_sign_out c st kratos headers address w :
  begins c st (R_sign_out kratos headers address) w (rows w) (rows (sign_out c st kratos headers address w).2).
Proof.
  unfold sign_out. destruct (token headers) as [t|]; [|by apply begins_same].
  unfold lookup, Session.find. destruct (by_hash _ _ _ _) as [s|]; simpl; [|by apply begins_same].
  intros h row. rewrite lookup_delete_Some. intros [Hne Hh]. left.
  destruct (negb (locked s)); simpl in Hh; [by rewrite lookup_alter_ne in Hh|done].
Qed.

(** C6: A session begins only with everything its way to sign in asks for: the
    directory's word for the password and the second factor's step; a
    break-glass account's password and code; or Kratos' session of an active
    account after its second factor. It belongs to the user who proved it,
    who is not blocked, and no one signs in past the limit. No request changes
    or prolongs another session. *)
Theorem session_needs_proof (c : Clock) (st : Settings) (r : Request) (w : World) (h : list Z) (row : SessionRow) :
  rows (serve c st r w).2 !! h = Some row ->
  rows w !! h = Some row
  \/ (proved c st r w (s_user_id row) (s_groups row) h /\ s_client row = lit "web"
      /\ last_seen_at row = now c /\ expires_at row = now c + st_max st /\ confirmed_at row = None).
Proof.
  destruct r as [d directory address f|d address name password code|d kratos address|kratos headers address
    |kratos address post path query]; simpl.
  - pose proof (begins_sign_in c st d directory address f w) as Hb.
    destruct (sign_in c st d directory address f w) as [o w']. apply Hb.
  - pose proof (begins_break_glass c st d address name password code w) as Hb.
    destruct (sign_in_break_glass c st d address name password code w) as [o w']. apply Hb.
  - pose proof (begins_local c st d kratos address w) as Hb.
    destruct (sign_in_local c st d kratos address w) as [o w']. apply Hb.
  - apply begins_sign_out.
  - unfold forward, count_failure. through. all: intros Hh; by left.
Qed.

(** C37: A refused sign-in leaves the users, their sessions and what was kept of
    passwords as they were; all that may change is the count of failures, the
    challenge of a security key, the step of a break-glass account's code and
    the log. *)
Theorem refused_sign_in_changes_no_one (c : Clock) (st : Settings) (r : Request) (w w' : World) (e : SignInProblem) :
  serve c st r w = (Err e, w') -> e <> SI_Internal ->
  fa_people (sw_db w') = fa_people (sw_db w) /\ sw_guids w' = sw_guids w /\ sw_secrets w' = sw_secrets w.
Proof.
  destruct r as [d directory address f|d address name password code|d kratos address|kratos headers address
    |kratos address post path query]; simpl.
  - unfold sign_in, started. intros Hs Hi.
    destruct (limited _ _ _) as [[]|]; [|by simplify_eq/=]. destruct directory as [authenticate|]; [|by simplify_eq/=].
    destruct (authenticate _ _) as [who|e']; [|destruct (is_away e'); by simplify_eq/=].
    destruct (upsert_directory_user _ _ _ _) as [[[user tx] guids]|]; [|by simplify_eq/=].
    destruct (blocked user tx); [by simplify_eq/=|].
    destruct (at_sign_in _ _ _ _ _ _ _ _ _) as [[[[used set_up|p fails] pool] tx']|] eqn:Hf; [| |by simplify_eq/=].
    + through.
    + pose proof (at_sign_in_people _ _ _ _ _ _ _ _ _ _ _ _ Hf) as [Hp _]. destruct fails; by simplify_eq/=.
  - unfold sign_in_break_glass, started. intros Hs Hi. destruct (limited _ _ _) as [[]|]; [|by simplify_eq/=].
    destruct (authenticate_at _ _ _ _ _) as [[[account|] db]|] eqn:Ha; [| |by simplify_eq/=];
      pose proof (authenticate_people _ _ _ _ _ _ _ Ha) as Hp; [|by simplify_eq/=].
    simpl in Hs. destruct (blocked _ _); [by simplify_eq/=|]. through.
  - unfold sign_in_local, started. intros Hs Hi. through.
  - done.
  - unfold forward, count_failure. intros Hs Hi. through.
Qed.

(** The sign-in password kept for a session comes back for a request with
    that session's token and its key, and only in its own session's row: moved
    to another session's, the same key does not open it. *)
Theorem kept_password_reads_back `{!AeadOk} (d : Draws) (password key : list Z) (headers : list (list Z)) (w w' : World) :
  length (dw_key d) = 32%nat -> length (dw_nonce d) = NONCE_LEN ->
  b64url_decode (b64url_encode (dw_key d)) = Some (dw_key d) ->
  keep_sign_in_password d password w = (key, w') ->
  cookie headers LOGIN_KEY_COOKIE = Some key ->
  (token headers = Some (dw_token d) -> sign_in_password headers w' = Some (utf8 password))
  /\ forall t w2, token headers = Some t -> sha256 t <> sha256 (dw_token d) ->
       sw_secrets w2 !! sha256 t = sw_secrets w' !! sha256 (dw_token d) -> sign_in_password headers w2 = None.
Proof.
  intros Hk Hn Hb [= <- <-] Hc. unfold sign_in_password, detached_open, detached_seal. rewrite Hc, Hb. simpl.
  rewrite (bool_decide_eq_true_2 _ Hk). simpl. split.
  - intros ->. rewrite lookup_insert_eq. simpl. by rewrite decrypt_encrypt_same.
  - intros t w2 -> Hne Hs. rewrite Hs. simpl. rewrite lookup_insert_eq. simpl.
    rewrite decrypt_other_aad; [done|done|]. unfold detached_aad. intros Heq. by apply app_inv_head in Heq.
Qed.

End theorems.

(** ** Examples *)

Module SignInExamples.

#[local] Existing Instance WebauthnExamples.plain_base64.
#[local] Existing Instance WebauthnExamples.plain_sha.
#[local] Existing Instance WebauthnExamples.plain_client_data.
#[local] Existing Instance WebauthnExamples.plain_keys.
#[local] Existing Instance TotpExamples.plain_base32.
#[local] Existing Instance FactorExamples.backwards.
#[local] Existing Instance BreakGlassExamples.decimal_uuid.
#[local] Existing Instance BreakGlassExamples.same_case_sql.
#[local] Existing Instance BreakGlassExamples.plain_argon2.
#[local] Existing Instance LimiterExamples.ascii_lower.
#[local] Existing Instance VaultExamples.plain_aead.
#[local] Existing Instance VaultExamples.plain_aead_ok.

Definition w0 : World :=
  {| sw_limits := ∅; sw_db := BreakGlassExamples.made.2; sw_guids := ∅; sw_secrets := ∅; sw_log := [] |}.
Definition st : Settings :=
  {| st_max := 480 * minute; st_idle := 10 * minute; st_origin := lit "https://r.example"; st_own_account := true |}.
Definition c : Clock := {| now := 90 * second; mono := 0 |}.
Definition d : Draws :=
  {| dw_token := lit "token"; dw_session := 20; dw_user := 21;
     dw_fresh := {| fr_id := 6; fr_bytes := []; fr_secret := replicate 20 5 |};
     dw_key := replicate 32 65; dw_nonce := replicate 24 0 |}.
Definition address : list Z := lit "192.0.2.1".

(** A directory that knows one person. *)
Definition carol : Identity :=
  {| i_sid := lit "S-1-5-9"; i_guid := 77; i_username := lit "carol"; i_upn := None;
     i_display_name := lit "Carol"; i_groups := [lit "S-1-5-32"] |}.
Definition directory : option (list Z -> list Z -> result Identity AuthError) :=
  Some (fun name password => if bool_decide (name = lit "carol") && bool_decide (password = lit "secret")
                             then Ok carol else Err AE_InvalidCredentials).
Definition form (password : list Z) : SignInForm :=
  {| sf_username := lit "carol"; sf_password := password; sf_code := None; sf_totp_secret := None;
     sf_security_key := None |}.
Definition good : Request := R_sign_in d directory address (form (lit "secret")).
Definition bad : Request := R_sign_in d directory address (form (lit "guess")).

Definition carol_row : SessionRow :=
  default {| s_id := 0; s_user_id := 0; s_groups := []; s_client := []; last_seen_at := 0; expires_at := 0;
             confirmed_at := None; confirm_failures := 0 |}
    (pe_sessions (fa_people (sw_db (serve c st good w0).2)) !! sha256 (lit "token")).

Lemma session_needs_proof_witness :
  pe_sessions (fa_people (sw_db w0)) !! sha256 (lit "token") = Some carol_row
  \/ (proved c st good w0 (s_user_id carol_row) (s_groups carol_row) (sha256 (lit "token"))
      /\ s_client carol_row = lit "web" /\ last_seen_at carol_row = now c
      /\ expires_at carol_row = now c + st_max st /\ confirmed_at carol_row = None).
Proof. apply (session_needs_proof c st good w0). vm_compute. reflexivity. Defined.

Lemma refused_sign_in_changes_no_one_witness :
  fa_people (sw_db (serve c st bad w0).2) = fa_people (sw_db w0).
Proof.
  destruct (refused_sign_in_changes_no_one c st bad w0 (serve c st bad w0).2 SI_InvalidCredentials) as [Hp _];
    [vm_compute; reflexivity|discriminate|exact Hp].
Defined.

Definition kept : list Z * World := keep_sign_in_password d (lit "secret") w0.
Definition headers : list (list Z) :=
  [lit "theme=dark; __Host-remotehub-session=token; __Host-remotehub-login-key=AAAAAAAAAAAAAAAAAAAAAAAAAAAAAAAA"].

Lemma kept_password_reads_back_witness : sign_in_password headers kept.2 = Some (utf8 (lit "secret")).
Proof.
  apply (kept_password_reads_back d (lit "secret") kept.1 headers w0 kept.2);
    [reflexivity|reflexivity|reflexivity|reflexivity|vm_compute; reflexivity|vm_compute; reflexivity].
Defined.

(** Five wrong passwords, and the right one is not looked at any more. *)
Example limited_after_five :
  (serve c st good (Nat.iter 5 (fun w => (serve c st bad w).2) w0)).1 = Err (SI_TooManyAttempts 300)
  /\ (serve c st good (Nat.iter 4 (fun w => (serve c st bad w).2) w0)).1 = Ok tt.
Proof. split; vm_compute; reflexivity. Qed.

(** Registration is closed to browsers, but compared before a percent-encoding
    is undone that Kratos' router undoes: "%72" is an "r". *)
Example registration_reached_by_another_spelling :
  (forward c (Some (fun _ => Ok 200)) address false (lit "self-service//registration/browser") [] w0).1 = Err SI_NotFound
  /\ (forward c (Some (fun path => if bool_decide (path = lit "/self-service/%72egistration/browser")
                                   then Ok 200 else Ok 404))
        address false (lit "self-service/%72egistration/browser") [] w0).1 = Ok 200.
Proof. split; vm_compute; reflexivity. Qed.

End SignInExamples.
