(* ===== verification/Escrow.v ===== *)
(** * Master keys kept for the recovery key (crates/vault/src/escrow.rs, crates/server/src/escrow.rs)

    Every master key, sealed for the organisation's recovery key and kept in
    the database, and the key file made of them with the private key. P-256 and
    HKDF are parameters. *)
From S2P Require Import Prelude Text Utf8 Inventory Totp Vault Keyring.

(** The crates [p256] and [hkdf]: private and public keys with their bytes, the
    secret two of them agree on, and a sealing key made of it. *)
Class Ecdh := {
  SecretKey : Type;
  PublicKey : Type;
  secret_from_slice : list Z -> option SecretKey;
  public_from_sec1_bytes : list Z -> option PublicKey;
  uncompressed : PublicKey -> list Z;
  public_key : SecretKey -> PublicKey;
  diffie_hellman : SecretKey -> PublicKey -> list Z;
  hkdf : list Z -> list Z -> list Z
}.

Class EcdhOk `{Ecdh} : Prop := {
  uncompressed_length p : length (uncompressed p) = 65%nat;
  uncompressed_reads p : public_from_sec1_bytes (uncompressed p) = Some p;
  both_agree s t : diffie_hellman s (public_key t) = diffie_hellman t (public_key s)
}.

Definition POINT_LEN : nat := 65.
Definition SCALAR_LEN : nat := 32.

Record Escrowed := { ephemeral : list Z; es_sealed : list Z }.

(** A row of [recovery_keys]. *)
Record RecoveryKeyRow := { rk_id : Uuid; rk_public : list Z; rk_created_by : list Z; rk_created_at : Z }.

(** [master_key_escrow], by recovery key, master key and version. *)
Record EscrowDb := {
  eb_keys : list RecoveryKeyRow;
  eb_escrow : gmap (Uuid * list Z * Z) Escrowed
}.

Inductive RecoverError :=
| RE_NotAPrivateKey | RE_NoKey | RE_NoMasterKey (key : Uuid) | RE_NotAFile (kek_id : list Z)
| RE_Open (version : Z).

Section escrow.
Context `{Ecdh, Aead, Base64, Base32}.

(** ** Sealing (vault/src/escrow.rs) *)

Definition escrow_aad (kek_id : str) (version : Z) : list Z :=
  utf8 (lit "remotehub|escrow|" ++ kek_id ++ lit "|" ++ decimal_signed version).

Definition sealing_key (private : SecretKey) (public : PublicKey) : list Z :=
  hkdf (diffie_hellman private public) (lit "remotehub master key escrow").

Definition point (b : bytes) : result PublicKey VaultError :=
  if negb (bool_decide (length b = POINT_LEN)) then Err InvalidPublicKey
  else ok_or (public_from_sec1_bytes b) InvalidPublicKey.

Definition is_public_key (b : bytes) : bool := is_ok (point b).

Definition public_key_of (private : bytes) : result (list Z) VaultError :=
  let? secret := ok_or (secret_from_slice private) VaultError_Open in
  Ok (uncompressed (public_key secret)).

(** What a seal draws: candidates for a private key, of which the first that is
    one counts, and a nonce. *)
Record SealDraw := { sd_candidates : list (list Z); sd_nonce : list Z }.

(** [None]: the loop still draws. *)
Definition drawn_key (d : SealDraw) : option SecretKey := head (omap secret_from_slice (sd_candidates d)).

Definition seal_for (d : SealDraw) (public : bytes) (kek_id : str) (version : Z) (master : Key) :
    option (result Escrowed VaultError) :=
  match point public with
  | Err e => Some (Err e)
  | Ok recipient =>
      own ← drawn_key d;
      Some (Ok {| ephemeral := uncompressed (public_key own);
                  es_sealed := encrypt (sealing_key own recipient) (sd_nonce d) (escrow_aad kek_id version) master |})
  end.

Definition open_with (private : bytes) (e : Escrowed) (kek_id : str) (version : Z) : result (list Z) VaultError :=
  let? secret := ok_or (secret_from_slice private) VaultError_Open in
  let? other := point (ephemeral e) in
  let? plain := decrypt (sealing_key secret other) (escrow_aad kek_id version) (es_sealed e) in
  if bool_decide (length plain = KEY_LEN) then Ok plain else Err VaultError_Open.

Definition parse_printed (text : str) : option (list Z) :=
  let clean := to_ascii_uppercase <$> filter (fun c => is_whitespace c = false /\ c <> 45) text in
  b ← b32_decode (utf8 clean); if bool_decide (length b = SCALAR_LEN) then Some b else None.

(** ** Keeping and recovering (server/src/escrow.rs) *)

(** [ORDER BY created_at DESC, id LIMIT 1] *)
Definition newer (a b : RecoveryKeyRow) : bool :=
  (rk_created_at b <? rk_created_at a) || ((rk_created_at a =? rk_created_at b) && (rk_id a <=? rk_id b)).

Definition newest_key (l : list RecoveryKeyRow) : option RecoveryKeyRow :=
  foldr (fun k acc => Some (match acc with Some b => if newer k b then k else b | None => k end)) None l.

(** Each row is written on its own; an error leaves those before it. *)
Fixpoint keep_all (k : FileKeyring) (key : RecoveryKeyRow) (all : list (list Z * Z)) (draws : list SealDraw)
    (sealed : Z) (db : EscrowDb) : option (result Z VaultError * EscrowDb) :=
  match all with
  | [] => Some (Ok sealed, db)
  | (kek_id, version) :: all =>
      match master_key k kek_id version with
      | Err e => Some (Err e, db)
      | Ok master =>
          match draws with
          | [] => None
          | d :: draws =>
              match seal_for d (rk_public key) kek_id version master with
              | None => None
              | Some (Err e) => Some (Err e, db)
              | Some (Ok escrowed) =>
                  match eb_escrow db !! (rk_id key, kek_id, version) with
                  | Some _ => keep_all k key all draws sealed db
                  | None => keep_all k key all draws (sealed + 1)
                      {| eb_keys := eb_keys db;
                         eb_escrow := <[(rk_id key, kek_id, version) := escrowed]> (eb_escrow db) |}
                  end
              end
          end
      end
  end.

Definition keep (k : FileKeyring) (draws : list SealDraw) (db : EscrowDb) : option (result Z VaultError * EscrowDb) :=
  match newest_key (eb_keys db) with
  | None => Some (Ok 0, db)
  | Some key => keep_all k key (all_keys k) draws 0 db
  end.

(** The rows of a recovery key, by master key and version. *)
Definition escrow_rows (key : Uuid) (db : EscrowDb) : list (list Z * Z * Escrowed) :=
  sort_by_key (fun r => r.1.1 ++ [-1; r.1.2])
    (omap (fun kv : Uuid * list Z * Z * Escrowed =>
             if bool_decide (kv.1.1.1 = key) then Some (kv.1.1.2, kv.1.2, kv.2) else None)
       (map_to_list (eb_escrow db))).

Fixpoint recover_lines (private : bytes) (rows : list (list Z * Z * Escrowed)) : result (list Z) RecoverError :=
  match rows with
  | [] => Ok []
  | (kek_id, version, e) :: rows =>
      if negb (bool_decide (kek_id = FILE_KEYRING_ID)) then Err (RE_NotAFile kek_id)
      else
        match open_with private e kek_id version with
        | Err _ => Err (RE_Open version)
        | Ok master =>
            let? rest := recover_lines private rows in
            Ok (decimal_signed version ++ lit ":" ++ b64_encode master ++ [10] ++ rest)
        end
  end.

Definition recover (private : bytes) (db : EscrowDb) : result (list Z) RecoverError :=
  match public_key_of private with
  | Err _ => Err RE_NotAPrivateKey
  | Ok public =>
      match List.find (fun k => bool_decide (rk_public k = public)) (eb_keys db) with
      | None => Err RE_NoKey
      | Some k =>
          let rows := escrow_rows (rk_id k) db in
          if bool_decide (length rows = 0%nat) then Err (RE_NoMasterKey (rk_id k))
          else
            let? lines := recover_lines private rows in
            Ok (lit "# remotehub master keys" ++ [10] ++ lines)
      end
  end.

End escrow.

(** ** Theorems *)

(** Lines that each end with a line feed. *)
Lemma lines_of_lines (ls : list (list Z)) :
  Forall (fun l : list Z => (10 ∉ l) /\ (13 ∉ l)) ls -> lines (mjoin ((fun l => l ++ [10]) <$> ls)) = ls.
Proof.
  intros Hls. assert (Hs : split 10 (mjoin ((fun l => l ++ [10]) <$> ls)) = ls ++ [[]]).
  { induction Hls as [|l ls [Hl _] _ IH]; [done|].
    change (split 10 ((l ++ [10]) ++ mjoin ((fun l => l ++ [10]) <$> ls)) = l :: ls ++ [[]]).
    rewrite <- app_assoc. change (l ++ [10] ++ ?x) with (l ++ 10 :: x). by rewrite split_app, IH. }
  unfold lines. rewrite Hs, reverse_app. simpl. rewrite reverse_involutive.
  clear Hs. induction Hls as [|l ls [_ Hl] _ IH]; [done|]. rewrite fmap_cons, drop_cr_none by done. by f_equal.
Qed.

Section theorems.
Context `{Ecdh, !EcdhOk, Aead, !AeadOk, Base64, Base32}.
Hypothesis b64_inverse : forall key,
  Forall (fun b => 0 <= b < 256) key -> b64_decode (b64_encode key) = Some key.
Hypothesis b64_text : forall key, Forall (fun b => 0 <= b < 256) key ->
  Forall (fun c => is_ascii_alphanumeric c = true \/ c = 43 \/ c = 47 \/ c = 61) (b64_encode key).

Lemma point_uncompressed p : point (uncompressed p) = Ok p.
Proof.
  unfold point. rewrite bool_decide_eq_true_2 by apply uncompressed_length. simpl. by rewrite uncompressed_reads.
Qed.

Lemma open_sealed s private d kek v master own :
  secret_from_slice private = Some s -> drawn_key d = Some own -> length (sd_nonce d) = NONCE_LEN ->
  length master = KEY_LEN ->
  exists e, seal_for d (uncompressed (public_key s)) kek v master = Some (Ok e)
    /\ open_with private e kek v = Ok master.
Proof.
  intros Hs Hd Hn Hm. unfold seal_for, open_with. rewrite point_uncompressed, Hd, Hs. cbn.
  eexists. split; [done|]. cbn. rewrite point_uncompressed.
  assert (sealing_key s (public_key own) = sealing_key own (public_key s)) as ->
    by (unfold sealing_key; by rewrite both_agree).
  rewrite decrypt_encrypt_same by done. by rewrite bool_decide_eq_true_2.
Qed.

Lemma newest_key_elem l key : newest_key l = Some key -> key ∈ l.
Proof.
  revert key. induction l as [|k l IH]; intros key; [done|]. simpl. destruct (newest_key l) as [b|].
  - destruct (newer k b); intros [= <-]; [by left|right; by apply IH].
  - intros [= <-]. by left.
Qed.

(** What the database holds for a key opens to the master keys of a file. *)
Definition held (private : bytes) (kr : FileKeyring) (id : Uuid) (db : EscrowDb) : Prop :=
  forall kek v e, eb_escrow db !! (id, kek, v) = Some e ->
  kek = FILE_KEYRING_ID
  /\ exists master, keys kr !! v = Some master /\ open_with private e kek v = Ok master.

Definition enough (draws : list SealDraw) (n : nat) : Prop :=
  (n <= length draws)%nat
  /\ Forall (fun d => is_Some (drawn_key d) /\ length (sd_nonce d) = NONCE_LEN) draws.

Lemma keep_all_holds private s kr key all draws sealed db :
  secret_from_slice private = Some s -> rk_public key = uncompressed (public_key s) ->
  keys_ok (keys kr) -> held private kr (rk_id key) db ->
  Forall (fun iv => iv.1 = FILE_KEYRING_ID /\ is_Some (keys kr !! iv.2)) all -> enough draws (length all) ->
  exists n db', keep_all kr key all draws sealed db = Some (Ok n, db')
    /\ held private kr (rk_id key) db' /\ eb_keys db' = eb_keys db
    /\ (forall k, is_Some (eb_escrow db !! k) -> is_Some (eb_escrow db' !! k))
    /\ forall iv, iv ∈ all -> is_Some (eb_escrow db' !! (rk_id key, iv.1, iv.2)).
Proof.
  intros Hs Hpub Hok Hheld Hall. revert draws sealed db Hheld.
  induction Hall as [|[kek v] all [Hkek [master Hm]] _ IH]; intros draws sealed db Hheld [Hlen Hdraws].
  { exists sealed, db. split_and!; try done. set_solver. }
  simpl in Hkek, Hm. subst kek. destruct draws as [|d draws]; [simpl in Hlen; lia|].
  apply Forall_cons in Hdraws as [[[own Hown] Hn] Hdraws]. pose proof (Hok _ _ Hm) as [Hv Hml].
  destruct (open_sealed s private d FILE_KEYRING_ID v master own Hs Hown Hn Hml) as (e & He & Hopen).
  assert (Hen : enough draws (length all)) by (split; [simpl in Hlen; lia|done]).
  cbn [keep_all]. simpl. rewrite Hm, Hpub, He.
  destruct (eb_escrow db !! _) as [old|] eqn:Hold.
  - destruct (IH draws sealed db Hheld Hen) as (n & db' & Hk & Hh & Hkeys & Hmono & Hin).
    exists n, db'. split_and!; try done. intros iv [->|Hiv]%elem_of_cons; [apply Hmono; by eexists|by apply Hin].
  - set (db1 := {| eb_keys := eb_keys db; eb_escrow := _ |}).
    destruct (IH draws (sealed + 1) db1) as (n & db' & Hk & Hh & Hkeys & Hmono & Hin); [|done|].
    { intros kek w e'. subst db1. simpl. rewrite lookup_insert_Some. intros [[[= <- <-] <-]|[_ Hl]].
      - split; [done|]. by exists master.
      - by apply Hheld. }
    exists n, db'. split_and!; try done.
    + intros k Hsome. apply Hmono. subst db1. simpl. rewrite lookup_insert_is_Some. destruct (decide ((rk_id key, FILE_KEYRING_ID, v) = k)); [by left|by right].
    + intros iv [->|Hiv]%elem_of_cons; [|by apply Hin]. apply Hmono. subst db1. simpl.
      rewrite lookup_insert_eq. by eexists.
Qed.

Lemma elem_of_escrow_rows id db kek v e :
  (kek, v, e) ∈ escrow_rows id db <-> eb_escrow db !! (id, kek, v) = Some e.
Proof.
  unfold escrow_rows. rewrite sort_by_key_perm, list_elem_of_omap. split.
  - intros ([[[i k] w] e'] & Hel%elem_of_map_to_list & Hf). simpl in *. case_bool_decide; [|done]. by simplify_eq.
  - intros Hl. exists (id, kek, v, e). rewrite elem_of_map_to_list. split; [done|]. simpl. by rewrite bool_decide_eq_true_2.
Qed.

Lemma NoDup_escrow_rows id db : NoDup (fst <$> escrow_rows id db).
Proof.
  unfold escrow_rows. rewrite sort_by_key_perm. pose proof (NoDup_fst_map_to_list (eb_escrow db)) as Hnd.
  induction (map_to_list (eb_escrow db)) as [|[[[i k] v] e] l IH]; [constructor|]. rewrite fmap_cons in Hnd.
  apply NoDup_cons in Hnd as [Hx Hnd]. simpl. case_bool_decide as Hi; [|by apply IH]. simpl. apply NoDup_cons.
  split; [|by apply IH]. intros ([[k' v'] e'] & Heq & Hin)%list_elem_of_fmap. simpl in *. simplify_eq.
  apply Hx. apply list_elem_of_omap in Hin as ([[[j k2] v2] e2] & Hin & Hf). simpl in Hf.
  case_bool_decide; [|done]. simplify_eq. apply list_elem_of_fmap. eexists; split; [|exact Hin]; done.
Qed.

Lemma recover_lines_ok private kr (rows : list (list Z * Z * Escrowed)) :
  Forall (fun r => r.1.1 = FILE_KEYRING_ID /\ exists master, keys kr !! r.1.2 = Some master
                   /\ open_with private r.2 r.1.1 r.1.2 = Ok master) rows ->
  exists vs : list (Z * list Z), recover_lines private rows
      = Ok (mjoin ((fun l => l ++ [10]) <$> ((fun vk => generate_key_line vk.1 vk.2) <$> vs)))
    /\ vs.*1 = (fun r => r.1.2) <$> rows /\ Forall (fun vk => keys kr !! vk.1 = Some vk.2) vs.
Proof.
  induction 1 as [|[[kek v] e] rows (Hk & master & Hm & Ho) _ (vs & Hr & Hv & Hall)]; [by exists []|].
  simpl in *. subst kek. exists ((v, master) :: vs). rewrite bool_decide_eq_true_2 by done. simpl. rewrite Ho, Hr.
  split_and!; [|simpl; by f_equal|by constructor].
  unfold generate_key_line. simpl. by rewrite <- !app_assoc.
Qed.

Lemma parse_key_lines n (done_ vs : list (Z * list Z)) :
  NoDup (done_ ++ vs).*1 ->
  Forall (fun vk => 1 <= vk.1 <= i32_max /\ length vk.2 = KEY_LEN /\ Forall (fun b => 0 <= b < 256) vk.2) vs ->
  parse_lines n ((fun vk => generate_key_line vk.1 vk.2) <$> vs) (collect done_) = Ok (collect (done_ ++ vs)).
Proof.
  intros Hnd Hvs. revert n done_ Hnd. induction Hvs as [|[v key] vs (Hv & Hk & Hb) _ IH]; intros n done_ Hnd;
    [by rewrite app_nil_r|]. simpl in *.
  rewrite (parse_key_line b64_inverse b64_text) by done.
  assert (Hfree : collect done_ !! v = None).
  { apply eq_None_not_Some. rewrite collect_lookup_is_Some. intros Hin.
    rewrite fmap_app in Hnd. apply NoDup_app in Hnd as (_ & Hdis & _). apply (Hdis v Hin). by left. }
  rewrite Hfree. cbn [is_some]. rewrite <- collect_snoc, (IH _ (done_ ++ [(v, key)])); rewrite <- app_assoc; done.
Qed.

(** Master keys are not lost while the recovery key is kept: after the keys
    of a file were kept for the newest recovery key, the private key makes a
    file of the database that reads as the same key ring, whatever was kept
    before. *)
Theorem recovered_file_reads_back (content : list Z) (kr : FileKeyring) (private : list Z) (s : SecretKey)
    (key : RecoveryKeyRow) (draws : list SealDraw) (db : EscrowDb) :
  parse content = Ok kr ->
  (forall v k, keys kr !! v = Some k -> Forall (fun b => 0 <= b < 256) k) ->
  newest_key (eb_keys db) = Some key ->
  secret_from_slice private = Some s -> rk_public key = uncompressed (public_key s) ->
  (forall k, k ∈ eb_keys db -> rk_public k = rk_public key -> rk_id k = rk_id key) ->
  held private kr (rk_id key) db -> enough draws (size (keys kr)) ->
  exists n db' file, keep kr draws db = Some (Ok n, db')
    /\ recover private db' = Ok file /\ parse file = Ok kr /\ held private kr (rk_id key) db'.
Proof.
  intros Hparse Hbytes Hnew Hs Hpub Hone Hheld Hdraws. apply parse_spec in Hparse as [Hlines Hhigh].
  pose proof (newest_key_elem _ _ Hnew) as Hin. assert (Hok : keys_ok (keys kr)) by (eapply parse_lines_ok; [|exact Hlines]; by apply map_Forall_empty).
  unfold keep. rewrite Hnew.
  destruct (keep_all_holds private s kr key (all_keys kr) draws 0 db Hs Hpub Hok Hheld) as (n & db' & Hkeep & Hh & Hkeys & _ & Hall).
  { apply Forall_forall. intros iv (v & -> & Hv)%list_elem_of_fmap. split; [done|]. by apply elem_of_keys. }
  { simpl. by rewrite length_fmap, length_keys. }
  assert (Hrows : Forall (fun r => r.1.1 = FILE_KEYRING_ID /\ exists master, keys kr !! r.1.2 = Some master
      /\ open_with private r.2 r.1.1 r.1.2 = Ok master) (escrow_rows (rk_id key) db')).
  { apply Forall_forall. intros [[kek v] e] Hr%elem_of_escrow_rows. by apply Hh. }
  destruct (recover_lines_ok private kr _ Hrows) as (vs & Hrec & Hvs & Hvall).
  exists n, db'. eexists. split; [exact Hkeep|].
  assert (Hmem : forall v, v ∈ vs.*1 <-> is_Some (keys kr !! v)).
  { intros v. rewrite Hvs. split.
    - intros ([[kek w] e] & -> & Hr)%list_elem_of_fmap. rewrite Forall_forall in Hrows.
      destruct (Hrows _ Hr) as (_ & m & Hm & _). by exists m.
    - intros Hv. apply list_elem_of_fmap. destruct (Hall (FILE_KEYRING_ID, v)) as [e He].
      { apply list_elem_of_fmap. exists v. split; [done|]. by apply elem_of_keys. }
      exists (FILE_KEYRING_ID, v, e). split; [done|]. by apply elem_of_escrow_rows. }
  assert (Hnd : NoDup vs.*1).
  { rewrite Hvs. pose proof (NoDup_escrow_rows (rk_id key) db') as Hnd. clear -Hnd Hrows.
    induction Hrows as [|[[kek v] e] rows [Hk _] Hrows IH]; [constructor|]. simpl in *. subst kek.
    apply NoDup_cons in Hnd as [Hx Hnd]. apply NoDup_cons. split; [|by apply IH].
    intros ([[k' v'] e'] & Hv & Hin)%list_elem_of_fmap. apply Hx, list_elem_of_fmap.
    exists (k', v', e'). split; [|done]. rewrite Forall_forall in Hrows. destruct (Hrows _ Hin) as [Hk _].
    simpl in *. by subst. }
  assert (Hcol : collect vs = keys kr).
  { apply map_eq. intros v. rewrite Forall_forall in Hvall. destruct (keys kr !! v) as [m|] eqn:Hm.
    - assert (v ∈ vs.*1) as ([w m'] & -> & Hin')%list_elem_of_fmap by (apply Hmem; by eexists).
      specialize (Hvall _ Hin'). simpl in *. simplify_eq. by apply collect_lookup_nodup.
    - apply eq_None_not_Some. rewrite collect_lookup_is_Some, Hmem, Hm. by intros [? ?]. }
  split; [|split; [|exact Hh]].
  - unfold recover, public_key_of. rewrite Hs. cbn [ok_or].
    destruct (List.find _ _) as [k|] eqn:Hf.
    2: { assert (Hk : List.In key (eb_keys db')) by (apply list_elem_of_In; by rewrite Hkeys).
         pose proof (List.find_none _ _ Hf key Hk) as Hno. simpl in Hno. by bools. }
    apply find_some in Hf as [Hk Hp]. bools. apply list_elem_of_In in Hk. rewrite Hkeys in Hk.
    rewrite (Hone k Hk) by congruence.
    assert (length (escrow_rows (rk_id key) db') <> 0%nat).
    { apply highest_spec in Hhigh as [Hc _]. destruct (Hall (FILE_KEYRING_ID, kr_current kr)) as [e He].
      { apply list_elem_of_fmap. exists (kr_current kr). split; [done|]. by apply elem_of_keys. }
      apply elem_of_escrow_rows in He. destruct (escrow_rows _ _); [set_solver|done]. }
    rewrite bool_decide_eq_false_2 by done. rewrite Hrec. reflexivity.
  - unfold parse.
    change (lit "# remotehub master keys" ++ [10] ++ mjoin ((fun l => l ++ [10]) <$> ((fun vk => generate_key_line vk.1 vk.2) <$> vs)))
      with (mjoin ((fun l => l ++ [10]) <$> (lit "# remotehub master keys" :: ((fun vk => generate_key_line vk.1 vk.2) <$> vs)))).
    assert (Hkk : Forall (fun vk : Z * list Z => 1 <= vk.1 <= i32_max /\ length vk.2 = KEY_LEN
        /\ Forall (fun b => 0 <= b < 256) vk.2) vs).
    { eapply Forall_impl; [exact Hvall|]. simpl. intros [v m] Hm. simpl in *. destruct (Hok _ _ Hm). eauto. }
    rewrite lines_of_lines.
    2: { constructor; [split; refine (bool_decide_eq_true_1 _ _); vm_compute; reflexivity|].
         apply Forall_fmap. eapply Forall_impl; [exact Hkk|]. intros [v m] (Hv & _ & Hb). simpl in *.
         destruct (key_line_facts b64_text v m) as (_ & H10 & H13 & _); [lia|done|done]. }
    cbn [parse_lines]. change (parse_line 0 (lit "# remotehub master keys")) with (Ok (E := VaultError) (@None (Z * list Z))).
    cbn match. change (∅ : gmap Z (list Z)) with (collect (@nil (Z * list Z))).
    rewrite parse_key_lines by done. simpl app. rewrite Hcol, Hhigh. by destruct kr.
Qed.

End theorems.

Module EscrowExamples.
Import VaultExamples.

#[local] Existing Instance plain_aead.
#[local] Existing Instance plain_aead_ok.
#[local] Existing Instance VaultExamples.plain_base64.
#[local] Existing Instance TotpExamples.plain_base32.
(** Keys that are one number, with its product as what two of them agree on. *)
#[local] Instance plain_ecdh : Ecdh := {
  SecretKey := Z;
  PublicKey := Z;
  secret_from_slice b := if bool_decide (length b = 32%nat) then head b else None;
  public_from_sec1_bytes := head;
  uncompressed p := p :: replicate 64 0;
  public_key s := s;
  diffie_hellman s p := [s * p];
  hkdf ikm info := ikm ++ info
}.

#[local] Instance plain_ecdh_ok : EcdhOk.
Proof. split; [done|done|]. intros s t. simpl. f_equal. lia. Qed.

Definition private : list Z := 7 :: replicate 31 0.
Definition row : RecoveryKeyRow :=
  {| rk_id := 3; rk_public := 7 :: replicate 64 0; rk_created_by := lit "admin"; rk_created_at := 10 |}.
Definition old_row : RecoveryKeyRow :=
  {| rk_id := 2; rk_public := 6 :: replicate 64 0; rk_created_by := lit "admin"; rk_created_at := 5 |}.
Definition db : EscrowDb := {| eb_keys := [old_row; row]; eb_escrow := ∅ |}.
Definition draw : SealDraw := {| sd_candidates := [[]; 5 :: replicate 31 1]; sd_nonce := replicate 24 0 |}.

Lemma recovered_file_reads_back_witness :
  exists n db' file, keep ring1 [draw] db = Some (Ok n, db')
    /\ recover private db' = Ok file /\ parse file = Ok ring1 /\ held private ring1 3 db'.
Proof.
  apply (recovered_file_reads_back plain_inverse plain_text (file1 ++ [10]) ring1 private (7 : @SecretKey plain_ecdh) row [draw] db).
  - exact ring1_parsed.
  - intros v k. simpl. rewrite lookup_singleton_Some. intros [_ <-]. unfold key1. repeat constructor; lia.
  - vm_compute. reflexivity.
  - vm_compute. reflexivity.
  - vm_compute. reflexivity.
  - intros k. simpl. rewrite !elem_of_cons. intros [->|[->|Hk]]; [discriminate|reflexivity|by apply elem_of_nil in Hk].
  - intros kek v e. simpl. by rewrite lookup_empty.
  - split; [vm_compute; lia|]. constructor; [|constructor]. split; [|reflexivity]. exists (5 : @SecretKey plain_ecdh). reflexivity.
Defined.

Example typed_as_printed : parse_printed (lit "abcd-efgh ijkl-MNOP-qrst-uvwx-yzAB-CDEF") = Some (lit "ABCDEFGHIJKLMNOPQRSTUVWXYZABCDEF").
Proof. vm_compute. reflexivity. Qed.

End EscrowExamples.
