(* ===== verification/Personal.v ===== *)
(** * Personal vaults (crates/server/src/api/personal.rs)

    Entries only their owner can read: the server keeps them sealed, with the
    vault key wrapped once per way to unlock it. The JSON parameters of an
    unlock are what the server reads of them. [Recovery] works on the same
    tables. *)
From S2P Require Import Prelude Text Totp Model Session Vault Keyring Escrow.

(** ** Tables *)

(** Whether the value is an object, the length of its text, and the strings
    under "key_id" and "ephemeral". *)
Record Params := { pa_object : bool; pa_length : Z; pa_key_id : option (list Z); pa_ephemeral : option (list Z) }.

Record UnlockRow := {
  ul_id : Uuid;
  ul_user : Uuid;
  ul_kind : list Z;
  ul_params : Params;
  ul_wrapped : list Z;
  ul_label : list Z
}.

(** A row of [personal_entries] or of [personal_attachments]. *)
Record SealedRow := { se_id : Uuid; se_user : Uuid; se_nonce : list Z; se_ciphertext : list Z }.

Record RecoveryRow := {
  rc_id : Uuid;
  rc_user : Uuid;
  rc_kind : list Z;
  rc_reason : list Z;
  rc_requester : Uuid;
  rc_approved_at : option Z;
  rc_completed_at : option Z;
  rc_created_at : Z
}.

Inductive VaultAction :=
| UnlockAdded (unlock : Uuid) (kind : list Z) | UnlockRemoved (unlock : Uuid) (kind : list Z)
| EntrySaved (entry : Uuid) | EntryDeleted (entry : Uuid)
| AttachmentSaved (attachment : Uuid) (size : Z) | AttachmentDeleted (attachment : Uuid)
| VaultReset (entries : Z)
| RecoveryKeyCreated (key : Uuid) | RecoveryKeyDeleted (key : Uuid)
| RecoveryRequested (recovery : Uuid) | RecoveryApproved (recovery : Uuid) | RecoveryCancelled (recovery : Uuid)
| RecoveryOpened (recovery : Uuid) | RecoveryCompleted (recovery : Uuid).

(** An entry of the audit log, with the session it names by its user. *)
Record VaultLog := { vl_by : Session; vl_action : VaultAction; vl_user : option Uuid; vl_at : Z }.

Record PersonalDb := {
  pd_unlocks : list UnlockRow;
  pd_entries : list SealedRow;
  pd_attachments : list SealedRow;
  pd_search : gmap Uuid (list Z * list Z);
  pd_escrow : EscrowDb;
  pd_recoveries : list RecoveryRow;
  pd_log : list VaultLog
}.

Definition on_unlocks (f : list UnlockRow -> list UnlockRow) (db : PersonalDb) : PersonalDb :=
  {| pd_unlocks := f (pd_unlocks db); pd_entries := pd_entries db; pd_attachments := pd_attachments db;
     pd_search := pd_search db; pd_escrow := pd_escrow db; pd_recoveries := pd_recoveries db; pd_log := pd_log db |}.

Definition on_entries (f : list SealedRow -> list SealedRow) (db : PersonalDb) : PersonalDb :=
  {| pd_unlocks := pd_unlocks db; pd_entries := f (pd_entries db); pd_attachments := pd_attachments db;
     pd_search := pd_search db; pd_escrow := pd_escrow db; pd_recoveries := pd_recoveries db; pd_log := pd_log db |}.

Definition on_attachments (f : list SealedRow -> list SealedRow) (db : PersonalDb) : PersonalDb :=
  {| pd_unlocks := pd_unlocks db; pd_entries := pd_entries db; pd_attachments := f (pd_attachments db);
     pd_search := pd_search db; pd_escrow := pd_escrow db; pd_recoveries := pd_recoveries db; pd_log := pd_log db |}.

Definition on_search (f : gmap Uuid (list Z * list Z) -> gmap Uuid (list Z * list Z)) (db : PersonalDb) : PersonalDb :=
  {| pd_unlocks := pd_unlocks db; pd_entries := pd_entries db; pd_attachments := pd_attachments db;
     pd_search := f (pd_search db); pd_escrow := pd_escrow db; pd_recoveries := pd_recoveries db; pd_log := pd_log db |}.

Definition on_escrow (f : EscrowDb -> EscrowDb) (db : PersonalDb) : PersonalDb :=
  {| pd_unlocks := pd_unlocks db; pd_entries := pd_entries db; pd_attachments := pd_attachments db;
     pd_search := pd_search db; pd_escrow := f (pd_escrow db); pd_recoveries := pd_recoveries db; pd_log := pd_log db |}.

Definition on_recoveries (f : list RecoveryRow -> list RecoveryRow) (db : PersonalDb) : PersonalDb :=
  {| pd_unlocks := pd_unlocks db; pd_entries := pd_entries db; pd_attachments := pd_attachments db;
     pd_search := pd_search db; pd_escrow := pd_escrow db; pd_recoveries := f (pd_recoveries db); pd_log := pd_log db |}.

Definition log_vault (s : Session) (now : Z) (a : VaultAction) (user : option Uuid) (db : PersonalDb) : PersonalDb :=
  {| pd_unlocks := pd_unlocks db; pd_entries := pd_entries db; pd_attachments := pd_attachments db;
     pd_search := pd_search db; pd_escrow := pd_escrow db; pd_recoveries := pd_recoveries db;
     pd_log := pd_log db ++ [{| vl_by := s; vl_action := a; vl_user := user; vl_at := now |}] |}.

Definition log_own (s : Session) (now : Z) (a : VaultAction) : PersonalDb -> PersonalDb :=
  log_vault s now a (Some (user_id s)).

Inductive VaultProblem :=
| VP_Invalid (field : string) | VP_Forbidden | VP_NotFound | VP_LastUnlock | VP_RecoveryKeyInUse
| VP_VaultNotCovered | VP_RecoveryOpen | VP_OwnRequest | VP_RequestDecided | VP_RecoveryNotReady | VP_Internal.

#[export] Instance vault_problem_eq_dec : EqDecision VaultProblem.
Proof. solve_decision. Defined.

Definition PASSKEY : list Z := lit "passkey".
Definition PASSPHRASE : list Z := lit "passphrase".
Definition RECOVERY : list Z := lit "recovery".
Definition ORGANISATION : list Z := lit "organisation".

Definition kind_ok (k : str) : bool := bool_decide (k ∈ [PASSKEY; PASSPHRASE; RECOVERY; ORGANISATION]).

Definition between (a b : Z) (l : list Z) : bool := (a <=? Z.of_nat (length l)) && (Z.of_nat (length l) <=? b).

Record NewUnlock := { nu_kind : list Z; nu_params : Params; nu_wrapped : list Z; nu_label : list Z }.
Record EntryInput := { ei_nonce : list Z; ei_ciphertext : list Z }.

(** What a user's browser reads. *)
Record OwnVault := {
  ov_unlocks : list UnlockRow;
  ov_entries : list SealedRow;
  ov_search : option (list Z * list Z);
  ov_key : option (Uuid * list Z)
}.

Definition of_user (user : Uuid) (db : PersonalDb) : list UnlockRow :=
  filter (fun u => ul_user u = user) (pd_unlocks db).

Definition organisation_key (db : PersonalDb) : option RecoveryKeyRow := newest_key (eb_keys (pd_escrow db)).

Definition load_vault (user : Uuid) (db : PersonalDb) : OwnVault :=
  {| ov_unlocks := of_user user db;
     ov_entries := filter (fun e => se_user e = user) (pd_entries db);
     ov_search := pd_search db !! user;
     ov_key := (fun k => (rk_id k, rk_public k)) <$> organisation_key db |}.

Section personal.
Context `{UuidParse, Base64}.

(** A wrap for the organisation is for the newest key, with a public key of its
    own. *)
Definition check_organisation (p : Params) (db : PersonalDb) : result unit VaultProblem :=
  let newest := rk_id <$> organisation_key db in
  let named := t ← pa_key_id p; uuid_parse t in
  if negb (is_some newest) || negb (bool_decide (named = newest)) then Err (VP_Invalid "params")
  else
    match (t ← pa_ephemeral p; b64_decode t) with
    | Some point => if bool_decide (length point = POINT_LEN) then Ok tt else Err (VP_Invalid "params")
    | None => Err (VP_Invalid "params")
    end.

Definition add_unlock (s : Session) (now : Z) (new_id : Uuid) (input : NewUnlock) (db : PersonalDb) :
    result PersonalDb VaultProblem :=
  if negb (kind_ok (nu_kind input)) then Err (VP_Invalid "kind")
  else if negb (pa_object (nu_params input)) || (2048 <? pa_length (nu_params input)) then Err (VP_Invalid "params")
  else if negb (between 16 256 (nu_wrapped input)) then Err (VP_Invalid "wrapped_key")
  else
    let label := trim (nu_label input) in
    if 100 <? Z.of_nat (length label) then Err (VP_Invalid "label")
    else
      let? _ := if bool_decide (nu_kind input = ORGANISATION) then check_organisation (nu_params input) db
                else Ok tt in
      let db := if bool_decide (nu_kind input = PASSKEY) then db
                else on_unlocks (filter (fun u => ~ (ul_user u = user_id s /\ ul_kind u = nu_kind input))) db in
      Ok (log_own s now (UnlockAdded new_id (nu_kind input))
            (on_unlocks (fun l => l ++ [{| ul_id := new_id; ul_user := user_id s; ul_kind := nu_kind input;
                                           ul_params := nu_params input; ul_wrapped := nu_wrapped input;
                                           ul_label := label |}]) db)).

Definition remove_unlock (s : Session) (now : Z) (id : Uuid) (db : PersonalDb) : result PersonalDb VaultProblem :=
  let mine := of_user (user_id s) db in
  let? u := ok_or (List.find (fun u => ul_id u =? id) mine) VP_NotFound in
  if bool_decide (ul_kind u = ORGANISATION) then Err VP_Forbidden
  else if bool_decide (length (filter (fun u => ul_kind u <> ORGANISATION) mine) = 1%nat) then Err VP_LastUnlock
  else Ok (log_own s now (UnlockRemoved id (ul_kind u)) (on_unlocks (filter (fun u => ul_id u <> id)) db)).

(** [INSERT … ON CONFLICT (id) DO UPDATE … WHERE user_id = …]; [None] if no row
    was touched. *)
Definition upsert_sealed (row : SealedRow) (l : list SealedRow) : option (list SealedRow) :=
  match List.find (fun e => se_id e =? se_id row) l with
  | Some old =>
      if se_user old =? se_user row
      then Some ((fun e => if se_id e =? se_id row then row else e) <$> l) else None
  | None => Some (l ++ [row])
  end.

Definition delete_sealed (user id : Uuid) (l : list SealedRow) : option (list SealedRow) :=
  if existsb (fun e => (se_id e =? id) && (se_user e =? user)) l
  then Some (filter (fun e => ~ (se_id e = id /\ se_user e = user)) l) else None.

Definition check_sealed (max : Z) (input : EntryInput) : result unit VaultProblem :=
  if negb (between 12 12 (ei_nonce input)) then Err (VP_Invalid "nonce")
  else if negb (between 16 max (ei_ciphertext input)) then Err (VP_Invalid "ciphertext") else Ok tt.

Definition sealed_row (s : Session) (id : Uuid) (input : EntryInput) : SealedRow :=
  {| se_id := id; se_user := user_id s; se_nonce := ei_nonce input; se_ciphertext := ei_ciphertext input |}.

Definition save_entry (s : Session) (now : Z) (id : Uuid) (input : EntryInput) (db : PersonalDb) :
    result PersonalDb VaultProblem :=
  let? _ := check_sealed 65536 input in
  if bool_decide (of_user (user_id s) db = []) then Err (VP_Invalid "vault")
  else
    let? l := ok_or (upsert_sealed (sealed_row s id input) (pd_entries db)) VP_NotFound in
    Ok (log_own s now (EntrySaved id) (on_entries (fun _ => l) db)).

Definition delete_entry (s : Session) (now : Z) (id : Uuid) (db : PersonalDb) : result PersonalDb VaultProblem :=
  let? l := ok_or (delete_sealed (user_id s) id (pd_entries db)) VP_NotFound in
  Ok (log_own s now (EntryDeleted id) (on_entries (fun _ => l) db)).

Definition save_attachment (s : Session) (now : Z) (id : Uuid) (input : EntryInput) (db : PersonalDb) :
    result PersonalDb VaultProblem :=
  let? _ := check_sealed (5 * 1024 * 1024 + 16) input in
  let? l := ok_or (upsert_sealed (sealed_row s id input) (pd_attachments db)) VP_NotFound in
  Ok (log_own s now (AttachmentSaved id (Z.of_nat (length (ei_ciphertext input)) - 16))
        (on_attachments (fun _ => l) db)).

Definition attachment (s : Session) (id : Uuid) (db : PersonalDb) : result SealedRow VaultProblem :=
  ok_or (List.find (fun e => (se_id e =? id) && (se_user e =? user_id s)) (pd_attachments db)) VP_NotFound.

Definition delete_attachment (s : Session) (now : Z) (id : Uuid) (db : PersonalDb) : result PersonalDb VaultProblem :=
  let? l := ok_or (delete_sealed (user_id s) id (pd_attachments db)) VP_NotFound in
  Ok (log_own s now (AttachmentDeleted id) (on_attachments (fun _ => l) db)).

Definition save_search (s : Session) (input : EntryInput) (db : PersonalDb) : result PersonalDb VaultProblem :=
  let? _ := check_sealed 65536 input in
  Ok (on_search (insert (user_id s) (ei_nonce input, ei_ciphertext input)) db).

Definition reset_vault (s : Session) (now : Z) (db : PersonalDb) : PersonalDb :=
  let mine := filter (fun e => se_user e = user_id s) (pd_entries db) in
  log_own s now (VaultReset (Z.of_nat (length mine)))
    (on_unlocks (filter (fun u => ul_user u <> user_id s))
      (on_attachments (filter (fun e => se_user e <> user_id s))
        (on_search (delete (user_id s)) (on_entries (filter (fun e => se_user e <> user_id s)) db)))).

End personal.
