(* ===== verification/Recovery.v ===== *)
(** * The organisation's recovery key and the recovery of vaults (crates/server/src/api/recovery.rs)

    Recovery keys, of which the server holds the public half, and recoveries of
    personal vaults: asked for by an administrator, approved by a security
    officer, carried out by who asked within a day. Where a handler reads a
    recovery before its transaction, [seen] are the tables of that moment. *)
From S2P Require Import Prelude Text Totp Model Session Vault Keyring Escrow Personal.

Definition day : Z := 24 * 60 * minute.

Section recovery.
Context `{UuidText, UuidParse, Base64, Ecdh, Aead}.

Definition require_admin (s : Session) : result unit VaultProblem :=
  if is_admin s then Ok tt else Err VP_Forbidden.

(** ** Keys *)

(** The wraps for the organisation that name a key by its text. *)
Definition wraps_for (key : Uuid) (db : PersonalDb) : list UnlockRow :=
  filter (fun u => ul_kind u = ORGANISATION /\ pa_key_id (ul_params u) = Some (uuid_text key)) (pd_unlocks db).

(** Each key with the number of vaults wrapped for it and whether it holds the
    current master key, in the order of the table. *)
Definition list_keys (s : Session) (k : FileKeyring) (db : PersonalDb) :
    result (list (RecoveryKeyRow * Z * bool)) VaultProblem :=
  let? _ := require_admin s in
  Ok ((fun r => (r, Z.of_nat (length (wraps_for (rk_id r) db)),
                 is_some (eb_escrow (pd_escrow db) !! (rk_id r, (current k).1, (current k).2))))
        <$> eb_keys (pd_escrow db)).

(** The master keys are kept for the new key after its transaction; a failure
    there changes nothing of the answer. *)
Definition create_key (s : Session) (now : Z) (new_id : Uuid) (public : bytes) (k : FileKeyring)
    (draws : list SealDraw) (db : PersonalDb) : result PersonalDb VaultProblem :=
  let? _ := require_admin s in
  if negb (is_public_key public) then Err (VP_Invalid "public_key")
  else
    let row := {| rk_id := new_id; rk_public := public; rk_created_by := username s; rk_created_at := now |} in
    let db := log_vault s now (RecoveryKeyCreated new_id) None
      (on_escrow (fun e => {| eb_keys := eb_keys e ++ [row]; eb_escrow := eb_escrow e |}) db) in
    Ok (match keep k draws (pd_escrow db) with
        | Some (_, e) => on_escrow (fun _ => e) db
        | None => db
        end).

(** A key's escrowed master keys go with it. *)
Definition delete_key (s : Session) (now : Z) (id : Uuid) (db : PersonalDb) : result PersonalDb VaultProblem :=
  let? _ := require_admin s in
  let? newest := ok_or (organisation_key db) VP_NotFound in
  if negb (bool_decide (wraps_for id db = [])) || (rk_id newest =? id) then Err VP_RecoveryKeyInUse
  else if negb (existsb (fun k => rk_id k =? id) (eb_keys (pd_escrow db))) then Err VP_NotFound
  else Ok (log_vault s now (RecoveryKeyDeleted id) None
             (on_escrow (fun e => {| eb_keys := filter (fun k => rk_id k <> id) (eb_keys e);
                                     eb_escrow := filter (fun kv : Uuid * list Z * Z * Escrowed => kv.1.1.1 <> id)
                                                    (eb_escrow e) |}) db)).

(** ** Recoveries *)

Inductive RecoveryStatus := Completed | Pending | Approved | Expired.

#[export] Instance recovery_status_eq_dec : EqDecision RecoveryStatus.
Proof. solve_decision. Defined.

Definition status (now : Z) (r : RecoveryRow) : RecoveryStatus :=
  if is_some (rc_completed_at r) then Completed
  else match rc_approved_at r with
       | None => Pending
       | Some t => if now - day <? t then Approved else Expired
       end.

Definition recovery_row (id : Uuid) (db : PersonalDb) : result RecoveryRow VaultProblem :=
  ok_or (List.find (fun r => rc_id r =? id) (pd_recoveries db)) VP_NotFound.

(** Each with its status and whether the caller asked for it. *)
Definition list_recoveries (s : Session) (now : Z) (db : PersonalDb) :
    result (list (RecoveryRow * RecoveryStatus * bool)) VaultProblem :=
  if negb (is_admin s) && negb (has_role s SecurityOfficer) then Err VP_Forbidden
  else Ok ((fun r => (r, status now r, rc_requester r =? user_id s)) <$> take 200 (reverse (pd_recoveries db))).

Record NewRecovery := { nr_user : Uuid; nr_kind : list Z; nr_reason : list Z }.

Definition covered (user : Uuid) (db : PersonalDb) : bool :=
  existsb (fun u => (ul_user u =? user) && bool_decide (ul_kind u = ORGANISATION)) (pd_unlocks db).

Definition create_recovery (s : Session) (now : Z) (new_id : Uuid) (input : NewRecovery) (db : PersonalDb) :
    result PersonalDb VaultProblem :=
  let? _ := require_admin s in
  if negb (bool_decide (nr_kind input ∈ [PASSPHRASE; lit "handover"])) then Err (VP_Invalid "kind")
  else
    let reason := trim (nr_reason input) in
    if bool_decide (reason = []) || (500 <? Z.of_nat (length reason)) then Err (VP_Invalid "reason")
    else if negb (covered (nr_user input) db) then Err VP_VaultNotCovered
    else if existsb (fun r => (rc_user r =? nr_user input) && negb (is_some (rc_completed_at r))) (pd_recoveries db)
    then Err VP_RecoveryOpen
    else Ok (log_vault s now (RecoveryRequested new_id) (Some (nr_user input))
               (on_recoveries (fun l => l ++ [{| rc_id := new_id; rc_user := nr_user input; rc_kind := nr_kind input;
                                                 rc_reason := reason; rc_requester := user_id s;
                                                 rc_approved_at := None; rc_completed_at := None;
                                                 rc_created_at := now |}]) db)).

Definition with_approved (t : Z) (r : RecoveryRow) : RecoveryRow :=
  {| rc_id := rc_id r; rc_user := rc_user r; rc_kind := rc_kind r; rc_reason := rc_reason r;
     rc_requester := rc_requester r; rc_approved_at := Some t; rc_completed_at := rc_completed_at r;
     rc_created_at := rc_created_at r |}.

Definition with_completed (t : Z) (r : RecoveryRow) : RecoveryRow :=
  {| rc_id := rc_id r; rc_user := rc_user r; rc_kind := rc_kind r; rc_reason := rc_reason r;
     rc_requester := rc_requester r; rc_approved_at := rc_approved_at r; rc_completed_at := Some t;
     rc_created_at := rc_created_at r |}.

(** [UPDATE … WHERE id = … AND …]: [None] if no row was one. *)
Definition update_recovery (id : Uuid) (open : RecoveryRow -> bool) (f : RecoveryRow -> RecoveryRow)
    (l : list RecoveryRow) : option (list RecoveryRow) :=
  if existsb (fun r => (rc_id r =? id) && open r) l
  then Some ((fun r => if (rc_id r =? id) && open r then f r else r) <$> l) else None.

Definition approve (s : Session) (now : Z) (id : Uuid) (seen db : PersonalDb) : result PersonalDb VaultProblem :=
  if negb (has_role s SecurityOfficer) then Err VP_Forbidden
  else
    let? found := recovery_row id seen in
    if rc_requester found =? user_id s then Err VP_OwnRequest
    else
      let open := fun r => negb (is_some (rc_approved_at r)) && negb (is_some (rc_completed_at r)) in
      let? l := ok_or (update_recovery id open (with_approved now) (pd_recoveries db)) VP_RequestDecided in
      Ok (log_vault s now (RecoveryApproved id) (Some (rc_user found)) (on_recoveries (fun _ => l) db)).

Definition cancel_recovery (s : Session) (now : Z) (id : Uuid) (db : PersonalDb) : result PersonalDb VaultProblem :=
  let? _ := require_admin s in
  match List.find (fun r => (rc_id r =? id) && negb (is_some (rc_completed_at r))) (pd_recoveries db) with
  | None => Err VP_NotFound
  | Some r =>
      Ok (log_vault s now (RecoveryCancelled id) (Some (rc_user r))
            (on_recoveries (filter (fun r => ~ (rc_id r = id /\ rc_completed_at r = None))) db))
  end.

Definition ready (s : Session) (now : Z) (id : Uuid) (db : PersonalDb) : result RecoveryRow VaultProblem :=
  let? _ := require_admin s in
  let? found := recovery_row id db in
  if negb (rc_requester found =? user_id s) then Err VP_Forbidden
  else if negb (bool_decide (status now found = Approved)) then Err VP_RecoveryNotReady
  else Ok found.

(** The wrapped vault key with its recovery key's public half, and the sealed
    entries. *)
Definition recovered_vault (s : Session) (now : Z) (id : Uuid) (seen db : PersonalDb) :
    result (UnlockRow * list Z * list SealedRow * PersonalDb) VaultProblem :=
  let? found := ready s now id seen in
  let joined := omap (fun u =>
    if (ul_user u =? rc_user found) && bool_decide (ul_kind u = ORGANISATION)
    then k ← List.find (fun k => bool_decide (pa_key_id (ul_params u) = Some (uuid_text (rk_id k))))
               (eb_keys (pd_escrow db));
         Some (u, rk_public k)
    else None) (pd_unlocks db) in
  let? unlock := ok_or (head joined) VP_VaultNotCovered in
  Ok (unlock, filter (fun e => se_user e = rc_user found) (pd_entries db),
      log_vault s now (RecoveryOpened id) (Some (rc_user found)) db).

Definition recovered_attachment (s : Session) (now : Z) (id file : Uuid) (seen db : PersonalDb) :
    result SealedRow VaultProblem :=
  let? found := ready s now id seen in
  ok_or (List.find (fun e => (se_id e =? file) && (se_user e =? rc_user found)) (pd_attachments db)) VP_NotFound.

(** The parameters the server gives the one-time recovery key's wrap. *)
Definition one_time : Params :=
  {| pa_object := true; pa_length := 17; pa_key_id := None; pa_ephemeral := None |}.

Definition complete_recovery (s : Session) (now : Z) (id new_id : Uuid) (wrapped : option (list Z))
    (seen db : PersonalDb) : result PersonalDb VaultProblem :=
  let? found := ready s now id seen in
  let? l := ok_or (update_recovery id (fun r => negb (is_some (rc_completed_at r))) (with_completed now)
                     (pd_recoveries db)) VP_RecoveryNotReady in
  let db := on_recoveries (fun _ => l) db in
  let? db := if bool_decide (rc_kind found = PASSPHRASE) then
               match wrapped with
               | Some w =>
                   if between 16 256 w
                   then Ok (on_unlocks (fun l =>
                          filter (fun u => ~ (ul_user u = rc_user found /\ ul_kind u = RECOVERY)) l
                          ++ [{| ul_id := new_id; ul_user := rc_user found; ul_kind := RECOVERY;
                                 ul_params := one_time; ul_wrapped := w; ul_label := [] |}]) db)
                   else Err (VP_Invalid "wrapped_key")
               | None => Err (VP_Invalid "wrapped_key")
               end
             else Ok db in
  Ok (log_vault s now (RecoveryCompleted id) (Some (rc_user found)) db).

(** ** Requests, of a vault's owner and for a recovery *)

Inductive VaultCall :=
| V_add_unlock (new_id : Uuid) (input : NewUnlock)
| V_remove_unlock (id : Uuid)
| V_save_entry (id : Uuid) (input : EntryInput)
| V_delete_entry (id : Uuid)
| V_save_attachment (id : Uuid) (input : EntryInput)
| V_delete_attachment (id : Uuid)
| V_save_search (input : EntryInput)
| V_reset
| V_create_key (new_id : Uuid) (public : list Z) (k : FileKeyring) (draws : list SealDraw)
| V_delete_key (id : Uuid)
| V_create (new_id : Uuid) (input : NewRecovery)
| V_approve (id : Uuid)
| V_cancel (id : Uuid)
| V_vault (id : Uuid)
| V_complete (id new_id : Uuid) (wrapped : option (list Z)).

Definition vault_call (s : Session) (now : Z) (c : VaultCall) (seen db : PersonalDb) :
    result PersonalDb VaultProblem :=
  match c with
  | V_add_unlock new_id input => add_unlock s now new_id input db
  | V_remove_unlock id => remove_unlock s now id db
  | V_save_entry id input => save_entry s now id input db
  | V_delete_entry id => delete_entry s now id db
  | V_save_attachment id input => save_attachment s now id input db
  | V_delete_attachment id => delete_attachment s now id db
  | V_save_search input => save_search s input db
  | V_reset => Ok (reset_vault s now db)
  | V_create_key new_id public k draws => create_key s now new_id public k draws db
  | V_delete_key id => delete_key s now id db
  | V_create new_id input => create_recovery s now new_id input db
  | V_approve id => approve s now id seen db
  | V_cancel id => cancel_recovery s now id db
  | V_vault id => let? r := recovered_vault s now id seen db in Ok r.2
  | V_complete id new_id wrapped => complete_recovery s now id new_id wrapped seen db
  end.

End recovery.

(** ** Theorems *)

Section theorems.
Context `{UuidText, UuidParse, Base64, Ecdh, Aead}.

(** Keys the database generates are used by no row and named by no entry of the
    log. *)
Definition fresh_call (c : VaultCall) (db : PersonalDb) : Prop :=
  match c with
  | V_add_unlock i _ | V_complete _ i _ => forall u, u ∈ pd_unlocks db -> ul_id u <> i
  | V_create_key i _ _ _ => forall k, k ∈ eb_keys (pd_escrow db) -> rk_id k <> i
  | V_create i _ => (forall r, r ∈ pd_recoveries db -> rc_id r <> i)
                    /\ forall l, l ∈ pd_log db -> vl_action l <> RecoveryRequested i
  | _ => True
  end.

(** Two moments of one history, the first before the second or the same: a
    request sees the tables of an earlier moment and changes those of now. *)
Inductive before (db0 : PersonalDb) : PersonalDb -> PersonalDb -> Prop :=
| b_start : before db0 db0 db0
| b_keep x seen db db' s now c :
    before db0 x db -> before db0 seen db -> fresh_call c db -> vault_call s now c seen db = Ok db' ->
    before db0 x db'
| b_now seen db db' s now c :
    before db0 seen db -> fresh_call c db -> vault_call s now c seen db = Ok db' -> before db0 db' db'.

(** *** Two people for a recovery *)

Definition requested (r : RecoveryRow) (l : VaultLog) : Prop :=
  vl_action l = RecoveryRequested (rc_id r) /\ user_id (vl_by l) = rc_requester r
  /\ vl_user l = Some (rc_user r) /\ is_admin (vl_by l) = true.

Definition approved_by (r : RecoveryRow) (t : Z) (l : VaultLog) : Prop :=
  vl_action l = RecoveryApproved (rc_id r) /\ vl_at l = t /\ user_id (vl_by l) <> rc_requester r
  /\ vl_user l = Some (rc_user r) /\ has_role (vl_by l) SecurityOfficer = true.

Record told (db : PersonalDb) : Prop := {
  to_asked : forall r, r ∈ pd_recoveries db -> exists l, l ∈ pd_log db /\ requested r l;
  to_approved : forall r t, r ∈ pd_recoveries db -> rc_approved_at r = Some t ->
    exists l, l ∈ pd_log db /\ approved_by r t l;
  to_once : forall l l' i, l ∈ pd_log db -> l' ∈ pd_log db -> vl_action l = RecoveryRequested i ->
    vl_action l' = RecoveryRequested i -> l = l'
}.

(** A change that adds to the log, but no request, and takes rows or leaves
    them. *)
Lemma told_grows db db' l :
  told db -> pd_log db' = pd_log db ++ l ->
  (forall e i, e ∈ l -> vl_action e <> RecoveryRequested i) ->
  (forall r, r ∈ pd_recoveries db' -> exists r', r' ∈ pd_recoveries db /\ rc_id r' = rc_id r
     /\ rc_user r' = rc_user r /\ rc_requester r' = rc_requester r
     /\ (rc_approved_at r' = rc_approved_at r
         \/ exists t e, rc_approved_at r = Some t /\ e ∈ l /\ approved_by r t e)) ->
  told db'.
Proof.
  intros [Ha Hp Ho] Hl Hno Hrows. split.
  - intros r (r' & Hr & Hi & Hu & Hq & _)%Hrows. destruct (Ha r' Hr) as (e & He & Hreq). exists e.
    rewrite Hl. split; [set_solver|]. unfold requested in *. by rewrite <- Hi, <- Hu, <- Hq.
  - intros r t (r' & Hr & Hi & Hu & Hq & Happ)%Hrows Ht.
    destruct Happ as [Happ|(t' & e & Ht' & He & Hby)].
    + rewrite Ht in Happ. destruct (Hp r' t Hr Happ) as (e & He & Hby). exists e. rewrite Hl.
      split; [set_solver|]. unfold approved_by in *. by rewrite <- Hi, <- Hu, <- Hq.
    + exists e. rewrite Hl. simplify_eq. split; [set_solver|done].
  - intros e e' i. rewrite Hl, !elem_of_app. intros [He|He] [He'|He'] Hq Hq'; eauto; exfalso; by eapply Hno.
Qed.

Lemma told_same db db' l :
  told db -> pd_log db' = pd_log db ++ l -> (forall e i, e ∈ l -> vl_action e <> RecoveryRequested i) ->
  pd_recoveries db' = pd_recoveries db -> told db'.
Proof. intros Ht Hl Hno Hr. apply (told_grows db db' l Ht Hl Hno). rewrite Hr. intros r Hin. exists r. by split_and!; auto. Qed.

Lemma recovery_row_ok id db r : recovery_row id db = Ok r -> r ∈ pd_recoveries db /\ rc_id r = id.
Proof.
  unfold recovery_row. destruct (List.find _ _) as [x|] eqn:Hf; [|done]. intros [= <-].
  apply find_some in Hf as [Hin Hi]. bools. by apply list_elem_of_In in Hin.
Qed.

Lemma update_recovery_ok id open f l l' r :
  update_recovery id open f l = Some l' -> r ∈ l' ->
  r ∈ l \/ exists r', r' ∈ l /\ rc_id r' = id /\ open r' = true /\ r = f r'.
Proof.
  unfold update_recovery. destruct (existsb _ _); [|done]. intros [= <-] (r' & -> & Hr)%list_elem_of_fmap.
  destruct ((rc_id r' =? id) && open r') eqn:E; [|by left]. bools. right. by exists r'.
Qed.

Lemma escrow_only f db : told db -> told (on_escrow f db).
Proof. intros Ht. apply (told_same db _ []); [done|by rewrite app_nil_r|set_solver|done]. Qed.

Ltac one_entry := let e := fresh in let i := fresh in intros e i He%list_elem_of_singleton; subst e; simpl; discriminate.

Lemma told_step s now c seen db db' :
  told db -> told seen -> (forall l, l ∈ pd_log seen -> l ∈ pd_log db) -> fresh_call c db ->
  vault_call s now c seen db = Ok db' -> told db' /\ forall l, l ∈ pd_log db -> l ∈ pd_log db'.
Proof.
  intros Ht Hseen Hlog Hfresh Hc.
  assert (Hplain : forall a u x, told x -> pd_log x = pd_log db -> (forall i, a <> RecoveryRequested i) ->
    told (log_vault s now a u x) /\ forall l, l ∈ pd_log db -> l ∈ pd_log (log_vault s now a u x)).
  { intros a u x Hx Hl Ha. split; [|simpl; rewrite Hl; set_solver].
    eapply (told_same x); [done|done| |done]. intros e i He%list_elem_of_singleton. subst e. simpl. apply Ha. }
  assert (Hon : forall x, pd_log x = pd_log db -> pd_recoveries x = pd_recoveries db -> told x).
  { intros x Hl Hr. apply (told_same db x []); [done|by rewrite app_nil_r|set_solver|done]. }
  destruct c; simpl in Hc.
  - unfold add_unlock in Hc. inv_ok Hc. subst db'. destruct (bool_decide (nu_kind input = PASSKEY)); (apply Hplain; [by apply Hon|done|done]).
  - unfold remove_unlock in Hc. inv_ok Hc. subst db'. apply Hplain; [by apply Hon|done|done].
  - unfold save_entry in Hc. inv_ok Hc. subst db'. apply Hplain; [by apply Hon|done|done].
  - unfold delete_entry in Hc. inv_ok Hc. subst db'. apply Hplain; [by apply Hon|done|done].
  - unfold save_attachment in Hc. inv_ok Hc. subst db'. apply Hplain; [by apply Hon|done|done].
  - unfold delete_attachment in Hc. inv_ok Hc. subst db'. apply Hplain; [by apply Hon|done|done].
  - unfold save_search in Hc. inv_ok Hc. subst db'. split; [by apply Hon|done].
  - injection Hc as <-. apply Hplain; [by apply Hon|done|done].
  - unfold create_key in Hc. inv_ok Hc. subst db'.
    destruct (keep _ _ _) as [[o e]|]; [|apply Hplain; [by apply Hon|done|done]].
    destruct (Hplain (RecoveryKeyCreated new_id) None
      (on_escrow (fun e => {| eb_keys := eb_keys e ++ [{| rk_id := new_id; rk_public := public;
         rk_created_by := username s; rk_created_at := now |}]; eb_escrow := eb_escrow e |}) db)) as [Hp Hl];
      [by apply Hon|done|done|]. split; [by apply escrow_only|done].
  - unfold delete_key in Hc. inv_ok Hc. subst db'. apply Hplain; [by apply Hon|done|done].
  - unfold create_recovery in Hc. inv_ok Hc. subst db'. destruct Hfresh as [_ Hfresh].
    split; [|simpl; set_solver]. destruct Ht as [Ha Hp Ho]. split; simpl.
    + intros r [Hr| ->%list_elem_of_singleton]%elem_of_app.
      * destruct (Ha r Hr) as (l & Hl & Hreq). exists l. split; [set_solver|done].
      * eexists. split; [apply elem_of_app; right; by left|]. unfold requested. simpl.
        unfold require_admin in E. by destruct (is_admin s).
    + intros r t [Hr| ->%list_elem_of_singleton]%elem_of_app Happ; [|done].
      destruct (Hp r t Hr Happ) as (l & Hl & Hby). exists l. split; [set_solver|done].
    + intros l l' i [Hl| ->%list_elem_of_singleton]%elem_of_app [Hl'| ->%list_elem_of_singleton]%elem_of_app Hq Hq';
        [eauto| | |done]; simpl in *; simplify_eq; exfalso; by eapply Hfresh.
  - unfold approve in Hc. destruct (negb (has_role s SecurityOfficer)) eqn:Hrole; [done|]. inv_ok Hc. subst db'. bools.
    apply recovery_row_ok in E as [Hin Hid]. split; [|simpl; set_solver].
    eapply told_grows; [exact Ht|done| |].
    { intros e i He%list_elem_of_singleton. subst e. done. }
    simpl. intros r Hr. unfold ok_or in E1. destruct (update_recovery _ _ _ _) as [l'|] eqn:Hu; [|done].
    injection E1 as ->. destruct (update_recovery_ok _ _ _ _ _ _ Hu Hr) as [Hold|(r' & Hold & Hi & _ & ->)].
    + exists r. by split_and!; auto.
    + exists r'. split_and!; try done. right. exists now. eexists. split; [done|]. split; [by left|].
      destruct (to_asked _ Ht r' Hold) as (l1 & Hl1 & Hq1 & Hby1 & Hu1 & _).
      destruct (to_asked _ Hseen a Hin) as (l2 & Hl2 & Hq2 & Hby2 & Hu2 & _).
      rewrite Hi in Hq1. rewrite Hid in Hq2.
      assert (l1 = l2) as -> by (apply (to_once _ Ht l1 l2 id); auto).
      unfold approved_by. simpl. split_and!; [by rewrite Hi|done|congruence|congruence|done].
  - unfold cancel_recovery in Hc. inv_ok Hc. destruct (List.find _ _) as [r|] eqn:Hf; [|done]. injection Hc as <-.
    split; [|simpl; set_solver]. eapply told_grows; [exact Ht|done| |].
    { intros e i He%list_elem_of_singleton. subst e. done. }
    simpl. intros r' [_ Hr]%list_elem_of_filter. exists r'. by split_and!; auto.
  - inv_ok Hc. subst db'. unfold recovered_vault in E. inv_ok E. subst a. simpl. by apply Hplain.
  - unfold complete_recovery in Hc. inv_ok Hc. subst db'. rename a1 into x.
    assert (Hx : told x /\ pd_log x = pd_log db).
    { assert (Hr : told (on_recoveries (fun _ => a0) db)).
      { eapply (told_grows db _ []); [done|by rewrite app_nil_r|set_solver|]. simpl. intros r Hr.
        unfold ok_or in E0. destruct (update_recovery _ _ _ _) as [l'|] eqn:Hu; [|done]. injection E0 as ->.
        destruct (update_recovery_ok _ _ _ _ _ _ Hu Hr) as [Hold|(r' & Hold & Hi & _ & ->)]; [exists r; by split_and!; auto|].
        exists r'. simpl. by split_and!; auto. }
      case_bool_decide; [|by simplify_eq]. destruct wrapped as [w|]; [|done]. destruct (between 16 256 w); [|done].
      injection E1 as <-. split; [|done]. by apply (told_same (on_recoveries (fun _ => a0) db) _ []);
        [|rewrite app_nil_r|set_solver|]. }
    destruct Hx as [Hx Hl]. by apply Hplain.
Qed.

Lemma told_before db0 seen db :
  told db0 -> before db0 seen db -> told seen /\ told db /\ forall l, l ∈ pd_log seen -> l ∈ pd_log db.
Proof.
  intros Hstart. induction 1 as [|x seen db db' s now c Hx [Ix [_ Lx]] Hs [Is [Id Ls]] Hf Hc|seen db db' s now c Hs [Is [Id Ls]] Hf Hc].
  - done.
  - destruct (told_step s now c seen db db' Id Is Ls Hf Hc) as [Ht Hl]. auto.
  - destruct (told_step s now c seen db db' Id Is Ls Hf Hc) as [Ht Hl]. auto.
Qed.

(** C18: Nobody opens another's vault alone: whoever is handed the wrapped key or
    a file of a vault, or completes a recovery, asked for it as an
    administrator, and a security officer who is someone else approved that
    recovery less than a day before, whatever else happened and however the
    requests overlapped. *)
Theorem recovery_takes_two (s : Session) (now : Z) (id : Uuid) (db0 seen db : PersonalDb) :
  pd_recoveries db0 = [] -> pd_log db0 = [] -> before db0 seen db ->
  (is_ok (recovered_vault s now id seen db) = true
   \/ (exists file, is_ok (recovered_attachment s now id file seen db) = true)
   \/ exists new_id wrapped, is_ok (complete_recovery s now id new_id wrapped seen db) = true) ->
  exists asked approved owner,
    (asked ∈ pd_log db) /\ vl_action asked = RecoveryRequested id /\ user_id (vl_by asked) = user_id s
    /\ is_admin (vl_by asked) = true /\ vl_user asked = Some owner
    /\ (approved ∈ pd_log db) /\ vl_action approved = RecoveryApproved id /\ vl_user approved = Some owner
    /\ user_id (vl_by approved) <> user_id s /\ has_role (vl_by approved) SecurityOfficer = true
    /\ now - day < vl_at approved.
Proof.
  intros Hr Hl Hb Hopen.
  assert (Hstart : told db0) by (split; rewrite ?Hr, ?Hl; set_solver).
  destruct (told_before _ _ _ Hstart Hb) as (Hseen & _ & Hlog).
  assert (Hready : exists found, ready s now id seen = Ok found).
  { unfold recovered_vault, recovered_attachment, complete_recovery in Hopen.
    destruct (ready s now id seen); [eauto|]. by destruct Hopen as [|[[? ?]|(? & ? & ?)]]. }
  destruct Hready as [found Hf]. unfold ready in Hf. inv_ok Hf. subst a0. bools.
  apply recovery_row_ok in E0 as [Hin Hid].
  unfold status in E2. destruct (is_some (rc_completed_at found)); [done|].
  destruct (rc_approved_at found) as [t|] eqn:Happ; [|done]. destruct (now - day <? t) eqn:Hday; [|done]. bools.
  destruct (to_asked _ Hseen found Hin) as (asked & Ha & Hq & Hby & Hu & Hadmin).
  destruct (to_approved _ Hseen found t Hin Happ) as (appr & Hp & Hq' & Hat & Hne & Hu' & Hofficer).
  exists asked, appr, (rc_user found). rewrite Hid in Hq, Hq'. split_and!; auto; congruence || lia.
Qed.

(** *** Owners *)

Record personal_ok (db : PersonalDb) : Prop := {
  po_unlock_ids : NoDup (ul_id <$> pd_unlocks db);
  po_single : forall u v, u ∈ pd_unlocks db -> v ∈ pd_unlocks db -> ul_user u = ul_user v ->
    ul_kind u = ul_kind v -> ul_kind u <> PASSKEY -> u = v;
  po_kinds : forall u, u ∈ pd_unlocks db -> kind_ok (ul_kind u) = true;
  po_entries : NoDup (se_id <$> pd_entries db);
  po_attachments : NoDup (se_id <$> pd_attachments db);
  po_readable : forall e, e ∈ pd_entries db -> exists u, u ∈ pd_unlocks db /\ ul_user u = se_user e;
  po_recoveries : NoDup (rc_id <$> pd_recoveries db);
  po_open : forall r r', r ∈ pd_recoveries db -> r' ∈ pd_recoveries db -> rc_user r = rc_user r' ->
    rc_completed_at r = None -> rc_completed_at r' = None -> r = r';
  po_keys : NoDup (rk_id <$> eb_keys (pd_escrow db));
  po_escrow : forall i k v, is_Some (eb_escrow (pd_escrow db) !! (i, k, v)) ->
    exists key, key ∈ eb_keys (pd_escrow db) /\ rk_id key = i
}.

Lemma upsert_sealed_ok row l l' :
  NoDup (se_id <$> l) -> upsert_sealed row l = Some l' ->
  NoDup (se_id <$> l') /\ (forall e, e ∈ l' -> e = row \/ e ∈ l)
  /\ forall u, u <> se_user row -> filter (fun e => se_user e = u) l' = filter (fun e => se_user e = u) l.
Proof.
  unfold upsert_sealed. intros Hnd. destruct (List.find _ l) as [old|] eqn:Hf.
  - apply find_some in Hf as [Hin Hid]. bools. apply list_elem_of_In in Hin.
    destruct (se_user old =? se_user row) eqn:Hu; [|done]. intros [= <-]. bools. split_and!.
    + rewrite <- list_fmap_compose.
      rewrite (list_fmap_ext _ se_id); [done|]. intros _ e _. simpl. by destruct (se_id e =? se_id row) eqn:E; bools.
    + intros e (e' & -> & He)%list_elem_of_fmap. destruct (_ =? _); auto.
    + intros u Hne.
      assert (Hall : forall e, e ∈ l -> se_id e = se_id row -> se_user e = se_user row).
      { intros e He Heq. assert (e = old) as -> by (by eapply (NoDup_fmap_eq se_id l); eauto; congruence). done. }
      clear -Hne Hall. induction l as [|e l IH]; [done|]. rewrite fmap_cons, !filter_cons.
      destruct (se_id e =? se_id row) eqn:E; bools.
      * pose proof (Hall e ltac:(by left) E). rewrite decide_False, decide_False by congruence.
        apply IH. intros. apply Hall; [by right|done].
      * rewrite IH by (intros; apply Hall; [by right|done]). done.
  - intros [= <-]. split_and!.
    + apply NoDup_fmap_snoc; [done|]. intros e He Heq. apply list_elem_of_In in He.
      pose proof (List.find_none _ _ Hf e He) as Hn. simpl in Hn. bools. congruence.
    + intros e [He|He%list_elem_of_singleton]%elem_of_app; auto.
    + intros u Hne. rewrite filter_app, filter_cons, decide_False, filter_nil, app_nil_r by congruence. done.
Qed.

Lemma filter_others {A} (f : A -> Uuid) (P : A -> Prop) `{!forall x, Decision (P x)} (u : Uuid) (l : list A) :
  (forall x, x ∈ l -> f x = u -> P x) ->
  filter (fun x => f x = u) (filter P l) = filter (fun x => f x = u) l.
Proof.
  intros HP. induction l as [|x l IH]; [done|]. rewrite !(filter_cons _ x).
  assert (Hl : filter (fun x => f x = u) (filter P l) = filter (fun x => f x = u) l)
    by (apply IH; intros y Hy; apply HP; by right).
  destruct (decide (P x)); [rewrite filter_cons; by case_decide; rewrite Hl|].
  rewrite decide_False; [done|]. intros Hx. pose proof (HP x ltac:(by left) Hx). done.
Qed.

Definition sealed_of (u : Uuid) (l : list SealedRow) : list SealedRow := filter (fun e => se_user e = u) l.

(** What a user keeps in their vault. *)
Record same_contents (u : Uuid) (db db' : PersonalDb) : Prop := {
  sc_entries : sealed_of u (pd_entries db') = sealed_of u (pd_entries db);
  sc_attachments : sealed_of u (pd_attachments db') = sealed_of u (pd_attachments db);
  sc_search : pd_search db' !! u = pd_search db !! u
}.

Lemma delete_sealed_others user id l l' u :
  delete_sealed user id l = Some l' -> u <> user -> sealed_of u l' = sealed_of u l.
Proof.
  unfold delete_sealed. destruct (existsb _ _); [|done]. intros [= <-] Hne. unfold sealed_of.
  apply (filter_others se_user). intros e _ Hu [_ Hu']. congruence.
Qed.

Lemma find_mine s id db u :
  List.find (fun u => ul_id u =? id) (of_user (user_id s) db) = Some u ->
  u ∈ pd_unlocks db /\ ul_id u = id /\ ul_user u = user_id s.
Proof.
  intros [Hin Hid]%find_some. bools. by apply list_elem_of_In, list_elem_of_filter in Hin as [? ?].
Qed.

Lemma filter_true {A} (P : A -> Prop) `{!forall x, Decision (P x)} (l : list A) :
  (forall x, x ∈ l -> P x) -> filter P l = l.
Proof.
  intros HP. induction l as [|x l IH]; [done|]. rewrite filter_cons, decide_True by (apply HP; by left).
  f_equal. apply IH. intros. apply HP. by right.
Qed.

(** *** What a request does to the tables when it is granted *)

Definition new_row (s : Session) (i : Uuid) (input : NewUnlock) : UnlockRow :=
  {| ul_id := i; ul_user := user_id s; ul_kind := nu_kind input; ul_params := nu_params input;
     ul_wrapped := nu_wrapped input; ul_label := trim (nu_label input) |}.

(** The rows that stay beside a new one. *)
Definition stays (row u : UnlockRow) : Prop :=
  ul_kind row = PASSKEY \/ ~ (ul_user u = ul_user row /\ ul_kind u = ul_kind row).

#[local] Instance stays_dec row u : Decision (stays row u).
Proof. unfold stays. apply _. Defined.

Lemma add_unlock_ok s now i input db db' :
  add_unlock s now i input db = Ok db' ->
  kind_ok (nu_kind input) = true
  /\ db' = log_own s now (UnlockAdded i (nu_kind input))
             (on_unlocks (fun l => filter (stays (new_row s i input)) l ++ [new_row s i input]) db).
Proof.
  unfold add_unlock. intros Hc. inv_ok Hc. bools. split; [done|]. subst db'. f_equal.
  destruct (bool_decide (nu_kind input = PASSKEY)) eqn:Hp; bools; unfold on_unlocks; simpl; do 2 f_equal.
  - symmetry. apply filter_true. intros u _. by left.
  - apply list_filter_iff. intros u. unfold stays. simpl. tauto.
Qed.

Lemma remove_unlock_ok s now i db db' :
  NoDup (ul_id <$> pd_unlocks db) -> remove_unlock s now i db = Ok db' ->
  exists y z, y ∈ pd_unlocks db /\ ul_id y = i /\ ul_user y = user_id s /\ ul_kind y <> ORGANISATION
    /\ z ∈ pd_unlocks db /\ ul_id z <> i /\ ul_user z = user_id s /\ ul_kind z <> ORGANISATION
    /\ db' = log_own s now (UnlockRemoved i (ul_kind y)) (on_unlocks (filter (fun u => ul_id u <> i)) db).
Proof.
  intros Hnd Hc. unfold remove_unlock in Hc. destruct (List.find _ _) as [y|] eqn:Hf; [|done]. cbn [ok_or] in Hc.
  inv_ok Hc. bools. apply find_mine in Hf as (Hy & Hid & Hyu).
  set (own := filter (fun u => ul_kind u <> ORGANISATION) (of_user (user_id s) db)) in *.
  assert (Hn : NoDup (ul_id <$> own)) by (by apply NoDup_fmap_filter, NoDup_fmap_filter).
  assert (Hmine : y ∈ own) by (apply list_elem_of_filter; split; [done|by apply list_elem_of_filter]).
  assert (Hz : exists z, z ∈ own /\ ul_id z <> i).
  { destruct own as [|a [|b l]]; [set_solver|done|].
    rewrite !fmap_cons, !NoDup_cons in Hn. destruct Hn as [Ha _].
    destruct (decide (ul_id a = i)) as [Hai|]; [|exists a; split; [by left|done]].
    exists b. split; [by right; left|]. rewrite <- Hai. intros Hba. apply Ha. rewrite <- Hba. by left. }
  destruct Hz as (z & [Hzk [Hzu Hz]%list_elem_of_filter]%list_elem_of_filter & Hzi).
  exists y, z. by split_and!.
Qed.

Lemma complete_recovery_ok s now i new_id wrapped seen db db' :
  complete_recovery s now i new_id wrapped seen db = Ok db' ->
  exists found l, ready s now i seen = Ok found
    /\ update_recovery i (fun r => negb (is_some (rc_completed_at r))) (with_completed now) (pd_recoveries db) = Some l
    /\ ((rc_kind found <> PASSPHRASE
         /\ db' = log_vault s now (RecoveryCompleted i) (Some (rc_user found)) (on_recoveries (fun _ => l) db))
        \/ exists row, rc_kind found = PASSPHRASE /\ ul_id row = new_id /\ ul_user row = rc_user found
             /\ ul_kind row = RECOVERY
             /\ db' = log_vault s now (RecoveryCompleted i) (Some (rc_user found))
                        (on_unlocks (fun l => filter (stays row) l ++ [row]) (on_recoveries (fun _ => l) db))).
Proof.
  unfold complete_recovery. intros Hc. inv_ok Hc. exists a, a0. split; [done|].
  destruct (update_recovery _ _ _ _) as [l|]; [|done]. cbn [ok_or] in *. simplify_eq. split; [done|].
  case_bool_decide as Hk; [right|left; by simplify_eq]. destruct wrapped as [w|]; [|done].
  destruct (between 16 256 w); [|done]. simplify_eq.
  exists {| ul_id := new_id; ul_user := rc_user a; ul_kind := RECOVERY; ul_params := one_time; ul_wrapped := w;
            ul_label := [] |}. split_and!; [done..|]. unfold on_unlocks. simpl. do 3 f_equal.
  apply list_filter_iff. intros u. unfold stays. simpl. split; [tauto|]. by intros [|].
Qed.

(** The ways to unlock another user's vault change only when a recovery of a
    forgotten passphrase is completed. *)
Lemma unlocks_of_others s now c seen db db' u :
  NoDup (ul_id <$> pd_unlocks db) -> vault_call s now c seen db = Ok db' -> u <> user_id s ->
  of_user u db' = of_user u db
  \/ exists id new_id wrapped found row, c = V_complete id new_id wrapped /\ ready s now id seen = Ok found
       /\ rc_user found = u /\ rc_kind found = PASSPHRASE /\ ul_user row = u /\ ul_kind row = RECOVERY
       /\ of_user u db' = filter (fun x => ul_kind x <> RECOVERY) (of_user u db) ++ [row].
Proof.
  intros Hnd Hc Hne. destruct c; simpl in Hc.
  - apply add_unlock_ok in Hc as [_ ->]. left. unfold of_user. simpl.
    rewrite filter_app, filter_cons, decide_False, filter_nil, app_nil_r by (simpl; congruence).
    apply (filter_others ul_user). intros x _ Hx. unfold stays. simpl. right. intros [Hx' _]. congruence.
  - apply (remove_unlock_ok _ _ _ _ _ Hnd) in Hc as (y & _ & Hy & Hid & Hyu & _ & _ & _ & _ & _ & ->). left. simpl.
    apply (filter_others ul_user). intros x Hx Hxu Hxi. apply Hne. rewrite <- Hxu, <- Hyu. f_equal.
    eapply (NoDup_fmap_eq ul_id); eauto; congruence.
  - left. unfold save_entry in Hc. inv_ok Hc. by subst db'.
  - left. unfold delete_entry in Hc. inv_ok Hc. by subst db'.
  - left. unfold save_attachment in Hc. inv_ok Hc. by subst db'.
  - left. unfold delete_attachment in Hc. inv_ok Hc. by subst db'.
  - left. unfold save_search in Hc. inv_ok Hc. by subst db'.
  - left. injection Hc as <-. apply (filter_others ul_user). congruence.
  - left. unfold create_key in Hc. inv_ok Hc. subst db'. by destruct (keep _ _ _) as [[o e]|].
  - left. unfold delete_key in Hc. inv_ok Hc. by subst db'.
  - left. unfold create_recovery in Hc. inv_ok Hc. by subst db'.
  - left. unfold approve in Hc. destruct (negb _); [done|]. inv_ok Hc. by subst db'.
  - left. unfold cancel_recovery in Hc. inv_ok Hc. destruct (List.find _ _); [|done]. by injection Hc as <-.
  - left. inv_ok Hc. subst db'. unfold recovered_vault in E. inv_ok E. by subst a.
  - apply complete_recovery_ok in Hc as (found & l & Hr & _ & [[_ ->]|(row & Hk & _ & Hu & Hrk & ->)]); [by left|].
    destruct (decide (rc_user found = u)) as [Hfu|Hfu].
    + right. exists id, new_id, wrapped, found, row. split_and!; try done; [congruence|]. unfold of_user. simpl.
      rewrite filter_app, filter_cons, decide_True, filter_nil by congruence. f_equal.
      rewrite !list_filter_filter. apply list_filter_iff. intros x. unfold stays. rewrite Hu, Hrk, Hfu.
      split; [intros [? [?|?]]; [done|tauto]|tauto].
    + left. unfold of_user. simpl. rewrite filter_app, filter_cons, decide_False, filter_nil, app_nil_r by congruence.
      apply (filter_others ul_user). intros x _ Hx. right. intros [Hx' _]. congruence.
Qed.

Lemma upsert_others s id input l l' u :
  NoDup (se_id <$> l) -> ok_or (upsert_sealed (sealed_row s id input) l) VP_NotFound = Ok l' -> u <> user_id s ->
  sealed_of u l' = sealed_of u l.
Proof.
  intros Hnd Hu. destruct (upsert_sealed _ _) as [x|] eqn:E; [|done]. injection Hu as ->.
  apply (upsert_sealed_ok _ _ _ Hnd E).
Qed.

Lemma delete_others user id l l' u :
  ok_or (delete_sealed user id l) VP_NotFound = Ok l' -> u <> user -> sealed_of u l' = sealed_of u l.
Proof.
  intros Hd. destruct (delete_sealed _ _ _) as [x|] eqn:E; [|done]. injection Hd as ->. by eapply delete_sealed_others.
Qed.

(** C19: A vault is its owner's: no request of anyone else changes their entries,
    files or searches, and the ways to unlock it change only when a recovery
    of a forgotten passphrase, which its requester may carry out then, puts a
    one-time recovery key in place of the owner's. *)
Theorem owners_only (s : Session) (now : Z) (c : VaultCall) (seen db db' : PersonalDb) (u : Uuid) :
  personal_ok db -> vault_call s now c seen db = Ok db' -> u <> user_id s ->
  same_contents u db db'
  /\ (of_user u db' = of_user u db
      \/ exists id new_id wrapped found row, c = V_complete id new_id wrapped /\ ready s now id seen = Ok found
         /\ rc_user found = u /\ rc_kind found = PASSPHRASE /\ ul_user row = u /\ ul_kind row = RECOVERY
         /\ of_user u db' = filter (fun x => ul_kind x <> RECOVERY) (of_user u db) ++ [row]).
Proof.
  intros Hok Hc Hne. split; [|eapply unlocks_of_others; eauto; apply Hok]. destruct c; simpl in Hc.
  - by apply add_unlock_ok in Hc as [_ ->].
  - unfold remove_unlock in Hc. inv_ok Hc. by subst db'.
  - unfold save_entry in Hc. inv_ok Hc. subst db'. split; [|done..]. eapply upsert_others; eauto. apply Hok.
  - unfold delete_entry in Hc. inv_ok Hc. subst db'. split; [|done..]. by eapply delete_others.
  - unfold save_attachment in Hc. inv_ok Hc. subst db'. split; [done| |done]. eapply upsert_others; eauto. apply Hok.
  - unfold delete_attachment in Hc. inv_ok Hc. subst db'. split; [done| |done]. by eapply delete_others.
  - unfold save_search in Hc. inv_ok Hc. subst db'. split; [done..|]. simpl. by rewrite lookup_insert_ne.
  - injection Hc as <-. split; simpl; [apply (filter_others se_user)|apply (filter_others se_user)|]; [congruence..|].
    by rewrite lookup_delete_ne.
  - unfold create_key in Hc. inv_ok Hc. subst db'. by destruct (keep _ _ _) as [[o e]|].
  - unfold delete_key in Hc. inv_ok Hc. by subst db'.
  - unfold create_recovery in Hc. inv_ok Hc. by subst db'.
  - unfold approve in Hc. destruct (negb _); [done|]. inv_ok Hc. by subst db'.
  - unfold cancel_recovery in Hc. inv_ok Hc. destruct (List.find _ _); [|done]. by injection Hc as <-.
  - inv_ok Hc. subst db'. unfold recovered_vault in E. inv_ok E. by subst a.
  - by apply complete_recovery_ok in Hc as (found & l & _ & _ & [[_ ->]|(row & _ & _ & _ & _ & ->)]).
Qed.

(** A new row leaves each user a row like the ones they had. *)
Lemma after_new_row row l x :
  x ∈ l -> ul_kind x <> ORGANISATION \/ ul_kind row = ORGANISATION ->
  exists y, y ∈ filter (stays row) l ++ [row] /\ ul_user y = ul_user x
    /\ (ul_kind x <> ORGANISATION -> ul_kind y <> ORGANISATION).
Proof.
  intros Hx Hk. destruct (decide (stays row x)) as [Hs|Hs].
  - exists x. split; [|done]. apply elem_of_app. left. by apply list_elem_of_filter.
  - exists row. split; [apply elem_of_app; right; by left|]. unfold stays in Hs.
    destruct (decide (ul_user x = ul_user row /\ ul_kind x = ul_kind row)) as [[-> <-]|]; [done|tauto].
Qed.

(** A user with a way of their own to unlock their vault keeps one, whatever
    anyone asks for, unless they start over. *)
Theorem own_unlock_stays (s : Session) (now : Z) (c : VaultCall) (seen db db' : PersonalDb) (u : Uuid) :
  personal_ok db -> vault_call s now c seen db = Ok db' -> (c = V_reset -> u <> user_id s) ->
  (exists x, x ∈ of_user u db /\ ul_kind x <> ORGANISATION) ->
  exists x, x ∈ of_user u db' /\ ul_kind x <> ORGANISATION.
Proof.
  intros Hok Hc Hreset (x & Hx & Hxk). destruct (decide (u = user_id s)) as [->|Hne].
  2: { destruct (unlocks_of_others s now c seen db db' u (po_unlock_ids _ Hok) Hc Hne) as [->|Hrec]; [eauto|].
       destruct Hrec as (? & ? & ? & ? & row & _ & _ & _ & _ & Hu & Hk & ->). exists row.
       split; [apply elem_of_app; right; by left|by rewrite Hk]. }
  apply list_elem_of_filter in Hx as [Hxu Hx].
  assert (Hstay : pd_unlocks db' = pd_unlocks db -> exists x, x ∈ of_user (user_id s) db' /\ ul_kind x <> ORGANISATION).
  { intros Heq. exists x. split; [|done]. apply list_elem_of_filter. by rewrite Heq. }
  destruct c; simpl in Hc.
  - apply add_unlock_ok in Hc as [_ ->]. destruct (after_new_row (new_row s new_id input) _ x Hx) as (y & Hy & Hyu & Hyk); [by left|].
    exists y. split; [|auto]. apply list_elem_of_filter. split; [congruence|exact Hy].
  - apply (remove_unlock_ok _ _ _ _ _ (po_unlock_ids _ Hok)) in Hc as (y & z & _ & _ & _ & _ & Hz & Hzi & Hzu & Hzk & ->).
    exists z. split; [|done]. apply list_elem_of_filter. split; [done|]. by apply list_elem_of_filter.
  - unfold save_entry in Hc. inv_ok Hc. subst db'. by apply Hstay.
  - unfold delete_entry in Hc. inv_ok Hc. subst db'. by apply Hstay.
  - unfold save_attachment in Hc. inv_ok Hc. subst db'. by apply Hstay.
  - unfold delete_attachment in Hc. inv_ok Hc. subst db'. by apply Hstay.
  - unfold save_search in Hc. inv_ok Hc. subst db'. by apply Hstay.
  - by destruct (Hreset eq_refl).
  - unfold create_key in Hc. inv_ok Hc. subst db'. apply Hstay. by destruct (keep _ _ _) as [[o e]|].
  - unfold delete_key in Hc. inv_ok Hc. subst db'. by apply Hstay.
  - unfold create_recovery in Hc. inv_ok Hc. subst db'. by apply Hstay.
  - unfold approve in Hc. destruct (negb _); [done|]. inv_ok Hc. subst db'. by apply Hstay.
  - unfold cancel_recovery in Hc. inv_ok Hc. destruct (List.find _ _); [|done]. injection Hc as <-. by apply Hstay.
  - inv_ok Hc. subst db'. unfold recovered_vault in E. inv_ok E. subst a. by apply Hstay.
  - apply complete_recovery_ok in Hc as (found & l & _ & _ & [[_ ->]|(row & _ & _ & Hu & Hrk & ->)]); [by apply Hstay|].
    destruct (after_new_row row _ x Hx) as (y & Hy & Hyu & Hyk); [by left|].
    exists y. split; [|auto]. apply list_elem_of_filter. split; [congruence|exact Hy].
Qed.

(** *** The tables in order *)

Lemma new_row_ok (row : UnlockRow) (now_ : PersonalDb) :
  personal_ok now_ -> (forall u, u ∈ pd_unlocks now_ -> ul_id u <> ul_id row) -> kind_ok (ul_kind row) = true ->
  personal_ok (on_unlocks (fun l => filter (stays row) l ++ [row]) now_).
Proof.
  intros [Hids Hsingle Hkinds Hents Hatts Hread Hrecs Hopen Hkeys Hesc] Hfresh Hk. split; simpl; try done.
  - apply NoDup_fmap_snoc; [by apply NoDup_fmap_filter|]. intros u [_ Hu]%list_elem_of_filter Heq. by apply (Hfresh u).
  - intros u v [[Hku Hu]%list_elem_of_filter| ->%list_elem_of_singleton]%elem_of_app
      [[Hkv Hv]%list_elem_of_filter| ->%list_elem_of_singleton]%elem_of_app Huser Hkind Hp; [auto| | |done].
    + exfalso. destruct Hku as [Hku|Hku]; [congruence|]. by apply Hku.
    + exfalso. destruct Hkv as [Hkv|Hkv]; [congruence|]. by apply Hkv.
  - intros u [[_ Hu]%list_elem_of_filter| ->%list_elem_of_singleton]%elem_of_app; [auto|done].
  - intros e He. destruct (Hread e He) as (u & Hu & Huser). destruct (decide (stays row u)) as [Hs|Hs].
    + exists u. split; [|done]. apply elem_of_app. left. by apply list_elem_of_filter.
    + exists row. split; [apply elem_of_app; right; by left|]. unfold stays in Hs.
      destruct (decide (ul_user u = ul_user row)); [congruence|tauto].
Qed.

Lemma logged_ok s now a u db : personal_ok db -> personal_ok (log_vault s now a u db).
Proof. intros []. by split. Qed.

Lemma update_recovery_ids id open f l l' :
  (forall r, rc_id (f r) = rc_id r /\ rc_user (f r) = rc_user r) ->
  update_recovery id open f l = Some l' ->
  rc_id <$> l' = rc_id <$> l
  /\ ((forall r, rc_completed_at (f r) = None -> rc_completed_at r = None) ->
      (forall r r', r ∈ l -> r' ∈ l -> rc_user r = rc_user r' -> rc_completed_at r = None ->
         rc_completed_at r' = None -> r = r') ->
      forall r r', r ∈ l' -> r' ∈ l' -> rc_user r = rc_user r' -> rc_completed_at r = None ->
         rc_completed_at r' = None -> r = r').
Proof.
  intros Hf. unfold update_recovery. destruct (existsb _ _); [|done]. intros [= <-]. split.
  - rewrite <- list_fmap_compose. apply list_fmap_ext. intros _ r _. simpl. destruct (_ && _); [apply Hf|done].
  - intros Hnone Hl r r' (x & -> & Hx)%list_elem_of_fmap (y & -> & Hy)%list_elem_of_fmap.
    set (g := fun r => if (rc_id r =? id) && open r then f r else r).
    change (rc_user (g x) = rc_user (g y) -> rc_completed_at (g x) = None -> rc_completed_at (g y) = None -> g x = g y).
    assert (Hg : forall r, rc_user (g r) = rc_user r /\ (rc_completed_at (g r) = None -> rc_completed_at r = None)).
    { intros z. subst g. simpl. destruct (_ && _); [split; [apply Hf|apply Hnone]|done]. }
    destruct (Hg x) as [-> Hcx], (Hg y) as [-> Hcy]. intros Hu H1' H2'. f_equal. auto.
Qed.

Lemma keep_all_same_keys k key all draws n db o db' :
  keep_all k key all draws n db = Some (o, db') -> eb_keys db' = eb_keys db.
Proof.
  revert draws n db. induction all as [|[kek v] all IH]; intros draws n db; simpl; [by intros [= <- <-]|].
  destruct (keys k !! v); [|by intros [= <- <-]]. case_bool_decide; [|by intros [= <- <-]].
  destruct draws as [|d draws]; [done|]. destruct (seal_for _ _ _ _ _) as [[e|]|]; [|by intros [= <- <-]|done].
  destruct (eb_escrow db !! _); intros Hk; apply IH in Hk; done.
Qed.

Lemma keep_all_keys k key all draws n db o db' :
  keep_all k key all draws n db = Some (o, db') -> key ∈ eb_keys db ->
  (forall i kek v, is_Some (eb_escrow db !! (i, kek, v)) -> exists x, x ∈ eb_keys db /\ rk_id x = i) ->
  eb_keys db' = eb_keys db
  /\ forall i kek v, is_Some (eb_escrow db' !! (i, kek, v)) -> exists x, x ∈ eb_keys db' /\ rk_id x = i.
Proof.
  revert draws n db. induction all as [|[kek v] all IH]; intros draws n db; simpl; [by intros [= <- <-]|].
  destruct (keys k !! v); [|by intros [= <- <-]]. case_bool_decide; [|by intros [= <- <-]].
  destruct draws as [|d draws]; [done|]. destruct (seal_for _ _ _ _ _) as [[e|]|]; [|by intros [= <- <-]|done].
  destruct (eb_escrow db !! _) as [old|] eqn:Hold; intros Hk Hin Hrows; [by eapply IH|].
  apply IH in Hk; [done|done|]. simpl. intros i kek' v'. rewrite lookup_insert_is_Some.
  intros [[= <- <- <-]|[_ Hs]]; eauto.
Qed.

Lemma delete_sealed_sub user id l l' :
  delete_sealed user id l = Some l' -> NoDup (se_id <$> l) -> NoDup (se_id <$> l') /\ forall e, e ∈ l' -> e ∈ l.
Proof.
  unfold delete_sealed. destruct (existsb _ _); [|done]. intros [= <-] Hnd.
  split; [by apply NoDup_fmap_filter|]. by intros e [_ He]%list_elem_of_filter.
Qed.

Lemma entries_ok l db :
  personal_ok db -> NoDup (se_id <$> l) ->
  (forall e, e ∈ l -> e ∈ pd_entries db \/ exists u, u ∈ pd_unlocks db /\ ul_user u = se_user e) ->
  personal_ok (on_entries (fun _ => l) db).
Proof. intros [] Hn Hl. split; simpl; try done. intros e [?|?]%Hl; auto. Qed.

Lemma attachments_ok l db : personal_ok db -> NoDup (se_id <$> l) -> personal_ok (on_attachments (fun _ => l) db).
Proof. intros [] Hn. by split. Qed.

Lemma recoveries_ok l db :
  personal_ok db -> NoDup (rc_id <$> l) ->
  (forall r r', r ∈ l -> r' ∈ l -> rc_user r = rc_user r' -> rc_completed_at r = None -> rc_completed_at r' = None -> r = r') ->
  personal_ok (on_recoveries (fun _ => l) db).
Proof. intros [] Hn Ho. by split. Qed.

Lemma escrow_ok e db :
  personal_ok db -> NoDup (rk_id <$> eb_keys e) ->
  (forall i k v, is_Some (eb_escrow e !! (i, k, v)) -> exists key, key ∈ eb_keys e /\ rk_id key = i) ->
  personal_ok (on_escrow (fun _ => e) db).
Proof. intros [] Hn Hk. by split. Qed.

Lemma removed_unlock_ok s now i db db' : personal_ok db -> remove_unlock s now i db = Ok db' -> personal_ok db'.
Proof.
  intros [Hids Hsingle Hkinds Hents Hatts Hread Hrecs Hopen Hkeys Hesc] Hc.
  apply remove_unlock_ok in Hc as (y & z & Hy & Hyi & Hyu & _ & Hz & Hzi & Hzu & _ & ->); [|done].
  apply logged_ok. split; simpl; try done.
  - by apply NoDup_fmap_filter.
  - intros u v [_ Hu]%list_elem_of_filter [_ Hv]%list_elem_of_filter. auto.
  - intros u [_ Hu]%list_elem_of_filter. auto.
  - intros e He. destruct (Hread e He) as (u & Hu & Huser). destruct (decide (ul_id u = i)) as [Hi|Hi].
    + assert (u = y) as -> by (eapply (NoDup_fmap_eq ul_id); eauto; congruence). exists z.
      split; [by apply list_elem_of_filter|congruence].
    + exists u. split; [by apply list_elem_of_filter|done].
Qed.

Lemma reset_vault_ok s now db : personal_ok db -> personal_ok (reset_vault s now db).
Proof.
  intros [Hids Hsingle Hkinds Hents Hatts Hread Hrecs Hopen Hkeys Hesc]. apply logged_ok.
  split; simpl; try done; try (by apply NoDup_fmap_filter).
  - intros u v [_ Hu]%list_elem_of_filter [_ Hv]%list_elem_of_filter. auto.
  - intros u [_ Hu]%list_elem_of_filter. auto.
  - intros e [Hne He]%list_elem_of_filter. destruct (Hread e He) as (u & Hu & Huser).
    exists u. split; [|done]. apply list_elem_of_filter. split; [congruence|done].
Qed.

Lemma created_key_ok s now i public k draws db db' :
  personal_ok db -> (forall x, x ∈ eb_keys (pd_escrow db) -> rk_id x <> i) ->
  create_key s now i public k draws db = Ok db' -> personal_ok db'.
Proof.
  intros Hok Hf Hc. unfold create_key in Hc. inv_ok Hc.
  set (row := {| rk_id := i; rk_public := public; rk_created_by := username s; rk_created_at := now |}) in *.
  set (esc := {| eb_keys := eb_keys (pd_escrow db) ++ [row]; eb_escrow := eb_escrow (pd_escrow db) |}).
  set (x := log_vault _ _ _ _ _) in Hc. simpl pd_escrow in Hc. fold esc in Hc.
  assert (Hnd : NoDup (rk_id <$> eb_keys esc)).
  { apply NoDup_fmap_snoc; [apply Hok|]. intros y Hy Heq. by apply (Hf y). }
  assert (Hrows : forall j kek v, is_Some (eb_escrow esc !! (j, kek, v)) -> exists y, y ∈ eb_keys esc /\ rk_id y = j).
  { intros j kek v (y & Hy & Hj)%(po_escrow _ Hok). exists y. split; [set_solver|done]. }
  assert (Hx : personal_ok x) by (apply logged_ok, (escrow_ok esc); [apply Hok|done..]).
  destruct (keep k draws esc) as [[o esc']|] eqn:Hk; [|by rewrite <- Hc].
  assert (Hk' : eb_keys esc' = eb_keys esc
    /\ forall j kek v, is_Some (eb_escrow esc' !! (j, kek, v)) -> exists y, y ∈ eb_keys esc' /\ rk_id y = j).
  { unfold keep in Hk. destruct (newest_key (eb_keys esc)) as [key|] eqn:Hn; [|by simplify_eq].
    eapply keep_all_keys; eauto. by apply newest_key_elem. }
  destruct Hk' as [Hkk Hke]. subst db'. apply escrow_ok; [done|by rewrite Hkk|done].
Qed.

Lemma deleted_key_ok s now i db db' : personal_ok db -> delete_key s now i db = Ok db' -> personal_ok db'.
Proof.
  intros Hok Hc. unfold delete_key in Hc. inv_ok Hc. subst db'. apply logged_ok, (escrow_ok _ _ Hok); simpl.
  - apply NoDup_fmap_filter, Hok.
  - intros j kek v [x Hs]. apply map_lookup_filter_Some in Hs as [Hs Hne].
    destruct (po_escrow _ Hok j kek v ltac:(by eexists)) as (y & Hy & Hj). exists y.
    split; [|done]. apply list_elem_of_filter. split; [|done]. rewrite Hj. exact Hne.
Qed.

Lemma created_recovery_ok s now i input db db' :
  personal_ok db -> (forall r, r ∈ pd_recoveries db -> rc_id r <> i) ->
  create_recovery s now i input db = Ok db' -> personal_ok db'.
Proof.
  intros Hok Hf Hc. unfold create_recovery in Hc. inv_ok Hc. subst db'. apply logged_ok, (recoveries_ok _ _ Hok).
  - apply NoDup_fmap_snoc; [apply Hok|]. intros r Hr Heq. by apply (Hf r).
  - assert (Hno : forall r, r ∈ pd_recoveries db -> rc_user r = nr_user input -> rc_completed_at r = None -> False).
    { intros r Hr Hu Hn. pose proof (existsb_false _ _ r E3 Hr) as Hx. simpl in Hx. rewrite Hn, Hu, Z.eqb_refl in Hx. done. }
    intros r r' [Hr| ->%list_elem_of_singleton]%elem_of_app [Hr'| ->%list_elem_of_singleton]%elem_of_app Hu Hn Hn';
      [by eapply po_open| | |done]; exfalso; simpl in *; eauto.
Qed.

Lemma updated_recoveries_ok i open f l db :
  personal_ok db -> (forall r, rc_id (f r) = rc_id r /\ rc_user (f r) = rc_user r) ->
  (forall r, rc_completed_at (f r) = None -> rc_completed_at r = None) ->
  update_recovery i open f (pd_recoveries db) = Some l -> personal_ok (on_recoveries (fun _ => l) db).
Proof.
  intros Hok Hf Hn Hu. apply update_recovery_ids in Hu as [Hi Ho]; [|done]. apply recoveries_ok; [done| |].
  - rewrite Hi. apply Hok.
  - apply Ho; [done|apply Hok].
Qed.

Lemma personal_step (s : Session) (now : Z) (c : VaultCall) (seen db db' : PersonalDb) :
  personal_ok db -> fresh_call c db -> vault_call s now c seen db = Ok db' -> personal_ok db'.
Proof.
  intros Hok Hf Hc. destruct c; simpl in Hc, Hf.
  - apply add_unlock_ok in Hc as [Hk ->]. by apply logged_ok, new_row_ok.
  - by eapply removed_unlock_ok.
  - unfold save_entry in Hc. inv_ok Hc. bools. subst db'. apply logged_ok.
    destruct (upsert_sealed _ _) as [x|] eqn:Hup; [|done]. injection E1 as ->.
    apply upsert_sealed_ok in Hup as (Hn & Hin & _); [|apply Hok]. apply entries_ok; [done..|].
    intros e [->|He]%Hin; [right|by left]. destruct (of_user (user_id s) db) as [|u l] eqn:Hu; [done|].
    assert (Hm : u ∈ of_user (user_id s) db) by (rewrite Hu; by left). apply list_elem_of_filter in Hm as [? ?]. eauto.
  - unfold delete_entry in Hc. inv_ok Hc. subst db'. apply logged_ok.
    destruct (delete_sealed _ _ _) as [x|] eqn:Hd; [|done]. injection E as ->.
    apply delete_sealed_sub in Hd as [Hn Hin]; [|apply Hok]. apply entries_ok; auto.
  - unfold save_attachment in Hc. inv_ok Hc. subst db'. apply logged_ok.
    destruct (upsert_sealed _ _) as [x|] eqn:Hup; [|done]. injection E0 as ->.
    apply upsert_sealed_ok in Hup as (Hn & _); [|apply Hok]. by apply attachments_ok.
  - unfold delete_attachment in Hc. inv_ok Hc. subst db'. apply logged_ok.
    destruct (delete_sealed _ _ _) as [x|] eqn:Hd; [|done]. injection E as ->.
    apply delete_sealed_sub in Hd as [Hn _]; [|apply Hok]. by apply attachments_ok.
  - unfold save_search in Hc. inv_ok Hc. subst db'. destruct Hok. by split.
  - injection Hc as <-. by apply reset_vault_ok.
  - by eapply created_key_ok.
  - by eapply deleted_key_ok.
  - destruct Hf. by eapply created_recovery_ok.
  - unfold approve in Hc. destruct (negb _); [done|]. inv_ok Hc. subst db'. apply logged_ok.
    destruct (update_recovery _ _ _ _) as [x|] eqn:Hu; [|done]. injection E1 as ->.
    eapply updated_recoveries_ok; [exact Hok| | |exact Hu]; done.
  - unfold cancel_recovery in Hc. inv_ok Hc. destruct (List.find _ _); [|done]. injection Hc as <-.
    apply logged_ok, (recoveries_ok _ _ Hok); [apply NoDup_fmap_filter, Hok|].
    intros x x' [_ Hx]%list_elem_of_filter [_ Hx']%list_elem_of_filter. by apply Hok.
  - inv_ok Hc. subst db'. unfold recovered_vault in E. inv_ok E. subst a. by apply logged_ok.
  - apply complete_recovery_ok in Hc as (found & l & _ & Hu & Hcase).
    assert (Hr : personal_ok (on_recoveries (fun _ => l) db)) by (eapply updated_recoveries_ok; [exact Hok| | |exact Hu]; done).
    destruct Hcase as [[_ ->]|(row & _ & Hi & _ & Hk & ->)]; [by apply logged_ok|].
    apply logged_ok, new_row_ok; [done| |by rewrite Hk]. simpl. by rewrite Hi.
Qed.

(** Whatever is asked for and however requests overlap, the tables stay in
    order: everyone has at most one passphrase, recovery key and wrap for the
    organisation, an entry only while its owner has a way to unlock it, a vault
    at most one open recovery, and a master key is kept only for a recovery key
    that is there. *)
Theorem vault_stays_in_order (db0 seen db : PersonalDb) :
  personal_ok db0 -> before db0 seen db -> personal_ok db.
Proof.
  intros Hok Hb. assert (personal_ok seen /\ personal_ok db) as [_ ?]; [|done].
  induction Hb as [|x seen db db' s now c Hx [Ix _] Hs [Is Id] Hf Hc|seen db db' s now c Hs [Is Id] Hf Hc].
  - done.
  - split; [done|by eapply personal_step].
  - split; by eapply personal_step.
Qed.

(** *** A covered vault can be recovered *)

(** Every wrap for the organisation names a key that is there, by its text. *)
Definition wraps_known (db : PersonalDb) : Prop :=
  forall u, u ∈ pd_unlocks db -> ul_kind u = ORGANISATION ->
    exists k, k ∈ eb_keys (pd_escrow db) /\ pa_key_id (ul_params u) = Some (uuid_text (rk_id k)).

(** The browser names the key by the text the server gave it. *)
Definition names_as_given (c : VaultCall) : Prop :=
  match c with
  | V_add_unlock _ input => forall t i, pa_key_id (nu_params input) = Some t -> uuid_parse t = Some i -> t = uuid_text i
  | _ => True
  end.

Lemma checked_wrap p db :
  (forall t i, pa_key_id p = Some t -> uuid_parse t = Some i -> t = uuid_text i) -> check_organisation p db = Ok tt ->
  exists k, k ∈ eb_keys (pd_escrow db) /\ pa_key_id p = Some (uuid_text (rk_id k)).
Proof.
  intros Ht Hc. unfold check_organisation in Hc. destruct (organisation_key db) as [k|] eqn:Hk; [|done].
  apply newest_key_elem in Hk. destruct (pa_key_id p) as [t|] eqn:Hp; [|done]. simpl in Hc.
  destruct (uuid_parse t) as [i|] eqn:Hi; [|done]. destruct (bool_decide (Some i = Some (rk_id k))) eqn:E; [|done].
  bools. simplify_eq. exists k. split; [done|]. f_equal. auto.
Qed.

Lemma wraps_known_sub db db' :
  wraps_known db -> (forall u, u ∈ pd_unlocks db' -> ul_kind u = ORGANISATION -> u ∈ pd_unlocks db) ->
  (forall k, k ∈ eb_keys (pd_escrow db) -> k ∈ eb_keys (pd_escrow db')) -> wraps_known db'.
Proof. intros Hw Hu Hk u Hin Ho. destruct (Hw u (Hu u Hin Ho) Ho) as (k & Hkin & Hp). exists k. auto. Qed.

Lemma wraps_known_step s now c seen db db' :
  wraps_known db -> names_as_given c -> vault_call s now c seen db = Ok db' -> wraps_known db'.
Proof.
  intros Hw Hn Hc. destruct c; simpl in Hc.
  - pose proof Hc as Hc'. apply add_unlock_ok in Hc as [_ ->]. unfold add_unlock in Hc'. inv_ok Hc'. bools.
    intros u [[_ Hu]%list_elem_of_filter| ->%list_elem_of_singleton]%elem_of_app Ho; [by apply Hw|]. simpl in *.
    rewrite bool_decide_eq_true_2 in E3 by done. by eapply checked_wrap.
  - unfold remove_unlock in Hc. inv_ok Hc. subst db'. apply (wraps_known_sub db); [done| |done]. simpl. by intros u [_ Hu]%list_elem_of_filter _.
  - unfold save_entry in Hc. inv_ok Hc. by subst db'.
  - unfold delete_entry in Hc. inv_ok Hc. by subst db'.
  - unfold save_attachment in Hc. inv_ok Hc. by subst db'.
  - unfold delete_attachment in Hc. inv_ok Hc. by subst db'.
  - unfold save_search in Hc. inv_ok Hc. by subst db'.
  - injection Hc as <-. apply (wraps_known_sub db); [done| |done]. simpl. by intros u [_ Hu]%list_elem_of_filter _.
  - unfold create_key in Hc. inv_ok Hc. subst db'.
    destruct (keep _ _ _) as [[o e]|] eqn:Hk; apply (wraps_known_sub db); simpl; try done; [|set_solver].
    intros x Hx. unfold keep in Hk. simpl in Hk. destruct (newest_key _) as [key|]; [|by simplify_eq; set_solver].
    apply keep_all_same_keys in Hk. rewrite Hk. simpl. set_solver.
  - unfold delete_key in Hc. inv_ok Hc. bools. subst db'. intros u Hu Ho. destruct (Hw u Hu Ho) as (x & Hx & Hp).
    exists x. split; [|done]. apply list_elem_of_filter. split; [|done]. intros Hi.
    assert (Hin : u ∈ wraps_for id db) by (apply list_elem_of_filter; rewrite <- Hi; done).
    match goal with E : wraps_for id db = [] |- _ => rewrite E in Hin end. by apply not_elem_of_nil in Hin.
  - unfold create_recovery in Hc. inv_ok Hc. by subst db'.
  - unfold approve in Hc. destruct (negb _); [done|]. inv_ok Hc. by subst db'.
  - unfold cancel_recovery in Hc. inv_ok Hc. destruct (List.find _ _); [|done]. by injection Hc as <-.
  - inv_ok Hc. subst db'. unfold recovered_vault in E. inv_ok E. by subst a.
  - apply complete_recovery_ok in Hc as (found & l & _ & _ & [[_ ->]|(row & _ & _ & _ & Hk & ->)]); [done|].
    apply (wraps_known_sub db); [done| |done]. simpl.
    intros u [[_ Hu]%list_elem_of_filter| ->%list_elem_of_singleton]%elem_of_app Ho; [done|rewrite Hk in Ho; discriminate Ho].
Qed.

(** C40: The organisation can come back to every vault that is wrapped for it: as
    long as browsers name the recovery key as the server does, whatever was
    asked for before, keys deleted included, who carries out an approved
    recovery of a covered vault is handed a wrap of that vault's owner with the
    public half of the key it names, and only an uncovered vault is refused. *)
Theorem covered_vault_opens (s s' : Session) (now now' : Z) (c : VaultCall) (id : Uuid)
    (seen db db' seen' : PersonalDb) (found : RecoveryRow) :
  wraps_known db -> names_as_given c -> vault_call s now c seen db = Ok db' ->
  ready s' now' id seen' = Ok found ->
  wraps_known db'
  /\ if covered (rc_user found) db' then
       exists u k entries db'', recovered_vault s' now' id seen' db' = Ok (u, rk_public k, entries, db'')
         /\ u ∈ pd_unlocks db' /\ ul_user u = rc_user found /\ ul_kind u = ORGANISATION
         /\ k ∈ eb_keys (pd_escrow db') /\ pa_key_id (ul_params u) = Some (uuid_text (rk_id k))
         /\ entries = sealed_of (rc_user found) (pd_entries db')
     else recovered_vault s' now' id seen' db' = Err VP_VaultNotCovered.
Proof.
  intros Hw Hn Hc Hr. pose proof (wraps_known_step _ _ _ _ _ _ Hw Hn Hc) as Hw'. split; [done|].
  unfold recovered_vault. rewrite Hr. cbn [ok_or].
  match goal with |- context [omap ?f _] => set (pick := f) end. destruct (head (omap pick (pd_unlocks db'))) as [[u p]|] eqn:Hh.
  - assert (Hin : (u, p) ∈ omap pick (pd_unlocks db')).
    { destruct (omap pick _) as [|x l]; [done|]. injection Hh as ->. by left. }
    apply list_elem_of_omap in Hin as (u' & Hu & Hp). subst pick. simpl in Hp.
    destruct ((ul_user u' =? rc_user found) && bool_decide (ul_kind u' = ORGANISATION)) eqn:Hb; [|done].
    destruct (List.find _ _) as [k|] eqn:Hk; [|done]. simpl in Hp. injection Hp as -> <-. bools.
    apply find_some in Hk as [Hk Hname]. bools. apply list_elem_of_In in Hk.
    assert (Hcov : covered (rc_user found) db' = true).
    { apply existsb_exists. exists u. split; [by apply list_elem_of_In|]. rewrite bool_decide_eq_true_2 by done. lia. }
    rewrite Hcov. by exists u, k, (sealed_of (rc_user found) (pd_entries db')), (log_vault s' now' (RecoveryOpened id) (Some (rc_user found)) db').
  - destruct (covered (rc_user found) db') eqn:Hcov; [|done]. exfalso.
    apply existsb_exists in Hcov as (u & Hu & Hb). bools. apply list_elem_of_In in Hu.
    match goal with E : ul_kind u = ORGANISATION |- _ => destruct (Hw' u Hu E) as (k & Hk & Hp) end.
    destruct (omap pick (pd_unlocks db')) as [|x l] eqn:Ho; [|done].
    assert (Hsome : exists y, pick u = Some y).
    { subst pick. simpl. rewrite bool_decide_eq_true_2 by done.
      match goal with E : ul_user u = _ |- _ => rewrite E end. rewrite Z.eqb_refl. simpl.
      destruct (List.find _ _) as [k'|] eqn:Hf; [by eexists|].
      assert (Hno : bool_decide (pa_key_id (ul_params u) = Some (uuid_text (rk_id k))) = false)
        by (apply (List.find_none _ _ Hf); by apply list_elem_of_In).
      by rewrite bool_decide_eq_true_2 in Hno. }
    destruct Hsome as [y Hy]. assert (Hin : y ∈ omap pick (pd_unlocks db')) by (apply list_elem_of_omap; eauto).
    rewrite Ho in Hin. by apply not_elem_of_nil in Hin.
Qed.

End theorems.

Module RecoveryExamples.

#[local] Instance decimal_uuid : UuidText := decimal.
#[local] Instance uuid_decimal : UuidParse := parse_unsigned (2 ^ 128 - 1).
#[local] Existing Instance VaultExamples.plain_aead.
#[local] Existing Instance VaultExamples.plain_base64.
#[local] Existing Instance EscrowExamples.plain_ecdh.

Definition user (i : Uuid) (n : string) (held : list (list Z)) : Session :=
  {| token_hash := []; session_id := 0; client := lit "web"; user_id := i; username := lit n;
     display_name := lit n; kind := lit "local"; sid := None; upn := None; s_group_sids := [];
     identity_id := Some i; memberships := []; roles := held; locked := false; confirmed := false |}.

Definition alice : Session := user 1 "alice" [].
Definition boss : Session := user 2 "boss" [lit "administrator"].
Definition officer : Session := user 3 "officer" [lit "security_officer"].

Definition point1 : list Z := 7 :: replicate 64 0.
Definition wrap_for (name : list Z) : NewUnlock :=
  {| nu_kind := ORGANISATION;
     nu_params := {| pa_object := true; pa_length := 90; pa_key_id := Some name; pa_ephemeral := Some (b64_encode point1) |};
     nu_wrapped := replicate 48 1; nu_label := [] |}.
Definition phrase : NewUnlock :=
  {| nu_kind := PASSPHRASE;
     nu_params := {| pa_object := true; pa_length := 40; pa_key_id := None; pa_ephemeral := None |};
     nu_wrapped := replicate 48 1; nu_label := lit " mine " |}.
Definition secret : EntryInput := {| ei_nonce := replicate 12 0; ei_ciphertext := replicate 30 2 |}.

Definition empty_db : PersonalDb :=
  {| pd_unlocks := []; pd_entries := []; pd_attachments := []; pd_search := ∅;
     pd_escrow := {| eb_keys := []; eb_escrow := ∅ |}; pd_recoveries := []; pd_log := [] |}.

Definition calls : list (Session * Z * VaultCall) :=
  [(boss, 10, V_create_key 5 point1 VaultExamples.ring1 [EscrowExamples.draw]);
   (alice, 20, V_add_unlock 11 phrase);
   (alice, 21, V_add_unlock 12 (wrap_for (uuid_text 5)));
   (alice, 22, V_save_entry 31 secret);
   (boss, 30, V_create 41 {| nr_user := 1; nr_kind := PASSPHRASE; nr_reason := lit "forgotten" |});
   (officer, 40, V_approve 41)].

Definition step (db : PersonalDb) (x : Session * Z * VaultCall) : PersonalDb :=
  match vault_call x.1.1 x.1.2 x.2 db db with Ok db' => db' | Err _ => db end.

Definition after (n : nat) : PersonalDb := foldl step empty_db (take n calls).
Definition approved : PersonalDb := after 6.

Definition completed : PersonalDb := step approved (boss, 50, V_complete 41 13 (Some (replicate 48 3))).

Definition fresh_b (c : VaultCall) (db : PersonalDb) : bool :=
  match c with
  | V_add_unlock i _ | V_complete _ i _ => forallb (fun u => negb (ul_id u =? i)) (pd_unlocks db)
  | V_create_key i _ _ _ => forallb (fun k => negb (rk_id k =? i)) (eb_keys (pd_escrow db))
  | V_create i _ =>
      forallb (fun r => negb (rc_id r =? i)) (pd_recoveries db)
      && forallb (fun l => match vl_action l with RecoveryRequested j => negb (j =? i) | _ => true end) (pd_log db)
  | _ => true
  end.

Lemma fresh_b_ok c db : fresh_b c db = true -> fresh_call c db.
Proof.
  unfold fresh_b, fresh_call. destruct c; try done; rewrite ?andb_true_iff, !forallb_forall; try (intros Hf x Hx; bools).
  - apply list_elem_of_In, Hf in Hx. by bools.
  - apply list_elem_of_In, Hf in Hx. by bools.
  - intros [Hr Hl]. split.
    + intros r Hx%list_elem_of_In%Hr. by bools.
    + intros l Hx%list_elem_of_In%Hl Ha. rewrite Ha in Hx. bools. done.
  - apply list_elem_of_In, Hf in Hx. by bools.
Qed.

Lemma before_step seen db s now c :
  before empty_db seen db -> fresh_b c db = true -> is_ok (vault_call s now c seen db) = true ->
  exists db', vault_call s now c seen db = Ok db' /\ before empty_db db' db'.
Proof.
  intros Hb Hf Hc. destruct (vault_call s now c seen db) as [db'|] eqn:E; [|done]. exists db'. split; [done|].
  eapply b_now; [done|by apply fresh_b_ok|done].
Qed.

Lemma before_calls l db :
  before empty_db db db ->
  (forall n x, l !! n = Some x -> let d := foldl step db (take n l) in
     fresh_b x.2 d && is_ok (vault_call x.1.1 x.1.2 x.2 d d) = true) ->
  before empty_db (foldl step db l) (foldl step db l).
Proof.
  revert db. induction l as [|x l IH]; intros db Hb Hl; [done|]. simpl. apply IH.
  - pose proof (Hl 0%nat x eq_refl) as Hx. simpl in Hx. bools.
    destruct (before_step db db x.1.1 x.1.2 x.2) as (db' & E & Hb'); [done..|]. unfold step. by rewrite E.
  - intros n y Hn. exact (Hl (S n) y Hn).
Qed.

Lemma before_approved : before empty_db approved approved.
Proof.
  apply before_calls; [constructor|]. intros n x Hx. do 6 (destruct n as [|n]; [injection Hx as <-; vm_compute; reflexivity|]).
  discriminate Hx.
Qed.

Lemma recovery_takes_two_witness :
  is_ok (recovered_vault boss 50 41 approved approved) = true
  /\ exists asked appr owner,
    (asked ∈ pd_log approved) /\ vl_action asked = RecoveryRequested 41 /\ user_id (vl_by asked) = user_id boss
    /\ is_admin (vl_by asked) = true /\ vl_user asked = Some owner
    /\ (appr ∈ pd_log approved) /\ vl_action appr = RecoveryApproved 41 /\ vl_user appr = Some owner
    /\ user_id (vl_by appr) <> user_id boss /\ has_role (vl_by appr) SecurityOfficer = true
    /\ 50 - day < vl_at appr.
Proof.
  split; [vm_compute; reflexivity|].
  apply (recovery_takes_two boss 50 41 empty_db approved approved eq_refl eq_refl before_approved).
  left. vm_compute. reflexivity.
Defined.

Lemma empty_ok : personal_ok empty_db.
Proof.
  split; simpl; try apply NoDup_nil_2; try (by intros ? ?%elem_of_nil); try (by intros ? ? ?%elem_of_nil).
  intros i k v. by rewrite lookup_empty, is_Some_alt.
Qed.

Lemma steps_ok l db :
  personal_ok db ->
  (forall n x, l !! n = Some x -> let d := foldl step db (take n l) in fresh_b x.2 d = true) ->
  personal_ok (foldl step db l).
Proof.
  revert db. induction l as [|x l IH]; intros db Hb Hl; [done|]. simpl. apply IH.
  - pose proof (Hl 0%nat x eq_refl) as Hx. unfold step. destruct (vault_call _ _ _ _ _) as [db'|] eqn:E; [|done].
    eapply personal_step; [done|by apply fresh_b_ok|done].
  - intros n y Hn. exact (Hl (S n) y Hn).
Qed.

Lemma approved_ok : personal_ok approved.
Proof.
  apply steps_ok; [exact empty_ok|]. intros n x Hx. do 6 (destruct n as [|n]; [injection Hx as <-; vm_compute; reflexivity|]).
  discriminate Hx.
Qed.

Lemma completed_call : vault_call boss 50 (V_complete 41 13 (Some (replicate 48 3))) approved approved = Ok completed.
Proof. vm_compute. reflexivity. Qed.

Lemma vault_stays_in_order_witness : personal_ok approved.
Proof. exact (vault_stays_in_order empty_db approved approved empty_ok before_approved). Defined.

Lemma owners_only_witness :
  same_contents 1 approved completed
  /\ (of_user 1 completed = of_user 1 approved
      \/ exists id new_id wrapped found row, V_complete 41 13 (Some (replicate 48 3)) = V_complete id new_id wrapped
         /\ ready boss 50 id approved = Ok found
         /\ rc_user found = 1 /\ rc_kind found = PASSPHRASE /\ ul_user row = 1 /\ ul_kind row = RECOVERY
         /\ of_user 1 completed = filter (fun x => ul_kind x <> RECOVERY) (of_user 1 approved) ++ [row]).
Proof. exact (owners_only boss 50 _ approved approved completed 1 approved_ok completed_call ltac:(discriminate)). Defined.

Definition no_phrase : PersonalDb := step completed (alice, 60, V_remove_unlock 11).

Lemma completed_ok : personal_ok completed.
Proof. refine (personal_step boss 50 _ approved approved completed approved_ok _ completed_call). apply fresh_b_ok. vm_compute. reflexivity. Qed.

Lemma own_unlock_stays_witness : exists x, x ∈ of_user 1 no_phrase /\ ul_kind x <> ORGANISATION.
Proof.
  apply (own_unlock_stays alice 60 (V_remove_unlock 11) completed completed no_phrase 1 completed_ok).
  - vm_compute. reflexivity.
  - discriminate.
  - exists {| ul_id := 11; ul_user := 1; ul_kind := PASSPHRASE; ul_params := nu_params phrase;
              ul_wrapped := replicate 48 1; ul_label := lit "mine" |}.
    split; [vm_compute; left|discriminate].
Defined.

(** With the passphrase gone, the recovery key is the last way and stays. *)
Example last_unlock : remove_unlock alice 70 13 no_phrase = Err VP_LastUnlock.
Proof. vm_compute. reflexivity. Qed.

Lemma covered_vault_opens_witness :
  wraps_known approved
  /\ exists u k entries db'', recovered_vault boss 50 41 approved approved = Ok (u, rk_public k, entries, db'')
       /\ u ∈ pd_unlocks approved /\ ul_user u = 1 /\ ul_kind u = ORGANISATION
       /\ k ∈ eb_keys (pd_escrow approved) /\ pa_key_id (ul_params u) = Some (uuid_text (rk_id k))
       /\ entries = sealed_of 1 (pd_entries approved).
Proof.
  refine (covered_vault_opens officer boss 40 50 (V_approve 41) 41 (after 5) (after 5) approved approved
    {| rc_id := 41; rc_user := 1; rc_kind := PASSPHRASE; rc_reason := lit "forgotten"; rc_requester := 2;
       rc_approved_at := Some 40; rc_completed_at := None; rc_created_at := 30 |} _ I _ _).
  - intros u Hu Ho. exists {| rk_id := 5; rk_public := point1; rk_created_by := lit "boss"; rk_created_at := 10 |}.
    vm_compute in Hu. split; [left|].
    apply elem_of_cons in Hu as [->|Hu]; [discriminate Ho|].
    apply elem_of_cons in Hu as [->|Hu]; [reflexivity|by apply elem_of_nil in Hu].
  - vm_compute. reflexivity.
  - vm_compute. reflexivity.
Defined.

(** A wrap that spells the key's id differently is accepted, but counts for no
    key: the vault looks covered and cannot be recovered. *)
Definition other_spelling : PersonalDb :=
  foldl step empty_db
    [(boss, 10, V_create_key 5 point1 VaultExamples.ring1 [EscrowExamples.draw]);
     (alice, 20, V_add_unlock 11 phrase);
     (alice, 21, V_add_unlock 12 (wrap_for (lit "05")));
     (boss, 30, V_create 41 {| nr_user := 1; nr_kind := PASSPHRASE; nr_reason := lit "forgotten" |});
     (officer, 40, V_approve 41)].

Example spelled_otherwise :
  covered 1 other_spelling = true /\ wraps_for 5 other_spelling = []
  /\ recovered_vault boss 50 41 other_spelling other_spelling = Err VP_VaultNotCovered.
Proof. vm_compute. split_and!; reflexivity. Qed.

Example own_request : approve (user 2 "boss" [lit "administrator"; lit "security_officer"]) 40 41 (after 5) (after 5) = Err VP_OwnRequest.
Proof. vm_compute. reflexivity. Qed.

Example too_late : ready boss (40 + day) 41 approved = Err VP_RecoveryNotReady.
Proof. vm_compute. reflexivity. Qed.

End RecoveryExamples.
