(* ===== verification/Fields.v ===== *)
(** * What an entry of the vault has (crates/server/src/api/fields.rs, catalog.rs)

    The custom fields of a credential, plain ones stored with it and
    protected ones sealed, and the other details a user enters: each checked
    before anything is stored. The calendar belongs to the crate [time]: a
    parameter. *)
From Stdlib Require Import Sorted.
From S2P Require Import Prelude Text Utf8 Inventory Sid Totp Model Session AccessRequests Store.
From S2P Require Import Folders.

Definition MAX_FIELDS : Z := 50.
Definition MAX_NAME : Z := 100.
Definition MAX_VALUE : Z := 10000.

(** ** Custom fields *)

Record FieldInput := {
  fi_name : list Z;
  fi_protected : bool;
  fi_value : option (list Z)
}.

Record Field := {
  fd_name : list Z;
  fd_protected : bool;
  fd_value : option (list Z)
}.

Record Checked := {
  stored : list Field;
  sealed : list (list Z * list Z);
  kept : list (list Z)
}.

(** Where a protected field's value is sealed. *)
Definition secret_name (name : str) : list Z := lit "field:" ++ name.

Definition text (value : str) (limit : Z) : bool :=
  (Z.of_nat (length value) <=? limit)
  && negb (existsb (fun c => is_control c && negb (c =? 10)) value).

(** The loop of [check] over the fields. *)
Fixpoint check_fields (input : list FieldInput) (checked : Checked) : result Checked ApiProblem :=
  match input with
  | [] => Ok checked
  | field :: input =>
      let name := trim (fi_name field) in
      let duplicate := existsb (fun f => bool_decide (fd_name f = name)) (stored checked) in
      if bool_decide (name = []) || bool_decide (10 ∈ name) || negb (text name MAX_NAME) || duplicate
      then Err (AP_Invalid "fields")
      else if is_some_and (fun v => negb (text v MAX_VALUE)) (fi_value field)
      then Err (AP_Invalid "fields")
      else
        check_fields input
          {| stored := stored checked
               ++ [{| fd_name := name; fd_protected := fi_protected field;
                      fd_value := if fi_protected field then None
                                  else Some (default [] (fi_value field)) |}];
             sealed := sealed checked
               ++ match fi_protected field, fi_value field with
                  | true, Some value => [(name, value)]
                  | _, _ => []
                  end;
             kept := kept checked
               ++ match fi_protected field, fi_value field with
                  | true, None => [name]
                  | _, _ => []
                  end |}
  end.

Definition check (input : list FieldInput) : result Checked ApiProblem :=
  if MAX_FIELDS <? Z.of_nat (length input) then Err (AP_Invalid "fields")
  else check_fields input {| stored := []; sealed := []; kept := [] |}.

(** The names of the protected fields; [sort] puts them in order. *)
Definition protected_names (fields : list Field) : list (list Z) :=
  fd_name <$> filter (fun f => fd_protected f = true) fields.

Definition changes_secrets (self : Checked) (before : list Field) : bool :=
  negb (bool_decide (sealed self = []))
  || negb (bool_decide (sort_by_key id (protected_names (stored self))
                        = sort_by_key id (protected_names before))).

Definition keeps_only_what_was (self : Checked) (before : list Field) : bool :=
  forallb (fun name => existsb (fun f => fd_protected f && bool_decide (fd_name f = name)) before)
    (kept self).

(** ** The other details *)

(** [time::Date::from_calendar_date]: whether year, month and day name a day. *)
Class Calendar := calendar_date : Z -> Z -> Z -> bool.

(** A day is one of at most 31 of its month. *)
Class CalendarOk `{Calendar} : Prop :=
  calendar_day_of_month : forall y m d, calendar_date y m d = true -> 1 <= d <= 31.

(** [str::splitn(3, '-')], for as many parts as there are. *)
Definition splitn3 (s : str) : list (list Z) :=
  match split_once 45 s with
  | None => [s]
  | Some (a, rest) =>
      match split_once 45 rest with
      | None => [a; rest]
      | Some (b, c) => [a; b; c]
      end
  end.

Section details.
Context `{Calendar} `{Base32}.

Definition calendar_day (t : str) : option (list Z) :=
  match splitn3 t with
  | y :: rest =>
      match parse_signed i32_max y with
      | None => None
      | Some year =>
          if negb ((1 <=? year) && (year <=? 9999)) then None
          else
            match rest with
            | [m; d] =>
                match parse_unsigned u8_max m, parse_unsigned u8_max d with
                | Some month, Some day =>
                    if (1 <=? month) && (month <=? 12) && calendar_date year month day
                    then Some (zero_padded 4 year ++ lit "-" ++ zero_padded 2 month ++ lit "-"
                               ++ zero_padded 2 day)
                    else None
                | _, _ => None
                end
            | _ => None
            end
      end
  | [] => None
  end.

(** What a user enters for a credential, without its name, user name and
    password. *)
Record DetailsInput := {
  di_url : list Z;
  di_notes : list Z;
  di_icon : Z;
  di_fields : list FieldInput;
  di_tags : list (list Z);
  di_expires_on : option (list Z)
}.

Record Details := {
  dt_url : list Z;
  dt_notes : list Z;
  dt_icon : Z;
  dt_fields : Checked;
  dt_tags : list (list Z);
  dt_expires_on : option (list Z)
}.

(** The loop over the tags; one known already is not taken again. *)
Fixpoint check_tags (input known : list (list Z)) : result (list (list Z)) ApiProblem :=
  match input with
  | [] => Ok known
  | tag :: input =>
      let tag := trim tag in
      if bool_decide (tag = []) || (50 <? Z.of_nat (length tag)) || existsb is_control tag
      then Err (AP_Invalid "tags")
      else if existsb (fun k => eq_ignore_ascii_case k tag) known then check_tags input known
      else check_tags input (known ++ [tag])
  end.

Definition check_expiry (day : option (list Z)) : result (option (list Z)) ApiProblem :=
  match trim <$> day with
  | None | Some [] => Ok None
  | Some day =>
      match calendar_day day with
      | Some day => Ok (Some day)
      | None => Err (AP_Invalid "expires_on")
      end
  end.

Definition check_details (i : DetailsInput) : result Details ApiProblem :=
  let url := trim (di_url i) in
  if (2000 <? Z.of_nat (length url)) || existsb is_control url then Err (AP_Invalid "url") else
  let notes := trim_end_by is_whitespace (di_notes i) in
  if (10000 <? Z.of_nat (length notes)) || existsb (fun c => is_control c && negb (c =? 10)) notes
  then Err (AP_Invalid "notes") else
  if negb ((0 <=? di_icon i) && (di_icon i <=? 68)) then Err (AP_Invalid "icon") else
  let? tags := check_tags (di_tags i) [] in
  if 20 <? Z.of_nat (length tags) then Err (AP_Invalid "tags") else
  let? expires_on := check_expiry (di_expires_on i) in
  let? fields := check (di_fields i) in
  Ok {| dt_url := url; dt_notes := notes; dt_icon := di_icon i; dt_fields := fields;
        dt_tags := tags; dt_expires_on := expires_on |}.

(** A one-time password as given: [None] keeps the sealed one, [Some None]
    removes it. *)
Definition totp_input (totp : option (list Z)) : result (option (option (list Z))) ApiProblem :=
  match totp with
  | None => Ok None
  | Some t =>
      if bool_decide (trim t = []) then Ok (Some None)
      else match params_parse t with
           | None => Err (AP_Invalid "totp")
           | Some _ => Ok (Some (Some (trim t)))
           end
  end.

End details.

(** ** What the checks let through *)

Definition stored_of (f : FieldInput) : Field :=
  {| fd_name := trim (fi_name f); fd_protected := fi_protected f;
     fd_value := if fi_protected f then None else Some (default [] (fi_value f)) |}.

Definition sealed_of (f : FieldInput) : option (list Z * list Z) :=
  if fi_protected f then (fun v => (trim (fi_name f), v)) <$> fi_value f else None.

Definition kept_of (f : FieldInput) : option (list Z) :=
  if fi_protected f && negb (is_some (fi_value f)) then Some (trim (fi_name f)) else None.

(** What a field has to be by itself. *)
Definition field_ok (f : FieldInput) : Prop :=
  trim (fi_name f) <> [] /\ (10 ∉ trim (fi_name f)) /\ text (trim (fi_name f)) MAX_NAME = true
  /\ forall v, fi_value f = Some v -> text v MAX_VALUE = true.

Lemma field_ok_iff f :
  (bool_decide (trim (fi_name f) = []) || bool_decide (10 ∈ trim (fi_name f))
     || negb (text (trim (fi_name f)) MAX_NAME) = false
   /\ is_some_and (fun v => negb (text v MAX_VALUE)) (fi_value f) = false) <-> field_ok f.
Proof.
  unfold field_ok. rewrite !orb_false_iff, !bool_decide_eq_false, negb_false_iff.
  destruct (fi_value f) as [v|]; simpl; [rewrite negb_false_iff|]; naive_solver.
Qed.

Lemma check_fields_iff input acc c :
  check_fields input acc = Ok c <->
  Forall field_ok input
  /\ NoDup ((fun f => trim (fi_name f)) <$> input)
  /\ (forall f, f ∈ input -> trim (fi_name f) ∉ fd_name <$> stored acc)
  /\ c = {| stored := stored acc ++ (stored_of <$> input);
            sealed := sealed acc ++ omap sealed_of input;
            kept := kept acc ++ omap kept_of input |}.
Proof.
  revert acc. induction input as [|f input IH]; intros acc; cbn [check_fields].
  { simpl. rewrite !app_nil_r. split; [intros [= <-]|intros (_ & _ & _ & ->)]; [|by destruct acc].
    split_and!; [done|constructor|by intros f ?%elem_of_nil|by destruct acc]. }
  rewrite orb_comm, <- orb_assoc.
  set (dup := existsb _ (stored acc)).
  assert (Hdup : dup = false <-> trim (fi_name f) ∉ fd_name <$> stored acc).
  { subst dup. rewrite existsb_Forall, Forall_forall, list_elem_of_fmap.
    setoid_rewrite bool_decide_eq_false. naive_solver. }
  destruct dup; simpl.
  { split; [done|]. intros (_ & _ & Hd & _). exfalso.
    by assert (true = false) by (apply Hdup, Hd; left). }
  pose proof (proj1 Hdup eq_refl) as Hf. clear Hdup.
  rewrite orb_assoc. pose proof (field_ok_iff f) as Hok.
  destruct (_ || negb (text _ MAX_NAME)).
  { split; [done|]. rewrite Forall_cons. intros ((?%Hok & _) & _). naive_solver. }
  destruct (is_some_and _ (fi_value f)).
  { split; [done|]. rewrite Forall_cons. intros ((?%Hok & _) & _). naive_solver. }
  rewrite IH. cbn [stored sealed kept]. rewrite Forall_cons. cbn [fmap list_fmap]. rewrite NoDup_cons.
  setoid_rewrite fmap_app. setoid_rewrite elem_of_app. setoid_rewrite list_elem_of_singleton.
  assert (Heq : {| stored := (stored acc ++ [stored_of f]) ++ (stored_of <$> input);
              sealed := (sealed acc ++ match fi_protected f, fi_value f with
                                       | true, Some value => [(trim (fi_name f), value)]
                                       | _, _ => [] end) ++ omap sealed_of input;
              kept := (kept acc ++ match fi_protected f, fi_value f with
                                   | true, None => [trim (fi_name f)] | _, _ => [] end)
                      ++ omap kept_of input |}
          = {| stored := stored acc ++ (stored_of <$> (f :: input));
               sealed := sealed acc ++ omap sealed_of (f :: input);
               kept := kept acc ++ omap kept_of (f :: input) |}).
  { rewrite <- !app_assoc. cbn [omap list_omap fmap list_fmap]. unfold sealed_of at 2, kept_of at 2.
    by destruct (fi_protected f), (fi_value f). }
  unfold stored_of at 1 in Heq. rewrite Heq.
  split.
  - intros (Hall & Hnd & Hn & ->). split_and!; [by apply Hok|done| |done| |done].
    + intros (g & Hg & Hin)%list_elem_of_fmap. apply (Hn g Hin). right. by symmetry.
    + intros g [->|Hin]%elem_of_cons; [done|]. intros Hs. apply (Hn g Hin). by left.
  - intros ([_ Hall] & [Hnin Hnd] & Hn & ->). split_and!; [done|done| |done].
    intros g Hin [Hs|Hs]; [apply (Hn g); [by right|done]|]. apply Hnin.
    apply list_elem_of_fmap. exists g. by split.
Qed.

(** The fields of an entry are taken exactly when there are at most fifty,
    each name is non-empty, on one line, short and used once, and each value
    is short and readable; then a protected field is stored without its value,
    its value is to be sealed if it is given and to be kept if not, and a plain
    one is stored as it is. *)
Theorem check_iff (input : list FieldInput) (c : Checked) :
  check input = Ok c <->
  Z.of_nat (length input) <= MAX_FIELDS
  /\ Forall field_ok input
  /\ NoDup ((fun f => trim (fi_name f)) <$> input)
  /\ c = {| stored := stored_of <$> input; sealed := omap sealed_of input;
            kept := omap kept_of input |}.
Proof.
  unfold check. destruct (MAX_FIELDS <? Z.of_nat (length input)) eqn:E; bools; [split; [done|lia]|].
  rewrite check_fields_iff. simpl. set_solver.
Qed.

Lemma str_leb_antisym a b : str_leb a b = true -> str_leb b a = true -> a = b.
Proof.
  revert b. induction a as [|x a IH]; intros [|y b]; simpl; try done.
  rewrite !orb_true_iff, !andb_true_iff, !Z.ltb_lt, !Z.eqb_eq.
  intros [?|[-> Hab]] [?|[? Hba]]; try lia. f_equal. by apply IH.
Qed.

Lemma ordered_perm_eq (l k : list (list Z)) : ordered id l -> ordered id k -> l ≡ₚ k -> l = k.
Proof.
  revert k. induction l as [|x l IH]; intros k Hl Hk Hp; [by apply Permutation_nil_l in Hp|].
  destruct k as [|y k]; [by symmetry in Hp; apply Permutation_nil_cons in Hp|].
  apply StronglySorted_inv in Hl as [Hl Hx]. apply StronglySorted_inv in Hk as [Hk Hy].
  rewrite Forall_forall in Hx, Hy.
  assert (x = y) as ->.
  { assert (Hxin : x ∈ y :: k) by (rewrite <- Hp; left).
    assert (Hyin : y ∈ x :: l) by (rewrite Hp; left).
    apply elem_of_cons in Hxin as [->|Hxin]; [done|]. apply elem_of_cons in Hyin as [->|Hyin]; [done|].
    apply str_leb_antisym; [by apply Hx|by apply Hy]. }
  f_equal. apply IH; [done|done|]. by apply Permutation_cons_inv in Hp.
Qed.

Lemma sort_eq_perm (l k : list (list Z)) : sort_by_key id l = sort_by_key id k <-> l ≡ₚ k.
Proof.
  split.
  - intros He. by rewrite <- (sort_by_key_perm id l), He, sort_by_key_perm.
  - intros Hp. apply ordered_perm_eq; [apply sort_by_key_ordered..|].
    by rewrite !sort_by_key_perm.
Qed.

(** A change leaves the sealed fields as they are exactly when it gives no new
    value and protects the same fields as before. *)
Lemma changes_secrets_false self before :
  changes_secrets self before = false <->
  sealed self = [] /\ protected_names (stored self) ≡ₚ protected_names before.
Proof.
  unfold changes_secrets.
  rewrite orb_false_iff, !negb_false_iff, !bool_decide_eq_true. by rewrite sort_eq_perm.
Qed.

Lemma protected_names_elem fields n :
  n ∈ protected_names fields <-> exists f, f ∈ fields /\ fd_protected f = true /\ fd_name f = n.
Proof.
  unfold protected_names. rewrite list_elem_of_fmap. setoid_rewrite list_elem_of_filter. naive_solver.
Qed.

Lemma keeps_only_what_was_true self before :
  keeps_only_what_was self before = true <-> kept self ⊆ protected_names before.
Proof.
  unfold keeps_only_what_was. rewrite forallb_Forall, Forall_forall.
  setoid_rewrite existsb_exists. unfold subseteq, list_subseteq.
  setoid_rewrite protected_names_elem. setoid_rewrite list_elem_of_In.
  setoid_rewrite andb_true_iff. setoid_rewrite bool_decide_eq_true. naive_solver.
Qed.

Lemma elem_of_sealed (input : list FieldInput) n v :
  (n, v) ∈ omap sealed_of input <->
  exists f, f ∈ input /\ fi_protected f = true /\ trim (fi_name f) = n /\ fi_value f = Some v.
Proof.
  rewrite list_elem_of_omap. unfold sealed_of. split.
  - intros (f & Hf & Hs). exists f. destruct (fi_protected f), (fi_value f); simplify_eq/=; done.
  - intros (f & Hf & Hp & <- & Hv). exists f. by rewrite Hp, Hv.
Qed.

Lemma elem_of_kept (input : list FieldInput) n :
  n ∈ omap kept_of input <->
  exists f, f ∈ input /\ fi_protected f = true /\ trim (fi_name f) = n /\ fi_value f = None.
Proof.
  rewrite list_elem_of_omap. unfold kept_of. split.
  - intros (f & Hf & Hs). exists f. destruct (fi_protected f), (fi_value f); simplify_eq/=; done.
  - intros (f & Hf & Hp & <- & Hv). exists f. by rewrite Hp, Hv.
Qed.

(** What a checked list says about its protected fields. *)
Record checked_ok (c : Checked) : Prop := {
  names_once : NoDup (fd_name <$> stored c);
  protected_split : forall n, n ∈ protected_names (stored c) <-> n ∈ kept c \/ n ∈ (sealed c).*1;
  sealed_once : NoDup ((sealed c).*1);
  kept_once : NoDup (kept c);
  kept_apart : forall n, n ∈ kept c -> n ∉ (sealed c).*1;
  no_plain_secret : Forall (fun f => fd_protected f = true -> fd_value f = None) (stored c)
}.

Lemma omap_names {A} (f : FieldInput -> option A) (g : A -> list Z) input :
  (forall x a, f x = Some a -> g a = trim (fi_name x)) ->
  NoDup ((fun f => trim (fi_name f)) <$> input) -> NoDup (g <$> omap f input).
Proof.
  intros Hfg Hnd. eapply sublist_NoDup; [exact Hnd|]. clear Hnd.
  induction input as [|x l IH]; [constructor|]. simpl. destruct (f x) as [a|] eqn:Hx; simpl.
  - rewrite (Hfg x a Hx). by constructor.
  - by constructor.
Qed.

Lemma check_checked_ok input c : check input = Ok c -> checked_ok c.
Proof.
  intros (_ & _ & Hnd & ->)%check_iff. split; simpl.
  - rewrite <- list_fmap_compose. exact Hnd.
  - intros n. rewrite protected_names_elem, elem_of_kept, list_elem_of_fmap. setoid_rewrite list_elem_of_fmap.
    split.
    + intros (? & (f & -> & Hf) & Hp & <-). simpl in *. destruct (fi_value f) as [v|] eqn:Hv; [right|left; eauto].
      exists (trim (fi_name f), v). split; [done|]. apply elem_of_sealed. eauto.
    + intros [(f & Hf & Hp & <- & _)|([m v] & -> & (f & Hf & Hp & <- & _)%elem_of_sealed)];
        exists (stored_of f); simpl; eauto.
  - apply omap_names; [|done]. intros x a Ha. unfold sealed_of in Ha.
    destruct (fi_protected x), (fi_value x); by simplify_eq/=.
  - rewrite <- (list_fmap_id (omap kept_of input)). apply omap_names; [|done].
    intros x a Ha. unfold kept_of in Ha. by destruct (fi_protected x), (fi_value x); simplify_eq/=.
  - intros n (f & Hf & _ & <- & Hv)%elem_of_kept ([m v] & Hm & (g & Hg & _ & Hgn & Hgv)%elem_of_sealed)%list_elem_of_fmap.
    simpl in Hm. subst m. assert (f = g) as ->; [|congruence].
    by apply (NoDup_fmap_eq (fun f => trim (fi_name f)) input).
  - apply Forall_forall. intros ? (f & -> & _)%list_elem_of_fmap. simpl. by intros ->.
Qed.

(** ** Days *)

Lemma parse_digits_zeros max k s : 0 <= max -> parse_digits max 0 (replicate k 48 ++ s) = parse_digits max 0 s.
Proof.
  intros Hmax. induction k as [|k IH]; [done|]. change (replicate (S k) 48 ++ s) with ((48 + 0) :: replicate k 48 ++ s).
  by rewrite parse_digits_step by lia.
Qed.

(** A number padded with zeros is read as the number. *)
Lemma padded_digits max (w : nat) n :
  (1 <= w)%nat -> 0 <= n < 10 ^ Z.of_nat w -> n <= max ->
  zero_padded (Z.of_nat w) n <> [] /\ length (zero_padded (Z.of_nat w) n) = w
  /\ (45 ∉ zero_padded (Z.of_nat w) n)
  /\ Forall (fun c => is_ascii_digit c = true) (zero_padded (Z.of_nat w) n)
  /\ parse_digits max 0 (zero_padded (Z.of_nat w) n) = Some n.
Proof.
  intros Hw Hn Hmax. destruct (zero_padded_ok w n Hw Hn) as [Hlen Hd]. split_and!; [|done| |done|].
  - intros Hnil. rewrite Hnil in Hlen. simpl in Hlen. lia.
  - intros Hin. rewrite Forall_forall in Hd. by specialize (Hd 45 Hin).
  - unfold zero_padded. rewrite parse_digits_zeros by lia.
    rewrite <- (parse_unsigned_digits max); [apply parse_unsigned_decimal; lia|apply decimal_not_nil|].
    apply decimal_digits. lia.
Qed.

Section days.
Context `{CalendarOk}.

Lemma calendar_day_Some t s :
  calendar_day t = Some s ->
  exists y m d, 1 <= y <= 9999 /\ 1 <= m <= 12 /\ 1 <= d <= 31 /\ calendar_date y m d = true
    /\ s = zero_padded 4 y ++ lit "-" ++ zero_padded 2 m ++ lit "-" ++ zero_padded 2 d.
Proof.
  unfold calendar_day. intros Hs.
  destruct (splitn3 t) as [|yt [|mt [|dt [|? ?]]]]; try done;
    destruct (parse_signed i32_max yt) as [y|] eqn:Hy; try done; destruct (negb _) eqn:Hr; try done.
  destruct (parse_unsigned u8_max mt) as [m|] eqn:Hm; [|done].
  destruct (parse_unsigned u8_max dt) as [d|] eqn:Hd; [|done].
  destruct (_ && _) eqn:Hc in Hs; [|done]. simplify_eq. bools.
  exists y, m, d. pose proof (calendar_day_of_month y m d ltac:(done)). split_and!; done || lia.
Qed.

(** The day an entry runs out is stored in one form: whatever way it was
    entered, four digits for a year from 1 to 9999, two for the month and two
    for the day, a day the calendar has; and that form is taken as it is. *)
Theorem calendar_day_reads_back (t s : list Z) :
  calendar_day t = Some s -> length s = 10%nat /\ calendar_day s = Some s.
Proof.
  intros (y & m & d & Hy & Hm & Hd & Hc & ->)%calendar_day_Some.
  destruct (padded_digits i32_max 4 y) as (Yn & Yl & Ym & Yd & Yp); [lia|simpl; lia|unfold i32_max; lia|].
  destruct (padded_digits u8_max 2 m) as (Mn & Ml & Mm & Md & Mp); [lia|simpl; lia|unfold u8_max; lia|].
  destruct (padded_digits u8_max 2 d) as (Dn & Dl & Dm & Dd & Dp); [lia|simpl; lia|unfold u8_max; lia|].
  change (Z.of_nat 4) with 4 in *. change (Z.of_nat 2) with 2 in *. split.
  - rewrite !length_app, Yl, Ml, Dl. done.
  - unfold calendar_day, splitn3. change (lit "-") with [45]. cbn [app].
    rewrite split_once_app, split_once_app by done.
    rewrite parse_signed_digits, Yp by done.
    rewrite (proj2 (Z.leb_le 1 y)), (proj2 (Z.leb_le y 9999)) by lia. cbn [negb andb].
    rewrite !parse_unsigned_digits, Mp, Dp by done.
    rewrite (proj2 (Z.leb_le 1 m)), (proj2 (Z.leb_le m 12)), Hc by lia. done.
Qed.

End days.

(** ** Examples *)

Module FieldExamples.

#[local] Instance month_days : Calendar := fun y m d =>
  (1 <=? d) && (d <=? if m =? 2 then (if (y mod 4 =? 0) && (negb (y mod 100 =? 0) || (y mod 400 =? 0))
                                      then 29 else 28)
                      else if (m =? 4) || (m =? 6) || (m =? 9) || (m =? 11) then 30 else 31).

#[local] Instance month_days_ok : CalendarOk.
Proof.
  intros y m d Hd. unfold calendar_date, month_days in Hd. bools.
  repeat case_match; lia.
Qed.

Lemma calendar_day_reads_back_witness : calendar_day (lit "2024-02-29") = Some (lit "2024-02-29").
Proof. apply (calendar_day_reads_back (lit "+2024-2-029")). vm_compute. reflexivity. Defined.

Example no_such_day : calendar_day (lit "2023-02-29") = None /\ calendar_day (lit "2024-02") = None.
Proof. split; vm_compute; reflexivity. Qed.

End FieldExamples.
