(* ===== verification/Entries.v ===== *)
(** * Entries of the shared vault (crates/server/src/api/catalog.rs, collections.rs, attachments.rs, reveal.rs)

    Collections, credentials with their versions and recycle bin, the files
    kept with them, and who is shown what of them. As in [Folders], a handler
    reads [seen] before its transaction and changes [db] in it. Sealed fields
    are what opening them gives (see [Vault]): one row for an owner, a version
    and a field. The times at which rows were made are left out. *)
From S2P Require Import Prelude Text Utf8 Totp Model Session AccessRequests Store Folders Devices.
From S2P Require Import Fields.

(** ** Rows *)

Record CollectionRow := { co_parent : option Uuid; co_name : list Z }.

Record CredentialRow := {
  cr_collection : Uuid;
  cr_name : list Z;
  cr_username : list Z;
  cr_url : list Z;
  cr_notes : list Z;
  cr_icon : Z;
  cr_fields : list Field;
  cr_tags : list (list Z);
  cr_expires_on : option (list Z);
  cr_has_totp : bool;
  cr_version : Z;
  (** in the recycle bin since then *)
  cr_deleted_at : option Z
}.

Record AttachmentRow := {
  at_credential : Uuid;
  at_name : list Z;
  at_media_type : list Z;
  at_size : Z;
  at_created_by : Uuid
}.

Inductive VaultAction :=
| CollectionCreated | CollectionUpdated | CollectionDeleted (purged : nat)
| CredentialCreated | CredentialUpdated (secret_changed fields_changed totp_changed : bool)
| CredentialDeleted (purged : bool) | CredentialRestored
| CredentialAttachmentAdded (name : list Z) (replaced : bool)
| CredentialAttachmentDeleted (name : list Z)
| CredentialRevealed (purpose : list Z) (version : Z) | CredentialCodeShown (purpose : list Z).

Record VaultLog := { vl_actor : Uuid; vl_action : VaultAction; vl_object : ObjectId }.

(** [secret_fields], by owner, version and field. *)
Abbreviation SecretRows := (gmap (Uuid * Z * list Z) (list Z)) (only parsing).

Record VaultStore := {
  vs_collections : gmap Uuid CollectionRow;
  vs_credentials : gmap Uuid CredentialRow;
  vs_attachments : gmap Uuid AttachmentRow;
  vs_secrets : SecretRows;
  vs_objects : Objects;
  vs_grants : list GrantRow;
  vs_log : list VaultLog
}.

Definition vault_objects (db : VaultStore) : Objects := {|
  folders := folders (vs_objects db);
  collections := (fun kv => (kv.1, co_parent kv.2)) <$> map_to_list (vs_collections db);
  devices := devices (vs_objects db);
  credentials := (fun kv => (kv.1, cr_collection kv.2)) <$> map_to_list (vs_credentials db);
  profiles := profiles (vs_objects db)
|}.

Definition vault_catalog (db : VaultStore) (now : Z) : Catalog :=
  load (vault_objects db) (vs_grants db) now.

Definition on_collections (f : gmap Uuid CollectionRow -> gmap Uuid CollectionRow) (db : VaultStore) :
    VaultStore :=
  {| vs_collections := f (vs_collections db); vs_credentials := vs_credentials db;
     vs_attachments := vs_attachments db; vs_secrets := vs_secrets db; vs_objects := vs_objects db;
     vs_grants := vs_grants db; vs_log := vs_log db |}.

Definition on_credentials (f : gmap Uuid CredentialRow -> gmap Uuid CredentialRow) (db : VaultStore) :
    VaultStore :=
  {| vs_collections := vs_collections db; vs_credentials := f (vs_credentials db);
     vs_attachments := vs_attachments db; vs_secrets := vs_secrets db; vs_objects := vs_objects db;
     vs_grants := vs_grants db; vs_log := vs_log db |}.

Definition on_attachments (f : gmap Uuid AttachmentRow -> gmap Uuid AttachmentRow) (db : VaultStore) :
    VaultStore :=
  {| vs_collections := vs_collections db; vs_credentials := vs_credentials db;
     vs_attachments := f (vs_attachments db); vs_secrets := vs_secrets db;
     vs_objects := vs_objects db; vs_grants := vs_grants db; vs_log := vs_log db |}.

Definition on_secrets (f : SecretRows -> SecretRows) (db : VaultStore) : VaultStore :=
  {| vs_collections := vs_collections db; vs_credentials := vs_credentials db;
     vs_attachments := vs_attachments db; vs_secrets := f (vs_secrets db);
     vs_objects := vs_objects db; vs_grants := vs_grants db; vs_log := vs_log db |}.

Definition on_grants (f : list GrantRow -> list GrantRow) (db : VaultStore) : VaultStore :=
  {| vs_collections := vs_collections db; vs_credentials := vs_credentials db;
     vs_attachments := vs_attachments db; vs_secrets := vs_secrets db; vs_objects := vs_objects db;
     vs_grants := f (vs_grants db); vs_log := vs_log db |}.

Definition vault_record (s : Session) (a : VaultAction) (o : ObjectId) (db : VaultStore) : VaultStore :=
  {| vs_collections := vs_collections db; vs_credentials := vs_credentials db;
     vs_attachments := vs_attachments db; vs_secrets := vs_secrets db; vs_objects := vs_objects db;
     vs_grants := vs_grants db;
     vs_log := vs_log db ++ [{| vl_actor := user_id s; vl_action := a; vl_object := o |}] |}.

(** ** Sealed fields (secrets.rs) *)

(** [secrets::store]: the row is new, or the statement fails. *)
Definition store_secret (owner : Uuid) (version : Z) (field : str) (value : list Z) (db : VaultStore) :
    result VaultStore ApiProblem :=
  if is_some (vs_secrets db !! (owner, version, field)) then Err AP_Internal
  else Ok (on_secrets (insert (owner, version, field) value) db).

Fixpoint store_all (owner : Uuid) (version : Z) (fields : list (list Z * list Z)) (db : VaultStore) :
    result VaultStore ApiProblem :=
  match fields with
  | [] => Ok db
  | (field, value) :: fields =>
      let? db := store_secret owner version field value db in store_all owner version fields db
  end.

(** [secrets::load]. *)
Definition load_secret (owner : Uuid) (version : Z) (field : str) (db : VaultStore) : option (list Z) :=
  vs_secrets db !! (owner, version, field).

(** [stored_text] (connect.rs). *)
Definition stored_text (db : VaultStore) (owner : Uuid) (version : Z) (field : str) :
    result (option (list Z)) ApiProblem :=
  match load_secret owner version field db with
  | None => Ok None
  | Some bytes => ok_or (Some <$> from_utf8 bytes) AP_Internal
  end.

Definition PASSWORD : list Z := lit "password".
Definition TOTP_FIELD : list Z := lit "totp".

(** Copies sealed fields of the version [from] into the new version [to]. *)
Fixpoint carry (id : Uuid) (from to : Z) (names : list (list Z)) (db : VaultStore) :
    result VaultStore ApiProblem :=
  match names with
  | [] => Ok db
  | n :: names =>
      let? db := match load_secret id from n db with
                 | Some value => store_secret id to n value db
                 | None => Ok db
                 end in
      carry id from to names db
  end.

(** Seals the protected fields with a new value. *)
Definition seal_fields (id : Uuid) (version : Z) (sealed : list (list Z * list Z)) (db : VaultStore) :
    result VaultStore ApiProblem :=
  store_all id version ((fun nv => (secret_name nv.1, utf8 nv.2)) <$> sealed) db.

Definition seal_password (id : Uuid) (version : Z) (p : option (list Z)) (db : VaultStore) :
    result VaultStore ApiProblem :=
  match p with Some p => store_secret id version PASSWORD (utf8 p) db | None => Ok db end.

Definition seal_totp (id : Uuid) (version : Z) (t : option (list Z)) (db : VaultStore) :
    result VaultStore ApiProblem :=
  match t with Some t => store_secret id version TOTP_FIELD (utf8 t) db | None => Ok db end.

(** ** Credentials *)

(** Writing the row of a credential: names are unique in a collection, the
    collection exists. *)
Definition write_credential (id : Uuid) (r : CredentialRow) (db : VaultStore) :
    result VaultStore ApiProblem :=
  if existsb (fun kr => negb (kr.1 =? id) && (cr_collection kr.2 =? cr_collection r)
                        && bool_decide (cr_name kr.2 = cr_name r))
       (map_to_list (vs_credentials db))
  then Err AP_NameTaken
  else if negb (is_some (vs_collections db !! cr_collection r)) then Err AP_FolderNotEmpty
  else Ok (on_credentials (insert id r) db).

Section handlers.
Context `{UuidText} `{Calendar} `{Base32}.

(** What the client sends; the secrets' other fields are those of keys, which
    entries of the vault do not have. *)
Record CredentialInput := {
  ci_collection : Uuid;
  ci_name : list Z;
  ci_username : list Z;
  ci_details : DetailsInput;
  ci_totp : option (list Z);
  ci_password : option (list Z)
}.

(** [new_id] is the primary key the database generates for the row. *)
Definition create_credential (s : Session) (now : Z) (new_id : Uuid) (input : CredentialInput)
    (seen db : VaultStore) : result VaultStore ApiProblem :=
  let? name := check_name (ci_name input) "name" in
  let? username := plain_text (ci_username input) "username" in
  let? password := ok_or (ci_password input) (AP_Invalid "password") in
  let? details := check_details (ci_details input) in
  let? totp := totp_input (ci_totp input) in
  let totp := mjoin totp in
  if negb (bool_decide (kept (dt_fields details) = [])) then Err (AP_Invalid "fields") else
  let? _ := require (vault_catalog seen now) (subject s) Role_Edit (Collection (ci_collection input)) in
  let? db := write_credential new_id
               {| cr_collection := ci_collection input; cr_name := name; cr_username := username;
                  cr_url := dt_url details; cr_notes := dt_notes details; cr_icon := dt_icon details;
                  cr_fields := stored (dt_fields details); cr_tags := dt_tags details;
                  cr_expires_on := dt_expires_on details; cr_has_totp := is_some totp;
                  cr_version := 1; cr_deleted_at := None |} db in
  let? db := seal_password new_id 1 (Some password) db in
  let? db := seal_fields new_id 1 (sealed (dt_fields details)) db in
  let? db := seal_totp new_id 1 totp db in
  Ok (vault_record s CredentialCreated (Credential new_id) db).

(** What a change does to the row, at the version it leads to. *)
Definition changed_row (input : CredentialInput) (name username : list Z) (details : Details)
    (has_totp : bool) (version : Z) (r : CredentialRow) : CredentialRow :=
  {| cr_collection := ci_collection input; cr_name := name; cr_username := username;
     cr_url := dt_url details; cr_notes := dt_notes details; cr_icon := dt_icon details;
     cr_fields := stored (dt_fields details); cr_tags := dt_tags details;
     cr_expires_on := dt_expires_on details; cr_has_totp := has_totp; cr_version := version;
     cr_deleted_at := cr_deleted_at r |}.

(** The one-time password changes with a new one, and by removing one. *)
Definition totp_changes (totp : option (option (list Z))) (had_totp : bool) : bool :=
  match totp with Some (Some _) => true | Some None => had_totp | None => false end.

(** The sealed fields that go into a new version as they are. *)
Definition carried (details : Details) (password : option (list Z))
    (totp : option (option (list Z))) (had_totp : bool) : list (list Z) :=
  (secret_name <$> kept (dt_fields details))
  ++ (if is_some password then [] else [PASSWORD])
  ++ (if negb (is_some totp) && had_totp then [TOTP_FIELD] else []).

Definition update_credential (s : Session) (now : Z) (id : Uuid) (input : CredentialInput)
    (seen db : VaultStore) : result VaultStore ApiProblem :=
  let? name := check_name (ci_name input) "name" in
  let? username := plain_text (ci_username input) "username" in
  let c := vault_catalog seen now in
  let? _ := require c (subject s) Role_Edit (Credential id) in
  let? _ := if negb (bool_decide (parent c (Credential id) = Some (ci_collection input)))
            then require c (subject s) Role_Edit (Collection (ci_collection input)) else Ok tt in
  let? before := ok_or (vs_credentials seen !! id) AP_Internal in
  let password := ci_password input in
  let? details := check_details (ci_details input) in
  let? totp := totp_input (ci_totp input) in
  if negb (keeps_only_what_was (dt_fields details) (cr_fields before))
  then Err (AP_Invalid "fields") else
  let fields_changed := changes_secrets (dt_fields details) (cr_fields before) in
  let had_totp := cr_has_totp before in
  let totp_changed := totp_changes totp had_totp in
  let changed := is_some password || fields_changed || totp_changed in
  let has_totp := match totp with None => had_totp | Some t => is_some t end in
  let? row := ok_or (vs_credentials db !! id) AP_Internal in
  let version := cr_version row + (if changed then 1 else 0) in
  (* out of range of the column's type *)
  if i32_max <? version then Err AP_Internal else
  let? db := write_credential id (changed_row input name username details has_totp version row) db in
  let? db := if changed
             then let? db := carry id (cr_version before) version
                               (carried details password totp had_totp) db in
                  seal_fields id version (sealed (dt_fields details)) db
             else Ok db in
  let? db := seal_password id version password db in
  let? db := seal_totp id version (mjoin totp) db in
  Ok (vault_record s (CredentialUpdated (is_some password) fields_changed totp_changed)
        (Credential id) db).

(** ** The recycle bin *)

(** The attachments of credentials. *)
Definition attachments_of (ids : list Uuid) (db : VaultStore) : list Uuid :=
  fst <$> filter (fun ka => at_credential ka.2 ∈ ids) (map_to_list (vs_attachments db)).

(** [DELETE FROM credentials]: the references to one go with it. *)
Definition drop_credentials (ids : list Uuid) (db : VaultStore) : VaultStore :=
  on_grants (filter (fun g => is_some_and (fun c => bool_decide (c ∈ ids)) (gr_credential g) = false))
    (on_attachments (filter (fun ka => at_credential ka.2 ∉ ids))
       (on_credentials (filter (fun kr => kr.1 ∉ ids)) db)).

Definition purge_credentials (ids : list Uuid) (db : VaultStore) : VaultStore :=
  let files := attachments_of ids db in
  drop_credentials ids
    (on_secrets (filter (fun kv => kv.1.1.1 ∉ ids))
       (on_secrets (filter (fun kv => kv.1.1.1 ∉ files)) db)).

Definition set_deleted (t : option Z) (r : CredentialRow) : CredentialRow :=
  {| cr_collection := cr_collection r; cr_name := cr_name r; cr_username := cr_username r;
     cr_url := cr_url r; cr_notes := cr_notes r; cr_icon := cr_icon r; cr_fields := cr_fields r;
     cr_tags := cr_tags r; cr_expires_on := cr_expires_on r; cr_has_totp := cr_has_totp r;
     cr_version := cr_version r; cr_deleted_at := t |}.

Definition delete_credential (s : Session) (now : Z) (id : Uuid) (purge : bool) (seen db : VaultStore) :
    result VaultStore ApiProblem :=
  let? _ := require (vault_catalog seen now) (subject s) Role_Edit (Credential id) in
  if purge
  then Ok (vault_record s (CredentialDeleted true) (Credential id) (purge_credentials [id] db))
  else
    match vs_credentials db !! id with
    | Some r =>
        if is_some (cr_deleted_at r) then Ok db
        else Ok (vault_record s (CredentialDeleted false) (Credential id)
                   (on_credentials (insert id (set_deleted (Some now) r)) db))
    | None => Ok db
    end.

Definition restore_credential (s : Session) (now : Z) (id : Uuid) (seen db : VaultStore) :
    result VaultStore ApiProblem :=
  let? _ := require (vault_catalog seen now) (subject s) Role_Edit (Credential id) in
  match vs_credentials db !! id with
  | Some r =>
      if is_some (cr_deleted_at r)
      then Ok (vault_record s CredentialRestored (Credential id)
                 (on_credentials (insert id (set_deleted None r)) db))
      else Err (AP_Invalid "id")
  | None => Err (AP_Invalid "id")
  end.

(** ** Collections (collections.rs) *)

(** Writing the row of a collection: none is in itself, names are unique in
    one, its parent exists. *)
Definition write_collection (id : Uuid) (r : CollectionRow) (db : VaultStore) :
    result VaultStore ApiProblem :=
  if bool_decide (co_parent r = Some id) then Err AP_Internal
  else if existsb (fun kr => negb (kr.1 =? id) && bool_decide (co_parent kr.2 = co_parent r)
                             && bool_decide (co_name kr.2 = co_name r))
            (map_to_list (vs_collections db))
  then Err AP_NameTaken
  else if negb (refers (vs_collections db) (co_parent r)) then Err AP_FolderNotEmpty
  else Ok (on_collections (insert id r) db).

Definition create_collection (s : Session) (now : Z) (new_id : Uuid) (parent_id : option Uuid)
    (name : str) (seen db : VaultStore) : result VaultStore ApiProblem :=
  let? name := check_name name "name" in
  let? _ := match parent_id with
            | None => if may_create_top_level (subject s) then Ok tt else Err AP_Forbidden
            | Some p => require (vault_catalog seen now) (subject s) Role_Manage (Collection p)
            end in
  let? db := write_collection new_id {| co_parent := parent_id; co_name := name |} db in
  Ok (vault_record s CollectionCreated (Collection new_id) db).

(** A field that is absent stays; [Some None] is JSON's [null]. *)
Definition update_collection (s : Session) (now : Z) (id : Uuid) (name : option (list Z))
    (parent_id : option (option Uuid)) (seen db : VaultStore) : result VaultStore ApiProblem :=
  let c := vault_catalog seen now in
  let? _ := require c (subject s) Role_Manage (Collection id) in
  let? name := match name with
               | Some n => let? n := check_name n "name" in Ok (Some n)
               | None => Ok None
               end in
  let? _ := match parent_id with
            | None => Ok tt
            | Some None => if may_create_top_level (subject s) then Ok tt else Err AP_Forbidden
            | Some (Some p) =>
                let? _ := require c (subject s) Role_Manage (Collection p) in
                if is_within_collection c p id then Err (AP_Invalid "parent_id") else Ok tt
            end in
  let? db := match vs_collections db !! id with
             | None => Ok db
             | Some r => write_collection id {| co_parent := default (co_parent r) parent_id;
                                                co_name := default (co_name r) name |} db
             end in
  Ok (vault_record s CollectionUpdated (Collection id) db).

(** [DELETE FROM collections]: what is in one keeps it, its grants go. *)
Definition drop_collection (id : Uuid) (db : VaultStore) : result VaultStore ApiProblem :=
  if existsb (fun kr => bool_decide (co_parent kr.2 = Some id)) (map_to_list (vs_collections db))
     || existsb (fun kr => cr_collection kr.2 =? id) (map_to_list (vs_credentials db))
  then Err AP_FolderNotEmpty
  else Ok (on_grants (filter (fun g => gr_collection g <> Some id)) (on_collections (delete id) db)).

(** What lies in a collection's recycle bin. *)
Definition binned (id : Uuid) (db : VaultStore) : list Uuid :=
  fst <$> filter (fun kr => cr_collection kr.2 = id /\ is_some (cr_deleted_at kr.2) = true)
            (map_to_list (vs_credentials db)).

Definition delete_collection (s : Session) (now : Z) (id : Uuid) (seen db : VaultStore) :
    result VaultStore ApiProblem :=
  let? _ := require (vault_catalog seen now) (subject s) Role_Manage (Collection id) in
  let ids := binned id db in
  let? db := drop_collection id (purge_credentials ids db) in
  Ok (vault_record s (CollectionDeleted (length ids)) (Collection id) db).

(** ** Attachments (attachments.rs) *)

Definition MAX_SIZE : Z := 5 * 1024 * 1024.
Definition CONTENT : list Z := lit "content".

Definition file_name (name : str) : result (list Z) ApiProblem :=
  let name := trim name in
  if bool_decide (name = []) || (255 <? Z.of_nat (length name))
     || existsb (fun c => is_control c || (c =? 47) || (c =? 92)) name
  then Err (AP_Invalid "name") else Ok name.

(** A content type that is missing, empty or long is taken as unknown. *)
Definition media_type_of (header : option (list Z)) : list Z :=
  default (lit "application/octet-stream")
    (filter_option (fun v => (str_len v <=? 255) && not_empty v) header).

(** The file of a name, at most one. *)
Definition attachment_named (id : Uuid) (name : str) (db : VaultStore) : option Uuid :=
  fst <$> List.find (fun ka => (at_credential ka.2 =? id) && bool_decide (at_name ka.2 = name))
            (map_to_list (vs_attachments db)).

Definition upload (s : Session) (now : Z) (new_id id : Uuid) (name : str)
    (media_type : option (list Z)) (content : list Z) (seen db : VaultStore) :
    result VaultStore ApiProblem :=
  let? name := file_name name in
  if MAX_SIZE <? Z.of_nat (length content) then Err (AP_Invalid "size") else
  let? _ := require (vault_catalog seen now) (subject s) Role_Edit (Credential id) in
  let replaced := attachment_named id name db in
  let db := match replaced with
            | None => db
            | Some old => on_secrets (filter (fun kv => kv.1.1.1 <> old)) (on_attachments (delete old) db)
            end in
  (* the reference to the credential *)
  if negb (is_some (vs_credentials db !! id)) then Err AP_Internal else
  let row := {| at_credential := id; at_name := name; at_media_type := media_type_of media_type;
                at_size := Z.of_nat (length content); at_created_by := user_id s |} in
  let? db := store_secret new_id 1 CONTENT content (on_attachments (insert new_id row) db) in
  Ok (vault_record s (CredentialAttachmentAdded name (is_some replaced)) (Credential id) db).

Definition download_purpose (purpose : option (list Z)) : result (list Z) ApiProblem :=
  match purpose with
  | None => Ok (lit "download")
  | Some p => if bool_decide (p = lit "download") || bool_decide (p = lit "view") then Ok p
              else Err (AP_Invalid "purpose")
  end.

(** The file's name and content; the attempt is recorded before they leave. *)
Definition download (s : Session) (now : Z) (id attachment : Uuid) (purpose : option (list Z))
    (db : VaultStore) : result (list Z * list Z * VaultStore) ApiProblem :=
  let? purpose := download_purpose purpose in
  let? _ := require (vault_catalog db now) (subject s) Role_Reveal (Credential id) in
  let? row := ok_or (filter_option (fun a => at_credential a =? id) (vs_attachments db !! attachment))
                AP_NotFound in
  let? content := ok_or (load_secret attachment 1 CONTENT db) AP_Internal in
  Ok (at_name row, content, vault_record s (CredentialRevealed purpose 1) (Credential id) db).

Definition delete_attachment (s : Session) (now : Z) (id attachment : Uuid) (seen db : VaultStore) :
    result VaultStore ApiProblem :=
  let? _ := require (vault_catalog seen now) (subject s) Role_Edit (Credential id) in
  let? row := ok_or (filter_option (fun a => at_credential a =? id) (vs_attachments db !! attachment))
                AP_NotFound in
  Ok (vault_record s (CredentialAttachmentDeleted (at_name row)) (Credential id)
        (on_secrets (filter (fun kv => kv.1.1.1 <> attachment))
           (on_attachments (delete attachment) db))).

(** ** Revealing (reveal.rs) *)

Record Revealed := {
  rv_username : list Z;
  rv_password : option (list Z);
  rv_fields : list (list Z * list Z);
  rv_totp : option (list Z)
}.

Definition reveal_purpose (purpose : str) : result (list Z) ApiProblem :=
  if bool_decide (purpose = lit "show") || bool_decide (purpose = lit "copy")
     || bool_decide (purpose = lit "export")
  then Ok purpose else Err (AP_Invalid "purpose").

Definition need_confirmation (s : Session) : result unit ApiProblem :=
  match require_confirmation s with Ok _ => Ok tt | Err _ => Err AP_ConfirmationRequired end.

(** The protected fields sealed in an older version, in no particular order;
    the query sorts them. *)
Definition fields_of_version (id : Uuid) (version : Z) (db : VaultStore) : list (list Z) :=
  omap (fun kv => if (kv.1.1.1 =? id) && (kv.1.1.2 =? version)
                  then strip_prefix (lit "field:") kv.1.2 else None)
    (map_to_list (vs_secrets db)).

Fixpoint reveal_fields (db : VaultStore) (id : Uuid) (version : Z) (names : list (list Z)) :
    result (list (list Z * list Z)) ApiProblem :=
  match names with
  | [] => Ok []
  | n :: names =>
      let? value := stored_text db id version (secret_name n) in
      let? rest := reveal_fields db id version names in
      Ok ((n, default [] value) :: rest)
  end.

Definition reveal_credential (s : Session) (now : Z) (id : Uuid) (purpose : str)
    (version : option Z) (db : VaultStore) : result (Revealed * VaultStore) ApiProblem :=
  let? purpose := reveal_purpose purpose in
  let? _ := require (vault_catalog db now) (subject s) Role_Reveal (Credential id) in
  let? _ := need_confirmation s in
  let? row := ok_or (vs_credentials db !! id) AP_Internal in
  let current := cr_version row in
  let version := default current version in
  if negb ((1 <=? version) && (version <=? current)) then Err (AP_Invalid "version") else
  let names := if version =? current then protected_names (cr_fields row)
               else fields_of_version id version db in
  let? password := stored_text db id version PASSWORD in
  let? fields := reveal_fields db id version names in
  let? totp := if bool_decide (purpose = lit "export") then stored_text db id version TOTP_FIELD
               else Ok None in
  Ok ({| rv_username := cr_username row; rv_password := password; rv_fields := fields;
         rv_totp := totp |},
      vault_record s (CredentialRevealed purpose version) (Credential id) db).

(** A code, the seconds it still holds, and those each holds. *)
Definition current_code `{Hmac} (unix_now : Z) (id : Uuid) (db : VaultStore) :
    result (list Z * Z * Z) ApiProblem :=
  let? row := ok_or (vs_credentials db !! id) AP_Internal in
  if negb (cr_has_totp row) then Err AP_NotFound else
  let? secret := stored_text db id (cr_version row) TOTP_FIELD in
  let? secret := ok_or secret AP_Internal in
  let? params := ok_or (params_parse secret) AP_Internal in
  let? code := ok_or (code_at params unix_now) AP_Internal in
  Ok (code.1, code.2, period params).

Definition credential_code `{Hmac} (s : Session) (now unix_now : Z) (id : Uuid) (purpose : str)
    (db : VaultStore) : result (list Z * Z * Z * VaultStore) ApiProblem :=
  let? purpose := if bool_decide (purpose = lit "show") || bool_decide (purpose = lit "copy")
                  then Ok purpose else Err (AP_Invalid "purpose") in
  let? _ := require (vault_catalog db now) (subject s) Role_Reveal (Credential id) in
  let? _ := need_confirmation s in
  let? code := current_code unix_now id db in
  Ok (code, vault_record s (CredentialCodeShown purpose) (Credential id) db).

(** The versions of a credential's secrets; the query sorts them. *)
Definition credential_versions (s : Session) (now : Z) (id : Uuid) (db : VaultStore) :
    result (gset Z) ApiProblem :=
  let? _ := require (vault_catalog db now) (subject s) Role_Reveal (Credential id) in
  Ok (list_to_set (omap (fun kv => if kv.1.1.1 =? id then Some kv.1.1.2 else None)
                     (map_to_list (vs_secrets db)))).

End handlers.
