(* ===== verification/History.v ===== *)
(** * The history of the vault's entries

    What [Entries] promises: an entry is a list of versions, each a set of
    sealed fields. A change puts a new version in front or leaves all of them,
    purging takes the whole entry away, and revealing shows what was sealed.
    The detailed tables implement this specification, step by step. *)
From S2P Require Import Prelude Text Utf8 Totp Model Session AccessRequests Store Folders Devices.
From S2P Require Import Fields.
From S2P Require Import Entries.

(** ** The specification *)

(** The sealed fields of one version. *)
Abbreviation Version := (gmap (list Z) (list Z)) (only parsing).

(** An entry's versions, the newest first. *)
Abbreviation History := (gmap Uuid (list (gmap (list Z) (list Z)))) (only parsing).

(** The version of the number [v]; the oldest is 1. *)
Definition version_at (vs : list Version) (v : Z) : option Version :=
  if (1 <=? v) && (v <=? Z.of_nat (length vs)) then vs !! Z.to_nat (Z.of_nat (length vs) - v) else None.

(** What a change newly seals. *)
Definition given_fields (c : Checked) (password : option (list Z)) (totp : option (list Z)) :
    list (list Z * list Z) :=
  ((fun nv => (secret_name nv.1, utf8 nv.2)) <$> sealed c)
  ++ option_list ((fun p => (PASSWORD, utf8 p)) <$> password)
  ++ option_list ((fun t => (TOTP_FIELD, utf8 t)) <$> totp).

(** The fields that stay are those named in [names]. *)
Definition next_version (given : list (list Z * list Z)) (names : list (list Z)) (old : Version) :
    Version :=
  list_to_map given ∪ filter (fun kv => kv.1 ∈ names) old.

Inductive spec_step : History -> History -> Prop :=
| sp_create h id given :
    h !! id = None -> spec_step h (<[id := [list_to_map given]]> h)
| sp_change h id v vs given names :
    h !! id = Some (v :: vs) ->
    spec_step h (<[id := next_version given names v :: v :: vs]> h)
| sp_purge h (ids : list Uuid) : spec_step h (filter (fun kv => kv.1 ∉ ids) h).

(** ** The tables as a history *)

Definition entry_history (db : VaultStore) (id : Uuid) (row : CredentialRow) (vs : list Version) : Prop :=
  Z.of_nat (length vs) = cr_version row
  /\ forall v m, version_at vs v = Some m -> forall f, vs_secrets db !! (id, v, f) = m !! f.

Definition history_of (db : VaultStore) (h : History) : Prop :=
  forall id, match vs_credentials db !! id with
             | None => h !! id = None
             | Some row => exists vs, h !! id = Some vs /\ entry_history db id row vs
             end.

(** ** What sealing adds *)

(** [db'] is [db] with the fields [m] in the version [v] of [id]. *)
Definition adds (id : Uuid) (v : Z) (m : Version) (db db' : VaultStore) : Prop :=
  db' = on_secrets (fun _ => vs_secrets db') db
  /\ forall o w f, vs_secrets db' !! (o, w, f)
       = if decide (o = id /\ w = v) then (m !! f) ∪ (vs_secrets db !! (o, w, f))
         else vs_secrets db !! (o, w, f).

Lemma adds_nothing id v db : adds id v ∅ db db.
Proof.
  split; [by destruct db|]. intros. rewrite lookup_empty, (left_id_L None (∪)). by case_decide.
Qed.

Lemma adds_trans id v m m' db db' db'' :
  adds id v m db db' -> adds id v m' db' db'' -> adds id v (m' ∪ m) db db''.
Proof.
  intros [-> H1] [-> H2]. split; [done|]. intros o w f. simpl in *. rewrite H2.
  case_decide as Hd; [|by rewrite H1, decide_False].
  rewrite H1, decide_True, lookup_union by done.
  by destruct (m' !! f), (m !! f), (vs_secrets db !! (o, w, f)).
Qed.

Lemma store_secret_adds id v f value db :
  vs_secrets db !! (id, v, f) = None ->
  exists db', store_secret id v f value db = Ok db' /\ adds id v {[f := value]} db db'.
Proof.
  intros Hf. unfold store_secret. rewrite Hf. simpl. eexists. split; [done|]. split; [done|].
  intros o w g. cbn [on_secrets vs_secrets]. rewrite lookup_insert.
  case_decide as Hk; [injection Hk as <- <- <-|].
  - rewrite decide_True by done. by rewrite lookup_singleton_eq, Hf.
  - case_decide as Hd; [|done]. destruct Hd as [-> ->].
    rewrite lookup_singleton_ne by congruence. by rewrite (left_id_L None (∪)).
Qed.

Lemma store_all_adds id v fields db :
  NoDup fields.*1 -> (forall f, f ∈ fields.*1 -> vs_secrets db !! (id, v, f) = None) ->
  exists db', store_all id v fields db = Ok db' /\ adds id v (list_to_map fields) db db'.
Proof.
  revert db. induction fields as [|[f value] fields IH]; intros db Hnd Hfresh.
  { exists db. split; [done|apply adds_nothing]. }
  cbn [fmap list_fmap] in Hnd. apply NoDup_cons in Hnd as [Hf Hnd]. cbn [store_all].
  destruct (store_secret_adds id v f value db) as (db1 & -> & H1); [apply Hfresh; left|].
  destruct (IH db1 Hnd) as (db2 & -> & H2).
  - intros g Hg. destruct H1 as [_ H1]. rewrite H1, decide_True by done.
    rewrite lookup_singleton_ne by (intros ->; done). rewrite (left_id_L None (∪)).
    apply Hfresh. by right.
  - exists db2. split; [done|]. pose proof (adds_trans _ _ _ _ _ _ _ H1 H2) as H12.
    rewrite list_to_map_cons, insert_union_singleton_l, map_union_comm; [done|].
    apply map_disjoint_singleton_l. by apply not_elem_of_list_to_map_1.
Qed.

(** What [carry] copies. *)
Definition carried_map (id : Uuid) (from : Z) (names : list (list Z)) (db : VaultStore) : Version :=
  list_to_map (omap (fun n => (fun value => (n, value)) <$> load_secret id from n db) names).

Lemma lookup_carried_map id from names db f :
  carried_map id from names db !! f
  = if decide (f ∈ names) then vs_secrets db !! (id, from, f) else None.
Proof.
  unfold carried_map, load_secret. induction names as [|n names IH]; cbn [omap list_omap].
  { rewrite decide_False by (by intros ?%elem_of_nil). apply lookup_empty. }
  destruct (vs_secrets db !! (id, from, n)) as [value|] eqn:Hn; cbn [fmap option_fmap option_map list_to_map foldr].
  - cbn [fst snd]. destruct (decide (f = n)) as [->|Hne].
    + rewrite lookup_insert_eq, decide_True by apply list_elem_of_here. done.
    + rewrite lookup_insert_ne, IH by done. apply decide_ext. rewrite elem_of_cons. naive_solver.
  - rewrite IH. destruct (decide (f = n)) as [->|Hne].
    + rewrite Hn. by repeat case_decide.
    + apply decide_ext. rewrite elem_of_cons. naive_solver.
Qed.

Lemma carry_adds id from to names db :
  from <> to -> NoDup names -> (forall f, f ∈ names -> vs_secrets db !! (id, to, f) = None) ->
  exists db', carry id from to names db = Ok db' /\ adds id to (carried_map id from names db) db db'.
Proof.
  intros Hne. revert db. induction names as [|n names IH]; intros db Hnd Hfresh.
  { exists db. split; [done|apply adds_nothing]. }
  apply NoDup_cons in Hnd as [Hn Hnd]. cbn [carry].
  assert (Hmap : forall m db1, adds id to m db db1 -> carried_map id from names db1 = carried_map id from names db).
  { intros m db1 [_ H1]. apply map_eq. intros f. rewrite !lookup_carried_map, H1.
    by rewrite (decide_False (P := id = id /\ from = to)) by naive_solver. }
  unfold carried_map at 1. cbn [omap list_omap]. destruct (load_secret id from n db) as [value|] eqn:Hl; simpl.
  - destruct (store_secret_adds id to n value db) as (db1 & -> & H1); [apply Hfresh; left|].
    destruct (IH db1 Hnd) as (db2 & -> & H2).
    + intros g Hg. destruct H1 as [_ H1]. rewrite H1, decide_True by done.
      rewrite lookup_singleton_ne by (intros ->; done). rewrite (left_id_L None (∪)).
      apply Hfresh. by right.
    + exists db2. split; [done|]. rewrite (Hmap _ _ H1) in H2.
      pose proof (adds_trans _ _ _ _ _ _ _ H1 H2) as H12.
      fold (carried_map id from names db).
      rewrite insert_union_singleton_l, map_union_comm; [done|].
      apply map_disjoint_singleton_l. rewrite lookup_carried_map. by rewrite decide_False.
  - destruct (IH db Hnd) as (db2 & -> & H2); [intros g Hg; apply Hfresh; by right|]. by exists db2.
Qed.

(** ** Sealing a version *)

Lemma secret_name_inj a b : secret_name a = secret_name b -> a = b.
Proof. by intros [= ->]. Qed.

Lemma secret_name_other n : secret_name n <> PASSWORD /\ secret_name n <> TOTP_FIELD.
Proof. by split; intros [=]. Qed.

Lemma password_not_totp : PASSWORD <> TOTP_FIELD.
Proof. done. Qed.

Lemma elem_of_given c p t f :
  f ∈ (given_fields c p t).*1 <->
  (exists n, n ∈ (sealed c).*1 /\ f = secret_name n) \/ (f = PASSWORD /\ is_Some p)
  \/ (f = TOTP_FIELD /\ is_Some t).
Proof.
  unfold given_fields. rewrite !fmap_app, !elem_of_app, !list_elem_of_fmap.
  setoid_rewrite list_elem_of_fmap. setoid_rewrite elem_of_option_list. unfold is_Some.
  setoid_rewrite fmap_Some. split.
  - intros [(? & -> & [n v] & -> & Hin)|[(? & -> & v & -> & ->)|(? & -> & v & -> & ->)]]; simpl.
    + left. exists n. split; [|done]. by exists (n, v).
    + right; left. eauto.
    + right; right. eauto.
  - intros [(n & ([m v] & -> & Hin) & ->)|[(-> & v & ->)|(-> & v & ->)]].
    + left. exists (secret_name m, utf8 v). split; [done|]. by exists (m, v).
    + right; left. exists (PASSWORD, utf8 v). split; [done|]. by exists v.
    + right; right. exists (TOTP_FIELD, utf8 v). split; [done|]. by exists v.
Qed.

Lemma given_once c p t : NoDup (sealed c).*1 -> NoDup (given_fields c p t).*1.
Proof.
  intros Hnd. unfold given_fields. rewrite !fmap_app.
  assert (Hs : ((fun nv : list Z * list Z => (secret_name nv.1, utf8 nv.2)) <$> sealed c).*1
               = secret_name <$> (sealed c).*1) by (by rewrite <- !list_fmap_compose).
  rewrite Hs. apply NoDup_app. split_and!.
  - by apply (NoDup_fmap_2_strong secret_name); [intros; by apply secret_name_inj|].
  - intros f (n & -> & _)%list_elem_of_fmap. destruct (secret_name_other n).
    rewrite elem_of_app. destruct p, t; simpl; rewrite ?list_elem_of_singleton, ?elem_of_nil; naive_solver.
  - destruct p, t; simpl; repeat constructor; rewrite ?list_elem_of_singleton; try by intros ?%elem_of_nil.
    intros [=].
Qed.

Lemma seal_one_adds id v (f : list Z) (o : option (list Z)) db :
  (is_Some o -> vs_secrets db !! (id, v, f) = None) ->
  exists db', match o with Some p => store_secret id v f (utf8 p) db | None => Ok db end = Ok db'
    /\ adds id v (list_to_map (option_list ((fun p => (f, utf8 p)) <$> o))) db db'.
Proof.
  intros Hf. destruct o as [p|]; simpl.
  - destruct (store_secret_adds id v f (utf8 p) db) as (db' & Hs & Ha); [by apply Hf|].
    exists db'. split; [done|]. by rewrite <- insert_empty in Ha.
  - exists db. split; [done|apply adds_nothing].
Qed.

(** A lookup where nothing was added. *)
Lemma adds_fresh id v m db db' f :
  adds id v m db db' -> m !! f = None -> vs_secrets db' !! (id, v, f) = vs_secrets db !! (id, v, f).
Proof. intros [_ H] Hm. rewrite H, decide_True, Hm by done. by rewrite (left_id_L None (∪)). Qed.

Lemma sealed_map_None (l : list (list Z * list Z)) f :
  (forall n, f <> secret_name n) ->
  (list_to_map ((fun nv => (secret_name nv.1, utf8 nv.2)) <$> l) : Version) !! f = None.
Proof.
  intros Hf. apply not_elem_of_list_to_map_1. rewrite <- list_fmap_compose.
  intros (nv & -> & _)%list_elem_of_fmap. by apply (Hf nv.1).
Qed.

Lemma option_map_None (o : option (list Z)) (g f : list Z) :
  f <> g \/ o = None ->
  (list_to_map (option_list ((fun p => (g, utf8 p)) <$> o)) : Version) !! f = None.
Proof.
  intros Hf. apply not_elem_of_list_to_map_1. destruct o; simpl; [|apply not_elem_of_nil].
  rewrite list_elem_of_singleton. naive_solver.
Qed.

(** The three parts of what a change seals. *)
Definition sealed_map (l : list (list Z * list Z)) : Version :=
  list_to_map ((fun nv => (secret_name nv.1, utf8 nv.2)) <$> l).
Definition one_map (f : list Z) (o : option (list Z)) : Version :=
  list_to_map (option_list ((fun p => (f, utf8 p)) <$> o)).

Lemma given_map c p t :
  list_to_map (given_fields c p t) = sealed_map (sealed c) ∪ one_map PASSWORD p ∪ one_map TOTP_FIELD t.
Proof. unfold given_fields. by rewrite !list_to_map_app, (assoc_L (∪)). Qed.

Lemma parts_apart l p t :
  sealed_map l ##ₘ one_map PASSWORD p /\ sealed_map l ##ₘ one_map TOTP_FIELD t
  /\ one_map PASSWORD p ##ₘ one_map TOTP_FIELD t.
Proof.
  assert (Hone : forall f o g x, one_map f o !! g = Some x -> g = f).
  { intros f o g x Hx. destruct (decide (g = f)) as [|Hne]; [done|].
    unfold one_map in Hx. rewrite option_map_None in Hx by (by left). done. }
  split_and!; apply map_disjoint_spec; intros f x y Hx Hy; apply Hone in Hy; subst f.
  1,2: unfold sealed_map in Hx; rewrite sealed_map_None in Hx; [done|];
    intros n Hn; by destruct (secret_name_other n).
  by apply Hone in Hx.
Qed.

(** Three parts put in one after the other. *)
Lemma adds_three id v m1 m2 m3 db db1 db2 db3 :
  adds id v m1 db db1 -> adds id v m2 db1 db2 -> adds id v m3 db2 db3 ->
  m1 ##ₘ m2 -> m1 ##ₘ m3 -> m2 ##ₘ m3 -> adds id v (m1 ∪ m2 ∪ m3) db db3.
Proof.
  intros A1 A2 A3 D12 D13 D23. pose proof (adds_trans _ _ _ _ _ _ _ (adds_trans _ _ _ _ _ _ _ A1 A2) A3) as A.
  rewrite (map_union_comm m2 m1) in A by done. rewrite map_union_comm in A; [done|].
  by apply map_disjoint_union_r_2.
Qed.

(** Fields, password and one-time password of a version; a new entry seals its
    password first. *)
Lemma seal_given_adds id v c p t db :
  NoDup (sealed c).*1 ->
  (forall f, f ∈ (given_fields c p t).*1 -> vs_secrets db !! (id, v, f) = None) ->
  (exists db1 db2 db3, seal_fields id v (sealed c) db = Ok db1
     /\ seal_password id v p db1 = Ok db2 /\ seal_totp id v t db2 = Ok db3
     /\ adds id v (list_to_map (given_fields c p t)) db db3)
  /\ (exists db1 db2 db3, seal_password id v p db = Ok db1
        /\ seal_fields id v (sealed c) db1 = Ok db2 /\ seal_totp id v t db2 = Ok db3
        /\ adds id v (list_to_map (given_fields c p t)) db db3).
Proof.
  intros Hnd Hf. destruct (parts_apart (sealed c) p t) as (D12 & D13 & D23). rewrite given_map.
  assert (Hfields : forall n, n ∈ (sealed c).*1 -> vs_secrets db !! (id, v, secret_name n) = None)
    by (intros n Hn; apply Hf, elem_of_given; eauto).
  assert (Hpass : is_Some p -> vs_secrets db !! (id, v, PASSWORD) = None)
    by (intros Hp; apply Hf, elem_of_given; eauto).
  assert (Htotp : is_Some t -> vs_secrets db !! (id, v, TOTP_FIELD) = None)
    by (intros Ht; apply Hf, elem_of_given; eauto).
  assert (Hall : forall db, (forall n, n ∈ (sealed c).*1 -> vs_secrets db !! (id, v, secret_name n) = None) ->
            exists db', seal_fields id v (sealed c) db = Ok db' /\ adds id v (sealed_map (sealed c)) db db').
  { intros db0 H0. apply store_all_adds.
    - pose proof (given_once c p t Hnd) as Hg. unfold given_fields in Hg.
      rewrite fmap_app in Hg. by apply NoDup_app in Hg as [? _].
    - intros f (? & -> & ([n w] & -> & Hin)%list_elem_of_fmap)%list_elem_of_fmap. apply H0.
      apply list_elem_of_fmap. by exists (n, w). }
  assert (Hs : forall f, f = PASSWORD \/ f = TOTP_FIELD -> sealed_map (sealed c) !! f = None).
  { intros f Hor. apply sealed_map_None. intros n ->. destruct (secret_name_other n). naive_solver. }
  split.
  - destruct (Hall db Hfields) as (db1 & H1 & A1).
    destruct (seal_one_adds id v PASSWORD p db1) as (db2 & H2 & A2).
    { intros Hp. rewrite (adds_fresh _ _ _ _ _ _ A1) by (apply Hs; by left). by apply Hpass. }
    destruct (seal_one_adds id v TOTP_FIELD t db2) as (db3 & H3 & A3).
    { intros Ht. rewrite (adds_fresh _ _ _ _ _ _ A2) by (apply option_map_None; by left).
      rewrite (adds_fresh _ _ _ _ _ _ A1) by (apply Hs; by right). by apply Htotp. }
    exists db1, db2, db3. split_and!; [done..|]. by eapply adds_three.
  - destruct (seal_one_adds id v PASSWORD p db) as (db1 & H1 & A1); [done|].
    destruct (Hall db1) as (db2 & H2 & A2).
    { intros n Hn. rewrite (adds_fresh _ _ _ _ _ _ A1); [by apply Hfields|].
      apply option_map_None. left. by destruct (secret_name_other n). }
    destruct (seal_one_adds id v TOTP_FIELD t db2) as (db3 & H3 & A3).
    { intros Ht. rewrite (adds_fresh _ _ _ _ _ _ A2) by (apply Hs; by right).
      rewrite (adds_fresh _ _ _ _ _ _ A1) by (apply option_map_None; by left). by apply Htotp. }
    exists db1, db2, db3. split_and!; [done..|]. rewrite (map_union_comm (sealed_map _)) by done.
    eapply adds_three; [done..|by apply map_disjoint_sym|done|done].
Qed.

(** ** The tables in order *)

(** What the row of a credential says about its sealed fields. *)
Record credential_ok (db : VaultStore) (id : Uuid) (row : CredentialRow) : Prop := {
  has_password : is_Some (vs_secrets db !! (id, cr_version row, PASSWORD));
  says_totp : is_Some (vs_secrets db !! (id, cr_version row, TOTP_FIELD)) <-> cr_has_totp row = true;
  says_fields : forall n, is_Some (vs_secrets db !! (id, cr_version row, secret_name n))
                          <-> n ∈ protected_names (cr_fields row);
  fields_once : NoDup (fd_name <$> cr_fields row);
  fields_plain : Forall (fun f => fd_protected f = true -> fd_value f = None) (cr_fields row);
  versions_within : forall v f, is_Some (vs_secrets db !! (id, v, f)) -> 1 <= v <= cr_version row;
  known_fields : forall v f, is_Some (vs_secrets db !! (id, v, f)) ->
                   f = PASSWORD \/ f = TOTP_FIELD \/ exists n, f = secret_name n;
  only_text : forall v f b, vs_secrets db !! (id, v, f) = Some b -> is_Some (from_utf8 b)
}.

Record vault_ok (db : VaultStore) : Prop := {
  credentials_ok : forall id row, vs_credentials db !! id = Some row -> credential_ok db id row;
  owners_apart : forall id, is_Some (vs_credentials db !! id) -> vs_attachments db !! id = None;
  files_ok : forall a row, vs_attachments db !! a = Some row ->
               is_Some (vs_credentials db !! at_credential row)
               /\ is_Some (vs_secrets db !! (a, 1, CONTENT));
  owned : forall o v f, is_Some (vs_secrets db !! (o, v, f)) ->
            is_Some (vs_credentials db !! o)
            \/ (is_Some (vs_attachments db !! o) /\ v = 1 /\ f = CONTENT)
}.

(** An id the database has not given out. *)
Definition fresh (id : Uuid) (db : VaultStore) : Prop :=
  vs_credentials db !! id = None /\ vs_attachments db !! id = None.

Lemma fresh_secrets id db : vault_ok db -> fresh id db -> forall v f, vs_secrets db !! (id, v, f) = None.
Proof.
  intros Hok [Hc Ha] v f. apply eq_None_not_Some. intros Hs. apply (owned _ Hok) in Hs as [[? ?]|[[? ?] _]];
    congruence.
Qed.

(** A Rust string holds Unicode scalar values. *)
Definition is_text (s : list Z) : Prop := Forall (fun c => scalar c = true) s.

Definition texts (c : Checked) (password totp : option (list Z)) : Prop :=
  Forall (fun nv => is_text nv.2) (sealed c)
  /\ (forall p, password = Some p -> is_text p) /\ (forall t, totp = Some t -> is_text t).

Lemma given_is_text c p t f b :
  texts c p t -> (f, b) ∈ given_fields c p t -> is_Some (from_utf8 b).
Proof.
  intros (Hs & Hp & Ht). unfold given_fields. rewrite !elem_of_app, !elem_of_option_list, list_elem_of_fmap.
  intros [([n v] & [= -> ->] & Hin)|[Hb|Hb]].
  - rewrite Forall_forall in Hs. rewrite from_utf8_utf8 by (by apply (Hs (n, v))). eauto.
  - destruct p; simplify_eq/=. rewrite from_utf8_utf8 by (by apply Hp). eauto.
  - destruct t; simplify_eq/=. rewrite from_utf8_utf8 by (by apply Ht). eauto.
Qed.

(** ** What each handler does *)

Section handlers.
Context `{UuidText} `{Calendar} `{Base32}.

Definition input_text (input : CredentialInput) : Prop :=
  Forall (fun f => forall v, fi_value f = Some v -> is_text v) (di_fields (ci_details input))
  /\ (forall p, ci_password input = Some p -> is_text p)
  /\ (forall t, ci_totp input = Some t -> is_text t).

Lemma input_texts input details totp :
  input_text input -> check_details (ci_details input) = Ok details ->
  totp_input (ci_totp input) = Ok totp ->
  texts (dt_fields details) (ci_password input) (mjoin totp).
Proof.
  intros (Hf & Hp & Ht) Hd Htot. split_and!; [|done|].
  - unfold check_details in Hd. inv_ok Hd. subst details. simpl.
    match goal with Hc : check _ = Ok _ |- _ => apply check_iff in Hc as (_ & _ & _ & ->) end. simpl.
    apply Forall_forall. intros [n v] (f & Hin & _ & _ & Hv)%elem_of_sealed.
    rewrite Forall_forall in Hf. by apply (Hf f).
  - intros t Hj. unfold totp_input in Htot. destruct (ci_totp input) as [u|]; [|by simplify_eq].
    case_bool_decide; [by simplify_eq|]. destruct (params_parse u); simplify_eq/=.
    apply Forall_trim. by apply Ht.
Qed.

Lemma details_checked i details : check_details i = Ok details -> checked_ok (dt_fields details).
Proof.
  intros Hd. unfold check_details in Hd. inv_ok Hd. subst details. by eapply check_checked_ok.
Qed.

Lemma write_credential_ok id r db db' :
  write_credential id r db = Ok db' ->
  db' = on_credentials (insert id r) db /\ is_Some (vs_collections db !! cr_collection r).
Proof.
  unfold write_credential. destruct (existsb _ _); [done|].
  destruct (is_some _) eqn:Hc; [|done]. intros [= <-]. split; [done|]. by apply is_some_true.
Qed.

Lemma create_credential_ok s now id input seen db db' :
  vault_ok db -> fresh id db -> input_text input ->
  create_credential s now id input seen db = Ok db' ->
  exists row c p t db1, checked_ok c /\ kept c = [] /\ texts c (Some p) t
    /\ cr_version row = 1 /\ cr_fields row = stored c /\ cr_has_totp row = is_some t
    /\ cr_deleted_at row = None
    /\ adds id 1 (list_to_map (given_fields c (Some p) t)) (on_credentials (insert id row) db) db1
    /\ db' = vault_record s CredentialCreated (Credential id) db1.
Proof.
  intros Hok Hfresh Htext Hc. unfold create_credential in Hc. inv_ok Hc. subst db'.
  destruct (ci_password input) as [p|] eqn:Hp; [|done]. simplify_eq/=. bools.
  match goal with Hd : check_details _ = Ok ?d, Ht : totp_input _ = Ok ?o |- _ =>
    pose proof (input_texts _ _ _ Htext Hd Ht) as Htexts; pose proof (details_checked _ _ Hd) as Hck end.
  match goal with Hw : write_credential _ _ _ = Ok ?d |- _ =>
    apply write_credential_ok in Hw as [Hd _]; subst d end.
  match type of E7 with store_secret _ _ _ _ ?d = _ =>
    destruct (seal_given_adds id 1 (dt_fields a2) (Some a1) (mjoin a3) d)
      as [_ (d1 & d2 & d3 & H1' & H2' & H3' & A)];
      [by apply sealed_once|intros f _; by apply (fresh_secrets id db)|] end.
  unfold seal_password in H1'. rewrite E7 in H1'. injection H1' as ->.
  rewrite E8 in H2'. injection H2' as ->. rewrite E9 in H3'. injection H3' as ->.
  rewrite Hp in Htexts.
  match type of E7 with store_secret _ _ _ _ (on_credentials (insert _ ?r) _) = _ => exists r end.
  by exists (dt_fields a2), a1, (mjoin a3), d3.
Qed.

(** ** What a change does to an entry *)

(** The version a change leads to, and what is in it. *)
Definition changes (c : Checked) (password : option (list Z)) (totp : option (option (list Z)))
    (before : CredentialRow) : bool :=
  is_some password || changes_secrets c (cr_fields before) || totp_changes totp (cr_has_totp before).

(** What is carried is not sealed anew. *)
Lemma elem_of_carried d p t had f :
  f ∈ carried d p t had <->
  (exists n, n ∈ kept (dt_fields d) /\ f = secret_name n) \/ (f = PASSWORD /\ p = None)
  \/ (f = TOTP_FIELD /\ t = None /\ had = true).
Proof.
  unfold carried. rewrite !elem_of_app, list_elem_of_fmap.
  destruct p, t, had; simpl; rewrite ?list_elem_of_singleton, ?elem_of_nil; naive_solver.
Qed.

Lemma carried_apart d p t had f :
  checked_ok (dt_fields d) -> f ∈ carried d p t had ->
  f ∉ (given_fields (dt_fields d) p (mjoin t)).*1.
Proof.
  intros Hck. rewrite elem_of_carried, elem_of_given.
  intros [(n & Hn & ->)|[(-> & ->)|(-> & -> & _)]].
  - intros [(m & Hm & ->%secret_name_inj)|[[He _]|[He _]]]; [|by destruct (secret_name_other n)..].
    by apply (kept_apart _ Hck m).
  - intros [(m & _ & He)|[[_ [? ?]]|[He _]]]; [by destruct (secret_name_other m)|done|done].
  - intros [(m & _ & He)|[[He _]|[_ [? ?]]]]; [by destruct (secret_name_other m)|done|done].
Qed.

Lemma carried_once d p t had : checked_ok (dt_fields d) -> NoDup (carried d p t had).
Proof.
  intros Hck. unfold carried. apply NoDup_app. split_and!.
  - apply (NoDup_fmap_2_strong secret_name); [intros; by apply secret_name_inj|by apply kept_once].
  - intros f (n & -> & _)%list_elem_of_fmap. destruct (secret_name_other n).
    destruct p, t, had; simpl; rewrite ?list_elem_of_singleton, ?elem_of_cons, ?elem_of_nil; naive_solver.
  - destruct p, t, had; simpl; repeat constructor; rewrite ?list_elem_of_singleton, ?elem_of_nil; naive_solver.
Qed.

(** Carrying what stays and sealing what is given makes the next version. *)
Lemma seal_version_adds id from v d p t had db :
  from <> v -> checked_ok (dt_fields d) -> (forall f, vs_secrets db !! (id, v, f) = None) ->
  exists db1 db2 db3 db4, carry id from v (carried d p t had) db = Ok db1
    /\ seal_fields id v (sealed (dt_fields d)) db1 = Ok db2
    /\ seal_password id v p db2 = Ok db3 /\ seal_totp id v (mjoin t) db3 = Ok db4
    /\ adds id v (list_to_map (given_fields (dt_fields d) p (mjoin t))
                  ∪ carried_map id from (carried d p t had) db) db db4.
Proof.
  intros Hne Hck Hf.
  destruct (carry_adds id from v (carried d p t had) db) as (db1 & S1 & A1);
    [done|by apply carried_once|done|].
  destruct (seal_given_adds id v (dt_fields d) p (mjoin t) db1)
    as [(db2 & db3 & db4 & S2 & S3 & S4 & A2) _]; [by apply sealed_once| |].
  { intros f Hg. rewrite (adds_fresh _ _ _ _ _ _ A1); [done|]. rewrite lookup_carried_map.
    rewrite decide_False; [done|]. intros Hin. by apply carried_apart in Hin. }
  exists db1, db2, db3, db4. split_and!; [done..|]. by eapply adds_trans.
Qed.

Lemma update_credential_ok s now id input seen db db' row :
  vault_ok db -> vs_credentials seen !! id = Some row -> vs_credentials db !! id = Some row ->
  input_text input -> update_credential s now id input seen db = Ok db' ->
  exists row' details t db1,
    let c := dt_fields details in
    let p := ci_password input in
    check_details (ci_details input) = Ok details /\ totp_input (ci_totp input) = Ok t
    /\ checked_ok c /\ texts c p (mjoin t) /\ kept c ⊆ protected_names (cr_fields row)
    /\ cr_fields row' = stored c
    /\ cr_has_totp row' = match t with None => cr_has_totp row | Some t => is_some t end
    /\ cr_deleted_at row' = cr_deleted_at row
    /\ cr_version row' = cr_version row + (if changes c p t row then 1 else 0)
    /\ (if changes c p t row
        then adds id (cr_version row')
               (list_to_map (given_fields c p (mjoin t))
                ∪ carried_map id (cr_version row) (carried details p t (cr_has_totp row)) db)
               (on_credentials (insert id row') db) db1
        else db1 = on_credentials (insert id row') db)
    /\ exists a, db' = vault_record s a (Credential id) db1.
Proof.
  intros Hok Hseen Hdb Htext Hu. unfold update_credential in Hu. rewrite Hseen, Hdb in Hu.
  cbn [ok_or] in Hu. inv_ok Hu. subst db'.
  match goal with Hd : check_details _ = Ok ?d, Ht : totp_input _ = Ok ?o |- _ =>
    pose proof (input_texts _ _ _ Htext Hd Ht) as Htexts; pose proof (details_checked _ _ Hd) as Hck;
    rename d into details; rename o into t end.
  match goal with Hk : negb (keeps_only_what_was _ _) = false |- _ =>
    apply negb_false_iff, keeps_only_what_was_true in Hk; rename Hk into Hkept end.
  match goal with Hw : write_credential _ ?r _ = Ok ?d |- _ =>
    apply write_credential_ok in Hw as [Hd _]; subst d; set (row' := r) in * end.
  fold (changes (dt_fields details) (ci_password input) t row) in *.
  match goal with H1 : _ = Ok ?d1, H2 : seal_password _ _ _ ?d1 = Ok ?d2, H3 : seal_totp _ _ _ ?d2 = Ok ?d3 |- _ =>
    rename H1 into Hchg; rename H2 into Hpass; rename H3 into Htot; exists row', details, t, d3 end.
  split_and!; try done; [|eauto].
  destruct (changes _ _ _ _) eqn:Hch.
  - destruct (seal_version_adds id (cr_version row) (cr_version row + 1) details (ci_password input) t
      (cr_has_totp row) (on_credentials (insert id row') db)) as (d1 & d2 & d3 & d4 & H1' & H2' & H3' & H4' & A);
      [lia|done| |].
    { intros f. apply eq_None_not_Some. intros Hs.
      apply (versions_within _ _ _ (credentials_ok _ Hok id row Hdb)) in Hs. lia. }
    rewrite H1', H2' in Hchg. injection Hchg as <-. rewrite H3' in Hpass. injection Hpass as <-.
    rewrite H4' in Htot. by injection Htot as <-.
  - unfold changes in Hch. apply orb_false_iff in Hch as [[Hp _]%orb_false_iff Ht].
    injection Hchg as <-. apply is_some_false in Hp. rewrite Hp in Hpass. injection Hpass as <-.
    destruct t as [[t|]|]; [done|..]; by injection Htot as <-.
Qed.

(** ** Every step keeps the tables in order *)

Lemma credential_ok_frame db db' id row :
  (forall v f, vs_secrets db' !! (id, v, f) = vs_secrets db !! (id, v, f)) ->
  credential_ok db id row -> credential_ok db' id row.
Proof.
  intros Heq [Hp Ht Hf Ho Hpl Hv Hk Hx]. split; try done; intros *; rewrite ?Heq; eauto.
Qed.

Lemma elem_of_list_to_map_is_Some (l : list (list Z * list Z)) f :
  is_Some ((list_to_map l : Version) !! f) <-> f ∈ l.*1.
Proof.
  split.
  - intros Hs. destruct (decide (f ∈ l.*1)) as [|Hn]; [done|].
    apply not_elem_of_list_to_map_1 in Hn. rewrite Hn in Hs. by destruct Hs.
  - intros Hf. apply not_eq_None_Some. by intros Hx%not_elem_of_list_to_map_2.
Qed.

(** What the new version holds. *)
Lemma sealed_in c p t old f :
  is_Some ((list_to_map (given_fields c p t) ∪ old : Version) !! f)
  <-> f ∈ (given_fields c p t).*1 \/ is_Some (old !! f).
Proof.
  by rewrite lookup_union_is_Some, elem_of_list_to_map_is_Some.
Qed.

Lemma carried_in id from names db f :
  is_Some (carried_map id from names db !! f) <->
  f ∈ names /\ is_Some (vs_secrets db !! (id, from, f)).
Proof. rewrite lookup_carried_map. case_decide; naive_solver. Qed.

(** The sealed fields of a new version are those its row says, whether it is
    the first or follows one that was in order. *)
Lemma next_version_says db id row d p t :
  credential_ok db id row -> checked_ok (dt_fields d) ->
  kept (dt_fields d) ⊆ protected_names (cr_fields row) ->
  let m := list_to_map (given_fields (dt_fields d) p (mjoin t))
           ∪ carried_map id (cr_version row) (carried d p t (cr_has_totp row)) db : Version in
  is_Some (m !! PASSWORD)
  /\ (is_Some (m !! TOTP_FIELD)
      <-> match t with None => cr_has_totp row | Some t => is_some t end = true)
  /\ (forall n, is_Some (m !! secret_name n) <-> n ∈ protected_names (stored (dt_fields d)))
  /\ (forall f, is_Some (m !! f) -> f = PASSWORD \/ f = TOTP_FIELD \/ exists n, f = secret_name n).
Proof.
  intros Hrow Hck Hkept m. subst m.
  setoid_rewrite sealed_in. setoid_rewrite carried_in. setoid_rewrite elem_of_given.
  setoid_rewrite elem_of_carried. split_and!.
  - destruct p as [p|]; [left; right; left; eauto|right].
    split; [right; by left|]. by apply has_password.
  - rewrite (says_totp _ _ _ Hrow). split.
    + intros [[(n & _ & He)|[[He _]|[_ Ht]]]|[[(n & _ & He)|[[He _]|[_ [-> Hh]]]] _]];
        try (by destruct (secret_name_other n)); try done.
      destruct t as [[t|]|]; [done|by destruct Ht..].
    + destruct t as [[t|]|]; simpl; [left; right; right; eauto|done|right]. eauto 10.
  - intros n. rewrite (protected_split _ Hck), (says_fields _ _ _ Hrow). destruct (secret_name_other n). split.
    + intros [[(m & Hm & <-%secret_name_inj)|[[He _]|[He _]]]|[[(m & Hm & <-%secret_name_inj)|[[He _]|[He _]]] _]];
        [by right|done|done|by left|done|done].
    + intros [Hn|Hn]; [right; split; [left; eauto|by apply Hkept]|left; left; eauto].
  - intros f [[(n & _ & ->)|[[-> _]|[-> _]]]|[_ Hs]]; [eauto..|]. by apply (known_fields _ _ _ Hrow) in Hs.
Qed.

(** The version a row counts, put on top of those before. *)
Lemma credential_ok_next db db1 id row' m :
  adds id (cr_version row') m (on_credentials (insert id row') db) db1 ->
  (forall v f, is_Some (vs_secrets db !! (id, v, f)) ->
     1 <= v < cr_version row' /\ (f = PASSWORD \/ f = TOTP_FIELD \/ exists n, f = secret_name n)
     /\ forall b, vs_secrets db !! (id, v, f) = Some b -> is_Some (from_utf8 b)) ->
  1 <= cr_version row' ->
  is_Some (m !! PASSWORD) ->
  (is_Some (m !! TOTP_FIELD) <-> cr_has_totp row' = true) ->
  (forall n, is_Some (m !! secret_name n) <-> n ∈ protected_names (cr_fields row')) ->
  (forall f, is_Some (m !! f) -> f = PASSWORD \/ f = TOTP_FIELD \/ exists n, f = secret_name n) ->
  (forall f b, m !! f = Some b -> is_Some (from_utf8 b)) ->
  NoDup (fd_name <$> cr_fields row') ->
  Forall (fun f => fd_protected f = true -> fd_value f = None) (cr_fields row') ->
  credential_ok db1 id row'.
Proof.
  intros [_ Ha] Hold Hv Hp Ht Hn Hk Hx Hnd Hpl.
  assert (Hcur : forall f, vs_secrets db1 !! (id, cr_version row', f) = m !! f).
  { intros f. rewrite Ha, decide_True by done. simpl.
    assert (vs_secrets db !! (id, cr_version row', f) = None) as ->.
    { apply eq_None_not_Some. intros Hs. apply Hold in Hs as [? _]. lia. }
    by destruct (m !! f). }
  assert (Hother : forall v f, v <> cr_version row' -> vs_secrets db1 !! (id, v, f) = vs_secrets db !! (id, v, f)).
  { intros v f Hne. rewrite Ha, decide_False by naive_solver. done. }
  split; rewrite ?Hcur; try done.
  - intros n. by rewrite Hcur.
  - intros v f Hs. destruct (decide (v = cr_version row')) as [->|Hne]; [lia|].
    rewrite Hother in Hs by done. apply Hold in Hs as [? _]. lia.
  - intros v f Hs. destruct (decide (v = cr_version row')) as [->|Hne]; [rewrite Hcur in Hs; auto|].
    rewrite Hother in Hs by done. by apply Hold in Hs as (_ & ? & _).
  - intros v f b Hb. destruct (decide (v = cr_version row')) as [->|Hne]; [rewrite Hcur in Hb; eauto|].
    rewrite Hother in Hb by done. by apply (Hold v f).
Qed.

Inductive vault_step : VaultStore -> VaultStore -> Prop :=
| st_create s now id input seen db db' :
    fresh id db -> input_text input -> create_credential s now id input seen db = Ok db' ->
    vault_step db db'
| st_update s now id input seen db db' :
    (* nobody else changed the entry since it was read *)
    vs_credentials seen !! id = vs_credentials db !! id -> input_text input ->
    update_credential s now id input seen db = Ok db' -> vault_step db db'
| st_delete s now id purge seen db db' :
    (* no file has the id of a credential *)
    vs_attachments db !! id = None -> delete_credential s now id purge seen db = Ok db' -> vault_step db db'
| st_restore s now id seen db db' :
    restore_credential s now id seen db = Ok db' -> vault_step db db'
| st_create_collection s now id parent_id name seen db db' :
    create_collection s now id parent_id name seen db = Ok db' -> vault_step db db'
| st_update_collection s now id name parent_id seen db db' :
    update_collection s now id name parent_id seen db = Ok db' -> vault_step db db'
| st_delete_collection s now id seen db db' :
    delete_collection s now id seen db = Ok db' -> vault_step db db'
| st_upload s now new_id id name media_type content seen db db' :
    fresh new_id db -> upload s now new_id id name media_type content seen db = Ok db' ->
    vault_step db db'
| st_download s now id attachment purpose db name content db' :
    download s now id attachment purpose db = Ok (name, content, db') -> vault_step db db'
| st_delete_attachment s now id attachment seen db db' :
    delete_attachment s now id attachment seen db = Ok db' -> vault_step db db'
| st_reveal s now id purpose version db revealed db' :
    reveal_credential s now id purpose version db = Ok (revealed, db') -> vault_step db db'
| st_other objects grants db :
    (* devices, folders, profiles and grants change *)
    vault_step db {| vs_collections := vs_collections db; vs_credentials := vs_credentials db;
                     vs_attachments := vs_attachments db; vs_secrets := vs_secrets db;
                     vs_objects := objects; vs_grants := grants; vs_log := vs_log db |}.

(** What a step has to show. *)
Definition simulates (db db' : VaultStore) : Prop :=
  vault_ok db -> forall h, history_of db h ->
  vault_ok db' /\ exists h', rtc spec_step h h' /\ history_of db' h'.

Lemma history_of_frame db db' h :
  vs_credentials db' = vs_credentials db ->
  (forall id v f, is_Some (vs_credentials db !! id) ->
     vs_secrets db' !! (id, v, f) = vs_secrets db !! (id, v, f)) ->
  history_of db h -> history_of db' h.
Proof.
  intros Hc Hs Hh id. specialize (Hh id). rewrite Hc.
  destruct (vs_credentials db !! id) as [row|] eqn:Hrow; [|done].
  destruct Hh as (vs & Hvs & Hlen & Hat). exists vs. split; [done|]. split; [done|].
  intros v m Hm f. rewrite Hs by (by exists row). by apply Hat.
Qed.

(** The three tables the specification is about stay. *)
Lemma simulates_same db db' :
  vs_credentials db' = vs_credentials db -> vs_attachments db' = vs_attachments db ->
  vs_secrets db' = vs_secrets db -> simulates db db'.
Proof.
  intros Hc Ha Hs [Hrows Hapart Hfiles Howned] h Hh. split; [|exists h; split; [done|]].
  - split; rewrite ?Hc, ?Ha, ?Hs; try done. intros id row Hrow.
    eapply credential_ok_frame; [|by apply Hrows]. intros. by rewrite Hs.
  - eapply history_of_frame; [done| |done]. intros. by rewrite Hs.
Qed.

Lemma simulates_then db db1 db' : simulates db db1 -> simulates db1 db' -> simulates db db'.
Proof.
  intros S1 S2 Hok h Hh. destruct (S1 Hok h Hh) as (Hok1 & h1 & Hr1 & Hh1).
  destruct (S2 Hok1 h1 Hh1) as (Hok2 & h2 & Hr2 & Hh2). split; [done|]. exists h2. split; [|done].
  by etrans.
Qed.

(** A row changes, its sealed fields do not. *)
Lemma stays_with_row db id row row' h :
  vs_credentials db !! id = Some row -> cr_version row' = cr_version row ->
  cr_has_totp row' = cr_has_totp row ->
  NoDup (fd_name <$> cr_fields row') ->
  Forall (fun f => fd_protected f = true -> fd_value f = None) (cr_fields row') ->
  protected_names (cr_fields row') ≡ₚ protected_names (cr_fields row) ->
  vault_ok db -> history_of db h ->
  vault_ok (on_credentials (insert id row') db) /\ history_of (on_credentials (insert id row') db) h.
Proof.
  intros Hrow Hv Ht Hnd Hpl Hp [Hrows Hapart Hfiles Howned] Hh. split.
  - split; simpl.
    + intros j r. rewrite lookup_insert. case_decide as Hj; [subst j; intros [= <-]|].
      * destruct (Hrows id row Hrow) as [Cp Ct Cf Co Cpl Cv Ck Cx].
        split; simpl; rewrite ?Hv, ?Ht; try done. intros n. rewrite Hp. apply Cf.
      * intros Hr. by eapply credential_ok_frame; [|apply Hrows].
    + intros j. rewrite lookup_insert_is_Some. intros [<-|[_ Hj]]; apply Hapart; eauto.
    + intros a r Ha. destruct (Hfiles a r Ha) as [Hc Hs]. split; [|done].
      apply lookup_insert_is_Some. destruct (decide (id = at_credential r)); [by left|by right].
    + intros o v f Hs. destruct (Howned o v f Hs) as [Hc|?]; [left|by right].
      apply lookup_insert_is_Some. destruct (decide (id = o)); [by left|by right].
  - intros j. specialize (Hh j). simpl. rewrite lookup_insert. case_decide as Hj; [subst j|done].
    rewrite Hrow in Hh. destruct Hh as (vs & Hvs & Hlen & Hat). exists vs. split; [done|].
    split; [by rewrite Hv|done].
Qed.

Lemma version_at_cons (m : Version) vs v :
  version_at (m :: vs) v = if v =? Z.of_nat (length vs) + 1 then Some m else version_at vs v.
Proof.
  unfold version_at. cbn [length]. destruct (v =? Z.of_nat (length vs) + 1) eqn:E; bools.
  - subst v. rewrite (proj2 (Z.leb_le 1 _)), (proj2 (Z.leb_le _ (Z.of_nat (S (length vs))))) by lia. simpl.
    by replace (Z.to_nat (Z.of_nat (S (length vs)) - (Z.of_nat (length vs) + 1))) with 0%nat by lia.
  - destruct (decide (1 <= v <= Z.of_nat (length vs))) as [Hv|Hv].
    + rewrite (proj2 (Z.leb_le 1 v)), (proj2 (Z.leb_le v (Z.of_nat (S (length vs))))),
        (proj2 (Z.leb_le v (Z.of_nat (length vs)))) by lia. cbn [andb].
      replace (Z.to_nat (Z.of_nat (S (length vs)) - v))
        with (S (Z.to_nat (Z.of_nat (length vs) - v))) by lia. done.
    + destruct (1 <=? v) eqn:E1; [|done]. cbn [andb].
      destruct (v <=? Z.of_nat (length vs)) eqn:E2; bools; [lia|].
      destruct (v <=? Z.of_nat (S (length vs))) eqn:E3; bools; [lia|done].
Qed.

(** The other owners do not see what is added to one. *)
Lemma adds_vault_ok db db1 id row' m :
  vault_ok db -> vs_attachments db !! id = None ->
  adds id (cr_version row') m (on_credentials (insert id row') db) db1 ->
  credential_ok db1 id row' -> vault_ok db1.
Proof.
  intros [Hrows Hapart Hfiles Howned] Hatt [Hdb Ha] Hrow.
  assert (Hother : forall o v f, o <> id -> vs_secrets db1 !! (o, v, f) = vs_secrets db !! (o, v, f))
    by (intros o v f Hne; rewrite Ha, decide_False by naive_solver; done).
  rewrite Hdb. split; simpl.
  - intros j r. rewrite lookup_insert. case_decide as Hj; [subst j; intros [= <-]|].
    + eapply credential_ok_frame; [|exact Hrow]. done.
    + intros Hr. eapply credential_ok_frame; [|by apply Hrows]. intros. simpl. by apply Hother.
  - intros j. rewrite lookup_insert_is_Some. intros [<-|[_ Hj]]; [done|by apply Hapart].
  - intros a r Hr. destruct (Hfiles a r Hr) as [Hc Hs]. split.
    + apply lookup_insert_is_Some. destruct (decide (id = at_credential r)); [by left|by right].
    + rewrite Hother; [done|congruence].
  - intros o v f Hs. rewrite lookup_insert_is_Some. destruct (decide (id = o)) as [->|Hne]; [by left; left|].
    rewrite Hother in Hs by done. destruct (Howned o v f Hs) as [?|?]; [by left; right|by right].
Qed.

Lemma adds_history db db1 id row' m vs h :
  history_of db h -> adds id (cr_version row') m (on_credentials (insert id row') db) db1 ->
  cr_version row' = Z.of_nat (length vs) + 1 ->
  (forall v u, version_at vs v = Some u -> forall f, vs_secrets db !! (id, v, f) = u !! f) ->
  (forall f, vs_secrets db !! (id, cr_version row', f) = None) ->
  history_of db1 (<[id := m :: vs]> h).
Proof.
  intros Hh [Hdb Ha] Hlen Hat Hnew j. rewrite Hdb. cbn [on_secrets on_credentials vs_credentials].
  rewrite !lookup_insert. case_decide as Hj.
  - subst j. exists (m :: vs). split; [done|]. split; [simpl; lia|].
    intros v u. rewrite version_at_cons. destruct (v =? Z.of_nat (length vs) + 1) eqn:E; bools.
    + intros [= <-] f. cbn [vs_secrets]. rewrite Ha, decide_True by (split; [done|lia]). simpl.
      replace v with (cr_version row') by lia. rewrite Hnew. by destruct (m !! f).
    + intros Hu f. cbn [vs_secrets]. rewrite Ha, decide_False by (intros [_ ?]; lia). by apply Hat.
  - specialize (Hh j). destruct (vs_credentials db !! j) as [r|]; [|done].
    destruct Hh as (vs' & Hvs & Hlen' & Hat'). exists vs'. split; [done|]. split; [done|].
    intros v u Hu f. cbn [vs_secrets]. rewrite Ha, decide_False by naive_solver. by apply Hat'.
Qed.

Lemma vault_record_simulates s a o db : simulates db (vault_record s a o db).
Proof. by apply simulates_same. Qed.

Lemma create_simulates s now id input seen db db' :
  fresh id db -> input_text input -> create_credential s now id input seen db = Ok db' ->
  simulates db db'.
Proof.
  intros Hfresh Htext Hc Hok h Hh.
  destruct (create_credential_ok _ _ _ _ _ _ _ Hok Hfresh Htext Hc)
    as (row & c & p & t & db1 & Hck & Hkept & Htexts & Hv & Hf & Ht & _ & Ha & ->).
  pose proof (fresh_secrets id db Hok Hfresh) as Hnone. destruct Hfresh as [Hcr Hat].
  rewrite <- Hv in Ha at 1.
  apply (simulates_then db db1); [|apply vault_record_simulates|done|done]. clear Hok h Hh.
  intros Hok h Hh. split.
  - apply (adds_vault_ok db db1 id row (list_to_map (given_fields c (Some p) t))); try done.
    apply (credential_ok_next db _ _ _ _ Ha); [|lia|..].
    + intros v f Hs. rewrite Hnone in Hs. by destruct Hs.
    + apply elem_of_list_to_map_is_Some, elem_of_given. eauto.
    + rewrite elem_of_list_to_map_is_Some, elem_of_given, Ht, is_some_true.
      pose proof secret_name_other. naive_solver.
    + intros n. rewrite elem_of_list_to_map_is_Some, elem_of_given, Hf, (protected_split _ Hck), Hkept.
      destruct (secret_name_other n). rewrite elem_of_nil. split.
      * intros [(m & Hm & <-%secret_name_inj)|[[? _]|[? _]]]; [by right|done|done].
      * intros [[]|?]. left. eauto.
    + intros f. rewrite elem_of_list_to_map_is_Some, elem_of_given. naive_solver.
    + intros f b Hb%elem_of_list_to_map_2. by eapply given_is_text.
    + rewrite Hf. by apply names_once.
    + rewrite Hf. by apply no_plain_secret.
  - exists (<[id := [list_to_map (given_fields c (Some p) t)]]> h).
    assert (Hn : h !! id = None) by (specialize (Hh id); by rewrite Hcr in Hh).
    split; [by apply rtc_once, sp_create|].
    eapply (adds_history db db1 id row _ []); [done|done|simpl; lia| |done].
    intros v u Hu. unfold version_at in Hu. simpl in Hu. destruct (_ && _) eqn:E in Hu; [bools; lia|done].
Qed.

Lemma totp_stays (t : option (option (list Z))) had :
  totp_changes t had = false -> match t with None => had | Some t => is_some t end = had.
Proof. by destruct t as [[?|]|]; simpl. Qed.

(** A field that came into a new version is text. *)
Lemma next_is_text db id row d p t f b :
  credential_ok db id row -> texts (dt_fields d) p (mjoin t) ->
  (list_to_map (given_fields (dt_fields d) p (mjoin t))
   ∪ carried_map id (cr_version row) (carried d p t (cr_has_totp row)) db : Version) !! f = Some b ->
  is_Some (from_utf8 b).
Proof.
  intros Hrow Htexts [Hb%elem_of_list_to_map_2|[_ Hb]]%lookup_union_Some_raw.
  - by eapply given_is_text.
  - rewrite lookup_carried_map in Hb. case_decide; [|done]. by apply (only_text _ _ _ Hrow) in Hb.
Qed.

(** The carried fields are those of the newest version. *)
Lemma carried_newest db id row vs v0 names :
  entry_history db id row (v0 :: vs) -> carried_map id (cr_version row) names db = filter (fun kv => kv.1 ∈ names) v0.
Proof.
  intros [Hlen Hat]. simpl in Hlen. apply map_eq. intros f. rewrite lookup_carried_map, map_lookup_filter.
  rewrite (Hat (cr_version row) v0).
  2:{ rewrite version_at_cons. rewrite (proj2 (Z.eqb_eq _ _)); [done|lia]. }
  destruct (v0 !! f) as [b|]; simpl; by repeat case_decide.
Qed.

Lemma update_exact s now id input seen db db' h row :
  vault_ok db -> history_of db h -> vs_credentials db !! id = Some row ->
  vs_credentials seen !! id = Some row -> input_text input ->
  update_credential s now id input seen db = Ok db' ->
  exists details t v vs, check_details (ci_details input) = Ok details
    /\ totp_input (ci_totp input) = Ok t /\ h !! id = Some (v :: vs)
    /\ kept (dt_fields details) ⊆ protected_names (cr_fields row)
    /\ vault_ok db'
    /\ history_of db'
         (if changes (dt_fields details) (ci_password input) t row
          then <[id := next_version (given_fields (dt_fields details) (ci_password input) (mjoin t))
                         (carried details (ci_password input) t (cr_has_totp row)) v :: v :: vs]> h
          else h).
Proof.
  intros Hok Hh Hdb Hseen Htext Hu. pose proof (credentials_ok _ Hok id row Hdb) as Hrow.
  destruct (update_credential_ok _ _ _ _ _ _ _ _ Hok Hseen Hdb Htext Hu)
    as (row' & d & t & db1 & Hd & Htin & Hck & Htexts & Hkept & Hf & Ht & Hdel & Hv & Hch & a & ->).
  pose proof (Hh id) as Hid. rewrite Hdb in Hid. destruct Hid as (vs & Hvs & Hlen & Hat).
  pose proof (versions_within _ _ _ Hrow _ _ (has_password _ _ _ Hrow)) as Hv1.
  destruct vs as [|v0 vs]; [simpl in Hlen; lia|].
  exists d, t, v0, vs. do 4 (split; [done|]).
  assert (Hgoal : vault_ok db1 /\ history_of db1
         (if changes (dt_fields d) (ci_password input) t row
          then <[id := next_version (given_fields (dt_fields d) (ci_password input) (mjoin t))
                         (carried d (ci_password input) t (cr_has_totp row)) v0 :: v0 :: vs]> h
          else h)).
  2:{ destruct Hgoal as [Hok' Hh']. split; [by eapply vault_record_simulates|by apply (history_of_frame db1)]. }
  destruct (changes _ _ _ _) eqn:Hc.
  - destruct (next_version_says db id row d (ci_password input) t Hrow Hck Hkept) as (Np & Nt & Nn & Nk).
    split.
    + eapply (adds_vault_ok db db1 id row'); [done| |done|].
      { apply (owners_apart _ Hok). eauto. }
      apply (credential_ok_next db _ _ _ _ Hch); [|lia|done|by rewrite Ht|by rewrite Hf|done| |by rewrite Hf; apply names_once|by rewrite Hf; apply no_plain_secret].
      * intros v f Hs. split; [|split].
        -- pose proof (versions_within _ _ _ Hrow v f Hs). lia.
        -- by apply (known_fields _ _ _ Hrow v).
        -- intros b. apply (only_text _ _ _ Hrow).
      * intros f b. by apply next_is_text.
    + rewrite (carried_newest db id row vs v0 _ (conj Hlen Hat)) in Hch.
      eapply (adds_history db db1 id row' _ (v0 :: vs) h); [done|exact Hch|lia|exact Hat|].
      intros f. apply eq_None_not_Some. intros Hs%(versions_within _ _ _ Hrow). lia.
  - subst db1. apply orb_false_iff in Hc as [[_ Hcs]%orb_false_iff Htc].
    apply changes_secrets_false in Hcs as [_ Hperm].
    apply (stays_with_row db id row row'); try done; [lia| |by rewrite Hf; apply names_once|by rewrite Hf; apply no_plain_secret|by rewrite Hf].
    rewrite Ht. by apply totp_stays.
Qed.

Lemma update_simulates s now id input seen db db' :
  vs_credentials seen !! id = vs_credentials db !! id -> input_text input ->
  update_credential s now id input seen db = Ok db' -> simulates db db'.
Proof.
  intros Hsame Htext Hu Hok h Hh.
  assert (is_Some (vs_credentials db !! id)) as [row Hdb].
  { unfold update_credential in Hu. inv_ok Hu.
    match goal with Ho : ok_or (vs_credentials db !! id) _ = Ok _ |- _ =>
      destruct (vs_credentials db !! id); [eauto|discriminate Ho] end. }
  rewrite Hdb in Hsame.
  destruct (update_exact _ _ _ _ _ _ _ _ _ Hok Hh Hdb Hsame Htext Hu)
    as (d & t & v & vs & _ & _ & Hvs & _ & Hok' & Hh'). split; [done|].
  eexists. split; [|exact Hh']. destruct (changes _ _ _ _); [|done].
  by apply rtc_once, sp_change.
Qed.

Lemma lookup_secrets_not_in (ids : list Uuid) (m : SecretRows) o v f :
  filter (fun kv => kv.1.1.1 ∉ ids) m !! (o, v, f) = if decide (o ∈ ids) then None else m !! (o, v, f).
Proof.
  rewrite map_lookup_filter. destruct (m !! (o, v, f)); simpl; repeat (case_guard || case_decide); naive_solver.
Qed.

Lemma lookup_secrets_not (old : Uuid) (m : SecretRows) o v f :
  filter (fun kv => kv.1.1.1 <> old) m !! (o, v, f) = if decide (o = old) then None else m !! (o, v, f).
Proof.
  rewrite map_lookup_filter. destruct (m !! (o, v, f)); simpl; repeat (case_guard || case_decide); naive_solver.
Qed.

Lemma elem_of_attachments_of ids db a :
  a ∈ attachments_of ids db <-> exists row, vs_attachments db !! a = Some row /\ at_credential row ∈ ids.
Proof.
  unfold attachments_of. rewrite list_elem_of_fmap. setoid_rewrite list_elem_of_filter. split.
  - intros ([k r] & -> & Hr & Hin%elem_of_map_to_list). eauto.
  - intros (r & Hr & Hin). exists (a, r). by rewrite elem_of_map_to_list.
Qed.

(** What purging leaves: the rows of no purged credential and of no file of
    one; everything else as it was. *)
Lemma purge_lookups ids db :
  let db' := purge_credentials ids db in
  (forall id, vs_credentials db' !! id = if decide (id ∈ ids) then None else vs_credentials db !! id)
  /\ (forall a, vs_attachments db' !! a
        = if decide (a ∈ attachments_of ids db) then None else vs_attachments db !! a)
  /\ (forall o v f, vs_secrets db' !! (o, v, f)
        = if decide (o ∈ ids \/ o ∈ attachments_of ids db) then None else vs_secrets db !! (o, v, f)).
Proof.
  split_and!; simpl.
  - intros id. rewrite map_lookup_filter.
    destruct (vs_credentials db !! id); simpl; repeat (case_guard || case_decide); naive_solver.
  - intros a. rewrite map_lookup_filter. destruct (vs_attachments db !! a) as [r|] eqn:Ha; simpl.
    + case_guard as Hin.
      * rewrite decide_False; [done|]. intros (r' & Hr' & ?)%elem_of_attachments_of. naive_solver.
      * rewrite decide_True; [done|]. apply elem_of_attachments_of. exists r. split; [done|].
        by destruct (decide (at_credential r ∈ ids)).
    + by case_decide.
  - intros o v f. rewrite !lookup_secrets_not_in.
    repeat case_decide; naive_solver.
Qed.

Lemma purge_simulates ids db :
  (forall id, id ∈ ids -> vs_attachments db !! id = None) -> simulates db (purge_credentials ids db).
Proof.
  intros Hids Hok h Hh. destruct (purge_lookups ids db) as (Hc & Ha & Hs).
  assert (Hstay : forall id, is_Some (vs_credentials db !! id) -> id ∉ ids ->
            forall v f, vs_secrets (purge_credentials ids db) !! (id, v, f) = vs_secrets db !! (id, v, f)).
  { intros id Hrow Hn v f. rewrite Hs, decide_False; [done|].
    intros [?|(r & Hr & _)%elem_of_attachments_of]; [done|].
    apply (owners_apart _ Hok) in Hrow. congruence. }
  split; [|exists (filter (fun kv => kv.1 ∉ ids) h); split; [by apply rtc_once, sp_purge|]].
  - split.
    + intros id row. rewrite Hc. case_decide; [done|]. intros Hrow.
      eapply credential_ok_frame; [|by apply (credentials_ok _ Hok)]. apply Hstay; eauto.
    + intros id. rewrite Hc, Ha. case_decide; [by intros [? ?]|]. intros Hrow.
      apply (owners_apart _ Hok) in Hrow. rewrite Hrow. by case_decide.
    + intros a r. rewrite Ha. case_decide as Hin; [done|]. intros Hr.
      destruct (files_ok _ Hok a r Hr) as [Hcr Hsec].
      assert (at_credential r ∉ ids) as Hni
        by (intros ?; apply Hin, elem_of_attachments_of; eauto).
      split; [by rewrite Hc, decide_False|]. rewrite Hs, decide_False; [done|].
      intros [Hi|?]; [|done]. apply Hids in Hi. congruence.
    + intros o v f. rewrite Hs. case_decide as Hin; [by intros [? ?]|]. intros Hsec.
      rewrite Hc, Ha. rewrite !decide_False by naive_solver. by apply (owned _ Hok).
  - intros id. specialize (Hh id). rewrite Hc, map_lookup_filter. case_decide as Hin.
    + destruct (h !! id); simpl; [|done]. by rewrite option_guard_False by naive_solver.
    + destruct (vs_credentials db !! id) as [row|] eqn:Hrow; [|by rewrite Hh].
      destruct Hh as (vs & -> & Hlen & Hat). exists vs. simpl. rewrite option_guard_True by done.
      split; [done|]. split; [done|]. intros v m Hm f. rewrite Hstay by eauto. by apply Hat.
Qed.

(** A file goes with its content. *)
Lemma drop_file_simulates a db :
  is_Some (vs_attachments db !! a) ->
  simulates db (on_secrets (filter (fun kv => kv.1.1.1 <> a)) (on_attachments (delete a) db)).
Proof.
  intros Ha Hok h Hh.
  assert (Hno : vs_credentials db !! a = None).
  { apply eq_None_not_Some. intros Hc%(owners_apart _ Hok). rewrite Hc in Ha. by destruct Ha. }
  split; [split; simpl|exists h; split; [done|]].
  - intros id row Hrow. eapply credential_ok_frame; [|by apply (credentials_ok _ Hok)].
    intros v f. simpl. rewrite lookup_secrets_not, decide_False; [done|congruence].
  - intros id Hc. apply (owners_apart _ Hok) in Hc. rewrite lookup_delete. by case_decide.
  - intros b r [Hne Hr]%lookup_delete_Some. destruct (files_ok _ Hok b r Hr) as [Hcr Hsec].
    split; [done|]. by rewrite lookup_secrets_not, decide_False by done.
  - intros o v f. rewrite lookup_secrets_not. case_decide as Hoa; [by intros [? ?]|]. intros Hsec.
    rewrite lookup_delete_ne by done. by apply (owned _ Hok).
  - apply (history_of_frame db); [done| |done]. intros id v f Hc. simpl.
    rewrite lookup_secrets_not, decide_False; [done|]. intros ->. rewrite Hno in Hc. by destruct Hc.
Qed.

(** A file comes with its content. *)
Lemma add_file_simulates a row content db db' :
  fresh a db -> is_Some (vs_credentials db !! at_credential row) ->
  store_secret a 1 CONTENT content (on_attachments (insert a row) db) = Ok db' -> simulates db db'.
Proof.
  intros [Hc Ha] Hcr Hst Hok h Hh. unfold store_secret in Hst. destruct (is_some _); [done|].
  injection Hst as <-.
  assert (Hother : forall o v f, o <> a -> <[(a, 1, CONTENT) := content]> (vs_secrets db) !! (o, v, f)
                                            = vs_secrets db !! (o, v, f))
    by (intros o v f Hne; apply lookup_insert_ne; congruence).
  split; [split; simpl|exists h; split; [done|]].
  - intros id r Hrow. eapply credential_ok_frame; [|by apply (credentials_ok _ Hok)].
    intros v f. simpl. apply Hother. congruence.
  - intros id Hid. rewrite lookup_insert_ne by (intros ->; rewrite Hc in Hid; by destruct Hid).
    by apply (owners_apart _ Hok).
  - intros b r. rewrite lookup_insert. case_decide as Hb.
    + intros [= <-]. subst b. split; [done|]. by rewrite lookup_insert_eq.
    + intros Hr. rewrite Hother by done. by apply (files_ok _ Hok).
  - intros o v f. rewrite !lookup_insert_is_Some. intros [[= <- <- <-]|[_ Hs]]; [right; eauto|].
    destruct (owned _ Hok o v f Hs) as [?|[? ?]]; [by left|right]. split; [|done].
    destruct (decide (a = o)); [by left|by right].
  - apply (history_of_frame db); [done| |done]. intros id v f Hid. simpl. apply Hother.
    intros ->. rewrite Hc in Hid. by destruct Hid.
Qed.

Lemma upload_simulates s now new_id id name media_type content seen db db' :
  fresh new_id db -> upload s now new_id id name media_type content seen db = Ok db' -> simulates db db'.
Proof.
  intros [Hfc Hfa] Hu. unfold upload in Hu. inv_ok Hu. subst db'.
  set (db1 := match attachment_named id _ db with None => db | Some old => _ end) in *.
  assert (Hdrop : simulates db db1 /\ vs_credentials db1 = vs_credentials db /\ vs_attachments db1 !! new_id = None).
  { subst db1. destruct (attachment_named id a db) as [old|] eqn:Hn; [|by split; [apply simulates_same|]].
    unfold attachment_named in Hn. apply fmap_Some in Hn as ([k r] & Hf & ->).
    apply find_some in Hf as [Hin%list_elem_of_In%elem_of_map_to_list _]. simpl. split; [|split; [done|]].
    - apply drop_file_simulates. simpl. eauto.
    - rewrite lookup_delete. by case_decide. }
  destruct Hdrop as (Hdrop & Hcs & Hfa').
  match goal with Hst : store_secret _ _ _ _ _ = Ok ?d |- _ =>
    apply (simulates_then db d); [|apply vault_record_simulates];
    apply (simulates_then db db1); [done|]; eapply add_file_simulates; [|..|exact Hst] end.
  - split; [by rewrite Hcs|done].
  - simpl. apply is_some_true. by apply negb_false_iff.
Qed.

Lemma set_deleted_simulates id r at_ db :
  vs_credentials db !! id = Some r -> simulates db (on_credentials (insert id (set_deleted at_ r)) db).
Proof.
  intros Hr Hok h Hh. pose proof (credentials_ok _ Hok id r Hr) as Hrow.
  destruct (stays_with_row db id r (set_deleted at_ r) h) as [? ?]; try done;
    [apply (fields_once _ _ _ Hrow)|apply (fields_plain _ _ _ Hrow)|]. split; [done|]. by exists h.
Qed.

Lemma write_collection_simulates id r db db' : write_collection id r db = Ok db' -> simulates db db'.
Proof. unfold write_collection. repeat (case_match; try done). intros [= <-]. by apply simulates_same. Qed.

Lemma step_simulates db db' : vault_step db db' -> simulates db db'.
Proof.
  destruct 1 as [s now id input seen db db' Hf Ht Hs|s now id input seen db db' Hsame Ht Hs
    |s now id purge seen db db' Hna Hs|s now id seen db db' Hs|s now id p n seen db db' Hs
    |s now id n p seen db db' Hs|s now id seen db db' Hs|s now new_id id n mt content seen db db' Hf Hs
    |s now id a p db n content db' Hs|s now id a seen db db' Hs|s now id p v db r db' Hs|objects grants db].
  - by eapply create_simulates.
  - by eapply update_simulates.
  - unfold delete_credential in Hs. inv_ok Hs. destruct purge.
    + injection Hs as <-. apply (simulates_then db (purge_credentials [id] db)); [|apply vault_record_simulates].
      apply purge_simulates. by intros j ->%list_elem_of_singleton.
    + destruct (vs_credentials db !! id) as [r|] eqn:Hr; [|injection Hs as <-; by apply simulates_same].
      destruct (is_some _); [injection Hs as <-; by apply simulates_same|]. injection Hs as <-.
      apply (simulates_then db (on_credentials (insert id (set_deleted (Some now) r)) db));
        [|apply vault_record_simulates].
      by apply set_deleted_simulates.
  - unfold restore_credential in Hs. inv_ok Hs.
    destruct (vs_credentials db !! id) as [r|] eqn:Hr; [|done].
    destruct (is_some _); [|done]. injection Hs as <-.
    apply (simulates_then db (on_credentials (insert id (set_deleted None r)) db)); [|apply vault_record_simulates].
    by apply set_deleted_simulates.
  - unfold create_collection in Hs. inv_ok Hs. subst db'.
    match goal with Hw : write_collection _ _ _ = Ok ?d |- _ =>
      apply (simulates_then db d); [by eapply write_collection_simulates|apply vault_record_simulates] end.
  - unfold update_collection in Hs. inv_ok Hs. subst db'.
    match goal with Hw : match vs_collections db !! id with _ => _ end = Ok ?d |- _ =>
      apply (simulates_then db d); [|apply vault_record_simulates];
      destruct (vs_collections db !! id); [by eapply write_collection_simulates|injection Hw as <-] end.
    by apply simulates_same.
  - unfold delete_collection, drop_collection in Hs. inv_ok Hs. subst db'.
    match goal with Hd : (if _ then _ else _) = Ok ?d |- _ => destruct (_ || _) in Hd; [done|]; injection Hd as <- end.
    apply (simulates_then db (purge_credentials (binned id db) db)); [|by apply simulates_same].
    intros Hok h Hh.
    apply (purge_simulates (binned id db) db); [|done|done].
    intros j ([k r] & -> & [_ Hin%elem_of_map_to_list]%list_elem_of_filter)%list_elem_of_fmap.
    apply (owners_apart _ Hok). simpl. eauto.
  - by eapply upload_simulates.
  - unfold download in Hs. inv_ok Hs. simplify_eq. by apply simulates_same.
  - unfold delete_attachment in Hs. inv_ok Hs. subst db'.
    match goal with |- simulates _ (vault_record _ _ _ ?d) =>
      apply (simulates_then db d); [|apply vault_record_simulates] end.
    apply drop_file_simulates. destruct (vs_attachments db !! a); [eauto|done].
  - unfold reveal_credential in Hs. inv_ok Hs. simplify_eq. by apply simulates_same.
  - by apply simulates_same.
Qed.

(** ** What the vault promises *)

(** C9: The tables implement the histories: from tables in order, whatever
    requests follow, the tables stay in order and are at every moment those of
    a history the specification allows, so that versions are only ever put in
    front and an entry goes as a whole. *)
Theorem vault_implements_history (db db' : VaultStore) (h : History) :
  vault_ok db -> history_of db h -> rtc vault_step db db' ->
  vault_ok db' /\ exists h', rtc spec_step h h' /\ history_of db' h'.
Proof.
  intros Hok Hh Hrtc.
  apply (rtc_closed vault_step (fun d => vault_ok d /\ exists h', rtc spec_step h h' /\ history_of d h') db);
    [|done|split; [done|by exists h]].
  intros d d' (Hd & h1 & Hr1 & Hh1) Hstep.
  destruct (step_simulates _ _ Hstep Hd h1 Hh1) as (Hok1 & h2 & Hr2 & Hh2).
  split; [done|]. exists h2. split; [by etrans|done].
Qed.

(** A change that nobody else's change came between seals exactly what it
    was given: if it gives a value or changes what is protected, the new
    version has the given values, keeps the fields named as kept and, unless
    replaced or removed, the password and the one-time password of the version
    before, and nothing else; otherwise there is no new version. Every older
    version, and every other entry, stays as it was. *)
Theorem change_seals_exactly (s : Session) (now : Z) (id : Uuid) (input : CredentialInput)
    (seen db db' : VaultStore) (h : History) (row : CredentialRow) :
  vault_ok db -> history_of db h -> vs_credentials db !! id = Some row ->
  vs_credentials seen !! id = Some row -> input_text input ->
  update_credential s now id input seen db = Ok db' ->
  exists details t v vs, check_details (ci_details input) = Ok details
    /\ totp_input (ci_totp input) = Ok t /\ h !! id = Some (v :: vs)
    /\ kept (dt_fields details) ⊆ protected_names (cr_fields row)
    /\ history_of db'
         (if is_some (ci_password input) || changes_secrets (dt_fields details) (cr_fields row)
             || totp_changes t (cr_has_totp row)
          then <[id := next_version (given_fields (dt_fields details) (ci_password input) (mjoin t))
                         (carried details (ci_password input) t (cr_has_totp row)) v :: v :: vs]> h
          else h).
Proof.
  intros Hok Hh Hdb Hseen Htext Hu.
  destruct (update_exact _ _ _ _ _ _ _ _ _ Hok Hh Hdb Hseen Htext Hu)
    as (d & t & v & vs & ? & ? & ? & ? & _ & ?). by exists d, t, v, vs.
Qed.

(** *** Revealing *)

Lemma stored_text_ok db id row v f :
  credential_ok db id row ->
  exists t, stored_text db id v f = Ok t /\ utf8 <$> t = vs_secrets db !! (id, v, f).
Proof.
  intros Hrow. unfold stored_text, load_secret. destruct (vs_secrets db !! (id, v, f)) as [b|] eqn:Hb; [|by exists None].
  destruct (only_text _ _ _ Hrow v f b Hb) as [t Ht]. rewrite Ht. exists (Some t). split; [done|].
  simpl. f_equal. by apply utf8_from_utf8.
Qed.

Lemma reveal_fields_ok db id row v names :
  credential_ok db id row -> (forall n, n ∈ names -> is_Some (vs_secrets db !! (id, v, secret_name n))) ->
  exists l, reveal_fields db id v names = Ok l /\ l.*1 = names
    /\ forall n t, (n, t) ∈ l -> vs_secrets db !! (id, v, secret_name n) = Some (utf8 t).
Proof.
  intros Hrow. induction names as [|n names IH]; intros Hn; cbn [reveal_fields].
  { exists []. split_and!; [done..|]. by intros n t ?%elem_of_nil. }
  destruct (stored_text_ok db id row v (secret_name n) Hrow) as (t & -> & Ht).
  destruct IH as (l & -> & Hl & Hv); [intros m Hm; apply Hn; by right|].
  destruct (Hn n) as [b Hb]; [left|]. rewrite Hb in Ht. destruct t as [t|]; simplify_eq/=.
  exists ((n, t) :: l). split_and!; [done|simpl; by f_equal|].
  intros m u [[= -> ->]|Hin]%elem_of_cons; [done|by apply Hv].
Qed.

Lemma elem_of_fields_of_version db id v n :
  n ∈ fields_of_version id v db <-> is_Some (vs_secrets db !! (id, v, secret_name n)).
Proof.
  unfold fields_of_version. rewrite list_elem_of_omap. split.
  - intros ([[[o w] f] b] & Hin%elem_of_map_to_list & Hf). cbn [fst snd] in Hf.
    destruct (_ && _) eqn:E; [|done]. bools. subst.
    apply strip_prefix_Some in Hf as ->. eauto.
  - intros [b Hb]. exists (id, v, secret_name n, b). split; [by apply elem_of_map_to_list|].
    cbn [fst snd]. rewrite !Z.eqb_refl. cbn [andb].
    exact (proj2 (strip_prefix_Some (lit "field:") (secret_name n) n) eq_refl).
Qed.

Lemma vault_contains db now id :
  contains (vault_catalog db now) (Credential id) = true <-> is_Some (vs_credentials db !! id).
Proof.
  unfold vault_catalog, load, catalog_new, contains, vault_objects.
  cbn [credential_collection credentials]. rewrite (collect_map_to_list cr_collection), lookup_fmap.
  by rewrite is_some_true, fmap_is_Some.
Qed.

Lemma reveal_purpose_ok p q :
  reveal_purpose p = Ok q <-> q = p /\ (p = lit "show" \/ p = lit "copy" \/ p = lit "export").
Proof.
  unfold reveal_purpose. destruct (_ || _ || _) eqn:E.
  - rewrite !orb_true_iff, !bool_decide_eq_true in E. naive_solver.
  - bools. split; [done|naive_solver].
Qed.

(** Revealing goes through exactly for someone who may reveal the entry,
    has confirmed it and asks for a version it has, never failing on what is
    sealed; and then it shows that version of the entry's history: its
    password, each of its protected fields and no other, the one-time password
    when it is exported only; and it is recorded. *)
Theorem reveal_shows_the_version (s : Session) (now : Z) (id : Uuid) (purpose : list Z)
    (version : option Z) (db : VaultStore) (h : History) :
  vault_ok db -> history_of db h ->
  (is_ok (reveal_credential s now id purpose version db) = true <->
     (purpose = lit "show" \/ purpose = lit "copy" \/ purpose = lit "export")
     /\ authorize (vault_catalog db now) (subject s) Role_Reveal (Credential id) = true
     /\ confirmed s = true
     /\ forall row, vs_credentials db !! id = Some row ->
        1 <= default (cr_version row) version <= cr_version row)
  /\ forall r db', reveal_credential s now id purpose version db = Ok (r, db') ->
     exists row vs m, vs_credentials db !! id = Some row /\ h !! id = Some vs
       /\ version_at vs (default (cr_version row) version) = Some m
       /\ utf8 <$> rv_password r = m !! PASSWORD
       /\ (forall n, n ∈ (rv_fields r).*1 <-> is_Some (m !! secret_name n))
       /\ (forall n t, (n, t) ∈ rv_fields r -> m !! secret_name n = Some (utf8 t))
       /\ utf8 <$> rv_totp r = (if decide (purpose = lit "export") then m !! TOTP_FIELD else None)
       /\ vs_log db' = vs_log db ++ [{| vl_actor := user_id s; vl_object := Credential id;
            vl_action := CredentialRevealed purpose (default (cr_version row) version) |}].
Proof.
  intros Hok Hh. unfold reveal_credential.
  destruct (reveal_purpose purpose) as [q|e] eqn:Hq.
  2:{ split; [|done]. split; [done|]. intros (Hp & _). 
      assert (reveal_purpose purpose = Ok purpose) by (by apply reveal_purpose_ok). congruence. }
  apply reveal_purpose_ok in Hq as [-> Hp].
  destruct (require _ _ _ _) as [[]|e] eqn:Hr.
  2:{ split; [|done]. split; [done|]. intros (_ & Ha & _). apply require_ok in Ha. congruence. }
  apply require_ok in Hr. pose proof Hr as [Hc%vault_contains _]%authorize_true. destruct Hc as [row Hrow].
  pose proof (credentials_ok _ Hok id row Hrow) as Hcred. pose proof (Hh id) as Hid. rewrite Hrow in Hid.
  destruct Hid as (vs & Hvs & Hlen & Hat).
  unfold need_confirmation, require_confirmation. destruct (confirmed s) eqn:Hconf; [|split; [|done]; split; [done|by intros (_ & _ & ? & _)]].
  rewrite Hrow. cbn [ok_or]. set (v := default (cr_version row) version).
  destruct (negb _) eqn:Hv.
  { split; [|done]. split; [done|]. intros (_ & _ & _ & Hrange). specialize (Hrange row eq_refl).
    fold v in Hrange. rewrite (proj2 (Z.leb_le 1 v)), (proj2 (Z.leb_le v _)) in Hv by lia. done. }
  bools. assert (exists m, version_at vs v = Some m) as [m Hm].
  { unfold version_at. rewrite (proj2 (Z.leb_le 1 v)), (proj2 (Z.leb_le v _)) by lia. simpl.
    destruct (vs !! _) as [m|] eqn:Hl; [eauto|]. apply lookup_ge_None in Hl. lia. }
  set (names := if v =? cr_version row then _ else _).
  assert (Hnames : forall n, n ∈ names <-> is_Some (vs_secrets db !! (id, v, secret_name n))).
  { intros n. subst names. destruct (v =? cr_version row) eqn:E; [|apply elem_of_fields_of_version].
    bools. rewrite E. symmetry. apply (says_fields _ _ _ Hcred). }
  destruct (stored_text_ok db id row v PASSWORD Hcred) as (pw & -> & Hpw).
  destruct (reveal_fields_ok db id row v names Hcred) as (l & -> & Hl & Hlv); [intros n; apply Hnames|].
  destruct (stored_text_ok db id row v TOTP_FIELD Hcred) as (tt' & Htt & Htv). rewrite Htt.
  assert (Hif : (if bool_decide (purpose = lit "export") then Ok tt' else Ok None : result _ ApiProblem)
                = Ok (if bool_decide (purpose = lit "export") then tt' else None)) by (by case_bool_decide).
  rewrite Hif. split.
  - split; [|done]. intros _. split_and!; [done..|]. intros row' Hrow'. simplify_eq. fold v. lia.
  - intros r db' [= <- <-]. exists row, vs, m. split_and!; [done|done|done|..]; simpl.
    + by rewrite Hpw, (Hat v m Hm).
    + intros n. by rewrite Hl, Hnames, (Hat v m Hm).
    + intros n t Hin. by rewrite <- (Hat v m Hm), (Hlv n t Hin).
    + case_bool_decide; case_decide; try done. by rewrite Htv, (Hat v m Hm).
    + done.
Qed.

(** Purging an entry leaves nothing of it: no row, none of its versions'
    sealed fields, none of its files or their contents; and it touches nothing
    of any other entry. *)
Theorem purge_leaves_nothing (s : Session) (now : Z) (id : Uuid) (seen db db' : VaultStore) :
  vault_ok db -> delete_credential s now id true seen db = Ok db' ->
  vs_credentials db' !! id = None
  /\ (forall v f, vs_secrets db' !! (id, v, f) = None)
  /\ (forall a row, vs_attachments db !! a = Some row -> at_credential row = id ->
        vs_attachments db' !! a = None /\ forall v f, vs_secrets db' !! (a, v, f) = None)
  /\ (forall g, g ∈ vs_grants db' -> gr_credential g <> Some id)
  /\ (forall o, o <> id ->
        vs_credentials db' !! o = vs_credentials db !! o
        /\ (forall row, vs_attachments db !! o = Some row -> at_credential row <> id ->
              vs_attachments db' !! o = Some row)
        /\ (is_Some (vs_credentials db' !! o) \/ is_Some (vs_attachments db' !! o) ->
            forall v f, vs_secrets db' !! (o, v, f) = vs_secrets db !! (o, v, f))).
Proof.
  intros Hok Hd. unfold delete_credential in Hd. inv_ok Hd. subst db'. simpl.
  destruct (purge_lookups [id] db) as (Hc & Ha & Hs). simpl in Hc, Ha, Hs. split_and!.
  - rewrite Hc, decide_True; [done|left].
  - intros v f. rewrite Hs, decide_True; [done|left; left].
  - intros a row Hrow Hat. assert (a ∈ attachments_of [id] db) as Hin.
    { apply elem_of_attachments_of. exists row. split; [done|]. rewrite Hat. left. }
    split; [by rewrite Ha, decide_True|]. intros v f. rewrite Hs, decide_True by (by right). done.
  - intros g [Hg _]%list_elem_of_filter Hid. rewrite Hid in Hg. simpl in Hg. by rewrite bool_decide_true in Hg by left.
  - intros o Hne. assert (o ∉ [id]) as Hni by (by intros ?%list_elem_of_singleton). split_and!.
    + by rewrite Hc, decide_False.
    + intros row Hrow Hat. rewrite Ha, decide_False; [done|].
      intros (r & Hr & Hin%list_elem_of_singleton)%elem_of_attachments_of. congruence.
    + intros Hor v f. rewrite Hs, decide_False; [done|]. intros [?|Hin]; [done|].
      destruct Hor as [Hor|Hor]; [|rewrite Ha, decide_True in Hor by done; by destruct Hor].
      rewrite Hc, decide_False in Hor by done. apply (owners_apart _ Hok) in Hor.
      apply elem_of_attachments_of in Hin as (r & Hr & _). congruence.
Qed.

(** Whoever takes an entry out of the recycle bin gets back exactly what
    was put there: the tables are as before, apart from the log. *)
Theorem restore_brings_back (s s' : Session) (now now' : Z) (id : Uuid) (row : CredentialRow)
    (seen seen' db db1 db2 : VaultStore) :
  vs_credentials db !! id = Some row -> cr_deleted_at row = None ->
  delete_credential s now id false seen db = Ok db1 ->
  restore_credential s' now' id seen' db1 = Ok db2 ->
  vs_collections db2 = vs_collections db /\ vs_credentials db2 = vs_credentials db
  /\ vs_attachments db2 = vs_attachments db /\ vs_secrets db2 = vs_secrets db
  /\ vs_grants db2 = vs_grants db
  /\ vs_log db2 = vs_log db
       ++ [{| vl_actor := user_id s; vl_action := CredentialDeleted false; vl_object := Credential id |};
           {| vl_actor := user_id s'; vl_action := CredentialRestored; vl_object := Credential id |}].
Proof.
  intros Hrow Hnone Hd Hr. unfold delete_credential in Hd. inv_ok Hd. rewrite Hrow, Hnone in Hd.
  injection Hd as <-. unfold restore_credential in Hr. inv_ok Hr. cbn [vault_record on_credentials vs_credentials] in Hr.
  rewrite lookup_insert_eq in Hr. injection Hr as <-. simpl. rewrite insert_insert_eq, <- app_assoc.
  split_and!; try done. rewrite <- (insert_id (vs_credentials db) id row Hrow) at 2. f_equal.
  by destruct row; simpl in *; subst.
Qed.

End handlers.

(** ** Examples *)

Module HistoryExamples.
Import RequestExamples.

#[local] Instance decimal_uuid : UuidText := decimal.
#[local] Instance any_day : Calendar := fun _ _ _ => true.
#[local] Instance plain_base32 : Base32 := {| b32_encode := fun b => b; b32_decode := fun b => Some b |}.

Definition officer : Session :=
  {| token_hash := []; session_id := 0; client := lit "web"; user_id := 2; username := lit "boss";
     display_name := lit "boss"; kind := lit "local"; sid := None; upn := None; s_group_sids := [];
     identity_id := Some 2; memberships := []; roles := [lit "administrator"]; locked := false;
     confirmed := true |}.

Definition vault0 : VaultStore :=
  {| vs_collections := {[1 := {| co_parent := None; co_name := lit "servers" |}]};
     vs_credentials := ∅; vs_attachments := ∅; vs_secrets := ∅;
     vs_objects := {| folders := []; collections := []; devices := []; credentials := []; profiles := [] |};
     vs_grants := []; vs_log := [] |}.

Definition entry (password : option (list Z)) (fields : list FieldInput) : CredentialInput :=
  {| ci_collection := 1; ci_name := lit "root"; ci_username := lit "root";
     ci_details := {| di_url := []; di_notes := []; di_icon := 0; di_fields := fields; di_tags := [];
                      di_expires_on := None |};
     ci_totp := None; ci_password := password |}.

Definition pin (value : option (list Z)) : FieldInput :=
  {| fi_name := lit "PIN"; fi_protected := true; fi_value := value |}.

Definition or_else (r : result VaultStore ApiProblem) : VaultStore :=
  match r with Ok db => db | Err _ => vault0 end.

Definition vault1 : VaultStore :=
  or_else (create_credential officer 0 5 (entry (Some (lit "old")) [pin (Some (lit "1"))]) vault0 vault0).

(** One user gives a new password, another, who read the entry before, a new
    PIN. *)
Definition vault2 : VaultStore :=
  or_else (update_credential officer 0 5 (entry (Some (lit "new")) [pin None]) vault1 vault1).
Definition vault3 : VaultStore :=
  or_else (update_credential officer 0 5 (entry None [pin (Some (lit "2"))]) vault1 vault2).

(** Or one takes the PIN away, and another changes nothing of what is sealed. *)
Definition vault2' : VaultStore :=
  or_else (update_credential officer 0 5 (entry None []) vault1 vault1).
Definition vault3' : VaultStore :=
  or_else (update_credential officer 0 5 (entry None [pin None]) vault1 vault2').

Definition shown (db : VaultStore) : option (option (list Z) * list (list Z * list Z)) :=
  match reveal_credential officer 0 5 (lit "show") None db with
  | Ok (r, _) => Some (rv_password r, rv_fields r)
  | Err _ => None
  end.

(** Two changes of an entry at the same time lose one: a user whose new
    password was accepted finds the old one as the current password, because
    the other's change carried it over from the version read before; and a
    field whose value one change removed is listed by the other as protected
    and revealed as empty. *)
Theorem concurrent_changes_lose_a_password :
  update_credential officer 0 5 (entry (Some (lit "new")) [pin None]) vault1 vault1 = Ok vault2
  /\ update_credential officer 0 5 (entry None [pin (Some (lit "2"))]) vault1 vault2 = Ok vault3
  /\ shown vault2 = Some (Some (lit "new"), [(lit "PIN", lit "1")])
  /\ shown vault3 = Some (Some (lit "old"), [(lit "PIN", lit "2")])
  /\ update_credential officer 0 5 (entry None [pin None]) vault1 vault2' = Ok vault3'
  /\ shown vault3' = Some (Some (lit "old"), [(lit "PIN", [])]).
Proof. split_and!; vm_compute; reflexivity. Qed.

Lemma vault0_ok : vault_ok vault0 /\ history_of vault0 ∅.
Proof.
  split; [split|by intros id]; simpl.
  - intros id row Hr. by rewrite lookup_empty in Hr.
  - intros id [r Hr]. by rewrite lookup_empty in Hr.
  - intros a row Hr. by rewrite lookup_empty in Hr.
  - intros o v f [b Hb]. by rewrite lookup_empty in Hb.
Qed.

Lemma vault1_created :
  create_credential officer 0 5 (entry (Some (lit "old")) [pin (Some (lit "1"))]) vault0 vault0 = Ok vault1.
Proof. vm_compute. reflexivity. Qed.

Lemma entry_is_text p f :
  (forall v, p = Some v -> is_text v) -> (forall g v, g ∈ f -> fi_value g = Some v -> is_text v) ->
  input_text (entry p f).
Proof.
  intros Hp Hf. split_and!; [|done|done]. apply Forall_forall. intros g Hg v Hv. by apply (Hf g).
Qed.

Lemma vault1_step : rtc vault_step vault0 vault1.
Proof.
  apply rtc_once. eapply (st_create officer 0 5); [by split| |exact vault1_created].
  apply entry_is_text; [intros v [= <-]; repeat constructor|].
  intros g v ->%list_elem_of_singleton [= <-]. repeat constructor.
Qed.

Lemma vault_implements_history_witness :
  vault_ok vault1 /\ exists h, rtc spec_step ∅ h /\ history_of vault1 h.
Proof. exact (vault_implements_history vault0 vault1 ∅ (proj1 vault0_ok) (proj2 vault0_ok) vault1_step). Defined.

Lemma vault1_ok : vault_ok vault1 /\ exists h, history_of vault1 h.
Proof.
  eapply (rtc_closed vault_step (fun d => vault_ok d /\ exists h, history_of d h) vault0);
    [|exact vault1_step|split; [apply vault0_ok|exists ∅; apply vault0_ok]].
  intros d d' (Hd & h & Hh) Hstep. destruct (step_simulates _ _ Hstep Hd h Hh) as (? & h' & _ & ?). eauto.
Qed.

Definition row1 : CredentialRow :=
  {| cr_collection := 1; cr_name := lit "root"; cr_username := lit "root"; cr_url := []; cr_notes := [];
     cr_icon := 0; cr_fields := [{| fd_name := lit "PIN"; fd_protected := true; fd_value := None |}];
     cr_tags := []; cr_expires_on := None; cr_has_totp := false; cr_version := 1;
     cr_deleted_at := None |}.

Lemma row1_at : vs_credentials vault1 !! 5 = Some row1.
Proof. vm_compute. reflexivity. Qed.

Lemma vault2_changed : update_credential officer 0 5 (entry (Some (lit "new")) [pin None]) vault1 vault1 = Ok vault2.
Proof. vm_compute. reflexivity. Qed.

Lemma change_seals_exactly_witness : exists h, history_of vault2 h.
Proof.
  destruct vault1_ok as [Hok [h Hh]].
  destruct (change_seals_exactly officer 0 5 (entry (Some (lit "new")) [pin None]) vault1 vault1 vault2 h row1)
    as (d & t & v & vs & _ & _ & _ & _ & Hh'); [exact Hok|exact Hh|exact row1_at|exact row1_at| |exact vault2_changed|].
  - apply entry_is_text; [intros w [= <-]; repeat constructor|].
    intros g w ->%list_elem_of_singleton [=].
  - eexists. exact Hh'.
Defined.

Lemma reveal_shows_the_version_witness :
  authorize (vault_catalog vault1 0) (subject officer) Role_Reveal (Credential 5) = true.
Proof.
  destruct vault1_ok as [Hok [h Hh]].
  destruct (reveal_shows_the_version officer 0 5 (lit "show") None vault1 h Hok Hh) as [Hiff _].
  assert (Hr : is_ok (reveal_credential officer 0 5 (lit "show") None vault1) = true)
    by (vm_compute; reflexivity).
  apply Hiff in Hr as (_ & Ha & _). exact Ha.
Defined.

Lemma purge_leaves_nothing_witness :
  vs_credentials (or_else (delete_credential officer 0 5 true vault1 vault1)) !! 5 = None.
Proof.
  destruct (purge_leaves_nothing officer 0 5 vault1 vault1
    (or_else (delete_credential officer 0 5 true vault1 vault1)) (proj1 vault1_ok)) as (Hc & _);
    [vm_compute; reflexivity|exact Hc].
Defined.

Definition vault_binned : VaultStore := or_else (delete_credential officer 7 5 false vault1 vault1).
Definition vault_back : VaultStore := or_else (restore_credential officer 9 5 vault_binned vault_binned).

Lemma restore_brings_back_witness : vs_credentials vault_back = vs_credentials vault1.
Proof.
  destruct (restore_brings_back officer officer 7 9 5 row1 vault1 vault_binned vault1 vault_binned vault_back)
    as (_ & Hc & _); [exact row1_at|reflexivity|vm_compute; reflexivity|vm_compute; reflexivity|exact Hc].
Defined.

End HistoryExamples.
