(* ===== verification/Site.v ===== *)
(** * Which web pages a login belongs to (crates/server/src/site.rs)

    The rule the server applies before it hands a password to the browser
    extension. Reading URLs (crate [url]) and the Public Suffix List (crate
    [psl]) are parameters. *)
From S2P Require Import Prelude Text.

(** [url::Host]. *)
Inductive Host := Domain (d : list Z) | Ipv4 (a : Z) | Ipv6 (a : Z).

#[export] Instance host_eq_dec : EqDecision Host.
Proof. solve_decision. Defined.

(** [Url::parse], [scheme], [port_or_known_default] and [host]. *)
Class Urls := {
  Url : Type;
  url_parse : list Z -> option Url;
  url_scheme : Url -> list Z;
  url_port : Url -> option Z;
  url_host : Url -> option Host
}.

(** [psl::domain_str]: the registrable domain, a public suffix and one label
    more. It is the host or what follows one of its dots, and has a dot. *)
Class Psl := domain_str : list Z -> option (list Z).

Definition below (d h : list Z) : Prop := h = d \/ exists sub, h = sub ++ 46 :: d.

Class PslOk `{Psl} : Prop := {
  domain_str_below h d : domain_str h = Some d -> below d h;
  domain_str_dot h d : domain_str h = Some d -> 46 ∈ d
}.

Definition contains_str (p s : str) : bool :=
  existsb (fun n => starts_with p (drop n s)) (seq 0 (S (length s))).

Definition HTTP : list Z := lit "http".
Definition HTTPS : list Z := lit "https".

Section site.
Context `{Urls, Psl}.

Definition parse (text : str) : option Url :=
  let text := trim text in
  if bool_decide (text = []) then None
  else
    url ← (if contains_str (lit "://") text then url_parse text else url_parse (lit "https://" ++ text));
    if bool_decide (url_scheme url = HTTP) || bool_decide (url_scheme url = HTTPS) then Some url else None.

Definition bare (host : str) : list Z := default host (reverse <$> strip_prefix [46] (reverse host)).

Definition registrable (host : str) : option (list Z) :=
  if negb (bool_decide (46 ∈ host)) then None else domain_str host.

Definition same_host (login page : Url) : bool :=
  match url_host login, url_host page with
  | Some (Domain l), Some (Domain p) =>
      let l := bare l in let p := bare p in
      if bool_decide (l = p) then true
      else if negb (bool_decide (url_scheme login = HTTPS)) then false
      else match registrable l, registrable p with
           | Some a, Some b => bool_decide (a = b)
           | _, _ => false
           end
  | Some l, Some p => bool_decide (l = p)
  | _, _ => false
  end.

Definition matches (login_url page_origin : str) : bool :=
  match parse login_url, parse page_origin with
  | Some login, Some page =>
      if negb (bool_decide (url_scheme login = url_scheme page))
         || negb (bool_decide (url_port login = url_port page)) then false
      else same_host login page
  | _, _ => false
  end.

End site.

(** What [matches] compares, of an [http] or [https] URL with a host: pages
    belong together exactly if this is the same. *)
Inductive Site :=
| S_host (scheme : list Z) (port : option Z) (h : Host)
| S_domain (port : option Z) (d : list Z).

#[export] Instance site_eq_dec : EqDecision Site.
Proof. solve_decision. Defined.

Section theorems.
Context `{Urls, Psl}.

Lemma parse_scheme text url : parse text = Some url -> url_scheme url = HTTP \/ url_scheme url = HTTPS.
Proof.
  unfold parse. case_bool_decide; [done|]. destruct (if contains_str _ _ then _ else _) as [u|]; [|done]. simpl.
  destruct (bool_decide (url_scheme u = HTTP)) eqn:E1; simpl; [intros [= <-]; bools; auto|].
  destruct (bool_decide (url_scheme u = HTTPS)) eqn:E2; simpl; [intros [= <-]; bools; auto|done].
Qed.

Definition site (url : Url) : option Site :=
  match url_host url with
  | Some (Domain d) =>
      let d := bare d in
      Some (match registrable d with
            | Some r => if bool_decide (url_scheme url = HTTPS) then S_domain (url_port url) r
                        else S_host (url_scheme url) (url_port url) (Domain d)
            | None => S_host (url_scheme url) (url_port url) (Domain d)
            end)
  | Some h => Some (S_host (url_scheme url) (url_port url) h)
  | None => None
  end.

Lemma same_host_site login page :
  url_scheme login = url_scheme page -> url_port login = url_port page ->
  same_host login page = bool_decide (is_Some (site login) /\ site login = site page).
Proof.
  intros Hs Hp. unfold same_host, site. rewrite <- Hs, <- Hp. symmetry.
  destruct (url_host login) as [[l|l|l]|], (url_host page) as [[p|p|p]|];
    try (apply bool_decide_eq_false; intros [Hx Hy]; destruct Hx; simplify_eq; by repeat case_match).
  - destruct (bool_decide (bare l = bare p)) eqn:E; bools.
    + rewrite E. by apply bool_decide_eq_true.
    + destruct (bool_decide (url_scheme login = HTTPS)) eqn:Hh; simpl.
      * destruct (registrable (bare l)) as [a|], (registrable (bare p)) as [b|];
          try (apply bool_decide_eq_false; intros [_ Hx]; congruence).
        apply bool_decide_ext. split; [intros [_ Hx]; congruence|intros ->; by split].
      * apply bool_decide_eq_false. intros [_ Hx]. repeat case_match; congruence.
  - apply bool_decide_ext. split; [intros [_ Hx]; congruence|intros ->; by split].
  - apply bool_decide_ext. split; [intros [_ Hx]; congruence|intros ->; by split].
Qed.

Lemma site_scheme a b text text' :
  parse text = Some a -> parse text' = Some b -> is_Some (site a) -> site a = site b ->
  url_scheme a = url_scheme b /\ url_port a = url_port b.
Proof.
  intros Ha%parse_scheme Hb%parse_scheme [s Hs] Heq. unfold site in *.
  destruct (url_host a) as [[d|d|d]|], (url_host b) as [[e|e|e]|]; simplify_eq;
    repeat (case_match; simplify_eq; bools); try done.
  split; congruence.
Qed.

(** A login belongs to exactly the pages of its site: what [matches] compares
    is equality of the site, so that it makes no difference which of two pages
    a login was kept for, and pages of one site belong to the same logins. *)
Theorem matches_is_same_site (login page : list Z) :
  matches login page = true <->
  exists l p s, parse login = Some l /\ parse page = Some p /\ site l = Some s /\ site p = Some s.
Proof.
  unfold matches. destruct (parse login) as [l|] eqn:Hl; [|by split; [done|intros (? & ? & ? & ? & ?)]].
  destruct (parse page) as [p|] eqn:Hp; [|by split; [done|intros (? & ? & ? & ? & ? & ?)]].
  split.
  - destruct (_ || _) eqn:E; [done|]. bools. rewrite same_host_site by done. intros Hx. bools.
    destruct Hx as [[s Hs] Heq]. exists l, p, s. split_and!; try done. by rewrite <- Heq.
  - intros (l' & p' & s & [= <-] & [= <-] & Hs & Hs').
    destruct (site_scheme l p login page) as [He Hq]; [done..|by eexists|congruence|].
    rewrite !bool_decide_eq_true_2 by done. simpl. rewrite same_host_site by done.
    apply bool_decide_eq_true_2. split; [by eexists|congruence].
Qed.

(** A password never goes to another site: a login is filled only into a page
    with its scheme and port, on the very same host, or over [https] on a host
    below the same registrable domain. *)
Theorem matches_stays_on_site `{!PslOk} (login page : list Z) :
  matches login page = true ->
  exists l p, parse login = Some l /\ parse page = Some p
    /\ url_scheme l = url_scheme p /\ url_port l = url_port p
    /\ (url_host l = url_host p
        \/ exists a b, url_host l = Some (Domain a) /\ url_host p = Some (Domain b)
           /\ (bare a = bare b
               \/ url_scheme l = HTTPS /\ exists d, 46 ∈ d /\ below d (bare a) /\ below d (bare b))).
Proof.
  unfold matches. destruct (parse login) as [l|]; [|done]. destruct (parse page) as [p|]; [|done].
  destruct (_ || _) eqn:E; [done|]. bools. intros Hs. exists l, p. split_and!; try done. unfold same_host in Hs.
  destruct (url_host l) as [[a|a|a]|], (url_host p) as [[b|b|b]|]; bools; try done; try (left; congruence).
  right. exists a, b. split_and!; try done. destruct (bool_decide (bare a = bare b)) eqn:Hab; bools; [by left|].
  right. destruct (bool_decide (url_scheme l = HTTPS)) eqn:Hh; simpl in Hs; [|done]. bools. split; [done|].
  unfold registrable in Hs. destruct (negb (bool_decide (46 ∈ bare a))); [done|].
  destruct (domain_str (bare a)) as [x|] eqn:Hx; [|done].
  destruct (negb (bool_decide (46 ∈ bare b))); [done|]. destruct (domain_str (bare b)) as [y|] eqn:Hy; [|done]. bools. subst y.
  exists x. split_and!; [by eapply domain_str_dot|by apply domain_str_below..].
Qed.

End theorems.

Module SiteExamples.

(** URLs that are a scheme, a host and a path; the port is the scheme's. *)
#[local] Instance plain_urls : Urls := {
  Url := list Z * list Z;
  url_parse s :=
    match split_once 58 s with
    | Some (scheme, rest) => (fun rest => (to_ascii_lowercase <$> scheme, (split 47 rest) !!! 0%nat)) <$> strip_prefix (lit "//") rest
    | None => None
    end;
  url_scheme u := u.1;
  url_port u := Some (if bool_decide (u.1 = HTTPS) then 443 else 80);
  url_host u := if bool_decide (u.2 = []) then None else Some (Domain (to_ascii_lowercase <$> u.2))
}.

(** The last two labels. *)
#[local] Instance two_labels : Psl := fun h =>
  match rsplit_once 46 h with
  | Some (rest, top) => Some (match rsplit_once 46 rest with Some (_, l) => l | None => rest end ++ 46 :: top)
  | None => None
  end.

#[local] Instance two_labels_ok : PslOk.
Proof.
  split; intros h d; unfold domain_str, two_labels; destruct (rsplit_once 46 h) as [[rest top]|] eqn:E; try done; intros [= <-].
  - apply rsplit_once_Some in E as [-> _]. destruct (rsplit_once 46 rest) as [[x l]|] eqn:E; [|by left].
    apply rsplit_once_Some in E as [-> _]. right. exists x. by rewrite <- app_assoc.
  - apply elem_of_app. right. by left.
Qed.

Lemma matches_stays_on_site_witness :
  exists l p, parse (lit "portal.Example.com") = Some l /\ parse (lit "https://login.example.com/a") = Some p
    /\ url_scheme l = url_scheme p /\ url_port l = url_port p
    /\ (url_host l = url_host p
        \/ exists a b, url_host l = Some (Domain a) /\ url_host p = Some (Domain b)
           /\ (bare a = bare b
               \/ url_scheme l = HTTPS /\ exists d, 46 ∈ d /\ below d (bare a) /\ below d (bare b))).
Proof. apply (matches_stays_on_site (lit "portal.Example.com") (lit "https://login.example.com/a")). vm_compute. reflexivity. Defined.

Example a_trailing_dot : matches (lit "https://portal.example.com.") (lit "https://portal.example.com") = true.
Proof. vm_compute. reflexivity. Qed.

Example no_tls : matches (lit "http://portal.example.com") (lit "http://login.example.com") = false.
Proof. vm_compute. reflexivity. Qed.

Example another_domain : matches (lit "portal.example.com") (lit "https://example.com.evil.net") = false.
Proof. vm_compute. reflexivity. Qed.

End SiteExamples.
