(* ===== verification/Extension.v ===== *)
(** * The browser extension (crates/server/src/api/extension.rs)

    Connecting an extension with a code and the verifier behind its challenge
    (RFC 7636), its sessions beside those of browsers, and the logins it may
    fill into pages they belong to ([Site]). A handler that takes a session
    reads it first, as [Session] does; the audit log is the part of it these
    handlers write. *)
From S2P Require Import Prelude Text Utf8 Keyring Escrow Personal.
From S2P Require Import Totp Model Session AccessRequests Store Folders Fields Entries Webauthn Site.

Definition OLDEST_EXTENSION : list Z := [0; 2; 2].
Definition CODE_SECONDS : Z := 60 * second.

(** ** Tables *)

(** A row of [extension_codes], by the hash of its code. *)
Record CodeRow := {
  cd_user : Uuid;
  cd_groups : list (list Z);
  cd_extension : list Z;
  cd_challenge : list Z;
  cd_name : list Z;
  cd_expires : Z
}.

Inductive ExtAction :=
| ExtensionConnected (name extension : list Z)
| ExtensionDisconnected (name : option (list Z))
| Revealed (id : Uuid) (purpose : list Z) (version : Z) (origin : option (list Z))
| CodeShown (id : Uuid) (purpose : list Z) (origin : option (list Z)).

Record ExtLog := { xl_user : Uuid; xl_action : ExtAction; xl_at : Z }.

(** [xt_names] is the column [name] of the sessions, by token hash. *)
Record ExtDb := {
  xt_db : Db;
  xt_names : gmap (list Z) (list Z);
  xt_codes : gmap (list Z) CodeRow;
  xt_vault : VaultStore;
  xt_personal : Personal.PersonalDb;
  xt_log : list ExtLog
}.

Definition on_db (f : Db -> Db) (x : ExtDb) : ExtDb :=
  {| xt_db := f (xt_db x); xt_names := xt_names x; xt_codes := xt_codes x; xt_vault := xt_vault x;
     xt_personal := xt_personal x; xt_log := xt_log x |}.

Definition on_names (f : gmap (list Z) (list Z) -> gmap (list Z) (list Z)) (x : ExtDb) : ExtDb :=
  {| xt_db := xt_db x; xt_names := f (xt_names x); xt_codes := xt_codes x; xt_vault := xt_vault x;
     xt_personal := xt_personal x; xt_log := xt_log x |}.

Definition on_codes (f : gmap (list Z) CodeRow -> gmap (list Z) CodeRow) (x : ExtDb) : ExtDb :=
  {| xt_db := xt_db x; xt_names := xt_names x; xt_codes := f (xt_codes x); xt_vault := xt_vault x;
     xt_personal := xt_personal x; xt_log := xt_log x |}.

Definition record (now : Z) (user : Uuid) (a : ExtAction) (x : ExtDb) : ExtDb :=
  {| xt_db := xt_db x; xt_names := xt_names x; xt_codes := xt_codes x; xt_vault := xt_vault x;
     xt_personal := xt_personal x; xt_log := xt_log x ++ [{| xl_user := user; xl_action := a; xl_at := now |}] |}.

Inductive ExtProblem :=
| XP (p : ApiProblem) | XP_Unauthenticated | XP_SessionLocked | XP_ExtensionOutdated | XP_ExtensionUnknown | XP_WrongSite.

#[export] Instance ext_problem_eq_dec : EqDecision ExtProblem.
Proof. solve_decision. Defined.

Definition xp {A} (r : result A ApiProblem) : result A ExtProblem :=
  match r with Ok a => Ok a | Err e => Err (XP e) end.

(** [settings.session] and the extensions that may connect. *)
Record ExtSettings := { xs_idle : Z; xs_max : Z; xs_extension_ids : list (list Z); xs_served : option (list Z) }.

Definition allows_extension (st : ExtSettings) (id : str) : bool :=
  existsb (fun allowed => bool_decide (allowed = id)) (xs_extension_ids st)
  || is_some_and (fun served => bool_decide (served = id)) (xs_served st).

(** ** Versions and sessions *)

(** The header's value, if it is text. *)
Definition check_version (header : option (list Z)) : result unit ExtProblem :=
  match (text ← header; mapM (parse_unsigned u32_max) (split 46 text)) with
  | Some version => if str_le OLDEST_EXTENSION version then Ok tt else Err XP_ExtensionOutdated
  | None => Err XP_ExtensionOutdated
  end.

(** The headers [X-Remotehub-Extension] and [Authorization] of a request. *)
Record Head := { hd_version : option (list Z); hd_authorization : option (list Z) }.

Definition bearer (h : Head) : option (list Z) :=
  token ← (value ← hd_authorization h; strip_prefix (lit "Bearer ") value);
  if bool_decide (token = []) then None else Some token.

Record NewCode := { nc_extension_id : list Z; nc_challenge : list Z; nc_name : list Z }.

Definition browser_name (value : str) : result (list Z) ApiProblem :=
  let value := trim value in
  if bool_decide (value = []) || (100 <? Z.of_nat (length value)) || existsb is_control value
  then Err (AP_Invalid "name") else Ok value.

(** BASE64URL of a SHA-256 digest. *)
Definition is_challenge (value : str) : bool :=
  bool_decide (length value = 43%nat)
  && forallb (fun b => is_ascii_alphanumeric b || (b =? 45) || (b =? 95)) value.

Definition is_verifier (value : str) : bool :=
  (43 <=? Z.of_nat (length value)) && (Z.of_nat (length value) <=? 128)
  && forallb (fun b => is_ascii_alphanumeric b || bool_decide (b ∈ lit "-._~")) value.

(** The answer to a code, and a login as the extension lists it. *)
Record Connected := { cn_token : list Z; cn_username : list Z; cn_display_name : list Z; cn_idle : Z }.
Record Login := { lo_id : Uuid; lo_name : list Z; lo_username : list Z; lo_url : list Z; lo_icon : Z; lo_has_totp : bool }.

Definition EXTENSION : list Z := lit "extension".
Definition PASSWORD_FIELD : list Z := PASSWORD.
Definition FILL : list Z := lit "fill".
Definition COPY : list Z := lit "copy".

Section extension.
Context `{UuidText, Sha256, Base64Url, Hmac, Base32, Urls, Psl}.

(** [ExtensionSession]. *)
Definition extension_session (st : ExtSettings) (now : Z) (h : Head) (db : ExtDb) :
    result Session ExtProblem * ExtDb :=
  match check_version (hd_version h) with
  | Err e => (Err e, db)
  | Ok _ =>
      match bearer h with
      | None => (Err XP_Unauthenticated, db)
      | Some t =>
          let '(found, d) := find (xt_db db) now (sha256 t) (xs_idle st) true in
          let db := on_db (fun _ => d) db in
          match found with
          | Some s => if bool_decide (client s = EXTENSION) then (Ok s, db) else (Err XP_Unauthenticated, db)
          | None => (Err XP_Unauthenticated, db)
          end
      end
  end.

(** [Session], of a browser. *)
Definition browser_session (st : ExtSettings) (now : Z) (headers : list (list Z)) (background : bool) (db : ExtDb) :
    result Session ExtProblem * ExtDb :=
  let '(found, d) := from_request_parts (xt_db db) now headers background (xs_idle st) in
  let db := on_db (fun _ => d) db in
  match found with
  | Ok s => (Ok s, db)
  | Err SessionLocked => (Err XP_SessionLocked, db)
  | Err _ => (Err XP_Unauthenticated, db)
  end.

(** ** Connecting *)

(** A code that is there already makes the statement fail. *)
Definition create_code (s : Session) (st : ExtSettings) (now : Z) (code : list Z) (input : NewCode) (db : ExtDb) :
    result ExtDb ExtProblem :=
  if negb (allows_extension st (nc_extension_id input)) then Err XP_ExtensionUnknown
  else if negb (is_challenge (nc_challenge input)) then Err (XP (AP_Invalid "challenge"))
  else
    let? name := xp (browser_name (nc_name input)) in
    if is_some (xt_codes db !! sha256 code) then Err (XP AP_Internal)
    else Ok (on_codes (insert (sha256 code)
               {| cd_user := user_id s; cd_groups := s_group_sids s; cd_extension := nc_extension_id input;
                  cd_challenge := nc_challenge input; cd_name := name; cd_expires := now + CODE_SECONDS |}) db).

Definition blocked_user (user : Uuid) (db : ExtDb) : bool :=
  is_some_and (fun u => is_some (blocked_at u)) (users (xt_db db) !! user).

(** [session::create_extension]; the token's hash is the table's key. *)
Definition create_extension (st : ExtSettings) (now : Z) (token : list Z) (i user : Uuid) (groups : list (list Z))
    (name : list Z) (db : ExtDb) : result ExtDb ApiProblem :=
  if is_some (sessions (xt_db db) !! sha256 token) then Err AP_Internal
  else Ok (on_names (insert (sha256 token) name)
             (on_db (fun d => create d now (sha256 token) i user groups (xs_max st) EXTENSION) db)).

(** The handler [token]: a code is gone after an attempt that found it; an error
    of the database takes everything back. *)
Definition trade (st : ExtSettings) (now : Z) (version : option (list Z)) (code verifier : str)
    (new_token : list Z) (new_id : Uuid) (db : ExtDb) : result Connected ExtProblem * ExtDb :=
  match check_version version with
  | Err e => (Err e, db)
  | Ok _ =>
      if negb (is_verifier verifier) then (Err (XP (AP_Invalid "verifier")), db)
      else
        match xt_codes db !! sha256 code with
        | None => (Err (XP (AP_Invalid "code")), db)
        | Some row =>
            let gone := on_codes (delete (sha256 code)) db in
            if negb (now <? cd_expires row) then (Err (XP (AP_Invalid "code")), gone)
            else if negb (bool_decide (b64url_encode (sha256 verifier) = cd_challenge row))
            then (Err (XP (AP_Invalid "verifier")), gone)
            else if blocked_user (cd_user row) db then (Err XP_Unauthenticated, gone)
            else
              match create_extension st now new_token new_id (cd_user row) (cd_groups row) (cd_name row) gone,
                    users (xt_db db) !! cd_user row with
              | Ok db', Some u =>
                  (Ok {| cn_token := new_token; cn_username := u_username u; cn_display_name := u_display_name u;
                         cn_idle := xs_idle st |},
                   record now (cd_user row) (ExtensionConnected (cd_name row) (cd_extension row)) db')
              | _, _ => (Err (XP AP_Internal), db)
              end
        end
  end.

Definition drop_session (h : list Z) (db : ExtDb) : ExtDb :=
  on_names (delete h) (on_db (fun d => delete_session d h) db).

Definition sign_out (s : Session) (now : Z) (db : ExtDb) : ExtDb :=
  record now (user_id s) (ExtensionDisconnected None) (drop_session (token_hash s) db).

(** The user's extensions, each with its name; the query sorts them. *)
Definition list_extensions (s : Session) (st : ExtSettings) (now : Z) (db : ExtDb) : list (Uuid * list Z) :=
  (fun hr => (s_id hr.2, default [] (xt_names db !! hr.1))) <$>
    filter (fun hr => s_user_id hr.2 = user_id s /\ s_client hr.2 = EXTENSION /\ now < expires_at hr.2
                      /\ now - xs_idle st < last_seen_at hr.2)
      (map_to_list (sessions (xt_db db))).

(** [end]. *)
Definition end_extension (s : Session) (now : Z) (id : Uuid) (db : ExtDb) : result ExtDb ExtProblem :=
  match List.find (fun hr => (s_id hr.2 =? id) && (s_user_id hr.2 =? user_id s) && bool_decide (s_client hr.2 = EXTENSION))
          (map_to_list (sessions (xt_db db))) with
  | None => Err (XP AP_NotFound)
  | Some (h, _) =>
      Ok (record now (user_id s) (ExtensionDisconnected (Some (default [] (xt_names db !! h)))) (drop_session h db))
  end.

(** ** Logins *)

(** The shared logins the extension may offer; the query sorts them. *)
Definition entries (s : Session) (now : Z) (db : ExtDb) : list Login :=
  (fun ir => {| lo_id := ir.1; lo_name := cr_name ir.2; lo_username := cr_username ir.2; lo_url := cr_url ir.2;
                lo_icon := cr_icon ir.2; lo_has_totp := cr_has_totp ir.2 |}) <$>
    filter (fun ir => authorize (vault_catalog (xt_vault db) now) (subject s) Role_Reveal (Credential ir.1) = true)
      (filter (fun ir => cr_deleted_at ir.2 = None /\ cr_url ir.2 <> []) (map_to_list (vs_credentials (xt_vault db)))).

Definition revealable (s : Session) (now : Z) (id : Uuid) (db : ExtDb) : result CredentialRow ExtProblem :=
  let? _ := xp (require (vault_catalog (xt_vault db) now) (subject s) Role_Reveal (Credential id)) in
  match vs_credentials (xt_vault db) !! id with
  | Some row => if is_some (cr_deleted_at row) then Err (XP AP_NotFound) else Ok row
  | None => Err (XP AP_NotFound)
  end.

Definition check_origin (page : str) : result (list Z) ExtProblem :=
  if str_len page <=? 2048 then Ok page else Err (XP (AP_Invalid "origin")).

Definition belongs (url origin : str) : result unit ExtProblem :=
  if matches url origin then Ok tt else Err XP_WrongSite.

(** User name and password. *)
Definition fill (s : Session) (now : Z) (id : Uuid) (page : str) (db : ExtDb) :
    result (list Z * list Z * ExtDb) ExtProblem :=
  let? origin := check_origin page in
  let? row := revealable s now id db in
  let? _ := belongs (cr_url row) origin in
  let? password := xp (stored_text (xt_vault db) id (cr_version row) PASSWORD_FIELD) in
  Ok (cr_username row, default [] password,
      record now (user_id s) (Revealed id FILL (cr_version row) (Some origin)) db).

Definition copy (s : Session) (now : Z) (id : Uuid) (db : ExtDb) : result (list Z * ExtDb) ExtProblem :=
  let? row := revealable s now id db in
  let? password := xp (stored_text (xt_vault db) id (cr_version row) PASSWORD_FIELD) in
  Ok (default [] password, record now (user_id s) (Revealed id COPY (cr_version row) None) db).

(** The code's text, the seconds it still holds, and those each holds. *)
Definition code (s : Session) (now unix_now : Z) (id : Uuid) (purpose : str) (page : option (list Z)) (db : ExtDb) :
    result (list Z * Z * Z * ExtDb) ExtProblem :=
  let? row := revealable s now id db in
  let? origin :=
    if bool_decide (purpose = FILL) then
      match page with
      | Some page =>
          let? origin := check_origin page in let? _ := belongs (cr_url row) origin in Ok (Some origin)
      | None => Err (XP (AP_Invalid "origin"))
      end
    else if bool_decide (purpose = COPY) then Ok None else Err (XP (AP_Invalid "purpose")) in
  let? c := xp (current_code unix_now id (xt_vault db)) in
  Ok (c, record now (user_id s) (CodeShown id purpose origin) db).

Definition personal (s : Session) (db : ExtDb) : Personal.OwnVault := Personal.load_vault (user_id s) (xt_personal db).

(** [purge] of session.rs, which runs from time to time. *)
Definition purge_codes (now : Z) (db : ExtDb) : ExtDb :=
  on_codes (filter (fun kv : list Z * CodeRow => (cd_expires kv.2 <=? now) = false)) db.

End extension.

(** ** Requests *)

Section requests.
Context `{UuidText, Sha256, Base64Url, Hmac, Base32, Urls, Psl}.

(** [X_others] is whatever the other handlers do to the tables, but for the
    codes: those of a user who is deleted go with them, and expired ones with
    [purge]. *)
Inductive ExtCall :=
| X_create_code (headers : list (list Z)) (background : bool) (code : list Z) (input : NewCode)
| X_trade (version : option (list Z)) (code verifier : list Z) (new_token : list Z) (new_id : Uuid)
| X_sign_out (h : Head)
| X_end (headers : list (list Z)) (background : bool) (id : Uuid)
| X_fill (h : Head) (id : Uuid) (page : list Z)
| X_copy (h : Head) (id : Uuid)
| X_code (h : Head) (unix_now : Z) (id : Uuid) (purpose : list Z) (page : option (list Z))
| X_others (d : Db) (names : gmap (list Z) (list Z)) (v : VaultStore) (p : PersonalDb) (purge : bool).

Inductive Answer :=
| A_done | A_code (code : list Z) | A_connected (c : Connected)
| A_filled (username password : list Z) | A_copied (password : list Z) | A_totp (c : list Z * Z * Z).

Definition answer {A} (r : result A ExtProblem) (f : A -> Answer * ExtDb) (db : ExtDb) :
    result Answer ExtProblem * ExtDb :=
  match r with Ok a => (Ok (f a).1, (f a).2) | Err e => (Err e, db) end.

Definition as_browser (st : ExtSettings) (now : Z) (headers : list (list Z)) (background : bool)
    (f : Session -> ExtDb -> result Answer ExtProblem * ExtDb) (db : ExtDb) : result Answer ExtProblem * ExtDb :=
  match browser_session st now headers background db with
  | (Ok s, db) => f s db
  | (Err e, db) => (Err e, db)
  end.

Definition as_extension (st : ExtSettings) (now : Z) (h : Head)
    (f : Session -> ExtDb -> result Answer ExtProblem * ExtDb) (db : ExtDb) : result Answer ExtProblem * ExtDb :=
  match extension_session st now h db with
  | (Ok s, db) => f s db
  | (Err e, db) => (Err e, db)
  end.

Definition serve (st : ExtSettings) (now : Z) (c : ExtCall) (db : ExtDb) : result Answer ExtProblem * ExtDb :=
  match c with
  | X_create_code headers background code input =>
      as_browser st now headers background (fun s db =>
        answer (create_code s st now code input db) (fun db => (A_code code, db)) db) db
  | X_trade version code verifier new_token new_id =>
      let '(r, db) := trade st now version code verifier new_token new_id db in
      answer r (fun c => (A_connected c, db)) db
  | X_sign_out h => as_extension st now h (fun s db => (Ok A_done, sign_out s now db)) db
  | X_end headers background id =>
      as_browser st now headers background (fun s db =>
        answer (end_extension s now id db) (fun db => (A_done, db)) db) db
  | X_fill h id page =>
      as_extension st now h (fun s db =>
        answer (fill s now id page db) (fun r => (A_filled r.1.1 r.1.2, r.2)) db) db
  | X_copy h id =>
      as_extension st now h (fun s db => answer (copy s now id db) (fun r => (A_copied r.1, r.2)) db) db
  | X_code h unix_now id purpose page =>
      as_extension st now h (fun s db =>
        answer (code s now unix_now id purpose page db) (fun r => (A_totp r.1, r.2)) db) db
  | X_others d names v p purge =>
      let db := {| xt_db := d; xt_names := names;
                   xt_codes := filter (fun kv => is_Some (users d !! cd_user kv.2)) (xt_codes db);
                   xt_vault := v; xt_personal := p; xt_log := xt_log db |} in
      (Ok A_done, if purge then purge_codes now db else db)
  end.

Definition run (st : ExtSettings) (es : list (Z * ExtCall)) (db : ExtDb) : ExtDb :=
  foldl (fun db e => (serve st e.1 e.2 db).2) db es.

End requests.

Section theorems.
Context `{UuidText, Sha256, Base64Url, Hmac, Base32, Urls, Psl}.

(** *** Sessions *)

Lemma extension_session_Ok st now h db s db' :
  extension_session st now h db = (Ok s, db') ->
  exists t, bearer h = Some t /\ by_hash (xt_db db) now (sha256 t) (xs_idle st) = Some s /\ client s = EXTENSION
    /\ check_version (hd_version h) = Ok tt
    /\ db' = on_db (fun d => if locked s then d else touch d now (sha256 t) (xs_idle st)) db.
Proof.
  unfold extension_session. destruct (check_version _) as [[]|]; [|done]. destruct (bearer h) as [t|]; [|done].
  unfold find. destruct (by_hash _ _ _ _) as [x|] eqn:Hb; [|done]. case_bool_decide as Hc; [|done]. intros [= <- <-].
  exists t. split_and!; try done. simpl. by destruct (locked x).
Qed.

Lemma browser_session_Ok st now headers bg db s db' :
  browser_session st now headers bg db = (Ok s, db') ->
  exists t, Session.token headers = Some t /\ by_hash (xt_db db) now (sha256 t) (xs_idle st) = Some s
    /\ client s = lit "web" /\ locked s = false.
Proof.
  unfold browser_session, from_request_parts, any_session. destruct (Session.token headers) as [t|]; [|done].
  unfold find. destruct (by_hash _ _ _ _) as [x|] eqn:Hb; [|done]. case_bool_decide as Hc; [|done].
  destruct (locked x) eqn:Hl; [done|]. intros [= <- <-]. by exists t.
Qed.

Lemma by_hash_row db now h idle s :
  by_hash db now h idle = Some s ->
  exists r u, sessions db !! h = Some r /\ users db !! s_user_id r = Some u /\ blocked_at u = None
    /\ now < expires_at r /\ token_hash s = h /\ client s = s_client r /\ user_id s = s_user_id r
    /\ s_group_sids s = s_groups r
    /\ (s_client r = lit "web" \/ now - idle < last_seen_at r)
    /\ locked s = (last_seen_at r <=? now - idle).
Proof.
  unfold by_hash. destruct (sessions db !! h) as [r|]; [|done]. destruct (users db !! s_user_id r) as [u|] eqn:Hu; [|done].
  destruct (_ && _) eqn:E; [|done]. intros [= <-]. apply andb_true_iff in E as [E Hl]. bools.
  exists r, u. split_and!; try done.
  - by destruct (blocked_at u).
  - apply orb_true_iff in Hl as [Hl|Hl]; bools; auto.
Qed.

(** A session opens one side only: no token is taken as a browser's session
    and as an extension's, and what opens the extension's routes is a session
    that [trade] made, unexpired, used within the idle time, of a user who is
    not blocked, with a version of the extension that is still answered. *)
Theorem token_opens_one_side (st : ExtSettings) (now : Z) (h : Head) (db db' : ExtDb) (s : Session) :
  extension_session st now h db = (Ok s, db') ->
  (exists r u version, sessions (xt_db db) !! token_hash s = Some r /\ s_client r = EXTENSION /\ now < expires_at r
     /\ now - xs_idle st < last_seen_at r /\ locked s = false
     /\ users (xt_db db) !! user_id s = Some u /\ blocked_at u = None
     /\ (text ← hd_version h; mapM (parse_unsigned u32_max) (split 46 text)) = Some version
     /\ str_le OLDEST_EXTENSION version = true)
  /\ forall headers background s' db'', browser_session st now headers background db = (Ok s', db'') ->
       token_hash s' <> token_hash s.
Proof.
  intros Hs. apply extension_session_Ok in Hs as (t & _ & Hb & Hc & Hv & _).
  pose proof Hb as (r & u & Hr & Hu & Hbl & Hexp & Hh & Hcl & Hus & _ & Hidle & Hlock)%by_hash_row. split.
  - unfold check_version in Hv. destruct (_ ≫= _) as [v|] eqn:Hver; [|done].
    destruct (str_le OLDEST_EXTENSION v) eqn:Hle; [|done]. rewrite Hh, Hus.
    assert (Hlive : now - xs_idle st < last_seen_at r).
    { destruct Hidle as [Hw|]; [|done]. rewrite Hcl, Hw in Hc. discriminate Hc. }
    exists r, u, v. split_and!; try done; [congruence|]. rewrite Hlock. lia.
  - intros headers bg s' db'' (t' & _ & Hb' & Hc' & _)%browser_session_Ok Heq.
    pose proof Hb' as (r' & u' & Hr' & _ & _ & _ & Hh' & Hcl' & _)%by_hash_row.
    assert (r' = r) as -> by congruence. rewrite Hcl in Hc. rewrite Hcl', Hc in Hc'. discriminate Hc'.
Qed.

(** *** Connecting *)

Lemma session_codes st now h db : xt_codes (extension_session st now h db).2 = xt_codes db.
Proof.
  unfold extension_session. destruct (check_version _); [|done]. destruct (bearer h); [|done].
  destruct (find _ _ _ _ _) as [[x|] d]; [|done]. by case_bool_decide.
Qed.

Lemma browser_codes st now headers bg db : xt_codes (browser_session st now headers bg db).2 = xt_codes db.
Proof. unfold browser_session. destruct (from_request_parts _ _ _ _ _) as [[x|e] d]; [done|by destruct e]. Qed.

Lemma as_extension_codes st now h f db :
  (forall s x, xt_codes (f s x).2 = xt_codes x) -> xt_codes (as_extension st now h f db).2 = xt_codes db.
Proof.
  intros Hf. unfold as_extension. rewrite <- (session_codes st now h db).
  destruct (extension_session st now h db) as [[s|e] x]; [apply Hf|done].
Qed.

Lemma as_browser_codes st now headers bg f db :
  (forall s x, xt_codes (f s x).2 = xt_codes x) -> xt_codes (as_browser st now headers bg f db).2 = xt_codes db.
Proof.
  intros Hf. unfold as_browser. rewrite <- (browser_codes st now headers bg db).
  destruct (browser_session st now headers bg db) as [[s|e] x]; [apply Hf|done].
Qed.

Lemma answer_codes {A} (r : result A ExtProblem) f db :
  (forall a, r = Ok a -> xt_codes (f a).2 = xt_codes db) -> xt_codes (answer r f db).2 = xt_codes db.
Proof. intros Hf. destruct r; [by apply Hf|done]. Qed.

(** An attempt that counts: one that looks for the code. *)
Definition counts (st : ExtSettings) (now : Z) (c : ExtCall) (h : list Z) (db : ExtDb) : Prop :=
  exists version code verifier k i, c = X_trade version code verifier k i /\ sha256 code = h
    /\ check_version version = Ok tt /\ is_verifier verifier = true /\ (serve st now c db).1 <> Err (XP AP_Internal).

(** The request that made a code's row. *)
Definition made (st : ExtSettings) (now : Z) (c : ExtCall) (h : list Z) (row : CodeRow) (db : ExtDb) : Prop :=
  exists headers bg code input s x name, c = X_create_code headers bg code input
    /\ browser_session st now headers bg db = (Ok s, x) /\ allows_extension st (nc_extension_id input) = true
    /\ sha256 code = h /\ row = {| cd_user := user_id s; cd_groups := s_group_sids s; cd_extension := nc_extension_id input;
                                  cd_challenge := nc_challenge input; cd_name := name; cd_expires := now + CODE_SECONDS |}.

Lemma trade_codes st now version code verifier k i db h row :
  xt_codes (trade st now version code verifier k i db).2 !! h = Some row ->
  xt_codes db !! h = Some row
  /\ (check_version version = Ok tt -> is_verifier verifier = true -> sha256 code = h ->
      (trade st now version code verifier k i db).1 = Err (XP AP_Internal)).
Proof.
  unfold trade. destruct (check_version version) as [[]|]; [|done].
  destruct (is_verifier verifier) eqn:Hv; simpl; [|done].
  destruct (xt_codes db !! sha256 code) as [x|] eqn:Hx; [|simpl; intros Hr; split; [done|intros; congruence]].
  assert (Hgone : forall r : result Connected ExtProblem,
    xt_codes (r, on_codes (delete (sha256 code)) db).2 !! h = Some row ->
    xt_codes db !! h = Some row /\ ((Ok tt : result unit ExtProblem) = Ok tt -> true = true -> sha256 code = h -> r = Err (XP AP_Internal))).
  { intros r Hr. simpl in Hr. apply lookup_delete_Some in Hr as [Hne Hr]. split; [done|congruence]. }
  destruct (now <? cd_expires x); simpl; [|apply Hgone].
  destruct (bool_decide _); simpl; [|apply Hgone].
  destruct (blocked_user _ _); [apply Hgone|].
  unfold create_extension. destruct (is_some _); [simpl; intros Hr; by split|].
  destruct (users _ !! _) as [u|]; [|done]. simpl. intros Hr%lookup_delete_Some. destruct Hr as [Hne Hr].
  split; [done|congruence].
Qed.

Lemma serve_codes st now c db h row :
  xt_codes (serve st now c db).2 !! h = Some row ->
  (xt_codes db !! h = Some row /\ ~ counts st now c h db) \/ made st now c h row db.
Proof.
  assert (Hsame : (forall a b d e f, c <> X_trade a b d e f) -> xt_codes (serve st now c db).2 = xt_codes db ->
    xt_codes (serve st now c db).2 !! h = Some row ->
    (xt_codes db !! h = Some row /\ ~ counts st now c h db) \/ made st now c h row db).
  { intros Hc Heq Hr. left. rewrite Heq in Hr. split; [done|]. intros (? & ? & ? & ? & ? & -> & _). by eapply Hc. }
  destruct c; simpl in *.
  - unfold as_browser. destruct (browser_session st now headers background db) as [[s|e] x] eqn:Hb.
    + pose proof (browser_codes st now headers background db) as Hx. rewrite Hb in Hx. simpl in Hx.
      destruct (create_code s st now code0 input x) as [y|e] eqn:Hc; simpl.
      * unfold create_code in Hc. inv_ok Hc. bools. subst y. simpl. rewrite lookup_insert_Some.
        intros [[Hh <-]|[_ Hr]].
        -- right. by exists headers, background, code0, input, s, x, a.
        -- left. rewrite Hx in Hr. split; [done|]. by intros (? & ? & ? & ? & ? & ? & _).
      * rewrite Hx. intros Hr. left. split; [done|]. by intros (? & ? & ? & ? & ? & ? & _).
    + pose proof (browser_codes st now headers background db) as Hx. rewrite Hb in Hx. simpl in *. rewrite Hx.
      intros Hr. left. split; [done|]. by intros (? & ? & ? & ? & ? & ? & _).
  - intros Hr. left. destruct (trade st now version code0 verifier new_token new_id db) as [r x] eqn:Ht.
    assert (Hx : xt_codes x !! h = Some row) by (by destruct r). change x with (r, x).2 in Hx.
    rewrite <- Ht in Hx. apply trade_codes in Hx as [Hx Hint]. split; [done|].
    intros (v & cd & vf & k & i & [= <- <- <- <- <-] & Hh & Hv & Hvf & Hne). apply Hne. simpl. rewrite Ht.
    specialize (Hint Hv Hvf Hh). rewrite Ht in Hint. simpl in Hint. by subst r.
  - apply Hsame; [done|]. by apply as_extension_codes.
  - apply Hsame; [done|]. apply as_browser_codes. intros s x. apply answer_codes. intros y Hy.
    unfold end_extension in Hy. destruct (List.find _ _) as [[k r]|]; [|done]. by injection Hy as <-.
  - apply Hsame; [done|]. apply as_extension_codes. intros s x. apply answer_codes. intros y Hy.
    unfold fill in Hy. inv_ok Hy. by subst y.
  - apply Hsame; [done|]. apply as_extension_codes. intros s x. apply answer_codes. intros y Hy.
    unfold copy in Hy. inv_ok Hy. by subst y.
  - apply Hsame; [done|]. apply as_extension_codes. intros s x. apply answer_codes. intros y Hy.
    unfold code in Hy. inv_ok Hy. by subst y.
  - intros Hr. left. split; [|by intros (? & ? & ? & ? & ? & ? & _)].
    destruct purge; simpl in Hr; repeat (apply map_lookup_filter_Some in Hr as [Hr _]); done.
Qed.

(** Every code that waits was asked for, and no attempt looked for it since. *)
Definition waiting (st : ExtSettings) (db0 : ExtDb) (es : list (Z * ExtCall)) (h : list Z) (row : CodeRow) : Prop :=
  exists es1 t c es2, es = es1 ++ (t, c) :: es2 /\ made st t c h row (run st es1 db0)
    /\ forall es3 t' c' es4, es2 = es3 ++ (t', c') :: es4 ->
         ~ counts st t' c' h (run st (es1 ++ (t, c) :: es3) db0).

Lemma run_snoc st es e db : run st (es ++ [e]) db = (serve st e.1 e.2 (run st es db)).2.
Proof. unfold run. by rewrite foldl_app. Qed.

Lemma codes_waiting st db0 es h row :
  xt_codes db0 = ∅ -> xt_codes (run st es db0) !! h = Some row -> waiting st db0 es h row.
Proof.
  intros H00. induction es as [|[t c] es IH] using rev_ind; intros Hr; [simpl in Hr; by rewrite H00, lookup_empty in Hr|].
  rewrite run_snoc in Hr. apply serve_codes in Hr as [[Hr Hno]|Hm].
  - destruct (IH Hr) as (es1 & t1 & c1 & es2 & -> & Hm & Hl). exists es1, t1, c1, (es2 ++ [(t, c)]).
    split; [by rewrite <- app_assoc|]. split; [done|]. intros es3 t' c' es4 Heq.
    destruct es4 as [|e es4 _] using rev_ind.
    + apply app_inj_tail in Heq as [-> [= <- <-]]. exact Hno.
    + rewrite app_comm_cons, app_assoc in Heq. apply app_inj_tail in Heq as [-> _]. by eapply Hl.
  - exists es, t, c, []. split_and!; [done..|]. intros es3 t' c' es4 Heq. by destruct es3.
Qed.

(** C21: An extension gets a session only for a code that a signed-in user asked
    for in the browser less than a minute before, for an extension that may
    connect, with the verifier behind its challenge and as the first attempt
    that looked for the code; the session is that user's, with their groups,
    and they are not blocked. *)
Theorem code_traded_once (st : ExtSettings) (now : Z) (es : list (Z * ExtCall)) (db0 db' : ExtDb)
    (version : option (list Z)) (code_ verifier k : list Z) (i : Uuid) (a : Answer) :
  xt_codes db0 = ∅ ->
  serve st now (X_trade version code_ verifier k i) (run st es db0) = (Ok a, db') ->
  exists es1 t headers bg code' input es2 s x,
    es = es1 ++ (t, X_create_code headers bg code' input) :: es2
    /\ browser_session st t headers bg (run st es1 db0) = (Ok s, x)
    /\ allows_extension st (nc_extension_id input) = true
    /\ sha256 code' = sha256 code_ /\ nc_challenge input = b64url_encode (sha256 verifier)
    /\ now < t + CODE_SECONDS
    /\ (forall es3 t' c' es4, es2 = es3 ++ (t', c') :: es4 ->
          ~ counts st t' c' (sha256 code_) (run st (es1 ++ (t, X_create_code headers bg code' input) :: es3) db0))
    /\ blocked_user (user_id s) (run st es db0) = false
    /\ xt_codes db' !! sha256 code_ = None
    /\ exists r, sessions (xt_db db') !! sha256 k = Some r /\ s_user_id r = user_id s
         /\ s_groups r = s_group_sids s /\ s_client r = EXTENSION /\ expires_at r = now + xs_max st.
Proof.
  intros H00. simpl. destruct (trade _ _ _ _ _ _ _ _) as [r x] eqn:Ht. unfold trade in Ht.
  destruct (check_version version) as [[]|]; [|by simplify_eq].
  destruct (is_verifier verifier); simpl in Ht; [|by simplify_eq].
  destruct (xt_codes (run st es db0) !! sha256 code_) as [row|] eqn:Hrow; [|by simplify_eq].
  destruct (now <? cd_expires row) eqn:Hexp; simpl in Ht; [|by simplify_eq].
  destruct (bool_decide _) eqn:Hch; simpl in Ht; [|by simplify_eq].
  destruct (blocked_user _ _) eqn:Hbl; [by simplify_eq|].
  unfold create_extension in Ht. destruct (is_some (sessions _ !! sha256 k)); [by simplify_eq|].
  destruct (users _ !! _) as [u|]; [|by simplify_eq]. injection Ht as <- <-. intros [= _ <-]. bools.
  destruct (codes_waiting st db0 es _ _ H00 Hrow) as (es1 & t & c & es2 & Hes & Hm & Hno).
  destruct Hm as (headers & bg & code' & input & s & y & nm & -> & Hs & Hal & Hh & Hr). subst row. simpl in *.
  exists es1, t, headers, bg, code', input, es2, s, y. split_and!; try done.
  - by rewrite lookup_delete_eq.
  - eexists. split; [by rewrite lookup_insert_eq|]. done.
Qed.

(** *** Logins *)

(** What an answer gives away of an entry, and what the log says of it. *)
Definition gives (a : Answer) (c : ExtCall) (row : CredentialRow) (v : VaultStore) : option ExtAction :=
  match c, a with
  | X_fill _ id page, A_filled u p =>
      match stored_text v id (cr_version row) PASSWORD_FIELD with
      | Ok pw => if bool_decide (u = cr_username row /\ p = default [] pw)
                 then Some (Revealed id FILL (cr_version row) (Some page)) else None
      | Err _ => None
      end
  | X_copy _ id, A_copied p =>
      match stored_text v id (cr_version row) PASSWORD_FIELD with
      | Ok pw => if bool_decide (p = default [] pw) then Some (Revealed id COPY (cr_version row) None) else None
      | Err _ => None
      end
  | X_code _ unix id purpose page, A_totp code =>
      match current_code unix id v with
      | Ok code' => if bool_decide (code = code')
                    then Some (CodeShown id purpose (if bool_decide (purpose = FILL) then page else None)) else None
      | Err _ => None
      end
  | _, _ => None
  end.

(** The page a request asks to fill, if it does. *)
Definition fills (c : ExtCall) : option (list Z) :=
  match c with
  | X_fill _ _ page => Some page
  | X_code _ _ _ purpose page => if bool_decide (purpose = FILL) then page else None
  | _ => None
  end.

Definition entry_of (c : ExtCall) : option (Head * Uuid) :=
  match c with
  | X_fill h id _ | X_copy h id | X_code h _ id _ _ => Some (h, id)
  | _ => None
  end.

Lemma revealable_Ok s now id db row :
  revealable s now id db = Ok row ->
  authorize (vault_catalog (xt_vault db) now) (subject s) Role_Reveal (Credential id) = true
  /\ vs_credentials (xt_vault db) !! id = Some row /\ cr_deleted_at row = None.
Proof.
  unfold revealable, require, authorize. destruct (effective_role _ _ _) as [r|]; [|done].
  destruct (role_leb _ r) eqn:Hr; simpl; [|done].
  destruct (vs_credentials _ !! id) as [x|]; [|done]. destruct (cr_deleted_at x) eqn:Hd; simpl; [done|].
  intros [= <-]. by rewrite Hr.
Qed.

Lemma belongs_Ok url page : belongs url page = Ok tt -> matches url page = true.
Proof. unfold belongs. by destruct (matches url page). Qed.

Lemma check_origin_Ok page page' : check_origin page = Ok page' -> page' = page.
Proof. unfold check_origin. destruct (_ <=? _); [by intros [= <-]|done]. Qed.

Lemma as_extension_Ok st now h f db a db' :
  as_extension st now h f db = (Ok a, db') ->
  exists s x, extension_session st now h db = (Ok s, x) /\ f s x = (Ok a, db')
    /\ xt_vault x = xt_vault db /\ xt_log x = xt_log db.
Proof.
  unfold as_extension. destruct (extension_session st now h db) as [[s|e] x] eqn:Hs; [|done]. intros Hf.
  exists s, x. split_and!; try done; apply extension_session_Ok in Hs as (? & _ & _ & _ & _ & ->); done.
Qed.

Lemma answer_Ok {A} (r : result A ExtProblem) f db a db' :
  answer r f db = (Ok a, db') -> exists x, r = Ok x /\ f x = (a, db').
Proof. destruct r as [x|]; [|done]. intros [= <- <-]. exists x. split; [done|]. by destruct (f x). Qed.

(** C20: A secret leaves only for the extension of a user who may reveal the
    entry, outside the recycle bin; it is the one of the entry's current
    version; to fill it in, only for a page of the entry's site; and each time
    the log tells who had it, when and what for, while nothing else changes. *)
Theorem secrets_leave_for_their_site (st : ExtSettings) (now : Z) (c : ExtCall) (h : Head) (id : Uuid)
    (db db' : ExtDb) (a : Answer) :
  entry_of c = Some (h, id) -> serve st now c db = (Ok a, db') ->
  exists s x row what, extension_session st now h db = (Ok s, x)
    /\ authorize (vault_catalog (xt_vault db) now) (subject s) Role_Reveal (Credential id) = true
    /\ vs_credentials (xt_vault db) !! id = Some row /\ cr_deleted_at row = None
    /\ gives a c row (xt_vault db) = Some what
    /\ (forall page, fills c = Some page -> matches (cr_url row) page = true)
    /\ db' = record now (user_id s) what x.
Proof.
  intros He. destruct c; simpl in He; simplify_eq; simpl; intros Hs;
    apply as_extension_Ok in Hs as (s & x & Hs & Hf & Hv & Hl); apply answer_Ok in Hf as (y & Hy & Hf);
    injection Hf as <- <-; exists s, x.
  - unfold fill in Hy. inv_ok Hy. apply revealable_Ok in E0 as (Hr & Hrow & Hd). apply check_origin_Ok in E. subst a.
    apply belongs_Ok in E1. subst y. rewrite Hv in *. exists a0. eexists. split_and!; try done.
    + simpl. destruct (stored_text _ _ _ _); [|done]. injection E2 as ->. by rewrite bool_decide_eq_true_2.
    + by intros p [= <-].
  - unfold copy in Hy. inv_ok Hy. apply revealable_Ok in E as (Hr & Hrow & Hd). subst y. rewrite Hv in *.
    exists a. eexists. split_and!; try done. simpl. destruct (stored_text _ _ _ _); [|done]. injection E0 as ->.
    by rewrite bool_decide_eq_true_2.
  - unfold code in Hy. cbv beta zeta in Hy. destruct (revealable s now id x) as [row|] eqn:E; [|done].
    apply revealable_Ok in E as (Hr & Hrow & Hd).
    destruct (if bool_decide (purpose = FILL) then _ else _) as [origin|] eqn:Ho; [|done].
    destruct (xp (current_code _ _ _)) as [code'|] eqn:Hc; [|done]. injection Hy as <-. rewrite Hv in *.
    exists row, (CodeShown id purpose origin). simpl.
    assert (Horigin : origin = (if bool_decide (purpose = FILL) then page else None)
      /\ forall p, (if bool_decide (purpose = FILL) then page else None) = Some p -> matches (cr_url row) p = true).
    { destruct (bool_decide (purpose = FILL)).
      - destruct page as [p|]; [|done]. inv_ok Ho. apply check_origin_Ok in E. apply belongs_Ok in E0. subst. split; [done|].
        by intros ? [= <-].
      - destruct (bool_decide (purpose = COPY)); [|done]. injection Ho as <-. by split. }
    destruct Horigin as [-> Hm]. destruct (current_code _ _ _) as [code2|]; [|done]. injection Hc as ->.
    rewrite bool_decide_eq_true_2 by done. by split_and!.
Qed.

End theorems.

Module ExtensionExamples.
Import SessionExamples.

#[local] Existing Instance SessionExamples.decimal_uuid.
#[local] Existing Instance SessionExamples.no_hash.
#[local] Existing Instance WebauthnExamples.plain_base64.
#[local] Existing Instance TotpExamples.counting.
#[local] Existing Instance TotpExamples.plain_base32.
#[local] Existing Instance SiteExamples.plain_urls.
#[local] Existing Instance SiteExamples.two_labels.

Definition st : ExtSettings :=
  {| xs_idle := 30 * minute; xs_max := 720 * minute; xs_extension_ids := [lit "abcd"]; xs_served := None |}.

(** A login of a portal, in a collection at the root. *)
Definition portal : CredentialRow :=
  {| cr_collection := 1; cr_name := lit "portal"; cr_username := lit "root"; cr_url := lit "portal.example.com";
     cr_notes := []; cr_icon := 0; cr_fields := []; cr_tags := []; cr_expires_on := None; cr_has_totp := false;
     cr_version := 2; cr_deleted_at := None |}.

Definition vault : VaultStore :=
  {| vs_collections := {[1 := {| co_parent := None; co_name := lit "servers" |}]};
     vs_credentials := {[5 := portal]}; vs_attachments := ∅;
     vs_secrets := {[(5, 1, PASSWORD) := utf8 (lit "old"); (5, 2, PASSWORD) := utf8 (lit "new")]};
     vs_objects := {| folders := []; collections := []; devices := []; credentials := []; profiles := [] |};
     vs_grants := []; vs_log := [] |}.

Definition no_personal : PersonalDb :=
  {| pd_unlocks := []; pd_entries := []; pd_attachments := []; pd_search := ∅;
     pd_escrow := {| eb_keys := []; eb_escrow := ∅ |}; pd_recoveries := []; pd_log := [] |}.

Definition start : ExtDb :=
  {| xt_db := db_of 0 0; xt_names := ∅; xt_codes := ∅; xt_vault := vault; xt_personal := no_personal; xt_log := [] |}.

Definition verifier : list Z := replicate 43 97.
Definition asks : ExtCall :=
  X_create_code [cookie_header] false (lit "code")
    {| nc_extension_id := lit "abcd"; nc_challenge := verifier; nc_name := lit " Edge " |}.
Definition trades : ExtCall := X_trade (Some (lit "0.2.10")) (lit "code") verifier (lit "tok") 9.

Definition asked : list (Z * ExtCall) := [(minute, asks)].
Definition connected : ExtDb := (serve st (minute + 59 * second) trades (run st asked start)).2.

Definition head_of (token : list Z) : Head :=
  {| hd_version := Some (lit "0.2.10"); hd_authorization := Some (lit "Bearer " ++ token) |}.

Lemma trade_serves :
  serve st (minute + 59 * second) trades (run st asked start)
  = (Ok (A_connected {| cn_token := lit "tok"; cn_username := lit "alice"; cn_display_name := lit "Alice"; cn_idle := 30 * minute |}),
     connected).
Proof. vm_compute. reflexivity. Qed.

Lemma code_traded_once_witness :
  exists es1 t headers bg code' input es2 s x,
    asked = es1 ++ (t, X_create_code headers bg code' input) :: es2
    /\ browser_session st t headers bg (run st es1 start) = (Ok s, x)
    /\ allows_extension st (nc_extension_id input) = true
    /\ sha256 code' = sha256 (lit "code") /\ nc_challenge input = b64url_encode (sha256 verifier)
    /\ minute + 59 * second < t + CODE_SECONDS
    /\ (forall es3 t' c' es4, es2 = es3 ++ (t', c') :: es4 ->
          ~ counts st t' c' (sha256 (lit "code")) (run st (es1 ++ (t, X_create_code headers bg code' input) :: es3) start))
    /\ blocked_user (user_id s) (run st asked start) = false
    /\ xt_codes connected !! sha256 (lit "code") = None
    /\ exists r, sessions (xt_db connected) !! sha256 (lit "tok") = Some r /\ s_user_id r = user_id s
         /\ s_groups r = s_group_sids s /\ s_client r = EXTENSION /\ expires_at r = minute + 59 * second + xs_max st.
Proof.
  exact (code_traded_once st (minute + 59 * second) asked start connected (Some (lit "0.2.10")) (lit "code") verifier
    (lit "tok") 9 _ eq_refl trade_serves).
Defined.

(** A second later, or a second time, the code is worth nothing. *)
Example code_expired : (serve st (2 * minute) trades (run st asked start)).1 = Err (XP (AP_Invalid "code")).
Proof. vm_compute. reflexivity. Qed.

Example code_used_up : (serve st (minute + 59 * second) trades connected).1 = Err (XP (AP_Invalid "code")).
Proof. vm_compute. reflexivity. Qed.

Definition extension_alice : Session :=
  {| token_hash := lit "tok"; session_id := 9; client := EXTENSION; user_id := 2;
     username := lit "alice"; display_name := lit "Alice"; kind := lit "local"; sid := None;
     upn := None; s_group_sids := []; identity_id := Some 7; memberships := [];
     roles := [lit "administrator"]; locked := false; confirmed := false |}.

Lemma extension_opens : extension_session st (2 * minute) (head_of (lit "tok")) connected = (Ok extension_alice, connected).
Proof. vm_compute. reflexivity. Qed.

Lemma token_opens_one_side_witness :
  forall headers background s' db'', browser_session st (2 * minute) headers background connected = (Ok s', db'') ->
    token_hash s' <> token_hash extension_alice.
Proof. exact (proj2 (token_opens_one_side st (2 * minute) (head_of (lit "tok")) connected connected extension_alice extension_opens)). Defined.

Definition fill_login : ExtCall := X_fill (head_of (lit "tok")) 5 (lit "https://login.example.com").

Definition filled : result Answer ExtProblem * ExtDb := serve st (2 * minute) fill_login connected.

Lemma secrets_leave_for_their_site_witness :
  filled.1 = Ok (A_filled (lit "root") (lit "new"))
  /\ exists s x row what, extension_session st (2 * minute) (head_of (lit "tok")) connected = (Ok s, x)
    /\ authorize (vault_catalog (xt_vault connected) (2 * minute)) (subject s) Role_Reveal (Credential 5) = true
    /\ vs_credentials (xt_vault connected) !! 5 = Some row /\ cr_deleted_at row = None
    /\ gives (A_filled (lit "root") (lit "new")) fill_login row (xt_vault connected) = Some what
    /\ (forall page, fills fill_login = Some page -> matches (cr_url row) page = true)
    /\ filled.2 = record (2 * minute) (user_id s) what x.
Proof.
  split; [vm_compute; reflexivity|].
  apply (secrets_leave_for_their_site st (2 * minute) fill_login (head_of (lit "tok")) 5 connected filled.2
    (A_filled (lit "root") (lit "new")) eq_refl). vm_compute. reflexivity.
Defined.

Example another_site :
  (serve st (2 * minute) (X_fill (head_of (lit "tok")) 5 (lit "https://example.com.evil.net")) connected).1 = Err XP_WrongSite.
Proof. vm_compute. reflexivity. Qed.

Example a_browser_token : (serve st (2 * minute) (X_copy (head_of (lit "abc123")) 5) connected).1 = Err XP_Unauthenticated.
Proof. vm_compute. reflexivity. Qed.

(** A malformed verifier leaves the code for another attempt. *)
Example malformed_first :
  let tried := serve st (minute + second) (X_trade (Some (lit "0.2.10")) (lit "code") (lit "short") (lit "tok") 9)
                 (run st asked start) in
  tried.1 = Err (XP (AP_Invalid "verifier")) /\ is_ok (serve st (minute + 2 * second) trades tried.2).1 = true.
Proof. vm_compute. split; reflexivity. Qed.

End ExtensionExamples.
