(* ===== verification/Reports.v ===== *)
(** * Who can reach what, and why (crates/server/src/api/reports.rs, access.rs)

    The reports for auditors and administrators. They only read: the tables of
    [People], the rows the catalog is loaded from, and their names. Columns
    that are shown as they are stored are left out. What the server asks the
    directory is a parameter. *)
From S2P Require Import Prelude Text Sid Model Session AccessRequests Store Folders Grants People.

(** ** Names *)

(** The rows of the tables, with their names. *)
Record Rows := {
  rw_folders : list (Uuid * option Uuid * list Z);
  rw_collections : list (Uuid * option Uuid * list Z);
  rw_devices : list (Uuid * Uuid * list Z);
  rw_credentials : list (Uuid * Uuid * list Z);
  rw_profiles : list (Uuid * option Uuid * list Z)
}.

Definition objects_of (rw : Rows) : Objects :=
  {| folders := fst <$> rw_folders rw; collections := fst <$> rw_collections rw; devices := fst <$> rw_devices rw;
     credentials := fst <$> rw_credentials rw; profiles := fst <$> rw_profiles rw |}.

Record Names := {
  nm_folders : gmap Uuid (option Uuid * list Z);
  nm_collections : gmap Uuid (option Uuid * list Z);
  nm_objects : gmap ObjectId (list Z)
}.

Definition names_load (rw : Rows) : Names :=
  let tree := fun rows : list (Uuid * option Uuid * list Z) => collect ((fun r => (r.1.1, (r.1.2, r.2))) <$> rows) in
  {| nm_folders := tree (rw_folders rw);
     nm_collections := tree (rw_collections rw);
     nm_objects := collect (((fun r => (Folder r.1.1, r.2)) <$> rw_folders rw)
                            ++ ((fun r => (Collection r.1.1, r.2)) <$> rw_collections rw)
                            ++ ((fun r => (Device r.1.1, r.2)) <$> rw_devices rw)
                            ++ ((fun r => (Credential r.1.1, r.2)) <$> rw_credentials rw)
                            ++ ((fun r => (Profile r.1.1, r.2)) <$> rw_profiles rw)) |}.

Definition object_name (n : Names) (o : ObjectId) : list Z := default [] (nm_objects n !! o).

(** The [while] loop of [walk]: at most a hundred names. *)
Fixpoint walk_loop (bound : nat) (tree : gmap Uuid (option Uuid * list Z)) (next : option Uuid) : list (list Z) :=
  match bound, next with
  | S bound, Some id =>
      match tree !! id with
      | Some (parent, n) => n :: walk_loop bound tree parent
      | None => []
      end
  | _, _ => []
  end.

Definition walk (tree : gmap Uuid (option Uuid * list Z)) (from : option Uuid) : list (list Z) :=
  reverse (walk_loop 100 tree from).

Definition names_path (n : Names) (folder : option Uuid) : list (list Z) := walk (nm_folders n) folder.

Definition path_to (n : Names) (container : option ObjectId) : list (list Z) :=
  match container with
  | Some (Collection id) => walk (nm_collections n) (Some id)
  | Some (Folder id) => walk (nm_folders n) (Some id)
  | _ => []
  end.

(** ** Order *)

Definition path_le : list (list Z) -> list (list Z) -> bool := lex_le str_lt.

(** [(&a.path, &a.name).cmp(&(&b.path, &b.name))]. *)
Definition place_le (a b : list (list Z) * list Z) : bool :=
  if negb (path_le b.1 a.1) then true else if negb (path_le a.1 b.1) then false else str_le a.2 b.2.

(** ** Tables and reports *)

(** [tb_grant_names] are the columns [principal_sid] and [principal_name] of the
    grants, [tb_latest] the groups of a user's latest session. *)
Record Tables := {
  tb_people : People;
  tb_rows : Rows;
  tb_grant_names : list (list Z * list Z);
  tb_directory_groups : list (list Z * list Z);
  tb_latest : Uuid -> option (list (list Z))
}.

Definition report_catalog (now : Z) (t : Tables) : Catalog := load (objects_of (tb_rows t)) (pe_grants (tb_people t)) now.

Definition require_auditor (s : Session) : result unit ApiProblem := if is_auditor s then Ok tt else Err AP_Forbidden.

Definition FolderChoice : Type := Uuid * list (list Z).

Definition list_folders (s : Session) (t : Tables) : result (list FolderChoice) ApiProblem :=
  let? _ := require_auditor s in
  let n := names_load (tb_rows t) in
  Ok (sort_by (fun a b => path_le a.2 b.2) ((fun kv => (kv.1, names_path n (Some kv.1))) <$> map_to_list (nm_folders n))).

Record Reason := { rs_sid : list Z; rs_name : list Z; rs_role : Role; rs_on : ObjectId; rs_on_name : list Z; rs_inherited : bool }.

Record Reach := { re_object : ObjectId; re_name : list Z; re_path : list (list Z); re_role : Role; re_reasons : list Reason }.

Inductive GroupsFrom := G_directory | G_last_sign_in | G_none.

Record UserReport := {
  ur_user : Uuid;
  ur_administrator : bool;
  ur_groups_from : GroupsFrom;
  ur_principals : list (list Z * list Z);
  ur_reach : list Reach
}.

Record Holder := {
  ho_sid : list Z; ho_name : list Z; ho_role : Role; ho_on : Uuid; ho_path : list (list Z); ho_inherited : bool;
  ho_members : list (list Z)
}.

Section reports.
Context `{UuidText}.

Definition own_sid (id : Uuid) : list Z := lit "group:" ++ uuid_text id.

(** Rows with the names that count most come last; the order of the others is
    the database's. *)
Definition principal_names (t : Tables) : gmap (list Z) (list Z) :=
  let p := tb_people t in
  collect (tb_grant_names t
           ++ ((fun m => (gm_sid m, gm_name m)) <$> pe_members p)
           ++ omap (fun u => (fun s => (s, u_display_name u.2)) <$> u_sid u.2) (map_to_list (pe_users p))
           ++ omap (fun u => (fun i => (local_principal i, u_display_name u.2)) <$> u_identity_id u.2) (map_to_list (pe_users p))
           ++ ((fun g => (own_sid g.1, gp_name g.2)) <$> map_to_list (pe_groups p))
           ++ tb_directory_groups t).

Definition label (t : Tables) (sid : str) : list Z := default sid (principal_names t !! sid).

(** The directory's groups of a user: asked for now ([None] if it is not set,
    an error if it is not reachable), or those of the last sign-in. *)
Definition directory_groups (directory : option (list Z -> result (list (list Z)) unit)) (user : Uuid)
    (sid : option (list Z)) (t : Tables) : list (list Z) * GroupsFrom :=
  let last := match tb_latest t user with Some groups => (groups, G_last_sign_in) | None => ([], G_none) end in
  match directory, sid ≫= sid_from_str with
  | Some ask, Some sid => match ask sid with Ok groups => (groups, G_directory) | Err _ => last end
  | _, _ => last
  end.

(** The user as their next session would be read. *)
Definition next_session (id : Uuid) (u : UserRow) (groups : list (list Z)) (p : People) : Session :=
  let them (ms rs : list (list Z)) :=
    {| token_hash := []; session_id := 0; client := lit "web"; user_id := id; username := u_username u;
       display_name := u_display_name u; Session.kind := u_kind u; sid := u_sid u; upn := None;
       s_group_sids := groups; identity_id := u_identity_id u; memberships := ms; Session.roles := rs;
       locked := false; confirmed := false |} in
  let named := groups ++ option_list (principal (them [] [])) in
  let ms := remove_dups ((fun m => own_sid (gm_group m)) <$> filter (fun m => gm_sid m ∈ named) (pe_members p)) in
  let rs := remove_dups (rr_role <$> filter (fun r => rr_sid r ∈ session_sids (them ms [])) (pe_roles p)) in
  them ms rs.

Definition report_groups (directory : option (list Z -> result (list (list Z)) unit)) (id : Uuid) (u : UserRow)
    (t : Tables) : list (list Z) * GroupsFrom :=
  if bool_decide (u_kind u = lit "directory") then directory_groups directory id (u_sid u) t else ([], G_none).

Definition user_report (s : Session) (now : Z) (id : Uuid)
    (directory : option (list Z -> result (list (list Z)) unit)) (t : Tables) : result UserReport ApiProblem :=
  let? _ := require_auditor s in
  let? u := ok_or (pe_users (tb_people t) !! id) AP_NotFound in
  let '(groups, from) := report_groups directory id u t in
  let who := subject (next_session id u groups (tb_people t)) in
  let catalog := report_catalog now t in
  let names := names_load (tb_rows t) in
  let reach_of := fun or : ObjectId * Role =>
    let reasons := if admin who then []
                   else (fun r => {| rs_sid := r.1.2; rs_name := label t r.1.2; rs_role := r.2; rs_on := r.1.1;
                                     rs_on_name := object_name names r.1.1;
                                     rs_inherited := negb (bool_decide (r.1.1 = or.1)) |})
                          <$> reasons catalog who or.1 in
    {| re_object := or.1; re_name := object_name names or.1; re_path := path_to names (container catalog or.1);
       re_role := or.2; re_reasons := reasons |} in
  Ok {| ur_user := id; ur_administrator := admin who; ur_groups_from := from;
        ur_principals := sort_by (fun a b => str_le a.1 b.1) ((fun p => (p, label t p)) <$> elements (sids who));
        ur_reach := sort_by (fun a b => place_le (re_path a, re_name a) (re_path b, re_name b))
                      (reach_of <$> map_to_list (Model.roles (visible catalog who))) |}.

(** The members of a group of remotehub's own, which the query sorts. *)
Definition folder_report (s : Session) (now : Z) (id : Uuid) (t : Tables) :
    result (FolderChoice * list Holder) ApiProblem :=
  let? _ := require_auditor s in
  let catalog := report_catalog now t in
  if negb (contains catalog (Folder id)) then Err AP_NotFound
  else
    let names := names_load (tb_rows t) in
    let holders := omap (fun g =>
      match g.1.1 with
      | Folder on =>
          Some {| ho_sid := g.1.2; ho_name := label t g.1.2; ho_role := g.2; ho_on := on;
                  ho_path := names_path names (Some on); ho_inherited := negb (on =? id);
                  ho_members := gm_name <$> filter (fun m => own_sid (gm_group m) = g.1.2) (pe_members (tb_people t)) |}
      | _ => None
      end) (grants_along catalog (Folder id)) in
    Ok ((id, names_path names (Some id)), holders).

(** ** The Access page *)

Record PrincipalGrant := {
  pg_object : ObjectId; pg_name : list Z; pg_path : list (list Z); pg_role : list Z; pg_expires_at : option Z
}.

(** The grants of one user or group that have not ended. *)
Definition principal_grants (s : Session) (now : Z) (who : str) (t : Tables) : result (list PrincipalGrant) ApiProblem :=
  let? _ := require_auditor s in
  let catalog := report_catalog now t in
  let names := names_load (tb_rows t) in
  let shown := omap (fun g =>
    o ← grant_object (gr_folder g) (gr_device g) (gr_credential g) (gr_collection g);
    Some {| pg_object := o; pg_name := object_name names o; pg_path := path_to names (container catalog o);
            pg_role := gr_role g; pg_expires_at := gr_expires_at g |})
    (filter (fun g => gr_principal_sid g = who /\ is_some_and (fun e => e <=? now) (gr_expires_at g) = false)
       (pe_grants (tb_people t))) in
  Ok (sort_by (fun a b => place_le (pg_path a, pg_name a) (pg_path b, pg_name b)) shown).

Record UserGroup := { ug_sid : list Z; ug_name : list Z; ug_own : bool; ug_via : option (list Z) }.

Record AccessUser := {
  au_id : Uuid; au_principal : option (list Z); au_groups : list UserGroup; au_roles : list (list Z * list Z)
}.

Record AccessMember := { am_sid : list Z; am_name : list Z; am_kind : list Z; am_user : option Uuid }.

Record AccessGroup := {
  ag_sid : list Z; ag_name : list Z; ag_id : option Uuid; ag_members : list AccessMember;
  ag_member_of : list (list Z); ag_roles : list (list Z); ag_grants : Z
}.

Definition in_own (p : People) (sid : str) : list Uuid := gm_group <$> filter (fun m => gm_sid m = sid) (pe_members p).
Definition own_name (p : People) (id : Uuid) : list Z := default [] (gp_name <$> pe_groups p !! id).
Definition roles_held (p : People) (sid : str) : list (list Z) := rr_role <$> filter (fun r => rr_sid r = sid) (pe_roles p).

Definition shown_principal (u : UserRow) : option (list Z) :=
  match u_sid u with
  | Some sid => if bool_decide (u_kind u = lit "directory") then Some sid else local_principal <$> u_identity_id u
  | None => local_principal <$> u_identity_id u
  end.

(** The loop over the holders, with the groups seen so far. *)
Fixpoint own_groups (p : People) (seen : gset Uuid) (found : list (Uuid * option (list Z))) : list UserGroup :=
  match found with
  | [] => []
  | (g, via) :: found =>
      if bool_decide (g ∈ seen) then own_groups p seen found
      else {| ug_sid := own_sid g; ug_name := own_name p g; ug_own := true; ug_via := via |}
           :: own_groups p ({[g]} ∪ seen) found
  end.

Definition access_user (t : Tables) (id : Uuid) (u : UserRow) : AccessUser :=
  let p := tb_people t in
  let principal := shown_principal u in
  let directory := default [] (tb_latest t id) in
  let holders := ((fun s => (s, None)) <$> option_list principal) ++ ((fun s => (s, Some s)) <$> directory) in
  let groups := ((fun s => {| ug_sid := s; ug_name := label t s; ug_own := false; ug_via := None |}) <$> directory)
                ++ own_groups p ∅ (holders ≫= fun h => (fun g => (g, h.2)) <$> in_own p h.1) in
  let sids := option_list principal ++ (ug_sid <$> groups) in
  {| au_id := id; au_principal := principal; au_groups := groups;
     au_roles := sids ≫= fun s => (fun r => (r, s)) <$> roles_held p s |}.

Definition live_grants (now : Z) (p : People) (sid : str) : Z :=
  Z.of_nat (length (filter (fun g => gr_principal_sid g = sid /\ is_some_and (fun e => e <=? now) (gr_expires_at g) = false)
                      (pe_grants p))).

Definition user_of_principal (p : People) (sid : str) : option Uuid :=
  fst <$> List.find (fun u => bool_decide (u_sid u.2 = Some sid)
                              || bool_decide (local_principal <$> u_identity_id u.2 = Some sid))
            (map_to_list (pe_users p)).

(** The users that are not deleted, which the query sorts. *)
Definition shown_users (p : People) : list (Uuid * UserRow) :=
  filter (fun u => u_kind u.2 <> lit "deleted") (map_to_list (pe_users p)).

(** The groups of the directory something refers to. *)
Definition named_groups (grants : list (list Z)) (p : People) : list (list Z) :=
  filter (fun s => starts_with (lit "group:") s = false)
    (grants ++ (rr_sid <$> filter (fun r => rr_kind r = lit "group") (pe_roles p)))
  ++ (gm_sid <$> filter (fun m => gm_kind m = lit "group") (pe_members p)).

(** [grants] are the groups that grants name, the column [principal_kind] being
    left out of the rows. The list of all groups is sorted by name at the end,
    with the names in lower case. *)
Definition overview `{Lowercase} (s : Session) (now : Z) (grants : list (list Z)) (t : Tables) :
    result (list AccessUser * list AccessGroup) ApiProblem :=
  let? _ := require_auditor s in
  let p := tb_people t in
  let users := (fun u => access_user t u.1 u.2) <$> shown_users p in
  let own := (fun g =>
    {| ag_sid := own_sid g.1; ag_name := gp_name g.2; ag_id := Some g.1;
       ag_members := (fun m => {| am_sid := gm_sid m; am_name := default (gm_name m) (principal_names t !! gm_sid m);
                                  am_kind := gm_kind m; am_user := user_of_principal p (gm_sid m) |})
                     <$> filter (fun m => gm_group m = g.1) (pe_members p);
       ag_member_of := []; ag_roles := roles_held p (own_sid g.1); ag_grants := live_grants now p (own_sid g.1) |})
    <$> map_to_list (pe_groups p) in
  let named := sort_by str_le (remove_dups (named_groups grants p
                 ++ (shown_users p ≫= fun u => default [] (tb_latest t u.1)))) in
  let directory := (fun sid =>
    {| ag_sid := sid; ag_name := label t sid; ag_id := None;
       ag_members := shown_users p ≫= fun u =>
         (fun _ => {| am_sid := default [] (shown_principal u.2); am_name := u_display_name u.2; am_kind := lit "user";
                      am_user := Some u.1 |}) <$> filter (fun g => g = sid) (default [] (tb_latest t u.1));
       ag_member_of := own_sid <$> in_own p sid; ag_roles := roles_held p sid; ag_grants := live_grants now p sid |})
    <$> named in
  Ok (users, sort_by (fun a b => str_le (to_lowercase (ag_name a)) (to_lowercase (ag_name b))) (own ++ directory)).

End reports.

(** ** Theorems *)

Section theorems.
Context `{UuidText}.

(** A user of the directory has a SID, one of Kratos an identity, and nobody
    both: each way to sign in makes its own row. *)
Definition user_named (u : UserRow) : Prop :=
  if bool_decide (u_kind u = lit "directory") then is_Some (u_sid u) /\ u_identity_id u = None else u_sid u = None.

Lemma named_principal u :
  user_named u -> shown_principal u = match u_sid u with Some s => Some s | None => local_principal <$> u_identity_id u end.
Proof.
  unfold user_named, shown_principal. case_bool_decide.
  - by intros [[s ->] _].
  - by intros ->.
Qed.

Lemma names_user_named l u p :
  user_named u ->
  names_user l u p = true <-> p ∈ l ++ option_list (match u_sid u with Some s => Some s | None => local_principal <$> u_identity_id u end).
Proof.
  intros Hn. unfold names_user. rewrite !orb_true_iff, !bool_decide_eq_true, elem_of_app, elem_of_option_list.
  unfold user_named in Hn. case_bool_decide.
  - destruct Hn as [[s ->] ->]. simpl. split; [intros [[?|?]|[=]]; auto|intros [?|?]; auto].
  - rewrite Hn. split; [intros [[?|[=]]|?]; auto|intros [?|?]; auto].
Qed.

Section session.
Context (p : People) (id : Uuid) (u : UserRow) (now idle : Z) (h : list Z) (s : Session).
Hypothesis (Hu : pe_users p !! id = Some u) (Hn : user_named u).
Hypothesis (Hs : by_hash (session_db p) now h idle = Some s) (Hid : user_id s = id).

Lemma read_session :
  Session.kind s = u_kind u /\ sid s = u_sid u /\ identity_id s = u_identity_id u
  /\ exists r, memberships s = memberships_of (session_db p) r u /\ Session.roles s = roles_of (session_db p) r u
     /\ s_group_sids s = s_groups r.
Proof using Hu Hs Hid.
  unfold by_hash in Hs. destruct (sessions _ !! h) as [r|]; [|done].
  destruct (users (session_db p) !! s_user_id r) as [u'|] eqn:Hu'; [|done]. destruct (_ && _); [|done].
  injection Hs as <-. simpl in Hid, Hu'. rewrite Hid, Hu in Hu'. injection Hu' as <-. split_and!; try done. by exists r.
Qed.

Lemma read_principal :
  principal s = match u_sid u with Some x => Some x | None => local_principal <$> u_identity_id u end.
Proof using Hu Hs Hid. destruct read_session as (_ & Hsid & Hident & _). unfold principal. by rewrite Hsid, Hident. Qed.

Lemma read_membership x :
  x ∈ memberships s <-> exists m, m ∈ pe_members p /\ x = own_sid (gm_group m)
    /\ gm_sid m ∈ s_group_sids s ++ option_list (principal s).
Proof using Hu Hn Hs Hid.
  rewrite read_principal. destruct read_session as (_ & _ & _ & r & -> & _ & ->). unfold memberships_of.
  rewrite elem_of_remove_dups, list_elem_of_fmap. split.
  - intros (gm & -> & [Hp Hm]%list_elem_of_filter). simpl in Hm. apply list_elem_of_fmap in Hm as (m & -> & Hm).
    apply names_user_named in Hp; [|done]. by exists m.
  - intros (m & Hm & -> & Hp). exists (gm_group m, gm_sid m). split; [done|]. apply list_elem_of_filter.
    split; [by apply names_user_named|]. apply list_elem_of_fmap. by exists m.
Qed.

Lemma read_role x :
  x ∈ Session.roles s <-> exists r, r ∈ pe_roles p /\ x = rr_role r /\ rr_sid r ∈ session_sids s.
Proof using Hu Hn Hs Hid.
  unfold session_sids. rewrite app_assoc, read_principal. destruct read_session as (_ & _ & _ & r & -> & -> & ->). unfold roles_of.
  rewrite elem_of_remove_dups, list_elem_of_fmap. split.
  - intros (a & -> & [Hp Ha]%list_elem_of_filter). simpl in Ha. apply list_elem_of_fmap in Ha as (x' & -> & Hx).
    apply names_user_named in Hp; [|done]. by exists x'.
  - intros (x' & Hx & -> & Hp). exists (rr_sid x', rr_role x'). split; [done|]. apply list_elem_of_filter.
    split; [by apply names_user_named|]. apply list_elem_of_fmap. by exists x'.
Qed.

Lemma next_session_principal groups : principal (next_session id u groups p) = principal s.
Proof using Hu Hs Hid. rewrite read_principal. unfold principal, next_session. simpl. by destruct (u_sid u). Qed.

Lemma next_session_membership x :
  x ∈ memberships (next_session id u (s_group_sids s) p) <-> x ∈ memberships s.
Proof using Hu Hn Hs Hid.
  rewrite read_membership, <- (next_session_principal (s_group_sids s)). simpl. rewrite elem_of_remove_dups, list_elem_of_fmap. split.
  - intros (m & -> & [Hp Hm]%list_elem_of_filter). by exists m.
  - intros (m & Hm & -> & Hp). exists m. split; [done|]. by apply list_elem_of_filter.
Qed.

Lemma next_session_sids x : x ∈ session_sids (next_session id u (s_group_sids s) p) <-> x ∈ session_sids s.
Proof using Hu Hn Hs Hid.
  unfold session_sids. rewrite !elem_of_app, next_session_membership, next_session_principal. done.
Qed.

Lemma next_session_role x : x ∈ Session.roles (next_session id u (s_group_sids s) p) <-> x ∈ Session.roles s.
Proof using Hu Hn Hs Hid.
  rewrite read_role. simpl. rewrite elem_of_remove_dups, list_elem_of_fmap. split.
  - intros (r & -> & [Hp Hr]%list_elem_of_filter). exists r. split_and!; try done. by apply next_session_sids.
  - intros (r & Hr & -> & Hp). exists r. split; [done|]. apply list_elem_of_filter. split; [|done].
    by apply next_session_sids.
Qed.

Lemma next_session_admin : is_admin (next_session id u (s_group_sids s) p) = is_admin s.
Proof using Hu Hn Hs Hid.
  destruct read_session as (Hk & _). unfold is_admin. rewrite Hk. f_equal. unfold has_role.
  apply bool_decide_ext, next_session_role.
Qed.

Lemma next_session_subject : subject (next_session id u (s_group_sids s) p) = subject s.
Proof using Hu Hn Hs Hid.
  unfold subject. f_equal; [|apply next_session_admin]. apply set_eq. intros x.
  rewrite !elem_of_list_to_set. apply next_session_sids.
Qed.
End session.

(** What the grants behind a role say of it. *)
Lemma role_max_reasons c who o r :
  admin who = false -> effective_role c who o = Some r ->
  (exists x, x ∈ reasons c who o /\ x.2 = r) /\ forall x, x ∈ reasons c who o -> role_leb x.2 r = true.
Proof.
  intros Ha Hr. unfold effective_role in Hr. destruct (negb (contains c o)); [done|]. rewrite Ha, reasons_roles in Hr.
  revert r Hr. induction (reasons c who o) as [|[y q] l IH]; intros r Hr; [done|].
  rewrite fmap_cons in Hr. unfold role_max in Hr. simpl foldr in Hr. fold (role_max (snd <$> l)) in Hr.
  destruct (role_max (snd <$> l)) as [m|] eqn:Hm; simpl in Hr.
  - destruct (role_leb m q) eqn:Hle; injection Hr as <-.
    + split; [exists (y, q); split; [by left|done]|]. intros x [->|Hx]%elem_of_cons; [apply role_leb_le; simpl; lia|].
      destruct (IH m eq_refl) as [_ Hall]. specialize (Hall x Hx). rewrite role_leb_le in *. lia.
    + destruct (IH m eq_refl) as [(x & Hx & Hxm) Hall]. split; [exists x; split; [by right|done]|].
      intros z [->|Hz]%elem_of_cons; [|auto]. unfold role_leb in *. simpl. lia.
  - injection Hr as <-. assert (Hl : l = []).
    { by destruct l. }
    subst l. split; [exists (y, q); split; [by left|done]|].
    intros x ->%list_elem_of_singleton. apply role_leb_le. simpl. lia.
Qed.

(** C25: The report on a user is what [authorize] answers them: for every session
    of theirs with the directory groups the report counts, it names exactly the
    objects they reach with the role they have there, tells whether they are an
    administrator, and otherwise gives for each role a grant of it on the path
    of the object to one of their principals, and none of a higher role. *)
Theorem user_report_is_what_holds (s : Session) (now : Z) (id : Uuid)
    (directory : option (list Z -> result (list (list Z)) unit)) (t : Tables) (rep : UserReport) (u : UserRow) :
  user_report s now id directory t = Ok rep -> pe_users (tb_people t) !! id = Some u -> user_named u ->
  forall then_ h idle them, by_hash (session_db (tb_people t)) then_ h idle = Some them -> user_id them = id ->
    s_group_sids them = (report_groups directory id u t).1 ->
    ur_administrator rep = is_admin them
    /\ (forall o r, (exists e, e ∈ ur_reach rep /\ re_object e = o /\ re_role e = r)
         <-> effective_role (report_catalog now t) (subject them) o = Some r)
    /\ forall e, e ∈ ur_reach rep -> is_admin them = false ->
         (exists x, x ∈ re_reasons e /\ rs_role x = re_role e)
         /\ forall x, x ∈ re_reasons e -> role_leb (rs_role x) (re_role e) = true
              /\ rs_sid x ∈ session_sids them /\ rtc (above (report_catalog now t)) (re_object e) (rs_on x)
              /\ (rs_sid x, rs_role x) ∈ grants_on (report_catalog now t) (rs_on x).
Proof.
  intros Hr Hu Hn then_ h idle them Hb Hid Hg. unfold user_report in Hr. destruct (require_auditor s); [|done].
  rewrite Hu in Hr. cbn [ok_or] in Hr. destruct (report_groups directory id u t) as [groups from]. simpl in Hg. subst groups.
  pose proof (next_session_subject _ _ _ _ _ _ _ Hu Hn Hb Hid) as Hsub. rewrite Hsub in Hr. injection Hr as <-. simpl.
  set (c := report_catalog now t). split; [done|]. split.
  - intros o r. setoid_rewrite elem_of_sort_by. split.
    + intros (e & (or & -> & Hor)%list_elem_of_fmap & <- & <-). simpl.
      destruct or as [o r]. apply elem_of_map_to_list in Hor. simpl in *. by rewrite (lookup_visible_roles c) in Hor.
    + intros He. eexists. split; [apply list_elem_of_fmap; exists (o, r); split; [done|]|by split].
      apply elem_of_map_to_list. simpl. by rewrite (lookup_visible_roles c).
  - intros e [[o r] [-> Hor]]%elem_of_sort_by%list_elem_of_fmap Ha. simpl.
    apply elem_of_map_to_list in Hor. rewrite (lookup_visible_roles c) in Hor.
    change (admin (subject them)) with (is_admin them). rewrite Ha.
    destruct (role_max_reasons c (subject them) o r Ha Hor) as [(x & Hx & Hxr) Hall]. split.
    + eexists. split; [apply list_elem_of_fmap; exists x; split; [done|exact Hx]|done].
    + intros y (z & -> & Hz)%list_elem_of_fmap. simpl. split; [auto|].
      destruct z as [[on p] q]. apply list_elem_of_filter in Hz as [Hp Hz]. apply elem_of_grants_along in Hz as [Hup Hgr].
      split_and!; [|done|done]. simpl in *. by apply elem_of_list_to_set in Hp.
Qed.

Lemma above_only_folders c i o : rtc (above c) (Folder i) o -> exists j, o = Folder j.
Proof.
  intros Hr. remember (Folder i) as f eqn:Hf. revert i Hf.
  induction Hr as [|x y z Hxy _ IH]; intros i ->; [by exists i|].
  unfold above in Hxy. simpl in Hxy. destruct (mjoin _) as [j|]; [|done]. injection Hxy as <-. by eapply IH.
Qed.

(** The report on a folder names everyone who can reach it: who is not an
    administrator holds a role there exactly if one of their principals is
    among the holders with that role or a higher one. *)
Theorem folder_report_names_everyone (s : Session) (now : Z) (id : Uuid) (t : Tables) (c : FolderChoice)
    (holders : list Holder) (who : Subject) (needed : Role) :
  folder_report s now id t = Ok (c, holders) -> admin who = false ->
  authorize (report_catalog now t) who needed (Folder id) = true
  <-> exists x, x ∈ holders /\ ho_sid x ∈ sids who /\ role_leb needed (ho_role x) = true.
Proof.
  unfold folder_report. destruct (require_auditor s); [|done].
  destruct (contains (report_catalog now t) (Folder id)) eqn:Hc; simpl; [|done]. intros [= <- <-] Ha.
  rewrite authorize_true. rewrite Hc, Ha. split.
  - intros [_ [?|(on & p & r & Hon & Hg & Hp & Hle)]]; [done|]. destruct (above_only_folders _ _ _ Hon) as [j ->].
    eexists. split; [apply list_elem_of_omap; exists (Folder j, p, r); split; [by apply elem_of_grants_along|done]|].
    simpl. split; [done|]. by apply role_leb_le.
  - intros (x & ([[on p] r] & Hin & Hx)%list_elem_of_omap & Hp & Hle). split; [done|right]. simpl in Hx.
    destruct on as [j| | | |]; try done. injection Hx as <-. apply elem_of_grants_along in Hin as [Hon Hg].
    exists (Folder j), p, r. split_and!; try done. by apply role_leb_le.
Qed.

Lemma own_groups_sids p seen found x :
  x ∈ ug_sid <$> own_groups p seen found <-> exists g via, (g, via) ∈ found /\ (g ∉ seen) /\ x = own_sid g.
Proof.
  revert seen. induction found as [|[g via] found IH]; intros seen; simpl.
  { split; [by intros ?%elem_of_nil|intros (? & ? & ?%elem_of_nil & _); done]. }
  case_bool_decide as Hg.
  - rewrite IH. split; intros (g' & v & Hin & Hno & ->); exists g'.
    + exists v. split_and!; [by right|done|done].
    + apply elem_of_cons in Hin as [[= -> ->]|Hin]; [done|]. by exists v.
  - rewrite fmap_cons, elem_of_cons, IH. simpl. split.
    + intros [->|(g' & v & Hin & Hno & ->)]; [exists g, via; split_and!; [by left|done|done]|].
      exists g', v. split_and!; [by right|set_solver|done].
    + intros (g' & v & Hin & Hno & ->). destruct (decide (g' = g)) as [->|Hne]; [by left|right].
      apply elem_of_cons in Hin as [[= -> ->]|Hin]; [done|]. exists g', v. split_and!; [done|set_solver|done].
Qed.

(** The Access page shows a user's groups and roles as their sessions have
    them: with the directory groups of the latest session, the groups are
    those a session counts and the roles those it holds. *)
Theorem access_page_shows_sessions (t : Tables) (id : Uuid) (u : UserRow) (now idle : Z) (h : list Z) (s : Session) :
  pe_users (tb_people t) !! id = Some u -> user_named u ->
  by_hash (session_db (tb_people t)) now h idle = Some s -> user_id s = id ->
  s_group_sids s = default [] (tb_latest t id) ->
  au_principal (access_user t id u) = principal s
  /\ (forall x, x ∈ ug_sid <$> au_groups (access_user t id u) <-> x ∈ s_group_sids s ++ memberships s)
  /\ forall role, (exists via, (role, via) ∈ au_roles (access_user t id u)) <-> role ∈ Session.roles s.
Proof.
  intros Hu Hn Hs Hid Hg.
  pose proof (read_principal _ _ _ _ _ _ _ Hu Hs Hid) as Hp.
  assert (Hprin : shown_principal u = principal s) by (by rewrite named_principal, Hp).
  assert (Hgroups : forall x, x ∈ ug_sid <$> au_groups (access_user t id u) <-> x ∈ s_group_sids s ++ memberships s).
  { intros x. simpl. rewrite fmap_app, !elem_of_app, <- list_fmap_compose, list_fmap_id, own_groups_sids, <- Hg. f_equiv.
    rewrite (read_membership _ _ _ _ _ _ _ Hu Hn Hs Hid), Hprin. split.
    - intros (g & via & ([sid v] & Hin & Hh)%list_elem_of_bind & _ & ->). simpl in *.
      apply list_elem_of_fmap in Hin as (g' & [= -> ->] & Hin). unfold in_own in Hin.
      apply list_elem_of_fmap in Hin as (m & -> & [Hm Hin]%list_elem_of_filter). exists m. split_and!; try done.
      rewrite Hm. apply elem_of_app. apply elem_of_app in Hh as [Hh|Hh]; [right|left];
        apply list_elem_of_fmap in Hh as (y & [= -> ->] & Hy); done.
    - intros (m & Hm & -> & Hin). apply elem_of_app in Hin.
      exists (gm_group m), (if decide (gm_sid m ∈ option_list (principal s)) then None else Some (gm_sid m)).
      split_and!; [|set_solver|done]. apply list_elem_of_bind.
      exists (gm_sid m, if decide (gm_sid m ∈ option_list (principal s)) then None else Some (gm_sid m)). split.
      + apply list_elem_of_fmap. exists (gm_group m). split; [done|]. apply list_elem_of_fmap. exists m.
        split; [done|]. by apply list_elem_of_filter.
      + case_decide as Hd; apply elem_of_app; [left|right]; apply list_elem_of_fmap; exists (gm_sid m); (split; [done|]); [done|].
        by destruct Hin. }
  split; [done|]. split; [exact Hgroups|]. intros role.
  rewrite (read_role _ _ _ _ _ _ _ Hu Hn Hs Hid).
  change (au_roles (access_user t id u)) with ((option_list (shown_principal u) ++ (ug_sid <$> au_groups (access_user t id u)))
    ≫= fun s0 => (fun r => (r, s0)) <$> roles_held (tb_people t) s0).
  revert Hgroups. generalize (ug_sid <$> au_groups (access_user t id u)) as shown. intros shown Hgroups.
  rewrite Hprin. unfold session_sids. split.
  - intros (via & (sid & Hin & Hsid)%list_elem_of_bind). apply list_elem_of_fmap in Hin as (r & [= -> ->] & Hr).
    unfold roles_held in Hr. apply list_elem_of_fmap in Hr as (x & -> & [Hx Hr]%list_elem_of_filter). exists x.
    split_and!; try done. rewrite Hx. apply elem_of_app in Hsid as [Hsid|Hsid]; [rewrite !elem_of_app; auto|].
    apply Hgroups in Hsid. rewrite !elem_of_app in *. tauto.
  - intros (x & Hx & -> & Hin). exists (rr_sid x). apply list_elem_of_bind. exists (rr_sid x). split.
    + apply list_elem_of_fmap. exists (rr_role x). split; [done|]. apply list_elem_of_fmap. exists x.
      split; [done|]. by apply list_elem_of_filter.
    + rewrite app_assoc in Hin. apply elem_of_app in Hin as [Hin|Hin]; apply elem_of_app; [right|by left]. by apply Hgroups.
Qed.

End theorems.

Module ReportExamples.

#[local] Existing Instance RequestExamples.decimal_uuid.
#[local] Instance ascii_lower : Lowercase := fun s => to_ascii_lowercase <$> s.

Definition carol : UserRow :=
  {| u_username := lit "carol"; u_display_name := lit "Carol"; u_kind := lit "directory"; u_sid := Some (lit "S-1-5-21-7");
     u_upn := None; u_identity_id := None; blocked_at := None |}.
Definition carol_row : SessionRow :=
  {| s_id := 5; s_user_id := 2; s_groups := [lit "S-1-5-21-9"]; s_client := lit "web"; last_seen_at := 0;
     expires_at := 60 * minute; confirmed_at := None; confirm_failures := 0 |}.

(** Carol's group in the directory is a member of a group that may connect in
    the folder of the routers. *)
Definition people0 : People :=
  {| pe_users := {[2 := carol]}; pe_sessions := {[lit "t" := carol_row]};
     pe_groups := {[8 := {| gp_name := lit "Network"; gp_description := [] |}]};
     pe_members := [{| gm_group := 8; gm_sid := lit "S-1-5-21-9"; gm_kind := lit "group"; gm_name := lit "net" |}];
     pe_roles := [{| rr_role := lit "auditor"; rr_sid := lit "group:8"; rr_kind := lit "group"; rr_name := lit "Network" |}];
     pe_purpose := []; pe_rules := [];
     pe_grants := [{| gr_folder := Some 1; gr_device := None; gr_credential := None; gr_collection := None;
                      gr_principal_sid := lit "group:8"; gr_role := lit "connect"; gr_expires_at := None;
                      gr_request_id := None |}];
     pe_log := [] |}.

Definition tables0 : Tables :=
  {| tb_people := people0;
     tb_rows := {| rw_folders := [(1, None, lit "routers"); (3, Some 1, lit "old")]; rw_collections := [];
                   rw_devices := [(20, 3, lit "r1"); (21, 1, lit "r2")]; rw_credentials := []; rw_profiles := [] |};
     tb_grant_names := [(lit "group:8", lit "Net")]; tb_directory_groups := [(lit "S-1-5-21-9", lit "net")];
     tb_latest := fun u => if u =? 2 then Some [lit "S-1-5-21-9"] else None |}.

(** The directory does not answer. *)
Definition away : option (list Z -> result (list (list Z)) unit) := Some (fun _ => Err tt).

Definition boss : Session := RequestExamples.boss.
Definition report : result UserReport ApiProblem := user_report boss 0 2 away tables0.
Definition report0 : UserReport := match report with Ok r => r | Err _ => {| ur_user := 0; ur_administrator := true; ur_groups_from := G_none; ur_principals := []; ur_reach := [] |} end.

Definition carol_session : Session :=
  match by_hash (session_db people0) 0 (lit "t") (30 * minute) with Some s => s | None => boss end.

Example reached :
  (fun e => (re_object e, re_role e, re_path e, length (re_reasons e))) <$> ur_reach report0
  = [(Folder 1, Role_Connect, [], 1%nat); (Folder 3, Role_Connect, [lit "routers"], 1%nat);
     (Device 21, Role_Connect, [lit "routers"], 1%nat); (Device 20, Role_Connect, [lit "routers"; lit "old"], 1%nat)].
Proof. vm_compute. reflexivity. Qed.

Lemma carol_named : user_named carol.
Proof. unfold user_named. simpl. split; [by eexists|done]. Qed.

Lemma user_report_is_what_holds_witness :
  ur_administrator report0 = is_admin carol_session
  /\ (forall o r, (exists e, e ∈ ur_reach report0 /\ re_object e = o /\ re_role e = r)
       <-> effective_role (report_catalog 0 tables0) (subject carol_session) o = Some r)
  /\ forall e, e ∈ ur_reach report0 -> is_admin carol_session = false ->
       (exists x, x ∈ re_reasons e /\ rs_role x = re_role e)
       /\ forall x, x ∈ re_reasons e -> role_leb (rs_role x) (re_role e) = true
            /\ rs_sid x ∈ session_sids carol_session /\ rtc (above (report_catalog 0 tables0)) (re_object e) (rs_on x)
            /\ (rs_sid x, rs_role x) ∈ grants_on (report_catalog 0 tables0) (rs_on x).
Proof.
  refine (user_report_is_what_holds boss 0 2 away tables0 report0 carol _ _ carol_named 0 (lit "t") (30 * minute) carol_session _ _ _);
    vm_compute; reflexivity.
Defined.

Definition on_routers : list Holder := match folder_report boss 0 3 tables0 with Ok (_, l) => l | Err _ => [] end.

Lemma folder_report_names_everyone_witness :
  authorize (report_catalog 0 tables0) (subject carol_session) Role_Connect (Folder 3) = true
  <-> exists x, x ∈ on_routers /\ ho_sid x ∈ sids (subject carol_session) /\ role_leb Role_Connect (ho_role x) = true.
Proof.
  refine (folder_report_names_everyone boss 0 3 tables0 (3, [lit "routers"; lit "old"]) on_routers (subject carol_session) Role_Connect _ _);
    vm_compute; reflexivity.
Defined.

Lemma access_page_shows_sessions_witness :
  au_principal (access_user tables0 2 carol) = principal carol_session
  /\ (forall x, x ∈ ug_sid <$> au_groups (access_user tables0 2 carol) <-> x ∈ s_group_sids carol_session ++ memberships carol_session)
  /\ forall role, (exists via, (role, via) ∈ au_roles (access_user tables0 2 carol)) <-> role ∈ Session.roles carol_session.
Proof.
  refine (access_page_shows_sessions tables0 2 carol 0 (30 * minute) (lit "t") carol_session _ carol_named _ _ _);
    vm_compute; reflexivity.
Defined.

Example shown_groups :
  (fun g => (ag_sid g, ag_roles g, length (ag_members g))) <$> match overview boss 0 [] tables0 with Ok r => r.2 | Err _ => [] end
  = [(lit "S-1-5-21-9", [], 1%nat); (lit "group:8", [lit "auditor"], 1%nat)].
Proof. vm_compute. reflexivity. Qed.

End ReportExamples.
