(* ===== verification/CustomerRequests.v ===== *)
(** * Asking the customer for access (crates/server/src/api/connector_requests.rs, connectors.rs)

    remotehub's side of what [Requests] and [Agent] do on the connector's: a
    user asks for devices behind a connector, the connector fetches what waits
    with its report and brings the customer's answers the same way. Connectors
    themselves, created and deleted by administrators, sign in with a token of
    which the hash is kept. JSON, SHA-256 and RFC 3339 are parameters. *)
From S2P Require Import Prelude Text Utf8 Ip Network Inventory Requests Access Agent.
From S2P Require Import Connectors Model Session AccessRequests Store Folders Catalog Grants Webauthn.

(** ** Tables *)

Inductive AskStatus := Ask_Pending | Ask_Approved | Ask_Refused | Ask_Cancelled.

#[export] Instance ask_status_eq_dec : EqDecision AskStatus.
Proof. solve_decision. Defined.

(** A row of [connector_requests]. *)
Record AskRow := {
  ak_connector : Uuid;
  ak_folder : option Uuid;
  ak_device : option Uuid;
  ak_object_name : list Z;
  ak_targets : list RequestTarget;
  ak_requester : Uuid;
  ak_requester_name : list Z;
  ak_minutes : Z;
  ak_reason : list Z;
  ak_status : AskStatus;
  ak_answered_by : option (list Z);
  ak_answered_at : option Z;
  ak_until : option Z;
  ak_created : Z
}.

Definition with_status (st : AskStatus) (by_ : option (list Z)) (at_ until : option Z) (r : AskRow) : AskRow :=
  {| ak_connector := ak_connector r; ak_folder := ak_folder r; ak_device := ak_device r;
     ak_object_name := ak_object_name r; ak_targets := ak_targets r; ak_requester := ak_requester r;
     ak_requester_name := ak_requester_name r; ak_minutes := ak_minutes r; ak_reason := ak_reason r;
     ak_status := st; ak_answered_by := by_; ak_answered_at := at_; ak_until := until; ak_created := ak_created r |}.

Record ConnectorRow := { cn_name : list Z; cn_token_hash : list Z; cn_last_seen : option Z }.

Inductive AskAction :=
| Asked (id : Uuid) | Withdrawn (id : Uuid)
| CustomerAnswered (id : Uuid) (approved : bool) (by_ : list Z) (until : option (list Z))
| ConnectorCreated (id : Uuid) | ConnectorDeleted (id : Uuid)
| ConnectorOpened (id : Uuid) | ConnectorClosed (id : Uuid).

(** An entry names a user, or a connector by its name. *)
Record AskLog := { kl_user : option Uuid; kl_name : list Z; kl_action : AskAction }.

(** [ad_asks] keeps the order of insertion; [ad_registry] is [state.connectors]. *)
Record AskDb := {
  ad_store : Store;
  ad_connectors : gmap Uuid ConnectorRow;
  ad_asks : list (Uuid * AskRow);
  ad_registry : Connectors ReportedState;
  ad_log : list AskLog
}.

Definition on_asks (f : list (Uuid * AskRow) -> list (Uuid * AskRow)) (db : AskDb) : AskDb :=
  {| ad_store := ad_store db; ad_connectors := ad_connectors db; ad_asks := f (ad_asks db);
     ad_registry := ad_registry db; ad_log := ad_log db |}.

Definition on_connectors (f : gmap Uuid ConnectorRow -> gmap Uuid ConnectorRow) (db : AskDb) : AskDb :=
  {| ad_store := ad_store db; ad_connectors := f (ad_connectors db); ad_asks := ad_asks db;
     ad_registry := ad_registry db; ad_log := ad_log db |}.

Definition on_registry (f : Connectors ReportedState -> Connectors ReportedState) (db : AskDb) : AskDb :=
  {| ad_store := ad_store db; ad_connectors := ad_connectors db; ad_asks := ad_asks db;
     ad_registry := f (ad_registry db); ad_log := ad_log db |}.

Definition log_ask (user : option Uuid) (name : list Z) (a : AskAction) (db : AskDb) : AskDb :=
  {| ad_store := ad_store db; ad_connectors := ad_connectors db; ad_asks := ad_asks db;
     ad_registry := ad_registry db;
     ad_log := ad_log db ++ [{| kl_user := user; kl_name := name; kl_action := a |}] |}.

Definition log_user (s : Session) : AskAction -> AskDb -> AskDb := log_ask (Some (user_id s)) (username s).

Inductive AskProblem :=
| KP (p : ApiProblem) | KP_RequestPending | KP_RequestDecided | KP_Unauthenticated | KP_Protocol | KP_ConnectorInUse.

#[export] Instance ask_problem_eq_dec : EqDecision AskProblem.
Proof. solve_decision. Defined.

Definition kp {A} (r : result A ApiProblem) : result A AskProblem :=
  match r with Ok a => Ok a | Err e => Err (KP e) end.

Definition day : Z := 24 * 60 * minute.

(** ** Asking *)

(** As the page reads it: [None] for a request that ran out unanswered. *)
Definition shown_status (now : Z) (r : AskRow) : option AskStatus :=
  if bool_decide (ak_status r = Ask_Pending) && (ak_created r <? now - day) then None else Some (ak_status r).

(** Newest first; rows are in the order they were made. *)
Definition list_asks (s : Session) (now : Z) (db : AskDb) : list (Uuid * AskRow * option AskStatus) :=
  (fun ir => (ir, shown_status now ir.2)) <$>
    (if is_admin s then take 100 (reverse (ad_asks db))
     else take 50 (reverse (filter (fun ir => ak_requester ir.2 = user_id s) (ad_asks db)))).

Record NewAsk := { na_kind : list Z; na_id : Uuid; na_minutes : Z; na_reason : list Z }.

(** What an approval opens of a device. *)
Definition target (d : DeviceRow) : option RequestTarget :=
  let st := d_settings d in
  if (1 <=? d_port st) && (d_port st <=? u16_max) && request_host (d_host st)
  then Some {| t_name := readable (d_name st) MAX_NAME; host := d_host st; port := d_port st |} else None.

(** The device of a request or the devices below the folder of one, with the
    connector and the name; the query sorts the devices. *)
Definition behind (c : Catalog) (who : Subject) (asked : ObjectId) (db : Store) :
    result (option Uuid * list Z * list DeviceRow) AskProblem :=
  match asked with
  | Device id =>
      let? d := ok_or (s_devices db !! id) (KP AP_Internal) in
      Ok (reached_through (s_folders db) (d_settings d), d_name (d_settings d), [d])
  | Folder id =>
      let? f := ok_or (s_folders db !! id) (KP AP_Internal) in
      let connector := folder_connector (s_folders db) id in
      Ok (connector, f_name f,
          snd <$> filter (fun kd : Uuid * DeviceRow =>
                    is_some (reached_through (s_folders db) (d_settings kd.2))
                    && bool_decide (reached_through (s_folders db) (d_settings kd.2) = connector)
                    && authorize c who Role_Connect (Device kd.1)
                    && folder_within (s_folders db) (d_folder (d_settings kd.2)) id = true)
                 (map_to_list (s_devices db)))
  | _ => Err (KP (AP_Invalid "kind"))
  end.

Definition asked_columns (o : ObjectId) : option Uuid * option Uuid :=
  match o with Folder id => (Some id, None) | Device id => (None, Some id) | _ => (None, None) end.

Definition is_waiting (now : Z) (r : AskRow) : bool :=
  bool_decide (ak_status r = Ask_Pending) && (now - day <=? ak_created r).

Definition create_ask `{UuidText} (s : Session) (now : Z) (new_id : Uuid) (input : NewAsk) (seen db : AskDb) :
    result AskDb AskProblem :=
  let? asked := kp (object (na_kind input) (na_id input)) in
  let c := catalog_of (ad_store seen) now in
  let? _ := kp (require c (subject s) Role_Connect asked) in
  if negb (minutes_ok (na_minutes input)) then Err (KP (AP_Invalid "minutes"))
  else
    let reason := trim (na_reason input) in
    if negb (plain reason MAX_REASON) then Err (KP (AP_Invalid "reason"))
    else
      let? (connector, object_name, devices) := behind c (subject s) asked (ad_store seen) in
      let? connector := ok_or connector (KP (AP_Invalid "object")) in
      let targets := omap target devices in
      if bool_decide (targets = []) || (MAX_TARGETS <? Z.of_nat (length targets)) then Err (KP (AP_Invalid "object"))
      else
        let columns := asked_columns asked in
        if existsb (fun ir => (ak_requester ir.2 =? user_id s) && is_waiting now ir.2
                              && bool_decide (ak_folder ir.2 = columns.1) && bool_decide (ak_device ir.2 = columns.2))
             (ad_asks db) then Err KP_RequestPending
        else if negb (is_some (ad_connectors db !! connector)) then Err (KP AP_Internal)
        else Ok (log_user s (Asked new_id)
                   (on_asks (fun l => l ++ [(new_id,
                      {| ak_connector := connector; ak_folder := columns.1; ak_device := columns.2;
                         ak_object_name := object_name; ak_targets := targets; ak_requester := user_id s;
                         ak_requester_name := username s; ak_minutes := na_minutes input; ak_reason := reason;
                         ak_status := Ask_Pending; ak_answered_by := None; ak_answered_at := None; ak_until := None;
                         ak_created := now |})]) db)).

Definition ask_row (id : Uuid) (l : list (Uuid * AskRow)) : option AskRow :=
  snd <$> List.find (fun ir => ir.1 =? id) l.

Definition set_ask (id : Uuid) (f : AskRow -> AskRow) (l : list (Uuid * AskRow)) : list (Uuid * AskRow) :=
  (fun ir => if ir.1 =? id then (ir.1, f ir.2) else ir) <$> l.

Definition withdraw (s : Session) (id : Uuid) (db : AskDb) : result AskDb AskProblem :=
  match ask_row id (ad_asks db) with
  | Some r =>
      if negb (ak_requester r =? user_id s) then Err (KP AP_NotFound)
      else if negb (bool_decide (ak_status r = Ask_Pending)) then Err KP_RequestDecided
      else Ok (log_user s (Withdrawn id)
                 (on_asks (set_ask id (fun r => with_status Ask_Cancelled (ak_answered_by r) (ak_answered_at r) (ak_until r) r)) db))
  | None => Err (KP AP_NotFound)
  end.

(** ** What waits for a customer *)

(** [serde_json::to_vec]. *)
Class ToVec := to_vec : Pending -> option (list Z).

Definition customer_request (ir : Uuid * AskRow) : CustomerRequest :=
  {| Requests.id := ir.1; requester := readable (ak_requester_name ir.2) MAX_NAME; reason := ak_reason ir.2;
     minutes := ak_minutes ir.2; targets := ak_targets ir.2 |}.

Section asks.
Context `{ToVec}.

Definition pending_size (l : list CustomerRequest) : Z :=
  default 0 ((fun b => Z.of_nat (length b)) <$> to_vec {| requests := l |}).

(** The loop that leaves the newest for the next report. *)
Fixpoint shrink (fuel : nat) (l : list CustomerRequest) : list CustomerRequest :=
  match fuel with
  | O => l
  | S fuel => if (1 <? Z.of_nat (length l)) && (MAX_PENDING_BYTES <? pending_size l)
              then shrink fuel (take (length l - 1) l) else l
  end.

(** Oldest first, as many as fit into what the connector takes. *)
Definition pending_for (now : Z) (connector : Uuid) (db : AskDb) : Pending :=
  let rows := take (Z.to_nat MAX_REQUESTS)
    (filter (fun ir => ak_connector ir.2 = connector /\ is_waiting now ir.2 = true) (ad_asks db)) in
  {| requests := shrink (length rows) (customer_request <$> rows) |}.

Context `{Grants.Rfc3339, Sha256}.

(** Each answer is a transaction of its own; what the database cannot read as a
    time ends the loop. *)
Fixpoint answer_asks (now : Z) (connector : Uuid) (name : str) (answers : list Answer) (db : AskDb) :
    result unit AskProblem * AskDb :=
  match answers with
  | [] => (Ok tt, db)
  | a :: answers =>
      match ask_row (a_id a) (ad_asks db) with
      | Some r =>
          if (ak_connector r =? connector) && bool_decide (ak_status r = Ask_Pending) then
            match (match Requests.until a with Some t => Some <$> timestamptz t | None => Some None end) with
            | Some until =>
                answer_asks now connector name answers
                  (log_ask None name (CustomerAnswered (a_id a) (approved a) (by_user a) (Requests.until a))
                     (on_asks (set_ask (a_id a) (with_status (if approved a then Ask_Approved else Ask_Refused)
                                                   (Some (by_user a)) (Some now) until)) db))
            | None => (Err (KP AP_Internal), db)
            end
          else answer_asks now connector name answers db
      | None => answer_asks now connector name answers db
      end
  end.

(** ** Connectors *)

Definition MAX_TEXT : Z := 200.

Definition report_plain (text : str) : bool :=
  negb (bool_decide (text = [])) && (Z.of_nat (length text) <=? MAX_TEXT) && negb (existsb is_control text).

(** [utc] of connectors.rs. *)
Definition utc (text : str) : option (list Z) := t ← rfc3339_parse text; rfc3339_format t.

Definition point (field : string) (until : option (list Z)) : result (option (list Z)) ApiProblem :=
  match until with
  | Some text => ok_or (Some <$> utc text) (AP_Invalid field)
  | None => Ok None
  end.

Fixpoint each {A : Type} (f : A -> result A ApiProblem) (l : list A) : result (list A) ApiProblem :=
  match l with
  | [] => Ok []
  | x :: l => let? x := f x in let? l := each f l in Ok (x :: l)
  end.

Definition checked_group (g : OpenGroup) : result OpenGroup ApiProblem :=
  if negb (report_plain (og_name g)) then Err (AP_Invalid "groups")
  else let? until := point "groups" (og_until g) in Ok {| og_name := og_name g; og_until := until |}.

Definition checked_device (d : OpenDevice) : result OpenDevice ApiProblem :=
  if negb (forallb report_plain [od_name d; od_address d; od_ports d]) then Err (AP_Invalid "devices")
  else let? until := point "devices" (od_until d) in
       Ok {| od_name := od_name d; od_address := od_address d; od_ports := od_ports d; od_until := until |}.

Definition checked_answer (a : Answer) : result Answer ApiProblem :=
  if negb (report_plain (by_user a)) || negb (Bool.eqb (approved a) (is_some (Requests.until a)))
  then Err (AP_Invalid "answers")
  else let? until := point "answers" (Requests.until a) in
       Ok {| a_id := a_id a; approved := approved a; by_user := by_user a; Requests.until := until |}.

Definition checked_state (r : ReportedState) : result ReportedState ApiProblem :=
  let? until := point "until" (st_until r) in
  if (Z.of_nat MAX_LISTED <? Z.of_nat (length (st_groups r))) then Err (AP_Invalid "groups")
  else
    let? groups := each checked_group (st_groups r) in
    if (Z.of_nat MAX_LISTED <? Z.of_nat (length (st_devices r))) then Err (AP_Invalid "devices")
    else
      let? devices := each checked_device (st_devices r) in
      if (MAX_REQUESTS <? Z.of_nat (length (st_answers r))) then Err (AP_Invalid "answers")
      else
        let? answers := each checked_answer (st_answers r) in
        Ok {| st_open := st_open r; st_until := until; partly := partly r; st_groups := groups; st_devices := devices;
              st_answers := answers |}.

(** The headers a connector sends, as text. *)
Record ConnectorHead := { ch_authorization : option (list Z); ch_protocol : option (list Z) }.

Definition signed_in (h : ConnectorHead) (db : AskDb) : result Uuid AskProblem :=
  let? token := ok_or (value ← ch_authorization h; strip_prefix (lit "Bearer ") value) KP_Unauthenticated in
  ok_or (fst <$> List.find (fun kr => bool_decide (cn_token_hash kr.2 = sha256 token)) (map_to_list (ad_connectors db)))
    KP_Unauthenticated.

Definition VERSION : Z := 1.

Definition other_protocol (h : ConnectorHead) : bool := negb (bool_decide (ch_protocol h = Some (decimal VERSION))).

Definition no_answers (r : ReportedState) : ReportedState :=
  {| st_open := st_open r; st_until := st_until r; partly := partly r; st_groups := st_groups r;
     st_devices := st_devices r; st_answers := [] |}.

#[local] Instance open_group_eq_dec : EqDecision OpenGroup.
Proof. solve_decision. Defined.
#[local] Instance open_device_eq_dec : EqDecision OpenDevice.
Proof. solve_decision. Defined.
#[local] Instance reported_state_eq_dec : EqDecision ReportedState.
Proof. solve_decision. Defined.

(** The handler of a connector's report. *)
Definition take_report (now : Z) (h : ConnectorHead) (reported : ReportedState) (db : AskDb) :
    result Pending AskProblem * AskDb :=
  match signed_in h db with
  | Err e => (Err e, db)
  | Ok connector =>
      if other_protocol h then (Err KP_Protocol, db)
      else
        match checked_state reported, ad_connectors db !! connector with
        | Err e, _ => (Err (KP e), db)
        | Ok _, None => (Err (KP AP_Internal), db)
        | Ok r, Some row =>
            match answer_asks now connector (cn_name row) (st_answers r) db with
            | (Err e, db) => (Err e, db)
            | (Ok _, db) =>
                let r := no_answers r in
                let '(before, reg) := report connector r (now / second) (ad_registry db) in
                let db := on_registry (fun _ => reg) db in
                let db := match before with
                          | Some old =>
                              if bool_decide (old = r) then db
                              else log_ask None (cn_name row)
                                     (if st_open r || partly r then ConnectorOpened connector else ConnectorClosed connector) db
                          | None => db
                          end in
                (Ok (pending_for now connector db), db)
            end
        end
  end.

(** What everyone sees of a connector, administrators with the customer's
    addresses. *)
Record ConnectorView := {
  cv_id : Uuid; cv_name : list Z; cv_online : bool; cv_streams : Z; cv_carried : Z;
  cv_access : option (list Z); cv_until : option (list Z); cv_groups : list OpenGroup; cv_devices : list OpenDevice
}.

Definition list_connectors (s : Session) (now : Z) (db : AskDb) : list ConnectorView :=
  (fun kr =>
    let reg := ad_registry db in
    let access := reported kr.1 (now / second) reg in
    {| cv_id := kr.1; cv_name := cn_name kr.2; cv_online := is_online reg kr.1; cv_streams := streams reg kr.1;
       cv_carried := streams_carried reg kr.1;
       cv_access := (fun a => if st_open a then lit "open" else if partly a then lit "partly" else lit "closed") <$> access;
       cv_until := access ≫= st_until;
       cv_groups := if is_admin s then default [] (st_groups <$> access) else [];
       cv_devices := if is_admin s then default [] (st_devices <$> access) else [] |})
  <$> map_to_list (ad_connectors db).

Definition require_admin (s : Session) : result unit AskProblem := if is_admin s then Ok tt else Err (KP AP_Forbidden).

(** The token is shown this once. *)
Definition create_connector `{Base64Url} (s : Session) (new_id : Uuid) (secret : list Z) (name : str) (db : AskDb) :
    result (list Z * AskDb) AskProblem :=
  let? _ := require_admin s in
  let? name := kp (check_name name "name") in
  let token := lit "rhc_" ++ b64url_encode secret in
  if existsb (fun kr => bool_decide (cn_name kr.2 = name) || bool_decide (cn_token_hash kr.2 = sha256 token))
       (map_to_list (ad_connectors db)) then Err (KP AP_NameTaken)
  else Ok (token, log_user s (ConnectorCreated new_id)
                    (on_connectors (insert new_id {| cn_name := name; cn_token_hash := sha256 token; cn_last_seen := None |}) db)).

(** A device or folder that goes through it keeps it; its requests go. *)
Definition delete_connector (s : Session) (id : Uuid) (db : AskDb) : result AskDb AskProblem :=
  let? _ := require_admin s in
  let st := ad_store db in
  if existsb (fun kd => bool_decide (d_connector (d_settings kd.2) = Some id)) (map_to_list (s_devices st))
     || existsb (fun kf => bool_decide (f_connector kf.2 = Some id)) (map_to_list (s_folders st))
  then Err KP_ConnectorInUse
  else if negb (is_some (ad_connectors db !! id)) then Err (KP AP_NotFound)
  else Ok (log_user s (ConnectorDeleted id)
             (on_connectors (delete id) (on_asks (filter (fun ir => ak_connector ir.2 <> id)) db))).

End asks.

(** ** Theorems *)

(** JSON as [serde_json] writes it: it reads back, and a character takes at most
    six bytes, as [\u001f] does. *)
Definition text_bound (s : str) : Z := 6 * Z.of_nat (length s).
Definition target_bound (t : RequestTarget) : Z := 64 + text_bound (t_name t) + text_bound (host t).
Definition request_bound (r : CustomerRequest) : Z :=
  160 + text_bound (requester r) + text_bound (reason r) + foldr (fun t n => target_bound t + n) 0 (targets r).

Class JsonOk `{ToVec, FromSlice} : Prop := {
  json_reads_back p : exists b, to_vec p = Some b /\ from_slice b = Ok p;
  json_size p b : to_vec p = Some b ->
    Z.of_nat (length b) <= 16 + foldr (fun r n => request_bound r + n) 0 (requests p)
}.

(** Hosts as [check_host] lets them be stored. *)
Definition hosts_short (db : Store) : Prop :=
  forall id d, s_devices db !! id = Some d -> Z.of_nat (length (d_host (d_settings d))) <= 253.

Definition short_target (t : RequestTarget) : Prop := target_ok t /\ Z.of_nat (length (host t)) <= 253.

Record ask_ok (r : AskRow) : Prop := {
  ao_reason : plain (ak_reason r) MAX_REASON = true;
  ao_minutes : 15 <= ak_minutes r <= 1440;
  ao_count : 1 <= Z.of_nat (length (ak_targets r)) <= MAX_TARGETS;
  ao_targets : Forall short_target (ak_targets r)
}.

Definition asks_ok (db : AskDb) : Prop := NoDup (ad_asks db).*1 /\ Forall (fun ir => ask_ok ir.2) (ad_asks db).

Lemma target_short d t :
  Z.of_nat (length (d_host (d_settings d))) <= 253 -> target d = Some t -> short_target t.
Proof.
  intros Hl. unfold target. destruct (_ && _) eqn:E; [|done]. intros [= <-]. bools. split; [|done].
  split_and!; simpl; [apply readable_plain; by vm_compute|done|lia].
Qed.

Lemma ask_row_In id l r : ask_row id l = Some r -> (id, r) ∈ l.
Proof.
  unfold ask_row. destruct (List.find _ l) as [[j x]|] eqn:Hf; [|done]. intros [= <-].
  apply find_some in Hf as [Hin Hj]. simpl in Hj. bools. subst j. by apply list_elem_of_In.
Qed.

Lemma ask_row_app id l j x :
  ask_row id (l ++ [(j, x)]) = match ask_row id l with Some r => Some r | None => if j =? id then Some x else None end.
Proof.
  unfold ask_row. induction l as [|[k y] l IH]; simpl; [by destruct (j =? id)|]. by destruct (k =? id).
Qed.

Lemma ask_row_set id j f l :
  ask_row id (set_ask j f l) = (fun r => if id =? j then f r else r) <$> ask_row id l.
Proof.
  unfold ask_row, set_ask. induction l as [|[k y] l IH]; [done|]. rewrite fmap_cons. simpl.
  destruct (k =? j) eqn:E1, (k =? id) eqn:E2; simpl; rewrite ?E2; bools; subst; try done; rewrite ?Z.eqb_refl; try done.
  - by destruct (id =? j) eqn:E; bools.
Qed.

Lemma set_ask_fst id f l : (set_ask id f l).*1 = l.*1.
Proof. unfold set_ask. rewrite <- list_fmap_compose. apply list_fmap_ext. intros _ [k y] _. simpl. by destruct (k =? id). Qed.

Lemma set_ask_Forall (P : AskRow -> Prop) id f l :
  (forall r, P r -> P (f r)) -> Forall (fun ir : Uuid * AskRow => P ir.2) l -> Forall (fun ir => P ir.2) (set_ask id f l).
Proof. intros Hf Hl. apply Forall_fmap. eapply Forall_impl; [exact Hl|]. intros [k y] Hy. simpl. destruct (k =? id); simpl; auto. Qed.

Lemma with_status_ok st b a u r : ask_ok r -> ask_ok (with_status st b a u r).
Proof. by intros []. Qed.

(** *** What is asked for *)

Lemma behind_reached `{UuidText} c s asked db o n ds d :
  require c (subject s) Role_Connect asked = Ok tt -> behind c (subject s) asked db = Ok (o, n, ds) -> d ∈ ds ->
  exists id, s_devices db !! id = Some d /\ authorize c (subject s) Role_Connect (Device id) = true
    /\ reached_through (s_folders db) (d_settings d) = o.
Proof.
  intros Hreq Hb Hd. destruct asked as [id|id| | |]; simpl in Hb; try done.
  - destruct (s_folders db !! id) as [f|]; [|done]. cbn [ok_or] in Hb. injection Hb as <- <- <-.
    apply list_elem_of_fmap in Hd as ([k x] & -> & [Hp Hk]%list_elem_of_filter). apply elem_of_map_to_list in Hk.
    simpl in *. bools. by exists k.
  - destruct (s_devices db !! id) as [x|] eqn:Hx; [|done]. cbn [ok_or] in Hb. injection Hb as <- <- <-.
    apply list_elem_of_singleton in Hd as ->. exists id. split_and!; try done. unfold require in Hreq. unfold authorize.
    destruct (effective_role _ _ _) as [r|]; [|done]. simpl. by destruct (role_leb _ r).
Qed.

Lemma create_ask_Ok `{UuidText} s now i input seen db db' :
  create_ask s now i input seen db = Ok db' ->
  exists asked connector n ds, object (na_kind input) (na_id input) = Ok asked
    /\ require (catalog_of (ad_store seen) now) (subject s) Role_Connect asked = Ok tt
    /\ behind (catalog_of (ad_store seen) now) (subject s) asked (ad_store seen) = Ok (Some connector, n, ds)
    /\ minutes_ok (na_minutes input) = true /\ plain (trim (na_reason input)) MAX_REASON = true
    /\ omap target ds <> [] /\ Z.of_nat (length (omap target ds)) <= MAX_TARGETS
    /\ ad_asks db' = ad_asks db ++ [(i, {| ak_connector := connector; ak_folder := (asked_columns asked).1;
         ak_device := (asked_columns asked).2; ak_object_name := n; ak_targets := omap target ds;
         ak_requester := user_id s; ak_requester_name := username s; ak_minutes := na_minutes input;
         ak_reason := trim (na_reason input); ak_status := Ask_Pending; ak_answered_by := None;
         ak_answered_at := None; ak_until := None; ak_created := now |})].
Proof.
  unfold create_ask. intros Hc. destruct (object _ _) as [asked|]; [|done]. cbn [kp] in Hc. cbv beta zeta in Hc.
  destruct (require _ _ _ asked) as [[]|] eqn:Hr; [|done]. cbn [kp] in Hc.
  destruct (minutes_ok _) eqn:Hm; simpl in Hc; [|done]. destruct (plain _ _) eqn:Hp; simpl in Hc; [|done].
  destruct (behind _ _ _ _) as [[[o n] ds]|] eqn:Hb; [|done]. destruct o as [connector|]; [|done]. cbn [ok_or] in Hc.
  destruct (_ || _) eqn:E; [done|]. destruct (existsb _ _); [done|]. destruct (negb _); [done|]. injection Hc as <-. bools.
  by exists asked, connector, n, ds.
Qed.

(** A user asks the customer only for what they may connect to themselves:
    the request names at least one target, and each is the address and port of
    a device they may connect to, reached through the connector asked. *)
Theorem asks_only_what_they_reach `{UuidText} (s : Session) (now : Z) (i : Uuid) (input : NewAsk) (seen db db' : AskDb) :
  create_ask s now i input seen db = Ok db' ->
  exists r, ad_asks db' = ad_asks db ++ [(i, r)] /\ ak_status r = Ask_Pending /\ ak_requester r = user_id s
    /\ ak_targets r <> []
    /\ forall t, t ∈ ak_targets r -> exists id d, s_devices (ad_store seen) !! id = Some d
         /\ authorize (catalog_of (ad_store seen) now) (subject s) Role_Connect (Device id) = true
         /\ reached_through (s_folders (ad_store seen)) (d_settings d) = Some (ak_connector r)
         /\ host t = d_host (d_settings d) /\ port t = d_port (d_settings d).
Proof.
  intros (asked & connector & n & ds & Ho & Hr & Hb & _ & _ & Hne & _ & Hrows)%create_ask_Ok.
  eexists. split; [exact Hrows|]. split_and!; try done. simpl. intros t (d & Hd & Ht)%list_elem_of_omap.
  destruct (behind_reached _ _ _ _ _ _ _ _ Hr Hb Hd) as (id & Hid & Ha & Hre). exists id, d. split_and!; try done;
    unfold target in Ht; destruct (_ && _); [|done| |done]; by injection Ht as <-.
Qed.

Lemma create_ask_ok `{UuidText} s now i input seen db db' :
  create_ask s now i input seen db = Ok db' -> hosts_short (ad_store seen) -> (forall ir, ir ∈ ad_asks db -> ir.1 <> i) ->
  asks_ok db -> asks_ok db'.
Proof.
  intros Hc Hh Hi [Hn Hok]. pose proof Hc as (asked & connector & n & ds & _ & Hr & Hb & Hm & Hp & Hne & Hlen & Hrows)%create_ask_Ok.
  unfold asks_ok. rewrite Hrows. split.
  - apply NoDup_fmap_snoc; [done|]. intros ir Hin Heq. by apply (Hi ir).
  - apply Forall_app. split; [done|]. apply Forall_singleton. split; simpl.
    + done.
    + unfold minutes_ok in Hm. bools. lia.
    + destruct (omap target ds); [done|]. simpl in *. lia.
    + apply Forall_forall. intros t (d & Hd & Ht)%list_elem_of_omap. eapply target_short; [|exact Ht].
      destruct (behind_reached _ _ _ _ _ _ _ _ Hr Hb Hd) as (id & Hid & _). by eapply Hh.
Qed.

(** *** Histories *)

Section histories.
Context `{UuidText, ToVec, Grants.Rfc3339, Sha256, Base64Url}.

(** What the rest of the system may do to the tables: a deleted folder or device
    leaves its requests without it. *)
Definition forgets (l l' : list (Uuid * AskRow)) : Prop :=
  Forall2 (fun ir ir' => ir'.1 = ir.1 /\ exists f d, ir'.2 =
    {| ak_connector := ak_connector ir.2; ak_folder := f; ak_device := d; ak_object_name := ak_object_name ir.2;
       ak_targets := ak_targets ir.2; ak_requester := ak_requester ir.2; ak_requester_name := ak_requester_name ir.2;
       ak_minutes := ak_minutes ir.2; ak_reason := ak_reason ir.2; ak_status := ak_status ir.2;
       ak_answered_by := ak_answered_by ir.2; ak_answered_at := ak_answered_at ir.2; ak_until := ak_until ir.2;
       ak_created := ak_created ir.2 |}) l l'.

Inductive ask_step : AskDb -> AskDb -> Prop :=
| k_create s now i input seen db db' :
    hosts_short (ad_store seen) -> (forall ir, ir ∈ ad_asks db -> ir.1 <> i) ->
    create_ask s now i input seen db = Ok db' -> ask_step db db'
| k_withdraw s i db db' : withdraw s i db = Ok db' -> ask_step db db'
| k_report now h r db : ask_step db (take_report now h r db).2
| k_create_connector s i secret n db token db' :
    create_connector s i secret n db = Ok (token, db') -> ask_step db db'
| k_delete_connector s i db db' : delete_connector s i db = Ok db' -> ask_step db db'
| k_elsewhere db db' : forgets (ad_asks db) (ad_asks db') -> ask_step db db'.

Lemma forgets_ok l l' : forgets l l' -> l'.*1 = l.*1 /\ (Forall (fun ir => ask_ok ir.2) l -> Forall (fun ir => ask_ok ir.2) l').
Proof.
  induction 1 as [|[i r] [i' r'] l l' [Hi (f & d & Hr)] _ [IH1 IH2]]; [done|]. simpl in *. subst i' r'. split; [by f_equal|].
  rewrite !Forall_cons. intros [[] ?]. split; [done|auto].
Qed.

Lemma answer_asks_ok now c n answers db : asks_ok db -> asks_ok (answer_asks now c n answers db).2.
Proof.
  revert db. induction answers as [|a answers IH]; intros db Hok; [done|]. simpl.
  destruct (ask_row _ _) as [r|]; [|auto]. destruct (_ && _); [|auto].
  destruct (match Requests.until a with Some t => _ | None => _ end); [|done]. apply IH.
  destruct Hok as [Hn Hok]. split; simpl; [by rewrite set_ask_fst|]. apply set_ask_Forall; [|done].
  intros x. apply with_status_ok.
Qed.

Lemma take_report_asks now h r db :
  ad_asks (take_report now h r db).2 = ad_asks db
  \/ exists c row r', signed_in h db = Ok c /\ checked_state r = Ok r' /\ ad_connectors db !! c = Some row
       /\ ad_asks (take_report now h r db).2 = ad_asks (answer_asks now c (cn_name row) (st_answers r') db).2.
Proof.
  unfold take_report. destruct (signed_in h db) as [c|]; [|by left]. destruct (other_protocol h); [by left|].
  destruct (checked_state r) as [r'|]; [|by left]. destruct (ad_connectors db !! c) as [row|] eqn:Hrow; [|by left].
  right. exists c, row, r'. split_and!; try done.
  destruct (answer_asks now c (cn_name row) (st_answers r') db) as [[[]|e] x]; [|done].
  destruct (report c (no_answers r') (now / second) (ad_registry x)) as [[old|] reg]; [|done].
  by case_bool_decide.
Qed.

Lemma ask_step_ok db db' : ask_step db db' -> asks_ok db -> asks_ok db'.
Proof.
  intros Hs Hok. destruct Hs as [s now i input seen db db' Hh Hi Hc|s i db db' Hw|now h r db|s i secret n db token db' Hc|s i db db' Hd|db db' Hf].
  - by eapply create_ask_ok.
  - unfold withdraw in Hw. destruct (ask_row _ _); [|done]. inv_ok Hw. subst db'. destruct Hok as [Hn Hok].
    split; simpl; [by rewrite set_ask_fst|]. apply set_ask_Forall; [|done]. intros x. apply with_status_ok.
  - destruct (take_report_asks now h r db) as [Heq|(c & row & r' & _ & _ & _ & Heq)]; unfold asks_ok; rewrite Heq; [done|].
    by apply answer_asks_ok.
  - unfold create_connector in Hc. inv_ok Hc. by subst db'.
  - unfold delete_connector in Hd. inv_ok Hd. subst db'. destruct Hok as [Hn Hok]. split; simpl.
    + by apply NoDup_fmap_filter.
    + rewrite Forall_forall in *. intros ir [_ Hin]%list_elem_of_filter. auto.
  - destruct (forgets_ok _ _ Hf) as [Hi Ho]. destruct Hok as [Hn Hok]. split; [by rewrite Hi|auto].
Qed.

(** What of a request stays. *)
Definition same_ask (r r' : AskRow) : Prop :=
  ak_connector r' = ak_connector r /\ ak_targets r' = ak_targets r /\ ak_requester r' = ak_requester r
  /\ ak_requester_name r' = ak_requester_name r /\ ak_minutes r' = ak_minutes r /\ ak_reason r' = ak_reason r
  /\ ak_created r' = ak_created r.

Lemma same_ask_refl r : same_ask r r.
Proof. done. Qed.

Lemma answer_asks_row now c n answers db i r :
  ask_row i (ad_asks db) = Some r ->
  exists r', ask_row i (ad_asks (answer_asks now c n answers db).2) = Some r' /\ same_ask r r'
    /\ (r' = r \/ ak_status r = Ask_Pending /\ ak_connector r = c
        /\ exists a, a ∈ answers /\ a_id a = i /\ ak_status r' = if approved a then Ask_Approved else Ask_Refused).
Proof.
  revert db r. induction answers as [|a answers IH]; intros db r Hr.
  { exists r. auto using same_ask_refl. }
  simpl.
  assert (Hskip : exists r', ask_row i (ad_asks (answer_asks now c n answers db).2) = Some r' /\ same_ask r r'
    /\ (r' = r \/ ak_status r = Ask_Pending /\ ak_connector r = c
        /\ exists a', a' ∈ a :: answers /\ a_id a' = i /\ ak_status r' = if approved a' then Ask_Approved else Ask_Refused)).
  { destruct (IH db r Hr) as (r' & Hr' & Hs & Hor). exists r'. split_and!; try done.
    destruct Hor as [->|(Hp & Hc & a' & Ha & Hi & Hst)]; [by left|right]. split_and!; try done. exists a'. split; [by right|done]. }
  destruct (ask_row (a_id a) (ad_asks db)) as [x|] eqn:Hx; [|done].
  destruct ((ak_connector x =? c) && bool_decide (ak_status x = Ask_Pending)) eqn:E; [|done].
  destruct (match Requests.until a with Some t => _ | None => _ end) as [u|]; [|exists r; auto using same_ask_refl]. bools.
  set (f := with_status _ _ _ _).
  assert (Hrow : ask_row i (set_ask (a_id a) f (ad_asks db)) = Some (if i =? a_id a then f r else r))
    by (rewrite ask_row_set, Hr; done).
  destruct (IH (log_ask None n (CustomerAnswered (a_id a) (approved a) (by_user a) (Requests.until a))
    (on_asks (set_ask (a_id a) f) db)) _ Hrow) as (r' & Hr' & Hs & Hor). exists r'. split; [exact Hr'|].
  destruct (i =? a_id a) eqn:Hi; bools.
  - subst i. assert (x = r) as -> by congruence. split; [by destruct Hs as (? & ? & ? & ? & ? & ? & ?)|right].
    destruct Hor as [->|(Hp & _)]; [|simpl in Hp; by destruct (approved a)].
    split_and!; try done. exists a. split; [by left|]. split; [done|]. simpl. done.
  - split; [done|]. destruct Hor as [->|(Hp & Hc & a' & Ha & Hi' & Hst)]; [by left|right].
    split_and!; try done. exists a'. split; [by right|done].
Qed.

Lemma forgets_row l l' i r :
  forgets l l' -> ask_row i l = Some r -> exists r', ask_row i l' = Some r' /\ same_ask r r' /\ ak_status r' = ak_status r.
Proof.
  induction 1 as [|[j x] [j' x'] l l' [Hj (f & d & Hx)] _ IH]; [done|]. simpl in *. subst j'. unfold ask_row. simpl.
  destruct (j =? i); [|exact IH]. intros [= <-]. exists x'. subst x'. done.
Qed.

(** C24: Only the customer lets remotehub in: what a request asks for never
    changes, only a waiting one is decided and only once, approved or refused
    by an answer in a report of its own connector, signed in with its token,
    or withdrawn by who asked; it goes only with its connector. *)
Theorem only_the_customer_answers (db db' : AskDb) (i : Uuid) (r : AskRow) :
  ask_step db db' -> ask_row i (ad_asks db) = Some r ->
  (exists s, delete_connector s (ak_connector r) db = Ok db' /\ is_admin s = true)
  \/ exists r', ask_row i (ad_asks db') = Some r' /\ same_ask r r'
      /\ (ak_status r' = ak_status r
          \/ ak_status r = Ask_Pending
             /\ ((exists now h rep rep' a, db' = (take_report now h rep db).2 /\ signed_in h db = Ok (ak_connector r)
                    /\ checked_state rep = Ok rep' /\ a ∈ st_answers rep' /\ a_id a = i
                    /\ ak_status r' = if approved a then Ask_Approved else Ask_Refused)
                 \/ exists s, withdraw s i db = Ok db' /\ user_id s = ak_requester r /\ ak_status r' = Ask_Cancelled)).
Proof.
  intros Hs Hr. destruct Hs as [s now j input seen db db' _ _ Hc|s j db db' Hw|now h rep db|s j secret n db token db' Hc|s j db db' Hd|db db' Hf].
  - right. exists r. apply create_ask_Ok in Hc as (? & ? & ? & ? & _ & _ & _ & _ & _ & _ & _ & ->).
    rewrite ask_row_app, Hr. auto using same_ask_refl.
  - right. pose proof Hw as Hw'. unfold withdraw in Hw. destruct (ask_row j (ad_asks db)) as [x|] eqn:Hx; [|done].
    inv_ok Hw. bools. subst db'. simpl. rewrite ask_row_set, Hr. simpl. eexists. split; [done|].
    destruct (i =? j) eqn:Hij; bools; [|auto using same_ask_refl]. subst j. assert (x = r) as -> by congruence.
    split; [done|right]. split; [done|right]. by exists s.
  - right. destruct (take_report_asks now h rep db) as [Heq|(c & row & rep' & Hsig & Hch & _ & Heq)]; rewrite Heq.
    + exists r. auto using same_ask_refl.
    + destruct (answer_asks_row now c (cn_name row) (st_answers rep') db i r Hr) as (r' & Hr' & Hsame & Hor).
      exists r'. split_and!; try done. destruct Hor as [->|(Hp & Hc & a & Ha & Hi & Hst)]; [by left|right].
      split; [done|left]. exists now, h, rep, rep', a. split_and!; try done. by subst c.
  - right. exists r. unfold create_connector in Hc. inv_ok Hc. subst db'. auto using same_ask_refl.
  - destruct (decide (ak_connector r = j)) as [<-|Hne].
    { left. exists s. split; [done|]. unfold delete_connector, require_admin in Hd. by destruct (is_admin s). }
    right. exists r. split_and!; auto using same_ask_refl. unfold delete_connector in Hd. inv_ok Hd. subst db'. simpl.
    clear -Hr Hne. unfold ask_row in *. induction (ad_asks db) as [|[k x] l IH]; [done|]. rewrite filter_cons. simpl in Hr.
    destruct (k =? i) eqn:Hk.
    + simpl in Hr. injection Hr as ->. rewrite decide_True by done. simpl. by rewrite Hk.
    + case_decide; [simpl; rewrite Hk|]; auto.
  - right. destruct (forgets_row _ _ _ _ Hf Hr) as (r' & Hr' & Hsame & Hst). exists r'. auto.
Qed.

(** *** The list fits *)

Lemma shrink_take fuel l : exists n, shrink fuel l = take n l.
Proof.
  revert l. induction fuel as [|fuel IH]; intros l; simpl; [by exists (length l); rewrite take_ge|].
  destruct (_ && _); [|by exists (length l); rewrite take_ge]. destruct (IH (take (length l - 1) l)) as [n ->].
  exists (n `min` (length l - 1))%nat. by rewrite take_take.
Qed.

Lemma shrink_some fuel l : l <> [] -> shrink fuel l <> [].
Proof.
  revert l. induction fuel as [|fuel IH]; intros l Hl; simpl; [done|]. destruct (_ && _) eqn:E; [|done]. bools. apply IH.
  destruct l as [|a [|b l]]; simpl in *; [done|lia|done].
Qed.

Lemma shrink_fits fuel l :
  (length l <= fuel)%nat -> (length (shrink fuel l) <= 1)%nat \/ pending_size (shrink fuel l) <= MAX_PENDING_BYTES.
Proof.
  revert l. induction fuel as [|fuel IH]; intros l Hl; simpl; [left; lia|]. destruct (_ && _) eqn:E.
  - bools. apply IH. rewrite length_take. lia.
  - apply andb_false_iff in E as [E|E]; bools; [left; lia|by right].
Qed.

Lemma targets_bound ts :
  Forall short_target ts -> foldr (fun t n => target_bound t + n) 0 ts <= 2782 * Z.of_nat (length ts).
Proof.
  induction 1 as [|t ts [(Hn & _) Hh] _ IH]; [done|]. apply plain_iff in Hn as [Hn _]. cbn [foldr length].
  unfold target_bound, text_bound, MAX_NAME in *. lia.
Qed.

Lemma customer_request_ok ir : ask_ok ir.2 -> request_ok (customer_request ir) /\ request_bound (customer_request ir) <= 60000.
Proof.
  intros [Hr Hm Hc Ht]. assert (Hn : plain (readable (ak_requester_name ir.2) MAX_NAME) MAX_NAME = true)
    by (by apply readable_plain; vm_compute). split.
  - split_and!; simpl; try done; [lia..|]. eapply Forall_impl; [exact Ht|]. by intros t [].
  - pose proof (targets_bound _ Ht). apply plain_iff in Hn as [Hn _], Hr as [Hr _]. unfold request_bound. simpl.
    unfold text_bound, MAX_TARGETS, MAX_NAME, MAX_REASON in *. lia.
Qed.

Lemma asks_ok_reached db0 db : ad_asks db0 = [] -> rtc ask_step db0 db -> asks_ok db.
Proof.
  intros He Hs. assert (Hok : asks_ok db0) by (unfold asks_ok; rewrite He; split; constructor).
  clear He. induction Hs; eauto using ask_step_ok.
Qed.

(** The requests a connector's customer has not answered, oldest first. *)
Definition unanswered (now : Z) (c : Uuid) (db : AskDb) : list CustomerRequest :=
  customer_request <$> filter (fun ir => ak_connector ir.2 = c /\ is_waiting now ir.2 = true) (ad_asks db).

Lemma pending_for_prefix now c db :
  exists n, requests (pending_for now c db) = take n (unanswered now c db) /\ (n <= 20)%nat
    /\ (unanswered now c db <> [] -> requests (pending_for now c db) <> [])
    /\ ((length (requests (pending_for now c db)) <= 1)%nat
        \/ pending_size (requests (pending_for now c db)) <= MAX_PENDING_BYTES).
Proof.
  unfold pending_for, unanswered. cbn [requests]. set (rows := filter _ _). destruct (shrink_take (length (take (Z.to_nat MAX_REQUESTS) rows))
    (customer_request <$> take (Z.to_nat MAX_REQUESTS) rows)) as [n Hn].
  exists (n `min` 20)%nat. split_and!.
  - rewrite Hn, fmap_take, take_take. done.
  - lia.
  - intros Hne. apply shrink_some. by destruct rows.
  - apply shrink_fits. by rewrite length_fmap.
Qed.

(** C23: What waits for a customer reaches them: from no requests on, whatever
    is asked, withdrawn, answered and deleted, the answer to a connector's
    report can be written, and the connector takes all of it. It lists what is
    unanswered from the oldest on, and the oldest is always there. *)
Theorem connector_takes_the_list `{!FromSlice, !JsonOk} (db0 db : AskDb) (now : Z) (c : Uuid) :
  ad_asks db0 = [] -> rtc ask_step db0 db ->
  exists bytes n, to_vec (pending_for now c db) = Some bytes
    /\ Requests.parse bytes = Ok (take n (unanswered now c db))
    /\ head (take n (unanswered now c db)) = head (unanswered now c db).
Proof.
  intros He Hs. destruct (asks_ok_reached _ _ He Hs) as [Hids Hok].
  destruct (pending_for_prefix now c db) as (n & Heq & Hn & Hne & Hfit).
  destruct (json_reads_back (pending_for now c db)) as (bytes & Hb & Hr). exists bytes, n. split; [done|].
  assert (Hall : Forall (fun r => request_ok r /\ request_bound r <= 60000) (take n (unanswered now c db))).
  { apply Forall_take. unfold unanswered. apply Forall_fmap, Forall_forall. intros ir [_ Hin]%list_elem_of_filter.
    rewrite Forall_forall in Hok. by apply customer_request_ok, Hok. }
  split.
  - apply parse_iff. rewrite <- Heq in *. split_and!.
    + destruct Hfit as [Hlen|Hfit].
      * pose proof (json_size _ _ Hb) as Hsz. destruct (requests (pending_for now c db)) as [|r [|]]; simpl in *;
          [unfold MAX_PENDING_BYTES; lia| |lia]. apply Forall_singleton in Hall as [_ ?]. unfold MAX_PENDING_BYTES. lia.
      * unfold pending_size in Hfit. change {| requests := requests (pending_for now c db) |} with (pending_for now c db) in Hfit.
        by rewrite Hb in Hfit.
    + exact Hr.
    + rewrite Heq, length_take. unfold MAX_REQUESTS. lia.
    + rewrite Heq. unfold unanswered. eapply (sublist_NoDup _ ((Requests.id ∘ customer_request) <$> _)); [|rewrite list_fmap_compose; apply fmap_sublist, sublist_take].
      by apply (NoDup_fmap_filter fst).
    + eapply Forall_impl; [exact Hall|]. by intros r [].
  - destruct (unanswered now c db) as [|r l]; [by rewrite take_nil|]. destruct n; [|done]. by destruct Hne.
Qed.

End histories.

(** *** The report is taken *)

Definition visible (c : Z) : Prop := 0x20 <= c < 0x7F.

Lemma visible_plain (s : list Z) :
  Forall visible s -> s <> [] -> report_plain s = (Z.of_nat (length s) <=? MAX_TEXT).
Proof.
  intros Hs Hne. unfold report_plain. rewrite bool_decide_eq_false_2 by done. simpl.
  assert (existsb is_control s = false) as ->; [|apply andb_true_r]. apply existsb_Forall.
  eapply Forall_impl; [exact Hs|]. unfold visible, is_control. intros c Hc. simpl.
  apply orb_false_iff. split; apply andb_false_iff; rewrite !Z.leb_gt; lia.
Qed.

Lemma digits_visible n : 0 <= n -> Forall visible (decimal n).
Proof.
  intros Hn. eapply Forall_impl; [by apply decimal_digits|]. unfold is_ascii_digit, visible. intros c Hc. simpl in Hc. bools. lia.
Qed.

Lemma hex_visible c : is_digit_of 16 c = true -> visible c.
Proof.
  unfold is_digit_of, to_digit, visible, is_ascii_digit, is_ascii_lower, is_ascii_upper. intros Hc.
  repeat case_match; simplify_eq; bools; lia.
Qed.

Lemma port_text_visible p : ports_wf p -> Forall visible (port_text p) /\ port_text p <> [].
Proof.
  intros Hp. split; [|by apply port_text_facts]. destruct Hp as [Hf Hl]. unfold port_text.
  case_match; [apply digits_visible; lia|]. apply Forall_app. split; [apply digits_visible; lia|].
  constructor; [unfold visible; lia|]. apply digits_visible. lia.
Qed.

Lemma ports_text_visible l : Forall ports_wf l -> l <> [] -> Forall visible (ports_text l) /\ ports_text l <> [].
Proof.
  unfold ports_text. induction 1 as [|p l Hp Hl IH]; [done|]. intros _. destruct (port_text_visible p Hp) as [Hv Hne].
  rewrite fmap_cons, join_cons. destruct l as [|q l]; [done|]. destruct IH as [IH _]; [done|]. cbn [fmap list_fmap] in *. split.
  - apply Forall_app. split; [done|]. apply Forall_app. split; [|done]. repeat constructor; unfold visible; simpl; lia.
  - by intros [? _]%app_nil.
Qed.

Lemma ip_text_visible ip : ip_wf ip -> to_canonical ip = ip -> Forall visible (ip_text ip) /\ ip_text ip <> [].
Proof.
  intros Hwf Hc. split.
  - apply Forall_forall. intros c Hin. destruct ip as [a|a]; simpl in *.
    + apply ipv4_text_chars in Hin as [Hd| ->]; [|unfold visible; lia|done]. unfold is_ascii_digit, visible in *. bools. lia.
    + destruct (a / 2 ^ 32 =? 65535) eqn:E; [done|]. bools.
      apply ipv6_text_chars in Hin as [?| ->]; [by apply hex_visible|unfold visible; lia|done..].
  - destruct ip as [a|a]; simpl in *.
    + unfold ipv4_text. rewrite !fmap_cons, join_cons. intros [Hd _]%app_nil. by apply decimal_not_nil in Hd.
    + destruct (a / 2 ^ 32 =? 65535) eqn:E; [done|]. bools. pose proof (ipv6_text_colon a E). intros Hnil.
      rewrite Hnil in *. by apply not_elem_of_nil in H.
Qed.

Lemma address_visible text a : address_from_str text = Ok a -> Forall visible (address_text a) /\ address_text a <> [].
Proof.
  unfold address_from_str. destruct (network_from_str (trim text)) as [net|] eqn:Hn.
  - intros [= <-]. pose proof (network_from_str_wf _ _ Hn) as Hwf. rewrite address_text_range by done.
    destruct Hwf as (Hip & Hc & Hp). destruct (ip_text_visible _ Hip Hc) as [Hv Hne]. destruct (_ =? _); [done|].
    unfold network_text. split; [|by intros [? _]%app_nil]. apply Forall_app. split; [done|].
    constructor; [unfold visible; lia|]. apply digits_visible. lia.
  - destruct (valid_host _ _) eqn:Hv; [|done]. intros [= <-]. apply valid_host_lower in Hv. cbn [address_text]. split.
    + eapply Forall_impl; [by apply valid_host_chars|]. intros c [Hc| ->]; [|unfold visible; lia].
      unfold address_char, is_ascii_alphanumeric, is_ascii_digit, is_ascii_upper, is_ascii_lower in *. unfold visible.
      repeat (apply orb_prop in Hc as [Hc|Hc]); bools; lia.
    + intros Hnil. by rewrite Hnil in Hv.
Qed.

(** The customer's list as [valid_name], [address_from_str] and [parse_list]
    let it be entered, and requests as the connector takes them. *)
Definition entered (s : Snapshot) : Prop :=
  Forall (fun d => valid_name (Inventory.name d) = Ok (Inventory.name d) /\ Inventory.ports d <> [] /\ Forall ports_wf (Inventory.ports d)
                   /\ exists text, address_from_str text = Ok (d_address d)) (Inventory.devices (s_inventory s))
  /\ Forall (fun g => valid_name g = Ok g) (Inventory.groups (s_inventory s))
  /\ forall i g, f_requests (s_access s) !! i = Some g -> Forall (fun t => target_ok t /\ 0 <= port t) (g_targets g).

Definition short (o : OpenDevice) : Prop :=
  Z.of_nat (length (od_address o)) <= MAX_TEXT /\ Z.of_nat (length (od_ports o)) <= MAX_TEXT.

Lemma valid_name_plain n : valid_name n = Ok n -> report_plain n = true.
Proof.
  unfold valid_name. destruct (_ && _) eqn:E; [|done]. intros [= Ht]. rewrite Ht in E. unfold report_plain, MAX_TEXT.
  bools. destruct n; [simpl in *; lia|]. rewrite bool_decide_eq_false_2 by done. simpl in *.
  apply andb_true_iff. split; [apply Z.leb_le; lia|by rewrite H0].
Qed.

Lemma plain_report n longest : longest <= MAX_TEXT -> plain n longest = true -> report_plain n = true.
Proof.
  intros Hl [Hn Hodd]%plain_iff. unfold report_plain. rewrite bool_decide_eq_false_2 by (intros ->; simpl in Hn; lia). cbn [negb andb].
  apply andb_true_iff. split; [apply Z.leb_le; lia|]. apply negb_true_iff, existsb_Forall.
  eapply Forall_impl; [exact Hodd|]. intros c Hc. unfold odd in Hc. by apply orb_false_iff in Hc as [Hc _].
Qed.

Lemma host_visible t : request_host t = true -> Forall visible t /\ t <> [].
Proof.
  unfold request_host. destruct (parse_ip t) as [ip|] eqn:Hip; cbn [is_some].
  - intros _. split; [|intros ->; by vm_compute in Hip]. eapply Forall_impl; [by eapply parse_ip_chars|].
    intros c Hc. unfold ip_char in Hc. repeat (apply orb_prop in Hc as [Hc|Hc]); bools; [by apply hex_visible|unfold visible; lia..].
  - intros Hv%(valid_host_mono _ _ _ host_char_address). split; [|intros ->; by vm_compute in Hv].
    eapply Forall_impl; [by apply valid_host_chars|]. intros c [Hc| ->]; [|unfold visible; lia].
    unfold address_char, is_ascii_alphanumeric, is_ascii_digit, is_ascii_upper, is_ascii_lower in *. unfold visible.
    repeat (apply orb_prop in Hc as [Hc|Hc]); bools; lia.
Qed.

Section report.
Context `{!Agent.Rfc3339, !Grants.Rfc3339}.

(** remotehub reads the times the connector writes. *)
Definition times_read : Prop := forall t text, rfc3339 t = Some text -> is_Some (utc text).

Lemma point_ok field t : times_read -> exists u, point field (t ≫= rfc3339) = Ok u.
Proof.
  intros Hl. destruct t as [t|]; simpl; [|by eexists]. destruct (rfc3339 t) as [text|] eqn:Ht; simpl; [|by eexists].
  destruct (Hl _ _ Ht) as [u ->]. by exists (Some u).
Qed.

Lemma each_ok {A} (f : A -> result A ApiProblem) l : (forall x, x ∈ l -> exists y, f x = Ok y) -> exists l', each f l = Ok l'.
Proof.
  induction l as [|x l IH]; intros Hf; [by eexists|]. destruct (Hf x) as [y Hy]; [by left|]. destruct IH as [l' Hl']; [by auto using list_elem_of_further|].
  exists (y :: l'). simpl. by rewrite Hy, Hl'.
Qed.

Lemma each_err {A} (f : A -> result A ApiProblem) l e x :
  (forall x, x ∈ l -> (exists y, f x = Ok y) \/ f x = Err e) -> x ∈ l -> f x = Err e -> each f l = Err e.
Proof.
  induction l as [|y l IH]; intros Hf Hx He; [by apply not_elem_of_nil in Hx|]. simpl.
  destruct (Hf y) as [[z Hz]|Hz]; [by left|rewrite Hz|by rewrite Hz].
  apply elem_of_cons in Hx as [->|Hx]; [congruence|]. rewrite IH; auto using list_elem_of_further.
Qed.

(** What is reported of a device is plain, but for the length of its address and ports. *)
Lemma reported_device s now o :
  entered s -> o ∈ st_devices (report_state s now) ->
  report_plain (od_name o) = true
  /\ report_plain (od_address o) = (Z.of_nat (length (od_address o)) <=? MAX_TEXT)
  /\ report_plain (od_ports o) = (Z.of_nat (length (od_ports o)) <=? MAX_TEXT)
  /\ exists t, od_until o = t ≫= rfc3339.
Proof.
  intros (Hd & _ & Ht) (k & Ho & _)%elem_of_take. apply list_elem_of_lookup_2 in Ho.
  apply elem_of_app in Ho as [(d & -> & Hin)%list_elem_of_fmap|Ho].
  - apply list_elem_of_filter in Hin as [_ Hin]. rewrite Forall_forall in Hd.
    destruct (Hd d Hin) as (Hn & Hp & Hwf & text & Ha). simpl. split_and!; [by apply valid_name_plain| | |by eexists].
    + apply visible_plain; by eapply address_visible.
    + apply visible_plain; by apply ports_text_visible.
  - apply list_elem_of_bind in Ho as ([i g] & (t & -> & Hin)%list_elem_of_fmap & Hig).
    apply list_elem_of_filter in Hig as [_ Hig]. apply elem_of_btree_uuid in Hig.
    specialize (Ht i g Hig). rewrite Forall_forall in Ht. destruct (Ht t Hin) as ((Hn & Hh & _) & Hp). simpl.
    split_and!; [by eapply plain_report| | |by eexists].
    + apply visible_plain; by apply host_visible.
    + apply visible_plain; [by apply digits_visible|apply decimal_not_nil].
Qed.

Lemma checked_device_reported s now o :
  times_read -> entered s -> o ∈ st_devices (report_state s now) ->
  if bool_decide (short o) then (exists y, checked_device o = Ok y) else checked_device o = Err (AP_Invalid "devices").
Proof.
  intros Hl He Ho. destruct (reported_device s now o He Ho) as (Hn & Ha & Hp & t & Ht).
  unfold checked_device, short. cbn [forallb]. rewrite Hn, Ha, Hp, Ht, andb_true_r. destruct (point_ok "devices" t Hl) as [u ->].
  destruct (_ <=? _) eqn:E1, (Z.of_nat (length (od_ports o)) <=? MAX_TEXT) eqn:E2; bools; simpl.
  - rewrite bool_decide_eq_true_2 by done. by eexists.
  - rewrite bool_decide_eq_false_2 by lia. done.
  - rewrite bool_decide_eq_false_2 by lia. done.
  - rewrite bool_decide_eq_false_2 by lia. done.
Qed.

(** Remotehub takes what a connector reports exactly when the address and
    the ports of every reported device take at most 200 characters, whatever
    else the customer entered and opened; one longer and the whole report is
    refused. *)
Theorem report_taken_iff (s : Snapshot) (now : Z) :
  times_read -> entered s ->
  (Forall short (st_devices (report_state s now)) -> (exists r, checked_state (report_state s now) = Ok r))
  /\ (~ Forall short (st_devices (report_state s now)) -> checked_state (report_state s now) = Err (AP_Invalid "devices")).
Proof.
  intros Hl He. pose proof (fun o => checked_device_reported s now o Hl He) as Hdev.
  assert (Hu : exists u, point "until" (st_until (report_state s now)) = Ok u).
  { cbn [report_state st_until]. destruct (network_until s now) as [t|]; [by apply (point_ok _ t)|by eexists]. }
  assert (Hg : exists g, each checked_group (st_groups (report_state s now)) = Ok g).
  { apply each_ok. intros o (nu & -> & Hin)%list_elem_of_fmap. apply elem_of_take in Hin as (k & Hin & _).
    apply list_elem_of_lookup_2, list_elem_of_omap in Hin as (n & Hn & Hnu). destruct He as (_ & Hgs & _). rewrite Forall_forall in Hgs.
    assert (nu.1 = n) as Heq by (repeat case_match; by simplify_eq). unfold checked_group. cbn [og_name og_until].
    rewrite Heq, valid_name_plain by auto. destruct (point_ok "groups" nu.2 Hl) as [u ->]. by eexists. }
  assert (Hlg : (Z.of_nat MAX_LISTED <? Z.of_nat (length (st_groups (report_state s now)))) = false).
  { apply Z.ltb_ge. cbn [report_state st_groups]. rewrite length_fmap, length_take. lia. }
  assert (Hld : (Z.of_nat MAX_LISTED <? Z.of_nat (length (st_devices (report_state s now)))) = false).
  { apply Z.ltb_ge. cbn [report_state st_devices]. rewrite length_take. lia. }
  unfold checked_state. destruct Hu as [u ->], Hg as [g ->]. rewrite Hlg, Hld. split.
  - intros Hs. rewrite Forall_forall in Hs. destruct (each_ok checked_device (st_devices (report_state s now))) as [ds ->]; [|by eexists].
    intros o Ho. specialize (Hdev o Ho). by rewrite bool_decide_eq_true_2 in Hdev by auto.
  - intros (o & Ho & Hlong)%not_Forall_Exists%Exists_exists; [|tc_solve].
    erewrite each_err; [done| |exact Ho|].
    + intros x Hx. specialize (Hdev x Hx). case_bool_decide; auto.
    + specialize (Hdev o Ho). by rewrite bool_decide_eq_false_2 in Hdev.
Qed.

End report.

(** ** Examples *)

Module CustomerExamples.

#[local] Existing Instance RequestExamples.decimal_uuid.
#[local] Existing Instance SessionExamples.no_hash.
#[local] Existing Instance WebauthnExamples.plain_base64.
#[local] Existing Instance GrantExamples.plain_times.

(** Times of the connector as decimal numbers. *)
#[local] Instance connector_times : Agent.Rfc3339 :=
  fun t => if (0 <=? t) && (t <=? u64_max) then Some (decimal t) else None.

(** A message as one number. *)
#[local] Instance target_countable : Countable RequestTarget.
Proof.
  refine (inj_countable' (fun t => (t_name t, host t, port t)) (fun x => {| t_name := x.1.1; host := x.1.2; port := x.2 |}) _).
  by intros [].
Defined.
#[local] Instance request_countable : Countable CustomerRequest.
Proof.
  refine (inj_countable' (fun r => (Requests.id r, requester r, reason r, minutes r, targets r))
    (fun x => {| Requests.id := x.1.1.1.1; requester := x.1.1.1.2; reason := x.1.1.2; minutes := x.1.2; targets := x.2 |}) _).
  by intros [].
Defined.
#[local] Instance number_vec : ToVec := fun p => Some [Zpos (countable.encode (requests p))].
#[local] Instance number_slice : FromSlice := fun b =>
  match b with
  | [Zpos n] => match countable.decode n with Some l => Ok {| requests := l |} | None => Err [] end
  | _ => Err []
  end.

Lemma request_bound_positive r : 0 <= request_bound r.
Proof.
  assert (forall ts, 0 <= foldr (fun t n => target_bound t + n) 0 ts) as Ht.
  { induction ts as [|t ts IH]; simpl; [lia|]. assert (0 <= target_bound t) by (unfold target_bound, text_bound; lia). lia. }
  specialize (Ht (targets r)). unfold request_bound, text_bound. lia.
Qed.

#[local] Instance number_json : JsonOk.
Proof.
  split.
  - intros [l]. eexists. split; [reflexivity|]. unfold from_slice, number_slice. cbn [requests]. by rewrite countable.decode_encode.
  - intros [l] b [= <-]. simpl. assert (0 <= foldr (fun r n => request_bound r + n) 0 l); [|lia].
    induction l as [|r l IH]; simpl; [lia|]. pose proof (request_bound_positive r). lia.
Qed.

(** The router of a customer behind connector 9, which is signed in. *)
Definition start : AskDb :=
  {| ad_store := CatalogExamples.reconnected;
     ad_connectors := {[9 := {| cn_name := lit "site"; cn_token_hash := sha256 (lit "rhc_t"); cn_last_seen := None |}]};
     ad_asks := []; ad_registry := connectors_default; ad_log := [] |}.
Definition boss : Session := RequestExamples.boss.
Definition wish : NewAsk := {| na_kind := lit "device"; na_id := 7; na_minutes := 60; na_reason := lit "update" |}.
Definition after (r : result AskDb AskProblem) : AskDb := match r with Ok db => db | Err _ => start end.
Definition waits : AskDb := after (create_ask boss 0 30 wish start start).

Lemma waits_made : create_ask boss 0 30 wish start start = Ok waits.
Proof. vm_compute. reflexivity. Qed.

Lemma short_hosts : hosts_short (ad_store start).
Proof.
  intros i d Hd. assert (Hall : map_Forall (fun _ x => Z.of_nat (length (d_host (d_settings x))) <= 253) (s_devices (ad_store start)))
    by (refine (bool_decide_eq_true_1 _ _); vm_compute; reflexivity). by apply (Hall i d).
Qed.

Lemma waits_step : ask_step start waits.
Proof. apply (k_create boss 0 30 wish start); [exact short_hosts|intros ir Hir; by apply not_elem_of_nil in Hir|exact waits_made]. Qed.

Lemma asks_only_what_they_reach_witness :
  exists r, ad_asks waits = ad_asks start ++ [(30, r)] /\ ak_status r = Ask_Pending /\ ak_requester r = user_id boss
    /\ ak_targets r <> []
    /\ forall t, t ∈ ak_targets r -> exists id d, s_devices (ad_store start) !! id = Some d
         /\ authorize (catalog_of (ad_store start) 0) (subject boss) Role_Connect (Device id) = true
         /\ reached_through (s_folders (ad_store start)) (d_settings d) = Some (ak_connector r)
         /\ host t = d_host (d_settings d) /\ port t = d_port (d_settings d).
Proof. exact (asks_only_what_they_reach boss 0 30 wish start start waits waits_made). Defined.

Definition signed_head : ConnectorHead := {| ch_authorization := Some (lit "Bearer rhc_t"); ch_protocol := Some (lit "1") |}.
Definition yes : Answer := {| a_id := 30; approved := true; by_user := lit "Eve"; Requests.until := Some (lit "3600") |}.
Definition closed_report (answers : list Answer) : ReportedState :=
  {| st_open := false; st_until := None; partly := false; st_groups := []; st_devices := []; st_answers := answers |}.

Definition waiting_row : AskRow :=
  match ask_row 30 (ad_asks waits) with Some r => r | None => {| ak_connector := 0; ak_folder := None; ak_device := None;
    ak_object_name := []; ak_targets := []; ak_requester := 0; ak_requester_name := []; ak_minutes := 0; ak_reason := [];
    ak_status := Ask_Refused; ak_answered_by := None; ak_answered_at := None; ak_until := None; ak_created := 0 |} end.

Definition answered : AskDb := (take_report minute signed_head (closed_report [yes]) waits).2.

Example eve_approved : ak_status <$> ask_row 30 (ad_asks answered) = Some Ask_Approved.
Proof. vm_compute. reflexivity. Qed.

Lemma answer_step : ask_step waits answered.
Proof. exact (k_report minute signed_head (closed_report [yes]) waits). Qed.

Lemma only_the_customer_answers_witness :
  exists r', ask_row 30 (ad_asks answered) = Some r' /\ same_ask waiting_row r'.
Proof.
  assert (Hrow : ask_row 30 (ad_asks waits) = Some waiting_row) by (vm_compute; reflexivity).
  destruct (only_the_customer_answers waits answered 30 waiting_row answer_step Hrow) as [(s & Hd & Ha)|(r' & Hr & Hs & _)];
    [|exists r'; split; assumption].
  unfold delete_connector, require_admin in Hd. rewrite Ha in Hd. vm_compute in Hd. discriminate.
Defined.

Lemma connector_takes_the_list_witness :
  exists bytes n, to_vec (pending_for minute 9 waits) = Some bytes
    /\ Requests.parse bytes = Ok (take n (unanswered minute 9 waits))
    /\ head (take n (unanswered minute 9 waits)) = head (unanswered minute 9 waits).
Proof. exact (connector_takes_the_list start waits minute 9 eq_refl (rtc_once _ _ waits_step)). Defined.

Example the_wish_is_listed : requester <$> requests (pending_for minute 9 waits) = [lit "boss"].
Proof. vm_compute. reflexivity. Qed.

Lemma decimals_read : times_read.
Proof.
  intros t text. unfold rfc3339, connector_times. destruct (_ && _) eqn:E; [|done]. intros [= <-]. bools.
  unfold utc, rfc3339_parse, GrantExamples.plain_times. rewrite parse_unsigned_decimal by lia. by eexists.
Qed.

Lemma device_entered n p :
  valid_name (lit n) = Ok (lit n) -> address_from_str (lit n) = Ok (Address_Host (lit n)) -> 1 <= p <= 65535 ->
  let d := AgentExamples.example_device n p in
  valid_name (Inventory.name d) = Ok (Inventory.name d) /\ Inventory.ports d <> [] /\ Forall ports_wf (Inventory.ports d)
  /\ exists text, address_from_str text = Ok (d_address d).
Proof.
  intros Hn Ha Hp. split; [exact Hn|]. split; [discriminate|]. split; [|by exists (lit n)].
  apply Forall_singleton. unfold ports_wf, u16_max. simpl. lia.
Qed.

Lemma both_entered : entered AgentExamples.both_open.
Proof.
  split_and!.
  - apply Forall_cons. split; [|apply Forall_singleton]; (apply device_entered; [vm_compute; reflexivity..|lia]).
  - constructor.
  - intros i g Hg. vm_compute in Hg. discriminate.
Qed.

Lemma report_taken_iff_witness : exists r, checked_state (report_state AgentExamples.both_open 0) = Ok r.
Proof.
  apply (report_taken_iff AgentExamples.both_open 0 decimals_read both_entered).
  refine (bool_decide_eq_true_1 _ _). vm_compute. reflexivity.
Defined.

(** What a customer enters and opens can make remotehub refuse every report:
    a host name of 243 characters, or two hundred characters of ports. *)
Definition long_host : list Z := join (lit ".") (repeat (repeat 97 60) 4).
Definition many_ports : list Z := join (lit " ") (repeat (lit "9") 100).

Definition open_with (a : Address) (l : list Ports) : Snapshot :=
  {| s_access := s_access AgentExamples.both_open;
     s_inventory := {| Inventory.devices := [{| Inventory.name := lit "sql"; d_address := a; Inventory.ports := l; d_groups := [] |}]; Inventory.groups := [] |} |}.

Example long_host_refused :
  address_from_str long_host = Ok (Address_Host long_host)
  /\ checked_state (report_state (open_with (Address_Host long_host) [{| first := 22; last := 22 |}]) 0) = Err (AP_Invalid "devices").
Proof. split; vm_compute; reflexivity. Qed.

Example many_ports_refused :
  length many_ports = 199%nat /\
  exists l, parse_list many_ports = Ok l
    /\ checked_state (report_state (open_with (Address_Host (lit "sql")) l) 0) = Err (AP_Invalid "devices").
Proof. split; [vm_compute; reflexivity|]. exists (repeat {| first := 9; last := 9 |} 100). split; vm_compute; reflexivity. Qed.

End CustomerExamples.
