(* ===== verification/Connect.v ===== *)
(** * What every connection shares (crates/server/src/api/connect.rs, refresh.rs, crates/directory/src/laps.rs)

    Before a device is reached: the directory is asked about the user again,
    the right to connect, the purpose, the credentials resolved on the server
    and the way to the device, directly or through a connector. The directory,
    LAPS' JSON, the connector's answers and the system's listeners are what
    they answer. *)
From S2P Require Import Prelude Text Utf8 Ip Network Sid Model Session AccessRequests Access Agent Connectors.
From S2P Require Import Vault Keyring Store Folders Devices Grants People Webauthn Totp Factors BreakGlass Limiter SignIn.

(** ** State *)

Record JournalRow := {
  jr_id : Uuid;
  jr_device : Uuid;
  jr_user : Uuid;
  jr_protocol : Protocol;
  jr_text : list Z;
  jr_ended : option Z
}.

Inductive ConnProblem :=
| CP (p : ApiProblem)
| CP_InvalidRequest | CP_Unauthenticated | CP_Session (p : Session.Problem) | CP_ForbiddenOrigin | CP_PurposeRequired
| CP_OwnAccountUnavailable | CP_SshCaUnavailable | CP_DirectoryUnavailable | CP_LapsUnavailable
| CP_ConnectorClosed | CP_ConnectorOffline | CP_ConnectorTargetClosed
| CP_CertificateChanged (expected presented : list Z) | CP_HostKeyChanged (expected presented : list Z)
| CP_TlsRequired | CP_TargetUnreachable | CP_TargetAuthFailed | CP_ConnectionFailed.

#[export] Instance conn_problem_eq_dec : EqDecision ConnProblem.
Proof. solve_decision. Defined.

(** Why a connection failed, as the audit log has it: the code the browser gets
    or a text. *)
Inductive FailReason := R_problem (p : ConnProblem) | R_text (t : list Z).

Inductive ConnAction :=
| SessionsEndedByDirectory (reason : SignInProblem) (ended : nat)
| ConnectionFailed (reason : FailReason)
| ConnectionOpened (username purpose : list Z)
| ConnectionClosed
| CertificatePinned (fingerprint : list Z)
| HostKeyPinned (key : list Z).

(** [cl_user]: who acted, none for the directory; [cl_object]: the device, or
    the user whose sessions ended. *)
Record ConnLog := { cl_user : option Uuid; cl_object : Uuid; cl_action : ConnAction }.

Record ConnWorld := {
  cw_store : Store;
  cw_sign : SignIn.World;
  cw_registry : Connectors ReportedState;
  cw_journal : list JournalRow;
  cw_log : list ConnLog
}.

Definition cw_people (w : ConnWorld) : People := fa_people (sw_db (cw_sign w)).

Definition on_store (f : Store -> Store) (w : ConnWorld) : ConnWorld :=
  {| cw_store := f (cw_store w); cw_sign := cw_sign w; cw_registry := cw_registry w; cw_journal := cw_journal w;
     cw_log := cw_log w |}.

Definition on_world_sessions (f : gmap (list Z) SessionRow -> gmap (list Z) SessionRow) (w : ConnWorld) : ConnWorld :=
  {| cw_store := cw_store w; cw_sign := on_db (on_people (on_sessions f)) (cw_sign w);
     cw_registry := cw_registry w; cw_journal := cw_journal w; cw_log := cw_log w |}.

Definition on_journal (f : list JournalRow -> list JournalRow) (w : ConnWorld) : ConnWorld :=
  {| cw_store := cw_store w; cw_sign := cw_sign w; cw_registry := cw_registry w; cw_journal := f (cw_journal w);
     cw_log := cw_log w |}.

(** [audit::record] *)
Definition note_conn (user : option Uuid) (object : Uuid) (a : ConnAction) (w : ConnWorld) : ConnWorld :=
  {| cw_store := cw_store w; cw_sign := cw_sign w; cw_registry := cw_registry w; cw_journal := cw_journal w;
     cw_log := cw_log w ++ [{| cl_user := user; cl_object := object; cl_action := a |}] |}.

(** ** The directory's changes reach running sessions (refresh.rs) *)

(** [directory.refresh]: the user's groups, or why they may not sign in. *)
Definition Directory : Type := list Z -> result (list (list Z)) AuthError.

Definition with_groups (groups : list (list Z)) (r : SessionRow) : SessionRow :=
  {| s_id := s_id r; s_user_id := s_user_id r; s_groups := groups; s_client := s_client r;
     last_seen_at := last_seen_at r; expires_at := expires_at r; confirmed_at := confirmed_at r;
     confirm_failures := confirm_failures r |}.

(** Whether the user may keep their sessions. *)
Definition refresh_user (directory : option Directory) (user : Uuid) (sid : str) (w : ConnWorld) : bool * ConnWorld :=
  match directory, sid_from_str sid with
  | Some ask, Some parsed =>
      let refused reason :=
        (false, note_conn None user
           (SessionsEndedByDirectory reason (size (filter (fun hr : list Z * SessionRow => s_user_id hr.2 = user) (pe_sessions (cw_people w)))))
           (on_world_sessions (filter (fun hr => s_user_id hr.2 <> user)) w)) in
      match ask parsed with
      | Ok groups => (true, on_world_sessions (fmap (fun r => if s_user_id r =? user then with_groups groups r else r)) w)
      | Err (AE_Unavailable | AE_Directory) => (true, w)
      | Err AE_AccountDisabled => refused SI_AccountDisabled
      | Err AE_AccountExpired => refused SI_AccountExpired
      | Err _ => refused SI_InvalidCredentials
      end
  | _, _ => (true, w)
  end.

(** [due]: [users] are those the query finds, whose sessions were not checked
    for [EVERY]. *)
Definition refresh_due (directory : option Directory) (users : list (Uuid * list Z)) (w : ConnWorld) : ConnWorld :=
  foldl (fun w us => (refresh_user directory us.1 us.2 w).2) w users.

(** ** LAPS (laps.rs) *)

Record LapsPassword := { lp_account : list Z; lp_password : list Z; lp_computer : list Z }.

Inductive LapsError :=
| LE_ComputerNotFound (host : list Z) | LE_Ambiguous (host : list Z) | LE_NoPassword (host : list Z) | LE_Directory (e : AuthError).

Definition LEGACY_ACCOUNT : list Z := lit "Administrator".

(** [serde_json::from_str::<WindowsLaps>]: the account and its password. *)
Class LapsJson := windows_laps : list Z -> option (list Z * list Z).

(** [ldap_escape] (crate [ldap3]). *)
Class LdapEscape := ldap_escape : list Z -> list Z.

Definition laps_password `{LapsJson} (windows legacy : option (list Z)) (computer : str) : option LapsPassword :=
  let from_windows := filter_option (fun ap => not_empty ap.1 && not_empty ap.2) (windows ≫= windows_laps) in
  let from_legacy := (fun p => (LEGACY_ACCOUNT, p)) <$> filter_option not_empty legacy in
  ap ← match from_windows with Some ap => Some ap | None => from_legacy end;
  Some {| lp_account := ap.1; lp_password := ap.2; lp_computer := trim_end_matches 36 computer |}.

Definition normalize (host : str) : list Z := trim_end_matches 46 (trim host).

Definition laps_filter `{LdapEscape} (host : str) : option (list Z) :=
  let host := normalize host in
  if bool_decide (host = []) || is_some (parse_ip host) then None
  else
    let name := ldap_escape host in
    let label := ldap_escape (default host (head (split 46 host))) in
    Some (lit "(&(objectCategory=computer)(|(dNSHostName=" ++ name ++ lit ")(dNSHostName=" ++ label ++ lit ".*)))").

(** [str::eq_ignore_ascii_case] *)
Definition same_ascii (a b : str) : bool := bool_decide (to_ascii_lowercase <$> a = to_ascii_lowercase <$> b).

Definition laps_choose (dns_names : list (option (list Z))) (host : str) : result nat LapsError :=
  let host := normalize host in
  match dns_names with
  | [] => Err (LE_ComputerNotFound host)
  | [_] => Ok 0%nat
  | _ =>
      match filter (fun ix => is_some_and (fun name => same_ascii name host) ix.2 = true) (imap (fun i x => (i, x)) dns_names) with
      | [(index, _)] => Ok index
      | _ => Err (LE_Ambiguous host)
      end
  end.

(** The attributes of a computer that the search finds. *)
Record LapsEntry := {
  le_dns : option (list Z); le_account : option (list Z); le_windows : option (list Z); le_legacy : option (list Z)
}.

(** [laps_password] of ldap.rs, with what the search of a filter gives. *)
Definition directory_laps `{LapsJson} `{LdapEscape} (search : list Z -> result (list LapsEntry) AuthError) (host : str) :
    result LapsPassword LapsError :=
  let? f := ok_or (laps_filter host) (LE_ComputerNotFound host) in
  match search f with
  | Err e => Err (LE_Directory e)
  | Ok entries =>
      let? i := laps_choose (le_dns <$> entries) host in
      match entries !! i with
      | Some entry => ok_or (laps_password (le_windows entry) (le_legacy entry) (default [] (le_account entry))) (LE_NoPassword host)
      | None => Err (LE_ComputerNotFound host)
      end
  end.

(** ** The device *)

Record ConnTarget := {
  tg_id : Uuid;
  tg_name : list Z;
  tg_protocol : Protocol;
  tg_host : list Z;
  tg_port : Z;
  tg_auth_mode : AuthMode;
  tg_profile : option Uuid;
  tg_host_key : option (list Z);
  tg_layout : option (list Z);
  tg_certificate : option (list Z);
  tg_connector : option Uuid;
  tg_confirmation : bool
}.

Definition target_of (db : Store) (id : Uuid) (d : DeviceRow) : ConnTarget :=
  let st := d_settings d in
  {| tg_id := id; tg_name := d_name st; tg_protocol := d_protocol st; tg_host := d_host st; tg_port := d_port st;
     tg_auth_mode := d_auth_mode st; tg_profile := d_profile st; tg_host_key := host_key (d_pins d);
     tg_layout := d_layout st; tg_certificate := certificate_fingerprint (d_pins d);
     tg_connector := reached_through (s_folders db) st; tg_confirmation := d_confirmation st |}.

(** How to sign in to the target. *)
Inductive Login := Login_Password (p : list Z) | Login_Key (k : PrivateKey).

Record Credentials := { cd_username : list Z; cd_domain : list Z; cd_login : Login }.

Definition PURPOSE_MAX : Z := 500.

Section connect.
Context `{UuidText} `{Session.Sha256} `{Base64Url} `{Aead} `{SshKeys}.

Definition conn_session (now idle : Z) (h : list Z) (w : ConnWorld) : option Session :=
  by_hash (session_db (cw_people w)) now h idle.

(** The user is asked for, and the session read again. *)
Definition before_connecting (directory : option Directory) (now idle : Z) (s : Session) (w : ConnWorld) :
    result Session ConnProblem * ConnWorld :=
  match sid s with
  | None => (Ok s, w)
  | Some user_sid =>
      match refresh_user directory (user_id s) user_sid w with
      | (false, w) => (Err CP_Unauthenticated, w)
      | (true, w) => (ok_or (conn_session now idle (token_hash s) w) CP_Unauthenticated, w)
      end
  end.

Definition same_origin (origin : option (list Z)) (public : list Z) : result unit ConnProblem :=
  match origin with
  | Some o => if same_ascii o public then Ok tt else Err CP_ForbiddenOrigin
  | None => Err CP_ForbiddenOrigin
  end.

Definition conn_target (s : Session) (now : Z) (id : Uuid) (protocols : list Protocol) (w : ConnWorld) :
    result ConnTarget ConnProblem :=
  match effective_role (catalog_of (cw_store w) now) (subject s) (Device id) with
  | None => Err (CP AP_NotFound)
  | Some role =>
      if negb (role_leb Role_Connect role) then Err (CP AP_Forbidden)
      else
        let? d := ok_or (s_devices (cw_store w) !! id) (CP AP_Internal) in
        let t := target_of (cw_store w) id d in
        if bool_decide (tg_protocol t ∈ protocols) then Ok t else Err (CP (AP_Invalid "protocol"))
  end.

(** ** The purpose and the journal *)

Definition purpose_required (s : Session) (w : ConnWorld) : bool :=
  existsb (fun r => bool_decide (pr_sid r ∈ session_sids s)) (pe_purpose (cw_people w)).

Definition purpose (s : Session) (given : option (list Z)) (w : ConnWorld) : result (list Z) ConnProblem :=
  let given := trim (default [] given) in
  if PURPOSE_MAX <? Z.of_nat (length given) then Err (CP (AP_Invalid "purpose"))
  else if bool_decide (given = []) && purpose_required s w then Err CP_PurposeRequired
  else Ok given.

Definition journal_opened (new_id : Uuid) (s : Session) (t : ConnTarget) (text : list Z) : ConnWorld -> ConnWorld :=
  on_journal (fun l => l ++ [{| jr_id := new_id; jr_device := tg_id t; jr_user := user_id s;
                                jr_protocol := tg_protocol t; jr_text := text; jr_ended := None |}]).

Definition journal_closed (now : Z) (entry : Uuid) : ConnWorld -> ConnWorld :=
  on_journal (fmap (fun r => if jr_id r =? entry
    then {| jr_id := jr_id r; jr_device := jr_device r; jr_user := jr_user r; jr_protocol := jr_protocol r;
            jr_text := jr_text r; jr_ended := Some now |} else r)).

(** ** Credentials *)

(** The signed-in user's own account; the kept password is UTF-8. *)
Definition own_account (st : SignIn.Settings) (s : Session) (headers : list (list Z)) (w : ConnWorld) :
    result (result Credentials ConnProblem) ConnProblem :=
  if negb (st_own_account st) || negb (bool_decide (Session.kind s = lit "directory")) then Ok (Err CP_OwnAccountUnavailable)
  else
    match sign_in_password headers (cw_sign w) with
    | None => Ok (Err CP_OwnAccountUnavailable)
    | Some bytes =>
        let? password := ok_or (from_utf8 bytes) (CP AP_Internal) in
        Ok (Ok {| cd_username := username s; cd_domain := []; cd_login := Login_Password password |})
    end.

Definition VALIDITY : Z := 5 * 60.

(** [issue] (ssh_ca.rs), for a principal, a key's name and a validity in
    seconds: a fresh key with its certificate. *)
Definition Ca : Type := list Z -> list Z -> Z -> option PrivateKey.

Definition certificate (ca : option Ca) (s : Session) (t : ConnTarget) : result Credentials ConnProblem :=
  let? issue := ok_or ca CP_SshCaUnavailable in
  let key_id := lit "remotehub " ++ username s ++ lit " device " ++ uuid_text (tg_id t) in
  let? key := ok_or (issue (username s) key_id VALIDITY) (CP AP_Internal) in
  Ok {| cd_username := username s; cd_domain := []; cd_login := Login_Key key |}.

Definition field_of (db : Store) (owner : Uuid) (version : Z) (field : string) : option (list Z) :=
  fields ← s_secrets db !! (owner, version);
  snd <$> List.find (fun kv => bool_decide (kv.1 = field)) fields.

Definition sealed_login (db : Store) (owner : Uuid) (version : Z) (k : SecretKind) : result Login ConnProblem :=
  match k with
  | Kind_Password =>
      let? password := ok_or (field_of db owner version "password") (CP AP_Internal) in Ok (Login_Password password)
  | Kind_SshKey =>
      let? private_key := ok_or (field_of db owner version "private_key") (CP AP_Internal) in
      match ssh_key_parse private_key (field_of db owner version "passphrase") (field_of db owner version "certificate") with
      | Ok key => Ok (Login_Key key)
      | Err _ => Err (CP AP_Internal)
      end
  end.

(** [laps] is what the directory answers for a host, if there is one. *)
Definition credentials (laps : option (list Z -> result LapsPassword LapsError)) (t : ConnTarget)
    (username password : option (list Z)) (w : ConnWorld) : result Credentials ConnProblem :=
  let db := cw_store w in
  match tg_auth_mode t with
  | Auth_Profile =>
      let? id := ok_or (tg_profile t) (CP (AP_Invalid "profile_id")) in
      let? p := ok_or (s_profiles db !! id) (CP AP_Internal) in
      let? login := sealed_login db id (p_secret_version p) (p_secret_kind p) in
      Ok {| cd_username := p_username p; cd_domain := p_domain p; cd_login := login |}
  | Auth_Laps =>
      let? ask := ok_or laps CP_DirectoryUnavailable in
      match ask (tg_host t) with
      | Ok l => Ok {| cd_username := lp_account l; cd_domain := lp_computer l; cd_login := Login_Password (lp_password l) |}
      | Err (LE_Directory AE_Unavailable) => Err CP_DirectoryUnavailable
      | Err _ => Err CP_LapsUnavailable
      end
  | Auth_Device =>
      let? d := ok_or (s_devices db !! tg_id t) (CP AP_Internal) in
      let st := d_settings d in
      let? login := sealed_login db (tg_id t) (d_secret_version d) (d_secret_kind st) in
      Ok {| cd_username := d_username st; cd_domain := d_domain st; cd_login := login |}
  | Auth_Ask =>
      let? name := ok_or (filter_option (fun u => not_empty (trim u)) username) (CP (AP_Invalid "username")) in
      let? word := ok_or password (CP (AP_Invalid "password")) in
      Ok {| cd_username := trim name; cd_domain := []; cd_login := Login_Password word |}
  | Auth_Own | Auth_Certificate => Err (CP (AP_Invalid "auth_mode"))
  end.

End connect.

(** ** The way to the device *)

(** [u16::try_from(port).unwrap_or_default()] *)
Definition port_or (fallback port : Z) : Z := if (0 <=? port) && (port <=? u16_max) then port else fallback.

Definition authority (host : str) (port : Z) : list Z :=
  if bool_decide (58 ∈ host) then [91] ++ host ++ lit "]:" ++ decimal port else host ++ [58] ++ decimal port.

(** [rt_via]: the connector a forward goes through, to which address, and for
    whom. *)
Record Route := { rt_host : list Z; rt_port : Z; rt_via : option (Uuid * list Z * Requester) }.

(** What others answer on the way: the connector's check ([None] if it does
    not answer in time), whether the system has a way to the engine's service,
    and where the forward listens. *)
Record RouteAnswers := { ra_check : option bool; ra_towards : bool; ra_forward : option (list Z * Z) }.

Definition route (service : bool) (user : list Z) (t : ConnTarget) (now : Z) (a : RouteAnswers) (w : ConnWorld) :
    result Route ConnProblem :=
  let port := port_or 0 (tg_port t) in
  match tg_connector t with
  | None => Ok {| rt_host := tg_host t; rt_port := port; rt_via := None |}
  | Some connector =>
      let access := reported connector (now / second) (cw_registry w) in
      if negb (is_online (cw_registry w) connector) then
        Err (if is_some_and (fun r => negb (st_open r) && negb (partly r)) access then CP_ConnectorClosed else CP_ConnectorOffline)
      else if is_some_and partly access && is_some_and negb (ra_check a) then Err CP_ConnectorTargetClosed
      else if service && negb (ra_towards a) then Err CP_ConnectionFailed
      else
        let? (host, p) := ok_or (ra_forward a) CP_ConnectionFailed in
        Ok {| rt_host := host; rt_port := p;
              rt_via := Some (connector, authority (tg_host t) port, {| rq_user := user; rq_device := tg_name t |}) |}
  end.

Inductive AccessState := S_direct | S_open | S_closed | S_offline | S_unknown.

(** [checked] is the connector's answer to the check, if it comes. *)
Definition connector_access `{UuidText} (s : Session) (now : Z) (id : Uuid) (checked : option Checked) (w : ConnWorld) :
    result (AccessState * option (list Z)) ConnProblem :=
  let? t := conn_target s now id [Ssh; Rdp; Vnc; Https] w in
  match tg_connector t with
  | None => Ok (S_direct, None)
  | Some connector =>
      if negb (is_online (cw_registry w) connector) then
        let access := reported connector (now / second) (cw_registry w) in
        Ok (if is_some_and (fun r => negb (st_open r) && negb (partly r)) access then S_closed else S_offline, None)
      else
        match checked with
        | Some a => Ok (if Connectors.open a then (S_open, Connectors.until a) else (S_closed, None))
        | None => Ok (S_unknown, None)
        end
  end.

(** ** Theorems *)

Abbreviation sessions_of w := (pe_sessions (cw_people w)).

(** C26: The directory has the last word on running sessions: who may no longer
    sign in loses all of them, who may has the groups of now in each of them,
    a directory that does not answer changes nothing, and nobody else's
    sessions are touched. *)
Theorem directory_reaches_sessions (ask : Directory) (user : Uuid) (user_sid parsed : list Z) (w w' : ConnWorld) (keeps : bool) :
  sid_from_str user_sid = Some parsed ->
  refresh_user (Some ask) user user_sid w = (keeps, w') ->
  (forall h r, s_user_id r <> user -> sessions_of w' !! h = Some r <-> sessions_of w !! h = Some r)
  /\ match ask parsed with
     | Ok groups => keeps = true
         /\ forall h, match sessions_of w !! h with
                      | Some r => sessions_of w' !! h = Some (if s_user_id r =? user then with_groups groups r else r)
                      | None => sessions_of w' !! h = None
                      end
     | Err AE_Unavailable | Err AE_Directory => keeps = true /\ w' = w
     | Err _ => keeps = false /\ forall h r, sessions_of w' !! h = Some r -> s_user_id r <> user
     end.
Proof.
  intros Hsid. unfold refresh_user. rewrite Hsid.
  assert (Hgone : forall reason, (false, note_conn None user
      (SessionsEndedByDirectory reason (size (filter (fun hr : list Z * SessionRow => s_user_id hr.2 = user) (sessions_of w))))
      (on_world_sessions (filter (fun hr => s_user_id hr.2 <> user)) w)) = (keeps, w') ->
    (forall h r, s_user_id r <> user -> sessions_of w' !! h = Some r <-> sessions_of w !! h = Some r)
    /\ keeps = false /\ forall h r, sessions_of w' !! h = Some r -> s_user_id r <> user).
  { intros reason [= <- <-]. unfold cw_people. cbn. split_and!; [|done|].
    - intros h r Hr. rewrite map_lookup_filter_Some. naive_solver.
    - intros h r. rewrite map_lookup_filter_Some. naive_solver. }
  destruct (ask parsed) as [groups|[]]; try (intros Heq; by apply Hgone in Heq); [|by intros [= <- <-]..].
  intros [= <- <-]. unfold cw_people. cbn. split_and!; [|done|].
  - intros h r Hr. rewrite lookup_fmap. destruct (_ !! h) as [x|]; [|done]. simpl. destruct (s_user_id x =? user) eqn:E; bools; [|done].
    split; intros [= <-]; [done|]. by simpl in Hr.
  - intros h. rewrite lookup_fmap. by destruct (_ !! h).
Qed.

(** Which computer's password is taken: of several only the one whose full name
    the host is. *)
Lemma laps_choose_Ok names host i :
  laps_choose names host = Ok i ->
  (i < length names)%nat
  /\ (length names = 1%nat \/ exists name, names !! i = Some (Some name) /\ same_ascii name (normalize host) = true
        /\ forall j other, names !! j = Some (Some other) -> same_ascii other (normalize host) = true -> j = i).
Proof.
  unfold laps_choose. destruct names as [|n1 [|n2 names]]; [done|intros [= <-]; simpl; lia|]. set (l := n1 :: n2 :: names).
  set (P := fun ix : nat * option (list Z) => is_some_and (fun name => same_ascii name (normalize host)) ix.2 = true).
  assert (Hin : forall j x, (j, x) ∈ filter P (imap (fun i x => (i, x)) l) <-> l !! j = Some x /\ P (j, x)).
  { intros j x. rewrite list_elem_of_filter, elem_of_lookup_imap. naive_solver. }
  destruct (filter P _) as [|[j x] [|]] eqn:E; try done. intros [= <-].
  destruct (proj1 (Hin j x)) as [Hx HP]; [by left|]. split; [by eapply lookup_lt_Some|right].
  unfold P in HP. simpl in HP. destruct x as [name|]; [|done]. exists name. split_and!; try done.
  intros k other Hk Hs. assert (Hkk : (k, Some other) ∈ [(j, Some name)]) by by apply Hin.
  apply list_elem_of_singleton in Hkk. congruence.
Qed.

(** The password of LAPS is one a computer of the directory holds, and among
    several computers the one whose full name the host is and no other's; a
    device named by an address gets none. *)
Theorem laps_password_is_the_hosts `{LapsJson} `{LdapEscape} (search : list Z -> result (list LapsEntry) AuthError)
    (host : list Z) (l : LapsPassword) :
  directory_laps search host = Ok l ->
  parse_ip (normalize host) = None
  /\ exists f entries e, laps_filter host = Some f /\ search f = Ok entries /\ e ∈ entries
       /\ laps_password (le_windows e) (le_legacy e) (default [] (le_account e)) = Some l
       /\ (entries = [e] \/ exists name, le_dns e = Some name /\ same_ascii name (normalize host) = true
            /\ forall e' other, e' ∈ entries -> le_dns e' = Some other -> same_ascii other (normalize host) = true -> e' = e).
Proof.
  unfold directory_laps. destruct (laps_filter host) as [f|] eqn:Hf; [|done]. cbn [ok_or].
  assert (Hip : parse_ip (normalize host) = None).
  { unfold laps_filter in Hf. destruct (parse_ip (normalize host)); [|done]. simpl in Hf. by rewrite orb_true_r in Hf. }
  destruct (search f) as [entries|] eqn:Hs; [|done]. destruct (laps_choose _ _) as [i|] eqn:Hc; [|done].
  destruct (entries !! i) as [e|] eqn:He; [|done].
  destruct (laps_password _ _ _) as [l'|] eqn:Hl; [|done]. intros [= <-]. split; [done|].
  exists f, entries, e. split_and!; try done; [by eapply list_elem_of_lookup_2|].
  apply laps_choose_Ok in Hc as (Hi & Hor). rewrite length_fmap in *. destruct Hor as [H1|(name & Hn & Hsame & Honly)].
  - left. destruct entries as [|x [|]]; try done. by destruct i; [injection He as <-|].
  - right. rewrite list_lookup_fmap, He in Hn. injection Hn as Hn. exists name. split_and!; try done.
    intros e' other [j Hj]%list_elem_of_lookup Hd Ho. specialize (Honly j other). rewrite list_lookup_fmap, Hj in Honly. simpl in Honly.
    rewrite Hd in Honly. specialize (Honly eq_refl Ho). subst j. congruence.
Qed.

(** ** Examples *)

Module ConnectExamples.

#[local] Instance escape_nothing : LdapEscape := fun s => s.
#[local] Instance no_json : LapsJson := fun _ => None.

Definition web01_b : LapsEntry :=
  {| le_dns := Some (lit "web01.b.example"); le_account := Some (lit "WEB01$"); le_windows := None; le_legacy := Some (lit "secret") |}.

Definition web01_password : LapsPassword :=
  {| lp_account := lit "Administrator"; lp_password := lit "secret"; lp_computer := lit "WEB01" |}.

Lemma laps_password_is_the_hosts_witness :
  exists f entries e, laps_filter (lit "WEB01.B.example.") = Some f /\ Ok [web01_b] = Ok entries :> result _ AuthError
    /\ e ∈ entries /\ laps_password (le_windows e) (le_legacy e) (default [] (le_account e)) = Some web01_password.
Proof.
  destruct (laps_password_is_the_hosts (fun _ => Ok [web01_b]) (lit "WEB01.B.example.") web01_password)
    as (_ & f & entries & e & Hf & Hs & He & Hl & _); [vm_compute; reflexivity|]. exists f, entries, e.
  split; [exact Hf|]. split; [exact Hs|]. split; [exact He|exact Hl].
Defined.

(** A device named by its full name also finds the computers of other domains
    whose first label is the same, and if only one of those is in the
    directory, it is taken. *)
Example laps_of_another_domain :
  laps_filter (lit "web01.a.example")
  = Some (lit "(&(objectCategory=computer)(|(dNSHostName=web01.a.example)(dNSHostName=web01.*)))")
  /\ directory_laps (fun _ => Ok [web01_b]) (lit "web01.a.example") = Ok web01_password.
Proof. split; vm_compute; reflexivity. Qed.

(** A session of user 21, whose account the directory has disabled. *)
Definition row : SessionRow :=
  {| s_id := 1; s_user_id := 21; s_groups := []; s_client := lit "web"; last_seen_at := 0; expires_at := minute;
     confirmed_at := None; confirm_failures := 0 |}.
Definition signed_in_world : ConnWorld :=
  {| cw_store := {| s_folders := ∅; s_collections := []; s_credentials := []; s_devices := ∅; s_profiles := ∅;
                    s_connectors := ∅; s_grants := []; s_secrets := ∅; s_log := [] |};
     cw_sign := on_db (on_people (on_sessions (insert (lit "t") row))) SignInExamples.w0;
     cw_registry := connectors_default; cw_journal := []; cw_log := [] |}.
Definition disabled : Directory := fun _ => Err AE_AccountDisabled.
Definition refreshed : bool * ConnWorld := refresh_user (Some disabled) 21 (lit "S-1-5-9") signed_in_world.

Lemma directory_reaches_sessions_witness :
  sessions_of signed_in_world !! lit "t" = Some row /\ refreshed.1 = false /\ sessions_of refreshed.2 !! lit "t" <> Some row.
Proof.
  assert (Hr : refreshed = (false, refreshed.2)) by (vm_compute; reflexivity).
  destruct (directory_reaches_sessions disabled 21 (lit "S-1-5-9") (lit "S-1-5-9") signed_in_world refreshed.2 false
    (eq_refl : sid_from_str (lit "S-1-5-9") = Some (lit "S-1-5-9")) Hr) as (_ & _ & Hgone).
  split; [vm_compute; reflexivity|]. split; [rewrite Hr; reflexivity|]. intros Heq. exact (Hgone _ _ Heq eq_refl).
Defined.

End ConnectExamples.
