(* ===== verification/Display.v ===== *)
(** * Displays in the browser (crates/server/src/api/display.rs, crates/browser/src/protocol.rs)

    RDP, VNC and HTTPS sessions: what is decided before guacd and the browser
    service are asked, what they get, and the relay between the browser and
    guacd. The handler runs in parts, between which others change the tables:
    [display_upgrade] answers the request, [prepare] follows the browser's
    first message, [display_opened] and [display_closed] write down the
    connection. What the network and the services answer is an argument. *)
From S2P Require Import Prelude Text Utf8 Guacamole Handshake Model Session AccessRequests Agent Connectors.
From S2P Require Import Vault Keyring Store Folders Devices Catalog Grants People Webauthn Totp Factors BreakGlass Limiter SignIn Connect.

(** ** The browser's first message *)

Record Start := {
  sr_width : Z;
  sr_height : Z;
  sr_dpi : option Z;
  sr_timezone : option (list Z);
  sr_languages : list (list Z);
  sr_username : option (list Z);
  sr_password : option (list Z);
  sr_purpose : option (list Z)
}.

Definition zone_char (c : Z) : bool := is_ascii_alphanumeric c || (c =? 47) || (c =? 95) || (c =? 45) || (c =? 43).

Definition timezone_name (value : option (list Z)) : option (list Z) :=
  filter_option (fun zone => not_empty zone && (str_len zone <=? 64) && forallb zone_char zone) value.

(** *** Languages (browser/src/protocol.rs) *)

Definition MAX_LANGUAGES : nat := 8.

Definition is_ascii_alphabetic (c : Z) : bool := is_ascii_upper c || is_ascii_lower c.

Definition language_tag (tag : str) : bool :=
  match split 45 tag with
  | [] => false
  | language :: parts =>
      (2 <=? str_len language) && (str_len language <=? 3) && forallb is_ascii_alphabetic language
      && forallb (fun part => (1 <=? str_len part) && (str_len part <=? 8) && forallb is_ascii_alphanumeric part) parts
  end.

Definition languages (values : list (list Z)) : list (list Z) :=
  take MAX_LANGUAGES (filter (fun tag => language_tag tag = true) values).

(** ** What guacd gets *)

Definition parameters (t : ConnTarget) (host port : list Z) (c : Credentials) (password layout certificate : list Z) :
    list (list Z * list Z) :=
  [(lit "hostname", host); (lit "port", port)] ++
  match tg_protocol t with
  | Rdp =>
      let '(domain, user) :=
        match split_once 92 (cd_username c) with
        | Some (domain, user) => if bool_decide (cd_domain c = []) then (domain, user) else (cd_domain c, cd_username c)
        | None => (cd_domain c, cd_username c)
        end in
      [(lit "username", user); (lit "password", password); (lit "domain", domain); (lit "security", lit "any");
       (lit "cert-fingerprints", certificate); (lit "client-name", lit "remotehub");
       (lit "server-layout", default layout (tg_layout t)); (lit "resize-method", lit "display-update");
       (lit "disable-audio", lit "true"); (lit "disable-download", lit "true"); (lit "disable-upload", lit "true")]
  | _ => [(lit "username", cd_username c); (lit "password", password)]
  end.

Definition clamp (v lo hi : Z) : Z := Z.max lo (Z.min v hi).

Definition protocol_text (p : Protocol) : list Z :=
  match p with Ssh => lit "ssh" | Rdp => lit "rdp" | Vnc => lit "vnc" | Https => lit "https" end.

(** What the browser service is asked for, and what it answers. *)
Record BrowserRequest := {
  br_host : list Z;
  br_port : Z;
  br_via : option (list Z);
  br_spki : list Z;
  br_width : Z;
  br_height : Z;
  br_timezone : option (list Z);
  br_languages : list (list Z);
  br_login : list Z * list Z
}.

Record BrowserDisplay := { bd_host : list Z; bd_port : Z; bd_password : list Z }.

(** [BrowserError]: the service's reason, or that it did not answer. *)
Inductive BrowserError := BE_Failed (reason : list Z) | BE_Other.

Definition browser_reason (e : BrowserError) : list Z :=
  match e with BE_Failed reason => lit "browser_" ++ reason | BE_Other => lit "browser_unreachable" end.

Inductive ProbeError := PE_NoTls | PE_Unreachable | PE_Timeout | PE_Protocol | PE_Tls.

Definition probe_problem (e : ProbeError) : ConnProblem :=
  match e with
  | PE_NoTls => CP_TlsRequired
  | PE_Unreachable | PE_Timeout => CP_TargetUnreachable
  | PE_Protocol | PE_Tls => CP_ConnectionFailed
  end.

(** The answers of a connection: the first message, LAPS, the two ways to the
    device, the certificate it presents (for HTTPS with its public key), and
    the browser service. *)
Record DisplayAnswers := {
  da_start : option Start;
  da_laps : option (list Z -> result LapsPassword LapsError);
  da_probe_route : RouteAnswers;
  da_rdp : result (list Z) ProbeError;
  da_https : result (list Z * list Z) ProbeError;
  da_route : RouteAnswers;
  da_browser : result BrowserDisplay BrowserError
}.

(** What a connection opens with. *)
Record Opening := {
  op_browser : option BrowserRequest;
  op_handshake : Handshake;
  op_route : Route;
  op_username : list Z;
  op_purpose : list Z;
  op_certificate : option (list Z)
}.

(** [fail] *)
Definition fail_display (s : Session) (t : ConnTarget) (reason : FailReason) (p : ConnProblem) (w : ConnWorld) :
    result Opening ConnProblem * ConnWorld :=
  (Err p, note_conn (Some (user_id s)) (tg_id t) (ConnectionFailed reason) w).

Section display.
Context `{UuidText} `{Session.Sha256} `{Base64Url} `{Aead} `{SshKeys}.

(** ** Answering the request *)

(** [Session] as the handlers take it. *)
Definition conn_request (st : SignIn.Settings) (now : Z) (headers : list (list Z)) (background : bool) (w : ConnWorld) :
    result Session ConnProblem * ConnWorld :=
  let '(found, db) := from_request_parts (session_db (cw_people w)) now headers background (st_idle st) in
  let w := on_world_sessions (fun _ => sessions db) w in
  match found with
  | Ok s => (Ok s, w)
  | Err p => (Err (CP_Session p), w)
  end.

Definition with_upn (s : Session) (t : ConnTarget) (c : Credentials) : Credentials :=
  match upn s with
  | Some upn => if bool_decide (tg_protocol t = Https) then c
                else {| cd_username := upn; cd_domain := cd_domain c; cd_login := cd_login c |}
  | None => c
  end.

(** The own account of a target that asks for it. *)
Definition own_for (st : SignIn.Settings) (s : Session) (t : ConnTarget) (headers : list (list Z)) (w : ConnWorld) :
    result (option (result Credentials ConnProblem)) ConnProblem :=
  if bool_decide (tg_auth_mode t = Auth_Own) then let? own := own_account st s headers w in Ok (Some own) else Ok None.

Definition conn_upgrade (protocols : list Protocol) (st : SignIn.Settings) (directory : option Directory) (now : Z)
    (headers : list (list Z)) (origin : option (list Z)) (id : Uuid) (w : ConnWorld) :
    result (Session * ConnTarget * option (result Credentials ConnProblem)) ConnProblem * ConnWorld :=
  match conn_request st now headers false w with
  | (Err p, w) => (Err p, w)
  | (Ok s, w) =>
      match same_origin origin (st_origin st) with
      | Err p => (Err p, w)
      | Ok _ =>
          match before_connecting directory now (st_idle st) s w with
          | (Err p, w) => (Err p, w)
          | (Ok s, w) =>
              (let? t := conn_target s now id protocols w in
               let? own := own_for st s t headers w in
               Ok (s, t, own), w)
          end
      end
  end.

Definition display_upgrade (st : SignIn.Settings) (directory : option Directory) (now : Z)
    (headers : list (list Z)) (origin : option (list Z)) (id : Uuid) (w : ConnWorld) :
    result (Session * ConnTarget * option (result Credentials ConnProblem)) ConnProblem * ConnWorld :=
  match conn_upgrade [Rdp; Vnc; Https] st directory now headers origin id w with
  | (Ok (s, t, own), w) => (Ok (s, t, (fun r => match r with Ok c => Ok (with_upn s t c) | Err p => Err p end) <$> own), w)
  | (Err p, w) => (Err p, w)
  end.

(** ** Preparing the connection *)

Definition display_credentials (t : ConnTarget) (own : option (result Credentials ConnProblem)) (a : DisplayAnswers)
    (start : Start) (w : ConnWorld) : result Credentials ConnProblem :=
  let? c := match own with
            | Some own => own
            | None =>
                if bool_decide (tg_protocol t = Vnc) && bool_decide (tg_auth_mode t = Auth_Ask) then
                  let? password := ok_or (sr_password start) (CP (AP_Invalid "password")) in
                  Ok {| cd_username := trim (default [] (sr_username start)); cd_domain := [];
                        cd_login := Login_Password password |}
                else credentials (da_laps a) t (sr_username start) (sr_password start) w
            end in
  match cd_login c with
  | Login_Key _ => Err (CP (AP_Invalid "profile_id"))
  | Login_Password _ => Ok c
  end.

(** The certificate the device presents and, for HTTPS, its public key. *)
Definition probed (t : ConnTarget) (user : list Z) (now : Z) (a : DisplayAnswers) (w : ConnWorld) :
    result (option (list Z * option (list Z))) ConnProblem :=
  let? presented :=
    match tg_protocol t with
    | Rdp =>
        let? _ := route false user t now (da_probe_route a) w in
        match da_rdp a with Ok f => Ok (Some (f, None)) | Err e => Err (probe_problem e) end
    | Https =>
        let? _ := route false user t now (da_probe_route a) w in
        match da_https a with Ok (f, spki) => Ok (Some (f, Some spki)) | Err e => Err (probe_problem e) end
    | _ => Ok None
    end in
  match presented, tg_certificate t with
  | Some (f, _), Some pinned => if negb (bool_decide (pinned = f)) then Err (CP_CertificateChanged pinned f) else Ok presented
  | _, _ => Ok presented
  end.

Definition password_of (c : Credentials) : list Z := match cd_login c with Login_Password p => p | Login_Key _ => [] end.

(** [layout] is the server's keyboard layout for RDP. *)
Definition prepare (layout : list Z) (now : Z) (s : Session) (t : ConnTarget) (own : option (result Credentials ConnProblem))
    (a : DisplayAnswers) (w : ConnWorld) : result Opening ConnProblem * ConnWorld :=
  match da_start a with
  | None => (Err CP_InvalidRequest, w)
  | Some start =>
      if tg_confirmation t && negb (confirmed s) then (Err (CP_Session ConfirmationRequired), w)
      else
        match purpose s (sr_purpose start) w with
        | Err p => (Err p, w)
        | Ok stated =>
            match display_credentials t own a start w with
            | Err p => (Err p, w)
            | Ok c =>
                match probed t (username s) now a w with
                | Err p => fail_display s t (R_problem p) p w
                | Ok found =>
                    let spki := found ≫= snd in
                    let zone := timezone_name (sr_timezone start) in
                    match route true (username s) t now (da_route a) w with
                    | Err p => fail_display s t (R_problem p) p w
                    | Ok r =>
                        let request := (fun spki =>
                          {| br_host := tg_host t; br_port := port_or 0 (tg_port t);
                             br_via := (fun _ => authority (rt_host r) (rt_port r)) <$> rt_via r; br_spki := spki;
                             br_width := sr_width start; br_height := sr_height start; br_timezone := zone;
                             br_languages := languages (sr_languages start);
                             br_login := (cd_username c, password_of c) |}) <$> spki in
                        let browser := match request with
                                       | None => Ok None
                                       | Some _ => match da_browser a with Ok b => Ok (Some b) | Err e => Err e end
                                       end in
                        match browser with
                        | Err e => fail_display s t (R_text (browser_reason e)) CP_ConnectionFailed w
                        | Ok display =>
                            (Ok {| op_browser := request;
                                   op_handshake :=
                                     {| Handshake.protocol := if is_some display then lit "vnc" else protocol_text (tg_protocol t);
                                        Handshake.parameters :=
                                          match display with
                                          | Some b => [(lit "hostname", bd_host b); (lit "port", decimal (bd_port b));
                                                       (lit "password", bd_password b)]
                                          | None => parameters t (rt_host r) (decimal (rt_port r)) c (password_of c) layout
                                                      (default [] ((fun f => lit "sha256:" ++ f.1) <$> found))
                                          end;
                                        width := clamp (sr_width start) 320 8192;
                                        height := clamp (sr_height start) 200 8192;
                                        dpi := clamp (default 96 (sr_dpi start)) 48 384;
                                        timezone := zone |};
                                   op_route := r; op_username := cd_username c; op_purpose := stated;
                                   op_certificate := fst <$> found |}, w)
                        end
                    end
                end
            end
        end
  end.

End display.

(** ** Opening and closing *)

(** [guacd_reason] *)
Definition guacd_reason (e : GuacError) : list Z :=
  match e with
  | Guacamole.Unreachable => lit "guacd_unreachable"
  | Guacamole.Timeout => lit "guacd_timeout"
  | Guacamole.Refused _ status => lit "guacd_refused_" ++ decimal status
  | _ => lit "guacd_protocol"
  end.

Definition pin_certificate (s : Session) (t : ConnTarget) (fingerprint : list Z) (w : ConnWorld) : bool * ConnWorld :=
  match s_devices (cw_store w) !! tg_id t with
  | Some d =>
      if is_some (certificate_fingerprint (d_pins d)) then (false, w)
      else (true, note_conn (Some (user_id s)) (tg_id t) (CertificatePinned fingerprint)
              (on_store (with_devices (insert (tg_id t)
                 (set_pins {| host_key := host_key (d_pins d); certificate_fingerprint := Some fingerprint |} d))) w))
  | None => (false, w)
  end.

(** [run] after [prepare], up to the relay: guacd is unreachable, or [chunks] is
    what its socket delivers. [new_id] is the journal entry's. *)
Definition open_display (new_id : Uuid) (s : Session) (t : ConnTarget) (o : Opening) (guacd : result (list (list Z)) GuacError)
    (w : ConnWorld) : result (Connection * bool) ConnProblem * ConnWorld :=
  match (match guacd with Ok chunks => (open_now (op_handshake o) chunks).2 | Err e => Err e end) with
  | Err e =>
      (Err CP_ConnectionFailed, note_conn (Some (user_id s)) (tg_id t) (ConnectionFailed (R_text (guacd_reason e))) w)
  | Ok connection =>
      let w := note_conn (Some (user_id s)) (tg_id t) (ConnectionOpened (op_username o) (op_purpose o)) w in
      let w := journal_opened new_id s t (op_purpose o) w in
      match op_certificate o, tg_certificate t with
      | Some fingerprint, None => let '(pinned, w) := pin_certificate s t fingerprint w in (Ok (connection, pinned), w)
      | _, _ => (Ok (connection, false), w)
      end
  end.

Definition display_closed (now : Z) (entry : Uuid) (s : Session) (t : ConnTarget) (w : ConnWorld) : ConnWorld :=
  note_conn (Some (user_id s)) (tg_id t) ConnectionClosed (journal_closed now entry w).

(** ** The relay *)

Record Outcome := {
  oc_sent : Z;
  oc_received : Z;
  oc_dropped : Z;
  oc_error : option (list Z * list Z);
  oc_signed_in : option bool
}.

Definition outcome_default : Outcome :=
  {| oc_sent := 0; oc_received := 0; oc_dropped := 0; oc_error := None; oc_signed_in := None |}.

(** What the relay keeps while it reads a frame: the parser's buffer, the
    session's activity with the tables it asks, what was dropped, and what is
    forwarded. *)
Record Frame := { fr_buffer : list Z; fr_activity : Activity; fr_db : Db; fr_dropped : Z; fr_forward : list Z }.

Definition with_buffer (b : list Z) (f : Frame) : Frame :=
  {| fr_buffer := b; fr_activity := fr_activity f; fr_db := fr_db f; fr_dropped := fr_dropped f; fr_forward := fr_forward f |}.

(** One instruction of the browser: forwarded or dropped. *)
Definition pass (now : Z) (reachable : bool) (f : Frame) (i : Instruction) : Frame :=
  let drop f := {| fr_buffer := fr_buffer f; fr_activity := fr_activity f; fr_db := fr_db f;
                   fr_dropped := fr_dropped f + 1; fr_forward := fr_forward f |} in
  let keep f := {| fr_buffer := fr_buffer f; fr_activity := fr_activity f; fr_db := fr_db f;
                   fr_dropped := fr_dropped f; fr_forward := fr_forward f ++ Guacamole.encode i |} in
  if allowed_from_browser (opcode i) then
    if is_input (opcode i) then
      let '(open, activity, db) := input (fr_activity f) (fr_db f) now reachable in
      let f := {| fr_buffer := fr_buffer f; fr_activity := activity; fr_db := db; fr_dropped := fr_dropped f;
                  fr_forward := fr_forward f |} in
      if open then keep f else drop f
    else keep f
  else drop f.

(** The inner loop; an error of the parser ends the relay. A whole instruction
    takes a byte at least. *)
Fixpoint frame_loop (fuel : nat) (now : Z) (reachable : bool) (f : Frame) : result Frame Frame :=
  match fuel with
  | O => Ok f
  | S fuel =>
      match next_instruction (fr_buffer f) with
      | Err _ => Err f
      | Ok (None, b) => Ok (with_buffer b f)
      | Ok (Some i, b) => frame_loop fuel now reachable (pass now reachable (with_buffer b f) i)
      end
  end.

Definition read_frame (now : Z) (reachable : bool) (text : str) (f : Frame) : result Frame Frame :=
  let b := push (fr_buffer f) (utf8 text) in
  frame_loop (S (length b)) now reachable (with_buffer b f).

(** The last [error] of a text of whole instructions. *)
Fixpoint last_error_loop (fuel : nat) (b : list Z) (last : option (list Z * list Z)) : option (list Z * list Z) :=
  match fuel with
  | O => last
  | S fuel =>
      match next_instruction b with
      | Ok (Some i, b) =>
          last_error_loop fuel b
            (if bool_decide (opcode i = lit "error")
             then Some (default [] (args i !! 0%nat), default [] (args i !! 1%nat)) else last)
      | _ => last
      end
  end.

Definition last_error (text : str) : option (list Z * list Z) :=
  last_error_loop (S (length (utf8 text))) (utf8 text) None.

Inductive BrowserReply := RP_Filled | RP_NotFilled (reason : list Z) | RP_Other.

(** What [select!] takes next: the browser service, a frame of the browser at
    a time, or guacd; [sent] tells whether what follows from it could be sent.
    A frame is handled at one time. *)
Inductive RelayEvent :=
| E_service (r : option BrowserReply)
| E_text (now : Z) (reachable : bool) (text : list Z) (sent : bool)
| E_other
| E_closed
| E_guacd (r : option (list Z)) (sent : bool).

Record RelayState := {
  rl_buffer : list Z;
  rl_activity : Activity;
  rl_db : Db;
  rl_outcome : Outcome;
  rl_to_guacd : list (list Z);
  rl_to_browser : list (list Z)
}.

Definition with_outcome (o : Outcome) (r : RelayState) : RelayState :=
  {| rl_buffer := rl_buffer r; rl_activity := rl_activity r; rl_db := rl_db r; rl_outcome := o;
     rl_to_guacd := rl_to_guacd r; rl_to_browser := rl_to_browser r |}.

Definition signed (b : bool) (o : Outcome) : Outcome :=
  {| oc_sent := oc_sent o; oc_received := oc_received o; oc_dropped := oc_dropped o; oc_error := oc_error o;
     oc_signed_in := Some b |}.

(** A round of the relay, and whether it goes on. *)
Definition relay_step (e : RelayEvent) (r : RelayState) : bool * RelayState :=
  let o := rl_outcome r in
  match e with
  | E_service None => (false, r)
  | E_service (Some RP_Filled) => (true, with_outcome (signed true o) r)
  | E_service (Some (RP_NotFilled _)) => (true, with_outcome (signed false o) r)
  | E_service (Some RP_Other) | E_other => (true, r)
  | E_closed => (false, r)
  | E_text now reachable text sent =>
      let start := {| fr_buffer := rl_buffer r; fr_activity := rl_activity r; fr_db := rl_db r;
                      fr_dropped := oc_dropped o; fr_forward := [] |} in
      let read f outcome to_guacd :=
        {| rl_buffer := fr_buffer f; rl_activity := fr_activity f; rl_db := fr_db f; rl_outcome := outcome;
           rl_to_guacd := to_guacd; rl_to_browser := rl_to_browser r |} in
      let counted f size :=
        {| oc_sent := oc_sent o + size; oc_received := oc_received o; oc_dropped := fr_dropped f; oc_error := oc_error o;
           oc_signed_in := oc_signed_in o |} in
      match read_frame now reachable text start with
      | Err f => (false, read f (counted f 0) (rl_to_guacd r))
      | Ok f =>
          let forward := fr_forward f in
          if bool_decide (forward = []) then (true, read f (counted f 0) (rl_to_guacd r))
          else (sent, read f (counted f (str_len forward)) (if sent then rl_to_guacd r ++ [forward] else rl_to_guacd r))
      end
  | E_guacd None _ => (false, r)
  | E_guacd (Some text) sent =>
      let error := if contains_text (lit "5.error,") text
                   then match last_error text with Some e => Some e | None => oc_error o end else oc_error o in
      let outcome := {| oc_sent := oc_sent o; oc_received := oc_received o + str_len text; oc_dropped := oc_dropped o;
                        oc_error := error; oc_signed_in := oc_signed_in o |} in
      (sent, {| rl_buffer := rl_buffer r; rl_activity := rl_activity r; rl_db := rl_db r; rl_outcome := outcome;
                rl_to_guacd := rl_to_guacd r;
                rl_to_browser := if sent then rl_to_browser r ++ [text] else rl_to_browser r |})
  end.

(** The events the relay takes until it ends. *)
Fixpoint relay (es : list RelayEvent) (r : RelayState) : RelayState :=
  match es with
  | [] => r
  | e :: es => match relay_step e r with (true, r) => relay es r | (false, r) => r end
  end.

Definition relay_start (a : Activity) (db : Db) : RelayState :=
  {| rl_buffer := []; rl_activity := a; rl_db := db; rl_outcome := outcome_default; rl_to_guacd := []; rl_to_browser := [] |}.

(** ** Theorems *)

Section theorems.
Context `{UuidText} `{Session.Sha256} `{Base64Url} `{Aead} `{SshKeys}.

(** Who may have a connection prepared, and for which device. *)
Definition may_connect (st : SignIn.Settings) (directory : option Directory) (now : Z) (headers : list (list Z))
    (origin : option (list Z)) (id : Uuid) (w w1 : ConnWorld) (s : Session) (t : ConnTarget) : Prop :=
  (exists o, origin = Some o /\ same_ascii o (st_origin st) = true)
  /\ (exists s0 db, from_request_parts (session_db (cw_people w)) now headers false (st_idle st) = (Ok s0, db)
        /\ (s = s0 /\ sid s0 = None
            \/ (exists sid0 w0, sid s0 = Some sid0
                /\ refresh_user directory (user_id s0) sid0 w0 = (true, w1)
                /\ conn_session now (st_idle st) (token_hash s0) w1 = Some s)))
  /\ (exists d, s_devices (cw_store w1) !! id = Some d /\ t = target_of (cw_store w1) id d)
  /\ authorize (catalog_of (cw_store w1) now) (subject s) Role_Connect (Device id) = true.

Lemma conn_target_Ok s now id ps w t :
  conn_target s now id ps w = Ok t ->
  (exists d, s_devices (cw_store w) !! id = Some d /\ t = target_of (cw_store w) id d) /\ tg_protocol t ∈ ps
  /\ authorize (catalog_of (cw_store w) now) (subject s) Role_Connect (Device id) = true.
Proof.
  unfold conn_target, authorize. destruct (effective_role _ _ _) as [r|]; [|done].
  destruct (role_leb Role_Connect r) eqn:Hr; [|done]. cbn [negb].
  destruct (s_devices (cw_store w) !! id) as [d|]; [|done]. cbn [ok_or].
  destruct (bool_decide _) eqn:Hp; [|done]. intros [= <-]. bools. split; [by exists d|done].
Qed.

Lemma conn_upgrade_Ok ps st directory now headers origin id w s t own w1 :
  conn_upgrade ps st directory now headers origin id w = (Ok (s, t, own), w1) ->
  may_connect st directory now headers origin id w w1 s t /\ tg_protocol t ∈ ps
  /\ own_for st s t headers w1 = Ok own.
Proof.
  unfold conn_upgrade, conn_request. destruct (from_request_parts _ _ _ _ _) as [[s0|] db] eqn:Hreq; [|done].
  unfold same_origin. destruct origin as [o|]; [|done]. destruct (same_ascii o _) eqn:Ho; [|done].
  unfold before_connecting. set (w0 := on_world_sessions _ w).
  assert (Hend : forall s' w', (let? t := conn_target s' now id ps w' in let? own := own_for st s' t headers w' in Ok (s', t, own), w') = (Ok (s, t, own), w1) ->
    s' = s /\ w' = w1 /\ conn_target s now id ps w1 = Ok t /\ own_for st s t headers w1 = Ok own).
  { intros s' w' [= Heq ->]. destruct (conn_target s' now id ps w1) as [t'|] eqn:Ht; [|done].
    destruct (own_for st s' t' headers w1) as [own'|] eqn:Hown; [|done]. by injection Heq as <- <- <-. }
  destruct (sid s0) as [sid0|] eqn:Hsid.
  - destruct (refresh_user directory (user_id s0) sid0 w0) as [[|] w'] eqn:Hr; [|done].
    destruct (conn_session _ _ _ w') as [s'|] eqn:Hs; cbn [ok_or]; [|done].
    intros (-> & -> & (Hd & Hp & Ha)%conn_target_Ok & Hown)%Hend. split_and!; try done.
    split_and!; [by exists o| |done|done]. exists s0, db. split; [done|right]. by exists sid0, w0.
  - intros (-> & <- & (Hd & Hp & Ha)%conn_target_Ok & Hown)%Hend. split_and!; try done.
    split_and!; [by exists o| |done|done]. exists s, db. split; [done|by left].
Qed.

Lemma probed_Ok t user now a w found :
  probed t user now a w = Ok found ->
  match tg_protocol t with
  | Rdp => exists f, da_rdp a = Ok f /\ found = Some (f, None)
  | Https => exists f spki, da_https a = Ok (f, spki) /\ found = Some (f, Some spki)
  | _ => found = None
  end
  /\ forall f pinned, fst <$> found = Some f -> tg_certificate t = Some pinned -> pinned = f.
Proof.
  unfold probed. destruct (match tg_protocol t with Rdp => _ | _ => _ end) as [presented|] eqn:Hp; [|done].
  intros Hf. assert (presented = found /\ forall f pinned, fst <$> found = Some f -> tg_certificate t = Some pinned -> pinned = f) as [<- Hpin].
  { destruct presented as [[f k]|]; [|by injection Hf as <-].
    destruct (tg_certificate t) as [pinned|]; [|by injection Hf as <-].
    destruct (bool_decide (pinned = f)) eqn:E; [|done]. injection Hf as <-. bools. split; [done|]. naive_solver. }
  split; [|done]. destruct (tg_protocol t); [by injection Hp as <-| |by injection Hp as <-|];
    destruct (route _ _ _ _ _ _); try done; cbn match in Hp.
  - destruct (da_rdp a) as [f|]; [|done]. injection Hp as <-. by exists f.
  - destruct (da_https a) as [[f k]|]; [|done]. injection Hp as <-. by exists f, k.
Qed.

Lemma prepare_Ok layout now s t own a w o w' :
  prepare layout now s t own a w = (Ok o, w') ->
  w' = w /\ exists start c found r, da_start a = Some start /\ (tg_confirmation t = true -> confirmed s = true)
    /\ purpose s (sr_purpose start) w = Ok (op_purpose o) /\ display_credentials t own a start w = Ok c
    /\ probed t (username s) now a w = Ok found /\ route true (username s) t now (da_route a) w = Ok r
    /\ op_route o = r /\ op_certificate o = fst <$> found /\ op_username o = cd_username c
    /\ match found ≫= snd with
       | None => op_browser o = None
           /\ Handshake.parameters (op_handshake o)
              = parameters t (rt_host r) (decimal (rt_port r)) c (password_of c) layout
                  (default [] ((fun f => lit "sha256:" ++ f.1) <$> found))
       | Some spki => exists b q, da_browser a = Ok b /\ op_browser o = Some q
           /\ br_host q = tg_host t /\ br_spki q = spki /\ br_via q = (fun _ => authority (rt_host r) (rt_port r)) <$> rt_via r
           /\ br_languages q = languages (sr_languages start) /\ br_login q = (cd_username c, password_of c)
           /\ Handshake.parameters (op_handshake o)
              = [(lit "hostname", bd_host b); (lit "port", decimal (bd_port b)); (lit "password", bd_password b)]
       end.
Proof.
  unfold prepare. destruct (da_start a) as [start|]; [|done].
  destruct (tg_confirmation t && negb (confirmed s)) eqn:Hc; [done|].
  destruct (purpose s _ w) as [stated|] eqn:Hp; [|done].
  destruct (display_credentials t own a start w) as [c|] eqn:Hcr; [|done].
  destruct (probed _ _ _ _ _) as [found|] eqn:Hf; [|done].
  destruct (route _ _ _ _ _ _) as [r|] eqn:Hr; [|done].
  assert (Hconf : tg_confirmation t = true -> confirmed s = true)
    by (intros Ht; rewrite Ht in Hc; simpl in Hc; by apply negb_false_iff in Hc).
  destruct (found ≫= snd) as [spki|] eqn:Hk; cbn [fmap option_fmap option_map].
  - destruct (da_browser a) as [b|] eqn:Hb; [|done]. intros [= <- <-]. split; [done|].
    exists start, c, found, r. split_and!; try done. rewrite Hk. by eexists b, _.
  - intros [= <- <-]. split; [done|]. exists start, c, found, r. split_and!; try done. rewrite Hk. done.
Qed.

Lemma purpose_Ok s given w stated : purpose s given w = Ok stated -> purpose_required s w = true -> stated <> [].
Proof.
  unfold purpose. destruct (_ <? _); [done|]. destruct (bool_decide (_ = [])) eqn:E; bools.
  - destruct (purpose_required s w); [done|]. done.
  - by intros [= <-].
Qed.

(** C3: A display opens only for a request from the server's own pages, in a
    browser's session that the directory was asked about just before and still
    grants, of a user who may connect to the device; only after the
    confirmation and the purpose that are asked for; and only if the device
    shows the pinned certificate, if one is pinned. *)
Theorem display_opens_only_with_everything (st : SignIn.Settings) (directory : option Directory) (now : Z)
    (headers : list (list Z)) (origin : option (list Z)) (id : Uuid) (w w1 : ConnWorld) (s : Session) (t : ConnTarget)
    (own : option (result Credentials ConnProblem)) (layout : list Z) (now2 : Z) (a : DisplayAnswers) (w2 w3 : ConnWorld)
    (o : Opening) :
  display_upgrade st directory now headers origin id w = (Ok (s, t, own), w1) ->
  prepare layout now2 s t own a w2 = (Ok o, w3) ->
  may_connect st directory now headers origin id w w1 s t
  /\ (tg_confirmation t = true -> confirmed s = true)
  /\ (purpose_required s w2 = true -> op_purpose o <> [])
  /\ match tg_protocol t with
     | Rdp => exists f, da_rdp a = Ok f /\ op_certificate o = Some f
         /\ connect_value (op_handshake o) (lit "cert-fingerprints") = lit "sha256:" ++ f
         /\ (forall pinned, tg_certificate t = Some pinned -> pinned = f)
     | Https => exists f spki q, da_https a = Ok (f, spki) /\ op_certificate o = Some f
         /\ op_browser o = Some q /\ br_spki q = spki
         /\ (forall pinned, tg_certificate t = Some pinned -> pinned = f)
     | p => p = Vnc
     end.
Proof.
  unfold display_upgrade. destruct (conn_upgrade _ _ _ _ _ _ _ _) as [[[[s' t'] own']|] w'] eqn:Hup; [|done].
  intros [= -> -> _ ->]. apply conn_upgrade_Ok in Hup as (Hmay & Hproto & _).
  intros (-> & start & c & found & r & _ & Hconf & Hpur & _ & Hf & _ & _ & Hcert & _ & Hgets)%prepare_Ok.
  apply probed_Ok in Hf as [Hf Hpin]. split_and!; try done; [by eapply purpose_Ok|].
  destruct (tg_protocol t) eqn:Ht.
  - set_solver.
  - destruct Hf as (f & Hf & ->). simpl in *. exists f. destruct Hgets as [_ Hps]. split_and!; try done; [|naive_solver].
    unfold connect_value, parameter_value. rewrite Hps. unfold parameters. rewrite Ht.
    destruct (match split_once 92 _ with Some _ => _ | None => _ end) as [domain user]. reflexivity.
  - done.
  - destruct Hf as (f & spki & Hf & ->). simpl in *. destruct Hgets as (b & q & _ & Hq & _ & Hk & _).
    exists f, spki, q. split_and!; try done. naive_solver.
Qed.

Lemma route_Ok service user t now a w r :
  route service user t now a w = Ok r ->
  match tg_connector t with
  | None => r = {| rt_host := tg_host t; rt_port := port_or 0 (tg_port t); rt_via := None |}
  | Some k => is_online (cw_registry w) k = true
      /\ (is_some_and partly (reported k (now / second) (cw_registry w)) = true -> ra_check a <> Some false)
      /\ rt_via r = Some (k, authority (tg_host t) (port_or 0 (tg_port t)), {| rq_user := user; rq_device := tg_name t |})
      /\ ra_forward a = Some (rt_host r, rt_port r)
  end.
Proof.
  unfold route. destruct (tg_connector t) as [k|]; [|by intros [= <-]].
  destruct (is_online _ k); [|done]. cbn [negb]. destruct (is_some_and partly _ && _) eqn:E; [done|].
  destruct (service && _); [done|]. destruct (ra_forward a) as [[h p]|]; [|done]. intros [= <-]. split_and!; try done.
  intros Hp Hc. by rewrite Hp, Hc in E.
Qed.

(** A login goes to its device only: guacd and the browser service are
    pointed at the device's own address, or at a forward through exactly the
    connector the device is behind, which is online and did not say that the
    device is closed; and for a web interface guacd gets nothing of the login. *)
Theorem login_goes_to_the_device (layout : list Z) (now : Z) (s : Session) (t : ConnTarget)
    (own : option (result Credentials ConnProblem)) (a : DisplayAnswers) (w w' : ConnWorld) (o : Opening) :
  prepare layout now s t own a w = (Ok o, w') ->
  match tg_connector t with
  | None => op_route o = {| rt_host := tg_host t; rt_port := port_or 0 (tg_port t); rt_via := None |}
  | Some k => is_online (cw_registry w) k = true
      /\ (is_some_and partly (reported k (now / second) (cw_registry w)) = true -> ra_check (da_route a) <> Some false)
      /\ rt_via (op_route o) = Some (k, authority (tg_host t) (port_or 0 (tg_port t)),
                                    {| rq_user := username s; rq_device := tg_name t |})
  end
  /\ match op_browser o with
     | None => connect_value (op_handshake o) (lit "hostname") = rt_host (op_route o)
         /\ connect_value (op_handshake o) (lit "port") = decimal (rt_port (op_route o))
     | Some q => br_host q = tg_host t
         /\ br_via q = (fun _ => authority (rt_host (op_route o)) (rt_port (op_route o))) <$> rt_via (op_route o)
         /\ exists b, da_browser a = Ok b /\ Handshake.parameters (op_handshake o)
              = [(lit "hostname", bd_host b); (lit "port", decimal (bd_port b)); (lit "password", bd_password b)]
     end.
Proof.
  intros (-> & start & c & found & r & _ & _ & _ & _ & _ & Hr & -> & _ & _ & Hgets)%prepare_Ok.
  apply route_Ok in Hr. split; [destruct (tg_connector t); [|done]; naive_solver|].
  destruct (found ≫= snd) as [spki|].
  - destruct Hgets as (b & q & Hb & -> & Hh & _ & Hv & _ & _ & Hps). split_and!; try done. by exists b.
  - destruct Hgets as [-> Hps]. unfold connect_value, parameter_value. rewrite Hps. split; reflexivity.
Qed.

(** *** The relay *)

(** The reference: which of a list of whole instructions pass, one after the other. *)
Fixpoint lets (now : Z) (reachable : bool) (a : Activity) (db : Db) (l : list Instruction) :
    list Instruction * Activity * Db :=
  match l with
  | [] => ([], a, db)
  | i :: l =>
      if allowed_from_browser (opcode i) then
        if is_input (opcode i) then
          let '(open, a, db) := input a db now reachable in
          let '(kept, a, db) := lets now reachable a db l in
          (if open then i :: kept else kept, a, db)
        else let '(kept, a, db) := lets now reachable a db l in (i :: kept, a, db)
      else lets now reachable a db l
  end.

Fixpoint lets_groups (gs : list (Z * bool * list Instruction)) (a : Activity) (db : Db) : list Instruction :=
  match gs with
  | [] => []
  | (now, reachable, l) :: gs =>
      let '(kept, a, db) := lets now reachable a db l in kept ++ lets_groups gs a db
  end.

Lemma fold_pass now reachable f l :
  let '(kept, a, db) := lets now reachable (fr_activity f) (fr_db f) l in
  foldl (pass now reachable) f l
  = {| fr_buffer := fr_buffer f; fr_activity := a; fr_db := db;
       fr_dropped := fr_dropped f + Z.of_nat (length l) - Z.of_nat (length kept);
       fr_forward := fr_forward f ++ stream_text kept |}.
Proof.
  revert f. induction l as [|i l IH]; intros f; [simpl; rewrite app_nil_r, Z.add_0_r, Z.sub_0_r; by destruct f|].
  cbn [foldl lets]. unfold pass at 2. unfold stream_text. destruct (allowed_from_browser (opcode i)).
  - destruct (is_input (opcode i)).
    + destruct (input _ _ now reachable) as [[[|] a] db].
      * set (f' := Build_Frame _ _ _ _ _). specialize (IH f'). simpl in IH.
        destruct (lets now reachable a db l) as [[kept a'] db']. rewrite IH. rewrite bind_cons, app_assoc. f_equal. simpl. lia.
      * set (f' := Build_Frame _ _ _ _ _). specialize (IH f'). simpl in IH.
        destruct (lets now reachable a db l) as [[kept a'] db']. rewrite IH. f_equal. simpl. lia.
    + set (f' := Build_Frame _ _ _ _ _). specialize (IH f'). simpl in IH.
      destruct (lets now reachable _ _ l) as [[kept a'] db']. rewrite IH. rewrite bind_cons, app_assoc. f_equal. simpl. lia.
  - set (f' := Build_Frame _ _ _ _ _). specialize (IH f'). simpl in IH.
    destruct (lets now reachable _ _ l) as [[kept a'] db']. rewrite IH. f_equal. simpl. lia.
Qed.

Lemma pass_buffer now reachable f i b : with_buffer b (pass now reachable f i) = pass now reachable (with_buffer b f) i.
Proof.
  unfold pass. simpl. destruct (allowed_from_browser (opcode i)); [|done]. destruct (is_input (opcode i)); [|done].
  by destruct (input (fr_activity f) (fr_db f) now reachable) as [[[|] a] db].
Qed.

Lemma with_buffer_twice b b' f : with_buffer b (with_buffer b' f) = with_buffer b f.
Proof. done. Qed.

Lemma frame_loop_stream fuel now reachable g rest p f :
  Forall sendable (g ++ rest) -> Guacamole.pending p rest -> (length g < fuel)%nat ->
  frame_loop fuel now reachable (with_buffer (stream_bytes g ++ p) f) = Ok (foldl (pass now reachable) (with_buffer p f) g).
Proof.
  revert fuel f. induction g as [|i g IH]; intros fuel f Hs Hp Hf; (destruct fuel; [lia|]); cbn [frame_loop foldl fr_buffer with_buffer].
  - unfold next_instruction. change (stream_bytes [] ++ p) with p. rewrite (pending_scan p rest) by done. done.
  - apply Forall_cons in Hs as [[Hi _] Hs]. unfold stream_bytes. rewrite bind_cons, <- app_assoc, instruction_reads_back by done.
    rewrite with_buffer_twice, <- pass_buffer, IH by (done || simpl in Hf; lia). by rewrite pass_buffer.
Qed.

Lemma stream_bytes_length g : (length g <= length (stream_bytes g))%nat.
Proof. pose proof (length_stream_bytes g). lia. Qed.

Lemma read_frame_stream now reachable text f ins r :
  Forall sendable ins -> fr_buffer f ++ utf8 text ++ r = stream_bytes ins ->
  exists g ins' p, ins = g ++ ins' /\ Guacamole.pending p ins' /\ p ++ r = stream_bytes ins'
    /\ read_frame now reachable text f = Ok (foldl (pass now reachable) (with_buffer p f) g).
Proof.
  intros Hs Heq. destruct (stream_prefix ins (fr_buffer f ++ utf8 text) r) as (g & ins' & p & -> & Hb & Hp); [by rewrite <- app_assoc|].
  exists g, ins', p. split_and!; try done.
  - unfold stream_bytes in *. rewrite bind_app, app_assoc, Hb, <- app_assoc in Heq. by apply app_inv_head in Heq.
  - unfold read_frame, push. rewrite Hb. apply frame_loop_stream with (rest := ins'); try done.
    rewrite length_app. pose proof (stream_bytes_length g). lia.
Qed.

(** A frame of the browser at a time; what it passes reaches guacd. *)
Definition frame_event (f : Z * bool * list Z) : RelayEvent := E_text f.1.1 f.1.2 f.2 true.

Lemma relay_frames frames r ins :
  Forall sendable ins -> Guacamole.pending (rl_buffer r) ins ->
  rl_buffer r ++ utf8 (mjoin (snd <$> frames)) = stream_bytes ins ->
  exists groups, length groups = length frames /\ mjoin groups = ins
    /\ let kept := lets_groups (zip (fst <$> frames) groups) (rl_activity r) (rl_db r) in
       let r' := relay (frame_event <$> frames) r in
       mjoin (rl_to_guacd r') = mjoin (rl_to_guacd r) ++ stream_text kept
       /\ oc_dropped (rl_outcome r') = oc_dropped (rl_outcome r) + Z.of_nat (length ins) - Z.of_nat (length kept).
Proof.
  revert r ins. induction frames as [|[[now reachable] text] frames IH]; intros r ins Hs Hp Heq.
  { cbn in Heq. rewrite app_nil_r in Heq. apply (pending_not_all _ _ Hp) in Heq as ->. exists []. split; [done|]. split; [done|].
    simpl. split; [by rewrite app_nil_r|lia]. }
  rewrite fmap_cons in Heq. cbn [mjoin list_join snd] in Heq. rewrite utf8_app in Heq.
  set (f := {| fr_buffer := rl_buffer r; fr_activity := rl_activity r; fr_db := rl_db r;
               fr_dropped := oc_dropped (rl_outcome r); fr_forward := [] |}).
  destruct (read_frame_stream now reachable text f ins (utf8 (mjoin (snd <$> frames))) Hs Heq) as (g & ins' & p & -> & Hp' & Hrest & Hread).
  apply Forall_app in Hs as [_ Hs']. pose proof (fold_pass now reachable (with_buffer p f) g) as Hfold. simpl in Hfold.
  destruct (lets now reachable (rl_activity r) (rl_db r) g) as [[kept a] db] eqn:Hlets. rewrite Hfold in Hread.
  assert (Hstep : exists r', relay_step (frame_event (now, reachable, text)) r = (true, r') /\ rl_buffer r' = p
    /\ rl_activity r' = a /\ rl_db r' = db /\ mjoin (rl_to_guacd r') = mjoin (rl_to_guacd r) ++ stream_text kept
    /\ oc_dropped (rl_outcome r') = oc_dropped (rl_outcome r) + Z.of_nat (length g) - Z.of_nat (length kept)).
  { unfold relay_step, frame_event. cbn [fst snd]. fold f. rewrite Hread. cbn [fr_forward].
    destruct (bool_decide (stream_text kept = [])) eqn:E; bools; (eexists; split; [reflexivity|]); split_and!; try done; cbn.
    - by rewrite E, app_nil_r.
    - rewrite join_app. cbn. by rewrite app_nil_r. }
  assert (Hgo : forall r', rl_buffer r' = p -> rl_activity r' = a -> rl_db r' = db ->
    mjoin (rl_to_guacd r') = mjoin (rl_to_guacd r) ++ stream_text kept ->
    oc_dropped (rl_outcome r') = oc_dropped (rl_outcome r) + Z.of_nat (length g) - Z.of_nat (length kept) ->
    exists groups, length groups = S (length frames) /\ mjoin groups = g ++ ins'
      /\ let kept' := lets_groups (zip ((now, reachable) :: (fst <$> frames)) groups) (rl_activity r) (rl_db r) in
         let r'' := relay (frame_event <$> frames) r' in
         mjoin (rl_to_guacd r'') = mjoin (rl_to_guacd r) ++ stream_text kept'
         /\ oc_dropped (rl_outcome r'') = oc_dropped (rl_outcome r) + Z.of_nat (length (g ++ ins')) - Z.of_nat (length kept')).
  { intros r' Hb Ha Hd Hto Hdrop. destruct (IH r' ins' Hs') as (groups & Hlen & Hj & Hk & Ho); [by rewrite Hb|by rewrite Hb|].
    exists (g :: groups). split; [simpl; lia|]. split; [cbn; by rewrite <- Hj|]. cbn [zip zip_with lets_groups]. rewrite Hlets.
    rewrite Ha, Hd in Hk, Ho. cbv zeta in *. rewrite Hk, Ho, Hto, Hdrop. split.
    - unfold stream_text. by rewrite bind_app, app_assoc.
    - rewrite !length_app. lia. }
  destruct Hstep as (r' & Hstep & ? & ? & ? & ? & ?). rewrite !fmap_cons. cbn [relay]. rewrite Hstep.
  by apply Hgo.
Qed.

(** C22: However the browser's messages are cut into frames, guacd gets exactly
    the instructions a browser may send, whole and in their order, except for
    input that [Session.input] did not let through when it came; the rest is
    counted as dropped. An open answer of [Session.input] holds for a minute, or
    as long as the database does not answer, so input may pass for a while after
    the session has locked; [Session.no_input_while_locked] says when not. *)
Theorem relay_forwards_exactly (ins : list Instruction) (frames : list (Z * bool * list Z)) (a : Activity) (db : Db) :
  Forall sendable ins -> mjoin (snd <$> frames) = stream_text ins ->
  exists groups, length groups = length frames /\ mjoin groups = ins
    /\ let kept := lets_groups (zip (fst <$> frames) groups) a db in
       let r := relay (frame_event <$> frames) (relay_start a db) in
       mjoin (rl_to_guacd r) = stream_text kept
       /\ oc_dropped (rl_outcome r) = Z.of_nat (length ins) - Z.of_nat (length kept).
Proof.
  intros Hs Heq. destruct (relay_frames frames (relay_start a db) ins Hs) as (groups & Hlen & Hj & Hk & Ho); simpl.
  - destruct ins as [|i ins]; [done|]. exists (utf8 (Guacamole.encode i)). split; [|done].
    apply Forall_cons in Hs as [[Hi _] _]. intros Hnil. pose proof (instruction_reads_back i [] Hi) as Hr.
    by rewrite Hnil in Hr.
  - by rewrite Heq, utf8_stream_text.
  - exists groups. by rewrite Z.add_0_l in Ho.
Qed.

End theorems.

(** ** Examples *)

Module DisplayExamples.

#[local] Existing Instance WebauthnExamples.plain_base64.
#[local] Existing Instance WebauthnExamples.plain_sha.
#[local] Existing Instance WebauthnExamples.plain_client_data.
#[local] Existing Instance WebauthnExamples.plain_keys.
#[local] Existing Instance TotpExamples.plain_base32.
#[local] Existing Instance FactorExamples.backwards.
#[local] Existing Instance BreakGlassExamples.decimal_uuid.
#[local] Existing Instance BreakGlassExamples.same_case_sql.
#[local] Existing Instance BreakGlassExamples.plain_argon2.
#[local] Existing Instance LimiterExamples.ascii_lower.
#[local] Existing Instance VaultExamples.plain_aead.
#[local] Existing Instance CatalogExamples.no_keys.

(** A desktop with a login profile, next to the router of [CatalogExamples]. *)
Definition desktop : DeviceRow :=
  {| d_settings :=
       {| d_folder := 2; d_name := lit "desktop"; d_protocol := Rdp; d_host := lit "pc1"; d_port := 3389;
          d_auth_mode := Auth_Profile; d_profile := Some 5; d_description := []; d_layout := None; d_mode := Direct;
          d_connector := None; d_confirmation := false; d_username := []; d_domain := []; d_secret_kind := Kind_Password |};
     d_secret_version := 0; d_key := no_key; d_pins := no_pins; d_keywords := []; d_keywords_by := None |}.

(** Carol has signed in; a group of hers may connect below the folder. *)
Definition world : ConnWorld :=
  {| cw_store := with_grants (fun _ =>
       [{| gr_folder := Some 2; gr_device := None; gr_credential := None; gr_collection := None;
           gr_principal_sid := lit "S-1-5-32"; gr_role := lit "connect"; gr_expires_at := None; gr_request_id := None |}])
       (with_devices (insert 8 desktop) CatalogExamples.reconnected);
     cw_sign := (serve SignInExamples.c SignInExamples.st SignInExamples.good SignInExamples.w0).2;
     cw_registry := connectors_default; cw_journal := []; cw_log := [] |}.

Definition knows_carol : option Directory := Some (fun _ => Ok [lit "S-1-5-32"]).

Definition upgrade (d : option Directory) : result (Session * ConnTarget * option (result Credentials ConnProblem)) ConnProblem * ConnWorld :=
  display_upgrade SignInExamples.st d (100 * second) SignInExamples.headers (Some (lit "https://R.example")) 8 world.

Definition no_route : RouteAnswers := {| ra_check := None; ra_towards := false; ra_forward := None |}.

Definition answers (presented : string) : DisplayAnswers :=
  {| da_start := Some {| sr_width := 100; sr_height := 20000; sr_dpi := None; sr_timezone := Some (lit "Europe/Berlin");
                         sr_languages := []; sr_username := None; sr_password := None; sr_purpose := None |};
     da_laps := None; da_probe_route := no_route; da_rdp := Ok (lit presented); da_https := Err PE_NoTls;
     da_route := no_route; da_browser := Err BE_Other |}.

Definition upgraded : ConnWorld := (upgrade knows_carol).2.
Definition carol : Session := match (upgrade knows_carol).1 with Ok (s, _, _) => s | Err _ => RequestExamples.boss end.
Definition desktop_target : ConnTarget := target_of (cw_store world) 8 desktop.

Lemma carol_may : display_upgrade SignInExamples.st knows_carol (100 * second) SignInExamples.headers
    (Some (lit "https://R.example")) 8 world = (Ok (carol, desktop_target, None), upgraded).
Proof. vm_compute. reflexivity. Qed.

(** The directory has disabled her account. *)
Example disabled_in_the_directory :
  (upgrade (Some (fun _ => Err AE_AccountDisabled))).1 = Err CP_Unauthenticated
  /\ (upgrade (Some (fun _ => Ok []))).1 = Err (CP AP_NotFound).
Proof. split; vm_compute; reflexivity. Qed.

Definition prepared (presented : string) : result Opening ConnProblem * ConnWorld :=
  prepare (lit "en-us-qwerty") (101 * second) carol desktop_target None (answers presented) upgraded.

Definition opening (presented : string) : Opening :=
  match (prepared presented).1 with
  | Ok o => o
  | Err _ => {| op_browser := None; op_handshake := sample_handshake; op_route := {| rt_host := []; rt_port := 0; rt_via := None |};
                op_username := []; op_purpose := []; op_certificate := None |}
  end.

Lemma carol_prepared : prepare (lit "en-us-qwerty") (101 * second) carol desktop_target None (answers "AA") upgraded
  = (Ok (opening "AA"), upgraded).
Proof. vm_compute. reflexivity. Qed.

Lemma display_opens_only_with_everything_witness :
  exists f, da_rdp (answers "AA") = Ok f /\ op_certificate (opening "AA") = Some f
    /\ connect_value (op_handshake (opening "AA")) (lit "cert-fingerprints") = lit "sha256:" ++ f
    /\ (forall pinned, tg_certificate desktop_target = Some pinned -> pinned = f).
Proof.
  destruct (display_opens_only_with_everything SignInExamples.st knows_carol (100 * second) SignInExamples.headers
    (Some (lit "https://R.example")) 8 world upgraded carol desktop_target None (lit "en-us-qwerty") (101 * second)
    (answers "AA") upgraded upgraded (opening "AA") carol_may carol_prepared) as (_ & _ & _ & Hlast). exact Hlast.
Defined.

Lemma login_goes_to_the_device_witness :
  connect_value (op_handshake (opening "AA")) (lit "hostname") = lit "pc1"
  /\ connect_value (op_handshake (opening "AA")) (lit "password") = lit "geheim".
Proof.
  destruct (login_goes_to_the_device (lit "en-us-qwerty") (101 * second) carol desktop_target None (answers "AA") upgraded upgraded
    (opening "AA") carol_prepared) as [_ Hh]. assert (Hb : op_browser (opening "AA") = None) by (vm_compute; reflexivity).
  rewrite Hb in Hh. destruct Hh as [Hh _]. assert (Hr : rt_host (op_route (opening "AA")) = lit "pc1") by (vm_compute; reflexivity).
  rewrite Hr in Hh. split; [exact Hh|vm_compute; reflexivity].
Defined.

(** guacd takes the connection. *)
Definition guacd : result (list (list Z)) GuacError := Ok [utf8 (Guacamole.encode sample_names); utf8 (Guacamole.encode sample_ready)].

Definition opened (presented : string) (w : ConnWorld) : result (Connection * bool) ConnProblem * ConnWorld :=
  open_display 70 carol desktop_target (opening presented) guacd w.

(** Two first connections at once, to two machines that answer for the device:
    both get the login, and the one that was late leaves no trace of the
    certificate it took. *)
Example two_first_certificates :
  let w1 := (opened "AA" upgraded).2 in
  let w2 := (opened "BB" w1).2 in
  snd <$> ok (opened "AA" upgraded).1 = Some true /\ snd <$> ok (opened "BB" w1).1 = Some false
  /\ (certificate_fingerprint ∘ d_pins <$> s_devices (cw_store w2) !! 8) = Some (Some (lit "AA"))
  /\ connect_value (op_handshake (opening "BB")) (lit "cert-fingerprints") = lit "sha256:BB"
  /\ connect_value (op_handshake (opening "BB")) (lit "password") = lit "geheim".
Proof. split_and!; vm_compute; reflexivity. Qed.

(** With the pin of the first connection, the other certificate is refused. *)
Example another_certificate :
  (prepare (lit "en-us-qwerty") (101 * second) carol
     (target_of (cw_store (opened "AA" upgraded).2) 8 (default desktop (s_devices (cw_store (opened "AA" upgraded).2) !! 8)))
     None (answers "BB") upgraded).1 = Err (CP_CertificateChanged (lit "AA") (lit "BB")).
Proof. vm_compute. reflexivity. Qed.

(** A key, an instruction a browser may not send, and a clock tick, cut in the middle. *)
Definition key : Instruction := {| opcode := lit "key"; args := [lit "65"; lit "1"] |}.
Definition select : Instruction := {| opcode := lit "select"; args := [lit "ssh"] |}.
Definition sync : Instruction := {| opcode := lit "sync"; args := [lit "7"] |}.
Definition cut : list (Z * bool * list Z) :=
  [(101 * second, true, take 20 (stream_text [key; select; sync])); (102 * second, true, drop 20 (stream_text [key; select; sync]))].
Definition carol_activity : Activity := activity_of carol (10 * minute).
Definition carol_db : Db := session_db (cw_people upgraded).

Definition element_okb (v : list Z) : bool := forallb scalar v && (Z.of_nat (length v) <=? 99999).
Definition sendableb (i : Instruction) : bool :=
  element_okb (opcode i) && forallb element_okb (args i) && bool_decide (S (length (args i)) <= MAX_ELEMENTS)%nat
  && (Z.of_nat (length (utf8 (Guacamole.encode i))) <=? MAX_INSTRUCTION_BYTES).

Lemma element_okb_ok v : element_okb v = true -> element_ok v.
Proof.
  unfold element_okb, element_ok. rewrite andb_true_iff, forallb_forall, Z.leb_le. intros [Hs Hl]. split; [|done].
  apply Forall_forall. intros c Hc. by apply Hs, list_elem_of_In.
Qed.

Lemma sendableb_ok i : sendableb i = true -> sendable i.
Proof.
  unfold sendableb. rewrite !andb_true_iff, Z.leb_le, bool_decide_eq_true, forallb_forall. intros [[[Ho Ha] Hn] Hl].
  split; [|done]. split_and!; [by apply element_okb_ok| |done]. apply Forall_forall. intros v Hv. by apply element_okb_ok, Ha, list_elem_of_In.
Qed.

Lemma all_sendable : Forall sendable [key; select; sync].
Proof. repeat (apply Forall_cons; split; [apply sendableb_ok; vm_compute; reflexivity|]). apply Forall_nil_2. Qed.

Definition relayed : RelayState := relay (frame_event <$> cut) (relay_start carol_activity carol_db).

Lemma relay_forwards_exactly_witness :
  mjoin (rl_to_guacd relayed) = stream_text [key; sync] /\
  exists groups, length groups = length cut /\ mjoin groups = [key; select; sync]
    /\ mjoin (rl_to_guacd relayed) = stream_text (lets_groups (zip (fst <$> cut) groups) carol_activity carol_db).
Proof.
  split; [vm_compute; reflexivity|].
  destruct (relay_forwards_exactly [key; select; sync] cut carol_activity carol_db all_sendable) as (groups & Hlen & Hj & Hk & _);
    [vm_compute; reflexivity|]. exists groups. split; [exact Hlen|]. split; [exact Hj|exact Hk].
Defined.

(** After ten minutes without input the session has locked: keys stay here. *)
Example locked_keys_stay :
  rl_to_guacd (relay (frame_event <$> [(900 * second, true, stream_text [key; sync])]) (relay_start carol_activity carol_db))
  = [stream_text [sync]].
Proof. vm_compute. reflexivity. Qed.

End DisplayExamples.
