(* ===== verification/Terminal.v ===== *)
(** * Terminals in the browser (crates/server/src/api/terminal.rs, crates/gateway/src/ssh.rs)

    SSH sessions: what is decided before the device is reached, the check of
    its host key, and the relay of what is typed. The parts follow [Display].
    The server behind the device is what it answers; keys are read by the
    crate [russh]: parameters. *)
From S2P Require Import Prelude Text Model Session AccessRequests Agent Connectors Vault Keyring Store Folders Devices Catalog.
From S2P Require Import Grants People Webauthn Totp Factors BreakGlass Limiter SignIn Guacamole Handshake Connect Display.

(** ** Opening a shell (ssh.rs) *)

(** [PublicKey::from_openssh] gives a key's data, and their fingerprint. *)
Class SshPublic := {
  public_from_openssh : list Z -> option (list Z);
  key_fingerprint_of : list Z -> list Z
}.

Inductive SshError :=
| SE_Unreachable | SE_HostKeyChanged (expected presented : list Z) | SE_AuthenticationFailed | SE_Timeout | SE_Protocol.

(** The key a server presents: its text and its data, or a host certificate. *)
Inductive PresentedKey := PK_Key (text data : list Z) | PK_Certificate.

(** What the server does: whether the exchange comes to an end in time, the key
    it presents, whether the transport stands if the key is accepted, its
    answer to the login, and whether it gives a shell. *)
Record SshServer := {
  sv_in_time : bool;
  sv_key : option PresentedKey;
  sv_connects : bool;
  sv_login : option bool;
  sv_shell : bool
}.

Record Shell := { sh_host_key : list Z; sh_fingerprint : list Z }.

Section ssh.
Context `{SshPublic}.

Definition check_server_key (pinned : option (list Z)) (key : PresentedKey) : bool :=
  match key with
  | PK_Certificate => false
  | PK_Key _ data => match pinned with None => true | Some p => bool_decide (p = data) end
  end.

Definition presented_key (key : option PresentedKey) : option (list Z * list Z) :=
  match key with Some (PK_Key text data) => Some (text, data) | _ => None end.

(** Whether the login was sent, and what came of it. *)
Definition open_inner (pinned : option (list Z)) (server : SshServer) : bool * result Shell SshError :=
  match (match pinned with Some text => Some <$> public_from_openssh text | None => Some None end) with
  | None => (false, Err SE_Protocol)
  | Some pinned =>
      let presented := presented_key (sv_key server) in
      if negb (sv_connects server && match sv_key server with Some key => check_server_key pinned key | None => true end)
      then (false, Err match pinned, presented with
                       | Some p, Some (_, data) => if negb (bool_decide (p = data))
                                                   then SE_HostKeyChanged (key_fingerprint_of p) (key_fingerprint_of data)
                                                   else SE_Protocol
                       | _, None => SE_Unreachable
                       | None, Some _ => SE_Protocol
                       end)
      else match presented with
           | None => (false, Err SE_Protocol)
           | Some (text, data) =>
               (true, match sv_login server with
                      | None => Err SE_Protocol
                      | Some false => Err SE_AuthenticationFailed
                      | Some true => if sv_shell server
                                     then Ok {| sh_host_key := text; sh_fingerprint := key_fingerprint_of data |}
                                     else Err SE_Protocol
                      end)
           end
  end.

(** [open]: after the timeout nothing comes of it, whatever was sent before. *)
Definition ssh_open (pinned : option (list Z)) (server : SshServer) : bool * result Shell SshError :=
  let '(sent, r) := open_inner pinned server in (sent, if sv_in_time server then r else Err SE_Timeout).

End ssh.

Definition ssh_problem (e : SshError) : ConnProblem :=
  match e with
  | SE_HostKeyChanged expected presented => CP_HostKeyChanged expected presented
  | SE_AuthenticationFailed => CP_TargetAuthFailed
  | SE_Unreachable | SE_Timeout => CP_TargetUnreachable
  | SE_Protocol => CP_ConnectionFailed
  end.

(** ** The handler *)

Record TermStart := {
  ts_cols : Z;
  ts_rows : Z;
  ts_username : option (list Z);
  ts_password : option (list Z);
  ts_purpose : option (list Z)
}.

Definition term_size (cols rows : Z) : Z * Z := (clamp cols 10 1000, clamp rows 2 500).

(** [ssh::open]'s arguments, and the purpose. *)
Record TermOpening := {
  to_host : list Z;
  to_port : Z;
  to_via : option (Uuid * list Z * Requester);
  to_username : list Z;
  to_login : Login;
  to_pinned : option (list Z);
  to_size : Z * Z;
  to_purpose : list Z
}.

Section terminal.
Context `{UuidText} `{Session.Sha256} `{Base64Url} `{Aead} `{SshKeys}.

Definition terminal_upgrade (st : SignIn.Settings) (directory : option Directory) (now : Z) (headers : list (list Z))
    (origin : option (list Z)) (id : Uuid) (w : ConnWorld) :
    result (Session * ConnTarget * option (result Credentials ConnProblem)) ConnProblem * ConnWorld :=
  conn_upgrade [Ssh] st directory now headers origin id w.

(** [run] up to the connection; [start] is the browser's first message. *)
Definition term_prepare (ca : option Ca) (laps : option (list Z -> result LapsPassword LapsError)) (now : Z) (s : Session)
    (t : ConnTarget) (own : option (result Credentials ConnProblem)) (start : option TermStart) (way : RouteAnswers)
    (w : ConnWorld) : result TermOpening ConnProblem * ConnWorld :=
  match start with
  | None => (Err CP_InvalidRequest, w)
  | Some start =>
      if tg_confirmation t && negb (confirmed s) then (Err (CP_Session ConfirmationRequired), w)
      else
        match purpose s (ts_purpose start) w with
        | Err p => (Err p, w)
        | Ok stated =>
            let resolved := match own with
                            | Some own => own
                            | None => if bool_decide (tg_auth_mode t = Auth_Certificate) then certificate ca s t
                                      else credentials laps t (ts_username start) (ts_password start) w
                            end in
            match resolved with
            | Err p => (Err p, w)
            | Ok c =>
                match route false (username s) t now way w with
                | Err p => (Err p, note_conn (Some (user_id s)) (tg_id t) (ConnectionFailed (R_problem p)) w)
                | Ok r =>
                    (Ok {| to_host := rt_host r; to_port := rt_port r; to_via := rt_via r; to_username := cd_username c;
                           to_login := cd_login c; to_pinned := tg_host_key t;
                           to_size := term_size (ts_cols start) (ts_rows start); to_purpose := stated |}, w)
                end
            end
        end
  end.

End terminal.

Definition pin_host_key (s : Session) (t : ConnTarget) (key : list Z) (w : ConnWorld) : bool * ConnWorld :=
  match s_devices (cw_store w) !! tg_id t with
  | Some d =>
      if is_some (host_key (d_pins d)) then (false, w)
      else (true, note_conn (Some (user_id s)) (tg_id t) (HostKeyPinned key)
              (on_store (with_devices (insert (tg_id t)
                 (set_pins {| host_key := Some key; certificate_fingerprint := certificate_fingerprint (d_pins d) |} d))) w))
  | None => (false, w)
  end.

(** [run] from the connection to the relay. *)
Definition term_opened (new_id : Uuid) (s : Session) (t : ConnTarget) (o : TermOpening) (opened : result Shell SshError)
    (w : ConnWorld) : result (Shell * bool) ConnProblem * ConnWorld :=
  match opened with
  | Err e =>
      (Err (ssh_problem e), note_conn (Some (user_id s)) (tg_id t) (ConnectionFailed (R_problem (ssh_problem e))) w)
  | Ok shell =>
      let '(pinned, w) := if is_some (tg_host_key t) then (false, w) else pin_host_key s t (sh_host_key shell) w in
      let w := note_conn (Some (user_id s)) (tg_id t) (ConnectionOpened (to_username o) (to_purpose o)) w in
      (Ok (shell, pinned), journal_opened new_id s t (to_purpose o) w)
  end.

(** ** The relay *)

(** What [select!] takes next; [sent] tells whether what follows from it could
    be sent. *)
Inductive TermEvent :=
| TE_typed (now : Z) (reachable : bool) (data : list Z) (sent : bool)
| TE_resize (cols rows : Z)
| TE_other
| TE_closed
| TE_output (data : list Z) (sent : bool)
| TE_exit (status : option Z)
| TE_end.

Record TermState := {
  tm_activity : Activity;
  tm_db : Db;
  tm_sent : Z;
  tm_received : Z;
  tm_exit : option Z;
  tm_size : Z * Z;
  tm_to_shell : list (list Z);
  tm_to_browser : list (list Z)
}.

Definition term_step (e : TermEvent) (r : TermState) : bool * TermState :=
  let with_ a db sent received exit size to_shell to_browser :=
    {| tm_activity := a; tm_db := db; tm_sent := sent; tm_received := received; tm_exit := exit; tm_size := size;
       tm_to_shell := to_shell; tm_to_browser := to_browser |} in
  match e with
  | TE_typed now reachable data sent =>
      let '(open, a, db) := input (tm_activity r) (tm_db r) now reachable in
      if open then
        (sent, with_ a db (tm_sent r + Z.of_nat (length data)) (tm_received r) (tm_exit r) (tm_size r)
                 (if sent then tm_to_shell r ++ [data] else tm_to_shell r) (tm_to_browser r))
      else (true, with_ a db (tm_sent r) (tm_received r) (tm_exit r) (tm_size r) (tm_to_shell r) (tm_to_browser r))
  | TE_resize cols rows =>
      (true, with_ (tm_activity r) (tm_db r) (tm_sent r) (tm_received r) (tm_exit r) (term_size cols rows) (tm_to_shell r)
               (tm_to_browser r))
  | TE_other => (true, r)
  | TE_closed | TE_end => (false, r)
  | TE_output data sent =>
      (sent, with_ (tm_activity r) (tm_db r) (tm_sent r) (tm_received r + Z.of_nat (length data)) (tm_exit r) (tm_size r)
               (tm_to_shell r) (if sent then tm_to_browser r ++ [data] else tm_to_browser r))
  | TE_exit status =>
      (false, with_ (tm_activity r) (tm_db r) (tm_sent r) (tm_received r) status (tm_size r) (tm_to_shell r) (tm_to_browser r))
  end.

Fixpoint term_relay (es : list TermEvent) (r : TermState) : TermState :=
  match es with
  | [] => r
  | e :: es => match term_step e r with (true, r) => term_relay es r | (false, r) => r end
  end.

(** ** Theorems *)

Section theorems.
Context `{UuidText} `{Session.Sha256} `{Base64Url} `{Aead} `{SshKeys} `{SshPublic}.

Lemma term_prepare_Ok ca laps now s t own start way w o w' :
  term_prepare ca laps now s t own start way w = (Ok o, w') ->
  w' = w /\ (tg_confirmation t = true -> confirmed s = true) /\ (purpose_required s w = true -> to_purpose o <> [])
  /\ to_pinned o = tg_host_key t
  /\ exists r, route false (username s) t now way w = Ok r /\ to_host o = rt_host r /\ to_port o = rt_port r /\ to_via o = rt_via r.
Proof.
  unfold term_prepare. destruct start as [start|]; [|done]. destruct (tg_confirmation t && negb (confirmed s)) eqn:Hc; [done|].
  destruct (purpose s _ w) as [stated|] eqn:Hp; [|done].
  destruct (match own with Some _ => _ | None => _ end) as [c|]; [|done].
  destruct (route _ _ _ _ _ _) as [r|] eqn:Hr; [|done]. intros [= <- <-]. split_and!; try done; [| |by exists r].
  - intros Ht. rewrite Ht in Hc. simpl in Hc. by apply negb_false_iff in Hc.
  - by eapply purpose_Ok.
Qed.

Lemma ssh_open_sent pinned server r :
  ssh_open pinned server = (true, r) ->
  exists text data, sv_key server = Some (PK_Key text data)
    /\ (forall p, pinned = Some p -> public_from_openssh p = Some data)
    /\ (forall shell, r = Ok shell -> sh_host_key shell = text).
Proof.
  unfold ssh_open. destruct (open_inner pinned server) as [sent r'] eqn:Ho. intros [= -> <-]. revert Ho. unfold open_inner.
  destruct (match pinned with Some _ => _ | None => _ end) as [pin|] eqn:Hpin; [|done].
  destruct (sv_key server) as [[text data|]|]; cbn [presented_key check_server_key].
  - destruct (sv_connects server && _) eqn:E; [|done]. cbn [negb]. intros [= <-]. bools. exists text, data. split_and!; [done| |].
    + intros p ->. destruct (public_from_openssh p) as [d|]; [|done]. injection Hpin as <-. by bools; subst.
    + intros shell. destruct (sv_in_time server); [|done]. destruct (sv_login server) as [[|]|]; try done.
      destruct (sv_shell server); [|done]. by intros [= <-].
  - rewrite andb_false_r. done.
  - destruct (negb _); [done|]. done.
Qed.

(** C14: A password or key is sent to an SSH server only for a request from the
    server's own pages, of a user who may connect to the device, after the
    confirmation and the purpose that are asked for, at the device's own
    address or a forward through its connector, and only once the server has
    shown the pinned host key, if one is pinned. *)
Theorem shell_login_only_with_everything (st : SignIn.Settings) (directory : option Directory) (now : Z)
    (headers : list (list Z)) (origin : option (list Z)) (id : Uuid) (w w1 : ConnWorld) (s : Session) (t : ConnTarget)
    (own : option (result Credentials ConnProblem)) (ca : option Ca)
    (laps : option (list Z -> result LapsPassword LapsError)) (now2 : Z) (start : option TermStart) (way : RouteAnswers)
    (w2 w3 : ConnWorld) (o : TermOpening) (server : SshServer) (r : result Shell SshError) :
  terminal_upgrade st directory now headers origin id w = (Ok (s, t, own), w1) ->
  term_prepare ca laps now2 s t own start way w2 = (Ok o, w3) ->
  ssh_open (to_pinned o) server = (true, r) ->
  may_connect st directory now headers origin id w w1 s t
  /\ (tg_confirmation t = true -> confirmed s = true)
  /\ (purpose_required s w2 = true -> to_purpose o <> [])
  /\ match tg_connector t with
     | None => to_host o = tg_host t /\ to_port o = port_or 0 (tg_port t) /\ to_via o = None
     | Some k => is_online (cw_registry w2) k = true
         /\ to_via o = Some (k, authority (tg_host t) (port_or 0 (tg_port t)), {| rq_user := username s; rq_device := tg_name t |})
     end
  /\ exists text data, sv_key server = Some (PK_Key text data)
       /\ forall p, tg_host_key t = Some p -> public_from_openssh p = Some data.
Proof.
  intros (Hmay & _ & _)%conn_upgrade_Ok (-> & Hc & Hp & Hpin & r' & Hr & Hh & Hport & Hv)%term_prepare_Ok Hs.
  rewrite Hpin in Hs. apply ssh_open_sent in Hs as (text & data & Hk & Hsame & _). apply route_Ok in Hr.
  split_and!; try done; [|by exists text, data]. rewrite Hh, Hport, Hv. destruct (tg_connector t); [naive_solver|by subst].
Qed.

End theorems.

(** ** Examples *)

Module TerminalExamples.

#[local] Existing Instance WebauthnExamples.plain_base64.
#[local] Existing Instance WebauthnExamples.plain_sha.
#[local] Existing Instance BreakGlassExamples.decimal_uuid.
#[local] Existing Instance VaultExamples.plain_aead.
#[local] Existing Instance CatalogExamples.no_keys.

#[local] Instance ed25519 : SshPublic :=
  {| public_from_openssh := strip_prefix (lit "ssh-ed25519 "); key_fingerprint_of := fun data => lit "SHA256:" ++ data |}.

(** The router of [CatalogExamples] with its pinned key, and Carol. *)
Definition world : ConnWorld :=
  on_store (fun _ => with_grants (fun _ =>
    [{| gr_folder := Some 2; gr_device := None; gr_credential := None; gr_collection := None;
        gr_principal_sid := lit "S-1-5-32"; gr_role := lit "connect"; gr_expires_at := None; gr_request_id := None |}])
    CatalogExamples.pinned) DisplayExamples.world.

Definition upgrade : result (Session * ConnTarget * option (result Credentials ConnProblem)) ConnProblem * ConnWorld :=
  terminal_upgrade SignInExamples.st DisplayExamples.knows_carol (100 * second) SignInExamples.headers
    (Some (lit "https://r.example")) 7 world.

Definition upgraded : ConnWorld := upgrade.2.
Definition carol : Session := match upgrade.1 with Ok (s, _, _) => s | Err _ => RequestExamples.boss end.
Definition router : ConnTarget := target_of (cw_store world) 7 (CatalogExamples.router (cw_store world)).

Lemma carol_may_ssh : upgrade = (Ok (carol, router, None), upgraded).
Proof. vm_compute. reflexivity. Qed.

Definition first_message : option TermStart :=
  Some {| ts_cols := 80; ts_rows := 1; ts_username := None; ts_password := None; ts_purpose := None |}.

Definition prepared : result TermOpening ConnProblem * ConnWorld :=
  term_prepare None None (101 * second) carol router None first_message DisplayExamples.no_route upgraded.

Definition opening : TermOpening :=
  match prepared.1 with
  | Ok o => o
  | Err _ => {| to_host := []; to_port := 0; to_via := None; to_username := []; to_login := Login_Password []; to_pinned := None;
                to_size := (0, 0); to_purpose := [] |}
  end.

Lemma carol_prepared_ssh : prepared = (Ok opening, upgraded).
Proof. vm_compute. reflexivity. Qed.

Definition server (key : string) : SshServer :=
  {| sv_in_time := true; sv_key := Some (PK_Key (lit "ssh-ed25519 " ++ lit key) (lit key)); sv_connects := true;
     sv_login := Some true; sv_shell := true |}.

Definition shell : result Shell SshError := Ok {| sh_host_key := lit "ssh-ed25519 AAAA"; sh_fingerprint := lit "SHA256:AAAA" |}.

Lemma opens : ssh_open (to_pinned opening) (server "AAAA") = (true, shell).
Proof. vm_compute. reflexivity. Qed.

Lemma shell_login_only_with_everything_witness :
  to_login opening = Login_Password (lit "geheim") /\ to_size opening = (80, 2)
  /\ exists text data, sv_key (server "AAAA") = Some (PK_Key text data)
       /\ forall p, tg_host_key router = Some p -> public_from_openssh p = Some data.
Proof.
  split; [vm_compute; reflexivity|]. split; [vm_compute; reflexivity|].
  destruct (shell_login_only_with_everything SignInExamples.st DisplayExamples.knows_carol (100 * second) SignInExamples.headers
    (Some (lit "https://r.example")) 7 world upgraded carol router None None None (101 * second) first_message
    DisplayExamples.no_route upgraded upgraded opening (server "AAAA") shell carol_may_ssh carol_prepared_ssh opens) as (_ & _ & _ & _ & Hk).
  exact Hk.
Defined.

(** Another key gets nothing of the login. *)
Example another_key :
  ssh_open (to_pinned opening) (server "BBBB") = (false, Err (SE_HostKeyChanged (lit "SHA256:AAAA") (lit "SHA256:BBBB"))).
Proof. vm_compute. reflexivity. Qed.

End TerminalExamples.
