(* ===== verification/ConnectorText.v ===== *)
(** * Texts of the connector's web interface (crates/i18n/src/lib.rs)

    The language of a request and the messages of the web interface and the
    journal: a message is rendered in its locale, in English where that fails,
    and as its ID if even that fails. Fluent and its catalogs are a parameter,
    and so is the reading of a language's weight. *)
From stdpp Require Import sorting.
From S2P Require Import Prelude Text.

Inductive Locale := En | De.

#[export] Instance locale_eq_dec : EqDecision Locale.
Proof. solve_decision. Defined.

Definition tag_separator (c : Z) : bool := (c =? 45) || (c =? 95) || (c =? 46) || (c =? 64).

(** [Locale::of_tag]. *)
Definition of_tag (tag : str) : option Locale :=
  match split_by tag_separator tag with
  | [] => None
  | language :: _ =>
      let language := to_ascii_lowercase <$> trim language in
      if bool_decide (language = lit "en") then Some En
      else if bool_decide (language = lit "de") then Some De
      else None
  end.

(** [f32]: what a text reads as, the number 1.0, whether a number is greater
    than 0.0, and [total_cmp] as [<=]. *)
Class F32 := {
  f32_parse : list Z -> option Z;
  f32_one : Z;
  f32_positive : Z -> bool;
  f32_total_le : Z -> Z -> bool
}.

(** The first part that names a weight. *)
Fixpoint quality_of (parts : list (list Z)) : option (list Z) :=
  match parts with
  | [] => None
  | p :: parts =>
      match strip_prefix (lit "q=") (trim p) with
      | Some q => Some q
      | None => quality_of parts
      end
  end.

Definition language_range `{F32} (range : str) : option (Z * list Z) :=
  match split 59 range with
  | [] => None
  | tag :: parts =>
      quality ← match quality_of parts with None => Some f32_one | Some q => f32_parse (trim q) end;
      if f32_positive quality then Some (quality, trim tag) else None
  end.

(** [Locale::from_accept_language]. *)
Definition from_accept_language `{F32} (header : str) : Locale :=
  let ranges := omap language_range (split 44 header) in
  let ranges := sort_by (fun a b => f32_total_le b.1 a.1) ranges in
  default En (head (omap (fun qt => of_tag qt.2) ranges)).

(** [Locale::from_posix]: [lookup] is the environment. *)
Definition from_posix (lookup : list Z -> option (list Z)) : Locale :=
  let set_ := omap (fun name => v ← lookup name; if bool_decide (v = []) then None else Some v)
                [lit "LC_ALL"; lit "LC_MESSAGES"; lit "LANG"] in
  default En (v ← head set_; of_tag v).

(** ** Messages *)

Inductive Message :=
| ConnectorUiTitle
| ConnectorUiSignIn
| ConnectorUiName
| ConnectorUiPassword
| ConnectorUiCode
| ConnectorUiCodeHint
| ConnectorUiSignInFailed
| ConnectorUiLocked (minutes : Z)
| ConnectorUiSignOut
| ConnectorUiSignedInAs (name : list Z)
| ConnectorUiAccessFor (remotehub : list Z)
| ConnectorUiClosed
| ConnectorUiOpenUntil (until_ : list Z)
| ConnectorUiOpenPermanent
| ConnectorUiChangedBy (who : list Z) (at_ : list Z)
| ConnectorUiChangedCli (at_ : list Z)
| ConnectorUiChangedExpiry (at_ : list Z)
| ConnectorUiOpenFor (hours : Z)
| ConnectorUiUntilField
| ConnectorUiOpenUntilButton
| ConnectorUiOpenPermanentButton
| ConnectorUiOpenPermanentHint
| ConnectorUiClose
| ConnectorUiCloseHint
| ConnectorUiInvalidUntil
| ConnectorUiConnections
| ConnectorUiNoConnections
| ConnectorUiColDevice
| ConnectorUiColUser
| ConnectorUiColSince
| ConnectorUiColTraffic
| ConnectorUiTraffic (sent : list Z) (received : list Z)
| ConnectorUiUserHint
| ConnectorUiLog
| ConnectorUiNoLog
| ConnectorUiColTime
| ConnectorUiColEvent
| ConnectorUiPartly
| ConnectorUiNetwork
| ConnectorUiNetworkHint
| ConnectorUiGroups
| ConnectorUiNoGroups
| ConnectorUiDevices
| ConnectorUiNoDevices
| ConnectorUiColName
| ConnectorUiColAddress
| ConnectorUiColPorts
| ConnectorUiColGroups
| ConnectorUiColMembers
| ConnectorUiColAccess
| ConnectorUiRowClosed
| ConnectorUiRowOpenUntil (until_ : list Z)
| ConnectorUiRowOpen
| ConnectorUiRowOpenVia (group : list Z)
| ConnectorUiHours (hours : Z)
| ConnectorUiWithoutEnd
| ConnectorUiOpen
| ConnectorUiCloseRow
| ConnectorUiRemove
| ConnectorUiAddDevice
| ConnectorUiAddGroup
| ConnectorUiAddressHint
| ConnectorUiPortsHint
| ConnectorUiErrorName
| ConnectorUiErrorAddress (value : list Z)
| ConnectorUiErrorPorts (value : list Z)
| ConnectorUiErrorNoPorts
| ConnectorUiErrorExists (name : list Z)
| ConnectorUiErrorUnknown (name : list Z)
| ConnectorUiRequests
| ConnectorUiRequestsHint
| ConnectorUiRequestAsks (requester : list Z) (minutes : Z)
| ConnectorUiRequestReason (reason : list Z)
| ConnectorUiColTarget
| ConnectorUiColPort
| ConnectorUiColListed
| ConnectorUiListedAs (name : list Z)
| ConnectorUiNotListed
| ConnectorUiApprove
| ConnectorUiRefuse
| ConnectorUiApproved
| ConnectorUiApprovedFor (requester : list Z) (reason : list Z)
| ConnectorUiErrorRequestGone
| ConnectorLogWhatNetwork
| ConnectorLogWhatDevice (name : list Z)
| ConnectorLogWhatGroup (name : list Z)
| ConnectorLogWhatRequest (id : list Z)
| ConnectorLogOpenedUntil (who : list Z) (what : list Z) (until_ : list Z)
| ConnectorLogOpenedUntilCli (what : list Z) (until_ : list Z)
| ConnectorLogOpenedPermanent (who : list Z) (what : list Z)
| ConnectorLogOpenedPermanentCli (what : list Z)
| ConnectorLogClosed (who : list Z) (what : list Z)
| ConnectorLogClosedCli (what : list Z)
| ConnectorLogExpired (what : list Z)
| ConnectorLogCommandLine
| ConnectorLogDeviceAdded (who : list Z) (name : list Z) (address : list Z) (ports : list Z)
| ConnectorLogDeviceRemoved (who : list Z) (name : list Z)
| ConnectorLogGroupAdded (who : list Z) (name : list Z)
| ConnectorLogGroupRemoved (who : list Z) (name : list Z)
| ConnectorLogRequestReceived (id : list Z) (requester : list Z) (targets : list Z) (minutes : Z) (reason : list Z)
| ConnectorLogRequestApproved (who : list Z) (id : list Z) (requester : list Z) (targets : list Z) (until_ : list Z)
| ConnectorLogRequestRefused (who : list Z) (id : list Z) (requester : list Z) (targets : list Z)
| ConnectorLogConnectionStarted (user : list Z) (target : list Z)
| ConnectorLogConnectionEnded (user : list Z) (target : list Z) (minutes : Z) (sent : list Z) (received : list Z)
| ConnectorLogConnectionRefused (user : list Z) (target : list Z) (reason : list Z)
| ConnectorLogSignedIn (user : list Z) (address : list Z)
| ConnectorLogSignInFailed (user : list Z) (address : list Z)
| ConnectorLogLocked (user : list Z) (minutes : Z).

Definition message_id (m : Message) : list Z :=
  match m with
  | ConnectorUiTitle => lit "connector-ui-title"
  | ConnectorUiSignIn => lit "connector-ui-sign-in"
  | ConnectorUiName => lit "connector-ui-name"
  | ConnectorUiPassword => lit "connector-ui-password"
  | ConnectorUiCode => lit "connector-ui-code"
  | ConnectorUiCodeHint => lit "connector-ui-code-hint"
  | ConnectorUiSignInFailed => lit "connector-ui-sign-in-failed"
  | ConnectorUiLocked _ => lit "connector-ui-locked"
  | ConnectorUiSignOut => lit "connector-ui-sign-out"
  | ConnectorUiSignedInAs _ => lit "connector-ui-signed-in-as"
  | ConnectorUiAccessFor _ => lit "connector-ui-access-for"
  | ConnectorUiClosed => lit "connector-ui-closed"
  | ConnectorUiOpenUntil _ => lit "connector-ui-open-until"
  | ConnectorUiOpenPermanent => lit "connector-ui-open-permanent"
  | ConnectorUiChangedBy _ _ => lit "connector-ui-changed-by"
  | ConnectorUiChangedCli _ => lit "connector-ui-changed-cli"
  | ConnectorUiChangedExpiry _ => lit "connector-ui-changed-expiry"
  | ConnectorUiOpenFor _ => lit "connector-ui-open-for"
  | ConnectorUiUntilField => lit "connector-ui-until-field"
  | ConnectorUiOpenUntilButton => lit "connector-ui-open-until-button"
  | ConnectorUiOpenPermanentButton => lit "connector-ui-open-permanent-button"
  | ConnectorUiOpenPermanentHint => lit "connector-ui-open-permanent-hint"
  | ConnectorUiClose => lit "connector-ui-close"
  | ConnectorUiCloseHint => lit "connector-ui-close-hint"
  | ConnectorUiInvalidUntil => lit "connector-ui-invalid-until"
  | ConnectorUiConnections => lit "connector-ui-connections"
  | ConnectorUiNoConnections => lit "connector-ui-no-connections"
  | ConnectorUiColDevice => lit "connector-ui-col-device"
  | ConnectorUiColUser => lit "connector-ui-col-user"
  | ConnectorUiColSince => lit "connector-ui-col-since"
  | ConnectorUiColTraffic => lit "connector-ui-col-traffic"
  | ConnectorUiTraffic _ _ => lit "connector-ui-traffic"
  | ConnectorUiUserHint => lit "connector-ui-user-hint"
  | ConnectorUiLog => lit "connector-ui-log"
  | ConnectorUiNoLog => lit "connector-ui-no-log"
  | ConnectorUiColTime => lit "connector-ui-col-time"
  | ConnectorUiColEvent => lit "connector-ui-col-event"
  | ConnectorUiPartly => lit "connector-ui-partly"
  | ConnectorUiNetwork => lit "connector-ui-network"
  | ConnectorUiNetworkHint => lit "connector-ui-network-hint"
  | ConnectorUiGroups => lit "connector-ui-groups"
  | ConnectorUiNoGroups => lit "connector-ui-no-groups"
  | ConnectorUiDevices => lit "connector-ui-devices"
  | ConnectorUiNoDevices => lit "connector-ui-no-devices"
  | ConnectorUiColName => lit "connector-ui-col-name"
  | ConnectorUiColAddress => lit "connector-ui-col-address"
  | ConnectorUiColPorts => lit "connector-ui-col-ports"
  | ConnectorUiColGroups => lit "connector-ui-col-groups"
  | ConnectorUiColMembers => lit "connector-ui-col-members"
  | ConnectorUiColAccess => lit "connector-ui-col-access"
  | ConnectorUiRowClosed => lit "connector-ui-row-closed"
  | ConnectorUiRowOpenUntil _ => lit "connector-ui-row-open-until"
  | ConnectorUiRowOpen => lit "connector-ui-row-open"
  | ConnectorUiRowOpenVia _ => lit "connector-ui-row-open-via"
  | ConnectorUiHours _ => lit "connector-ui-hours"
  | ConnectorUiWithoutEnd => lit "connector-ui-without-end"
  | ConnectorUiOpen => lit "connector-ui-open"
  | ConnectorUiCloseRow => lit "connector-ui-close-row"
  | ConnectorUiRemove => lit "connector-ui-remove"
  | ConnectorUiAddDevice => lit "connector-ui-add-device"
  | ConnectorUiAddGroup => lit "connector-ui-add-group"
  | ConnectorUiAddressHint => lit "connector-ui-address-hint"
  | ConnectorUiPortsHint => lit "connector-ui-ports-hint"
  | ConnectorUiErrorName => lit "connector-ui-error-name"
  | ConnectorUiErrorAddress _ => lit "connector-ui-error-address"
  | ConnectorUiErrorPorts _ => lit "connector-ui-error-ports"
  | ConnectorUiErrorNoPorts => lit "connector-ui-error-no-ports"
  | ConnectorUiErrorExists _ => lit "connector-ui-error-exists"
  | ConnectorUiErrorUnknown _ => lit "connector-ui-error-unknown"
  | ConnectorUiRequests => lit "connector-ui-requests"
  | ConnectorUiRequestsHint => lit "connector-ui-requests-hint"
  | ConnectorUiRequestAsks _ _ => lit "connector-ui-request-asks"
  | ConnectorUiRequestReason _ => lit "connector-ui-request-reason"
  | ConnectorUiColTarget => lit "connector-ui-col-target"
  | ConnectorUiColPort => lit "connector-ui-col-port"
  | ConnectorUiColListed => lit "connector-ui-col-listed"
  | ConnectorUiListedAs _ => lit "connector-ui-listed-as"
  | ConnectorUiNotListed => lit "connector-ui-not-listed"
  | ConnectorUiApprove => lit "connector-ui-approve"
  | ConnectorUiRefuse => lit "connector-ui-refuse"
  | ConnectorUiApproved => lit "connector-ui-approved"
  | ConnectorUiApprovedFor _ _ => lit "connector-ui-approved-for"
  | ConnectorUiErrorRequestGone => lit "connector-ui-error-request-gone"
  | ConnectorLogWhatNetwork => lit "connector-log-what-network"
  | ConnectorLogWhatDevice _ => lit "connector-log-what-device"
  | ConnectorLogWhatGroup _ => lit "connector-log-what-group"
  | ConnectorLogWhatRequest _ => lit "connector-log-what-request"
  | ConnectorLogOpenedUntil _ _ _ => lit "connector-log-opened-until"
  | ConnectorLogOpenedUntilCli _ _ => lit "connector-log-opened-until-cli"
  | ConnectorLogOpenedPermanent _ _ => lit "connector-log-opened-permanent"
  | ConnectorLogOpenedPermanentCli _ => lit "connector-log-opened-permanent-cli"
  | ConnectorLogClosed _ _ => lit "connector-log-closed"
  | ConnectorLogClosedCli _ => lit "connector-log-closed-cli"
  | ConnectorLogExpired _ => lit "connector-log-expired"
  | ConnectorLogCommandLine => lit "connector-log-command-line"
  | ConnectorLogDeviceAdded _ _ _ _ => lit "connector-log-device-added"
  | ConnectorLogDeviceRemoved _ _ => lit "connector-log-device-removed"
  | ConnectorLogGroupAdded _ _ => lit "connector-log-group-added"
  | ConnectorLogGroupRemoved _ _ => lit "connector-log-group-removed"
  | ConnectorLogRequestReceived _ _ _ _ _ => lit "connector-log-request-received"
  | ConnectorLogRequestApproved _ _ _ _ _ => lit "connector-log-request-approved"
  | ConnectorLogRequestRefused _ _ _ _ => lit "connector-log-request-refused"
  | ConnectorLogConnectionStarted _ _ => lit "connector-log-connection-started"
  | ConnectorLogConnectionEnded _ _ _ _ _ => lit "connector-log-connection-ended"
  | ConnectorLogConnectionRefused _ _ _ => lit "connector-log-connection-refused"
  | ConnectorLogSignedIn _ _ => lit "connector-log-signed-in"
  | ConnectorLogSignInFailed _ _ => lit "connector-log-sign-in-failed"
  | ConnectorLogLocked _ _ => lit "connector-log-locked"
  end.

(** The message in a locale's catalog (crate [fluent]); none if the catalog
    fails. *)
Class Fluent := try_render : Locale -> Message -> option (list Z).

Definition render `{Fluent} (l : Locale) (m : Message) : list Z :=
  match try_render l m with
  | Some text => text
  | None => default (message_id m) (try_render En m)
  end.
(** ** The language of a request *)

Section languages.
Context `{F32}.
Context (f32_trans : forall a b c, f32_total_le a b = true -> f32_total_le b c = true -> f32_total_le a c = true)
        (f32_total : forall a b, f32_total_le a b = true \/ f32_total_le b a = true).

(** Of a list from the highest weight down, the first that is supported weighs
    the most. *)
Lemma first_supported (l : list (Z * list Z)) :
  StronglySorted (fun a b => f32_total_le b.1 a.1 = true) l ->
  match head (omap (fun qt => of_tag qt.2) l) with
  | None => forall q tag, (q, tag) ∈ l -> of_tag tag = None
  | Some best => exists q tag, (q, tag) ∈ l /\ of_tag tag = Some best
      /\ forall q' tag', (q', tag') ∈ l -> is_Some (of_tag tag') -> f32_total_le q' q = true
  end.
Proof.
  induction 1 as [|[q tag] l Hl IH Hq]; [by intros ? ? ?%elem_of_nil|].
  change (omap (fun qt : Z * list Z => of_tag qt.2) ((q, tag) :: l)) with
    (match of_tag tag with Some y => y :: omap (fun qt : Z * list Z => of_tag qt.2) l
     | None => omap (fun qt : Z * list Z => of_tag qt.2) l end).
  destruct (of_tag tag) as [loc|] eqn:Ht.
  - exists q, tag. split_and!; [by left|done|]. intros q' tag' [[= -> ->]|Hin]%elem_of_cons _.
    + by destruct (f32_total q q).
    + rewrite Forall_forall in Hq. exact (Hq _ Hin).
  - destruct (head _) as [best|].
    + destruct IH as (q0 & tag0 & Hin & Ho & Hbest). exists q0, tag0. split_and!; [by right|done|].
      intros q' tag' [[= -> ->]|Hin']%elem_of_cons [x Hs]; [congruence|]. eapply Hbest; [done|by eexists].
    + intros q' tag' [[= -> ->]|Hin']%elem_of_cons; [done|by eapply IH].
Qed.

Lemma ranges_sorted l :
  StronglySorted (fun a b => f32_total_le b.1 a.1 = true) (sort_by (fun a b : Z * list Z => f32_total_le b.1 a.1) l).
Proof.
  assert (Htr : Transitive (fun a b : Z * list Z => f32_total_le b.1 a.1 = true)).
  { intros a b c ? ?. by eapply f32_trans. }
  assert (Hto : Total (fun a b : Z * list Z => f32_total_le b.1 a.1 = true)).
  { intros a b. destruct (f32_total a.1 b.1); [by right|by left]. }
  unfold sort_by. apply StronglySorted_merge_sort; assumption.
Qed.

(** A page is in the supported language the browser weighs highest, and in
    English if it names none. *)
Theorem best_language (header : list Z) :
  let ranges := omap language_range (split 44 header) in
  (exists q tag, (q, tag) ∈ ranges /\ of_tag tag = Some (from_accept_language header)
     /\ forall q' tag', (q', tag') ∈ ranges -> is_Some (of_tag tag') -> f32_total_le q' q = true)
  \/ (from_accept_language header = En /\ forall q tag, (q, tag) ∈ ranges -> of_tag tag = None).
Proof.
  cbn zeta. unfold from_accept_language. set (l := omap language_range _).
  pose proof (first_supported (sort_by (fun a b => f32_total_le b.1 a.1) l)) as Hf.
  destruct (head _) as [best|] eqn:E; simpl.
  - left. destruct Hf as (q & tag & Hin & Ho & Hb).
    { apply ranges_sorted. }
    exists q, tag. rewrite elem_of_sort_by in Hin. split_and!; [done..|].
    intros q' tag' Hin'. apply Hb. by apply elem_of_sort_by.
  - right. split; [done|]. intros q tag Hin. eapply Hf; [apply ranges_sorted|by apply elem_of_sort_by].
Qed.

End languages.

Module TextExamples.

(** Weights in tenths. *)
#[local] Instance tenths : F32 := {
  f32_parse s := if bool_decide (s = lit "1") then Some 10
                 else match s with [48; 46; d] => Some (d - 48) | _ => None end;
  f32_one := 10;
  f32_positive := Z.ltb 0;
  f32_total_le := Z.leb
}.

Example german_first : from_accept_language (lit "fr, en;q=0.7, de-CH;q=0.9, de;q=0") = De.
Proof. vm_compute. reflexivity. Qed.

Example none_supported : from_accept_language (lit "fr;q=0.9, es") = En.
Proof. vm_compute. reflexivity. Qed.

Example posix_variables :
  from_posix (fun n => if bool_decide (n = lit "LANG") then Some (lit "de_DE.UTF-8")
                       else if bool_decide (n = lit "LC_ALL") then Some [] else None) = De.
Proof. vm_compute. reflexivity. Qed.

Lemma best_language_witness :
  let ranges := omap language_range (split 44 (lit "de;q=0.9,en")) in
  (exists q tag, (q, tag) ∈ ranges /\ of_tag tag = Some (from_accept_language (lit "de;q=0.9,en"))
     /\ forall q' tag', (q', tag') ∈ ranges -> is_Some (of_tag tag') -> f32_total_le q' q = true)
  \/ (from_accept_language (lit "de;q=0.9,en") = En /\ forall q tag, (q, tag) ∈ ranges -> of_tag tag = None).
Proof.
  apply best_language.
  - intros a b c. simpl. rewrite !Z.leb_le. lia.
  - intros a b. simpl. rewrite !Z.leb_le. lia.
Defined.

End TextExamples.
