(* ===== verification/ConnectorUsers.v ===== *)
(** * The users of the connector's web interface (crates/connector/src/users.rs)

    The customer's people who open and close access: [users.json] of the data
    directory, kept by the command line, and the check of a sign-in. The file
    may be missing, unreadable or not writable; argon2, base32 and what the
    system draws are parameters. *)
From S2P Require Import Prelude Text Utf8 Sid Totp Ip Network Inventory.
From S2P Require Import Requests Access.

Record WebUser := { wu_password : list Z; wu_totp : option (list Z) }.

#[export] Instance web_user_eq_dec : EqDecision WebUser.
Proof. solve_decision. Defined.

(** What a user is shown once: the password, and the secret with its link. *)
Record Issued := { is_password : list Z; is_totp : option (list Z * list Z) }.

(** [Panicked] stands for an [expect] that failed: the command ends there. *)
Inductive UserError :=
| UserExists (name : list Z) | UserUnknown (name : list Z) | UserInvalidName | UserIo | Panicked.

Inductive Refused := WrongCredentials | WrongCode.

#[export] Instance refused_eq_dec : EqDecision Refused.
Proof. solve_decision. Defined.

(** [users.json] as a reader finds it, and whether it can be replaced: the new
    file is written beside it and renamed. *)
Record UsersFile := { users_json : Content (gmap (list Z) WebUser); users_writable : bool }.

Definition no_users : UsersFile := {| users_json := Missing; users_writable := true |}.

(** What the system draws for a user: the bytes of the password, the salt of
    its hash, and the secret. *)
Record Drawn := { dr_bytes : list Z; dr_salt : list Z; dr_secret : list Z }.

Definition UM (A : Type) : Type := stM UsersFile UserError A.

Definition load_users : UM (gmap (list Z) WebUser) := fun w =>
  match read_content ∅ (users_json w) with
  | Some users => (Ok users, w)
  | None => (Err UserIo, w)
  end.

Definition save_users (users : gmap (list Z) WebUser) : UM unit := fun w =>
  if users_writable w
  then (Ok tt, {| users_json := Holds users; users_writable := users_writable w |})
  else (Err UserIo, w).

Definition list_users : UM (list (list Z * bool)) :=
  users <-- load_users; ret ((fun nu => (nu.1, is_some (wu_totp nu.2))) <$> btree users).

Definition valid_user (name : str) : bool :=
  (1 <=? str_len name) && (str_len name <=? 64)
  && forallb (fun c => is_ascii_alphanumeric c || (c =? 46) || (c =? 45) || (c =? 95)) name.

Section users.
Context `{Lowercase} `{Argon2} `{Hmac} `{Base32}.

Definition hash (salt : list Z) (password : str) : option (list Z) := argon2_hash salt (utf8 password).

Definition random_password (bytes : list Z) : list Z := to_lowercase (b32_encode bytes).

Definition check_password (h password : str) : bool := argon2_matches (utf8 password) h.

Definition ISSUER : list Z := lit "remotehub-connector".

Definition issue (drawn : Drawn) (name : str) (with_totp : bool) : option (WebUser * Issued) :=
  let password := random_password (dr_bytes drawn) in
  let totp :=
    if with_totp then
      let secret := Totp.encode (dr_secret drawn) in Some (secret, uri ISSUER name secret)
    else None in
  h ← hash (dr_salt drawn) password;
  Some ({| wu_password := h; wu_totp := fst <$> totp |}, {| is_password := password; is_totp := totp |}).

Definition issued (drawn : Drawn) (name : str) (with_totp : bool) : UM (WebUser * Issued) :=
  match issue drawn name with_totp with Some made => ret made | None => fail Panicked end.

Definition add_user (drawn : Drawn) (name : str) (with_totp : bool) : UM Issued :=
  if negb (valid_user name) then fail UserInvalidName
  else
    users <-- load_users;
    if bool_decide (is_Some (users !! name)) then fail (UserExists name)
    else
      made <-- issued drawn name with_totp;
      save_users (<[name := made.1]> users);;
      ret made.2.

Definition reset_user (drawn : Drawn) (name : str) (with_totp : bool) : UM Issued :=
  users <-- load_users;
  match users !! name with
  | None => fail (UserUnknown name)
  | Some _ =>
      made <-- issued drawn name with_totp;
      save_users (<[name := made.1]> users);;
      ret made.2
  end.

Definition delete_user (name : str) : UM unit :=
  users <-- load_users;
  match users !! name with
  | None => fail (UserUnknown name)
  | Some _ => save_users (delete name users)
  end.

(** [Users::verify]; [None] is a panic. A file that cannot be read has no
    users. *)
Definition verify (name password code : str) (unix : Z) (w : UsersFile) : option (result unit Refused) :=
  let users := default ∅ (read_content ∅ (users_json w)) in
  match users !! name with
  | None => Some (Err WrongCredentials)
  | Some user =>
      if negb (check_password (wu_password user) password) then Some (Err WrongCredentials)
      else
        match wu_totp user with
        | None => Some (Ok tt)
        | Some secret =>
            match Totp.decode secret with
            | None => Some (Err WrongCode)
            | Some secret =>
                match step secret (trim code) unix with
                | None => None
                | Some (Some _) => Some (Ok tt)
                | Some None => Some (Err WrongCode)
                end
            end
        end
  end.

(** ** Theorems *)

Definition read_users (w : UsersFile) : option (gmap (list Z) WebUser) := read_content ∅ (users_json w).

(** What changes the file: the command line's commands. *)
Inductive UserCommand :=
| AddUser (drawn : Drawn) (name : list Z) (with_totp : bool)
| ResetUser (drawn : Drawn) (name : list Z) (with_totp : bool)
| DeleteUser (name : list Z).

Definition run_command (c : UserCommand) (w : UsersFile) : result (option Issued) UserError * UsersFile :=
  match c with
  | AddUser drawn name t => (i <-- add_user drawn name t; ret (Some i)) w
  | ResetUser drawn name t => (i <-- reset_user drawn name t; ret (Some i)) w
  | DeleteUser name => (delete_user name;; ret None) w
  end.

(** The name a command is about. *)
Definition command_name (c : UserCommand) : list Z :=
  match c with AddUser _ n _ | ResetUser _ n _ => n | DeleteUser n => n end.

Lemma add_user_run drawn name t w :
  add_user drawn name t w
  = if negb (valid_user name) then (Err UserInvalidName, w)
    else match read_users w with
         | None => (Err UserIo, w)
         | Some users =>
             if bool_decide (is_Some (users !! name)) then (Err (UserExists name), w)
             else match issue drawn name t with
                  | None => (Err Panicked, w)
                  | Some made =>
                      if users_writable w
                      then (Ok made.2, {| users_json := Holds (<[name := made.1]> users); users_writable := true |})
                      else (Err UserIo, w)
                  end
         end.
Proof.
  unfold add_user, bindM, load_users, read_users, issued, save_users, fail, ret.
  destruct (valid_user name); simpl; [|done]. destruct (read_content ∅ (users_json w)) as [users|]; [|done].
  destruct (bool_decide _); [done|]. destruct (issue drawn name t) as [made|]; [|done].
  by destruct (users_writable w) eqn:Ew; rewrite ?Ew.
Qed.

Lemma reset_user_run drawn name t w :
  reset_user drawn name t w
  = match read_users w with
    | None => (Err UserIo, w)
    | Some users =>
        match users !! name, issue drawn name t with
        | None, _ => (Err (UserUnknown name), w)
        | Some _, None => (Err Panicked, w)
        | Some _, Some made =>
            if users_writable w
            then (Ok made.2, {| users_json := Holds (<[name := made.1]> users); users_writable := true |})
            else (Err UserIo, w)
        end
    end.
Proof.
  unfold reset_user, bindM, load_users, read_users, issued, save_users, fail, ret.
  destruct (read_content ∅ (users_json w)) as [users|]; [|done]. destruct (users !! name); [|done].
  destruct (issue drawn name t) as [made|]; [|done]. by destruct (users_writable w) eqn:Ew; rewrite ?Ew.
Qed.

Lemma delete_user_run name w :
  delete_user name w
  = match read_users w with
    | None => (Err UserIo, w)
    | Some users =>
        match users !! name with
        | None => (Err (UserUnknown name), w)
        | Some _ =>
            if users_writable w then (Ok tt, {| users_json := Holds (delete name users); users_writable := true |})
            else (Err UserIo, w)
        end
    end.
Proof.
  unfold delete_user, bindM, load_users, read_users, save_users, fail.
  destruct (read_content ∅ (users_json w)) as [users|]; [|done]. destruct (users !! name); [|done].
  by destruct (users_writable w) eqn:Ew; rewrite ?Ew.
Qed.

(** A command of the command line changes the one user it names, or fails
    and leaves the file as it was; nobody but an existing user is replaced or
    deleted, and nobody existing added. *)
Theorem command_exact (c : UserCommand) (w : UsersFile) :
  match run_command c w with
  | (Err _, w') => w' = w
  | (Ok shown, w') =>
      exists users users', read_users w = Some users /\ read_users w' = Some users'
        /\ (forall other, other <> command_name c -> users' !! other = users !! other)
        /\ match c with
           | AddUser drawn n t =>
               valid_user n = true /\ users !! n = None
               /\ exists made, issue drawn n t = Some made /\ users' !! n = Some made.1 /\ shown = Some made.2
           | ResetUser drawn n t =>
               is_Some (users !! n)
               /\ exists made, issue drawn n t = Some made /\ users' !! n = Some made.1 /\ shown = Some made.2
           | DeleteUser n => is_Some (users !! n) /\ users' !! n = None
           end
  end.
Proof.
  destruct c as [drawn n t|drawn n t|n]; simpl; unfold bindM, ret.
  - rewrite add_user_run. destruct (valid_user n) eqn:Hv; simpl; [|done].
    destruct (read_users w) as [users|] eqn:Hr; [|done]. case_bool_decide as Hn; [done|].
    destruct (issue drawn n t) as [made|] eqn:Hi; [|done]. destruct (users_writable w); [|done].
    exists users, (<[n := made.1]> users). split_and!; [done|done| |done| |].
    + intros other Ho. by rewrite lookup_insert_ne.
    + destruct (users !! n); [by destruct Hn; eexists|done].
    + exists made. by rewrite lookup_insert_eq.
  - rewrite reset_user_run. destruct (read_users w) as [users|] eqn:Hr; [|done].
    destruct (users !! n) as [u|] eqn:Hn; [|done].
    destruct (issue drawn n t) as [made|] eqn:Hi; [|done]. destruct (users_writable w); [|done].
    exists users, (<[n := made.1]> users). rewrite Hn. split_and!; [done|done| |by eexists|].
    + intros other Ho. by rewrite lookup_insert_ne.
    + exists made. by rewrite lookup_insert_eq.
  - rewrite delete_user_run. destruct (read_users w) as [users|] eqn:Hr; [|done].
    destruct (users !! n) as [u|] eqn:Hn; [|done]. destruct (users_writable w); [|done].
    exists users, (delete n users). rewrite Hn. split_and!; [done|done| |by eexists|].
    + intros other Ho. by rewrite lookup_delete_ne.
    + by rewrite lookup_delete_eq.
Qed.

(** *** Signing in *)

Context `{!HmacOk} `{!Argon2Ok} `{!Base32Ok}.

(** The check of a sign-in always ends, and it ends well exactly for a user
    of the file with the password of its hash and, if it has a second factor,
    the code of the current half minute or of one beside it. *)
Theorem verify_iff (name password code : list Z) (unix : Z) (w : UsersFile) :
  0 <= unix -> Forall (fun c => scalar c = true) code ->
  is_Some (verify name password code unix w)
  /\ (verify name password code unix w = Some (Ok tt) <->
      exists users user, read_users w = Some users /\ users !! name = Some user
        /\ argon2_matches (utf8 password) (wu_password user) = true
        /\ forall text, wu_totp user = Some text ->
             exists secret s, Totp.decode text = Some secret /\ 0 <= s
               /\ unix / PERIOD - 1 <= s <= unix / PERIOD + 1 /\ Totp.code secret s = Some (trim code)).
Proof.
  intros Hu Hc. unfold verify, read_users.
  destruct (read_content ∅ (users_json w)) as [users|]; simpl.
  2: { rewrite lookup_empty. split; [by eexists|]. split; [done|]. by intros (? & ? & ? & _). }
  destruct (users !! name) as [user|] eqn:Hn.
  2: { split; [by eexists|]. split; [done|]. by intros (? & ? & [= <-] & ? & _); simplify_eq. }
  unfold check_password. destruct (argon2_matches _ _) eqn:Hm; simpl.
  2: { split; [by eexists|]. split; [done|]. intros (? & ? & [= <-] & ? & ? & _). congruence. }
  destruct (wu_totp user) as [text|] eqn:Ht.
  2: { split; [by eexists|]. split; [|done]. intros _. exists users, user. split_and!; [done..|]. by rewrite Ht. }
  destruct (Totp.decode text) as [secret|] eqn:Hd.
  2: { split; [by eexists|]. split; [done|]. intros (? & ? & [= <-] & ? & _ & Hx). simplify_eq.
       destruct (Hx _ Ht) as (? & ? & ? & _). congruence. }
  destruct (code_accepted_iff secret (trim code) unix Hu) as (answer & Hs & Hiff & _); [by apply Forall_trim|].
  rewrite Hs. split; [by destruct answer; eexists|]. split.
  - intros Hok. exists users, user. split_and!; [done..|]. intros text' Ht'. simplify_eq.
    destruct answer as [s|]; [|done]. destruct (proj1 Hiff) as (s' & Hpos & Hr & Hcode); [by eexists|].
    by exists secret, s'.
  - intros (users' & user' & [= <-] & Hn' & _ & Hx). simplify_eq. destruct (Hx _ Ht) as (secret' & s & Hd' & Hcode).
    simplify_eq. destruct (proj2 Hiff) as [a ->]; [by exists s|done].
Qed.

(** What who signs in shows: the password behind the stored hash and, with a
    second factor, a code of its secret for the current time step or one beside
    it. *)
Definition knows (name password code : str) (unix : Z) (w : UsersFile) : Prop :=
  exists users user, read_users w = Some users /\ users !! name = Some user
    /\ argon2_matches (utf8 password) (wu_password user) = true
    /\ forall text, wu_totp user = Some text ->
         exists secret s c, Totp.decode text = Some secret
           /\ s ∈ [unix / PERIOD; Z.max 0 (unix / PERIOD - 1); unix / PERIOD + 1]
           /\ Totp.code secret s = Some c /\ utf8 c = utf8 (trim code).

Lemma verify_knows name password code unix w :
  verify name password code unix w = Some (Ok tt) -> knows name password code unix w.
Proof.
  unfold verify, knows, read_users. destruct (read_content ∅ (users_json w)) as [users|]; simpl; [|by rewrite lookup_empty].
  destruct (users !! name) as [user|] eqn:Hn; [|done]. unfold check_password.
  destruct (argon2_matches _ _) eqn:Hm; [|done]. cbn [negb]. intros Hv. exists users, user. split_and!; [done..|].
  intros text Ht. rewrite Ht in Hv. destruct (Totp.decode text) as [secret|]; [|done].
  destruct (step secret (trim code) unix) as [[s|]|] eqn:Hs; [|done..].
  apply find_step_found in Hs as (Hin & c & Hc & Hu). by exists secret, s, c.
Qed.

Lemma decode_encode (secret : list Z) :
  Forall byte secret -> Z.of_nat (length secret) = SECRET_BYTES -> Totp.decode (Totp.encode secret) = Some secret.
Proof.
  intros Hb Hl. unfold Totp.decode, Totp.encode. pose proof (b32_chars secret) as Hc.
  assert (Hr : Forall (fun c => 48 <= c <= 90) (b32_encode secret)).
  { eapply Forall_impl; [exact Hc|]. intros c Hx.
    apply orb_prop in Hx as [Hx|Hx]; unfold is_ascii_upper, is_ascii_digit in Hx; bools; lia. }
  rewrite trim_none by (eapply Forall_impl; [exact Hr|]; simpl; intros c ?; apply not_whitespace; lia).
  rewrite utf8_ascii by (eapply Forall_impl; [exact Hr|]; simpl; lia).
  rewrite b32_reads_back by done. by rewrite (proj2 (Z.eqb_eq _ _)).
Qed.

(** What the command line shows for an added or reset user signs in: the
    password, and the code the secret makes at the time if it has one. *)
Theorem issued_user_signs_in (drawn : Drawn) (name : list Z) (t : bool) (w w' : UsersFile) (shown : Issued)
    (code : list Z) (unix : Z) :
  add_user drawn name t w = (Ok shown, w') \/ reset_user drawn name t w = (Ok shown, w') ->
  Forall byte (dr_secret drawn) -> Z.of_nat (length (dr_secret drawn)) = SECRET_BYTES ->
  Totp.code (dr_secret drawn) (unix / PERIOD) = Some code ->
  verify name (is_password shown) (if t then code else []) unix w' = Some (Ok tt).
Proof.
  intros Hmade Hb Hl Hcode.
  assert (Hw : exists users made, issue drawn name t = Some made /\ shown = made.2
    /\ users_json w' = Holds (<[name := made.1]> users)).
  { rewrite add_user_run, reset_user_run in Hmade. destruct (read_users w) as [users|].
    - exists users. destruct Hmade as [Hm|Hm].
      + destruct (negb _); [done|]. destruct (bool_decide _); [done|]. destruct (issue _ _ _) as [made|]; [|done].
        destruct (users_writable w); [|done]. exists made. by injection Hm as <- <-.
      + destruct (users !! name); [|done]. destruct (issue _ _ _) as [made|]; [|done].
        destruct (users_writable w); [|done]. exists made. by injection Hm as <- <-.
    - destruct Hmade as [Hm|Hm]; [by destruct (negb _)|done]. }
  destruct Hw as (users & made & Hi & -> & Hj). unfold verify. rewrite Hj. simpl. rewrite lookup_insert_eq.
  unfold issue in Hi. apply bind_Some in Hi as (h & Hh & [= <-]). simpl. unfold check_password.
  unfold hash in Hh. rewrite (argon2_ok _ _ _ Hh). simpl. destruct t; simpl; [|done].
  rewrite decode_encode by done. by rewrite (trim_code _ _ _ Hcode), step_now.
Qed.

End users.

(** ** Examples *)

Module UserExamples.

#[local] Instance same_lower : Lowercase := fun s => s.
#[local] Existing Instance TotpExamples.counting.
#[local] Existing Instance TotpExamples.counting_ok.
#[local] Existing Instance TotpExamples.letters.
#[local] Existing Instance TotpExamples.letters_ok.
(** A hash that tells the password behind its salt. *)
#[local] Instance open_argon2 : Argon2 := {
  argon2_hash salt password := if bool_decide (36 ∈ salt) then None else Some (salt ++ [36] ++ password);
  argon2_matches password h := match split_once 36 h with Some (_, p) => bool_decide (p = password) | None => false end
}.
#[local] Instance open_argon2_ok : Argon2Ok.
Proof.
  intros salt password h. simpl. case_bool_decide as Hin; [done|]. intros [= <-].
  rewrite split_once_app by done. by rewrite bool_decide_eq_true_2.
Qed.

Definition drawn : Drawn := {| dr_bytes := repeat 5 15; dr_salt := lit "salt"; dr_secret := repeat 7 20 |}.

Definition carol : list Z := lit "carol".
Definition nobody : Issued := {| is_password := []; is_totp := None |}.
Definition added : UsersFile := (add_user drawn carol true no_users).2.
Definition shown : Issued := default nobody (ok (add_user drawn carol true no_users).1).
Definition now_code (unix : Z) : list Z := default [] (Totp.code (dr_secret drawn) (unix / PERIOD)).

Lemma added_ok : add_user drawn carol true no_users = (Ok shown, added).
Proof. vm_compute. reflexivity. Qed.

Lemma issued_user_signs_in_witness :
  verify carol (is_password shown) (now_code 100) 100 added = Some (Ok tt).
Proof.
  apply (issued_user_signs_in drawn carol true no_users added shown (now_code 100) 100).
  - left. exact added_ok.
  - apply Forall_forall. intros x Hx. apply list_elem_of_In, repeat_spec in Hx. subst. split; lia.
  - vm_compute. reflexivity.
  - vm_compute. reflexivity.
Defined.

Lemma verify_iff_witness :
  is_Some (verify carol (is_password shown) (lit "000000") 100 added)
  /\ verify carol (is_password shown) (lit "000000") 100 added <> Some (Ok tt).
Proof.
  split.
  - apply (verify_iff carol (is_password shown) (lit "000000") 100 added); [lia|].
    repeat (constructor; [reflexivity|]). constructor.
  - vm_compute. discriminate.
Defined.

(** The names of the file with what the list shows of them. *)
Example listed_users : (list_users added).1 = Ok [(carol, true)].
Proof. vm_compute. reflexivity. Qed.

(** A code is good for more than one sign-in: nothing remembers its step. *)
Example code_used_twice :
  verify carol (is_password shown) (now_code 100) 100 added = Some (Ok tt)
  /\ verify carol (is_password shown) (now_code 100) 101 added = Some (Ok tt).
Proof. split; vm_compute; reflexivity. Qed.

End UserExamples.
