(* ===== verification/ConnectorPages.v ===== *)
(** * The pages of the connector's web interface (crates/connector/src/ui.rs)

    The HTML the connector writes: the sign-in page, and the page with the
    state of the access, remotehub's requests, the customer's list, the running
    connections and the journal. Everything that comes from outside (names,
    reasons, addresses, the texts of the catalogs) passes [escape]. A single
    quote in a literal here stands for the double quote of the code; the
    readings of the clock while a page is made are one. *)
From S2P Require Import Prelude Text Utf8 Ip Network Inventory.
From S2P Require Import Requests Access Agent ConnectorText.

Record Entry := { e_at : Z; e_event : JournalEvent }.

(** What a page shows: the gate's snapshot, the requests that wait, the running
    connections with their bytes to and from the device, and the latest
    entries of the journal. *)
Record View := {
  v_remotehub : list Z;
  v_now : Z;
  v_snapshot : Snapshot;
  v_waiting : list CustomerRequest;
  v_running : list (Running * (Z * Z));
  v_recent : list Entry
}.

(** [00-00-00 00:00 UTC] of a point in time (crate [time]); none out of its
    range. *)
Class MinuteText := minute_text : Z -> option (list Z).

(** [Uuid::simple]: 32 digits (crate [uuid]). *)
Class UuidSimple := uuid_simple : Uuid -> list Z.

Definition html (s : string) : list Z := (fun c => if c =? 39 then 34 else c) <$> lit s.

Definition escape_char (c : Z) : list Z :=
  if c =? 38 then lit "&amp;"
  else if c =? 60 then lit "&lt;"
  else if c =? 62 then lit "&gt;"
  else if c =? 34 then lit "&quot;"
  else if c =? 39 then lit "&#39;"
  else [c].

Definition escape (text : str) : list Z := text ≫= escape_char.

(** [str::replace]; [skip] counts the characters of a match left to pass. *)
Fixpoint replace_from (pattern by_ s : list Z) (skip : nat) : list Z :=
  match s with
  | [] => []
  | c :: s' =>
      match skip with
      | S skip => replace_from pattern by_ s' skip
      | O => if starts_with pattern s then by_ ++ replace_from pattern by_ s' (length pattern - 1)
             else c :: replace_from pattern by_ s' 0
      end
  end.

Definition replace (pattern by_ s : list Z) : list Z := replace_from pattern by_ s 0.

Definition slot (n : Z) : list Z := 0xE000 :: decimal n ++ [0xE000].

(** The elements in the slots, from the [n]th on. *)
Fixpoint fill_slots (n : Z) (elements : list (list Z)) (text : list Z) : list Z :=
  match elements with
  | [] => text
  | e :: elements => fill_slots (n + 1) elements (replace (slot n) e text)
  end.

Definition ICON_CLOSED : list Z := html "<svg class='icon' viewBox='0 0 24 24' aria-hidden='true'><rect x='4' y='11' width='16' height='10' rx='2'/><path d='M8 11V7a4 4 0 0 1 8 0v4'/></svg>".
Definition ICON_WARNING : list Z := html "<svg class='icon' viewBox='0 0 24 24' aria-hidden='true'><path d='M12 3 2 21h20L12 3z'/><path d='M12 10v5M12 18v.5'/></svg>".
Definition ICON_OPEN : list Z := html "<svg class='icon' viewBox='0 0 24 24' aria-hidden='true'><rect x='4' y='11' width='16' height='10' rx='2'/><path d='M8 11V7a4 4 0 0 1 7.9-1'/></svg>".

Section pages.
Context `{Fluent} `{Rfc3339} `{MinuteText} `{UuidText} `{UuidSimple}.

Definition t (l : Locale) (m : Message) : list Z := escape (render l m).

Definition rich (l : Locale) (m : Message) (elements : list (list Z)) : list Z :=
  fill_slots 0 elements (t l m).

Definition time_element (at_ : Z) : list Z :=
  html "<time datetime='" ++ default [] (rfc3339 at_) ++ html "'>" ++ default [] (minute_text at_) ++ html "</time>".

Definition bytes_element (bytes : Z) : list Z :=
  html "<data value='" ++ decimal bytes ++ html "' class='bytes'>" ++ decimal bytes ++ html " B</data>".

Definition page (l : Locale) (body : list Z) : list Z :=
  let lang := match l with En => lit "en" | De => lit "de" end in
  html "<!doctype html>" ++ [10] ++ html "<html lang='" ++ lang ++ html "'>"
  ++ html "<head><meta charset='utf-8'><meta name='viewport' content='width=device-width, initial-scale=1'><title>"
  ++ t l ConnectorUiTitle
  ++ html "</title><link rel='stylesheet' href='/app.css'><script src='/app.js' defer></script></head><body><main>"
  ++ body ++ html "</main></body></html>".

Definition error_text (error : option (list Z)) : list Z :=
  match error with
  | Some text => html "<p class='error' role='alert'>" ++ text ++ html "</p>"
  | None => []
  end.

Definition sign_in_form (l : Locale) (error : option (list Z)) : list Z :=
  page l
    (html "<h1>" ++ t l ConnectorUiTitle ++ html "</h1><form class='card sign-in' method='post' action='/sign-in'>"
     ++ error_text error
     ++ html "<label>" ++ t l ConnectorUiName ++ html "<input name='name' autocomplete='username' required autofocus></label>"
     ++ html "<label>" ++ t l ConnectorUiPassword ++ html "<input name='password' type='password' autocomplete='current-password' required></label>"
     ++ html "<label>" ++ t l ConnectorUiCode ++ html "<input name='code' inputmode='numeric' autocomplete='one-time-code'></label>"
     ++ html "<p class='hint'>" ++ t l ConnectorUiCodeHint ++ html "</p><button type='submit'>" ++ t l ConnectorUiSignIn
     ++ html "</button></form>").

(** ** Rows *)

(** A row's access: its own, or for a device through an open group. *)
Definition row_state (now : Z) (s : Stored) (via : option (list Z)) (l : Locale) : bool * list Z :=
  let other := match via with
               | Some group => (true, t l (ConnectorUiRowOpenVia group))
               | None => (false, t l ConnectorUiRowClosed)
               end in
  match access s with
  | Access_Open (Some until) =>
      if now <? until then (true, rich l (ConnectorUiRowOpenUntil (slot 0)) [time_element until]) else other
  | Access_Open None => (true, t l ConnectorUiRowOpen)
  | Access_Closed => other
  end.

Definition durations (l : Locale) : list Z :=
  [1; 4; 8] ≫= fun hours =>
    html "<option value='" ++ decimal hours ++ html "'>" ++ t l (ConnectorUiHours hours) ++ html "</option>".

Definition row_cells (kind name : list Z) (open own_open : bool) (state : list Z) (l : Locale) : list Z :=
  let name := escape name in
  let icon := if open then ICON_OPEN else ICON_CLOSED in
  let class := if open then lit "open" else lit "closed" in
  let scope :=
    html "<input type='hidden' name='scope' value='" ++ kind ++ html "'>"
    ++ html "<input type='hidden' name='name' value='" ++ name ++ html "'>" in
  let close :=
    if own_open then
      html "<form method='post' action='/access'>" ++ scope
      ++ html "<input type='hidden' name='action' value='close'><button type='submit' class='danger'>"
      ++ t l ConnectorUiCloseRow ++ html "</button></form>"
    else [] in
  html "<td>" ++ html "<span class='row-state " ++ class ++ html "'>" ++ icon ++ html "<span>" ++ state
  ++ html "</span></span></td><td><div class='row-actions'><form method='post' action='/access'>" ++ scope
  ++ html "<input type='hidden' name='action' value='open'>"
  ++ html "<select name='duration' aria-label='" ++ t l ConnectorUiOpen ++ html "'>" ++ durations l
  ++ html "<option value='permanent'>" ++ t l ConnectorUiWithoutEnd
  ++ html "</option></select><button type='submit'>" ++ t l ConnectorUiOpen ++ html "</button></form>" ++ close
  ++ html "<form method='post' action='/" ++ kind ++ html "s/remove'>"
  ++ html "<input type='hidden' name='name' value='" ++ name ++ html "'>"
  ++ html "<button type='submit' class='quiet'>" ++ t l ConnectorUiRemove ++ html "</button></form></div></td>".

(** ** Requests *)

(** The device of the customer's list that covers a target, without resolving
    host names. *)
Definition lists (target : RequestTarget) (d : Device) : bool :=
  existsb (fun p => ports_contains p (port target)) (ports d)
  && match d_address d, parse_ip (host target) with
     | Address_Host n, _ => eq_ignore_ascii_case n (host target)
     | Address_Range net, Some ip => contains net ip
     | Address_Range _, None => false
     end.

Definition listed_as (s : Snapshot) (target : RequestTarget) : option (list Z) :=
  (fun kd => name kd.2) <$> list_find (fun d => lists target d = true) (devices (s_inventory s)).

Definition target_row (s : Snapshot) (l : Locale) (target : RequestTarget) : list Z :=
  let listed :=
    match listed_as s target with
    | Some n => html "<span class='row-state open'>" ++ t l (ConnectorUiListedAs n) ++ html "</span>"
    | None => html "<span class='row-state unlisted'>" ++ ICON_WARNING ++ html "<span>" ++ t l ConnectorUiNotListed
              ++ html "</span></span>"
    end in
  html "<tr><td>" ++ escape (t_name target) ++ html "</td><td><code>" ++ escape (host target)
  ++ html "</code></td><td>" ++ decimal (port target) ++ html "</td><td>" ++ listed ++ html "</td></tr>".

Definition targets_table (s : Snapshot) (l : Locale) (targets : list RequestTarget) : list Z :=
  let rows := targets ≫= target_row s l in
  html "<table><thead><tr><th>" ++ t l ConnectorUiColTarget ++ html "</th><th>" ++ t l ConnectorUiColAddress
  ++ html "</th><th>" ++ t l ConnectorUiColPort ++ html "</th><th>" ++ t l ConnectorUiColListed
  ++ html "</th></tr></thead><tbody>" ++ rows ++ html "</tbody></table>".

Definition request_item (s : Snapshot) (l : Locale) (r : CustomerRequest) : list Z :=
  let id := uuid_text (id r) in
  html "<article class='request'><p><strong>" ++ t l (ConnectorUiRequestAsks (requester r) (minutes r))
  ++ html "</strong></p><p class='reason'>" ++ t l (ConnectorUiRequestReason (reason r)) ++ html "</p>"
  ++ targets_table s l (targets r)
  ++ html "<div class='actions'><form method='post' action='/requests/approve'>"
  ++ html "<input type='hidden' name='id' value='" ++ id ++ html "'>" ++ html "<button type='submit'>" ++ t l ConnectorUiApprove
  ++ html "</button></form><form method='post' action='/requests/refuse'>"
  ++ html "<input type='hidden' name='id' value='" ++ id ++ html "'>"
  ++ html "<button type='submit' class='danger'>" ++ t l ConnectorUiRefuse ++ html "</button></form></div></article>".

Definition requests_section (v : View) (l : Locale) : list Z :=
  match v_waiting v with
  | [] => []
  | waiting =>
      let items := waiting ≫= request_item (v_snapshot v) l in
      html "<section class='card requests'><h2>" ++ t l ConnectorUiRequests ++ html "</h2><p class='hint'>"
      ++ t l ConnectorUiRequestsHint ++ html "</p>" ++ items ++ html "</section>"
  end.

Definition approved_item (v : View) (l : Locale) (ig : Uuid * Grant) : list Z :=
  let '(id, grant) := ig in
  let state := (row_state (v_now v) (stored grant) None l).2 in
  html "<article class='request'><p><strong>" ++ t l (ConnectorUiApprovedFor (g_requester grant) (g_reason grant))
  ++ html "</strong></p><p><span class='row-state open'>" ++ ICON_OPEN ++ html "<span>" ++ state
  ++ html "</span></span></p>" ++ targets_table (v_snapshot v) l (g_targets grant)
  ++ html "<form method='post' action='/access'><input type='hidden' name='scope' value='request'>"
  ++ html "<input type='hidden' name='name' value='" ++ uuid_text id ++ html "'>"
  ++ html "<input type='hidden' name='action' value='close'><button type='submit' class='danger'>"
  ++ t l ConnectorUiCloseRow ++ html "</button></form></article>".

Definition approved_section (v : View) (l : Locale) : list Z :=
  match open_requests (v_snapshot v) (v_now v) with
  | [] => []
  | open =>
      let items := open ≫= approved_item v l in
      html "<section class='card'><h2>" ++ t l ConnectorUiApproved ++ html "</h2>" ++ items ++ html "</section>"
  end.

(** ** The customer's list *)

Definition group_row (v : View) (l : Locale) (group : list Z) : list Z :=
  let st := file_get (s_access (v_snapshot v)) (Scope_Group group) in
  let '(open, state) := row_state (v_now v) st None l in
  html "<tr><td>" ++ escape group ++ html "</td><td>"
  ++ decimal (Z.of_nat (length (members (s_inventory (v_snapshot v)) group))) ++ html "</td>"
  ++ row_cells (lit "group") group open open state l ++ html "</tr>".

Definition groups_section (v : View) (l : Locale) : list Z :=
  let list_ := s_inventory (v_snapshot v) in
  let rows :=
    match groups list_ with
    | [] => html "<p class='hint'>" ++ t l ConnectorUiNoGroups ++ html "</p>"
    | gs =>
        html "<table><thead><tr><th>" ++ t l ConnectorUiColName ++ html "</th><th>" ++ t l ConnectorUiColMembers
        ++ html "</th><th>" ++ t l ConnectorUiColAccess ++ html "</th><th></th></tr></thead><tbody>"
        ++ (gs ≫= group_row v l) ++ html "</tbody></table>"
    end in
  html "<section class='card'><h2>" ++ t l ConnectorUiGroups ++ html "</h2>" ++ rows
  ++ html "<form method='post' action='/groups' class='add'><label>" ++ t l ConnectorUiColName
  ++ html "<input name='name' required maxlength='64'></label><button type='submit'>" ++ t l ConnectorUiAddGroup
  ++ html "</button></form></section>".

(** The open group a device is open through. *)
Definition open_via (v : View) (d : Device) : option (list Z) :=
  snd <$> list_find (fun g => is_open (access (file_get (s_access (v_snapshot v)) (Scope_Group g))) (v_now v) = true)
            (d_groups d).

Definition device_row (v : View) (l : Locale) (d : Device) : list Z :=
  let st := file_get (s_access (v_snapshot v)) (Scope_Device (name d)) in
  let own_open := is_open (access st) (v_now v) in
  let '(open, state) := row_state (v_now v) st (open_via v d) l in
  html "<tr><td>" ++ escape (name d) ++ html "</td><td>" ++ escape (address_text (d_address d)) ++ html "</td><td>"
  ++ escape (ports_text (ports d)) ++ html "</td><td>" ++ escape (join (lit ", ") (d_groups d)) ++ html "</td>"
  ++ row_cells (lit "device") (name d) open own_open state l ++ html "</tr>".

Definition group_box (group : list Z) : list Z :=
  html "<label class='check'>" ++ html "<input type='checkbox' name='group' value='" ++ escape group ++ html "'>"
  ++ escape group ++ html "</label>".

Definition devices_section (v : View) (l : Locale) : list Z :=
  let list_ := s_inventory (v_snapshot v) in
  let rows :=
    match devices list_ with
    | [] => html "<p class='hint'>" ++ t l ConnectorUiNoDevices ++ html "</p>"
    | ds =>
        html "<table><thead><tr><th>" ++ t l ConnectorUiColName ++ html "</th><th>" ++ t l ConnectorUiColAddress
        ++ html "</th><th>" ++ t l ConnectorUiColPorts ++ html "</th><th>" ++ t l ConnectorUiColGroups
        ++ html "</th><th>" ++ t l ConnectorUiColAccess ++ html "</th><th></th></tr></thead><tbody>"
        ++ (ds ≫= device_row v l) ++ html "</tbody></table>"
    end in
  html "<section class='card'><h2>" ++ t l ConnectorUiDevices ++ html "</h2>" ++ rows
  ++ html "<form method='post' action='/devices' class='add'><label>" ++ t l ConnectorUiColName
  ++ html "<input name='name' required maxlength='64'></label><label>" ++ t l ConnectorUiColAddress
  ++ html "<input name='address' required maxlength='253' placeholder='10.0.0.5'></label><label>" ++ t l ConnectorUiColPorts
  ++ html "<input name='ports' required maxlength='200' placeholder='22, 3389'></label>" ++ (groups list_ ≫= group_box)
  ++ html "<button type='submit'>" ++ t l ConnectorUiAddDevice ++ html "</button></form><p class='hint'>"
  ++ t l ConnectorUiAddressHint ++ [32] ++ t l ConnectorUiPortsHint ++ html "</p></section>".

(** ** Connections and the journal *)

(** The device's name in remotehub first, the address it went to behind it. *)
Definition labelled (device : option (list Z)) (target : str) : list Z :=
  match device with
  | Some n => if bool_decide (trim n = []) then target else n ++ lit " (" ++ target ++ lit ")"
  | None => target
  end.

Definition connection_row (l : Locale) (rb : Running * (Z * Z)) : list Z :=
  let '(r, (sent, received)) := rb in
  html "<tr><td>" ++ escape (labelled (r_device r) (r_target r)) ++ html "</td><td>"
  ++ escape (default (lit "remotehub") (r_user r)) ++ html "</td><td>" ++ time_element (since r) ++ html "</td><td>"
  ++ rich l (ConnectorUiTraffic (slot 0) (slot 1)) [bytes_element sent; bytes_element received] ++ html "</td></tr>".

Definition connections_section (v : View) (l : Locale) : list Z :=
  let rows :=
    match v_running v with
    | [] => html "<p class='hint'>" ++ t l ConnectorUiNoConnections ++ html "</p>"
    | running =>
        html "<table><thead><tr><th>" ++ t l ConnectorUiColDevice ++ html "</th><th>" ++ t l ConnectorUiColUser
        ++ html "</th><th>" ++ t l ConnectorUiColSince ++ html "</th><th>" ++ t l ConnectorUiColTraffic
        ++ html "</th></tr></thead><tbody>" ++ (running ≫= connection_row l)
        ++ html "</tbody></table><p class='hint'>" ++ t l ConnectorUiUserHint ++ html "</p>"
    end in
  html "<section class='card'><h2>" ++ t l ConnectorUiConnections ++ html "</h2>" ++ rows ++ html "</section>".

(** A request's id as the journal shows it. *)
Definition short (id : Uuid) : list Z := take 8 (uuid_simple id).

Definition what (l : Locale) (scope : Scope) : list Z :=
  render l
    match scope with
    | Scope_Network => ConnectorLogWhatNetwork
    | Scope_Device n => ConnectorLogWhatDevice n
    | Scope_Group n => ConnectorLogWhatGroup n
    | Scope_Request id => ConnectorLogWhatRequest (short id)
    end.

(** Who changed the list, as the subject of a sentence. *)
Definition who (l : Locale) (by_ : Changer) : list Z :=
  match by_ with
  | Changer_Web user => user
  | _ => render l ConnectorLogCommandLine
  end.

(** [i64::try_from] of an unsigned number, [i64::MAX] beyond. *)
Definition to_i64_max (n : Z) : Z := Z.min n (2 ^ 63 - 1).

Definition div_ceil (n d : Z) : Z := (n + d - 1) / d.

Definition LOCKED_FOR : Z := 5 * 60 * 1000000000.

Definition someone (user : option (list Z)) : list Z := default (lit "remotehub") user.

(** A journal entry in words. *)
Definition describe (l : Locale) (e : JournalEvent) : list Z :=
  match e with
  | Opened by_ until scope =>
      let message :=
        match by_, until with
        | Changer_Web user, Some _ => ConnectorLogOpenedUntil user (what l scope) (slot 0)
        | Changer_Web user, None => ConnectorLogOpenedPermanent user (what l scope)
        | _, Some _ => ConnectorLogOpenedUntilCli (what l scope) (slot 0)
        | _, None => ConnectorLogOpenedPermanentCli (what l scope)
        end in
      rich l message (option_list (time_element <$> until))
  | Closed (Changer_Web user) scope => t l (ConnectorLogClosed user (what l scope))
  | Closed _ scope => t l (ConnectorLogClosedCli (what l scope))
  | Expired scope => t l (ConnectorLogExpired (what l scope))
  | DeviceAdded by_ name address ports _ => t l (ConnectorLogDeviceAdded (who l by_) name address ports)
  | DeviceRemoved by_ name => t l (ConnectorLogDeviceRemoved (who l by_) name)
  | GroupAdded by_ name => t l (ConnectorLogGroupAdded (who l by_) name)
  | GroupRemoved by_ name => t l (ConnectorLogGroupRemoved (who l by_) name)
  | RequestReceived id requester reason minutes targets =>
      t l (ConnectorLogRequestReceived (short id) requester (join (lit ", ") targets) minutes reason)
  | RequestApproved by_ id requester _ targets until =>
      rich l (ConnectorLogRequestApproved (who l by_) (short id) requester (join (lit ", ") targets) (slot 0))
        [time_element until]
  | RequestRefused by_ id requester _ targets =>
      t l (ConnectorLogRequestRefused (who l by_) (short id) requester (join (lit ", ") targets))
  | ConnectionStarted _ target device user =>
      t l (ConnectorLogConnectionStarted (someone user) (labelled device target))
  | ConnectionEnded _ target device user seconds sent received =>
      rich l (ConnectorLogConnectionEnded (someone user) (labelled device target) (to_i64_max (div_ceil seconds 60))
                (slot 0) (slot 1)) [bytes_element sent; bytes_element received]
  | ConnectionRefused target device user reason =>
      t l (ConnectorLogConnectionRefused (someone user) (labelled device target) reason)
  | UserSignedIn user address => t l (ConnectorLogSignedIn user address)
  | UserSignInFailed user address => t l (ConnectorLogSignInFailed user address)
  | UserLocked user => t l (ConnectorLogLocked user (to_i64_max (LOCKED_FOR / 1000000000 / 60)))
  end.

Definition log_row (l : Locale) (e : Entry) : list Z :=
  html "<tr><td>" ++ time_element (e_at e) ++ html "</td><td>" ++ describe l (e_event e) ++ html "</td></tr>".

Definition log_section (v : View) (l : Locale) : list Z :=
  let rows :=
    match v_recent v with
    | [] => html "<p class='hint'>" ++ t l ConnectorUiNoLog ++ html "</p>"
    | entries =>
        html "<table><thead><tr><th>" ++ t l ConnectorUiColTime ++ html "</th><th>" ++ t l ConnectorUiColEvent
        ++ html "</th></tr></thead><tbody>" ++ (entries ≫= log_row l) ++ html "</tbody></table>"
    end in
  html "<section class='card'><h2>" ++ t l ConnectorUiLog ++ html "</h2>" ++ rows ++ html "</section>".

(** ** The page *)

Definition partly (v : View) : bool :=
  negb (network_open (v_snapshot v) (v_now v)) && any_open (v_snapshot v) (v_now v).

Definition network_state (v : View) (l : Locale) : list Z :=
  let other := if partly v then t l ConnectorUiPartly else t l ConnectorUiClosed in
  match access (Access.network (s_access (v_snapshot v))) with
  | Access_Open (Some until) =>
      if network_open (v_snapshot v) (v_now v)
      then rich l (ConnectorUiOpenUntil (slot 0)) [time_element until] else other
  | Access_Open None => t l ConnectorUiOpenPermanent
  | Access_Closed => other
  end.

Definition last_changed (st : Stored) (l : Locale) : list Z :=
  match changed_by st, changed_at st with
  | Some by_, Some at_ =>
      let message := match by_ with
                     | Changer_Web user => ConnectorUiChangedBy user (slot 0)
                     | Changer_CommandLine => ConnectorUiChangedCli (slot 0)
                     | Changer_Expiry => ConnectorUiChangedExpiry (slot 0)
                     end in
      html "<p class='hint'>" ++ rich l message [time_element at_] ++ html "</p>"
  | _, _ => []
  end.

Definition state_class (v : View) : list Z * list Z :=
  if network_open (v_snapshot v) (v_now v) then (lit "state open", ICON_OPEN)
  else if partly v then (lit "state partly", ICON_OPEN)
  else (lit "state closed", ICON_CLOSED).

Definition hours_forms (l : Locale) : list Z :=
  [1; 4; 8] ≫= fun hours =>
    html "<form method='post' action='/access'><input type='hidden' name='action' value='hours'>"
    ++ html "<input type='hidden' name='hours' value='" ++ decimal hours ++ html "'>" ++ html "<button type='submit'>"
    ++ t l (ConnectorUiOpenFor hours) ++ html "</button></form>".

Definition close_form (v : View) (l : Locale) : list Z :=
  if network_open (v_snapshot v) (v_now v) then
    html "<form method='post' action='/access' class='close'><input type='hidden' name='action' value='close'><button type='submit' class='danger'>"
    ++ t l ConnectorUiClose ++ html "</button><span class='hint'>" ++ t l ConnectorUiCloseHint ++ html "</span></form>"
  else [].

Definition status_page (v : View) (l : Locale) (user : list Z) (error : option (list Z)) : list Z :=
  let '(class, icon) := state_class v in
  page l
    (html "<header><div><h1>" ++ t l ConnectorUiTitle ++ html "</h1><p class='hint'>"
     ++ t l (ConnectorUiAccessFor (v_remotehub v))
     ++ html "</p></div><form method='post' action='/sign-out' class='who'><span>" ++ t l (ConnectorUiSignedInAs user)
     ++ html "</span><button type='submit' class='quiet'>" ++ t l ConnectorUiSignOut
     ++ html "</button></form></header><section class='card'>" ++ html "<p class='" ++ class ++ html "'>" ++ icon
     ++ html "<span>" ++ network_state v l ++ html "</span></p>"
     ++ last_changed (Access.network (s_access (v_snapshot v))) l ++ error_text error
     ++ html "</section><section class='card'><h2>" ++ t l ConnectorUiNetwork ++ html "</h2><p class='hint'>"
     ++ t l ConnectorUiNetworkHint ++ html "</p><div class='actions'>" ++ hours_forms l
     ++ html "</div><form method='post' action='/access' class='until'><input type='hidden' name='action' value='until'><input type='hidden' name='offset' value='0'><label>"
     ++ t l ConnectorUiUntilField ++ html "<input type='datetime-local' name='until' required></label><button type='submit'>"
     ++ t l ConnectorUiOpenUntilButton
     ++ html "</button></form><form method='post' action='/access' class='permanent'><input type='hidden' name='action' value='permanent'><button type='submit'>"
     ++ t l ConnectorUiOpenPermanentButton ++ html "</button><span class='hint'>" ++ t l ConnectorUiOpenPermanentHint
     ++ html "</span></form>" ++ close_form v l ++ html "</section>"
     ++ requests_section v l ++ approved_section v l ++ groups_section v l ++ devices_section v l
     ++ connections_section v l ++ log_section v l).

End pages.

(** ** The markup of a page *)

(** How a browser reads HTML, as far as this markup needs it: text, the inside
    of a tag, and a quoted value there. *)
Inductive Mode := InText | InTag | InValue.

#[export] Instance mode_eq_dec : EqDecision Mode.
Proof. solve_decision. Defined.

(** The mode after a text, and what of it is inside tags. *)
Fixpoint scan (m : Mode) (s : list Z) : Mode * list Z :=
  match s with
  | [] => (m, [])
  | c :: s =>
      match m with
      | InText => if c =? 60 then let r := scan InTag s in (r.1, c :: r.2) else scan InText s
      | InTag =>
          let r := scan (if c =? 62 then InText else if c =? 34 then InValue else InTag) s in (r.1, c :: r.2)
      | InValue => let r := scan (if c =? 34 then InTag else InValue) s in (r.1, c :: r.2)
      end
  end.

(** A text that stays text, and a value that stays a value. *)
Definition inert (s : list Z) : Prop := Forall (fun c => c <> 60 /\ c <> 62 /\ c <> 34 /\ c <> 39) s.

(** The tags the pages write without anything in them. *)
Definition TAGS : list (list Z) := html <$>
  ["<!doctype html>"; "<head>"; "</head>"; "<meta charset='utf-8'>";
   "<meta name='viewport' content='width=device-width, initial-scale=1'>"; "<title>"; "</title>";
   "<link rel='stylesheet' href='/app.css'>"; "<script src='/app.js' defer>"; "</script>"; "<body>"; "</body>"; "</html>";
   "<main>"; "</main>"; "<header>"; "</header>"; "<div>"; "</div>"; "<div class='actions'>"; "<div class='row-actions'>";
   "<h1>"; "</h1>"; "<h2>"; "</h2>"; "</p>"; "<p>"; "<p class='error' role='alert'>"; "<p class='hint'>"; "<p class='reason'>";
   "<strong>"; "</strong>"; "<span>"; "</span>"; "<span class='hint'>"; "<span class='row-state open'>";
   "<span class='row-state unlisted'>"; "<code>"; "</code>"; "</time>"; "</data>"; "<label>"; "</label>";
   "<label class='check'>"; "<section class='card'>"; "<section class='card requests'>"; "</section>";
   "<article class='request'>"; "</article>"; "<table>"; "</table>"; "<thead>"; "</thead>"; "<tbody>"; "</tbody>";
   "<tr>"; "</tr>"; "<th>"; "</th>"; "<td>"; "</td>"; "</form>"; "</select>"; "</option>"; "<option value='permanent'>";
   "<button type='submit'>"; "<button type='submit' class='quiet'>"; "<button type='submit' class='danger'>"; "</button>";
   "<form class='card sign-in' method='post' action='/sign-in'>"; "<form method='post' action='/access'>";
   "<form method='post' action='/requests/approve'>"; "<form method='post' action='/requests/refuse'>";
   "<form method='post' action='/groups' class='add'>"; "<form method='post' action='/devices' class='add'>";
   "<form method='post' action='/access' class='close'>"; "<form method='post' action='/access' class='until'>";
   "<form method='post' action='/access' class='permanent'>"; "<form method='post' action='/sign-out' class='who'>";
   "<input name='name' autocomplete='username' required autofocus>";
   "<input name='password' type='password' autocomplete='current-password' required>";
   "<input name='code' inputmode='numeric' autocomplete='one-time-code'>";
   "<input type='hidden' name='action' value='close'>"; "<input type='hidden' name='action' value='open'>";
   "<input type='hidden' name='action' value='hours'>"; "<input type='hidden' name='action' value='until'>";
   "<input type='hidden' name='action' value='permanent'>"; "<input type='hidden' name='offset' value='0'>";
   "<input type='hidden' name='scope' value='request'>"; "<input type='datetime-local' name='until' required>";
   "<input name='name' required maxlength='64'>"; "<input name='address' required maxlength='253' placeholder='10.0.0.5'>";
   "<input name='ports' required maxlength='200' placeholder='22, 3389'>";
   "<svg class='icon' viewBox='0 0 24 24' aria-hidden='true'>"; "</svg>";
   "<rect x='4' y='11' width='16' height='10' rx='2'/>"; "<path d='M8 11V7a4 4 0 0 1 8 0v4'/>";
   "<path d='M12 3 2 21h20L12 3z'/>"; "<path d='M12 10v5M12 18v.5'/>"; "<path d='M8 11V7a4 4 0 0 1 7.9-1'/>"]%string.

(** Those with a value in quotes. *)
Definition VALUES : list (list Z * list Z) := prod_map html html <$>
  [("<html lang='", "'>"); ("<p class='", "'>"); ("<span class='row-state ", "'>"); ("<time datetime='", "'>");
   ("<data value='", "' class='bytes'>"); ("<option value='", "'>"); ("<select name='duration' aria-label='", "'>");
   ("<form method='post' action='/", "s/remove'>"); ("<input type='hidden' name='scope' value='", "'>");
   ("<input type='hidden' name='name' value='", "'>"); ("<input type='hidden' name='id' value='", "'>");
   ("<input type='hidden' name='hours' value='", "'>"); ("<input type='checkbox' name='group' value='", "'>")]%string.

(** A tag of the pages: one of the fixed ones, or one with a value that cannot
    end its quotes. *)
Definition own_tag (tag : list Z) : Prop :=
  tag ∈ TAGS \/ exists pv v, pv ∈ VALUES /\ inert v /\ tag = pv.1 ++ v ++ pv.2.

(** Read from text on, [s] ends in text, and all its markup are tags of the
    pages. *)
Definition own_markup (s : list Z) : Prop :=
  exists tags, scan InText s = (InText, concat tags) /\ Forall own_tag tags.

Lemma scan_app m a b :
  scan m (a ++ b) = let r := scan m a in let r' := scan r.1 b in (r'.1, r.2 ++ r'.2).
Proof.
  revert m. induction a as [|c a IH]; intros m; cbn [app scan fst snd].
  - by destruct (scan m b).
  - destruct m.
    + destruct (c =? 60); [|apply IH]. by rewrite IH.
    + by rewrite IH.
    + by rewrite IH.
Qed.

Lemma scan_inert_text s : inert s -> scan InText s = (InText, []).
Proof.
  induction 1 as [|c s (Hlt & _) _ IH]; [done|]. cbn [scan]. by rewrite (proj2 (Z.eqb_neq c 60)).
Qed.

Lemma scan_inert_value s : inert s -> scan InValue s = (InValue, s).
Proof.
  induction 1 as [|c s (_ & _ & Hq & _) _ IH]; [done|]. cbn [scan]. by rewrite (proj2 (Z.eqb_neq c 34)), IH.
Qed.

Lemma inert_app a b : inert a -> inert b -> inert (a ++ b).
Proof. intros Ha Hb. by apply Forall_app. Qed.

Definition inertb (s : list Z) : bool := forallb (fun c => negb (bool_decide (c ∈ [60; 62; 34; 39]))) s.

Lemma inertb_true s : inertb s = true -> inert s.
Proof.
  unfold inertb. rewrite forallb_Forall. intros Hs. eapply Forall_impl; [exact Hs|]. simpl. intros c Hc. bools.
  set_solver.
Qed.

Lemma escape_inert s : inert (escape s).
Proof.
  unfold escape. induction s as [|c s IH]; [constructor|]. simpl. apply inert_app; [|exact IH].
  unfold escape_char. repeat case_match; try (apply inertb_true; vm_compute; reflexivity).
  bools. repeat constructor; done.
Qed.

Lemma own_app a b : own_markup a -> own_markup b -> own_markup (a ++ b).
Proof.
  intros (ta & Ha & Hta) (tb & Hb & Htb). exists (ta ++ tb). rewrite scan_app, Ha. cbn [fst snd].
  rewrite Hb. cbn [fst snd]. rewrite concat_app. split; [done|]. by apply Forall_app.
Qed.

Lemma own_inert s : inert s -> own_markup s.
Proof. intros Hs. exists []. split; [by apply scan_inert_text|constructor]. Qed.

Lemma own_concat {A} (f : A -> list Z) (l : list A) : (forall x, x ∈ l -> own_markup (f x)) -> own_markup (l ≫= f).
Proof.
  intros Hf. induction l as [|x l IH]; [by apply own_inert; constructor|].
  change (own_markup (f x ++ (l ≫= f))). apply own_app; [apply Hf; by left|]. apply IH. intros y Hy. apply Hf. by right.
Qed.

(** Cuts what is inside tags after each tag. *)
Fixpoint cut (tag : list Z) (quoted : bool) (s : list Z) : list (list Z) :=
  match s with
  | [] => []
  | c :: s =>
      if (c =? 62) && negb quoted then (reverse (c :: tag)) :: cut [] false s
      else cut (c :: tag) (if c =? 34 then negb quoted else quoted) s
  end.

Definition own_literal (s : list Z) : bool :=
  let r := scan InText s in
  let tags := cut [] false r.2 in
  bool_decide (r.1 = InText)
  && bool_decide (concat tags = r.2) && forallb (fun tag => bool_decide (tag ∈ TAGS)) tags.

Lemma own_literal_true s : own_literal s = true -> own_markup s.
Proof.
  unfold own_literal. destruct (scan InText s) as [m o] eqn:E. simpl. intros Hl. bools.
  rename select (forallb _ _ = true) into Hf. rename select (concat _ = o) into Ho.
  exists (cut [] false o). rewrite Ho. split; [by subst|].
  rewrite forallb_Forall in Hf. eapply Forall_impl; [exact Hf|]. simpl. intros tag Ht. bools. by left.
Qed.

(** A tag with a value in it. *)
Lemma own_value pre v post :
  bool_decide ((pre, post) ∈ VALUES) = true -> inert v ->
  bool_decide (scan InText pre = (InValue, pre)) = true -> bool_decide (scan InValue post = (InText, post)) = true ->
  own_markup (pre ++ v ++ post).
Proof.
  intros Hin Hv Hpre Hpost. bools. exists [pre ++ v ++ post].
  rename select (scan InText pre = _) into Hp. rename select (scan InValue post = _) into Hq.
  rewrite scan_app, Hp. cbn [fst snd]. rewrite scan_app, (scan_inert_value v Hv). cbn [fst snd]. rewrite Hq. cbn [fst snd concat].
  rewrite app_nil_r. split; [done|]. constructor; [|constructor]. right. exists (pre, post), v. done.
Qed.

Lemma own_literal_app s r : own_literal s = true -> own_markup r -> own_markup (s ++ r).
Proof. intros Hs Hr. apply own_app; [by apply own_literal_true|done]. Qed.

Lemma own_value_app pre v post r :
  bool_decide ((pre, post) ∈ VALUES) = true -> inert v ->
  bool_decide (scan InText pre = (InValue, pre)) = true -> bool_decide (scan InValue post = (InText, post)) = true ->
  own_markup r -> own_markup (pre ++ v ++ post ++ r).
Proof.
  intros Hin Hv Hpre Hpost Hr. rewrite (app_assoc v), (app_assoc pre). apply own_app; [|done]. by apply own_value.
Qed.

(** *** Elements in slots *)

Lemma inert_drop_head c s : inert (c :: s) -> inert s.
Proof. intros Hs. by apply Forall_cons in Hs as [_ Hs]. Qed.

Lemma inert_char c s : inert (c :: s) -> inert [c].
Proof. intros Hs. apply Forall_cons in Hs as [Hc _]. constructor; [exact Hc|constructor]. Qed.

Lemma join_cons_char (c : Z) (e p : list Z) ps : c :: join e (p :: ps) = join e ((c :: p) :: ps).
Proof. by destruct ps. Qed.

(** A text with its slots filled is the text in parts, with the element
    between them. *)
Lemma replace_parts pattern e s k :
  inert s -> exists p ps, replace_from pattern e s k = join e (p :: ps) /\ Forall inert (p :: ps).
Proof.
  revert k. induction s as [|c s IH]; intros k Hs.
  { exists [], []. split; [done|]. constructor; constructor. }
  pose proof (inert_drop_head _ _ Hs) as Hs'. cbn [replace_from]. destruct k as [|k]; [|by apply IH].
  destruct (starts_with pattern (c :: s)).
  - destruct (IH (length pattern - 1)%nat Hs') as (p & ps & -> & Hps). exists [], (p :: ps).
    split; [done|]. constructor; [constructor|done].
  - destruct (IH 0%nat Hs') as (p & ps & -> & Hps). exists (c :: p), ps. split; [apply join_cons_char|].
    apply Forall_cons in Hps as [Hp Hps]. constructor; [|done]. apply inert_app with (a := [c]); [|done].
    by eapply inert_char.
Qed.

Lemma own_join e parts : own_markup e -> Forall own_markup parts -> own_markup (join e parts).
Proof.
  intros He Hp. induction Hp as [|p ps Hp Hps IH]; [by apply own_inert; constructor|].
  destruct ps as [|p' ps]; [done|]. rewrite join_cons. apply own_app; [done|]. by apply own_app.
Qed.

Lemma replace_own pattern e s k : inert s -> own_markup e -> own_markup (replace_from pattern e s k).
Proof.
  intros Hs He. destruct (replace_parts pattern e s k Hs) as (p & ps & -> & Hps). apply own_join; [done|].
  eapply Forall_impl; [exact Hps|]. apply own_inert.
Qed.

Lemma starts_with_cut pattern a c b :
  c ∉ pattern -> starts_with pattern (a ++ c :: b) = starts_with pattern a.
Proof.
  revert a. induction pattern as [|x pattern IH]; intros a Hc; [by destruct a|].
  apply not_elem_of_cons in Hc as [Hx Hc]. unfold starts_with in *. destruct a as [|y a]; simpl.
  - destruct (x =? c) eqn:E; [bools; congruence|done].
  - destruct (x =? y); [by apply IH|done].
Qed.

Lemma starts_with_length pattern a : starts_with pattern a = true -> (length pattern <= length a)%nat.
Proof. intros (r & ->)%starts_with_true. rewrite length_app. lia. Qed.

(** A character the pattern does not have ends every match. *)
Lemma replace_cut pattern e a c b k :
  c ∉ pattern -> (k <= length a)%nat ->
  replace_from pattern e (a ++ c :: b) k = replace_from pattern e a k ++ replace_from pattern e (c :: b) 0.
Proof.
  intros Hc. revert k. induction a as [|x a IH]; intros k Hk.
  { simpl in Hk. by replace k with 0%nat by lia. }
  rewrite <- app_comm_cons. cbn [replace_from]. destruct k as [|k]; [|apply IH; simpl in Hk; lia].
  rewrite app_comm_cons, starts_with_cut by done. destruct (starts_with pattern (x :: a)) eqn:E.
  - apply starts_with_length in E. simpl in E. rewrite IH by lia. by rewrite <- app_assoc.
  - rewrite IH by lia. done.
Qed.

Lemma replace_free x pattern e f b :
  x ∉ f -> replace_from (x :: pattern) e (f ++ b) 0 = f ++ replace_from (x :: pattern) e b 0.
Proof.
  intros Hx. induction f as [|c f IH]; [done|]. apply not_elem_of_cons in Hx as [Hc Hf].
  rewrite <- app_comm_cons. cbn [replace_from]. unfold starts_with. simpl strip_prefix.
  rewrite (proj2 (Z.eqb_neq x c)) by done. simpl. by rewrite IH.
Qed.

Lemma replace_join x pattern e c f parts :
  c ∉ x :: pattern -> x ∉ c :: f ->
  replace_from (x :: pattern) e (join (c :: f) parts) 0 = join (c :: f) ((fun p => replace_from (x :: pattern) e p 0) <$> parts).
Proof.
  intros Hc Hx. induction parts as [|p ps IH]; [done|]. destruct ps as [|p' ps]; [done|].
  rewrite join_cons, <- app_comm_cons, replace_cut by (done || lia).
  rewrite app_comm_cons, replace_free by done. rewrite IH, !fmap_cons. by rewrite join_cons.
Qed.

Section markup.
Context `{Fluent} `{Rfc3339} `{MinuteText} `{UuidText} `{UuidSimple}.

(** Times are digits and signs, and a UUID hexadecimal digits and hyphens. *)
Hypothesis rfc3339_plain : forall at_ text, rfc3339 at_ = Some text -> inert text.
Hypothesis minute_plain : forall at_ text, minute_text at_ = Some text -> inert text.
Hypothesis uuid_plain : forall i, inert (uuid_text i).

Lemma t_inert l m : inert (t l m).
Proof. apply escape_inert. Qed.

Lemma decimal_inert n : 0 <= n -> inert (decimal n).
Proof.
  intros Hn. pose proof (decimal_digits n Hn) as Hd. eapply Forall_impl; [exact Hd|]. simpl. intros c Hc.
  unfold is_ascii_digit in Hc. bools. lia.
Qed.

Lemma default_inert (o : option (list Z)) : (forall text, o = Some text -> inert text) -> inert (default [] o).
Proof. intros Ho. destruct o as [text|]; [by apply Ho|constructor]. Qed.

#[local] Opaque html lit.

(** A hypothesis as it is written: comparing texts by computation takes long. *)
Local Ltac as_written :=
  match goal with
  | H : own_markup ?x |- own_markup ?y => constr_eq x y; exact H
  | H : inert ?x |- inert ?y => constr_eq x y; exact H
  end.

Local Ltac inert_tac :=
  first [ as_written
        | match goal with
          | |- inert (t _ _) => apply t_inert
          | |- inert (escape _) => apply escape_inert
          | |- inert (uuid_text _) => apply uuid_plain
          | |- inert (decimal _) => apply decimal_inert; lia
          | |- inert (default [] (rfc3339 _)) => apply default_inert; apply rfc3339_plain
          | |- inert (default [] (minute_text _)) => apply default_inert; apply minute_plain
          | |- inert (lit _) => apply inertb_true; vm_compute; reflexivity
          end ].

(** Goes through a template piece by piece; [own_part] knows the parts. *)
Local Ltac own_part := fail.

Local Ltac own_tac :=
  repeat match goal with
  | |- own_markup (html _ ++ _) =>
      first [ apply own_literal_app; [vm_compute; reflexivity|]
            | apply own_value_app; [vm_compute; reflexivity|inert_tac|vm_compute; reflexivity|vm_compute; reflexivity|]
            | apply own_value; [vm_compute; reflexivity|inert_tac|vm_compute; reflexivity|vm_compute; reflexivity] ]
  | |- own_markup (html _) => apply own_literal_true; vm_compute; reflexivity
  | |- own_markup [] => apply own_inert; constructor
  | |- own_markup [_] => apply own_literal_true; vm_compute; reflexivity
  | |- own_markup (_ ++ _) => apply own_app
  | |- own_markup _ => first [ as_written | own_part | apply own_inert; inert_tac ]
  end.

Lemma own_time at_ : own_markup (time_element at_).
Proof. unfold time_element. own_tac.
Qed.

Lemma own_icons : own_markup ICON_OPEN /\ own_markup ICON_CLOSED /\ own_markup ICON_WARNING.
Proof. split_and!; apply own_literal_true; vm_compute; reflexivity. Qed.

Lemma own_bytes n : 0 <= n -> own_markup (bytes_element n).
Proof. intros Hn. unfold bytes_element. own_tac. Qed.

Lemma own_rich1 l m e : own_markup e -> own_markup (rich l m [e]).
Proof. intros He. unfold rich. cbn [fill_slots]. apply replace_own; [apply t_inert|done]. Qed.

Lemma decimal_chars n c : 0 <= n -> c ∈ decimal n -> 48 <= c <= 57.
Proof.
  intros Hn Hc. pose proof (decimal_digits n Hn) as Hd. rewrite Forall_forall in Hd. specialize (Hd c Hc).
  unfold is_ascii_digit in Hd. bools. lia.
Qed.

(** An element of bytes has none of the slots' marks in it. *)
Lemma bytes_parts n : 0 <= n -> exists f, bytes_element n = 60 :: f /\ 0xE000 ∉ 60 :: f.
Proof.
  intros Hn. unfold bytes_element. change (html "<data value='") with (60 :: html "data value='").
  eexists. split; [by rewrite <- app_comm_cons|].
  rewrite not_elem_of_cons. split; [done|]. rewrite !not_elem_of_app.
  assert (Hd : 0xE000 ∉ decimal n) by (intros Hc; apply decimal_chars in Hc; lia).
  split_and!; try exact Hd; apply (bool_decide_eq_false_1 (_ ∈ _)); vm_compute; reflexivity.
Qed.

Lemma own_rich2 l m a b : 0 <= a -> 0 <= b -> own_markup (rich l m [bytes_element a; bytes_element b]).
Proof.
  intros Ha Hb. unfold rich. cbn [fill_slots]. unfold replace.
  destruct (replace_parts (slot 0) (bytes_element a) (t l m) 0 (t_inert l m)) as (p & ps & -> & Hps).
  destruct (bytes_parts a Ha) as (f & Hf & Hfree). rewrite Hf. change (slot (0 + 1)) with (0xE000 :: [49; 0xE000]).
  rewrite replace_join; [|apply (bool_decide_eq_false_1 (_ ∈ _)); vm_compute; reflexivity|done]. rewrite <- Hf.
  apply own_join; [by apply own_bytes|]. apply Forall_fmap. eapply Forall_impl; [exact Hps|]. simpl.
  intros q Hq. apply replace_own; [done|by apply own_bytes].
Qed.

Local Ltac own_part ::=
  match goal with
  | |- own_markup (time_element _) => apply own_time
  | |- own_markup (bytes_element _) => apply own_bytes; lia
  | |- own_markup (rich _ _ [time_element _]) => apply own_rich1, own_time
  | |- own_markup (rich _ _ [bytes_element _; bytes_element _]) => apply own_rich2; lia
  | |- own_markup ICON_OPEN => apply own_icons
  | |- own_markup ICON_CLOSED => apply own_icons
  | |- own_markup ICON_WARNING => apply own_icons
  end.

Lemma own_page l body : own_markup body -> own_markup (page l body).
Proof. intros Hb. unfold page. destruct l; cbv beta iota zeta; own_tac. Qed.

Lemma own_error error : (forall text, error = Some text -> own_markup text) -> own_markup (error_text error).
Proof. intros He. unfold error_text. destruct error as [text|]; [specialize (He text eq_refl)|]; own_tac. Qed.

(** Whatever went wrong, the sign-in page has only its own markup. *)
Lemma own_sign_in l error :
  (forall text, error = Some text -> own_markup text) -> own_markup (sign_in_form l error).
Proof. intros He. apply own_page. pose proof (own_error error He). own_tac. Qed.

Lemma own_row_state now st via l : own_markup (row_state now st via l).2.
Proof.
  unfold row_state. destruct (access st) as [|[until|]]; [destruct via| |]; simpl; try (apply own_inert, t_inert).
  destruct (now <? until); simpl; [|destruct via; simpl; apply own_inert, t_inert]. apply own_rich1, own_time.
Qed.

Lemma own_durations l : own_markup (durations l).
Proof.
  apply own_concat. intros h Hh. assert (0 <= h) by (rewrite !elem_of_cons, elem_of_nil in Hh; lia). own_tac.
Qed.

Lemma own_row_cells kind name open own_open state l :
  inert kind -> own_markup state -> own_markup (row_cells kind name open own_open state l).
Proof.
  intros Hk Hs. unfold row_cells. cbv zeta. pose proof own_icons as (Ho & Hc & _). pose proof (escape_inert name).
  pose proof (own_durations l).
  destruct open, own_open; own_tac.
Qed.

Lemma own_targets s l ts : (forall x, x ∈ ts -> 0 <= port x) -> own_markup (targets_table s l ts).
Proof.
  intros Hp. unfold targets_table. cbv zeta. assert (Hrows : own_markup (ts ≫= target_row s l)).
  { apply own_concat. intros x Hx. specialize (Hp x Hx). unfold target_row. cbv zeta.
    pose proof (decimal_inert _ Hp). pose proof own_icons as (_ & _ & Hw). destruct (listed_as s x); own_tac. }
  own_tac.
Qed.

(** Numbers are of their unsigned types. *)
Definition event_ok (e : JournalEvent) : Prop :=
  match e with ConnectionEnded _ _ _ _ _ sent received => 0 <= sent /\ 0 <= received | _ => True end.

Record view_ok (v : View) : Prop := {
  vo_waiting : forall r x, r ∈ v_waiting v -> x ∈ targets r -> 0 <= port x;
  vo_grants : forall i g x, f_requests (s_access (v_snapshot v)) !! i = Some g -> x ∈ g_targets g -> 0 <= port x;
  vo_running : forall rb, rb ∈ v_running v -> 0 <= rb.2.1 /\ 0 <= rb.2.2;
  vo_recent : forall e, e ∈ v_recent v -> event_ok (e_event e)
}.

Lemma own_requests v l : view_ok v -> own_markup (requests_section v l).
Proof.
  intros Hv. unfold requests_section. pose proof (vo_waiting v Hv) as Hw.
  assert (Hi : own_markup (v_waiting v ≫= request_item (v_snapshot v) l)).
  { apply own_concat. intros r Hr. pose proof (own_targets (v_snapshot v) l (targets r) (fun x => Hw r x Hr)). unfold request_item.
    cbv zeta. own_tac. }
  destruct (v_waiting v); cbv zeta; own_tac.
Qed.

Lemma own_approved v l : view_ok v -> own_markup (approved_section v l).
Proof.
  intros Hv. unfold approved_section.
  assert (Hi : own_markup (open_requests (v_snapshot v) (v_now v) ≫= approved_item v l)).
  { apply own_concat. intros [i g] Hg. unfold approved_item. cbv zeta. pose proof own_icons as (Ho & _).
    pose proof (own_row_state (v_now v) (stored g) None l). unfold open_requests in Hg.
    apply list_elem_of_filter in Hg as [_ Hg%elem_of_btree_uuid].
    pose proof (own_targets (v_snapshot v) l (g_targets g) (fun x => vo_grants v Hv i g x Hg)). own_tac. }
  destruct (open_requests _ _); cbv zeta; own_tac.
Qed.

Lemma own_groups v l : own_markup (groups_section v l).
Proof.
  unfold groups_section. cbv zeta.
  assert (Hi : own_markup (groups (s_inventory (v_snapshot v)) ≫= group_row v l)).
  { apply own_concat. intros g _. unfold group_row. cbv zeta.
    pose proof (own_row_state (v_now v) (file_get (s_access (v_snapshot v)) (Scope_Group g)) None l) as Hs.
    destruct (row_state _ _ _ _) as [open state]. cbn [snd] in Hs.
    assert (Hg : inert (lit "group")) by (apply inertb_true; vm_compute; reflexivity).
    pose proof (own_row_cells (lit "group") g open open state l Hg Hs).
    pose proof (decimal_inert (Z.of_nat (length (members (s_inventory (v_snapshot v)) g))) ltac:(lia)). own_tac. }
  destruct (groups _); own_tac.
Qed.

Lemma own_devices v l : own_markup (devices_section v l).
Proof.
  unfold devices_section. cbv zeta.
  assert (Hi : own_markup (devices (s_inventory (v_snapshot v)) ≫= device_row v l)).
  { apply own_concat. intros d _. unfold device_row. cbv zeta.
    pose proof (own_row_state (v_now v) (file_get (s_access (v_snapshot v)) (Scope_Device (name d))) (open_via v d) l) as Hs.
    destruct (row_state _ _ _ _) as [open state]. cbn [snd] in Hs.
    assert (Hg : inert (lit "device")) by (apply inertb_true; vm_compute; reflexivity).
    pose proof (own_row_cells (lit "device") (name d) open (is_open (access (file_get (s_access (v_snapshot v))
      (Scope_Device (name d)))) (v_now v)) state l Hg Hs). own_tac. }
  assert (Hb : own_markup (groups (s_inventory (v_snapshot v)) ≫= group_box)).
  { apply own_concat. intros g _. unfold group_box. own_tac. }
  destruct (devices _); own_tac.
Qed.

Lemma own_connections v l : view_ok v -> own_markup (connections_section v l).
Proof.
  intros Hv. unfold connections_section. cbv zeta.
  assert (Hi : own_markup (v_running v ≫= connection_row l)).
  { apply own_concat. intros [r [sent received]] Hr. destruct (vo_running v Hv _ Hr) as [Hs Hrec]. cbn in Hs, Hrec.
    unfold connection_row. own_tac. }
  destruct (v_running v); own_tac.
Qed.

Lemma own_describe l e : event_ok e -> own_markup (describe l e).
Proof.
  intros He. destruct e as [by_ [u|] scope|[]| | | | | | | | | | | | | |]; cbn [describe option_list];
    try (apply own_inert, t_inert).
  - change (option_list (time_element <$> Some u)) with [time_element u]. apply own_rich1, own_time.
  - apply own_rich1, own_time.
  - destruct He. by apply own_rich2.
Qed.

Lemma own_log v l : view_ok v -> own_markup (log_section v l).
Proof.
  intros Hv. unfold log_section. cbv zeta. assert (Hi : own_markup (v_recent v ≫= log_row l)).
  { apply own_concat. intros e He. pose proof (own_describe l (e_event e) (vo_recent v Hv e He)). unfold log_row.
    own_tac. }
  destruct (v_recent v); own_tac.
Qed.

Lemma state_class_own v : inert (state_class v).1 /\ own_markup (state_class v).2.
Proof.
  unfold state_class. pose proof own_icons as (Ho & Hc & _).
  destruct (network_open _ _); [|destruct (partly v)]; cbn [fst snd];
    (split; [apply inertb_true; vm_compute; reflexivity|as_written]).
Qed.

(** C35: Whatever names, reasons, addresses and entries the connector shows, and
    whatever the catalogs say: the markup of its pages are tags the code writes,
    in which a value from outside stays within its quotes. No page has a script
    but the connector's own. *)
Theorem pages_have_only_own_markup (v : View) (l : Locale) (user : list Z) (error : option Message) :
  view_ok v ->
  (own_markup (status_page v l user (t l <$> error)) /\ own_markup (sign_in_form l (t l <$> error)))
  /\ forall tag, own_tag tag -> starts_with (lit "<script") tag = true -> tag = html "<script src='/app.js' defer>".
Proof.
  intros Hv. assert (He : forall text, t l <$> error = Some text -> own_markup text).
  { intros text (m & _ & ->)%fmap_Some. apply own_inert, t_inert. }
  split; [split; [|by apply own_sign_in]|].
  - unfold status_page. pose proof (state_class_own v) as [Hclass Hicon].
    destruct (state_class v) as [class icon]. cbn [fst snd] in Hclass, Hicon. apply own_page.
    assert (Hstate : own_markup (network_state v l)).
    { unfold network_state. repeat case_match; own_tac. }
    assert (Hchanged : own_markup (last_changed (Access.network (s_access (v_snapshot v))) l)).
    { unfold last_changed. repeat case_match; own_tac. }
    assert (Hhours : own_markup (hours_forms l)).
    { apply own_concat. intros h Hh. assert (0 <= h) by (rewrite !elem_of_cons, elem_of_nil in Hh; lia). own_tac. }
    assert (Hclose : own_markup (close_form v l)).
    { unfold close_form. case_match; own_tac. }
    pose proof (own_error _ He). pose proof (own_requests v l Hv). pose proof (own_approved v l Hv).
    pose proof (own_groups v l). pose proof (own_devices v l). pose proof (own_connections v l Hv).
    pose proof (own_log v l Hv). own_tac.
  - intros tag [Ht|(pv & x & Hpv & _ & ->)] Hs.
    + assert (Hall : forallb (fun tag => negb (starts_with (lit "<script") tag)
        || bool_decide (tag = html "<script src='/app.js' defer>")) TAGS = true) by (vm_compute; reflexivity).
      rewrite forallb_Forall, Forall_forall in Hall. specialize (Hall tag Ht). rewrite Hs in Hall. simpl in Hall. by bools.
    + exfalso. assert (Hall : forallb (fun pv => negb (bool_decide (take 7 pv.1 = lit "<script"))
        && (Nat.leb 7 (length pv.1))) VALUES = true) by (vm_compute; reflexivity).
      rewrite forallb_Forall, Forall_forall in Hall. specialize (Hall pv Hpv). bools.
      rename select (Nat.leb _ _ = true) into Hlen. apply Nat.leb_le in Hlen.
      apply starts_with_true in Hs as (r & Hr). apply (f_equal (take 7)) in Hr.
      rewrite take_app_le in Hr by done. rename select (_ <> _) into Hne. apply Hne. rewrite Hr.
      rewrite take_app_le by (vm_compute; lia). vm_compute. reflexivity.
Qed.

End markup.

(** ** What a browser shows *)

(** The characters a browser reads of escaped text. *)
Fixpoint unescape (s : list Z) : list Z :=
  match s with
  | 38 :: 97 :: 109 :: 112 :: 59 :: s => 38 :: unescape s
  | 38 :: 108 :: 116 :: 59 :: s => 60 :: unescape s
  | 38 :: 103 :: 116 :: 59 :: s => 62 :: unescape s
  | 38 :: 113 :: 117 :: 111 :: 116 :: 59 :: s => 34 :: unescape s
  | 38 :: 35 :: 51 :: 57 :: 59 :: s => 39 :: unescape s
  | c :: s => c :: unescape s
  | [] => []
  end.

Lemma unescape_other c s : c <> 38 -> unescape (c :: s) = c :: unescape s.
Proof. intros Hc. destruct c as [|c|c]; try done. cbn [unescape]. repeat (case_match; try done; subst). Qed.

Lemma unescape_char c s : unescape (escape_char c ++ s) = c :: unescape s.
Proof.
  unfold escape_char.
  destruct (c =? 38) eqn:E1; [bools; by subst|]. destruct (c =? 60) eqn:E2; [bools; by subst|].
  destruct (c =? 62) eqn:E3; [bools; by subst|]. destruct (c =? 34) eqn:E4; [bools; by subst|].
  destruct (c =? 39) eqn:E5; [bools; by subst|]. bools. by apply unescape_other.
Qed.

(** Escaping loses nothing: what a browser shows for an escaped text is the
    text. *)
Theorem escape_reads_back (text : list Z) : unescape (escape text) = text.
Proof.
  unfold escape. induction text as [|c s IH]; [done|].
  change ((c :: s) ≫= escape_char) with (escape_char c ++ (s ≫= escape_char)). by rewrite unescape_char, IH.
Qed.

(** *** The state a page shows *)

Section truth.
Context `{Fluent} `{Rfc3339} `{MinuteText} `{Net}.

Lemma row_state_open now st via l : (row_state now st via l).1 = is_open (access st) now || is_some via.
Proof.
  unfold row_state, is_open. destruct (access st) as [|[u|]]; [by destruct via| |done].
  destruct (now <? u); [done|by destruct via].
Qed.

Lemma find_is_some {A} (f : A -> bool) (l : list A) :
  is_some (list_find (fun x => f x = true) l) = existsb f l.
Proof.
  induction l as [|x l IH]; [done|]. cbn [list_find existsb]. destruct (f x) eqn:E; [by rewrite decide_True|].
  rewrite decide_False by done. rewrite orb_false_l, <- IH. by destruct (list_find _ l).
Qed.

(** What the page says is open is what remotehub is let through to: the
    network, some of its devices, or nothing; and each device of the list, by
    itself or one of its groups. *)
Theorem page_tells_the_access (v : View) (l : Locale) :
  let s := v_snapshot v in
  ((state_class v).1 = lit "state open" <-> network_open s (v_now v) = true)
  /\ ((state_class v).1 = lit "state closed" <-> any_open s (v_now v) = false)
  /\ (forall d, (row_state (v_now v) (file_get (s_access s) (Scope_Device (name d))) (open_via v d) l).1
       = device_open s d (v_now v))
  /\ (forall ig, ig ∈ open_requests s (v_now v) <->
        f_requests (s_access s) !! ig.1 = Some ig.2 /\ is_open (access (stored ig.2)) (v_now v) = true).
Proof.
  cbn zeta. split_and!.
  - unfold state_class. destruct (network_open _ _); [done|]. destruct (partly v); split; try done;
      try (intros Hx; vm_compute in Hx; discriminate).
  - unfold state_class, partly. destruct (network_open (v_snapshot v) (v_now v)) eqn:E.
    + split; [intros Hx; vm_compute in Hx; discriminate|]. unfold any_open. by rewrite E.
    + simpl. destruct (any_open _ _); split; try done; try (intros Hx; vm_compute in Hx; discriminate).
  - intros d. rewrite row_state_open. unfold device_open, device_scopes, open_via. cbn [existsb].
    rewrite existsb_fmap, <- find_is_some. f_equal.
    by destruct (list_find _ _).
  - intros [i g]. unfold open_requests. rewrite list_elem_of_filter, elem_of_btree_uuid. simpl. tauto.
Qed.

(** A target of a request that is marked as one of the customer's devices
    goes to that device, wherever its name resolves. *)
Theorem listed_targets_are_listed (s : Snapshot) (target : RequestTarget) (n : list Z) (ip : IpAddr) :
  listed_as s target = Some n ->
  (forall a, parse_ip (host target) = Some a -> ip = a) ->
  exists d, d ∈ devices (s_inventory s) /\ name d = n /\ goes_to (host target) ip (port target) d = true.
Proof.
  unfold listed_as. intros ([k d] & Hf & ->)%fmap_Some Hip. apply list_find_Some in Hf as (Hd & Hl & _).
  exists d. split_and!; [by eapply list_elem_of_lookup_2|done|]. unfold lists in Hl. unfold goes_to.
  apply andb_true_iff in Hl as [-> Hl]. simpl. destruct (d_address d); simpl.
  - destruct (parse_ip (host target)) as [a|] eqn:E; [|done]. by rewrite (Hip a eq_refl).
  - by rewrite Hl.
Qed.

End truth.

(** ** Examples *)

Module PageExamples.

(** A catalog that says who did what, and nothing of the other messages. *)
#[local] Instance plain_catalog : Fluent := fun _ m =>
  Some match m with
       | ConnectorLogRequestApproved who id requester targets until =>
           who ++ lit " approved " ++ requester ++ lit ": " ++ targets ++ lit ", until " ++ until
       | ConnectorUiRequestReason reason => reason
       | ConnectorUiAccessFor name => name
       | _ => []
       end.
#[local] Instance plain_times : Rfc3339 := fun at_ => Some (decimal (Z.abs at_)).
#[local] Instance plain_minutes : MinuteText := fun at_ => Some (decimal (Z.abs at_)).
#[local] Instance plain_uuid : UuidText := fun i => decimal (Z.abs i).
#[local] Instance plain_simple : UuidSimple := fun i => decimal (Z.abs i).

Definition attack : CustomerRequest :=
  {| id := 7; requester := lit "<script>alert(1)</script>"; reason := html "'><script src='x'>"; minutes := 60;
     targets := [{| t_name := lit "</td><b>"; host := lit "sql"; port := 1433 |}] |}.

Definition view : View :=
  {| v_remotehub := lit "remotehub.example.com"; v_now := 10; v_snapshot := AgentExamples.both_open;
     v_waiting := [attack]; v_running := []; v_recent := [{| e_at := 5; e_event := UserLocked (lit "<i>") |}] |}.

Lemma view_in_order : view_ok view.
Proof.
  split; simpl.
  - intros r x -> %list_elem_of_singleton [->|Hx%elem_of_nil]%elem_of_cons; [simpl; lia|done].
  - intros i g x Hg. exfalso. revert Hg. vm_compute. discriminate.
  - intros rb Hrb%elem_of_nil. done.
  - intros e -> %list_elem_of_singleton. exact I.
Qed.

Lemma abs_plain (n : Z) : inert (decimal (Z.abs n)).
Proof. apply decimal_inert. lia. Qed.

Lemma times_plain at_ text : plain_times at_ = Some text -> inert text.
Proof. intros [= <-]. apply abs_plain. Qed.

Lemma pages_have_only_own_markup_witness :
  own_markup (status_page view En (lit "<b>carol") (t En <$> Some ConnectorUiErrorName)).
Proof.
  exact (proj1 (proj1 (@pages_have_only_own_markup plain_catalog plain_times plain_minutes plain_uuid plain_simple
    times_plain times_plain abs_plain view En (lit "<b>carol") (Some ConnectorUiErrorName) view_in_order))).
Defined.

(** The request as the page quotes it. *)
Example attack_is_quoted :
  unescape (t En (ConnectorUiRequestReason (reason attack))) = reason attack
  /\ t En (ConnectorUiRequestReason (reason attack)) <> reason attack.
Proof. split; vm_compute; [reflexivity|discriminate]. Qed.

#[local] Existing Instance AgentExamples.example_net.

Lemma listed_targets_are_listed_witness :
  exists d, d ∈ devices (s_inventory AgentExamples.both_open) /\ name d = lit "sql"
    /\ goes_to (lit "sql") (IpAddr_V4 9) 1433 d = true.
Proof.
  apply (listed_targets_are_listed AgentExamples.both_open
    {| t_name := []; host := lit "sql"; port := 1433 |} (lit "sql") (IpAddr_V4 9)).
  - vm_compute. reflexivity.
  - intros a Ha. vm_compute in Ha. discriminate.
Defined.

(** A requester whose name holds a slot's marks gets the time shown twice: no
    translation has them, but what a message is given may. *)
Example slot_in_a_name :
  describe En (RequestApproved (Changer_Web (lit "carol")) 7 (slot 0) [] [] 5)
  = lit "carol approved " ++ time_element 5 ++ lit ": , until " ++ time_element 5
  /\ plain (slot 0) MAX_NAME = true.
Proof. split; vm_compute; reflexivity. Qed.

End PageExamples.
