(* ===== verification/ConnectorUi.v ===== *)
(** * The connector's web interface (crates/connector/src/ui.rs)

    Where the customer's people sign in, open and close access, keep their list
    and answer remotehub's requests: each request of a browser as a function of
    the interface's state, the cookie's session and the form. What the system
    draws and the clocks are in [Env]; [serde_urlencoded] and the reading of a
    [datetime-local] value are parameters. A form that does not parse, or a path
    that is not there, axum answers itself. *)
From S2P Require Import Prelude Text Utf8 Sid Totp Ip Network Inventory.
From S2P Require Import Requests Access Agent ConnectorText ConnectorUsers ConnectorPages.

Definition ATTEMPTS : Z := 5.
Definition second : Z := 1000000000.
Definition IDLE : Z := 30 * 60 * second.
Definition LONGEST : Z := 8 * 60 * 60 * second.
Definition COOKIE : list Z := lit "__Host-connector".
Definition LOG_ENTRIES : nat := 50.

Record UiSession := { us_user : list Z; us_started : Z; us_seen : Z }.

Record Attempts := { at_failures : Z; at_last : Z; at_locked : option Z }.

#[export] Instance ui_session_eq_dec : EqDecision UiSession.
Proof. solve_decision. Defined.

Record Ui := {
  u_gate : Gate;
  u_requests : Requests.State;
  u_users : UsersFile;
  u_remotehub : list Z;
  u_sessions : gmap (list Z) UiSession;
  u_attempts : gmap (list Z) Attempts
}.

(** The headers a request is read for, as far as they are text. *)
Record Headers := {
  h_fetch_site : option (list Z);
  h_host : option (list Z);
  h_origin : option (list Z);
  h_language : option (list Z);
  h_cookies : list (list Z)
}.

(** What a request finds: the time of day and of the monotonic clock in
    nanoseconds, the token the system would draw, the text of the journal's file
    and the running connections. *)
Record Env := {
  n_utc : Z;
  n_instant : Z;
  n_token : list Z;
  n_log : option (list Z);
  n_running : list (Running * (Z * Z))
}.

Inductive Response :=
| SeeOther (location : list Z) (set_cookie : option (list Z))
| HtmlPage (status : Z) (body : list Z)
| Empty (status : Z)
| Asset (content_type : list Z)
| ByAxum
| Dropped.

(** ** Cookies, origins, sessions *)

Definition same_origin (h : Headers) : bool :=
  if is_some_and (fun site => negb (bool_decide (site = lit "same-origin"))) (h_fetch_site h) then false
  else match h_host h, h_origin h with
       | Some host, Some origin => bool_decide (origin = lit "https://" ++ host)
       | _, _ => false
       end.

Definition cookie_pair (pair : list Z) : option (list Z) :=
  match split_once 61 (trim pair) with
  | Some (name, value) => if bool_decide (name = COOKIE) then Some value else None
  | None => None
  end.

Definition cookie (h : Headers) : option (list Z) :=
  head (omap cookie_pair (h_cookies h ≫= split 59)).

Definition live (now : Z) (s : UiSession) : bool :=
  (now - us_seen s <? IDLE) && (now - us_started s <? LONGEST).

Definition set_sessions (m : gmap (list Z) UiSession) (ui : Ui) : Ui :=
  {| u_gate := u_gate ui; u_requests := u_requests ui; u_users := u_users ui; u_remotehub := u_remotehub ui;
     u_sessions := m; u_attempts := u_attempts ui |}.

Definition set_attempts (m : gmap (list Z) Attempts) (ui : Ui) : Ui :=
  {| u_gate := u_gate ui; u_requests := u_requests ui; u_users := u_users ui; u_remotehub := u_remotehub ui;
     u_sessions := u_sessions ui; u_attempts := m |}.

Definition set_gate (g : Gate) (ui : Ui) : Ui :=
  {| u_gate := g; u_requests := u_requests ui; u_users := u_users ui; u_remotehub := u_remotehub ui;
     u_sessions := u_sessions ui; u_attempts := u_attempts ui |}.

Definition set_requests (r : Requests.State) (ui : Ui) : Ui :=
  {| u_gate := u_gate ui; u_requests := r; u_users := u_users ui; u_remotehub := u_remotehub ui;
     u_sessions := u_sessions ui; u_attempts := u_attempts ui |}.

(** [Journal::append]. *)
Definition journal_append (e : JournalEvent) (ui : Ui) : Ui :=
  set_gate {| world := log e (world (u_gate ui)); state := state (u_gate ui) |} ui.

(** [Ui::user]: the signed-in user of a request. *)
Definition user_of (now : Z) (h : Headers) (ui : Ui) : option (list Z) * Ui :=
  match cookie h with
  | None => (None, ui)
  | Some token =>
      let sessions := filter (fun ts => live now ts.2 = true) (u_sessions ui) in
      match sessions !! token with
      | None => (None, set_sessions sessions ui)
      | Some s =>
          (Some (us_user s),
           set_sessions (<[token := {| us_user := us_user s; us_started := us_started s; us_seen := now |}]> sessions) ui)
      end
  end.

(** [Ui::locked]: how long a name stays locked. *)
Definition locked (now : Z) (name : list Z) (ui : Ui) : option Z :=
  a ← u_attempts ui !! name; until ← at_locked a; if now <=? until then Some (until - now) else None.

(** [Ui::failed]: counts a failed sign-in; whether it locks the name. *)
Definition failed (now : Z) (name : list Z) (ui : Ui) : bool * Ui :=
  let attempts :=
    filter (fun na => (now - at_last na.2 <? LOCKED_FOR) || is_some_and (Z.ltb now) (at_locked na.2) = true)
      (u_attempts ui) in
  let entry := default {| at_failures := 0; at_last := now; at_locked := None |} (attempts !! name) in
  let failures := at_failures entry + 1 in
  if ATTEMPTS <=? failures
  then (true, set_attempts (<[name := {| at_failures := 0; at_last := now; at_locked := Some (now + LOCKED_FOR) |}]> attempts) ui)
  else (false, set_attempts (<[name := {| at_failures := failures; at_last := now; at_locked := at_locked entry |}]> attempts) ui).

(** ** The journal's file *)

(** An entry of a line (crate [serde_json]). *)
Class EntryParse := entry_parse : list Z -> option Entry.

(** [Journal::recent]. *)
Definition recent `{EntryParse} (text : option (list Z)) (count : nat) : list Entry :=
  match text with
  | None => []
  | Some text => take count (omap entry_parse (reverse (lines text)))
  end.

(** ** Forms *)

Record SignIn := { si_name : list Z; si_password : list Z; si_code : list Z }.

Record Change := {
  c_action : list Z;
  c_scope : option (list Z);
  c_name : option (list Z);
  c_hours : option Z;
  c_duration : option (list Z);
  c_until : option (list Z);
  c_offset : option Z
}.

(** The name and value pairs of a form (crate [serde_urlencoded]). *)
Class FormPairs := form_pairs : list Z -> option (list (list Z * list Z)).

(** The crate [time]: a local time with minutes or with seconds, as the
    nanoseconds of that time in UTC, and an offset of that many seconds. *)
Class LocalTime := {
  parse_to_minutes : list Z -> option Z;
  parse_to_seconds : list Z -> option Z;
  offset_seconds : Z -> option Z
}.

Definition for_hours (hours now : Z) : option Access :=
  if (1 <=? hours) && (hours <=? 24 * 7) then Some (Access_Open (Some (now + hours * 3600 * second))) else None.

Definition checked_mul_i32 (a b : Z) : option Z :=
  let p := a * b in if (- 2 ^ 31 <=? p) && (p <? 2 ^ 31) then Some p else None.

Definition local_time `{LocalTime} (text : list Z) (offset : Z) : option Z :=
  local ← match parse_to_minutes text with Some l => Some l | None => parse_to_seconds text end;
  seconds ← checked_mul_i32 offset 60;
  east ← offset_seconds seconds;
  Some (local - east * second).

Definition inventory_message (e : InventoryError) : Message :=
  match e with
  | InvalidName => ConnectorUiErrorName
  | InvalidAddress value => ConnectorUiErrorAddress value
  | InvalidPorts value => ConnectorUiErrorPorts value
  | NoPorts => ConnectorUiErrorNoPorts
  | Exists name => ConnectorUiErrorExists name
  | Unknown name => ConnectorUiErrorUnknown name
  end.

Section ui.
Context `{Fluent} `{F32} `{Rfc3339} `{MinuteText} `{UuidText} `{UuidParse} `{UuidSimple} `{Lowercase} `{Argon2} `{Hmac}
        `{Base32} `{EntryParse} `{FormPairs} `{LocalTime}.

Definition locale (h : Headers) : Locale := default En (from_accept_language <$> h_language h).

Definition view (env : Env) (ui : Ui) : View :=
  {| v_remotehub := u_remotehub ui; v_now := n_utc env; v_snapshot := state (u_gate ui);
     v_waiting := waiting (u_requests ui); v_running := n_running env;
     v_recent := recent (n_log env) LOG_ENTRIES |}.

Definition status_answer (env : Env) (status : Z) (l : Locale) (user : list Z) (error : option Message) (ui : Ui) : Response :=
  HtmlPage status (status_page (view env ui) l user (t l <$> error)).

(** ** Signing in *)

(** [sign_in] up to its turn at the check. *)
Definition sign_in_start (env : Env) (h : Headers) (form : SignIn) (ui : Ui) : result (list Z) Response :=
  let name := trim (si_name form) in
  match locked (n_instant env) name ui with
  | Some left_ =>
      let minutes := to_i64_max (div_ceil (left_ / second) 60) in
      Err (HtmlPage 429 (sign_in_form (locale h) (Some (t (locale h) (ConnectorUiLocked minutes)))))
  | None => Ok name
  end.

(** [sign_in] from the check's answer on. *)
Definition sign_in_end (env : Env) (h : Headers) (address name : list Z) (checked : option (result unit Refused)) (ui : Ui) :
    Response * Ui :=
  match checked with
  | None => (Dropped, ui)
  | Some (Err _) =>
      let ui := journal_append (UserSignInFailed name address) ui in
      let '(locks, ui) := failed (n_instant env) name ui in
      let ui := if locks then journal_append (UserLocked name) ui else ui in
      (HtmlPage 401 (sign_in_form (locale h) (Some (t (locale h) ConnectorUiSignInFailed))), ui)
  | Some (Ok _) =>
      let ui := set_attempts (delete name (u_attempts ui)) ui in
      let now := n_instant env in
      let ui := set_sessions (<[n_token env := {| us_user := name; us_started := now; us_seen := now |}]> (u_sessions ui)) ui in
      let ui := journal_append (UserSignedIn name address) ui in
      (SeeOther (lit "/") (Some (COOKIE ++ lit "=" ++ n_token env ++ lit "; Path=/; Secure; HttpOnly; SameSite=Strict")), ui)
  end.

Definition check_sign_in (env : Env) (form : SignIn) (name : list Z) (ui : Ui) : option (result unit Refused) :=
  verify name (si_password form) (si_code form) (n_utc env / second) (u_users ui).

Definition sign_in (env : Env) (h : Headers) (address : option (list Z)) (form : SignIn) (ui : Ui) : Response * Ui :=
  match sign_in_start env h form ui with
  | Err answer => (answer, ui)
  | Ok name => sign_in_end env h (default [] address) name (check_sign_in env form name ui) ui
  end.

Definition sign_out (h : Headers) (ui : Ui) : Response * Ui :=
  (SeeOther (lit "/sign-in") (Some (COOKIE ++ lit "=; Path=/; Secure; HttpOnly; SameSite=Strict; Max-Age=0")),
   match cookie h with Some token => set_sessions (delete token (u_sessions ui)) ui | None => ui end).

(** What the signed-in user's requests do, the sign-in page for others. *)
Definition signed (env : Env) (h : Headers) (handler : list Z -> Ui -> Response * Ui) (ui : Ui) : Response * Ui :=
  match user_of (n_instant env) h ui with
  | (None, ui) => (SeeOther (lit "/sign-in") None, ui)
  | (Some user, ui) => handler user ui
  end.

Definition status (env : Env) (h : Headers) (user : list Z) (ui : Ui) : Response * Ui :=
  (status_answer env 200 (locale h) user None ui, ui).

(** ** Changes *)

(** Back to the page after a change, or the page with why it failed. *)
Definition after_change (env : Env) (h : Headers) (user : list Z) (changed : result unit ChangeError) (ui : Ui) : Response :=
  match changed with
  | Ok _ => SeeOther (lit "/") None
  | Err (ChangeError_Inventory e) => status_answer env 400 (locale h) user (Some (inventory_message e)) ui
  | Err ChangeError_Io => Empty 500
  end.

Definition asked_access (form : Change) (now : Z) : option Access :=
  if bool_decide (c_action form = lit "close") then Some Access_Closed
  else if bool_decide (c_action form = lit "permanent") then Some (Access_Open None)
  else if bool_decide (c_action form = lit "hours") then hours ← c_hours form; for_hours hours now
  else if bool_decide (c_action form = lit "open") then
    duration ← c_duration form;
    if bool_decide (duration = lit "permanent") then Some (Access_Open None)
    else hours ← parse_signed (2 ^ 63 - 1) duration; for_hours hours now
  else if bool_decide (c_action form = lit "until") then
    text ← c_until form;
    until ← local_time text (default 0 (c_offset form));
    if now <? until then Some (Access_Open (Some until)) else None
  else None.

Definition asked_scope (form : Change) (access : option Access) : option Scope :=
  let name := default [] (c_name form) in
  match c_scope form with
  | None => Some Scope_Network
  | Some scope =>
      if bool_decide (scope = lit "network") then Some Scope_Network
      else if bool_decide (scope = lit "device") then Some (Scope_Device name)
      else if bool_decide (scope = lit "group") then Some (Scope_Group name)
      else if bool_decide (scope = lit "request") && bool_decide (access = Some Access_Closed)
           then Scope_Request <$> uuid_parse name
      else None
  end.

Definition change_access (env : Env) (h : Headers) (form : Change) (user : list Z) (ui : Ui) : Response * Ui :=
  let access := asked_access form (n_utc env) in
  match access, asked_scope form access with
  | Some access, Some scope =>
      let '(changed, gate) := gate_set (n_utc env) scope access (Changer_Web user) (u_gate ui) in
      let ui := set_gate gate ui in
      (after_change env h user changed ui, ui)
  | _, _ => (status_answer env 400 (locale h) user (Some ConnectorUiInvalidUntil) ui, ui)
  end.

(** A change of the files, and the gate follows. *)
Definition on_files (f : World -> result unit ChangeError * World) (ui : Ui) : result unit ChangeError * Ui :=
  let '(changed, w) := f (world (u_gate ui)) in
  (changed, set_gate (reload {| world := w; state := state (u_gate ui) |}) ui).

Definition field (pairs : list (list Z * list Z)) (key : list Z) : list Z :=
  default [] (snd <$> head (filter (fun kv => kv.1 = key) pairs)).

Definition device_of (pairs : list (list Z * list Z)) : result Device InventoryError :=
  let groups := snd <$> filter (fun kv => kv.1 = lit "group") pairs in
  let? name := valid_name (field pairs (lit "name")) in
  let? address := address_from_str (field pairs (lit "address")) in
  let? ports := parse_list (field pairs (lit "ports")) in
  Ok {| name := name; d_address := address; ports := ports; d_groups := groups |}.

Definition add_device_ui (env : Env) (h : Headers) (body : list Z) (user : list Z) (ui : Ui) : Response * Ui :=
  let '(changed, ui) :=
    match device_of (default [] (form_pairs body)) with
    | Err e => (Err (ChangeError_Inventory e), ui)
    | Ok device => on_files (access_add_device device (Changer_Web user)) ui
    end in
  (after_change env h user changed ui, ui).

Definition remove_device_ui (env : Env) (h : Headers) (name user : list Z) (ui : Ui) : Response * Ui :=
  let '(changed, ui) := on_files (access_remove_device name (Changer_Web user)) ui in
  (after_change env h user changed ui, ui).

Definition add_group_ui (env : Env) (h : Headers) (name user : list Z) (ui : Ui) : Response * Ui :=
  let '(changed, ui) := on_files (access_add_group name (Changer_Web user)) ui in
  (after_change env h user changed ui, ui).

Definition remove_group_ui (env : Env) (h : Headers) (name user : list Z) (ui : Ui) : Response * Ui :=
  let '(changed, ui) := on_files (access_remove_group name (Changer_Web user)) ui in
  (after_change env h user changed ui, ui).

(** ** remotehub's requests *)

Definition gone (env : Env) (h : Headers) (user : list Z) (ui : Ui) : Response :=
  status_answer env 409 (locale h) user (Some ConnectorUiErrorRequestGone) ui.

Definition approve_request (env : Env) (h : Headers) (id : Uuid) (user : list Z) (ui : Ui) : Response * Ui :=
  match Requests.get (u_requests ui) id with
  | None => (gone env h user ui, ui)
  | Some request =>
      let until := seconds (n_utc env + minutes request * 60 * second) in
      let '(approved, ui) := on_files (approve (n_utc env) request until (Changer_Web user)) ui in
      let ui :=
        match approved with
        | Ok _ => set_requests (answer (u_requests ui)
                    {| a_id := Requests.id request; approved := true; by_user := user;
                       Requests.until := rfc3339 until |}) ui
        | Err _ => ui
        end in
      (after_change env h user approved ui, ui)
  end.

Definition refuse_request (env : Env) (h : Headers) (id : Uuid) (user : list Z) (ui : Ui) : Response * Ui :=
  match Requests.get (u_requests ui) id with
  | None => (gone env h user ui, ui)
  | Some request =>
      let ui := set_gate {| world := (refuse request (Changer_Web user) (world (u_gate ui))).2; state := state (u_gate ui) |} ui in
      let ui := set_requests (answer (u_requests ui)
                  {| a_id := Requests.id request; approved := false; by_user := user; Requests.until := None |}) ui in
      (SeeOther (lit "/") None, ui)
  end.

(** ** The router *)

Inductive Call :=
| C_status | C_sign_in_page | C_sign_in (form : SignIn) | C_sign_out | C_access (form : Change)
| C_add_device (body : list Z) | C_remove_device (name : list Z) | C_add_group (name : list Z)
| C_remove_group (name : list Z) | C_approve (id : Uuid) | C_refuse (id : Uuid) | C_stylesheet | C_script
| C_other (post : bool).

Record Request := { q_headers : Headers; q_peer : option (list Z); q_call : Call }.

Definition is_post (c : Call) : bool :=
  match c with
  | C_status | C_sign_in_page | C_stylesheet | C_script => false
  | C_other post => post
  | _ => true
  end.

(** [router] with its layer [guard]; the headers the guard adds to every answer
    are left out. *)
Definition serve (env : Env) (q : Request) (ui : Ui) : Response * Ui :=
  let h := q_headers q in
  if is_post (q_call q) && negb (same_origin h) then (Empty 403, ui)
  else
    match q_call q with
    | C_status => signed env h (status env h) ui
    | C_sign_in_page => (HtmlPage 200 (sign_in_form (locale h) None), ui)
    | C_sign_in form => sign_in env h (q_peer q) form ui
    | C_sign_out => sign_out h ui
    | C_access form => signed env h (change_access env h form) ui
    | C_add_device body => signed env h (add_device_ui env h body) ui
    | C_remove_device name => signed env h (remove_device_ui env h name) ui
    | C_add_group name => signed env h (add_group_ui env h name) ui
    | C_remove_group name => signed env h (remove_group_ui env h name) ui
    | C_approve id => signed env h (approve_request env h id) ui
    | C_refuse id => signed env h (refuse_request env h id) ui
    | C_stylesheet => (Asset (lit "text/css; charset=utf-8"), ui)
    | C_script => (Asset (lit "text/javascript; charset=utf-8"), ui)
    | C_other _ => (ByAxum, ui)
    end.

(** ** Theorems *)

(** *** Who changes something *)

(** What a signed-in user does to the files. *)
Inductive web_change (user : list Z) (w : World) : World -> Prop :=
| wc_set now scope a : web_change user w (change now scope a (Changer_Web user) w).2
| wc_approve now r until : web_change user w (approve now r until (Changer_Web user) w).2
| wc_refuse r : web_change user w (refuse r (Changer_Web user) w).2
| wc_add_device d : web_change user w (access_add_device d (Changer_Web user) w).2
| wc_remove_device n : web_change user w (access_remove_device n (Changer_Web user) w).2
| wc_add_group n : web_change user w (access_add_group n (Changer_Web user) w).2
| wc_remove_group n : web_change user w (access_remove_group n (Changer_Web user) w).2.

(** The signed-in user of a request. *)
Definition signed_in (now : Z) (h : Headers) (ui : Ui) (token : list Z) (s : UiSession) : Prop :=
  cookie h = Some token /\ u_sessions ui !! token = Some s /\ live now s = true.

Lemma reload_world g : world (reload g) = world g.
Proof.
  unfold reload, load, bindM. rewrite load_access_run. destruct (read_access (world g)); [|done].
  rewrite load_inventory_run. by destruct (read_inventory (world g)).
Qed.

Lemma gate_set_world now scope a by_ g : world (gate_set now scope a by_ g).2 = (change now scope a by_ (world g)).2.
Proof.
  unfold gate_set. destruct (change now scope a by_ (world g)) as [[[]|e] w]; [|done]. cbn [snd]. by rewrite reload_world.
Qed.

Lemma on_files_world f ui : world (u_gate (on_files f ui).2) = (f (world (u_gate ui))).2.
Proof. unfold on_files. destruct (f _) as [changed w]. cbn [snd u_gate set_gate]. by rewrite reload_world. Qed.

(** Finding a user changes no more than the sessions. *)
Lemma user_of_spec now h ui :
  let '(user, ui') := user_of now h ui in
  u_gate ui' = u_gate ui /\ u_requests ui' = u_requests ui /\ u_users ui' = u_users ui /\ u_attempts ui' = u_attempts ui
  /\ match user with
     | Some u => exists token s, signed_in now h ui token s /\ us_user s = u
     | None => forall token s, ~ signed_in now h ui token s
     end
  /\ (forall token s, u_sessions ui' !! token = Some s ->
       exists s0, u_sessions ui !! token = Some s0 /\ us_user s = us_user s0 /\ us_started s = us_started s0).
Proof.
  unfold user_of. destruct (cookie h) as [token|] eqn:Hc.
  2: { split_and!; try done; [intros token s (? & _); congruence|eauto]. }
  destruct (filter _ (u_sessions ui) !! token) as [s|] eqn:Hf; simpl; split_and!; try done.
  - apply map_lookup_filter_Some in Hf as [Hs Hl]. simpl in Hl. by exists token, s.
  - intros tk x. rewrite lookup_insert. case_decide as Heq.
    + intros [= <-]. subst. apply map_lookup_filter_Some in Hf as [Hs _]. by exists s.
    + intros [Hx _]%map_lookup_filter_Some. by exists x.
  - intros tk x (Hc' & Hs & Hl). rewrite Hc in Hc'. injection Hc' as <-.
    apply map_lookup_filter_None in Hf as [Hf|Hf]; [congruence|]. by apply (Hf x).
  - intros tk x [Hx _]%map_lookup_filter_Some. by exists x.
Qed.

Lemma failed_spec now name ui :
  u_gate (failed now name ui).2 = u_gate ui /\ u_requests (failed now name ui).2 = u_requests ui
  /\ u_users (failed now name ui).2 = u_users ui /\ u_sessions (failed now name ui).2 = u_sessions ui.
Proof. unfold failed. by case_match. Qed.

(** At most one change in the name of [user]. *)
Definition only_web (user : list Z) (ui ui' : Ui) : Prop :=
  (world (u_gate ui') = world (u_gate ui) /\ u_requests ui' = u_requests ui)
  \/ web_change user (world (u_gate ui)) (world (u_gate ui')).

Lemma change_access_web env h form user ui : only_web user ui (change_access env h form user ui).2.
Proof.
  unfold change_access. destruct (asked_access _ _) as [a|]; [|by left].
  destruct (asked_scope _ _) as [scope|]; [|by left].
  right. pose proof (gate_set_world (n_utc env) scope a (Changer_Web user) (u_gate ui)) as Hw.
  destruct (gate_set _ _ _ _ _) as [changed g]. cbn [snd u_gate set_gate] in *. rewrite Hw. constructor.
Qed.

Lemma on_files_web f user ui :
  (forall w, web_change user w (f w).2) -> web_change user (world (u_gate ui)) (world (u_gate (on_files f ui).2)).
Proof. intros Hf. rewrite on_files_world. apply Hf. Qed.

Lemma add_device_web env h body user ui : only_web user ui (add_device_ui env h body user ui).2.
Proof.
  unfold add_device_ui. destruct (device_of _) as [d|e]; [right|by left].
  pose proof (on_files_web (access_add_device d (Changer_Web user)) user ui (fun w => wc_add_device user w d)).
  by destruct (on_files _ _).
Qed.

Lemma remove_device_web env h name user ui : only_web user ui (remove_device_ui env h name user ui).2.
Proof.
  right. unfold remove_device_ui.
  pose proof (on_files_web (access_remove_device name (Changer_Web user)) user ui (fun w => wc_remove_device user w name)).
  by destruct (on_files _ _).
Qed.

Lemma add_group_web env h name user ui : only_web user ui (add_group_ui env h name user ui).2.
Proof.
  right. unfold add_group_ui.
  pose proof (on_files_web (access_add_group name (Changer_Web user)) user ui (fun w => wc_add_group user w name)).
  by destruct (on_files _ _).
Qed.

Lemma remove_group_web env h name user ui : only_web user ui (remove_group_ui env h name user ui).2.
Proof.
  right. unfold remove_group_ui.
  pose proof (on_files_web (access_remove_group name (Changer_Web user)) user ui (fun w => wc_remove_group user w name)).
  by destruct (on_files _ _).
Qed.

Lemma approve_request_web env h id user ui : only_web user ui (approve_request env h id user ui).2.
Proof.
  unfold approve_request. destruct (Requests.get _ _) as [r|]; [right|by left]. cbv zeta.
  pose proof (on_files_web (approve (n_utc env) r (seconds (n_utc env + minutes r * 60 * second)) (Changer_Web user)) user ui
    (fun w => wc_approve user w _ r _)).
  destruct (on_files _ _) as [[[]|e] ui']; done.
Qed.

Lemma refuse_request_web env h id user ui : only_web user ui (refuse_request env h id user ui).2.
Proof.
  unfold refuse_request. destruct (Requests.get _ _) as [r|]; [right|by left]. cbn. apply (wc_refuse user _ r).
Qed.

Lemma signed_web env h handler ui :
  (forall user ui0, only_web user ui0 (handler user ui0).2) ->
  (world (u_gate (signed env h handler ui).2) = world (u_gate ui) /\ u_requests (signed env h handler ui).2 = u_requests ui)
  \/ (exists token s, signed_in (n_instant env) h ui token s
       /\ web_change (us_user s) (world (u_gate ui)) (world (u_gate (signed env h handler ui).2))).
Proof.
  intros Hh. unfold signed. pose proof (user_of_spec (n_instant env) h ui) as Hu.
  destruct (user_of _ _ ui) as [[user|] ui0]; destruct Hu as (Hg & Hr & _ & _ & Hu & _).
  - destruct Hu as (token & s & Hs & <-). destruct (Hh (us_user s) ui0) as [[Hw Hq]|Hw]; rewrite Hg in Hw.
    + left. by rewrite Hw, Hq.
    + right. by exists token, s.
  - left. simpl. by rewrite Hg, Hr.
Qed.

(** A request either leaves the files, the journal and the answers to remotehub
    alone; or it is a try to sign in and adds to the journal; or it comes from a
    page of the interface with a session that is neither idle for half an hour
    nor older than eight hours, and does one change in the name of its user. *)
Lemma serve_changes (env : Env) (q : Request) (ui : Ui) :
  let ui' := (serve env q ui).2 in
  (world (u_gate ui') = world (u_gate ui) /\ u_requests ui' = u_requests ui)
  \/ (exists form events, q_call q = C_sign_in form /\ same_origin (q_headers q) = true
       /\ world (u_gate ui') = foldl (fun w e => log e w) (world (u_gate ui)) events /\ u_requests ui' = u_requests ui)
  \/ (exists token s, same_origin (q_headers q) = true /\ signed_in (n_instant env) (q_headers q) ui token s
       /\ web_change (us_user s) (world (u_gate ui)) (world (u_gate ui'))).
Proof.
  cbn zeta. unfold serve. destruct (is_post (q_call q) && negb (same_origin (q_headers q))) eqn:Hp; [by left|].
  assert (Hw : forall handler, is_post (q_call q) = true -> (forall user ui0, only_web user ui0 (handler user ui0).2) ->
    (world (u_gate (signed env (q_headers q) handler ui).2) = world (u_gate ui)
     /\ u_requests (signed env (q_headers q) handler ui).2 = u_requests ui)
    \/ (exists form events, q_call q = C_sign_in form /\ same_origin (q_headers q) = true
         /\ world (u_gate (signed env (q_headers q) handler ui).2) = foldl (fun w e => log e w) (world (u_gate ui)) events
         /\ u_requests (signed env (q_headers q) handler ui).2 = u_requests ui)
    \/ (exists token s, same_origin (q_headers q) = true /\ signed_in (n_instant env) (q_headers q) ui token s
         /\ web_change (us_user s) (world (u_gate ui)) (world (u_gate (signed env (q_headers q) handler ui).2)))).
  { intros handler Hpost Hh. rewrite Hpost in Hp. apply negb_false_iff in Hp.
    destruct (signed_web env (q_headers q) handler ui Hh) as [?|(token & s & ?)]; [by left|right; right]. exists token, s. tauto. }
  destruct (q_call q) as [| |form| |form|body|name|name|name|id|id| | |post] eqn:Hcall; simpl in Hp; try by left.
  - left. unfold signed. pose proof (user_of_spec (n_instant env) (q_headers q) ui) as Hu.
    destruct (user_of _ _ ui) as [[user|] ui0]; destruct Hu as (Hg & Hr & _); simpl; by rewrite Hg, Hr.
  - right; left. exists form. apply negb_false_iff in Hp. unfold sign_in. destruct (sign_in_start _ _ _ _) as [name|]; [|by exists []].
    unfold sign_in_end. destruct (check_sign_in _ _ _ _) as [[]|]; [|..|by exists []].
    + by eexists [_].
    + set (u1 := journal_append _ ui). pose proof (failed_spec (n_instant env) name u1) as (Hg & Hr & _).
      destruct (failed (n_instant env) name u1) as [[] u2]; cbn [snd] in Hg, Hr; simpl; rewrite Hg, Hr;
        [by eexists [_; _]|by eexists [_]].
  - left. unfold sign_out. simpl. by destruct (cookie _).
  - apply Hw; [done|]. intros. apply change_access_web.
  - apply Hw; [done|]. intros. apply add_device_web.
  - apply Hw; [done|]. intros. apply remove_device_web.
  - apply Hw; [done|]. intros. apply add_group_web.
  - apply Hw; [done|]. intros. apply remove_group_web.
  - apply Hw; [done|]. intros. apply approve_request_web.
  - apply Hw; [done|]. intros. apply refuse_request_web.
Qed.

(** *** Where sessions come from *)

(** What happens to a running interface: a request, a command for the users, or
    whatever the agent, remotehub and the command line do to the rest. *)
Inductive Happening :=
| Asked (env : Env) (q : Request)
| UsersReplaced (f : UsersFile)
| Outside (g : Gate) (r : Requests.State).

Definition happen (ui : Ui) (h : Happening) : Ui :=
  match h with
  | Asked env q => (serve env q ui).2
  | UsersReplaced f =>
      {| u_gate := u_gate ui; u_requests := u_requests ui; u_users := f; u_remotehub := u_remotehub ui;
         u_sessions := u_sessions ui; u_attempts := u_attempts ui |}
  | Outside g r => set_requests r (set_gate g ui)
  end.

(** A request that signs in: from the interface's own page, with a name that is
    not locked, its password and, if it has a second factor, its code. *)
Definition proves (env : Env) (q : Request) (ui : Ui) (name : list Z) : Prop :=
  exists form, q_call q = C_sign_in form /\ same_origin (q_headers q) = true /\ name = trim (si_name form)
    /\ locked (n_instant env) name ui = None
    /\ knows name (si_password form) (si_code form) (n_utc env / second) (u_users ui).

Definition same_sessions (ui ui' : Ui) : Prop := u_sessions ui' = u_sessions ui.

Lemma on_files_sessions f ui : u_sessions (on_files f ui).2 = u_sessions ui.
Proof. unfold on_files. by destruct (f _). Qed.

(** The sessions a request leaves are those before it, of the same users since
    the same time, or one it begins. *)
Definition kept (ui ui' : Ui) : Prop :=
  forall token s, u_sessions ui' !! token = Some s ->
    exists s0, u_sessions ui !! token = Some s0 /\ us_user s = us_user s0 /\ us_started s = us_started s0.

Lemma kept_same ui ui' : u_sessions ui' = u_sessions ui -> kept ui ui'.
Proof. intros Hs token s Ht. rewrite Hs in Ht. by exists s. Qed.

Lemma signed_kept env h handler ui :
  (forall user ui0, u_sessions (handler user ui0).2 = u_sessions ui0) -> kept ui (signed env h handler ui).2.
Proof.
  intros Hh token s Ht. unfold signed in Ht. pose proof (user_of_spec (n_instant env) h ui) as Hu.
  destruct (user_of _ _ ui) as [[user|] ui0]; destruct Hu as (_ & _ & _ & _ & _ & Hk).
  - rewrite Hh in Ht. by apply Hk.
  - by apply Hk.
Qed.

Local Ltac same_tac f :=
  unfold f; repeat match goal with
  | |- context [device_of ?x] => destruct (device_of x)
  | |- context [Requests.get ?x ?y] => destruct (Requests.get x y)
  | |- context [on_files ?g ?u] =>
      let E := fresh "E" in pose proof (on_files_sessions g u) as E; destruct (on_files g u) as [[[]|] ?]; cbn [snd] in E
  | |- context [gate_set ?a ?b ?c ?d ?e] => destruct (gate_set a b c d e)
  | |- context [match ?x with _ => _ end] => destruct x
  end; try done; cbn; try congruence.

Lemma serve_sessions env q ui :
  kept ui (serve env q ui).2
  \/ exists name, proves env q ui name
     /\ u_sessions (serve env q ui).2
        = <[n_token env := {| us_user := name; us_started := n_instant env; us_seen := n_instant env |}]> (u_sessions ui).
Proof.
  unfold serve. destruct (is_post (q_call q) && negb (same_origin (q_headers q))) eqn:Hp; [left; by apply kept_same|].
  destruct (q_call q) as [| |form| |form|body|name|name|name|id|id| | |post] eqn:Hcall; simpl in Hp;
    try (left; by apply kept_same).
  - left. apply signed_kept. done.
  - apply negb_false_iff in Hp. unfold sign_in, sign_in_start. set (name := trim (si_name form)).
    destruct (locked (n_instant env) name ui) eqn:Hl; [left; by apply kept_same|]. unfold sign_in_end.
    destruct (check_sign_in env form name ui) as [[[]|]|] eqn:Hv; [|left|left; by apply kept_same].
    + right. exists name. split; [|done]. exists form. split_and!; try done. by apply verify_knows.
    + apply kept_same. set (u1 := journal_append _ ui). pose proof (failed_spec (n_instant env) name u1) as (_ & _ & _ & Hs).
      by destruct (failed (n_instant env) name u1) as [[] u2].
  - left. intros token s. unfold sign_out. cbn [snd]. destruct (cookie _) as [tk|]; [|by exists s].
    simpl. intros [_ Hs]%lookup_delete_Some. by exists s.
  - left. apply signed_kept. intros user ui0. same_tac change_access.
  - left. apply signed_kept. intros user ui0. same_tac add_device_ui.
  - left. apply signed_kept. intros user ui0. same_tac remove_device_ui.
  - left. apply signed_kept. intros user ui0. same_tac add_group_ui.
  - left. apply signed_kept. intros user ui0. same_tac remove_group_ui.
  - left. apply signed_kept. intros user ui0. same_tac approve_request.
  - left. apply signed_kept. intros user ui0. same_tac refuse_request.
Qed.

Lemma session_origin (ui0 : Ui) (es : list Happening) token s :
  u_sessions ui0 = ∅ -> u_sessions (foldl happen ui0 es) !! token = Some s ->
  exists pre env q post, es = pre ++ Asked env q :: post /\ n_token env = token /\ us_started s = n_instant env
    /\ proves env q (foldl happen ui0 pre) (us_user s).
Proof.
  intros Hempty. revert s. induction es as [|h es IH] using rev_ind; intros s.
  { simpl. rewrite Hempty. by rewrite lookup_empty. }
  rewrite foldl_app. cbn [foldl]. intros Hs.
  assert (Hold : forall s0, u_sessions (foldl happen ui0 es) !! token = Some s0 -> us_user s = us_user s0 ->
    us_started s = us_started s0 -> exists pre env q post, es ++ [h] = pre ++ Asked env q :: post /\ n_token env = token
      /\ us_started s = n_instant env /\ proves env q (foldl happen ui0 pre) (us_user s)).
  { intros s0 Hs0 Hu Hst. destruct (IH s0 Hs0) as (pre & env & q & post & -> & Ht & Hi & Hpr).
    exists pre, env, q, (post ++ [h]). rewrite Hu, Hst. split_and!; [by rewrite <- app_assoc|done..]. }
  destruct h as [env q|f|g r]; [|by apply (Hold s)|by apply (Hold s)]. cbn [happen] in Hs.
  destruct (serve_sessions env q (foldl happen ui0 es)) as [Hk|(name & Hpr & Hs')].
  - destruct (Hk token s Hs) as (s0 & Hs0 & ? & ?). by apply (Hold s0).
  - rewrite Hs', lookup_insert in Hs. case_decide as Heq; [|by apply (Hold s)].
    injection Hs as <-. exists es, env, q, []. by subst.
Qed.

(** C31: Whatever a request changes in the files through the web interface is
    changed in the name of someone who signed in there at most eight hours
    before, with the password of that user and, if the user has a second factor,
    a code of it, from one of its own pages, and who asked something of it within
    the last half hour. *)
Theorem web_changes_need_a_sign_in (ui0 : Ui) (es : list Happening) (env : Env) (q : Request) :
  u_sessions ui0 = ∅ ->
  let ui := foldl happen ui0 es in
  let w := world (u_gate ui) in let w' := world (u_gate (serve env q ui).2) in
  access_json w' <> access_json w \/ inventory_json w' <> inventory_json w
    \/ u_requests (serve env q ui).2 <> u_requests ui ->
  exists user pre env0 q0 post, web_change user w w' /\ same_origin (q_headers q) = true
    /\ es = pre ++ Asked env0 q0 :: post /\ proves env0 q0 (foldl happen ui0 pre) user
    /\ cookie (q_headers q) = Some (n_token env0)
    /\ n_instant env - n_instant env0 < LONGEST
    /\ exists s, u_sessions ui !! n_token env0 = Some s /\ n_instant env - us_seen s < IDLE.
Proof.
  intros Hempty ui w w' Hchg. destruct (serve_changes env q ui) as [[Hw Hr]|[(form & events & _ & _ & Hw & Hr)|Hs]].
  - exfalso. fold w' w in Hw. rewrite Hw in Hchg. naive_solver.
  - exfalso. fold w' w in Hw. assert (Hf : forall l v, access_json (foldl (fun w e => log e w) v l) = access_json v
      /\ inventory_json (foldl (fun w e => log e w) v l) = inventory_json v).
    { induction l as [|e l IH]; intros v; [done|]. cbn [foldl]. destruct (IH (log e v)) as [-> ->]. done. }
    destruct (Hf events w) as [Ha Hi]. rewrite Hw, Ha, Hi in Hchg. naive_solver.
  - destruct Hs as (token & s & Ho & (Hc & Hl & Hlive) & Hch).
    destruct (session_origin ui0 es token s Hempty Hl) as (pre & env0 & q0 & post & Hes & <- & Hst & Hpr).
    exists (us_user s), pre, env0, q0, post. unfold live in Hlive. bools. rewrite Hst in *.
    split_and!; try done. by exists s.
Qed.

(** *** Guessing *)

(** The name whose password a request has checked, and whether it was right. *)
Definition guess (env : Env) (q : Request) (ui : Ui) : option (list Z * bool) :=
  match q_call q with
  | C_sign_in form =>
      if same_origin (q_headers q) then
        match sign_in_start env (q_headers q) form ui with
        | Ok name => match check_sign_in env form name ui with
                     | Some (Ok _) => Some (name, true)
                     | Some (Err _) => Some (name, false)
                     | None => None
                     end
        | Err _ => None
        end
      else None
  | _ => None
  end.

Lemma serve_attempts env q ui :
  u_attempts (serve env q ui).2
  = match guess env q ui with
    | Some (name, true) => delete name (u_attempts ui)
    | Some (name, false) => u_attempts (failed (n_instant env) name ui).2
    | None => u_attempts ui
    end.
Proof.
  assert (Hsigned : forall handler, (forall user ui0, u_attempts (handler user ui0).2 = u_attempts ui0) ->
    u_attempts (signed env (q_headers q) handler ui).2 = u_attempts ui).
  { intros handler Hh. unfold signed. pose proof (user_of_spec (n_instant env) (q_headers q) ui) as Hu.
    destruct (user_of _ _ ui) as [[user|] ui0]; destruct Hu as (_ & _ & _ & Ha & _); [by rewrite Hh|done]. }
  assert (Hfiles : forall f u, u_attempts (on_files f u).2 = u_attempts u).
  { intros f u. unfold on_files. by destruct (f _). }
  unfold serve, guess.
  destruct (q_call q) as [| |form| |form|body|name|name|name|id|id| | |post]; simpl; try done.
  - by apply Hsigned.
  - destruct (same_origin (q_headers q)); simpl; [|done]. unfold sign_in.
    destruct (sign_in_start _ _ _ _) as [name|]; [|done]. unfold sign_in_end.
    destruct (check_sign_in _ _ _ _) as [[[]|]|]; [done| |done].
    set (u1 := journal_append _ ui). assert (Hf : u_attempts (failed (n_instant env) name u1).2
      = u_attempts (failed (n_instant env) name ui).2) by (unfold failed; simpl; by case_match).
    by destruct (failed (n_instant env) name u1) as [[] u2].
  - destruct (same_origin _); simpl; [|done]. unfold sign_out. simpl. by destruct (cookie _).
  - destruct (same_origin _); simpl; [|done]. apply Hsigned. intros user u. unfold change_access.
    destruct (asked_access _ _); [|done]. destruct (asked_scope _ _); [|done]. by destruct (gate_set _ _ _ _ _).
  - destruct (same_origin _); simpl; [|done]. apply Hsigned. intros user u. unfold add_device_ui.
    destruct (device_of _) as [d|e]; [|done]. pose proof (Hfiles (access_add_device d (Changer_Web user)) u).
    by destruct (on_files _ _).
  - destruct (same_origin _); simpl; [|done]. apply Hsigned. intros user u. unfold remove_device_ui.
    pose proof (Hfiles (access_remove_device name (Changer_Web user)) u). by destruct (on_files _ _).
  - destruct (same_origin _); simpl; [|done]. apply Hsigned. intros user u. unfold add_group_ui.
    pose proof (Hfiles (access_add_group name (Changer_Web user)) u). by destruct (on_files _ _).
  - destruct (same_origin _); simpl; [|done]. apply Hsigned. intros user u. unfold remove_group_ui.
    pose proof (Hfiles (access_remove_group name (Changer_Web user)) u). by destruct (on_files _ _).
  - destruct (same_origin _); simpl; [|done]. apply Hsigned. intros user u. unfold approve_request.
    destruct (Requests.get _ _) as [r|]; [|done]. cbv zeta.
    pose proof (Hfiles (approve (n_utc env) r (seconds (n_utc env + minutes r * 60 * second)) (Changer_Web user)) u).
    by destruct (on_files _ _) as [[[]|] u'].
  - destruct (same_origin _); simpl; [|done]. apply Hsigned. intros user u. unfold refuse_request.
    by destruct (Requests.get _ _) as [r|].
  - by destruct (post && negb (same_origin (q_headers q))).
Qed.

(** The times of the wrong guesses at a name, oldest first, and whether none of
    them was right. *)
Fixpoint wrong_times (name : list Z) (ui : Ui) (es : list Happening) : list Z :=
  match es with
  | [] => []
  | h :: es =>
      match h with
      | Asked env q => match guess env q ui with
                       | Some (n, false) => if bool_decide (n = name) then [n_instant env] else []
                       | _ => []
                       end
      | _ => []
      end ++ wrong_times name (happen ui h) es
  end.

Fixpoint never_right (name : list Z) (ui : Ui) (es : list Happening) : Prop :=
  match es with
  | [] => True
  | h :: es =>
      match h with Asked env q => guess env q ui <> Some (name, true) | _ => True end
      /\ never_right name (happen ui h) es
  end.

(** The monotonic clock does not go back. *)
Fixpoint in_time (from : Z) (es : list Happening) : Prop :=
  match es with
  | [] => True
  | Asked env q :: es => from <= n_instant env /\ in_time (n_instant env) es
  | _ :: es => in_time from es
  end.

(** Bursts of at most five, newest first, with five minutes between them. *)
Fixpoint bursts_apart (bs : list (list Z)) : Prop :=
  match bs with
  | [] => True
  | b :: bs =>
      Z.of_nat (length b) <= ATTEMPTS
      /\ (forall x y, x ∈ b -> y ∈ concat bs -> y + LOCKED_FOR <= x) /\ bursts_apart bs
  end.

Definition within (from : Z) (l : list Z) : Z := Z.of_nat (length (filter (fun x => from <= x < from + LOCKED_FOR) l)).

Lemma bursts_within bs from : bursts_apart bs -> within from (concat bs) <= ATTEMPTS.
Proof.
  induction bs as [|b bs IH]; [done|]. intros (Hl & Hap & Hbs). cbn [concat]. unfold within in *.
  rewrite filter_app, length_app.
  destruct (filter (fun x => from <= x < from + LOCKED_FOR) b) as [|x r] eqn:E; [simpl; by apply IH|].
  assert (Hx : x ∈ filter (fun x => from <= x < from + LOCKED_FOR) b) by (rewrite E; by left).
  apply list_elem_of_filter in Hx as [Hw Hx].
  assert (Hnone : filter (fun x => from <= x < from + LOCKED_FOR) (concat bs) = []).
  { apply elem_of_nil_inv. intros y [Hy Hin]%list_elem_of_filter. specialize (Hap x y Hx Hin). lia. }
  rewrite Hnone, <- E. simpl. pose proof (length_filter (fun x => from <= x < from + LOCKED_FOR) b). lia.
Qed.

(** What the attempts know of the bursts at a name up to [now]. *)
Definition counted (name : list Z) (now : Z) (ui : Ui) (bs : list (list Z)) : Prop :=
  bursts_apart bs
  /\ match bs with
     | [] => u_attempts ui !! name = None
     | b :: _ =>
         exists last, head b = Some last /\ last <= now /\ (forall x, x ∈ b -> x <= last)
         /\ (u_attempts ui !! name = None /\ last + LOCKED_FOR <= now
             \/ exists a, u_attempts ui !! name = Some a /\ at_last a = last
                /\ (Z.of_nat (length b) < ATTEMPTS /\ at_failures a = Z.of_nat (length b)
                      /\ (forall u, at_locked a = Some u -> u <= last)
                    \/ at_failures a = 0 /\ at_locked a = Some (last + LOCKED_FOR)))
     end.

Lemma counted_later name now now' ui bs : now <= now' -> counted name now ui bs -> counted name now' ui bs.
Proof.
  intros Hn [Hap Hb]. split; [done|]. destruct bs as [|b bs]; [done|].
  destruct Hb as (last & Hh & Hl & Hx & Hc). exists last. split_and!; [done|lia|done|].
  destruct Hc as [[Ha Hr]|Ha]; [left; split; [done|lia]|by right].
Qed.

(** Only the attempts at the name count. *)
Lemma counted_same name now ui ui' bs :
  u_attempts ui' !! name = u_attempts ui !! name -> counted name now ui bs -> counted name now ui' bs.
Proof. unfold counted. by intros ->. Qed.

(** Forgetting an entry that is five minutes old and not locked. *)
Lemma counted_forgotten name now ui ui' bs :
  u_attempts ui' !! name = None ->
  (forall a, u_attempts ui !! name = Some a ->
     at_last a + LOCKED_FOR <= now /\ forall u, at_locked a = Some u -> u <= now) ->
  counted name now ui bs -> counted name now ui' bs.
Proof.
  intros Hnone Hold [Hap Hb]. split; [done|]. destruct bs as [|b bs]; [done|].
  destruct Hb as (last & Hh & Hl & Hx & Hc). exists last. split_and!; [done..|]. left.
  destruct Hc as [[Ha Hr]|(a & Ha & Hlast & Hc)]; [done|]. split; [done|].
  destruct (Hold a Ha) as [Ho _]. lia.
Qed.

(** What [failed] keeps of the attempts. *)
Definition fresh_attempts (now : Z) (ui : Ui) : gmap (list Z) Attempts :=
  filter (fun na => (now - at_last na.2 <? LOCKED_FOR) || is_some_and (Z.ltb now) (at_locked na.2) = true) (u_attempts ui).

Lemma fresh_lookup now ui name :
  fresh_attempts now ui !! name = u_attempts ui !! name
  \/ fresh_attempts now ui !! name = None
     /\ forall a, u_attempts ui !! name = Some a ->
          at_last a + LOCKED_FOR <= now /\ forall u, at_locked a = Some u -> u <= now.
Proof.
  unfold fresh_attempts. rewrite map_lookup_filter. destruct (u_attempts ui !! name) as [a|] eqn:E; simpl; [|by left].
  destruct ((now - at_last a <? LOCKED_FOR) || is_some_and (Z.ltb now) (at_locked a)) eqn:Ef.
  - left. by rewrite option_guard_True.
  - right. rewrite option_guard_False by congruence. split; [done|]. intros a' [= <-]. bools. split; [lia|].
    intros u Hu. rewrite Hu in *. simpl in *. bools. lia.
Qed.

Lemma counted_fresh name now ui bs :
  counted name now ui bs -> counted name now (set_attempts (fresh_attempts now ui) ui) bs.
Proof.
  intros Hc. destruct (fresh_lookup now ui name) as [Hs|[Hn Ho]].
  - eapply counted_same; [|exact Hc]. done.
  - by eapply counted_forgotten.
Qed.

Lemma failed_attempts now n ui :
  exists a, u_attempts (failed now n ui).2 = <[n := a]> (fresh_attempts now ui) /\ at_last a = now
    /\ (let failures := at_failures (default {| at_failures := 0; at_last := now; at_locked := None |} (fresh_attempts now ui !! n)) + 1 in
        if ATTEMPTS <=? failures then at_failures a = 0 /\ at_locked a = Some (now + LOCKED_FOR)
        else at_failures a = failures
             /\ at_locked a = (e ← fresh_attempts now ui !! n; at_locked e)).
Proof.
  unfold failed. fold (fresh_attempts now ui). cbv zeta. destruct (ATTEMPTS <=? _); cbn [snd u_attempts set_attempts].
  - by eexists; split_and!.
  - eexists; split_and!; [reflexivity..|]. simpl. by destruct (fresh_attempts now ui !! n).
Qed.

(** A wrong guess at a name that is not locked lengthens its burst, or begins
    one five minutes after the last. *)
Lemma counted_failed name now ui bs :
  counted name now ui bs -> locked now name ui = None ->
  exists bs', counted name now (failed now name ui).2 bs' /\ concat bs' = now :: concat bs.
Proof.
  assert (Hpos : 0 <= LOCKED_FOR) by done.
  intros Hc Hfree. pose proof (counted_fresh name now ui bs Hc) as [Hap Hb]. cbn [u_attempts set_attempts] in Hb.
  destruct (failed_attempts now name ui) as (a & Ha & Hlast & Hcount). cbv zeta in Hcount.
  assert (Hnew : u_attempts (failed now name ui).2 !! name = Some a) by (rewrite Ha; apply lookup_insert_eq).
  assert (Hstart : fresh_attempts now ui !! name = None -> (forall y, y ∈ concat bs -> y + LOCKED_FOR <= now) ->
    counted name now (failed now name ui).2 ([now] :: bs)).
  { intros Hnone Hold. rewrite Hnone in Hcount. simpl in Hcount. split.
    - split_and!; [done| |done]. intros x y ->%list_elem_of_singleton Hy. by apply Hold.
    - exists now. split_and!; [done|lia|by intros x ->%list_elem_of_singleton|]. right. exists a.
      destruct Hcount as [Hf Hl]. split_and!; [done..|]. left. split_and!; [done..|]. rewrite Hl. done. }
  destruct bs as [|b bs].
  { exists [[now]]. split; [|done]. apply Hstart; [done|]. by intros y ?%elem_of_nil. }
  destruct Hb as (l & Hh & Hl & Hx & Hcase). destruct Hap as (Hlen & Hold & Hap).
  assert (Hbefore : forall y, y ∈ concat bs -> y + LOCKED_FOR <= l).
  { intros y Hy. apply (Hold l y); [|done]. by apply head_Some_elem_of in Hh. }
  destruct Hcase as [[Hnone Hr]|(e & He & Hel & Hcase)].
  { exists ([now] :: b :: bs). split; [|done]. apply Hstart; [done|]. cbn [concat].
    intros y [Hy|Hy]%elem_of_app; [specialize (Hx y Hy)|specialize (Hbefore y Hy)]; lia. }
  destruct (fresh_lookup now ui name) as [Hs|[Hs _]]; [|congruence].
  destruct Hcase as [(Hb5 & Hf & Hlk)|[_ Hlk]].
  2: { exfalso. unfold locked in Hfree. rewrite <- Hs, He in Hfree. simpl in Hfree. rewrite Hlk in Hfree. simpl in Hfree.
       destruct (now <=? l + LOCKED_FOR) eqn:Hle; [done|].
       unfold fresh_attempts in He. apply map_lookup_filter_Some in He as [_ He]. cbn [snd] in He. rewrite Hlk in He.
       cbn [is_some_and] in He. rewrite Hel in *. apply Z.leb_gt in Hle.
       apply orb_true_iff in He as [?%Z.ltb_lt|?%Z.ltb_lt]; lia. }
  exists ((now :: b) :: bs). split; [|done]. rewrite He in Hcount. simpl in Hcount. rewrite Hf in Hcount. split.
  - split_and!; [simpl; unfold ATTEMPTS in *; lia| |done]. intros x y [->|Hin]%elem_of_cons Hy; [|by apply Hold].
    specialize (Hbefore y Hy). lia.
  - exists now. split_and!; [done|lia| |].
    { intros x [->|Hin]%elem_of_cons; [lia|]. specialize (Hx x Hin). lia. }
    right. exists a. split_and!; [done..|]. destruct (ATTEMPTS <=? Z.of_nat (length b) + 1) eqn:E5.
    + right. naive_solver.
    + left. destruct Hcount as [Hca Hcl]. bools. split_and!; [simpl; lia|simpl; lia|].
      intros u Hu. rewrite Hcl in Hu. specialize (Hlk u Hu). lia.
Qed.

Lemma counted_step name now ui bs (h : Happening) :
  counted name now ui bs ->
  match h with Asked env q => now <= n_instant env /\ guess env q ui <> Some (name, true) | _ => True end ->
  exists bs', counted name (match h with Asked env _ => n_instant env | _ => now end) (happen ui h) bs'
    /\ concat bs' = reverse (wrong_times name ui [h]) ++ concat bs.
Proof.
  intros Hc Hh. destruct h as [env q|f|g r]; [|by exists bs..]. destruct Hh as [Hn Hright].
  apply (counted_later name now (n_instant env)) in Hc; [|done]. cbn [happen wrong_times].
  pose proof (serve_attempts env q ui) as Ha. destruct (guess env q ui) as [[n []]|] eqn:Hg.
  - exists bs. split; [|done]. eapply counted_same; [|exact Hc]. rewrite Ha, lookup_delete. case_decide; congruence.
  - assert (Hfree : locked (n_instant env) n ui = None).
    { unfold guess in Hg. destruct (q_call q); try done. destruct (same_origin _); [|done].
      unfold sign_in_start in Hg. destruct (locked (n_instant env) (trim (si_name form)) ui) eqn:El; [done|].
      destruct (check_sign_in _ _ _ _) as [[]|]; congruence. }
    destruct (decide (n = name)) as [->|Hne].
    + rewrite bool_decide_eq_true_2 by done. destruct (counted_failed name _ ui bs Hc Hfree) as (bs' & Hc' & Hcat).
      exists bs'. split; [|done]. eapply counted_same; [|exact Hc']. by rewrite Ha.
    + rewrite bool_decide_eq_false_2 by done. exists bs. split; [|done].
      eapply counted_same; [|exact (counted_fresh _ _ _ _ Hc)].
      destruct (failed_attempts (n_instant env) n ui) as (a & Hf & _). rewrite Ha, Hf. by rewrite lookup_insert_ne.
  - exists bs. split; [|done]. eapply counted_same; [|exact Hc]. by rewrite Ha.
Qed.

Lemma counted_all name now ui bs es :
  counted name now ui bs -> in_time now es -> never_right name ui es ->
  exists bs', bursts_apart bs' /\ concat bs' = reverse (wrong_times name ui es) ++ concat bs.
Proof.
  revert now ui bs. induction es as [|h es IH]; intros now ui bs Hc Ht Hr; [exists bs; split; [apply Hc|done]|].
  destruct Hr as [Hh Hr]. destruct (counted_step name now ui bs h Hc) as (bs1 & Hc1 & Hcat).
  { destruct h; [|done..]. by destruct Ht. }
  destruct (IH _ _ _ Hc1) as (bs' & Hb & Hcat'); [by destruct h; [destruct Ht|..]|done|].
  exists bs'. split; [done|]. rewrite Hcat', Hcat, app_assoc, <- reverse_app. f_equal. f_equal.
  cbn [wrong_times]. by rewrite app_nil_r.
Qed.

(** A name's password cannot be guessed at will: whatever happens to the
    interface, in whatever order its requests are answered one after another,
    any five minutes see at most five wrong sign-ins at a name that are checked
    at all, until its owner signs in. *)
Theorem wrong_sign_ins_are_few (name : list Z) (ui : Ui) (es : list Happening) (now from : Z) :
  u_attempts ui !! name = None -> in_time now es -> never_right name ui es ->
  within from (wrong_times name ui es) <= ATTEMPTS.
Proof.
  intros Hnone Ht Hr. destruct (counted_all name now ui [] es) as (bs & Hap & Hcat); [by split|done..|].
  pose proof (bursts_within bs from Hap) as Hw. rewrite Hcat, app_nil_r in Hw. unfold within in *.
  by rewrite filter_reverse, length_reverse in Hw.
Qed.

(** *** What the forms do *)

Lemma signed_see env h handler ui location :
  (signed env h handler ui).1 = SeeOther location None -> location <> lit "/sign-in" ->
  exists token s ui0, signed_in (n_instant env) h ui token s /\ signed env h handler ui = handler (us_user s) ui0
    /\ u_gate ui0 = u_gate ui /\ u_requests ui0 = u_requests ui.
Proof.
  unfold signed. pose proof (user_of_spec (n_instant env) h ui) as Hu.
  destruct (user_of _ _ ui) as [[user|] ui0]; destruct Hu as (Hg & Hr & _ & _ & Hs & _); [|simpl; intros [=]; congruence].
  intros _ _. destruct Hs as (token & s & Hs & <-). by exists token, s, ui0.
Qed.

Lemma after_change_see env h user changed ui location c :
  after_change env h user changed ui = SeeOther location c -> changed = Ok tt.
Proof. by destruct changed as [[]|[]]. Qed.

(** The longest an access is opened for by the number of hours. *)
Definition WEEK : Z := 24 * 7 * 3600 * second.

Lemma for_hours_ahead hours now a :
  for_hours hours now = Some a -> exists u, a = Access_Open (Some u) /\ now < u <= now + WEEK.
Proof.
  unfold for_hours. case_match eqn:Hh; [|done]. intros [= <-]. bools. eexists. split; [done|]. unfold WEEK, second. lia.
Qed.

Lemma asked_access_ahead form now u :
  asked_access form now = Some (Access_Open (Some u)) ->
  now < u /\ (c_action form <> lit "until" -> u <= now + WEEK).
Proof.
  unfold asked_access. repeat case_bool_decide; try done.
  - destruct (c_hours form) as [n|]; simpl; [|done]. intros (v & [= ->] & ?)%for_hours_ahead. lia.
  - destruct (c_duration form) as [d|]; simpl; [|done]. case_bool_decide; [done|].
    destruct (parse_signed _ _) as [n|]; simpl; [|done]. intros (v & [= ->] & ?)%for_hours_ahead. lia.
  - destruct (c_until form) as [text|]; simpl; [|done]. destruct (local_time _ _) as [v|]; simpl; [|done].
    case_match eqn:Hv; [|done]. intros [= ->]. bools. done.
Qed.

Lemma asked_scope_request form a i : asked_scope form (Some a) = Some (Scope_Request i) -> a = Access_Closed.
Proof.
  unfold asked_scope. destruct (c_scope form) as [scope|]; [|done]. repeat case_bool_decide; try done. by intros _; congruence.
Qed.

(** A form of the status page that is taken sets the access it asks for,
    of what it names, in the name of who is signed in, and of nothing else; the
    running connector follows at once. What it opens for a while ends in the
    future, within a week unless the form names the moment, and what remotehub
    asked for is only ever closed by a form. *)
Theorem form_sets_exactly (env : Env) (q : Request) (form : Change) (ui : Ui) :
  q_call q = C_access form -> (serve env q ui).1 = SeeOther (lit "/") None ->
  exists token s a scope f f' i,
    signed_in (n_instant env) (q_headers q) ui token s
    /\ asked_access form (n_utc env) = Some a /\ asked_scope form (Some a) = Some scope
    /\ read_access (world (u_gate ui)) = Some f /\ in_sync (u_gate (serve env q ui).2) f' i
    /\ read_inventory (world (u_gate ui)) = Some i /\ known i f scope = true
    /\ access (file_get f' scope) = rounded a
    /\ (forall other, other <> scope -> file_lookup f' other = file_lookup f other)
    /\ journal (world (u_gate (serve env q ui).2))
       = journal (world (u_gate ui)) ++ [change_event scope (rounded a) (Changer_Web (us_user s))]
    /\ match a with
       | Access_Open (Some u) => n_utc env < u /\ (c_action form <> lit "until" -> u <= n_utc env + WEEK)
       | _ => True
       end
    /\ (forall r, scope = Scope_Request r -> a = Access_Closed).
Proof.
  intros Hc. unfold serve. rewrite Hc. case_match; [done|]. intros Hsee.
  destruct (signed_see _ _ _ _ _ Hsee) as (token & s & ui0 & Hin & Heq & Hg & _); [done|]. rewrite Heq in *.
  clear Heq. unfold change_access in *. destruct (asked_access form (n_utc env)) as [a|] eqn:Ha; [|done].
  destruct (asked_scope form (Some a)) as [scope|] eqn:Hs; [|done]. unfold gate_set in *.
  rewrite Hg in *. pose proof (change_exact (n_utc env) scope a (Changer_Web (us_user s)) (world (u_gate ui))) as Hex.
  destruct (change _ _ _ _ _) as [[[]|e] w']; [|cbn [fst] in Hsee; by apply after_change_see in Hsee].
  destruct Hex as (f & f' & i & Hf & Hf' & Hi & Hi' & Hk & Hacc & Hoth & Hj).
  destruct (reload_sync {| world := w'; state := state (u_gate ui) |} f' i Hf' Hi') as [Hsync Hw].
  exists token, s, a, scope, f, f', i. split_and!; try done.
  - cbn [snd u_gate set_gate]. by rewrite Hw.
  - destruct a as [|[u|]]; [done| |done]. by apply asked_access_ahead.
  - intros r ->. by apply asked_scope_request in Hs.
Qed.

Lemma get_spec st i r : Requests.get st i = Some r -> Requests.id r = i /\ r ∈ waiting st.
Proof.
  unfold Requests.get. destruct (list_find _ _) as [[k x]|] eqn:E; [|done]. intros [= <-].
  apply list_find_Some in E as (Hl & Hi & _). split; [done|]. by eapply list_elem_of_lookup_2.
Qed.

Lemma get_answered st a : Requests.get (answer st a) (a_id a) = None.
Proof.
  unfold Requests.get. destruct (list_find _ _) as [[k x]|] eqn:E; [|done].
  apply list_find_Some in E as (Hl & Hi & _). apply list_elem_of_lookup_2, elem_of_waiting in Hl as [_ Hl].
  exfalso. apply (Hl a); [|done]. simpl. apply elem_of_app. right. by left.
Qed.

Lemma seconds_seconds x : seconds (seconds x) = seconds x.
Proof.
  unfold seconds. pose proof (Z.div_mod x 1000000000 ltac:(done)) as Hx. set (m := x mod 1000000000) in *.
  replace (x - m) with (x / 1000000000 * 1000000000) by lia. rewrite Z.mod_mul by done. lia.
Qed.

(** Approving a request through the web interface opens, from the moment,
    for the minutes remotehub asked for, exactly the targets the request names,
    tells remotehub so, and leaves nothing waiting that could be approved again. *)
Theorem approval_is_the_request (env : Env) (q : Request) (i : Uuid) (ui : Ui) :
  q_call q = C_approve i -> (serve env q ui).1 = SeeOther (lit "/") None ->
  let ui' := (serve env q ui).2 in
  exists token s r f until,
    signed_in (n_instant env) (q_headers q) ui token s
    /\ r ∈ waiting (u_requests ui) /\ Requests.id r = i
    /\ until = seconds (n_utc env + minutes r * 60 * second)
    /\ read_access (world (u_gate ui)) = Some f
    /\ read_access (world (u_gate ui'))
       = Some {| network := network f; f_devices := f_devices f; f_groups := f_groups f;
                 f_requests := <[i := {| g_requester := requester r; g_reason := reason r; g_targets := targets r;
                                         stored := {| access := Access_Open (Some until);
                                                      changed_by := Some (Changer_Web (us_user s));
                                                      changed_at := Some (seconds (n_utc env)) |} |}]> (f_requests f) |}
    /\ answers (u_requests ui')
       = answers (u_requests ui)
         ++ [{| a_id := i; approved := true; by_user := us_user s; Requests.until := rfc3339 until |}]
    /\ Requests.get (u_requests ui') i = None.
Proof.
  intros Hc. cbv zeta. unfold serve. rewrite Hc. case_match; [done|]. intros Hsee.
  destruct (signed_see _ _ _ _ _ Hsee) as (token & s & ui0 & Hin & Heq & Hg & Hr); [done|]. rewrite Heq in *.
  clear Heq. unfold approve_request, on_files in *. rewrite Hr, Hg in *.
  destruct (Requests.get (u_requests ui) i) as [r|] eqn:Hget; [|done]. cbv zeta in *.
  destruct (get_spec _ _ _ Hget) as [Hid Hwait]. set (until := seconds (n_utc env + minutes r * 60 * second)) in *.
  rewrite approve_run in *. destruct (read_access (world (u_gate ui))) as [f|] eqn:Hf; [|done].
  destruct (access_writable _); [|done].
  assert (Huntil : seconds until = until) by apply seconds_seconds.
  exists token, s, r, f, until. rewrite Huntil in *. split_and!; try done.
  - cbn [snd u_gate set_gate set_requests]. rewrite reload_world. simpl. by rewrite Hid.
  - simpl. by rewrite Hr, Hid.
  - cbn [snd u_requests set_gate set_requests]. rewrite <- Hid. apply (get_answered _ {| a_id := Requests.id r; approved := true; by_user := us_user s; Requests.until := rfc3339 until |}).
Qed.
End ui.

(** ** Examples *)

Module UiExamples.

#[local] Existing Instance PageExamples.plain_catalog.
#[local] Existing Instance PageExamples.plain_times.
#[local] Existing Instance PageExamples.plain_minutes.
#[local] Existing Instance PageExamples.plain_uuid.
#[local] Existing Instance PageExamples.plain_simple.
#[local] Existing Instance TextExamples.tenths.
#[local] Existing Instance UserExamples.same_lower.
#[local] Existing Instance UserExamples.open_argon2.
#[local] Existing Instance TotpExamples.counting.
#[local] Existing Instance TotpExamples.letters.
#[local] Instance decimal_uuid : UuidParse := parse_unsigned (2 ^ 128 - 1).
#[local] Instance no_entries : EntryParse := fun _ => None.
#[local] Instance one_pair : FormPairs := fun body => Some [(lit "name", body)].
#[local] Instance no_times : LocalTime :=
  { parse_to_minutes := fun _ => None; parse_to_seconds := fun _ => None; offset_seconds := Some }.

Definition asks : CustomerRequest :=
  {| id := 7; requester := lit "Dave"; reason := lit "update"; minutes := 60;
     targets := [{| t_name := lit "db"; host := lit "10.0.0.9"; port := 1433 |}] |}.

Definition start : Ui :=
  {| u_gate := reload {| world := AccessExamples.sql_open;
                         state := {| s_access := access_default; s_inventory := inventory_default |} |};
     u_requests := {| listed_requests := [asks]; answers := [] |}; u_users := UserExamples.added;
     u_remotehub := lit "remotehub.example.com"; u_sessions := ∅; u_attempts := ∅ |}.

Definition env (instant : Z) : Env :=
  {| n_utc := (100 + instant) * second; n_instant := instant * second; n_token := lit "token"; n_log := None;
     n_running := [] |}.

Definition from_page : Headers :=
  {| h_fetch_site := Some (lit "same-origin"); h_host := Some (lit "connector"); h_origin := Some (lit "https://connector");
     h_language := None; h_cookies := [lit "a=b; __Host-connector=token"] |}.

Definition ask (c : Call) : Request := {| q_headers := from_page; q_peer := None; q_call := c |}.

Definition right_form : SignIn :=
  {| si_name := UserExamples.carol; si_password := is_password UserExamples.shown; si_code := UserExamples.now_code 100 |}.
Definition wrong_form : SignIn :=
  {| si_name := UserExamples.carol; si_password := lit "guess"; si_code := lit "000000" |}.

Definition closing : Change :=
  {| c_action := lit "close"; c_scope := Some (lit "device"); c_name := Some (lit "sql"); c_hours := None;
     c_duration := None; c_until := None; c_offset := None |}.

Definition signing : Happening := Asked (env 0) (ask (C_sign_in right_form)).
Definition signed_ui : Ui := foldl happen start [signing].

Lemma form_sets_exactly_witness :
  exists token s, signed_in (1 * second) from_page signed_ui token s.
Proof.
  destruct (form_sets_exactly (env 1) (ask (C_access closing)) closing signed_ui) as (token & s & _ & _ & _ & _ & _ & Hs & _);
    [reflexivity|vm_compute; reflexivity|]. by exists token, s.
Defined.

Lemma approval_is_the_request_witness :
  Requests.get (u_requests (serve (env 1) (ask (C_approve 7)) signed_ui).2) 7 = None.
Proof.
  destruct (approval_is_the_request (env 1) (ask (C_approve 7)) 7 signed_ui)
    as (_ & _ & _ & _ & _ & _ & _ & _ & _ & _ & _ & _ & Hn); [reflexivity|vm_compute; reflexivity|exact Hn].
Defined.

Lemma web_changes_need_a_sign_in_witness :
  exists user pre env0 q0 post, [signing] = pre ++ Asked env0 q0 :: post
    /\ proves env0 q0 (foldl happen start pre) user.
Proof.
  destruct (web_changes_need_a_sign_in start [signing] (env 1) (ask (C_access closing)))
    as (user & pre & env0 & q0 & post & _ & _ & He & Hp & _).
  - reflexivity.
  - left. vm_compute. discriminate.
  - by exists user, pre, env0, q0, post.
Defined.

Definition guesses (times : list Z) : list Happening := (fun t => Asked (env t) (ask (C_sign_in wrong_form))) <$> times.

Lemma wrong_sign_ins_are_few_witness :
  within 0 (wrong_times UserExamples.carol start (guesses [1; 2; 3; 4; 5; 6; 7])) <= ATTEMPTS.
Proof.
  apply (wrong_sign_ins_are_few UserExamples.carol start (guesses [1; 2; 3; 4; 5; 6; 7]) 0 0).
  - reflexivity.
  - repeat split; vm_compute; discriminate.
  - repeat split; vm_compute; discriminate.
Defined.

(** Seven wrong sign-ins, one after the other: the name is locked from the fifth. *)
Example the_sixth_is_locked :
  wrong_times UserExamples.carol start (guesses [1; 2; 3; 4; 5; 6; 7]) = (fun t => t * second) <$> [1; 2; 3; 4; 5].
Proof. vm_compute. reflexivity. Qed.

(** A guess whose lock has been looked at, up to the count of its failure. *)
Definition finish (ui : Ui) : Ui := (sign_in_end (env 1) from_page [] UserExamples.carol (Some (Err WrongCredentials)) ui).2.

(** The lock is looked at before the turn at the password, so seven that ask at
    once are all checked, and seven are counted. *)
Example at_once_they_all_count :
  sign_in_start (env 1) from_page wrong_form start = Ok UserExamples.carol
  /\ check_sign_in (env 1) wrong_form UserExamples.carol start = Some (Err WrongCredentials)
  /\ at_failures <$> u_attempts (Nat.iter 7 finish start) !! UserExamples.carol = Some 2.
Proof. split_and!; vm_compute; reflexivity. Qed.

(** Someone else's page changes nothing. *)
Example other_pages_are_refused :
  serve (env 1) {| q_headers := {| h_fetch_site := Some (lit "cross-site"); h_host := Some (lit "connector");
                                   h_origin := Some (lit "https://connector"); h_language := None;
                                   h_cookies := h_cookies from_page |};
                   q_peer := None; q_call := C_access closing |} signed_ui = (Empty 403, signed_ui).
Proof. reflexivity. Qed.

End UiExamples.
