(* ===== verification/AuditLog.v ===== *)
(** * The audit log (crates/server/src/audit.rs, migrations/20260924000003_audit_log.sql)

    What every entry says, how the database numbers and chains the entries it is
    given, how a chain is checked and how the log is read page by page. The
    table is a map from its primary key; a writer holds the advisory lock from
    its first entry to the end of its transaction. SHA-256 and the text of an
    entry's JSON array are parameters; a shown entry's time is left in
    microseconds, without its text. *)
From stdpp Require Import sorting.
From S2P Require Import Prelude Text Session.

(** ** Actions *)

Inductive Action :=
| SignIn | SignInFailed | SignOut | AuditVerified | BreakGlassCreated | BreakGlassReset | BreakGlassDeleted
| SetupCompleted | DirectoryChanged | DirectoryRemoved | MailChanged | MailRemoved | GeneratorChanged
| TlsCertificateUploaded | TlsCertificateReset | FolderCreated | FolderUpdated | FolderDeleted
| CollectionCreated | CollectionUpdated | CollectionDeleted | ProfileCreated | ProfileUpdated
| ProfileDeleted | DeviceCreated | DeviceUpdated | DeviceDeleted | DeviceKeywordsChanged | DeviceMoved
| CredentialCreated | CredentialUpdated | CredentialDeleted | CredentialRestored | GrantAdded
| GrantRemoved | ConnectionOpened | ConnectionClosed | ConnectionFailed | HostKeyPinned | HostKeyReset
| CertificatePinned | CertificateReset | AccessRequested | AccessApproved | AccessDenied | AccessCancelled
| PersonalUnlockAdded | PersonalUnlockRemoved | PersonalEntrySaved | PersonalEntryDeleted
| PersonalVaultReset | ConnectorCreated | ConnectorDeleted | ConnectorOpened | ConnectorClosed
| ConnectorAccessRequested | ConnectorAccessApproved | ConnectorAccessRefused | ConnectorAccessWithdrawn
| PurposeRequired | PurposeWaived | AccountInvited | AccountRecoveryIssued | AccountDeleted | UserBlocked
| UserUnblocked | UserSessionsEnded | GroupCreated | GroupUpdated | GroupDeleted | GroupMemberAdded
| GroupMemberRemoved | RoleAssigned | RoleRevoked | SessionsEndedByDirectory | SecondFactorEnrolled
| SecondFactorRemoved | SecondFactorReset | SecondFactorRequired | SecondFactorWaived | CredentialRevealed
| CredentialCodeShown | CredentialAttachmentAdded | CredentialAttachmentDeleted | PersonalAttachmentSaved
| PersonalAttachmentDeleted | RecoveryKeyCreated | RecoveryKeyDeleted | VaultRecoveryRequested
| VaultRecoveryApproved | VaultRecoveryCancelled | VaultRecoveryOpened | VaultRecoveryCompleted
| ExtensionConnected | ExtensionDisconnected | SessionConfirmed | SessionConfirmFailed.

Definition ALL : list Action :=
  [SignIn; SignInFailed; SignOut; AuditVerified; BreakGlassCreated; BreakGlassReset; BreakGlassDeleted;
   SetupCompleted; DirectoryChanged; DirectoryRemoved; MailChanged; MailRemoved; GeneratorChanged;
   TlsCertificateUploaded; TlsCertificateReset; FolderCreated; FolderUpdated; FolderDeleted;
   CollectionCreated; CollectionUpdated; CollectionDeleted; ProfileCreated; ProfileUpdated; ProfileDeleted;
   DeviceCreated; DeviceUpdated; DeviceDeleted; DeviceKeywordsChanged; DeviceMoved; CredentialCreated;
   CredentialUpdated; CredentialDeleted; CredentialRestored; GrantAdded; GrantRemoved; ConnectionOpened;
   ConnectionClosed; ConnectionFailed; HostKeyPinned; HostKeyReset; CertificatePinned; CertificateReset;
   AccessRequested; AccessApproved; AccessDenied; AccessCancelled; PersonalUnlockAdded;
   PersonalUnlockRemoved; PersonalEntrySaved; PersonalEntryDeleted; PersonalVaultReset; ConnectorCreated;
   ConnectorDeleted; ConnectorOpened; ConnectorClosed; ConnectorAccessRequested; ConnectorAccessApproved;
   ConnectorAccessRefused; ConnectorAccessWithdrawn; PurposeRequired; PurposeWaived; AccountInvited;
   AccountRecoveryIssued; AccountDeleted; UserBlocked; UserUnblocked; UserSessionsEnded; GroupCreated;
   GroupUpdated; GroupDeleted; GroupMemberAdded; GroupMemberRemoved; RoleAssigned; RoleRevoked;
   SessionsEndedByDirectory; SecondFactorEnrolled; SecondFactorRemoved; SecondFactorReset;
   SecondFactorRequired; SecondFactorWaived; CredentialRevealed; CredentialCodeShown;
   CredentialAttachmentAdded; CredentialAttachmentDeleted; PersonalAttachmentSaved;
   PersonalAttachmentDeleted; RecoveryKeyCreated; RecoveryKeyDeleted; VaultRecoveryRequested;
   VaultRecoveryApproved; VaultRecoveryCancelled; VaultRecoveryOpened; VaultRecoveryCompleted;
   ExtensionConnected; ExtensionDisconnected; SessionConfirmed; SessionConfirmFailed].

Definition as_str (a : Action) : list Z :=
  match a with
  | SignIn => lit "session.sign_in"
  | SignInFailed => lit "session.sign_in_failed"
  | SignOut => lit "session.sign_out"
  | AuditVerified => lit "audit.verified"
  | BreakGlassCreated => lit "break_glass.created"
  | BreakGlassReset => lit "break_glass.reset"
  | BreakGlassDeleted => lit "break_glass.deleted"
  | SetupCompleted => lit "setup.completed"
  | DirectoryChanged => lit "directory.changed"
  | DirectoryRemoved => lit "directory.removed"
  | MailChanged => lit "mail.changed"
  | MailRemoved => lit "mail.removed"
  | GeneratorChanged => lit "generator.changed"
  | TlsCertificateUploaded => lit "tls_certificate.uploaded"
  | TlsCertificateReset => lit "tls_certificate.reset"
  | FolderCreated => lit "folder.created"
  | FolderUpdated => lit "folder.updated"
  | FolderDeleted => lit "folder.deleted"
  | CollectionCreated => lit "collection.created"
  | CollectionUpdated => lit "collection.updated"
  | CollectionDeleted => lit "collection.deleted"
  | ProfileCreated => lit "profile.created"
  | ProfileUpdated => lit "profile.updated"
  | ProfileDeleted => lit "profile.deleted"
  | DeviceCreated => lit "device.created"
  | DeviceUpdated => lit "device.updated"
  | DeviceDeleted => lit "device.deleted"
  | DeviceKeywordsChanged => lit "device.keywords_changed"
  | DeviceMoved => lit "device.moved"
  | CredentialCreated => lit "credential.created"
  | CredentialUpdated => lit "credential.updated"
  | CredentialDeleted => lit "credential.deleted"
  | CredentialRestored => lit "credential.restored"
  | GrantAdded => lit "grant.added"
  | GrantRemoved => lit "grant.removed"
  | ConnectionOpened => lit "connection.opened"
  | ConnectionClosed => lit "connection.closed"
  | ConnectionFailed => lit "connection.failed"
  | HostKeyPinned => lit "device.host_key_pinned"
  | HostKeyReset => lit "device.host_key_reset"
  | CertificatePinned => lit "device.certificate_pinned"
  | CertificateReset => lit "device.certificate_reset"
  | AccessRequested => lit "access.requested"
  | AccessApproved => lit "access.approved"
  | AccessDenied => lit "access.denied"
  | AccessCancelled => lit "access.cancelled"
  | PersonalUnlockAdded => lit "personal.unlock_added"
  | PersonalUnlockRemoved => lit "personal.unlock_removed"
  | PersonalEntrySaved => lit "personal.entry_saved"
  | PersonalEntryDeleted => lit "personal.entry_deleted"
  | PersonalVaultReset => lit "personal.vault_reset"
  | ConnectorCreated => lit "connector.created"
  | ConnectorDeleted => lit "connector.deleted"
  | ConnectorOpened => lit "connector.opened"
  | ConnectorClosed => lit "connector.closed"
  | ConnectorAccessRequested => lit "connector.access_requested"
  | ConnectorAccessApproved => lit "connector.access_approved"
  | ConnectorAccessRefused => lit "connector.access_refused"
  | ConnectorAccessWithdrawn => lit "connector.access_withdrawn"
  | PurposeRequired => lit "purpose.required"
  | PurposeWaived => lit "purpose.waived"
  | AccountInvited => lit "account.invited"
  | AccountRecoveryIssued => lit "account.recovery_issued"
  | AccountDeleted => lit "account.deleted"
  | UserBlocked => lit "user.blocked"
  | UserUnblocked => lit "user.unblocked"
  | UserSessionsEnded => lit "user.sessions_ended"
  | GroupCreated => lit "group.created"
  | GroupUpdated => lit "group.updated"
  | GroupDeleted => lit "group.deleted"
  | GroupMemberAdded => lit "group.member_added"
  | GroupMemberRemoved => lit "group.member_removed"
  | RoleAssigned => lit "role.assigned"
  | RoleRevoked => lit "role.revoked"
  | SessionsEndedByDirectory => lit "session.ended_by_directory"
  | SecondFactorEnrolled => lit "second_factor.enrolled"
  | SecondFactorRemoved => lit "second_factor.removed"
  | SecondFactorReset => lit "second_factor.reset"
  | SecondFactorRequired => lit "second_factor.required"
  | SecondFactorWaived => lit "second_factor.waived"
  | CredentialRevealed => lit "credential.revealed"
  | CredentialCodeShown => lit "credential.code_shown"
  | CredentialAttachmentAdded => lit "credential.attachment_added"
  | CredentialAttachmentDeleted => lit "credential.attachment_deleted"
  | PersonalAttachmentSaved => lit "personal.attachment_saved"
  | PersonalAttachmentDeleted => lit "personal.attachment_deleted"
  | RecoveryKeyCreated => lit "recovery_key.created"
  | RecoveryKeyDeleted => lit "recovery_key.deleted"
  | VaultRecoveryRequested => lit "vault_recovery.requested"
  | VaultRecoveryApproved => lit "vault_recovery.approved"
  | VaultRecoveryCancelled => lit "vault_recovery.cancelled"
  | VaultRecoveryOpened => lit "vault_recovery.opened"
  | VaultRecoveryCompleted => lit "vault_recovery.completed"
  | ExtensionConnected => lit "extension.connected"
  | ExtensionDisconnected => lit "extension.disconnected"
  | SessionConfirmed => lit "session.confirmed"
  | SessionConfirmFailed => lit "session.confirm_failed"
  end.

(** ** Entries *)

(** What [record] is given; [details] is the text of the JSON value. *)
Record Entry := {
  en_actor : option Uuid;
  en_name : list Z;
  en_action : list Z;
  en_object_type : option (list Z);
  en_object_id : option Uuid;
  en_details : list Z;
  en_address : option (list Z)
}.

#[export] Instance entry_eq_dec : EqDecision Entry.
Proof. solve_decision. Defined.

(** A row of [audit_log] without its key; the time in microseconds. *)
Record Row := { ro_at : Z; ro_entry : Entry; ro_prev_hash : list Z; ro_hash : list Z }.

#[export] Instance row_eq_dec : EqDecision Row.
Proof. solve_decision. Defined.

Definition bigint_max : Z := 2 ^ 63 - 1.

Abbreviation Log := (gmap Z Row).

(** [jsonb_build_array(seq, microseconds, ...)::text] in UTF-8. *)
Class ArrayText := array_text : Z -> Z -> Entry -> list Z.

(** A JSON array is unambiguous, and a hash is 32 bytes long. *)
Class ChainOk `{Sha256} `{ArrayText} : Prop := {
  array_text_inj s a e s' a' e' : array_text s a e = array_text s' a' e' -> s = s' /\ a = a' /\ e = e';
  sha256_length x : length (sha256 x) = 32%nat
}.

(** The details of the entry about a check. *)
Class VerifiedText := verified_text : Z -> option Z -> list Z.

Record Verification := { vf_entries : Z; vf_first_broken : option Z }.

Section log.
Context `{UuidText} `{Sha256} `{ArrayText} `{VerifiedText}.
(** The id in the table [instance]. *)
Context (instance : Uuid).

Definition audit_digest (prev : list Z) (seq at_ : Z) (e : Entry) : list Z := sha256 (prev ++ array_text seq at_ e).

Definition audit_genesis : list Z := sha256 (lit "remotehub-audit|" ++ uuid_text instance).

(** [ORDER BY seq]. *)
Definition rows (t : Log) : list (Z * Row) := sort_by (fun a b : Z * Row => a.1 <=? b.1) (map_to_list t).

(** The trigger [audit_chain]: the row with its number, and none where the
    number leaves [bigint]. *)
Definition audit_chain (at_ : Z) (e : Entry) (t : Log) : option (Z * Row) :=
  let last := list.last (rows t) in
  let seq := default 0 (fst <$> last) + 1 in
  let prev := default audit_genesis ((fun sr => ro_hash sr.2) <$> last) in
  if seq <=? bigint_max
  then Some (seq, {| ro_at := at_; ro_entry := e; ro_prev_hash := prev; ro_hash := audit_digest prev seq at_ e |})
  else None.

(** [record]. *)
Definition record (at_ : Z) (e : Entry) (t : Log) : option Log := (fun sr => <[sr.1 := sr.2]> t) <$> audit_chain at_ e t.

(** ** Checking *)

(** Whether each row is as it should be, below the row before it and with its number. *)
Fixpoint checked (lag : option (list Z)) (number : Z) (l : list (Z * Row)) : list (Z * bool) :=
  match l with
  | [] => []
  | (seq, r) :: l =>
      (seq, bool_decide (ro_hash r = audit_digest (ro_prev_hash r) seq (ro_at r) (ro_entry r))
            && bool_decide (ro_prev_hash r = default audit_genesis lag) && (seq =? number))
      :: checked (Some (ro_hash r)) (number + 1) l
  end.

(** [min], and none of nothing. *)
Definition minimum (l : list Z) : option Z :=
  match l with [] => None | x :: l => Some (foldr Z.min x l) end.

(** [verify]. *)
Definition verify (t : Log) : Verification :=
  let c := checked None 1 (rows t) in
  {| vf_entries := Z.of_nat (length c); vf_first_broken := minimum (fst <$> filter (fun sb => sb.2 = false) c) |}.

(** ** Reading *)

Definition older (before : option Z) (seq : Z) : bool := match before with None => true | Some b => seq <? b end.

(** [list]: the newest entries below a number. *)
Definition list_log (before : option Z) (limit : Z) (t : Log) : list (Z * Row) :=
  take (Z.to_nat (Z.min (Z.max limit 1) 500))
    (filter (fun sr => older before sr.1 = true) (reverse (rows t))).

(** ** The handlers (api/audit.rs) *)

Inductive AuditProblem := AP_Forbidden | AP_InvalidRequest | AP_Internal.

Definition require_auditor (s : Session) : result unit AuditProblem :=
  if is_auditor s then Ok tt else Err AP_Forbidden.

(** [page] is none where the query does not parse. *)
Definition api_list (s : Session) (page : option (option Z * option Z)) (t : Log) : result (list (Z * Row)) AuditProblem :=
  let? _ := require_auditor s in
  let? page := ok_or page AP_InvalidRequest in
  Ok (list_log page.1 (default 100 page.2) t).

(** The log as the check saw it, [seen], and at its own entry, [t]. *)
Definition api_verify (s : Session) (address : list Z) (at_ : Z) (seen t : Log) : result Verification AuditProblem * Log :=
  match require_auditor s with
  | Err e => (Err e, t)
  | Ok _ =>
      let v := verify seen in
      match record at_ {| en_actor := Some (user_id s); en_name := username s; en_action := as_str AuditVerified;
                          en_object_type := None; en_object_id := None;
                          en_details := verified_text (vf_entries v) (vf_first_broken v);
                          en_address := Some address |} t with
      | None => (Err AP_Internal, t)
      | Some t => (Ok v, t)
      end
  end.

(** ** Theorems *)

Definition below (a b : Z * Row) : Prop := a.1 < b.1.

#[local] Instance below_antisymm : AntiSymm (=) below.
Proof. intros a b Ha Hb. unfold below in *. lia. Qed.

Lemma rows_perm t : rows t ≡ₚ map_to_list t.
Proof. apply sort_by_Permutation. Qed.

Lemma elem_of_rows t k r : (k, r) ∈ rows t <-> t !! k = Some r.
Proof. by rewrite rows_perm, elem_of_map_to_list. Qed.

Lemma rows_sorted t : StronglySorted below (rows t).
Proof.
  assert (Hle : StronglySorted (fun a b : Z * Row => (a.1 <=? b.1) = true) (rows t)).
  { apply StronglySorted_merge_sort; [intros a b c ?%Z.leb_le ?%Z.leb_le; apply Z.leb_le; lia|].
    intros a b. destruct (Z.le_ge_cases a.1 b.1); [left|right]; by apply Z.leb_le. }
  assert (Hnd : NoDup (rows t).*1).
  { assert (Hp : (rows t).*1 ≡ₚ (map_to_list t).*1) by (by rewrite rows_perm). rewrite Hp. apply NoDup_fst_map_to_list. }
  revert Hnd. induction Hle as [|a l Hl IH Ha]; [constructor|]. intros [Hna Hnd]%NoDup_cons. constructor; [by apply IH|].
  rewrite Forall_forall in *. intros b Hb. specialize (Ha b Hb). apply Z.leb_le in Ha.
  assert (a.1 <> b.1) by (intros He; apply Hna; rewrite He; by apply list_elem_of_fmap_2). unfold below. lia.
Qed.

(** A table's rows are its only list in the order of their numbers. *)
Lemma rows_unique t l : StronglySorted below l -> l ≡ₚ map_to_list t -> rows t = l.
Proof.
  intros Hl Hp. apply (StronglySorted_unique below); [apply rows_sorted|done|].
  by rewrite rows_perm, Hp.
Qed.

Lemma sorted_snoc l x : StronglySorted below l -> Forall (fun y => below y x) l -> StronglySorted below (l ++ [x]).
Proof.
  induction 1 as [|y l Hl IH Hy]; intros Hx; [by repeat constructor|]. apply Forall_cons in Hx as [Hyx Hx].
  constructor; [by apply IH|]. apply Forall_app. split; [done|by constructor].
Qed.

Lemma rows_insert t k r : Forall (fun y => y.1 < k) (rows t) -> rows (<[k := r]> t) = rows t ++ [(k, r)].
Proof.
  intros Hk. apply rows_unique; [apply sorted_snoc; [apply rows_sorted|done]|].
  rewrite map_to_list_insert.
  - by rewrite Permutation_app_comm, rows_perm.
  - destruct (t !! k) as [r'|] eqn:E; [|done]. apply elem_of_rows in E. rewrite Forall_forall in Hk. specialize (Hk _ E).
    simpl in Hk. lia.
Qed.

(** *** Chains *)

Definition row_ok (prev : list Z) (number : Z) (seq : Z) (r : Row) : Prop :=
  ro_hash r = audit_digest (ro_prev_hash r) seq (ro_at r) (ro_entry r) /\ ro_prev_hash r = prev /\ seq = number.

Fixpoint chained (prev : list Z) (number : Z) (l : list (Z * Row)) : Prop :=
  match l with
  | [] => True
  | (seq, r) :: l => row_ok prev number seq r /\ chained (ro_hash r) (number + 1) l
  end.

(** A table whose rows are a chain from the installation's start. *)
Definition chain (t : Log) : Prop := chained audit_genesis 1 (rows t).

Definition chain_end (prev : list Z) (l : list (Z * Row)) : list Z := default prev ((fun sr => ro_hash sr.2) <$> list.last l).

Lemma chained_app prev n l l' :
  chained prev n (l ++ l') <-> chained prev n l /\ chained (chain_end prev l) (n + Z.of_nat (length l)) l'.
Proof.
  revert prev n. induction l as [|[s r] l IH]; intros prev n; cbn [app chained length].
  - replace (n + Z.of_nat 0) with n by lia. unfold chain_end. simpl. tauto.
  - rewrite IH. replace (n + 1 + Z.of_nat (length l)) with (n + Z.of_nat (S (length l))) by lia.
    assert (He : chain_end (ro_hash r) l = chain_end prev ((s, r) :: l)).
    { unfold chain_end. rewrite last_cons. by destruct (list.last l). }
    rewrite He. tauto.
Qed.

(** The row at a place of a chain: its number, and the row it is linked to. *)
Lemma chained_lookup prev n l i s r :
  chained prev n l -> l !! i = Some (s, r) ->
  s = n + Z.of_nat i /\ ro_hash r = audit_digest (ro_prev_hash r) s (ro_at r) (ro_entry r)
  /\ match i with
     | O => ro_prev_hash r = prev
     | S j => exists s0 r0, l !! j = Some (s0, r0) /\ ro_prev_hash r = ro_hash r0
     end.
Proof.
  revert prev n i. induction l as [|[s0 r0] l IH]; intros prev n i; [done|]. intros [(Hh & Hp & Hs) Hl].
  destruct i as [|i]; simpl.
  - intros [= -> ->]. split_and!; [lia|done|done].
  - intros Hi. destruct (IH _ _ _ Hl Hi) as (-> & Hd & Hlink). split_and!; [lia|done|].
    destruct i as [|i]; [by exists s0, r0|]. by destruct Hlink as (s1 & r1 & Hj & Hr); exists s1, r1.
Qed.

Lemma chain_lookup t k r : chain t -> t !! k = Some r <-> 1 <= k /\ rows t !! Z.to_nat (k - 1) = Some (k, r).
Proof.
  intros Hc. rewrite <- elem_of_rows, list_elem_of_lookup. split.
  - intros [i Hi]. destruct (chained_lookup _ _ _ _ _ _ Hc Hi) as (Hk & _). split; [lia|].
    by replace (Z.to_nat (k - 1)) with i by lia.
  - intros [_ Hi]. eauto.
Qed.

Lemma chain_numbers t : chain t -> Forall (fun y => y.1 < Z.of_nat (size t) + 1) (rows t).
Proof.
  intros Hc. apply Forall_forall. intros [k r] [i Hi]%list_elem_of_lookup.
  destruct (chained_lookup _ _ _ _ _ _ Hc Hi) as (Hk & _). apply lookup_lt_Some in Hi. simpl.
  assert (length (rows t) = size t) as <- by (by rewrite rows_perm, length_map_to_list). lia.
Qed.

Lemma length_rows t : length (rows t) = size t.
Proof. by rewrite rows_perm, length_map_to_list. Qed.

(** A chain's last number is its length. *)
Lemma chain_last t : chain t -> default 0 (fst <$> list.last (rows t)) = Z.of_nat (size t).
Proof.
  intros Hc. rewrite <- length_rows. destruct (list.last (rows t)) as [[k r]|] eqn:El; simpl.
  - rewrite last_lookup in El. destruct (chained_lookup _ _ _ _ _ _ Hc El) as (-> & _).
    apply lookup_lt_Some in El. lia.
  - apply last_None in El. by rewrite El.
Qed.

Lemma record_chain at_ e t t' :
  chain t -> record at_ e t = Some t' -> chain t' /\ t ⊆ t' /\ size t' = S (size t)
    /\ exists r, t' !! (Z.of_nat (size t) + 1) = Some r /\ ro_entry r = e /\ ro_at r = at_.
Proof.
  intros Hc. unfold record, audit_chain. cbv zeta. rewrite chain_last by done. case_match; [|done]. simpl. intros [= <-].
  pose proof (chain_numbers t Hc) as Hn. set (k := Z.of_nat (size t) + 1) in *. set (r := {| ro_at := at_ |}).
  assert (Hfree : t !! k = None).
  { destruct (t !! k) as [x|] eqn:E; [|done]. apply elem_of_rows in E. rewrite Forall_forall in Hn. specialize (Hn _ E).
    simpl in Hn. lia. }
  split_and!.
  - unfold chain. rewrite rows_insert by done. apply chained_app. split; [exact Hc|]. cbn [chained]. split; [|done].
    rewrite length_rows. split_and!; [done|done|unfold k; lia].
  - by apply insert_subseteq.
  - by rewrite map_size_insert_None.
  - exists r. by rewrite lookup_insert_eq.
Qed.

(** *** Checking *)

(** The number of the first row that breaks a chain. *)
Definition breaks_at (prev : list Z) (n : Z) (l : list (Z * Row)) (s : Z) : Prop :=
  exists pre r post, l = pre ++ (s, r) :: post /\ chained prev n pre /\ ~ chained prev n (pre ++ [(s, r)]).

Lemma minimum_sorted l : StronglySorted Z.lt l -> minimum l = head l.
Proof.
  intros Hl. destruct Hl as [|x l Hl Hx]; [done|]. simpl. f_equal. clear Hl.
  induction Hx as [|y l Hy _ IH]; simpl; [done|]. rewrite IH. lia.
Qed.

Lemma checked_keys lag n l : fst <$> checked lag n l = fst <$> l.
Proof. revert lag n. induction l as [|[s r] l IH]; intros lag n; simpl; [done|]. by rewrite IH. Qed.

Lemma broken_sorted lag n l :
  StronglySorted below l -> StronglySorted Z.lt (fst <$> filter (fun sb => sb.2 = false) (checked lag n l)).
Proof.
  intros Hl. assert (Hk : StronglySorted Z.lt (fst <$> checked lag n l)).
  { rewrite checked_keys. induction Hl as [|a l Hl IH Ha]; [constructor|]. simpl. constructor; [done|].
    apply Forall_fmap. exact Ha. }
  revert Hk. generalize (checked lag n l). clear. intros l. induction l as [|[k b] l IH]; simpl; [done|]. intros Hk.
  apply StronglySorted_inv in Hk as [Hk Hx]. rewrite filter_cons. case_decide; [|by apply IH]. simpl.
  constructor; [by apply IH|]. apply Forall_forall. intros y (p & -> & [_ Hp]%list_elem_of_filter)%list_elem_of_fmap.
  rewrite Forall_forall in Hx. apply Hx. by apply list_elem_of_fmap_2.
Qed.

Lemma first_broken_spec lag n l :
  match head (fst <$> filter (fun sb => sb.2 = false) (checked lag n l)) with
  | None => chained (default audit_genesis lag) n l
  | Some s => breaks_at (default audit_genesis lag) n l s
  end.
Proof.
  revert lag n. induction l as [|[s r] l IH]; intros lag n; [done|]. cbn [checked]. rewrite filter_cons. cbn [snd].
  set (b := bool_decide _ && bool_decide _ && (s =? n)).
  assert (Hb : b = true <-> row_ok (default audit_genesis lag) n s r).
  { unfold b, row_ok. rewrite !andb_true_iff, !bool_decide_eq_true, Z.eqb_eq. tauto. }
  destruct b.
  - rewrite decide_False by done. specialize (IH (Some (ro_hash r)) (n + 1)). cbn [default] in IH.
    destruct (head _) as [s'|].
    + destruct IH as (pre & r' & post & -> & Hpre & Hno). exists ((s, r) :: pre), r', post.
      split_and!; [done|split; [by apply Hb|done]|]. intros [_ Hc]. by apply Hno.
    + split; [by apply Hb|done].
  - rewrite decide_True by done. simpl. exists [], r, l. split_and!; [done|done|]. intros [Hr _]. apply Hb in Hr. done.
Qed.

(** Checking the log counts its entries and reports nothing exactly if they
    are a chain from the installation's start without a gap; otherwise it names
    the first entry that is not the next of the chain of those before it. *)
Theorem verify_exact (t : Log) :
  vf_entries (verify t) = Z.of_nat (size t)
  /\ match vf_first_broken (verify t) with
     | None => chain t
     | Some s => breaks_at audit_genesis 1 (rows t) s
     end.
Proof.
  unfold verify. cbn [vf_entries vf_first_broken]. split.
  - rewrite <- length_rows, <- (length_fmap fst), checked_keys. by rewrite length_fmap.
  - rewrite minimum_sorted by (apply broken_sorted, rows_sorted). apply (first_broken_spec None).
Qed.

Lemma verify_chain t : vf_first_broken (verify t) = None <-> chain t.
Proof.
  unfold verify. cbn [vf_first_broken]. rewrite minimum_sorted by (apply broken_sorted, rows_sorted).
  pose proof (first_broken_spec None 1 (rows t)) as Hs. destruct (head _) as [s|]; simpl in Hs.
  - split; [done|]. destruct Hs as (pre & r & post & Hl & _ & Hno). unfold chain. rewrite Hl.
    change ((s, r) :: post) with ([(s, r)] ++ post). rewrite app_assoc. intros [Hc _]%chained_app. by apply Hno in Hc.
  - done.
Qed.

(** The texts the hashes of rows are of. *)
Definition hashed_texts (l : list (Z * Row)) : list (list Z) :=
  (fun sr => ro_prev_hash sr.2 ++ array_text sr.1 (ro_at sr.2) (ro_entry sr.2)) <$> l.

(** Two different texts with one hash, one of each of two logs. *)
Definition collision (l l' : list (Z * Row)) : Prop :=
  exists x y, x ∈ hashed_texts l /\ y ∈ hashed_texts l' /\ x <> y /\ sha256 x = sha256 y.

Section tampering.
Context {Hok : ChainOk}.

Lemma digest_inj l l' s s' r r' :
  (s, r) ∈ l -> (s', r') ∈ l' -> length (ro_prev_hash r) = 32%nat -> length (ro_prev_hash r') = 32%nat ->
  audit_digest (ro_prev_hash r) s (ro_at r) (ro_entry r) = audit_digest (ro_prev_hash r') s' (ro_at r') (ro_entry r') ->
  collision l l' \/ ro_prev_hash r = ro_prev_hash r' /\ s = s' /\ ro_at r = ro_at r' /\ ro_entry r = ro_entry r'.
Proof.
  intros Hin Hin' Hl Hl' Hd. unfold audit_digest in Hd.
  set (x := ro_prev_hash r ++ array_text s (ro_at r) (ro_entry r)) in *.
  set (y := ro_prev_hash r' ++ array_text s' (ro_at r') (ro_entry r')) in *.
  destruct (decide (x = y)) as [Heq|Hne].
  - right. subst x y. apply app_inj_1 in Heq as [-> Ht]; [|congruence]. split; [done|]. by apply array_text_inj.
  - left. exists x, y. split_and!; [..|done|done]; apply list_elem_of_fmap; [by exists (s, r)|by exists (s', r')].
Qed.

Lemma chained_prev_length n l i s r :
  chained audit_genesis n l -> l !! i = Some (s, r) -> length (ro_prev_hash r) = 32%nat.
Proof.
  intros Hc Hi. destruct (chained_lookup _ _ _ _ _ _ Hc Hi) as (_ & _ & Hl). destruct i as [|j].
  - rewrite Hl. apply sha256_length.
  - destruct Hl as (s0 & r0 & Hj & ->). destruct (chained_lookup _ _ _ _ _ _ Hc Hj) as (_ & -> & _). apply sha256_length.
Qed.

Lemma same_hash_same_rows n l l' i s r s' r' :
  chained audit_genesis n l -> chained audit_genesis n l' -> l !! i = Some (s, r) -> l' !! i = Some (s', r') ->
  ro_hash r = ro_hash r' -> collision l l' \/ forall j, (j <= i)%nat -> l !! j = l' !! j.
Proof.
  intros Hc Hc'. revert s r s' r'. induction i as [|i IH]; intros s r s' r' Hi Hi' Hh;
    pose proof (chained_prev_length _ _ _ _ _ Hc Hi) as Hl; pose proof (chained_prev_length _ _ _ _ _ Hc' Hi') as Hl';
    destruct (chained_lookup _ _ _ _ _ _ Hc Hi) as (Hs & Hd & Hp); destruct (chained_lookup _ _ _ _ _ _ Hc' Hi') as (Hs' & Hd' & Hp');
    pose proof Hh as Hx; rewrite Hd, Hd' in Hx;
    (destruct (digest_inj l l' _ _ _ _ (list_elem_of_lookup_2 _ _ _ Hi) (list_elem_of_lookup_2 _ _ _ Hi') Hl Hl' Hx) as [|(He1 & He2 & He3 & He4)]; [by left|]);
    assert (Hr : (s, r) = (s', r')) by (destruct r, r'; simpl in *; congruence).
  - right. intros j Hj. replace j with 0%nat by lia. congruence.
  - destruct Hp as (s0 & r0 & Hj & Hq). destruct Hp' as (s0' & r0' & Hj' & Hq').
    destruct (IH _ _ _ _ Hj Hj') as [|Hsame]; [congruence|by left|]. right. intros j Hle.
    destruct (decide (j = S i)) as [->|]; [congruence|]. apply Hsame. lia.
Qed.

(** C36: Whoever has noted the hash of an entry knows the log up to it: as long
    as a log verifies and has an entry of that number and hash, no entry before
    it was changed, taken out or put in, unless an entry of one log and an entry
    of the other were hashed from different texts with one SHA-256. *)
Theorem noted_hash_pins_the_log (t t' : Log) (n : Z) (r r' : Row) :
  vf_first_broken (verify t) = None -> vf_first_broken (verify t') = None ->
  t !! n = Some r -> t' !! n = Some r' -> ro_hash r = ro_hash r' ->
  (forall k, k <= n -> t !! k = t' !! k) \/ collision (rows t) (rows t').
Proof.
  intros Hc%verify_chain Hc'%verify_chain Hr Hr' Hh.
  apply (chain_lookup t n r Hc) in Hr as [Hn Hr]. apply (chain_lookup t' n r' Hc') in Hr' as [_ Hr'].
  destruct (same_hash_same_rows _ _ _ _ _ _ _ _ Hc Hc' Hr Hr' Hh) as [|Hsame]; [by right|]. left. intros k Hk.
  assert (He : forall x, t !! k = Some x <-> t' !! k = Some x).
  { intros x. rewrite (chain_lookup t k x Hc), (chain_lookup t' k x Hc').
    split; intros [H1k Hx]; (split; [done|]); [rewrite <- Hsame by lia|rewrite Hsame by lia]; done. }
  apply option_eq. exact He.
Qed.
End tampering.

(** *** Writers *)

(** The log others see, and the transaction that holds the advisory lock with
    what it sees itself. *)
Record AuditDb := { committed : Log; writer : option (nat * Log) }.

(** What a transaction that gets the lock sees; the others wait. *)
Definition seen_by (txn : nat) (d : AuditDb) : option Log :=
  match writer d with
  | None => Some (committed d)
  | Some (w, own) => if decide (w = txn) then Some own else None
  end.

(** Transactions writing entries, in any interleaving. The time is that of the
    transaction's start, so it may lie before that of an earlier number. *)
Inductive audit_step : AuditDb -> AuditDb -> Prop :=
| step_record txn at_ e own own' d :
    seen_by txn d = Some own -> record at_ e own = Some own' ->
    audit_step d {| committed := committed d; writer := Some (txn, own') |}
| step_commit txn own d : writer d = Some (txn, own) -> audit_step d {| committed := own; writer := None |}
| step_rollback d : audit_step d {| committed := committed d; writer := None |}.

Definition audit_ok (d : AuditDb) : Prop :=
  chain (committed d) /\ match writer d with None => True | Some (_, own) => chain own /\ committed d ⊆ own end.

Lemma audit_step_ok d d' : audit_ok d -> audit_step d d' -> audit_ok d' /\ committed d ⊆ committed d'.
Proof.
  intros [Hc Hw] Hs. destruct Hs as [txn at_ e own own' d Hsee Hrec|txn own d Hwr|d].
  - assert (Hown : chain own /\ committed d ⊆ own).
    { unfold seen_by in Hsee. destruct (writer d) as [[w o]|]; [case_decide; [|done]|]; injection Hsee as <-; done. }
    destruct Hown as [Ho Hsub]. destruct (record_chain at_ e own own' Ho Hrec) as (Hc' & Hsub' & _).
    split; [|done]. split; [done|]. split; [done|]. by etransitivity.
  - rewrite Hwr in Hw. destruct Hw as [Ho Hsub]. done.
  - done.
Qed.

Lemma audit_reachable_ok d d' : audit_ok d -> rtc audit_step d d' -> audit_ok d' /\ committed d ⊆ committed d'.
Proof.
  intros Hok Hs. induction Hs as [d|d d1 d' Hstep _ IH]; [done|].
  destruct (audit_step_ok d d1 Hok Hstep) as [Hok1 Hsub]. destruct (IH Hok1) as [Hok' Hsub']. split; [done|]. by etransitivity.
Qed.

(** C27: Whatever transactions write, commit and take back in whatever order,
    the log always verifies, its entries are numbered from one without a gap,
    and what was committed stays as it was. *)
Theorem log_always_verifies (d d' : AuditDb) :
  rtc audit_step {| committed := ∅; writer := None |} d -> rtc audit_step d d' ->
  verify (committed d') = {| vf_entries := Z.of_nat (size (committed d')); vf_first_broken := None |}
  /\ (forall k, is_Some (committed d' !! k) <-> 1 <= k <= Z.of_nat (size (committed d')))
  /\ committed d ⊆ committed d'.
Proof.
  intros Hd Hd'. assert (Hempty : audit_ok {| committed := ∅; writer := None |}) by (split; [by vm_compute|done]).
  destruct (audit_reachable_ok _ _ Hempty Hd) as [Hok _]. destruct (audit_reachable_ok _ _ Hok Hd') as [[Hc _] Hsub].
  split_and!; [|intros k|done].
  - pose proof (verify_chain (committed d')) as [_ Hv]. specialize (Hv Hc).
    destruct (verify_exact (committed d')) as [He _]. destruct (verify (committed d')); simpl in *. by subst.
  - split.
    + intros [r Hr]. apply (chain_lookup _ _ _ Hc) in Hr as [H1k Hr]. apply lookup_lt_Some in Hr.
      rewrite length_rows in Hr. lia.
    + intros Hk. destruct (lookup_lt_is_Some_2 (rows (committed d')) (Z.to_nat (k - 1))) as [[s r] Hr].
      { rewrite length_rows. lia. }
      destruct (chained_lookup _ _ _ _ _ _ Hc Hr) as (Hs & _). exists r. apply (chain_lookup _ _ _ Hc).
      split; [lia|]. rewrite Hr. do 2 f_equal. lia.
Qed.

(** *** Reading page by page *)

(** The pages of the log as the interface asks for them: each below the last
    number of the one before, until one is empty. *)
Fixpoint pages (fuel : nat) (before : option Z) (limit : Z) (t : Log) : list (Z * Row) :=
  match fuel with
  | O => []
  | S fuel =>
      let page := list_log before limit t in
      match list.last page with
      | None => []
      | Some sr => page ++ pages fuel (Some sr.1) limit t
      end
  end.

Lemma filter_all {A} (f : A -> bool) l : Forall (fun x => f x = true) l -> filter (fun x => f x = true) l = l.
Proof. induction 1 as [|x l Hx _ IH]; [done|]. by rewrite filter_cons_True, IH. Qed.

Lemma filter_none {A} (f : A -> bool) l : Forall (fun x => f x = false) l -> filter (fun x => f x = true) l = [].
Proof. induction 1 as [|x l Hx _ IH]; [done|]. rewrite filter_cons_False; [done|congruence]. Qed.

(** In a descending list, what is older than one of its rows is what comes after. *)
Lemma filter_older a x b :
  StronglySorted below (reverse (a ++ x :: b)) ->
  filter (fun sr => older (Some x.1) sr.1 = true) (a ++ x :: b) = b.
Proof.
  intros Hs. rewrite reverse_app, reverse_cons in Hs.
  assert (Hab : forall l1 y l2, StronglySorted below (l1 ++ [y] ++ l2) ->
    Forall (fun z => below z y) l1 /\ Forall (fun z => below y z) l2).
  { intros l1 y l2. induction l1 as [|z l1 IH]; cbn [app].
    - intros [_ Hy]%StronglySorted_inv. done.
    - intros [Hl Hz]%StronglySorted_inv. destruct (IH Hl) as [Hb Ha]. split; [|done]. constructor; [|done].
      apply Forall_app in Hz as [_ Hz]. by inversion Hz. }
  rewrite <- app_assoc in Hs. destruct (Hab _ _ _ Hs) as [Hb Ha]. rewrite filter_app, filter_cons.
  rewrite filter_none.
  - rewrite decide_False; [|unfold older; rewrite Z.ltb_lt; lia]. apply filter_all.
    rewrite Forall_forall in *. intros y Hy. apply Z.ltb_lt, Hb. by apply elem_of_reverse.
  - rewrite Forall_forall in *. intros y Hy. apply Z.ltb_ge. apply elem_of_reverse in Hy. specialize (Ha y Hy).
    unfold below in Ha. lia.
Qed.

Lemma pages_spec fuel before limit t (a b : list (Z * Row)) :
  reverse (rows t) = a ++ b -> filter (fun sr => older before sr.1 = true) (reverse (rows t)) = b ->
  (length b < fuel)%nat -> pages fuel before limit t = b.
Proof.
  revert before a b. induction fuel as [|fuel IH]; intros before a b Hab Hf Hlt; [lia|]. cbn [pages]. cbv zeta.
  unfold list_log. rewrite Hf. set (n := Z.to_nat (Z.min (Z.max limit 1) 500)). assert (Hn : (1 <= n)%nat) by lia.
  destruct (list.last (take n b)) as [[s r]|] eqn:El.
  - apply last_Some in El as [p Hp]. rewrite Hp. cbn [fst].
    assert (Hb : b = p ++ (s, r) :: drop n b).
    { rewrite <- (take_drop n b) at 1. rewrite Hp. by rewrite <- app_assoc. }
    rewrite (IH (Some s) (a ++ p ++ [(s, r)]) (drop n b)).
    + by rewrite Hb at 2; rewrite <- app_assoc.
    + rewrite Hab, Hb at 1. by rewrite <- !app_assoc.
    + rewrite Hab. rewrite Hb at 1. rewrite app_assoc. apply (filter_older (a ++ p) (s, r)).
      rewrite <- app_assoc. change (p ++ (s, r) :: drop n b) with (p ++ (s, r) :: drop n b).
      rewrite <- Hb, <- Hab, reverse_involutive. apply rows_sorted.
    + rewrite Hb in Hlt. rewrite length_app in Hlt. simpl in Hlt. lia.
  - apply last_None in El. destruct b as [|x b]; [done|]. destruct n; [lia|done].
Qed.

(** Read page by page, whatever the pages' length, the log shows every
    entry once, the newest first. *)
Theorem pages_show_everything (limit : Z) (t : Log) :
  pages (S (size t)) None limit t = reverse (rows t).
Proof.
  apply (pages_spec _ None limit t [] (reverse (rows t))); [done| |].
  - apply filter_all. by apply Forall_true.
  - rewrite length_reverse, length_rows. lia.
Qed.

(** *** Handlers *)

(** Only auditors and administrators read or check the log; a check says
    what it found and is the newest entry afterwards, under the name of who
    asked, and the log goes on verifying. *)
Theorem checks_are_recorded (s : Session) (address : list Z) (at_ : Z) (seen t : Log) (page : option (option Z * option Z)) :
  (is_auditor s = false -> api_list s page t = Err AP_Forbidden /\ api_verify s address at_ seen t = (Err AP_Forbidden, t))
  /\ (chain t -> forall v t', api_verify s address at_ seen t = (Ok v, t') ->
        is_auditor s = true /\ v = verify seen /\ chain t' /\ t ⊆ t'
        /\ exists r, list_log None 1 t' = [(Z.of_nat (size t'), r)]
             /\ en_actor (ro_entry r) = Some (user_id s) /\ en_action (ro_entry r) = lit "audit.verified"
             /\ en_details (ro_entry r) = verified_text (vf_entries v) (vf_first_broken v)).
Proof.
  unfold api_list, api_verify, require_auditor. split.
  - intros ->. done.
  - intros Hc v t'. destruct (is_auditor s); [|done]. destruct (record _ _ t) as [t1|] eqn:Hr; [|done]. intros [= <- <-].
    destruct (record_chain _ _ _ _ Hc Hr) as (Hc' & Hsub & Hsize & r & Hl & He & _). split_and!; try done.
    exists r. replace (Z.of_nat (size t) + 1) with (Z.of_nat (size t1)) in Hl by lia. rewrite He. split_and!; try done.
    apply (chain_lookup _ _ _ Hc') in Hl as [_ Hl]. unfold list_log. rewrite filter_all by by apply Forall_true.
    assert (Hlast : list.last (rows t1) = Some (Z.of_nat (size t1), r)).
    { rewrite last_lookup, length_rows. by replace (Nat.pred (size t1)) with (Z.to_nat (Z.of_nat (size t1) - 1)) by lia. }
    apply last_Some in Hlast as [l ->]. by rewrite reverse_app.
Qed.
End log.

(** Every action has a name of its own. *)
Lemma action_names_differ : NoDup (as_str <$> ALL) /\ forall a, a ∈ ALL.
Proof.
  split.
  - apply (bool_decide_unpack (NoDup (as_str <$> ALL))). vm_compute. exact I.
  - intros a. apply list_elem_of_In. destruct a; vm_compute; tauto.
Qed.

(** ** Examples *)

Module AuditExamples.

#[local] Instance decimal_uuid : UuidText := decimal.
(** A sum in the first place of 32. *)
#[local] Instance plain_sum : Sha256 := fun x => foldl (fun h c => (h * 31 + c) mod (2 ^ 61 - 1)) 7 x :: repeat 0 31.
#[local] Instance coded : ArrayText := fun s a e =>
  [Z.pos (encode (s, a, (en_actor e, en_name e, en_action e), (en_object_type e, en_object_id e), (en_details e, en_address e)))].
#[local] Instance counts : VerifiedText := fun n b => decimal n ++ match b with None => [] | Some b => lit " broken at " ++ decimal b end.

#[local] Instance plain_chain : ChainOk.
Proof.
  split; [|done]. intros s a e s' a' e' Hx. unfold array_text, coded in Hx. injection Hx as Hx.
  apply (inj encode) in Hx. destruct e, e'. simpl in Hx. naive_solver.
Qed.

Definition said (name : string) : Entry :=
  {| en_actor := None; en_name := lit name; en_action := as_str SignInFailed; en_object_type := None; en_object_id := None;
     en_details := lit "{}"; en_address := None |}.

Definition recorded (t : Log) (e : Entry) : Log := default t (record 1 5 e t).

Definition three : Log := foldl recorded ∅ [said "a"; said "b"; said "c"].
Definition two : Log := foldl recorded ∅ [said "a"; said "b"].
Definition second_row : Row := default {| ro_at := 0; ro_entry := said ""; ro_prev_hash := []; ro_hash := [] |} (three !! 2).

(** A changed entry is found, and so is one that was taken out. *)
Example changed_is_found :
  verify 1 (alter (fun r => {| ro_at := ro_at r; ro_entry := said "x"; ro_prev_hash := ro_prev_hash r; ro_hash := ro_hash r |}) 2 three)
  = {| vf_entries := 3; vf_first_broken := Some 2 |}
  /\ verify 1 (delete 2 three) = {| vf_entries := 2; vf_first_broken := Some 3 |}.
Proof. split; vm_compute; reflexivity. Qed.

(** Taking out the newest entries is not. *)
Example cut_is_not_found : verify 1 (delete 3 three) = {| vf_entries := 2; vf_first_broken := None |}.
Proof. vm_compute. reflexivity. Qed.

(** Nor is a log that was written anew with the same function: nothing in the
    database tells it from the old one. *)
Example rewritten_is_not_found :
  let t := foldl recorded ∅ [said "a"; said "x"; said "c"] in
  verify 1 t = {| vf_entries := 3; vf_first_broken := None |} /\ t !! 2 <> three !! 2.
Proof. split; vm_compute; [reflexivity|discriminate]. Qed.

Lemma noted_hash_pins_the_log_witness :
  (forall k, k <= 2 -> three !! k = two !! k) \/ collision (rows three) (rows two).
Proof.
  apply (noted_hash_pins_the_log 1 three two 2 second_row second_row); vm_compute; reflexivity.
Defined.

Definition after_two : AuditDb := {| committed := two; writer := None |}.

Lemma two_written : rtc (audit_step 1) {| committed := ∅; writer := None |} after_two.
Proof.
  eapply rtc_l; [apply (step_record 1 0 5 (said "a") ∅ (recorded ∅ (said "a"))); vm_compute; reflexivity|].
  eapply rtc_l; [apply (step_record 1 0 5 (said "b") (recorded ∅ (said "a")) two); vm_compute; reflexivity|].
  apply rtc_once. apply (step_commit 1 0 two). reflexivity.
Qed.

Lemma log_always_verifies_witness :
  verify 1 (committed after_two)
  = {| vf_entries := Z.of_nat (size (committed after_two)); vf_first_broken := None |}.
Proof.
  exact (proj1 (log_always_verifies 1 after_two after_two two_written (rtc_refl _ _))).
Defined.

Definition auditor : Session :=
  {| token_hash := []; session_id := 1; client := []; user_id := 4; username := lit "ann"; display_name := []; kind := [];
     sid := None; upn := None; s_group_sids := []; identity_id := None; memberships := []; roles := [lit "auditor"];
     locked := false; confirmed := false |}.

Lemma checks_are_recorded_witness :
  exists v t', api_verify 1 auditor [] 9 three three = (Ok v, t')
    /\ exists r, list_log None 1 t' = [(4, r)] /\ en_details (ro_entry r) = lit "3".
Proof.
  eexists _, _. split; [vm_compute; reflexivity|].
  destruct (checks_are_recorded 1 auditor [] 9 three three None) as [_ Hc].
  edestruct Hc as (_ & _ & _ & _ & r & Hl & _ & _ & Hd); [|vm_compute; reflexivity|].
  - apply (verify_chain 1). vm_compute. reflexivity.
  - exists r. split; [exact Hl|exact Hd].
Defined.

End AuditExamples.
