(* ===== verification/Setup.v ===== *)
(** * First start (crates/server/src/setup.rs, api/setup.rs)

    A fresh installation has no administrator: the command line prints a link
    with a one-time code, and the wizard in the browser makes the first
    administrator with it. Here are the row [instance], the memory that setup is
    over, the gate before the API and the wizard's handlers, on the tables of
    [People] and [Factors], the limit on wrong codes and Kratos. The statements
    of a transaction, which holds the row's lock, are taken together; the time
    of a user's last sign-in is only whether there was one. *)
From S2P Require Import Prelude Text Utf8 Sid Totp Model Session AccessRequests Store Folders Grants.
From S2P Require Import People Webauthn Factors BreakGlass Limiter.

(** ** Where an installation stands *)

Inductive Phase := Pending | Administrator_ | Complete.

#[export] Instance phase_eq_dec : EqDecision Phase.
Proof. solve_decision. Defined.

(** The row of [instance]; the time setup was completed only as whether it was. *)
Record Instance_ := {
  in_code : option (list Z);
  in_administrator : option Uuid;
  in_step : Z;
  in_completed : bool
}.

Record Progress := { pg_administrator : option Uuid; pg_step : Z; pg_completed : bool }.

Definition progress (i : Instance_) : Progress :=
  {| pg_administrator := in_administrator i; pg_step := in_step i; pg_completed := in_completed i |}.

Definition phase (p : Progress) : Phase :=
  if pg_completed p then Complete else if is_some (pg_administrator p) then Administrator_ else Pending.

(** The wizard's address; the code is in the fragment. *)
Definition link (public_origin code : list Z) : list Z :=
  trim_end_matches 47 public_origin ++ lit "/setup#code=" ++ code.

Definition OPEN : list (list Z * bool) :=
  [(lit "/health", false); (lit "/ssh-ca.pub", false); (lit "/setup", true); (lit "/session", true); (lit "/auth", true)].

(** Requests allowed while no administrator exists. *)
Definition open_while_pending (path : list Z) : bool :=
  existsb (fun ob => bool_decide (path = ob.1)
                     || ob.2 && is_some_and (starts_with [47]) (strip_prefix ob.1 path)) OPEN.

Inductive SetupProblem :=
| SP_Api (p : ApiProblem) | SP_Pending | SP_Done | SP_CodeInvalid | SP_TooManyAttempts (seconds : Z)
| SP_BreakGlassExists | SP_Internal.

Inductive SetupAction := SA_AccountInvited | SA_RoleAssigned | SA_BreakGlassCreated | SA_Completed.

(** The actor [setup] has no id. *)
Record SetupLog := { sl_actor : option Uuid; sl_action : SetupAction; sl_object : option Uuid }.

Definition BREAK_GLASS_NAME : list Z := lit "emergency".
Definition LAST_STEP : Z := 6.

Section setup.
Context `{UuidText} `{UuidParse} `{Lowercase} `{SqlLower} `{Kratos} `{Argon2} `{Hmac} `{Base32} `{Base64Url}
        `{Session.Sha256}.

(** The database, and what the server keeps itself: [sw_known] is
    [Completion]. *)
Record SetupWorld := {
  sw_instance : Instance_;
  sw_factors : Factors;
  sw_signed_in : gset Uuid;
  sw_log : list SetupLog;
  sw_kratos : KratosState;
  sw_kratos_set : bool;
  sw_windows : Windows;
  sw_known : bool
}.

Definition SM (A : Type) : Type := stM SetupWorld SetupProblem A.

Definition liftS {A} (r : result A SetupProblem) : SM A := match r with Ok a => ret a | Err e => fail e end.

Definition api {A} (r : result A ApiProblem) : SM A := match r with Ok a => ret a | Err e => fail (SP_Api e) end.

Definition with_db (i : Instance_) (f : Factors) (l : list SetupLog) (w : SetupWorld) : SetupWorld :=
  {| sw_instance := i; sw_factors := f; sw_signed_in := sw_signed_in w; sw_log := l; sw_kratos := sw_kratos w;
     sw_kratos_set := sw_kratos_set w; sw_windows := sw_windows w; sw_known := sw_known w |}.

Definition on_instance (f : Instance_ -> Instance_) : SM unit := fun w =>
  (Ok tt, with_db (f (sw_instance w)) (sw_factors w) (sw_log w) w).

Definition on_tables (f : People -> People) : SM unit := fun w =>
  (Ok tt, with_db (sw_instance w) (on_people f (sw_factors w)) (sw_log w) w).

Definition note (e : SetupLog) : SM unit := fun w =>
  (Ok tt, with_db (sw_instance w) (sw_factors w) (sw_log w ++ [e]) w).

Definition reading {A} (f : SetupWorld -> A) : SM A := fun w => (Ok (f w), w).

(** A transaction: an error takes back what it did in the database, not what
    Kratos or the limiter did. *)
Definition in_transaction {A} (m : SM A) : SM A := fun w =>
  match m w with
  | (Ok a, w') => (Ok a, w')
  | (Err e, w') => (Err e, with_db (sw_instance w) (sw_factors w) (sw_log w) w')
  end.

Definition ask_kratos {A} (c : stM KratosState KratosError A) (err : KratosError -> result A SetupProblem) : SM A := fun w =>
  let '(r, k) := c (sw_kratos w) in
  (match r with Ok a => Ok a | Err e => err e end,
   {| sw_instance := sw_instance w; sw_factors := sw_factors w; sw_signed_in := sw_signed_in w; sw_log := sw_log w;
      sw_kratos := k; sw_kratos_set := sw_kratos_set w; sw_windows := sw_windows w; sw_known := sw_known w |}).

Definition set_windows (f : Windows -> Windows) : SM unit := fun w =>
  (Ok tt, {| sw_instance := sw_instance w; sw_factors := sw_factors w; sw_signed_in := sw_signed_in w; sw_log := sw_log w;
             sw_kratos := sw_kratos w; sw_kratos_set := sw_kratos_set w; sw_windows := f (sw_windows w);
             sw_known := sw_known w |}).

(** [Completion::phase]: once complete, the database is not asked again. *)
Definition completion_phase : SM Phase := fun w =>
  if sw_known w then (Ok Complete, w)
  else
    let p := phase (progress (sw_instance w)) in
    (Ok p, {| sw_instance := sw_instance w; sw_factors := sw_factors w; sw_signed_in := sw_signed_in w; sw_log := sw_log w;
              sw_kratos := sw_kratos w; sw_kratos_set := sw_kratos_set w; sw_windows := sw_windows w;
              sw_known := bool_decide (p = Complete) |}).

(** The middleware before the API; the path lacks [/api]. *)
Definition gate (path : list Z) : SM unit :=
  if open_while_pending path then ret tt
  else p <-- completion_phase; if bool_decide (p = Pending) then fail SP_Pending else ret tt.

(** ** The command line *)

(** [setup::new_code]; [bytes] come of the operating system. *)
Definition new_code (bytes : list Z) : SM (list Z) := fun w =>
  let code := b64url_encode bytes in
  if in_completed (sw_instance w) then (Err SP_Done, w)
  else (on_instance (fun i => {| in_code := Some (sha256 code); in_administrator := in_administrator i;
                                 in_step := in_step i; in_completed := in_completed i |});; ret code) w.

(** ** The wizard *)

Definition status : SM (Phase * Z) :=
  p <-- reading (fun w => progress (sw_instance w)); ret (phase p, pg_step p).

Definition limit (now : Z) (address : list Z) : SM unit := fun w =>
  match Limiter.check WINDOW now [(PER_ADDRESS, address)] (sw_windows w) with
  | Ok _ => (Ok tt, w)
  | Err wait => (Err (SP_TooManyAttempts (wait / second)), w)
  end.

Definition check_code (now : Z) (stored : option (list Z)) (code address : list Z) : SM unit :=
  if bool_decide (stored = Some (sha256 (trim code))) then ret tt
  else set_windows (Limiter.failed WINDOW now [(PER_ADDRESS, address)]);; fail SP_CodeInvalid.

(** [code] *)
Definition code_ (now : Z) (address code : list Z) : SM unit :=
  limit now address;;
  open <-- reading sw_instance;
  if in_completed open then fail SP_Done else check_code now (in_code open) code address.

(** The administrator of an earlier code who never signed in goes. *)
Definition replace_previous (previous : Uuid) : SM unit :=
  user <-- reading (fun w => pe_users (fa_people (sw_factors w)) !! previous);
  signed_in <-- reading (fun w => bool_decide (previous ∈ sw_signed_in w));
  match user with
  | None => fail SP_Internal
  | Some user =>
      if signed_in then fail SP_Done
      else
        match u_identity_id user with
        | Some account =>
            ask_kratos (kratos_delete account)
              (fun e => match e with
                        | Unexpected status => if status =? 404 then Ok tt else Err (SP_Api (unavailable e))
                        | _ => Err (SP_Api (unavailable e))
                        end);;
            on_tables (on_roles (filter (fun r => rr_sid r <> principal_text (Local account))))
        | None => ret tt
        end;;
        on_tables (on_users (alter as_deleted previous))
  end.

(** The row of the role, under its primary key. *)
Definition insert_administrator (sid shown : list Z) : SM unit := fun w =>
  if existsb (fun r => bool_decide (rr_role r = own_role_as_str Administrator) && bool_decide (rr_sid r = sid))
       (pe_roles (fa_people (sw_factors w)))
  then (Err SP_Internal, w)
  else on_tables (on_roles (fun rs => rs ++ [{| rr_role := own_role_as_str Administrator; rr_sid := sid;
                                                rr_kind := lit "user"; rr_name := shown |}])) w.

(** [kratos::add_invited] in the transaction. *)
Definition add_user (new_id : Uuid) (i : Invitation) (email name : list Z) : SM Uuid := fun w =>
  let '(user, p) := add_invited new_id i email name (fa_people (sw_factors w)) in
  (Ok user, with_db (sw_instance w) (on_people (fun _ => p) (sw_factors w)) (sw_log w) w).

Definition administrator (now : Z) (address code : list Z) (new_id : Uuid) (input : NewAccount) : SM Invitation :=
  en <-- api (new_account input);
  limit now address;;
  set <-- reading sw_kratos_set;
  (if set then ret tt else fail (SP_Api AP_AccountsUnavailable));;
  in_transaction (
    open <-- reading sw_instance;
    (if in_completed open then fail SP_Done else ret tt);;
    check_code now (in_code open) code address;;
    match in_administrator open with Some previous => replace_previous previous | None => ret tt end;;
    i <-- ask_kratos (kratos_invite en.1 en.2) (fun e => Err (SP_Api (invite_failed e)));
    user <-- add_user new_id i en.1 en.2;
    let sid := principal_text (Local (i_identity i)) in
    insert_administrator sid (if bool_decide (en.2 = []) then en.1 else en.2);;
    on_instance (fun inst => {| in_code := None; in_administrator := Some user; in_step := 1;
                                in_completed := in_completed inst |});;
    note {| sl_actor := None; sl_action := SA_AccountInvited; sl_object := Some user |};;
    note {| sl_actor := None; sl_action := SA_RoleAssigned; sl_object := None |};;
    ret i).

Definition require_setting_up (s : Session) : SM unit :=
  if negb (is_admin s) then fail (SP_Api AP_Forbidden)
  else
    p <-- completion_phase;
    match p with
    | Administrator_ => ret tt
    | Complete => fail SP_Done
    | Pending => fail SP_Pending
    end.

Definition step (s : Session) (n : Z) : SM unit :=
  require_setting_up s;;
  if negb ((2 <=? n) && (n <? LAST_STEP)) then fail (SP_Api (AP_Invalid "step"))
  else on_instance (fun i => {| in_code := in_code i; in_administrator := in_administrator i;
                                in_step := Z.max (in_step i) n; in_completed := in_completed i |}).

(** [break_glass::list], as far as it is empty or not: users with an account. *)
Definition accounts_listed (db : Factors) : list Uuid :=
  omap (fun kv => if is_some (fa_accounts db !! kv.1) then Some kv.1 else None) (map_to_list (pe_users (fa_people db))).

(** [break_glass::create] in its transaction. *)
Definition create_account (new_id : Uuid) (drawn : Drawn) : SM Issued := fun w =>
  match BreakGlass.create new_id drawn BREAK_GLASS_NAME (sw_factors w) with
  | Ok (issued, db) => (Ok issued, with_db (sw_instance w) db (sw_log w) w)
  | Err (BG_Exists _) => (Err SP_BreakGlassExists, w)
  | Err _ => (Err SP_Internal, w)
  end.

Definition create_break_glass (s : Session) (new_id : Uuid) (drawn : Drawn) : SM Issued :=
  require_setting_up s;;
  listed <-- reading (fun w => accounts_listed (sw_factors w));
  (if bool_decide (listed = []) then ret tt else fail SP_BreakGlassExists);;
  issued <-- create_account new_id drawn;
  account <-- reading (fun w => BreakGlass.find (BreakGlass.is_username issued) (sw_factors w));
  match account with
  | None => fail SP_Internal
  | Some account =>
      note {| sl_actor := Some (user_id s); sl_action := SA_BreakGlassCreated; sl_object := Some (acc_user account) |};;
      ret issued
  end.

(** The row of [complete]'s update; whether it was there. *)
Definition mark_complete : SM bool := fun w =>
  if in_completed (sw_instance w) then (Ok false, w)
  else (on_instance (fun i => {| in_code := None; in_administrator := in_administrator i; in_step := LAST_STEP;
                                 in_completed := true |});; ret true) w.

Definition complete (s : Session) : SM unit :=
  require_setting_up s;;
  in_transaction (
    done_ <-- mark_complete;
    if done_ then note {| sl_actor := Some (user_id s); sl_action := SA_Completed; sl_object := None |}
    else fail SP_Done).

(** ** What happens to an installation *)

(** The wizard's requests, the command line, and whatever else changes users,
    accounts, the limiter and Kratos; a restart forgets that setup is over. *)
Inductive SetupCall :=
| Call_new_code (bytes : list Z)
| Call_gate (path : list Z)
| Call_status
| Call_code (now : Z) (address code : list Z)
| Call_administrator (now : Z) (address code : list Z) (new_id : Uuid) (input : NewAccount)
| Call_step (s : Session) (n : Z)
| Call_break_glass (s : Session) (new_id : Uuid) (drawn : Drawn)
| Call_complete (s : Session)
| Call_others (f : Factors) (signed_in : gset Uuid) (k : KratosState) (windows : Windows)
| Call_restart.

Definition nothing {A} (m : SM A) : SM unit := m;; ret tt.

Definition run_setup (c : SetupCall) : SM unit :=
  match c with
  | Call_new_code bytes => nothing (new_code bytes)
  | Call_gate path => gate path
  | Call_status => nothing status
  | Call_code now address code => code_ now address code
  | Call_administrator now address code new_id input => nothing (administrator now address code new_id input)
  | Call_step s n => step s n
  | Call_break_glass s new_id drawn => nothing (create_break_glass s new_id drawn)
  | Call_complete s => complete s
  | Call_others f signed_in k windows => fun w =>
      (Ok tt, {| sw_instance := sw_instance w; sw_factors := f; sw_signed_in := signed_in; sw_log := sw_log w;
                 sw_kratos := k; sw_kratos_set := sw_kratos_set w; sw_windows := windows; sw_known := sw_known w |})
  | Call_restart => fun w =>
      (Ok tt, {| sw_instance := sw_instance w; sw_factors := sw_factors w; sw_signed_in := sw_signed_in w;
                 sw_log := sw_log w; sw_kratos := sw_kratos w; sw_kratos_set := sw_kratos_set w;
                 sw_windows := sw_windows w; sw_known := false |})
  end.

Definition then_ (w : SetupWorld) (c : SetupCall) : SetupWorld := (run_setup c w).2.

(** What asks something of the wizard or makes a code for it. *)
Definition wizards (c : SetupCall) : bool :=
  match c with
  | Call_new_code _ | Call_code _ _ _ | Call_administrator _ _ _ _ _ | Call_step _ _ | Call_break_glass _ _ _ | Call_complete _ => true
  | _ => false
  end.

(** ** Theorems *)

(** What the database holds. *)
Definition same_db (w w' : SetupWorld) : Prop :=
  sw_instance w' = sw_instance w /\ sw_factors w' = sw_factors w /\ sw_log w' = sw_log w.

Lemma bind_ok {A B} (m : SM A) (k : A -> SM B) w b w' :
  bindM m k w = (Ok b, w') -> exists a w1, m w = (Ok a, w1) /\ k a w1 = (Ok b, w').
Proof. unfold bindM. destruct (m w) as [[a|e] w1]; [eauto|done]. Qed.

Lemma bind_run {A B} (m : SM A) (k : A -> SM B) w a w1 : m w = (Ok a, w1) -> bindM m k w = k a w1.
Proof. unfold bindM. by intros ->. Qed.

Lemma bind_failed {A B} (m : SM A) (k : A -> SM B) w e w' : m w = (Err e, w') -> bindM m k w = (Err e, w').
Proof. unfold bindM. by intros ->. Qed.

(** A relation that every part of a program respects holds of the whole. *)
Definition respects (R : SetupWorld -> SetupWorld -> Prop) {A} (m : SM A) : Prop := forall w, R w (m w).2.

Lemma respects_bind R {A B} (m : SM A) (k : A -> SM B) :
  Transitive R -> respects R m -> (forall a, respects R (k a)) -> respects R (bindM m k).
Proof.
  intros Ht Hm Hk w. unfold bindM. pose proof (Hm w) as Hw1. destruct (m w) as [[a|e] w1]; [|done].
  etransitivity; [exact Hw1|apply Hk].
Qed.

#[local] Instance same_db_refl : Reflexive same_db.
Proof. by intros w. Qed.
#[local] Instance same_db_trans : Transitive same_db.
Proof. intros a b c (? & ? & ?) (? & ? & ?). split_and!; congruence. Qed.

Lemma completion_phase_run w :
  exists b, completion_phase w
    = (Ok (if sw_known w then Complete else phase (progress (sw_instance w))),
       {| sw_instance := sw_instance w; sw_factors := sw_factors w; sw_signed_in := sw_signed_in w; sw_log := sw_log w;
          sw_kratos := sw_kratos w; sw_kratos_set := sw_kratos_set w; sw_windows := sw_windows w; sw_known := b |}).
Proof. unfold completion_phase. destruct w as [? ? ? ? ? ? ? []]; by eexists. Qed.

Lemma completion_phase_db : respects same_db completion_phase.
Proof. intros w. by destruct (completion_phase_run w) as [b ->]. Qed.

Lemma in_transaction_failed {A} (m : SM A) w e w' : in_transaction m w = (Err e, w') -> same_db w w'.
Proof. unfold in_transaction. destruct (m w) as [[a|e'] w1]; [done|]. by intros [= <- <-]. Qed.

Lemma limit_db now address : respects same_db (limit now address).
Proof. intros w. unfold limit. by destruct (Limiter.check _ _ _ _). Qed.

Lemma liftapi_run {A} (r : result A ApiProblem) w : api r w = (match r with Ok a => Ok a | Err e => Err (SP_Api e) end, w).
Proof. by destruct r. Qed.

Lemma check_code_db now stored code address : respects same_db (check_code now stored code address).
Proof. intros w. unfold check_code. by case_bool_decide. Qed.

Lemma check_code_ok now stored code address w u w' :
  check_code now stored code address w = (Ok u, w') -> stored = Some (sha256 (trim code)) /\ w' = w.
Proof. unfold check_code. case_bool_decide; [|done]. by intros [= <-]. Qed.

(** The beginning of [administrator], up to its transaction. *)
Lemma administrator_begin now address code new_id input w :
  (exists e w', administrator now address code new_id input w = (Err e, w') /\ same_db w w')
  \/ exists email name,
       new_account input = Ok (email, name)
       /\ administrator now address code new_id input w = (in_transaction (
            open <-- reading sw_instance;
            (if in_completed open then fail SP_Done else ret tt);;
            check_code now (in_code open) code address;;
            match in_administrator open with Some previous => replace_previous previous | None => ret tt end;;
            i <-- ask_kratos (kratos_invite email name) (fun e => Err (SP_Api (invite_failed e)));
            user <-- add_user new_id i email name;
            let sid := principal_text (Local (i_identity i)) in
            insert_administrator sid (if bool_decide (name = []) then email else name);;
            on_instance (fun inst => {| in_code := None; in_administrator := Some user; in_step := 1;
                                        in_completed := in_completed inst |});;
            note {| sl_actor := None; sl_action := SA_AccountInvited; sl_object := Some user |};;
            note {| sl_actor := None; sl_action := SA_RoleAssigned; sl_object := None |};;
            ret i)) w.
Proof.
  unfold administrator. destruct (new_account input) as [[email name]|e] eqn:Ha.
  2: { left. exists (SP_Api e), w. split; [|done]. by apply bind_failed. }
  rewrite (bind_run _ _ w (email, name) w) by done. pose proof (limit_db now address w) as Hl.
  destruct (limit now address w) as [[[]|e] w1] eqn:El; [|left; exists e, w1; split; [by apply bind_failed|done]].
  assert (w1 = w) as -> by (unfold limit in El; by destruct (Limiter.check _ _ _ _); simplify_eq).
  rewrite (bind_run _ _ w tt w) by done. rewrite (bind_run _ _ w (sw_kratos_set w) w) by done.
  destruct (sw_kratos_set w).
  2: { left. eexists _, w. split; [by apply bind_failed|done]. }
  rewrite (bind_run _ _ w tt w) by done.
  right. by exists email, name.
Qed.

(** A refused request for the first administrator changes nothing in the
    database. *)
Lemma administrator_failed now address code new_id input w e w' :
  administrator now address code new_id input w = (Err e, w') -> same_db w w'.
Proof.
  destruct (administrator_begin now address code new_id input w) as [(e0 & w0 & -> & Hs)|(email & name & _ & ->)].
  - by intros [= _ <-].
  - apply in_transaction_failed.
Qed.

(** *** For good *)

Definition over (w w' : SetupWorld) : Prop := in_completed (sw_instance w) = true -> sw_instance w' = sw_instance w.

Lemma require_setting_up_db s : respects same_db (require_setting_up s).
Proof.
  unfold require_setting_up. destruct (is_admin s); simpl; [|by intros w].
  apply respects_bind; [tc_solve|apply completion_phase_db|]. by intros [] w.
Qed.

Lemma require_over s w :
  in_completed (sw_instance w) = true ->
  exists e w', require_setting_up s w = (Err e, w') /\ same_db w w'.
Proof.
  intros Hc. pose proof (require_setting_up_db s w) as Hdb. unfold require_setting_up in *. destruct (is_admin s); simpl in *.
  - unfold bindM in *. destruct (completion_phase_run w) as [b Hr]. rewrite Hr in *.
    assert (Hp : (if sw_known w then Complete else phase (progress (sw_instance w))) = Complete).
    { unfold phase, progress. simpl. rewrite Hc. by destruct (sw_known w). }
    rewrite Hp in *. by eexists _, _.
  - by eexists _, _.
Qed.

(** Once setup is over, the wizard refuses everything. *)
Lemma wizard_over c w :
  in_completed (sw_instance w) = true -> wizards c = true ->
  exists e w', run_setup c w = (Err e, w') /\ same_db w w'.
Proof.
  intros Hc Hw. destruct c as [bytes|path| |now address code|now address code new_id input|s n|s new_id drawn|s|f si k wi|];
    try done; cbn [run_setup]; unfold nothing.
  - exists SP_Done, w. split; [|done]. apply bind_failed. unfold new_code. by rewrite Hc.
  - unfold code_. unfold bindM at 1. pose proof (limit_db now address w) as Hl.
    destruct (limit now address w) as [[[]|e] w1]; [|by eexists _, _]. destruct Hl as (Hi & Hf & Hg). cbn [snd] in *.
    unfold bindM. cbn [reading]. rewrite Hi, Hc. by eexists _, _.
  - destruct (administrator_begin now address code new_id input w) as [(e & w' & He & Hs)|(email & name & _ & He)].
    { exists e, w'. split; [|done]. by apply bind_failed. }
    eexists _, _. split; [apply bind_failed; rewrite He|].
    + unfold in_transaction, bindM at 1. cbn [reading]. rewrite Hc. unfold bindM at 1. cbn [fail]. reflexivity.
    + done.
  - destruct (require_over s w Hc) as (e & w' & He & Hs). exists e, w'. split; [|done]. unfold step. by apply bind_failed.
  - destruct (require_over s w Hc) as (e & w' & He & Hs). exists e, w'. split; [|done].
    unfold create_break_glass. by apply bind_failed, bind_failed.
  - destruct (require_over s w Hc) as (e & w' & He & Hs). exists e, w'. split; [|done]. unfold complete. by apply bind_failed.
Qed.

Lemma then_over c w : in_completed (sw_instance w) = true -> sw_instance (then_ w c) = sw_instance w.
Proof.
  intros Hc. unfold then_. destruct (wizards c) eqn:Hw.
  - destruct (wizard_over c w Hc Hw) as (e & w' & -> & Hs & _). done.
  - destruct c; try done; cbn [run_setup].
    unfold gate. destruct (open_while_pending path); [done|]. unfold bindM.
    destruct (completion_phase_run w) as [b ->]. by case_bool_decide.
Qed.

(** C17: Once setup is complete it never opens again, whatever anyone does and
    whoever is gone: the wizard and the command line's code are refused and
    change nothing, and the gate lets every path through. *)
Theorem setup_never_reopens (w : SetupWorld) (es : list SetupCall) (c : SetupCall) (path : list Z) :
  in_completed (sw_instance w) = true ->
  let w' := foldl then_ w es in
  sw_instance w' = sw_instance w /\ (gate path w').1 = Ok tt
  /\ (wizards c = true -> exists e w'', run_setup c w' = (Err e, w'') /\ same_db w' w'').
Proof.
  intros Hc w'. assert (Hi : sw_instance w' = sw_instance w).
  { subst w'. revert w Hc. induction es as [|c0 es IH]; intros w Hc; [done|]. cbn [foldl].
    rewrite IH; [by apply then_over|]. by rewrite then_over. }
  split_and!; [done| |].
  - unfold gate. destruct (open_while_pending path); [done|]. unfold bindM. destruct (completion_phase_run w') as [b ->].
    unfold phase, progress. rewrite Hi. simpl. rewrite Hc. by destruct (sw_known w').
  - apply wizard_over. by rewrite Hi.
Qed.

(** *** The first administrator *)

(** The tables without the administrator of an earlier code. *)
Definition without (previous : option Uuid) (p : People) : People :=
  match previous with
  | None => p
  | Some previous =>
      on_users (alter as_deleted previous)
        match pe_users p !! previous ≫= u_identity_id with
        | Some account => on_roles (filter (fun r => rr_sid r <> principal_text (Local account))) p
        | None => p
        end
  end.

Definition people_of (w : SetupWorld) : People := fa_people (sw_factors w).

(** What a request changed of the users' tables only. *)
Definition only_people (p : People) (w w' : SetupWorld) : Prop :=
  sw_instance w' = sw_instance w /\ sw_log w' = sw_log w /\ sw_signed_in w' = sw_signed_in w
  /\ sw_factors w' = on_people (fun _ => p) (sw_factors w).

Lemma on_people_self f : on_people (fun _ => fa_people f) f = f.
Proof. by destruct f. Qed.

Lemma ask_kratos_ok {A} (c : stM KratosState KratosError A) err w a w' :
  ask_kratos c err w = (Ok a, w') -> only_people (people_of w) w w'.
Proof.
  unfold ask_kratos. destruct (c (sw_kratos w)) as [r k]. intros [= _ <-]. unfold only_people, people_of. simpl.
  by rewrite on_people_self.
Qed.

Lemma replace_previous_ok previous w u w' :
  replace_previous previous w = (Ok u, w') ->
  (previous ∉ sw_signed_in w) /\ is_Some (pe_users (people_of w) !! previous)
  /\ only_people (without (Some previous) (people_of w)) w w'.
Proof.
  unfold replace_previous. rewrite (bind_run _ _ w (pe_users (people_of w) !! previous) w) by done.
  rewrite (bind_run _ _ w (bool_decide (previous ∈ sw_signed_in w)) w) by done.
  unfold without. destruct (pe_users (people_of w) !! previous) as [row|] eqn:Hrow; [|done]. simpl.
  case_bool_decide as Hin; [done|]. intros Hr. split; [done|]. split; [by eexists|].
  apply bind_ok in Hr as ([] & w1 & Hk & Hr). injection Hr as _ <-.
  destruct (u_identity_id row) as [account|].
  - apply bind_ok in Hk as ([] & w0 & Hk & Hd). injection Hd as <-.
    destruct (ask_kratos_ok _ _ _ _ _ Hk) as (Hi & Hl & Hs & Hf). unfold only_people, with_db, people_of in *. simpl in *.
    rewrite Hi, Hl, Hs, Hf. done.
  - injection Hk as <-. done.
Qed.

(** What a request that made the first administrator did. *)
Lemma administrator_done now address code new_id input w i w' :
  administrator now address code new_id input w = (Ok i, w') ->
  exists email name user p,
    new_account input = Ok (email, name)
    /\ in_completed (sw_instance w) = false /\ in_code (sw_instance w) = Some (sha256 (trim code))
    /\ match in_administrator (sw_instance w) with
       | Some previous => (previous ∉ sw_signed_in w) /\ is_Some (pe_users (people_of w) !! previous)
       | None => True
       end
    /\ add_invited new_id i email name (without (in_administrator (sw_instance w)) (people_of w)) = (user, p)
    /\ sw_instance w' = {| in_code := None; in_administrator := Some user; in_step := 1; in_completed := false |}
    /\ people_of w' = on_roles (fun rs => rs ++ [{| rr_role := own_role_as_str Administrator;
                                                    rr_sid := principal_text (Local (i_identity i)); rr_kind := lit "user";
                                                    rr_name := if bool_decide (name = []) then email else name |}]) p
    /\ sw_log w' = sw_log w ++ [{| sl_actor := None; sl_action := SA_AccountInvited; sl_object := Some user |};
                                {| sl_actor := None; sl_action := SA_RoleAssigned; sl_object := None |}].
Proof.
  intros Ha. destruct (administrator_begin now address code new_id input w) as [(e & w0 & He & _)|(email & name & Hn & He)];
    rewrite He in Ha; [done|]. clear He. unfold in_transaction in Ha.
  match type of Ha with (match ?m w with _ => _ end) = _ => destruct (m w) as [[x|e] w9] eqn:Hm end; [|done].
  injection Ha as -> ->. rewrite (bind_run _ _ w (sw_instance w) w) in Hm by done.
  destruct (in_completed (sw_instance w)) eqn:Hc; [done|]. rewrite (bind_run _ _ w tt w) in Hm by done.
  apply bind_ok in Hm as ([] & w1 & Hcode & Hm). apply check_code_ok in Hcode as [Hcode ->].
  apply bind_ok in Hm as ([] & w2 & Hprev & Hm).
  assert (Hp : (match in_administrator (sw_instance w) with
                | Some previous => (previous ∉ sw_signed_in w) /\ is_Some (pe_users (people_of w) !! previous) | None => True end)
    /\ only_people (without (in_administrator (sw_instance w)) (people_of w)) w w2).
  { destruct (in_administrator (sw_instance w)) as [previous|].
    - apply replace_previous_ok in Hprev as (? & ? & ?). done.
    - injection Hprev as <-. split; [done|]. unfold only_people, without, people_of. by rewrite on_people_self. }
  destruct Hp as [Hprev' (Hi2 & Hl2 & _ & Hf2)]. apply bind_ok in Hm as (inv & w3 & Hk & Hm).
  apply ask_kratos_ok in Hk as (Hi3 & Hl3 & _ & Hf3). apply bind_ok in Hm as (user & w4 & Hu & Hm).
  unfold add_user in Hu. destruct (add_invited new_id inv email name (fa_people (sw_factors w3))) as [user' p] eqn:Hadd.
  injection Hu as -> <-. cbv zeta in Hm. apply bind_ok in Hm as ([] & w5 & Hins & Hm).
  unfold insert_administrator in Hins. destruct (existsb _ _); [done|]. injection Hins as <-.
  repeat (rewrite (bind_run _ _ _ tt _ eq_refl) in Hm). injection Hm as -> <-.
  exists email, name, user, p. unfold people_of, with_db in *. simpl in *. rewrite Hf3, Hf2 in Hadd. simpl in Hadd.
  rewrite Hi3, Hi2, Hl3, Hl2, Hc. split_and!; try done. by rewrite <- app_assoc.
Qed.

(** The name in [role_assignments] of the administrator of an earlier code. *)
Definition previous_sid (w : SetupWorld) : option (list Z) :=
  previous ← in_administrator (sw_instance w);
  account ← pe_users (people_of w) !! previous ≫= u_identity_id;
  Some (principal_text (Local account)).

Lemma filter_keeps {A} (P : A -> Prop) `{!forall x, Decision (P x)} (l : list A) : (forall x, P x) -> filter P l = l.
Proof. intros HP. induction l as [|x l IH]; [done|]. by rewrite filter_cons_True, IH. Qed.

Lemma without_facts w :
  let p := people_of w in let p' := without (in_administrator (sw_instance w)) p in
  pe_roles p' = filter (fun r => Some (rr_sid r) <> previous_sid w) (pe_roles p)
  /\ pe_sessions p' = pe_sessions p /\ pe_groups p' = pe_groups p /\ pe_members p' = pe_members p
  /\ pe_grants p' = pe_grants p
  /\ pe_users p' = match in_administrator (sw_instance w) with
                   | Some previous => alter as_deleted previous (pe_users p) | None => pe_users p end.
Proof.
  cbv zeta. unfold without, previous_sid. destruct (in_administrator (sw_instance w)) as [previous|]; simpl.
  - destruct (pe_users (people_of w) !! previous ≫= u_identity_id) as [account|]; simpl; split_and!; try done.
    + apply list_filter_iff. intros r. split; congruence.
    + symmetry. by apply filter_keeps.
  - split_and!; try done. symmetry. by apply filter_keeps.
Qed.

(** The wizard's first step, done, has made one local account that
    administers remotehub, spent the code, and removed the account of an
    earlier code, who never signed in and whose roles are gone; everyone else
    keeps what they had. Refused, it has changed nothing in the database. *)
Theorem first_administrator_exact (now : Z) (address code : list Z) (new_id : Uuid) (input : NewAccount) (w : SetupWorld) :
  match administrator now address code new_id input w with
  | (Err _, w') => same_db w w'
  | (Ok i, w') =>
      let p := people_of w in let p' := people_of w' in
      in_completed (sw_instance w) = false /\ in_code (sw_instance w) = Some (sha256 (trim code))
      /\ in_code (sw_instance w') = None
      /\ (exists r, rr_role r = own_role_as_str Administrator /\ rr_sid r = principal_text (Local (i_identity i))
           /\ pe_roles p' = filter (fun r => Some (rr_sid r) <> previous_sid w) (pe_roles p) ++ [r])
      /\ (forall previous, in_administrator (sw_instance w) = Some previous -> previous <> new_id ->
           ~ (previous ∈ sw_signed_in w) /\ exists u, pe_users p' !! previous = Some u /\ u_kind u = lit "deleted")
      /\ (pe_users p !! new_id = None ->
          (forall id u, pe_users p !! id = Some u -> u_identity_id u <> Some (i_identity i)) ->
          in_administrator (sw_instance w') = Some new_id
          /\ exists email name u, new_account input = Ok (email, name) /\ pe_users p' !! new_id = Some u
               /\ u_username u = email /\ u_kind u = lit "local" /\ u_identity_id u = Some (i_identity i))
      /\ (forall id, id <> new_id -> in_administrator (sw_instance w) <> Some id -> pe_users p' !! id = pe_users p !! id)
      /\ pe_sessions p' = pe_sessions p /\ pe_groups p' = pe_groups p /\ pe_members p' = pe_members p
      /\ pe_grants p' = pe_grants p
  end.
Proof.
  destruct (administrator now address code new_id input w) as [[i|e] w'] eqn:Ha; [|by eapply administrator_failed].
  destruct (administrator_done _ _ _ _ _ _ _ _ Ha) as (email & name & user & p & Hn & Hc & Hcode & Hprev & Hadd & Hi & Hp & _).
  destruct (without_facts w) as (Hroles & Hse & Hgr & Hme & Hgt & Hus). cbv zeta in *. rewrite Hp, Hi.
  assert (Hkept : pe_roles p = pe_roles (without (in_administrator (sw_instance w)) (people_of w))
    /\ pe_sessions p = pe_sessions (people_of w) /\ pe_groups p = pe_groups (people_of w)
    /\ pe_members p = pe_members (people_of w) /\ pe_grants p = pe_grants (people_of w)
    /\ (forall id, id <> new_id -> pe_users p !! id = pe_users (without (in_administrator (sw_instance w)) (people_of w)) !! id)).
  { unfold add_invited in Hadd. destruct (List.find _ _) as [[id0 ?]|]; injection Hadd as <- <-; simpl; split_and!; try done.
    intros id Hid. by rewrite lookup_insert_ne. }
  destruct Hkept as (Hkr & Hks & Hkg & Hkm & Hkgt & Hku). split_and!; simpl; try done; try congruence.
  - eexists. split_and!; [| |by rewrite Hkr, Hroles]; done.
  - intros previous Hpv Hne. rewrite Hpv in Hprev. destruct Hprev as [Hno [u Hu]]. split; [done|].
    exists (as_deleted u). split; [|done]. rewrite Hku, Hus, Hpv by done. by rewrite lookup_alter_eq, Hu.
  - intros Hfree Hnone. unfold add_invited in Hadd. destruct (List.find _ _) as [[id0 u0]|] eqn:Hf.
    + exfalso. apply List.find_some in Hf as [Hin Hb]. apply bool_decide_eq_true in Hb. simpl in Hb.
      apply list_elem_of_In, elem_of_map_to_list in Hin. rewrite Hus in Hin.
      destruct (in_administrator (sw_instance w)) as [previous|]; [|by eapply Hnone].
      apply lookup_alter_Some in Hin as [(-> & u1 & Hu1 & ->)|[_ Hu1]]; [done|by eapply Hnone].
    + injection Hadd as <- <-. split; [done|]. exists email, name. eexists. split; [done|]. split; [apply lookup_insert_eq|]. done.
  - intros id Hid Hne. rewrite Hku, Hus by done. destruct (in_administrator (sw_instance w)) as [previous|]; [|done].
    rewrite lookup_alter_ne; [done|congruence].
Qed.

(** *** The code *)

(** The first administrator made by a call. *)
Definition makes_administrator (c : SetupCall) (w : SetupWorld) : bool :=
  match c with Call_administrator _ _ _ _ _ => is_ok (run_setup c w).1 | _ => false end.

Definition code_of (w : SetupWorld) : option (list Z) := in_code (sw_instance w).

Definition prints_code (c : SetupCall) : bool := match c with Call_new_code _ => true | _ => false end.

Lemma then_code c w :
  in_completed (sw_instance w) = false ->
  (code_of (then_ w c) = code_of w /\ makes_administrator c w = false /\ prints_code c = false) \/ code_of (then_ w c) = None
  \/ exists bytes, c = Call_new_code bytes /\ code_of (then_ w c) = Some (sha256 (b64url_encode bytes)).
Proof.
  intros Hopen.
  assert (Hsame : forall w', same_db w w' -> code_of w' = code_of w) by (intros w' (Hi & _); unfold code_of; by rewrite Hi).
  assert (Hset : forall s (k : SM unit), (forall w1, sw_instance w1 = sw_instance w -> code_of (k w1).2 = code_of w \/ code_of (k w1).2 = None) ->
    code_of (bindM (require_setting_up s) (fun _ => k) w).2 = code_of w \/ code_of (bindM (require_setting_up s) (fun _ => k) w).2 = None).
  { intros s k Hk. unfold bindM. pose proof (require_setting_up_db s w) as Hdb.
    destruct (require_setting_up s w) as [[[]|e] w1]; [apply Hk, Hdb|left; by apply Hsame]. }
  destruct c as [bytes|path| |now address code|now address code new_id input|s n|s new_id drawn|s|f si k wi|];
    unfold then_; cbn [run_setup makes_administrator prints_code]; unfold nothing.
  - unfold bindM, new_code. rewrite Hopen. right; right. by exists bytes.
  - left. split; [|done]. apply Hsame. unfold gate. destruct (open_while_pending path); [done|].
    apply respects_bind; [tc_solve|apply completion_phase_db|]. intros a w1. by case_bool_decide.
  - by left.
  - left. split; [|done]. apply Hsame. unfold code_. apply respects_bind; [tc_solve|apply limit_db|]. intros [].
    apply respects_bind; [tc_solve|by intros ?|]. intros open. destruct (in_completed open); [by intros ?|apply check_code_db].
  - destruct (administrator now address code new_id input w) as [[i|e] w'] eqn:Ha.
    + right; left. rewrite (bind_run _ _ _ _ _ Ha). destruct (administrator_done _ _ _ _ _ _ _ _ Ha) as (? & ? & ? & ? & _ & _ & _ & _ & _ & Hi & _).
      unfold code_of. simpl. by rewrite Hi.
    + left. rewrite (bind_failed _ _ _ _ _ Ha). split; [|done]. simpl. by eapply Hsame, administrator_failed.
  - destruct (Hset s (if negb ((2 <=? n) && (n <? LAST_STEP)) then fail (SP_Api (AP_Invalid "step"))
      else on_instance (fun i => {| in_code := in_code i; in_administrator := in_administrator i;
                                    in_step := Z.max (in_step i) n; in_completed := in_completed i |}))) as [Hl|Hr].
    + intros w1 Hw1. left. case_match; unfold code_of; simpl; by rewrite Hw1.
    + left. split; [exact Hl|done].
    + right; left. exact Hr.
  - left. split; [|done]. unfold create_break_glass.
    assert (Hb : respects (fun w w' => sw_instance w' = sw_instance w) (nothing (create_break_glass s new_id drawn))).
    { unfold nothing, create_break_glass. assert (Transitive (fun w w' : SetupWorld => sw_instance w' = sw_instance w)) by (intros ? ? ? ? ?; congruence).
      apply respects_bind; [done| |by intros ? ?]. apply respects_bind; [done|intros w1; apply (require_setting_up_db s w1)|]. intros [].
      apply respects_bind; [done|by intros ?|]. intros listed. apply respects_bind; [done|intros ?; by case_bool_decide|]. intros [].
      apply respects_bind; [done| |].
      - intros w1. unfold create_account. destruct (BreakGlass.create _ _ _ _) as [[]|[]]; done.
      - intros issued. apply respects_bind; [done|by intros ?|]. intros [account|]; by intros ?. }
    specialize (Hb w). unfold code_of. unfold nothing, create_break_glass in Hb. by rewrite Hb.
  - destruct (Hset s (in_transaction (done_ <-- mark_complete;
      if done_ then note {| sl_actor := Some (user_id s); sl_action := SA_Completed; sl_object := None |} else fail SP_Done))) as [Hl|Hr].
    + intros w1 Hw1. unfold in_transaction, bindM, mark_complete. destruct (in_completed (sw_instance w1)); [left|right; done].
      unfold code_of. simpl. by rewrite Hw1.
    + left. split; [exact Hl|done].
    + right; left. exact Hr.
  - by left.
  - by left.
Qed.

(** C29: Whoever makes the first administrator holds the code the command line
    printed last: since then it has printed no other, and nobody has made an
    administrator. *)
Theorem code_makes_one_administrator (w : SetupWorld) (es : list SetupCall) (now : Z) (address code : list Z)
    (new_id : Uuid) (input : NewAccount) (i : Invitation) (w' : SetupWorld) :
  code_of w = None -> administrator now address code new_id input (foldl then_ w es) = (Ok i, w') ->
  exists pre bytes post, es = pre ++ Call_new_code bytes :: post /\ sha256 (trim code) = sha256 (b64url_encode bytes)
    /\ Forall (fun c => prints_code c = false) post
    /\ forall p1 c p2, post = p1 ++ c :: p2 ->
         makes_administrator c (foldl then_ w (pre ++ Call_new_code bytes :: p1)) = false.
Proof.
  intros Hfresh Ha. destruct (administrator_done _ _ _ _ _ _ _ _ Ha) as (_ & _ & _ & _ & _ & Hopen & Hcode & _). clear Ha.
  change (in_code (sw_instance (foldl then_ w es))) with (code_of (foldl then_ w es)) in Hcode.
  revert Hcode Hopen. induction es as [|c es IH] using rev_ind; [simpl; congruence|]. rewrite foldl_app. cbn [foldl]. intros Hcode Hopen.
  assert (Hbefore : in_completed (sw_instance (foldl then_ w es)) = false).
  { destruct (in_completed (sw_instance (foldl then_ w es))) eqn:E; [|done]. rewrite <- Hopen, <- E. f_equal. symmetry. by apply then_over. }
  destruct (then_code c (foldl then_ w es) Hbefore) as [(Hs & Hm & Hp)|[Hn|(bytes & -> & Hs)]]; [|congruence|].
  - rewrite Hs in Hcode. destruct (IH Hcode Hbefore) as (pre & bytes & post & -> & Hh & Hno & Hpost).
    exists pre, bytes, (post ++ [c]). split_and!; [by rewrite <- app_assoc|done|by apply Forall_app; split; [|repeat constructor]|].
    intros p1 c' p2 Hsplit. destruct p2 as [|x p2 _] using rev_ind.
    + apply app_inj_tail in Hsplit as [<- <-]. exact Hm.
    + rewrite app_comm_cons, app_assoc in Hsplit. apply app_inj_tail in Hsplit as [-> _]. by eapply Hpost.
  - rewrite Hs in Hcode. injection Hcode as Hcode. exists es, bytes, []. split_and!; [done|congruence|constructor|].
    intros p1 c p2 Hnil. by destruct p1.
Qed.

(** *** The gate *)

(** While nobody administers remotehub, the gate lets through exactly the
    health check, the SSH CA's key, and what is at or below the wizard's and the
    sign-in's paths. *)
Theorem pending_serves_only_the_wizard (path : list Z) (w : SetupWorld) :
  sw_known w = false -> in_completed (sw_instance w) = false -> in_administrator (sw_instance w) = None ->
  (gate path w).1 = Ok tt <->
    path = lit "/health" \/ path = lit "/ssh-ca.pub"
    \/ exists root, root ∈ [lit "/setup"; lit "/session"; lit "/auth"]
         /\ (path = root \/ exists rest, path = root ++ 47 :: rest).
Proof.
  intros Hk Hc Ha. unfold gate. destruct (open_while_pending path) eqn:Ho; unfold open_while_pending in Ho.
  - split; [intros _|done]. apply existsb_exists in Ho as ([open below] & Hin & Hb). apply list_elem_of_In in Hin.
    cbn [fst snd] in Hb. apply orb_true_iff in Hb as [Hb%bool_decide_eq_true|[-> Hb]%andb_true_iff].
    + subst path. unfold OPEN in Hin. repeat (apply elem_of_cons in Hin as [[= -> ->]|Hin]); [by left|by right; left|..|by apply elem_of_nil in Hin];
        right; right; eexists; (split; [|by left]); set_solver.
    + apply is_some_and_true in Hb as (rest & Hp & Hr). apply strip_prefix_Some in Hp as ->.
      apply starts_with_true in Hr as [tail ->]. right; right. exists open. split; [|right; by exists tail].
      unfold OPEN in Hin. repeat (apply elem_of_cons in Hin as [[= ->]|Hin]); [set_solver..|by apply elem_of_nil in Hin].
  - split.
    + unfold bindM, completion_phase. rewrite Hk. unfold phase, progress. cbn [pg_completed pg_administrator]. by rewrite Hc, Ha.
    + intros Hpath. exfalso. revert Ho. apply not_false_iff_true. apply existsb_exists.
      destruct Hpath as [->|[->|(root & Hroot & Hpath)]].
      * exists (lit "/health", false). split; [by left|]. by rewrite bool_decide_eq_true_2.
      * exists (lit "/ssh-ca.pub", false). split; [by right; left|]. by rewrite bool_decide_eq_true_2.
      * exists (root, true). split.
        { apply list_elem_of_In. unfold OPEN. set_solver. }
        cbn [fst snd]. destruct Hpath as [->|[rest ->]]; [by rewrite bool_decide_eq_true_2|].
        apply orb_true_iff. right. apply is_some_and_true. exists (47 :: rest). split; [by apply strip_prefix_Some|].
        by destruct rest.
Qed.
End setup.

(** ** Examples *)

Module SetupExamples.

#[local] Existing Instance BreakGlassExamples.decimal_uuid.
#[local] Existing Instance BreakGlassExamples.same_case_sql.
#[local] Existing Instance BreakGlassExamples.plain_argon2.
#[local] Existing Instance TotpExamples.plain_base32.
#[local] Existing Instance FactorExamples.backwards.
#[local] Existing Instance PeopleExamples.willing.
#[local] Existing Instance WebauthnExamples.plain_base64.
#[local] Existing Instance SessionExamples.no_hash.
#[local] Instance uuid_decimal : UuidParse := parse_unsigned (2 ^ 128 - 1).
#[local] Instance same_case : Lowercase := fun s => s.

Definition fresh : SetupWorld :=
  {| sw_instance := {| in_code := None; in_administrator := None; in_step := 0; in_completed := false |};
     sw_factors := BreakGlassExamples.empty_db; sw_signed_in := ∅; sw_log := []; sw_kratos := 0; sw_kratos_set := true;
     sw_windows := ∅; sw_known := false |}.

Definition ann : NewAccount := {| na_email := lit "ann@example.com"; na_name := lit "Ann" |}.
Definition bob : NewAccount := {| na_email := lit "bob@example.com"; na_name := [] |}.

Definition boss : Session :=
  {| token_hash := []; session_id := 1; client := []; user_id := 50; username := lit "ann"; display_name := []; kind := lit "local";
     sid := None; upn := None; s_group_sids := []; identity_id := None; memberships := []; roles := [lit "administrator"];
     locked := false; confirmed := false |}.

(** Ann's invitation never arrived; Bob's does, with another code. *)
Definition course : list SetupCall :=
  [Call_new_code (lit "one"); Call_administrator 0 (lit "::1") (lit "one ") 50 ann; Call_new_code (lit "two")].

Definition invited : Invitation := {| i_identity := 102; i_code := decimal 2 |}.
Definition after : SetupWorld := (administrator 0 (lit "::1") (lit "two") 51 bob (foldl then_ fresh course)).2.

Lemma code_makes_one_administrator_witness :
  exists pre bytes post, course = pre ++ Call_new_code bytes :: post /\ trim (lit "two") = bytes.
Proof.
  destruct (code_makes_one_administrator fresh course 0 (lit "::1") (lit "two") 51 bob invited after)
    as (pre & bytes & post & Hc & Hb & _); [reflexivity|vm_compute; reflexivity|].
  by exists pre, bytes, post.
Defined.

(** The code of Ann's is spent, and Ann's account is gone with its role. *)
Example bob_replaces_ann :
  (administrator 0 (lit "::1") (lit "one") 52 bob (foldl then_ fresh course)).1 = Err SP_CodeInvalid
  /\ u_kind <$> pe_users (people_of after) !! 50 = Some (lit "deleted")
  /\ rr_sid <$> pe_roles (people_of after) = [principal_text (Local 102)].
Proof. split_and!; vm_compute; reflexivity. Qed.

Definition finished : SetupWorld := foldl then_ after [Call_step boss 4; Call_break_glass boss 60 BreakGlassExamples.drawn; Call_complete boss].

Lemma setup_never_reopens_witness :
  let w' := foldl then_ finished [Call_restart; Call_new_code (lit "three")] in
  sw_instance w' = sw_instance finished
  /\ exists e w'', run_setup (Call_administrator 0 (lit "::1") (lit "three") 70 ann) w' = (Err e, w'') /\ same_db w' w''.
Proof.
  destruct (setup_never_reopens finished [Call_restart; Call_new_code (lit "three")]
    (Call_administrator 0 (lit "::1") (lit "three") 70 ann) (lit "/users")) as (Hi & _ & Hw); [vm_compute; reflexivity|].
  split; [exact Hi|exact (Hw eq_refl)].
Defined.

Lemma pending_serves_only_the_wizard_witness : (gate (lit "/auth/login") fresh).1 = Ok tt.
Proof.
  apply (pending_serves_only_the_wizard (lit "/auth/login") fresh); [reflexivity..|].
  right; right. exists (lit "/auth"). split; [set_solver|]. right. by exists (lit "login").
Defined.

(** The break-glass account is made once. *)
Example one_break_glass_account :
  sw_log finished !! 4%nat = Some {| sl_actor := Some 50; sl_action := SA_BreakGlassCreated; sl_object := Some 60 |}
  /\ (create_break_glass boss 61 BreakGlassExamples.drawn (foldl then_ after [Call_break_glass boss 60 BreakGlassExamples.drawn])).1
     = Err SP_BreakGlassExists.
Proof. split; vm_compute; reflexivity. Qed.

End SetupExamples.
