(* ===== verification/Ldap.v ===== *)
(** * The directory (crates/directory/src/ldap.rs, check.rs)

    Signing in against Active Directory, looking up users and groups, and the
    check of a connection before it is saved. What is asked of a server, and in
    which order, is the state; what it answers to a call after the calls before
    it is a parameter, like the crates [ldap3], [uuid] and [x509_parser]. Errors
    come without their texts, identities without the address of their mail. Timeouts count as failed calls. *)
From S2P Require Import Prelude Text Utf8 Sid Totp Model Session AccessRequests Store Folders Grants.
From S2P Require Import Devices People Webauthn Factors BreakGlass SignIn Connect.

(** ** What is asked of a server *)

Inductive LdapScope := Subtree | Base.

(** An opened connection is named by the number of calls before it. *)
Inductive LdapCall :=
| L_connect
| L_bind (conn : nat) (dn password : list Z)
| L_search (conn : nat) (base : list Z) (scope : LdapScope) (filter : list Z) (attributes : list (list Z)) (limit : option Z)
| L_unbind (conn : nat).

(** [ldap3::SearchEntry]: attributes whose values are text, and the others. *)
Record SearchEntry := { se_dn : list Z; attrs : list (list Z * list (list Z)); bin_attrs : list (list Z * list (list Z)) }.

(** A failed call, or a result code with its message and what a search found. *)
Inductive LdapAnswer := L_failed | L_result (rc : Z) (text : list Z) (entries : list SearchEntry).

Class LdapServer := ldap_answer : list LdapCall -> LdapCall -> LdapAnswer.

(** [Uuid::from_bytes_le] (crate [uuid]). *)
Class UuidLe := uuid_from_bytes_le : list Z -> Uuid.

Definition SIZE_LIMIT_EXCEEDED : Z := 4.
Definition NO_SUCH_OBJECT : Z := 32.
Definition INVALID_CREDENTIALS : Z := 49.
Definition ACCOUNT_DISABLED : Z := 2.
Definition FILETIME_TO_UNIX : Z := 11644473600.

Definition USER_ATTRIBUTES : list (list Z) :=
  [lit "sAMAccountName"; lit "userPrincipalName"; lit "displayName"; lit "mail"; lit "objectSid"; lit "objectGUID"].

(** The text of [LdapConfig], with the password exposed; TLS is left out. *)
Record LdapConfig := {
  cfg_bind_dn : list Z; cfg_bind_password : list Z; cfg_base_dn : list Z; cfg_user_filter : option (list Z)
}.

(** ** Attributes *)

Definition find_attribute (m : list (list Z * list (list Z))) (name : list Z) : option (list (list Z)) :=
  snd <$> List.find (fun kv => eq_ignore_ascii_case kv.1 name) m.

Definition binary_values (e : SearchEntry) (name : list Z) : list (list Z) :=
  default [] (find_attribute (bin_attrs e) name)
  ++ match find_attribute (attrs e) name with Some text => utf8 <$> text | None => [] end.

Definition first_binary (e : SearchEntry) (name : list Z) : option (list Z) := head (binary_values e name).

Definition first_text (e : SearchEntry) (name : list Z) : option (list Z) :=
  values ← find_attribute (attrs e) name;
  filter_option not_empty (head values).

(** ** Names and filters *)

Inductive LdapAccount := Sam (name : list Z) | Upn (name : list Z).

Definition account_name (a : LdapAccount) : list Z := match a with Sam n | Upn n => n end.

(** [Account::parse] *)
Definition account_parse (input : list Z) : option LdapAccount :=
  let input := trim input in
  if bool_decide (input = []) || (256 <? str_len input) || existsb is_control input then None
  else
    let account := match split_once 92 input with
                   | Some (_, name) => Sam name
                   | None => if bool_decide (64 ∈ input) then Upn input else Sam input
                   end in
    if bool_decide (account_name account = []) then None else Some account.

Definition hex_digit (n : Z) : Z := if n <? 10 then 48 + n else 87 + n.

(** [\hh] for each byte. *)
Definition escape_binary (bytes : list Z) : list Z := bytes ≫= fun b => [92; hex_digit (b / 16); hex_digit (b mod 16)].

(** [accountExpires] before [now], in seconds since 1970, or before that. *)
Definition expired (account_expires : option Z) (now : Z) : bool :=
  match filter_option (fun e => 0 <? e) account_expires with
  | None => false
  | Some expires =>
      let now := if now <? 0 then 0 else now + FILETIME_TO_UNIX in
      expires / 10000000 <? now
  end.

(** What follows [pat] in [s]. *)
Fixpoint after_first (pat s : list Z) : option (list Z) :=
  match strip_prefix pat s with
  | Some rest => Some rest
  | None => match s with [] => None | _ :: s => after_first pat s end
  end.

(** What comes before [pat] in [s], or all of it. *)
Fixpoint before_first (pat s : list Z) : list Z :=
  if starts_with pat s then [] else match s with [] => [] | c :: s => c :: before_first pat s end.

(** The sub-code of Active Directory in a failed bind's message. *)
Definition bind_failure (diagnostic : list Z) : AuthError :=
  let code := (fun rest =>
    to_ascii_lowercase <$> default [] (head (split_by (fun c => (c =? 44) || (c =? 32)) (before_first (lit "data ") rest))))
    <$> after_first (lit "data ") diagnostic in
  match code with
  | None => AE_InvalidCredentials
  | Some code =>
      if bool_decide (code = lit "530") || bool_decide (code = lit "531") || bool_decide (code = lit "533") then AE_AccountDisabled
      else if bool_decide (code = lit "532") then AE_PasswordExpired
      else if bool_decide (code = lit "701") then AE_AccountExpired
      else if bool_decide (code = lit "773") then AE_PasswordMustChange
      else if bool_decide (code = lit "775") then AE_AccountLocked
      else AE_InvalidCredentials
  end.

Definition user_filter `{LdapEscape} (account : LdapAccount) (extra : option (list Z)) : list Z :=
  let name := match account with
              | Sam name => lit "(sAMAccountName=" ++ ldap_escape name ++ lit ")"
              | Upn upn => lit "(userPrincipalName=" ++ ldap_escape upn ++ lit ")"
              end in
  lit "(&(objectCategory=person)(objectClass=user)" ++ name ++ default [] extra ++ lit ")".

(** ** Steps of a connection's check *)

Inductive Step := Resolve | Connect_ | Tls | Bind_ | Search_.

Inductive Reason :=
| NotFound | Refused | Timeout | StartTlsRefused | UnknownCa | NameMismatch | Expired_ | InvalidCredentials_
| NoSuchBase | Other.

Record Failure := { fl_step : Step; fl_reason : Reason }.

Definition failure (s : Step) (r : Reason) : Failure := {| fl_step := s; fl_reason := r |}.

Section ldap.
Context `{LdapServer} `{LdapEscape} `{UuidLe} `{Lowercase}.
Context (config : LdapConfig).

(** Calls, with what was asked so far as the state. *)
Definition LM (E A : Type) : Type := stM (list LdapCall) E A.

Definition ask {E} (c : LdapCall) : LM E LdapAnswer := fun calls => (Ok (ldap_answer calls c), calls ++ [c]).

Definition liftL {E A} (r : result A E) : LM E A := match r with Ok a => ret a | Err e => fail e end.

Definition connect : LM AuthError nat := fun calls =>
  (a <-- ask L_connect; match a with L_failed => fail AE_Unavailable | L_result _ _ _ => ret (length calls) end) calls.

(** An answer of a call that must not fail. *)
Definition answered {E} (e : E) (c : LdapCall) : LM E (Z * list Z * list SearchEntry) :=
  a <-- ask c;
  match a with L_failed => fail e | L_result rc text entries => ret (rc, text, entries) end.

Definition unbind {E} (conn : nat) : LM E unit := _ <-- ask (L_unbind conn); ret tt.

(** [.success()] *)
Definition success (r : Z * list Z * list SearchEntry) : LM AuthError (list SearchEntry) :=
  if r.1.1 =? 0 then ret r.2 else fail AE_Directory.

Definition service : LM AuthError nat :=
  ldap <-- connect;
  r <-- answered AE_Unavailable (L_bind ldap (cfg_bind_dn config) (cfg_bind_password config));
  _ <-- success r;
  ret ldap.

(** [users], the last steps of a check. *)
Definition users (limit : Z) : LM Failure (list (list Z) * bool) := fun calls =>
  match connect calls with
  | (Err _, calls) => (Err (failure Connect_ Other), calls)
  | (Ok ldap, calls) =>
      (bound <-- answered (failure Bind_ Other) (L_bind ldap (cfg_bind_dn config) (cfg_bind_password config));
       (if bound.1.1 =? 0 then ret tt
        else if bound.1.1 =? INVALID_CREDENTIALS then fail (failure Bind_ InvalidCredentials_)
        else fail (failure Bind_ Other));;
       let filter := lit "(&(objectCategory=person)(objectClass=user)" ++ default [] (cfg_user_filter config) ++ lit ")" in
       found <-- answered (failure Search_ Other)
                   (L_search ldap (cfg_base_dn config) Subtree filter [lit "displayName"; lit "sAMAccountName"] (Some limit));
       unbind ldap;;
       (if (found.1.1 =? 0) || (found.1.1 =? SIZE_LIMIT_EXCEEDED) then ret tt
        else if found.1.1 =? NO_SUCH_OBJECT then fail (failure Search_ NoSuchBase)
        else fail (failure Search_ Other));;
       ret (omap (fun e => match first_text e (lit "displayName") with
                           | Some n => Some n | None => first_text e (lit "sAMAccountName") end) found.2,
            found.1.1 =? SIZE_LIMIT_EXCEEDED)) calls
  end.

Record DirGroup := { dg_sid : list Z; dg_name : list Z }.

Definition group_of (e : SearchEntry) : option DirGroup :=
  bytes ← first_binary e (lit "objectSid"); sid ← sid_from_bytes bytes; name ← first_text e (lit "cn");
  Some {| dg_sid := sid; dg_name := name |}.

Definition search_groups (query : list Z) (limit : Z) : LM AuthError (list DirGroup) :=
  let query := ldap_escape (trim query) in
  let filter := lit "(&(objectCategory=group)(|(cn=*" ++ query ++ lit "*)(sAMAccountName=*" ++ query ++ lit "*)))" in
  ldap <-- service;
  found <-- answered AE_Unavailable
              (L_search ldap (cfg_base_dn config) Subtree filter [lit "cn"; lit "objectSid"] (Some limit));
  unbind ldap;;
  if negb (found.1.1 =? 0) && negb (found.1.1 =? SIZE_LIMIT_EXCEEDED) then fail AE_Directory
  else ret (sort_by (fun a b => str_le (to_lowercase (dg_name a)) (to_lowercase (dg_name b))) (omap group_of found.2)).

Inductive PrincipalKind := Kind_Group | Kind_User.

Record DirPrincipal := { dp_kind : PrincipalKind; dp_sid : list Z; dp_name : list Z; dp_detail : option (list Z) }.

Definition principal_of (e : SearchEntry) : option DirPrincipal :=
  account ← first_text e (lit "sAMAccountName");
  bytes ← first_binary e (lit "objectSid"); sid ← sid_from_bytes bytes;
  Some {| dp_kind := Kind_User; dp_sid := sid; dp_name := default account (first_text e (lit "displayName"));
          dp_detail := match first_text e (lit "userPrincipalName") with Some upn => Some upn | None => Some account end |}.

Definition search_users (query : list Z) (limit : Z) : LM AuthError (list DirPrincipal) :=
  let query := ldap_escape (trim query) in
  let filter := lit "(&(objectCategory=person)(objectClass=user)(|(sAMAccountName=*" ++ query ++ lit "*)(displayName=*"
                ++ query ++ lit "*)(userPrincipalName=*" ++ query ++ lit "*))" ++ default [] (cfg_user_filter config) ++ lit ")" in
  ldap <-- service;
  found <-- answered AE_Unavailable
              (L_search ldap (cfg_base_dn config) Subtree filter
                 [lit "sAMAccountName"; lit "displayName"; lit "userPrincipalName"; lit "objectSid"] (Some limit));
  unbind ldap;;
  if negb (found.1.1 =? 0) && negb (found.1.1 =? SIZE_LIMIT_EXCEEDED) then fail AE_Directory
  else ret (omap principal_of found.2).

Definition find_user (ldap : nat) (account : LdapAccount) : LM AuthError SearchEntry :=
  r <-- answered AE_Unavailable
          (L_search ldap (cfg_base_dn config) Subtree (user_filter account (cfg_user_filter config)) USER_ATTRIBUTES None);
  entries <-- success r;
  match entries with
  | [entry] => ret entry
  | [] => fail AE_InvalidCredentials
  | _ => fail AE_Directory
  end.

Definition verify_password (dn password : list Z) : LM AuthError unit :=
  ldap <-- connect;
  r <-- answered AE_Unavailable (L_bind ldap dn password);
  unbind ldap;;
  if r.1.1 =? 0 then ret tt
  else if r.1.1 =? INVALID_CREDENTIALS then fail (bind_failure r.1.2)
  else fail AE_Directory.

(** [Vec::dedup] *)
Fixpoint dedup (l : list (list Z)) : list (list Z) :=
  match l with
  | [] => []
  | x :: l => match l with
              | [] => [x]
              | y :: _ => if bool_decide (x = y) then dedup l else x :: dedup l
              end
  end.

Fixpoint sids_of (values : list (list Z)) : option (list (list Z)) :=
  match values with
  | [] => Some []
  | v :: values => sid ← sid_from_bytes v; sids ← sids_of values; Some (sid :: sids)
  end.

Definition token_groups (ldap : nat) (dn : list Z) : LM AuthError (list (list Z)) :=
  r <-- answered AE_Unavailable (L_search ldap dn Base (lit "(objectClass=*)") [lit "tokenGroups"] None);
  entries <-- success r;
  groups <-- liftL (ok_or (sids_of (entries ≫= fun e => binary_values e (lit "tokenGroups"))) AE_Directory);
  ret (dedup (sort_by str_le groups)).

Definition refresh (now : Z) (sid : list Z) : LM AuthError (list (list Z)) :=
  let filter := lit "(&(objectCategory=person)(objectClass=user)(objectSid=" ++ escape_binary (sid_to_bytes sid) ++ lit ")"
                ++ default [] (cfg_user_filter config) ++ lit ")" in
  service_ <-- service;
  r <-- answered AE_Unavailable
          (L_search service_ (cfg_base_dn config) Subtree filter [lit "userAccountControl"; lit "accountExpires"] None);
  entries <-- success r;
  match head entries with
  | None => unbind service_;; fail AE_InvalidCredentials
  | Some entry =>
      let control := default 0 (first_text entry (lit "userAccountControl") ≫= parse_unsigned u32_max) in
      if negb (Z.land control ACCOUNT_DISABLED =? 0) then unbind service_;; fail AE_AccountDisabled
      else
        let expires := first_text entry (lit "accountExpires") ≫= parse_signed (2 ^ 63 - 1) in
        if expired expires now then unbind service_;; fail AE_AccountExpired
        else fun calls =>
          let '(groups, calls) := token_groups service_ (se_dn entry) calls in
          (groups, (@unbind AuthError service_ calls).2)
  end.

(** [slice::chunks] *)
Fixpoint chunks_go (fuel n : nat) (l : list (list Z)) : list (list (list Z)) :=
  match fuel, l with
  | O, _ | _, [] => []
  | S fuel, _ => take n l :: chunks_go fuel n (drop n l)
  end.

Definition chunks (n : nat) (l : list (list Z)) : list (list (list Z)) := chunks_go (length l) n l.

Fixpoint group_names_of (cs : list (list (list Z))) : LM AuthError (list DirGroup) :=
  match cs with
  | [] => ret []
  | chunk :: cs =>
      let any := chunk ≫= fun sid => lit "(objectSid=" ++ escape_binary (sid_to_bytes sid) ++ lit ")" in
      ldap <-- service;
      found <-- answered AE_Unavailable
                  (L_search ldap (cfg_base_dn config) Subtree (lit "(&(objectCategory=group)(|" ++ any ++ lit "))")
                     [lit "cn"; lit "objectSid"] None);
      unbind ldap;;
      if negb (found.1.1 =? 0) then fail AE_Directory
      else (rest <-- group_names_of cs; ret (omap group_of found.2 ++ rest))
  end.

Definition group_names (sids : list (list Z)) : LM AuthError (list DirGroup) := group_names_of (chunks 100 sids).

Definition kind_le (a b : PrincipalKind) : bool := match a, b with Kind_User, Kind_Group => false | _, _ => true end.

(** [(kind, name)] in order. *)
Definition principal_le (a b : DirPrincipal) : bool :=
  match dp_kind a, dp_kind b with
  | Kind_Group, Kind_User => true
  | Kind_User, Kind_Group => false
  | _, _ => str_le (to_lowercase (dp_name a)) (to_lowercase (dp_name b))
  end.

Definition search (query : list Z) (limit : Z) : LM AuthError (list DirPrincipal) :=
  if Z.of_nat (length (trim query)) <? 2 then ret []
  else
    groups <-- search_groups query limit;
    users <-- search_users query limit;
    ret (sort_by principal_le
      (((fun g => {| dp_kind := Kind_Group; dp_sid := dg_sid g; dp_name := dg_name g; dp_detail := None |}) <$> groups) ++ users)).

(** What the entry says of who signed in. *)
Definition identity_of (entry : SearchEntry) (groups : list (list Z)) : option Identity :=
  bytes ← first_binary entry (lit "objectSid"); sid ← sid_from_bytes bytes;
  guid ← filter_option (fun b => (length b =? 16)%nat) (first_binary entry (lit "objectGUID"));
  username ← first_text entry (lit "sAMAccountName");
  Some {| i_sid := sid; i_guid := uuid_from_bytes_le guid; i_username := username;
          i_upn := first_text entry (lit "userPrincipalName");
          i_display_name := default username (first_text entry (lit "displayName")); i_groups := groups |}.

Definition authenticate (username password : list Z) : LM AuthError Identity :=
  account <-- liftL (ok_or (account_parse username) AE_InvalidCredentials);
  (if bool_decide (password = []) then fail AE_InvalidCredentials else ret tt);;
  service_ <-- service;
  entry <-- find_user service_ account;
  verify_password (se_dn entry) password;;
  groups <-- token_groups service_ (se_dn entry);
  unbind service_;;
  liftL (ok_or (identity_of entry groups) AE_Directory).

Definition LAPS_ATTRIBUTES : list (list Z) :=
  [lit "sAMAccountName"; lit "dNSHostName"; lit "msLAPS-Password"; lit "ms-Mcs-AdmPwd"].

Definition laps_entry (e : SearchEntry) : LapsEntry :=
  {| le_dns := first_text e (lit "dNSHostName"); le_account := first_text e (lit "sAMAccountName");
     le_windows := first_text e (lit "msLAPS-Password"); le_legacy := first_text e (lit "ms-Mcs-AdmPwd") |}.

(** The search of [laps_password]. *)
Definition laps_search (filter : list Z) : LM AuthError (list LapsEntry) :=
  ldap <-- service;
  found <-- answered AE_Unavailable (L_search ldap (cfg_base_dn config) Subtree filter LAPS_ATTRIBUTES None);
  unbind ldap;;
  if negb (found.1.1 =? 0) then fail AE_Directory else ret (laps_entry <$> found.2).

Definition laps_lookup `{LapsJson} (host : list Z) : LM LapsError LapsPassword := fun calls =>
  match laps_filter host with
  | None => (Err (LE_ComputerNotFound host), calls)
  | Some filter => let '(found, calls) := laps_search filter calls in (directory_laps (fun _ => found) host, calls)
  end.

(** ** Theorems *)

(** *** Programs and their calls *)

Lemma run_bind {E A B} (m : LM E A) (k : A -> LM E B) calls b calls' :
  bindM m k calls = (Ok b, calls') -> exists a calls1, m calls = (Ok a, calls1) /\ k a calls1 = (Ok b, calls').
Proof. unfold bindM. destruct (m calls) as [[a|e] calls1]; [eauto|done]. Qed.

Lemma liftL_ok {E A} (r : result A E) calls a calls' : liftL r calls = (Ok a, calls') -> r = Ok a /\ calls' = calls.
Proof. by destruct r; intros [= -> ->]. Qed.

Lemma answered_ok {E} (e : E) c calls r calls' :
  answered e c calls = (Ok r, calls') -> ldap_answer calls c = L_result r.1.1 r.1.2 r.2 /\ calls' = calls ++ [c].
Proof.
  unfold answered, bindM, ask. destruct (ldap_answer calls c) as [|rc text entries]; [done|]. by intros [= <- <-].
Qed.

Lemma connect_ok calls n calls' : connect calls = (Ok n, calls') -> n = length calls /\ calls' = calls ++ [L_connect].
Proof. unfold connect, bindM, ask. destruct (ldap_answer calls L_connect); [done|]. by intros [= <- <-]. Qed.

Lemma success_ok r calls entries calls' : success r calls = (Ok entries, calls') -> r.1.1 = 0 /\ entries = r.2 /\ calls' = calls.
Proof. unfold success. destruct (r.1.1 =? 0) eqn:Hr; [|done]. intros [= <- <-]. by apply Z.eqb_eq in Hr. Qed.

Lemma unbind_ok {E} n calls u calls' : @unbind E n calls = (Ok u, calls') -> calls' = calls ++ [L_unbind n].
Proof. unfold unbind, bindM, ask. by intros [= _ <-]. Qed.

Lemma connect_run calls :
  connect calls = (match ldap_answer calls L_connect with L_failed => Err AE_Unavailable | L_result _ _ _ => Ok (length calls) end,
                   calls ++ [L_connect]).
Proof. unfold connect, bindM, ask. by destruct (ldap_answer _ _). Qed.

Lemma answered_run {E} (e : E) c calls :
  answered e c calls = (match ldap_answer calls c with L_failed => Err e | L_result rc text es => Ok (rc, text, es) end, calls ++ [c]).
Proof. unfold answered, bindM, ask. by destruct (ldap_answer _ _). Qed.

(** What [service] has asked when it has a connection. *)
Definition service_calls (n : nat) : list LdapCall :=
  [L_connect; L_bind n (cfg_bind_dn config) (cfg_bind_password config)].

Lemma service_ok calls n calls' : service calls = (Ok n, calls') -> n = length calls /\ calls' = calls ++ service_calls n.
Proof.
  unfold service. intros (x & c1 & [-> ->]%connect_ok & Hb)%run_bind.
  apply run_bind in Hb as (r & c2 & [_ ->]%answered_ok & Hb). apply run_bind in Hb as (es & c3 & (_ & _ & ->)%success_ok & Hb).
  injection Hb as <- <-. split; [done|]. by rewrite <- app_assoc.
Qed.

Lemma service_run calls :
  match (service calls).1 with
  | Ok n => service calls = (Ok (length calls), calls ++ service_calls (length calls))
  | Err e => e = AE_Unavailable \/ e = AE_Directory
  end.
Proof.
  destruct (service calls) as [[n|e] c1] eqn:Es; simpl; [by destruct (service_ok _ _ _ Es) as [-> ->]|]. revert Es.
  unfold service, bindM. rewrite connect_run. destruct (ldap_answer calls L_connect) as [|code0 text0 found0]; [by intros [= <- _]; left|].
  rewrite answered_run. destruct (ldap_answer _ (L_bind _ _ _)) as [|code text found]; [by intros [= <- _]; left|]. unfold success. simpl.
  destruct (code =? 0); [done|]. by intros [= <- _]; right.
Qed.

(** Every call a program makes, after those before it. *)
Definition asks_from (P : list LdapCall -> LdapCall -> Prop) {E A} (m : LM E A) (calls : list LdapCall) : Prop :=
  exists new, (m calls).2 = calls ++ new /\ forall pre c post, new = pre ++ c :: post -> P (calls ++ pre) c.

Lemma asks_bind P {E A B} (m : LM E A) (k : A -> LM E B) calls :
  asks_from P m calls -> (forall a calls1, m calls = (Ok a, calls1) -> asks_from P (k a) calls1) ->
  asks_from P (bindM m k) calls.
Proof.
  intros (new & Hm & Hp) Hk. unfold asks_from, bindM in *. destruct (m calls) as [[a|e] calls1] eqn:Em; simpl in *; [|by exists new].
  destruct (Hk a calls1 eq_refl) as (new2 & Hk2 & Hp2). subst calls1. exists (new ++ new2). split; [by rewrite app_assoc|].
  intros pre c post Hsplit. apply app_eq_inv in Hsplit as [(l & -> & Hn)|(l & -> & Hn)].
  - destruct l as [|x l]; simpl in Hn.
    + specialize (Hp2 [] c post (eq_sym Hn)). by rewrite !app_nil_r in Hp2.
    + injection Hn as <- _. by eapply Hp.
  - rewrite app_assoc. by eapply Hp2.
Qed.

Lemma asks_nothing P {E A} (m : LM E A) calls : (m calls).2 = calls -> asks_from P m calls.
Proof. intros Hm. exists []. split; [by rewrite Hm, app_nil_r|]. by intros []. Qed.

Lemma asks_one P {E A} (m : LM E A) calls c : (m calls).2 = calls ++ [c] -> P calls c -> asks_from P m calls.
Proof.
  intros Hm Hc. exists [c]. split; [done|]. intros [|x pre] c' post; intros [= <- Hp]; [by rewrite app_nil_r|].
  by destruct pre.
Qed.

(** *** Signing in *)

(** The question for the one entry of an account. *)
Definition user_search (n : nat) (account : LdapAccount) : LdapCall :=
  L_search n (cfg_base_dn config) Subtree (user_filter account (cfg_user_filter config)) USER_ATTRIBUTES None.

Definition groups_search (n : nat) (dn : list Z) : LdapCall :=
  L_search n dn Base (lit "(objectClass=*)") [lit "tokenGroups"] None.

Lemma find_user_ok n account calls entry calls' :
  find_user n account calls = (Ok entry, calls') ->
  calls' = calls ++ [user_search n account] /\ exists text, ldap_answer calls (user_search n account) = L_result 0 text [entry].
Proof.
  unfold find_user. intros (r & c1 & [Ha ->]%answered_ok & Hb)%run_bind.
  apply run_bind in Hb as (es & c2 & (Hrc & -> & ->)%success_ok & Hb).
  destruct r as [[rc text] [|e [|e' es]]]; try done. injection Hb as <- <-. simpl in *. subst rc. split; [done|]. by exists text.
Qed.

Lemma verify_password_ok dn password calls u calls' :
  verify_password dn password calls = (Ok u, calls') ->
  let n := length calls in
  calls' = calls ++ [L_connect; L_bind n dn password; L_unbind n]
  /\ exists text es, ldap_answer (calls ++ [L_connect]) (L_bind n dn password) = L_result 0 text es.
Proof.
  unfold verify_password. intros (n & c1 & [-> ->]%connect_ok & Hb)%run_bind. cbv zeta.
  apply run_bind in Hb as (r & c2 & [Ha ->]%answered_ok & Hb). apply run_bind in Hb as ([] & c3 & ->%unbind_ok & Hb).
  destruct (r.1.1 =? 0) eqn:Hr; [|by destruct (r.1.1 =? INVALID_CREDENTIALS)]. apply Z.eqb_eq in Hr. injection Hb as _ <-.
  rewrite Hr in Ha. split; [by rewrite <- !app_assoc|]. by eexists _, _.
Qed.

(** The SIDs of a text, without repetitions and in order. *)
Lemma elem_of_dedup l x : x ∈ dedup l <-> x ∈ l.
Proof.
  induction l as [|y l IH]; [done|]. cbn [dedup]. destruct l as [|z l]; [done|].
  case_bool_decide as Heq; [|by rewrite !(elem_of_cons _ x y), IH]. rewrite IH. rewrite !elem_of_cons. subst z. tauto.
Qed.

Lemma token_groups_ok n dn calls groups calls' :
  token_groups n dn calls = (Ok groups, calls') ->
  calls' = calls ++ [groups_search n dn]
  /\ exists text entries sids, ldap_answer calls (groups_search n dn) = L_result 0 text entries
       /\ sids_of (entries ≫= fun e => binary_values e (lit "tokenGroups")) = Some sids
       /\ groups = dedup (sort_by str_le sids).
Proof.
  unfold token_groups. intros (r & c1 & [Ha ->]%answered_ok & Hb)%run_bind.
  apply run_bind in Hb as (es & c2 & (Hrc & -> & ->)%success_ok & Hb).
  apply run_bind in Hb as (sids & c3 & [Hs ->]%liftL_ok & Hb). injection Hb as <- <-. split; [done|].
  rewrite Hrc in Ha. exists r.1.2, r.2, sids. split_and!; try done. by destruct (sids_of _); simplify_eq/=.
Qed.

Lemma token_groups_err n dn calls e calls' :
  token_groups n dn calls = (Err e, calls') -> e = AE_Unavailable \/ e = AE_Directory.
Proof.
  unfold token_groups, bindM. rewrite answered_run. destruct (ldap_answer _ _) as [|code text found]; [by intros [= <- _]; left|].
  unfold success. cbn [fst snd]. destruct (code =? 0); simpl; [|by intros [= <- _]; right].
  destruct (sids_of _); simpl; [done|]. by intros [= <- _]; right.
Qed.

Lemma sids_of_spec values sids :
  sids_of values = Some sids -> forall sid, sid ∈ sids <-> exists v, v ∈ values /\ sid_from_bytes v = Some sid.
Proof.
  revert sids. induction values as [|v values IH]; intros sids.
  { intros [= <-] sid. split; [by intros ?%elem_of_nil|]. by intros (v & ?%elem_of_nil & _). }
  simpl. destruct (sid_from_bytes v) as [x|] eqn:Hv; [|done]. simpl. destruct (sids_of values) as [xs|]; [|done]. simpl.
  intros [= <-] sid. rewrite elem_of_cons, (IH xs eq_refl). split.
  - intros [->|(v' & Hin & Hs)]; [exists v; split; [by left|done]|exists v'; split; [by right|done]].
  - intros (v' & [->|Hin]%elem_of_cons & Hs); [left; congruence|right; by exists v'].
Qed.

(** Whoever signs in is the one entry the directory has for exactly the name
    typed, the directory took the password, which is not empty, for that entry
    on a connection of its own, and the groups are all of the entry's, each
    once. *)
Theorem identity_is_the_entrys (username password : list Z) (calls : list LdapCall) (who : Identity) (calls' : list LdapCall) :
  authenticate username password calls = (Ok who, calls') ->
  let s := length calls in let u := (s + 3)%nat in
  password <> [] /\ exists account entry,
    account_parse username = Some account
    /\ calls' = calls ++ service_calls s ++ [user_search s account; L_connect; L_bind u (se_dn entry) password; L_unbind u;
                                             groups_search s (se_dn entry); L_unbind s]
    /\ (exists text, ldap_answer (calls ++ service_calls s) (user_search s account) = L_result 0 text [entry])
    /\ (exists text es, ldap_answer (calls ++ service_calls s ++ [user_search s account; L_connect])
                          (L_bind u (se_dn entry) password) = L_result 0 text es)
    /\ identity_of entry (i_groups who) = Some who
    /\ (exists before text entries, ldap_answer before (groups_search s (se_dn entry)) = L_result 0 text entries
          /\ forall sid, sid ∈ i_groups who <->
               exists v, v ∈ (entries ≫= fun e => binary_values e (lit "tokenGroups")) /\ sid_from_bytes v = Some sid).
Proof.
  unfold authenticate. intros (account & c1 & [Hacc ->]%liftL_ok & Hb)%run_bind. cbv zeta.
  apply run_bind in Hb as ([] & c2 & Hpw & Hb). case_bool_decide as Hne; [done|]. injection Hpw as <-.
  apply run_bind in Hb as (n & c3 & [-> ->]%service_ok & Hb). apply run_bind in Hb as (entry & c4 & [-> (text & Hfound)]%find_user_ok & Hb).
  apply run_bind in Hb as ([] & c5 & [-> (text' & es & Hbind)]%verify_password_ok & Hb).
  apply run_bind in Hb as (groups & c6 & [-> (text'' & entries & sids & Hg & Hsids & Hgr)]%token_groups_ok & Hb).
  apply run_bind in Hb as ([] & c7 & ->%unbind_ok & Hb). apply liftL_ok in Hb as [Hid ->]. split; [done|].
  exists account, entry.
  assert (Hu : length ((calls ++ service_calls (length calls)) ++ [user_search (length calls) account]) = (length calls + 3)%nat).
  { rewrite !length_app. simpl. lia. }
  rewrite Hu in *. rewrite <- !app_assoc in *. simpl in *.
  assert (Hid' : identity_of entry groups = Some who) by (by destruct (identity_of entry groups); simplify_eq/=).
  assert (Hwho : i_groups who = groups).
  { unfold identity_of in Hid'. repeat (match type of Hid' with (?o ≫= _) = _ => destruct o; [simpl in Hid'|done] end).
    by injection Hid' as <-. }
  split_and!; try done.
  - by destruct (account_parse username); simplify_eq/=.
  - by exists text.
  - by exists text', es.
  - by rewrite Hwho.
  - eexists _, text'', entries. split; [exact Hg|]. intros sid. rewrite Hwho, Hgr, elem_of_dedup, elem_of_sort_by.
    by apply sids_of_spec.
Qed.

(** A bind with the service's own account, or with the typed password as the
    one entry that was found for the typed name, on the connection just
    opened. *)
Definition bind_is_right (username password : list Z) (before : list LdapCall) (c : LdapCall) : Prop :=
  match c with
  | L_bind n dn pw =>
      (dn = cfg_bind_dn config /\ pw = cfg_bind_password config)
      \/ (pw = password /\ password <> [] /\ last before = Some L_connect /\ n = Nat.pred (length before)
          /\ exists pre account entry text, account_parse username = Some account
               /\ before = pre ++ [user_search (length pre - 2) account; L_connect]
               /\ ldap_answer pre (user_search (length pre - 2) account) = L_result 0 text [entry] /\ dn = se_dn entry)
  | _ => True
  end.

Lemma answered_asks P {E} (e : E) c calls : P calls c -> asks_from P (answered e c) calls.
Proof.
  intros Hc. apply (asks_one P _ _ c); [|done]. unfold answered, bindM, ask. by destruct (ldap_answer calls c).
Qed.

Lemma unbind_asks P {E} n calls : P calls (L_unbind n) -> asks_from P (@unbind E n) calls.
Proof. intros Hc. by apply (asks_one P _ _ (L_unbind n)). Qed.

Lemma connect_asks P calls : P calls L_connect -> asks_from P connect calls.
Proof. intros Hc. apply (asks_one P _ _ L_connect); [|done]. unfold connect, bindM, ask. by destruct (ldap_answer _ _). Qed.

Lemma success_asks P r calls : asks_from P (success r) calls.
Proof. apply asks_nothing. unfold success. by destruct (_ =? 0). Qed.

Lemma liftL_asks P {E A} (r : result A E) calls : asks_from P (liftL r) calls.
Proof. apply asks_nothing. by destruct r. Qed.

Lemma service_asks username password calls : asks_from (bind_is_right username password) service calls.
Proof.
  unfold service. apply asks_bind; [by apply connect_asks|]. intros n c1 _.
  apply asks_bind; [apply answered_asks; by left|]. intros r c2 _. apply asks_bind; [apply success_asks|].
  intros es c3 _. by apply asks_nothing.
Qed.

(** C16: Whatever a directory answers, a sign-in binds with the service's
    password only as the service's account, and sends the typed password, never
    an empty one, only in a bind as the one entry found for the typed name, on
    a connection opened for it. *)
Theorem password_goes_only_to_its_entry (username password : list Z) (calls : list LdapCall) :
  asks_from (bind_is_right username password) (authenticate username password) calls.
Proof.
  unfold authenticate. apply asks_bind; [apply liftL_asks|]. intros account c1 [Hacc ->]%liftL_ok.
  apply asks_bind; [apply asks_nothing; by case_bool_decide|]. intros [] c2 Hpw. case_bool_decide as Hne; [done|].
  injection Hpw as <-. apply asks_bind; [apply service_asks|]. intros n c3 [-> ->]%service_ok.
  apply asks_bind.
  { unfold find_user. apply asks_bind; [by apply answered_asks|]. intros r c4 _. apply asks_bind; [apply success_asks|].
    intros es c5 _. apply asks_nothing. by destruct es as [|? []]. }
  intros entry c4 [-> (text & Hfound)]%find_user_ok. apply asks_bind.
  { unfold verify_password. apply asks_bind; [by apply connect_asks|]. intros u c5 [-> ->]%connect_ok.
    apply asks_bind.
    - apply answered_asks. right. split_and!; try done.
      + by rewrite last_snoc.
      + rewrite !length_app. simpl. lia.
      + exists (calls ++ service_calls (length calls)), account, entry, text.
        assert (Hl : (length (calls ++ service_calls (length calls)) - 2)%nat = length calls).
        { rewrite length_app. simpl. lia. }
        rewrite Hl. split_and!; [by destruct (account_parse username); simplify_eq/=|by rewrite <- !app_assoc|done|done].
    - intros r c6 _. apply asks_bind; [by apply unbind_asks|]. intros [] c7 _. apply asks_nothing.
      destruct (r.1.1 =? 0); [done|]. by destruct (_ =? INVALID_CREDENTIALS). }
  intros [] c5 _. apply asks_bind.
  { unfold token_groups. apply asks_bind; [by apply answered_asks|]. intros r c6 _. apply asks_bind; [apply success_asks|].
    intros es c7 _. apply asks_bind; [apply liftL_asks|]. intros sids c8 _. by apply asks_nothing. }
  intros groups c6 _. apply asks_bind; [by apply unbind_asks|]. intros [] c7 _. apply liftL_asks.
Qed.

(** *** Asking again *)

(** What the entry of a running session must be like. *)
Definition still_valid (now : Z) (entry : SearchEntry) : Prop :=
  Z.land (default 0 (first_text entry (lit "userAccountControl") ≫= parse_unsigned u32_max)) ACCOUNT_DISABLED = 0
  /\ expired (first_text entry (lit "accountExpires") ≫= parse_signed (2 ^ 63 - 1)) now = false.

Definition sid_search (n : nat) (sid : list Z) : LdapCall :=
  L_search n (cfg_base_dn config) Subtree
    (lit "(&(objectCategory=person)(objectClass=user)(objectSid=" ++ escape_binary (sid_to_bytes sid) ++ lit ")"
       ++ default [] (cfg_user_filter config) ++ lit ")") [lit "userAccountControl"; lit "accountExpires"] None.

(** A running session keeps its user only if the directory still has an
    entry for the SID that matches the filter, and it is neither disabled nor
    expired; the groups are then all of that entry's. An answer that is missing
    is told apart from one that refuses. *)
Theorem refresh_exact (now : Z) (sid : list Z) (calls : list LdapCall) :
  let s := length calls in
  match (refresh now sid calls).1 with
  | Ok groups =>
      exists text entry entries before text' es,
        ldap_answer (calls ++ service_calls s) (sid_search s sid) = L_result 0 text (entry :: entries)
        /\ still_valid now entry
        /\ ldap_answer before (groups_search s (se_dn entry)) = L_result 0 text' es
        /\ forall g, g ∈ groups <-> exists v, v ∈ (es ≫= fun e => binary_values e (lit "tokenGroups")) /\ sid_from_bytes v = Some g
  | Err (AE_Unavailable | AE_Directory) => True
  | Err e =>
      exists text entries, ldap_answer (calls ++ service_calls s) (sid_search s sid) = L_result 0 text entries
        /\ match head entries with
           | None => e = AE_InvalidCredentials
           | Some entry => ~ still_valid now entry /\ (e = AE_AccountDisabled \/ e = AE_AccountExpired)
           end
  end.
Proof.
  cbv zeta. unfold refresh. fold (sid_search (length calls) sid).
  pose proof (service_run calls) as Hsv.
  unfold bindM at 1. destruct (service calls) as [[n|e] c1] eqn:Es; simpl in Hsv; [|by destruct Hsv as [-> | ->]].
  injection Hsv as -> ->. unfold bindM at 1, answered at 1, bindM at 1, ask at 1. fold (sid_search (length calls) sid).
  destruct (ldap_answer _ (sid_search _ _)) as [|rc text entries] eqn:Ha; [done|]. cbn [ret fst snd].
  unfold bindM at 1, success at 1. cbn [fst snd]. destruct (rc =? 0) eqn:Hrc; [|done]. apply Z.eqb_eq in Hrc as ->. cbn [ret].
  destruct entries as [|entry entries]; cbn [head].
  { cbn. by exists text, []. }
  destruct (Z.land _ ACCOUNT_DISABLED =? 0) eqn:Hd; simpl negb; cbn [negb].
  2: { cbn. exists text, (entry :: entries). split; [done|]. split; [|by left]. intros [Hz _]. by rewrite Hz in Hd. }
  cbv zeta. destruct (expired _ now) eqn:Hx.
  { cbn. exists text, (entry :: entries). split; [done|]. split; [|by right]. intros [_ Hz]. by rewrite Hz in Hx. }
  destruct (token_groups _ _ _) as [[groups|e] c2] eqn:Eg; cbn [fst].
  - apply token_groups_ok in Eg as [_ (text' & es & sids & Hg & Hs & ->)].
    eexists text, entry, entries, _, text', es. split_and!; [done|split; [by apply Z.eqb_eq|done]|exact Hg|].
    intros g. rewrite elem_of_dedup, elem_of_sort_by. by apply sids_of_spec.
  - by destruct (token_groups_err _ _ _ _ _ Eg) as [-> | ->].
Qed.
End ldap.

(** *** Filters

    A reader of filters as RFC 4515 writes them, without [:=] apart: what the
    server understands of a text. *)

Inductive LdapFilter := F_and (l : list LdapFilter) | F_or (l : list LdapFilter) | F_not (f : LdapFilter) | F_item (attribute value : list Z).

Definition read_item (s : list Z) : option (LdapFilter * list Z) :=
  '(raw, s) ← split_once 41 s;
  if bool_decide (40 ∈ raw) then None
  else '(attribute, value) ← split_once 61 raw; Some (F_item attribute value, s).

Fixpoint read_filter (fuel : nat) (s : list Z) {struct fuel} : option (LdapFilter * list Z) :=
  match fuel, s with
  | S fuel, o :: c :: rest =>
      if negb (o =? 40) then None
      else if c =? 38 then '(l, s) ← read_list fuel rest; Some (F_and l, s)
      else if c =? 124 then '(l, s) ← read_list fuel rest; Some (F_or l, s)
      else if c =? 33 then
        '(x, s) ← read_filter fuel rest;
        match s with e :: s => if e =? 41 then Some (F_not x, s) else None | [] => None end
      else read_item (c :: rest)
  | _, _ => None
  end
with read_list (fuel : nat) (s : list Z) {struct fuel} : option (list LdapFilter * list Z) :=
  match fuel, s with
  | S fuel, c :: rest =>
      if c =? 41 then Some ([], rest)
      else '(x, s) ← read_filter fuel s; '(l, s) ← read_list fuel s; Some (x :: l, s)
  | _, _ => None
  end.

Definition hex_value (c : Z) : option Z :=
  if (48 <=? c) && (c <=? 57) then Some (c - 48)
  else if (97 <=? c) && (c <=? 102) then Some (c - 87)
  else if (65 <=? c) && (c <=? 70) then Some (c - 55) else None.

(** The bytes an equality asks for; none if the value is a pattern. *)
Fixpoint value_bytes (raw : list Z) : option (list Z) :=
  match raw with
  | [] => Some []
  | c :: rest =>
      if c =? 92 then
        match rest with
        | a :: b :: rest => x ← hex_value a; y ← hex_value b; bytes ← value_bytes rest; Some (16 * x + y :: bytes)
        | _ => None
        end
      else if c =? 42 then None
      else bytes ← value_bytes rest; Some (utf8 [c] ++ bytes)
  end.

(** What the documentation of [ldap_escape] says: the text is a value that
    stands for exactly what it was made of. *)
Class LdapEscapeOk `{LdapEscape} : Prop :=
  ldap_escape_ok s : value_bytes (ldap_escape s) = Some (utf8 s) /\ (40 ∉ ldap_escape s) /\ (41 ∉ ldap_escape s).

Lemma split_once_more c s t a b : split_once c s = Some (a, b) -> split_once c (s ++ t) = Some (a, b ++ t).
Proof.
  revert a b. induction s as [|x s IH]; intros a b; [done|]. simpl. destruct (x =? c); [by intros [= <- <-]|].
  destruct (split_once c s) as [[a' b']|]; [|done]. intros [= <- <-]. by rewrite (IH a' b').
Qed.

Lemma read_item_more s x r t : read_item s = Some (x, r) -> read_item (s ++ t) = Some (x, r ++ t).
Proof.
  unfold read_item. destruct (split_once 41 s) as [[raw r']|] eqn:E; [|done]. simpl. rewrite (split_once_more _ _ t _ _ E). simpl.
  case_bool_decide; [done|]. destruct (split_once 61 raw) as [[a v]|]; [|done]. simpl. by intros [= <- <-].
Qed.

(** More fuel and more text change nothing of what was read. *)
Lemma read_more fuel :
  (forall s x r, read_filter fuel s = Some (x, r) -> forall fuel' t, (fuel <= fuel')%nat -> read_filter fuel' (s ++ t) = Some (x, r ++ t))
  /\ (forall s l r, read_list fuel s = Some (l, r) -> forall fuel' t, (fuel <= fuel')%nat -> read_list fuel' (s ++ t) = Some (l, r ++ t)).
Proof.
  induction fuel as [|fuel [IHf IHl]]; [done|]. split.
  - intros s x r Hs [|fuel'] t Hle; [lia|]. simpl in *. destruct s as [|o [|c rest]]; [done..|]. simpl.
    destruct (negb (o =? 40)); [done|].
    destruct (c =? 38); [|destruct (c =? 124); [|destruct (c =? 33)]].
    + destruct (read_list fuel rest) as [[l r']|] eqn:E; [|done]. simpl in Hs. injection Hs as <- <-.
      by rewrite (IHl _ _ _ E fuel' t) by lia.
    + destruct (read_list fuel rest) as [[l r']|] eqn:E; [|done]. simpl in Hs. injection Hs as <- <-.
      by rewrite (IHl _ _ _ E fuel' t) by lia.
    + destruct (read_filter fuel rest) as [[f r']|] eqn:E; [|done]. simpl in Hs. rewrite (IHf _ _ _ E fuel' t) by lia. simpl.
      destruct r' as [|e r']; [done|]. simpl. destruct (e =? 41); [|done]. by injection Hs as <- <-.
    + exact (read_item_more (c :: rest) x r t Hs).
  - intros s l r Hs [|fuel'] t Hle; [lia|]. simpl in *. destruct s as [|c rest]; [done|]. cbn [app].
    destruct (c =? 41); [by injection Hs as <- <-|].
    destruct (read_filter fuel (c :: rest)) as [[f r']|] eqn:E; [|done]. simpl in Hs.
    pose proof (IHf _ _ _ E fuel' t ltac:(lia)) as E'. cbn [app] in E'. rewrite E'. simpl.
    destruct (read_list fuel r') as [[fs r'']|] eqn:El; [|done]. simpl in Hs. rewrite (IHl _ _ _ El fuel' t) by lia.
    by injection Hs as <- <-.
Qed.

Lemma not_in_between (x y : Z) (a b : list Z) : x ∉ a -> x <> y -> x ∉ b -> x ∉ a ++ y :: b.
Proof. intros Ha Hy Hb [Hin|[Hin|Hin]%elem_of_cons]%elem_of_app; by auto. Qed.

Lemma read_item_text f c attribute raw t :
  c <> 38 -> c <> 124 -> c <> 33 -> c <> 61 ->
  Forall (fun x => x <> 40 /\ x <> 41 /\ x <> 61) (c :: attribute) -> 40 ∉ raw -> 41 ∉ raw ->
  read_filter (S f) (40 :: c :: attribute ++ 61 :: raw ++ 41 :: t) = Some (F_item (c :: attribute) raw, t).
Proof.
  intros H38 H124 H33 H61 Ha Ho Hc. simpl. rewrite !(proj2 (Z.eqb_neq _ _)) by done. unfold read_item.
  assert (Hs : split_once 41 (c :: attribute ++ 61 :: raw ++ 41 :: t) = Some (c :: attribute ++ 61 :: raw, t)).
  { change (c :: attribute ++ 61 :: raw ++ 41 :: t) with ((c :: attribute) ++ 61 :: raw ++ 41 :: t).
    replace ((c :: attribute) ++ 61 :: raw ++ 41 :: t) with (((c :: attribute) ++ 61 :: raw) ++ 41 :: t) by (by rewrite <- app_assoc).
    rewrite Forall_forall in Ha. apply split_once_app. apply (not_in_between 41 61 (c :: attribute) raw); [|done|done].
    intros Hin. by apply Ha in Hin as (_ & ? & _). }
  rewrite Hs. simpl. rewrite bool_decide_eq_false_2.
  2: { rewrite Forall_forall in Ha. apply (not_in_between 40 61 (c :: attribute) raw); [|done|done].
       intros Hin. by apply Ha in Hin as (? & _ & _). }
  assert (Hi : split_once 61 (c :: attribute ++ 61 :: raw) = Some (c :: attribute, raw)); [|by simpl in *; rewrite Hi].
  apply (split_once_app 61 (c :: attribute) raw).
  rewrite Forall_forall in Ha. intros Hin. by apply Ha in Hin as (_ & _ & ?).
Qed.

Lemma read_list_cons f x s r l r' :
  head s <> Some 41 -> read_filter f s = Some (x, r) -> read_list f r = Some (l, r') -> read_list (S f) s = Some (x :: l, r').
Proof.
  intros Hh Hx Hl. destruct s as [|c s]; [by destruct f|]. cbn [read_list]. destruct (c =? 41) eqn:Hc.
  { apply Z.eqb_eq in Hc as ->. done. }
  by rewrite Hx; simpl; rewrite Hl.
Qed.

(** The attribute an account is found by. *)
Definition account_attribute (a : LdapAccount) : list Z :=
  match a with Sam _ => lit "sAMAccountName" | Upn _ => lit "userPrincipalName" end.

(** C34: Whatever name is typed, the question to the directory is the one for a
    person with exactly that name under exactly the settings' filter: nothing
    typed becomes part of the question. *)
Theorem name_stays_a_name `{LdapEscape} `{!LdapEscapeOk} (account : LdapAccount) (extra : option (list Z))
    (extras : list LdapFilter) (fuel : nat) :
  match extra with
  | None => extras = []
  | Some e => exists x, extras = [x] /\ read_filter fuel e = Some (x, [])
  end ->
  exists raw, value_bytes raw = Some (utf8 (account_name account))
    /\ read_filter (fuel + 9) (user_filter account extra)
       = Some (F_and ([F_item (lit "objectCategory") (lit "person"); F_item (lit "objectClass") (lit "user");
                       F_item (account_attribute account) raw] ++ extras), []).
Proof.
  intros Hextra. exists (ldap_escape (account_name account)). destruct (ldap_escape_ok (account_name account)) as (Hv & Ho & Hc).
  split; [exact Hv|].
  assert (Hplain : forall a, forallb (fun x => negb (x =? 40) && negb (x =? 41) && negb (x =? 61)) a = true ->
    Forall (fun x => x <> 40 /\ x <> 41 /\ x <> 61) a).
  { intros a Hf. apply Forall_forall. intros x Hx. rewrite forallb_forall in Hf. specialize (Hf x (proj1 (list_elem_of_In _ _) Hx)).
    apply andb_true_iff in Hf as [[?%negb_true_iff ?%negb_true_iff]%andb_true_iff ?%negb_true_iff].
    rewrite Z.eqb_neq in *. done. }
  assert (Hrest : exists r, default [] extra ++ [41] = r /\ read_list (fuel + 5) r = Some (extras, [])).
  { destruct extra as [e|]; simpl.
    - destruct Hextra as (x & -> & Hx). eexists. split; [done|]. replace (fuel + 5)%nat with (S (fuel + 4)) by lia.
      apply (read_list_cons _ _ _ [41]).
      + destruct fuel; [done|]. destruct e as [|o e]; [done|]. simpl in Hx. destruct e as [|c e]; [done|]. simpl.
        destruct (o =? 40) eqn:Ho40; [|done]. apply Z.eqb_eq in Ho40 as ->. done.
      + destruct (read_more fuel) as [Hm _]. apply (Hm _ _ _ Hx). lia.
      + by replace (fuel + 4)%nat with (S (fuel + 3)) by lia.
    - subst extras. exists [41]. split; [done|]. by replace (fuel + 5)%nat with (S (fuel + 4)) by lia. }
  destruct Hrest as (r & Hr & Hl). replace (fuel + 9)%nat with (S (S (S (S (fuel + 5))))) by lia.
  assert (Hname : exists c a, account_attribute account = c :: a
    /\ user_filter account extra = 40 :: 38 :: (40 :: (lit "objectCategory" ++ 61 :: lit "person" ++ 41 ::
         (40 :: (lit "objectClass" ++ 61 :: lit "user" ++ 41 ::
           (40 :: c :: a ++ 61 :: ldap_escape (account_name account) ++ 41 :: r)))))
    /\ c <> 38 /\ c <> 124 /\ c <> 33 /\ c <> 61 /\ Forall (fun x => x <> 40 /\ x <> 41 /\ x <> 61) (c :: a)).
  { destruct account as [n|n]; (eexists _, _; split; [reflexivity|]; split;
      [unfold user_filter; rewrite <- Hr; simpl; rewrite <- !app_assoc; reflexivity|]); split_and!; try done; by apply Hplain. }
  destruct Hname as (c & a & -> & -> & H38 & H124 & H33 & H61 & Ha).
  set (value := ldap_escape (account_name account)) in *. set (n := (fuel + 5)%nat) in *.
  match goal with |- read_filter _ (40 :: 38 :: ?text) = _ =>
    assert (Hx : read_list (S (S (S n))) text = Some ([F_item (lit "objectCategory") (lit "person");
      F_item (lit "objectClass") (lit "user"); F_item (c :: a) value] ++ extras, [])) end.
  { cbn [app]. eapply read_list_cons; [done| |].
    { apply (read_item_text _ 111 (lit "bjectCategory") (lit "person")); try done; [by apply Hplain|..];
        match goal with |- ?P => apply (bool_decide_eq_true_1 P) end; vm_compute; reflexivity. }
    eapply read_list_cons; [done| |].
    { apply (read_item_text _ 111 (lit "bjectClass") (lit "user")); try done; [by apply Hplain|..];
        match goal with |- ?P => apply (bool_decide_eq_true_1 P) end; vm_compute; reflexivity. }
    eapply read_list_cons; [done| |exact Hl]. unfold n. replace (fuel + 5)%nat with (S (fuel + 4)) by lia.
    by apply read_item_text. }
  cbn [read_filter]. change (negb (40 =? 40)) with false. cbv iota. change (38 =? 38) with true. cbv iota. by rewrite Hx.
Qed.

(** A SID is asked for by exactly its bytes. *)
Theorem sid_asked_for_exactly (bytes : list Z) : Forall byte bytes -> value_bytes (escape_binary bytes) = Some bytes.
Proof.
  induction 1 as [|b bytes Hb _ IH]; [done|]. change (escape_binary (b :: bytes)) with
    (92 :: hex_digit (b / 16) :: hex_digit (b mod 16) :: escape_binary bytes).
  assert (Hx : forall n, 0 <= n < 16 -> hex_value (hex_digit n) = Some n).
  { intros n Hn. unfold hex_digit. destruct (n <? 10) eqn:Hlt; unfold hex_value.
    - assert (E : (48 <=? 48 + n) && (48 + n <=? 57) = true) by lia. rewrite E. f_equal. lia.
    - assert (E : (48 <=? 87 + n) && (87 + n <=? 57) = false) by lia.
      assert (E' : (97 <=? 87 + n) && (87 + n <=? 102) = true) by lia. rewrite E, E'. f_equal. lia. }
  cbn [value_bytes]. change (92 =? 92) with true. cbv iota. unfold byte in Hb.
  rewrite (Hx (b / 16)) by (split; [apply Z.div_pos; lia|apply Z.div_lt_upper_bound; lia]).
  rewrite (Hx (b mod 16)) by (apply Z.mod_pos_bound; lia). cbn. rewrite IH. cbn. do 2 f_equal.
  pose proof (Z.div_mod b 16 ltac:(lia)). lia.
Qed.

(** ** Examples *)

Module LdapExamples.

Definition special (c : Z) : bool := existsb (Z.eqb c) [0; 40; 41; 42; 92].

(** What [ldap_escape] does. *)
#[local] Instance escaping : LdapEscape := fun s => s ≫= fun c => if special c then escape_binary [c] else [c].

#[local] Instance escaping_ok : LdapEscapeOk.
Proof.
  intros s. unfold ldap_escape, escaping. induction s as [|c s (Hv & Ho & Hc)]; [split_and!; [done|by intros ?%elem_of_nil..]|].
  rewrite bind_cons. destruct (special c) eqn:Hs.
  - apply existsb_exists in Hs as (x & Hx & ->%Z.eqb_eq). apply list_elem_of_In in Hx.
    assert (Hone : value_bytes (escape_binary [x]) = Some [x] /\ utf8 [x] = [x]
      /\ forall y, y = 40 \/ y = 41 -> y ∉ escape_binary [x]).
    { repeat (apply elem_of_cons in Hx as [->|Hx]); [..|by apply elem_of_nil in Hx];
        (split_and!; [vm_compute; reflexivity..|intros y [->| ->]; match goal with |- ?P => apply (bool_decide_eq_true_1 P) end; vm_compute; reflexivity]). }
    destruct Hone as (Hb & Hu & Hno). split_and!.
    + assert (Happ : forall r, value_bytes (escape_binary [x] ++ r) = (fun bytes => [x] ++ bytes) <$> value_bytes r).
      { intros r. revert Hb. cbn [escape_binary app value_bytes]. unfold escape_binary. simpl.
        destruct (hex_value (hex_digit (x / 16))); simpl; [|done]. destruct (hex_value (hex_digit (x mod 16))); simpl; [|done].
        intros [= <-]. by destruct (value_bytes r). }
      rewrite Happ, Hv, (utf8_app [x] s : utf8 (x :: s) = _), Hu. done.
    + rewrite elem_of_app. intros [Hin|Hin]; [|done]. by apply (Hno 40); [left|].
    + rewrite elem_of_app. intros [Hin|Hin]; [|done]. by apply (Hno 41); [right|].
  - assert (Hne : forall y, y ∈ [0; 40; 41; 42; 92] -> c <> y).
    { intros y Hy ->. assert (special y = true); [|congruence]. apply existsb_exists. exists y. split; [by apply list_elem_of_In|lia]. }
    split_and!.
    + rewrite (utf8_app [c] s : utf8 (c :: s) = _). cbn [app value_bytes].
      rewrite !(proj2 (Z.eqb_neq _ _)) by (apply Hne; set_solver). by rewrite Hv.
    + rewrite elem_of_app, list_elem_of_singleton. intros [Hin|Hin]; [|done]. subst c. by apply (Hne 40); [set_solver|].
    + rewrite elem_of_app, list_elem_of_singleton. intros [Hin|Hin]; [|done]. subst c. by apply (Hne 41); [set_solver|].
Qed.

Lemma name_stays_a_name_witness :
  exists raw, value_bytes raw = Some (lit "*)(cn=*")
    /\ read_filter 9 (user_filter (Sam (lit "*)(cn=*")) None)
       = Some (F_and [F_item (lit "objectCategory") (lit "person"); F_item (lit "objectClass") (lit "user");
                      F_item (lit "sAMAccountName") raw], []).
Proof.
  destruct (name_stays_a_name (Sam (lit "*)(cn=*")) None [] 0 eq_refl) as (raw & Hv & Hr).
  exists raw. split; [exact Hv|exact Hr].
Defined.

Lemma sid_asked_for_exactly_witness : value_bytes (escape_binary [1; 42; 255]) = Some [1; 42; 255].
Proof. apply (sid_asked_for_exactly [1; 42; 255]). repeat constructor; lia. Defined.

Definition config : LdapConfig :=
  {| cfg_bind_dn := lit "CN=svc"; cfg_bind_password := lit "secret"; cfg_base_dn := lit "DC=example"; cfg_user_filter := None |}.

Definition sid_of (last : Z) : list Z := [1; 2; 0; 0; 0; 0; 0; 5; 21; 0; 0; 0; last; 0; 0; 0].

Definition alice : SearchEntry :=
  {| se_dn := lit "CN=Alice"; attrs := [(lit "samaccountname", [lit "alice"]); (lit "displayName", [[]])];
     bin_attrs := [(lit "objectSid", [sid_of 9]); (lit "objectGUID", [repeat 200 16])] |}.

(** A directory with Alice in it, whose groups come twice. *)
#[local] Instance domain : LdapServer := fun _ c =>
  match c with
  | L_bind _ dn pw =>
      if bool_decide ((dn, pw) = (lit "CN=svc", lit "secret")) || bool_decide ((dn, pw) = (lit "CN=Alice", lit "pw"))
      then L_result 0 [] [] else L_result 49 (lit "AcceptSecurityContext error, data 775, v1") []
  | L_search _ _ Base _ _ _ =>
      L_result 0 [] [{| se_dn := lit "CN=Alice"; attrs := []; bin_attrs := [(lit "tokenGroups", [sid_of 7; sid_of 3; sid_of 7])] |}]
  | L_search _ _ Subtree f _ _ =>
      if bool_decide (f = user_filter (Sam (lit "alice")) None) || starts_with (lit "(&(objectCategory=person)(objectClass=user)(objectSid=") f
      then L_result 0 [] [alice] else L_result 0 [] []
  | _ => L_result 0 [] []
  end.
#[local] Instance first_byte : UuidLe := fun b => default 0 (head b).
#[local] Instance same_case : Lowercase := fun s => s.

Definition alice_id : Identity :=
  {| i_sid := lit "S-1-5-21-9"; i_guid := 200; i_username := lit "alice"; i_upn := None; i_display_name := lit "alice";
     i_groups := [lit "S-1-5-21-3"; lit "S-1-5-21-7"] |}.

Lemma identity_is_the_entrys_witness :
  exists account entry, account_parse (lit "EXAMPLE\alice ") = Some account /\ identity_of entry (i_groups alice_id) = Some alice_id.
Proof.
  destruct (identity_is_the_entrys config (lit "EXAMPLE\alice ") (lit "pw") [] alice_id
    (authenticate config (lit "EXAMPLE\alice ") (lit "pw") []).2) as (_ & account & entry & Ha & _ & _ & _ & Hi & _);
    [vm_compute; reflexivity|]. exists account, entry. split; [exact Ha|exact Hi].
Defined.

(** A wrong password: the sub-code says why, and the groups are not asked for. *)
Example locked_out :
  authenticate config (lit "alice") (lit "no") []
  = (Err AE_AccountLocked, service_calls config 0 ++ [user_search config 0 (Sam (lit "alice")); L_connect;
                                                      L_bind 3 (lit "CN=Alice") (lit "no"); L_unbind 3]).
Proof. vm_compute. reflexivity. Qed.

(** An empty password asks nothing. *)
Example empty_password : authenticate config (lit "alice") [] [] = (Err AE_InvalidCredentials, []).
Proof. vm_compute. reflexivity. Qed.

Example groups_of_now : (refresh config 0 (lit "S-1-5-21-9") []).1 = Ok [lit "S-1-5-21-3"; lit "S-1-5-21-7"].
Proof. vm_compute. reflexivity. Qed.

End LdapExamples.
