(* ===== verification/DirectorySettings.v ===== *)
(** * The directory connection (crates/directory/src/check.rs, crates/server/src/directory.rs, api/directory.rs)

    The settings of the directory: how a connection is checked step by step,
    stored with its sealed password, taken into use without a restart, and what
    that means for running sessions. Sockets, TLS and certificates are what they
    answer; the rows of [secret_fields] are what they open to, as [Vault] has
    it. What a handler reads before its transaction is apart from the tables at
    its commit. *)
From S2P Require Import Prelude Text Utf8 Sid Totp Model Session AccessRequests Store Folders Grants.
From S2P Require Import Devices People Webauthn Factors BreakGlass SignIn Connect Ldap.

(** ** Checking a connection (check.rs) *)

Record Target := { tr_host : list Z; tr_port : Z }.

(** [Target::parse] *)
Definition target_parse (url : list Z) (starttls : bool) : result Target Failure :=
  let invalid := failure Resolve Other in
  let lower := to_ascii_lowercase <$> trim url in
  let? (rest, default_port) :=
    match strip_prefix (lit "ldaps://") lower with
    | Some rest => Ok (rest, 636)
    | None =>
        match strip_prefix (lit "ldap://") lower with
        | Some rest => if starttls then Ok (rest, 389) else Err (failure Tls Other)
        | None => Err invalid
        end
    end in
  let authority := default [] (head (split 47 rest)) in
  let? (host, port) :=
    match authority with
    | c :: bracketed =>
        if c =? 91 then
          match split_once 93 bracketed with
          | Some (host, after) => Ok (host, strip_prefix [58] after)
          | None => Err invalid
          end
        else match rsplit_once 58 authority with
             | Some (host, port) => Ok (host, Some port)
             | None => Ok (authority, None)
             end
    | [] => Ok ([], None)
    end in
  if bool_decide (host = []) then Err invalid
  else
    let? port := match port with
                 | Some port => ok_or (parse_unsigned u16_max port) invalid
                 | None => Ok default_port
                 end in
    Ok {| tr_host := host; tr_port := port |}.

Definition START_TLS_OID : list Z := lit "1.3.6.1.4.1.1466.20037".

(** The StartTLS operation as message 1, in BER. *)
Definition start_tls_request : list Z :=
  let oid := Z.of_nat (length START_TLS_OID) mod 256 in
  [0x30; 3 + 2 + 2 + oid; 0x02; 0x01; 0x01; 0x77; 2 + oid; 0x80; oid] ++ START_TLS_OID.

Fixpoint position (b : Z) (l : list Z) : option (list Z) :=
  match l with [] => None | x :: l' => if x =? b then Some l else position b l' end.

(** [windows(3).find(..)] *)
Fixpoint code_window (l : list Z) : option Z :=
  match l with
  | a :: l' => match l' with
               | b :: c :: _ => if (a =? 0x0a) && (b =? 0x01) then Some c else code_window l'
               | _ => None
               end
  | [] => None
  end.

(** The result code of an ExtendedResponse. *)
Definition result_code (answer : list Z) : option Z := response ← position 0x78 answer; code_window response.

Record PresentedCa := { pc_authority : bool; pc_subject : list Z; pc_fingerprint : list Z; pc_pem : list Z }.

Inductive TcpAnswer := Tcp_timeout | Tcp_refused | Tcp_error | Tcp_open.
Inductive StartTlsAnswer := Start_timeout | Start_error | Start_answer (bytes : list Z).
Inductive CertificateError := Cert_UnknownIssuer | Cert_NotValidForName | Cert_Expired | Cert_other.

(** The end of a TLS handshake; with what [presented] makes of the topmost
    certificate. *)
Inductive TlsAnswer := Tls_timeout | Tls_open | Tls_failed (certificate : option CertificateError) (ca : option PresentedCa).

(** The network a check meets: a name's addresses, or none in time; the
    connection; the answer to StartTLS; the handshake with a certificate. *)
Record CheckNet := {
  net_lookup : list Z -> Z -> option (option (list (list Z)));
  net_connect : list Z -> TcpAnswer;
  net_start_tls : list Z -> StartTlsAnswer;
  net_handshake : list Z -> option (list Z) -> TlsAnswer
}.

Record CheckFailure := { cf_failure : Failure; cf_ca : option PresentedCa }.

Definition plain (f : Failure) : CheckFailure := {| cf_failure := f; cf_ca := None |}.

Definition start_tls (net : CheckNet) : result unit Failure :=
  match net_start_tls net start_tls_request with
  | Start_timeout => Err (failure Tls Timeout)
  | Start_error => Err (failure Tls StartTlsRefused)
  | Start_answer bytes =>
      match result_code (take 256 bytes) with
      | Some code => if code =? 0 then Ok tt else Err (failure Tls StartTlsRefused)
      | None => Err (failure Tls StartTlsRefused)
      end
  end.

Definition handshake (net : CheckNet) (host : list Z) (ca_pem : option (list Z)) : result unit CheckFailure :=
  match net_handshake net host ca_pem with
  | Tls_timeout => Err (plain (failure Tls Timeout))
  | Tls_open => Ok tt
  | Tls_failed error ca =>
      let reason := match error with
                    | Some Cert_UnknownIssuer => UnknownCa
                    | Some Cert_NotValidForName => NameMismatch
                    | Some Cert_Expired => Expired_
                    | _ => Other
                    end in
      Err {| cf_failure := failure Tls reason; cf_ca := match reason with UnknownCa => ca | _ => None end |}
  end.

Record Found := { fd_users : nat; fd_more : bool; fd_sample : list (list Z) }.

Definition COUNT : Z := 1000.
Definition SAMPLE : nat := 3.

(** ** The settings *)

Record Connection := {
  cn_url : list Z; cn_starttls : bool; cn_ca_pem : option (list Z); cn_bind_dn : list Z; cn_base_dn : list Z;
  cn_user_filter : option (list Z); cn_timeout : Z
}.

#[export] Instance connection_eq_dec : EqDecision Connection.
Proof. solve_decision. Defined.

(** [Connection::config] as far as [Ldap] has it. *)
Definition config (c : Connection) (password : list Z) : LdapConfig :=
  {| cfg_bind_dn := cn_bind_dn c; cfg_bind_password := password; cfg_base_dn := cn_base_dn c;
     cfg_user_filter := cn_user_filter c |}.

Definition PASSWORD_FIELD : list Z := lit "bind_password".
Definition DEFAULT_TIMEOUT_SECONDS : Z := 10.

Record Input := {
  in_url : list Z; in_starttls : bool; in_ca_pem : option (list Z); in_bind_dn : list Z; in_password : option (list Z);
  in_base_dn : list Z; in_user_filter : option (list Z); in_timeout : option Z
}.

Fixpoint contains_text (pat s : list Z) : bool :=
  starts_with pat s || match s with [] => false | _ :: s => contains_text pat s end.

(** The closure [text] of [connection]. *)
Definition text_field (value : list Z) (field : string) : result (list Z) ApiProblem :=
  let value := trim value in
  if bool_decide (value = []) || (500 <? str_len value) || existsb is_control value then Err (AP_Invalid field) else Ok value.

Definition optional (value : option (list Z)) : option (list Z) := filter_option not_empty (trim <$> value).

(** The connection an input describes, and its new password. *)
Definition connection (input : Input) : result (Connection * option (list Z)) ApiProblem :=
  let url := trim (in_url input) in
  let scheme := to_ascii_lowercase <$> url in
  if negb (starts_with (lit "ldaps://") scheme || starts_with (lit "ldap://") scheme) || (500 <? str_len url)
  then Err (AP_Invalid "url")
  else if starts_with (lit "ldap://") scheme && negb (in_starttls input) then Err (AP_Invalid "starttls")
  else
    let ca_pem := optional (in_ca_pem input) in
    if is_some_and (fun pem => negb (contains_text (lit "-----BEGIN CERTIFICATE-----") pem) || (65536 <? str_len pem)) ca_pem
    then Err (AP_Invalid "ca_pem")
    else
      let user_filter := optional (in_user_filter input) in
      if is_some_and (fun f => negb (starts_with [40] f && ends_with [41] f) || (2000 <? str_len f)) user_filter
      then Err (AP_Invalid "user_filter")
      else
        let timeout := default DEFAULT_TIMEOUT_SECONDS (in_timeout input) in
        if negb ((1 <=? timeout) && (timeout <=? 60)) then Err (AP_Invalid "timeout_seconds")
        else
          let? bind_dn := text_field (in_bind_dn input) "bind_dn" in
          let? base_dn := text_field (in_base_dn input) "base_dn" in
          Ok ({| cn_url := url; cn_starttls := in_starttls input; cn_ca_pem := ca_pem; cn_bind_dn := bind_dn;
                 cn_base_dn := base_dn; cn_user_filter := user_filter; cn_timeout := timeout |},
              filter_option not_empty (in_password input)).

(** The row of [directory] with the version of its password. *)
Record StoredDirectory := { sd_id : Uuid; sd_version : Z; sd_connection : Connection }.

Inductive DirectoryAction := DA_Changed (fields : list (list Z)) (sessions_ended : Z) | DA_Removed (sessions_ended : Z).

(** The tables, and the directory in use, [Current], with the password it was
    opened with. *)
Record DirWorld := {
  dw_row : option StoredDirectory;
  dw_secrets : gmap (Uuid * Z * list Z) (list Z);
  dw_people : People;
  dw_log : list (Uuid * DirectoryAction);
  dw_running : option (Connection * list Z)
}.

Inductive DirProblem := DP (p : ApiProblem) | DP_CheckFailed (f : CheckFailure) | DP_Internal.

Section settings.
Context `{LdapServer} `{LdapEscape} `{UuidLe} `{Lowercase}.

(** [check::check]: every step, up to the first that fails, with the calls to
    the directory. *)
Definition check (net : CheckNet) (c : Connection) (password : list Z) : result Found CheckFailure * list LdapCall :=
  match target_parse (cn_url c) (cn_starttls c) with
  | Err f => (Err (plain f), [])
  | Ok target =>
      match net_lookup net (tr_host target) (tr_port target) with
      | None => (Err (plain (failure Resolve Timeout)), [])
      | Some None | Some (Some []) => (Err (plain (failure Resolve NotFound)), [])
      | Some (Some (address :: _)) =>
          match net_connect net address with
          | Tcp_timeout => (Err (plain (failure Connect_ Timeout)), [])
          | Tcp_refused => (Err (plain (failure Connect_ Refused)), [])
          | Tcp_error => (Err (plain (failure Connect_ Other)), [])
          | Tcp_open =>
              match (if cn_starttls c then start_tls net else Ok tt) with
              | Err f => (Err (plain f), [])
              | Ok _ =>
                  match handshake net (tr_host target) (cn_ca_pem c) with
                  | Err f => (Err f, [])
                  | Ok _ =>
                      match users (config c password) COUNT [] with
                      | (Err f, calls) => (Err (plain f), calls)
                      | (Ok (names, more), calls) =>
                          (Ok {| fd_users := length names; fd_more := more; fd_sample := take SAMPLE names |}, calls)
                      end
                  end
              end
          end
      end
  end.

(** [sealed_password] *)
Definition sealed_password (stored : StoredDirectory) (w : DirWorld) : result (list Z) DirProblem :=
  ok_or (dw_secrets w !! (sd_id stored, sd_version stored, PASSWORD_FIELD)) DP_Internal.

(** The password to use with a change; none without a new or a stored one. *)
Definition password_for (new : option (list Z)) (w : DirWorld) : result (option (list Z)) DirProblem :=
  match new, dw_row w with
  | Some p, _ => Ok (Some p)
  | None, None => Ok None
  | None, Some stored => let? p := sealed_password stored w in Ok (Some p)
  end.

Definition set_row (r : option StoredDirectory) (w : DirWorld) : DirWorld :=
  {| dw_row := r; dw_secrets := dw_secrets w; dw_people := dw_people w; dw_log := dw_log w; dw_running := dw_running w |}.
Definition on_secrets (f : gmap (Uuid * Z * list Z) (list Z) -> gmap (Uuid * Z * list Z) (list Z)) (w : DirWorld) : DirWorld :=
  {| dw_row := dw_row w; dw_secrets := f (dw_secrets w); dw_people := dw_people w; dw_log := dw_log w; dw_running := dw_running w |}.
Definition on_dir_people (f : People -> People) (w : DirWorld) : DirWorld :=
  {| dw_row := dw_row w; dw_secrets := dw_secrets w; dw_people := f (dw_people w); dw_log := dw_log w; dw_running := dw_running w |}.
Definition set_running (r : option (Connection * list Z)) (w : DirWorld) : DirWorld :=
  {| dw_row := dw_row w; dw_secrets := dw_secrets w; dw_people := dw_people w; dw_log := dw_log w; dw_running := r |}.
Definition log_dir (s : Session) (a : DirectoryAction) (w : DirWorld) : DirWorld :=
  {| dw_row := dw_row w; dw_secrets := dw_secrets w; dw_people := dw_people w; dw_log := dw_log w ++ [(user_id s, a)];
     dw_running := dw_running w |}.

(** [directory::save]; [new_id] is what the database would draw. *)
Definition store (new_id : Uuid) (c : Connection) (password : option (list Z)) (w : DirWorld) :
    result (option Connection * DirWorld) DirProblem :=
  let? (id, version) :=
    match dw_row w, password with
    | Some stored, None => Ok (sd_id stored, sd_version stored)
    | Some stored, Some _ => Ok (sd_id stored, sd_version stored + 1)
    | None, Some _ => Ok (new_id, 1)
    | None, None => Err DP_Internal
    end in
  let? w' := match password with
             | None => Ok w
             | Some p => if is_some (dw_secrets w !! (id, version, PASSWORD_FIELD)) then Err DP_Internal
                         else Ok (on_secrets (insert (id, version, PASSWORD_FIELD) p) w)
             end in
  let w' := set_row (Some {| sd_id := id; sd_version := version; sd_connection := c |}) w' in
  Ok (sd_connection <$> dw_row w,
      on_secrets (filter (fun kv : Uuid * Z * list Z * list Z =>
        ~ (kv.1.1.1 = id /\ kv.1.2 = PASSWORD_FIELD /\ kv.1.1.2 < version))) w').

(** [directory::remove] *)
Definition remove_row (w : DirWorld) : bool * DirWorld :=
  match dw_row w with
  | None => (false, w)
  | Some stored =>
      (true, on_secrets (filter (fun kv : Uuid * Z * list Z * list Z => kv.1.1.1 <> sd_id stored)) (set_row None w))
  end.

(** Sessions of directory users. *)
Definition directory_session (p : People) (r : SessionRow) : bool :=
  is_some_and (fun u => bool_decide (u_kind u = lit "directory")) (pe_users p !! s_user_id r).

Definition end_directory_sessions (w : DirWorld) : Z * DirWorld :=
  let p := dw_people w in
  (Z.of_nat (size (filter (fun hr : list Z * SessionRow => directory_session p hr.2 = true) (pe_sessions p))),
   on_dir_people (on_sessions (filter (fun hr => directory_session p hr.2 = false))) w).

(** ** The handlers (api/directory.rs) *)

Definition require_admin_dir (s : Session) : result unit DirProblem := if is_admin s then Ok tt else Err (DP AP_Forbidden).

Definition get_settings (s : Session) (w : DirWorld) : result (option Connection) DirProblem :=
  let? _ := require_admin_dir s in Ok (sd_connection <$> dw_row w).

Definition lift_api {A} (r : result A ApiProblem) : result A DirProblem :=
  match r with Ok a => Ok a | Err e => Err (DP e) end.

(** [run_check] *)
Definition run_check (net : CheckNet) (c : Connection) (new : option (list Z)) (w : DirWorld) :
    result (list Z * result Found CheckFailure) DirProblem :=
  let? p := password_for new w in
  let? p := ok_or p (DP (AP_Invalid "password")) in
  Ok (p, (check net c p).1).

Definition check_settings (s : Session) (net : CheckNet) (input : Input) (w : DirWorld) :
    result (result Found CheckFailure) DirProblem :=
  let? _ := require_admin_dir s in
  let? (c, new) := lift_api (connection input) in
  let? r := run_check net c new w in
  Ok r.2.

(** The names of the fields that differ. *)
Definition changed (before : option Connection) (after : Connection) : list (list Z) :=
  match before with
  | None => [lit "url"; lit "starttls"; lit "ca_pem"; lit "bind_dn"; lit "base_dn"; lit "user_filter"; lit "timeout_seconds"]
  | Some b =>
      omap (fun nd : list Z * bool => if nd.2 then Some nd.1 else None)
        [(lit "url", negb (bool_decide (cn_url b = cn_url after)));
         (lit "starttls", negb (bool_decide (cn_starttls b = cn_starttls after)));
         (lit "ca_pem", negb (bool_decide (cn_ca_pem b = cn_ca_pem after)));
         (lit "bind_dn", negb (bool_decide (cn_bind_dn b = cn_bind_dn after)));
         (lit "base_dn", negb (bool_decide (cn_base_dn b = cn_base_dn after)));
         (lit "user_filter", negb (bool_decide (cn_user_filter b = cn_user_filter after)));
         (lit "timeout_seconds", negb (bool_decide (cn_timeout b = cn_timeout after)))]
  end.

Definition moved (before : option Connection) (after : Connection) : bool :=
  is_some_and (fun b => negb (bool_decide (cn_url b = cn_url after)) || negb (bool_decide (cn_base_dn b = cn_base_dn after))) before.

(** [save] up to its transaction, on what it [seen]; then the transaction and
    the directory it takes into use. [opens] says whether a verifier can be made
    of the connection's certificates. *)
Definition save_check (s : Session) (net : CheckNet) (opens : Connection -> bool) (input : Input) (seen : DirWorld) :
    result (Connection * option (list Z) * list Z * Found) DirProblem :=
  let? _ := require_admin_dir s in
  let? (c, new) := lift_api (connection input) in
  let? (p, r) := run_check net c new seen in
  match r with
  | Err f => Err (DP_CheckFailed f)
  | Ok found => if opens c then Ok (c, new, p, found) else Err DP_Internal
  end.

Definition save_commit (s : Session) (new_id : Uuid) (c : Connection) (new : option (list Z)) (w : DirWorld) :
    result DirWorld DirProblem :=
  let? (before, w) := store new_id c new w in
  let fields := changed before c ++ match new with Some _ => [lit "password"] | None => [] end in
  let '(ended, w) := if moved before c then end_directory_sessions w else (0, w) in
  Ok (log_dir s (DA_Changed fields ended) w).

Definition save_settings (s : Session) (net : CheckNet) (opens : Connection -> bool) (new_id : Uuid) (input : Input)
    (seen w : DirWorld) : result Found DirProblem * DirWorld :=
  match save_check s net opens input seen with
  | Err e => (Err e, w)
  | Ok (c, new, p, found) =>
      match save_commit s new_id c new w with
      | Err e => (Err e, w)
      | Ok w => (Ok found, set_running (Some (c, p)) w)
      end
  end.

Definition remove_settings (s : Session) (w : DirWorld) : result unit DirProblem * DirWorld :=
  match require_admin_dir s with
  | Err e => (Err e, w)
  | Ok _ =>
      let '(there, w') := remove_row w in
      if negb there then (Err (DP AP_NotFound), w)
      else
        let '(ended, w') := end_directory_sessions w' in
        (Ok tt, set_running None (log_dir s (DA_Removed ended) w'))
  end.

(** [directory::open]: the directory as stored, at start. *)
Definition open_stored (opens : Connection -> bool) (w : DirWorld) : result (option (Connection * list Z)) DirProblem :=
  match dw_row w with
  | None => Ok None
  | Some stored =>
      let? p := sealed_password stored w in
      if opens (sd_connection stored) then Ok (Some (sd_connection stored, p)) else Err DP_Internal
  end.

(** ** Theorems *)

(** A check asks the directory for nothing, and so sends it no password,
    before the whole way there is encrypted: the URL is [ldaps], or StartTLS was
    asked for and taken, and the handshake with a certificate that is trusted
    has succeeded. *)
Theorem check_encrypts_first (net : CheckNet) (c : Connection) (password : list Z) :
  (check net c password).2 <> [] ->
  exists target,
    target_parse (cn_url c) (cn_starttls c) = Ok target
    /\ (starts_with (lit "ldaps://") (to_ascii_lowercase <$> trim (cn_url c)) = true \/ cn_starttls c = true)
    /\ (cn_starttls c = true -> exists bytes, net_start_tls net start_tls_request = Start_answer bytes
                                  /\ result_code (take 256 bytes) = Some 0)
    /\ net_handshake net (tr_host target) (cn_ca_pem c) = Tls_open.
Proof.
  unfold check. destruct (target_parse (cn_url c) (cn_starttls c)) as [target|f] eqn:Ht; [|done].
  destruct (net_lookup _ _ _) as [[[|address addresses]|]|]; try done. destruct (net_connect _ _); try done.
  assert (Hs : (if cn_starttls c then start_tls net else Ok tt) = Ok tt -> cn_starttls c = true ->
    exists bytes, net_start_tls net start_tls_request = Start_answer bytes /\ result_code (take 256 bytes) = Some 0).
  { intros Hok Htls. rewrite Htls in Hok. unfold start_tls in Hok. destruct (net_start_tls _ _) as [| |bytes]; [done..|].
    exists bytes. split; [done|]. destruct (result_code _) as [code|]; [|done]. destruct (code =? 0) eqn:Hc; [|done].
    by apply Z.eqb_eq in Hc as ->. }
  destruct (if cn_starttls c then start_tls net else Ok tt) as [[]|f]; [|done]. specialize (Hs eq_refl).
  unfold handshake. destruct (net_handshake _ _ _) eqn:Hh; try done. intros _. exists target. split_and!; try done.
  unfold target_parse in Ht. unfold starts_with. destruct (strip_prefix (lit "ldaps://") _); [by left|].
  destruct (strip_prefix (lit "ldap://") _); [|done]. right. by destruct (cn_starttls c).
Qed.

(** What is saved is of that form already. *)
Lemma connection_encrypted input c new :
  connection input = Ok (c, new) ->
  starts_with (lit "ldaps://") (to_ascii_lowercase <$> cn_url c) = true
  \/ starts_with (lit "ldap://") (to_ascii_lowercase <$> cn_url c) = true /\ cn_starttls c = true.
Proof.
  unfold connection. destruct (negb (_ || _) || _) eqn:Hu; [done|]. destruct (_ && negb (in_starttls input)) eqn:Ht; [done|].
  repeat (match goal with |- (if ?b then _ else _) = _ -> _ => destruct b; [done|] end).
  destruct (text_field _ _); [|done]. destruct (text_field _ _); [|done]. intros [= <- _]. cbn [cn_url cn_starttls].
  apply orb_false_iff in Hu as [Hu _]. apply negb_false_iff, orb_true_iff in Hu as [Hu|Hu]; [by left|].
  destruct (starts_with (lit "ldaps://") _) eqn:Hs; [by left|]. right. split; [done|]. rewrite Hu in Ht. by destruct (in_starttls input).
Qed.

Lemma store_exact new_id c new w before w' :
  store new_id c new w = Ok (before, w') ->
  before = sd_connection <$> dw_row w /\ dw_people w' = dw_people w /\ dw_log w' = dw_log w
  /\ exists row, dw_row w' = Some row /\ sd_connection row = c
     /\ match new with
        | Some p => sealed_password row w' = Ok p
        | None => exists stored, dw_row w = Some stored /\ sealed_password row w' = sealed_password stored w
        end
     /\ forall v p, dw_secrets w' !! (sd_id row, v, PASSWORD_FIELD) = Some p -> sd_version row <= v.
Proof.
  unfold store, sealed_password. intros Hs.
  assert (Hkeep : forall id version (m : gmap (Uuid * Z * list Z) (list Z)) v p,
    filter (fun kv : Uuid * Z * list Z * list Z => ~ (kv.1.1.1 = id /\ kv.1.2 = PASSWORD_FIELD /\ kv.1.1.2 < version)) m
      !! (id, v, PASSWORD_FIELD) = Some p -> version <= v).
  { intros id version m v p [_ Hf]%map_lookup_filter_Some. simpl in Hf. destruct (Z.lt_ge_cases v version); [|done]. by destruct Hf. }
  assert (Hsame : forall id version (m : gmap (Uuid * Z * list Z) (list Z)),
    filter (fun kv : Uuid * Z * list Z * list Z => ~ (kv.1.1.1 = id /\ kv.1.2 = PASSWORD_FIELD /\ kv.1.1.2 < version)) m
      !! (id, version, PASSWORD_FIELD) = m !! (id, version, PASSWORD_FIELD)).
  { intros id version m. rewrite map_lookup_filter. destruct (m !! _) as [p|]; [|done]. simpl. rewrite option_guard_True; [done|].
    simpl. lia. }
  destruct new as [p|].
  - destruct (dw_row w) as [stored|] eqn:Hrow;
      (match type of Hs with context [is_some ?o] => destruct (is_some o); [done|] end); injection Hs as <- <-;
      simpl; split_and!; try done; eexists; split_and!; try done; simpl;
      first [by rewrite Hsame, lookup_insert_eq|by intros v q; apply Hkeep].
  - destruct (dw_row w) as [stored|] eqn:Hrow; [|done]. injection Hs as <- <-. simpl. split_and!; try done.
    eexists. split_and!; try done; simpl.
    + exists stored. split; [done|]. by rewrite Hsame.
    + by intros v q; apply Hkeep.
Qed.

Definition directory_sessions_gone (p p' : People) : Prop :=
  forall h r, pe_sessions p' !! h = Some r <-> pe_sessions p !! h = Some r /\ directory_session p r = false.

Lemma end_directory_sessions_exact w n w' :
  end_directory_sessions w = (n, w') ->
  dw_row w' = dw_row w /\ dw_secrets w' = dw_secrets w /\ dw_log w' = dw_log w /\ dw_running w' = dw_running w
  /\ directory_sessions_gone (dw_people w) (dw_people w').
Proof.
  unfold end_directory_sessions. intros [= _ <-]. split_and!; try done. intros h r. simpl. by rewrite map_lookup_filter_Some.
Qed.

(** Settings that are saved come from an administrator, passed the check
    with the password they are stored with or the stored one, and are what is
    stored and used from then on; of the password only its newest version is
    left. If the directory is another one, every session of its users ends and
    no other. Without another save in between, a restart takes the same
    directory into use. What is refused changes nothing. *)
Theorem saved_directory_exact (s : Session) (net : CheckNet) (opens : Connection -> bool) (new_id : Uuid) (input : Input)
    (seen w : DirWorld) :
  match save_settings s net opens new_id input seen w with
  | (Err _, w') => w' = w
  | (Ok found, w') =>
      is_admin s = true
      /\ exists c new p row, connection input = Ok (c, new) /\ (check net c p).1 = Ok found
           /\ match new with
              | Some q => p = q /\ sealed_password row w' = Ok p
              | None => (exists stored, dw_row seen = Some stored /\ sealed_password stored seen = Ok p)
                        /\ exists stored, dw_row w = Some stored /\ sealed_password row w' = sealed_password stored w
              end
           /\ dw_row w' = Some row /\ sd_connection row = c /\ dw_running w' = Some (c, p)
           /\ (forall v q, dw_secrets w' !! (sd_id row, v, PASSWORD_FIELD) = Some q -> sd_version row <= v)
           /\ (if moved (sd_connection <$> dw_row w) c then directory_sessions_gone (dw_people w) (dw_people w')
               else dw_people w' = dw_people w)
           /\ (seen = w -> open_stored opens w' = Ok (dw_running w'))
  end.
Proof.
  unfold save_settings. destruct (save_check s net opens input seen) as [[[[c new] p] found]|e] eqn:Hc; [|done].
  unfold save_check, require_admin_dir, lift_api in Hc. destruct (is_admin s); [|done].
  destruct (connection input) as [[c' new']|e] eqn:Hin; [|done]. unfold run_check in Hc.
  destruct (password_for new' seen) as [[q|]|e] eqn:Hp; [|done|done]. simpl in Hc.
  destruct ((check net c' q).1) as [found'|f] eqn:Hch; [|done]. destruct (opens c') eqn:Hopen; [|done].
  injection Hc as <- <- <- <-. unfold save_commit. destruct (store new_id c' new' w) as [[before w1]|e] eqn:Hst; [|done].
  destruct (store_exact _ _ _ _ _ _ Hst) as (-> & Hpe & _ & row & Hrow & Hcn & Hpw & Hold).
  assert (Hboth : match new' with
    | Some x => q = x /\ sealed_password row w1 = Ok q
    | None => (exists stored, dw_row seen = Some stored /\ sealed_password stored seen = Ok q)
              /\ exists stored, dw_row w = Some stored /\ sealed_password row w1 = sealed_password stored w end).
  { destruct new' as [x|]; simpl in Hp; [by injection Hp as <-|]. split; [|done].
    destruct (dw_row seen) as [stored|]; [|done]. exists stored. split; [done|].
    destruct (sealed_password stored seen); [|done]. by injection Hp as <-. }
  assert (Hstart : seen = w -> sealed_password row w1 = Ok q).
  { intros ->. destruct new' as [x|]; [apply Hboth|]. destruct Hboth as [(st1 & Hs1 & Hq) (st2 & Hs2 & ->)].
    rewrite Hs1 in Hs2. by injection Hs2 as <-. }
  assert (Hopened : forall w2, dw_row w2 = dw_row w1 -> dw_secrets w2 = dw_secrets w1 -> seen = w ->
    open_stored opens w2 = Ok (Some (c', q))).
  { intros w2 Hr2 Hs2 Heq. specialize (Hstart Heq). unfold open_stored, sealed_password in *. rewrite Hr2, Hrow, Hs2, Hstart.
    by rewrite Hcn, Hopen. }
  destruct (moved (sd_connection <$> dw_row w) c') eqn:Hm.
  - destruct (end_directory_sessions w1) as [n w2] eqn:He.
    destruct (end_directory_sessions_exact _ _ _ He) as (Hr2 & Hs2 & _ & _ & Hgone). rewrite Hpe in Hgone.
    split; [done|]. exists c', new', q, row. rewrite Hm. split_and!; try done.
    + destruct new'; unfold sealed_password in *; simpl; by rewrite Hs2.
    + simpl. by rewrite Hr2.
    + simpl. by rewrite Hs2.
    + apply Hopened; [exact Hr2|exact Hs2].
  - split; [done|]. exists c', new', q, row. rewrite Hm. split_and!; try done. by apply Hopened.
Qed.

(** A directory that is removed leaves neither its password nor a session of
    its users, and nobody signs in against it any more. *)
Theorem removed_directory_is_gone (s : Session) (w w' : DirWorld) :
  remove_settings s w = (Ok tt, w') ->
  is_admin s = true /\ dw_running w' = None /\ dw_row w' = None
  /\ (exists stored, dw_row w = Some stored /\ forall v f p, dw_secrets w' !! (sd_id stored, v, f) <> Some p)
  /\ directory_sessions_gone (dw_people w) (dw_people w').
Proof.
  unfold remove_settings, require_admin_dir. destruct (is_admin s); [|done]. unfold remove_row.
  destruct (dw_row w) as [stored|]; [|done]. cbn [negb].
  match goal with |- context [end_directory_sessions ?x] => destruct (end_directory_sessions x) as [n w2] eqn:He end.
  destruct (end_directory_sessions_exact _ _ _ He) as (Hr & Hs & _ & _ & Hgone). intros [= <-]. simpl in *.
  split_and!; try done. exists stored. split; [done|]. intros v f p. rewrite Hs. intros [_ Hf]%map_lookup_filter_Some. done.
Qed.
End settings.

(** ** Examples *)

Module DirectoryExamples.

#[local] Existing Instance LdapExamples.domain.
#[local] Existing Instance LdapExamples.escaping.

Definition reads (url : string) (starttls : bool) : option (list Z * Z) :=
  (fun t => (tr_host t, tr_port t)) <$> ok (target_parse (lit url) starttls).

Example targets :
  reads "ldaps://DC.example.com" false = Some (lit "dc.example.com", 636)
  /\ reads "ldap://dc.example.com:3268/" true = Some (lit "dc.example.com", 3268)
  /\ reads "ldaps://[fd00::5]:1636" false = Some (lit "fd00::5", 1636)
  /\ reads "ldap://dc" false = None /\ reads "ldaps://dc:port" false = None /\ reads "ldaps://dc:65536" false = None.
Proof. split_and!; vm_compute; reflexivity. Qed.

(** The outer length covers the rest of the request, the operation's its OID. *)
Example start_tls_lengths :
  nth 1 start_tls_request 0 = Z.of_nat (length start_tls_request) - 2
  /\ nth 6 start_tls_request 0 = Z.of_nat (length start_tls_request) - 7
  /\ result_code [0x30; 12; 2; 1; 1; 0x78; 7; 10; 1; 52; 4; 0; 4; 0] = Some 52
  /\ result_code [0x30; 3; 2; 1; 1] = None.
Proof. split_and!; vm_compute; reflexivity. Qed.

Definition net : CheckNet :=
  {| net_lookup _ _ := Some (Some [lit "192.0.2.1"]); net_connect _ := Tcp_open;
     net_start_tls _ := Start_answer [0x30; 12; 2; 1; 1; 0x78; 7; 10; 1; 0; 4; 0; 4; 0]; net_handshake _ _ := Tls_open |}.

Definition given (url password : string) : Input :=
  {| in_url := lit url; in_starttls := true; in_ca_pem := None; in_bind_dn := lit "CN=svc";
     in_password := if bool_decide (lit password = []) then None else Some (lit password);
     in_base_dn := lit "DC=example"; in_user_filter := None; in_timeout := None |}.

Definition admin : Session :=
  {| token_hash := []; session_id := 1; client := []; user_id := 9; username := lit "ann"; display_name := []; kind := lit "local";
     sid := None; upn := None; s_group_sids := []; identity_id := None; memberships := []; roles := [lit "administrator"];
     locked := false; confirmed := false |}.

Definition session_of (user : Uuid) : SessionRow :=
  {| s_id := user; s_user_id := user; s_groups := []; s_client := lit "browser"; last_seen_at := 0; expires_at := 100;
     confirmed_at := None; confirm_failures := 0 |}.

Definition user (kind_ : string) : UserRow :=
  {| u_username := lit "u"; u_display_name := lit "u"; u_kind := lit kind_; u_sid := None; u_upn := None; u_identity_id := None;
     blocked_at := None |}.

Definition w0 : DirWorld :=
  {| dw_row := None; dw_secrets := ∅;
     dw_people := on_sessions (fun _ => {[ [1] := session_of 1; [2] := session_of 2 ]})
                    (on_users (fun _ => {[ 1 := user "directory"; 2 := user "local" ]})
                       (fa_people BreakGlassExamples.empty_db));
     dw_log := []; dw_running := None |}.

Definition save_ (input : Input) (seen w : DirWorld) : result Found DirProblem * DirWorld :=
  save_settings admin net (fun _ => true) 50 input seen w.

Definition w1 : DirWorld := (save_ (given "ldap://dc1" "secret") w0 w0).2.
Definition w2 : DirWorld := (save_ (given "ldap://dc2" "") w1 w1).2.

(** Another domain controller: the stored password is kept, and the directory
    user's session ends. *)
Example moved_to_another :
  option_map snd (dw_running w2) = Some (lit "secret")
  /\ fst <$> map_to_list (pe_sessions (dw_people w2)) = [[2]]
  /\ dw_log w2 !! 1%nat = Some (9, DA_Changed [lit "url"] 1).
Proof. split_and!; vm_compute; reflexivity. Qed.

Lemma check_encrypts_first_witness :
  exists bytes, net_start_tls net start_tls_request = Start_answer bytes.
Proof.
  destruct (check_encrypts_first net {| cn_url := lit "ldap://dc"; cn_starttls := true; cn_ca_pem := None; cn_bind_dn := lit "CN=svc";
    cn_base_dn := lit "DC=example"; cn_user_filter := None; cn_timeout := 10 |} (lit "secret")) as (target & _ & _ & Hs & _).
  - vm_compute. discriminate.
  - destruct (Hs eq_refl) as (bytes & Hb & _). by exists bytes.
Defined.

Lemma removed_directory_is_gone_witness :
  dw_row (remove_settings admin w2).2 = None.
Proof.
  apply (removed_directory_is_gone admin w2 (remove_settings admin w2).2). vm_compute. reflexivity.
Defined.

(** The same settings with another password, as another save has stored them. *)
Definition w_other : DirWorld :=
  match dw_row w1 with
  | Some stored => default w1 (snd <$> ok (store 50 (sd_connection stored) (Some (lit "newer")) w1))
  | None => w1
  end.

(** Two saves at once: the one without a password has checked the old one, and
    takes it into use although the other has stored a new one meanwhile. *)
Example stored_and_used_differ :
  let w := (save_ (given "ldap://dc1" "") w1 w_other).2 in
  option_map snd (dw_running w) = Some (lit "secret")
  /\ (ok (open_stored (fun _ => true) w) ≫= fun r => snd <$> r) = Some (lit "newer").
Proof. split; vm_compute; reflexivity. Qed.

End DirectoryExamples.
