(* ===== verification/Tree.v ===== *)
(** * The tree a user sees (crates/server/src/api/catalog.rs, [tree], [set_folder_open])

    The page everything starts from: the folders, devices, login profiles,
    collections and credentials somebody may see, with their role on each. The
    catalog is loaded first and the rows after it, by queries of their own, so
    [tree] has the tables as it saw them both times. The times of changes are
    left out, and so is the order of the rows, which the database makes: what
    the browser gets as lists are maps from ids here. *)
From S2P Require Import Prelude Text Model Session AccessRequests Agent Connectors Store Folders Devices Profiles Catalog.
From S2P Require Import Grants People Factors BreakGlass SignIn Connect Terminal Fields Entries History.

(** ** What the browser gets *)

Record TreeFolder := {
  tf_parent : option Uuid;
  tf_name : list Z;
  (** [None]: only shown as the way to something visible inside. *)
  tf_role : option Role;
  tf_connector : option Uuid
}.

Record TreeCollection := { tc_parent : option Uuid; tc_name : list Z; tc_role : option Role }.

(** The columns of a device, without its host key, of which only the
    fingerprint is told, and without the secret. *)
Record TreeDevice := {
  td_settings : Store.Settings;
  td_keywords : list Z;
  td_keywords_by : option (list Z);
  td_certificate : option (list Z);
  td_reached_through : option Uuid;
  td_key : KeyInfo;
  td_host_key_fingerprint : option (list Z);
  td_role : Role
}.

Record TreeProfile := {
  tp_folder : option Uuid;
  tp_name : list Z;
  tp_username : list Z;
  tp_domain : list Z;
  tp_secret_kind : SecretKind;
  tp_key : KeyInfo;
  tp_role : Role
}.

Record Attachment := { an_name : list Z; an_size : Z }.

Record TreeCredential := {
  tk_row : CredentialRow;
  tk_attachments : gmap Uuid Attachment;
  tk_role : Role
}.

Record Tree := {
  tr_folders : gmap Uuid TreeFolder;
  tr_devices : gmap Uuid TreeDevice;
  tr_profiles : gmap Uuid TreeProfile;
  tr_collections : gmap Uuid TreeCollection;
  tr_credentials : gmap Uuid TreeCredential;
  tr_may_create_top_level : bool;
  tr_open : gset Uuid;
  tr_purpose_required : bool
}.

(** ** The tables *)

(** Folders, devices, profiles and grants are those of [tw_conn], collections
    and what is in them those of [tw_vault]. *)
Record TreeWorld := {
  tw_conn : ConnWorld;
  tw_vault : VaultStore;
  (** [open_folders]: the user and the folder. *)
  tw_open : gset (Uuid * Uuid)
}.

Definition tw_store (w : TreeWorld) : Store := cw_store (tw_conn w).

Definition tree_objects (w : TreeWorld) : Objects := {|
  Model.folders := (fun kv => (kv.1, f_parent kv.2)) <$> map_to_list (s_folders (tw_store w));
  Model.collections := (fun kv => (kv.1, co_parent kv.2)) <$> map_to_list (vs_collections (tw_vault w));
  Model.devices := (fun kv => (kv.1, d_folder (d_settings kv.2))) <$> map_to_list (s_devices (tw_store w));
  Model.credentials := (fun kv => (kv.1, cr_collection kv.2)) <$> map_to_list (vs_credentials (tw_vault w));
  Model.profiles := (fun kv => (kv.1, p_folder kv.2)) <$> map_to_list (s_profiles (tw_store w))
|}.

(** [context]. *)
Definition tree_catalog (w : TreeWorld) (now : Z) : Catalog := load (tree_objects w) (s_grants (tw_store w)) now.

Section tree.
Context `{UuidText} `{SshPublic}.

Definition seen_by (s : Session) (now : Z) (w : TreeWorld) : Visibility := visible (tree_catalog w now) (subject s).

(** [ssh::fingerprint]. *)
Definition fingerprint (openssh : list Z) : option (list Z) :=
  key_fingerprint_of <$> public_from_openssh openssh.

(** ** The handlers *)

Definition device_row (fs : gmap Uuid FolderRow) (d : DeviceRow) (role : Role) : TreeDevice :=
  {| td_settings := d_settings d; td_keywords := d_keywords d; td_keywords_by := d_keywords_by d;
     td_certificate := certificate_fingerprint (d_pins d);
     td_reached_through := reached_through fs (d_settings d); td_key := d_key d;
     td_host_key_fingerprint := host_key (d_pins d) ≫= fingerprint; td_role := role |}.

Definition profile_row (p : ProfileRow) (role : Role) : TreeProfile :=
  {| tp_folder := p_folder p; tp_name := p_name p; tp_username := p_username p;
     tp_domain := p_domain p; tp_secret_kind := p_secret_kind p; tp_key := p_key p; tp_role := role |}.

(** The files of a credential, without their content. *)
Definition attachments_of (db : VaultStore) (id : Uuid) : gmap Uuid Attachment :=
  omap (fun a => if at_credential a =? id then Some {| an_name := at_name a; an_size := at_size a |} else None)
    (vs_attachments db).

Definition credential_row (db : VaultStore) (id : Uuid) (c : CredentialRow) (role : Role) : TreeCredential :=
  {| tk_row := c; tk_attachments := attachments_of db id; tk_role := role |}.

Definition sees (v : Visibility) (f : Uuid) : bool :=
  is_some (Model.roles v !! Folder f) || bool_decide (f ∈ path_only v).

Definition tree_folder (v : Visibility) (id : Uuid) (f : FolderRow) : option TreeFolder :=
  let role := Model.roles v !! Folder id in
  if is_some role || bool_decide (id ∈ path_only v)
  then Some {| tf_parent := f_parent f; tf_name := f_name f; tf_role := role; tf_connector := f_connector f |}
  else None.

Definition tree_collection (v : Visibility) (id : Uuid) (c : CollectionRow) : option TreeCollection :=
  let role := Model.roles v !! Collection id in
  if is_some role || bool_decide (id ∈ collections_path_only v)
  then Some {| tc_parent := co_parent c; tc_name := co_name c; tc_role := role |}
  else None.

Definition tree_device (v : Visibility) (fs : gmap Uuid FolderRow) (id : Uuid) (d : DeviceRow) : option TreeDevice :=
  device_row fs d <$> Model.roles v !! Device id.

Definition tree_profile (v : Visibility) (id : Uuid) (p : ProfileRow) : option TreeProfile :=
  profile_row p <$> Model.roles v !! Profile id.

Definition tree_credential (v : Visibility) (db : VaultStore) (id : Uuid) (c : CredentialRow) : option TreeCredential :=
  credential_row db id c <$> Model.roles v !! Credential id.

(** The rows of [open_folders] with the user's id. *)
Definition opened (s : Session) (w : TreeWorld) : gset Uuid :=
  set_map snd (filter (fun uf : Uuid * Uuid => uf.1 = user_id s) (tw_open w)).

Definition tree (s : Session) (now : Z) (seen w : TreeWorld) : Tree :=
  let catalog := tree_catalog seen now in
  let v := visible catalog (subject s) in
  {| tr_folders := map_imap (tree_folder v) (s_folders (tw_store w));
     tr_devices := map_imap (tree_device v (s_folders (tw_store w))) (s_devices (tw_store w));
     tr_profiles := map_imap (tree_profile v) (s_profiles (tw_store w));
     tr_collections := map_imap (tree_collection v) (vs_collections (tw_vault w));
     tr_credentials := map_imap (tree_credential v (tw_vault w)) (vs_credentials (tw_vault w));
     tr_may_create_top_level := may_create_top_level (subject s);
     tr_open := filter (fun f => sees v f = true) (opened s w);
     tr_purpose_required := purpose_required s (tw_conn w) |}.

(** The row is of the user and the folder, which both must be there still. *)
Definition set_folder_open (s : Session) (now : Z) (id : Uuid) (open : bool) (seen w : TreeWorld) :
    result unit ApiProblem * TreeWorld :=
  if negb (sees (seen_by s now seen) id) then (Err AP_NotFound, w)
  else
    let with_open := fun o => {| tw_conn := tw_conn w; tw_vault := tw_vault w; tw_open := o |} in
    if open then
      if is_some (s_folders (tw_store w) !! id) && is_some (pe_users (cw_people (tw_conn w)) !! user_id s)
      then (Ok tt, with_open ({[(user_id s, id)]} ∪ tw_open w))
      else (Err AP_Internal, w)
    else (Ok tt, with_open (tw_open w ∖ {[(user_id s, id)]})).

(** ** Theorems *)

Lemma tree_folders w now : folder_parent (tree_catalog w now) = f_parent <$> s_folders (tw_store w).
Proof. apply (collect_map_to_list f_parent). Qed.

Lemma tree_collections w now : collection_parent (tree_catalog w now) = co_parent <$> vs_collections (tw_vault w).
Proof. apply (collect_map_to_list co_parent). Qed.

Lemma tree_devices w now : device_folder (tree_catalog w now) = (d_folder ∘ d_settings) <$> s_devices (tw_store w).
Proof. apply (collect_map_to_list (d_folder ∘ d_settings)). Qed.

Lemma tree_credentials w now : credential_collection (tree_catalog w now) = cr_collection <$> vs_credentials (tw_vault w).
Proof. apply (collect_map_to_list cr_collection). Qed.

Lemma tree_profiles w now : profile_folder (tree_catalog w now) = p_folder <$> s_profiles (tw_store w).
Proof. apply (collect_map_to_list p_folder). Qed.

(** Something somebody has a role on lies at or below [o]. *)
Definition shows (s : Session) (now : Z) (w : TreeWorld) (o : ObjectId) : Prop :=
  exists x r, effective_role (tree_catalog w now) (subject s) x = Some r /\ rtc (above (tree_catalog w now)) x o.

Lemma shows_above s now w o a : shows s now w o -> above (tree_catalog w now) o a -> shows s now w a.
Proof. intros (x & r & Hr & Hx) Ha. exists x, r. split; [done|]. by eapply rtc_r. Qed.

Lemma shows_role s now w o r : effective_role (tree_catalog w now) (subject s) o = Some r -> shows s now w o.
Proof. intros Hr. by exists o, r. Qed.

Lemma role_or_below s now w o :
  (is_Some (effective_role (tree_catalog w now) (subject s) o)
   \/ effective_role (tree_catalog w now) (subject s) o = None
      /\ exists x r, effective_role (tree_catalog w now) (subject s) x = Some r /\ tc (above (tree_catalog w now)) x o)
  <-> shows s now w o.
Proof.
  split.
  - intros [[r Hr]|(_ & x & r & Hr & Hx)]; [by eapply shows_role|]. exists x, r. split; [done|]. by apply tc_rtc.
  - intros (x & r & Hr & Hx). destruct (effective_role _ _ o) as [r'|] eqn:Ho; [left; by exists r'|right].
    split; [done|]. exists x, r. split; [done|]. apply rtc_tc in Hx as [->|?]; [congruence|done].
Qed.

Lemma sees_iff s now w f : sees (seen_by s now w) f = true <-> shows s now w (Folder f).
Proof.
  unfold sees, seen_by. rewrite orb_true_iff, bool_decide_eq_true, is_some_true.
  rewrite (proj1 (visible_iff _ _)), (proj1 (proj2 (visible_iff _ _))). apply role_or_below.
Qed.

Lemma sees_collection_iff s now w k :
  is_some (Model.roles (seen_by s now w) !! Collection k) || bool_decide (k ∈ collections_path_only (seen_by s now w)) = true
  <-> shows s now w (Collection k).
Proof.
  unfold seen_by. rewrite orb_true_iff, bool_decide_eq_true, is_some_true.
  rewrite (proj1 (visible_iff _ _)), (proj2 (proj2 (visible_iff _ _))). apply role_or_below.
Qed.

(** The tree shows each folder and collection somebody has a role on, or on
    something below, and each device, profile and credential they have a role
    on, with exactly that role and what the row says; and nothing else. The
    rows may have changed since the catalog was read. *)
Theorem tree_shows_exactly (s : Session) (now : Z) (seen w : TreeWorld) :
  let t := tree s now seen w in
  let role := effective_role (tree_catalog seen now) (subject s) in
  (forall f x, tr_folders t !! f = Some x <->
     exists row, s_folders (tw_store w) !! f = Some row /\ shows s now seen (Folder f)
       /\ x = {| tf_parent := f_parent row; tf_name := f_name row; tf_role := role (Folder f); tf_connector := f_connector row |})
  /\ (forall k x, tr_collections t !! k = Some x <->
        exists row, vs_collections (tw_vault w) !! k = Some row /\ shows s now seen (Collection k)
          /\ x = {| tc_parent := co_parent row; tc_name := co_name row; tc_role := role (Collection k) |})
  /\ (forall d x, tr_devices t !! d = Some x <->
        exists row r, s_devices (tw_store w) !! d = Some row /\ role (Device d) = Some r
          /\ x = device_row (s_folders (tw_store w)) row r)
  /\ (forall p x, tr_profiles t !! p = Some x <->
        exists row r, s_profiles (tw_store w) !! p = Some row /\ role (Profile p) = Some r /\ x = profile_row row r)
  /\ (forall c x, tr_credentials t !! c = Some x <->
        exists row r, vs_credentials (tw_vault w) !! c = Some row /\ role (Credential c) = Some r
          /\ x = credential_row (tw_vault w) c row r).
Proof.
  intros t role. assert (Hr : forall o, Model.roles (seen_by s now seen) !! o = role o) by apply visible_iff.
  split_and!; intros i x; unfold t, tree; cbn [tr_folders tr_collections tr_devices tr_profiles tr_credentials];
    rewrite map_lookup_imap; fold (seen_by s now seen).
  - rewrite bind_Some. apply exist_proper; intros row. unfold tree_folder. fold (sees (seen_by s now seen) i).
    rewrite <- sees_iff, Hr. destruct (sees _ i); naive_solver.
  - rewrite bind_Some. apply exist_proper; intros row. unfold tree_collection. rewrite <- sees_collection_iff, Hr.
    destruct (_ || _); naive_solver.
  - unfold tree_device. rewrite Hr, bind_Some. setoid_rewrite fmap_Some. naive_solver.
  - unfold tree_profile. rewrite Hr, bind_Some. setoid_rewrite fmap_Some. naive_solver.
  - unfold tree_credential. rewrite Hr, bind_Some. setoid_rewrite fmap_Some. naive_solver.
Qed.

(** *** What hangs together *)

(** Every collection lies in one, or in none, and every credential in one; the
    foreign keys of the tables. *)
Definition collections_known (db : VaultStore) : Prop :=
  (forall k row p, vs_collections db !! k = Some row -> co_parent row = Some p -> is_Some (vs_collections db !! p))
  /\ (forall c row, vs_credentials db !! c = Some row -> is_Some (vs_collections db !! cr_collection row)).

Lemma shown_folder s now w f :
  shows s now w (Folder f) -> is_Some (s_folders (tw_store w) !! f) -> is_Some (tr_folders (tree s now w w) !! f).
Proof. intros Hs [row Hrow]. eexists. apply (proj1 (tree_shows_exactly s now w w)). by exists row. Qed.

Lemma shown_collection s now w k :
  shows s now w (Collection k) -> is_Some (vs_collections (tw_vault w) !! k) ->
  is_Some (tr_collections (tree s now w w) !! k).
Proof. intros Hs [row Hrow]. eexists. apply (proj1 (proj2 (tree_shows_exactly s now w w))). by exists row. Qed.

Lemma lies_in_folder s now w o f :
  shows s now w o -> container (tree_catalog w now) o = Some (Folder f) -> is_Some (s_folders (tw_store w) !! f) ->
  is_Some (tr_folders (tree s now w w) !! f).
Proof. intros Hs Hc. apply shown_folder. by eapply shows_above. Qed.

Lemma lies_in_collection s now w o k :
  shows s now w o -> container (tree_catalog w now) o = Some (Collection k) -> is_Some (vs_collections (tw_vault w) !! k) ->
  is_Some (tr_collections (tree s now w w) !! k).
Proof. intros Hs Hc. apply shown_collection. by eapply shows_above. Qed.

(** The tree is a tree: whatever it shows lies in something it shows, up to
    the top level, so nothing shown is out of reach. *)
Theorem tree_hangs_together (s : Session) (now : Z) (w : TreeWorld) :
  store_ok (tw_store w) -> collections_known (tw_vault w) ->
  let t := tree s now w w in
  (forall f x p, tr_folders t !! f = Some x -> tf_parent x = Some p -> is_Some (tr_folders t !! p))
  /\ (forall d x, tr_devices t !! d = Some x -> is_Some (tr_folders t !! d_folder (td_settings x)))
  /\ (forall p x f, tr_profiles t !! p = Some x -> tp_folder x = Some f -> is_Some (tr_folders t !! f))
  /\ (forall k x p, tr_collections t !! k = Some x -> tc_parent x = Some p -> is_Some (tr_collections t !! p))
  /\ (forall c x, tr_credentials t !! c = Some x -> is_Some (tr_collections t !! cr_collection (tk_row x))).
Proof.
  intros ((_ & Hup) & Hdev & Hpro & _) (Hcol & Hcred) t.
  destruct (tree_shows_exactly s now w w) as (Hf & Hk & Hd & Hp & Hc). fold t in Hf, Hk, Hd, Hp, Hc.
  split_and!.
  - intros f x p (row & Hrow & Hs & ->)%Hf Hpar. simpl in Hpar. eapply lies_in_folder; [exact Hs| |].
    + cbn [container]. by rewrite tree_folders, lookup_fmap, Hrow; simpl; rewrite Hpar.
    + apply (Hup f p). by exists row.
  - intros d x (row & r & Hrow & Hr & ->)%Hd. eapply lies_in_folder; [eapply shows_role, Hr| |].
    + cbn [container]. by rewrite tree_devices, lookup_fmap, Hrow.
    + apply (Hdev d row Hrow).
  - intros p x f (row & r & Hrow & Hr & ->)%Hp Hfold. simpl in Hfold. eapply lies_in_folder; [eapply shows_role, Hr| |].
    + cbn [container]. by rewrite tree_profiles, lookup_fmap, Hrow; simpl; rewrite Hfold.
    + by apply (Hpro p row Hrow).
  - intros k x p (row & Hrow & Hs & ->)%Hk Hpar. simpl in Hpar. eapply lies_in_collection; [exact Hs| |].
    + cbn [container]. by rewrite tree_collections, lookup_fmap, Hrow; simpl; rewrite Hpar.
    + by eapply Hcol.
  - intros c x (row & r & Hrow & Hr & ->)%Hc. eapply lies_in_collection; [eapply shows_role, Hr| |].
    + cbn [container]. by rewrite tree_credentials, lookup_fmap, Hrow.
    + by eapply Hcred.
Qed.

Lemma elem_of_opened s w f : f ∈ opened s w <-> (user_id s, f) ∈ tw_open w.
Proof.
  unfold opened. rewrite elem_of_map. split.
  - intros ([u g] & -> & [Hu Hin]%elem_of_filter). simpl in *. by subst u.
  - intros Hin. exists (user_id s, f). split; [done|]. by apply elem_of_filter.
Qed.

(** *** What is hidden stays hidden *)

(** What of a device's row is shown. *)
Definition device_facts (d : DeviceRow) :=
  (d_settings d, d_keywords d, d_keywords_by d, certificate_fingerprint (d_pins d), d_key d, host_key (d_pins d) ≫= fingerprint).

(** Two states of the tables that differ only in what somebody has no role
    on and nothing below, in secrets and in what others do. *)
Record alike (s : Session) (now : Z) (w w' : TreeWorld) : Prop := {
  al_seen : seen_by s now w = seen_by s now w';
  al_folders : forall f, sees (seen_by s now w) f = true ->
    s_folders (tw_store w) !! f = s_folders (tw_store w') !! f;
  al_collections : forall k,
    is_some (Model.roles (seen_by s now w) !! Collection k) || bool_decide (k ∈ collections_path_only (seen_by s now w)) = true ->
    vs_collections (tw_vault w) !! k = vs_collections (tw_vault w') !! k;
  al_devices : forall d, is_Some (Model.roles (seen_by s now w) !! Device d) ->
    device_facts <$> s_devices (tw_store w) !! d = device_facts <$> s_devices (tw_store w') !! d;
  al_profiles : forall p, is_Some (Model.roles (seen_by s now w) !! Profile p) ->
    (fun row => profile_row row Role_List) <$> s_profiles (tw_store w) !! p
    = (fun row => profile_row row Role_List) <$> s_profiles (tw_store w') !! p;
  al_credentials : forall c, is_Some (Model.roles (seen_by s now w) !! Credential c) ->
    vs_credentials (tw_vault w) !! c = vs_credentials (tw_vault w') !! c
    /\ attachments_of (tw_vault w) c = attachments_of (tw_vault w') c;
  al_open : forall f, sees (seen_by s now w) f = true ->
    (user_id s, f) ∈ tw_open w <-> (user_id s, f) ∈ tw_open w';
  al_purpose : purpose_required s (tw_conn w) = purpose_required s (tw_conn w')
}.

#[export] Instance alike_equivalence s now : Equivalence (alike s now).
Proof.
  split.
  - by intros w.
  - intros w w' [Hs Hf Hk Hd Hp Hc Ho Hu].
    split; [done|rewrite <- Hs..|done]; intros i Hi; [symmetry; auto..| |symmetry; auto].
    destruct (Hc i Hi). by split.
  - intros w1 w2 w3 [Hs Hf Hk Hd Hp Hc Ho Hu] [Hs' Hf' Hk' Hd' Hp' Hc' Ho' Hu'].
    rewrite <- Hs in Hf', Hk', Hd', Hp', Hc', Ho'.
    split; [congruence| | | | | | |congruence]; intros i Hi; try (etrans; [by apply Hf || by apply Hk || by apply Hd || by apply Hp|auto]).
    + destruct (Hc i Hi), (Hc' i Hi). split; congruence.
    + etrans; [by apply Ho|by apply Ho'].
Qed.

Lemma up_above s now w f k : rtc (up (s_folders (tw_store w))) f k -> shows s now w (Folder f) -> shows s now w (Folder k).
Proof.
  induction 1 as [|x y z (r & Hr & Hp) _ IH]; [done|]. intros Hs. apply IH. eapply shows_above; [exact Hs|].
  unfold above. cbn [container]. by rewrite tree_folders, lookup_fmap, Hr; simpl; rewrite Hp.
Qed.

(** The way to a device that is shown is shown. *)
Lemma alike_reached s now w w' d row :
  store_ok (tw_store w) -> store_ok (tw_store w') -> alike s now w w' ->
  s_devices (tw_store w) !! d = Some row -> is_Some (Model.roles (seen_by s now w) !! Device d) ->
  reached_through (s_folders (tw_store w')) (d_settings row) = reached_through (s_folders (tw_store w)) (d_settings row).
Proof.
  intros ((Hac & _) & _) ((Hac' & _) & _) Hal Hrow [r Hr]. unfold reached_through, device_connector.
  destruct (d_mode _); [|done..]. unfold folder_connector. do 2 f_equal. apply ancestors_agree; [done..|].
  intros k Hk. symmetry. apply (al_folders _ _ _ _ Hal). apply sees_iff. eapply up_above; [exact Hk|].
  eapply (shows_above _ _ _ (Device d)).
  - eapply shows_role. rewrite <- (proj1 (visible_iff _ _)). exact Hr.
  - unfold above. cbn [container]. by rewrite tree_devices, lookup_fmap, Hrow.
Qed.

(** C15: What somebody may not see leaves no trace in what they are sent: tables
    that differ only in objects they have no role on and nothing below, in
    secrets and in what belongs to others, give the same tree. *)
Theorem tree_tells_nothing_else (s : Session) (now : Z) (w w' : TreeWorld) :
  store_ok (tw_store w) -> store_ok (tw_store w') -> alike s now w w' -> tree s now w w = tree s now w' w'.
Proof.
  intros Hok Hok' Hal. pose proof Hal as [Hs Hf Hk Hd Hp Hc Ho Hu]. unfold tree. cbn zeta.
  fold (seen_by s now w) (seen_by s now w'). rewrite <- Hs. f_equal; try done.
  - apply map_eq. intros i. rewrite !map_lookup_imap. unfold tree_folder. fold (sees (seen_by s now w) i).
    destruct (sees _ i) eqn:Hi; [by rewrite (Hf i Hi)|]. by do 2 destruct (_ !! i).
  - apply map_eq. intros i. rewrite !map_lookup_imap. unfold tree_device.
    destruct (Model.roles _ !! Device i) as [r|] eqn:Hi; [|by do 2 destruct (_ !! i)].
    pose proof (Hd i ltac:(by exists r)) as Hrow. destruct (s_devices (tw_store w) !! i) as [d|] eqn:Hd1;
      destruct (s_devices (tw_store w') !! i) as [d'|]; try done. simpl. f_equal.
    pose proof (alike_reached s now w w' i d Hok Hok' Hal Hd1 ltac:(by exists r)) as Hre.
    injection Hrow as E1 E2 E3 E4 E5 E6. unfold device_row. by rewrite <- E1, <- E2, <- E3, <- E4, <- E5, <- E6, Hre.
  - apply map_eq. intros i. rewrite !map_lookup_imap. unfold tree_profile.
    destruct (Model.roles _ !! Profile i) as [r|] eqn:Hi; [|by do 2 destruct (_ !! i)].
    pose proof (Hp i ltac:(by exists r)) as Hrow. destruct (s_profiles (tw_store w) !! i), (s_profiles (tw_store w') !! i); try done.
    injection Hrow as E1 E2 E3 E4 E5 E6. simpl. unfold profile_row. by rewrite E1, E2, E3, E4, E5, E6.
  - apply map_eq. intros i. rewrite !map_lookup_imap. unfold tree_collection.
    destruct (_ || _) eqn:Hi; [|by do 2 destruct (_ !! i)]. by rewrite (Hk i Hi).
  - apply map_eq. intros i. rewrite !map_lookup_imap. unfold tree_credential.
    destruct (Model.roles _ !! Credential i) as [r|] eqn:Hi; [|by do 2 destruct (_ !! i)].
    destruct (Hc i ltac:(by exists r)) as [Hrow Ha]. rewrite <- Hrow. destruct (_ !! i); [|done]. simpl. unfold credential_row. by rewrite Ha.
  - apply set_eq. intros f. rewrite !elem_of_filter, !elem_of_opened. split; intros [Hsee Hin]; (split; [done|]); by apply (Ho f Hsee).
Qed.

(** *** Open folders *)

Lemma elem_of_tree_open s now seen w f :
  f ∈ tr_open (tree s now seen w) <-> sees (seen_by s now seen) f = true /\ (user_id s, f) ∈ tw_open w.
Proof. simpl. rewrite elem_of_filter, elem_of_opened. done. Qed.

(** Opening or closing a folder does just that, in the tree of this user only,
    and only for a folder they see. *)
Theorem open_folder_is_kept (s : Session) (now : Z) (id : Uuid) (open : bool) (seen w : TreeWorld) :
  let '(r, w') := set_folder_open s now id open seen w in
  match r with
  | Ok _ =>
      sees (seen_by s now seen) id = true
      /\ (forall f, f ∈ tr_open (tree s now seen w') <-> if decide (f = id) then open = true else f ∈ tr_open (tree s now seen w))
      /\ (forall s' now' seen', user_id s' <> user_id s -> tr_open (tree s' now' seen' w') = tr_open (tree s' now' seen' w))
  | Err e => w' = w /\ (e = AP_NotFound <-> sees (seen_by s now seen) id = false)
  end.
Proof.
  unfold set_folder_open. destruct (sees _ id) eqn:Hs; simpl; [|by split].
  assert (Hall : forall o, (forall uf, uf <> (user_id s, id) -> uf ∈ o <-> uf ∈ tw_open w) ->
    ((user_id s, id) ∈ o <-> open = true) ->
    let w' := {| tw_conn := tw_conn w; tw_vault := tw_vault w; tw_open := o |} in
    true = true
    /\ (forall f, f ∈ tr_open (tree s now seen w') <-> if decide (f = id) then open = true else f ∈ tr_open (tree s now seen w))
    /\ (forall s' now' seen', user_id s' <> user_id s -> tr_open (tree s' now' seen' w') = tr_open (tree s' now' seen' w))).
  { intros o Ho Hid w'. split_and!; [done|..].
    - intros f. case_decide as Hf; rewrite !elem_of_tree_open; cbn [tw_open w']; [subst f; rewrite Hs; naive_solver|].
      rewrite Ho; [done|congruence].
    - intros s' now' seen' Hne. apply set_eq. intros f. rewrite !elem_of_tree_open. cbn [tw_open w']. rewrite Ho; [done|congruence]. }
  destruct open.
  - destruct (is_some _ && is_some _); [|by split; [|split]].
    apply Hall; [intros uf Huf|]; rewrite elem_of_union, elem_of_singleton; naive_solver.
  - apply Hall; [intros uf Huf|]; rewrite elem_of_difference, elem_of_singleton; naive_solver.
Qed.

(** Protected fields of credentials come without their value. *)
Lemma protected_fields_have_no_value s now seen w c x :
  vault_ok (tw_vault w) -> tr_credentials (tree s now seen w) !! c = Some x ->
  Forall (fun f => fd_protected f = true -> fd_value f = None) (cr_fields (tk_row x)).
Proof.
  intros [Hc _ _ _] (row & r & Hrow & _ & ->)%(proj2 (proj2 (proj2 (proj2 (tree_shows_exactly s now seen w))))).
  apply (fields_plain _ _ _ (Hc c row Hrow)).
Qed.

End tree.

(** ** Examples *)

Module TreeExamples.

#[local] Existing Instance BreakGlassExamples.decimal_uuid.
#[local] Existing Instance TerminalExamples.ed25519.
#[local] Existing Instance CatalogExamples.no_keys.

Definition empty_vault : VaultStore := {|
  vs_collections := {[ 20 := {| co_parent := None; co_name := lit "Servers" |}; 21 := {| co_parent := Some 20; co_name := lit "Lab" |} ]};
  vs_credentials := ∅; vs_attachments := ∅; vs_secrets := ∅;
  vs_objects := {| Model.folders := []; Model.collections := []; Model.devices := []; Model.credentials := []; Model.profiles := [] |};
  vs_grants := []; vs_log := [] |}.

Lemma step_grants f db : store_step db (with_grants f db).
Proof. by apply step_other. Qed.

(** Carol's role is on folder 2, where the router lies; folder 1 is above. *)
Definition w0 : TreeWorld := {| tw_conn := TerminalExamples.world; tw_vault := empty_vault; tw_open := ∅ |}.

Definition carol : Session := TerminalExamples.carol.

Example carols_tree :
  let t := tree carol 0 w0 w0 in
  ((fun x => (tf_parent x, tf_role x)) <$> tr_folders t) = {[ 1 := (None, None); 2 := (Some 1, Some Role_Connect) ]}
  /\ ((fun x => (td_reached_through x, td_host_key_fingerprint x, td_role x)) <$> tr_devices t)
      = {[ 7 := (None, Some (lit "SHA256:AAAA"), Role_Connect) ]}
  /\ tr_collections t = ∅.
Proof. split_and!; vm_compute; reflexivity. Qed.

Lemma w0_reachable : rtc store_step empty_store (tw_store w0).
Proof.
  change (tw_store w0) with (with_grants (fun _ => s_grants (tw_store w0)) CatalogExamples.pinned).
  eapply rtc_r; [exact CatalogExamples.pinned_reachable|exact (step_grants _ CatalogExamples.pinned)].
Qed.

Lemma collections_of_vault : collections_known empty_vault.
Proof.
  split; intros i row; simpl; [|by rewrite lookup_empty].
  intros p Hi Hp. revert Hi. rewrite lookup_insert_Some, lookup_singleton_Some.
  intros [[_ <-]|(_ & _ & <-)]; simpl in Hp; simplify_eq. by eexists.
Qed.

Lemma tree_hangs_together_witness :
  exists x, tr_folders (tree carol 0 w0 w0) !! 2 = Some x /\ tf_parent x = Some 1
    /\ is_Some (tr_folders (tree carol 0 w0 w0) !! 1).
Proof.
  destruct (tree_hangs_together carol 0 w0 (reachable_store_ok _ w0_reachable) collections_of_vault) as [H _].
  assert (Hx : exists x, tr_folders (tree carol 0 w0 w0) !! 2 = Some x /\ tf_parent x = Some 1)
    by (vm_compute; eexists; split; reflexivity).
  destruct Hx as (x & Hx & Hp). exists x. split_and!; [exact Hx|exact Hp|exact (H 2 x 1 Hx Hp)].
Defined.

(** A folder of somebody else, with a device and its password. *)
Definition hidden_requests : list Catalog.Request :=
  [Rq_CreateFolder 3 (CatalogExamples.folder None "merger");
   Rq_CreateDevice 8 {| Devices.i_folder := 3; Devices.i_name := lit "data room"; Devices.i_protocol := lit "ssh"; Devices.i_host := lit "10.9.9.9"; Devices.i_port := 22;
     Devices.i_auth_mode := lit "device"; Devices.i_profile := None; Devices.i_description := []; Devices.i_layout := None; Devices.i_mode := None; Devices.i_connector := None;
     Devices.i_confirmation := false; Devices.i_username := lit "root"; Devices.i_domain := []; Devices.i_secret_kind := Some (lit "password");
     Devices.i_secrets := {| si_password := Some (lit "geheim"); si_private_key := None; si_passphrase := None; si_certificate := None |} |}].

Definition hidden_store : Store := CatalogExamples.after RequestExamples.boss hidden_requests (tw_store w0).

Definition w1 : TreeWorld :=
  {| tw_conn := on_store (fun _ => hidden_store) TerminalExamples.world; tw_vault := empty_vault; tw_open := {[(99, 3)]} |}.

Lemma hidden_run : CatalogExamples.run RequestExamples.boss hidden_requests (tw_store w0) = Ok (tw_store w1).
Proof. vm_compute. reflexivity. Qed.

Lemma w1_reachable : rtc store_step empty_store (tw_store w1).
Proof. etrans; [exact w0_reachable|exact (CatalogExamples.run_reachable _ _ _ _ hidden_run)]. Qed.

Lemma hidden_folder : base.delete 3 (s_folders (tw_store w1)) = s_folders (tw_store w0).
Proof. vm_compute. reflexivity. Qed.

Lemma hidden_device : base.delete 8 (s_devices (tw_store w1)) = s_devices (tw_store w0).
Proof. vm_compute. reflexivity. Qed.

Lemma hidden_profiles : s_profiles (tw_store w1) = s_profiles (tw_store w0).
Proof. vm_compute. reflexivity. Qed.

Lemma hidden_sight : seen_by carol 0 w0 = seen_by carol 0 w1.
Proof. vm_compute. reflexivity. Qed.

Lemma not_three : sees (seen_by carol 0 w0) 3 = false.
Proof. vm_compute. reflexivity. Qed.

Lemma not_eight : Model.roles (seen_by carol 0 w0) !! Device 8 = None.
Proof. vm_compute. reflexivity. Qed.

Lemma carols_id : user_id carol = 21.
Proof. vm_compute. reflexivity. Qed.

Lemma carol_sees_the_same : alike carol 0 w0 w1.
Proof.
  constructor.
  - exact hidden_sight.
  - intros f Hf. rewrite <- hidden_folder. apply lookup_delete_ne. intros <-. by rewrite not_three in Hf.
  - intros k _. reflexivity.
  - intros d [r Hd]. rewrite <- hidden_device. f_equal. apply lookup_delete_ne. intros <-. by rewrite not_eight in Hd.
  - intros p _. by rewrite hidden_profiles.
  - intros c _. split; reflexivity.
  - intros f _. rewrite carols_id. simpl. rewrite elem_of_singleton, elem_of_empty. split; [done|]. by intros [= _].
  - reflexivity.
Qed.

Lemma tree_tells_nothing_else_witness :
  s_devices (tw_store w1) !! 8 <> None /\ tree carol 0 w0 w0 = tree carol 0 w1 w1.
Proof.
  split; [vm_compute; discriminate|].
  exact (tree_tells_nothing_else carol 0 w0 w1 (reachable_store_ok _ w0_reachable) (reachable_store_ok _ w1_reachable) carol_sees_the_same).
Defined.

(** The catalog and the rows are read one after the other: a device moved out
    of reach in between is shown once more, as it is now. *)
Definition moved : TreeWorld :=
  {| tw_conn := on_store (fun _ => CatalogExamples.after RequestExamples.boss
                  [Rq_CreateFolder 3 (CatalogExamples.folder (Some 1) "merger"); Rq_MoveDevice 7 3] (tw_store w0)) TerminalExamples.world;
     tw_vault := empty_vault; tw_open := ∅ |}.

Example moved_in_between :
  (d_folder ∘ td_settings) <$> tr_devices (tree carol 0 w0 moved) !! 7 = Some 3
  /\ tr_devices (tree carol 0 moved moved) !! 7 = None.
Proof. split; vm_compute; reflexivity. Qed.

End TreeExamples.
