(* ===== verification/Config.v ===== *)
(** * Settings from the environment (crates/server/src/config.rs, downloads.rs, api/origin.rs; crates/connector/src/settings.rs, agent.rs)

    How remotehub and its connector read what they are told at the start, from
    variables, the files they name and, at the connector, [connector.conf];
    the programs remotehub serves, and the check of where a request comes from,
    which takes the public origin from the settings. The environment and the
    files are functions; URIs, JSON and TLS are other crates' and parameters.
    Arithmetic is that of a release build, which wraps around. *)
From S2P Require Import Prelude Text Ip Network Proxy Model Session AccessRequests Store Folders Devices.

Inductive ConfigError :=
| CE_Missing (name : list Z)
| CE_MissingFile (name : list Z)
| CE_File (name path reason : list Z)
| CE_Invalid (name value : list Z)
| CE_Pair (given missing : list Z).

(** The environment, and what reading a file gives: its text or why not. *)
Definition Env : Type := list Z -> option (list Z).
Definition Files : Type := list Z -> result (list Z) (list Z).

Definition non_empty (v : option (list Z)) : option (list Z) :=
  v ≫= fun v => if bool_decide (v = []) then None else Some v.

Fixpoint try_map {A B E : Type} (f : A -> result B E) (l : list A) : result (list B) E :=
  match l with
  | [] => Ok []
  | a :: l => let? b := f a in let? bs := try_map f l in Ok (b :: bs)
  end.

(** [list.split([',', ' '])], without empty entries. *)
Definition entries (text : str) : list (list Z) :=
  filter (fun e => e <> []) (split_by (fun c => (c =? 44) || (c =? 32)) text).

(** ** Reading one setting *)

Section reading.
Context (files : Files) (lookup : Env).

Definition read_setting (name : list Z) : result (option (list Z)) ConfigError :=
  match non_empty (lookup (name ++ lit "_FILE")) with
  | Some path =>
      match files path with
      | Ok content => Ok (non_empty (Some (trim content)))
      | Err reason => Err (CE_File name path reason)
      end
  | None => Ok (non_empty (lookup name))
  end.

Definition required (name : list Z) : result (list Z) ConfigError :=
  let? v := read_setting name in ok_or v (CE_Missing name).

Definition parse_or {T} (name : list Z) (parse : str -> option T) (value : option (list Z)) (d : T) :
    result T ConfigError :=
  match value with
  | None => Ok d
  | Some v => ok_or (parse v) (CE_Invalid name v)
  end.

Definition parsed_list {T} (name : list Z) (parse : str -> option T) : result (list T) ConfigError :=
  let? v := read_setting name in
  match v with
  | None => Ok []
  | Some text => try_map (fun e => ok_or (parse e) (CE_Invalid name e)) (entries text)
  end.

End reading.

(** ** The server's settings *)

Definition DEFAULT_LISTEN : list Z := lit "0.0.0.0:8080".
Definition DEFAULT_COURIER_LISTEN : list Z := lit "0.0.0.0:8081".
Definition DEFAULT_GUACD : list Z := lit "guacd:4822".
Definition DEFAULT_BROWSER : list Z := lit "browser:4823".

(** [SocketAddr], with an IPv6 address' scope. *)
Record SocketAddr := { sa_ip : IpAddr; sa_scope : Z; sa_port : Z }.

Definition socket_addr (s : str) : option SocketAddr :=
  let v4 := '(a, rest) ← read_ipv4_addr s; '(port, rest) ← read_port rest;
            Some ({| sa_ip := IpAddr_V4 a; sa_scope := 0; sa_port := port |}, rest) in
  let v6 := s ← read_given_char 91 s; '(a, s) ← read_ipv6_addr s;
            let '(scope, s) := default (0, s) (read_scope_id s) in
            s ← read_given_char 93 s; '(port, s) ← read_port s;
            Some ({| sa_ip := IpAddr_V6 a; sa_scope := scope; sa_port := port |}, s) in
  match (match v4 with Some r => Some r | None => v6 end) with
  | Some (a, []) => Some a
  | _ => None
  end.

(** The defaults parse; the other address is never taken. *)
Definition default_addr (text : list Z) : SocketAddr :=
  default {| sa_ip := IpAddr_V4 0; sa_scope := 0; sa_port := 0 |} (socket_addr text).

(** [bool::from_str]. *)
Definition parse_bool (s : str) : option bool :=
  if bool_decide (s = lit "true") then Some true
  else if bool_decide (s = lit "false") then Some false else None.

(** Seconds. *)
Record SessionConfig := { sc_idle : Z; sc_max : Z }.

Record KratosConfig := { kc_public_url : list Z; kc_admin_url : list Z }.

Record CaddyConfig := { cc_socket : list Z; cc_sites : list Z; cc_caddyfile : list Z; cc_address : list Z }.

Record Config := {
  cf_listen : SocketAddr;
  cf_courier_token : option (list Z);
  cf_courier_listen : SocketAddr;
  cf_caddy : option CaddyConfig;
  cf_database_url : list Z;
  cf_database_password : option (list Z);
  cf_web_dir : option (list Z);
  cf_downloads : option (list Z);
  cf_extension_ids : list (list Z);
  cf_log_json : bool;
  cf_public_origin : list Z;
  cf_session : SessionConfig;
  cf_master_key_file : list Z;
  cf_ssh_ca_key_file : option (list Z);
  cf_own_account_connections : bool;
  cf_guacd : list Z;
  cf_browser : list Z;
  cf_rdp_keyboard_layout : list Z;
  cf_trusted_proxies : list Network;
  cf_kratos : option KratosConfig
}.

(** [downloads::is_extension_id]. *)
Definition is_extension_id (id : str) : bool :=
  (length id =? 32)%nat && forallb (fun b => (97 <=? b) && (b <=? 112)) id.

(** [str::split_once] with a text. *)
Fixpoint split_once_at (pat s : str) : option (list Z * list Z) :=
  match strip_prefix pat s with
  | Some rest => Some ([], rest)
  | None => match s with [] => None | c :: s => (fun '(a, b) => (c :: a, b)) <$> split_once_at pat s end
  end.

Definition origin (url : str) : option (list Z) :=
  let url := trim_end_matches 47 (trim url) in
  match split_once_at (lit "://") url with
  | None => None
  | Some (scheme, rest) =>
      let scheme := to_ascii_lowercase <$> scheme in
      let valid := (bool_decide (scheme = lit "http") || bool_decide (scheme = lit "https"))
                   && negb (bool_decide (rest = []))
                   && negb (existsb (fun c => bool_decide (c ∈ lit "/?#@ ")) rest) in
      if valid then Some (scheme ++ lit "://" ++ (to_ascii_lowercase <$> rest)) else None
  end.

Section server.
Context (files : Files) (lookup : Env).

Definition database : result (list Z * option (list Z)) ConfigError :=
  let? url := required files lookup (lit "REMOTEHUB_DATABASE_URL") in
  let? password := read_setting files lookup (lit "REMOTEHUB_DATABASE_PASSWORD") in
  Ok (url, password).

Definition listen_address : result SocketAddr ConfigError :=
  let? v := read_setting files lookup (lit "REMOTEHUB_LISTEN") in
  parse_or (lit "REMOTEHUB_LISTEN") socket_addr v (default_addr DEFAULT_LISTEN).

(** A release build multiplies modulo [2^64]. *)
Definition u64_mul (a b : Z) : Z := (a * b) mod 2 ^ 64.

Definition session_config : result SessionConfig ConfigError :=
  let? v := read_setting files lookup (lit "REMOTEHUB_SESSION_IDLE_MINUTES") in
  let? idle_minutes := parse_or (lit "REMOTEHUB_SESSION_IDLE_MINUTES") (parse_unsigned u64_max) v 30 in
  let? v := read_setting files lookup (lit "REMOTEHUB_SESSION_MAX_HOURS") in
  let? max_hours := parse_or (lit "REMOTEHUB_SESSION_MAX_HOURS") (parse_unsigned u64_max) v 12 in
  if (idle_minutes =? 0) || (max_hours =? 0) || (u64_mul max_hours 60 <? idle_minutes)
  then Err (CE_Invalid (lit "REMOTEHUB_SESSION_IDLE_MINUTES") (decimal idle_minutes))
  else Ok {| sc_idle := u64_mul idle_minutes 60; sc_max := u64_mul max_hours 3600 |}.

Definition service (name url : list Z) : result (list Z) ConfigError :=
  if starts_with (lit "http://") url || starts_with (lit "https://") url
  then Ok (trim_end_matches 47 url) else Err (CE_Invalid name url).

Definition kratos_config : result (option KratosConfig) ConfigError :=
  let? v := read_setting files lookup (lit "REMOTEHUB_KRATOS_URL") in
  match v with
  | None => Ok None
  | Some public_url =>
      let? admin_url := required files lookup (lit "REMOTEHUB_KRATOS_ADMIN_URL") in
      let? public_url := service (lit "REMOTEHUB_KRATOS_URL") public_url in
      let? admin_url := service (lit "REMOTEHUB_KRATOS_ADMIN_URL") admin_url in
      Ok (Some {| kc_public_url := public_url; kc_admin_url := admin_url |})
  end.

(** [host:port] of a service on the internal network. *)
Definition host_port (name : list Z) (d : list Z) : result (list Z) ConfigError :=
  let? v := read_setting files lookup name in
  let at_ := default d v in
  if negb (bool_decide (58 ∈ at_)) || existsb (fun c => bool_decide (c ∈ lit "/ ")) at_
  then Err (CE_Invalid name at_) else Ok at_.

Definition caddy_config : result (option CaddyConfig) ConfigError :=
  let? v := read_setting files lookup (lit "REMOTEHUB_CADDY_SOCKET") in
  Ok ((fun socket => {| cc_socket := socket; cc_sites := lit "/run/caddy-sites";
                        cc_caddyfile := lit "/run/caddy-config/Caddyfile"; cc_address := lit "caddy:443" |}) <$> v).

Definition from_lookup : result Config ConfigError :=
  let? listen := listen_address in
  let? db := database in
  let? web_dir := read_setting files lookup (lit "REMOTEHUB_WEB_DIR") in
  let? downloads := read_setting files lookup (lit "REMOTEHUB_DOWNLOADS") in
  let? extension_ids := parsed_list files lookup (lit "REMOTEHUB_EXTENSION_IDS")
                          (fun e => if is_extension_id e then Some e else None) in
  let? format := read_setting files lookup (lit "REMOTEHUB_LOG_FORMAT") in
  let? log_json := match format with
                   | None => Ok false
                   | Some f => if bool_decide (f = lit "text") then Ok false
                               else if bool_decide (f = lit "json") then Ok true
                               else Err (CE_Invalid (lit "REMOTEHUB_LOG_FORMAT") f)
                   end in
  let? public_url := required files lookup (lit "REMOTEHUB_PUBLIC_URL") in
  let? public_origin := ok_or (origin public_url) (CE_Invalid (lit "REMOTEHUB_PUBLIC_URL") public_url) in
  let? session := session_config in
  let? master_key_file := ok_or (non_empty (lookup (lit "REMOTEHUB_MASTER_KEY_FILE")))
                            (CE_MissingFile (lit "REMOTEHUB_MASTER_KEY_FILE")) in
  let ssh_ca_key_file := non_empty (lookup (lit "REMOTEHUB_SSH_CA_KEY_FILE")) in
  let? kratos := kratos_config in
  let? v := read_setting files lookup (lit "REMOTEHUB_OWN_ACCOUNT_CONNECTIONS") in
  let? own := parse_or (lit "REMOTEHUB_OWN_ACCOUNT_CONNECTIONS") parse_bool v true in
  let? guacd := host_port (lit "REMOTEHUB_GUACD") DEFAULT_GUACD in
  let? browser := host_port (lit "REMOTEHUB_BROWSER") DEFAULT_BROWSER in
  let? v := read_setting files lookup (lit "REMOTEHUB_RDP_KEYBOARD_LAYOUT") in
  let layout := default (lit "en-us-qwerty") v in
  let? _ := if bool_decide (layout ∈ KEYBOARD_LAYOUTS) then Ok tt
            else Err (CE_Invalid (lit "REMOTEHUB_RDP_KEYBOARD_LAYOUT") layout) in
  let? trusted_proxies := parsed_list files lookup (lit "REMOTEHUB_TRUSTED_PROXIES") (fun e => ok (network_from_str e)) in
  let? courier_token := read_setting files lookup (lit "REMOTEHUB_COURIER_TOKEN") in
  let? v := read_setting files lookup (lit "REMOTEHUB_COURIER_LISTEN") in
  let? courier_listen := parse_or (lit "REMOTEHUB_COURIER_LISTEN") socket_addr v (default_addr DEFAULT_COURIER_LISTEN) in
  let? caddy := caddy_config in
  Ok {| cf_listen := listen; cf_courier_token := courier_token; cf_courier_listen := courier_listen; cf_caddy := caddy;
        cf_database_url := db.1; cf_database_password := db.2; cf_web_dir := web_dir; cf_downloads := downloads;
        cf_extension_ids := extension_ids; cf_log_json := log_json; cf_public_origin := public_origin;
        cf_session := session; cf_master_key_file := master_key_file; cf_ssh_ca_key_file := ssh_ca_key_file;
        cf_own_account_connections := own; cf_guacd := guacd; cf_browser := browser; cf_rdp_keyboard_layout := layout;
        cf_trusted_proxies := trusted_proxies; cf_kratos := kratos |}.

End server.

(** ** Where a request comes from (origin.rs) *)

(** The method is safe (GET, HEAD, OPTIONS, TRACE), the path without [/api],
    and the header [Origin], [Some None] if it is not text. Whether it passes. *)
Definition same_origin (public : list Z) (safe : bool) (path : str) (header : option (option (list Z))) : bool :=
  safe || starts_with (lit "/extension/") path
  || match header with
     | None => true
     | Some (Some o) => eq_ignore_ascii_case o public
     | Some None => false
     end.

(** ** What remotehub serves itself (downloads.rs) *)

(** The JSON of [remotehub-extension.json]: id and version. *)
Class ExtensionJson := extension_json : list Z -> option (list Z * list Z).

Definition PROGRAM : list Z := lit "remotehub-connector.exe".
Definition EXTENSION_ZIP : list Z := lit "remotehub-extension.zip".
Definition EXTENSION_CRX : list Z := lit "remotehub-extension.crx".
Definition EXTENSION_INFO : list Z := lit "remotehub-extension.json".
Definition UPDATE_MANIFEST : list Z := lit "remotehub-extension.xml".
Definition SUMS : list Z := lit "SHA256SUMS".

Record Served := { sv_name : list Z; sv_content_type : list Z; sv_bytes : list Z }.

Record Downloads := { dl_files : list Served; dl_sums : list Z; dl_extension : option (list Z * list Z) }.

Definition is_version (version : str) : bool :=
  let parts := split 46 version in
  (1 <=? length parts)%nat && (length parts <=? 4)%nat
  && forallb (fun p => negb (bool_decide (p = [])) && (length p <=? 9)%nat && forallb is_ascii_digit p) parts.

(** [HEXLOWER.encode]. *)
Definition hexlower (bytes : list Z) : list Z := bytes ≫= fun b => [hex_digit (b / 16); hex_digit (b mod 16)].

Inductive Download :=
| DL_NotFound
| DL_Sums (text : list Z)
| DL_Manifest (text : list Z)
| DL_File (content_type bytes : list Z).

Section downloads.
Context `{ExtensionJson} `{Session.Sha256}.

(** [std::fs::read]: the bytes, nothing if there is no such file, or an error. *)
Definition Directory : Type := list Z -> result (option (list Z)) unit.

Definition read_extension (read : Directory) : result (option (list Z * list Z)) unit :=
  let? info := read EXTENSION_INFO in
  match info with
  | None => Ok None
  | Some bytes =>
      let? e := ok_or (extension_json bytes) tt in
      if negb (is_extension_id e.1) || negb (is_version e.2) then Err tt else Ok (Some e)
  end.

Fixpoint read_files (read : Directory) (described : bool) (names : list (list Z * list Z)) : result (list Served) unit :=
  match names with
  | [] => Ok []
  | (name, content_type) :: names =>
      if bool_decide (name = EXTENSION_CRX) && negb described then read_files read described names
      else
        let? bytes := read name in
        let? rest := read_files read described names in
        Ok (match bytes with
            | Some bytes => {| sv_name := name; sv_content_type := content_type; sv_bytes := bytes |} :: rest
            | None => rest
            end)
  end.

Definition sum_line (f : Served) : list Z := hexlower (sha256 (sv_bytes f)) ++ lit "  " ++ sv_name f ++ [10].

Definition load_downloads (read : Directory) : result (option Downloads) unit :=
  let? extension := read_extension read in
  let? files := read_files read (is_some extension)
                  [(PROGRAM, lit "application/vnd.microsoft.portable-executable"); (EXTENSION_ZIP, lit "application/zip");
                   (EXTENSION_CRX, lit "application/x-chrome-extension")] in
  if bool_decide (files = []) then Ok None
  else
    let has_crx := existsb (fun f => bool_decide (sv_name f = EXTENSION_CRX)) files in
    Ok (Some {| dl_files := files; dl_sums := files ≫= sum_line;
                dl_extension := if has_crx then extension else None |}).

Definition update_manifest (extension : list Z * list Z) (public_origin : list Z) : list Z :=
  lit "<?xml version='1.0' encoding='UTF-8'?>" ++ [10]
  ++ lit "<gupdate xmlns='http://www.google.com/update2/response' protocol='2.0'>" ++ [10]
  ++ lit "  <app appid='" ++ extension.1 ++ lit "'>" ++ [10]
  ++ lit "    <updatecheck codebase='" ++ public_origin ++ lit "/downloads/" ++ EXTENSION_CRX ++ lit "' version='"
  ++ extension.2 ++ lit "' />" ++ [10]
  ++ lit "  </app>" ++ [10] ++ lit "</gupdate>" ++ [10].

Definition file (downloads : option Downloads) (public_origin name : list Z) : Download :=
  match downloads with
  | None => DL_NotFound
  | Some d =>
      if bool_decide (name = SUMS) then DL_Sums (dl_sums d)
      else if bool_decide (name = UPDATE_MANIFEST) then
        match dl_extension d with Some e => DL_Manifest (update_manifest e public_origin) | None => DL_NotFound end
      else match List.find (fun f => bool_decide (sv_name f = name)) (dl_files d) with
           | Some f => DL_File (sv_content_type f) (sv_bytes f)
           | None => DL_NotFound
           end
  end.

End downloads.

(** ** The connector's settings (settings.rs, agent.rs) *)

(** [http::Uri]: the scheme and the host, where there is one; and the TLS
    roots with the CA of a file, or why not. *)
Class ConnectorLibraries := {
  Uri : Type;
  uri_parse : list Z -> option Uri;
  uri_scheme : Uri -> option (list Z);
  uri_host : Uri -> option (list Z);
  TlsConfig : Type;
  tls_config : option (list Z) -> result TlsConfig (list Z)
}.

Definition conf_pair (line : list Z) : option (list Z * list Z) :=
  (fun '(name, value) => (trim name, trim value)) <$> split_once 61 line.

Definition parse_conf (text : str) : gmap (list Z) (list Z) :=
  collect (omap conf_pair (filter (fun line => line <> [] /\ starts_with [35] line = false) (trim <$> lines text))).

(** [conf] is the text of [connector.conf], empty if it cannot be read. *)
Definition lookup_settings (env : Env) (conf : str) : Env :=
  fun name => match env name with Some v => Some v | None => parse_conf conf !! name end.

(** As built for anything but Windows. *)
Definition default_data_dir : list Z := lit "/var/lib/remotehub-connector".

Definition data_dir (files : Files) (lookup : Env) : result (list Z) ConfigError :=
  let? v := read_setting files lookup (lit "REMOTEHUB_CONNECTOR_DATA") in Ok (default default_data_dir v).

Record UiSettings := { us_listen : SocketAddr; us_certificate : option (list Z * list Z) }.

Definition CERT : list Z := lit "REMOTEHUB_CONNECTOR_TLS_CERT_FILE".
Definition KEY : list Z := lit "REMOTEHUB_CONNECTOR_TLS_KEY_FILE".

Definition ui_settings (files : Files) (lookup : Env) : result UiSettings ConfigError :=
  let? v := read_setting files lookup (lit "REMOTEHUB_CONNECTOR_LISTEN") in
  let? listen := parse_or (lit "REMOTEHUB_CONNECTOR_LISTEN") socket_addr v
                   {| sa_ip := IpAddr_V4 (127 * 2 ^ 24 + 1); sa_scope := 0; sa_port := 8480 |} in
  let? certificate := match non_empty (lookup CERT), non_empty (lookup KEY) with
                      | Some cert, Some key => Ok (Some (cert, key))
                      | None, None => Ok None
                      | Some _, None => Err (CE_Pair CERT KEY)
                      | None, Some _ => Err (CE_Pair KEY CERT)
                      end in
  Ok {| us_listen := listen; us_certificate := certificate |}.

Section connector.
Context `{ConnectorLibraries}.

(** [report_every] is [STATE_EVERY]. *)
Record AgentSettings := { as_url : Uri; as_token : list Z; as_tls : TlsConfig; as_allow : list Network }.

Definition agent_settings (files : Files) (lookup : Env) : result AgentSettings ConfigError :=
  let? raw_url := required files lookup (lit "REMOTEHUB_URL") in
  let? url := match uri_parse raw_url with
              | Some u => if (bool_decide (uri_scheme u = Some (lit "https")) || bool_decide (uri_scheme u = Some (lit "http")))
                             && is_some (uri_host u) then Ok u else Err (CE_Invalid (lit "REMOTEHUB_URL") raw_url)
              | None => Err (CE_Invalid (lit "REMOTEHUB_URL") raw_url)
              end in
  let? token := required files lookup (lit "REMOTEHUB_CONNECTOR_TOKEN") in
  let? ca_file := read_setting files lookup (lit "REMOTEHUB_CONNECTOR_CA_FILE") in
  let? tls := match tls_config ca_file with
              | Ok t => Ok t
              | Err reason => Err (CE_Invalid (lit "REMOTEHUB_CONNECTOR_CA_FILE") reason)
              end in
  let? allow := parsed_list files lookup (lit "REMOTEHUB_CONNECTOR_ALLOW") (fun e => ok (network_from_str e)) in
  Ok {| as_url := url; as_token := token; as_tls := tls; as_allow := allow |}.

End connector.

(** ** Theorems *)

Lemma try_map_Forall {A B E} (f : A -> result B E) l bs :
  try_map f l = Ok bs -> Forall (fun b => exists a, a ∈ l /\ f a = Ok b) bs.
Proof.
  revert bs. induction l as [|a l IH]; intros bs; simpl; [by intros [= <-]|].
  destruct (f a) as [b|] eqn:Hb; [|done]. simpl. destruct (try_map f l) as [bs'|]; [|done]. intros [= <-]. constructor.
  - exists a. split; [by left|done].
  - eapply Forall_impl; [by apply IH|]. intros x (a' & Hin & Hx). exists a'. split; [by right|done].
Qed.

Lemma parse_or_ok {T} name (parse : str -> option T) v d t :
  parse_or name parse v d = Ok t -> (v = None /\ t = d) \/ exists x, v = Some x /\ parse x = Some t.
Proof. destruct v as [x|]; simpl; [|naive_solver]. destruct (parse x) eqn:E; naive_solver. Qed.

(** A session of the settings lasts for a time, and no longer idle than at all,
    unless the hours are beyond what a count of seconds holds. *)
Lemma session_config_ok files lookup sc :
  session_config files lookup = Ok sc ->
  exists m h, 0 < m <= u64_max /\ 0 < h <= u64_max
    /\ sc = {| sc_idle := u64_mul m 60; sc_max := u64_mul h 3600 |}
    /\ (h * 3600 < 2 ^ 64 -> sc_idle sc = m * 60 /\ sc_max sc = h * 3600 /\ 0 < sc_idle sc <= sc_max sc).
Proof.
  unfold session_config. destruct (read_setting _ _ _) as [v|]; [|done]. simpl.
  destruct (parse_or _ _ v 30) as [m|] eqn:Hm; [|done]. simpl.
  destruct (read_setting _ _ _) as [v'|]; [|done]. simpl.
  destruct (parse_or _ _ v' 12) as [h|] eqn:Hh; [|done]. simpl.
  destruct (_ || _) eqn:Hb; [done|]. intros [= <-].
  assert (Hbound : forall name v d t, 0 <= d <= u64_max -> parse_or name (parse_unsigned u64_max) v d = Ok t -> 0 <= t <= u64_max).
  { intros name x d t Hd [[-> ->]|(y & -> & Hy)]%parse_or_ok; [done|]. by apply parse_unsigned_bound in Hy. }
  apply Hbound in Hm; [|unfold u64_max; lia]. apply Hbound in Hh; [|unfold u64_max; lia].
  apply orb_false_iff in Hb as [Hb Hle]. apply orb_false_iff in Hb as [H1 H2]. bools.
  exists m, h. simpl. split_and!; try done; try lia. intros Hsmall. unfold u64_mul in *.
  rewrite (Z.mod_small (h * 60)) in Hle by lia. rewrite !Z.mod_small by lia. lia.
Qed.

(** *** The public origin *)

Lemma split_once_at_Some pat s a b : split_once_at pat s = Some (a, b) -> s = a ++ pat ++ b.
Proof.
  revert a. induction s as [|c s IH]; intros a; simpl.
  - destruct (strip_prefix pat []) as [r|] eqn:E; [|done]. intros [= <- ->]. by apply strip_prefix_Some in E.
  - destruct (strip_prefix pat (c :: s)) as [r|] eqn:E.
    + intros [= <- ->]. by apply strip_prefix_Some in E.
    + intros ([a' b'] & Hs & Heq)%fmap_Some. simplify_eq. simpl. by rewrite (IH _ Hs) at 1.
Qed.

(** Text that ends otherwise is not trimmed. *)
Lemma trim_end_by_id f s c : f c = false -> trim_end_by f (s ++ [c]) = s ++ [c].
Proof.
  intros Hc. unfold trim_end_by. rewrite reverse_app. change (reverse [c]) with [c]. simpl.
  rewrite Hc. by rewrite <- (reverse_involutive (s ++ [c])), reverse_app.
Qed.

Lemma trim_start_by_cons f c s : f c = false -> trim_start_by f (c :: s) = c :: s.
Proof. intros Hc. simpl. by rewrite Hc. Qed.

(** What an origin is made of. *)
Definition origin_of (scheme rest : list Z) : list Z := scheme ++ lit "://" ++ rest.

Definition origin_rest (rest : list Z) : Prop :=
  rest <> [] /\ Forall (fun c => (c ∉ lit "/?#@ ") /\ is_ascii_upper c = false) rest.

Lemma origin_Some url o :
  origin url = Some o ->
  exists scheme rest, o = origin_of scheme rest /\ (scheme = lit "http" \/ scheme = lit "https") /\ origin_rest rest.
Proof.
  unfold origin. destruct (split_once_at _ _) as [[scheme rest]|]; [|done]. destruct (_ && _) eqn:Hv; [|done]. intros [= <-].
  apply andb_true_iff in Hv as [Hv Hc]. apply andb_true_iff in Hv as [Hs Hr]. exists (to_ascii_lowercase <$> scheme), (to_ascii_lowercase <$> rest).
  split; [done|]. split; [apply orb_true_iff in Hs as [Hs|Hs]; bools; auto|]. apply negb_true_iff in Hr, Hc. bools. split; [by destruct rest|].
  apply Forall_fmap, Forall_forall. intros c Hin. eapply existsb_false in Hc; [|exact Hin]. apply bool_decide_eq_false in Hc.
  split; [|apply to_ascii_lowercase_facts]. simpl.
  unfold to_ascii_lowercase. destruct (is_ascii_upper c) eqn:Hu; [|done].
  unfold is_ascii_upper in Hu. bools. clear Hc. change (lit "/?#@ ") with [47; 63; 35; 64; 32]. rewrite !elem_of_cons, elem_of_nil. lia.
Qed.

Lemma strip_prefix_not p s : (forall r, s <> p ++ r) -> strip_prefix p s = None.
Proof. intros Hn. destruct (strip_prefix p s) as [r|] eqn:E; [|done]. apply strip_prefix_Some in E. by destruct (Hn r). Qed.

Lemma split_once_at_first scheme rest :
  58 ∉ scheme -> split_once_at (lit "://") (origin_of scheme rest) = Some (scheme, rest).
Proof.
  unfold origin_of. change (lit "://") with [58; 47; 47]. induction scheme as [|c scheme IH]; intros Hc; [done|].
  apply not_elem_of_cons in Hc as [Hne Hc]. cbn [app split_once_at]. rewrite strip_prefix_not by (intros r Hr; simpl in Hr; congruence).
  simpl in IH. by rewrite IH.
Qed.

Lemma lowered rest : Forall (fun c => is_ascii_upper c = false) rest -> to_ascii_lowercase <$> rest = rest.
Proof.
  induction 1 as [|c rest Hc _ IH]; [done|]. rewrite fmap_cons, IH. f_equal. unfold to_ascii_lowercase. by rewrite Hc.
Qed.

(** The text of a header that names the public origin, in whatever case, is
    the only one that passes. *)
Lemma same_origin_iff public path o scheme rest :
  public = origin_of scheme rest -> (scheme = lit "http" \/ scheme = lit "https") -> origin_rest rest ->
  starts_with (lit "/extension/") path = false ->
  same_origin public false path (Some (Some o)) = true <-> to_ascii_lowercase <$> o = public.
Proof.
  intros -> Hs [_ Hr] Hp. unfold same_origin. rewrite Hp. simpl. unfold eq_ignore_ascii_case. rewrite bool_decide_eq_true.
  assert (Hlow : to_ascii_lowercase <$> origin_of scheme rest = origin_of scheme rest).
  { unfold origin_of. rewrite !fmap_app, (lowered rest) by (eapply Forall_impl; [exact Hr|]; naive_solver).
    f_equal. by destruct Hs as [->| ->]. }
  by rewrite Hlow.
Qed.

(** *** What a configuration guarantees *)

(** The steps of [from_lookup] whose results later theorems speak of. *)
Lemma from_lookup_ok files lookup c :
  from_lookup files lookup = Ok c ->
  session_config files lookup = Ok (cf_session c)
  /\ (exists url, required files lookup (lit "REMOTEHUB_PUBLIC_URL") = Ok url /\ origin url = Some (cf_public_origin c))
  /\ Forall (fun id => is_extension_id id = true) (cf_extension_ids c)
  /\ non_empty (lookup (lit "REMOTEHUB_MASTER_KEY_FILE")) = Some (cf_master_key_file c)
  /\ host_port files lookup (lit "REMOTEHUB_GUACD") DEFAULT_GUACD = Ok (cf_guacd c)
  /\ host_port files lookup (lit "REMOTEHUB_BROWSER") DEFAULT_BROWSER = Ok (cf_browser c)
  /\ cf_rdp_keyboard_layout c ∈ KEYBOARD_LAYOUTS.
Proof.
  unfold from_lookup.
  destruct (listen_address _ _); [|done]. cbn beta iota.
  destruct (database _ _) as [db|]; [|done]. cbn beta iota.
  do 2 (destruct (read_setting _ _ _); [|done]; cbn beta iota).
  destruct (parsed_list _ _ (lit "REMOTEHUB_EXTENSION_IDS") _) as [ids|] eqn:Hids; [|done]. cbn beta iota.
  destruct (read_setting _ _ _) as [format|]; [|done]. cbn beta iota.
  destruct (match format with Some _ => _ | None => _ end); [|done]. cbn beta iota.
  destruct (required _ _ _) as [url|] eqn:Hurl; [|done]. cbn beta iota.
  destruct (origin url) as [o|] eqn:Ho; [|done]. cbn [ok_or].
  destruct (session_config _ _) as [sc|] eqn:Hsc; [|done]. cbn beta iota.
  destruct (non_empty _) as [mk|] eqn:Hmk; [|done]. cbn [ok_or].
  destruct (kratos_config _ _); [|done]. cbn beta iota.
  destruct (read_setting _ _ _); [|done]. cbn beta iota.
  destruct (parse_or _ parse_bool _ _); [|done]. cbn beta iota.
  destruct (host_port _ _ (lit "REMOTEHUB_GUACD") _) as [guacd|] eqn:Hg; [|done]. cbn beta iota.
  destruct (host_port _ _ (lit "REMOTEHUB_BROWSER") _) as [browser|] eqn:Hb; [|done]. cbn beta iota.
  destruct (read_setting _ _ _) as [layout|]; [|done]. cbn beta iota zeta.
  destruct (bool_decide (_ ∈ KEYBOARD_LAYOUTS)) eqn:Hl; [|done]. cbn beta iota.
  destruct (parsed_list _ _ (lit "REMOTEHUB_TRUSTED_PROXIES") _); [|done]. cbn beta iota.
  destruct (read_setting _ _ (lit "REMOTEHUB_COURIER_TOKEN")); [|done]. cbn beta iota.
  destruct (read_setting _ _ _); [|done]. cbn beta iota.
  destruct (parse_or _ _ _ _); [|done]. cbn beta iota.
  destruct (caddy_config _ _); [|done]. cbn beta iota.
  intros [= <-]. cbn. split_and!; try done; [by exists url| |by apply bool_decide_eq_true in Hl].
  unfold parsed_list in Hids. destruct (read_setting _ _ _) as [[text|]|]; [| |done]; cbn in Hids.
  - apply try_map_Forall in Hids. eapply Forall_impl; [exact Hids|]. intros id (e & _ & He). cbn beta in He.
    destruct (is_extension_id e) eqn:Hid; naive_solver.
  - by simplify_eq.
Qed.

(** What remotehub starts with is in order: a session lasts for a time that is
    no shorter than it may be idle (unless the hours overflow a count of
    seconds), the public origin is one a browser could send, extension ids are
    32 letters, services are named with a port, and the master keys come from a
    file. *)
Theorem settings_are_sound (files : Files) (lookup : Env) (c : Config) :
  from_lookup files lookup = Ok c ->
  (exists m h, 0 < m /\ 0 < h /\ cf_session c = {| sc_idle := u64_mul m 60; sc_max := u64_mul h 3600 |}
     /\ (h * 3600 < 2 ^ 64 -> 0 < sc_idle (cf_session c) <= sc_max (cf_session c)))
  /\ (exists scheme rest, cf_public_origin c = origin_of scheme rest /\ (scheme = lit "http" \/ scheme = lit "https") /\ origin_rest rest)
  /\ Forall (fun id => length id = 32%nat /\ Forall (fun b => 97 <= b <= 112) id) (cf_extension_ids c)
  /\ (58 ∈ cf_guacd c) /\ (47 ∉ cf_guacd c) /\ (58 ∈ cf_browser c) /\ (47 ∉ cf_browser c)
  /\ cf_rdp_keyboard_layout c ∈ KEYBOARD_LAYOUTS
  /\ lookup (lit "REMOTEHUB_MASTER_KEY_FILE") = Some (cf_master_key_file c).
Proof.
  intros (Hsc & (url & _ & Ho) & Hids & Hmk & Hg & Hb & Hl)%from_lookup_ok.
  assert (Hport : forall name d out, host_port files lookup name d = Ok out -> (58 ∈ out) /\ 47 ∉ out).
  { intros name d out. unfold host_port. destruct (read_setting _ _ _) as [v|]; [|done]. cbn beta iota zeta.
    destruct (_ || _) eqn:E; [done|]. intros [= <-]. apply orb_false_iff in E as [E1 E2]. apply negb_false_iff in E1. bools. split; [done|].
    intros Hin. eapply existsb_false in E2; [|exact Hin]. apply bool_decide_eq_false in E2. apply E2. by left. }
  destruct (session_config_ok _ _ _ Hsc) as (m & h & Hm & Hh & Heq & Hlen). split_and!.
  - exists m, h. split_and!; [lia|lia|done|]. intros Hs. apply (Hlen Hs).
  - by apply origin_Some in Ho.
  - eapply Forall_impl; [exact Hids|]. unfold is_extension_id. intros id Hid. apply andb_true_iff in Hid as [H1 H2].
    split; [by apply Nat.eqb_eq|]. rewrite forallb_forall in H2. apply Forall_forall. intros b Hin%list_elem_of_In. apply H2 in Hin. bools. lia.
  - by apply Hport in Hg as [].
  - by apply Hport in Hg as [].
  - by apply Hport in Hb as [].
  - by apply Hport in Hb as [].
  - done.
  - unfold non_empty in Hmk. destruct (lookup _) as [v|]; [|done]. simpl in Hmk. case_bool_decide; naive_solver.
Qed.

(** With a configuration, of the requests that name an origin, change
    something and are not the browser extension's exactly those pass that name
    the public one, in whatever case. *)
Theorem changes_come_from_own_pages (files : Files) (lookup : Env) (c : Config) (path o : list Z) :
  from_lookup files lookup = Ok c -> starts_with (lit "/extension/") path = false ->
  (same_origin (cf_public_origin c) false path (Some (Some o)) = true <-> to_ascii_lowercase <$> o = cf_public_origin c)
  /\ same_origin (cf_public_origin c) false path (Some None) = false.
Proof.
  intros (_ & (url & _ & Ho) & _)%from_lookup_ok Hp. destruct (origin_Some _ _ Ho) as (scheme & rest & Heq & Hs & Hr).
  split; [by eapply same_origin_iff|]. unfold same_origin. by rewrite Hp.
Qed.

(** *** Nothing else counts *)

Definition SETTINGS : list (list Z) := lit <$>
  ["REMOTEHUB_LISTEN"; "REMOTEHUB_DATABASE_URL"; "REMOTEHUB_DATABASE_PASSWORD"; "REMOTEHUB_WEB_DIR"; "REMOTEHUB_DOWNLOADS";
   "REMOTEHUB_EXTENSION_IDS"; "REMOTEHUB_LOG_FORMAT"; "REMOTEHUB_PUBLIC_URL"; "REMOTEHUB_SESSION_IDLE_MINUTES";
   "REMOTEHUB_SESSION_MAX_HOURS"; "REMOTEHUB_KRATOS_URL"; "REMOTEHUB_KRATOS_ADMIN_URL"; "REMOTEHUB_OWN_ACCOUNT_CONNECTIONS";
   "REMOTEHUB_GUACD"; "REMOTEHUB_BROWSER"; "REMOTEHUB_RDP_KEYBOARD_LAYOUT"; "REMOTEHUB_TRUSTED_PROXIES";
   "REMOTEHUB_COURIER_TOKEN"; "REMOTEHUB_COURIER_LISTEN"; "REMOTEHUB_CADDY_SOCKET"]%string.

(** Only as paths, never as values. *)
Definition KEY_FILES : list (list Z) := [lit "REMOTEHUB_MASTER_KEY_FILE"; lit "REMOTEHUB_SSH_CA_KEY_FILE"].

Ltac named := match goal with |- ?P => apply (bool_decide_eq_true_1 P); vm_compute; reflexivity end.

(** Of the environment only the settings, their files and the two paths of
    keys are read; a key in a variable of its own, in particular, never is. *)
Theorem only_settings_count (files : Files) (lookup lookup' : Env) :
  (forall n, n ∈ SETTINGS -> lookup n = lookup' n /\ lookup (n ++ lit "_FILE") = lookup' (n ++ lit "_FILE")) ->
  (forall n, n ∈ KEY_FILES -> lookup n = lookup' n) ->
  from_lookup files lookup = from_lookup files lookup'.
Proof.
  intros Hs Hk.
  assert (Hr : forall n, n ∈ SETTINGS -> read_setting files lookup n = read_setting files lookup' n).
  { intros n Hn. unfold read_setting. by destruct (Hs n Hn) as [-> ->]. }
  unfold from_lookup, listen_address, database, session_config, kratos_config, host_port, caddy_config, parsed_list, required.
  rewrite (Hk (lit "REMOTEHUB_MASTER_KEY_FILE")), (Hk (lit "REMOTEHUB_SSH_CA_KEY_FILE")) by named.
  repeat match goal with |- context [read_setting files lookup (lit ?n)] => rewrite (Hr (lit n)) by named end.
  reflexivity.
Qed.

(** *** The connector's file *)

(** Text a line of the file keeps as it is: without line feeds, and without
    white space at its ends. *)
Definition clean (s : str) : Prop :=
  (10 ∉ s) /\ (forall c r, s = c :: r -> is_whitespace c = false) /\ (forall r c, s = r ++ [c] -> is_whitespace c = false).

Definition conf_entry (nv : list Z * list Z) : Prop :=
  clean nv.1 /\ clean nv.2 /\ nv.1 <> [] /\ (61 ∉ nv.1) /\ starts_with [35] nv.1 = false.

Definition conf_line (nv : list Z * list Z) : list Z := nv.1 ++ 61 :: nv.2.

Lemma trim_clean s : clean s -> trim s = s.
Proof.
  intros (_ & Hfirst & Hlast). unfold trim. rewrite (trim_start_by_id _ s) by (intros c r; apply Hfirst).
  unfold trim_end_by. rewrite trim_start_by_id; [by rewrite reverse_involutive|].
  intros c r Hr. apply (Hlast (reverse r) c). rewrite <- (reverse_involutive s), Hr. by rewrite reverse_cons.
Qed.

Lemma clean_line nv : conf_entry nv -> clean (conf_line nv).
Proof.
  destruct nv as [n v]. intros ((Hn & Hnf & _) & (Hv & _ & Hvl) & Hne & _ & _). unfold conf_line. simpl in *. split_and!.
  - rewrite elem_of_app, elem_of_cons. naive_solver.
  - intros c r. destruct n as [|d n]; [done|]. simpl. intros [= -> _]. by eapply Hnf.
  - intros r c Heq. destruct v as [|d v _] using rev_ind.
    + apply app_inj_tail in Heq as [_ <-]. done.
    + rewrite app_comm_cons, app_assoc in Heq. apply app_inj_tail in Heq as [_ <-]. by eapply Hvl.
Qed.

Lemma drop_cr_clean s : clean s -> drop_cr s = s.
Proof.
  intros (_ & _ & Hlast). unfold drop_cr. destruct (reverse s) as [|c r] eqn:Hr; [done|].
  assert (Hw : is_whitespace c = false).
  { apply (Hlast (reverse r) c). rewrite <- (reverse_involutive s), Hr. by rewrite reverse_cons. }
  destruct (decide (c = 13)) as [->|Hne]; [done|]. 
  by repeat match goal with |- context [match ?x with _ => _ end] => is_var x; destruct x; try done end.
Qed.

Lemma split_lines (ls : list (list Z)) :
  Forall (fun l : list Z => 10 ∉ l) ls -> split 10 (ls ≫= fun l => l ++ [10]) = ls ++ [[]].
Proof.
  induction 1 as [|l ls Hl _ IH]; [done|]. rewrite bind_cons, <- app_assoc. change ([10] ++ ?x) with (10 :: x).
  rewrite split_app by done. by rewrite IH.
Qed.

Lemma lines_clean ls : Forall clean ls -> lines (ls ≫= fun l => l ++ [10]) = ls.
Proof.
  intros Hls. unfold lines. rewrite split_lines by (eapply Forall_impl; [exact Hls|]; by intros l []).
  rewrite reverse_app. simpl. rewrite reverse_involutive.
  induction Hls as [|l ls Hl _ IH]; [done|]. rewrite fmap_cons, IH. f_equal. by apply drop_cr_clean.
Qed.

Lemma conf_line_read nv :
  conf_entry nv -> (conf_line nv <> [] /\ starts_with [35] (conf_line nv) = false) /\ conf_pair (conf_line nv) = Some nv.
Proof.
  destruct nv as [n v]. intros (Hn & Hv & Hne & He & Hh). simpl in *. unfold conf_pair, conf_line. simpl. split.
  - destruct n as [|c n]; [done|]. split; [done|]. apply not_true_iff_false. intros (r & Hr)%starts_with_true.
    assert (starts_with [35] (c :: n) = true) by (apply starts_with_true; exists n; simpl in Hr |- *; congruence). congruence.
  - rewrite split_once_app by done. simpl. by rewrite !trim_clean.
Qed.

(** What is written to [connector.conf], a line for each setting, is what is
    read from it. *)
Theorem conf_reads_back (settings : list (list Z * list Z)) :
  Forall conf_entry settings -> NoDup settings.*1 ->
  parse_conf ((conf_line <$> settings) ≫= fun l => l ++ [10]) = list_to_map settings.
Proof.
  intros Hs Hnd. unfold parse_conf. rewrite lines_clean.
  2: { apply Forall_fmap. eapply Forall_impl; [exact Hs|]. intros nv. apply clean_line. }
  assert (Heq : omap conf_pair (filter (fun line => line <> [] /\ starts_with [35] line = false) (trim <$> (conf_line <$> settings)))
                = settings).
  { clear Hnd. induction Hs as [|nv settings Hnv _ IH]; [done|]. rewrite !fmap_cons, trim_clean by by apply clean_line.
    destruct (conf_line_read nv Hnv) as [Hk Hp]. rewrite filter_cons_True by done. set (rest := filter _ _) in *.
    change (omap conf_pair (conf_line nv :: rest)) with
      (match conf_pair (conf_line nv) with Some y => y :: omap conf_pair rest | None => omap conf_pair rest end).
    by rewrite Hp, IH. }
  rewrite Heq. apply map_eq. intros k. destruct (list_to_map settings !! k) as [v|] eqn:Hk.
  - apply collect_lookup_nodup; [done|]. by apply elem_of_list_to_map.
  - apply eq_None_not_Some. rewrite collect_lookup_is_Some. by apply not_elem_of_list_to_map.
Qed.

(** *** Downloads *)

Section downloads_facts.
Context `{ExtensionJson} `{Session.Sha256}.

Lemma read_files_ok read described names fs :
  read_files read described names = Ok fs ->
  Forall (fun f => (sv_name f, sv_content_type f) ∈ names /\ read (sv_name f) = Ok (Some (sv_bytes f))) fs.
Proof.
  revert fs. induction names as [|[name ty] names IH]; intros fs; simpl; [by intros [= <-]|].
  assert (Hmore : forall fs, Forall (fun f => (sv_name f, sv_content_type f) ∈ names /\ read (sv_name f) = Ok (Some (sv_bytes f))) fs ->
                    Forall (fun f => (sv_name f, sv_content_type f) ∈ (name, ty) :: names /\ read (sv_name f) = Ok (Some (sv_bytes f))) fs).
  { intros l Hl. eapply Forall_impl; [exact Hl|]. intros f [Hin Hf]. split; [by right|done]. }
  destruct (_ && _); [intros Hf; apply Hmore; by apply IH|].
  destruct (read name) as [bytes|] eqn:Hr; [|done]. simpl. destruct (read_files _ _ _) as [rest|]; [|done]. intros [= <-].
  destruct bytes as [bytes|]; [|by apply Hmore, IH]. constructor; [|by apply Hmore, IH]. simpl. split; [by left|done].
Qed.

(** remotehub hands out the files of its release and nothing else: a program as
    it lies in the directory, whose line is among the hashes, or a manifest,
    which names an extension of a valid id and version that is served too. *)
Theorem downloads_are_the_releases (read : Directory) (d : Downloads) (public name : list Z) :
  load_downloads read = Ok (Some d) ->
  match file (Some d) public name with
  | DL_NotFound => True
  | DL_Sums text => name = SUMS /\ text = dl_files d ≫= sum_line
  | DL_Manifest text =>
      name = UPDATE_MANIFEST
      /\ exists e, text = update_manifest e public /\ is_extension_id e.1 = true /\ is_version e.2 = true
           /\ exists ty bytes, file (Some d) public EXTENSION_CRX = DL_File ty bytes
  | DL_File ty bytes =>
      name ∈ [PROGRAM; EXTENSION_ZIP; EXTENSION_CRX] /\ read name = Ok (Some bytes)
      /\ exists before after, dl_sums d = before ++ sum_line {| sv_name := name; sv_content_type := ty; sv_bytes := bytes |} ++ after
  end.
Proof.
  unfold load_downloads. destruct (read_extension read) as [ext|] eqn:He; [|done]. cbn beta iota.
  destruct (read_files _ _ _) as [fs|] eqn:Hf; [|done]. cbn beta iota zeta. case_bool_decide; [done|]. intros [= <-].
  apply read_files_ok in Hf.
  assert (Hfind : forall n f, List.find (fun f => bool_decide (sv_name f = n)) fs = Some f -> f ∈ fs /\ sv_name f = n).
  { intros n f [Hin Hn]%List.find_some. bools. split; [by apply list_elem_of_In|done]. }
  unfold file. cbn [dl_files dl_sums dl_extension]. case_bool_decide as Hsum; [done|]. case_bool_decide as Hman.
  - destruct (existsb _ _) eqn:Hcrx; [|done]. destruct ext as [e|]; [|done]. split; [done|]. exists e. split; [done|].
    unfold read_extension in He. destruct (read EXTENSION_INFO) as [[b|]|]; [|done|done]. cbn in He.
    destruct (extension_json b) as [e'|]; [|done]. cbn in He. destruct (_ || _) eqn:Hv; [done|]. simplify_eq.
    apply orb_false_iff in Hv as [Hi Hv]. apply negb_false_iff in Hi, Hv. split_and!; [done..|].
    do 2 rewrite bool_decide_eq_false_2 by done. apply existsb_exists in Hcrx as (f & Hin & Hn).
    destruct (List.find _ _) as [g|] eqn:Hg; [by eexists _, _|]. by rewrite (List.find_none _ _ Hg f Hin) in Hn.
  - destruct (List.find _ _) as [f|] eqn:Hg; [|done]. apply Hfind in Hg as [Hin <-].
    rewrite Forall_forall in Hf. destruct (Hf f Hin) as [Hn Hr]. split_and!; [|exact Hr|].
    + change (fst (sv_name f, sv_content_type f) ∈ fst <$>
        [(PROGRAM, lit "application/vnd.microsoft.portable-executable"); (EXTENSION_ZIP, lit "application/zip");
         (EXTENSION_CRX, lit "application/x-chrome-extension")]). by apply (list_elem_of_fmap_2 fst).
    + apply list_elem_of_split in Hin as (a & b & ->). exists (a ≫= sum_line), (b ≫= sum_line).
      rewrite bind_app, bind_cons. by destruct f.
Qed.

End downloads_facts.

(** ** Examples *)

Module ConfigExamples.

Definition no_files : Files := fun _ => Err (lit "No such file or directory").

Definition env (l : list (string * string)) : Env :=
  fun name => (list_to_map ((fun kv => (lit kv.1, lit kv.2)) <$> l) : gmap (list Z) (list Z)) !! name.

Definition base : list (string * string) :=
  [("REMOTEHUB_DATABASE_URL", "postgres://db/x"); ("REMOTEHUB_PUBLIC_URL", "HTTPS://RemoteHub.Example.com:8443/");
   ("REMOTEHUB_MASTER_KEY_FILE", "/run/secrets/remotehub-master-key")]%string.

Definition fallback : Config := {|
  cf_listen := default_addr DEFAULT_LISTEN; cf_courier_token := None; cf_courier_listen := default_addr DEFAULT_COURIER_LISTEN;
  cf_caddy := None; cf_database_url := []; cf_database_password := None; cf_web_dir := None; cf_downloads := None;
  cf_extension_ids := []; cf_log_json := false; cf_public_origin := []; cf_session := {| sc_idle := 0; sc_max := 0 |};
  cf_master_key_file := []; cf_ssh_ca_key_file := None; cf_own_account_connections := true; cf_guacd := []; cf_browser := [];
  cf_rdp_keyboard_layout := []; cf_trusted_proxies := []; cf_kratos := None |}.

Definition config (l : list (string * string)) : Config :=
  match from_lookup no_files (env (l ++ base)) with Ok c => c | Err _ => fallback end.

Lemma base_ok : from_lookup no_files (env base) = Ok (config []).
Proof. vm_compute. reflexivity. Qed.

Example defaults :
  let c := config [] in
  sa_port (cf_listen c) = 8080 /\ cf_session c = {| sc_idle := 1800; sc_max := 43200 |}
  /\ cf_public_origin c = lit "https://remotehub.example.com:8443" /\ cf_guacd c = lit "guacd:4822".
Proof. split_and!; vm_compute; reflexivity. Qed.

Lemma settings_are_sound_witness :
  0 < sc_idle (cf_session (config [])) /\ 58 ∈ cf_guacd (config []).
Proof.
  destruct (settings_are_sound no_files (env base) (config []) base_ok) as (_ & _ & _ & Hg & _).
  split; [vm_compute; reflexivity|exact Hg].
Defined.

Lemma changes_come_from_own_pages_witness :
  starts_with (lit "/extension/") (lit "/tree") = false
  /\ same_origin (cf_public_origin (config [])) false (lit "/tree") (Some (Some (lit "https://evil.example"))) = false.
Proof.
  split; [vm_compute; reflexivity|].
  destruct (changes_come_from_own_pages no_files (env base) (config []) (lit "/tree") (lit "https://evil.example") base_ok eq_refl)
    as [[H _] _].
  destruct (same_origin _ _ _ _); [|reflexivity]. specialize (H eq_refl). vm_compute in H. discriminate.
Defined.

(** Hours that overflow a count of seconds are taken, and sessions last
    forty-four minutes. *)
Example hours_overflow :
  from_lookup no_files (env ([("REMOTEHUB_SESSION_MAX_HOURS", "307445734561825861")]%string ++ base)) = Ok (config [("REMOTEHUB_SESSION_MAX_HOURS", "307445734561825861")]%string)
  /\ sc_max (cf_session (config [("REMOTEHUB_SESSION_MAX_HOURS", "307445734561825861")]%string)) = 2640.
Proof. split; vm_compute; reflexivity. Qed.

(** A browser leaves a scheme's own port out of its origin; if the public URL
    names it, no page of remotehub may change anything. *)
Example own_port_locks_everyone_out :
  let c := config [("REMOTEHUB_PUBLIC_URL", "https://r.example:443")]%string in
  cf_public_origin c = lit "https://r.example:443"
  /\ same_origin (cf_public_origin c) false (lit "/session") (Some (Some (lit "https://r.example"))) = false.
Proof. split; vm_compute; reflexivity. Qed.

Definition other_env : Env := env (("REMOTEHUB_MASTER_KEY", "AAAA")%string :: ("PATH", "/bin")%string :: base).

Lemma only_settings_count_witness : from_lookup no_files other_env = from_lookup no_files (env base).
Proof.
  apply (only_settings_count no_files other_env (env base)); intros n Hn;
    repeat (apply elem_of_cons in Hn as [-> |Hn]; [vm_compute; auto|]); by apply elem_of_nil in Hn.
Defined.

Definition written : list (list Z * list Z) :=
  [(lit "REMOTEHUB_URL", lit "https://r.example"); (lit "REMOTEHUB_CONNECTOR_ALLOW", lit "10.0.0.0/8, fd00::/8")].

Lemma clean_of s : (bool_decide (10 ∈ s) || is_some_and is_whitespace (head s) || is_some_and is_whitespace (list.last s)) = false -> clean s.
Proof.
  intros [[H1 H2]%orb_false_iff H3]%orb_false_iff. bools. split_and!; [done|..].
  - intros c r ->. exact H2.
  - intros r c ->. by rewrite last_snoc in H3.
Qed.

Lemma conf_reads_back_witness :
  parse_conf ((conf_line <$> written) ≫= fun l => l ++ [10]) = list_to_map written.
Proof.
  apply (conf_reads_back written).
  - repeat constructor; simpl; try (apply clean_of; vm_compute; reflexivity); try done;
      match goal with |- ?P => apply (bool_decide_eq_true_1 P); vm_compute; reflexivity end.
  - match goal with |- ?P => apply (bool_decide_eq_true_1 P); vm_compute; reflexivity end.
Defined.

(** A file named in [connector.conf] goes before a variable of the environment,
    though the file is for what the environment leaves unset. *)
Example file_goes_first :
  let files : Files := fun path => if bool_decide (path = lit "token") then Ok (lit "old" ++ [10]) else Err [] in
  let lookup := lookup_settings (env [("REMOTEHUB_CONNECTOR_TOKEN", "new")]%string)
                  (lit "REMOTEHUB_CONNECTOR_TOKEN_FILE = token") in
  read_setting files lookup (lit "REMOTEHUB_CONNECTOR_TOKEN") = Ok (Some (lit "old")).
Proof. vm_compute. reflexivity. Qed.

#[local] Instance plain_json : ExtensionJson := fun bytes => Some (bytes, lit "1.2.3").
#[local] Instance plain_sum : Session.Sha256 := fun bytes => bytes.

Definition release : Directory := fun name =>
  if bool_decide (name = EXTENSION_INFO) then Ok (Some (replicate 32 97))
  else if bool_decide (name = EXTENSION_CRX) then Ok (Some (lit "Cr24")) else Ok None.

Definition served : Downloads := match load_downloads release with Ok (Some d) => d | _ => {| dl_files := []; dl_sums := []; dl_extension := None |} end.

Lemma downloads_are_the_releases_witness :
  file (Some served) (lit "https://r.example") EXTENSION_CRX = DL_File (lit "application/x-chrome-extension") (lit "Cr24")
  /\ release EXTENSION_CRX = Ok (Some (lit "Cr24")).
Proof.
  assert (Hl : load_downloads release = Ok (Some served)) by (vm_compute; reflexivity).
  assert (Hf : file (Some served) (lit "https://r.example") EXTENSION_CRX = DL_File (lit "application/x-chrome-extension") (lit "Cr24"))
    by (vm_compute; reflexivity).
  pose proof (downloads_are_the_releases release served (lit "https://r.example") EXTENSION_CRX Hl) as H. rewrite Hf in H.
  split; [exact Hf|apply H].
Defined.

End ConfigExamples.
