(* ===== verification/Certificate.v ===== *)
(** * The certificate Caddy serves (crates/server/src/certificate.rs, caddy.rs, api/certificate.rs)

    A certificate of one's own is read, checked against the host, stored with
    its key sealed, written to the files Caddy imports, and loaded by Caddy;
    without one Caddy gets its certificate itself. X.509, PKCS#12 and PEM are
    other crates' and parameters; Caddy is what it answers. Each access to a
    file may fail: [dk_fails] says for the coming ones whether they do. *)
From S2P Require Import Prelude Text Ip Model Session AccessRequests Keyring Config.

(** ** Certificates *)

(** A private key, by the kind of its DER. *)
Inductive KeyDer := Pkcs1 (der : list Z) | Sec1 (der : list Z) | Pkcs8 (der : list Z).

Record Uploaded := { up_chain : list (list Z); up_key : KeyDer }.

Record Info := {
  if_subject : list Z; if_issuer : list Z; if_names : list (list Z); if_not_before : Z; if_not_after : Z;
  if_fingerprint : list Z
}.

Inductive Refusal :=
| Unreadable | NoKey | PfxPassword | KeyMismatch | UnsupportedKey | WrongName | NotYetValid | RF_Expired.

Record Checked := { ch_info : Info; ch_complete : bool }.

(** What a certificate holds: [px_same] says whether subject and issuer are
    the same name, [px_public] is the key it is for. *)
Record Parsed := {
  px_subject : list Z; px_issuer : list Z; px_same : bool; px_names : list (list Z); px_not_before : Z; px_not_after : Z;
  px_public : list Z
}.

(** What signs with a key: its public key, and whether it is Ed25519. *)
Record Signer := { sg_public : option (list Z); sg_ed25519 : bool }.

Inductive PfxError := Pfx_Mac | Pfx_Other.

Class CertificateLibraries := {
  parse_x509 : list Z -> option Parsed;
  any_supported_type : KeyDer -> option Signer;
  pem_certificates : list Z -> option (list (list Z));
  (** the first of them *)
  pem_certificate : list Z -> option (list Z);
  pem_key : list Z -> option KeyDer;
  (** the key and the chain of the file, where it holds a key *)
  pkcs12 : list Z -> list Z -> result (option (list Z * list (list Z))) PfxError
}.

(** [covers]: exactly, or through a wildcard for one label. *)
Definition covers (names : list (list Z)) (host : str) : bool :=
  let host := to_ascii_lowercase <$> host in
  existsb (fun name =>
    bool_decide (name = host)
    || is_some_and (fun parent =>
         is_some_and (fun '(label, rest) => negb (bool_decide (label = [])) && bool_decide (rest = parent)) (split_once 46 host))
         (strip_prefix (lit "*.") name)) names.

Definition LEAST_LIFE : Z := 24 * 3600.
Definition KEY_FIELD : list Z := lit "tls_key".

(** [Settings::host] (lib.rs): the public origin without scheme and port. *)
Definition host_of (public_origin : str) : list Z :=
  let authority := match split_once_at (lit "://") public_origin with Some (_, rest) => rest | None => public_origin end in
  match rsplit_once 58 authority with Some (host, _) => host | None => authority end.

Section certificate.
Context `{CertificateLibraries} `{Base64} `{Session.Sha256}.

Definition from_pem (certificates key : str) : result Uploaded Refusal :=
  let? chain := ok_or (pem_certificates certificates) Unreadable in
  if bool_decide (chain = []) then Err Unreadable
  else let? key := ok_or (pem_key key) NoKey in Ok {| up_chain := chain; up_key := key |}.

Definition from_pfx (data password : list Z) : result Uploaded Refusal :=
  match pkcs12 data password with
  | Err Pfx_Mac => Err PfxPassword
  | Err Pfx_Other => Err Unreadable
  | Ok None => Err NoKey
  | Ok (Some (key, chain)) =>
      if bool_decide (chain = []) then Err Unreadable else Ok {| up_chain := chain; up_key := Pkcs8 key |}
  end.

(** [{b:02X}]. *)
Definition hex_pair (b : Z) : list Z := to_ascii_uppercase <$> [hex_digit (b / 16); hex_digit (b mod 16)].

Definition fingerprint (certificate : list Z) : list Z := join [58] (hex_pair <$> sha256 certificate).

(** The DNS names it covers. *)
Definition dns_names (p : Parsed) : list (list Z) := (fun n : list Z => to_ascii_lowercase <$> n) <$> px_names p.

Definition info (certificate : list Z) : option Info :=
  (fun p : Parsed => {| if_subject := px_subject p; if_issuer := px_issuer p; if_names := dns_names p;
               if_not_before := px_not_before p; if_not_after := px_not_after p; if_fingerprint := fingerprint certificate |})
    <$> parse_x509 certificate.

(** No [Uploaded] has an empty chain, of which the code takes the first. *)
Definition check (uploaded : Uploaded) (host : str) (now : Z) : result Checked Refusal :=
  let leaf := default [] (head (up_chain uploaded)) in
  let? parsed := ok_or (parse_x509 leaf) Unreadable in
  let? signer := ok_or (any_supported_type (up_key uploaded)) UnsupportedKey in
  if sg_ed25519 signer then Err UnsupportedKey
  else
    let? public := ok_or (sg_public signer) UnsupportedKey in
    if negb (bool_decide (public = px_public parsed)) then Err KeyMismatch
    else
      let? i := ok_or (info leaf) Unreadable in
      if negb (covers (if_names i) host) then Err WrongName
      else if now <? if_not_before i then Err NotYetValid
      else if if_not_after i <? now + LEAST_LIFE then Err RF_Expired
      else Ok {| ch_info := i; ch_complete := (1 <? length (up_chain uploaded))%nat || px_same parsed |}.

(** [chunks(64)]. *)
Fixpoint lines_of (fuel : nat) (s : list Z) : list (list Z) :=
  match fuel, s with
  | S fuel, _ :: _ => take 64 s :: lines_of fuel (drop 64 s)
  | _, _ => []
  end.

Definition block (label : list Z) (der : list Z) : list Z :=
  let encoded := b64_encode der in
  lit "-----BEGIN " ++ label ++ lit "-----" ++ [10]
  ++ (lines_of (length encoded) encoded ≫= fun line => line ++ [10])
  ++ lit "-----END " ++ label ++ lit "-----" ++ [10].

Definition to_pem (uploaded : Uploaded) : list Z * list Z :=
  (up_chain uploaded ≫= block (lit "CERTIFICATE"),
   match up_key uploaded with
   | Pkcs1 der => block (lit "RSA PRIVATE KEY") der
   | Sec1 der => block (lit "EC PRIVATE KEY") der
   | Pkcs8 der => block (lit "PRIVATE KEY") der
   end).

(** ** The table *)

Record CertificateRow := { ct_id : Uuid; ct_chain : list Z; ct_not_after : Z; ct_by : Uuid }.

Inductive CertificateAction :=
| TlsCertificateUploaded (subject issuer fingerprint : list Z) (not_after : Z) | TlsCertificateReset.

(** [cd_secrets] are the sealed fields as opening gives them. *)
Record CertDb := {
  cd_row : option CertificateRow;
  cd_secrets : gmap (Uuid * Z * list Z) (list Z);
  cd_log : list (Uuid * CertificateAction)
}.

Definition stored (db : CertDb) : option Uploaded :=
  row ← cd_row db; key ← cd_secrets db !! (ct_id row, 1, KEY_FIELD); ok (from_pem (ct_chain row) key).

Definition remove (db : CertDb) : bool * CertDb :=
  match cd_row db with
  | None => (false, db)
  | Some row =>
      (true, {| cd_row := None; cd_secrets := filter (fun kv => kv.1.1.1 <> ct_id row) (cd_secrets db); cd_log := cd_log db |})
  end.

(** The id is drawn by the database, so its secrets are new. *)
Definition store (new_id : Uuid) (uploaded : Uploaded) (not_after : Z) (by_ : Uuid) (db : CertDb) : CertDb :=
  let db := (remove db).2 in
  let '(chain, key) := to_pem uploaded in
  {| cd_row := Some {| ct_id := new_id; ct_chain := chain; ct_not_after := not_after; ct_by := by_ |};
     cd_secrets := <[(new_id, 1, KEY_FIELD) := key]> (cd_secrets db); cd_log := cd_log db |}.

Definition note (s : Session) (a : CertificateAction) (db : CertDb) : CertDb :=
  {| cd_row := cd_row db; cd_secrets := cd_secrets db; cd_log := cd_log db ++ [(user_id s, a)] |}.

(** ** Caddy's files *)

Definition SNIPPET : list Z := lit "tls.caddy".
Definition CERTIFICATE : list Z := lit "certificate.pem".
Definition KEY : list Z := lit "key.pem".
Definition CADDY_SITES : list Z := lit "/etc/caddy/remotehub".

Inductive Tls := Automatic | Own (chain key : list Z).

Inductive CaddyError := CY_Unreachable | CY_Refused (detail : list Z) | CY_Files.

Abbreviation FileMap := (gmap (list Z) (list Z)) (only parsing).

(** The directory both mount, what Caddy loaded of it last, and for the coming
    accesses whether they fail; without more they do not. *)
Record Disk := { dk_files : FileMap; dk_loaded : FileMap; dk_fails : list bool }.

Definition CM (A : Type) : Type := stM Disk CaddyError A.

Definition set_files (f : FileMap -> FileMap) (w : Disk) : Disk :=
  {| dk_files := f (dk_files w); dk_loaded := dk_loaded w; dk_fails := dk_fails w |}.

(** Whether the next access fails. *)
Definition next_access : CM bool := fun w =>
  match dk_fails w with
  | [] => (Ok false, w)
  | b :: bs => (Ok b, {| dk_files := dk_files w; dk_loaded := dk_loaded w; dk_fails := bs |})
  end.

(** All at once: a new file, renamed into place. *)
Definition write (name content : list Z) : CM unit :=
  failed <-- next_access;
  if failed : bool then fail CY_Files else fun w => (Ok tt, set_files (insert name content) w).

(** What is not there is removed. *)
Definition remove_file (name : list Z) : CM unit :=
  failed <-- next_access;
  if failed : bool then fail CY_Files else fun w => (Ok tt, set_files (delete name) w).

Definition snippet (tls : Tls) : list Z :=
  let rule := match tls with
              | Automatic => [9] ++ lit "tls {" ++ [10; 9; 9] ++ lit "issuer acme" ++ [10; 9; 9] ++ lit "issuer internal" ++ [10; 9] ++ lit "}" ++ [10]
              | Own _ _ => [9] ++ lit "tls " ++ CADDY_SITES ++ lit "/" ++ CERTIFICATE ++ lit " " ++ CADDY_SITES ++ lit "/" ++ KEY ++ [10]
              end in
  lit "# Where Caddy's certificate comes from. remotehub writes this file from" ++ [10]
  ++ lit "# Settings -> Certificate (#146); a change here is overwritten there." ++ [10]
  ++ lit "(remotehub_tls) {" ++ [10] ++ rule ++ lit "}" ++ [10].

Definition write_files (tls : Tls) : CM unit :=
  match tls with
  | Automatic => remove_file CERTIFICATE;; remove_file KEY
  | Own chain key => write CERTIFICATE chain;; write KEY key
  end;;
  write SNIPPET (snippet tls).

(** What cannot be read counts as not there. *)
Definition read_file (name : list Z) : CM (list Z * option (list Z)) :=
  failed <-- next_access;
  fun w => (Ok (name, if failed : bool then None else dk_files w !! name), w).

Definition read_before : CM (list (list Z * option (list Z))) :=
  a <-- read_file SNIPPET; b <-- read_file CERTIFICATE; c <-- read_file KEY; ret [a; b; c].

Fixpoint restore (before : list (list Z * option (list Z))) : CM unit :=
  match before with
  | [] => ret tt
  | (name, content) :: before =>
      match content with Some c => write name c | None => remove_file name end;; restore before
  end.

(** What Caddy answers when it is to load its Caddyfile again: it took the
    files, refused them, or its answer did not come in time, when it may have
    taken them; or the Caddyfile itself cannot be read. *)
Inductive CaddyAnswer := CA_Loaded | CA_Refused (detail : list Z) | CA_NoAnswer (took : bool) | CA_NoCaddyfile.

Definition take_files (w : Disk) : Disk :=
  {| dk_files := dk_files w; dk_loaded := dk_files w; dk_fails := dk_fails w |}.

Definition load (answer : CaddyAnswer) : CM unit := fun w =>
  match answer with
  | CA_Loaded => (Ok tt, take_files w)
  | CA_Refused detail => (Err (CY_Refused detail), w)
  | CA_NoAnswer took => (Err CY_Unreachable, if took then take_files w else w)
  | CA_NoCaddyfile => (Err CY_Files, w)
  end.

Definition serve (tls : Tls) (answer : CaddyAnswer) : CM unit :=
  before <-- read_before;
  write_files tls;;
  fun w =>
    match load answer w with
    | (Ok _, w) => (Ok tt, w)
    | (Err e, w) => (restore before;; fail e) w
    end.

Definition prepare (tls : Tls) : CM unit := write_files tls.

(** ** The handlers *)

Context `{UuidText}.

Record CertWorld := { kw_disk : Disk; kw_db : CertDb }.

Inductive CertProblem :=
| TP_Forbidden | TP_Refused (r : Refusal) | TP_CaddyUnavailable | TP_CaddyRefused (detail : list Z) | TP_Internal.

Definition caddy_failed (e : CaddyError) : CertProblem :=
  match e with CY_Refused detail => TP_CaddyRefused detail | _ => TP_CaddyUnavailable end.

Inductive Source := LetsEncrypt | Remotehub | Source_Own | Other.

Fixpoint contains_text (pat s : list Z) : bool :=
  starts_with pat s || match s with [] => false | _ :: s => contains_text pat s end.

Definition source (served : Info) (own : option Info) (host : list Z) : Source :=
  if is_some_and (fun own => bool_decide (if_fingerprint own = if_fingerprint served)) own then Source_Own
  else if contains_text (lit "remotehub " ++ host ++ lit " Intermediate") (if_issuer served) then Remotehub
  else if contains_text (lit "Let's Encrypt") (if_issuer served) then LetsEncrypt
  else Other.

Record Status := {
  ss_runs : bool; ss_served : option Info; ss_source : option Source; ss_own : option Checked; ss_root : option (list Z)
}.

(** [current] is the chain Caddy presents, [root] the PEM of its root. *)
Definition status (s : Session) (runs : bool) (host : list Z) (now : Z) (current : option (list (list Z)))
    (root : option (list Z)) (db : CertDb) : result Status CertProblem :=
  if negb (is_admin s) then Err TP_Forbidden
  else if negb runs then Ok {| ss_runs := false; ss_served := None; ss_source := None; ss_own := None; ss_root := None |}
  else
    let own := uploaded ← stored db;
               match check uploaded host now with
               | Ok c => Some c
               | Err _ => (fun i => {| ch_info := i; ch_complete := (1 <? length (up_chain uploaded))%nat |})
                            <$> info (default [] (head (up_chain uploaded)))
               end in
    let served := chain ← current; c ← head chain; info c in
    Ok {| ss_runs := true; ss_served := served;
          ss_source := (fun i => source i (ch_info <$> own) host) <$> served; ss_own := own;
          ss_root := pem ← root; der ← pem_certificate pem; Some (fingerprint der) |}.

Record CertInput := { ci_certificate : option (list Z); ci_key : option (list Z); ci_pfx : option (list Z); ci_password : list Z }.

Definition uploaded_of (input : CertInput) : result Uploaded Refusal :=
  match ci_pfx input, ci_certificate input, ci_key input with
  | Some pfx, _, _ => let? data := ok_or (b64_decode (trim pfx)) Unreadable in from_pfx data (ci_password input)
  | None, Some chain, Some key => from_pem chain key
  | _, _, _ => Err Unreadable
  end.

Definition refused {A} (r : result A Refusal) : result A CertProblem :=
  match r with Ok a => Ok a | Err e => Err (TP_Refused e) end.

(** Caddy is told in the middle of the transaction: what it does stays if the
    commit then fails. *)
Definition caddy_in_tx (tls : Tls) (answer : CaddyAnswer) (commits : bool) (db : CertDb) (w : CertWorld) :
    result unit CertProblem * CertWorld :=
  let '(r, disk) := serve tls answer (kw_disk w) in
  match r with
  | Err e => (Err (caddy_failed e), {| kw_disk := disk; kw_db := kw_db w |})
  | Ok _ => if commits then (Ok tt, {| kw_disk := disk; kw_db := db |})
            else (Err TP_Internal, {| kw_disk := disk; kw_db := kw_db w |})
  end.

Definition own_tls (uploaded : Uploaded) : Tls := let '(chain, key) := to_pem uploaded in Own chain key.

Definition upload (s : Session) (runs : bool) (host : list Z) (now : Z) (new_id : Uuid) (input : CertInput)
    (answer : CaddyAnswer) (commits : bool) (w : CertWorld) : result Checked CertProblem * CertWorld :=
  if negb (is_admin s) then (Err TP_Forbidden, w)
  else match (let? u := refused (uploaded_of input) in let? c := refused (check u host now) in Ok (u, c)) with
       | Err e => (Err e, w)
       | Ok (u, c) =>
           if negb runs then (Err TP_CaddyUnavailable, w)
           else
             let i := ch_info c in
             let db := note s (TlsCertificateUploaded (if_subject i) (if_issuer i) (if_fingerprint i) (if_not_after i))
                         (store new_id u (if_not_after i) (user_id s) (kw_db w)) in
             let '(r, w) := caddy_in_tx (own_tls u) answer commits db w in
             (match r with Ok _ => Ok c | Err e => Err e end, w)
       end.

Definition reset (s : Session) (runs : bool) (answer : CaddyAnswer) (commits : bool) (w : CertWorld) :
    result unit CertProblem * CertWorld :=
  if negb (is_admin s) then (Err TP_Forbidden, w)
  else if negb runs then (Err TP_CaddyUnavailable, w)
  else caddy_in_tx Automatic answer commits (note s TlsCertificateReset (remove (kw_db w)).2) w.

(** What the start of remotehub writes, if it can read the table; what Caddy
    already has it does not load again. *)
Definition wanted (db : CertDb) : Tls := match stored db with Some u => own_tls u | None => Automatic end.

Definition start (reads : bool) (w : CertWorld) : result unit CaddyError * CertWorld :=
  if reads then
    let '(r, disk) := prepare (wanted (kw_db w)) (kw_disk w) in (r, {| kw_disk := disk; kw_db := kw_db w |})
  else (Ok tt, w).

(** Caddy starts and loads what is there. *)
Definition caddy_starts (w : CertWorld) : CertWorld := {| kw_disk := take_files (kw_disk w); kw_db := kw_db w |}.

(** ** Theorems *)

(** A wildcard stands for one label, which is not empty. *)
Theorem covers_iff (names : list (list Z)) (host : str) :
  let host := to_ascii_lowercase <$> host in
  covers names host = true <->
  host ∈ names \/ exists label parent, label <> [] /\ (46 ∉ label) /\ host = label ++ 46 :: parent /\ (lit "*." ++ parent) ∈ names.
Proof.
  intros h. unfold covers. assert (Hh : to_ascii_lowercase <$> h = h).
  { unfold h. rewrite <- list_fmap_compose. apply list_fmap_ext. intros i c _. apply to_ascii_lowercase_idem. }
  rewrite Hh, existsb_exists. split.
  - intros (name & Hin%list_elem_of_In & Hn). apply orb_true_iff in Hn as [Hn|Hn]; [bools; subst; by left|right].
    apply is_some_and_true in Hn as (parent & Hp%strip_prefix_Some & Hn).
    apply is_some_and_true in Hn as ([label rest] & [Hs Hl]%split_once_Some & Hn). bools. subst rest. exists label, parent.
    split_and!; [done..|]. by rewrite <- Hp.
  - intros [Hin|(label & parent & Hne & Hl & Heq & Hin)].
    + exists h. split; [by apply list_elem_of_In|]. by rewrite bool_decide_eq_true_2.
    + exists (lit "*." ++ parent). split; [by apply list_elem_of_In|]. apply orb_true_iff. right.
      apply is_some_and_true. exists parent. split; [by apply strip_prefix_Some|].
      apply is_some_and_true. exists (label, parent). split; [by apply split_once_Some|]. by rewrite bool_decide_eq_false_2, bool_decide_eq_true_2.
Qed.

#[local] Arguments covers : simpl never.
#[local] Arguments LEAST_LIFE : simpl never.
#[local] Arguments dns_names : simpl never.

(** A certificate is taken exactly if it belongs to the key, the key is of a
    kind browsers take, it covers the host, and it is valid now and a day more. *)
Theorem check_exact (uploaded : Uploaded) (host : str) (now : Z) (c : Checked) :
  let leaf := default [] (head (up_chain uploaded)) in
  check uploaded host now = Ok c <->
  exists p, parse_x509 leaf = Some p
    /\ any_supported_type (up_key uploaded) = Some {| sg_public := Some (px_public p); sg_ed25519 := false |}
    /\ covers (dns_names p) host = true
    /\ px_not_before p <= now /\ now + LEAST_LIFE <= px_not_after p
    /\ info leaf = Some (ch_info c) /\ ch_complete c = (1 <? length (up_chain uploaded))%nat || px_same p.
Proof.
  intros leaf. unfold check. fold leaf. unfold info. destruct (parse_x509 leaf) as [p|]; [|split; [done|by intros (? & ? & _)]]. cbn [ok_or].
  destruct (any_supported_type _) as [[[pub|] []]|]; cbn; try (split; [done|intros (? & _ & ? & _); congruence]). split.
  - case_bool_decide as Hpub; [|done]. cbn. destruct (covers (dns_names p) host) eqn:Hc; [|done]. cbn.
    destruct (now <? px_not_before p) eqn:Hb; [done|]. destruct (px_not_after p <? now + LEAST_LIFE) eqn:Ha; [done|]. intros [= <-]. bools. subst pub.
    exists p. split_and!; try done; lia.
  - intros (p' & [= <-] & [= ->] & Hc & Hb & Ha & Hi & Hcomp). rewrite bool_decide_eq_true_2 by done. cbn. rewrite Hc. cbn.
    rewrite (proj2 (Z.ltb_ge _ _) Hb), (proj2 (Z.ltb_ge _ _) Ha). destruct c. simpl in *. congruence.
Qed.

(** *** Files *)

Lemma next_access_ok w : dk_fails w = [] -> next_access w = (Ok false, w).
Proof. unfold next_access. by intros ->. Qed.

Lemma write_ok name content w : dk_fails w = [] -> write name content w = (Ok tt, set_files (insert name content) w).
Proof. intros Hw. unfold write, bindM. by rewrite next_access_ok. Qed.

Lemma remove_file_ok name w : dk_fails w = [] -> remove_file name w = (Ok tt, set_files (delete name) w).
Proof. intros Hw. unfold remove_file, bindM. by rewrite next_access_ok. Qed.

Lemma read_before_ok w :
  dk_fails w = [] ->
  read_before w = (Ok [(SNIPPET, dk_files w !! SNIPPET); (CERTIFICATE, dk_files w !! CERTIFICATE); (KEY, dk_files w !! KEY)], w).
Proof. intros Hw. unfold read_before, read_file, bindM, ret. by do 3 (rewrite next_access_ok by done; cbn). Qed.

(** The files for a choice, in place of those before. *)
Definition files_for (tls : Tls) (files : FileMap) : FileMap :=
  <[SNIPPET := snippet tls]>
    match tls with
    | Automatic => delete KEY (delete CERTIFICATE files)
    | Own chain key => <[KEY := key]> (<[CERTIFICATE := chain]> files)
    end.

Lemma write_files_ok tls w : dk_fails w = [] -> write_files tls w = (Ok tt, set_files (files_for tls) w).
Proof.
  intros Hw. unfold write_files, bindM. destruct tls as [|chain key].
  - rewrite !remove_file_ok by done. by rewrite write_ok.
  - rewrite write_ok by done. rewrite write_ok by done. by rewrite write_ok.
Qed.

Lemma restore_one name content w :
  dk_fails w = [] ->
  (match content with Some c => write name c | None => remove_file name end) w
  = (Ok tt, set_files (partial_alter (fun _ => content) name) w).
Proof. intros Hw. destruct content; [by apply write_ok|by apply remove_file_ok]. Qed.

Lemma restore_ok before w :
  dk_fails w = [] ->
  restore before w = (Ok tt, set_files (fun fs => foldl (fun fs nc => partial_alter (fun _ => nc.2) nc.1 fs) fs before) w).
Proof.
  revert w. induction before as [|[name content] before IH]; intros w Hw; [by destruct w|].
  cbn [restore]. unfold bindM. rewrite restore_one by done. rewrite IH by done. done.
Qed.

Lemma SNIPPET_CERTIFICATE : SNIPPET <> CERTIFICATE. Proof. done. Qed.
Lemma SNIPPET_KEY : SNIPPET <> KEY. Proof. done. Qed.
Lemma CERTIFICATE_KEY : CERTIFICATE <> KEY. Proof. done. Qed.

Lemma files_for_other tls files name :
  name <> SNIPPET -> name <> CERTIFICATE -> name <> KEY -> files_for tls files !! name = files !! name.
Proof.
  intros Hs Hc Hk. unfold files_for. rewrite lookup_insert_ne by congruence.
  destruct tls; [rewrite !lookup_delete_ne by congruence|rewrite !lookup_insert_ne by congruence]; done.
Qed.

Lemma put_back tls files :
  foldl (fun fs nc => partial_alter (fun _ => nc.2) nc.1 fs) (files_for tls files)
    [(SNIPPET, files !! SNIPPET); (CERTIFICATE, files !! CERTIFICATE); (KEY, files !! KEY)] = files.
Proof.
  pose proof SNIPPET_CERTIFICATE. pose proof SNIPPET_KEY. pose proof CERTIFICATE_KEY. apply map_eq. intros name. cbn [foldl fst snd].
  destruct (decide (name = KEY)) as [->|Hk]; [by rewrite lookup_partial_alter_eq|rewrite lookup_partial_alter_ne by congruence].
  destruct (decide (name = CERTIFICATE)) as [->|Hc]; [by rewrite lookup_partial_alter_eq|rewrite lookup_partial_alter_ne by congruence].
  destruct (decide (name = SNIPPET)) as [->|Hs]; [by rewrite lookup_partial_alter_eq|rewrite lookup_partial_alter_ne by congruence].
  by apply files_for_other.
Qed.

(** Where no access to a file fails, a change is all or nothing: Caddy takes
    it, then the files are those of the choice and Caddy has them; or the files
    are as before, and so is what Caddy has, unless it took them and the answer
    was lost. *)
Theorem serve_all_or_nothing (tls : Tls) (answer : CaddyAnswer) (w : Disk) :
  dk_fails w = [] ->
  let '(r, w') := serve tls answer w in
  dk_fails w' = []
  /\ match r with
     | Ok _ => answer = CA_Loaded /\ dk_files w' = files_for tls (dk_files w) /\ dk_loaded w' = dk_files w'
     | Err _ => answer <> CA_Loaded /\ dk_files w' = dk_files w
                /\ (answer <> CA_NoAnswer true -> dk_loaded w' = dk_loaded w)
     end.
Proof.
  intros Hw. unfold serve, bindM at 1. rewrite read_before_ok by done. unfold bindM at 1. rewrite write_files_ok by done.
  assert (Hrest : forall e v, dk_fails v = [] -> dk_files v = files_for tls (dk_files w) ->
    (restore [(SNIPPET, dk_files w !! SNIPPET); (CERTIFICATE, dk_files w !! CERTIFICATE); (KEY, dk_files w !! KEY)];; (fail e : CM unit)) v
    = (Err e, {| dk_files := dk_files w; dk_loaded := dk_loaded v; dk_fails := [] |})).
  { intros e v Hv Hf. unfold bindM. rewrite restore_ok by done. unfold fail, set_files. by rewrite Hf, put_back, Hv. }
  destruct answer as [|detail|took|]; cbn [load].
  - split; [done|]. by split.
  - rewrite Hrest by done. done.
  - rewrite Hrest by (by destruct took). split; [done|]. split; [done|]. split; [done|]. by destruct took.
  - rewrite Hrest by done. done.
Qed.

(** *** Table, files and Caddy *)

(** The files say what is chosen. *)
Definition agrees (tls : Tls) (files : FileMap) : Prop :=
  files !! SNIPPET = Some (snippet tls)
  /\ match tls with
     | Automatic => files !! CERTIFICATE = None /\ files !! KEY = None
     | Own chain key => files !! CERTIFICATE = Some chain /\ files !! KEY = Some key
     end.

Lemma files_for_agrees tls files : agrees tls (files_for tls files).
Proof.
  pose proof SNIPPET_CERTIFICATE. pose proof SNIPPET_KEY. pose proof CERTIFICATE_KEY. unfold agrees, files_for.
  rewrite lookup_insert_eq, !(lookup_insert_ne _ SNIPPET) by done. split; [done|]. destruct tls.
  - by rewrite lookup_delete_ne, !lookup_delete_eq by done.
  - by rewrite lookup_insert_ne, !lookup_insert_eq by done.
Qed.

(** Caddy has, and the files are, what the table says. *)
Definition in_step (w : CertWorld) : Prop :=
  agrees (wanted (kw_db w)) (dk_files (kw_disk w)) /\ agrees (wanted (kw_db w)) (dk_loaded (kw_disk w)).

(** The readers of PEM read what [to_pem] writes. *)
Definition reads_back (u : Uploaded) : Prop := from_pem (to_pem u).1 (to_pem u).2 = Ok u.

(** What happens: requests, and starts of remotehub and of Caddy. *)
Inductive CertCall :=
| CC_upload (s : Session) (runs : bool) (host : list Z) (now : Z) (new_id : Uuid) (input : CertInput)
    (answer : CaddyAnswer) (commits : bool)
| CC_reset (s : Session) (runs : bool) (answer : CaddyAnswer) (commits : bool)
| CC_start (reads : bool)
| CC_caddy_starts.

Definition with_fails (fails : list bool) (w : CertWorld) : CertWorld :=
  {| kw_disk := {| dk_files := dk_files (kw_disk w); dk_loaded := dk_loaded (kw_disk w); dk_fails := fails |}; kw_db := kw_db w |}.

(** A call with the accesses to files that fail in it; whether it says it is
    done. *)
Definition cert_call (fc : list bool * CertCall) (w : CertWorld) : bool * CertWorld :=
  let w := with_fails fc.1 w in
  match fc.2 with
  | CC_upload s runs host now new_id input answer commits =>
      let '(r, w) := upload s runs host now new_id input answer commits w in (is_ok r, w)
  | CC_reset s runs answer commits => let '(r, w) := reset s runs answer commits w in (is_ok r, w)
  | CC_start reads => let '(r, w) := start reads w in (is_ok r, w)
  | CC_caddy_starts => (true, caddy_starts w)
  end.

Definition cert_calls (w : CertWorld) (fcs : list (list bool * CertCall)) : CertWorld :=
  foldl (fun w fc => (cert_call fc w).2) w fcs.

(** No access to a file fails, no answer of Caddy is lost that it acted on, and
    the transaction commits. *)
Definition without_fault (fc : list bool * CertCall) : Prop :=
  fc.1 = []
  /\ match fc.2 with
     | CC_upload _ _ _ _ _ _ answer commits | CC_reset _ _ answer commits => answer <> CA_NoAnswer true /\ commits = true
     | _ => True
     end.

Definition legible (c : CertCall) : Prop :=
  match c with CC_upload _ _ _ _ _ input _ _ => forall u, uploaded_of input = Ok u -> reads_back u | _ => True end.

(** An upload or a reset has said it is done, whatever failed on its way; or
    remotehub has written its files at its start, and then Caddy has started. *)
Inductive settled : CertWorld -> Prop :=
| settled_change fails c w :
    match c with CC_upload _ _ _ _ _ _ _ _ | CC_reset _ _ _ _ => True | _ => False end ->
    legible c -> (cert_call (fails, c) w).1 = true -> settled (cert_call (fails, c) w).2
| settled_start fails w :
    (cert_call (fails, CC_start true) w).1 = true ->
    settled (cert_calls w [(fails, CC_start true); ([], CC_caddy_starts)]).

Lemma stored_store s a new_id u not_after by_ db :
  reads_back u -> wanted (note s a (store new_id u not_after by_ db)) = own_tls u.
Proof.
  unfold reads_back, wanted, stored, note, store. destruct (to_pem u) as [chain key] eqn:Hp. cbn. intros Hr.
  rewrite lookup_insert_eq. cbn. rewrite Hr. cbn. done.
Qed.

Lemma wanted_reset s db : wanted (note s TlsCertificateReset (remove db).2) = Automatic.
Proof. unfold wanted, stored, remove. by destruct (cd_row db) eqn:Hr; cbn; rewrite ?Hr. Qed.

(** *** What is done is done whatever failed on its way *)

Lemma write_done name content w w' :
  write name content w = (Ok tt, w') -> dk_files w' = <[name := content]> (dk_files w) /\ dk_loaded w' = dk_loaded w.
Proof. unfold write, bindM, next_access. destruct (dk_fails w) as [|[] bs]; cbn; [|done|]; by intros [= <-]. Qed.

Lemma remove_file_done name w w' :
  remove_file name w = (Ok tt, w') -> dk_files w' = delete name (dk_files w) /\ dk_loaded w' = dk_loaded w.
Proof. unfold remove_file, bindM, next_access. destruct (dk_fails w) as [|[] bs]; cbn; [|done|]; by intros [= <-]. Qed.

Lemma then_done (m k : CM unit) w w' : (m;; k) w = (Ok tt, w') -> exists w1, m w = (Ok tt, w1) /\ k w1 = (Ok tt, w').
Proof. unfold bindM. destruct (m w) as [[[]|e] w1]; [eauto|done]. Qed.

Lemma write_files_done tls w w' :
  write_files tls w = (Ok tt, w') -> dk_files w' = files_for tls (dk_files w) /\ dk_loaded w' = dk_loaded w.
Proof.
  unfold write_files, files_for. intros (w2 & Hm & [Hs Hsl]%write_done)%then_done. rewrite Hs, Hsl. clear Hs Hsl.
  destruct tls as [|chain key]; apply then_done in Hm as (w1 & Ha & Hb).
  - apply remove_file_done in Ha as [Ha Hla], Hb as [Hb Hlb]. rewrite Hb, Ha. split; [done|congruence].
  - apply write_done in Ha as [Ha Hla], Hb as [Hb Hlb]. rewrite Hb, Ha. split; [done|congruence].
Qed.

Lemma read_before_same w : exists before w1, read_before w = (Ok before, w1) /\ dk_files w1 = dk_files w.
Proof.
  unfold read_before, read_file, bindM, ret, next_access.
  destruct w as [files loaded [|b1 [|b2 [|b3 bs]]]]; cbn; by eexists _, _.
Qed.

Lemma serve_done tls answer w w' :
  serve tls answer w = (Ok tt, w') -> dk_files w' = files_for tls (dk_files w) /\ dk_loaded w' = dk_files w'.
Proof.
  unfold serve, bindM at 1. destruct (read_before_same w) as (before & w1 & -> & <-). unfold bindM at 1.
  destruct (write_files tls w1) as [[[]|e] w2] eqn:Hw; [|done]. apply write_files_done in Hw as [Hf _].
  destruct answer as [|detail|took|]; cbn [load]; [by intros [= <-]|..];
    match goal with |- context [(_;; _) ?d] => unfold bindM; by destruct (restore before d) as [[[]|] ?] end.
Qed.

Lemma caddy_in_tx_done tls answer commits db w w' :
  caddy_in_tx tls answer commits db w = (Ok tt, w') -> wanted db = tls -> in_step w'.
Proof.
  unfold caddy_in_tx. destruct (serve tls answer (kw_disk w)) as [[[]|e] disk] eqn:Hs; [|done].
  apply serve_done in Hs as [Hf Hl]. destruct commits; [|done]. intros [= <-] <-. unfold in_step. cbn. rewrite Hl, Hf.
  split; apply files_for_agrees.
Qed.

Lemma settled_in_step w : settled w -> in_step w.
Proof.
  intros Hs. destruct Hs as [fails c w Hkind Hread Hdone|fails w Hdone].
  - destruct c as [s runs host now new_id input answer commits|s runs answer commits|reads|]; try done;
      unfold cert_call in *; cbn [fst snd] in *; revert Hdone.
    + unfold upload. destruct (negb (is_admin s)); [done|]. destruct (uploaded_of input) as [u|] eqn:Hu; [|done]. cbn.
      destruct (check u host now) as [c|]; [|done]. cbn. destruct (negb runs); [done|]. set (db := note _ _ _).
      destruct (caddy_in_tx _ _ _ _ _) as [[[]|e] w'] eqn:Hc; [|done]. intros _. apply (caddy_in_tx_done _ _ _ _ _ _ Hc).
      by apply stored_store, Hread.
    + unfold reset. destruct (negb (is_admin s)); [done|]. destruct (negb runs); [done|].
      destruct (caddy_in_tx _ _ _ _ _) as [[[]|e] w'] eqn:Hc; [|done]. intros _. apply (caddy_in_tx_done _ _ _ _ _ _ Hc), wanted_reset.
  - revert Hdone. unfold cert_calls, cert_call. cbn [foldl fst snd start]. unfold prepare.
    destruct (write_files _ _) as [[[]|e] disk] eqn:Hw; [|done]. apply write_files_done in Hw as [Hf _]. intros _.
    unfold in_step. cbn in *. rewrite Hf. split; apply files_for_agrees.
Qed.

(** *** Without a fault it stays so *)

Lemma caddy_in_tx_in_step tls answer db w :
  dk_fails (kw_disk w) = [] -> in_step w -> wanted db = tls -> answer <> CA_NoAnswer true ->
  in_step (caddy_in_tx tls answer true db w).2.
Proof.
  intros Hw (Hf & Hl) Hdb Ha. unfold caddy_in_tx. pose proof (serve_all_or_nothing tls answer (kw_disk w) Hw) as Hs.
  destruct (serve tls answer (kw_disk w)) as [[[]|e] disk].
  - destruct Hs as (_ & _ & Hfiles & Hloaded). unfold in_step. cbn. rewrite Hdb, Hloaded, Hfiles. split; apply files_for_agrees.
  - destruct Hs as (_ & _ & Hfiles & Hloaded). unfold in_step. cbn. by rewrite Hfiles, (Hloaded Ha).
Qed.

Lemma cert_call_in_step fc w : without_fault fc -> legible fc.2 -> in_step w -> in_step (cert_call fc w).2.
Proof.
  destruct fc as [fails c]. intros [Hf Hc] Hread Hin. simpl in Hf. subst fails. unfold cert_call. cbn [fst snd] in *.
  assert (Hin' : in_step (with_fails [] w)) by exact Hin. clear Hin.
  assert (Hno : dk_fails (kw_disk (with_fails [] w)) = []) by done. revert Hin' Hno. generalize (with_fails [] w). clear w. intros w Hin Hno.
  destruct c as [s runs host now new_id input answer commits|s runs answer commits|reads|].
  - destruct Hc as [Ha ->]. unfold upload. destruct (negb (is_admin s)); [done|]. destruct (uploaded_of input) as [u|] eqn:Hu; [|done]. cbn.
    destruct (check u host now) as [c|]; [|done]. cbn. destruct (negb runs); [done|]. set (db := note _ _ _).
    pose proof (caddy_in_tx_in_step (own_tls u) answer db w Hno Hin) as Hd.
    destruct (caddy_in_tx _ _ _ _ _) as [r x']. apply Hd; [|done]. by apply stored_store, Hread.
  - destruct Hc as [Ha ->]. unfold reset. destruct (negb (is_admin s)); [done|]. destruct (negb runs); [done|].
    pose proof (caddy_in_tx_in_step Automatic answer (note s TlsCertificateReset (remove (kw_db w)).2) w Hno Hin (wanted_reset _ _) Ha) as Hd.
    by destruct (caddy_in_tx _ _ _ _ _) as [r x'].
  - unfold start, prepare. destruct reads; [|done]. rewrite write_files_ok by done. destruct Hin as [_ Hl]. split; [|exact Hl].
    apply files_for_agrees.
  - destruct Hin as [Hf _]. by split.
Qed.

(** C28: Once an upload or a reset has said it is done, or remotehub and then Caddy
    have started, Caddy serves what the table has and its files say so; and it
    stays so through all requests, refusals of Caddy and starts, up to one in
    which an access to a file fails, an answer of Caddy is lost that it acted
    on, or the transaction does not commit. *)
Theorem caddy_serves_what_is_stored (w : CertWorld) (fcs : list (list bool * CertCall)) :
  settled w -> Forall (fun fc => without_fault fc /\ legible fc.2) fcs -> in_step (cert_calls w fcs).
Proof.
  intros Hs%settled_in_step Hall. revert w Hs. unfold cert_calls. induction Hall as [|fc fcs [Hf Hl] _ IH]; intros w Hs; [done|].
  cbn [foldl]. by apply IH, cert_call_in_step.
Qed.

(** What is uploaded and taken is checked, and only administrators upload. *)
Theorem uploaded_is_checked (s : Session) (runs : bool) (host : list Z) (now : Z) (new_id : Uuid) (input : CertInput)
    (answer : CaddyAnswer) (commits : bool) (w : CertWorld) :
  let '(r, w') := upload s runs host now new_id input answer commits w in
  match r with
  | Ok c => is_admin s = true /\ runs = true /\ answer = CA_Loaded /\ commits = true
            /\ exists u, uploaded_of input = Ok u /\ check u host now = Ok c
                 /\ option_map ct_not_after (cd_row (kw_db w')) = Some (if_not_after (ch_info c))
  | Err _ => kw_db w' = kw_db w
  end.
Proof.
  unfold upload. destruct (is_admin s); [|done]. cbn. destruct (uploaded_of input) as [u|]; [|done]. cbn.
  destruct (check u host now) as [c|] eqn:Hc; [|done]. cbn. destruct runs; [|done]. cbn. unfold caddy_in_tx.
  destruct (serve _ _ _) as [[[]|e] disk] eqn:Hs; [|done]. destruct commits; [|done].
  assert (Ha : answer = CA_Loaded).
  { revert Hs. unfold serve, bindM. destruct (read_before _) as [[before|] d1]; [|done].
    destruct (write_files _ d1) as [[[]|] d2]; [|done]. destruct answer as [|detail|took|]; cbn; [done|..];
      match goal with |- context [restore before ?d] => destruct (restore before d) as [[[]|] ?] end; done. }
  split_and!; try done. exists u. split_and!; [done|done|]. cbn. unfold store. by destruct (to_pem u).
Qed.

End certificate.

(** A public origin with a name, with or without a port, gives the name. *)
Lemma host_of_name scheme name port :
  (58 ∉ scheme) -> (58 ∉ name) -> (58 ∉ port) ->
  host_of (origin_of scheme name) = name /\ host_of (origin_of scheme (name ++ 58 :: port)) = name.
Proof.
  intros Hs Hn Hp. unfold host_of. rewrite !split_once_at_first by done. split; [|by rewrite rsplit_once_app].
  destruct (rsplit_once 58 name) as [[a b]|] eqn:Hr; [|done]. apply rsplit_once_Some in Hr as [-> _].
  exfalso. apply Hn. rewrite elem_of_app, elem_of_cons. auto.
Qed.

(** ** Examples *)

Module CertificateExamples.

(** Texts that take one line, in a base64 that changes nothing. *)
#[local] Instance plain_base64 : Base64 := {| b64_encode := fun s => s; b64_decode := Some |}.
#[local] Instance plain_sum : Session.Sha256 := fun s => take 2 s.
#[local] Existing Instance RequestExamples.decimal_uuid.

Fixpoint blocks (begin_ end_ : list Z) (ls : list (list Z)) (inside : option (list Z)) : list (list Z) :=
  match ls with
  | [] => []
  | l :: ls =>
      if bool_decide (l = begin_) then blocks begin_ end_ ls (Some [])
      else match inside with
           | None => blocks begin_ end_ ls None
           | Some text => if bool_decide (l = end_) then text :: blocks begin_ end_ ls None
                          else blocks begin_ end_ ls (Some (text ++ l))
           end
  end.

Definition read_blocks (label : string) (text : list Z) : list (list Z) :=
  blocks (lit "-----BEGIN " ++ lit label ++ lit "-----") (lit "-----END " ++ lit label ++ lit "-----") (lines text) None.

(** A certificate is for the key of its own text, and for two names. *)
#[local] Instance libraries : CertificateLibraries := {|
  parse_x509 der := Some {| px_subject := lit "CN=r.example"; px_issuer := lit "CN=Lab CA"; px_same := false;
                            px_names := [lit "R.example"; lit "*.lab.example"]; px_not_before := 0; px_not_after := 10 * 24 * 3600;
                            px_public := der |};
  any_supported_type key := match key with Pkcs8 k => Some {| sg_public := Some k; sg_ed25519 := false |} | _ => None end;
  pem_certificates text := Some (read_blocks "CERTIFICATE" text);
  pem_certificate text := head (read_blocks "CERTIFICATE" text);
  pem_key text := Pkcs8 <$> head (read_blocks "PRIVATE KEY" text);
  pkcs12 _ _ := Err Pfx_Other
|}.

Definition uploaded (text : string) : Uploaded := {| up_chain := [lit text]; up_key := Pkcs8 (lit text) |}.

Definition input (text : string) : CertInput :=
  {| ci_certificate := Some (to_pem (uploaded text)).1; ci_key := Some (to_pem (uploaded text)).2; ci_pfx := None; ci_password := [] |}.

Definition w0 : CertWorld := {|
  kw_disk := {| dk_files := {[ CERTIFICATE := lit "left over" ]}; dk_loaded := ∅; dk_fails := [] |};
  kw_db := {| cd_row := None; cd_secrets := ∅; cd_log := [] |} |}.

Definition boss : Session := RequestExamples.boss.

Definition upload_ (id : Uuid) (text : string) (answer : CaddyAnswer) (w : CertWorld) :=
  upload boss true (lit "r.example") 100 id (input text) answer true w.

Definition w1 : CertWorld := (upload_ 1 "first" CA_Loaded (start true w0).2).2.

Example first_is_served :
  dk_loaded (kw_disk w1) !! CERTIFICATE = Some (to_pem (uploaded "first")).1 /\ stored (kw_db w1) = Some (uploaded "first").
Proof. split; vm_compute; reflexivity. Qed.

Lemma input_reads_back text u :
  uploaded_of (input text) = Ok u -> uploaded_of (input text) = Ok (uploaded text) -> reads_back (uploaded text) -> reads_back u.
Proof. congruence. Qed.

Definition uploads (id : Uuid) (text : string) (answer : CaddyAnswer) : list bool * CertCall :=
  ([], CC_upload boss true (lit "r.example") 100 id (input text) answer true).

Lemma legible_first id answer : legible (uploads id "first" answer).2.
Proof. intros u Hu. apply (input_reads_back "first" u Hu); vm_compute; reflexivity. Qed.

Lemma legible_second id answer : legible (uploads id "second" answer).2.
Proof. intros u Hu. apply (input_reads_back "second" u Hu); vm_compute; reflexivity. Qed.

(** The first certificate is taken, the second refused, and remotehub starts
    again. *)
Definition served : CertWorld :=
  cert_calls (cert_call (uploads 1 "first" CA_Loaded) w0).2 [uploads 2 "second" (CA_Refused []); ([], CC_start true)].

Lemma caddy_serves_what_is_stored_witness :
  in_step served /\ stored (kw_db served) = Some (uploaded "first").
Proof.
  split; [|vm_compute; reflexivity]. apply caddy_serves_what_is_stored.
  - apply settled_change; [exact I|apply legible_first|vm_compute; reflexivity].
  - apply Forall_cons. split; [split; [split; [reflexivity|split; [discriminate|reflexivity]]|apply legible_second]|].
    apply Forall_cons. split; [repeat split|]. apply Forall_nil. exact I.
Defined.

Lemma serve_all_or_nothing_witness :
  (serve Automatic (CA_Refused []) (kw_disk w1)).1 = Err (CY_Refused [])
  /\ dk_files (serve Automatic (CA_Refused []) (kw_disk w1)).2 = dk_files (kw_disk w1).
Proof.
  pose proof (serve_all_or_nothing Automatic (CA_Refused []) (kw_disk w1) eq_refl) as H.
  assert (Hr : (serve Automatic (CA_Refused []) (kw_disk w1)).1 = Err (CY_Refused [])) by (vm_compute; reflexivity).
  destruct (serve Automatic (CA_Refused []) (kw_disk w1)) as [r d]. simpl in Hr. subst r. destruct H as (_ & _ & Hf & _).
  split; [reflexivity|exact Hf].
Defined.

(** A wildcard covers one label, and only below its own parent. *)
Example covered_names :
  covers [lit "*.lab.example"] (lit "Web.Lab.example") = true
  /\ covers [lit "*.lab.example"] (lit "lab.example") = false
  /\ covers [lit "*.lab.example"] (lit "a.web.lab.example") = false.
Proof. split_and!; vm_compute; reflexivity. Qed.

(** The key cannot be written: the new certificate stays with the old key, and
    nothing is put back; Caddy, started again, finds two that do not belong
    together. *)
Definition no_space : CertWorld :=
  {| kw_disk := {| dk_files := dk_files (kw_disk w1); dk_loaded := dk_loaded (kw_disk w1);
                   dk_fails := [false; false; false; false; true] |}; kw_db := kw_db w1 |}.

Example half_written :
  let '(r, w) := upload_ 2 "second" CA_Loaded no_space in
  r = Err TP_CaddyUnavailable /\ kw_db w = kw_db w1
  /\ dk_files (kw_disk w) !! CERTIFICATE = Some (to_pem (uploaded "second")).1
  /\ dk_files (kw_disk w) !! KEY = Some (to_pem (uploaded "first")).2.
Proof. vm_compute. auto. Qed.

(** Caddy's answer comes too late: it serves what is not stored. *)
Example answer_lost :
  let '(r, w) := upload_ 2 "second" (CA_NoAnswer true) w1 in
  r = Err TP_CaddyUnavailable /\ stored (kw_db w) = Some (uploaded "first")
  /\ dk_loaded (kw_disk w) !! CERTIFICATE = Some (to_pem (uploaded "second")).1.
Proof. vm_compute. auto. Qed.

(** The host of an address in brackets is cut in its middle. *)
Example host_of_an_address : host_of (lit "https://[2001:db8::1]") = lit "[2001:db8:".
Proof. vm_compute. reflexivity. Qed.

End CertificateExamples.
