(* ===== verification/Mail.v ===== *)
(** * Mail (crates/server/src/mail.rs, api/mail.rs, api/courier.rs)

    The mail server of the settings, with its password sealed, the mails
    remotehub sends through it, and the mails Kratos hands over. What connects
    to the server, reads addresses and certificates and builds the message is
    the crate [lettre], and the texts come from Fluent: parameters. Strings are
    sealed as their UTF-8. *)
From S2P Require Import Prelude Text Utf8 Model Session AccessRequests Store Folders ConnectorText ConnectorPages Config Certificate.

(** ** The settings *)

Inductive Security := Sec_Tls | Sec_StartTls | Sec_None.

#[export] Instance security_eq_dec : EqDecision Security.
Proof. solve_decision. Defined.

Record Server := {
  ms_host : list Z; ms_port : Z; ms_security : Security; ms_username : option (list Z); ms_from_address : list Z;
  ms_from_name : list Z; ms_ca_pem : option (list Z)
}.

#[export] Instance server_eq_dec : EqDecision Server.
Proof. solve_decision. Defined.

Record Input := {
  mi_host : list Z; mi_port : option Z; mi_security : list Z; mi_username : option (list Z); mi_password : option (list Z);
  mi_from_address : list Z; mi_from_name : option (list Z); mi_ca_pem : option (list Z)
}.

(** What [lettre] says of an address, a recipient, a certificate, the TLS
    settings and a message. *)
Class Lettre := {
  is_address : list Z -> bool;
  is_mailbox : list Z -> bool;
  is_certificate : list Z -> bool;
  tls_builds : list Z -> list (list Z) -> bool;
  message_builds : list Z -> list Z -> list Z -> list Z -> bool
}.

Definition BEGIN : list Z := lit "-----BEGIN CERTIFICATE-----".
Definition END : list Z := lit "-----END CERTIFICATE-----".

(** [trim] and [filter(!is_empty)]. *)
Definition optional (v : option (list Z)) : option (list Z) :=
  v ≫= fun v => if bool_decide (trim v = []) then None else Some (trim v).

Definition PASSWORD_FIELD : list Z := lit "smtp_password".

Section mail.
Context `{Lettre}.

Definition default_port (security : list Z) : result (Security * Z) ApiProblem :=
  if bool_decide (security = lit "tls") then Ok (Sec_Tls, 465)
  else if bool_decide (security = lit "starttls") then Ok (Sec_StartTls, 587)
  else if bool_decide (security = lit "none") then Ok (Sec_None, 25)
  else Err (AP_Invalid "security").

Definition server (input : Input) : result (Server * option (list Z)) ApiProblem :=
  let host := trim (mi_host input) in
  if bool_decide (host = []) || (253 <? str_len host) || existsb is_whitespace host then Err (AP_Invalid "host")
  else
    let? security := default_port (mi_security input) in
    let port := default security.2 (mi_port input) in
    if negb ((1 <=? port) && (port <=? 65535)) then Err (AP_Invalid "port")
    else
      let username := optional (mi_username input) in
      let password := mi_password input ≫= fun p => if bool_decide (p = []) then None else Some p in
      if bool_decide (security.1 = Sec_None) && (is_some username || is_some password) then Err (AP_Invalid "password")
      else if is_some password && negb (is_some username) then Err (AP_Invalid "username")
      else
        let from_address := trim (mi_from_address input) in
        if negb (is_address from_address) then Err (AP_Invalid "from_address")
        else
          let from_name := default (lit "remotehub") (optional (mi_from_name input)) in
          if (200 <? Z.of_nat (length from_name)) || existsb is_control from_name then Err (AP_Invalid "from_name")
          else
            let ca_pem := optional (mi_ca_pem input) in
            if is_some_and (fun pem => negb (contains_text BEGIN pem) || (65536 <? str_len pem)) ca_pem
            then Err (AP_Invalid "ca_pem")
            else Ok ({| ms_host := host; ms_port := port; ms_security := security.1; ms_username := username;
                        ms_from_address := from_address; ms_from_name := from_name; ms_ca_pem := ca_pem |}, password).

(** ** The table *)

Record MailRow := { mw_id : Uuid; mw_version : option Z; mw_server : Server }.

Inductive MailAction := MailChanged (fields : list (list Z)) | MailRemoved.

(** [md_secrets] are the sealed fields as opening gives them. *)
Record MailDb := {
  md_row : option MailRow;
  md_secrets : gmap (Uuid * Z * list Z) (list Z);
  md_log : list (Uuid * MailAction)
}.

Definition stored (db : MailDb) : option (Server * option (list Z)) :=
  (fun row => (mw_server row,
               v ← mw_version row; plain ← md_secrets db !! (mw_id row, v, PASSWORD_FIELD); from_utf8 plain)) <$> md_row db.

(** The new one, or the stored one if the user name stays the same. *)
Definition password_for (db : MailDb) (s : Server) (new : option (list Z)) : option (list Z) :=
  if is_some new || negb (is_some (ms_username s)) then new
  else match stored db with
       | Some (before, password) => if bool_decide (ms_username before = ms_username s) then password else None
       | None => None
       end.

(** [before] is the row [FOR UPDATE] found and locked, if any; without one a
    row may come in between, whose id [ON CONFLICT] keeps. [new_id] is the id
    the database draws for a first row. *)
Definition save (new_id : Uuid) (before : option MailRow) (s : Server) (password : option (list Z)) (db : MailDb) :
    result (option Server * MailDb) ApiProblem :=
  let id := match before with Some row => mw_id row | None => new_id end in
  let? vs := match password with
             | None => Ok (None, md_secrets db)
             | Some p =>
                 let v := default 0 (before ≫= mw_version) + 1 in
                 if is_some (md_secrets db !! (id, v, PASSWORD_FIELD)) then Err AP_Internal
                 else Ok (Some v, <[(id, v, PASSWORD_FIELD) := utf8 p]> (md_secrets db))
             end in
  let old := fun k : Uuid * Z * list Z =>
    (k.1.1 =? id) && bool_decide (k.2 = PASSWORD_FIELD) && match vs.1 with None => true | Some v => k.1.2 <? v end in
  let row_id := match md_row db with Some row => mw_id row | None => id end in
  Ok (mw_server <$> before,
      {| md_row := Some {| mw_id := row_id; mw_version := vs.1; mw_server := s |};
         md_secrets := filter (fun kv => old kv.1 = false) vs.2; md_log := md_log db |}).

Definition remove (db : MailDb) : bool * MailDb :=
  match md_row db with
  | None => (false, db)
  | Some row => (true, {| md_row := None; md_secrets := filter (fun kv => kv.1.1.1 <> mw_id row) (md_secrets db); md_log := md_log db |})
  end.

Definition note_mail (user : Uuid) (a : MailAction) (db : MailDb) : MailDb :=
  {| md_row := md_row db; md_secrets := md_secrets db; md_log := md_log db ++ [(user, a)] |}.

(** The names of the fields that differ. *)
Definition changed (before : option Server) (after : Server) : list (list Z) :=
  let differ := fun (name : string) (same : Server -> bool) =>
    if is_some_and same before then [] else [lit name] in
  differ "host"%string (fun b => bool_decide (ms_host b = ms_host after))
  ++ differ "port"%string (fun b => ms_port b =? ms_port after)
  ++ differ "security"%string (fun b => bool_decide (ms_security b = ms_security after))
  ++ differ "username"%string (fun b => bool_decide (default [] (ms_username b) = default [] (ms_username after)))
  ++ differ "from_address"%string (fun b => bool_decide (ms_from_address b = ms_from_address after))
  ++ differ "from_name"%string (fun b => bool_decide (ms_from_name b = ms_from_name after))
  ++ differ "ca_pem"%string (fun b => bool_decide (default [] (ms_ca_pem b) = default [] (ms_ca_pem after))).

(** ** Mails *)

Record Outgoing := { og_to : list Z; og_subject : list Z; og_text : list Z }.

Inductive MailText := MailTestSubject | MailTestBody | MailRecoverySubject | MailRecoveryBody (code : list Z).

(** [i18n::render]. *)
Context (rendered : Locale -> MailText -> list Z).

Definition outgoing_new (to : list Z) (locale : Locale) (subject body : MailText) : Outgoing :=
  {| og_to := to; og_subject := rendered locale subject; og_text := rendered locale body |}.

(** [&time[..5]] panics inside a character; what Kratos sends is ASCII. *)
Definition expiry (rfc3339 : str) : list Z :=
  match split_once 84 rfc3339 with
  | Some (date, time) => if 5 <=? str_len time then date ++ lit " " ++ take 5 time ++ lit " UTC" else rfc3339
  | None => rfc3339
  end.

Inductive MailStep := NotConfigured | Address | MS_Connect | MS_Tls | SignIn | Rejected | MS_Other.

Inductive TlsMode := Wrapper (roots : list (list Z)) | Required (roots : list (list Z)) | NoTls.

(** What goes to the server: how it is reached, who signs in, and the mail. *)
Record Transport := {
  tp_host : list Z; tp_port : Z; tp_tls : TlsMode; tp_credentials : option (list Z * list Z);
  tp_from : list Z * list Z; tp_to : list Z; tp_subject : list Z; tp_text : list Z; tp_html : list Z
}.

(** What comes of it. *)
Inductive SmtpAnswer := SA_Sent | SA_TlsError | SA_Status (code : Z) (permanent_or_transient : bool) | SA_OtherError.

(** [split_inclusive] at [END]: each piece ends with it, the last may not. *)
Fixpoint split_inclusive (fuel : nat) (s : str) : list (list Z) :=
  match fuel with
  | O => []
  | S fuel =>
      match split_once_at END s with
      | Some (a, b) => (a ++ END) :: split_inclusive fuel b
      | None => if bool_decide (s = []) then [] else [s]
      end
  end.

Definition pem_blocks (pem : str) : list (list Z) :=
  trim <$> filter (fun b => contains_text BEGIN b = true) (split_inclusive (S (length pem)) pem).

Definition escape_mail (text : str) : list Z :=
  text ≫= fun c => if c =? 38 then lit "&amp;" else if c =? 60 then lit "&lt;" else if c =? 62 then lit "&gt;" else [c].

(** [split] at blank lines. *)
Fixpoint split_paragraphs (fuel : nat) (s : str) : list (list Z) :=
  match fuel with
  | O => [s]
  | S fuel => match split_once_at [10; 10] s with Some (a, b) => a :: split_paragraphs fuel b | None => [s] end
  end.

Definition paragraph (p : list Z) : list Z :=
  lit "<p>" ++ (trim p ≫= fun c => if c =? 10 then lit "<br>" else [c]) ++ lit "</p>".

Definition QUOTE : list Z := [34].

Definition mail_html (text : str) : list Z :=
  let escaped := escape_mail text in
  lit "<!doctype html><html><body style=" ++ QUOTE ++ lit "font-family: sans-serif" ++ QUOTE ++ lit ">"
  ++ (split_paragraphs (length escaped) escaped ≫= paragraph) ++ lit "</body></html>".

Definition transport (s : Server) (password : option (list Z)) (m : Outgoing) : result Transport MailStep :=
  if negb (is_address (ms_from_address s)) then Err Address
  else if negb (is_mailbox (og_to m)) then Err Address
  else
    let html := mail_html (og_text m) in
    if negb (message_builds (og_to m) (og_subject m) (og_text m) html) then Err MS_Other
    else
      let roots := match ms_ca_pem s with Some pem => pem_blocks pem | None => [] end in
      if negb (forallb is_certificate roots) then Err MS_Tls
      else if negb (tls_builds (ms_host s) roots) then Err MS_Tls
      else if negb ((0 <=? ms_port s) && (ms_port s <=? u16_max)) then Err MS_Connect
      else Ok {| tp_host := ms_host s; tp_port := ms_port s;
                 tp_tls := match ms_security s with Sec_Tls => Wrapper roots | Sec_StartTls => Required roots | Sec_None => NoTls end;
                 tp_credentials := match ms_username s, password with Some u, Some p => Some (u, p) | _, _ => None end;
                 tp_from := (ms_from_name s, ms_from_address s); tp_to := og_to m; tp_subject := og_subject m;
                 tp_text := og_text m; tp_html := html |}.

Definition answered (a : SmtpAnswer) : result unit MailStep :=
  match a with
  | SA_Sent => Ok tt
  | SA_TlsError => Err MS_Tls
  | SA_Status code pt => if bool_decide (code ∈ [530; 534; 535]) then Err SignIn else if pt then Err Rejected else Err MS_Connect
  | SA_OtherError => Err MS_Connect
  end.

(** The network answers what it is given. *)
Definition send_with (net : Transport -> SmtpAnswer) (s : Server) (password : option (list Z)) (m : Outgoing) : result unit MailStep :=
  let? t := transport s password m in answered (net t).

Definition send (net : Transport -> SmtpAnswer) (db : MailDb) (m : Outgoing) : result unit MailStep :=
  match stored db with
  | None => Err NotConfigured
  | Some (s, password) => send_with net s password m
  end.

(** ** The handlers of the settings *)

Context `{UuidText} `{F32}.

Definition require_admin_mail (s : Session) : result unit ApiProblem := if is_admin s then Ok tt else Err AP_Forbidden.

Definition get_mail (s : Session) (db : MailDb) : result (option Server) ApiProblem :=
  let? _ := require_admin_mail s in Ok (mw_server <$> md_row db).

(** [seen] is the table when the stored password is read, before the transaction. *)
Definition save_mail (s : Session) (new_id : Uuid) (input : Input) (seen : MailDb) (before : option MailRow) (db : MailDb) : result MailDb ApiProblem :=
  let? _ := require_admin_mail s in
  let? sp := server input in
  let password := password_for seen sp.1 sp.2 in
  let? bd := save new_id before sp.1 password db in
  let fields := changed bd.1 sp.1 ++ match sp.2 with Some _ => [lit "password"] | None => [] end in
  Ok (note_mail (user_id s) (MailChanged fields) bd.2).

Definition remove_mail (s : Session) (db : MailDb) : result MailDb ApiProblem :=
  let? _ := require_admin_mail s in
  let '(there, db) := remove db in
  if negb there then Err AP_NotFound else Ok (note_mail (user_id s) MailRemoved db).

Definition test_mail (net : Transport -> SmtpAnswer) (s : Session) (input : Input) (to language : list Z) (db : MailDb) :
    result (result unit MailStep) ApiProblem :=
  let? _ := require_admin_mail s in
  let? sp := server input in
  let password := password_for db sp.1 sp.2 in
  Ok (send_with net sp.1 password (outgoing_new (trim to) (from_accept_language language) MailTestSubject MailTestBody)).

(** ** The courier of Kratos *)

(** A JSON value as far as it is read: a text, a list with its texts, or
    something else. *)
Inductive HeaderValue := HV_String (text : list Z) | HV_Array (values : list (option (list Z))) | HV_Other.

(** [dv_code] is the code if the template's data hold one as text; the headers
    are in the order of the map's iteration. *)
Record Delivery := {
  dv_recipient : list Z; dv_template : list Z; dv_code : option (list Z); dv_headers : list (list Z * HeaderValue);
  dv_subject : list Z; dv_body : list Z
}.

(** The language the person asked in. *)
Definition delivery_locale (d : Delivery) : Locale :=
  let header := match List.find (fun h => eq_ignore_ascii_case h.1 (lit "accept-language")) (dv_headers d) with
                | Some (_, HV_String text) => text
                | Some (_, HV_Array values) => join (lit ",") (omap id values)
                | _ => []
                end in
  from_accept_language header.

Context `{Session.Sha256} (read_delivery : list Z -> option Delivery).

Definition outgoing (d : Delivery) : option Outgoing :=
  match bool_decide (dv_template d = lit "recovery_code_valid"), dv_code d with
  | true, Some code =>
      Some (outgoing_new (dv_recipient d) (delivery_locale d) MailRecoverySubject (MailRecoveryBody code))
  | _, _ => if bool_decide (dv_subject d = []) then None
            else Some {| og_to := dv_recipient d; og_subject := dv_subject d; og_text := dv_body d |}
  end.

Definition expected (token : list Z) : list Z := sha256 (utf8 (lit "Bearer " ++ token)).

(** The status it answers. *)
Definition deliver (net : Transport -> SmtpAnswer) (token : list Z) (authorization : option (list Z)) (body : list Z) (db : MailDb) : Z :=
  if negb (bool_decide (sha256 (default [] authorization) = expected token)) then 401
  else match read_delivery body with
       | None => 400
       | Some d =>
           match outgoing d with
           | None => 204
           | Some m => match send net db m with Ok _ => 204 | Err NotConfigured => 503 | Err _ => 502 end
           end
       end.

(** ** Theorems *)

(** *** The password *)

(** Who signs in does so over TLS. *)
Definition server_ok (s : Server) : Prop := ms_security s = Sec_None -> ms_username s = None.

Lemma server_Ok input s new :
  server input = Ok (s, new) -> server_ok s /\ (is_Some new -> is_Some (ms_username s)) /\ 1 <= ms_port s <= 65535.
Proof.
  unfold server. destruct (_ || _ || _); [done|]. destruct (default_port _) as [[sec p]|]; [|done]. cbn beta iota zeta. cbn [fst snd].
  destruct (negb ((1 <=? _) && _)) eqn:Hport; [done|]. destruct (bool_decide (sec = Sec_None) && _) eqn:Hnone; [done|].
  destruct (_ && negb (is_some (optional _))) eqn:Huser; [done|]. destruct (negb (is_address _)); [done|].
  destruct ((200 <? _) || _); [done|]. destruct (is_some_and _ _); [done|].
  intros [= <- <-]. apply negb_false_iff in Hport. bools. unfold server_ok. cbn [ms_security ms_username ms_port]. split_and!; [| |lia|lia].
  - intros ->. rewrite bool_decide_eq_true_2 in Hnone by done. cbn [andb] in Hnone. apply orb_false_iff in Hnone as [Hn _]. by apply is_some_false in Hn.
  - intros Hnew. apply is_some_true in Hnew. rewrite Hnew in Huser. cbn [andb] in Huser. apply negb_false_iff in Huser. by apply is_some_true in Huser.
Qed.

(** The sealed password is the one of the row's version, and no other is left. *)
Record mail_ok (db : MailDb) : Prop := {
  mo_server : forall row, md_row db = Some row -> server_ok (mw_server row);
  mo_sealed : forall row v, md_row db = Some row ->
    is_Some (md_secrets db !! (mw_id row, v, PASSWORD_FIELD)) <-> mw_version row = Some v
}.

(** The database draws an id nothing is sealed for. *)
Definition fresh_owner (id : Uuid) (db : MailDb) : Prop := forall v f, md_secrets db !! (id, v, f) = None.

Lemma save_spec new_id s password db before db' :
  mail_ok db -> fresh_owner new_id db -> server_ok s -> save new_id (md_row db) s password db = Ok (before, db') ->
  mail_ok db' /\ before = mw_server <$> md_row db
  /\ exists row, md_row db' = Some row /\ mw_server row = s /\ mw_id row = match md_row db with Some r => mw_id r | None => new_id end
       /\ match password with
          | None => mw_version row = None
          | Some p => exists v, mw_version row = Some v /\ md_secrets db' !! (mw_id row, v, PASSWORD_FIELD) = Some (utf8 p)
          end.
Proof.
  intros [Hsv Hse] Hfresh Hok. unfold save. cbn zeta.
  assert (Hrid : match md_row db with Some r => mw_id r | None => match md_row db with Some r => mw_id r | None => new_id end end
    = match md_row db with Some r => mw_id r | None => new_id end) by by destruct (md_row db).
  rewrite Hrid. clear Hrid. set (id := match md_row db with Some r => mw_id r | None => new_id end).
  assert (Hid : forall v, is_Some (md_secrets db !! (id, v, PASSWORD_FIELD)) <-> md_row db ≫= mw_version = Some v).
  { intros v. unfold id. destruct (md_row db) as [row|] eqn:Hrow; [by apply Hse|]. rewrite Hfresh. split; [by intros []|done]. }
  destruct password as [p|].
  - set (v := default 0 (md_row db ≫= mw_version) + 1). destruct (is_some _) eqn:Hnew; [done|]. cbn beta iota. intros [= <- <-].
    assert (Hkept : (id =? id) && bool_decide (PASSWORD_FIELD = PASSWORD_FIELD) && (v <? v) = false)
      by (rewrite Z.eqb_refl, bool_decide_eq_true_2, Z.ltb_irrefl by done; done).
    split; [split|]; cbn [md_row md_secrets fst snd].
    + intros row [= <-]. done.
    + intros row v' [= <-]. cbn [mw_id mw_version]. split.
      * intros [x [Hy Hold]%map_lookup_filter_Some]. cbn [fst snd] in Hold.
        destruct (decide (v' = v)) as [->|Hne]; [done|]. exfalso. rewrite lookup_insert_ne in Hy by congruence.
        assert (Hv : is_Some (md_secrets db !! (id, v', PASSWORD_FIELD))) by by exists x. apply Hid in Hv.
        rewrite Z.eqb_refl, bool_decide_eq_true_2 in Hold by done. cbn [andb] in Hold. bools. unfold v in *. rewrite Hv in *. cbn in *. lia.
      * intros [= <-]. exists (utf8 p). apply map_lookup_filter_Some. rewrite lookup_insert_eq. split; [done|]. apply Hkept.
    + split; [done|]. eexists. split; [done|]. cbn [mw_server mw_id mw_version]. split_and!; [done..|]. exists v. split; [done|].
      apply map_lookup_filter_Some. rewrite lookup_insert_eq. split; [done|]. apply Hkept.
  - cbn beta iota. intros [= <- <-]. split; [split|]; cbn [md_row md_secrets fst snd].
    + intros row [= <-]. done.
    + intros row v' [= <-]. cbn [mw_id mw_version]. split; [|done]. intros [x [_ Hold]%map_lookup_filter_Some]. cbn [fst snd] in Hold.
      rewrite Z.eqb_refl, bool_decide_eq_true_2 in Hold by done. done.
    + split; [done|]. eexists. split; [done|]. done.
Qed.

Lemma mail_ok_log user a db : mail_ok db -> mail_ok (note_mail user a db).
Proof. by intros [Hs Hse]. Qed.

Lemma stored_row db row : md_row db = Some row ->
  stored db = Some (mw_server row, v ← mw_version row; plain ← md_secrets db !! (mw_id row, v, PASSWORD_FIELD); from_utf8 plain).
Proof. intros Hr. unfold stored. by rewrite Hr. Qed.

(** Saving takes an administrator and keeps exactly what was given: a new
    password, or the old one while the user name stays; and no other version of
    it is left. *)
Theorem saved_mail_exact (s : Session) (new_id : Uuid) (input : Input) (db db' : MailDb) :
  mail_ok db -> fresh_owner new_id db ->
  Forall (fun c => scalar c = true) (default [] (mi_password input)) ->
  save_mail s new_id input db (md_row db) db = Ok db' ->
  is_admin s = true /\ mail_ok db'
  /\ exists sv new, server input = Ok (sv, new)
       /\ stored db' = Some (sv, match new with
                                 | Some p => Some p
                                 | None => match stored db with
                                           | Some (before, p) => if bool_decide (is_Some (ms_username sv) /\ ms_username before = ms_username sv) then p else None
                                           | None => None
                                           end
                                 end).
Proof.
  intros Hok Hfresh Hsc. unfold save_mail, require_admin_mail. destruct (is_admin s); [|done]. cbn beta iota.
  destruct (server input) as [[sv new]|] eqn:Hsv; [|done]. cbn [fst snd].
  destruct (save _ _ _ _ _) as [[before db1]|] eqn:Hsave; [|done]. cbn [fst snd]. intros [= <-].
  assert (Hnew : forall p, new = Some p -> Forall (fun c => scalar c = true) p).
  { intros p ->. revert Hsv. unfold server. destruct (_ || _ || _); [done|]. destruct (default_port _); [|done]. cbn beta iota zeta.
    repeat (match goal with |- (if ?b then _ else _) = _ -> _ => destruct b end; [done|]).
    intros [= _ Hp]. destruct (mi_password input) as [q|]; [|done]. cbn in Hp. case_bool_decide; by simplify_eq. }
  destruct (server_Ok _ _ _ Hsv) as (Hserver & Huser & _).
  destruct (save_spec _ _ _ _ _ _ Hok Hfresh Hserver Hsave) as (Hok' & _ & row & Hrow & <- & _ & Hpass).
  split; [done|]. split; [by apply mail_ok_log|]. exists (mw_server row), new. split; [done|].
  change (stored (note_mail ?u ?a db1)) with (stored db1). rewrite (stored_row _ row Hrow). do 2 f_equal.
  unfold password_for in Hpass. destruct new as [p|]; cbn [is_some orb] in Hpass.
  { destruct Hpass as (v & -> & Hp). unfold mbind, option_bind. rewrite Hp. by apply from_utf8_utf8, Hnew. }
  destruct (ms_username (mw_server row)) as [u|] eqn:Hu; cbn [is_some negb] in Hpass.
  - destruct (stored db) as [[bsv p]|] eqn:Hst; [|by rewrite Hpass].
    destruct (decide (ms_username bsv = Some u)) as [He|He].
    + rewrite bool_decide_eq_true_2 in Hpass by done. rewrite bool_decide_eq_true_2 by (split; [by eexists|done]).
      destruct p as [p|]; [|by rewrite Hpass]. destruct Hpass as (v & -> & Hp). unfold mbind, option_bind. rewrite Hp.
      unfold stored in Hst. destruct (md_row db) as [r0|]; [|done]. cbn in Hst. injection Hst as _ Hst.
      apply bind_Some in Hst as (v0 & _ & Hst). apply bind_Some in Hst as (b & _ & Hb). by apply from_utf8_utf8, (utf8_from_utf8 b).
    + rewrite bool_decide_eq_false_2 in Hpass by done. rewrite bool_decide_eq_false_2 by naive_solver. by rewrite Hpass.
  - rewrite Hpass. destruct (stored db) as [[bsv p]|]; [|done]. rewrite bool_decide_eq_false_2; [done|]. by intros [[] _].
Qed.

(** What happens to the table: administrators save, having read the stored
    password from any earlier state and having found the row, or none where one
    has come since, and remove. *)
Inductive mail_step : MailDb -> MailDb -> Prop :=
| step_save s new_id input seen before db db' :
    before = md_row db \/ before = None -> save_mail s new_id input seen before db = Ok db' -> mail_step db db'
| step_remove s db db' : remove_mail s db = Ok db' -> mail_step db db'.

Definition empty_mail : MailDb := {| md_row := None; md_secrets := ∅; md_log := [] |}.

Definition servers_ok (db : MailDb) : Prop := forall row, md_row db = Some row -> server_ok (mw_server row).

Lemma mail_step_ok db db' : servers_ok db -> mail_step db db' -> servers_ok db'.
Proof.
  intros Hok Hstep. revert Hok. destruct Hstep as [s new_id input seen before x x' _ Hs|s x x' Hr]; intros Hok.
  - unfold save_mail in Hs. destruct (require_admin_mail s); [|done]. cbn beta iota in Hs.
    destruct (server input) as [[sv new]|] eqn:Hsv; [|done]. cbn [fst snd] in Hs.
    destruct (server_Ok _ _ _ Hsv) as (Hserver & _). unfold save in Hs. cbn zeta in Hs.
    destruct (match password_for seen sv new with None => _ | Some _ => _ end); [|done]. injection Hs as <-. by intros row [= <-].
  - unfold remove_mail in Hr. destruct (require_admin_mail s); [|done]. cbn beta iota in Hr. unfold remove in Hr.
    destruct (md_row x) as [row|]; [|done]. cbn in Hr. injection Hr as <-. by intros row'.
Qed.

(** C38: A password never goes over an unencrypted connection: whoever saved what
    in whatever order, neither a mail of remotehub nor a test of settings signs
    in without TLS. *)
Theorem password_only_over_tls (db : MailDb) :
  rtc mail_step empty_mail db ->
  (forall s p m t, stored db = Some (s, p) -> transport s p m = Ok t -> is_Some (tp_credentials t) -> tp_tls t <> NoTls)
  /\ (forall input s new m t, server input = Ok (s, new) -> transport s (password_for db s new) m = Ok t ->
        is_Some (tp_credentials t) -> tp_tls t <> NoTls).
Proof.
  intros Hr. assert (Hok : servers_ok db).
  { assert (He : servers_ok empty_mail) by (intros row; cbn; discriminate). revert He. induction Hr as [|x y z Hxy _ IH]; [done|]. intros Hx. apply IH.
    by eapply mail_step_ok. }
  assert (Ht : forall s p m t, server_ok s -> transport s p m = Ok t -> is_Some (tp_credentials t) -> tp_tls t <> NoTls).
  { intros s p m t Hs. unfold transport. repeat (match goal with |- (if ?b then _ else _) = _ -> _ => destruct b end; [done|]).
    cbn zeta. repeat (match goal with |- (if ?b then _ else _) = _ -> _ => destruct b end; [done|]). intros [= <-]. cbn.
    unfold server_ok in Hs. destruct (ms_security s); try done. rewrite Hs by done. by intros []. }
  split.
  - intros s p m t Hst. unfold stored in Hst. destruct (md_row db) as [row|] eqn:Hrow; [|done]. cbn in Hst. injection Hst as <- _.
    apply Ht. by apply Hok.
  - intros input s new m t (Hs & _)%server_Ok. by apply Ht.
Qed.

(** *** The courier *)

(** Only who holds the token makes remotehub send, unless SHA-256 collides; and
    what Kratos hands over goes to the recipient it names. *)
Theorem only_kratos_sends (net net' : Transport -> SmtpAnswer) (token : list Z) (authorization : option (list Z)) (body : list Z) (db : MailDb) :
  deliver net token authorization body db <> deliver net' token authorization body db ->
  sha256 (default [] authorization) = sha256 (utf8 (lit "Bearer " ++ token))
  /\ exists d m s p t, read_delivery body = Some d /\ outgoing d = Some m /\ og_to m = dv_recipient d
       /\ stored db = Some (s, p) /\ transport s p m = Ok t /\ net t <> net' t.
Proof.
  unfold deliver, expected. case_bool_decide as Hh; [|done]. cbn [negb]. intros Hne. split; [done|].
  destruct (read_delivery body) as [d|]; [|done]. destruct (outgoing d) as [m|] eqn:Hm; [|done].
  unfold send in Hne. destruct (stored db) as [[s p]|]; [|done]. unfold send_with in Hne.
  destruct (transport s p m) as [t|e] eqn:Ht; [|by destruct e]. exists d, m, s, p, t. split_and!; try done.
  - unfold outgoing in Hm. destruct (bool_decide (dv_template d = _)), (dv_code d), (bool_decide (dv_subject d = [])); by simplify_eq.
  - intros Heq. apply Hne. cbn beta iota. by rewrite Heq.
Qed.

(** *** The HTML part *)

Lemma escape_mail_text s : Forall (fun c => c <> 60) (escape_mail s).
Proof.
  unfold escape_mail. induction s as [|c s IH]; [constructor|]. rewrite bind_cons. apply Forall_app. split; [|exact IH].
  repeat case_match; bools; repeat constructor; done.
Qed.

Definition MAIL_TAGS : list (list Z) :=
  [lit "<!doctype html>"; lit "<html>"; lit "<body style=" ++ QUOTE ++ lit "font-family: sans-serif" ++ QUOTE ++ lit ">";
   lit "<p>"; lit "</p>"; lit "<br>"; lit "</body>"; lit "</html>"].

(** Read from text on, [s] ends in text, and its tags are those of mails. *)
Definition mail_markup (s : list Z) : Prop :=
  exists tags, scan InText s = (InText, concat tags) /\ Forall (fun t => t ∈ MAIL_TAGS) tags.

Lemma mail_app a b : mail_markup a -> mail_markup b -> mail_markup (a ++ b).
Proof.
  intros (ta & Ha & Hta) (tb & Hb & Htb). exists (ta ++ tb). rewrite scan_app, Ha. cbn [fst snd].
  rewrite Hb. cbn [fst snd]. rewrite concat_app. split; [done|]. by apply Forall_app.
Qed.

Lemma mail_text s : Forall (fun c => c <> 60) s -> mail_markup s.
Proof.
  intros Hs. exists []. split; [|constructor]. induction Hs as [|c s Hc _ IH]; [done|]. cbn [scan].
  by rewrite (proj2 (Z.eqb_neq c 60)).
Qed.

Lemma mail_tag t : t ∈ MAIL_TAGS -> mail_markup t.
Proof.
  intros Ht. exists [t]. split; [|by apply Forall_singleton]. unfold MAIL_TAGS in Ht.
  repeat (apply elem_of_cons in Ht as [->|Ht]; [vm_compute; reflexivity|]). by apply elem_of_nil in Ht.
Qed.

Lemma mail_concat {A} (f : A -> list Z) l : Forall (fun x => mail_markup (f x)) l -> mail_markup (l ≫= f).
Proof. induction 1 as [|x l Hx _ IH]; [by apply mail_text|]. rewrite bind_cons. by apply mail_app. Qed.

Ltac a_mail_tag := apply mail_tag; match goal with |- ?P => apply (bool_decide_eq_true_1 P); vm_compute; reflexivity end.

Lemma paragraph_markup p : Forall (fun c => c <> 60) p -> mail_markup (paragraph p).
Proof.
  intros Hp. unfold paragraph. apply mail_app; [a_mail_tag|]. apply mail_app; [|a_mail_tag]. apply mail_concat.
  apply Forall_trim in Hp. eapply Forall_impl; [exact Hp|]. intros c Hc. cbn beta.
  destruct (c =? 10); [a_mail_tag|]. apply mail_text. by repeat constructor.
Qed.

Lemma paragraphs_text fuel s : Forall (fun c => c <> 60) s -> Forall (Forall (fun c => c <> 60)) (split_paragraphs fuel s).
Proof.
  revert s. induction fuel as [|fuel IH]; intros s Hs; simpl; [by repeat constructor|].
  destruct (split_once_at [10; 10] s) as [[a b]|] eqn:E; [|by repeat constructor].
  apply split_once_at_Some in E as ->. apply Forall_app in Hs as [Ha [_ Hb]%Forall_app]. constructor; [done|by apply IH].
Qed.

(** Whatever a mail says, its HTML part holds no markup but its own. *)
Theorem mails_have_only_own_markup (text : str) : mail_markup (mail_html text).
Proof.
  unfold mail_html. cbn zeta. change (lit "<!doctype html><html><body style=" ++ QUOTE ++ lit "font-family: sans-serif" ++ QUOTE ++ lit ">" ++ ?x)
    with (lit "<!doctype html>" ++ lit "<html>" ++ (lit "<body style=" ++ QUOTE ++ lit "font-family: sans-serif" ++ QUOTE ++ lit ">") ++ x).
  apply mail_app; [a_mail_tag|]. apply mail_app; [a_mail_tag|]. apply mail_app; [a_mail_tag|]. apply mail_app.
  - apply mail_concat. eapply Forall_impl; [apply paragraphs_text, escape_mail_text|]. intros p. apply paragraph_markup.
  - change (lit "</body></html>") with (lit "</body>" ++ lit "</html>"). apply mail_app; a_mail_tag.
Qed.

End mail.

(** ** Examples *)

Module MailExamples.

#[local] Existing Instance RequestExamples.decimal_uuid.
#[local] Instance plain_lettre : Lettre := {|
  is_address := fun a => bool_decide (64 ∈ a); is_mailbox := fun a => bool_decide (64 ∈ a); is_certificate := fun _ => true;
  tls_builds := fun _ _ => true; message_builds := fun _ _ _ _ => true |}.
#[local] Instance plain_f32 : F32 := {| f32_parse := fun _ => None; f32_one := 1; f32_positive := fun x => 0 <? x; f32_total_le := Z.leb |}.
#[local] Instance plain_sum : Session.Sha256 := fun s => s.

Definition given (host : string) (password : option string) : Input :=
  {| mi_host := lit host; mi_port := None; mi_security := lit "starttls"; mi_username := Some (lit "remotehub");
     mi_password := (fun p => lit p) <$> password; mi_from_address := lit "hub@lab.example"; mi_from_name := None; mi_ca_pem := None |}.

Definition boss : Session := RequestExamples.boss.

Definition saved (input : Input) (seen db : MailDb) : MailDb :=
  match save_mail boss 5 input seen (md_row db) db with Ok db => db | Err _ => db end.

Definition w1 : MailDb := saved (given "mail.lab.example" (Some "geheim"%string)) empty_mail empty_mail.

Lemma w1_saved : save_mail boss 5 (given "mail.lab.example" (Some "geheim"%string)) empty_mail None empty_mail = Ok w1.
Proof. vm_compute. reflexivity. Qed.

Lemma empty_fresh id : fresh_owner id empty_mail.
Proof. intros v f. apply lookup_empty. Qed.

Lemma geheim_scalar : Forall (fun c => scalar c = true) (default [] (mi_password (given "mail.lab.example" (Some "geheim"%string)))).
Proof. match goal with |- ?P => apply (bool_decide_eq_true_1 P); vm_compute; reflexivity end. Qed.

Lemma saved_mail_exact_witness :
  is_admin boss = true /\ option_map snd (stored w1) = Some (Some (lit "geheim")).
Proof.
  assert (He : mail_ok empty_mail) by (constructor; cbn; discriminate).
  destruct (saved_mail_exact boss 5 (given "mail.lab.example" (Some "geheim"%string)) empty_mail w1 He (empty_fresh 5) geheim_scalar w1_saved)
    as (Ha & _ & sv & new & Hsv & Hst).
  split; [exact Ha|]. rewrite Hst. vm_compute in Hsv. injection Hsv as <- <-. reflexivity.
Defined.

Lemma saved_reachable : rtc mail_step empty_mail w1.
Proof. apply rtc_once. eapply step_save; [by left|exact w1_saved]. Qed.

Definition hello : Outgoing := {| og_to := lit "ann@lab.example"; og_subject := lit "hello"; og_text := lit "<b>" |}.

Definition sent : option Transport := '(s, p) ← stored w1; ok (transport s p hello).

Lemma password_only_over_tls_witness :
  (tp_credentials <$> sent) = Some (Some (lit "remotehub", lit "geheim"))
  /\ forall t, sent = Some t -> tp_tls t <> NoTls.
Proof.
  split; [vm_compute; reflexivity|]. destruct (password_only_over_tls w1 saved_reachable) as [H _].
  intros t Ht. assert (Hc : (tp_credentials <$> sent) = Some (Some (lit "remotehub", lit "geheim"))) by (vm_compute; reflexivity).
  rewrite Ht in Hc. unfold sent in Ht. apply bind_Some in Ht as ([s p] & Hst & Ht).
  apply (H s p hello t Hst); [|injection Hc as ->; by eexists].
  destruct (transport s p hello); simpl in Ht; congruence.
Defined.

(** A test of settings takes the stored password to any host an administrator
    names, as long as the user name is the stored one. *)
Example stored_password_to_another_host :
  let input := given "mail.evil.example" None in
  match server input with
  | Ok (s, new) => ((fun t => (tp_host t, tp_credentials t)) <$> ok (transport s (password_for w1 s new) hello))
                   = Some (lit "mail.evil.example", Some (lit "remotehub", lit "geheim"))
  | Err _ => False
  end.
Proof. vm_compute. reflexivity. Qed.

(** Two administrators save at the same time: the password one has just set is
    replaced by the one before, which the other had read. *)
Example old_password_comes_back :
  let renewed := saved (given "mail.lab.example" (Some "new"%string)) w1 w1 in
  let both := saved (given "mx.lab.example" None) w1 renewed in
  option_map snd (stored renewed) = Some (Some (lit "new")) /\ option_map snd (stored both) = Some (Some (lit "geheim")).
Proof. split; vm_compute; reflexivity. Qed.

(** Two first saves at once: the second finds no row, and its server goes into
    the row of the first, with the first one's password. *)
Example first_saves_mix :
  match save_mail boss 6 (given "mx.other.example" (Some "other"%string)) empty_mail None w1 with
  | Ok both => (fun sp => (ms_host sp.1, sp.2)) <$> stored both = Some (lit "mx.other.example", Some (lit "geheim"))
  | Err _ => False
  end.
Proof. vm_compute. reflexivity. Qed.

Definition read (body : list Z) : option Delivery :=
  Some {| dv_recipient := lit "ann@lab.example"; dv_template := lit "recovery_code_valid"; dv_code := Some body;
          dv_headers := [(lit "Accept-Language", HV_Array [Some (lit "de-DE,de;q=0.9")])]; dv_subject := []; dv_body := [] |}.

Definition rendered (_ : Locale) (m : MailText) : list Z := match m with MailRecoveryBody code => code | _ => lit "text" end.

Definition deliver_ (answer : SmtpAnswer) (authorization : option (list Z)) : Z :=
  deliver rendered read (fun _ => answer) (lit "token") authorization (lit "123456") w1.

Lemma only_kratos_sends_witness :
  deliver_ SA_Sent (Some (lit "Bearer token")) = 204 /\ deliver_ SA_OtherError (Some (lit "Bearer token")) = 502
  /\ sha256 (default [] (Some (lit "Bearer token"))) = sha256 (utf8 (lit "Bearer " ++ lit "token"))
  /\ deliver_ SA_Sent None = 401.
Proof.
  split; [vm_compute; reflexivity|]. split; [vm_compute; reflexivity|]. split; [|vm_compute; reflexivity].
  apply (only_kratos_sends rendered read (fun _ => SA_Sent) (fun _ => SA_OtherError) (lit "token") (Some (lit "Bearer token")) (lit "123456") w1).
  vm_compute. discriminate.
Defined.

End MailExamples.
